(* ===== verification/_CoqProject ===== *)
-Q . S2P
Prelude.v
HfsFormat.v
Bytes.v
BTNode.v
ExtentKeys.v
BTNodeProps.v
BTRotate.v
NodeReserve.v
BTStore.v
BTAlloc.v
BTAllocProps.v
BTTree.v
BTMisc.v
BTree.v
BTTreeProps.v
BTMiscProps.v
BTBalance.v
BTreeProps.v
RangeList.v
FreeExtCache.v
Bitmap.v
BitmapBits.v
BitmapWalk.v
BitmapMark.v
BitmapFree.v
BitmapReserve.v
BitmapCount.v
BitmapProps.v
BitmapUnused.v
JournalTrim.v
JournalTrimProps.v
JournalIO.v
JournalCoalesce.v
CoalesceProps.v
JournalReplay.v
JournalIOProps.v
ReplayProps.v
ReplayLoop.v
ReplayCorrect.v
BlhdrOrder.v
ReplayExample.v
Volume.v
VolumeOps.v
BlockSearch.v
BlockAlloc.v
VolumeProps.v
BlockSearchProps.v
ContigProps.v
AllocSearchProps.v
AllocInv.v
AllocProps.v
FreeProps.v
AllocSafety.v
AllocExample.v
ExtentsFile.v
FileExtents.v
ForkRep.v
FileSearchProps.v
FileStepProps.v
FileTruncateProps.v
FileHeadProps.v
FileExtendSteps.v
FileExtendProps.v
FileExample.v
JournalWriteProps.v
JournalTransaction.v
JournalCommit.v
LogProps.v
CommitProps.v
CopyProps.v
SpaceProps.v
FreeSpaceProps.v
CommitLog.v
CommitIssue.v
EndTransactionProps.v
RecoveryProps.v
TransactionProps.v
EndCallProps.v
JournalClose.v
TransactionExample.v
