(* ===== verification/Prelude.v ===== *)
(** * HFS: a verified model of the core of the file system

    This library models the parts of the HFS+ file system (src/core) that decide where
    data is: the B-trees that hold the catalog and the extents, and the allocator that
    hands out the blocks of a volume.  Definitions carry the names of the C functions
    they translate; the comment on top of each file says which source file it is about.

    ** How the parts interact

    A B-tree file is an array of nodes in a buffer store.  BTree.c finds, inserts and
    deletes records; it walks the tree with BTreeTreeOps.c, which works on the bytes of
    single nodes with BTreeNodeOps.c and gets new nodes from the node map of
    BTreeAllocate.c, within the reserves of BTreeNodeReserve.c.

    A volume has a bitmap with one bit per allocation block.  VolumeAllocation.c
    searches it for free runs, helped by the free extent cache (runs known to be free)
    and the summary table (one bit per bitmap block without free blocks), keeps out of
    the reserved ranges, marks what it gives and clears what it takes back.  Blocks that
    are freed go to the trim list of the journal's active transaction; when the
    transaction is on disk the journal calls back, and they go to the cache.

    A file is a list of extents: eight in its control block, the others in records of the
    extents overflow file, a B-tree.  FileExtentMapping.c looks positions up in them, and
    gives and takes blocks with BlockAllocate and BlockDeallocate; a new record may make
    the tree itself grow.

    The journal is a ring of bytes on a device.  Buffers that change are collected in a
    transaction; when it is committed it is written to the ring, as block list headers
    with blocks behind them, and then its blocks are written to the file system, while
    the next transaction is built.  It stays in the ring until its room is needed.  When
    a volume was not unmounted hfs_journal.c replays the ring: it reads the headers into
    a table that says for each byte of the file system where its last value is, writes
    the blocks of the table, and empties the journal.

    ** Files

    Shared: Prelude (machine integers, the lemmas and tactics all files use), HfsFormat
    (types and constants of hfs_format.h), Bytes (buffers read and written through
    casted pointers, big endian where the disk is).

    B-trees: BTNode and BTNodeProps (BTreeNodeOps.c on the bytes of a node; [node_rep]
    relates the bytes to a list of records), ExtentKeys (CompareExtentKeysPlus and the
    order it must be), BTRotate (RotateLeft), NodeReserve (BTreeNodeReserve.c), BTStore
    (the state: control block, buffers, outcomes of the block I/O), BTAlloc and
    BTAllocProps (BTreeAllocate.c; the map as one list of bits), BTTree and BTTreeProps
    (BTreeTreeOps.c; [bt_tree] is a well-formed tree), BTMisc and BTMiscProps
    (BTreeMiscOps.c), BTree and BTreeProps (BTree.c), BTBalance (rotation and splitting
    on lists of records, and an example tree).

    The allocator: RangeList (rangelist.c), FreeExtCache (the cache), Bitmap with
    BitmapBits, BitmapWalk, BitmapMark, BitmapFree, BitmapReserve, BitmapCount,
    BitmapProps and BitmapUnused (marking, clearing, testing and counting runs of bits,
    a bitmap block at a time, and the reserved ranges put in a buffer), JournalTrim and
    JournalTrimProps (the trim lists of hfs_journal.c), Volume (the state, the summary
    table, the count of free blocks), VolumeOps (trims, marking and clearing with the
    journal in step, reserved ranges, BlockDeallocate), BlockSearch (the searches),
    BlockAlloc (hfs_block_alloc_int), VolumeProps (well-formed volumes), BlockSearchProps,
    ContigProps and AllocSearchProps (the searches are right and end), AllocInv (the
    invariant and the steps that keep it), AllocProps and FreeProps (BlockAllocate and
    BlockDeallocate), AllocSafety (sequences of both with transactions in between),
    AllocExample (a small volume).

    Files: ExtentsFile (the class [ExtentsTree] of the operations on the extents overflow
    file, their laws [ExtentsTreeLaws], and [Finite], an implementation by a finite map),
    FileExtents (FileExtentMapping.c), ForkRep (the extents of a file, in records and on
    the disk), FileSearchProps, FileStepProps, FileTruncateProps, FileHeadProps,
    FileExtendSteps and FileExtendProps (searching, cutting and extending), FileExample
    (a file of nine extents).

    The journal: JournalIO (the journal header, requests to the devices), JournalCoalesce
    (the table: lookup_bucket, do_overlap, insert_block, add_block), CoalesceProps ([source]
    is what a table means), JournalReplay (block list headers and replay_journal),
    JournalIOProps (reading the ring), ReplayProps (the log as a chain of headers, and
    what its writes are), ReplayLoop (the loop reads the whole log), ReplayCorrect (the
    replay), BlhdrOrder (headers in both byte orders), ReplayExample (a small journal).

    Transactions: JournalTransaction (building them), JournalCommit (check_free_space,
    end_transaction, completions, journal_flush, journal_relocate), JournalWriteProps
    (writing the ring), LogProps and CommitProps (the headers of a transaction as they
    are written), CopyProps (the buffers are copied), SpaceProps (the invariant [jmem] of
    the journal: its log in the ring, old_start, what is under way), FreeSpaceProps
    (check_free_space), CommitLog and CommitIssue (the log grows, the writes are issued),
    EndTransactionProps (end_transaction), RecoveryProps (a crash at any
    time, and journal_flush), TransactionProps (the invariant [building]), EndCallProps
    (starting and ending), JournalClose (journal_close), TransactionExample (a small
    journal).

    ** What the theorems show

    Nodes and trees: each node operation does to the list of records what it should and
    to the bytes of the others nothing; searching finds what is in the tree and says
    where a key would go; an insertion adds one record, splitting nodes up to the root,
    a deletion removes one and gives its empty nodes back; duplicates, full files and
    damaged headers are errors.  The map of nodes gives the first free node and the
    reserves add up.

    The bitmap: any sequence of marking, clearing, testing and counting is one that a
    contract on sets of blocks allows; freeing blocks that are not allocated is refused;
    the extent handed to the unmap has only free blocks.  The trim lists stay ordered and
    disjoint, and are the union or the difference they should be.  The cache keeps its
    invariant and never holds a block twice.

    The allocator: every search ends, with a run of free blocks in bounds, or it says that
    the disk is full (which means that there is nothing to find, under conditions on the
    flags and the summary table that each theorem gives), or with an error of the block
    I/O; BlockAllocate and BlockDeallocate keep the invariant [alloc_inv], up to an error
    of the block I/O while blocks are marked as allocated; in any sequence of allocations,
    frees, ends of transactions and completed trims no block is given twice, and freed
    blocks come back to the cache, if it has the slots for them.

    Files: a position is found in the extent that has it, whichever record that is in;
    extending a file leaves its extents where they are and puts blocks after them that
    were free, truncating it leaves the extents before the end, cutting its head those
    behind; the records of the tree are again those of the extents the file has, those of
    other files are as they were, and what is freed is what the file does not have any
    more.  Failures of the allocator and of the tree are outcomes like the others, but
    after a failure of the tree while a file is extended only the bitmap and the count of
    its blocks are spoken of, and the theorem on cutting the head takes a tree without
    failures and a cut at the end of an extent.

    The journal: reading it gives the bytes of its ring; adding a block to the table makes
    the block the source of its bytes and of no others; a replay is the same as writing
    the blocks of the log one after the other, and after a write that fails it can be
    done again; a header is read as it was stored, in either byte order.

    Transactions: what the log and the file system make together, which is what a replay
    gives, is what it was before with the blocks of the transaction that is committed,
    from the return of end_transaction on and whichever of its writes are done when the
    machine stops; room is made only by dropping transactions that are on the file
    system; building a transaction keeps its buffers in order and within the memory of
    its headers, and starts a new header only when the last one has no room; journal_flush and journal_close come back when all blocks are on the
    file system.  A transaction whose blocks were all killed is an exception: it is never
    done, and check_free_space panics (killed_transaction_stuck).

    ** How the C is modelled

    C integers are [Z] with the wrap-around of their width at each operation that can
    wrap.  Code with state is a function from a state to an option of a result and a new
    state; [None] is a panic, a read outside of a buffer, or a loop out of fuel, so a
    theorem that gives a result excludes all of these.  What the code asks of the kernel
    (block reads and releases, allocations of memory) answers from lists of results in
    the state, so theorems hold for every outcome.  PanicIf and hfs_assert are empty in
    release builds; panic() is a fault.  Locks, traces and printing are left out: an
    operation is one step.  setEndOfForkProc and the callback of BTUpdateRecord are
    parameters.

    Fuel, one more than the loop can take, is computed from the data: the records of a
    node plus one for its search, twos more for balancing, totalNodes plus one for the
    chain of map nodes, treeDepth plus one or two for walks in the tree, the length of a
    list for range lists, twice the size of the cache for the cache, the words of a run
    for the bitmap, blocks to the end of the search for the block searches, and
    twice the allocation limit for BlockFindContig, which nothing in the code counts: it
    is enough because each turn moves past a run that waits (BlockFindContig_correct);
    for the records of a file the records of the tree plus one, and for extending a file
    the blocks asked for plus five, of which four are for the retries with fewer flags;
    for requests to the journal the bytes plus one; for the table its entries plus one;
    the loops of check_free_space and journal_close have the bounds that they have in the
    code (5000, and 10000 for an entry); joining completed transactions starts over when
    two are joined, so its fuel is about the square of their number.  The loop of
    replay_journal has no bound in the code (a header may be its own next one), its fuel
    is an argument, and two more than the headers of the log are enough.

    ** Not modelled

    Opening and creating journals; threads: one thread runs, the one that writes the
    header for end_transaction and the one that finishes it do so at once, and only the
    completions of writes to the file system come at any time and in any order.  The
    theorems on transactions take a device without errors, and RecoveryProps a ring in
    which no good header of the next number is behind the log ([ends_there]).  The catalog
    and the vnode layer, which build on the parts above; the records of HFS (not plus)
    volumes in FileExtentMapping.c, the deferral of an allocation and AddFileExtent have
    definitions without theorems, or none, as have aborting a transaction and relocating
    the journal; the scans of a whole volume in VolumeAllocation.c; opening, closing and iterating B-trees in BTree.c; ModifyBlock
    bookkeeping of buffers; device requests that leave no trace in this state (unmap,
    pin, map); fsck_hfs and the user-space ports, which have copies of the same
    algorithms; tools, tests and generated tables. *)

From Stdlib Require Export ZArith Lia Bool.
From stdpp Require Export base numbers list list_numbers sorting sets gmap.

#[global] Set Default Goal Selector "!".

(** ** Scopes and notations *)

Declare Scope hfs_scope.
Delimit Scope hfs_scope with hfs.
#[global] Open Scope Z_scope.
#[global] Open Scope hfs_scope.

(** ** Machine integers

    C integers are modelled as [Z] with the wrap-around of their width
    written out at every operation of the source that can wrap. *)

Definition wrap (w x : Z) : Z := x mod 2 ^ w.
Definition swrap (w x : Z) : Z := (x + 2 ^ (w - 1)) mod 2 ^ w - 2 ^ (w - 1).

Definition u8 (x : Z) : Z := wrap 8 x.
Definition u16 (x : Z) : Z := wrap 16 x.
Definition u32 (x : Z) : Z := wrap 32 x.
Definition u64 (x : Z) : Z := wrap 64 x.
Definition s16 (x : Z) : Z := swrap 16 x.
Definition s32 (x : Z) : Z := swrap 32 x.
Definition s64 (x : Z) : Z := swrap 64 x.

Definition UINT8_MAX : Z := 2 ^ 8 - 1.
Definition UINT16_MAX : Z := 2 ^ 16 - 1.
Definition UINT32_MAX : Z := 2 ^ 32 - 1.
Definition INT64_MAX : Z := 2 ^ 63 - 1.

Lemma wrap_id (w x : Z) : 0 <= x < 2 ^ w -> wrap w x = x.
Proof. unfold wrap. intros. by apply Z.mod_small. Qed.

Lemma wrap_bound (w x : Z) : 0 <= w -> 0 <= wrap w x < 2 ^ w.
Proof. unfold wrap. intros. apply Z.mod_pos_bound. by apply Z.pow_pos_nonneg. Qed.

Lemma swrap_id (w x : Z) :
  0 < w -> - 2 ^ (w - 1) <= x < 2 ^ (w - 1) -> swrap w x = x.
Proof.
  unfold swrap. intros Hw Hx.
  assert (2 ^ w = 2 * 2 ^ (w - 1)) as E.
  { rewrite <- Z.pow_succ_r by lia. f_equal. lia. }
  rewrite Z.mod_small by lia. lia.
Qed.

Lemma u8_id x : 0 <= x <= UINT8_MAX -> u8 x = x.
Proof. unfold UINT8_MAX. intros. apply wrap_id. lia. Qed.
Lemma u16_id x : 0 <= x <= UINT16_MAX -> u16 x = x.
Proof. unfold UINT16_MAX. intros. apply wrap_id. lia. Qed.
Lemma u32_id x : 0 <= x <= UINT32_MAX -> u32 x = x.
Proof. unfold UINT32_MAX. intros. apply wrap_id. lia. Qed.
Lemma s64_id x : - 2 ^ 63 <= x <= INT64_MAX -> s64 x = x.
Proof. unfold INT64_MAX. intros. apply swrap_id; lia. Qed.
Lemma s32_id x : - 2 ^ 31 <= x < 2 ^ 31 -> s32 x = x.
Proof. intros. apply swrap_id; lia. Qed.
Lemma s16_id x : - 2 ^ 15 <= x < 2 ^ 15 -> s16 x = x.
Proof. intros. apply swrap_id; lia. Qed.

Lemma u32_pred_succ i : 0 <= i <= UINT32_MAX -> u32 (u32 (i - 1) + 1) = i.
Proof.
  unfold UINT32_MAX, u32, wrap. intros. rewrite Z.add_mod_idemp_l by lia.
  rewrite Z.mod_small by lia. lia.
Qed.

Lemma u16_bound x : 0 <= u16 x <= UINT16_MAX.
Proof. pose proof (wrap_bound 16 x). unfold u16, UINT16_MAX. lia. Qed.
Lemma u32_bound x : 0 <= u32 x <= UINT32_MAX.
Proof. pose proof (wrap_bound 32 x). unfold u32, UINT32_MAX. lia. Qed.

(** ** Automation *)

(** Case analysis on the integer tests of the code, in the goal and in the
    hypotheses. *)
Ltac zcase_goal :=
  match goal with
  | |- context [Z.ltb ?a ?b] => destruct (Z.ltb_spec a b)
  | |- context [Z.leb ?a ?b] => destruct (Z.leb_spec a b)
  | |- context [Z.eqb ?a ?b] => destruct (Z.eqb_spec a b)
  end.
Ltac zcase_hyp :=
  match goal with
  | H : context [Z.ltb ?a ?b] |- _ => destruct (Z.ltb_spec a b)
  | H : context [Z.leb ?a ?b] |- _ => destruct (Z.leb_spec a b)
  | H : context [Z.eqb ?a ?b] |- _ => destruct (Z.eqb_spec a b)
  end.
Ltac zcases := repeat (zcase_goal; simpl in *; try lia; try done).
Ltac zcases_in_hyps := repeat (zcase_hyp; simpl in *; try lia; try done).

Create HintDb hfs.

(** ** Lists *)

Section Lists.
Context {A : Type}.
Implicit Types (l pre post : list A) (x : A).

Lemma lookup_middle pre x post : (pre ++ x :: post) !! length pre = Some x.
Proof. apply list_lookup_middle. done. Qed.

Lemma lookup_S_middle pre x y post :
  (pre ++ x :: y :: post) !! S (length pre) = Some y.
Proof.
  rewrite lookup_app_r by lia.
  replace (S (length pre) - length pre)%nat with 1%nat by lia. done.
Qed.

Lemma take_middle pre x post : take (length pre) (pre ++ x :: post) = pre.
Proof. by rewrite take_app_length. Qed.

Lemma drop_middle pre x post : drop (length pre) (pre ++ x :: post) = x :: post.
Proof. by rewrite drop_app_length. Qed.

Lemma drop_S_middle pre x post : drop (S (length pre)) (pre ++ x :: post) = post.
Proof.
  rewrite drop_app_ge by lia.
  replace (S (length pre) - length pre)%nat with 1%nat by lia. done.
Qed.

Lemma take_S_middle pre x post : take (S (length pre)) (pre ++ x :: post) = pre ++ [x].
Proof.
  rewrite take_app_ge by lia.
  replace (S (length pre) - length pre)%nat with 1%nat by lia. done.
Qed.

Lemma alter_middle (f : A -> A) pre x post :
  alter f (length pre) (pre ++ x :: post) = pre ++ f x :: post.
Proof. rewrite <- (Nat.add_0_r (length pre)) at 1. by rewrite alter_app_r. Qed.

Lemma insert_middle pre x y post :
  <[length pre := y]> (pre ++ x :: post) = pre ++ y :: post.
Proof. rewrite <- (Nat.add_0_r (length pre)) at 1. by rewrite insert_app_r. Qed.

Lemma delete_middle_length pre x post :
  delete (length pre) (pre ++ x :: post) = pre ++ post.
Proof. apply delete_middle. Qed.

Lemma StronglySorted_take (R : relation A) n l :
  StronglySorted R l -> StronglySorted R (take n l).
Proof. rewrite <- (take_drop n l) at 1. rewrite StronglySorted_app. tauto. Qed.

(** A symmetric relation holds pairwise wherever an element is inserted. *)
Lemma StronglySorted_sym_middle (R : relation A) `{!Symmetric R} pre x post :
  StronglySorted R (pre ++ x :: post) <->
  StronglySorted R (pre ++ post) /\ Forall (R x) (pre ++ post).
Proof.
  rewrite !StronglySorted_app, StronglySorted_cons, !Forall_app, !Forall_forall.
  split.
  - intros (Hc & Hp & Hs & Hx). split_and!; try done.
    + intros a b Ha Hb. apply Hc; [done | by right].
    + intros a Ha. symmetry. apply Hc; [done | left].
  - intros ((Hc & Hp & Hs) & Hx1 & Hx2). split_and!; try done.
    intros a b Ha [->|Hb]%elem_of_cons; [|by apply Hc]. symmetry. by apply Hx1.
Qed.

Lemma StronglySorted_middle (R : relation A) pre x post :
  StronglySorted R (pre ++ x :: post) ->
  StronglySorted R pre /\ StronglySorted R post /\
  Forall (fun a => R a x) pre /\ Forall (R x) post /\
  (forall a b, a ∈ pre -> b ∈ post -> R a b).
Proof.
  intros H. apply StronglySorted_app in H as (Hc & Hp & Hx).
  apply StronglySorted_cons in Hx as (Hs & Hf).
  split_and!; try done.
  - apply Forall_forall. intros a Ha. apply Hc; [done | left].
  - intros a b Ha Hb. apply Hc; [done | by right].
Qed.
End Lists.
