(* ===== verification/HfsFormat.v ===== *)
(** * On-disk types and constants

    The declarations of core/hfs_format.h, core/hfs.h and the error codes of
    core/FileMgrInternal.h, core/BTreesInternal.h and core/hfs_macos_defs.h that
    the modelled code uses. *)

From S2P Require Import Prelude.

(** ** Extents *)

Record HFSPlusExtentDescriptor := mkExtent {
  startBlock : Z;   (* u_int32_t: first allocation block *)
  blockCount : Z;   (* u_int32_t: number of allocation blocks *)
}.

#[export] Instance HFSPlusExtentDescriptor_eq_dec : EqDecision HFSPlusExtentDescriptor.
Proof. solve_decision. Defined.

#[export] Instance HFSPlusExtentDescriptor_inhabited : Inhabited HFSPlusExtentDescriptor :=
  populate (mkExtent 0 0).

Definition kHFSPlusExtentDensity : Z := 8.

(** ** Error codes *)

Definition ERR_BASE : Z := -32767.

Definition noErr : Z := 0.
Definition dskFulErr : Z := -34.
Definition paramErr : Z := -50.
Definition EIO : Z := 5.
Definition EINVAL : Z := 22.
Definition ENOSPC : Z := 28.

Definition fxRangeErr : Z := ERR_BASE + 16.
Definition fxOvFlErr : Z := ERR_BASE + 17.
Definition btNotFound : Z := ERR_BASE + 32.
Definition btExists : Z := ERR_BASE + 33.
Definition btNoSpaceAvail : Z := ERR_BASE + 34.
Definition btNoFit : Z := ERR_BASE + 35.
Definition btBadNode : Z := ERR_BASE + 36.
Definition btBadHdr : Z := ERR_BASE + 37.
Definition dsBadRotate : Z := ERR_BASE + 64.

Definition fsBTInvalidHeaderErr : Z := btBadHdr.
Definition fsBTBadRotateErr : Z := dsBadRotate.
Definition fsBTInvalidNodeErr : Z := btBadNode.
Definition fsBTRecordTooLargeErr : Z := btNoFit.
Definition fsBTRecordNotFoundErr : Z := btNotFound.
Definition fsBTDuplicateRecordErr : Z := btExists.
Definition fsBTFullErr : Z := btNoSpaceAvail.
Definition fsBTInvalidFileErr : Z := ERR_BASE + 0x302.
Definition fsBTInvalidIteratorErr : Z := ERR_BASE + 0x308.
Definition fsBTEmptyErr : Z := ERR_BASE + 0x30A.
Definition fsBTNoMoreMapNodesErr : Z := ERR_BASE + 0x30B.
Definition fsBTBadNodeType : Z := ERR_BASE + 0x30D.
Definition fsBTUnknownVersionErr : Z := ERR_BASE + 0x355.
