(* ===== verification/Bytes.v ===== *)
(** * Byte buffers

    A buffer the C code reads and writes through casted pointers (a B-tree node,
    a bitmap block) is a list of bytes.  Every access is checked: reading or
    writing outside the buffer is [None], so a theorem that an operation returns
    [Some] also says it stays inside its buffers.  In-memory integers are in
    host order, little-endian on the machines HFS runs on. *)

From S2P Require Import Prelude.

Notation bytes := (list Z).

(** The length of a buffer as an offset. *)
Notation len l := (Z.of_nat (length l)).

Definition byte_ok (b : Z) : Prop := 0 <= b < 256.

(** ** Integers in memory *)

Fixpoint le_bytes (n : nat) (v : Z) : bytes :=
  match n with
  | O => []
  | S n' => (v mod 256) :: le_bytes n' (v / 256)
  end.

Fixpoint le_value (bs : bytes) : Z :=
  match bs with
  | [] => 0
  | b :: bs' => b + 256 * le_value bs'
  end.

Definition le16 (v : Z) : bytes := le_bytes 2 v.
Definition le32 (v : Z) : bytes := le_bytes 4 v.
#[global] Arguments le16 : simpl never.
#[global] Arguments le32 : simpl never.

(** ** Accesses *)

Definition get_bytes (b : bytes) (off n : Z) : option bytes :=
  if (0 <=? off) && (0 <=? n) && (off + n <=? len b)
  then Some (take (Z.to_nat n) (drop (Z.to_nat off) b)) else None.

Definition put_bytes (b : bytes) (off : Z) (bs : bytes) : option bytes :=
  if (0 <=? off) && (off + len bs <=? len b)
  then Some (take (Z.to_nat off) b ++ bs ++ drop (Z.to_nat off + length bs) b) else None.

Definition ld8 (b : bytes) (off : Z) : option Z := le_value <$> get_bytes b off 1.
Definition ld16 (b : bytes) (off : Z) : option Z := le_value <$> get_bytes b off 2.
Definition ld32 (b : bytes) (off : Z) : option Z := le_value <$> get_bytes b off 4.
Definition st8 (b : bytes) (off v : Z) : option bytes := put_bytes b off (le_bytes 1 v).
Definition st16 (b : bytes) (off v : Z) : option bytes := put_bytes b off (le16 v).
Definition st32 (b : bytes) (off v : Z) : option bytes := put_bytes b off (le32 v).

(** bcopy inside one buffer (overlap allowed). *)
Definition bcopy_in (b : bytes) (src dst n : Z) : option bytes :=
  bs ← get_bytes b src n; put_bytes b dst bs.

(** bcopy from another buffer. *)
Definition bcopy_from (other : bytes) (src : Z) (b : bytes) (dst n : Z) : option bytes :=
  bs ← get_bytes other src n; put_bytes b dst bs.

Definition ClearMemory (b : bytes) (off n : Z) : option bytes :=
  if 0 <=? n then put_bytes b off (replicate (Z.to_nat n) 0) else None.

(** ** Lemmas *)

Lemma length_le_bytes n v : length (le_bytes n v) = n.
Proof. revert v. induction n as [|n IH]; intros v; simpl; [done|]. by rewrite IH. Qed.

Lemma le_value_bytes n v : le_value (le_bytes n v) = v mod 2 ^ (8 * Z.of_nat n).
Proof.
  revert v. induction n as [|n IH]; intros v; [by rewrite Z.mod_1_r|].
  cbn [le_bytes le_value]. rewrite IH.
  replace (8 * Z.of_nat (S n)) with (8 + 8 * Z.of_nat n) by lia.
  rewrite Z.pow_add_r by lia. change (2 ^ 8) with 256.
  assert (0 < 2 ^ (8 * Z.of_nat n)) by (apply Z.pow_pos_nonneg; lia).
  rewrite Z.rem_mul_r by lia. lia.
Qed.

Lemma le_value_le16 v : 0 <= v <= UINT16_MAX -> le_value (le16 v) = v.
Proof. intros. unfold le16. rewrite le_value_bytes. apply Z.mod_small. unfold UINT16_MAX in *. lia. Qed.

Lemma le_value_le32 v : 0 <= v <= UINT32_MAX -> le_value (le32 v) = v.
Proof. intros. unfold le32. rewrite le_value_bytes. apply Z.mod_small. unfold UINT32_MAX in *. lia. Qed.

Lemma le_bytes_ok n v : Forall byte_ok (le_bytes n v).
Proof.
  revert v. induction n as [|n IH]; intros v; simpl; constructor; [|done].
  apply Z.mod_pos_bound. lia.
Qed.

Lemma le_value_bound bs : Forall byte_ok bs -> 0 <= le_value bs < 2 ^ (8 * len bs).
Proof.
  induction 1 as [|b bs Hb Hbs IH]; cbn [le_value length]; [done|].
  replace (8 * Z.of_nat (S (length bs))) with (8 + 8 * len bs) by lia.
  rewrite Z.pow_add_r by lia. change (2 ^ 8) with 256. unfold byte_ok in Hb. lia.
Qed.

Lemma get_bytes_app A X B off n :
  off = len A -> n = len X -> get_bytes (A ++ X ++ B) off n = Some X.
Proof.
  intros -> ->. unfold get_bytes. rewrite !length_app.
  destruct (Z.leb_spec 0 (len A)); [|lia]. destruct (Z.leb_spec 0 (len X)); [|lia].
  destruct (Z.leb_spec (len A + len X) (Z.of_nat (length A + (length X + length B)))); [|lia].
  simpl. by rewrite !Nat2Z.id, drop_app_length, take_app_length.
Qed.

Lemma put_bytes_app A X Y B off :
  off = len A -> length Y = length X -> put_bytes (A ++ X ++ B) off Y = Some (A ++ Y ++ B).
Proof.
  intros -> HY. unfold put_bytes. rewrite !length_app, HY.
  destruct (Z.leb_spec 0 (len A)); [|lia].
  destruct (Z.leb_spec (len A + len X) (Z.of_nat (length A + (length X + length B)))); [|lia].
  simpl. rewrite !Nat2Z.id, take_app_length.
  replace (drop (length A + length X) (A ++ X ++ B)) with B; [done|].
  rewrite app_assoc. rewrite drop_app_length'; [done|]. rewrite length_app. lia.
Qed.

Lemma get_bytes_prefix b rest off n bs :
  get_bytes b off n = Some bs -> get_bytes (b ++ rest) off n = Some bs.
Proof.
  unfold get_bytes. rewrite length_app. intros H. zcases_in_hyps. injection H as <-.
  destruct (Z.leb_spec (off + n) (Z.of_nat (length b + length rest))); [|lia]. simpl. f_equal.
  rewrite drop_app_le by lia. rewrite take_app_le; [done|]. rewrite length_drop. lia.
Qed.

Lemma put_bytes_prefix b rest off bs b' :
  put_bytes b off bs = Some b' -> put_bytes (b ++ rest) off bs = Some (b' ++ rest).
Proof.
  unfold put_bytes. rewrite length_app. intros H. zcases_in_hyps. injection H as <-.
  destruct (Z.leb_spec (off + len bs) (Z.of_nat (length b + length rest))); [|lia]. simpl. f_equal.
  rewrite take_app_le by lia. rewrite drop_app_le by lia. by rewrite <- !app_assoc.
Qed.

Lemma get_bytes_length b off n bs : get_bytes b off n = Some bs -> len bs = n.
Proof.
  unfold get_bytes. destruct (Z.leb_spec 0 off); [|done]. destruct (Z.leb_spec 0 n); [|done].
  destruct (Z.leb_spec (off + n) (len b)); [|done]. simpl. intros [= <-].
  rewrite length_take, length_drop. lia.
Qed.

Lemma put_bytes_length b off bs b' : put_bytes b off bs = Some b' -> length b' = length b.
Proof.
  unfold put_bytes. destruct (Z.leb_spec 0 off); [|done].
  destruct (Z.leb_spec (off + len bs) (len b)); [|done]. simpl. intros [= <-].
  rewrite !length_app, length_take, length_drop. lia.
Qed.

Lemma st_length b off v b' : st8 b off v = Some b' \/ st16 b off v = Some b' \/ st32 b off v = Some b' ->
  length b' = length b.
Proof. intros [H|[H|H]]; by apply put_bytes_length in H. Qed.

Lemma ld16_app A X B off : off = len A -> length X = 2%nat -> ld16 (A ++ X ++ B) off = Some (le_value X).
Proof. intros. unfold ld16. rewrite (get_bytes_app A X B) by lia. done. Qed.

Lemma ld32_app A X B off : off = len A -> length X = 4%nat -> ld32 (A ++ X ++ B) off = Some (le_value X).
Proof. intros. unfold ld32. rewrite (get_bytes_app A X B) by lia. done. Qed.

Lemma get_bytes_head X B n : n = len X -> get_bytes (X ++ B) 0 n = Some X.
Proof. intros. by apply (get_bytes_app [] X B). Qed.

Lemma ld16_head X B : length X = 2%nat -> ld16 (X ++ B) 0 = Some (le_value X).
Proof. intros. by apply (ld16_app [] X B). Qed.

Lemma st16_app A X B off v : off = len A -> length X = 2%nat ->
  st16 (A ++ X ++ B) off v = Some (A ++ le16 v ++ B).
Proof. intros. unfold st16. apply put_bytes_app; [done|]. unfold le16. by rewrite length_le_bytes. Qed.

Lemma bcopy_in_app b b' src dst n bs :
  get_bytes b src n = Some bs -> put_bytes b dst bs = Some b' -> bcopy_in b src dst n = Some b'.
Proof. unfold bcopy_in. by intros ->. Qed.

Lemma ClearMemory_app A X B off n :
  off = len A -> n = len X -> ClearMemory (A ++ X ++ B) off n = Some (A ++ replicate (length X) 0 ++ B).
Proof.
  intros -> ->. unfold ClearMemory. destruct (Z.leb_spec 0 (len X)); [|lia].
  rewrite Nat2Z.id. apply put_bytes_app; [done|]. by rewrite length_replicate.
Qed.

(** ** Tables of 16-bit words *)

Definition words (l : list Z) : bytes := concat (le16 <$> l).

Lemma length_le16 v : length (le16 v) = 2%nat.
Proof. done. Qed.

Lemma length_le32 v : length (le32 v) = 4%nat.
Proof. done. Qed.

Lemma words_app l1 l2 : words (l1 ++ l2) = words l1 ++ words l2.
Proof. unfold words. by rewrite fmap_app, concat_app. Qed.

Lemma words_cons v l : words (v :: l) = le16 v ++ words l.
Proof. done. Qed.

Lemma length_words l : length (words l) = (2 * length l)%nat.
Proof.
  induction l as [|v l IH]; [done|].
  rewrite words_cons, length_app, IH, length_le16. simpl. lia.
Qed.

Lemma le16_u16 v : le16 (u16 v) = le16 v.
Proof.
  unfold le16, u16, wrap. cbn [le_bytes]. f_equal; [|f_equal].
  - symmetry. apply Znumtheory.Zmod_div_mod; [lia|lia|]. by exists 256.
  - change (2 ^ 16) with (256 * 256). rewrite Z.rem_mul_r by lia.
    rewrite (Z.mul_comm 256 (_ mod _)), Z.div_add by lia.
    rewrite (Z.div_small (v mod 256)) by (apply Z.mod_pos_bound; lia).
    rewrite Z.add_0_l. by rewrite Z.mod_mod by lia.
Qed.

Lemma ld16_words P L v R B off :
  off = len P + 2 * len L -> 0 <= v <= UINT16_MAX ->
  ld16 (P ++ words (L ++ v :: R) ++ B) off = Some v.
Proof.
  intros -> Hv.
  replace (P ++ words (L ++ v :: R) ++ B) with ((P ++ words L) ++ le16 v ++ words R ++ B)
    by (by rewrite words_app, words_cons, <- !app_assoc).
  rewrite ld16_app; [by rewrite le_value_le16|rewrite length_app, length_words; lia|done].
Qed.

Lemma st16_words P L v w R B off :
  off = len P + 2 * len L ->
  st16 (P ++ words (L ++ v :: R) ++ B) off w = Some (P ++ words (L ++ w :: R) ++ B).
Proof.
  intros ->.
  replace (P ++ words (L ++ v :: R) ++ B) with ((P ++ words L) ++ le16 v ++ words R ++ B)
    by (by rewrite words_app, words_cons, <- !app_assoc).
  rewrite st16_app; [|rewrite length_app, length_words; lia|done].
  by rewrite words_app, words_cons, <- !app_assoc.
Qed.

(** ** Moving a block inside a buffer *)

(** Moving [C] right by [n], into the free bytes [G] that follow it. *)
Lemma bcopy_right A C G B src dst n :
  src = len A -> dst = len A + Z.of_nat n -> (n <= length G)%nat ->
  exists X, length X = n /\
    bcopy_in (A ++ C ++ G ++ B) src dst (len C) = Some (A ++ X ++ C ++ drop n G ++ B).
Proof.
  intros -> -> Hn. exists (take n (C ++ G)). split.
  { rewrite length_take, length_app. lia. }
  apply (bcopy_in_app _ _ _ _ _ C); [by apply get_bytes_app|].
  set (X := take n (C ++ G)). set (M := take (length C) (drop n (C ++ G))).
  assert (C ++ G = X ++ M ++ drop n G) as E.
  { subst X M. rewrite <- (take_drop n (C ++ G)) at 1. f_equal.
    rewrite <- (take_drop (length C) (drop n (C ++ G))) at 1. f_equal.
    rewrite drop_drop, drop_app_ge by lia. f_equal. lia. }
  replace (A ++ C ++ G ++ B) with ((A ++ X) ++ M ++ drop n G ++ B)
    by (rewrite (app_assoc C), E, <- !app_assoc; done).
  replace (A ++ X ++ C ++ drop n G ++ B) with ((A ++ X) ++ C ++ drop n G ++ B) by (by rewrite <- app_assoc).
  assert (length X = n) as HX by (subst X; rewrite length_take, length_app; lia).
  apply put_bytes_app; [rewrite length_app; lia|].
  subst M. rewrite length_take, length_drop, length_app. lia.
Qed.

(** Moving [C] left over the block [R] that precedes it. *)
Lemma bcopy_left A R C B src dst :
  src = len A + len R -> dst = len A ->
  exists Y, length Y = length R /\
    bcopy_in (A ++ R ++ C ++ B) src dst (len C) = Some (A ++ C ++ Y ++ B).
Proof.
  intros -> ->. exists (drop (length C) (R ++ C)). split.
  { rewrite length_drop, length_app. lia. }
  apply (bcopy_in_app _ _ _ _ _ C).
  { rewrite (app_assoc A R). apply get_bytes_app; [rewrite length_app; lia|done]. }
  set (M := take (length C) (R ++ C)). set (Y := drop (length C) (R ++ C)).
  assert (R ++ C = M ++ Y) as E by (symmetry; apply take_drop).
  rewrite (app_assoc R C), E, <- app_assoc.
  apply put_bytes_app; [done|]. subst M. rewrite length_take, length_app. lia.
Qed.
