(* ===== verification/BTNode.v ===== *)
(** * B-tree nodes (core/BTreeNodeOps.c)

    A node is a buffer of [nodeSize] bytes: a 14-byte descriptor, the records
    one after the other, free space, and at the end of the node the table of
    16-bit record offsets, growing downwards.  The operations below are the ones
    of the source, on bytes; [node_rep] relates a buffer to the list of records
    it holds, and the theorems say that each operation acts on that list as its
    name promises and never leaves the buffer. *)

From S2P Require Import Prelude HfsFormat Bytes.

(** ** Control block (core/BTreesPrivate.h) *)

(** The statistical counters. *)
Record BTreeStats := mkStats {
  numGetNodes : Z;
  numGetNewNodes : Z;
  numReleaseNodes : Z;
  numUpdateNodes : Z;
  numMapNodesRead : Z;
  numHintChecks : Z;
  numPossibleHints : Z;
  numValidHints : Z;
}.

Record BTreeControlBlock := mkBTCB {
  treeDepth : Z;
  rootNode : Z;
  leafRecords : Z;
  firstLeafNode : Z;
  lastLeafNode : Z;
  nodeSize : Z;
  maxKeyLength : Z;
  totalNodes : Z;
  freeNodes : Z;
  btreeType : Z;
  flags : Z;
  attributes : Z;
  writeCount : Z;
  reservedNodes : Z;
  stats : BTreeStats;
}.

(** Assignments to its fields. *)
Definition with_treeDepth (v : Z) (b : BTreeControlBlock) : BTreeControlBlock :=
  mkBTCB v (rootNode b) (leafRecords b) (firstLeafNode b) (lastLeafNode b) (nodeSize b)
    (maxKeyLength b) (totalNodes b) (freeNodes b) (btreeType b) (flags b) (attributes b)
    (writeCount b) (reservedNodes b) (stats b).
Definition with_rootNode (v : Z) (b : BTreeControlBlock) : BTreeControlBlock :=
  mkBTCB (treeDepth b) v (leafRecords b) (firstLeafNode b) (lastLeafNode b) (nodeSize b)
    (maxKeyLength b) (totalNodes b) (freeNodes b) (btreeType b) (flags b) (attributes b)
    (writeCount b) (reservedNodes b) (stats b).
Definition with_leafRecords (v : Z) (b : BTreeControlBlock) : BTreeControlBlock :=
  mkBTCB (treeDepth b) (rootNode b) v (firstLeafNode b) (lastLeafNode b) (nodeSize b)
    (maxKeyLength b) (totalNodes b) (freeNodes b) (btreeType b) (flags b) (attributes b)
    (writeCount b) (reservedNodes b) (stats b).
Definition with_firstLeafNode (v : Z) (b : BTreeControlBlock) : BTreeControlBlock :=
  mkBTCB (treeDepth b) (rootNode b) (leafRecords b) v (lastLeafNode b) (nodeSize b)
    (maxKeyLength b) (totalNodes b) (freeNodes b) (btreeType b) (flags b) (attributes b)
    (writeCount b) (reservedNodes b) (stats b).
Definition with_lastLeafNode (v : Z) (b : BTreeControlBlock) : BTreeControlBlock :=
  mkBTCB (treeDepth b) (rootNode b) (leafRecords b) (firstLeafNode b) v (nodeSize b)
    (maxKeyLength b) (totalNodes b) (freeNodes b) (btreeType b) (flags b) (attributes b)
    (writeCount b) (reservedNodes b) (stats b).
Definition with_totalNodes (v : Z) (b : BTreeControlBlock) : BTreeControlBlock :=
  mkBTCB (treeDepth b) (rootNode b) (leafRecords b) (firstLeafNode b) (lastLeafNode b)
    (nodeSize b) (maxKeyLength b) v (freeNodes b) (btreeType b) (flags b) (attributes b)
    (writeCount b) (reservedNodes b) (stats b).
Definition with_freeNodes (v : Z) (b : BTreeControlBlock) : BTreeControlBlock :=
  mkBTCB (treeDepth b) (rootNode b) (leafRecords b) (firstLeafNode b) (lastLeafNode b)
    (nodeSize b) (maxKeyLength b) (totalNodes b) v (btreeType b) (flags b) (attributes b)
    (writeCount b) (reservedNodes b) (stats b).
Definition with_flags (v : Z) (b : BTreeControlBlock) : BTreeControlBlock :=
  mkBTCB (treeDepth b) (rootNode b) (leafRecords b) (firstLeafNode b) (lastLeafNode b)
    (nodeSize b) (maxKeyLength b) (totalNodes b) (freeNodes b) (btreeType b) v (attributes b)
    (writeCount b) (reservedNodes b) (stats b).
Definition with_writeCount (v : Z) (b : BTreeControlBlock) : BTreeControlBlock :=
  mkBTCB (treeDepth b) (rootNode b) (leafRecords b) (firstLeafNode b) (lastLeafNode b)
    (nodeSize b) (maxKeyLength b) (totalNodes b) (freeNodes b) (btreeType b) (flags b)
    (attributes b) v (reservedNodes b) (stats b).
Definition with_reservedNodes (v : Z) (b : BTreeControlBlock) : BTreeControlBlock :=
  mkBTCB (treeDepth b) (rootNode b) (leafRecords b) (firstLeafNode b) (lastLeafNode b)
    (nodeSize b) (maxKeyLength b) (totalNodes b) (freeNodes b) (btreeType b) (flags b)
    (attributes b) (writeCount b) v (stats b).
Definition with_stats (v : BTreeStats) (b : BTreeControlBlock) : BTreeControlBlock :=
  mkBTCB (treeDepth b) (rootNode b) (leafRecords b) (firstLeafNode b) (lastLeafNode b)
    (nodeSize b) (maxKeyLength b) (totalNodes b) (freeNodes b) (btreeType b) (flags b)
    (attributes b) (writeCount b) (reservedNodes b) v.

(** Increments of the counters. *)
Definition incr_numGetNodes (b : BTreeControlBlock) : BTreeControlBlock :=
  let s := stats b in
  with_stats (mkStats (u32 (numGetNodes s + 1)) (numGetNewNodes s) (numReleaseNodes s)
    (numUpdateNodes s) (numMapNodesRead s) (numHintChecks s) (numPossibleHints s)
    (numValidHints s)) b.
Definition incr_numGetNewNodes (b : BTreeControlBlock) : BTreeControlBlock :=
  let s := stats b in
  with_stats (mkStats (numGetNodes s) (u32 (numGetNewNodes s + 1)) (numReleaseNodes s)
    (numUpdateNodes s) (numMapNodesRead s) (numHintChecks s) (numPossibleHints s)
    (numValidHints s)) b.
Definition incr_numReleaseNodes (b : BTreeControlBlock) : BTreeControlBlock :=
  let s := stats b in
  with_stats (mkStats (numGetNodes s) (numGetNewNodes s) (u32 (numReleaseNodes s + 1))
    (numUpdateNodes s) (numMapNodesRead s) (numHintChecks s) (numPossibleHints s)
    (numValidHints s)) b.
Definition incr_numUpdateNodes (b : BTreeControlBlock) : BTreeControlBlock :=
  let s := stats b in
  with_stats (mkStats (numGetNodes s) (numGetNewNodes s) (numReleaseNodes s) (u32
    (numUpdateNodes s + 1)) (numMapNodesRead s) (numHintChecks s) (numPossibleHints s)
    (numValidHints s)) b.
Definition incr_numMapNodesRead (b : BTreeControlBlock) : BTreeControlBlock :=
  let s := stats b in
  with_stats (mkStats (numGetNodes s) (numGetNewNodes s) (numReleaseNodes s) (numUpdateNodes
    s) (u32 (numMapNodesRead s + 1)) (numHintChecks s) (numPossibleHints s) (numValidHints s))
    b.
Definition incr_numHintChecks (b : BTreeControlBlock) : BTreeControlBlock :=
  let s := stats b in
  with_stats (mkStats (numGetNodes s) (numGetNewNodes s) (numReleaseNodes s) (numUpdateNodes
    s) (numMapNodesRead s) (u32 (numHintChecks s + 1)) (numPossibleHints s) (numValidHints s))
    b.
Definition incr_numPossibleHints (b : BTreeControlBlock) : BTreeControlBlock :=
  let s := stats b in
  with_stats (mkStats (numGetNodes s) (numGetNewNodes s) (numReleaseNodes s) (numUpdateNodes
    s) (numMapNodesRead s) (numHintChecks s) (u32 (numPossibleHints s + 1)) (numValidHints s))
    b.
Definition incr_numValidHints (b : BTreeControlBlock) : BTreeControlBlock :=
  let s := stats b in
  with_stats (mkStats (numGetNodes s) (numGetNewNodes s) (numReleaseNodes s) (numUpdateNodes
    s) (numMapNodesRead s) (numHintChecks s) (numPossibleHints s) (u32 (numValidHints s + 1)))
    b.

Definition kBTBigKeysMask : Z := 2.
Definition kBTVariableIndexKeysMask : Z := 4.
Definition kBTHeaderDirty : Z := 1.
Definition kMaxTreeDepth : nat := 16.
Definition kOffsetSize : Z := 2.
Definition sizeof_BTNodeDescriptor : Z := 14.

Definition kBTLeafNode : Z := -1.
Definition kBTIndexNode : Z := 0.
Definition kBTHeaderNode : Z := 1.
Definition kBTMapNode : Z := 2.

(** [attributes & mask] as a C condition. *)
Definition bt_attr (bt : BTreeControlBlock) (mask : Z) : bool :=
  negb (Z.land (attributes bt) mask =? 0).

Definition M_IsOdd (x : Z) : bool := negb (Z.land x 1 =? 0).

(** ** Node descriptor *)

Definition s8 (x : Z) : Z := swrap 8 x.

Definition nd_fLink (node : bytes) : option Z := ld32 node 0.
Definition nd_bLink (node : bytes) : option Z := ld32 node 4.
Definition nd_kind (node : bytes) : option Z := s8 <$> ld8 node 8.
Definition nd_height (node : bytes) : option Z := ld8 node 9.
Definition nd_numRecords (node : bytes) : option Z := ld16 node 10.

Definition set_fLink (node : bytes) (v : Z) : option bytes := st32 node 0 v.
Definition set_bLink (node : bytes) (v : Z) : option bytes := st32 node 4 v.
Definition set_kind (node : bytes) (v : Z) : option bytes := st8 node 8 v.
Definition set_height (node : bytes) (v : Z) : option bytes := st8 node 9 v.
Definition set_numRecords (node : bytes) (v : Z) : option bytes := st16 node 10 v.

(** ** Keys: the length field is 8 bits wide, or 16 with kBTBigKeysMask *)

Definition KeyLength (bt : BTreeControlBlock) (key : bytes) : option Z :=
  if bt_attr bt kBTBigKeysMask then ld16 key 0 else ld8 key 0.

Definition CalcKeySize (bt : BTreeControlBlock) (key : bytes) : option Z :=
  if bt_attr bt kBTBigKeysMask then l ← ld16 key 0; Some (l + 2) else l ← ld8 key 0; Some (l + 1).

(** ** Offsets *)

(** The address of offset [index], as an offset in the node. *)
Definition GetOffsetAddress (bt : BTreeControlBlock) (index : Z) : Z :=
  nodeSize bt - Z.shiftl index 1 - 2.

(** The macro reads a [short]. *)
Definition GetRecordOffset (bt : BTreeControlBlock) (node : bytes) (index : Z) : option Z :=
  s16 <$> ld16 node (nodeSize bt - Z.shiftl index 1 - kOffsetSize).

Definition GetRecordAddress (bt : BTreeControlBlock) (node : bytes) (index : Z) : option Z :=
  GetRecordOffset bt node index.

Definition GetRecordSize (bt : BTreeControlBlock) (node : bytes) (index : Z) : option Z :=
  let pos := nodeSize bt - Z.shiftl index 1 - kOffsetSize in
  next ← ld16 node (pos - 2); this ← ld16 node pos; Some (u16 (next - this)).

Definition GetNodeDataSize (bt : BTreeControlBlock) (node : bytes) : option Z :=
  n ← nd_numRecords node;
  freeOffset ← u16 <$> GetRecordOffset bt node n;
  Some (u16 (freeOffset + Z.shiftl n 1 - sizeof_BTNodeDescriptor)).

Definition GetNodeFreeSize (bt : BTreeControlBlock) (node : bytes) : option Z :=
  n ← nd_numRecords node;
  freeOffset ← u16 <$> GetRecordOffset bt node n;
  Some (u16 (nodeSize bt - freeOffset - Z.shiftl n 1 - kOffsetSize)).

(** The do-while of InsertOffset: [numOffsets] more turns after this one. *)
Fixpoint InsertOffset_loop (node : bytes) (dst src delta : Z) (numOffsets : nat) : option bytes :=
  v ← ld16 node src;
  node ← st16 node dst (u16 (v + delta));
  match numOffsets with
  | O => Some node
  | S numOffsets => InsertOffset_loop node (dst + 2) (src + 2) delta numOffsets
  end.

Definition InsertOffset (bt : BTreeControlBlock) (node : bytes) (index delta : Z) : option bytes :=
  n ← nd_numRecords node;
  let src := GetOffsetAddress bt n in
  let dst := src - 2 in
  let numOffsets := u16 (n - index) in
  node ← set_numRecords node (u16 (n + 1));
  InsertOffset_loop node dst src delta (Z.to_nat numOffsets).

Fixpoint DeleteOffset_loop (node : bytes) (dst src delta : Z) (numOffsets : nat) : option bytes :=
  match numOffsets with
  | O => Some node
  | S numOffsets =>
      v ← ld16 node (src - 2);
      node ← st16 node (dst - 2) (u16 (v - delta));
      DeleteOffset_loop node (dst - 2) (src - 2) delta numOffsets
  end.

Definition DeleteOffset (bt : BTreeControlBlock) (node : bytes) (index : Z) : option bytes :=
  let dst := GetOffsetAddress bt index in
  let src := dst - 2 in
  s ← ld16 node src;
  d ← ld16 node dst;
  let delta := u16 (s - d) in
  n ← nd_numRecords node;
  let n := u16 (n - 1) in
  node ← set_numRecords node n;
  let numOffsets := u16 (n - index) in
  DeleteOffset_loop node dst src delta (Z.to_nat numOffsets).

(** ** Records *)

Definition ClearNode (bt : BTreeControlBlock) (node : bytes) : option bytes :=
  ClearMemory node 0 (nodeSize bt).

(** MoveRecordsRight and MoveRecordsLeft are bcopy; the callers skip the
    call when there is nothing to move. *)
Definition MoveRecords (node : bytes) (src dst bytesToMove : Z) : option bytes :=
  if bytesToMove =? 0 then Some node else bcopy_in node src dst bytesToMove.

Definition InsertRecord (bt : BTreeControlBlock) (node : bytes) (index : Z)
    (recPtr : bytes) (recSize : Z) : option (bool * bytes) :=
  freeSpace ← GetNodeFreeSize bt node;
  if freeSpace <? recSize + 2 then Some (false, node) else
  indexOffset ← u16 <$> GetRecordOffset bt node index;
  n ← nd_numRecords node;
  freeOffset ← u16 <$> GetRecordOffset bt node n;
  let src := indexOffset in
  let dst := src + recSize in
  let bytesToMove := u16 (freeOffset - indexOffset) in
  node ← MoveRecords node src dst bytesToMove;
  node ← InsertOffset bt node index recSize;
  node ← bcopy_from recPtr 0 node indexOffset recSize;
  Some (true, node).

(** The key part of InsertKeyRecord, at [dst]: the length field, the key
    bytes, and zeroes over the rest of the key. *)
Definition InsertKeyRecord_key (bt : BTreeControlBlock) (node : bytes) (dst : Z)
    (keyPtr : bytes) (keyLength keySize : Z) : option bytes :=
  '(node, dst, rawKeyLength, sizeOfLength) ←
    (if bt_attr bt kBTBigKeysMask then
       node ← st16 node dst keyLength; raw ← ld16 keyPtr 0; Some (node, dst + 2, raw, 2)
     else
       node ← st8 node dst keyLength; raw ← ld8 keyPtr 0; Some (node, dst + 1, raw, 1));
  node ← bcopy_from keyPtr sizeOfLength node dst rawKeyLength;
  let bytesToMove := u16 (keySize - rawKeyLength) in
  if bytesToMove =? 0 then Some node else ClearMemory node (dst + rawKeyLength) bytesToMove.

Definition InsertKeyRecord (bt : BTreeControlBlock) (node : bytes) (index : Z)
    (keyPtr : bytes) (keyLength : Z) (recPtr : bytes) (recSize : Z) : option (bool * bytes) :=
  let keySize := u16 (keyLength + (if bt_attr bt kBTBigKeysMask then 2 else 1)) in
  let keySize := if M_IsOdd keySize then u16 (keySize + 1) else keySize in
  freeSpace ← GetNodeFreeSize bt node;
  if freeSpace <? keySize + recSize + 2 then Some (false, node) else
  indexOffset ← u16 <$> GetRecordOffset bt node index;
  n ← nd_numRecords node;
  freeOffset ← u16 <$> GetRecordOffset bt node n;
  let src := indexOffset in
  let dst := src + keySize + recSize in
  let bytesToMove := u16 (freeOffset - indexOffset) in
  node ← MoveRecords node src dst bytesToMove;
  node ← InsertOffset bt node index (u16 (keySize + recSize));
  node ← InsertKeyRecord_key bt node indexOffset keyPtr keyLength keySize;
  let dst := indexOffset + keySize in
  node ← bcopy_from recPtr 0 node dst recSize;
  Some (true, node).

Definition DeleteRecord (bt : BTreeControlBlock) (node : bytes) (index : Z) : option bytes :=
  indexOffset ← GetRecordOffset bt node index;
  nextOffset ← GetRecordOffset bt node (index + 1);
  n ← nd_numRecords node;
  freeOffset ← GetRecordOffset bt node n;
  let bytesToMove := s16 (freeOffset - nextOffset) in
  node ← MoveRecords node nextOffset indexOffset bytesToMove;
  node ← DeleteOffset bt node index;
  let bytesToMove := s16 (nextOffset - indexOffset) in
  n ← nd_numRecords node;
  free ← GetRecordAddress bt node n;
  ClearMemory node free bytesToMove.

(** The results of GetRecordByIndex: where the key and the data are in the
    node, and the size of the data; or the error it returns. *)
Definition GetRecordByIndex (bt : BTreeControlBlock) (node : bytes) (index : Z)
    : option (Z + Z * Z * Z) :=
  n ← nd_numRecords node;
  if n <=? index then Some (inl fsBTRecordNotFoundErr) else
  offset ← u16 <$> GetRecordOffset bt node index;
  let keyPtr := offset in
  keySize ← CalcKeySize bt (drop (Z.to_nat keyPtr) node);
  let keySize := u16 keySize in
  let keySize := if M_IsOdd keySize then u16 (keySize + 1) else keySize in
  let offset := u16 (offset + keySize) in
  let dataPtr := offset in
  nextOffset ← u16 <$> GetRecordOffset bt node (index + 1);
  Some (inr (keyPtr, dataPtr, u16 (nextOffset - offset))).

Definition GetChildNodeNum (bt : BTreeControlBlock) (node : bytes) (index : Z) : option Z :=
  pos ← GetRecordAddress bt node index;
  keySize ← CalcKeySize bt (drop (Z.to_nat pos) node);
  ld32 node (pos + keySize).

(** ** Searching *)

(** The key comparison of the tree: keyCompareProc (searchKey, trialKey), where
    the trial key is given by the bytes that start at its address; [None] when
    it reads outside of them. *)
Definition KeyCompareProc : Type := bytes -> bytes -> option Z.

Fixpoint SearchNode_loop (compareProc : KeyCompareProc) (bt : BTreeControlBlock)
    (node searchKey : bytes) (lowerBound upperBound : Z) (fuel : nat) : option (bool * Z) :=
  match fuel with
  | O => None
  | S fuel =>
      if lowerBound <=? upperBound then
        let index := Z.shiftr (lowerBound + upperBound) 1 in
        trial ← ld16 node (nodeSize bt - kOffsetSize - 2 * index);
        result ← compareProc searchKey (drop (Z.to_nat trial) node);
        if result <? 0 then
          SearchNode_loop compareProc bt node searchKey lowerBound (index - 1) fuel
        else if 0 <? result then
          SearchNode_loop compareProc bt node searchKey (index + 1) upperBound fuel
        else Some (true, u16 index)
      else Some (false, u16 lowerBound)
  end.

(** Every turn shrinks the interval, so numRecords + 1 turns are enough. *)
Definition SearchNode (compareProc : KeyCompareProc) (bt : BTreeControlBlock)
    (node searchKey : bytes) : option (bool * Z) :=
  n ← nd_numRecords node;
  SearchNode_loop compareProc bt node searchKey 0 (n - 1) (S (Z.to_nat n)).

(** ** What a node holds *)

(** The offsets of the records, and of the free space after them. *)
Fixpoint starts (o : Z) (recs : list bytes) : list Z :=
  match recs with
  | [] => []
  | r :: recs => o :: starts (o + len r) recs
  end.

Definition offsets (o : Z) (recs : list bytes) : list Z :=
  starts o recs ++ [o + len (concat recs)].

Definition node_bytes (hdr res : bytes) (recs : list bytes) (gap : bytes) : bytes :=
  (hdr ++ le16 (len recs) ++ res) ++ concat recs ++ gap ++ words (reverse (offsets 14 recs)).

(** The bytes of the descriptor before numRecords (links, kind and height)
    and its reserved field are [hdr] and [res]. *)
Definition node_rep (bt : BTreeControlBlock) (hdr res : bytes) (recs : list bytes) (node : bytes) : Prop :=
  exists gap, node = node_bytes hdr res recs gap /\ len node = nodeSize bt /\
    length hdr = 10%nat /\ length res = 2%nat.

(** The node sizes VerifyHeader accepts are at most 32768. *)
Definition node_size_ok (bt : BTreeControlBlock) : Prop := 16 <= nodeSize bt <= 32768.

(** The bytes a node with these records has left. *)
Definition free_space (bt : BTreeControlBlock) (recs : list bytes) : Z :=
  nodeSize bt - 14 - len (concat recs) - 2 * len recs - 2.

Lemma starts_app o l1 l2 :
  starts o (l1 ++ l2) = starts o l1 ++ starts (o + len (concat l1)) l2.
Proof.
  revert o. induction l1 as [|r l1 IH]; intros o; simpl; [by rewrite Z.add_0_r|].
  rewrite IH, length_app. do 3 f_equal. lia.
Qed.

Lemma offsets_app o l1 l2 :
  offsets o (l1 ++ l2) = starts o l1 ++ offsets (o + len (concat l1)) l2.
Proof.
  unfold offsets. rewrite starts_app, concat_app, length_app, <- app_assoc.
  do 3 f_equal. lia.
Qed.

Lemma offsets_cons o r l : offsets o (r :: l) = o :: offsets (o + len r) l.
Proof. unfold offsets. simpl. rewrite length_app. do 3 f_equal. lia. Qed.

Lemma offsets_shift d o l : (fun v => v + d) <$> offsets o l = offsets (o + d) l.
Proof.
  unfold offsets. rewrite fmap_app. simpl. f_equal; [|f_equal; lia].
  revert o. induction l as [|r l IH]; intros o; simpl; [done|].
  f_equal. rewrite IH. f_equal. lia.
Qed.

Lemma offsets_head o l : exists t, offsets o l = o :: t /\ length t = length l.
Proof.
  destruct l as [|r l]; [by exists []; split; [unfold offsets; simpl; f_equal; lia|]|].
  rewrite offsets_cons. eexists. split; [done|]. unfold offsets.
  rewrite length_app. simpl. clear. generalize (o + len r).
  induction l as [|r' l IH]; intros o'; simpl; [done|]. by rewrite <- (IH (o' + len r')).
Qed.

Lemma length_starts o l : length (starts o l) = length l.
Proof. revert o. induction l as [|r l IH]; intros o; simpl; [done|]. by rewrite IH. Qed.

Lemma length_offsets o l : length (offsets o l) = S (length l).
Proof. unfold offsets. rewrite length_app, length_starts. simpl. lia. Qed.

(** The offset of record [i]. *)
Lemma offsets_lookup o l1 l2 : offsets o (l1 ++ l2) !! length l1 = Some (o + len (concat l1)).
Proof.
  rewrite offsets_app. destruct (offsets_head (o + len (concat l1)) l2) as (t & -> & _).
  by rewrite <- (length_starts o l1), lookup_middle.
Qed.

Lemma offsets_bounds o l : Forall (fun v => o <= v <= o + len (concat l)) (offsets o l).
Proof.
  revert o. induction l as [|r l IH]; intros o.
  - repeat constructor; simpl; lia.
  - rewrite offsets_cons. constructor; [lia|]. eapply Forall_impl; [apply IH|].
    simpl. intros v. rewrite length_app. lia.
Qed.

Section NodeRep.
Context (bt : BTreeControlBlock) (Hbt : node_size_ok bt).

Lemma node_bytes_length hdr res recs gap :
  length hdr = 10%nat -> length res = 2%nat ->
  len (node_bytes hdr res recs gap) = 14 + len (concat recs) + len gap + 2 * len recs + 2.
Proof.
  intros H1 H2. unfold node_bytes.
  rewrite !length_app, length_words, length_reverse, length_offsets, length_le16. lia.
Qed.

Lemma node_rep_gap hdr res recs gap :
  len (node_bytes hdr res recs gap) = nodeSize bt -> length hdr = 10%nat -> length res = 2%nat ->
  len gap = free_space bt recs.
Proof. intros H H1 H2. rewrite node_bytes_length in H by done. unfold free_space. lia. Qed.

Lemma node_rep_free hdr res recs node :
  node_rep bt hdr res recs node -> 0 <= free_space bt recs /\ len recs <= UINT16_MAX.
Proof.
  intros (gap & -> & HN & Hh & Hr). rewrite <- (node_rep_gap _ _ _ _ HN Hh Hr).
  rewrite node_bytes_length in HN by done. unfold node_size_ok, UINT16_MAX in *. lia.
Qed.

Lemma numRecords_rep hdr res recs node :
  node_rep bt hdr res recs node -> nd_numRecords node = Some (len recs).
Proof.
  intros Hrep. pose proof (node_rep_free _ _ _ _ Hrep) as [_ Hn].
  destruct Hrep as (gap & -> & HN & Hh & Hr). unfold nd_numRecords, node_bytes.
  rewrite <- !app_assoc, ld16_app by (done || lia). rewrite le_value_le16; [done|lia].
Qed.

Lemma offset_rep hdr res l1 l2 node :
  node_rep bt hdr res (l1 ++ l2) node ->
  ld16 node (nodeSize bt - 2 * len l1 - 2) = Some (14 + len (concat l1)).
Proof.
  intros (gap & -> & HN & Hh & Hr). rewrite node_bytes_length in HN by done.
  unfold node_bytes. rewrite offsets_app, reverse_app.
  destruct (offsets_head (14 + len (concat l1)) l2) as (t & Et & Ht). rewrite Et, reverse_cons.
  rewrite <- (app_assoc (reverse t)). cbn [app].
  rewrite concat_app, !length_app in HN. rewrite !(app_assoc _ _ (words _)).
  rewrite <- (app_nil_r (words _)). apply ld16_words.
  - rewrite concat_app, !length_app, length_reverse, length_le16. lia.
  - unfold node_size_ok, UINT16_MAX in *. lia.
Qed.

Lemma GetRecordOffset_rep hdr res l1 l2 node i :
  node_rep bt hdr res (l1 ++ l2) node -> i = len l1 ->
  GetRecordOffset bt node i = Some (14 + len (concat l1)).
Proof.
  intros Hrep ->. unfold GetRecordOffset, kOffsetSize. rewrite Z.shiftl_mul_pow2 by lia.
  replace (nodeSize bt - len l1 * 2 ^ 1 - 2) with (nodeSize bt - 2 * len l1 - 2) by lia.
  rewrite (offset_rep _ _ _ _ _ Hrep). simpl. f_equal.
  pose proof (node_rep_free _ _ _ _ Hrep) as [Hf _]. unfold free_space in Hf.
  rewrite concat_app, !length_app in Hf. unfold node_size_ok in Hbt. apply s16_id. lia.
Qed.

Lemma free_offset_rep hdr res recs node :
  node_rep bt hdr res recs node ->
  GetRecordOffset bt node (len recs) = Some (14 + len (concat recs)).
Proof. intros Hrep. apply (GetRecordOffset_rep hdr res recs []); [by rewrite app_nil_r|done]. Qed.

Lemma GetNodeFreeSize_rep hdr res recs node :
  node_rep bt hdr res recs node -> GetNodeFreeSize bt node = Some (free_space bt recs).
Proof.
  intros Hrep. unfold GetNodeFreeSize. rewrite (numRecords_rep _ _ _ _ Hrep). simpl.
  rewrite (free_offset_rep _ _ _ _ Hrep). simpl.
  pose proof (node_rep_free _ _ _ _ Hrep) as [Hf _]. unfold free_space, node_size_ok, kOffsetSize in *.
  rewrite Z.shiftl_mul_pow2 by lia.
  rewrite (u16_id (14 + _)) by (unfold UINT16_MAX; lia).
  rewrite u16_id by (unfold UINT16_MAX; lia). f_equal. lia.
Qed.

Lemma GetRecordSize_rep hdr res l1 r l2 node i :
  node_rep bt hdr res (l1 ++ r :: l2) node -> i = len l1 ->
  GetRecordSize bt node i = Some (len r).
Proof.
  intros Hrep ->. unfold GetRecordSize, kOffsetSize. rewrite Z.shiftl_mul_pow2 by lia.
  replace (nodeSize bt - len l1 * 2 ^ 1 - 2) with (nodeSize bt - 2 * len l1 - 2) by lia.
  rewrite (offset_rep _ _ _ _ _ Hrep).
  replace (nodeSize bt - 2 * len l1 - 2 - 2) with (nodeSize bt - 2 * len (l1 ++ [r]) - 2)
    by (rewrite length_app; simpl; lia).
  assert (node_rep bt hdr res ((l1 ++ [r]) ++ l2) node) as Hrep' by (by rewrite <- app_assoc).
  rewrite (offset_rep _ _ _ _ _ Hrep'). simpl. f_equal.
  pose proof (node_rep_free _ _ _ _ Hrep') as [Hf _]. unfold free_space, node_size_ok in *.
  rewrite !concat_app, !length_app in *. simpl in *. rewrite app_nil_r in *.
  rewrite u16_id by (unfold UINT16_MAX; lia). lia.
Qed.

(** *** The offset table *)

Lemma InsertOffset_loop_words P X Q1 Q2 delta n src dst :
  length Q1 = S n -> length X = 2%nat -> dst = len P -> src = dst + 2 ->
  Forall (fun v => 0 <= v <= UINT16_MAX) Q1 ->
  exists q Q, Q1 = Q ++ [q] /\
    InsertOffset_loop (P ++ X ++ words (Q1 ++ Q2)) dst src delta n =
    Some (P ++ words ((fun v => v + delta) <$> Q1) ++ words (q :: Q2)).
Proof.
  revert P X Q1 src dst.
  induction n as [|n IH]; intros P X Q1 src dst HQ HX -> -> Hb;
    (destruct Q1 as [|v Q1]; [done|]); injection HQ as HQ; inversion_clear Hb as [|? ? Hv Hb'];
    cbn [InsertOffset_loop app].
  all: assert (ld16 (P ++ X ++ words (v :: Q1 ++ Q2)) (len P + 2) = Some v) as ->
    by (rewrite app_assoc, <- (app_nil_r (words _)); apply (ld16_words (P ++ X) []);
        [rewrite length_app, HX; simpl; lia|done]).
  all: simpl option_bind; cbn [mbind option_bind]; rewrite st16_app by done; cbn [mbind option_bind];
    rewrite le16_u16.
  - destruct Q1; [|done]. exists v, []. split; [done|].
    cbn [app fmap list_fmap]. rewrite !words_cons. unfold words at 2. simpl. done.
  - assert (P ++ le16 (v + delta) ++ words (v :: Q1 ++ Q2)
            = (P ++ le16 (v + delta)) ++ le16 v ++ words (Q1 ++ Q2)) as ->
      by (by rewrite words_cons, <- app_assoc).
    destruct (IH (P ++ le16 (v + delta)) (le16 v) Q1 (len P + 2 + 2) (len P + 2)) as (q & Q & -> & E);
      try done; [rewrite length_app, length_le16; lia|].
    exists q, (v :: Q). split; [done|]. rewrite E.
    by rewrite fmap_cons, words_cons, <- !app_assoc.
Qed.

Lemma DeleteOffset_loop_words P Z0 X R delta n src dst :
  length Z0 = n -> length X = 2%nat -> dst = len P + 2 * Z.of_nat n + 2 -> src = dst - 2 ->
  Forall (fun v => 0 <= v <= UINT16_MAX) Z0 ->
  exists Y, length Y = 2%nat /\
    DeleteOffset_loop (P ++ words Z0 ++ X ++ words R) dst src delta n =
    Some (P ++ Y ++ words (((fun v => v - delta) <$> Z0) ++ R)).
Proof.
  revert Z0 X R src dst.
  induction n as [|n IH]; intros Z0 X R src dst HZ HX -> -> Hb.
  - destruct Z0; [|done]. by exists X.
  - destruct (exists_last (l := Z0)) as (Z1 & v & ->); [by destruct Z0|].
    rewrite length_app in HZ. simpl in HZ. assert (length Z1 = n) as HZ1 by lia.
    apply Forall_app in Hb as [Hb1 Hb2]. inversion_clear Hb2 as [|? ? Hv _].
    cbn [DeleteOffset_loop].
    rewrite (ld16_words P Z1 v []) by (done || lia). cbn [mbind option_bind].
    rewrite (app_assoc P). rewrite st16_app; [|rewrite length_app, length_words, length_app; simpl; lia|done].
    cbn [mbind option_bind]. rewrite le16_u16.
    assert ((P ++ words (Z1 ++ [v])) ++ le16 (v - delta) ++ words R
            = P ++ words Z1 ++ le16 v ++ words ((v - delta) :: R)) as ->
      by (rewrite words_app, words_cons, <- !app_assoc; done).
    destruct (IH Z1 (le16 v) ((v - delta) :: R) (len P + 2 * Z.of_nat (S n) + 2 - 2 - 2)
                (len P + 2 * Z.of_nat (S n) + 2 - 2)) as (Y & HY & E); try done; [lia|].
    exists Y. split; [done|]. rewrite E. rewrite fmap_app, <- app_assoc. done.
Qed.

(** *** Making room for a record of [n] bytes between [l1] and [l2] *)

(** The node with [n] bytes [X] at the place of the new record. *)
Definition node_hole (hdr res : bytes) (l1 l2 : list bytes) (X gap : bytes) : bytes :=
  (hdr ++ le16 (len (l1 ++ l2) + 1) ++ res) ++ concat l1 ++ X ++ concat l2 ++ gap ++
  words (reverse (starts 14 l1 ++ (14 + len (concat l1)) :: offsets (14 + len (concat l1) + len X) l2)).

Lemma node_hole_fill hdr res l1 l2 r gap :
  node_hole hdr res l1 l2 r gap = node_bytes hdr res (l1 ++ r :: l2) gap.
Proof.
  unfold node_hole, node_bytes. rewrite offsets_app, offsets_cons, concat_app. simpl.
  rewrite !length_app, <- !app_assoc. simpl.
  replace (Z.of_nat (length l1 + length l2) + 1) with (Z.of_nat (length l1 + S (length l2))) by lia.
  done.
Qed.

Lemma MoveRecords_right A C G B src dst n c :
  src = len A -> dst = len A + Z.of_nat n -> (n <= length G)%nat -> c = len C ->
  exists X, length X = n /\
    MoveRecords (A ++ C ++ G ++ B) src dst c = Some (A ++ X ++ C ++ drop n G ++ B).
Proof.
  intros -> -> Hn ->. unfold MoveRecords. destruct (Z.eqb_spec (len C) 0) as [E|_].
  - destruct C; [|done]. exists (take n G). split; [rewrite length_take; lia|].
    simpl. by rewrite (app_assoc (take n G)), take_drop.
  - by apply bcopy_right.
Qed.

Lemma InsertOffset_rep hdr res l1 l2 X gap n :
  length hdr = 10%nat -> length res = 2%nat ->
  14 + len (concat (l1 ++ l2)) + len X + len gap + 2 * len (l1 ++ l2) + 2 = nodeSize bt ->
  2 <= len gap -> n = len X ->
  exists gap', len gap' = len gap - 2 /\
    InsertOffset bt
      ((hdr ++ le16 (len (l1 ++ l2)) ++ res) ++ concat l1 ++ X ++ concat l2 ++ gap ++
       words (reverse (offsets 14 (l1 ++ l2)))) (len l1) n
    = Some (node_hole hdr res l1 l2 X gap').
Proof.
  intros Hh Hr HN Hg ->. unfold node_size_ok in Hbt.
  assert (len (l1 ++ l2) <= UINT16_MAX) as Hn by (unfold UINT16_MAX; lia).
  pose proof (take_drop (length gap - 2) gap) as Eg.
  set (g1 := take (length gap - 2) gap) in *. set (g2 := drop (length gap - 2) gap) in *.
  assert (length g2 = 2%nat) as Hg2 by (subst g2; rewrite length_drop; lia).
  assert (length g1 = (length gap - 2)%nat) as Hg1 by (subst g1; rewrite length_take; lia).
  exists g1. split; [lia|]. rewrite <- Eg. clearbody g1 g2. subst gap.
  unfold InsertOffset, nd_numRecords. rewrite <- !(app_assoc hdr), <- !(app_assoc (le16 _)).
  rewrite ld16_app by (done || lia). cbn [mbind option_bind]. rewrite le_value_le16 by lia.
  unfold set_numRecords. rewrite st16_app by (done || lia). cbn [mbind option_bind]. rewrite le16_u16.
  unfold GetOffsetAddress. rewrite Z.shiftl_mul_pow2 by lia.
  set (o' := 14 + len (concat l1)).
  set (P := hdr ++ le16 (len (l1 ++ l2) + 1) ++ res ++ concat l1 ++ X ++ concat l2 ++ g1).
  rewrite !length_app in *.
  rewrite (u16_id (_ - _)) by (unfold UINT16_MAX in *; lia).
  rewrite offsets_app, reverse_app. fold o'.
  destruct (InsertOffset_loop_words P g2 (reverse (offsets o' l2)) (reverse (starts 14 l1)) (len X) (length l2)
    (nodeSize bt - Z.of_nat (length l1 + length l2) * 2 ^ 1 - 2)
    (nodeSize bt - Z.of_nat (length l1 + length l2) * 2 ^ 1 - 2 - 2)) as (q & Q & EQ & E).
  { by rewrite length_reverse, length_offsets. }
  { done. }
  { subst P. rewrite !length_app, length_le16. rewrite concat_app, length_app in HN. lia. }
  { lia. }
  { apply Forall_reverse. eapply Forall_impl; [apply offsets_bounds|]. intros v. simpl.
    rewrite concat_app, length_app in HN. unfold UINT16_MAX. subst o'. lia. }
  replace (Z.to_nat (Z.of_nat (length l1 + length l2) - len l1)) with (length l2) by lia.
  subst P. rewrite !length_app, <- !app_assoc in E. rewrite <- !app_assoc, E. f_equal.
  destruct (offsets_head o' l2) as (t & Et & _). rewrite Et, reverse_cons in EQ.
  apply app_inj_tail in EQ as [_ <-].
  unfold node_hole. fold o'. rewrite !reverse_app, reverse_cons, words_app, !length_app.
  rewrite fmap_reverse, offsets_shift, <- !app_assoc. simpl. rewrite words_app, <- !app_assoc. done.
Qed.

Lemma make_room hdr res l1 l2 node n :
  node_rep bt hdr res (l1 ++ l2) node -> 0 <= n -> n + 2 <= free_space bt (l1 ++ l2) ->
  exists node1 X gap,
    MoveRecords node (14 + len (concat l1)) (14 + len (concat l1) + n) (len (concat l2)) = Some node1 /\
    InsertOffset bt node1 (len l1) n = Some (node_hole hdr res l1 l2 X gap) /\
    len X = n /\ len (node_hole hdr res l1 l2 X gap) = nodeSize bt.
Proof.
  intros (gap & -> & HN & Hh & Hr) Hn Hf. rewrite <- (node_rep_gap _ _ _ _ HN Hh Hr) in Hf.
  rewrite node_bytes_length in HN by done. unfold node_bytes.
  destruct (MoveRecords_right ((hdr ++ le16 (len (l1 ++ l2)) ++ res) ++ concat l1) (concat l2) gap
              (words (reverse (offsets 14 (l1 ++ l2)))) (14 + len (concat l1)) (14 + len (concat l1) + n)
              (Z.to_nat n) (len (concat l2))) as (X & HX & E);
    [rewrite !length_app, length_le16; lia|rewrite !length_app, length_le16; lia|lia|done|].
  rewrite concat_app, <- (app_assoc (concat l1)). rewrite <- (app_assoc _ (concat l1)) in E.
  rewrite E. eexists _. exists X.
  destruct (InsertOffset_rep hdr res l1 l2 X (drop (Z.to_nat n) gap) n) as (gap' & Hg' & E');
    try done; [rewrite length_drop; lia|rewrite length_drop; lia|lia|].
  exists gap'. split_and!; [done| |lia|].
  { rewrite <- (app_assoc _ (concat l1)). done. }
  rewrite length_drop in Hg'. unfold node_hole.
  rewrite !length_app, length_words, length_reverse, length_app, length_starts. simpl.
  rewrite length_offsets. rewrite concat_app, !length_app in HN. lia.
Qed.

(** Copying the record in completes the insertion. *)
Lemma fill_room hdr res l1 l2 X gap r src off :
  len (node_hole hdr res l1 l2 X gap) = nodeSize bt -> length hdr = 10%nat -> length res = 2%nat ->
  length r = length X -> get_bytes src 0 (len r) = Some r -> off = 14 + len (concat l1) ->
  exists node', bcopy_from src 0 (node_hole hdr res l1 l2 X gap) off (len r) = Some node' /\
    node_rep bt hdr res (l1 ++ r :: l2) node'.
Proof.
  intros HN Hh Hr Hlen Hsrc ->. eexists. split.
  - unfold bcopy_from. rewrite Hsrc. simpl.
    unfold node_hole. rewrite (app_assoc _ (concat l1)).
    apply put_bytes_app; [|done]. rewrite !length_app, length_le16. lia.
  - exists gap. split_and!; [|rewrite <- HN|done|done].
    + rewrite <- (app_assoc _ (concat l1)), <- node_hole_fill. unfold node_hole. by rewrite Hlen.
    + unfold node_hole. rewrite !length_app, !length_words, !length_reverse, !length_app. simpl.
      rewrite !length_offsets. lia.
Qed.

Lemma node_rep_lengths hdr res recs node :
  node_rep bt hdr res recs node -> length hdr = 10%nat /\ length res = 2%nat /\ len node = nodeSize bt.
Proof. intros (gap & _ & ? & ? & ?). done. Qed.

Lemma record_start_bound hdr res l1 l2 node :
  node_rep bt hdr res (l1 ++ l2) node ->
  14 + len (concat l1) + len (concat l2) <= 32766.
Proof.
  intros [Hf _]%node_rep_free. unfold free_space, node_size_ok in *.
  rewrite concat_app, !length_app in Hf. lia.
Qed.

Lemma InsertRecord_rep hdr res l1 l2 node recPtr r :
  node_rep bt hdr res (l1 ++ l2) node -> get_bytes recPtr 0 (len r) = Some r ->
  if free_space bt (l1 ++ l2) <? len r + 2
  then InsertRecord bt node (len l1) recPtr (len r) = Some (false, node)
  else exists node', InsertRecord bt node (len l1) recPtr (len r) = Some (true, node') /\
         node_rep bt hdr res (l1 ++ r :: l2) node'.
Proof.
  intros Hrep Hr. pose proof (node_rep_lengths _ _ _ _ Hrep) as (Hh & Hrs & HN).
  pose proof (record_start_bound _ _ _ _ _ Hrep) as Hb.
  unfold InsertRecord. rewrite (GetNodeFreeSize_rep _ _ _ _ Hrep). cbn [mbind option_bind].
  destruct (Z.ltb_spec (free_space bt (l1 ++ l2)) (len r + 2)) as [|Hf]; [done|].
  rewrite (GetRecordOffset_rep _ _ _ _ _ _ Hrep eq_refl), (numRecords_rep _ _ _ _ Hrep).
  cbn [mbind option_bind fmap option_fmap option_map].
  rewrite (free_offset_rep _ _ _ _ Hrep). cbn [mbind option_bind fmap option_fmap option_map].
  rewrite concat_app, length_app in *. rewrite !(u16_id (14 + _)) by (unfold UINT16_MAX; lia).
  replace (14 + Z.of_nat (length (concat l1) + length (concat l2)) - (14 + len (concat l1)))
    with (len (concat l2)) by lia.
  rewrite u16_id by (unfold UINT16_MAX; lia).
  destruct (make_room _ _ _ _ _ (len r) Hrep) as (node1 & X & gap & -> & E2 & HX & HN2); [lia|lia|].
  cbn [mbind option_bind]. rewrite E2. cbn [mbind option_bind].
  destruct (fill_room hdr res l1 l2 X gap r recPtr (14 + len (concat l1))) as (node' & -> & Hrep');
    try done; [lia|]. by exists node'.
Qed.

(** *** Keyed records *)

(** The size of the length field, and of a key of [keyLength] bytes with its
    length field and its pad byte. *)
Definition lengthSize : Z := if bt_attr bt kBTBigKeysMask then 2 else 1.
Definition pad_even (x : Z) : Z := if M_IsOdd x then x + 1 else x.
Definition keyed_size (keyLength : Z) : Z := pad_even (keyLength + lengthSize).

Definition length_field (keyLength : Z) : bytes :=
  if bt_attr bt kBTBigKeysMask then le16 keyLength else le_bytes 1 keyLength.

(** The record for key bytes [raw] stored with length [keyLength] and data [data]. *)
Definition key_field (keyLength : Z) (raw : bytes) : bytes :=
  length_field keyLength ++ raw ++
  replicate (Z.to_nat (keyed_size keyLength - lengthSize - len raw)) 0.

Definition keyed_record (keyLength : Z) (raw data : bytes) : bytes := key_field keyLength raw ++ data.

(** A key buffer with key bytes [raw]: the length field, then the bytes. *)
Definition key_ok (keyPtr raw : bytes) : Prop :=
  KeyLength bt keyPtr = Some (len raw) /\ get_bytes keyPtr lengthSize (len raw) = Some raw.

Lemma pad_even_bounds x : x <= pad_even x <= x + 1.
Proof. unfold pad_even. destruct (M_IsOdd x); lia. Qed.

Lemma lengthSize_bounds : 1 <= lengthSize <= 2.
Proof. unfold lengthSize. destruct (bt_attr _ _); lia. Qed.

Lemma length_length_field k : len (length_field k) = lengthSize.
Proof. unfold length_field, lengthSize. by destruct (bt_attr _ _). Qed.

Lemma length_key_field k raw : len raw <= k -> len (key_field k raw) = keyed_size k.
Proof.
  intros H. unfold key_field. rewrite !length_app, length_replicate.
  pose proof (length_length_field k). pose proof (pad_even_bounds (k + lengthSize)).
  unfold keyed_size in *. lia.
Qed.

Lemma InsertKeyRecord_key_app A X B keyPtr keyLength raw :
  key_ok keyPtr raw -> len raw <= keyLength <= UINT16_MAX - 4 ->
  keyed_size keyLength + lengthSize <= len X ->
  exists X', InsertKeyRecord_key bt (A ++ X ++ B) (len A) keyPtr keyLength (keyed_size keyLength) =
      Some (A ++ (key_field keyLength raw ++ X') ++ B) /\
    len X' = len X - keyed_size keyLength.
Proof.
  intros [Hk Hraw] Hl HX. pose proof lengthSize_bounds as Hls.
  pose proof (pad_even_bounds (keyLength + lengthSize)) as Hpe. fold (keyed_size keyLength) in Hpe.
  set (ls := Z.to_nat lengthSize). set (kr := Z.to_nat (keyed_size keyLength - len raw)).
  set (X1 := take ls X). set (X2 := take (length raw) (drop ls X)).
  set (X3 := take kr (drop (ls + length raw) X)). set (X4 := drop (ls + length raw + kr) X).
  assert (X = X1 ++ X2 ++ X3 ++ X4) as EX.
  { subst X1 X2 X3 X4. rewrite <- (drop_drop X kr (ls + length raw)), take_drop.
    rewrite <- (drop_drop X (length raw) ls), take_drop. by rewrite take_drop. }
  assert (length X1 = ls) as H1 by (subst X1; rewrite length_take; lia).
  assert (length X2 = length raw) as H2 by (subst X2; rewrite length_take, length_drop; lia).
  assert (length X3 = kr) as H3 by (subst X3; rewrite length_take, length_drop; lia).
  clearbody X1 X2 X3 X4. subst X. rewrite !length_app in *.
  exists (replicate ls 0 ++ X4). split; [|rewrite length_app, length_replicate; lia].
  assert (InsertKeyRecord_key bt (A ++ (X1 ++ X2 ++ X3 ++ X4) ++ B) (len A) keyPtr keyLength (keyed_size keyLength)
    = (node ← bcopy_from keyPtr lengthSize (A ++ length_field keyLength ++ (X2 ++ X3 ++ X4) ++ B)
                (len A + lengthSize) (len raw);
       ClearMemory node (len A + lengthSize + len raw) (keyed_size keyLength - len raw))) as ->.
  { unfold InsertKeyRecord_key, KeyLength, lengthSize, length_field in *.
    rewrite <- (app_assoc X1).
    destruct (bt_attr bt kBTBigKeysMask); rewrite Hk; cbn [mbind option_bind].
    - unfold st16. rewrite put_bytes_app by (done || lia). cbn [mbind option_bind].
      rewrite u16_id by (unfold UINT16_MAX in *; lia).
      destruct (Z.eqb_spec (keyed_size keyLength - len raw) 0); [lia|done].
    - unfold st8. rewrite put_bytes_app by (done || (simpl; lia)). cbn [mbind option_bind].
      rewrite u16_id by (unfold UINT16_MAX in *; lia).
      destruct (Z.eqb_spec (keyed_size keyLength - len raw) 0); [lia|done]. }
  unfold bcopy_from. rewrite Hraw. cbn [mbind option_bind].
  pose proof (length_length_field keyLength) as Hlf.
  rewrite <- (app_assoc X2), (app_assoc A).
  rewrite put_bytes_app; [|rewrite length_app; lia|done]. cbn [mbind option_bind].
  rewrite <- (app_assoc X3), (app_assoc (A ++ _) raw).
  rewrite ClearMemory_app; [|rewrite !length_app; lia|lia]. f_equal.
  unfold key_field. rewrite <- !app_assoc. do 3 f_equal. rewrite (app_assoc (replicate _ _) (replicate _ _)).
  f_equal. rewrite <- replicate_add. f_equal. lia.
Qed.

(** InsertKeyRecord puts the record at its index, or leaves the node alone
    when it does not fit.  The data must be at least as long as the length
    field: the pad bytes are cleared that many bytes too far. *)
Lemma InsertKeyRecord_rep hdr res l1 l2 node keyPtr raw keyLength recPtr data :
  node_rep bt hdr res (l1 ++ l2) node ->
  key_ok keyPtr raw -> len raw <= keyLength <= UINT16_MAX - 4 ->
  get_bytes recPtr 0 (len data) = Some data -> lengthSize <= len data ->
  if free_space bt (l1 ++ l2) <? keyed_size keyLength + len data + 2
  then InsertKeyRecord bt node (len l1) keyPtr keyLength recPtr (len data) = Some (false, node)
  else exists node',
    InsertKeyRecord bt node (len l1) keyPtr keyLength recPtr (len data) = Some (true, node') /\
    node_rep bt hdr res (l1 ++ keyed_record keyLength raw data :: l2) node'.
Proof.
  intros Hrep Hk Hl Hdata Hdl. pose proof (node_rep_lengths _ _ _ _ Hrep) as (Hh & Hrs & HN).
  pose proof (record_start_bound _ _ _ _ _ Hrep) as Hb. pose proof lengthSize_bounds as Hls.
  pose proof (pad_even_bounds (keyLength + lengthSize)) as Hpe. fold (keyed_size keyLength) in Hpe.
  assert (free_space bt (l1 ++ l2) <= 32768) as Hfs by (unfold free_space, node_size_ok in *; lia).
  unfold InsertKeyRecord. fold lengthSize.
  rewrite (u16_id (keyLength + lengthSize)) by (unfold UINT16_MAX in *; lia).
  replace (if M_IsOdd (keyLength + lengthSize) then u16 (keyLength + lengthSize + 1) else keyLength + lengthSize)
    with (keyed_size keyLength)
    by (unfold keyed_size, pad_even; destruct (M_IsOdd _); [|done]; rewrite u16_id; unfold UINT16_MAX in *; lia).
  rewrite (GetNodeFreeSize_rep _ _ _ _ Hrep). cbn [mbind option_bind].
  destruct (Z.ltb_spec (free_space bt (l1 ++ l2)) (keyed_size keyLength + len data + 2)) as [|Hf]; [done|].
  rewrite (GetRecordOffset_rep _ _ _ _ _ _ Hrep eq_refl), (numRecords_rep _ _ _ _ Hrep).
  cbn [mbind option_bind fmap option_fmap option_map].
  rewrite (free_offset_rep _ _ _ _ Hrep). cbn [mbind option_bind fmap option_fmap option_map].
  rewrite concat_app, length_app in *. rewrite !(u16_id (14 + _)) by (unfold UINT16_MAX; lia).
  replace (14 + Z.of_nat (length (concat l1) + length (concat l2)) - (14 + len (concat l1)))
    with (len (concat l2)) by lia.
  rewrite (u16_id (len (concat l2))), (u16_id (keyed_size _ + _)) by (unfold UINT16_MAX; lia).
  destruct (make_room _ _ _ _ _ (keyed_size keyLength + len data) Hrep)
    as (node1 & X & gap & E1 & E2 & HX & HN2); [lia|lia|].
  rewrite Z.add_assoc in E1. rewrite E1. cbn [mbind option_bind]. rewrite E2. cbn [mbind option_bind].
  set (A := (hdr ++ le16 (len (l1 ++ l2) + 1) ++ res) ++ concat l1).
  assert (14 + len (concat l1) = len A) as HA by (subst A; rewrite !length_app, length_le16; lia).
  destruct (InsertKeyRecord_key_app A X (concat l2 ++ gap ++ words (reverse (starts 14 l1 ++
      (14 + len (concat l1)) :: offsets (14 + len (concat l1) + len X) l2))) keyPtr keyLength raw)
    as (X' & E3 & HX'); [done|done|lia|].
  unfold node_hole. rewrite (app_assoc _ (concat l1)). fold A. rewrite <- HA in E3. rewrite E3.
  cbn [mbind option_bind]. unfold bcopy_from. rewrite Hdata. cbn [mbind option_bind].
  rewrite <- (app_assoc (key_field _ _)), (app_assoc A).
  rewrite put_bytes_app; [|rewrite length_app; pose proof (length_key_field keyLength raw); lia|lia].
  cbn [mbind option_bind]. eexists. split; [done|].
  assert (length X = length (keyed_record keyLength raw data)) as HXr.
  { unfold keyed_record. rewrite length_app. pose proof (length_key_field keyLength raw). lia. }
  exists gap. split_and!; [|rewrite <- HN2|done|done].
  - rewrite <- node_hole_fill. unfold node_hole. subst A. rewrite HXr. unfold keyed_record.
    by rewrite <- !app_assoc.
  - unfold node_hole. rewrite (app_assoc _ (concat l1)). fold A. unfold keyed_record in HXr.
    rewrite !length_app in *. lia.
Qed.

(** *** Deletion *)

Lemma MoveRecords_left A R C B src dst c :
  src = len A + len R -> dst = len A -> c = len C ->
  exists Y, length Y = length R /\
    MoveRecords (A ++ R ++ C ++ B) src dst c = Some (A ++ C ++ Y ++ B).
Proof.
  intros -> -> ->. unfold MoveRecords. destruct (Z.eqb_spec (len C) 0) as [E|_].
  - destruct C; [|done]. by exists R.
  - by apply bcopy_left.
Qed.

Lemma DeleteOffset_rep hdr res l1 r l2 Y gap :
  length hdr = 10%nat -> length res = 2%nat -> length Y = length r ->
  14 + len (concat (l1 ++ r :: l2)) + len gap + 2 * len (l1 ++ r :: l2) + 2 = nodeSize bt ->
  exists g2, length g2 = 2%nat /\
    DeleteOffset bt
      ((hdr ++ le16 (len (l1 ++ r :: l2)) ++ res) ++ concat l1 ++ concat l2 ++ Y ++ gap ++
       words (reverse (offsets 14 (l1 ++ r :: l2)))) (len l1)
    = Some (node_bytes hdr res (l1 ++ l2) (Y ++ gap ++ g2)).
Proof.
  intros Hh Hr HY HN. unfold node_size_ok in Hbt.
  set (o' := 14 + len (concat l1)). set (o'' := o' + len r).
  set (H0 := hdr ++ le16 (len (l1 ++ r :: l2)) ++ res).
  set (P0 := H0 ++ concat l1 ++ concat l2 ++ Y ++ gap).
  rewrite concat_app, !length_app in HN. simpl in HN. rewrite !length_app in HN.
  rewrite offsets_app, offsets_cons, reverse_app, reverse_cons. fold o' o''.
  destruct (offsets_head o'' l2) as (t & Et & Ht).
  assert (Forall (fun v => 0 <= v <= UINT16_MAX) (reverse t)) as Hb.
  { apply Forall_reverse. pose proof (offsets_bounds o'' l2) as Hb. rewrite Et in Hb.
    inversion_clear Hb as [|? ? _ Hb']. eapply Forall_impl; [apply Hb'|]. simpl.
    subst o' o''. unfold UINT16_MAX. lia. }
  rewrite Et, reverse_cons.
  unfold DeleteOffset, GetOffsetAddress. rewrite Z.shiftl_mul_pow2 by lia.
  assert (len P0 = nodeSize bt - 2 * len l1 - 2 * len l2 - 4) as HP0.
  { subst P0 H0. rewrite !length_app, length_le16. lia. }
  set (T := reverse (starts 14 l1)).
  set (ad := nodeSize bt - len l1 * 2 ^ 1 - 2).
  assert (ad = nodeSize bt - 2 * len l1 - 2) as Had by (subst ad; lia). clearbody ad.
  replace (H0 ++ concat l1 ++ concat l2 ++ Y ++ gap ++ words (((reverse t ++ [o'']) ++ [o']) ++ T))
    with (P0 ++ words (reverse t ++ o'' :: o' :: T) ++ []) by (subst P0; by rewrite app_nil_r, <- !app_assoc).
  rewrite (ld16_words P0 (reverse t) o'' _ _ (ad - 2));
    [|rewrite length_reverse; lia|subst o' o''; unfold UINT16_MAX; lia]. cbn [mbind option_bind].
  replace (reverse t ++ o'' :: o' :: T) with ((reverse t ++ [o'']) ++ o' :: T) by (by rewrite <- app_assoc).
  rewrite (ld16_words P0 (reverse t ++ [o'']) o' _ _ ad);
    [|rewrite length_app, length_reverse; simpl; lia|subst o' o''; unfold UINT16_MAX; lia]. cbn [mbind option_bind].
  assert (u16 (o'' - o') = len r) as ->.
  { subst o' o''. rewrite u16_id by (unfold UINT16_MAX; lia). lia. }
  unfold nd_numRecords, set_numRecords. subst P0 H0. rewrite <- !(app_assoc hdr), <- !(app_assoc (le16 _)).
  rewrite ld16_app by (done || lia). cbn [mbind option_bind].
  rewrite le_value_le16 by (rewrite length_app; simpl; unfold UINT16_MAX; lia).
  rewrite st16_app by (done || lia). cbn [mbind option_bind]. rewrite le16_u16.
  assert (len (l1 ++ r :: l2) - 1 = len (l1 ++ l2)) as -> by (rewrite !length_app; simpl; lia).
  assert (u16 (u16 (len (l1 ++ l2)) - len l1) = len l2) as ->.
  { rewrite (u16_id (len (l1 ++ l2))) by (rewrite length_app; unfold UINT16_MAX; lia).
    rewrite length_app, u16_id by (unfold UINT16_MAX; lia). lia. }
  set (P1 := hdr ++ le16 (len (l1 ++ l2)) ++ res ++ concat l1 ++ concat l2 ++ Y ++ gap).
  rewrite app_nil_r, <- (app_assoc (reverse t)), words_app. cbn [app]. rewrite words_cons.
  destruct (DeleteOffset_loop_words P1 (reverse t) (le16 o'') (o' :: T) (len r) (length l2) (ad - 2) ad)
    as (g2 & Hg2 & E); [by rewrite length_reverse|done| |done|done|].
  { subst P1. rewrite !length_app, length_le16 in *. lia. }
  exists g2. split; [done|]. subst P1. rewrite <- !app_assoc in E.
  rewrite Nat2Z.id, <- !app_assoc. rewrite E. f_equal.
  unfold node_bytes. rewrite offsets_app, reverse_app, concat_app, <- !app_assoc. fold o'.
  do 8 f_equal. assert (((fun v => v - len r) <$> reverse t) ++ [o'] = reverse (offsets o' l2)) as <-.
  { rewrite fmap_reverse, <- reverse_cons. f_equal.
    replace o' with (o'' + - len r) at 2 by (subst o''; lia).
    rewrite <- offsets_shift, Et, fmap_cons. f_equal; subst o''; lia. }
  by rewrite <- app_assoc.
Qed.

Lemma DeleteRecord_rep hdr res l1 r l2 node :
  node_rep bt hdr res (l1 ++ r :: l2) node ->
  exists node', DeleteRecord bt node (len l1) = Some node' /\ node_rep bt hdr res (l1 ++ l2) node'.
Proof.
  intros Hrep. pose proof (node_rep_lengths _ _ _ _ Hrep) as (Hh & Hrs & HN).
  pose proof (record_start_bound _ _ _ _ _ Hrep) as Hb. simpl in Hb. rewrite length_app in Hb.
  assert (node_rep bt hdr res ((l1 ++ [r]) ++ l2) node) as Hrep2 by (by rewrite <- app_assoc).
  unfold DeleteRecord. rewrite (GetRecordOffset_rep _ _ _ _ _ _ Hrep eq_refl). cbn [mbind option_bind].
  rewrite (GetRecordOffset_rep _ _ _ _ _ (len l1 + 1) Hrep2) by (rewrite length_app; simpl; lia).
  cbn [mbind option_bind]. rewrite (numRecords_rep _ _ _ _ Hrep). cbn [mbind option_bind].
  rewrite (free_offset_rep _ _ _ _ Hrep). cbn [mbind option_bind].
  rewrite !concat_app, !length_app. simpl. rewrite app_nil_r, length_app.
  replace (14 + Z.of_nat (length (concat l1) + (length r + length (concat l2))) -
    (14 + Z.of_nat (length (concat l1) + length r))) with (len (concat l2)) by lia.
  replace (14 + Z.of_nat (length (concat l1) + length r) - (14 + len (concat l1))) with (len r) by lia.
  rewrite !s16_id by lia.
  destruct Hrep as (gap & -> & _ & _ & _). rewrite node_bytes_length in HN by done.
  unfold node_bytes at 1. rewrite concat_app. change (concat (r :: l2)) with (r ++ concat l2).
  rewrite <- !(app_assoc (concat l1)), <- !(app_assoc r).
  rewrite (app_assoc _ (concat l1)).
  destruct (MoveRecords_left ((hdr ++ le16 (len (l1 ++ r :: l2)) ++ res) ++ concat l1) r (concat l2)
     (gap ++ words (reverse (offsets 14 (l1 ++ r :: l2)))) (14 + Z.of_nat (length (concat l1) + length r))
     (14 + len (concat l1)) (len (concat l2))) as (Y & HY & ->);
    [rewrite !length_app, length_le16; lia|rewrite !length_app, length_le16; lia|done|].
  cbn [mbind option_bind]. rewrite <- (app_assoc _ (concat l1)).
  destruct (DeleteOffset_rep hdr res l1 r l2 Y gap) as (g2 & Hg2 & ->);
    [done|done|done|lia|]. cbn [mbind option_bind].
  assert (node_rep bt hdr res (l1 ++ l2) (node_bytes hdr res (l1 ++ l2) (Y ++ gap ++ g2))) as Hrep'.
  { eexists. split_and!; [done| |done|done]. rewrite node_bytes_length by done.
    rewrite concat_app, !length_app in *. simpl in HN. rewrite length_app in HN. lia. }
  rewrite (numRecords_rep _ _ _ _ Hrep'). cbn [mbind option_bind]. unfold GetRecordAddress.
  rewrite (free_offset_rep _ _ _ _ Hrep'). cbn [mbind option_bind].
  unfold node_bytes. rewrite <- !(app_assoc Y), (app_assoc _ (concat (l1 ++ l2))).
  rewrite ClearMemory_app; [|rewrite !length_app, length_le16; lia|lia].
  eexists. split; [done|]. exists (replicate (length Y) 0 ++ gap ++ g2).
  split_and!; [unfold node_bytes; by rewrite <- !app_assoc| |done|done].
  destruct Hrep' as (_ & _ & HN' & _). rewrite <- HN'. unfold node_bytes.
  rewrite !length_app, length_replicate. lia.
Qed.

(** *** Lookup *)

(** The bytes from a record's offset on start with the record. *)
Lemma drop_record hdr res l1 r l2 node :
  node_rep bt hdr res (l1 ++ r :: l2) node ->
  exists rest, drop (Z.to_nat (14 + len (concat l1))) node = r ++ rest.
Proof.
  intros (gap & -> & _ & Hh & Hr). unfold node_bytes. rewrite concat_app, concat_cons.
  rewrite <- (app_assoc (concat l1)), (app_assoc _ (concat l1)), drop_app_length'.
  - rewrite <- (app_assoc r). by eexists.
  - rewrite !length_app, length_le16. lia.
Qed.

Lemma get_record hdr res l1 r l2 node :
  node_rep bt hdr res (l1 ++ r :: l2) node ->
  get_bytes node (14 + len (concat l1)) (len r) = Some r.
Proof.
  intros (gap & -> & _ & Hh & Hr). unfold node_bytes. rewrite concat_app, concat_cons.
  rewrite <- (app_assoc (concat l1)), <- (app_assoc r), (app_assoc _ (concat l1)).
  apply get_bytes_app; [|done]. rewrite !length_app, length_le16. lia.
Qed.

(** The key length fits its length field. *)
Definition keyLength_ok (k : Z) : Prop :=
  0 <= k <= (if bt_attr bt kBTBigKeysMask then UINT16_MAX - 4 else UINT8_MAX).

Lemma CalcKeySize_field k raw rest :
  keyLength_ok k -> CalcKeySize bt (key_field k raw ++ rest) = Some (k + lengthSize).
Proof.
  unfold keyLength_ok, CalcKeySize, key_field, length_field, lengthSize. intros Hk.
  destruct (bt_attr bt kBTBigKeysMask).
  - rewrite <- !app_assoc. rewrite ld16_head by done. cbn [mbind option_bind].
    by rewrite le_value_le16 by (unfold UINT16_MAX in *; lia).
  - rewrite <- !app_assoc. unfold ld8. rewrite get_bytes_head by done.
    cbn [fmap option_fmap option_map mbind option_bind]. rewrite le_value_bytes.
    rewrite Z.mod_small by (unfold UINT8_MAX in *; simpl; lia). done.
Qed.

Lemma GetRecordByIndex_rep hdr res l1 l2 node k raw data :
  node_rep bt hdr res (l1 ++ keyed_record k raw data :: l2) node -> keyLength_ok k -> len raw <= k ->
  let keyPtr := 14 + len (concat l1) in
  let dataPtr := keyPtr + keyed_size k in
  GetRecordByIndex bt node (len l1) = Some (inr (keyPtr, dataPtr, len data)) /\
  get_bytes node dataPtr (len data) = Some data.
Proof.
  intros Hrep Hk Hraw. pose proof (record_start_bound _ _ _ _ _ Hrep) as Hb.
  simpl in Hb. rewrite length_app in Hb. unfold keyed_record in Hb at 1. rewrite length_app in Hb.
  pose proof (length_key_field k raw Hraw) as Hkf. pose proof lengthSize_bounds.
  pose proof (pad_even_bounds (k + lengthSize)) as Hpe. fold (keyed_size k) in Hpe.
  assert (0 <= k) by (unfold keyLength_ok in Hk; lia).
  split.
  - unfold GetRecordByIndex. rewrite (numRecords_rep _ _ _ _ Hrep). cbn [mbind option_bind].
    destruct (Z.leb_spec (len (l1 ++ keyed_record k raw data :: l2)) (len l1)) as [Hle|_];
      [rewrite length_app in Hle; simpl in Hle; lia|].
    rewrite (GetRecordOffset_rep _ _ _ _ _ _ Hrep eq_refl). cbn [mbind option_bind fmap option_fmap option_map].
    rewrite (u16_id (14 + _)) by (unfold UINT16_MAX; lia).
    destruct (drop_record _ _ _ _ _ _ Hrep) as [rest ->]. unfold keyed_record at 1. rewrite <- app_assoc.
    rewrite CalcKeySize_field by done. cbn [mbind option_bind].
    rewrite (u16_id (k + lengthSize)) by (unfold UINT16_MAX; lia).
    replace (if M_IsOdd (k + lengthSize) then u16 (k + lengthSize + 1) else k + lengthSize) with (keyed_size k)
      by (unfold keyed_size, pad_even; destruct (M_IsOdd _); [|done]; rewrite u16_id; unfold UINT16_MAX in *; lia).
    assert (node_rep bt hdr res ((l1 ++ [keyed_record k raw data]) ++ l2) node) as Hrep2 by (by rewrite <- app_assoc).
    rewrite (GetRecordOffset_rep _ _ _ _ _ (len l1 + 1) Hrep2) by (rewrite length_app; simpl; lia).
    cbn [mbind option_bind fmap option_fmap option_map].
    rewrite (u16_id (14 + len (concat l1) + _)) by (unfold UINT16_MAX; lia). do 3 f_equal.
    rewrite concat_app, length_app. simpl. rewrite app_nil_r. unfold keyed_record. rewrite length_app.
    rewrite (u16_id (14 + _)) by (unfold UINT16_MAX; lia). rewrite u16_id by (unfold UINT16_MAX; lia). lia.
  - destruct Hrep as (gap & -> & _ & Hh & Hr). unfold node_bytes. rewrite concat_app, concat_cons.
    unfold keyed_record. rewrite <- (app_assoc (concat l1)), <- !(app_assoc (key_field k raw)).
    rewrite <- (app_assoc data), (app_assoc _ (concat l1)), (app_assoc _ (key_field k raw)).
    apply get_bytes_app; [|done]. rewrite !length_app, length_le16. lia.
Qed.

(** A record that is [r ++ data]'s key part alone determines the child pointer of
    an index record: the four bytes after the key, when the key has no pad byte. *)
Lemma GetChildNodeNum_rep hdr res l1 l2 node k raw child :
  node_rep bt hdr res (l1 ++ keyed_record k raw (le32 child) :: l2) node ->
  keyLength_ok k -> len raw <= k -> M_IsOdd (k + lengthSize) = false -> 0 <= child <= UINT32_MAX ->
  GetChildNodeNum bt node (len l1) = Some child.
Proof.
  intros Hrep Hk Hraw Hodd Hc. destruct (GetRecordByIndex_rep _ _ _ _ _ _ _ _ Hrep Hk Hraw) as [_ Hget].
  unfold GetChildNodeNum, GetRecordAddress.
  rewrite (GetRecordOffset_rep _ _ _ _ _ _ Hrep eq_refl). cbn [mbind option_bind].
  destruct (drop_record _ _ _ _ _ _ Hrep) as [rest ->]. unfold keyed_record at 1. rewrite <- app_assoc.
  rewrite CalcKeySize_field by done. cbn [mbind option_bind].
  unfold keyed_size, pad_even in Hget. rewrite Hodd in Hget. rewrite length_le32 in Hget.
  unfold ld32. change (Z.of_nat 4) with 4 in Hget. rewrite Hget. cbn [fmap option_fmap option_map]. by rewrite le_value_le32.
Qed.

(** The descriptor fields before numRecords are in [hdr]. *)
Lemma header_rep hdr res recs node :
  node_rep bt hdr res recs node ->
  nd_fLink node = ld32 hdr 0 /\ nd_bLink node = ld32 hdr 4 /\
  nd_kind node = s8 <$> ld8 hdr 8 /\ nd_height node = ld8 hdr 9.
Proof.
  intros (gap & -> & _ & Hh & _). unfold node_bytes. rewrite <- (app_assoc hdr).
  do 11 (destruct hdr as [|? hdr]; try done).
  unfold nd_fLink, nd_bLink, nd_kind, nd_height, ld32, ld8.
  by split_and!; erewrite get_bytes_prefix by reflexivity.
Qed.

Lemma header_some hdr res recs node :
  node_rep bt hdr res recs node ->
  is_Some (nd_fLink node) /\ is_Some (nd_bLink node) /\ is_Some (nd_kind node) /\ is_Some (nd_height node).
Proof.
  intros Hrep. destruct (header_rep _ _ _ _ Hrep) as (-> & -> & -> & ->).
  destruct (node_rep_lengths _ _ _ _ Hrep) as (Hh & _).
  do 11 (destruct hdr as [|? hdr]; try done).
Qed.

(** Writing the descriptor fields before numRecords. *)
Lemma put_in_header hdr res recs node off bs hdr' :
  node_rep bt hdr res recs node -> put_bytes hdr off bs = Some hdr' ->
  exists node', put_bytes node off bs = Some node' /\ node_rep bt hdr' res recs node'.
Proof.
  intros (gap & -> & HN & Hh & Hr) Hput. pose proof (put_bytes_length _ _ _ _ Hput) as Hlen.
  exists (node_bytes hdr' res recs gap). split.
  - unfold node_bytes. rewrite <- !(app_assoc hdr), <- !(app_assoc hdr'). by apply put_bytes_prefix.
  - exists gap. split_and!; [done| |lia|done]. rewrite <- HN, !node_bytes_length by (done || lia). done.
Qed.

(** *** Writing inside a record *)

Lemma offsets_same_lengths o l l' : length <$> l = length <$> l' -> offsets o l = offsets o l'.
Proof.
  revert o l'. induction l as [|r l IH]; intros o [|r' l'] E; try done.
  simpl in E. injection E as E1 E2. rewrite !offsets_cons, E1. f_equal. by apply IH.
Qed.

Lemma put_in_record hdr res l1 X Y Y' B l2 node off :
  node_rep bt hdr res (l1 ++ (X ++ Y ++ B) :: l2) node ->
  off = 14 + len (concat l1) + len X -> length Y' = length Y ->
  exists node', put_bytes node off Y' = Some node' /\
    node_rep bt hdr res (l1 ++ (X ++ Y' ++ B) :: l2) node'.
Proof.
  intros (gap & -> & HN & Hh & Hr) -> HY.
  assert (length <$> (l1 ++ (X ++ Y ++ B) :: l2) = length <$> (l1 ++ (X ++ Y' ++ B) :: l2)) as EL.
  { rewrite !fmap_app, !fmap_cons, !length_app, HY. done. }
  exists (node_bytes hdr res (l1 ++ (X ++ Y' ++ B) :: l2) gap). split.
  - unfold node_bytes. rewrite (offsets_same_lengths 14 _ _ EL), !concat_app, !concat_cons.
    replace (len (l1 ++ (X ++ Y ++ B) :: l2)) with (len (l1 ++ (X ++ Y' ++ B) :: l2)) by (by rewrite !length_app).
    rewrite <- !(app_assoc (concat l1)), <- !(app_assoc X), <- !(app_assoc Y), <- !(app_assoc Y').
    rewrite (app_assoc _ (concat l1)), (app_assoc _ X).
    rewrite put_bytes_app; [|rewrite !length_app, length_le16; lia|done].
    by rewrite <- !app_assoc.
  - eexists. split_and!; [done| |done|done]. rewrite <- HN, !node_bytes_length by done.
    rewrite !concat_app, !concat_cons, !length_app. simpl. lia.
Qed.

(** *** An empty node *)

Lemma new_node_rep node node1 node2 :
  len node = nodeSize bt -> ClearNode bt node = Some node1 ->
  st16 node1 (nodeSize bt - 2) sizeof_BTNodeDescriptor = Some node2 ->
  node_rep bt (replicate 10 0) (replicate 2 0) [] node2.
Proof.
  intros HN H1 H2. unfold node_size_ok in Hbt. unfold ClearNode in H1. rewrite <- HN in H1 at 1.
  replace node with ([] ++ node ++ []) in H1 at 1 by (by rewrite app_nil_r).
  rewrite ClearMemory_app in H1 by done. injection H1 as <-. rewrite app_nil_r in H2. simpl in H2.
  assert (replicate (length node) 0 = (replicate 10 0 ++ le16 0 ++ replicate 2 0)
            ++ replicate (length node - 16) 0 ++ [0; 0]) as E.
  { change (replicate 10 0 ++ le16 0 ++ replicate 2 0) with (replicate 14 0).
    change [0; 0] with (replicate 2 0). rewrite <- !replicate_add. f_equal. lia. }
  rewrite E in H2. exists (replicate (length node - 16) 0).
  rewrite (app_assoc _ (replicate _ _) [0;0]), <- (app_nil_r [0;0]) in H2.
  rewrite st16_app in H2; [|rewrite !length_app, !length_replicate, length_le16; lia|done].
  injection H2 as <-. unfold node_bytes. split_and!; try done.
  cbn [length]. rewrite length_app, length_replicate. simpl. lia.
Qed.

End NodeRep.

(** *** Binary search *)

(** What the node code relies on of a key comparison, for keys satisfying [P]:
    it reads only the key it is given the address of, and the order [ord] it
    computes is transitive. *)
Class KeyOrder (cmp : KeyCompareProc) (P : bytes -> Prop) (ord : bytes -> bytes -> Z) := {
  cmp_reads_key : forall k r rest, P k -> P r -> cmp k (r ++ rest) = Some (ord k r);
  ord_trans : forall k r1 r2, P k -> P r1 -> P r2 ->
    ord r1 r2 < 0 -> 0 <= ord k r2 -> 0 < ord k r1;
  ord_antisym : forall k r, P k -> P r -> (ord k r < 0 <-> 0 < ord r k);
}.

(** The records of a node are in strictly ascending key order. *)
Definition keys_sorted (ord : bytes -> bytes -> Z) (recs : list bytes) : Prop :=
  StronglySorted (fun r1 r2 => ord r1 r2 < 0) recs.

(** The answer of a search: the index of the record with the key, or where a
    record with it belongs. *)
Definition search_result (ord : bytes -> bytes -> Z) (key : bytes) (recs : list bytes)
    (found : bool) (index : nat) : Prop :=
  Forall (fun r => 0 < ord key r) (take index recs) /\
  if found
  then exists r, recs !! index = Some r /\ ord key r = 0 /\
         Forall (fun r => ord key r < 0) (drop (S index) recs)
  else (index <= length recs)%nat /\ Forall (fun r => ord key r < 0) (drop index recs).

Section Search.
Context (bt : BTreeControlBlock) (Hbt : node_size_ok bt).
Context (cmp : KeyCompareProc) (P : bytes -> Prop) (ord : bytes -> bytes -> Z) `{!KeyOrder cmp P ord}.
Context (hdr res node key : bytes) (recs : list bytes).
Context (Hrep : node_rep bt hdr res recs node).
Context (Hkey : P key) (HP : Forall P recs) (Hsorted : keys_sorted ord recs).

Lemma sorted_below i r :
  recs !! i = Some r -> 0 <= ord key r -> Forall (fun r => 0 < ord key r) (take i recs).
Proof.
  intros Hi Hc. pose proof (Forall_lookup_1 _ _ _ _ HP Hi) as Hr.
  rewrite <- (take_drop_middle _ _ _ Hi) in Hsorted.
  apply StronglySorted_middle in Hsorted as (_ & _ & Hlt & _).
  apply Forall_forall. intros r1 Hr1. apply (ord_trans key r1 r); try done.
  - eapply Forall_forall; [|exact Hr1]. by apply Forall_take.
  - by eapply Forall_forall in Hlt.
Qed.

Lemma sorted_above i r :
  recs !! i = Some r -> ord key r <= 0 -> Forall (fun r => ord key r < 0) (drop (S i) recs).
Proof.
  intros Hi Hc. pose proof (Forall_lookup_1 _ _ _ _ HP Hi) as Hr.
  rewrite <- (take_drop_middle _ _ _ Hi) in Hsorted.
  apply StronglySorted_middle in Hsorted as (_ & _ & _ & Hlt & _).
  apply Forall_forall. intros r2 Hr2.
  assert (P r2) as HP2 by (eapply Forall_forall; [|exact Hr2]; by apply Forall_drop).
  eapply Forall_forall in Hlt; [|exact Hr2].
  destruct (Z.le_gt_cases 0 (ord key r2)) as [Hc2|]; [|lia].
  pose proof (ord_trans key r r2 Hkey Hr HP2 Hlt Hc2). lia.
Qed.

Lemma SearchNode_loop_spec fuel lo up :
  0 <= lo -> lo <= up + 1 -> up < len recs -> (Z.to_nat (up - lo + 1) < fuel)%nat ->
  Forall (fun r => 0 < ord key r) (take (Z.to_nat lo) recs) ->
  Forall (fun r => ord key r < 0) (drop (Z.to_nat (up + 1)) recs) ->
  exists found i, SearchNode_loop cmp bt node key lo up fuel = Some (found, Z.of_nat i) /\
    search_result ord key recs found i.
Proof.
  pose proof (node_rep_free _ Hbt _ _ _ _ Hrep) as [_ Hn].
  revert lo up. induction fuel as [|fuel IH]; intros lo up Hlo Hle Hup Hf Hbelow Habove; [lia|].
  cbn [SearchNode_loop]. destruct (Z.leb_spec lo up) as [Hlu|Hlu].
  - rewrite Z.shiftr_div_pow2 by lia. change (2 ^ 1) with 2.
    set (i := (lo + up) / 2).
    assert (lo <= i <= up) as Hi by (subst i; split; [apply Z.div_le_lower_bound|apply Z.div_le_upper_bound]; lia).
    destruct (lookup_lt_is_Some_2 recs (Z.to_nat i)) as [r Hr]; [lia|].
    pose proof (take_drop_middle _ _ _ Hr) as Esplit.
    assert (node_rep bt hdr res (take (Z.to_nat i) recs ++ r :: drop (S (Z.to_nat i)) recs) node) as Hrep'
      by (by rewrite Esplit).
    assert (len (take (Z.to_nat i) recs) = i) as Hlen by (rewrite length_take; lia).
    replace (nodeSize bt - kOffsetSize - 2 * i)
      with (nodeSize bt - 2 * len (take (Z.to_nat i) recs) - 2) by (unfold kOffsetSize; lia).
    rewrite (offset_rep _ Hbt _ _ _ _ _ Hrep'). cbn [mbind option_bind].
    destruct (drop_record _ _ _ _ _ _ _ Hrep') as [rest Erest].
    rewrite Erest, cmp_reads_key by (done || by eapply Forall_lookup_1). cbn [mbind option_bind].
    destruct (Z.ltb_spec (ord key r) 0) as [Hc|Hc]; [|destruct (Z.ltb_spec 0 (ord key r)) as [Hc'|Hc']].
    + apply IH; try done; try lia.
      replace (Z.to_nat (i - 1 + 1)) with (Z.to_nat i) by lia.
      rewrite (drop_S _ _ _ Hr). constructor; [done|]. apply (sorted_above _ _ Hr). lia.
    + apply IH; try done; try lia.
      replace (Z.to_nat (i + 1)) with (S (Z.to_nat i)) by lia.
      rewrite (take_S_r _ _ _ Hr). apply Forall_app. split; [by apply (sorted_below _ _ Hr)|by repeat constructor].
    + exists true, (Z.to_nat i). split.
      * rewrite u16_id by lia. do 2 f_equal. lia.
      * split; [by apply (sorted_below _ _ Hr)|]. exists r. split_and!; [done|lia|].
        apply (sorted_above _ _ Hr). lia.
  - exists false, (Z.to_nat lo). split.
    + rewrite u16_id by lia. do 2 f_equal. lia.
    + split; [done|]. split; [lia|]. by replace (Z.to_nat lo) with (Z.to_nat (up + 1)) by lia.
Qed.

Lemma SearchNode_rep :
  exists found i, SearchNode cmp bt node key = Some (found, Z.of_nat i) /\
    search_result ord key recs found i.
Proof.
  unfold SearchNode. rewrite (numRecords_rep _ Hbt _ _ _ _ Hrep). cbn [mbind option_bind].
  apply SearchNode_loop_spec; [lia|lia|lia|lia|constructor|].
  rewrite drop_ge by lia. constructor.
Qed.
End Search.
