(* ===== verification/ExtentKeys.v ===== *)
(** * Keys of the extents overflow B-tree (core/FileExtentMapping.c)

    CompareExtentKeysPlus, the key comparison of the extents B-tree, meets what
    the B-tree code asks of a comparison ([KeyOrder]). *)

From S2P Require Import Prelude HfsFormat Bytes BTNode.

(** HFSPlusExtentKey (core/hfs_format.h): keyLength, forkType, pad, fileID,
    startBlock. *)
Definition ek_keyLength (key : bytes) : option Z := ld16 key 0.
Definition ek_forkType (key : bytes) : option Z := ld8 key 2.
Definition ek_fileID (key : bytes) : option Z := ld32 key 4.
Definition ek_startBlock (key : bytes) : option Z := ld32 key 8.

Definition kHFSPlusExtentKeyMaximumLength : Z := 10.

Definition mkExtentKey (forkType fileID startBlock : Z) : bytes :=
  le16 kHFSPlusExtentKeyMaximumLength ++ le_bytes 1 forkType ++ [0] ++ le32 fileID ++ le32 startBlock.

Definition CompareExtentKeysPlus : KeyCompareProc := fun searchKey trialKey =>
  sFile ← ek_fileID searchKey; tFile ← ek_fileID trialKey;
  if sFile =? tFile then
    sFork ← ek_forkType searchKey; tFork ← ek_forkType trialKey;
    if sFork =? tFork then
      sStart ← ek_startBlock searchKey; tStart ← ek_startBlock trialKey;
      if sStart =? tStart then Some 0
      else if tStart <? sStart then Some 1 else Some (-1)
    else if tFork <? sFork then Some 1 else Some (-1)
  else if tFile <? sFile then Some 1 else Some (-1).

(** The fields a key has, and the lexicographic order on them. *)
Definition extent_key_fields (key : bytes) : option (Z * Z * Z) :=
  f ← ek_fileID key; k ← ek_forkType key; s ← ek_startBlock key; Some (f, k, s).

Definition compare_fields (a b : Z * Z * Z) : Z :=
  let '(f1, k1, s1) := a in let '(f2, k2, s2) := b in
  if f1 =? f2 then
    if k1 =? k2 then if s1 =? s2 then 0 else if s2 <? s1 then 1 else -1
    else if k2 <? k1 then 1 else -1
  else if f2 <? f1 then 1 else -1.

(** A record starts with a whole key. *)
Definition has_extent_key (r : bytes) : Prop := is_Some (extent_key_fields r).

Definition extent_order (r1 r2 : bytes) : Z :=
  compare_fields (default (0, 0, 0) (extent_key_fields r1)) (default (0, 0, 0) (extent_key_fields r2)).

Lemma ld_prefix b rest off v :
  (ld8 b off = Some v -> ld8 (b ++ rest) off = Some v) /\
  (ld32 b off = Some v -> ld32 (b ++ rest) off = Some v).
Proof.
  unfold ld8, ld32. split; intros (bs & Hbs & ->)%fmap_Some;
    by rewrite (get_bytes_prefix _ _ _ _ _ Hbs).
Qed.

Lemma extent_key_fields_prefix r rest f :
  extent_key_fields r = Some f -> extent_key_fields (r ++ rest) = Some f.
Proof.
  unfold extent_key_fields, ek_fileID, ek_forkType, ek_startBlock. intros H.
  destruct (ld32 r 4) as [v4|] eqn:E4; [|done]. destruct (ld8 r 2) as [v2|] eqn:E2; [|done].
  destruct (ld32 r 8) as [v8|] eqn:E8; [|done].
  rewrite (proj2 (ld_prefix r rest 4 v4) E4), (proj1 (ld_prefix r rest 2 v2) E2),
    (proj2 (ld_prefix r rest 8 v8) E8). done.
Qed.

Lemma CompareExtentKeysPlus_fields k r a b :
  extent_key_fields k = Some a -> extent_key_fields r = Some b ->
  CompareExtentKeysPlus k r = Some (compare_fields a b).
Proof.
  unfold extent_key_fields, CompareExtentKeysPlus. intros Ha Hb.
  destruct (ek_fileID k); [|done]. destruct (ek_forkType k); [|done]. destruct (ek_startBlock k); [|done].
  destruct (ek_fileID r); [|done]. destruct (ek_forkType r); [|done]. destruct (ek_startBlock r); [|done].
  simpl in *. simplify_eq. simpl. by repeat case_match.
Qed.

(** The comparison is the lexicographic order. *)
Lemma compare_fields_spec a1 a2 a3 b1 b2 b3 :
  let c := compare_fields (a1, a2, a3) (b1, b2, b3) in
  (c < 0 <-> a1 < b1 \/ a1 = b1 /\ (a2 < b2 \/ a2 = b2 /\ a3 < b3)) /\
  (0 < c <-> b1 < a1 \/ a1 = b1 /\ (b2 < a2 \/ a2 = b2 /\ b3 < a3)).
Proof. simpl. zcases. Qed.

#[export] Instance extent_key_order :
  KeyOrder CompareExtentKeysPlus has_extent_key extent_order.
Proof.
  split.
  - intros k r rest [a Ha] [b Hb]. unfold extent_order. rewrite Ha, Hb. simpl.
    apply CompareExtentKeysPlus_fields; [done|]. by apply extent_key_fields_prefix.
  - intros k r1 r2 [[[a1 a2] a3] Ha] [[[b1 b2] b3] Hb] [[[c1 c2] c3] Hc]. unfold extent_order.
    rewrite Ha, Hb, Hc. unfold default, id.
    pose proof (compare_fields_spec b1 b2 b3 c1 c2 c3). pose proof (compare_fields_spec a1 a2 a3 c1 c2 c3).
    pose proof (compare_fields_spec a1 a2 a3 b1 b2 b3). cbv zeta in *. lia.
  - intros k r [[[a1 a2] a3] Ha] [[[b1 b2] b3] Hb]. unfold extent_order. rewrite Ha, Hb. unfold default, id.
    pose proof (compare_fields_spec a1 a2 a3 b1 b2 b3). pose proof (compare_fields_spec b1 b2 b3 a1 a2 a3). cbv zeta in *. lia.
Qed.
