(* ===== verification/BTNodeProps.v ===== *)
(** * Properties of the node operations (core/BTreeNodeOps.c)

    What each operation of [BTNode] does to the list of records a node holds, and
    that none of them reads or writes outside the node.  The witnesses use 512-byte
    nodes of the extents B-tree. *)

From S2P Require Import Prelude HfsFormat Bytes BTNode ExtentKeys.

(** ** Example node *)

Definition ex_bt : BTreeControlBlock := {|
  treeDepth := 1; rootNode := 1; leafRecords := 2; firstLeafNode := 1; lastLeafNode := 1;
  nodeSize := 512; maxKeyLength := 10; totalNodes := 64; freeNodes := 62; btreeType := 0;
  flags := 0; attributes := 2; writeCount := 0; reservedNodes := 0;
  stats := mkStats 0 0 0 0 0 0 0 0 |}.

Definition ex_hdr : bytes := le32 0 ++ le32 0 ++ [255; 1].
Definition ex_data (v : Z) : bytes := le32 v ++ replicate 60 0.
Definition ex_rec (file start v : Z) : bytes :=
  keyed_record ex_bt 10 (drop 2 (mkExtentKey 0 file start)) (ex_data v).
Definition ex_recs : list bytes := [ex_rec 20 8 100; ex_rec 20 64 200; ex_rec 31 8 300].
Definition ex_node : bytes :=
  node_bytes ex_hdr [0; 0] ex_recs (replicate (Z.to_nat (free_space ex_bt ex_recs)) 0).

Lemma ex_node_rep : node_rep ex_bt ex_hdr [0; 0] ex_recs ex_node.
Proof. eexists. split_and!; reflexivity. Qed.

Lemma ex_bt_ok : node_size_ok ex_bt.
Proof. unfold node_size_ok. simpl. lia. Qed.

(** ** Properties *)

Section Props.
Context (bt : BTreeControlBlock) (Hbt : node_size_ok bt).

(** On a well-formed node, InsertKeyRecord succeeds exactly when the padded
    key, the data and a new offset fit in the free space; it then puts the record
    (length field, key, zero padding, data) at [index] and keeps the header and
    every other record; when it does not fit the node is unchanged. *)
Theorem InsertKeyRecord_correct hdr res recs node index keyPtr raw keyLength recPtr data :
  node_rep bt hdr res recs node -> (index <= length recs)%nat ->
  key_ok bt keyPtr raw -> len raw <= keyLength <= UINT16_MAX - 4 ->
  get_bytes recPtr 0 (len data) = Some data -> lengthSize bt <= len data ->
  exists fit node',
    InsertKeyRecord bt node (Z.of_nat index) keyPtr keyLength recPtr (len data) = Some (fit, node') /\
    (fit = true <-> keyed_size bt keyLength + len data + 2 <= free_space bt recs) /\
    if fit
    then node_rep bt hdr res (take index recs ++ keyed_record bt keyLength raw data :: drop index recs) node'
    else node' = node.
Proof.
  intros Hrep Hi Hk Hl Hd Hdl. rewrite <- (take_drop index recs) in Hrep.
  pose proof (InsertKeyRecord_rep _ Hbt _ _ _ _ _ _ _ _ _ _ Hrep Hk Hl Hd Hdl) as H.
  rewrite (take_drop index recs) in H.
  replace (len (take index recs)) with (Z.of_nat index) in H by (rewrite length_take; lia).
  destruct (Z.ltb_spec (free_space bt recs) (keyed_size bt keyLength + len data + 2)).
  - exists false, node. split_and!; [done| |done]. split; [done|lia].
  - destruct H as (node' & E & Hrep'). exists true, node'. split_and!; [done|lia|done].
Qed.

(** On a well-formed node, DeleteRecord removes exactly the record at
    [index]: the node then holds the other records in the same order, under the same
    header. *)
Theorem DeleteRecord_correct hdr res recs node index :
  node_rep bt hdr res recs node -> (index < length recs)%nat ->
  exists node', DeleteRecord bt node (Z.of_nat index) = Some node' /\
    node_rep bt hdr res (delete index recs) node'.
Proof.
  intros Hrep Hi. destruct (lookup_lt_is_Some_2 recs index Hi) as [r Hr].
  rewrite <- (take_drop_middle _ _ _ Hr) in Hrep.
  destruct (DeleteRecord_rep _ Hbt _ _ _ _ _ _ Hrep) as (node' & E & Hrep').
  replace (len (take index recs)) with (Z.of_nat index) in E by (rewrite length_take; lia).
  exists node'. split; [done|]. by rewrite delete_take_drop.
Qed.

(** Deleting the record just inserted gives back a node with the same header
    and the same records. *)
Theorem insert_delete_roundtrip hdr res recs node index keyPtr raw keyLength recPtr data node1 :
  node_rep bt hdr res recs node -> (index <= length recs)%nat ->
  key_ok bt keyPtr raw -> len raw <= keyLength <= UINT16_MAX - 4 ->
  get_bytes recPtr 0 (len data) = Some data -> lengthSize bt <= len data ->
  InsertKeyRecord bt node (Z.of_nat index) keyPtr keyLength recPtr (len data) = Some (true, node1) ->
  exists node2, DeleteRecord bt node1 (Z.of_nat index) = Some node2 /\ node_rep bt hdr res recs node2.
Proof.
  intros Hrep Hi Hk Hl Hd Hdl E. rewrite <- (take_drop index recs) in Hrep.
  pose proof (InsertKeyRecord_rep _ Hbt _ _ _ _ _ _ _ _ _ _ Hrep Hk Hl Hd Hdl) as H.
  replace (len (take index recs)) with (Z.of_nat index) in H by (rewrite length_take; lia).
  rewrite E in H. case_match; [done|]. destruct H as (node' & [= ->] & Hrep').
  destruct (DeleteRecord_rep _ Hbt _ _ _ _ _ _ Hrep') as (node2 & E2 & Hrep2).
  replace (len (take index recs)) with (Z.of_nat index) in E2 by (rewrite length_take; lia).
  exists node2. split; [done|]. by rewrite take_drop in Hrep2.
Qed.

Section Searching.
Context (cmp : KeyCompareProc) (P : bytes -> Prop) (ord : bytes -> bytes -> Z) `{!KeyOrder cmp P ord}.

(** On a node whose records are in key order, SearchNode terminates and
    answers true with the index of the record that has the key, or false with the
    index where it belongs: every record before it has a smaller key, every record
    from it on a larger one. *)
Theorem SearchNode_correct hdr res recs node key :
  node_rep bt hdr res recs node -> P key -> Forall P recs -> keys_sorted ord recs ->
  exists found i, SearchNode cmp bt node key = Some (found, Z.of_nat i) /\
    search_result ord key recs found i.
Proof. intros Hrep Hk HP Hs. exact (SearchNode_rep _ Hbt cmp P ord _ _ _ _ _ Hrep Hk HP Hs). Qed.

(** A sorted list stays sorted when a record is put where the search said. *)
Lemma sorted_insert recs i key r :
  keys_sorted ord recs -> search_result ord key recs false i -> P r -> Forall P recs ->
  (forall r', P r' -> ord r r' = ord key r') ->
  keys_sorted ord (take i recs ++ r :: drop i recs).
Proof.
  intros Hs (Hlo & Hi & Hhi) Hr HP Heq. unfold keys_sorted in *.
  rewrite <- (take_drop i recs) in Hs. apply StronglySorted_app in Hs as (Hc & H1 & H2).
  apply StronglySorted_app. split_and!; [|done|].
  - intros a b Ha [->|Hb]%elem_of_cons; [|by apply Hc].
    assert (P a) as HPa by (eapply Forall_forall; [apply Forall_take, HP|done]).
    apply ord_antisym; [done|done|]. rewrite Heq by done. by eapply Forall_forall in Hlo.
  - constructor; [done|]. apply Forall_forall. intros a Ha.
    assert (P a) as HPa by (eapply Forall_forall; [apply Forall_drop, HP|done]).
    rewrite Heq by done. by eapply Forall_forall in Hhi.
Qed.

(** Inserting a key at the index SearchNode reported for it keeps the node in
    key order, and SearchNode then finds the key at that index. *)
Theorem search_insert_search hdr res recs node key i raw keyLength recPtr data node' :
  node_rep bt hdr res recs node -> P key -> Forall P recs -> keys_sorted ord recs ->
  SearchNode cmp bt node key = Some (false, Z.of_nat i) ->
  key_ok bt key raw -> len raw <= keyLength <= UINT16_MAX - 4 ->
  get_bytes recPtr 0 (len data) = Some data -> lengthSize bt <= len data ->
  let r := keyed_record bt keyLength raw data in
  P r -> (forall r', P r' -> ord r r' = ord key r') -> ord key r = 0 ->
  InsertKeyRecord bt node (Z.of_nat i) key keyLength recPtr (len data) = Some (true, node') ->
  (exists recs', node_rep bt hdr res recs' node' /\ keys_sorted ord recs' /\ recs' !! i = Some r) /\
  SearchNode cmp bt node' key = Some (true, Z.of_nat i).
Proof.
  intros Hrep Hkey HP Hs Hsearch Hk Hl Hd Hdl r HPr Heq H0 E.
  destruct (SearchNode_rep _ Hbt cmp P ord _ _ _ _ _ Hrep Hkey HP Hs) as (found & i' & E1 & Hres).
  rewrite Hsearch in E1. injection E1 as <- <-%Nat2Z.inj. pose proof Hres as (_ & Hi & _).
  rewrite <- (take_drop i recs) in Hrep.
  pose proof (InsertKeyRecord_rep _ Hbt _ _ _ _ _ _ _ _ _ _ Hrep Hk Hl Hd Hdl) as H.
  replace (len (take i recs)) with (Z.of_nat i) in H by (rewrite length_take; lia).
  rewrite E in H. case_match; [done|]. destruct H as (node1 & [= ->] & Hrep'). fold r in Hrep'.
  pose proof (sorted_insert _ _ _ _ Hs Hres HPr HP Heq) as Hs'.
  set (recs' := take i recs ++ r :: drop i recs) in *.
  assert (recs' !! i = Some r) as Hlook by (subst recs'; apply list_lookup_middle; rewrite length_take; lia).
  split; [by exists recs'|].
  assert (Forall P recs') as HP'
    by (subst recs'; apply Forall_app; split; [by apply Forall_take|constructor; [done|by apply Forall_drop]]).
  destruct (SearchNode_rep _ Hbt cmp P ord _ _ _ _ _ Hrep' Hkey HP' Hs') as (found & j & -> & Hres').
  pose proof (sorted_below cmp P ord _ _ Hkey HP' Hs' i r Hlook ltac:(lia)) as Hbelow.
  assert (j = i) as ->.
  { destruct Hres' as [Hlo' Hrest]. destruct (Nat.lt_trichotomy j i) as [Hji|[->|Hji]]; [|done|].
    - destruct found.
      + destruct Hrest as (r0 & Hr0 & Hz & _).
        eapply Forall_lookup_1 in Hbelow; [|by rewrite lookup_take_lt]. simpl in *. lia.
      + destruct Hrest as [_ Hhi]. rewrite <- (Nat.sub_add j i) in Hlook by lia.
        rewrite Nat.add_comm, <- lookup_drop in Hlook.
        eapply Forall_lookup_1 in Hhi; [|done]. simpl in *. lia.
    - eapply Forall_lookup_1 in Hlo'; [|rewrite lookup_take_lt; [exact Hlook|lia]]. simpl in *. lia. }
  destruct found; [done|]. destruct Hres' as (_ & _ & Hhi).
  rewrite (drop_S _ _ _ Hlook) in Hhi. inversion Hhi; subst. lia.
Qed.
End Searching.
End Props.

(** ** Witnesses *)

Lemma InsertKeyRecord_correct_witness : exists fit node',
  InsertKeyRecord ex_bt ex_node 1 (mkExtentKey 0 20 16) 10 (ex_data 150) 64 = Some (fit, node') /\
  fit = true.
Proof.
  destruct (InsertKeyRecord_correct ex_bt ex_bt_ok ex_hdr [0; 0] ex_recs ex_node 1 (mkExtentKey 0 20 16)
    (drop 2 (mkExtentKey 0 20 16)) 10 (ex_data 150) (ex_data 150)) as (fit & node' & E & Hf & _);
    [apply ex_node_rep|simpl; lia|by split|by vm_compute|done|by vm_compute|].
  exists fit, node'. split; [exact E|]. apply Hf. by vm_compute.
Defined.

Lemma DeleteRecord_correct_witness : exists node',
  DeleteRecord ex_bt ex_node 1 = Some node' /\
  node_rep ex_bt ex_hdr [0; 0] [ex_rec 20 8 100; ex_rec 31 8 300] node'.
Proof.
  apply (DeleteRecord_correct ex_bt ex_bt_ok ex_hdr [0; 0] ex_recs ex_node 1);
    [apply ex_node_rep|simpl; lia].
Defined.

Definition ex_inserted : bytes :=
  match InsertKeyRecord ex_bt ex_node 1 (mkExtentKey 0 20 16) 10 (ex_data 150) 64 with
  | Some (_, n) => n
  | None => []
  end.

Lemma insert_delete_roundtrip_witness : exists node2,
  DeleteRecord ex_bt ex_inserted 1 = Some node2 /\ node_rep ex_bt ex_hdr [0; 0] ex_recs node2.
Proof.
  apply (insert_delete_roundtrip ex_bt ex_bt_ok ex_hdr [0; 0] ex_recs ex_node 1 (mkExtentKey 0 20 16)
    (drop 2 (mkExtentKey 0 20 16)) 10 (ex_data 150) (ex_data 150));
    [apply ex_node_rep|simpl; lia|by split|by vm_compute|done|by vm_compute|by vm_compute].
Defined.

Lemma ex_has_key r : r ∈ ex_recs -> has_extent_key r.
Proof. intros H. repeat (apply elem_of_cons in H as [->|H]; [by eexists|]). by apply elem_of_nil in H. Qed.

Lemma ex_sorted : keys_sorted extent_order ex_recs.
Proof. repeat constructor. Qed.

Lemma SearchNode_correct_witness : exists found i,
  SearchNode CompareExtentKeysPlus ex_bt ex_node (mkExtentKey 0 20 16) = Some (found, Z.of_nat i) /\
  search_result extent_order (mkExtentKey 0 20 16) ex_recs found i.
Proof.
  apply (SearchNode_correct ex_bt ex_bt_ok CompareExtentKeysPlus has_extent_key extent_order ex_hdr [0; 0]);
    [apply ex_node_rep|by eexists|apply Forall_forall, ex_has_key|apply ex_sorted].
Defined.

Lemma search_insert_search_witness :
  SearchNode CompareExtentKeysPlus ex_bt ex_inserted (mkExtentKey 0 20 16) = Some (true, 1).
Proof.
  apply (search_insert_search ex_bt ex_bt_ok CompareExtentKeysPlus has_extent_key extent_order ex_hdr [0; 0]
    ex_recs ex_node (mkExtentKey 0 20 16) 1 (drop 2 (mkExtentKey 0 20 16)) 10 (ex_data 150) (ex_data 150));
    [apply ex_node_rep|by eexists|apply Forall_forall, ex_has_key|apply ex_sorted|by vm_compute|by split
    |by vm_compute|done|by vm_compute|by eexists|done|done|by vm_compute].
Defined.
