(* ===== verification/BTRotate.v ===== *)
(** * Moving records between sibling nodes (core/BTreeTreeOps.c)

    RotateLeft balances a full node with its left sibling while inserting a
    record: the records of both nodes, with the new one in its place, are
    divided again between the two. *)

From S2P Require Import Prelude HfsFormat Bytes BTNode.

Definition GetKeyLength (b : BTreeControlBlock) (key : bytes) (forLeafNode : bool) : option Z :=
  if forLeafNode || bt_attr b kBTVariableIndexKeysMask then KeyLength b key
  else Some (maxKeyLength b).

(** ** RotateRecordLeft *)

(** Whether the record fit, and the left and right node. *)
Definition RotateRecordLeft (b : BTreeControlBlock) (left right : bytes) : option (bool * bytes * bytes) :=
  size ← GetRecordSize b right 0;
  recPtr ← GetRecordAddress b right 0;
  n ← nd_numRecords left;
  '(recordFit, left) ← InsertRecord b left n (drop (Z.to_nat recPtr) right) size;
  if negb recordFit then Some (false, left, right) else
  right ← DeleteRecord b right 0;
  Some (true, left, right).

(** ** RotateLeft *)

(** The division of the space: the sizes of the two nodes and the number of
    records, the new one included, to move to the left. *)
Record balance := mkBalance {
  bal_left : Z; bal_right : Z; bal_moveIndex : Z; bal_moveSize : Z
}.

Definition RotateLeft_moveSize (b : BTreeControlBlock) (right : bytes)
    (rightInsertIndex insertSize moveIndex : Z) : option Z :=
  if moveIndex <? rightInsertIndex then s ← GetRecordSize b right moveIndex; Some (s + 2)
  else if moveIndex =? rightInsertIndex then Some insertSize
  else s ← GetRecordSize b right (moveIndex - 1); Some (s + 2).

Fixpoint RotateLeft_balance (b : BTreeControlBlock) (right : bytes) (rightInsertIndex insertSize : Z)
    (bal : balance) (fuel : nat) : option balance :=
  match fuel with
  | O => None
  | S fuel =>
      if bal_left bal <? bal_right bal then
        moveSize ← RotateLeft_moveSize b right rightInsertIndex insertSize (bal_moveIndex bal);
        RotateLeft_balance b right rightInsertIndex insertSize
          (mkBalance (bal_left bal + moveSize) (bal_right bal - moveSize)
             (u16 (bal_moveIndex bal + 1)) moveSize) fuel
      else Some bal
  end.

Definition RotateLeft_undo (nodeSize : Z) (bal : balance) : balance :=
  if nodeSize <? bal_left bal
  then mkBalance (bal_left bal - bal_moveSize bal) (bal_right bal + bal_moveSize bal)
         (u16 (bal_moveIndex bal - 1)) (bal_moveSize bal)
  else bal.

(** The results of RotateLeft, with the two nodes. *)
Record rotate_result := mkRotate {
  rot_err : Z;
  rot_left : bytes;
  rot_right : bytes;
  rot_insertIndex : Z;
  rot_insertNodeNum : Z;
  rot_recordFit : bool;
  rot_recsRotated : Z;
}.

Definition rotate_fail (err : Z) (left right : bytes) : rotate_result := mkRotate err left right 0 0 false 0.

(** The rotation itself: [index] records have been moved. *)
Fixpoint RotateLeft_move (b : BTreeControlBlock) (left right : bytes) (rightInsertIndex : Z)
    (keyPtr : bytes) (keyLength : Z) (recPtr : bytes) (recSize index moveIndex : Z)
    (insertIndex insertNodeNum : Z) (fuel : nat) : option rotate_result :=
  match fuel with
  | O => None
  | S fuel =>
      if index <? moveIndex then
        if index =? rightInsertIndex then
          leftInsertIndex ← nd_numRecords left;
          '(didItFit, left) ← InsertKeyRecord b left leftInsertIndex keyPtr keyLength recPtr recSize;
          if negb didItFit then Some (rotate_fail fsBTBadRotateErr left right) else
          bLink ← nd_bLink right;
          RotateLeft_move b left right rightInsertIndex keyPtr keyLength recPtr recSize
            (u16 (index + 1)) moveIndex leftInsertIndex bLink fuel
        else
          '(didItFit, left, right) ← RotateRecordLeft b left right;
          if negb didItFit then Some (rotate_fail fsBTBadRotateErr left right) else
          RotateLeft_move b left right rightInsertIndex keyPtr keyLength recPtr recSize
            (u16 (index + 1)) moveIndex insertIndex insertNodeNum fuel
      else if moveIndex <=? rightInsertIndex then
        let rightInsertIndex := u16 (rightInsertIndex - index) in
        '(didItFit, right) ← InsertKeyRecord b right rightInsertIndex keyPtr keyLength recPtr recSize;
        if negb didItFit then Some (rotate_fail fsBTBadRotateErr left right) else
        fLink ← nd_fLink left;
        Some (mkRotate noErr left right rightInsertIndex fLink true moveIndex)
      else Some (mkRotate noErr left right insertIndex insertNodeNum true moveIndex)
  end.

Definition RotateLeft (b : BTreeControlBlock) (left right : bytes) (rightInsertIndex : Z)
    (keyPtr recPtr : bytes) (recSize : Z) : option rotate_result :=
  kind ← nd_kind right;
  keyLength ← GetKeyLength b keyPtr (kind =? kBTLeafNode);
  let lengthFieldSize := if bt_attr b kBTBigKeysMask then 2 else 1 in
  let insertSize := keyLength + lengthFieldSize + recSize + 2 in
  let insertSize := if M_IsOdd insertSize then insertSize + 1 else insertSize in
  rightFree ← GetNodeFreeSize b right;
  leftFree ← GetNodeFreeSize b left;
  n ← nd_numRecords right;
  bal ← RotateLeft_balance b right rightInsertIndex insertSize
          (mkBalance (nodeSize b - leftFree) (nodeSize b - rightFree + insertSize) 0 0) (S (S (Z.to_nat n)));
  let bal := RotateLeft_undo (nodeSize b) bal in
  if nodeSize b <? bal_right bal then Some (rotate_fail noErr left right) else
  RotateLeft_move b left right rightInsertIndex keyPtr keyLength recPtr recSize 0 (bal_moveIndex bal) 0 0
    (S (Z.to_nat (bal_moveIndex bal))).

(** ** What RotateLeft does to the records *)

(** The space records take in a node with their offsets, and the space a node
    with them uses. *)
Definition weight (recs : list bytes) : Z := len (concat recs) + 2 * len recs.
Definition used (recs : list bytes) : Z := 16 + weight recs.

Lemma weight_app l1 l2 : weight (l1 ++ l2) = weight l1 + weight l2.
Proof. unfold weight. rewrite concat_app, !length_app. lia. Qed.

Lemma weight_cons r l : weight (r :: l) = len r + 2 + weight l.
Proof. unfold weight. simpl. rewrite length_app. lia. Qed.

Lemma weight_nil : weight [] = 0.
Proof. done. Qed.

Lemma weight_nonneg l : 0 <= weight l.
Proof. unfold weight. lia. Qed.

Lemma weight_take_le m l : weight (take m l) <= weight l.
Proof. rewrite <- (take_drop m l) at 2. rewrite weight_app. pose proof (weight_nonneg (drop m l)). lia. Qed.

Lemma weight_split m l : weight (take m l) + weight (drop m l) = weight l.
Proof. rewrite <- weight_app, take_drop. done. Qed.

Lemma free_space_used b recs : free_space b recs = nodeSize b - used recs.
Proof. unfold free_space, used, weight. lia. Qed.

Section Rotate.
Context (bt : BTreeControlBlock) (Hbt : node_size_ok bt).
Context (hdrL resL hdrR resR : bytes) (L r1 r2 : list bytes).
Context (keyPtr raw recPtr data : bytes) (keyLength : Z).
Context (Hkey : key_ok bt keyPtr raw) (Hkl : len raw <= keyLength <= UINT16_MAX - 4).
Context (Hdata : get_bytes recPtr 0 (len data) = Some data) (Hdl : lengthSize bt <= len data).

(** The new record, and all the records of the right node with it. *)
Notation r := (keyed_record bt keyLength raw data).
Notation All := (r1 ++ r :: r2).

Lemma length_new_record : len r = keyed_size bt keyLength + len data.
Proof. unfold keyed_record. rewrite length_app. pose proof (length_key_field bt keyLength raw). lia. Qed.

(** The records left in the right node, without the new one, when [i] records
    of [All] have been moved. *)
Definition right_recs (i : nat) : list bytes :=
  if decide (i <= length r1)%nat then drop i r1 ++ r2 else drop (i - length r1 - 1) r2.

Lemma all_lookup_lt i : (i < length r1)%nat -> All !! i = r1 !! i.
Proof. intros. by rewrite lookup_app_l. Qed.

Lemma all_lookup_eq : All !! length r1 = Some r.
Proof. by rewrite lookup_middle. Qed.

Lemma all_lookup_gt i : (length r1 < i)%nat -> All !! i = r2 !! (i - length r1 - 1)%nat.
Proof.
  intros. rewrite lookup_app_r by lia. destruct (i - length r1)%nat as [|j] eqn:E; [lia|]. simpl.
  by rewrite Nat.sub_0_r.
Qed.

Lemma right_recs_next i x :
  (i <> length r1)%nat -> All !! i = Some x -> right_recs i = x :: right_recs (S i).
Proof.
  intros Hne Hx. unfold right_recs. destruct (Nat.lt_trichotomy i (length r1)) as [Hlt|[|Hgt]]; [|done|].
  - rewrite all_lookup_lt in Hx by done. rewrite !decide_True by lia. by rewrite (drop_S _ _ _ Hx).
  - rewrite all_lookup_gt in Hx by done. rewrite !decide_False by lia.
    rewrite (drop_S _ _ _ Hx). do 2 f_equal. lia.
Qed.

Lemma right_recs_insert : right_recs (S (length r1)) = r2.
Proof.
  unfold right_recs. rewrite decide_False by lia. by replace (S (length r1) - length r1 - 1)%nat with 0%nat by lia.
Qed.

Lemma right_recs_eq : right_recs (length r1) = r2.
Proof. unfold right_recs. rewrite decide_True by lia. by rewrite drop_ge. Qed.

Lemma right_recs_gt m : (length r1 < m)%nat -> right_recs m = drop m All.
Proof.
  intros. unfold right_recs. rewrite decide_False by lia. rewrite drop_app_ge by lia.
  destruct (m - length r1)%nat as [|j] eqn:E; [lia|]. simpl. by rewrite Nat.sub_0_r.
Qed.

Lemma take_S_All m x : All !! m = Some x -> L ++ take (S m) All = (L ++ take m All) ++ [x].
Proof. intros Hx. by rewrite (take_S_r _ _ _ Hx), app_assoc. Qed.

(** *** The balance *)

Context (right : bytes) (Hright : node_rep bt hdrR resR (r1 ++ r2) right).
Context (Heven : M_IsOdd (len data) = false).

Definition insert_size : Z := len r + 2.

Lemma M_IsOdd_even x : M_IsOdd x = Z.odd x.
Proof.
  unfold M_IsOdd. change 1 with (Z.ones 1). rewrite Z.land_ones by lia. change (2 ^ 1) with 2.
  rewrite Zmod_odd. by destruct (Z.odd x).
Qed.

(** RotateLeft's own computation of the size of the new record. *)
Lemma insert_size_padded :
  (if M_IsOdd (keyLength + lengthSize bt + len data + 2) then keyLength + lengthSize bt + len data + 2 + 1
   else keyLength + lengthSize bt + len data + 2) = insert_size.
Proof.
  unfold insert_size. rewrite length_new_record. unfold keyed_size, pad_even.
  rewrite !M_IsOdd_even in *. rewrite !Z.odd_add, Heven. simpl Z.odd.
  rewrite !xorb_false_r. destruct (xorb _ _); lia.
Qed.

Lemma moveSize_rep m x :
  All !! m = Some x ->
  RotateLeft_moveSize bt right (len r1) insert_size (Z.of_nat m) = Some (len x + 2).
Proof.
  intros Hx. unfold RotateLeft_moveSize.
  destruct (Nat.lt_trichotomy m (length r1)) as [Hlt|[->|Hgt]].
  - destruct (Z.ltb_spec (Z.of_nat m) (len r1)); [|lia]. rewrite all_lookup_lt in Hx by done.
    rewrite <- (take_drop_middle _ _ _ Hx), <- app_assoc in Hright. simpl in Hright.
    rewrite (GetRecordSize_rep _ Hbt _ _ _ _ _ _ _ Hright); [done|]. rewrite length_take. lia.
  - destruct (Z.ltb_spec (len r1) (len r1)); [lia|]. rewrite Z.eqb_refl.
    rewrite all_lookup_eq in Hx. by injection Hx as <-.
  - destruct (Z.ltb_spec (Z.of_nat m) (len r1)); [lia|]. destruct (Z.eqb_spec (Z.of_nat m) (len r1)); [lia|].
    rewrite all_lookup_gt in Hx by done.
    rewrite <- (take_drop_middle _ _ _ Hx), app_assoc in Hright.
    rewrite (GetRecordSize_rep _ Hbt _ _ _ _ _ _ _ Hright); [done|].
    pose proof (lookup_lt_Some _ _ _ Hx). rewrite length_app, length_take. lia.
Qed.

Definition left_size (m : nat) : Z := used L + weight (take m All).
Definition right_size (m : nat) : Z := 16 + weight (drop m All).

Lemma size_step m x :
  All !! m = Some x ->
  left_size (S m) = left_size m + (len x + 2) /\ right_size (S m) = right_size m - (len x + 2).
Proof.
  intros Hx. unfold left_size, right_size. rewrite (take_S_r _ _ _ Hx), weight_app, weight_cons.
  rewrite (drop_S _ _ _ Hx) at 1. rewrite weight_cons, weight_nil. lia.
Qed.

Lemma size_bounds : len All <= UINT16_MAX.
Proof.
  pose proof (node_rep_free _ Hbt _ _ _ _ Hright) as [Hf Hn]. unfold free_space, node_size_ok in *.
  rewrite !length_app in *. simpl. unfold UINT16_MAX in *. lia.
Qed.

(** The loop stops at the first point where the left node is no smaller. *)
Lemma balance_rep m ms fuel :
  (m <= length All)%nat -> (length All - m < fuel)%nat ->
  exists m' ms', RotateLeft_balance bt right (len r1) insert_size
      (mkBalance (left_size m) (right_size m) (Z.of_nat m) ms) fuel =
      Some (mkBalance (left_size m') (right_size m') (Z.of_nat m') ms') /\
    (m <= m' <= length All)%nat /\ right_size m' <= left_size m' /\
    (forall i, (m <= i < m')%nat -> left_size i < right_size i) /\
    ((m' = m /\ ms' = ms) \/ (exists x, (m < m')%nat /\ All !! (m' - 1)%nat = Some x /\ ms' = len x + 2)).
Proof.
  pose proof size_bounds as Hb.
  revert m ms. induction fuel as [|fuel IH]; intros m ms Hm Hf; [lia|]. cbn [RotateLeft_balance bal_left bal_right].
  destruct (Z.ltb_spec (left_size m) (right_size m)) as [Hlt|Hge].
  - assert (m < length All)%nat as Hlen.
    { destruct (decide (m = length All)) as [->|]; [|lia]. unfold left_size, right_size, used in Hlt.
      rewrite drop_ge, weight_nil in Hlt by lia. pose proof (weight_nonneg L).
      pose proof (weight_nonneg (take (length All) All)). lia. }
    destruct (lookup_lt_is_Some_2 All m Hlen) as [x Hx]. cbn [bal_moveIndex].
    rewrite (moveSize_rep m x Hx). cbn [mbind option_bind].
    destruct (size_step m x Hx) as [<- <-]. rewrite u16_id by lia.
    replace (Z.of_nat m + 1) with (Z.of_nat (S m)) by lia.
    destruct (IH (S m) (len x + 2)) as (m' & ms' & -> & Hm' & Hge & Hlts & Hlast); [lia|lia|].
    exists m', ms'. split_and!; try done; try lia.
    + intros i Hi. destruct (decide (i = m)) as [->|]; [done|]. apply Hlts. lia.
    + right. destruct Hlast as [[-> ->]|(y & ? & ? & ?)].
      * exists x. split_and!; [lia| |done]. by rewrite Nat.sub_succ, Nat.sub_0_r.
      * exists y. split_and!; try done; lia.
  - exists m, ms. split_and!; try done; try lia.
Qed.
(** *** The moves *)

Lemma RotateRecordLeft_rep LL x RR left rt :
  node_rep bt hdrL resL LL left -> node_rep bt hdrR resR (x :: RR) rt ->
  used (LL ++ [x]) <= nodeSize bt ->
  exists left' rt', RotateRecordLeft bt left rt = Some (true, left', rt') /\
    node_rep bt hdrL resL (LL ++ [x]) left' /\ node_rep bt hdrR resR RR rt'.
Proof.
  intros Hl Hr Hfit. unfold RotateRecordLeft.
  rewrite (GetRecordSize_rep _ Hbt hdrR resR [] x RR rt 0 Hr eq_refl). cbn [mbind option_bind].
  unfold GetRecordAddress. rewrite (GetRecordOffset_rep _ Hbt hdrR resR [] (x :: RR) rt 0 Hr eq_refl). cbn [mbind option_bind].
  rewrite (numRecords_rep _ Hbt _ _ _ _ Hl). cbn [mbind option_bind].
  destruct (drop_record bt hdrR resR [] x RR rt Hr) as [rest Erest]. simpl concat in Erest |- *. rewrite Erest.
  assert (node_rep bt hdrL resL (LL ++ []) left) as Hl' by (by rewrite app_nil_r).
  pose proof (InsertRecord_rep _ Hbt _ _ _ _ _ (x ++ rest) x Hl' (get_bytes_head _ _ _ eq_refl)) as Hins.
  rewrite app_nil_r in Hins. rewrite free_space_used in Hins.
  unfold used in Hfit, Hins. rewrite weight_app, weight_cons, weight_nil in Hfit.
  destruct (Z.ltb_spec (nodeSize bt - (16 + weight LL)) (len x + 2)); [lia|].
  destruct Hins as (left' & -> & Hleft'). cbn [mbind option_bind].
  destruct (DeleteRecord_rep _ Hbt hdrR resR [] x RR rt Hr) as (rt' & Edel & Hrt').
  change (len []) with 0 in Edel. rewrite Edel. by exists left', rt'.
Qed.

(** Where the new record went: node and index. *)
Definition insert_place (left0 right0 : bytes) (m : nat) (idx node : Z) : Prop :=
  if decide (length r1 < m)%nat
  then idx = len L + len r1 /\ nd_bLink right0 = Some node
  else idx = len r1 - Z.of_nat m /\ nd_fLink left0 = Some node.

(** The loop from [i] moved records on; [m] is the number to move. *)
Lemma move_rep m : (m <= length All)%nat -> used (L ++ take m All) <= nodeSize bt -> used (drop m All) <= nodeSize bt ->
  forall fuel i left rt idx node,
  (i <= m)%nat -> (m - i < fuel)%nat ->
  node_rep bt hdrL resL (L ++ take i All) left -> node_rep bt hdrR resR (right_recs i) rt ->
  ((length r1 < i)%nat -> idx = len L + len r1 /\ nd_bLink right = Some node) ->
  exists left' rt' idx' node',
    RotateLeft_move bt left rt (len r1) keyPtr keyLength recPtr (len data) (Z.of_nat i) (Z.of_nat m) idx node fuel =
      Some (mkRotate noErr left' rt' idx' node' true (Z.of_nat m)) /\
    node_rep bt hdrL resL (L ++ take m All) left' /\ node_rep bt hdrR resR (drop m All) rt' /\
    insert_place left right m idx' node'.
Proof.
  intros Hm HfitL HfitR. pose proof size_bounds as Hsz.
  destruct (header_rep _ _ _ _ _ Hright) as (_ & HbR & _).
  assert (forall i left, node_rep bt hdrL resL (L ++ take i All) left -> nd_fLink left = ld32 hdrL 0) as HfL
    by (intros i left Hl; by apply (header_rep _ _ _ _ _ Hl)).
  induction fuel as [|fuel IH]; intros i left rt idx node Him Hf Hleft Hrt Hplace; [lia|]. cbn [RotateLeft_move].
  destruct (Z.ltb_spec (Z.of_nat i) (Z.of_nat m)) as [Hlt|Hge].
  - destruct (lookup_lt_is_Some_2 All i) as [x Hx]; [lia|].
    assert (used (L ++ take (S i) All) <= nodeSize bt) as HfitS.
    { unfold used in *. rewrite weight_app in *. assert (weight (take (S i) All) <= weight (take m All)); [|lia].
      replace (take (S i) All) with (take (S i) (take m All)) by (rewrite take_take; f_equal; lia).
      apply weight_take_le. }
    destruct (Z.eqb_spec (Z.of_nat i) (len r1)) as [Ei%Nat2Z.inj|Hne].
    + subst i. rewrite all_lookup_eq in Hx. injection Hx as <-.
      rewrite (numRecords_rep _ Hbt _ _ _ _ Hleft). cbn [mbind option_bind].
      assert (node_rep bt hdrL resL ((L ++ take (length r1) All) ++ []) left) as Hleft' by (by rewrite app_nil_r).
      pose proof (InsertKeyRecord_rep _ Hbt _ _ _ _ _ _ _ _ _ _ Hleft' Hkey Hkl Hdata Hdl) as Hins.
      rewrite app_nil_r in Hins. rewrite free_space_used, <- length_new_record in Hins.
      rewrite (take_S_All _ _ all_lookup_eq) in HfitS.
      unfold used in HfitS, Hins. rewrite (weight_app _ [_]), weight_cons, weight_nil in HfitS.
      destruct (Z.ltb_spec (nodeSize bt - (16 + weight (L ++ take (length r1) All))) (len r + 2)); [lia|].
      destruct Hins as (left' & -> & Hl'). cbn [mbind option_bind negb].
      destruct (header_rep _ _ _ _ _ Hrt) as (_ & HbRt & _). rewrite HbRt, <- HbR.
      destruct (header_some _ _ _ _ _ Hright) as (_ & [bl Hbl] & _).
      rewrite Hbl. cbn [mbind option_bind]. rewrite u16_id by (unfold UINT16_MAX in *; lia).
      replace (len r1 + 1) with (Z.of_nat (S (length r1))) by lia.
      destruct (IH (S (length r1)) left' rt (len (L ++ take (length r1) All)) bl)
        as (l'' & r'' & idx'' & node'' & -> & H1 & H2 & H3); try done; try lia.
      * by rewrite (take_S_All _ _ all_lookup_eq).
      * by rewrite right_recs_insert, <- right_recs_eq.
      * intros _. rewrite length_app, take_app_length. split; [lia|done].
      * exists l'', r'', idx'', node''. split_and!; try done. unfold insert_place in *.
        rewrite decide_True in * by lia. done.
    + rewrite (right_recs_next i x) in Hrt by (done || lia).
      destruct (RotateRecordLeft_rep _ x _ left rt Hleft Hrt) as (left' & rt' & -> & Hl' & Hr').
      { by rewrite <- (take_S_All _ _ Hx). }
      cbn [mbind option_bind negb]. rewrite u16_id by lia. replace (Z.of_nat i + 1) with (Z.of_nat (S i)) by lia.
      destruct (IH (S i) left' rt' idx node) as (l'' & r'' & idx'' & node'' & -> & H1 & H2 & H3); try done; try lia.
      * by rewrite (take_S_All _ _ Hx).
      * intros Hgt. apply Hplace. lia.
      * exists l'', r'', idx'', node''. split_and!; try done. unfold insert_place in *.
        case_decide; [done|]. rewrite (HfL _ _ Hleft). rewrite <- (HfL (S i) left'); [done|].
        by rewrite (take_S_All _ _ Hx).
  - assert (i = m) as -> by lia. destruct (Z.leb_spec (Z.of_nat m) (len r1)) as [Hle|Hgt].
    + rewrite u16_id by (rewrite length_app in Hsz; simpl in Hsz; lia).
      assert (right_recs m = drop m r1 ++ r2) as Er by (unfold right_recs; by rewrite decide_True by lia).
      rewrite Er in Hrt.
      pose proof (InsertKeyRecord_rep _ Hbt _ _ _ _ _ _ _ _ _ _ Hrt Hkey Hkl Hdata Hdl) as Hins.
      rewrite free_space_used, <- length_new_record in Hins.
      replace (len (drop m r1)) with (len r1 - Z.of_nat m) in Hins by (rewrite length_drop; lia).
      assert (drop m All = drop m r1 ++ r :: r2) as Ed by (by rewrite drop_app_le by lia).
      rewrite Ed in HfitR |- *. unfold used in HfitR, Hins. rewrite !weight_app, weight_cons in *.
      destruct (Z.ltb_spec (nodeSize bt - (16 + (weight (drop m r1) + weight r2))) (len r + 2)); [lia|].
      destruct Hins as (rt' & -> & Hr'). cbn [mbind option_bind negb].
      destruct (header_some _ _ _ _ _ Hleft) as ([fl Hfl] & _).
      rewrite Hfl. cbn [mbind option_bind]. exists left, rt', (len r1 - Z.of_nat m), fl. split_and!; try done.
      unfold insert_place. rewrite decide_False by lia. done.
    + rewrite right_recs_gt in Hrt by lia. exists left, rt, idx, node. split_and!; try done.
      unfold insert_place. rewrite decide_True by lia. apply Hplace. lia.
Qed.
(** *** RotateLeft *)

(** Division point [k] leaves both nodes within their size. *)
Definition split_fits (k : nat) : Prop := left_size k <= nodeSize bt /\ right_size k <= nodeSize bt.

Lemma left_size_mono i j : (i <= j)%nat -> left_size i <= left_size j.
Proof.
  intros. unfold left_size.
  replace (take i All) with (take i (take j All)) by (rewrite take_take; f_equal; lia).
  pose proof (weight_take_le i (take j All)). lia.
Qed.

Lemma right_size_mono i j : (i <= j)%nat -> right_size j <= right_size i.
Proof.
  intros Hij. unfold right_size. pose proof (left_size_mono i j Hij) as H. unfold left_size in H.
  pose proof (weight_split i All). pose proof (weight_split j All). lia.
Qed.

Context (left : bytes) (Hleft : node_rep bt hdrL resL L left).
Context (Hlen : exists kind, nd_kind right = Some kind /\ GetKeyLength bt keyPtr (kind =? kBTLeafNode) = Some keyLength).

Lemma RotateLeft_rep :
  exists res, RotateLeft bt left right (len r1) keyPtr recPtr (len data) = Some res /\ rot_err res = noErr /\
    if rot_recordFit res
    then exists m, (m <= length All)%nat /\ rot_recsRotated res = Z.of_nat m /\
      node_rep bt hdrL resL (L ++ take m All) (rot_left res) /\
      node_rep bt hdrR resR (drop m All) (rot_right res) /\
      insert_place left right m (rot_insertIndex res) (rot_insertNodeNum res)
    else res = rotate_fail noErr left right /\
      exists m x, All !! m = Some x /\ nodeSize bt < left_size (S m) /\ nodeSize bt < right_size m.
Proof.
  destruct Hlen as (kind & Hkind & Hgkl). unfold RotateLeft.
  rewrite Hkind. cbn [mbind option_bind]. rewrite Hgkl. cbn [mbind option_bind].
  fold (lengthSize bt). rewrite insert_size_padded.
  rewrite (GetNodeFreeSize_rep _ Hbt _ _ _ _ Hright), (GetNodeFreeSize_rep _ Hbt _ _ _ _ Hleft).
  cbn [mbind option_bind]. rewrite (numRecords_rep _ Hbt _ _ _ _ Hright). cbn [mbind option_bind].
  rewrite !free_space_used.
  assert (nodeSize bt - (nodeSize bt - used L) = left_size 0) as ->
    by (unfold left_size; rewrite take_0, weight_nil; lia).
  assert (nodeSize bt - (nodeSize bt - used (r1 ++ r2)) + insert_size = right_size 0) as ->.
  { unfold right_size, insert_size, used. rewrite drop_0, !weight_app, weight_cons. lia. }
  assert (left_size 0 <= nodeSize bt) as Hl0.
  { pose proof (node_rep_free _ Hbt _ _ _ _ Hleft) as [Hf _]. rewrite free_space_used in Hf.
    unfold left_size. rewrite take_0, weight_nil. lia. }
  destruct (balance_rep 0 0 (S (S (Z.to_nat (len (r1 ++ r2)))))) as (m & ms & Ebal & Hm & Hge & Hlt & Hms);
    [lia|rewrite !length_app; simpl; lia|].
  change (Z.of_nat 0) with 0 in Ebal. rewrite Ebal. cbn [mbind option_bind].
  assert (exists k, RotateLeft_undo (nodeSize bt) (mkBalance (left_size m) (right_size m) (Z.of_nat m) ms) =
      mkBalance (left_size k) (right_size k) (Z.of_nat k) ms /\ (k <= length All)%nat /\
      (left_size k <= nodeSize bt \/ nodeSize bt < right_size k) /\
      (nodeSize bt < right_size k -> exists x, All !! k = Some x /\ nodeSize bt < left_size (S k)))
    as (k & -> & Hk & Hkl' & Hkr).
  { unfold RotateLeft_undo. cbn [bal_left bal_right bal_moveIndex bal_moveSize].
    destruct (Z.ltb_spec (nodeSize bt) (left_size m)) as [Hover|Hok].
    - destruct Hms as [[-> _]|(x & Hpos & Hx & ->)]; [lia|]. exists (m - 1)%nat.
      destruct (size_step (m - 1) x Hx) as [E1 E2]. replace (S (m - 1)) with m in * by lia.
      specialize (Hlt (m - 1)%nat ltac:(lia)). pose proof size_bounds.
      split_and!; [|lia|lia|intros _; by exists x].
      f_equal; [lia|lia|]. rewrite u16_id by lia. lia.
    - exists m. split_and!; [done|lia|by left|lia]. }
  cbn [bal_left bal_right bal_moveIndex].
  destruct (Z.ltb_spec (nodeSize bt) (right_size k)) as [Hbig|Hfit].
  - eexists. split; [done|]. split; [done|]. cbn [rotate_fail rot_recordFit]. split; [done|].
    destruct (Hkr Hbig) as (x & Hx & Hl). by exists k, x.
  - destruct Hkl' as [Hkl'|]; [|lia].
    destruct (move_rep k Hk) with (fuel := S (Z.to_nat (Z.of_nat k))) (i := 0%nat) (left := left) (rt := right)
      (idx := 0) (node := 0) as (l' & r' & idx' & node' & E & H1 & H2 & H3); try lia.
    + unfold left_size in Hkl'. unfold used. rewrite weight_app. unfold used in Hkl'. lia.
    + done.
    + by rewrite take_0, app_nil_r.
    + unfold right_recs. rewrite decide_True by lia. by rewrite drop_0.
    + change (Z.of_nat 0) with 0 in E. rewrite E. eexists. split; [done|]. split; [done|].
      cbn [rot_recordFit]. exists k. done.
Qed.

(** RotateLeft says the record does not fit exactly when no division fits. *)
Lemma RotateLeft_complete res :
  RotateLeft bt left right (len r1) keyPtr recPtr (len data) = Some res ->
  rot_recordFit res = false <-> forall k, (k <= length All)%nat -> ~ split_fits k.
Proof.
  intros Hrun. destruct RotateLeft_rep as (res' & Hrun' & _ & H). rewrite Hrun in Hrun'. injection Hrun' as <-.
  destruct (rot_recordFit res).
  - split; [done|]. intros Hno. exfalso. destruct H as (m & Hm & _ & Hl & Hr & _). apply (Hno m Hm).
    pose proof (node_rep_free _ Hbt _ _ _ _ Hl) as [Hf1 _]. pose proof (node_rep_free _ Hbt _ _ _ _ Hr) as [Hf2 _].
    rewrite free_space_used in Hf1, Hf2. unfold split_fits, left_size, right_size, used in *.
    rewrite weight_app in Hf1. lia.
  - split; [|done]. intros _ k Hk [H1 H2]. destruct H as (_ & m & x & Hx & Hl & Hr).
    destruct (decide (k <= m)%nat).
    + pose proof (right_size_mono k m ltac:(lia)). lia.
    + pose proof (left_size_mono (S m) k ltac:(lia)). lia.
Qed.
End Rotate.
