(* ===== verification/NodeReserve.v ===== *)
(** * The table of node reserves (core/BTreeNodeReserve.c)

    Each kernel thread may hold a reserve of nodes of a B-tree.  The reserves are
    kept in a hash table of chains of caller-owned structs, identified here by
    their addresses. *)

From S2P Require Import Prelude HfsFormat.

Record nreserve := mkNR {
  nr_nodecnt : Z;    (* int: nodes held in reserve *)
  nr_newnodes : Z;   (* int: nodes that were allocated *)
  nr_btvp : Z;       (* the B-tree file's vnode *)
  nr_tag : Z;        (* the thread, 0 when the struct is not in the table *)
}.

#[export] Instance nreserve_eq_dec : EqDecision nreserve.
Proof. solve_decision. Defined.

Record nr_table := mkNRT {
  nr_hashmask : Z;
  nr_hashtbl : gmap Z (list Z);   (* bucket -> the structs of its chain, first to last *)
  nr_mem : gmap Z nreserve;       (* address -> struct *)
}.

Definition NR_HASH (t : nr_table) (btvp tag : Z) : Z :=
  Z.land (Z.lxor (Z.shiftr btvp 8) (Z.shiftr tag 4)) (nr_hashmask t).

Definition nr_chain (t : nr_table) (bucket : Z) : list Z := default [] (nr_hashtbl t !! bucket).

(** The first struct of a chain with this thread and this file. *)
Fixpoint nr_find (mem : gmap Z nreserve) (btvp tag : Z) (chain : list Z) : option (Z * nreserve) :=
  match chain with
  | [] => None
  | a :: chain =>
      match mem !! a with
      | Some nr => if (nr_tag nr =? tag) && (nr_btvp nr =? btvp) then Some (a, nr)
                   else nr_find mem btvp tag chain
      | None => None
      end
  end.

Definition nr_insert (t : nr_table) (tag btvp nrp nodecnt : Z) : nr_table :=
  let h := NR_HASH t btvp tag in
  match nr_find (nr_mem t) btvp tag (nr_chain t h) with
  | Some (a, nr) =>
      let mem := match nr_mem t !! nrp with
                 | Some n => <[nrp := mkNR (nr_nodecnt n) (nr_newnodes n) (nr_btvp n) 0]> (nr_mem t)
                 | None => nr_mem t
                 end in
      let nr := default nr (mem !! a) in
      mkNRT (nr_hashmask t) (nr_hashtbl t)
        (<[a := mkNR (s32 (nr_nodecnt nr + nodecnt)) (nr_newnodes nr) (nr_btvp nr) (nr_tag nr)]> mem)
  | None =>
      mkNRT (nr_hashmask t) (<[h := nrp :: nr_chain t h]> (nr_hashtbl t))
        (<[nrp := mkNR nodecnt 0 btvp tag]> (nr_mem t))
  end.

(** LIST_REMOVE: the struct leaves the chain it is on. *)
Definition nr_unlink (t : nr_table) (nrp : Z) : gmap Z (list Z) :=
  (fun chain => filter (fun a => a <> nrp) chain) <$> nr_hashtbl t.

(** The count of the reserve, 0 for a struct that is not in the table; [None] is
    the panic on a struct of another thread or file. *)
Definition nr_delete (t : nr_table) (tag btvp nrp : Z) : option (Z * nr_table) :=
  nr ← nr_mem t !! nrp;
  if negb (nr_tag nr =? 0) then
    if negb (nr_tag nr =? tag) || negb (nr_btvp nr =? btvp) then None else
    Some (nr_nodecnt nr,
          mkNRT (nr_hashmask t) (nr_unlink t nrp) (<[nrp := mkNR 0 0 0 0]> (nr_mem t)))
  else Some (0, t).

Definition nr_update (t : nr_table) (tag btvp nodecnt : Z) : nr_table :=
  match nr_find (nr_mem t) btvp tag (nr_chain t (NR_HASH t btvp tag)) with
  | Some (a, nr) =>
      mkNRT (nr_hashmask t) (nr_hashtbl t)
        (<[a := mkNR (nr_nodecnt nr) (s32 (nr_newnodes nr + nodecnt)) (nr_btvp nr) (nr_tag nr)]> (nr_mem t))
  | None => t
  end.

(** ** Invariant *)

(** The table is well formed: the structs on the chains are exactly the ones with
    a tag, each on the chain of its hash, and a thread has one reserve per file. *)
Record nr_wf (t : nr_table) : Prop := {
  wf_chain : forall h a, a ∈ nr_chain t h ->
    exists nr, nr_mem t !! a = Some nr /\ nr_tag nr <> 0 /\ NR_HASH t (nr_btvp nr) (nr_tag nr) = h;
  wf_linked : forall a nr, nr_mem t !! a = Some nr -> nr_tag nr <> 0 ->
    a ∈ nr_chain t (NR_HASH t (nr_btvp nr) (nr_tag nr));
  wf_unique : forall a1 a2 n1 n2, nr_mem t !! a1 = Some n1 -> nr_mem t !! a2 = Some n2 ->
    nr_tag n1 <> 0 -> nr_tag n1 = nr_tag n2 -> nr_btvp n1 = nr_btvp n2 -> a1 = a2;
}.

(** The struct may be used for a new reserve: it is not in the table. *)
Definition nr_unused (t : nr_table) (nrp : Z) : Prop :=
  forall nr, nr_mem t !! nrp = Some nr -> nr_tag nr = 0.

(** The nodes a thread holds of a file. *)
Definition nr_held (t : nr_table) (btvp tag : Z) : Z :=
  match nr_find (nr_mem t) btvp tag (nr_chain t (NR_HASH t btvp tag)) with
  | Some (_, nr) => nr_nodecnt nr
  | None => 0
  end.

Lemma nr_find_Some mem btvp tag chain a nr :
  nr_find mem btvp tag chain = Some (a, nr) ->
  a ∈ chain /\ mem !! a = Some nr /\ nr_tag nr = tag /\ nr_btvp nr = btvp.
Proof.
  induction chain as [|a' chain IH]; simpl; [done|].
  destruct (mem !! a') as [nr'|] eqn:Ea; [|done].
  destruct (Z.eqb_spec (nr_tag nr') tag), (Z.eqb_spec (nr_btvp nr') btvp); simpl;
    try (intros (? & ? & ?)%IH; split; [by right|done]).
  intros [= -> ->]. split; [left|done].
Qed.

Lemma nr_find_spec t btvp tag a nr :
  nr_wf t -> tag <> 0 ->
  nr_find (nr_mem t) btvp tag (nr_chain t (NR_HASH t btvp tag)) = Some (a, nr) <->
  nr_mem t !! a = Some nr /\ nr_tag nr = tag /\ nr_btvp nr = btvp.
Proof.
  intros Hwf Htag. split; [by intros (_ & ?)%nr_find_Some|].
  intros (Ha & Ht & Hb). pose proof (wf_linked t Hwf a nr Ha ltac:(by rewrite Ht)) as Hin.
  rewrite Ht, Hb in Hin.
  assert (forall x, x ∈ nr_chain t (NR_HASH t btvp tag) -> is_Some (nr_mem t !! x)) as Hall.
  { intros x (n & Hn & _)%(wf_chain t Hwf). by eexists. }
  revert Hin Hall. generalize (nr_chain t (NR_HASH t btvp tag)). intros chain.
  induction chain as [|x chain IH]; intros Hin Hall; [by apply elem_of_nil in Hin|].
  simpl. destruct (Hall x) as [nx Hx]; [left|]. rewrite Hx.
  destruct (Z.eqb_spec (nr_tag nx) tag) as [E1|N1]; [destruct (Z.eqb_spec (nr_btvp nx) btvp) as [E2|N2]|]; simpl.
  - assert (x = a) as -> by (eapply (wf_unique t Hwf); [exact Hx|exact Ha|congruence..]). congruence.
  - apply IH; [|intros y Hy; apply Hall; by right].
    apply elem_of_cons in Hin as [<-|]; [congruence|done].
  - apply IH; [|intros y Hy; apply Hall; by right].
    apply elem_of_cons in Hin as [<-|]; [congruence|done].
Qed.

Lemma nr_held_spec t btvp tag :
  nr_wf t -> tag <> 0 ->
  (exists a nr, nr_mem t !! a = Some nr /\ nr_tag nr = tag /\ nr_btvp nr = btvp /\ nr_held t btvp tag = nr_nodecnt nr)
  \/ ((forall a nr, nr_mem t !! a = Some nr -> nr_tag nr = tag -> nr_btvp nr = btvp -> False) /\ nr_held t btvp tag = 0).
Proof.
  intros Hwf Htag. unfold nr_held.
  destruct (nr_find _ _ _ _) as [[a nr]|] eqn:E.
  - apply nr_find_spec in E as (? & ? & ?); [|done|done]. left. by exists a, nr.
  - right. split; [|done]. intros a nr H1 H2 H3.
    assert (nr_find (nr_mem t) btvp tag (nr_chain t (NR_HASH t btvp tag)) = Some (a, nr)) as E'
      by (apply nr_find_spec; done). congruence.
Qed.

(** A reserve found in the table is the one that is held. *)
Lemma nr_held_eq t btvp tag a nr :
  nr_wf t -> tag <> 0 -> nr_mem t !! a = Some nr -> nr_tag nr = tag -> nr_btvp nr = btvp ->
  nr_held t btvp tag = nr_nodecnt nr.
Proof.
  intros Hwf Htag Ha Ht Hb. unfold nr_held.
  rewrite (proj2 (nr_find_spec t btvp tag a nr Hwf Htag)); done.
Qed.

Lemma nr_held_none t btvp tag :
  nr_wf t -> tag <> 0 -> (forall a nr, nr_mem t !! a = Some nr -> nr_tag nr = tag -> nr_btvp nr = btvp -> False) ->
  nr_held t btvp tag = 0.
Proof.
  intros Hwf Htag Hno. destruct (nr_held_spec t btvp tag Hwf Htag) as [(a & nr & ? & ? & ? & _)|[_ ?]]; [|done].
  exfalso. by eapply Hno.
Qed.

(** Changing the counters of the structs keeps the table well formed. *)
Lemma nr_wf_counts t mem :
  nr_wf t ->
  (forall a nr, nr_mem t !! a = Some nr -> nr_tag nr <> 0 ->
     exists nr', mem !! a = Some nr' /\ nr_tag nr' = nr_tag nr /\ nr_btvp nr' = nr_btvp nr) ->
  (forall a nr', mem !! a = Some nr' -> nr_tag nr' <> 0 ->
     exists nr, nr_mem t !! a = Some nr /\ nr_tag nr' = nr_tag nr /\ nr_btvp nr' = nr_btvp nr) ->
  nr_wf (mkNRT (nr_hashmask t) (nr_hashtbl t) mem).
Proof.
  intros Hwf H1 H2. split; simpl.
  - intros h a (nr & Ha & Ht & Hh)%(wf_chain t Hwf).
    destruct (H1 a nr Ha Ht) as (nr' & Ha' & E1 & E2). exists nr'. rewrite E1, E2. done.
  - intros a nr' Ha' Ht'. destruct (H2 a nr' Ha' Ht') as (nr & Ha & E1 & E2).
    rewrite E1, E2. apply (wf_linked t Hwf); [done|congruence].
  - intros a1 a2 n1 n2 Ha1 Ha2 Ht Et Eb.
    destruct (H2 a1 n1 Ha1 Ht) as (m1 & Hm1 & E1 & E2).
    destruct (H2 a2 n2 Ha2 ltac:(congruence)) as (m2 & Hm2 & E3 & E4).
    eapply (wf_unique t Hwf); [exact Hm1|exact Hm2|congruence..].
Qed.

(** ** nr_insert *)

Lemma nr_mem_unused t nrp (m : gmap Z nreserve) :
  nr_unused t nrp ->
  m = match nr_mem t !! nrp with
      | Some n => <[nrp := mkNR (nr_nodecnt n) (nr_newnodes n) (nr_btvp n) 0]> (nr_mem t)
      | None => nr_mem t
      end ->
  m = nr_mem t.
Proof.
  intros Hun ->. destruct (nr_mem t !! nrp) as [n|] eqn:E; [|done].
  rewrite insert_id; [done|]. rewrite E. specialize (Hun n E). destruct n; simpl in *. congruence.
Qed.

Lemma nr_insert_wf t tag btvp nrp cnt :
  nr_wf t -> tag <> 0 -> nr_unused t nrp -> nr_wf (nr_insert t tag btvp nrp cnt).
Proof.
  intros Hwf Htag Hun. unfold nr_insert.
  destruct (nr_find _ _ _ _) as [[a nr]|] eqn:E.
  - apply nr_find_spec in E as (Ha & Ht & Hb); [|done|done].
    rewrite (nr_mem_unused t nrp _ Hun eq_refl). rewrite Ha. simpl.
    apply nr_wf_counts; [done| |]; intros x nx Hx Hxt.
    + destruct (decide (x = a)) as [->|]; [rewrite lookup_insert_eq|rewrite lookup_insert_ne by done; by exists nx].
      eexists. split; [done|]. simpl. rewrite Ha in Hx. by simplify_eq.
    + apply lookup_insert_Some in Hx as [[<- <-]|[? ?]]; [by exists nr|by exists nx].
  - assert (forall a nr, nr_mem t !! a = Some nr -> nr_tag nr = tag -> nr_btvp nr = btvp -> False) as Hno.
    { intros a nr H1 H2 H3.
      assert (nr_find (nr_mem t) btvp tag (nr_chain t (NR_HASH t btvp tag)) = Some (a, nr))
        by (apply nr_find_spec; done). congruence. }
    split; unfold nr_chain, NR_HASH in *; simpl.
    + intros h x Hx. destruct (decide (h = NR_HASH t btvp tag)) as [->|Hne].
      * unfold NR_HASH in Hx. rewrite lookup_insert_eq in Hx. simpl in Hx.
        apply elem_of_cons in Hx as [->|Hx]; [rewrite lookup_insert_eq; by eexists|].
        destruct (wf_chain t Hwf _ _ Hx) as (nr & Hnr & Ht & Hh). exists nr.
        rewrite lookup_insert_ne; [done|]. intros ->. by apply Ht, Hun.
      * rewrite lookup_insert_ne in Hx by (unfold NR_HASH in Hne; congruence).
        destruct (wf_chain t Hwf _ _ Hx) as (nr & Hnr & Ht & Hh). exists nr.
        rewrite lookup_insert_ne; [done|]. intros ->. by apply Ht, Hun.
    + intros x nr Hx Ht. apply lookup_insert_Some in Hx as [[<- <-]|[Hne Hx]]; simpl.
      * rewrite lookup_insert_eq. left.
      * pose proof (wf_linked t Hwf x nr Hx Ht) as Hin. unfold nr_chain, NR_HASH in Hin.
        match goal with |- context [<[?k := _]> _ !! ?k'] => destruct (decide (k = k')) as [Ek|Hne'] end.
        -- rewrite Ek, lookup_insert_eq. by right.
        -- by rewrite lookup_insert_ne.
    + intros a1 a2 n1 n2 H1 H2 Ht Et Eb.
      apply lookup_insert_Some in H1 as [[<- <-]|[Hn1 H1]]; apply lookup_insert_Some in H2 as [[<- <-]|[Hn2 H2]]; simpl in *.
      * done.
      * exfalso. eapply Hno; [exact H2|done..].
      * exfalso. eapply Hno; [exact H1|done..].
      * eapply (wf_unique t Hwf); [exact H1|exact H2|done..].
Qed.

Lemma nr_insert_held t tag btvp nrp cnt :
  nr_wf t -> tag <> 0 -> nr_unused t nrp -> s32 (nr_held t btvp tag + cnt) = nr_held t btvp tag + cnt ->
  forall b tg, tg <> 0 ->
  nr_held (nr_insert t tag btvp nrp cnt) b tg =
  nr_held t b tg + (if decide (b = btvp /\ tg = tag) then cnt else 0).
Proof.
  intros Hwf Htag Hun Hw b tg Htg. pose proof (nr_insert_wf t tag btvp nrp cnt Hwf Htag Hun) as Hwf'.
  unfold nr_insert in *.
  destruct (nr_find _ _ _ _) as [[a nr]|] eqn:E.
  - apply nr_find_spec in E as (Ha & Ht & Hb); [|done|done].
    rewrite (nr_mem_unused t nrp _ Hun eq_refl) in *. rewrite Ha in *. simpl in *.
    pose proof (nr_held_eq t btvp tag a nr Hwf Htag Ha Ht Hb) as Hh. rewrite Hh in Hw.
    case_decide as Hd.
    + destruct Hd as [-> ->]. rewrite Hh.
      rewrite (nr_held_eq _ btvp tag a (mkNR (s32 (nr_nodecnt nr + cnt)) (nr_newnodes nr) (nr_btvp nr) (nr_tag nr)));
        simpl; [done|done|done|by rewrite lookup_insert_eq|done|done].
    + rewrite Z.add_0_r. destruct (nr_held_spec t b tg Hwf Htg) as [(a' & nr' & Ha' & Ht' & Hb' & ->)|[Hno ->]].
      * apply (nr_held_eq _ b tg a' nr'); simpl; [done|done| |done|done].
        rewrite lookup_insert_ne; [done|]. intros ->. apply Hd. rewrite Ha in Ha'. by simplify_eq.
      * apply nr_held_none; [done|done|]. simpl. intros x nx Hx H1 H2.
        apply lookup_insert_Some in Hx as [[<- <-]|[_ Hx]]; simpl in *; [|by eapply Hno].
        apply Hd. split; congruence.
  - assert (nr_held t btvp tag = 0) as Hh0 by (unfold nr_held; by rewrite E).
    case_decide as Hd.
    + destruct Hd as [-> ->]. rewrite Hh0, Z.add_0_l.
      apply (nr_held_eq _ btvp tag nrp (mkNR cnt 0 btvp tag)); simpl; [done|done|by rewrite lookup_insert_eq|done|done].
    + rewrite Z.add_0_r. destruct (nr_held_spec t b tg Hwf Htg) as [(a' & nr' & Ha' & Ht' & Hb' & ->)|[Hno ->]].
      * apply (nr_held_eq _ b tg a' nr'); simpl; [done|done| |done|done].
        rewrite lookup_insert_ne; [done|]. intros <-. apply Htg. rewrite <- Ht'. by apply Hun.
      * apply nr_held_none; [done|done|]. simpl. intros x nx Hx H1 H2.
        apply lookup_insert_Some in Hx as [[<- <-]|[_ Hx]]; simpl in *; [|by eapply Hno].
        apply Hd. split; congruence.
Qed.

(** ** nr_delete *)

Lemma nr_unlink_chain t nrp mem h :
  nr_chain (mkNRT (nr_hashmask t) (nr_unlink t nrp) mem) h = filter (fun a => a <> nrp) (nr_chain t h).
Proof.
  unfold nr_chain, nr_unlink. simpl. rewrite lookup_fmap. by destruct (nr_hashtbl t !! h).
Qed.

Lemma nr_delete_wf t tag btvp nrp cnt t' :
  nr_wf t -> nr_delete t tag btvp nrp = Some (cnt, t') -> nr_wf t'.
Proof.
  intros Hwf. unfold nr_delete. destruct (nr_mem t !! nrp) as [nr|] eqn:En; [|done]. simpl.
  destruct (Z.eqb_spec (nr_tag nr) 0) as [|Hnt0]; simpl; [by intros [= <- <-]|].
  destruct (Z.eqb_spec (nr_tag nr) tag) as [Et|]; [|done]. destruct (Z.eqb_spec (nr_btvp nr) btvp) as [Eb|]; [|done].
  simpl. intros [= <- <-]. split.
  - intros h a Ha. rewrite nr_unlink_chain in Ha. apply list_elem_of_filter in Ha as [Hne Ha].
    destruct (wf_chain t Hwf h a Ha) as (n & Hn & Hnt & Hh). exists n. simpl.
    by rewrite lookup_insert_ne.
  - intros a n Ha Hnt. simpl in Ha. rewrite nr_unlink_chain. apply list_elem_of_filter.
    apply lookup_insert_Some in Ha as [[<- <-]|[Hne Ha]]; [done|]. split; [done|].
    by apply (wf_linked t Hwf).
  - simpl. intros a1 a2 n1 n2 H1 H2 Ht Et' Eb'.
    apply lookup_insert_Some in H1 as [[<- <-]|[Hn1 H1]]; [done|].
    apply lookup_insert_Some in H2 as [[<- <-]|[Hn2 H2]]; [simpl in *; congruence|].
    eapply (wf_unique t Hwf); [exact H1|exact H2|done..].
Qed.

Lemma nr_delete_held t tag btvp nrp cnt t' :
  nr_wf t -> tag <> 0 -> nr_delete t tag btvp nrp = Some (cnt, t') ->
  nr_unused t' nrp /\
  forall b tg, tg <> 0 ->
  nr_held t' b tg = nr_held t b tg - (if decide (b = btvp /\ tg = tag) then cnt else 0).
Proof.
  intros Hwf Htag Hdel. pose proof (nr_delete_wf t tag btvp nrp cnt t' Hwf Hdel) as Hwf'.
  unfold nr_delete in Hdel. destruct (nr_mem t !! nrp) as [nr|] eqn:En; [|done]. simpl in Hdel.
  destruct (Z.eqb_spec (nr_tag nr) 0) as [E0|Hnt]; simpl in Hdel.
  { injection Hdel as <- <-. split; [intros n Hn; by simplify_eq|].
    intros b tg Htg. case_decide; lia. }
  destruct (Z.eqb_spec (nr_tag nr) tag) as [Et|]; [|done]. destruct (Z.eqb_spec (nr_btvp nr) btvp) as [Eb|]; [|done].
  simpl in Hdel. injection Hdel as <- <-.
  pose proof (nr_held_eq t btvp tag nrp nr Hwf Htag En Et Eb) as Hh.
  split; [intros n Hn; simpl in Hn; rewrite lookup_insert_eq in Hn; by simplify_eq|].
  intros b tg Htg. case_decide as Hd.
  - destruct Hd as [-> ->]. rewrite Hh, Z.sub_diag. apply nr_held_none; [done|done|].
    simpl. intros a n Ha H1 H2. apply lookup_insert_Some in Ha as [[<- <-]|[Hne Ha]]; [simpl in *; congruence|].
    apply Hne. eapply (wf_unique t Hwf); [exact En|exact Ha|congruence..].
  - rewrite Z.sub_0_r. destruct (nr_held_spec t b tg Hwf Htg) as [(a' & nr' & Ha' & Ht' & Hb' & ->)|[Hno ->]].
    + apply (nr_held_eq _ b tg a' nr'); simpl; [done|done| |done|done].
      rewrite lookup_insert_ne; [done|]. intros <-. apply Hd. rewrite En in Ha'. by simplify_eq.
    + apply nr_held_none; [done|done|]. simpl. intros a n Ha H1 H2.
      apply lookup_insert_Some in Ha as [[<- <-]|[_ Ha]]; [simpl in *; congruence|by eapply Hno].
Qed.

(** ** nr_update *)

Lemma nr_update_wf t tag btvp cnt :
  nr_wf t -> tag <> 0 -> nr_wf (nr_update t tag btvp cnt).
Proof.
  intros Hwf Htag. unfold nr_update. destruct (nr_find _ _ _ _) as [[a nr]|] eqn:E; [|done].
  apply nr_find_spec in E as (Ha & Ht & Hb); [|done|done].
  apply nr_wf_counts; [done| |]; intros x nx Hx Hxt.
  - destruct (decide (x = a)) as [->|]; [rewrite lookup_insert_eq|rewrite lookup_insert_ne by done; by exists nx].
    eexists. split; [done|]. simpl. rewrite Ha in Hx. by simplify_eq.
  - apply lookup_insert_Some in Hx as [[<- <-]|[? ?]]; [by exists nr|by exists nx].
Qed.
