(* ===== verification/BTStore.v ===== *)
(** * The state of a B-tree file, and access to its nodes

    The control block, the node buffers and the outcomes of the block I/O.  A
    [NodeRec] is a block descriptor: nil, or the number of the node its buffer
    holds; since a buffer is shared by everybody who gets the node, an operation
    that writes through a descriptor changes the node of the file
    (core/BTreeNodeOps.c, GetNode to UpdateNode).

    GetBTreeBlock and ReleaseBTreeBlock, behind getBlockProc and
    releaseBlockProc, end in the kernel's buffer cache and journal: what they
    return is taken from the list [f_io] of results to come, success when the list
    is empty.  A result of [None] is a fault: an access outside of a buffer. *)

From S2P Require Import Prelude HfsFormat Bytes BTNode NodeReserve.

Record btfile := mkFile {
  f_btcb : BTreeControlBlock;
  f_nodes : gmap Z bytes;
  f_io : list Z;
  f_eof : Z;        (* fcbEOF: the size of the fork *)
  f_clumpsize : Z;  (* ff_clumpsize *)
  f_vnode : Z;      (* fileRefNum *)
  f_thread : Z;     (* the current thread *)
  f_nr : nr_table;  (* the node reserves *)
}.

Definition with_btcb (v : BTreeControlBlock) (s : btfile) : btfile :=
  mkFile v (f_nodes s) (f_io s) (f_eof s) (f_clumpsize s) (f_vnode s) (f_thread s) (f_nr s).
Definition with_nodes (v : gmap Z bytes) (s : btfile) : btfile :=
  mkFile (f_btcb s) v (f_io s) (f_eof s) (f_clumpsize s) (f_vnode s) (f_thread s) (f_nr s).
Definition with_io (v : list Z) (s : btfile) : btfile :=
  mkFile (f_btcb s) (f_nodes s) v (f_eof s) (f_clumpsize s) (f_vnode s) (f_thread s) (f_nr s).
Definition with_eof (v : Z) (s : btfile) : btfile :=
  mkFile (f_btcb s) (f_nodes s) (f_io s) v (f_clumpsize s) (f_vnode s) (f_thread s) (f_nr s).
Definition with_clumpsize (v : Z) (s : btfile) : btfile :=
  mkFile (f_btcb s) (f_nodes s) (f_io s) (f_eof s) v (f_vnode s) (f_thread s) (f_nr s).
Definition with_nr (v : nr_table) (s : btfile) : btfile :=
  mkFile (f_btcb s) (f_nodes s) (f_io s) (f_eof s) (f_clumpsize s) (f_vnode s) (f_thread s) v.

(** ** The monad of B-tree operations *)

Definition BT (A : Type) : Type := btfile -> option (A * btfile).

#[export] Instance BT_ret : MRet BT := fun A x s => Some (x, s).
#[export] Instance BT_bind : MBind BT := fun A B f m s =>
  match m s with
  | Some (x, s') => f x s'
  | None => None
  end.

Definition lift {A} (o : option A) : BT A := fun s => (fun x => (x, s)) <$> o.
Definition fault {A} : BT A := fun _ => None.
Definition btcb : BT BTreeControlBlock := fun s => Some (f_btcb s, s).
Definition modify_btcb (f : BTreeControlBlock -> BTreeControlBlock) : BT unit :=
  fun s => Some (tt, with_btcb (f (f_btcb s)) s).

Definition modify_file (f : btfile -> btfile) : BT unit := fun s => Some (tt, f s).
Definition file : BT btfile := fun s => Some (s, s).

(** [M_ExitOnError]: go on with [k], or leave with the error. *)
Definition exit_on_error {A} (err : Z) (exit k : BT A) : BT A :=
  if err =? noErr then k else exit.

(** The result of the next call into the buffer cache. *)
Definition io_result : BT Z := fun s =>
  match f_io s with
  | [] => Some (noErr, s)
  | e :: io => Some (e, with_io io s)
  end.

(** ** Node descriptors *)

Definition NodeRec : Type := option Z.

(** The buffer of a descriptor; a nil buffer faults. *)
Definition buffer (r : NodeRec) : BT bytes := fun s =>
  n ← r; b ← f_nodes s !! n; Some (b, s).

Definition set_buffer (r : NodeRec) (b : bytes) : BT unit := fun s =>
  n ← r; Some (tt, with_nodes (<[n := b]> (f_nodes s)) s).

(** An update of a node in place, and a read from one. *)
Definition update_node (r : NodeRec) (f : bytes -> option bytes) : BT unit :=
  b ← buffer r; b' ← lift (f b); set_buffer r b'.

Definition read_node {A} (r : NodeRec) (f : bytes -> option A) : BT A :=
  b ← buffer r; lift (f b).

Definition M_BTreeHeaderDirty : BT unit :=
  modify_btcb (fun b => with_flags (Z.lor (flags b) kBTHeaderDirty) b).

Definition kGetNodeHint : Z := 1.

Definition GetNode (nodeNum flags : Z) : BT (Z * NodeRec) :=
  b ← btcb;
  if totalNodes b <=? nodeNum then mret (fsBTInvalidNodeErr, None) else
  err ← io_result;
  if negb (err =? noErr) then mret (err, None) else
  _ ← modify_btcb incr_numGetNodes;
  _ ← buffer (Some nodeNum);
  mret (noErr, Some nodeNum).

(** A block got without reading it: the buffer holds whatever it had. *)
Definition empty_block (size nodeNum : Z) : BT bytes := fun s =>
  Some (default (replicate (Z.to_nat size) 0) (f_nodes s !! nodeNum), s).

Definition GetNewNode (nodeNum : Z) : BT (Z * NodeRec) :=
  b ← btcb;
  err ← io_result;
  if negb (err =? noErr) then mret (err, None) else
  _ ← modify_btcb incr_numGetNewNodes;
  old ← empty_block (nodeSize b) nodeNum;
  node ← lift (ClearNode b old);
  node ← lift (st16 node (nodeSize b - 2) sizeof_BTNodeDescriptor);
  _ ← set_buffer (Some nodeNum) node;
  mret (noErr, Some nodeNum).

Definition ReleaseNode (nodePtr : NodeRec) : BT (Z * NodeRec) :=
  match nodePtr with
  | Some _ =>
      err ← io_result;
      _ ← modify_btcb incr_numReleaseNodes;
      mret (err, None)
  | None => mret (noErr, None)
  end.

(** The caller trashes only nodes it has not changed, so the node read again from
    disk is the same. *)
Definition TrashNode (nodePtr : NodeRec) : BT (Z * NodeRec) := ReleaseNode nodePtr.

(** On an error the descriptor keeps its buffer. *)
Definition UpdateNode (nodePtr : NodeRec) : BT (Z * NodeRec) :=
  match nodePtr with
  | Some _ =>
      err ← io_result;
      _ ← modify_btcb incr_numUpdateNodes;
      if err =? noErr then mret (noErr, None) else mret (err, nodePtr)
  | None => mret (noErr, None)
  end.

(** ** Running an operation *)

Lemma bind_run {A B} (m : BT A) (f : A -> BT B) s x s' :
  m s = Some (x, s') -> (m ≫= f) s = f x s'.
Proof. intros H. unfold mbind, BT_bind. by rewrite H. Qed.

(** No I/O error is to come. *)
Definition io_fine (s : btfile) : Prop := f_io s = [].

Lemma GetNode_run n fl s node :
  io_fine s -> n < totalNodes (f_btcb s) -> f_nodes s !! n = Some node ->
  GetNode n fl s = Some ((noErr, Some n), with_btcb (incr_numGetNodes (f_btcb s)) s).
Proof.
  intros Hio Hn Hnode. unfold GetNode, btcb, mbind, BT_bind, io_result, modify_btcb, buffer.
  destruct (Z.leb_spec (totalNodes (f_btcb s)) n); [lia|]. rewrite Hio. simpl. by rewrite Hnode.
Qed.
