(* ===== verification/BTAlloc.v ===== *)
(** * Allocation of nodes (core/BTreeAllocate.c) and the header (core/BTreeMiscOps.c)

    The node map is a bit map, one bit per node, kept in the third record of the
    header node and in the map nodes chained to it by fLink; its 16-bit words are
    big-endian in memory too, so the code swaps each word it looks into. *)

From S2P Require Import Prelude HfsFormat Bytes BTNode NodeReserve BTStore.

Definition kHeaderNodeNum : Z := 0.
Definition sizeof_BTHeaderRec : Z := 106.

(** OSSwapBigToHostInt16 on a little-endian machine. *)
Definition SWAP_BE16 (w : Z) : Z := Z.lor (Z.shiftl (Z.land w 255) 8) (Z.shiftr w 8).

Definition M_MapRecordSize (nodeSize : Z) : Z := nodeSize - sizeof_BTNodeDescriptor - 6.
Definition M_HeaderMapRecordSize (nodeSize : Z) : Z :=
  nodeSize - sizeof_BTNodeDescriptor - sizeof_BTHeaderRec - 128 - 8.

(** ** UpdateHeader *)

(** The stores into the header record, behind the node descriptor. *)
Definition store_header (b : BTreeControlBlock) (node : bytes) : option bytes :=
  let h := sizeof_BTNodeDescriptor in
  node ← st16 node h (treeDepth b);
  node ← st32 node (h + 2) (rootNode b);
  node ← st32 node (h + 6) (leafRecords b);
  node ← st32 node (h + 10) (firstLeafNode b);
  node ← st32 node (h + 14) (lastLeafNode b);
  node ← st16 node (h + 18) (nodeSize b);
  node ← st16 node (h + 20) (maxKeyLength b);
  node ← st32 node (h + 22) (totalNodes b);
  node ← st32 node (h + 26) (freeNodes b);
  st8 node (h + 36) (btreeType b).

Definition UpdateHeader (forceWrite : bool) : BT Z :=
  b ← btcb;
  if Z.land (flags b) kBTHeaderDirty =? 0 then mret noErr else
  '(err, node) ← GetNode kHeaderNodeNum 0;
  if negb (err =? noErr) then mret err else
  _ ← update_node node (store_header b);
  '(err, _) ← UpdateNode node;
  _ ← modify_btcb (fun b => with_flags (Z.land (flags b) (Z.lnot kBTHeaderDirty)) b);
  mret err.

(** ** GetMapNode *)

Definition GetMapNode_exit (err : Z) (nodePtr : NodeRec) : BT (Z * NodeRec * Z * Z) :=
  '(_, nodePtr) ← ReleaseNode nodePtr; mret (err, nodePtr, 0, 0).

(** The error, the node, and the offset and size of the map record in it. *)
Definition GetMapNode (nodePtr : NodeRec) : BT (Z * NodeRec * Z * Z) :=
  b ← btcb;
  let finish nodePtr mapIndex :=
    mapPtr ← read_node nodePtr (fun node => GetRecordAddress b node mapIndex);
    mapSize ← read_node nodePtr (fun node => GetRecordSize b node mapIndex);
    mret (noErr, nodePtr, mapPtr, mapSize) in
  match nodePtr with
  | Some _ =>
      nextNodeNum ← read_node nodePtr nd_fLink;
      if nextNodeNum =? 0 then GetMapNode_exit fsBTNoMoreMapNodesErr nodePtr else
      '(err, nodePtr) ← ReleaseNode nodePtr;
      exit_on_error err (GetMapNode_exit err nodePtr) (
      '(err, nodePtr) ← GetNode nextNodeNum 0;
      exit_on_error err (GetMapNode_exit err nodePtr) (
      kind ← read_node nodePtr nd_kind;
      if negb (kind =? kBTMapNode) then GetMapNode_exit fsBTBadNodeType nodePtr else
      _ ← modify_btcb incr_numMapNodesRead;
      finish nodePtr 0))
  | None =>
      '(err, nodePtr) ← GetNode kHeaderNodeNum 0;
      exit_on_error err (GetMapNode_exit err nodePtr) (
      kind ← read_node nodePtr nd_kind;
      if negb (kind =? kBTHeaderNode) then GetMapNode_exit fsBTInvalidHeaderErr nodePtr else
      finish nodePtr 2)
  end.

(** ** AllocateNode *)

(** The allocation is counted in the reserve of the current thread. *)
Definition BTUpdateReserve (nodes : Z) : BT unit :=
  modify_file (fun s => with_nr (nr_update (f_nr s) (f_thread s) (f_vnode s) nodes) s).

(** The scan for a word with a free bit; the result is where [pos] stops. *)
Fixpoint find_free_word (node : bytes) (pos : Z) (size : nat) : option Z :=
  match size with
  | O => Some pos
  | S size =>
      w ← ld16 node pos;
      if negb (w =? 0xFFFF) then Some (pos + 2) else find_free_word node (pos + 2) size
  end.

Fixpoint find_free_bit (freeWord mask bitOffset : Z) (fuel : nat) : Z * Z :=
  match fuel with
  | O => (mask, bitOffset)
  | S fuel =>
      if Z.land freeWord mask =? 0 then (mask, bitOffset) else
      let mask := Z.shiftr mask 1 in
      let bitOffset := bitOffset - 1 in
      if bitOffset =? 0 then (mask, bitOffset) else find_free_bit freeWord mask bitOffset fuel
  end.

Definition AllocateNode_exit (err : Z) (node : NodeRec) : BT (Z * Z) :=
  _ ← ReleaseNode node; mret (err, 0).

(** From the word at [pos] on: the free bit, its node number, and the update. *)
Definition AllocateNode_found (node : NodeRec) (pos mapPtr nodeNumber : Z) : BT (Z * Z) :=
  w ← read_node node (fun n => ld16 n pos);
  let '(mask, bitOffset) := find_free_bit (SWAP_BE16 w) 0x8000 15 16 in
  let nodeNumber := u32 (nodeNumber + Z.shiftl ((pos - mapPtr) / 2) 4 + (15 - bitOffset)) in
  b ← btcb;
  if totalNodes b <=? nodeNumber then AllocateNode_exit fsBTFullErr node else
  _ ← update_node node (fun n => st16 n pos (Z.lor w (SWAP_BE16 mask)));
  '(err, node) ← UpdateNode node;
  exit_on_error err (AllocateNode_exit err node) (
  _ ← modify_btcb (fun b => with_freeNodes (u32 (freeNodes b - 1)) b);
  _ ← M_BTreeHeaderDirty;
  _ ← BTUpdateReserve 1;
  mret (noErr, nodeNumber)).

(** The search through the map nodes. *)
Fixpoint AllocateNode_loop (node : NodeRec) (nodeNumber : Z) (fuel : nat) : BT (Z * Z) :=
  match fuel with
  | O => fault
  | S fuel =>
      '(err, node, mapPtr, mapSize) ← GetMapNode node;
      exit_on_error err (AllocateNode_exit err node) (
      pos ← read_node node (fun n => find_free_word n mapPtr (Z.to_nat (Z.shiftr mapSize 1)));
      let pos := pos - 2 in
      w ← read_node node (fun n => ld16 n pos);
      if negb (w =? 0xFFFF) then AllocateNode_found node pos mapPtr nodeNumber
      else AllocateNode_loop node (u32 (nodeNumber + Z.shiftl mapSize 3)) fuel)
  end.

(** A chain of map nodes without a cycle has fewer than totalNodes nodes. *)
Definition AllocateNode : BT (Z * Z) :=
  b ← btcb; AllocateNode_loop None 0 (S (Z.to_nat (totalNodes b))).

(** ** FreeNode *)

Definition FreeNode_exit (err : Z) (node : NodeRec) : BT Z := _ ← ReleaseNode node; mret err.

Definition FreeNode_found (node : NodeRec) (mapPos mapSize nodeIndex nodeNum : Z) : BT Z :=
  let nodeNum := u32 (nodeNum - (nodeIndex - Z.shiftl mapSize 3)) in
  let bitOffset := 15 - Z.land nodeNum 0xF in
  let mapPos := mapPos + 2 * Z.shiftr nodeNum 4 in
  _ ← update_node node (fun n =>
        w ← ld16 n mapPos;
        st16 n mapPos (Z.land w (SWAP_BE16 (u16 (Z.lnot (Z.shiftl 1 bitOffset))))));
  '(err, node) ← UpdateNode node;
  exit_on_error err (FreeNode_exit err node) (
  _ ← modify_btcb (fun b => with_freeNodes (u32 (freeNodes b + 1)) b);
  _ ← M_BTreeHeaderDirty;
  mret noErr).

Fixpoint FreeNode_loop (node : NodeRec) (mapPos mapSize nodeIndex nodeNum : Z) (fuel : nat) : BT Z :=
  match fuel with
  | O => fault
  | S fuel =>
      if nodeIndex <=? nodeNum then
        '(err, node, mapPos, mapSize) ← GetMapNode node;
        exit_on_error err (FreeNode_exit err node) (
        FreeNode_loop node mapPos mapSize (u32 (nodeIndex + Z.shiftl mapSize 3)) nodeNum fuel)
      else FreeNode_found node mapPos mapSize nodeIndex nodeNum
  end.

Definition FreeNode (nodeNum : Z) : BT Z :=
  b ← btcb; FreeNode_loop None 0 0 0 nodeNum (S (S (Z.to_nat (totalNodes b)))).

(** ** ExtendBTree *)

Fixpoint CalcMapBits_loop (nodeSize totalNodes mapBits : Z) (fuel : nat) : Z :=
  match fuel with
  | O => mapBits
  | S fuel =>
      if mapBits <? totalNodes
      then CalcMapBits_loop nodeSize totalNodes (u32 (mapBits + Z.shiftl (M_MapRecordSize nodeSize) 3)) fuel
      else mapBits
  end.

Definition CalcMapBits (b : BTreeControlBlock) : Z :=
  CalcMapBits_loop (nodeSize b) (totalNodes b) (u32 (Z.shiftl (M_HeaderMapRecordSize (nodeSize b)) 3))
    (S (Z.to_nat (totalNodes b))).

(** SetEndOfForkProc: given the size and clump size of the fork and the bounds
    asked for, its result and the new size. *)
Definition SetEndOfForkProc : Type := Z -> Z -> Z -> Z -> Z * Z.

(** The last map record seen: its node, offset, bits and first bit. *)
Record map_pos := mkMapPos {
  mp_node : NodeRec;
  mp_start : Z;
  mp_bits : Z;
  mp_startBit : Z;
  mp_total : Z;   (* totalMapBits *)
}.

(** Count the bits of the node map, up to its last node. *)
Fixpoint ExtendBTree_count (mapNode : NodeRec) (totalMapBits : Z) (fuel : nat) : BT (Z * map_pos) :=
  match fuel with
  | O => fault
  | S fuel =>
      '(err, mapNode, mapStart, mapSize) ← GetMapNode mapNode;
      if negb (err =? noErr) then mret (err, mkMapPos mapNode 0 0 0 0) else
      let mapBits := Z.shiftl mapSize 3 in
      let recStartBit := totalMapBits in
      let totalMapBits := u32 (totalMapBits + mapBits) in
      next ← read_node mapNode nd_fLink;
      if negb (next =? 0) then ExtendBTree_count mapNode totalMapBits fuel
      else mret (noErr, mkMapPos mapNode mapStart mapBits recStartBit totalMapBits)
  end.

(** Initialize the new map nodes, [nodeNum] to [last]. *)
Fixpoint ExtendBTree_init (nodeNum last : Z) (fuel : nat) : BT (Z * NodeRec) :=
  match fuel with
  | O => fault
  | S fuel =>
      b ← btcb;
      '(err, newNode) ← GetNewNode nodeNum;
      if negb (err =? noErr) then mret (err, newNode) else
      _ ← update_node newNode (fun n =>
            n ← set_numRecords n 1;
            n ← set_kind n kBTMapNode;
            st16 n (nodeSize b - 4) (nodeSize b - 6));
      if nodeNum =? last then UpdateNode newNode else
      let nodeNum := u32 (nodeNum + 1) in
      _ ← update_node newNode (fun n => set_fLink n nodeNum);
      '(err, newNode) ← UpdateNode newNode;
      if negb (err =? noErr) then mret (err, newNode) else
      ExtendBTree_init nodeNum last fuel
  end.

(** Go to the map record that holds the bit of [nodeNum]. *)
Fixpoint ExtendBTree_seek (p : map_pos) (nodeNum : Z) (fuel : nat) : BT (Z * map_pos) :=
  match fuel with
  | O => fault
  | S fuel =>
      if mp_bits p <=? u32 (nodeNum - mp_startBit p) then
        nextNodeNum ← read_node (mp_node p) nd_fLink;
        if nextNodeNum =? 0 then mret (fsBTNoMoreMapNodesErr, p) else
        '(err, mapNode) ← UpdateNode (mp_node p);
        if negb (err =? noErr) then mret (err, mkMapPos mapNode 0 0 0 0) else
        '(err, mapNode) ← GetNode nextNodeNum 0;
        if negb (err =? noErr) then mret (err, mkMapPos mapNode 0 0 0 0) else
        b ← btcb;
        mapStart ← read_node mapNode (fun n => GetRecordAddress b n 0);
        mapSize ← read_node mapNode (fun n => GetRecordSize b n 0);
        let mapBits := Z.shiftl mapSize 3 in
        ExtendBTree_seek
          (mkMapPos mapNode mapStart mapBits (mp_total p) (u32 (mp_total p + mapBits))) nodeNum fuel
      else mret (noErr, p)
  end.

(** Mark the new map nodes allocated. *)
Fixpoint ExtendBTree_mark (p : map_pos) (nodeNum last : Z) (fuel : nat) : BT (Z * map_pos) :=
  match fuel with
  | O => fault
  | S fuel =>
      b ← btcb;
      '(err, p) ← ExtendBTree_seek p nodeNum (S (Z.to_nat (totalNodes b)));
      if negb (err =? noErr) then mret (err, p) else
      let rel := u32 (nodeNum - mp_startBit p) in
      let mapPos := mp_start p + 2 * Z.shiftr rel 4 in
      let bitInWord := 15 - Z.land rel 0xF in
      _ ← update_node (mp_node p) (fun n =>
            w ← ld16 n mapPos; st16 n mapPos (Z.lor w (SWAP_BE16 (Z.shiftl 1 bitInWord))));
      let nodeNum := u32 (nodeNum + 1) in
      if nodeNum <=? last then ExtendBTree_mark p nodeNum last fuel else mret (noErr, p)
  end.

Definition ExtendBTree_success (oldTotalNodes newTotalNodes newMapNodes : Z) : BT Z :=
  _ ← modify_btcb (fun b =>
        with_freeNodes (u32 (freeNodes b + (newTotalNodes - oldTotalNodes) - newMapNodes))
          (with_totalNodes newTotalNodes b));
  _ ← M_BTreeHeaderDirty;
  _ ← UpdateHeader true;
  mret noErr.

Definition ExtendBTree_exit (err : Z) (mapNode newNode : NodeRec) : BT Z :=
  _ ← ReleaseNode mapNode; _ ← ReleaseNode newNode; mret err.

(** From the extended fork on: the new total, and the map nodes it needs. *)
Definition ExtendBTree_map (p : map_pos) (oldTotalNodes newTotalNodes : Z) : BT Z :=
  b ← btcb;
  let mapNodeRecSize := u16 (nodeSize b - sizeof_BTNodeDescriptor - 6) in
  let totalMapBits := mp_total p in
  if totalMapBits <? newTotalNodes then
    let newMapNodes := u32 (Z.shiftr (newTotalNodes - totalMapBits) 3 / mapNodeRecSize + 1) in
    let first := oldTotalNodes in
    let last := u32 (first + newMapNodes - 1) in
    _ ← update_node (mp_node p) (fun n => set_fLink n first);
    '(err, newNode) ← ExtendBTree_init first last (S (Z.to_nat newMapNodes));
    exit_on_error err (ExtendBTree_exit err (mp_node p) newNode) (
    '(err, p) ← ExtendBTree_mark p first last (S (Z.to_nat newMapNodes));
    exit_on_error err (ExtendBTree_exit err (mp_node p) newNode) (
    '(err, mapNode) ← UpdateNode (mp_node p);
    exit_on_error err (ExtendBTree_exit err mapNode newNode) (
    ExtendBTree_success oldTotalNodes newTotalNodes newMapNodes)))
  else
    '(err, mapNode) ← ReleaseNode (mp_node p);
    exit_on_error err (ExtendBTree_exit err mapNode None) (
    ExtendBTree_success oldTotalNodes newTotalNodes 0).

Definition ExtendBTree (setEndOfForkProc : SetEndOfForkProc) (newTotalNodes : Z) : BT Z :=
  b ← btcb;
  let oldTotalNodes := totalNodes b in
  if newTotalNodes <=? oldTotalNodes then mret noErr else
  '(err, p) ← ExtendBTree_count None 0 (S (Z.to_nat oldTotalNodes));
  exit_on_error err (ExtendBTree_exit err (mp_node p) None) (
  f ← file;
  let minEOF := newTotalNodes * nodeSize b in
  err ← (if f_eof f <? minEOF then
           let '(err, eof) := setEndOfForkProc (f_eof f) (f_clumpsize f) minEOF (0x7fffffff * nodeSize b) in
           _ ← modify_file (with_eof eof); mret err
         else mret noErr);
  exit_on_error err (ExtendBTree_exit err (mp_node p) None) (
  f ← file;
  let newTotalNodes := u32 (f_eof f / nodeSize b) in
  _ ← modify_btcb (with_totalNodes newTotalNodes);
  ExtendBTree_map p oldTotalNodes newTotalNodes)).

(** ** Reserving nodes (core/BTreeNodeReserve.c) *)

Definition HFS_BT_MAXRESERVE : Z := 10 * 1024 * 1024.

(** What BTReserveSpace asks the volume: its allocation limit, its block size and
    its free blocks (hfs_freeblks). *)
Record volume_space := mkSpace { vs_allocLimit : Z; vs_blockSize : Z; vs_freeblks : Z }.

Definition rsrv_nodes (treeDepth operations : Z) : Z :=
  let height := if treeDepth <? 2 then 2 else treeDepth in
  let inserts := Z.land operations 0xffff in
  let deletes := Z.shiftr operations 16 in
  s32 (1 + deletes * (height - 2) + inserts * (height - 1)).

(** The blocks to keep free for growing files. *)
Definition rsrv_blocks (v : volume_space) : Z :=
  let rsrvblks := u32 (vs_allocLimit v * 5 / 100) in
  let bt_rsrv := if HFS_BT_MAXRESERVE <? vs_blockSize v then 1 else HFS_BT_MAXRESERVE / vs_blockSize v in
  Z.min rsrvblks bt_rsrv.

(** Make room for nodes the tree does not have: an error, or go on. *)
Definition BTReserveSpace_grow (setEndOfForkProc : SetEndOfForkProc) (v : volume_space)
    (operations rsrvNodes availNodes : Z) : BT (Z * bool) :=
  b ← btcb;
  f ← file;
  let inserts := Z.land operations 0xffff in
  let deletes := Z.shiftr operations 16 in
  let onlyInserts := (0 <? inserts) && (deletes =? 0) in
  let rsrvblks := rsrv_blocks v in
  let low := vs_freeblks v <=? rsrvblks in
  if low && onlyInserts then mret (ENOSPC, true) else
  let freeblks := if low then 0 else u32 (vs_freeblks v - rsrvblks) in
  let reqblks := f_clumpsize f / vs_blockSize v in
  let short := freeblks <? reqblks in
  let reqblks := u32 (s32 ((rsrvNodes - availNodes) * nodeSize b)) / vs_blockSize v in
  if short && (freeblks <? reqblks) && onlyInserts then mret (ENOSPC, true) else
  _ ← (if short then modify_file (with_clumpsize (u32 (freeblks * vs_blockSize v))) else mret tt);
  let total := s32 (rsrvNodes + totalNodes b - availNodes) in
  let total := if s32 (CalcMapBits b) <? total then s32 (total + 1) else total in
  err ← ExtendBTree setEndOfForkProc (u32 total);
  mret (err, false).

(** [data] is the caller's reserve struct, nil for a request that is not kept.
    The early returns leave the clump size alone, the others put it back. *)
Definition BTReserveSpace (setEndOfForkProc : SetEndOfForkProc) (v : volume_space)
    (operations : Z) (data : option Z) : BT Z :=
  b ← btcb;
  f ← file;
  let clumpsize := f_clumpsize f in
  let rsrvNodes := rsrv_nodes (treeDepth b) operations in
  let availNodes := s32 (u32 (freeNodes b - reservedNodes b)) in
  '(err, ret) ← (if availNodes <? rsrvNodes
                 then BTReserveSpace_grow setEndOfForkProc v operations rsrvNodes availNodes
                 else mret (noErr, false));
  if (ret : bool) then mret err else
  _ ← (if err =? noErr then
         match data with
         | Some nrp =>
             _ ← modify_btcb (fun b => with_reservedNodes (u32 (reservedNodes b + rsrvNodes)) b);
             modify_file (fun s => with_nr (nr_insert (f_nr s) (f_thread s) (f_vnode s) nrp rsrvNodes) s)
         | None => mret tt
         end
       else mret tt);
  _ ← modify_file (with_clumpsize clumpsize);
  mret err.

Definition BTReleaseReserve (data : Z) : BT Z :=
  f ← file;
  '(nodecnt, t) ← lift (nr_delete (f_nr f) (f_thread f) (f_vnode f) data);
  _ ← modify_file (with_nr t);
  _ ← (if negb (nodecnt =? 0)
       then modify_btcb (fun b => with_reservedNodes (u32 (reservedNodes b - nodecnt)) b)
       else mret tt);
  mret 0.
