(* ===== verification/BTAllocProps.v ===== *)
(** * Properties of node allocation

    The node map as one sequence of bits: AllocateNode takes the first clear bit,
    FreeNode clears the bit of its node; the reserve kept in the control block is
    the sum of the reserves in the table. *)

From S2P Require Import Prelude HfsFormat Bytes BTNode NodeReserve BTStore BTAlloc.

(** ** Bits of a word *)

(** The bits of a word of the map, in the order of the nodes they stand for. *)
Definition word_bits (w : Z) : list bool :=
  (fun k => Z.testbit (SWAP_BE16 w) (15 - Z.of_nat k)) <$> seq 0 16.

Definition u16_ok (w : Z) : Prop := 0 <= w <= UINT16_MAX.

Lemma word_bits_full : word_bits 0xFFFF = replicate 16 true.
Proof. reflexivity. Qed.

Lemma length_word_bits w : length (word_bits w) = 16%nat.
Proof. reflexivity. Qed.

Lemma word_bits_lookup w i :
  (i < 16)%nat -> word_bits w !! i = Some (Z.testbit (SWAP_BE16 w) (15 - Z.of_nat i)).
Proof. intros Hi. unfold word_bits. by rewrite list_lookup_fmap, lookup_seq_lt by lia. Qed.

Lemma testbit_SWAP w i :
  u16_ok w -> 0 <= i ->
  Z.testbit (SWAP_BE16 w) i =
  if i <? 8 then Z.testbit w (i + 8) else if i <? 16 then Z.testbit w (i - 8) else false.
Proof.
  unfold u16_ok, UINT16_MAX. intros Hw Hi. unfold SWAP_BE16.
  rewrite Z.lor_spec, Z.shiftr_spec by lia. change 255 with (Z.ones 8).
  assert (forall j, 16 <= j -> Z.testbit w j = false) as Hhi.
  { intros j Hj. rewrite <- (Z.mod_small w (2 ^ 16)) by lia. apply Z.mod_pow2_bits_high. lia. }
  destruct (Z.ltb_spec i 8).
  - rewrite Z.shiftl_spec_low by lia. done.
  - rewrite Z.shiftl_spec, Z.land_spec by lia. rewrite (Hhi (i + 8)) by lia. rewrite orb_false_r.
    destruct (Z.ltb_spec i 16).
    + rewrite Z.ones_spec_low by lia. by rewrite andb_true_r.
    + rewrite Z.ones_spec_high by lia. by rewrite andb_false_r.
Qed.

Lemma u16_land w m : u16_ok w -> 0 <= m -> u16_ok (Z.land w m).
Proof.
  unfold u16_ok, UINT16_MAX. intros Hw Hm. assert (0 <= Z.land w m) by (apply Z.land_nonneg; lia).
  split; [done|]. assert (Z.land w m < 2 ^ 16); [|lia].
  destruct (decide (Z.land w m = 0)) as [->|]; [lia|]. apply Z.log2_lt_pow2; [lia|].
  destruct (decide (w = 0)) as [->|]; [done|].
  pose proof (Z.log2_land w m). assert (Z.log2 w < 16) by (apply Z.log2_lt_pow2; lia). lia.
Qed.

(** Clearing the bit of node [k] of a word. *)
Definition clear_bit (w : Z) (k : Z) : Z := Z.land w (SWAP_BE16 (u16 (Z.lnot (Z.shiftl 1 (15 - k))))).

Lemma clear_mask_bits k i : 0 <= k < 16 -> 0 <= i < 16 ->
  u16_ok (SWAP_BE16 (u16 (Z.lnot (Z.shiftl 1 (15 - k))))) /\
  (if i <? 8 then Z.testbit (SWAP_BE16 (u16 (Z.lnot (Z.shiftl 1 (15 - k))))) (i + 8)
   else Z.testbit (SWAP_BE16 (u16 (Z.lnot (Z.shiftl 1 (15 - k))))) (i - 8)) = negb (i =? 15 - k).
Proof.
  intros Hk Hi.
  assert (k ∈ seqZ 0 16 /\ i ∈ seqZ 0 16) as [Hk' Hi'] by (rewrite !elem_of_seqZ; lia).
  clear Hk Hi. revert Hk' Hi'.
  assert (forallb (fun k => forallb (fun i =>
    let m := SWAP_BE16 (u16 (Z.lnot (Z.shiftl 1 (15 - k)))) in
    (0 <=? m) && (m <=? UINT16_MAX) &&
    eqb (if i <? 8 then Z.testbit m (i + 8) else Z.testbit m (i - 8)) (negb (i =? 15 - k))) (seqZ 0 16)) (seqZ 0 16) = true)
    as H by (vm_compute; reflexivity).
  intros Hk Hi. rewrite forallb_forall in H. specialize (H k ltac:(by apply list_elem_of_In)).
  rewrite forallb_forall in H. specialize (H i ltac:(by apply list_elem_of_In)). cbv zeta in H.
  rewrite !andb_true_iff, eqb_true_iff in H. unfold u16_ok. split; [lia|]. by destruct H as [_ H].
Qed.

Lemma clear_bit_spec w k : u16_ok w -> 0 <= k < 16 ->
  u16_ok (clear_bit w k) /\ word_bits (clear_bit w k) = <[Z.to_nat k := false]> (word_bits w).
Proof.
  intros Hw Hk. assert (u16_ok (clear_bit w k)) as Hc.
  { apply u16_land; [done|]. apply (clear_mask_bits k 0); lia. }
  split; [done|]. apply list_eq_same_length with (n := 16%nat); [by rewrite length_insert|done|].
  intros i x y Hi. rewrite word_bits_lookup by lia. intros [= <-].
  destruct (decide (i = Z.to_nat k)) as [->|Hne].
  - rewrite list_lookup_insert_eq by (rewrite length_word_bits; lia). intros [= <-].
    rewrite testbit_SWAP by (done || lia). unfold clear_bit. rewrite !Z.land_spec.
    destruct (clear_mask_bits k (15 - k) Hk ltac:(lia)) as [_ Hm].
    replace (15 - Z.of_nat (Z.to_nat k)) with (15 - k) by lia.
    rewrite Z.eqb_refl in Hm. simpl in Hm.
    destruct (Z.ltb_spec (15 - k) 8); [by rewrite Hm, andb_false_r|].
    destruct (Z.ltb_spec (15 - k) 16); [by rewrite Hm, andb_false_r|done].
  - rewrite list_lookup_insert_ne by done. rewrite word_bits_lookup by lia. intros [= <-].
    rewrite !testbit_SWAP by (done || lia). unfold clear_bit. rewrite !Z.land_spec.
    destruct (clear_mask_bits k (15 - Z.of_nat i) Hk ltac:(lia)) as [_ Hm].
    destruct (Z.eqb_spec (15 - Z.of_nat i) (15 - k)); [lia|]. simpl in Hm.
    destruct (Z.ltb_spec (15 - Z.of_nat i) 8); [by rewrite Hm, andb_true_r|].
    destruct (Z.ltb_spec (15 - Z.of_nat i) 16); [by rewrite Hm, andb_true_r|done].
Qed.

(** Setting the bit of node [k] of a word. *)
Definition set_bit (w : Z) (k : Z) : Z := Z.lor w (SWAP_BE16 (Z.shiftl 1 (15 - k))).

Lemma set_mask_bits k i : 0 <= k < 16 -> 0 <= i < 16 ->
  u16_ok (SWAP_BE16 (Z.shiftl 1 (15 - k))) /\
  (if i <? 8 then Z.testbit (SWAP_BE16 (Z.shiftl 1 (15 - k))) (i + 8)
   else Z.testbit (SWAP_BE16 (Z.shiftl 1 (15 - k))) (i - 8)) = (i =? 15 - k).
Proof.
  intros Hk Hi.
  assert (k ∈ seqZ 0 16 /\ i ∈ seqZ 0 16) as [Hk' Hi'] by (rewrite !elem_of_seqZ; lia).
  clear Hk Hi. revert Hk' Hi'.
  assert (forallb (fun k => forallb (fun i =>
    let m := SWAP_BE16 (Z.shiftl 1 (15 - k)) in
    (0 <=? m) && (m <=? UINT16_MAX) &&
    eqb (if i <? 8 then Z.testbit m (i + 8) else Z.testbit m (i - 8)) (i =? 15 - k)) (seqZ 0 16)) (seqZ 0 16) = true)
    as H by (vm_compute; reflexivity).
  intros Hk Hi. rewrite forallb_forall in H. specialize (H k ltac:(by apply list_elem_of_In)).
  rewrite forallb_forall in H. specialize (H i ltac:(by apply list_elem_of_In)). cbv zeta in H.
  rewrite !andb_true_iff, eqb_true_iff in H. unfold u16_ok. split; [lia|]. by destruct H as [_ H].
Qed.

Lemma u16_lor w m : u16_ok w -> u16_ok m -> u16_ok (Z.lor w m).
Proof.
  unfold u16_ok, UINT16_MAX. intros Hw Hm. assert (0 <= Z.lor w m) by (apply Z.lor_nonneg; lia).
  split; [done|]. assert (Z.lor w m < 2 ^ 16); [|lia].
  destruct (decide (Z.lor w m = 0)) as [->|]; [lia|].
  apply Z.log2_lt_pow2; [lia|]. rewrite Z.log2_lor by lia. apply Z.max_lub_lt.
  - destruct (decide (w = 0)) as [->|]; [done|]. apply Z.log2_lt_pow2; lia.
  - destruct (decide (m = 0)) as [->|]; [done|]. apply Z.log2_lt_pow2; lia.
Qed.

Lemma set_bit_spec w k : u16_ok w -> 0 <= k < 16 ->
  u16_ok (set_bit w k) /\ word_bits (set_bit w k) = <[Z.to_nat k := true]> (word_bits w).
Proof.
  intros Hw Hk. assert (u16_ok (set_bit w k)) as Hc.
  { apply u16_lor; [done|]. apply (set_mask_bits k 0); lia. }
  split; [done|]. apply list_eq_same_length with (n := 16%nat); [by rewrite length_insert|done|].
  intros i x y Hi. rewrite word_bits_lookup by lia. intros [= <-].
  destruct (set_mask_bits k (15 - Z.of_nat i) Hk ltac:(lia)) as [_ Hm].
  destruct (decide (i = Z.to_nat k)) as [->|Hne].
  - rewrite list_lookup_insert_eq by (rewrite length_word_bits; lia). intros [= <-].
    rewrite testbit_SWAP by (done || lia). unfold set_bit. rewrite !Z.lor_spec.
    destruct (Z.eqb_spec (15 - Z.of_nat (Z.to_nat k)) (15 - k)); [|lia].
    destruct (Z.ltb_spec (15 - Z.of_nat (Z.to_nat k)) 8); [by rewrite Hm, orb_true_r|].
    destruct (Z.ltb_spec (15 - Z.of_nat (Z.to_nat k)) 16); [by rewrite Hm, orb_true_r|lia].
  - rewrite list_lookup_insert_ne by done. rewrite word_bits_lookup by lia. intros [= <-].
    rewrite !testbit_SWAP by (done || lia). unfold set_bit. rewrite !Z.lor_spec.
    destruct (Z.eqb_spec (15 - Z.of_nat i) (15 - k)); [lia|].
    destruct (Z.ltb_spec (15 - Z.of_nat i) 8); [by rewrite Hm, orb_false_r|].
    destruct (Z.ltb_spec (15 - Z.of_nat i) 16); [by rewrite Hm, orb_false_r|done].
Qed.

(** ** The first free bit of a word *)

Lemma land_pow2 x j : 0 <= j -> (Z.land x (2 ^ j) =? 0) = negb (Z.testbit x j).
Proof.
  intros Hj. destruct (Z.testbit x j) eqn:E; simpl.
  - apply Z.eqb_neq. intros H0. assert (Z.testbit (Z.land x (2 ^ j)) j = true) as Ht
      by (rewrite Z.land_spec, E, Z.pow2_bits_true by lia; done).
    rewrite H0, Z.bits_0 in Ht. done.
  - apply Z.eqb_eq, Z.bits_inj'. intros i Hi. rewrite Z.land_spec, Z.bits_0.
    destruct (decide (i = j)) as [->|]; [by rewrite E|]. rewrite Z.pow2_bits_false by lia. apply andb_false_r.
Qed.

Lemma find_free_bit_loop x j fuel :
  0 < j -> j < Z.of_nat fuel ->
  exists i, find_free_bit x (2 ^ j) j fuel = (2 ^ i, i) /\ 0 <= i <= j /\
    (forall m, i < m <= j -> Z.testbit x m = true) /\ (0 < i -> Z.testbit x i = false).
Proof.
  revert j. induction fuel as [|fuel IH]; intros j Hj Hf; [lia|]. cbn [find_free_bit].
  rewrite land_pow2 by lia. destruct (Z.testbit x j) eqn:E; simpl.
  - rewrite Z.shiftr_div_pow2 by lia.
    replace (2 ^ j / 2 ^ 1) with (2 ^ (j - 1)) by (rewrite Z.pow_sub_r by lia; done).
    destruct (Z.eqb_spec (j - 1) 0) as [E0|].
    + exists (j - 1). split_and!; [done|lia|lia| |lia]. intros m Hm. by replace m with j by lia.
    + destruct (IH (j - 1)) as (i & -> & Hi & Hset & Hclr); [lia|lia|].
      exists i. split_and!; [done|lia|lia| |done]. intros m Hm.
      destruct (decide (m = j)) as [->|]; [done|]. apply Hset. lia.
  - exists j. split_and!; [done|lia|lia|lia|done].
Qed.

Lemma u16_all_bits x : 0 <= x < 2 ^ 16 -> (forall m, 0 <= m < 16 -> Z.testbit x m = true) -> x = 0xFFFF.
Proof.
  intros Hx Hb. change 0xFFFF with (Z.ones 16). apply Z.bits_inj'. intros i Hi.
  destruct (Z.lt_ge_cases i 16).
  - rewrite Z.ones_spec_low by lia. apply Hb. lia.
  - rewrite Z.ones_spec_high by lia. rewrite <- (Z.mod_small x (2 ^ 16)) by lia.
    apply Z.mod_pow2_bits_high. lia.
Qed.

Lemma SWAP_u16 w : u16_ok w -> u16_ok (SWAP_BE16 w).
Proof.
  unfold u16_ok, UINT16_MAX. intros Hw. unfold SWAP_BE16.
  apply u16_lor; unfold u16_ok, UINT16_MAX.
  - change 255 with (Z.ones 8). rewrite Z.land_ones, Z.shiftl_mul_pow2 by lia.
    pose proof (Z.mod_pos_bound w (2 ^ 8)). lia.
  - rewrite Z.shiftr_div_pow2 by lia. split; [apply Z.div_pos; lia|].
    assert (w / 2 ^ 8 < 256) by (apply Z.div_lt_upper_bound; lia). lia.
Qed.

Lemma SWAP_SWAP w : u16_ok w -> SWAP_BE16 (SWAP_BE16 w) = w.
Proof.
  intros Hw. pose proof (SWAP_u16 w Hw) as Hs. pose proof (SWAP_u16 _ Hs) as Hss.
  apply Z.bits_inj'. intros i Hi. rewrite !testbit_SWAP by (done || lia).
  destruct (Z.ltb_spec i 8).
  - destruct (Z.ltb_spec (i + 8) 8); [lia|].
    destruct (Z.ltb_spec (i + 8) 16); [|lia]. f_equal. lia.
  - destruct (Z.ltb_spec i 16).
    + rewrite testbit_SWAP by (done || lia). destruct (Z.ltb_spec (i - 8) 8); [|lia]. f_equal. lia.
    + unfold u16_ok, UINT16_MAX in Hw. rewrite <- (Z.mod_small w (2 ^ 16)) by lia.
      by rewrite Z.mod_pow2_bits_high by lia.
Qed.

Lemma find_free_bit_spec w :
  u16_ok w -> w <> 0xFFFF ->
  exists k, find_free_bit (SWAP_BE16 w) 0x8000 15 16 = (Z.shiftl 1 (15 - Z.of_nat k), 15 - Z.of_nat k) /\
    (k < 16)%nat /\ Forall (eq true) (take k (word_bits w)) /\ word_bits w !! k = Some false.
Proof.
  intros Hw Hne. destruct (find_free_bit_loop (SWAP_BE16 w) 15 16) as (i & E & Hi & Hset & Hclr); [lia|lia|].
  change (2 ^ 15) with 0x8000 in E. exists (Z.to_nat (15 - i)).
  rewrite Z2Nat.id by lia. replace (15 - (15 - i)) with i by lia. rewrite Z.shiftl_mul_pow2, Z.mul_1_l by lia.
  split_and!; [done|lia| |].
  - apply Forall_lookup. intros m x Hm. apply lookup_take_Some in Hm as [Hm Hlt].
    rewrite word_bits_lookup in Hm by lia. injection Hm as <-. symmetry. apply Hset. lia.
  - rewrite word_bits_lookup by lia. f_equal.
    replace (15 - Z.of_nat (Z.to_nat (15 - i))) with i by lia.
    destruct (Z.lt_ge_cases 0 i) as [|Hi0]; [by apply Hclr|]. assert (i = 0) as -> by lia.
    destruct (Z.testbit (SWAP_BE16 w) 0) eqn:E0; [|done]. exfalso. apply Hne.
    rewrite <- (SWAP_SWAP w Hw).
    rewrite (u16_all_bits (SWAP_BE16 w)); [done| |].
    + pose proof (SWAP_u16 w Hw) as Hs. unfold u16_ok, UINT16_MAX in Hs. lia.
    + intros m Hm. destruct (decide (m = 0)) as [->|]; [done|]. apply Hset. lia.
Qed.

(** ** The chain of map records *)

(** Node [n] has the map record [words raw] as its record [idx]. *)
Definition map_node (b : BTreeControlBlock) (nodes : gmap Z bytes) (n : Z) (idx : nat)
    (kind next : Z) (raw : list Z) : Prop :=
  exists hdr res l1 l2 node, nodes !! n = Some node /\
    node_rep b hdr res (l1 ++ words raw :: l2) node /\ length l1 = idx /\
    nd_fLink node = Some next /\ nd_kind node = Some kind /\
    raw <> [] /\ Forall u16_ok raw /\ 0 <= n < totalNodes b.

Inductive map_chain (b : BTreeControlBlock) (nodes : gmap Z bytes) :
    Z -> nat -> Z -> list (Z * list Z) -> Prop :=
  | map_chain_last n idx kind raw :
      map_node b nodes n idx kind 0 raw -> map_chain b nodes n idx kind [(n, raw)]
  | map_chain_next n idx kind raw next rest :
      map_node b nodes n idx kind next raw -> next <> 0 ->
      map_chain b nodes next 0 kBTMapNode rest ->
      map_chain b nodes n idx kind ((n, raw) :: rest).

(** The node map of a B-tree: the chain that starts in the header node. *)
Definition node_map (s : btfile) (L : list (Z * list Z)) : Prop :=
  map_chain (f_btcb s) (f_nodes s) 0 2 kBTHeaderNode L /\ NoDup L.*1.

Definition record_bits (raw : list Z) : list bool := concat (word_bits <$> raw).
Definition map_bits (L : list (Z * list Z)) : list bool := concat (record_bits <$> L.*2).

Lemma length_record_bits raw : length (record_bits raw) = (16 * length raw)%nat.
Proof.
  unfold record_bits. induction raw as [|w raw IH]; [done|].
  rewrite fmap_cons, concat_cons, length_app, IH, length_word_bits. simpl. lia.
Qed.

Lemma map_bits_cons n raw L : map_bits ((n, raw) :: L) = record_bits raw ++ map_bits L.
Proof. done. Qed.

(** Two states that differ in the statistical counters only. *)
Definition stats_only (s s' : btfile) : Prop :=
  exists st, s' = with_btcb (with_stats st (f_btcb s)) s.

Lemma stats_only_refl s : stats_only s s.
Proof. exists (stats (f_btcb s)). destruct s as [b]. by destruct b. Qed.

Lemma stats_only_trans s1 s2 s3 : stats_only s1 s2 -> stats_only s2 s3 -> stats_only s1 s3.
Proof. intros [st1 ->] [st2 ->]. by exists st2. Qed.

Lemma stats_only_io s s' : stats_only s s' -> io_fine s -> io_fine s'.
Proof. by intros [st ->]. Qed.

#[global] Hint Resolve stats_only_refl : hfs.

Lemma ReleaseNode_run r s :
  io_fine s -> exists s', ReleaseNode r s = Some ((noErr, None), s') /\ stats_only s s'.
Proof.
  intros Hio. destruct r as [n|].
  - unfold ReleaseNode, mbind, BT_bind, io_result. rewrite Hio. simpl. eexists. split; [done|]. by eexists.
  - exists s. split; [done|]. auto with hfs.
Qed.

Lemma GetNode_run' n fl s node :
  io_fine s -> n < totalNodes (f_btcb s) -> f_nodes s !! n = Some node ->
  exists s', GetNode n fl s = Some ((noErr, Some n), s') /\ stats_only s s'.
Proof. intros H1 H2 H3. rewrite (GetNode_run _ _ _ _ H1 H2 H3). eexists. split; [done|]. by eexists. Qed.

Lemma UpdateNode_run n s :
  io_fine s -> exists s', UpdateNode (Some n) s = Some ((noErr, None), s') /\ stats_only s s'.
Proof.
  intros Hio. unfold UpdateNode, mbind, BT_bind, io_result. rewrite Hio. simpl. eexists. split; [done|]. by eexists.
Qed.

(** Reading from a node a descriptor holds. *)
Lemma read_node_run {A} n s node (f : bytes -> option A) x :
  f_nodes s !! n = Some node -> f node = Some x -> read_node (Some n) f s = Some (x, s).
Proof.
  intros H1 H2. unfold read_node, mbind, BT_bind, buffer, lift. simpl. rewrite H1. simpl. by rewrite H2.
Qed.

Section Chain.
Context (s : btfile) (Hio : io_fine s) (Hbt : node_size_ok (f_btcb s)).

(** Where the map record of a map node is. *)
Lemma map_record n idx kind next raw :
  map_node (f_btcb s) (f_nodes s) n idx kind next raw ->
  exists node off, f_nodes s !! n = Some node /\
    GetRecordAddress (f_btcb s) node (Z.of_nat idx) = Some off /\
    GetRecordSize (f_btcb s) node (Z.of_nat idx) = Some (2 * len raw) /\
    nd_fLink node = Some next /\ nd_kind node = Some kind /\ n < totalNodes (f_btcb s) /\
    exists A B, node = A ++ words raw ++ B /\ len A = off.
Proof.
  intros (hdr & res & l1 & l2 & node & Hn & Hrep & <- & Hf & Hk & _ & _ & Hlt).
  exists node, (14 + len (concat l1)). split_and!; try done; [| |lia|].
  - by apply (GetRecordOffset_rep _ Hbt hdr res l1 (words raw :: l2)).
  - rewrite (GetRecordSize_rep _ Hbt _ _ _ _ _ _ _ Hrep eq_refl), length_words. f_equal. lia.
  - destruct Hrep as (gap & -> & _ & Hh & Hr). unfold node_bytes.
    exists ((hdr ++ le16 (len (l1 ++ words raw :: l2)) ++ res) ++ concat l1).
    eexists. rewrite concat_app, concat_cons. split; [by rewrite <- !app_assoc|].
    rewrite !length_app, length_le16. lia.
Qed.

Lemma GetMapNode_first raw next :
  map_node (f_btcb s) (f_nodes s) 0 2 kBTHeaderNode next raw ->
  exists s' node off, GetMapNode None s = Some ((noErr, Some 0, off, 2 * len raw), s') /\ stats_only s s' /\
    f_nodes s !! 0 = Some node /\ GetRecordAddress (f_btcb s) node 2 = Some off /\
    exists A B, node = A ++ words raw ++ B /\ len A = off.
Proof.
  intros (node & off & Hn & Ha & Hs & _ & Hk & Hlt & HAB)%map_record.
  unfold GetMapNode. erewrite bind_run by reflexivity.
  destruct (GetNode_run' 0 0 s node Hio Hlt Hn) as (s1 & E1 & Hs1).
  erewrite bind_run by exact E1. cbn [exit_on_error Z.eqb noErr].
  destruct Hs1 as [st ->].
  erewrite bind_run by (by apply (read_node_run _ _ node)). simpl.
  erewrite bind_run by (by apply (read_node_run _ _ node)).
  erewrite bind_run by (by apply (read_node_run _ _ node)).
  eexists _, node, off. split; [done|]. split; [by eexists|]. done.
Qed.

Lemma GetMapNode_next n idx kind raw next raw' next' :
  map_node (f_btcb s) (f_nodes s) n idx kind next raw -> next <> 0 ->
  map_node (f_btcb s) (f_nodes s) next 0 kBTMapNode next' raw' ->
  exists s' node off, GetMapNode (Some n) s = Some ((noErr, Some next, off, 2 * len raw'), s') /\ stats_only s s' /\
    f_nodes s !! next = Some node /\ GetRecordAddress (f_btcb s) node 0 = Some off /\
    exists A B, node = A ++ words raw' ++ B /\ len A = off.
Proof.
  intros (node0 & _ & Hn0 & _ & _ & Hf0 & _)%map_record Hne.
  intros (node & off & Hn & Ha & Hs & _ & Hk & Hlt & HAB)%map_record.
  unfold GetMapNode. erewrite bind_run by reflexivity.
  erewrite bind_run by (by apply (read_node_run _ _ node0)).
  destruct (Z.eqb_spec next 0); [done|].
  destruct (ReleaseNode_run (Some n) s Hio) as (s1 & E1 & Hs1). erewrite bind_run by exact E1.
  cbn [exit_on_error Z.eqb noErr].
  destruct Hs1 as [st1 ->].
  destruct (GetNode_run' next 0 (with_btcb (with_stats st1 (f_btcb s)) s) node Hio Hlt Hn) as (s2 & E2 & [st2 ->]).
  erewrite bind_run by exact E2. cbn [exit_on_error Z.eqb noErr].
  erewrite bind_run by (by apply (read_node_run _ _ node)). simpl.
  erewrite bind_run by reflexivity. simpl.
  erewrite bind_run by (by apply (read_node_run _ _ node)).
  erewrite bind_run by (by apply (read_node_run _ _ node)).
  eexists _, node, off. split; [done|]. split; [by eexists|]. done.
Qed.

Lemma GetMapNode_end n idx kind raw :
  map_node (f_btcb s) (f_nodes s) n idx kind 0 raw ->
  exists s', GetMapNode (Some n) s = Some ((fsBTNoMoreMapNodesErr, None, 0, 0), s') /\ stats_only s s'.
Proof.
  intros (node0 & _ & Hn0 & _ & _ & Hf0 & _)%map_record.
  unfold GetMapNode. erewrite bind_run by reflexivity.
  erewrite bind_run by (by apply (read_node_run _ _ node0)). simpl.
  unfold GetMapNode_exit. destruct (ReleaseNode_run (Some n) s Hio) as (s1 & E1 & Hs1).
  erewrite bind_run by exact E1. by exists s1.
Qed.
End Chain.

(** ** The scan of a map record *)

Lemma find_free_word_spec A P raw B pos :
  pos = len A + 2 * len P -> Forall u16_ok raw ->
  exists k, find_free_word (A ++ words (P ++ raw) ++ B) pos (length raw) = Some (pos + 2 * Z.of_nat k) /\
    (k <= length raw)%nat /\
    Forall (eq 0xFFFF) (take (k - 1) raw) /\
    (forall w, raw !! (k - 1)%nat = Some w -> w = 0xFFFF -> k = length raw) /\ (raw <> [] -> (0 < k)%nat).
Proof.
  revert P pos. induction raw as [|w raw IH]; intros P pos -> Hok.
  { exists 0%nat. simpl. split_and!; try done; try constructor. f_equal. lia. }
  inversion_clear Hok as [|? ? Hw Hok']. cbn [length find_free_word].
  rewrite (ld16_words A P w raw B) by (done || lia). cbn [mbind option_bind].
  destruct (Z.eqb_spec w 0xFFFF) as [->|Hne]; simpl negb; cbn match.
  - destruct (IH (P ++ [0xFFFF]) (len A + 2 * len P + 2)) as (k & E & Hk & Hfull & Hlast & Hpos);
      [rewrite length_app; simpl; lia|done|].
    rewrite <- app_assoc in E. simpl in E. rewrite E. exists (S k).
    split; [f_equal; lia|]. simpl. rewrite Nat.sub_0_r. split; [lia|].
    destruct k as [|k].
    + split; [constructor|]. split; [|lia]. intros w _ _. destruct raw as [|w' raw']; [done|].
      specialize (Hpos ltac:(done)). lia.
    + simpl in *. rewrite Nat.sub_0_r in *. split_and!; [by constructor| |lia].
      intros w' Hw' ->. f_equal. by apply (Hlast 0xFFFF).
  - exists 1%nat. split; [f_equal; lia|]. simpl. split_and!; [lia|constructor| |lia].
    intros w' [= <-]. done.
Qed.

(** ** Allocation *)

(** [k] is the first clear bit. *)
Definition first_clear (bits : list bool) (k : nat) : Prop :=
  Forall (eq true) (take k bits) /\ bits !! k = Some false.

Lemma first_clear_app bits1 bits2 k :
  Forall (eq true) bits1 -> first_clear bits2 k -> first_clear (bits1 ++ bits2) (length bits1 + k).
Proof.
  intros H1 [H2 H3]. split.
  - rewrite take_app_add. apply Forall_app. done.
  - by rewrite lookup_app_r, Nat.add_comm, Nat.add_sub by lia.
Qed.

Lemma first_clear_app_l bits1 bits2 k :
  first_clear bits1 k -> first_clear (bits1 ++ bits2) k.
Proof.
  intros [H1 H2]. pose proof (lookup_lt_Some _ _ _ H2). split.
  - by rewrite take_app_le by lia.
  - by rewrite lookup_app_l by lia.
Qed.

Lemma record_bits_full raw : Forall (eq 0xFFFF) raw -> Forall (eq true) (record_bits raw).
Proof.
  induction 1 as [|w raw <- _ IH]; [constructor|]. unfold record_bits. rewrite fmap_cons, concat_cons.
  apply Forall_app. split; [|done]. repeat constructor.
Qed.

Lemma record_bits_app r1 r2 : record_bits (r1 ++ r2) = record_bits r1 ++ record_bits r2.
Proof. unfold record_bits. by rewrite fmap_app, concat_app. Qed.

(** Replacing one word replaces its sixteen bits. *)
Lemma record_bits_word r1 w w' r2 k x :
  (k < 16)%nat -> word_bits w' = <[k := x]> (word_bits w) ->
  record_bits (r1 ++ w' :: r2) = <[(16 * length r1 + k)%nat := x]> (record_bits (r1 ++ w :: r2)).
Proof.
  intros Hk Hw. rewrite !record_bits_app. unfold record_bits at 2 4. rewrite !fmap_cons, !concat_cons, Hw.
  rewrite <- (length_record_bits r1), insert_app_r, insert_app_l; [done|]. by rewrite length_word_bits.
Qed.

(** Storing a word of the map record of a map node. *)
Lemma map_node_store b nodes n idx kind next r1 w r2 w' node off A B :
  map_node b nodes n idx kind next (r1 ++ w :: r2) -> u16_ok w' ->
  nodes !! n = Some node -> node = A ++ words (r1 ++ w :: r2) ++ B -> len A = off ->
  GetRecordAddress b node (Z.of_nat idx) = Some off -> node_size_ok b ->
  exists node', st16 node (off + 2 * len r1) w' = Some node' /\
    map_node b (<[n := node']> nodes) n idx kind next (r1 ++ w' :: r2).
Proof.
  intros (hdr & res & l1 & l2 & node0 & Hn0 & Hrep & Hidx & Hf & Hk & _ & Hok & Hlt) Hw' Hn E HA Hoff Hb.
  rewrite Hn in Hn0. injection Hn0 as <-. clear E.
  unfold GetRecordAddress in Hoff.
  rewrite (GetRecordOffset_rep _ Hb hdr res l1 _ _ _ Hrep) in Hoff by (by rewrite Hidx). injection Hoff as <-.
  pose proof Hrep as Hrep0. rewrite words_app, words_cons in Hrep.
  destruct (put_in_record b hdr res l1 (words r1) (le16 w) (le16 w') (words r2) l2 node
    (len A + 2 * len r1)) as (node' & E & Hrep'); [done|rewrite length_words; lia|done|].
  exists node'. split; [by rewrite HA in E|]. exists hdr, res, l1, l2, node'.
  rewrite <- words_cons, <- words_app in Hrep'.
  destruct (header_rep _ _ _ _ _ Hrep0) as (F1 & _ & K1 & _).
  destruct (header_rep _ _ _ _ _ Hrep') as (F2 & _ & K2 & _).
  split_and!; try lia; [by rewrite lookup_insert_eq|done|congruence|congruence|by destruct r1|].
  apply Forall_app in Hok as [Hok1 Hok2]. inversion_clear Hok2. apply Forall_app. split; [done|by constructor].
Qed.

(** The control block after one allocation. *)
Definition allocated (b : BTreeControlBlock) : BTreeControlBlock :=
  with_flags (Z.lor (flags b) kBTHeaderDirty) (with_freeNodes (u32 (freeNodes b - 1)) b).

(** What a successful allocation does to the state: the chain [L] has become
    [L'], whose bits are the ones of [L] with bit [k] set. *)
Definition alloc_step (s s' : btfile) (n : Z) (idx : nat) (kind : Z) (L L' : list (Z * list Z)) (k : nat) : Prop :=
  map_chain (f_btcb s') (f_nodes s') n idx kind L' /\ L'.*1 = L.*1 /\
  map_bits L' = <[k := true]> (map_bits L) /\
  (forall m, m ∉ L.*1 -> f_nodes s' !! m = f_nodes s !! m) /\
  (exists st, f_btcb s' = with_stats st (allocated (f_btcb s))) /\
  f_nr s' = nr_update (f_nr s) (f_thread s) (f_vnode s) 1 /\ io_fine s'.

Lemma AllocateNode_exit_run err r s :
  io_fine s -> exists s', AllocateNode_exit err r s = Some ((err, 0), s') /\ stats_only s s'.
Proof.
  intros Hio. unfold AllocateNode_exit. destruct (ReleaseNode_run r s Hio) as (s' & E & Hs).
  erewrite bind_run by exact E. by exists s'.
Qed.

Lemma update_node_run n s node (f : bytes -> option bytes) node' :
  f_nodes s !! n = Some node -> f node = Some node' ->
  update_node (Some n) f s = Some (tt, with_nodes (<[n := node']> (f_nodes s)) s).
Proof.
  intros H1 H2. unfold update_node, mbind, BT_bind, buffer, lift, set_buffer. simpl. rewrite H1. simpl.
  rewrite H2. done.
Qed.

Lemma shiftl_words k : Z.shiftl (2 * Z.of_nat k / 2) 4 = 16 * Z.of_nat k.
Proof. rewrite Z.mul_comm, Z.div_mul by lia. rewrite Z.shiftl_mul_pow2 by lia. lia. Qed.

Lemma AllocateNode_found_run s n idx kind next r1 w r2 node A B base :
  io_fine s -> node_size_ok (f_btcb s) ->
  map_node (f_btcb s) (f_nodes s) n idx kind next (r1 ++ w :: r2) -> w <> 0xFFFF ->
  f_nodes s !! n = Some node -> node = A ++ words (r1 ++ w :: r2) ++ B ->
  GetRecordAddress (f_btcb s) node (Z.of_nat idx) = Some (len A) ->
  0 <= base -> base + 16 * len (r1 ++ w :: r2) <= UINT32_MAX ->
  exists k s', (k < 16)%nat /\ Forall (eq true) (take k (word_bits w)) /\ word_bits w !! k = Some false /\
    let number := base + 16 * len r1 + Z.of_nat k in
    if totalNodes (f_btcb s) <=? number
    then AllocateNode_found (Some n) (len A + 2 * len r1) (len A) base s = Some ((fsBTFullErr, 0), s') /\ stats_only s s'
    else AllocateNode_found (Some n) (len A + 2 * len r1) (len A) base s = Some ((noErr, number), s') /\
      exists w' node', word_bits w' = <[k := true]> (word_bits w) /\
        f_nodes s' = <[n := node']> (f_nodes s) /\
        map_node (f_btcb s') (f_nodes s') n idx kind next (r1 ++ w' :: r2) /\
        (exists st, f_btcb s' = with_stats st (allocated (f_btcb s))) /\
        f_nr s' = nr_update (f_nr s) (f_thread s) (f_vnode s) 1 /\ io_fine s'.
Proof.
  intros Hio Hb Hmap Hne Hn Enode Haddr Hbase Hmax.
  pose proof Hmap as (_ & _ & _ & _ & _ & _ & _ & _ & _ & _ & _ & Hok & _).
  apply Forall_app in Hok as [_ Hok]. inversion_clear Hok as [|? ? Hw _].
  destruct (find_free_bit_spec w Hw Hne) as (k & Efind & Hk & Hfull & Hclr).
  destruct (set_bit_spec w (Z.of_nat k) Hw ltac:(lia)) as [Hw' Hbits]. rewrite Nat2Z.id in Hbits.
  exists k. rewrite length_app in Hmax. simpl in Hmax.
  destruct (map_node_store _ _ _ _ _ _ _ _ _ _ _ _ A B Hmap Hw' Hn Enode eq_refl Haddr Hb) as (node' & Est & Hmap').
  assert (ld16 node (len A + 2 * len r1) = Some w) as Eld.
  { rewrite Enode. apply ld16_words; [done|]. unfold u16_ok in Hw. lia. }
  unfold AllocateNode_found. cbv zeta.
  rewrite (bind_run _ _ s w s) by (by apply (read_node_run _ _ node)). rewrite Efind.
  rewrite (bind_run _ _ s (f_btcb s) s) by done.
  replace (len A + 2 * len r1 - len A) with (2 * len r1) by lia. rewrite shiftl_words.
  replace (15 - (15 - Z.of_nat k)) with (Z.of_nat k) by lia.
  rewrite u32_id by (unfold UINT32_MAX in *; lia).
  destruct (Z.leb_spec (totalNodes (f_btcb s)) (base + 16 * len r1 + Z.of_nat k)).
  { destruct (AllocateNode_exit_run fsBTFullErr (Some n) s Hio) as (s' & E & Hs). exists s'. by split_and!. }
  erewrite bind_run by (apply (update_node_run n s node); [done|exact Est]).
  edestruct (UpdateNode_run n) as (s2 & E2 & [st ->]); [|rewrite (bind_run _ _ _ _ _ E2)]; [exact Hio|].
  cbn [exit_on_error Z.eqb noErr]. eexists. do 3 (split; [done|]). split; [reflexivity|].
  exists (set_bit w (Z.of_nat k)), node'. split_and!; try done. by eexists.
Qed.

(** The descriptor from which GetMapNode gets to node [n]. *)
Definition arrives (s : btfile) (r : NodeRec) (n : Z) (idx : nat) (kind : Z) : Prop :=
  (r = None /\ n = 0 /\ idx = 2%nat /\ kind = kBTHeaderNode) \/
  (exists m i kd raw, r = Some m /\ map_node (f_btcb s) (f_nodes s) m i kd n raw /\ n <> 0 /\
     idx = 0%nat /\ kind = kBTMapNode).

Lemma GetMapNode_arrives s r n idx kind next raw :
  io_fine s -> node_size_ok (f_btcb s) -> arrives s r n idx kind ->
  map_node (f_btcb s) (f_nodes s) n idx kind next raw ->
  exists s' node A B, GetMapNode r s = Some ((noErr, Some n, len A, 2 * len raw), s') /\ stats_only s s' /\
    f_nodes s !! n = Some node /\ node = A ++ words raw ++ B /\
    GetRecordAddress (f_btcb s) node (Z.of_nat idx) = Some (len A).
Proof.
  intros Hio Hb Harr Hmap.
  destruct Harr as [(-> & -> & -> & ->)|(m & i & kd & raw' & -> & Hm & Hne & -> & ->)].
  - destruct (GetMapNode_first s Hio Hb raw next Hmap) as (s' & node & off & E & Hs & Hn & Ha & A & B & EAB & <-).
    by exists s', node, A, B.
  - destruct (GetMapNode_next s Hio Hb m i kd raw' n raw next Hm Hne Hmap)
      as (s' & node & off & E & Hs & Hn & Ha & A & B & EAB & <-).
    by exists s', node, A, B.
Qed.

Lemma map_chain_head b nodes n idx kind L :
  map_chain b nodes n idx kind L ->
  exists raw rest next, L = (n, raw) :: rest /\ map_node b nodes n idx kind next raw /\
    (next = 0 /\ rest = [] \/ next <> 0 /\ map_chain b nodes next 0 kBTMapNode rest).
Proof.
  intros [? ? ? raw Hm|? ? ? raw next rest Hm Hne Hrest].
  - exists raw, [], 0. auto.
  - exists raw, rest, next. auto.
Qed.

(** A chain only looks at its own nodes. *)
Lemma map_node_frame b nodes nodes' n idx kind next raw :
  nodes' !! n = nodes !! n -> map_node b nodes n idx kind next raw -> map_node b nodes' n idx kind next raw.
Proof. unfold map_node. by intros ->. Qed.

Lemma map_chain_frame b nodes nodes' n idx kind L :
  (forall m, m ∈ L.*1 -> nodes' !! m = nodes !! m) ->
  map_chain b nodes n idx kind L -> map_chain b nodes' n idx kind L.
Proof.
  intros Hf H. induction H as [n idx kind raw Hm|n idx kind raw next rest Hm Hne Hrest IH].
  - apply map_chain_last. eapply map_node_frame; [|done]. apply Hf. left.
  - eapply map_chain_next; [|done|].
    + eapply map_node_frame; [|done]. apply Hf. left.
    + apply IH. intros m Hm'. apply Hf. by right.
Qed.

(** The map nodes depend on the control block by its node size and total only. *)
Lemma map_chain_btcb b b' nodes n idx kind L :
  nodeSize b' = nodeSize b -> totalNodes b' = totalNodes b ->
  map_chain b nodes n idx kind L -> map_chain b' nodes n idx kind L.
Proof.
  intros E1 E2 H. induction H as [n idx kind raw Hm|n idx kind raw next rest Hm Hne Hrest IH].
  - apply map_chain_last. unfold map_node, node_rep in *. by rewrite E1, E2.
  - eapply map_chain_next; [|done|done]. unfold map_node, node_rep in *. by rewrite E1, E2.
Qed.

Lemma map_bits_insert_tail n raw rest rest' k :
  map_bits rest' = <[k := true]> (map_bits rest) ->
  map_bits ((n, raw) :: rest') = <[(length (record_bits raw) + k)%nat := true]> (map_bits ((n, raw) :: rest)).
Proof. intros E. rewrite !map_bits_cons, E. by rewrite insert_app_r. Qed.

Lemma map_bits_insert_head n raw raw' rest k x :
  (k < length (record_bits raw))%nat -> record_bits raw' = <[k := x]> (record_bits raw) ->
  map_bits ((n, raw') :: rest) = <[k := x]> (map_bits ((n, raw) :: rest)).
Proof. intros Hk E. rewrite !map_bits_cons, E. by rewrite insert_app_l. Qed.

(** What the words before the one found say about the record. *)
Lemma record_first_clear r1 w r2 k :
  Forall (eq 0xFFFF) r1 -> (k < 16)%nat -> Forall (eq true) (take k (word_bits w)) -> word_bits w !! k = Some false ->
  first_clear (record_bits (r1 ++ w :: r2)) (16 * length r1 + k).
Proof.
  intros Hr1 Hk H1 H2. rewrite record_bits_app, <- length_record_bits.
  apply first_clear_app; [by apply record_bits_full|].
  unfold record_bits. rewrite fmap_cons, concat_cons. by apply first_clear_app_l.
Qed.

(** The three ways the search can end. *)
Definition alloc_outcome (run : option ((Z * Z) * btfile)) (s : btfile) (n : Z) (idx : nat) (kind : Z)
    (L : list (Z * list Z)) (base : Z) : Prop :=
  exists s',
  (Forall (eq true) (map_bits L) /\ run = Some ((fsBTNoMoreMapNodesErr, 0), s') /\ stats_only s s') \/
  exists k, first_clear (map_bits L) k /\
    if totalNodes (f_btcb s) <=? base + Z.of_nat k
    then run = Some ((fsBTFullErr, 0), s') /\ stats_only s s'
    else run = Some ((noErr, base + Z.of_nat k), s') /\ exists L', alloc_step s s' n idx kind L L' k.

(** A record without a free bit: the outcome is the one of the rest of the chain. *)
Lemma alloc_outcome_tail run s s1 n idx kind raw next rest base :
  stats_only s s1 -> map_node (f_btcb s) (f_nodes s) n idx kind next raw -> next <> 0 ->
  NoDup ((n, raw) :: rest).*1 -> Forall (eq 0xFFFF) raw ->
  alloc_outcome run s1 next 0 kBTMapNode rest (base + 16 * len raw) ->
  alloc_outcome run s n idx kind ((n, raw) :: rest) base.
Proof.
  intros [st0 ->] Hmap Hne Hnd Hfull (s' & Hout). exists s'.
  pose proof (record_bits_full raw Hfull) as Hbits.
  destruct Hout as [(Hall & Hrun & Hs)|(k & Hk & Hrun)].
  - left. split_and!; [|done|].
    + rewrite map_bits_cons. apply Forall_app. done.
    + eapply stats_only_trans; [by eexists|done].
  - right. exists (length (record_bits raw) + k)%nat. rewrite map_bits_cons.
    split; [by apply first_clear_app|]. simpl in Hrun.
    rewrite length_record_bits in *.
    replace (base + Z.of_nat (16 * length raw + k)) with (base + 16 * len raw + Z.of_nat k) by lia.
    case_match; [destruct Hrun as [Hrun Hs]; split; [done|]; eapply stats_only_trans; [by eexists|done]|].
    destruct Hrun as (Hrun & L' & Hchain & EL & Eb & Hframe & (st & Est) & Hnr & Hio'). split; [done|].
    exists ((n, raw) :: L'). inversion_clear Hnd as [|? ? Hnotin _].
    split_and!; [|simpl; by f_equal| | |by eexists|done|done].
    + eapply map_chain_next; [|exact Hne|done].
      rewrite Est. eapply map_node_frame; [|exact Hmap]. by apply Hframe.
    + rewrite <- length_record_bits. by apply map_bits_insert_tail.
    + intros m Hm. apply Hframe. intros Hin. apply Hm. by right.
Qed.

Lemma AllocateNode_loop_run L : forall s r n idx kind base fuel,
  io_fine s -> node_size_ok (f_btcb s) -> arrives s r n idx kind ->
  map_chain (f_btcb s) (f_nodes s) n idx kind L -> NoDup L.*1 -> (length L < fuel)%nat ->
  0 <= base -> base + len (map_bits L) <= UINT32_MAX ->
  alloc_outcome (AllocateNode_loop r base fuel s) s n idx kind L base.
Proof.
  induction L as [|x rest IH]; intros s r n idx kind base fuel Hio Hb Harr Hchain Hnd Hfuel Hbase Hmax.
  { by inversion Hchain. }
  destruct (map_chain_head _ _ _ _ _ _ Hchain) as (raw & rest' & next & [= -> <-] & Hmap & Hnext).
  pose proof Hmap as (_ & _ & _ & _ & _ & _ & _ & _ & _ & _ & Hne0 & Hok & _).
  destruct fuel as [|fuel]; [simpl in Hfuel; lia|]. cbn [AllocateNode_loop].
  destruct (GetMapNode_arrives s r n idx kind next raw Hio Hb Harr Hmap)
    as (s1 & node & A & B & E1 & [st1 ->] & Hn & Enode & Haddr).
  rewrite map_bits_cons, length_app, length_record_bits in Hmax.
  assert (Z.to_nat (Z.shiftr (2 * len raw) 1) = length raw) as Esz.
  { rewrite Z.shiftr_div_pow2 by lia. rewrite Z.mul_comm, Z.div_mul by lia. lia. }
  destruct (find_free_word_spec A [] raw B (len A)) as (j & Ej & Hj & Hfull & Hlast & Hpos); [simpl; lia|done|].
  specialize (Hpos Hne0). destruct j as [|j]; [lia|]. simpl in Hfull, Hlast. rewrite Nat.sub_0_r in *.
  destruct (lookup_lt_is_Some_2 raw j) as [w Hw]; [lia|].
  pose proof (take_drop_middle _ _ _ Hw) as Eraw. set (r1 := take j raw) in *. set (r2 := drop (S j) raw) in *.
  assert (length r1 = j) as Hr1 by (subst r1; rewrite length_take; lia).
  erewrite bind_run by exact E1. cbn [exit_on_error Z.eqb noErr].
  erewrite bind_run by (apply (read_node_run _ _ node); [done|]; rewrite Esz, Enode; exact Ej).
  replace (len A + 2 * Z.of_nat (S j) - 2) with (len A + 2 * len r1) by lia.
  erewrite bind_run by (apply (read_node_run _ _ node); [done|]; rewrite Enode, <- Eraw;
    apply ld16_words; [done|]; by apply (Forall_lookup_1 _ _ _ _ Hok Hw)).
  destruct (Z.eqb_spec w 0xFFFF) as [->|Hwne]; cbn [negb].
  - (* the whole record is full *)
    assert (Forall (eq 0xFFFF) raw) as Hraw.
    { rewrite <- Eraw. apply Forall_app. split; [done|]. constructor; [done|].
      subst r2. rewrite drop_ge; [constructor|]. rewrite (Hlast 0xFFFF Hw eq_refl). lia. }
    assert (u32 (base + Z.shiftl (2 * len raw) 3) = base + 16 * len raw) as ->.
    { rewrite Z.shiftl_mul_pow2 by lia. rewrite u32_id by (unfold UINT32_MAX in *; lia). lia. }
    destruct Hnext as [[-> ->]|[Hnne Hrest]].
    + destruct fuel as [|fuel]; [simpl in Hfuel; lia|]. cbn [AllocateNode_loop].
      destruct (GetMapNode_end (with_btcb (with_stats st1 (f_btcb s)) s) Hio Hb n idx kind raw Hmap)
        as (s2 & E2 & Hs2).
      destruct (AllocateNode_exit_run fsBTNoMoreMapNodesErr None s2) as (s3 & E3 & Hs3);
        [by apply (stats_only_io _ _ Hs2)|].
      exists s3. left. split_and!.
      * rewrite map_bits_cons. apply Forall_app. split; [by apply record_bits_full|constructor].
      * erewrite bind_run by exact E2. exact E3.
      * eapply stats_only_trans; [by eexists|]. by eapply stats_only_trans.
    + apply (alloc_outcome_tail _ _ (with_btcb (with_stats st1 (f_btcb s)) s) n idx kind raw next); try done;
        [by eexists|].
      inversion_clear Hnd as [|? ? Hnotin Hnd']. simpl in Hfuel.
      apply IH; try done; try lia; [right; exists n, idx, kind, raw; auto|].
      by apply (map_chain_btcb (f_btcb s)).
  - rewrite <- Eraw in Hmap, Enode, Hmax. rewrite length_app in Hmax. simpl in Hmax.
    destruct (AllocateNode_found_run (with_btcb (with_stats st1 (f_btcb s)) s) n idx kind next r1 w r2 node A B base)
      as (k & s' & Hk & H1 & H2 & Hrun); try done; [rewrite length_app; simpl; lia|].
    exists s'. right. exists (16 * length r1 + k)%nat. rewrite map_bits_cons. split.
    { apply first_clear_app_l. rewrite <- Eraw. by apply record_first_clear. }
    replace (base + Z.of_nat (16 * length r1 + k)) with (base + 16 * len r1 + Z.of_nat k) by lia. simpl in Hrun.
    case_match; [destruct Hrun as [? Hs]; split; [done|]; eapply stats_only_trans; [by eexists|done]|].
    destruct Hrun as (Hrun & w' & node' & Hbits & Hnodes & Hmap' & (st & Est) & Hnr & Hio'). split; [done|].
    exists ((n, r1 ++ w' :: r2) :: rest).
    inversion_clear Hnd as [|? ? Hnotin Hnd'].
    split_and!; [|done| | |by eexists|done|done].
    + destruct Hnext as [[-> ->]|[Hnne Hrest]]; [by apply map_chain_last|].
      eapply map_chain_next; [exact Hmap'|done|]. rewrite Est.
      eapply map_chain_frame; [|apply (map_chain_btcb (f_btcb s)); [done|done|exact Hrest]]. intros m Hm. rewrite Hnodes.
      rewrite lookup_insert_ne; [done|]. intros ->. done.
    + rewrite <- Eraw. apply map_bits_insert_head.
      * rewrite length_record_bits, length_app. simpl. lia.
      * by apply record_bits_word.
    + intros m Hm. rewrite Hnodes. rewrite lookup_insert_ne; [done|]. intros ->. apply Hm. left.
Qed.

(** ** Freeing *)

Definition freed (b : BTreeControlBlock) : BTreeControlBlock :=
  with_flags (Z.lor (flags b) kBTHeaderDirty) (with_freeNodes (u32 (freeNodes b + 1)) b).

Definition free_step (s s' : btfile) (n : Z) (idx : nat) (kind : Z) (L L' : list (Z * list Z)) (k : nat) : Prop :=
  map_chain (f_btcb s') (f_nodes s') n idx kind L' /\ L'.*1 = L.*1 /\
  map_bits L' = <[k := false]> (map_bits L) /\
  (forall m, m ∉ L.*1 -> f_nodes s' !! m = f_nodes s !! m) /\
  (exists st, f_btcb s' = with_stats st (freed (f_btcb s))) /\ f_nr s' = f_nr s /\ io_fine s'.

Lemma FreeNode_found_run s n idx kind next raw node A B base num :
  io_fine s -> node_size_ok (f_btcb s) ->
  map_node (f_btcb s) (f_nodes s) n idx kind next raw ->
  f_nodes s !! n = Some node -> node = A ++ words raw ++ B ->
  GetRecordAddress (f_btcb s) node (Z.of_nat idx) = Some (len A) ->
  0 <= base <= num -> num < base + 16 * len raw -> base + 16 * len raw <= UINT32_MAX ->
  exists s' raw' node',
    FreeNode_found (Some n) (len A) (2 * len raw) (base + 16 * len raw) num s = Some (noErr, s') /\
    record_bits raw' = <[Z.to_nat (num - base) := false]> (record_bits raw) /\
    f_nodes s' = <[n := node']> (f_nodes s) /\
    map_node (f_btcb s') (f_nodes s') n idx kind next raw' /\
    (exists st, f_btcb s' = with_stats st (freed (f_btcb s))) /\ f_nr s' = f_nr s /\ io_fine s'.
Proof.
  intros Hio Hb Hmap Hn Enode Haddr Hbase Hnum Hmax.
  pose proof Hmap as (_ & _ & _ & _ & _ & _ & _ & _ & _ & _ & _ & Hok & _).
  set (rel := num - base). assert (0 <= rel < 16 * len raw) as Hrel by (subst rel; lia).
  pose proof (Z.div_mod rel 16 ltac:(lia)) as Hdm. pose proof (Z.mod_pos_bound rel 16 ltac:(lia)) as Hm.
  set (j := Z.to_nat (rel / 16)). set (k := rel mod 16) in *.
  assert (0 <= rel / 16) by (apply Z.div_pos; lia). assert (rel = 16 * Z.of_nat j + k) as Ejk by lia.
  destruct (lookup_lt_is_Some_2 raw j) as [w Hw]; [lia|].
  pose proof (take_drop_middle _ _ _ Hw) as Eraw. set (r1 := take j raw) in *. set (r2 := drop (S j) raw) in *.
  assert (length r1 = j) as Hr1 by (subst r1; rewrite length_take; lia).
  pose proof (Forall_lookup_1 _ _ _ _ Hok Hw) as Hwok.
  destruct (clear_bit_spec w k Hwok Hm) as [Hw' Hbits].
  rewrite <- Eraw in Hmap, Enode.
  destruct (map_node_store _ _ _ _ _ _ _ _ _ _ _ _ A B Hmap Hw' Hn Enode eq_refl Haddr Hb) as (node' & Est & Hmap').
  unfold FreeNode_found.
  assert (u32 (num - (base + 16 * len raw - Z.shiftl (2 * len raw) 3)) = rel) as Eu.
  { rewrite Z.shiftl_mul_pow2 by lia. unfold UINT32_MAX in *. rewrite u32_id; unfold UINT32_MAX; lia. }
  rewrite Eu. assert (Z.land rel 0xF = k) as -> by (change 0xF with (Z.ones 4); by rewrite Z.land_ones by lia).
  assert (len A + 2 * Z.shiftr rel 4 = len A + 2 * len r1) as ->.
  { rewrite Z.shiftr_div_pow2 by lia. change (2 ^ 4) with 16. lia. }
  erewrite bind_run; [|apply (update_node_run n s node); [done|]].
  2:{ rewrite Enode at 1. rewrite ld16_words; [|done|done]. cbn [mbind option_bind]. exact Est. }
  edestruct (UpdateNode_run n) as (s2 & E2 & [st ->]); [|rewrite (bind_run _ _ _ _ _ E2)]; [exact Hio|].
  cbn [exit_on_error Z.eqb noErr]. exists (with_btcb (with_flags (Z.lor (flags (f_btcb s)) kBTHeaderDirty)
    (with_freeNodes (u32 (freeNodes (f_btcb s) + 1)) (with_stats st (f_btcb s))))
      (with_nodes (<[n := node']> (f_nodes s)) s)), (r1 ++ clear_bit w k :: r2), node'.
  split; [done|]. split_and!; try done; [|by eexists].
  rewrite <- Eraw. fold rel. replace (Z.to_nat rel) with (16 * length r1 + Z.to_nat k)%nat by lia.
  apply record_bits_word; [lia|done].
Qed.

(** Once [nodeIndex] has passed the node, the loop is done. *)
Lemma FreeNode_loop_run L : forall s r mp ms n idx kind base num fuel,
  io_fine s -> node_size_ok (f_btcb s) -> arrives s r n idx kind ->
  map_chain (f_btcb s) (f_nodes s) n idx kind L -> NoDup L.*1 -> (length L < fuel)%nat ->
  0 <= base <= num -> num < base + len (map_bits L) -> base + len (map_bits L) <= UINT32_MAX ->
  exists s' L', FreeNode_loop r mp ms base num fuel s = Some (noErr, s') /\
    free_step s s' n idx kind L L' (Z.to_nat (num - base)).
Proof.
  induction L as [|x rest IH]; intros s r mp ms n idx kind base num fuel Hio Hb Harr Hchain Hnd Hfuel Hbase Hnum Hmax.
  { by inversion Hchain. }
  destruct (map_chain_head _ _ _ _ _ _ Hchain) as (raw & rest' & next & [= -> <-] & Hmap & Hnext).
  destruct fuel as [|fuel]; [simpl in Hfuel; lia|]. cbn [FreeNode_loop].
  destruct (GetMapNode_arrives s r n idx kind next raw Hio Hb Harr Hmap)
    as (s1 & node & A & B & E1 & [st1 ->] & Hn & Enode & Haddr).
  rewrite map_bits_cons, length_app, length_record_bits in Hmax, Hnum.
  destruct (Z.leb_spec base num); [|lia]. erewrite bind_run by exact E1. cbn [exit_on_error Z.eqb noErr].
  assert (u32 (base + Z.shiftl (2 * len raw) 3) = base + 16 * len raw) as ->.
  { rewrite Z.shiftl_mul_pow2 by lia. rewrite u32_id by (unfold UINT32_MAX in *; lia). lia. }
  inversion_clear Hnd as [|? ? Hnotin Hnd'].
  destruct (Z.le_gt_cases (base + 16 * len raw) num) as [Hge|Hlt].
  - destruct Hnext as [[-> ->]|[Hnne Hrest]]; [simpl in Hnum; lia|]. simpl in Hfuel.
    destruct (IH (with_btcb (with_stats st1 (f_btcb s)) s) (Some n) (len A) (2 * len raw) next 0%nat kBTMapNode
                (base + 16 * len raw) num fuel)
      as (s' & L' & Hrun & Hc & EL & Eb & Hframe & (st & Est) & Hnr & Hio'); try done; try lia.
    { right. exists n, idx, kind, raw. auto. }
    { by apply (map_chain_btcb (f_btcb s)). }
    exists s', ((n, raw) :: L'). split; [done|]. split_and!; [|simpl; by f_equal| | |by eexists|done|done].
    + eapply map_chain_next; [|exact Hnne|done]. rewrite Est. eapply map_node_frame; [|exact Hmap]. by apply Hframe.
    + replace (Z.to_nat (num - base)) with (length (record_bits raw) + Z.to_nat (num - (base + 16 * len raw)))%nat
        by (rewrite length_record_bits; lia).
      rewrite !map_bits_cons, Eb. by rewrite insert_app_r.
    + intros m Hm. apply Hframe. intros Hin. apply Hm. by right.
  - destruct fuel as [|fuel]; [destruct rest; simpl in Hfuel; lia|]. cbn [FreeNode_loop].
    destruct (Z.leb_spec (base + 16 * len raw) num); [lia|].
    destruct (FreeNode_found_run (with_btcb (with_stats st1 (f_btcb s)) s) n idx kind next raw node A B base num)
      as (s' & raw' & node' & Hrun & Hbits & Hnodes & Hmap' & (st & Est) & Hnr & Hio'); try done; try lia.
    exists s', ((n, raw') :: rest). split; [done|]. split_and!; [|done| | |by eexists|done|done].
    + destruct Hnext as [[-> ->]|[Hnne Hrest]]; [by apply map_chain_last|].
      eapply map_chain_next; [exact Hmap'|done|]. rewrite Est.
      eapply map_chain_frame; [|apply (map_chain_btcb (f_btcb s)); [done|done|exact Hrest]].
      intros m Hm. rewrite Hnodes. rewrite lookup_insert_ne; [done|]. intros ->. done.
    + apply map_bits_insert_head; [rewrite length_record_bits; lia|done].
    + intros m Hm. rewrite Hnodes. rewrite lookup_insert_ne; [done|]. intros ->. apply Hm. left.
Qed.

(** ** The node map as a whole *)

Lemma map_chain_nodes b nodes n idx kind L :
  map_chain b nodes n idx kind L -> Forall (fun m => 0 <= m < totalNodes b) L.*1.
Proof.
  induction 1 as [n idx kind raw Hm|n idx kind raw next rest Hm Hne Hrest IH]; simpl;
    destruct Hm as (? & ? & ? & ? & ? & _ & _ & _ & _ & _ & _ & _ & ?);
    (apply Forall_cons; split; [done|]); [apply Forall_nil; done|done].
Qed.

(** The chain has no more nodes than the tree. *)
Lemma node_map_length s L : node_map s L -> (length L <= Z.to_nat (totalNodes (f_btcb s)))%nat.
Proof.
  intros [Hchain Hnd]. pose proof (map_chain_nodes _ _ _ _ _ _ Hchain) as Hall.
  rewrite <- (length_fmap fst L), <- (length_seqZ 0 (totalNodes (f_btcb s))).
  apply submseteq_length, NoDup_submseteq; [done|]. intros m Hm.
  eapply Forall_forall in Hall; [|exact Hm]. apply elem_of_seqZ. simpl in Hall. lia.
Qed.

Lemma AllocateNode_run s L :
  io_fine s -> node_size_ok (f_btcb s) -> node_map s L -> len (map_bits L) <= UINT32_MAX ->
  alloc_outcome (AllocateNode s) s 0 2 kBTHeaderNode L 0.
Proof.
  intros Hio Hb Hmap Hmax. pose proof (node_map_length s L Hmap) as Hlen. destruct Hmap as [Hchain Hnd].
  unfold AllocateNode. erewrite bind_run by reflexivity.
  apply AllocateNode_loop_run; try done; [by left|lia].
Qed.

Lemma FreeNode_run s L num :
  io_fine s -> node_size_ok (f_btcb s) -> node_map s L -> len (map_bits L) <= UINT32_MAX ->
  0 <= num < len (map_bits L) ->
  exists s' L', FreeNode num s = Some (noErr, s') /\ free_step s s' 0 2 kBTHeaderNode L L' (Z.to_nat num).
Proof.
  intros Hio Hb Hmap Hmax Hnum. pose proof (node_map_length s L Hmap) as Hlen. destruct Hmap as [Hchain Hnd].
  unfold FreeNode. erewrite bind_run by reflexivity.
  replace (Z.to_nat num) with (Z.to_nat (num - 0)) by lia.
  apply FreeNode_loop_run; try done; [by left|lia|lia|lia].
Qed.

(** ** Properties *)

(** AllocateNode returns the lowest numbered free node of the node map, sets
    its bit and no other, counts it out of freeNodes and marks the header dirty; it
    fails with fsBTFullErr when that node is past the end of the tree, and with
    fsBTNoMoreMapNodesErr when every bit of the map is set, changing nothing. *)
Theorem AllocateNode_first_free s L :
  io_fine s -> node_size_ok (f_btcb s) -> node_map s L -> len (map_bits L) <= UINT32_MAX ->
  exists err num s', AllocateNode s = Some ((err, num), s') /\
    ((err = noErr /\ num < totalNodes (f_btcb s) /\ first_clear (map_bits L) (Z.to_nat num) /\
      freeNodes (f_btcb s') = u32 (freeNodes (f_btcb s) - 1) /\ Z.testbit (flags (f_btcb s')) 0 = true /\
      exists L', node_map s' L' /\ map_bits L' = <[Z.to_nat num := true]> (map_bits L)) \/
     (err = fsBTFullErr /\ stats_only s s' /\
      exists k, first_clear (map_bits L) k /\ totalNodes (f_btcb s) <= Z.of_nat k) \/
     (err = fsBTNoMoreMapNodesErr /\ stats_only s s' /\ Forall (eq true) (map_bits L))).
Proof.
  intros Hio Hb Hmap Hmax. destruct (AllocateNode_run s L Hio Hb Hmap Hmax) as (s' & [(H1 & H2 & H3)|(k & Hk & H)]).
  { by eexists _, _, s'; split; [exact H2|right; right]. }
  destruct (Z.leb_spec (totalNodes (f_btcb s)) (0 + Z.of_nat k)).
  { destruct H as [H1 H2]. eexists _, _, s'. split; [exact H1|]. right; left. split_and!; try done. by exists k. }
  destruct H as (H1 & L' & Hc & EL & Eb & _ & (st & Est) & _). eexists _, _, s'. split; [exact H1|]. left.
  rewrite Z.add_0_l, Nat2Z.id, Est. split_and!; try done.
  - cbn [flags with_stats allocated freed with_flags]. by rewrite Z.lor_spec, orb_true_r.
  - exists L'. split; [|done]. split; [done|]. rewrite EL. by destruct Hmap.
Qed.

(** FreeNode clears the bit of its node and no other, whatever map node the
    bit is in, counts the node into freeNodes and marks the header dirty. *)
Theorem FreeNode_clears s L num :
  io_fine s -> node_size_ok (f_btcb s) -> node_map s L -> len (map_bits L) <= UINT32_MAX ->
  0 <= num < len (map_bits L) ->
  exists s' L', FreeNode num s = Some (noErr, s') /\ node_map s' L' /\
    map_bits L' = <[Z.to_nat num := false]> (map_bits L) /\
    freeNodes (f_btcb s') = u32 (freeNodes (f_btcb s) + 1) /\ Z.testbit (flags (f_btcb s')) 0 = true.
Proof.
  intros Hio Hb Hmap Hmax Hnum.
  destruct (FreeNode_run s L num Hio Hb Hmap Hmax Hnum) as (s' & L' & Hrun & Hc & EL & Eb & _ & (st & Est) & _).
  exists s', L'. rewrite Est. split_and!; try done.
  - split; [done|]. rewrite EL. by destruct Hmap.
  - cbn [flags with_stats allocated freed with_flags]. by rewrite Z.lor_spec, orb_true_r.
Qed.

(** Freeing the node just allocated gives back the node map and the count of
    free nodes there were before. *)
Theorem allocate_free_roundtrip s L num s1 :
  io_fine s -> node_size_ok (f_btcb s) -> node_map s L -> len (map_bits L) <= UINT32_MAX ->
  0 < freeNodes (f_btcb s) <= UINT32_MAX ->
  AllocateNode s = Some ((noErr, num), s1) ->
  exists s2 L2, FreeNode num s1 = Some (noErr, s2) /\ node_map s2 L2 /\ map_bits L2 = map_bits L /\
    freeNodes (f_btcb s2) = freeNodes (f_btcb s).
Proof.
  intros Hio Hb Hmap Hmax Hfree Hrun.
  destruct (AllocateNode_run s L Hio Hb Hmap Hmax) as (s' & [(_ & H2 & _)|(k & Hk & H)]); [by rewrite Hrun in H2|].
  case_match; [by rewrite Hrun in H; destruct H|]. destruct H as (H1 & L' & Hc & EL & Eb & _ & (st & Est) & _ & Hio').
  rewrite Hrun in H1. injection H1 as -> ->. destruct Hk as [_ Hk]. pose proof (lookup_lt_Some _ _ _ Hk) as Hlt.
  assert (node_map s' L') as Hmap' by (split; [done|]; rewrite EL; by destruct Hmap).
  assert (length (map_bits L') = length (map_bits L)) as Elen by (rewrite Eb; by rewrite length_insert).
  destruct (FreeNode_run s' L' (0 + Z.of_nat k) Hio') as (s2 & L2 & Hrun2 & Hc2 & EL2 & Eb2 & _ & (st2 & Est2) & _);
    [by rewrite Est|done|rewrite Elen; lia|rewrite Elen; lia|].
  exists s2, L2. split_and!; [done| | |].
  - split; [done|]. rewrite EL2, EL. by destruct Hmap.
  - rewrite Eb2, Eb, Z.add_0_l, Nat2Z.id, list_insert_insert_eq. by apply list_insert_id.
  - rewrite Est2. simpl. rewrite Est. simpl. rewrite u32_pred_succ; [done|lia].
Qed.

(** ** Reserves *)

(** The nodes reserved of a file, over all threads. *)
Definition nr_total (mem : gmap Z nreserve) (btvp : Z) : Z :=
  map_fold (fun _ nr acc => (if bool_decide (nr_tag nr <> 0 /\ nr_btvp nr = btvp) then nr_nodecnt nr else 0) + acc) 0 mem.

Definition nr_weight (btvp : Z) (nr : nreserve) : Z :=
  if bool_decide (nr_tag nr <> 0 /\ nr_btvp nr = btvp) then nr_nodecnt nr else 0.

Lemma nr_total_insert mem btvp a nr :
  nr_total (<[a := nr]> mem) btvp = nr_weight btvp nr + nr_total (delete a mem) btvp.
Proof.
  rewrite <- insert_delete_eq. unfold nr_total at 1.
  rewrite map_fold_insert_L; [done| |apply lookup_delete_eq]. intros. lia.
Qed.

Lemma nr_total_lookup mem btvp a nr :
  mem !! a = Some nr -> nr_total mem btvp = nr_weight btvp nr + nr_total (delete a mem) btvp.
Proof. intros H. rewrite <- nr_total_insert. by rewrite insert_id. Qed.

Lemma nr_total_update mem btvp a nr nr' :
  mem !! a = Some nr -> nr_total (<[a := nr']> mem) btvp = nr_total mem btvp - nr_weight btvp nr + nr_weight btvp nr'.
Proof. intros H. rewrite nr_total_insert, (nr_total_lookup mem btvp a nr H). lia. Qed.

(** The struct not in the table counts for nothing. *)
Lemma nr_total_unused t btvp nrp nr' :
  nr_unused t nrp -> nr_total (<[nrp := nr']> (nr_mem t)) btvp = nr_total (nr_mem t) btvp + nr_weight btvp nr'.
Proof.
  intros Hun. destruct (nr_mem t !! nrp) as [nr|] eqn:E.
  - rewrite (nr_total_update _ _ _ nr) by done. unfold nr_weight at 1.
    rewrite bool_decide_eq_false_2; [lia|]. intros [Ht _]. by apply Ht, Hun.
  - rewrite nr_total_insert. rewrite delete_id by done. lia.
Qed.

Lemma nr_insert_total t tag btvp nrp cnt :
  nr_wf t -> tag <> 0 -> nr_unused t nrp -> s32 (nr_held t btvp tag + cnt) = nr_held t btvp tag + cnt ->
  nr_total (nr_mem (nr_insert t tag btvp nrp cnt)) btvp = nr_total (nr_mem t) btvp + cnt.
Proof.
  intros Hwf Htag Hun Hw. unfold nr_insert.
  destruct (nr_find _ _ _ _) as [[a nr]|] eqn:E; simpl.
  - apply nr_find_spec in E as (Ha & Ht & Hb); [|done|done].
    rewrite (nr_mem_unused t nrp _ Hun eq_refl). rewrite Ha. simpl.
    rewrite (nr_held_eq t btvp tag a nr Hwf Htag Ha Ht Hb) in Hw. rewrite Hw.
    rewrite (nr_total_update _ _ _ nr _ Ha). unfold nr_weight. simpl.
    rewrite !bool_decide_eq_true_2 by (by rewrite Ht). lia.
  - rewrite nr_total_unused by done. unfold nr_weight. simpl. by rewrite bool_decide_eq_true_2.
Qed.

Lemma nr_delete_total t tag btvp nrp cnt t' :
  nr_delete t tag btvp nrp = Some (cnt, t') ->
  nr_total (nr_mem t') btvp = nr_total (nr_mem t) btvp - cnt.
Proof.
  unfold nr_delete. destruct (nr_mem t !! nrp) as [nr|] eqn:En; [|done]. simpl.
  destruct (Z.eqb_spec (nr_tag nr) 0) as [|Hnt]; simpl; [intros [= <- <-]; lia|].
  destruct (Z.eqb_spec (nr_tag nr) tag) as [Et|]; [|done]. destruct (Z.eqb_spec (nr_btvp nr) btvp) as [Eb|]; [|done].
  simpl. intros [= <- <-]. simpl. rewrite (nr_total_update _ _ _ nr _ En). unfold nr_weight. simpl.
  rewrite (bool_decide_eq_true_2 (nr_tag nr <> 0 /\ nr_btvp nr = btvp)) by done. lia.
Qed.

Lemma nr_update_total t tag btvp cnt b :
  nr_wf t -> tag <> 0 -> nr_total (nr_mem (nr_update t tag btvp cnt)) b = nr_total (nr_mem t) b.
Proof.
  intros Hwf Htag. unfold nr_update. destruct (nr_find _ _ _ _) as [[a nr]|] eqn:E; [|done].
  apply nr_find_spec in E as (Ha & Ht & Hb); [|done|done]. simpl.
  rewrite (nr_total_update _ _ _ nr _ Ha). unfold nr_weight. simpl. lia.
Qed.

(** The invariant of the reserves: the control block's count is the sum of the
    reserves in the table. *)
Definition reserve_inv (s : btfile) : Prop :=
  nr_wf (f_nr s) /\ f_thread s <> 0 /\
  reservedNodes (f_btcb s) = u32 (nr_total (nr_mem (f_nr s)) (f_vnode s)).

(** Operations that leave the reserves alone. *)
Definition same_reserve (s s' : btfile) : Prop :=
  f_nr s' = f_nr s /\ f_thread s' = f_thread s /\ f_vnode s' = f_vnode s /\
  reservedNodes (f_btcb s') = reservedNodes (f_btcb s).

Definition keeps_reserve {A} (m : BT A) : Prop := forall s x s', m s = Some (x, s') -> same_reserve s s'.

Lemma same_reserve_trans s1 s2 s3 : same_reserve s1 s2 -> same_reserve s2 s3 -> same_reserve s1 s3.
Proof. intros (? & ? & ? & ?) (? & ? & ? & ?). split_and!; congruence. Qed.

Lemma keeps_bind {A B} (m : BT A) (f : A -> BT B) :
  keeps_reserve m -> (forall x, keeps_reserve (f x)) -> keeps_reserve (m ≫= f).
Proof.
  intros Hm Hf s y s'. unfold mbind, BT_bind. destruct (m s) as [[x s1]|] eqn:E; [|done].
  intros H. eapply same_reserve_trans; [by eapply Hm|by eapply Hf].
Qed.

Lemma keeps_exit {A} err (e k : BT A) : keeps_reserve e -> keeps_reserve k -> keeps_reserve (exit_on_error err e k).
Proof. intros H1 H2. unfold exit_on_error. by case_match. Qed.

Lemma keeps_if {A} (c : bool) (m1 m2 : BT A) :
  keeps_reserve m1 -> keeps_reserve m2 -> keeps_reserve (if c then m1 else m2).
Proof. by destruct c. Qed.

(** The primitive operations of the monad. *)
Lemma keeps_prim {A} :
  (forall x : A, keeps_reserve (mret x)) /\ (forall o : option A, keeps_reserve (lift o)) /\
  keeps_reserve (@fault A) /\ keeps_reserve btcb /\ keeps_reserve file /\ keeps_reserve io_result /\
  (forall r, keeps_reserve (buffer r)) /\ (forall r b, keeps_reserve (set_buffer r b)) /\
  (forall size n, keeps_reserve (empty_block size n)) /\ (forall eof, keeps_reserve (modify_file (with_eof eof))) /\
  (forall c, keeps_reserve (modify_file (with_clumpsize c))).
Proof.
  split_and!.
  - by intros y s x s' [= <- <-].
  - intros o s x s' H. unfold lift in H. destruct o; simpl in H; by simplify_eq.
  - done.
  - by intros s x s' [= <- <-].
  - by intros s x s' [= <- <-].
  - intros s x s'. unfold io_result. destruct (f_io s); by intros [= <- <-].
  - intros r s x s' H. unfold buffer in H. destruct r as [n|]; [|done]. simpl in H.
    destruct (f_nodes s !! n); simpl in H; by simplify_eq.
  - intros r b s x s' H. unfold set_buffer in H. destruct r; simpl in H; by simplify_eq.
  - by intros size n s x s' [= <- <-].
  - by intros eof s x s' [= <- <-].
  - by intros c s x s' [= <- <-].
Qed.

Lemma keeps_modify f :
  (forall b, reservedNodes (f b) = reservedNodes b) -> keeps_reserve (modify_btcb f).
Proof. intros Hf s x s' [= <- <-]. split_and!; try done. apply Hf. Qed.

Create HintDb reserve.

(** Goes through a program: binds, branches, matches and the primitives. *)
Ltac keeps_step :=
  match goal with
  | |- keeps_reserve (mbind _ _) => apply keeps_bind; [|intros ?]
  | |- keeps_reserve (exit_on_error _ _ _) => apply keeps_exit
  | |- keeps_reserve (if _ then _ else _) => apply keeps_if
  | |- keeps_reserve (modify_btcb _) => apply keeps_modify; done
  | |- keeps_reserve (match ?x with _ => _ end) => destruct x
  | |- keeps_reserve (let _ := _ in _) => cbv zeta
  | |- keeps_reserve ((fun _ => _) _) => cbv beta
  | _ => by eauto with reserve
  | _ => by apply (@keeps_prim unit)
  | _ => by apply (@keeps_prim _)
  end.
Ltac keeps := repeat keeps_step.

Lemma keeps_node_io nodeNum r :
  keeps_reserve (GetNode nodeNum 0) /\ keeps_reserve (GetNewNode nodeNum) /\
  keeps_reserve (ReleaseNode r) /\ keeps_reserve (UpdateNode r) /\ keeps_reserve M_BTreeHeaderDirty.
Proof.
  unfold GetNode, GetNewNode, ReleaseNode, UpdateNode, M_BTreeHeaderDirty.
  split_and!; keeps.
Qed.

Lemma keeps_node_access {A} r (f : bytes -> option bytes) (g : bytes -> option A) :
  keeps_reserve (update_node r f) /\ keeps_reserve (read_node r g).
Proof. unfold update_node, read_node. split; keeps. Qed.

#[global] Hint Extern 1 (keeps_reserve (update_node _ _)) => apply (@keeps_node_access unit _ _ (fun _ => None)) : reserve.
#[global] Hint Extern 1 (keeps_reserve (read_node _ _)) => apply (keeps_node_access _ (fun _ => None)) : reserve.
#[global] Hint Extern 1 (keeps_reserve (GetNode _ 0)) => apply (keeps_node_io _ None) : reserve.
#[global] Hint Extern 1 (keeps_reserve (GetNewNode _)) => apply (keeps_node_io _ None) : reserve.
#[global] Hint Extern 1 (keeps_reserve (ReleaseNode _)) => apply (keeps_node_io 0) : reserve.
#[global] Hint Extern 1 (keeps_reserve (UpdateNode _)) => apply (keeps_node_io 0) : reserve.
#[global] Hint Extern 1 (keeps_reserve M_BTreeHeaderDirty) => apply (keeps_node_io 0 None) : reserve.

Lemma keeps_UpdateHeader fw : keeps_reserve (UpdateHeader fw).
Proof. unfold UpdateHeader. keeps. Qed.

Lemma keeps_GetMapNode r : keeps_reserve (GetMapNode r).
Proof. unfold GetMapNode, GetMapNode_exit. keeps. Qed.

#[global] Hint Resolve keeps_UpdateHeader keeps_GetMapNode : reserve.

Lemma keeps_ExtendBTree_count r t fuel : keeps_reserve (ExtendBTree_count r t fuel).
Proof. revert r t. induction fuel; intros r t; cbn [ExtendBTree_count]; keeps. Qed.

Lemma keeps_ExtendBTree_init n l fuel : keeps_reserve (ExtendBTree_init n l fuel).
Proof. revert n l. induction fuel; intros n l; cbn [ExtendBTree_init]; keeps. Qed.

Lemma keeps_ExtendBTree_seek p n fuel : keeps_reserve (ExtendBTree_seek p n fuel).
Proof. revert p n. induction fuel; intros p n; cbn [ExtendBTree_seek]; keeps. Qed.

#[global] Hint Resolve keeps_ExtendBTree_count keeps_ExtendBTree_init keeps_ExtendBTree_seek : reserve.

Lemma keeps_ExtendBTree_mark p n l fuel : keeps_reserve (ExtendBTree_mark p n l fuel).
Proof. revert p n l. induction fuel; intros p n l; cbn [ExtendBTree_mark]; keeps. Qed.

#[global] Hint Resolve keeps_ExtendBTree_mark : reserve.

Lemma keeps_ExtendBTree eofproc n : keeps_reserve (ExtendBTree eofproc n).
Proof.
  unfold ExtendBTree, ExtendBTree_map, ExtendBTree_success, ExtendBTree_exit. keeps.
Qed.

(** BTReserveSpace: when the tree has the nodes, it succeeds. *)
Lemma BTReserveSpace_enough eofproc v ops data s :
  rsrv_nodes (treeDepth (f_btcb s)) ops <= s32 (u32 (freeNodes (f_btcb s) - reservedNodes (f_btcb s))) ->
  exists s', BTReserveSpace eofproc v ops data s = Some (noErr, s').
Proof.
  intros H. unfold BTReserveSpace. do 2 (erewrite bind_run by reflexivity).
  destruct (Z.ltb_spec (s32 (u32 (freeNodes (f_btcb s) - reservedNodes (f_btcb s))))
    (rsrv_nodes (treeDepth (f_btcb s)) ops)); [lia|].
  erewrite bind_run by reflexivity. simpl. destruct data; by eexists.
Qed.

Lemma reserve_inv_same s s' : reserve_inv s -> same_reserve s s' -> reserve_inv s'.
Proof. intros (H1 & H2 & H3) (E1 & E2 & E3 & E4). unfold reserve_inv. rewrite E1, E2, E3, E4. done. Qed.

Lemma u32_add_idemp x y : u32 (u32 x + y) = u32 (x + y).
Proof. unfold u32, wrap. by rewrite Z.add_mod_idemp_l. Qed.

Lemma keeps_BTReserveSpace_grow eofproc v ops rsrv avail : keeps_reserve (BTReserveSpace_grow eofproc v ops rsrv avail).
Proof. pose proof keeps_ExtendBTree. unfold BTReserveSpace_grow. keeps. Qed.

Lemma BTReserveSpace_grow_exit eofproc v ops rsrv avail s e s' :
  BTReserveSpace_grow eofproc v ops rsrv avail s = Some ((e, true), s') -> e = ENOSPC.
Proof.
  unfold BTReserveSpace_grow. do 2 (erewrite bind_run by reflexivity). cbv zeta.
  case_match; [by intros [= <- _]|]. case_match; [by intros [= <- _]|].
  unfold mbind, BT_bind. by repeat case_match.
Qed.

(** What a call that returns has done: the growth kept the reserves, and the
    reserve was recorded when there was no error. *)
Lemma BTReserveSpace_returns eofproc v ops nrp s err s' :
  BTReserveSpace eofproc v ops (Some nrp) s = Some (err, s') ->
  let rsrv := rsrv_nodes (treeDepth (f_btcb s)) ops in
  (err <> noErr /\ same_reserve s s') \/
  (err = noErr /\ f_thread s' = f_thread s /\ f_vnode s' = f_vnode s /\
   f_nr s' = nr_insert (f_nr s) (f_thread s) (f_vnode s) nrp rsrv /\
   reservedNodes (f_btcb s') = u32 (reservedNodes (f_btcb s) + rsrv)).
Proof.
  unfold BTReserveSpace. do 2 (erewrite bind_run by reflexivity). cbv zeta.
  set (rsrv := rsrv_nodes _ _). set (avail := s32 _).
  set (grow := if avail <? rsrv then _ else _).
  assert (forall s1 e r, grow s = Some ((e, r), s1) -> same_reserve s s1 /\ (r = true -> e <> noErr)) as Hgrow.
  { intros s1 e r. subst grow. case_match; [|by intros [= <- <- <-]]. intros Hg.
    split; [by eapply keeps_BTReserveSpace_grow|]. intros ->. by rewrite (BTReserveSpace_grow_exit _ _ _ _ _ _ _ _ Hg). }
  unfold mbind at 1, BT_bind at 1. destruct (grow s) as [[[e r] s1]|] eqn:Eg; [|done].
  destruct (Hgrow s1 e r eq_refl) as [Hs1 Hr]. destruct r; [intros [= <- <-]; left; by auto|].
  destruct (Z.eqb_spec e noErr) as [->|Hne].
  - intros [= <- <-]. right. destruct Hs1 as (E1 & E2 & E3 & E4). simpl. rewrite E1, E2, E3, E4. done.
  - intros [= <- <-]. left. split; [done|]. eapply same_reserve_trans; [exact Hs1|done].
Qed.

(** BTReserveSpace keeps the control block's count of reserved nodes equal to
    the sum of the reserves in the table, whatever growing the tree did: when it
    succeeds the thread holds the nodes it asked for in addition to those it held,
    and nobody else's reserve changes; when it fails no reserve changes.  It does
    succeed when the tree has enough free nodes. *)
Theorem BTReserveSpace_reserves eofproc v ops nrp s :
  reserve_inv s -> nr_unused (f_nr s) nrp ->
  let rsrv := rsrv_nodes (treeDepth (f_btcb s)) ops in
  let held := nr_held (f_nr s) (f_vnode s) (f_thread s) in
  s32 (held + rsrv) = held + rsrv ->
  (rsrv <= s32 (u32 (freeNodes (f_btcb s) - reservedNodes (f_btcb s))) ->
   exists s', BTReserveSpace eofproc v ops (Some nrp) s = Some (noErr, s')) /\
  forall err s', BTReserveSpace eofproc v ops (Some nrp) s = Some (err, s') ->
    reserve_inv s' /\
    forall btvp tag, tag <> 0 ->
      nr_held (f_nr s') btvp tag =
      nr_held (f_nr s) btvp tag +
      (if decide (err = noErr /\ btvp = f_vnode s /\ tag = f_thread s) then rsrv else 0).
Proof.
  intros Hinv Hun rsrv held Hw. split; [apply BTReserveSpace_enough|].
  intros err s' Hrun. pose proof Hinv as (Hwf & Htag & Hsum).
  destruct (BTReserveSpace_returns _ _ _ _ _ _ _ Hrun) as [[Hne Hs]|(-> & E1 & E2 & E3 & E4)].
  - split; [by eapply reserve_inv_same|]. intros btvp tag Ht. destruct Hs as (-> & _).
    case_decide as Hd; [by destruct Hd|lia].
  - split.
    + unfold reserve_inv. rewrite E1, E2, E3, E4. split_and!; [by apply nr_insert_wf|done|].
      rewrite nr_insert_total by done. rewrite Hsum. apply u32_add_idemp.
    + intros btvp tag Ht. rewrite E3, nr_insert_held by done. f_equal.
      do 2 case_decide; try done; naive_solver.
Qed.

(** BTReleaseReserve gives back exactly what the caller's struct holds: the
    count in the control block stays the sum of the reserves, the thread's reserve is
    gone and nobody else's changes. *)
Theorem BTReleaseReserve_releases nrp s nr :
  reserve_inv s -> nr_mem (f_nr s) !! nrp = Some nr -> nr_tag nr = f_thread s -> nr_btvp nr = f_vnode s ->
  exists s', BTReleaseReserve nrp s = Some (0, s') /\ reserve_inv s' /\
    reservedNodes (f_btcb s') = u32 (reservedNodes (f_btcb s) - nr_nodecnt nr) /\
    nr_held (f_nr s') (f_vnode s) (f_thread s) = 0 /\
    forall btvp tag, tag <> 0 -> (btvp, tag) <> (f_vnode s, f_thread s) ->
      nr_held (f_nr s') btvp tag = nr_held (f_nr s) btvp tag.
Proof.
  intros (Hwf & Htag & Hsum) Hmem Ht Hb.
  destruct (nr_delete (f_nr s) (f_thread s) (f_vnode s) nrp) as [[cnt t]|] eqn:Hdel.
  2:{ unfold nr_delete in Hdel. rewrite Hmem in Hdel. simpl in Hdel. rewrite Ht, Hb, !Z.eqb_refl in Hdel.
      destruct (Z.eqb_spec (f_thread s) 0); done. }
  assert (cnt = nr_nodecnt nr) as ->.
  { unfold nr_delete in Hdel. rewrite Hmem in Hdel. simpl in Hdel. rewrite Ht, Hb, !Z.eqb_refl in Hdel.
    destruct (Z.eqb_spec (f_thread s) 0); [done|]. simpl in Hdel. by injection Hdel. }
  pose proof (nr_delete_wf _ _ _ _ _ _ Hwf Hdel) as Hwf'.
  pose proof (nr_delete_held _ _ _ _ _ _ Hwf Htag Hdel) as [_ Hheld].
  pose proof (nr_delete_total _ _ _ _ _ _ Hdel) as Htot.
  pose proof (nr_held_eq _ _ _ _ _ Hwf Htag Hmem Ht Hb) as Hh.
  assert (exists s', BTReleaseReserve nrp s = Some (0, s') /\ f_nr s' = t /\ f_thread s' = f_thread s /\
    f_vnode s' = f_vnode s /\ reservedNodes (f_btcb s') = u32 (reservedNodes (f_btcb s) - nr_nodecnt nr))
    as (s' & Hrun & E1 & E2 & E3 & E4).
  { unfold BTReleaseReserve. erewrite bind_run by reflexivity.
    rewrite (bind_run _ _ s (nr_nodecnt nr, t) s) by (unfold lift; by rewrite Hdel).
    erewrite bind_run by reflexivity. destruct (Z.eqb_spec (nr_nodecnt nr) 0) as [E0|]; simpl.
    - eexists. split; [reflexivity|]. simpl. split_and!; try done.
      rewrite E0, Z.sub_0_r, Hsum. symmetry. apply u32_id. apply u32_bound.
    - by eexists. }
  exists s'. split; [done|]. unfold reserve_inv. rewrite E1, E2, E3, E4. split_and!; try done.
  - rewrite Htot, Hsum. rewrite <- !Z.add_opp_r. apply u32_add_idemp.
  - rewrite Hheld by done. rewrite decide_True by done. lia.
  - intros btvp tag Htg Hne. rewrite Hheld by done. rewrite decide_False; [lia|]. intros [-> ->]. done.
Qed.

(** ** Witnesses: a tree of 64 nodes of 512 bytes, nodes 0 to 3 in use *)

Definition ex_map : list Z := 0x00F0 :: replicate 127 0.
Definition ex_header : bytes :=
  node_bytes (le32 0 ++ le32 0 ++ [1; 0]) [0; 0] [replicate 106 0; replicate 128 0; words ex_map] [].
Definition ex_btcb : BTreeControlBlock := {|
  treeDepth := 2; rootNode := 3; leafRecords := 2; firstLeafNode := 1; lastLeafNode := 2;
  nodeSize := 512; maxKeyLength := 10; totalNodes := 64; freeNodes := 60; btreeType := 0;
  flags := 0; attributes := 2; writeCount := 0; reservedNodes := 5;
  stats := mkStats 0 0 0 0 0 0 0 0 |}.
Definition ex_nr : nr_table :=
  mkNRT 15 {[ NR_HASH (mkNRT 15 ∅ ∅) 0x500 0x70 := [1000] ]} {[ 1000 := mkNR 5 0 0x500 0x70 ]}.
Definition ex_file : btfile := {|
  f_btcb := ex_btcb; f_nodes := {[ 0 := ex_header ]}; f_io := []; f_eof := 32768; f_clumpsize := 4096;
  f_vnode := 0x500; f_thread := 0x70; f_nr := ex_nr |}.
Definition ex_L : list (Z * list Z) := [(0, ex_map)].

Lemma ex_node_map : node_map ex_file ex_L.
Proof.
  split.
  - apply map_chain_last. exists (le32 0 ++ le32 0 ++ [1; 0]), [0; 0], [replicate 106 0; replicate 128 0], [], ex_header.
    split_and!; try done; [by exists []|]. repeat (apply Forall_cons; split; [done|]). by apply Forall_nil.
  - apply NoDup_singleton.
Qed.

Lemma ex_reserve_inv : reserve_inv ex_file.
Proof.
  split_and!; [|done|reflexivity]. split.
  - intros h a. unfold nr_chain, ex_file, ex_nr. simpl.
    destruct (decide (h = NR_HASH (mkNRT 15 ∅ ∅) 0x500 0x70)) as [->|Hne].
    + rewrite lookup_singleton_eq. simpl. intros ->%list_elem_of_singleton. eexists. by rewrite lookup_singleton_eq.
    + rewrite lookup_singleton_ne by done. simpl. by intros ?%elem_of_nil.
  - intros a nr. unfold nr_chain, ex_file, ex_nr. simpl. intros [<- <-]%lookup_singleton_Some _.
    unfold NR_HASH. simpl. left.
  - intros a1 a2 n1 n2. simpl. by intros [<- <-]%lookup_singleton_Some [<- <-]%lookup_singleton_Some.
Qed.

Lemma ex_size_ok : node_size_ok ex_btcb.
Proof. by vm_compute. Qed.

Lemma AllocateNode_first_free_witness : exists s', AllocateNode ex_file = Some ((noErr, 4), s').
Proof.
  destruct (AllocateNode_first_free ex_file ex_L) as (err & num & s' & E & _);
    [done|apply ex_size_ok|apply ex_node_map|by vm_compute|].
  exists s'. rewrite E. assert (fst <$> AllocateNode ex_file = Some (noErr, 4)) as E' by (by vm_compute).
  rewrite E in E'. injection E' as -> ->. done.
Defined.

Lemma FreeNode_clears_witness : exists s' L', FreeNode 3 ex_file = Some (noErr, s') /\ node_map s' L' /\
  map_bits L' = <[3%nat := false]> (map_bits ex_L).
Proof.
  destruct (FreeNode_clears ex_file ex_L 3) as (s' & L' & E & Hm & Hb & _);
    [done|apply ex_size_ok|apply ex_node_map|by vm_compute|by vm_compute|]. by exists s', L'.
Defined.

Definition ex_allocated : btfile := default ex_file (snd <$> AllocateNode ex_file).

Lemma allocate_free_roundtrip_witness : exists s2 L2, FreeNode 4 ex_allocated = Some (noErr, s2) /\
  node_map s2 L2 /\ map_bits L2 = map_bits ex_L /\ freeNodes (f_btcb s2) = 60.
Proof.
  apply (allocate_free_roundtrip ex_file ex_L 4 ex_allocated);
    [done|apply ex_size_ok|apply ex_node_map|by vm_compute|by vm_compute|].
  by vm_compute.
Defined.

(** A setEndOfForkProc that grows the fork to the size asked for. *)
Definition ex_eofproc : SetEndOfForkProc := fun _ _ minEOF _ => (noErr, minEOF).

Lemma BTReserveSpace_reserves_witness :
  (exists s', BTReserveSpace ex_eofproc (mkSpace 1000000 4096 900000) 1 (Some 2000) ex_file = Some (noErr, s')) /\
  forall err s', BTReserveSpace ex_eofproc (mkSpace 1000000 4096 900000) 1 (Some 2000) ex_file = Some (err, s') ->
    reserve_inv s'.
Proof.
  destruct (BTReserveSpace_reserves ex_eofproc (mkSpace 1000000 4096 900000) 1 2000 ex_file) as [H1 H2];
    [apply ex_reserve_inv|by intros nr ?|by vm_compute|].
  split; [apply H1; by vm_compute|]. intros err s' Hrun. by destruct (H2 err s' Hrun).
Defined.

Lemma BTReleaseReserve_releases_witness : exists s', BTReleaseReserve 1000 ex_file = Some (0, s') /\
  reserve_inv s' /\ reservedNodes (f_btcb s') = 0.
Proof.
  destruct (BTReleaseReserve_releases 1000 ex_file (mkNR 5 0 0x500 0x70)) as (s' & H1 & H2 & H3 & _);
    [apply ex_reserve_inv|done|done|done|]. by exists s'.
Defined.
