(* ===== verification/BTTree.v ===== *)
(** * Tree operations (core/BTreeTreeOps.c)

    Searching a path from the root to a leaf, inserting a record with the
    splits and parent updates it causes, and deleting one with the nodes it
    empties.  Records are passed by pointer in the source: the bytes a pointer
    gives access to are passed here, since none of them is changed while it is
    in use. *)

From S2P Require Import Prelude HfsFormat Bytes BTNode BTRotate NodeReserve BTStore BTAlloc.

(** ** Tree path table *)

(** TreePathRecord: node and index; the table has kMaxTreeDepth of them. *)
Notation TreePathTable := (list (Z * Z)).

Definition new_path : TreePathTable := replicate kMaxTreeDepth (0, 0).

Definition tpt_get (t : TreePathTable) (level : Z) : option (Z * Z) :=
  if 0 <=? level then t !! Z.to_nat level else None.

Definition tpt_set (t : TreePathTable) (level : Z) (x : Z * Z) : option TreePathTable :=
  _ ← tpt_get t level; Some (<[Z.to_nat level := x]> t).

(** ** SearchTree *)

(** The error, the path, the leaf's number and descriptor, and the index. *)
Record search_out := mkSearch {
  so_err : Z;
  so_path : TreePathTable;
  so_nodeNum : Z;
  so_node : NodeRec;
  so_index : Z;
}.

Definition search_fail (err : Z) (path : TreePathTable) : BT search_out :=
  mret (mkSearch err path 0 None 0).

(** ReleaseAndExit *)
Definition search_release (err : Z) (path : TreePathTable) (nodeRec : NodeRec) : BT search_out :=
  _ ← ReleaseNode nodeRec; search_fail err path.

(** One level of the search and the levels below it; [level] is the height the
    node must have. *)
Fixpoint SearchTree_loop (cmp : KeyCompareProc) (searchKey : bytes) (path : TreePathTable)
    (curNodeNum level : Z) (fuel : nat) : BT search_out :=
  match fuel with
  | O => fault
  | S fuel =>
      if curNodeNum =? 0 then search_fail btBadNode path else
      '(err, nodeRec) ← GetNode curNodeNum 0;
      if negb (err =? noErr) then search_fail err path else
      b ← btcb;
      height ← read_node nodeRec nd_height;
      if negb (height =? level) then search_release btBadNode path nodeRec else
      nodeKind ← read_node nodeRec nd_kind;
      if (if level =? 1 then negb (nodeKind =? kBTLeafNode) else negb (nodeKind =? kBTIndexNode))
      then search_release btBadNode path nodeRec else
      '(keyFound, index) ← read_node nodeRec (fun n => SearchNode cmp b n searchKey);
      path ← lift (tpt_set path level (curNodeNum, snd (default (0, 0) (tpt_get path level))));
      if nodeKind =? kBTLeafNode then
        path ← lift (tpt_set path level (curNodeNum, index));
        mret (mkSearch (if (keyFound : bool) then noErr else fsBTRecordNotFoundErr) path curNodeNum nodeRec index)
      else
      let index := if negb keyFound && negb (index =? 0) then u16 (index - 1) else index in
      path ← lift (tpt_set path level (curNodeNum, index));
      r ← read_node nodeRec (fun n => GetRecordByIndex b n index);
      match r with
      | inl err => _ ← TrashNode nodeRec; search_fail err path
      | inr (_, dataPtr, _) =>
          curNodeNum ← read_node nodeRec (fun n => ld32 n dataPtr);
          '(err, nodeRec) ← ReleaseNode nodeRec;
          if negb (err =? noErr) then search_fail err path else
          SearchTree_loop cmp searchKey path curNodeNum (level - 1) fuel
      end
  end.

(** The height a node must have goes down by one at each level and a node of
    height 1 must be a leaf, so treeDepth + 1 turns are enough. *)
Definition SearchTree (cmp : KeyCompareProc) (searchKey : bytes) (path : TreePathTable) : BT search_out :=
  b ← btcb;
  if treeDepth b =? 0 then search_fail fsBTEmptyErr path else
  path ← lift (tpt_set path 0 (0, 0));
  SearchTree_loop cmp searchKey path (rootNode b) (treeDepth b) (S (Z.to_nat (treeDepth b))).

(** ** SplitLeft *)

Record split_out := mkSplit {
  sp_err : Z;
  sp_left : NodeRec;
  sp_right : NodeRec;
  sp_insertIndex : Z;
  sp_insertNodeNum : Z;
  sp_recsRotated : Z;
}.

Definition SplitLeft_exit (err : Z) (leftNode rightNode : NodeRec) : BT split_out :=
  '(_, leftNode) ← ReleaseNode leftNode;
  '(_, rightNode) ← ReleaseNode rightNode;
  mret (mkSplit err leftNode rightNode 0 0 0).

(** The checks on the two nodes. *)
Definition SplitLeft_check (leftNode rightNode : NodeRec) (rightNodeNum : Z) : BT bool :=
  rheight ← read_node rightNode nd_height;
  rkind ← read_node rightNode nd_kind;
  if (rheight =? 1) && negb (rkind =? kBTLeafNode) then mret false else
  match leftNode with
  | None => mret true
  | Some _ =>
      fLink ← read_node leftNode nd_fLink;
      lheight ← read_node leftNode nd_height;
      lkind ← read_node leftNode nd_kind;
      mret ((fLink =? rightNodeNum) && (lheight =? rheight) && (lkind =? rkind))
  end.

(** Initialize the new left node with the links, kind and height of the right. *)
Definition SplitLeft_init (leftNode rightNode : NodeRec) (rightNodeNum newNodeNum : Z) : BT unit :=
  rbLink ← read_node rightNode nd_bLink;
  rkind ← read_node rightNode nd_kind;
  rheight ← read_node rightNode nd_height;
  _ ← update_node leftNode (fun n =>
        n ← set_fLink n rightNodeNum;
        n ← set_bLink n rbLink;
        n ← set_kind n rkind;
        set_height n rheight);
  _ ← update_node rightNode (fun n => set_bLink n newNodeNum);
  if (rkind =? kBTLeafNode) && (rbLink =? 0) then
    _ ← modify_btcb (with_firstLeafNode newNodeNum);
    M_BTreeHeaderDirty
  else mret tt.

(** RotateLeft on the buffers of two descriptors. *)
Definition rotate_nodes (leftNode rightNode : NodeRec) (index : Z) (keyPtr recPtr : bytes) (recSize : Z)
    : BT rotate_result :=
  b ← btcb;
  left ← buffer leftNode;
  right ← buffer rightNode;
  res ← lift (RotateLeft b left right index keyPtr recPtr recSize);
  _ ← set_buffer leftNode (rot_left res);
  _ ← set_buffer rightNode (rot_right res);
  mret res.

Definition SplitLeft (leftNode rightNode : NodeRec) (rightNodeNum index : Z)
    (keyPtr recPtr : bytes) (recSize : Z) : BT split_out :=
  ok ← SplitLeft_check leftNode rightNode rightNodeNum;
  if negb ok then mret (mkSplit fsBTInvalidNodeErr leftNode rightNode 0 0 0) else
  '(err, newNodeNum) ← AllocateNode;
  exit_on_error err (SplitLeft_exit err leftNode rightNode) (
  '(err, leftNode) ← (match leftNode with
                      | Some _ =>
                          _ ← update_node leftNode (fun n => set_fLink n newNodeNum);
                          UpdateNode leftNode
                      | None => mret (noErr, None)
                      end);
  exit_on_error err (SplitLeft_exit err leftNode rightNode) (
  '(err, leftNode) ← GetNewNode newNodeNum;
  exit_on_error err (SplitLeft_exit err leftNode rightNode) (
  _ ← SplitLeft_init leftNode rightNode rightNodeNum newNodeNum;
  res ← rotate_nodes leftNode rightNode index keyPtr recPtr recSize;
  exit_on_error (rot_err res) (SplitLeft_exit (rot_err res) leftNode rightNode) (
  mret (mkSplit noErr leftNode rightNode (rot_insertIndex res) (rot_insertNodeNum res)
          (rot_recsRotated res)))))).

(** ** AddNewRootNode *)

Definition AddNewRootNode (leftNode rightNode : NodeRec) : BT Z :=
  '(err, rootNum) ← AllocateNode;
  if negb (err =? noErr) then mret err else
  '(err, root) ← GetNewNode rootNum;
  if negb (err =? noErr) then mret err else
  _ ← modify_btcb (fun b => with_treeDepth (u16 (treeDepth b + 1)) b);
  b ← btcb;
  _ ← update_node root (fun n => n ← set_kind n kBTIndexNode; set_height n (treeDepth b));
  left ← buffer leftNode;
  right ← buffer rightNode;
  let index_record idx node ptr := update_node root (fun n =>
    off ← GetRecordAddress b node 0;
    let keyPtr := drop (Z.to_nat off) node in
    keyLength ← GetKeyLength b keyPtr false;
    '(_, n) ← InsertKeyRecord b n idx keyPtr keyLength (le32 ptr) 4;
    Some n) in
  rbLink ← lift (nd_bLink right);
  _ ← index_record 0 left rbLink;
  lfLink ← lift (nd_fLink left);
  _ ← index_record 1 right lfLink;
  '(err, _) ← UpdateNode root;
  if negb (err =? noErr) then mret err else
  _ ← modify_btcb (with_rootNode rootNum);
  _ ← M_BTreeHeaderDirty;
  mret noErr.

(** ** InsertNode *)

Record InsertKey := mkInsertKey {
  ik_keyPtr : bytes;
  ik_keyLength : Z;
  ik_recPtr : bytes;
  ik_recSize : Z;
  ik_replacingKey : bool;
  ik_skipRotate : bool;
}.

(** The results of InsertNode; updateParent and insertParent are in-out. *)
Record insert_out := mkInsert {
  in_err : Z;
  in_left : NodeRec;
  in_right : NodeRec;
  in_newNode : Z;
  in_newIndex : Z;
  in_updateParent : bool;
  in_insertParent : bool;
  in_rootSplit : bool;
}.

Definition InsertNode_exit (err : Z) (leftNode rightNode : NodeRec) (updateParent insertParent : bool)
    : BT insert_out :=
  '(_, leftNode) ← ReleaseNode leftNode;
  mret (mkInsert err leftNode rightNode 0 0 updateParent insertParent false).

(** Whether the parent's key changes when the record went by a rotation. *)
Definition parent_changes (key : InsertKey) (recsRotated index : Z) : bool :=
  ik_replacingKey key || (1 <? recsRotated) || (0 <? index).

(** Try Split Left *)
Definition InsertNode_split (key : InsertKey) (leftNode rightNode : NodeRec) (node index : Z)
    (updateParent insertParent : bool) : BT insert_out :=
  sp ← SplitLeft leftNode rightNode node index (ik_keyPtr key) (ik_recPtr key) (ik_recSize key);
  let leftNode := sp_left sp in
  let rightNode := sp_right sp in
  exit_on_error (sp_err sp) (InsertNode_exit (sp_err sp) leftNode rightNode updateParent insertParent) (
  b ← btcb;
  height ← read_node rightNode nd_height;
  if height =? treeDepth b then
    err ← AddNewRootNode leftNode rightNode;
    exit_on_error err (InsertNode_exit err leftNode rightNode updateParent insertParent) (
    mret (mkInsert noErr leftNode rightNode (sp_insertNodeNum sp) (sp_insertIndex sp)
            updateParent insertParent true))
  else
    mret (mkInsert noErr leftNode rightNode (sp_insertNodeNum sp) (sp_insertIndex sp)
            (updateParent || parent_changes key (sp_recsRotated sp) index) true false)).

(** Try Rotate Left, with a left sibling *)
Definition InsertNode_rotate (key : InsertKey) (leftNode rightNode : NodeRec) (leftNodeNum node index : Z)
    (updateParent insertParent : bool) : BT insert_out :=
  '(err, leftNode) ← (match leftNode with
                      | None => GetNode leftNodeNum 0
                      | Some _ => mret (noErr, leftNode)
                      end);
  exit_on_error err (InsertNode_exit err leftNode rightNode updateParent insertParent) (
  if negb (ik_skipRotate key) then
    res ← rotate_nodes leftNode rightNode index (ik_keyPtr key) (ik_recPtr key) (ik_recSize key);
    exit_on_error (rot_err res) (InsertNode_exit (rot_err res) leftNode rightNode updateParent insertParent) (
    if rot_recordFit res then
      mret (mkInsert noErr leftNode rightNode (rot_insertNodeNum res) (rot_insertIndex res)
              (updateParent || parent_changes key (rot_recsRotated res) index) insertParent false)
    else InsertNode_split key leftNode rightNode node index updateParent insertParent)
  else InsertNode_split key leftNode rightNode node index updateParent insertParent).

Definition InsertNode (key : InsertKey) (rightNode : NodeRec) (node index : Z) (leftNode : NodeRec)
    (updateParent insertParent : bool) : BT insert_out :=
  b ← btcb;
  leftNodeNum ← read_node rightNode nd_bLink;
  if (node =? leftNodeNum) && negb (bool_decide (is_Some leftNode))
  then InsertNode_exit fsBTInvalidNodeErr leftNode rightNode updateParent insertParent else
  let targetNode := if node =? leftNodeNum then leftNode else rightNode in
  target ← buffer targetNode;
  '(recordFit, target) ← lift (InsertKeyRecord b target index (ik_keyPtr key) (ik_keyLength key)
                                 (ik_recPtr key) (ik_recSize key));
  _ ← set_buffer targetNode target;
  if (recordFit : bool) then
    height ← lift (nd_height target);
    mret (mkInsert noErr leftNode rightNode node index
            (updateParent || ((index =? 0) && negb (height =? treeDepth b))) insertParent false)
  else if 0 <? leftNodeNum
  then InsertNode_rotate key leftNode rightNode leftNodeNum node index updateParent insertParent
  else InsertNode_split key leftNode rightNode node index updateParent insertParent.

(** ** InsertLevel *)

Definition InsertLevel_exit (err : Z) (targetNode leftNode : NodeRec) (insertNode : Z) : BT (Z * NodeRec * Z) :=
  '(_, targetNode) ← ReleaseNode targetNode;
  _ ← ReleaseNode leftNode;
  mret (err, targetNode, insertNode).

(** The end of InsertLevel: both nodes are done. *)
Definition InsertLevel_done (targetNode leftNode : NodeRec) (insertNode : Z) : BT (Z * NodeRec * Z) :=
  '(err, targetNode) ← UpdateNode targetNode;
  exit_on_error err (InsertLevel_exit err targetNode leftNode insertNode) (
  '(err, leftNode) ← UpdateNode leftNode;
  exit_on_error err (InsertLevel_exit err targetNode leftNode insertNode) (
  mret (noErr, targetNode, insertNode))).

(** The key of the first record of a node, for the parent's index record. *)
Definition parent_key (b : BTreeControlBlock) (node : bytes) (ptr : Z) (replacing skip : bool) : option InsertKey :=
  off ← GetRecordAddress b node 0;
  let keyPtr := drop (Z.to_nat off) node in
  keyLength ← GetKeyLength b keyPtr false;
  Some (mkInsertKey keyPtr keyLength (le32 ptr) 4 replacing skip).

(** The keys to insert in the parent: the primary, and a secondary when the
    record of the target changes and a node was added. *)
Definition parent_keys (targetNode leftNode : NodeRec) (targetNodeNum : Z)
    (updateParent insertParent : bool) : BT (InsertKey * option InsertKey) :=
  b ← btcb;
  target ← buffer targetNode;
  let insert_key :=
    left ← buffer leftNode;
    bLink ← lift (nd_bLink target);
    lift (parent_key b left bLink false false) in
  if updateParent then
    primary ← lift (parent_key b target targetNodeNum true insertParent);
    if insertParent then secondary ← insert_key; mret (primary, Some secondary)
    else mret (primary, None)
  else primary ← insert_key; mret (primary, None).

(** [insertNode] is set at level 1 only; the results are the error, the target's
    descriptor and insertNode. *)
Fixpoint InsertLevel (path : TreePathTable) (primaryKey : InsertKey) (secondaryKey : option InsertKey)
    (targetNode : NodeRec) (index level insertNode : Z) (fuel : nat) : BT (Z * NodeRec * Z) :=
  match fuel with
  | O => fault
  | S fuel =>
      '(targetNodeNum, _) ← lift (tpt_get path level);
      out ← InsertNode primaryKey targetNode targetNodeNum index None false false;
      exit_on_error (in_err out) (InsertLevel_exit (in_err out) (in_right out) (in_left out) insertNode) (
      b ← btcb;
      path ← (if in_rootSplit out then lift (tpt_set path (level + 1) (rootNode b, 1)) else mret path);
      let insertNode := if level =? 1 then in_newNode out else insertNode in
      out ← (match secondaryKey with
             | Some key => InsertNode key (in_right out) (in_newNode out) (in_newIndex out) (in_left out)
                             (in_updateParent out) (in_insertParent out)
             | None => mret out
             end);
      exit_on_error (in_err out) (InsertLevel_exit (in_err out) (in_right out) (in_left out) insertNode) (
      let targetNode := in_right out in
      let leftNode := in_left out in
      if in_insertParent out || in_updateParent out then
        let level := level + 1 in
        '(parentNodeNum, index) ← lift (tpt_get path level);
        '(err, parentNode) ← GetNode parentNodeNum 0;
        exit_on_error err (InsertLevel_exit err targetNode leftNode insertNode) (
        b ← btcb;
        _ ← (if in_updateParent out then update_node parentNode (fun n => DeleteRecord b n index) else mret tt);
        '(primaryKey, secondaryKey) ←
          parent_keys targetNode leftNode targetNodeNum (in_updateParent out) (in_insertParent out);
        '(err, _, insertNode) ← InsertLevel path primaryKey secondaryKey parentNode index level insertNode fuel;
        exit_on_error err (InsertLevel_exit err targetNode leftNode insertNode) (
        InsertLevel_done targetNode leftNode insertNode))
      else InsertLevel_done targetNode leftNode insertNode))
  end.

(** ** InsertTree *)

(** The levels above [level] are at most the depth of the tree and a new root. *)
Definition InsertTree (path : TreePathTable) (keyPtr recPtr : bytes) (recSize : Z) (targetNode : NodeRec)
    (index level : Z) (replacingKey : bool) : BT (Z * NodeRec * Z) :=
  b ← btcb;
  keyLength ← lift (GetKeyLength b keyPtr (level =? 1));
  InsertLevel path (mkInsertKey keyPtr keyLength recPtr recSize replacingKey false) None targetNode index level 0
    (S (S (Z.to_nat (treeDepth b)))).

(** ** CollapseTree *)

Definition CollapseTree_exit (err : Z) (blockPtr : NodeRec) : BT (Z * NodeRec) :=
  '(_, blockPtr) ← ReleaseNode blockPtr; mret (err, blockPtr).

Fixpoint CollapseTree_loop (blockPtr : NodeRec) (fuel : nat) : BT (Z * NodeRec) :=
  match fuel with
  | O => fault
  | S fuel =>
      numRecords ← read_node blockPtr nd_numRecords;
      kind ← read_node blockPtr nd_kind;
      if (1 <? numRecords) || (kind =? kBTLeafNode) then mret (noErr, blockPtr) else
      b ← btcb;
      let nodeNum := rootNode b in
      child ← read_node blockPtr (fun n => GetChildNodeNum b n 0);
      _ ← modify_btcb (fun b => with_treeDepth (u16 (treeDepth b - 1)) (with_rootNode child b));
      _ ← update_node blockPtr (ClearNode b);
      '(err, blockPtr) ← UpdateNode blockPtr;
      if negb (err =? noErr) then mret (err, blockPtr) else
      err ← FreeNode nodeNum;
      if negb (err =? noErr) then mret (err, blockPtr) else
      '(err, blockPtr) ← GetNode child 0;
      if negb (err =? noErr) then mret (err, blockPtr) else
      CollapseTree_loop blockPtr fuel
  end.

(** Each turn goes down one level of the tree. *)
Definition CollapseTree (blockPtr : NodeRec) : BT (Z * NodeRec) :=
  b ← btcb;
  let originalRoot := rootNode b in
  '(err, blockPtr) ← CollapseTree_loop blockPtr (S (Z.to_nat (treeDepth b)));
  exit_on_error err (CollapseTree_exit err blockPtr) (
  b ← btcb;
  _ ← (if negb (rootNode b =? originalRoot) then M_BTreeHeaderDirty else mret tt);
  '(err, blockPtr) ← UpdateNode blockPtr;
  exit_on_error err (CollapseTree_exit err blockPtr) (
  mret (noErr, blockPtr))).

(** ** DeleteTree *)

Definition DeleteTree_exit (err : Z) (targetNode parentNode : NodeRec) : BT Z :=
  _ ← ReleaseNode targetNode; _ ← ReleaseNode parentNode; mret err.

(** Store a link of a sibling. *)
Definition set_sibling (siblingNodeNum : Z) (store : bytes -> option bytes) : BT Z :=
  '(err, siblingNode) ← GetNode siblingNodeNum 0;
  if negb (err =? noErr) then mret err else
  _ ← update_node siblingNode store;
  '(err, _) ← UpdateNode siblingNode;
  mret err.

(** Unlink the empty node from its siblings, clear it and free it. *)
Definition DeleteTree_free (targetNode : NodeRec) (targetNodeNum : Z) : BT (Z * NodeRec) :=
  b ← btcb;
  bLink ← read_node targetNode nd_bLink;
  fLink ← read_node targetNode nd_fLink;
  kind ← read_node targetNode nd_kind;
  err ← (if negb (bLink =? 0) then set_sibling bLink (fun n => set_fLink n fLink)
         else _ ← (if kind =? kBTLeafNode then modify_btcb (with_firstLeafNode fLink) else mret tt); mret noErr);
  if negb (err =? noErr) then mret (err, targetNode) else
  err ← (if negb (fLink =? 0) then set_sibling fLink (fun n => set_bLink n bLink)
         else _ ← (if kind =? kBTLeafNode then modify_btcb (with_lastLeafNode bLink) else mret tt); mret noErr);
  if negb (err =? noErr) then mret (err, targetNode) else
  _ ← update_node targetNode (ClearNode b);
  '(err, targetNode) ← UpdateNode targetNode;
  if negb (err =? noErr) then mret (err, targetNode) else
  err ← FreeNode targetNodeNum;
  mret (err, targetNode).

(** The root: it was freed, or has one record left and is collapsed. *)
Definition DeleteTree_root (targetNode : NodeRec) : BT (Z * NodeRec) :=
  match targetNode with
  | None => _ ← modify_btcb (fun b => with_treeDepth 0 (with_rootNode 0 b)); mret (noErr, targetNode)
  | Some _ =>
      n ← read_node targetNode nd_numRecords;
      if n =? 1 then CollapseTree targetNode else mret (noErr, targetNode)
  end.

(** Replace the parent's record for the target by one with its new first key. *)
Definition DeleteTree_update (path : TreePathTable) (targetNode parentNode : NodeRec)
    (targetNodeNum index level : Z) : BT Z :=
  b ← btcb;
  _ ← update_node parentNode (fun n => DeleteRecord b n index);
  target ← buffer targetNode;
  off ← lift (GetRecordAddress b target 0);
  '(err, _, _) ← InsertTree path (drop (Z.to_nat off) target) (le32 targetNodeNum) 4 parentNode index level true;
  mret err.

Fixpoint DeleteTree (path : TreePathTable) (targetNode : NodeRec) (index level : Z) (fuel : nat) : BT Z :=
  match fuel with
  | O => fault
  | S fuel =>
      '(targetNodeNum, _) ← lift (tpt_get path level);
      b ← btcb;
      _ ← update_node targetNode (fun n => DeleteRecord b n index);
      numRecords ← read_node targetNode nd_numRecords;
      let deleteRequired := numRecords =? 0 in
      let updateRequired := negb deleteRequired && (index =? 0) in
      '(err, targetNode) ← (if deleteRequired then DeleteTree_free targetNode targetNodeNum
                            else mret (noErr, targetNode));
      exit_on_error err (DeleteTree_exit err targetNode None) (
      b ← btcb;
      let isRoot := level =? treeDepth b in
      '(err, targetNode) ← (if isRoot then DeleteTree_root targetNode else mret (noErr, targetNode));
      exit_on_error err (DeleteTree_exit err targetNode None) (
      let finish :=
        '(err, targetNode) ← UpdateNode targetNode;
        exit_on_error err (DeleteTree_exit err targetNode None) (mret noErr) in
      if negb isRoot && (updateRequired || deleteRequired) then
        let level := level + 1 in
        '(parentNum, index) ← lift (tpt_get path level);
        '(err, parentNode) ← GetNode parentNum 0;
        exit_on_error err (DeleteTree_exit err targetNode parentNode) (
        err ← (if updateRequired
               then DeleteTree_update path targetNode parentNode targetNodeNum index level
               else DeleteTree path parentNode index level fuel);
        exit_on_error err (DeleteTree_exit err targetNode None) finish)
      else finish))
  end.
