(* ===== verification/BTMisc.v ===== *)
(** * B-tree support routines (core/BTreeMiscOps.c)

    The checks on a header record and on the parameters of an insertion, the
    replacement of a record in place, and the use of an iterator's hint. *)

From S2P Require Import Prelude HfsFormat Bytes BTNode BTRotate NodeReserve BTStore BTAlloc BTTree.

(** ** Sizes *)

Definition CalcKeyRecordSize (keySize recSize : Z) : Z :=
  let keySize := if M_IsOdd keySize then u16 (keySize + 1) else keySize in
  let recSize := if M_IsOdd recSize then u16 (recSize + 1) else recSize in
  u16 (keySize + recSize).

(** ** VerifyHeader *)

(** The fields of BTHeaderRec (core/hfs_format.h) that are looked at. *)
Record BTHeaderRec := mkHeader {
  h_treeDepth : Z;
  h_rootNode : Z;
  h_firstLeafNode : Z;
  h_lastLeafNode : Z;
  h_nodeSize : Z;
  h_totalNodes : Z;
  h_freeNodes : Z;
  h_btreeType : Z;
}.

Definition kUserBTreeType : Z := 128.
Definition kReservedBTreeType : Z := 255.

Definition VerifyHeader (fcbEOF : Z) (header : BTHeaderRec) : Z :=
  if negb (bool_decide (h_nodeSize header ∈ [512; 1024; 2048; 4096; 8192; 16384; 32768]))
  then fsBTInvalidHeaderErr else
  let totalNodes := h_totalNodes header in
  let forkSize := u64 (totalNodes * h_nodeSize header) in
  if u64 fcbEOF <? forkSize then fsBTInvalidHeaderErr
  else if totalNodes <=? h_freeNodes header then fsBTInvalidHeaderErr
  else if totalNodes <=? h_rootNode header then fsBTInvalidHeaderErr
  else if totalNodes <=? h_firstLeafNode header then fsBTInvalidHeaderErr
  else if totalNodes <=? h_lastLeafNode header then fsBTInvalidHeaderErr
  else if Z.of_nat kMaxTreeDepth <? h_treeDepth header then fsBTInvalidHeaderErr
  else if (h_btreeType header =? 0) || (h_btreeType header =? kUserBTreeType)
          || (h_btreeType header =? kReservedBTreeType) then noErr
  else fsBTUnknownVersionErr.

Definition TreeIsDirty (b : BTreeControlBlock) : Z := Z.land (flags b) kBTHeaderDirty.

(** ** Iterators (core/BTreesInternal.h) *)

Record BTreeHint := mkHint { ht_writeCount : Z; ht_nodeNum : Z; ht_index : Z }.
Record BTreeIterator := mkIter { it_hint : BTreeHint; it_key : bytes }.

Definition with_hint (hint : BTreeHint) (it : BTreeIterator) : BTreeIterator := mkIter hint (it_key it).
Definition no_hint : BTreeHint := mkHint 0 0 0.

(** ** CheckInsertParams *)

(** The pointers are not nil; the key size is the one of the iterator's key. *)
Definition CheckInsertParams (b : BTreeControlBlock) (iterator : BTreeIterator) (recordLen : Z) : option Z :=
  if recordLen =? 0 then Some paramErr else
  keySize ← CalcKeySize b (it_key iterator);
  if Z.shiftr (nodeSize b) 1 <? CalcKeyRecordSize (u16 keySize) recordLen then Some fsBTRecordTooLargeErr
  else Some noErr.

(** ** TrySimpleReplace *)

(** Whether the record was put in, and the node. *)
Definition TrySimpleReplace (cmp : KeyCompareProc) (b : BTreeControlBlock) (node : bytes) (key record : bytes)
    (recordLen : Z) : option (bool * bytes) :=
  kind ← nd_kind node;
  if negb (kind =? kBTLeafNode) then Some (false, node) else
  '(foundIt, index) ← SearchNode cmp b node key;
  if negb foundIt then Some (false, node) else
  keySize ← CalcKeySize b key;
  let keySize := u16 keySize in
  let spaceNeeded := CalcKeyRecordSize keySize recordLen in
  oldSpace ← GetRecordSize b node index;
  if spaceNeeded =? oldSpace then
    dst ← GetRecordAddress b node index;
    let keySize := if M_IsOdd keySize then u16 (keySize + 1) else keySize in
    node ← bcopy_from record 0 node (dst + keySize) recordLen;
    Some (true, node)
  else
    free ← GetNodeFreeSize b node;
    if spaceNeeded <=? free + oldSpace then
      node ← DeleteRecord b node index;
      keyLength ← KeyLength b key;
      '(_, node) ← InsertKeyRecord b node index key keyLength record recordLen;
      Some (true, node)
    else Some (false, node).

(** ** IsItAHint *)

Definition IsItAHint (iterator : BTreeIterator) : BT bool :=
  _ ← modify_btcb incr_numHintChecks;
  if ht_nodeNum (it_hint iterator) =? 0 then mret false
  else _ ← modify_btcb incr_numPossibleHints; mret true.

(** ** FindIteratorPosition *)

(** The error, the iterator (its hint may be dropped), the three descriptors, the
    node number, the index and whether the record was found. *)
Record position := mkPosition {
  fp_err : Z;
  fp_iter : BTreeIterator;
  fp_left : NodeRec;
  fp_middle : NodeRec;
  fp_right : NodeRec;
  fp_nodeNum : Z;
  fp_index : Z;
  fp_found : bool;
}.

Definition fp_exit (err : Z) (it : BTreeIterator) (leftN middleN rightN : NodeRec) : BT position :=
  '(_, leftN) ← ReleaseNode leftN;
  '(_, middleN) ← ReleaseNode middleN;
  '(_, rightN) ← ReleaseNode rightN;
  mret (mkPosition err it leftN middleN rightN 0 0 false).

(** SearchTheTree *)
Definition fp_search (cmp : KeyCompareProc) (it : BTreeIterator) (leftN middleN rightN : NodeRec) : BT position :=
  '(err, leftN) ← ReleaseNode leftN;
  exit_on_error err (fp_exit err it leftN middleN rightN) (
  '(err, middleN) ← ReleaseNode middleN;
  exit_on_error err (fp_exit err it leftN middleN rightN) (
  '(err, rightN) ← ReleaseNode rightN;
  exit_on_error err (fp_exit err it leftN middleN rightN) (
  out ← SearchTree cmp (it_key it) new_path;
  if (so_err out =? noErr) || (so_err out =? fsBTRecordNotFoundErr) then
    mret (mkPosition noErr it leftN (so_node out) rightN (so_nodeNum out) (so_index out) (so_err out =? noErr))
  else fp_exit (so_err out) it leftN (so_node out) rightN))).

(** The node is a leaf with records. *)
Definition leaf_with_records (node : bytes) : option bool :=
  kind ← nd_kind node; n ← nd_numRecords node; Some ((kind =? kBTLeafNode) && (0 <? n)).

Definition GetRightSiblingNode (node : NodeRec) : BT (Z * NodeRec) :=
  fLink ← read_node node nd_fLink; GetNode fLink 0.

(** The key is before the hinted node: look in its left sibling. *)
Definition fp_left_of (cmp : KeyCompareProc) (it : BTreeIterator) (middleN : NodeRec) (nodeNum index : Z) : BT position :=
  b ← btcb;
  bLink ← read_node middleN nd_bLink;
  if bLink =? 0 then mret (mkPosition noErr it None middleN None nodeNum index false) else
  '(err, middleN) ← ReleaseNode middleN;
  exit_on_error err (fp_exit err it None middleN None) (
  '(err, leftN) ← GetNode bLink 0;
  exit_on_error err (fp_exit err it leftN middleN None) (
  '(err, middleN) ← GetRightSiblingNode leftN;
  exit_on_error err (fp_exit err it leftN middleN None) (
  ok ← read_node leftN leaf_with_records;
  if negb ok then fp_search cmp it leftN middleN None else
  '(foundIt, leftIndex) ← read_node leftN (fun n => SearchNode cmp b n (it_key it));
  n ← read_node leftN nd_numRecords;
  if (foundIt : bool) then mret (mkPosition noErr it None leftN middleN bLink leftIndex true)
  else if leftIndex =? 0 then fp_search cmp it leftN middleN None
  else if n <=? leftIndex then
    fLink ← read_node leftN nd_fLink;
    mret (mkPosition noErr it leftN middleN None fLink index false)
  else mret (mkPosition noErr it None leftN middleN bLink leftIndex false)))).

(** The key is after the hinted node: look in its right sibling. *)
Definition fp_right_of (cmp : KeyCompareProc) (it : BTreeIterator) (middleN : NodeRec) (nodeNum index : Z) : BT position :=
  b ← btcb;
  fLink ← read_node middleN nd_fLink;
  if fLink =? 0 then mret (mkPosition noErr it None middleN None nodeNum index false) else
  '(err, rightN) ← GetRightSiblingNode middleN;
  exit_on_error err (fp_exit err it None middleN rightN) (
  ok ← read_node rightN leaf_with_records;
  if negb ok then fp_search cmp it None middleN rightN else
  '(foundIt, rightIndex) ← read_node rightN (fun n => SearchNode cmp b n (it_key it));
  n ← read_node rightN nd_numRecords;
  if n <=? rightIndex then fp_search cmp it None middleN rightN
  else mret (mkPosition noErr it middleN rightN None fLink rightIndex foundIt)).

Definition FindIteratorPosition (cmp : KeyCompareProc) (it : BTreeIterator) : BT position :=
  validHint ← IsItAHint it;
  if negb validHint then fp_search cmp it None None None else
  let nodeNum := ht_nodeNum (it_hint it) in
  '(err, middleN) ← GetNode nodeNum kGetNodeHint;
  if err =? fsBTInvalidNodeErr then fp_search cmp it None middleN None else
  exit_on_error err (fp_exit err it None middleN None) (
  b ← btcb;
  ok ← read_node middleN leaf_with_records;
  if negb ok then fp_search cmp it None middleN None else
  '(foundIt, index) ← read_node middleN (fun n => SearchNode cmp b n (it_key it));
  if (foundIt : bool) then
    _ ← modify_btcb incr_numValidHints;
    mret (mkPosition noErr it None middleN None nodeNum index true)
  else
  let h := it_hint it in
  let it := with_hint (mkHint (ht_writeCount h) 0 (ht_index h)) it in
  n ← read_node middleN nd_numRecords;
  if index =? 0 then fp_left_of cmp it middleN nodeNum index
  else if n <=? index then fp_right_of cmp it middleN nodeNum index
  else fp_search cmp it None middleN None).
