(* ===== verification/BTree.v ===== *)
(** * The B-tree operations (core/BTree.c)

    Searching, inserting, replacing, updating and deleting a record.  The
    pointers a caller passes are not nil where the source only returns an error
    for nil; the optional ones are [option]s here. *)

From S2P Require Import Prelude HfsFormat Bytes BTNode BTRotate NodeReserve BTStore BTAlloc BTTree BTMisc.

(** ** Iterators *)

Definition BTInvalidateHint (it : BTreeIterator) : BTreeIterator :=
  let h := it_hint it in with_hint (mkHint (ht_writeCount h) 0 (ht_index h)) it.

(** The hint a successful change leaves. *)
Definition hint_to (b : BTreeControlBlock) (nodeNum : Z) (it : BTreeIterator) : BTreeIterator :=
  with_hint (mkHint (writeCount b) nodeNum 0) it.

(** ** BTSearchRecord *)

(** The error; the search iterator, whose hint may be dropped; the length of the
    record and the bytes copied, when they are written; the result iterator. *)
Record search_record := mkSearchRecord {
  sr_err : Z;
  sr_iter : BTreeIterator;
  sr_recordLen : option Z;
  sr_record : option bytes;
  sr_result : option BTreeIterator;
}.

Definition search_record_exit (err : Z) (it : BTreeIterator) (record : option bytes)
    (result : option BTreeIterator) : BT search_record :=
  result ← (match result with
            | Some r => key ← lift (st16 (it_key r) 0 0); mret (Some (mkIter no_hint key))
            | None => mret None
            end);
  mret (mkSearchRecord (if err =? fsBTEmptyErr then fsBTRecordNotFoundErr else err) it (Some 0) record result).

(** Take a hint: an error, or whether the record is in the node hinted at, the
    node and the index. *)
Definition take_hint (cmp : KeyCompareProc) (it : BTreeIterator) : BT (Z * bool * BTreeIterator * NodeRec * Z) :=
  validHint ← IsItAHint it;
  if negb validHint then mret (noErr, false, it, None, 0) else
  '(err, node) ← GetNode (ht_nodeNum (it_hint it)) kGetNodeHint;
  if negb (err =? noErr) then mret (noErr, false, BTInvalidateHint it, node, 0) else
  b ← btcb;
  ok ← read_node node leaf_with_records;
  '(foundRecord, index) ← (if (ok : bool) then read_node node (fun n => SearchNode cmp b n (it_key it))
                           else mret (false, 0));
  if (foundRecord : bool) then _ ← modify_btcb incr_numValidHints; mret (noErr, true, it, node, index) else
  '(err, node) ← ReleaseNode node;
  if negb (err =? noErr) then mret (err, false, it, node, 0)
  else mret (noErr, false, BTInvalidateHint it, node, index).

(** The result iterator: the key of the tree when the record was found. *)
Definition result_iterator (b : BTreeControlBlock) (nodeNum index : Z) (found : bool) (keyPtr : bytes)
    (result : option BTreeIterator) : option (option BTreeIterator) :=
  match result with
  | None => Some None
  | Some r =>
      size ← CalcKeySize b keyPtr;
      key ← bcopy_from keyPtr 0 (it_key r) 0 size;
      Some (Some (mkIter (if found then mkHint (writeCount b) nodeNum index else it_hint r) key))
  end.

(** The record of the node at [index]: its length, the bytes copied to a buffer of
    [size] bytes, and its key. *)
Definition copy_record (b : BTreeControlBlock) (node : bytes) (index : Z) (size : option Z)
    : option (Z * option bytes * bytes) :=
  r ← GetRecordByIndex b node index;
  match r with
  | inl _ => None
  | inr (keyPtr, recordPtr, len) =>
      data ← (match size with
              | Some recordSize => bs ← get_bytes node recordPtr (Z.min len recordSize); Some (Some bs)
              | None => Some None
              end);
      Some (len, data, drop (Z.to_nat keyPtr) node)
  end.

(** [size]: the size of the caller's buffer, when there is one. *)
Definition BTSearchRecord (cmp : KeyCompareProc) (searchIterator : BTreeIterator) (size : option Z)
    (resultIterator : option BTreeIterator) : BT search_record :=
  '(err, foundRecord, it, node, index) ← take_hint cmp searchIterator;
  exit_on_error err (search_record_exit err it None resultIterator) (
  out ← (if (foundRecord : bool)
         then mret (mkSearch noErr new_path (ht_nodeNum (it_hint searchIterator)) node index)
         else SearchTree cmp (it_key it) new_path);
  if negb ((so_err out =? noErr) || (so_err out =? fsBTRecordNotFoundErr))
  then search_record_exit (so_err out) it None resultIterator else
  let foundRecord := so_err out =? noErr in
  b ← btcb;
  '(len, data, keyPtr) ←
    (if foundRecord
     then '(len, data, key) ← read_node (so_node out) (fun n => copy_record b n (so_index out) size);
          mret (Some len, data, key)
     else mret (None, None, it_key it));
  result ← lift (result_iterator b (so_nodeNum out) (so_index out) foundRecord keyPtr resultIterator);
  '(err, _) ← ReleaseNode (so_node out);
  exit_on_error err (search_record_exit err it data result) (
  mret (mkSearchRecord (if foundRecord then noErr else fsBTRecordNotFoundErr) it len data result))).

(** ** BTInsertRecord *)

(** Error exits release the node and drop the hint. *)
Definition change_exit (err : Z) (it : BTreeIterator) (nodeRec : NodeRec) : BT (Z * BTreeIterator) :=
  _ ← ReleaseNode nodeRec; mret (err, with_hint no_hint it).

Definition insert_exit (err : Z) (it : BTreeIterator) (nodeRec : NodeRec) : BT (Z * BTreeIterator) :=
  change_exit (if err =? fsBTEmptyErr then fsBTRecordNotFoundErr else err) it nodeRec.

Definition insert_success (it : BTreeIterator) (insertNodeNum : Z) : BT (Z * BTreeIterator) :=
  _ ← modify_btcb (fun b => with_leafRecords (u32 (leafRecords b + 1)) (with_writeCount (u32 (writeCount b + 1)) b));
  _ ← M_BTreeHeaderDirty;
  b ← btcb;
  mret (noErr, hint_to b insertNodeNum it).

(** The first record of an empty tree: its leaf becomes the root. *)
Definition insert_first (eofproc : SetEndOfForkProc) (it : BTreeIterator) (record : bytes) (recordLen : Z)
    : BT (Z * BTreeIterator) :=
  b ← btcb;
  err ← (if freeNodes b =? 0 then ExtendBTree eofproc (u32 (totalNodes b + 1)) else mret noErr);
  exit_on_error err (insert_exit err it None) (
  '(err, insertNodeNum) ← AllocateNode;
  exit_on_error err (insert_exit err it None) (
  '(err, nodeRec) ← GetNewNode insertNodeNum;
  exit_on_error err (insert_exit err it nodeRec) (
  _ ← update_node nodeRec (fun n => n ← set_kind n kBTLeafNode; set_height n 1);
  keyLength ← lift (KeyLength b (it_key it));
  node ← buffer nodeRec;
  '(recordFit, node) ← lift (InsertKeyRecord b node 0 (it_key it) keyLength record recordLen);
  _ ← set_buffer nodeRec node;
  if negb (recordFit : bool) then insert_exit fsBTRecordTooLargeErr it nodeRec else
  _ ← modify_btcb (fun b => with_treeDepth 1 (with_rootNode insertNodeNum
        (with_firstLeafNode insertNodeNum (with_lastLeafNode insertNodeNum b))));
  '(err, nodeRec) ← UpdateNode nodeRec;
  exit_on_error err (insert_exit err it nodeRec) (
  _ ← M_BTreeHeaderDirty;
  insert_success it insertNodeNum)))).

(** Extend the file when an insertion could need more nodes than are free. *)
Definition extend_for_insert (eofproc : SetEndOfForkProc) : BT Z :=
  b ← btcb;
  if freeNodes b <? treeDepth b + 1 then
    let nodesNeeded := u32 (treeDepth b + 1 + totalNodes b - freeNodes b) in
    let nodesNeeded := if CalcMapBits b <? nodesNeeded then u32 (nodesNeeded + 1) else nodesNeeded in
    ExtendBTree eofproc nodesNeeded
  else mret noErr.

(** The record goes in the tree by InsertTree. *)
Definition insert_tree (eofproc : SetEndOfForkProc) (it : BTreeIterator) (record : bytes) (recordLen : Z)
    (path : TreePathTable) (nodeRec : NodeRec) (index : Z) : BT (Z * BTreeIterator) :=
  err ← extend_for_insert eofproc;
  exit_on_error err (insert_exit err it nodeRec) (
  '(err, nodeRec, insertNodeNum) ← InsertTree path (it_key it) record recordLen nodeRec index 1 false;
  exit_on_error err (insert_exit err it nodeRec) (
  insert_success it insertNodeNum)).

Definition BTInsertRecord (cmp : KeyCompareProc) (eofproc : SetEndOfForkProc) (iterator : BTreeIterator)
    (record : bytes) (recordLen : Z) : BT (Z * BTreeIterator) :=
  b ← btcb;
  err ← lift (CheckInsertParams b iterator recordLen);
  if negb (err =? noErr) then mret (err, iterator) else
  out ← SearchTree cmp (it_key iterator) new_path;
  let nodeRec := so_node out in
  let index := so_index out in
  if so_err out =? noErr then insert_exit fsBTDuplicateRecordErr iterator nodeRec
  else if so_err out =? fsBTEmptyErr then insert_first eofproc iterator record recordLen
  else if negb (so_err out =? fsBTRecordNotFoundErr) then insert_exit (so_err out) iterator nodeRec
  else if 0 <? index then
    keyLength ← lift (KeyLength b (it_key iterator));
    node ← buffer nodeRec;
    '(recordFit, node) ← lift (InsertKeyRecord b node index (it_key iterator) keyLength record recordLen);
    _ ← set_buffer nodeRec node;
    if (recordFit : bool) then
      '(err, nodeRec) ← UpdateNode nodeRec;
      exit_on_error err (insert_exit err iterator nodeRec) (insert_success iterator (so_nodeNum out))
    else insert_tree eofproc iterator record recordLen (so_path out) nodeRec index
  else insert_tree eofproc iterator record recordLen (so_path out) nodeRec index.

(** ** BTReplaceRecord *)

Definition replace_success (it : BTreeIterator) (insertNodeNum : Z) : BT (Z * BTreeIterator) :=
  b ← btcb; mret (noErr, hint_to b insertNodeNum it).

(** TrySimpleReplace on the node of a descriptor. *)
Definition try_replace (cmp : KeyCompareProc) (it : BTreeIterator) (record : bytes) (recordLen : Z)
    (nodeRec : NodeRec) : BT bool :=
  b ← btcb;
  node ← buffer nodeRec;
  '(recordFit, node) ← lift (TrySimpleReplace cmp b node (it_key it) record recordLen);
  _ ← set_buffer nodeRec node;
  mret recordFit.

(** Find the record in the tree and replace it, in place or by a new insertion. *)
Definition replace_search (cmp : KeyCompareProc) (eofproc : SetEndOfForkProc) (it : BTreeIterator)
    (record : bytes) (recordLen : Z) : BT (Z * BTreeIterator) :=
  out ← SearchTree cmp (it_key it) new_path;
  let nodeRec := so_node out in
  exit_on_error (so_err out) (change_exit (so_err out) it nodeRec) (
  recordFit ← try_replace cmp it record recordLen nodeRec;
  if (recordFit : bool) then
    '(err, nodeRec) ← UpdateNode nodeRec;
    exit_on_error err (change_exit err it nodeRec) (replace_success it (so_nodeNum out))
  else
  err ← extend_for_insert eofproc;
  exit_on_error err (change_exit err it nodeRec) (
  b ← btcb;
  _ ← update_node nodeRec (fun n => DeleteRecord b n (so_index out));
  '(err, nodeRec, insertNodeNum) ← InsertTree (so_path out) (it_key it) record recordLen nodeRec (so_index out) 1 true;
  exit_on_error err (change_exit err it nodeRec) (
  _ ← modify_btcb (fun b => with_writeCount (u32 (writeCount b + 1)) b);
  replace_success it insertNodeNum))).

Definition BTReplaceRecord (cmp : KeyCompareProc) (eofproc : SetEndOfForkProc) (iterator : BTreeIterator)
    (record : bytes) (recordLen : Z) : BT (Z * BTreeIterator) :=
  b ← btcb;
  err ← lift (CheckInsertParams b iterator recordLen);
  if negb (err =? noErr) then mret (err, iterator) else
  validHint ← IsItAHint iterator;
  if negb validHint then replace_search cmp eofproc iterator record recordLen else
  let insertNodeNum := ht_nodeNum (it_hint iterator) in
  '(err, nodeRec) ← GetNode insertNodeNum kGetNodeHint;
  if negb (err =? noErr) then replace_search cmp eofproc (BTInvalidateHint iterator) record recordLen else
  recordFit ← try_replace cmp iterator record recordLen nodeRec;
  if (recordFit : bool) then
    '(err, nodeRec) ← UpdateNode nodeRec;
    exit_on_error err (change_exit err iterator nodeRec) (
    _ ← modify_btcb incr_numValidHints;
    replace_success iterator insertNodeNum)
  else
    let iterator := BTInvalidateHint iterator in
    '(err, nodeRec) ← ReleaseNode nodeRec;
    exit_on_error err (change_exit err iterator nodeRec) (
    replace_search cmp eofproc iterator record recordLen).

(** ** BTUpdateRecord *)

(** The callback works on the record in the node's buffer: given the buffer and
    where the key and the record are, its result and the buffer. *)
Definition UpdateCallBack : Type := bytes -> Z -> Z -> Z * bytes.

(** Run the callback on the record at [index] and write the node. *)
Definition update_at (callBack : UpdateCallBack) (nodeRec : NodeRec) (index : Z) : BT (Z * NodeRec) :=
  b ← btcb;
  r ← read_node nodeRec (fun n => GetRecordByIndex b n index);
  match r with
  | inl err => mret (err, nodeRec)
  | inr (keyPtr, recordPtr, _) =>
      node ← buffer nodeRec;
      let '(err, node) := callBack node keyPtr recordPtr in
      _ ← set_buffer nodeRec node;
      if negb (err =? noErr) then mret (err, nodeRec) else UpdateNode nodeRec
  end.

Definition update_search (cmp : KeyCompareProc) (callBack : UpdateCallBack) (it : BTreeIterator)
    : BT (Z * BTreeIterator) :=
  out ← SearchTree cmp (it_key it) new_path;
  exit_on_error (so_err out) (change_exit (so_err out) it (so_node out)) (
  '(err, nodeRec) ← update_at callBack (so_node out) (so_index out);
  exit_on_error err (change_exit err it nodeRec) (replace_success it (so_nodeNum out))).

Definition BTUpdateRecord (cmp : KeyCompareProc) (callBack : UpdateCallBack) (iterator : BTreeIterator)
    : BT (Z * BTreeIterator) :=
  validHint ← IsItAHint iterator;
  if negb validHint then update_search cmp callBack iterator else
  let insertNodeNum := ht_nodeNum (it_hint iterator) in
  '(err, nodeRec) ← GetNode insertNodeNum kGetNodeHint;
  if negb (err =? noErr) then update_search cmp callBack (BTInvalidateHint iterator) else
  b ← btcb;
  kind ← read_node nodeRec nd_kind;
  '(found, index) ← (if kind =? kBTLeafNode then read_node nodeRec (fun n => SearchNode cmp b n (it_key iterator))
                     else mret (false, 0));
  if (found : bool) then
    '(err, nodeRec) ← update_at callBack nodeRec index;
    exit_on_error err (change_exit err iterator nodeRec) (
    _ ← modify_btcb incr_numValidHints;
    replace_success iterator insertNodeNum)
  else
    let iterator := BTInvalidateHint iterator in
    '(err, nodeRec) ← ReleaseNode nodeRec;
    exit_on_error err (change_exit err iterator nodeRec) (update_search cmp callBack iterator).

(** ** BTDeleteRecord *)

(** Deleting the first record of a node can make its parents split. *)
Definition extend_for_delete (eofproc : SetEndOfForkProc) (index : Z) : BT Z :=
  b ← btcb;
  if (index =? 0) && (freeNodes b <? treeDepth b + 1) then
    let nodesNeeded := u32 (treeDepth b + totalNodes b) in
    let nodesNeeded := if CalcMapBits b <? nodesNeeded then u32 (nodesNeeded + 1) else nodesNeeded in
    if freeNodes b <? u32 (nodesNeeded - totalNodes b) then ExtendBTree eofproc nodesNeeded else mret noErr
  else mret noErr.

(** DeleteTree goes up one level at each call. *)
Definition BTDeleteRecord (cmp : KeyCompareProc) (eofproc : SetEndOfForkProc) (iterator : BTreeIterator)
    : BT (Z * BTreeIterator) :=
  out ← SearchTree cmp (it_key iterator) new_path;
  let exit err nodeRec := _ ← ReleaseNode nodeRec; mret (err, iterator) in
  exit_on_error (so_err out) (exit (so_err out) (so_node out)) (
  err ← extend_for_delete eofproc (so_index out);
  exit_on_error err (exit err (so_node out)) (
  b ← btcb;
  err ← DeleteTree (so_path out) (so_node out) (so_index out) 1 (S (Z.to_nat (treeDepth b)));
  exit_on_error err (exit err None) (
  _ ← modify_btcb (fun b => with_leafRecords (u32 (leafRecords b - 1)) (with_writeCount (u32 (writeCount b + 1)) b));
  _ ← M_BTreeHeaderDirty;
  mret (noErr, BTInvalidateHint iterator)))).
