(* ===== verification/BTTreeProps.v ===== *)
(** * Properties of the tree operations (core/BTreeTreeOps.c)

    [bt_tree] says what a well-formed B-tree is; SearchTree finds in it what is
    in it.  SplitLeft puts the new record in one of the two nodes when the records
    are small enough, and can lose it otherwise. *)

From S2P Require Import Prelude HfsFormat Bytes BTNode ExtentKeys BTRotate NodeReserve BTStore BTAlloc BTAllocProps BTTree.

(** Searching a node depends on the control block by the node size only. *)
Lemma SearchNode_stats cmp b st node key : SearchNode cmp (with_stats st b) node key = SearchNode cmp b node key.
Proof.
  unfold SearchNode. destruct (nd_numRecords node) as [n|]; [|done]. cbn [mbind option_bind].
  generalize 0 as lo, (n - 1) as up, (S (Z.to_nat n)) as fuel. intros lo up fuel. revert lo up.
  induction fuel as [|fuel IH]; intros lo up; [done|]. cbn [SearchNode_loop]. case_match; [|done].
  change (nodeSize (with_stats st b)) with (nodeSize b).
  destruct (ld16 _ _); [|done]. cbn [mbind option_bind]. destruct (cmp _ _); [|done]. cbn [mbind option_bind].
  by rewrite !IH.
Qed.

(** ** Well-formed trees *)

(** An entry of an index node: key length, key, child, and the leaf records below. *)
Record entry := mkEntry { e_klen : Z; e_raw : bytes; e_child : Z; e_leaves : list bytes }.

Section Tree.
Context (cmp : KeyCompareProc) (P : bytes -> Prop) (ord : bytes -> bytes -> Z) `{!KeyOrder cmp P ord}.

Definition e_rec (b : BTreeControlBlock) (e : entry) : bytes :=
  keyed_record b (e_klen e) (e_raw e) (le32 (e_child e)).

Definition entry_ok (b : BTreeControlBlock) (e : entry) : Prop :=
  keyLength_ok b (e_klen e) /\ len (e_raw e) <= e_klen e /\ 0 < e_child e <= UINT32_MAX /\ P (e_rec b e).

(** The keys below an entry are at least its key, and smaller than the next one's. *)
Definition separated (b : BTreeControlBlock) (es : list entry) : Prop :=
  Forall (fun e => Forall (fun x => ord (e_rec b e) x <= 0) (e_leaves e)) (tail es) /\
  StronglySorted (fun e1 e2 => Forall (fun x => ord x (e_rec b e2) < 0) (e_leaves e1)) es.

(** Node [n] is the root of a subtree of height [h] with these leaf records. *)
Inductive bt_tree (b : BTreeControlBlock) (nodes : gmap Z bytes) : nat -> Z -> list bytes -> Prop :=
  | bt_leaf n hdr res recs node :
      nodes !! n = Some node -> node_rep b hdr res recs node ->
      nd_height node = Some 1 -> nd_kind node = Some kBTLeafNode -> 0 < n < totalNodes b ->
      Forall P recs -> keys_sorted ord recs -> bt_tree b nodes 1 n recs
  | bt_index h n hdr res es node :
      (1 <= h)%nat -> nodes !! n = Some node -> node_rep b hdr res (e_rec b <$> es) node ->
      nd_height node = Some (Z.of_nat (S h)) -> nd_kind node = Some kBTIndexNode -> 0 < n < totalNodes b ->
      es <> [] -> Forall (entry_ok b) es -> keys_sorted ord (e_rec b <$> es) -> separated b es ->
      Forall (fun e => bt_tree b nodes h (e_child e) (e_leaves e)) es ->
      bt_tree b nodes (S h) n (concat (e_leaves <$> es)).

Lemma bt_tree_P b nodes h n leaves : bt_tree b nodes h n leaves -> Forall P leaves.
Proof.
  revert n leaves. induction h as [h IH] using lt_wf_ind. intros n leaves H.
  inversion H as [|h' ? ? ? es ? ? ? ? ? ? ? ? ? ? ? Hch]; subst; [done|].
  clear -Hch IH. induction Hch as [|e es He _ IHes]; [constructor|].
  rewrite fmap_cons, concat_cons. apply Forall_app. split; [|done]. eapply IH; [|exact He]. lia.
Qed.

(** ** Order *)

Lemma ord_le_trans k r x : P k -> P r -> P x -> ord k r < 0 -> ord r x <= 0 -> ord k x < 0.
Proof.
  intros Hk Hr Hx H1 H2. apply ord_antisym; [done|done|].
  apply (ord_trans x k r); try done. destruct (Z.le_gt_cases 0 (ord x r)) as [|Hlt]; [done|].
  apply ord_antisym in Hlt; [lia|done|done].
Qed.

(** ** Replacing the records of a leaf *)

(** A node determines the records it holds. *)
Lemma node_rep_inj b hdr res recs hdr' res' recs' node :
  node_size_ok b -> node_rep b hdr res recs node -> node_rep b hdr' res' recs' node -> recs = recs'.
Proof.
  intros Hb H1 H2.
  pose proof (numRecords_rep _ Hb _ _ _ _ H1) as E1. rewrite (numRecords_rep _ Hb _ _ _ _ H2) in E1.
  injection E1 as E1. apply list_eq_same_length with (length recs); [lia|lia|].
  intros i x y Hi Hx Hy.
  rewrite <- (take_drop_middle _ _ _ Hx) in H1. rewrite <- (take_drop_middle _ _ _ Hy) in H2.
  assert (len (take i recs) = len (take i recs')) as Ei by (rewrite !length_take; lia).
  pose proof (GetRecordOffset_rep _ Hb _ _ _ _ _ _ H1 eq_refl) as Eo.
  rewrite Ei, (GetRecordOffset_rep _ Hb _ _ _ _ _ _ H2 eq_refl) in Eo.
  pose proof (GetRecordSize_rep _ Hb _ _ _ _ _ _ _ H1 eq_refl) as Es.
  rewrite Ei, (GetRecordSize_rep _ Hb _ _ _ _ _ _ _ H2 eq_refl) in Es.
  injection Eo as Eo. injection Es as Es.
  pose proof (get_record _ _ _ _ _ _ _ H1) as G. rewrite <- Es in G.
  replace (14 + len (concat (take i recs))) with (14 + len (concat (take i recs'))) in G by lia.
  rewrite (get_record _ _ _ _ _ _ _ H2) in G. congruence.
Qed.

(** A change of a leaf that holds a record the tree does not have leaves the tree alone. *)
Lemma bt_tree_frame b nodes ln hdr res recs node node' x h n leaves :
  node_size_ok b -> nodes !! ln = Some node -> node_rep b hdr res recs node -> nd_kind node = Some kBTLeafNode ->
  x ∈ recs -> x ∉ leaves -> bt_tree b nodes h n leaves -> bt_tree b (<[ln := node']> nodes) h n leaves.
Proof.
  intros Hb Hln Hrep Hk Hx. revert n leaves. induction h as [h IH] using lt_wf_ind.
  intros n leaves Hnot Htree.
  inversion Htree as [? hdr1 res1 recs1 node1 Hn1 Hrep1 Hh1 Hk1|
    h1 ? hdr1 res1 es node1 Hle Hn1 Hrep1 Hh1 Hk1 Hlt Hne Hok Hsort Hsep Hch]; subst.
  - assert (n <> ln) as Hne.
    { intros ->. rewrite Hln in Hn1. injection Hn1 as <-. apply Hnot.
      by rewrite <- (node_rep_inj _ _ _ _ _ _ _ _ Hb Hrep Hrep1). }
    eapply bt_leaf; try done. by rewrite lookup_insert_ne.
  - assert (n <> ln) as Hne' by (intros ->; rewrite Hln in Hn1; injection Hn1 as <-; by rewrite Hk in Hk1).
    eapply bt_index; try done; [by rewrite lookup_insert_ne|].
    apply Forall_forall. intros e He. eapply Forall_forall in Hch; [|exact He]. apply IH; [lia| |done].
    intros Hin. apply Hnot, list_elem_of_In, in_concat. exists (e_leaves e).
    split; apply list_elem_of_In; [|done]. by apply list_elem_of_fmap_2.
Qed.

(** The records below two entries are different. *)
Lemma separated_disjoint b (es : list entry) i j ei ej x :
  Forall (entry_ok b) es -> separated b es -> Forall P (e_leaves ei) ->
  es !! i = Some ei -> es !! j = Some ej -> (i < j)%nat -> x ∈ e_leaves ei -> x ∈ e_leaves ej -> False.
Proof.
  intros Hok [Hge Hlt] HP Hi Hj Hij Hxi Hxj.
  destruct es as [|e0 es]; [done|]. simpl in Hge. destruct j as [|j]; [lia|].
  pose proof (Forall_lookup_1 _ _ _ _ Hge Hj) as Hgej. eapply Forall_forall in Hgej; [|exact Hxj].
  pose proof (Forall_lookup_1 _ _ _ _ Hok Hj) as (_ & _ & _ & HPe).
  rewrite <- (take_drop_middle _ _ _ Hj) in Hlt. apply StronglySorted_middle in Hlt as (_ & _ & Hall & _).
  eapply Forall_lookup_1 in Hall; [|rewrite lookup_take_lt; [exact Hi|lia]]. simpl in Hall, Hgej.
  eapply Forall_forall in Hall; [|exact Hxi]. simpl in Hall.
  assert (P x) as HPx by (by eapply Forall_forall in HP). apply ord_antisym in Hall; [lia|done|done].
Qed.

(** The entry a search goes down: the last one whose key is not greater. *)
Definition child_index (found : bool) (i : nat) : nat :=
  if negb found && negb (Z.of_nat i =? 0) then (i - 1)%nat else i.

Lemma child_not_above b (es : list entry) key found i e :
  search_result ord key (e_rec b <$> es) found i -> es !! child_index found i = Some e ->
  (0 < child_index found i)%nat -> 0 <= ord key (e_rec b e).
Proof.
  intros [Hlo Hrest] He Hpos. unfold child_index in He, Hpos. destruct found; simpl in He, Hpos.
  - destruct Hrest as (r & Hr & Hr0 & _). rewrite list_lookup_fmap, He in Hr. injection Hr as <-. lia.
  - destruct (Z.eqb_spec (Z.of_nat i) 0); simpl in He, Hpos; [lia|].
    eapply Forall_lookup_1 with (i := (i - 1)%nat) in Hlo;
      [|rewrite lookup_take_lt by lia; by rewrite list_lookup_fmap, He]. simpl in Hlo. lia.
Qed.

Lemma child_next_above b (es : list entry) key found i j e :
  search_result ord key (e_rec b <$> es) found i -> es !! j = Some e ->
  (child_index found i < j)%nat -> ord key (e_rec b e) < 0.
Proof.
  intros [_ Hrest] Hj Hlt. unfold child_index in Hlt. destruct found; simpl in Hlt.
  - destruct Hrest as (r & _ & _ & Hhi). replace j with (S i + (j - S i))%nat in Hj by lia.
    eapply Forall_lookup_1 with (i := (j - S i)%nat) in Hhi;
      [|rewrite lookup_drop; by rewrite list_lookup_fmap, Hj]. done.
  - destruct Hrest as [_ Hhi].
    assert (i <= j)%nat by (destruct (Z.eqb_spec (Z.of_nat i) 0); simpl in Hlt; lia).
    replace j with (i + (j - i))%nat in Hj by lia.
    eapply Forall_lookup_1 with (i := (j - i)%nat) in Hhi;
      [|rewrite lookup_drop; by rewrite list_lookup_fmap, Hj]. done.
Qed.

(** The leaf records with the key are below the entry the search goes down. *)
Lemma search_goes_right b es key found i e x :
  P key -> Forall (entry_ok b) es -> Forall (fun e => Forall P (e_leaves e)) es -> separated b es ->
  search_result ord key (e_rec b <$> es) found i -> es !! child_index found i = Some e ->
  x ∈ concat (e_leaves <$> es) -> ord key x = 0 -> x ∈ e_leaves e.
Proof.
  intros Hkey Hok HPl [Hge Hlt] Hres He Hx Hkx.
  apply list_elem_of_In, in_concat in Hx as (l & Hl & Hx). apply list_elem_of_In in Hl, Hx.
  apply list_elem_of_fmap in Hl as (e' & -> & He'). apply list_elem_of_lookup in He' as [j Hj].
  pose proof (Forall_lookup_1 _ _ _ _ Hok Hj) as (_ & _ & _ & HPe').
  pose proof (Forall_lookup_1 _ _ _ _ Hok He) as (_ & _ & _ & HPe).
  assert (P x) as HPx.
  { pose proof (Forall_lookup_1 _ _ _ _ HPl Hj) as H. by eapply Forall_forall in H. }
  set (c := child_index found i) in *.
  destruct (Nat.lt_trichotomy j c) as [Hjc|[->|Hcj]]; [exfalso| |exfalso].
  - (* below a smaller entry *)
    pose proof (child_not_above b es key found i e Hres He ltac:(fold c; lia)) as Hke.
    rewrite <- (take_drop_middle _ _ _ He) in Hlt. apply StronglySorted_middle in Hlt as (_ & _ & Hall & _).
    eapply Forall_lookup_1 in Hall; [|by rewrite lookup_take_lt]. simpl in Hall.
    eapply Forall_forall in Hall; [|exact Hx]. simpl in Hall.
    pose proof (ord_trans key x (e_rec b e) Hkey HPx HPe Hall Hke). lia.
  - rewrite He in Hj. by injection Hj as <-.
  - (* below a greater entry *)
    pose proof (child_next_above b es key found i j e' Hres Hj Hcj) as Hke.
    assert (ord (e_rec b e') x <= 0) as Hex.
    { destruct es as [|e0 es]; [done|]. simpl in Hge. destruct j as [|j]; [lia|].
      eapply Forall_lookup_1 in Hge; [|exact Hj]. by eapply Forall_forall in Hge. }
    pose proof (ord_le_trans key _ x Hkey HPe' HPx Hke Hex). lia.
Qed.
(** [x] is a record with the key [key]. *)
Definition same_key (key x : bytes) : Prop := P x /\ forall r, P r -> ord x r = ord key r.

(** [ln] is the leaf a search for [key] ends in, and its records can be exchanged
    for others, among them records with the key, without hurting the tree. *)
Definition replaceable (b : BTreeControlBlock) (nodes : gmap Z bytes) (key : bytes) (h : nat) (n : Z)
    (leaves : list bytes) (ln : Z) : Prop :=
  exists hdr res recs node A B, nodes !! ln = Some node /\ node_rep b hdr res recs node /\
    nd_kind node = Some kBTLeafNode /\ nd_height node = Some 1 /\ leaves = A ++ recs ++ B /\
    Forall P recs /\ keys_sorted ord recs /\ ln < totalNodes b /\
    (recs <> [] -> forall node' hdr' res' recs', node_rep b hdr' res' recs' node' ->
       nd_height node' = Some 1 -> nd_kind node' = Some kBTLeafNode -> keys_sorted ord recs' ->
       Forall (fun x => x ∈ recs \/ same_key key x) recs' ->
       bt_tree b (<[ln := node']> nodes) h n (A ++ recs' ++ B)).

Lemma replaceable_leaf b nodes key n leaves : bt_tree b nodes 1 n leaves -> replaceable b nodes key 1 n leaves n.
Proof.
  intros Htree. inversion Htree as [? hdr res recs node Hn Hrep Hh Hk Hlt HP Hsort|? ? ? ? ? ? Hle]; subst; [|lia].
  exists hdr, res, leaves, node, [], []. rewrite app_nil_r. split_and!; try done; [lia|].
  intros _ node' hdr' res' recs' Hrep' Hh' Hk' Hs' HF. rewrite app_nil_r. simpl.
  eapply bt_leaf; try done; [by rewrite lookup_insert_eq|].
  eapply Forall_impl; [exact HF|]. intros x [Hx|[Hx _]]; [|done]. by eapply Forall_forall in HP.
Qed.

Definition with_leaves (l : list bytes) (e : entry) : entry := mkEntry (e_klen e) (e_raw e) (e_child e) l.

(** The separation stays when the records below the entry of a search change. *)
Lemma separated_replace b es key found i e l :
  Forall (entry_ok b) es -> search_result ord key (e_rec b <$> es) found i -> es !! child_index found i = Some e ->
  Forall (fun x => x ∈ e_leaves e \/ same_key key x) l -> separated b es ->
  separated b (<[child_index found i := with_leaves l e]> es).
Proof.
  intros Hok Hres He Hl [Hge Hlt]. set (c := child_index found i) in *.
  pose proof (Forall_lookup_1 _ _ _ _ Hok He) as (_ & _ & _ & HPe).
  assert (forall j e2, es !! j = Some e2 -> (c < j)%nat -> Forall (fun x => ord x (e_rec b e2) < 0) l) as Habove.
  { intros j e2 Hj Hcj. pose proof (child_next_above b es key found i j e2 Hres Hj Hcj) as Hk2.
    pose proof (Forall_lookup_1 _ _ _ _ Hok Hj) as (_ & _ & _ & HPe2).
    eapply Forall_impl; [exact Hl|]. intros x [Hx|[HPx Hsame]]; [|by rewrite Hsame].
    rewrite <- (take_drop_middle _ _ _ He) in Hlt. apply StronglySorted_middle in Hlt as (_ & _ & _ & Hpost & _).
    replace j with (S c + (j - S c))%nat in Hj by lia. rewrite <- lookup_drop in Hj.
    eapply Forall_lookup_1 in Hpost; [|exact Hj]. by eapply Forall_forall in Hpost. }
  split.
  - destruct es as [|e0 es]; [done|]. destruct c as [|c'] eqn:Ec; [done|]. simpl in *.
    apply Forall_insert; [done|]. change (e_rec b (with_leaves l e)) with (e_rec b e).
    pose proof (child_not_above b (e0 :: es) key found i e Hres) as Hna. fold c in Hna. rewrite Ec in Hna.
    specialize (Hna He ltac:(lia)). eapply Forall_impl; [exact Hl|]. intros x [Hx|[HPx Hsame]].
    + eapply Forall_lookup_1 in Hge; [|exact He]. by eapply Forall_forall in Hge.
    + destruct (Z.le_gt_cases (ord (e_rec b e) x) 0) as [|Hgt]; [done|].
      apply Z.lt_gt, Z.gt_lt in Hgt. apply ord_antisym in Hgt; [|done|done]. rewrite Hsame in Hgt by done. lia.
  - assert (c < length es)%nat as Hc by (by eapply lookup_lt_Some).
    rewrite insert_take_drop by done. rewrite <- (take_drop_middle _ _ _ He) in Hlt.
    apply StronglySorted_middle in Hlt as (Hpre & Hpost & Hpe & _ & Hpp).
    apply StronglySorted_app. split_and!; [|done|].
    + intros a a' Ha [->|Ha']%elem_of_cons; [|by apply Hpp].
      change (e_rec b (with_leaves l e)) with (e_rec b e). by eapply Forall_forall in Hpe.
    + constructor; [done|]. apply Forall_lookup. intros j e2 Hj. rewrite lookup_drop in Hj. simpl.
      eapply Habove; [exact Hj|lia].
Qed.

Lemma replaceable_index b nodes key h n hdr res es node found i e ln :
  node_size_ok b -> (1 <= h)%nat -> nodes !! n = Some node -> node_rep b hdr res (e_rec b <$> es) node ->
  nd_height node = Some (Z.of_nat (S h)) -> nd_kind node = Some kBTIndexNode -> 0 < n < totalNodes b ->
  Forall (entry_ok b) es -> keys_sorted ord (e_rec b <$> es) -> separated b es ->
  Forall (fun e => bt_tree b nodes h (e_child e) (e_leaves e)) es ->
  search_result ord key (e_rec b <$> es) found i -> es !! child_index found i = Some e ->
  replaceable b nodes key h (e_child e) (e_leaves e) ln ->
  replaceable b nodes key (S h) n (concat (e_leaves <$> es)) ln.
Proof.
  intros Hb Hh1 Hn Hrep Hh Hk Hlt Hok Hsort Hsep Hch Hres He.
  intros (hdrL & resL & recs & nodeL & A & B & HnL & HrepL & HkL & HhL & EL & HPL & HsL & HltL & Hplug).
  set (c := child_index found i) in *. assert (c < length es)%nat as Hc by (by eapply lookup_lt_Some).
  exists hdrL, resL, recs, nodeL, (concat (e_leaves <$> take c es) ++ A), (B ++ concat (e_leaves <$> drop (S c) es)).
  split_and!; try done.
  { rewrite <- (take_drop_middle _ _ _ He) at 1. rewrite fmap_app, fmap_cons, concat_app, concat_cons, EL.
    by rewrite <- !app_assoc. }
  intros Hne node' hdr' res' recs' Hrep' Hh' Hk' Hs' HF.
  set (e' := with_leaves (A ++ recs' ++ B) e).
  replace ((concat (e_leaves <$> take c es) ++ A) ++ recs' ++ B ++ concat (e_leaves <$> drop (S c) es))
    with (concat (e_leaves <$> <[c := e']> es)).
  2:{ rewrite insert_take_drop by done. rewrite fmap_app, fmap_cons, concat_app, concat_cons. simpl.
      by rewrite <- !app_assoc. }
  assert (e_rec b <$> <[c := e']> es = e_rec b <$> es) as Erec.
  { rewrite list_fmap_insert. apply list_insert_id. by rewrite list_lookup_fmap, He. }
  assert (n <> ln) as Hnl.
  { intros ->. rewrite Hn in HnL. injection HnL as <-. by rewrite Hk in HkL. }
  assert (Forall (fun e => Forall P (e_leaves e)) es) as HPl.
  { eapply Forall_impl; [exact Hch|]. intros e2 He2. exact (bt_tree_P _ _ _ _ _ He2). }
  eapply bt_index; [done|by rewrite lookup_insert_ne|by rewrite Erec|done|done|done| | |by rewrite Erec| |].
  - intros E. apply (f_equal length) in E. rewrite length_insert in E. simpl in E. lia.
  - apply Forall_insert; [done|]. by apply (Forall_lookup_1 _ _ _ _ Hok He).
  - apply (separated_replace b es key found i e); try done. simpl. rewrite EL. apply Forall_app. split; [|apply Forall_app; split].
    + apply Forall_forall. intros x Hx. left. rewrite !elem_of_app. auto.
    + eapply Forall_impl; [exact HF|]. intros x [Hx|Hx]; [|by right]. left. rewrite !elem_of_app. auto.
    + apply Forall_forall. intros x Hx. left. rewrite !elem_of_app. auto.
  - assert (exists x, x ∈ recs) as [x Hx] by (destruct recs as [|x recs0]; [done|]; exists x; left).
    assert (x ∈ e_leaves e) as Hxe by (rewrite EL, !elem_of_app; auto).
    apply Forall_lookup. intros j e2 Hj. destruct (decide (j = c)) as [->|Hjc].
    + rewrite list_lookup_insert_eq in Hj by done. injection Hj as <-. by apply (Hplug Hne node' hdr' res').
    + rewrite list_lookup_insert_ne in Hj by done. pose proof (Forall_lookup_1 _ _ _ _ Hch Hj) as Hj2.
      eapply bt_tree_frame; try done. intros Hx2.
      pose proof (Forall_lookup_1 _ _ _ _ HPl Hj) as HP2. pose proof (Forall_lookup_1 _ _ _ _ HPl He) as HP1.
      destruct (decide (j < c)%nat).
      * by apply (separated_disjoint b es j c e2 e x).
      * apply (separated_disjoint b es c j e e2 x); try done. lia.
Qed.

(** ** SearchTree *)

Lemma tpt_set_run path level x :
  0 <= level < Z.of_nat (length path) ->
  exists path', tpt_set path level x = Some path' /\ length path' = length path /\ tpt_get path' level = Some x.
Proof.
  intros H. unfold tpt_set, tpt_get. destruct (Z.leb_spec 0 level); [|lia].
  destruct (lookup_lt_is_Some_2 path (Z.to_nat level)) as [y ->]; [lia|]. simpl. eexists. split; [done|].
  split; [by rewrite length_insert|]. by rewrite list_lookup_insert_eq by lia.
Qed.

(** What SearchTree gives back: a leaf, and the answer of the search in it. *)
Definition leaf_answer (b : BTreeControlBlock) (nodes : gmap Z bytes) (key : bytes) (leaves : list bytes)
    (out : search_out) : Prop :=
  exists hdr res recs node found i,
    nodes !! so_nodeNum out = Some node /\ node_rep b hdr res recs node /\ nd_kind node = Some kBTLeafNode /\
    so_node out = Some (so_nodeNum out) /\ so_nodeNum out <> 0 /\ so_index out = Z.of_nat i /\
    so_err out = (if (found : bool) then noErr else fsBTRecordNotFoundErr) /\
    search_result ord key recs found i /\
    (forall x, x ∈ recs -> x ∈ leaves) /\ (forall x, x ∈ leaves -> ord key x = 0 -> x ∈ recs) /\
    tpt_get (so_path out) 1 = Some (so_nodeNum out, so_index out).

Section Searching.
Context (b : BTreeControlBlock) (nodes : gmap Z bytes) (key : bytes).
Context (Hb : node_size_ok b) (Hkey : P key).

(** A state of the tree: [b] and [nodes], up to the counters. *)
Definition in_tree (s : btfile) : Prop :=
  (exists st, f_btcb s = with_stats st b) /\ f_nodes s = nodes /\ io_fine s.

Lemma in_tree_stats s s' : in_tree s -> stats_only s s' -> in_tree s'.
Proof.
  intros ((st & E1) & E2 & E3) [st' ->]. split; [|done]. exists st'. simpl. by rewrite E1.
Qed.

(** The child pointer of an entry, as SearchTree reads it. *)
Lemma entry_child hdr res es node j e :
  node_rep b hdr res (e_rec b <$> es) node -> es !! j = Some e -> entry_ok b e ->
  exists keyPtr dataPtr size, GetRecordByIndex b node (Z.of_nat j) = Some (inr (keyPtr, dataPtr, size)) /\
    ld32 node dataPtr = Some (e_child e).
Proof.
  intros Hrep Hj (Hk & Hraw & Hc & _).
  rewrite <- (take_drop_middle _ _ _ Hj), fmap_app, fmap_cons in Hrep.
  destruct (GetRecordByIndex_rep _ Hb _ _ _ _ _ _ _ _ Hrep Hk Hraw) as [E1 E2].
  rewrite length_fmap, length_take_le in E1 by (apply lookup_lt_Some in Hj; lia).
  do 3 eexists. split; [exact E1|]. unfold ld32. rewrite length_le32 in E2. change (Z.of_nat 4) with 4 in E2.
  rewrite E2. cbn [fmap option_fmap option_map]. rewrite le_value_le32; [done|lia].
Qed.

Lemma search_level hdr res recs node :
  node_rep b hdr res recs node -> Forall P recs -> keys_sorted ord recs ->
  exists found i, SearchNode cmp b node key = Some (found, Z.of_nat i) /\ search_result ord key recs found i.
Proof. intros Hrep HP Hs. exact (SearchNode_rep b Hb cmp P ord hdr res node key recs Hrep Hkey HP Hs). Qed.

(** The first steps at a node: it is fetched and its height and kind are right. *)
Lemma SearchTree_enter h n node path fuel kind found i s :
  in_tree s -> nodes !! n = Some node -> 0 < n < totalNodes b ->
  nd_height node = Some (Z.of_nat h) -> nd_kind node = Some kind ->
  (if Z.of_nat h =? 1 then kind = kBTLeafNode else kind = kBTIndexNode) ->
  SearchNode cmp b node key = Some (found, Z.of_nat i) -> Z.of_nat i <= UINT16_MAX -> (0 < h < length path)%nat ->
  exists s' path', in_tree s' /\ stats_only s s' /\ length path' = length path /\
    SearchTree_loop cmp key path n (Z.of_nat h) (S fuel) s =
    (if kind =? kBTLeafNode then
       path ← lift (tpt_set path' (Z.of_nat h) (n, Z.of_nat i));
       mret (mkSearch (if found then noErr else fsBTRecordNotFoundErr) path n (Some n) (Z.of_nat i))
     else
       path ← lift (tpt_set path' (Z.of_nat h) (n, Z.of_nat (child_index found i)));
       r ← read_node (Some n) (fun nd => GetRecordByIndex b nd (Z.of_nat (child_index found i)));
       match r with
       | inl err => _ ← TrashNode (Some n); search_fail err path
       | inr (_, dataPtr, _) =>
           curNodeNum ← read_node (Some n) (fun nd => ld32 nd dataPtr);
           '(err, nodeRec) ← ReleaseNode (Some n);
           if negb (err =? noErr) then search_fail err path else
           SearchTree_loop cmp key path curNodeNum (Z.of_nat h - 1) fuel
       end) s'.
Proof.
  intros Hs Hn Hlt Hh Hk Hkind Hsearch Hi Hlev.
  destruct Hs as ((st & Est) & Enodes & Hio).
  destruct (GetNode_run' n 0 s node Hio) as (s1 & E1 & Hs1); [by rewrite Est; simpl; lia|by rewrite Enodes|].
  exists s1. assert (in_tree s1) as Hin1 by (by eapply in_tree_stats; [split; [by eexists|done]|]).
  destruct (tpt_set_run path (Z.of_nat h) (n, snd (default (0, 0) (tpt_get path (Z.of_nat h)))))
    as (path' & Epath & Hlen & _); [lia|].
  exists path'. split; [done|]. split; [done|]. split; [done|].
  destruct Hin1 as ((st1 & Est1) & Enodes1 & Hio1).
  cbn [SearchTree_loop]. destruct (Z.eqb_spec n 0); [lia|].
  erewrite bind_run by exact E1. cbn [Z.eqb noErr negb].
  erewrite bind_run by reflexivity. rewrite Est1.
  erewrite bind_run by (apply (read_node_run _ _ node); [by rewrite Enodes1|exact Hh]).
  rewrite Z.eqb_refl. cbn [negb].
  erewrite bind_run by (apply (read_node_run _ _ node); [by rewrite Enodes1|exact Hk]).
  assert ((if Z.of_nat h =? 1 then negb (kind =? kBTLeafNode) else negb (kind =? kBTIndexNode)) = false) as ->
    by (destruct (Z.of_nat h =? 1); by subst kind).
  erewrite bind_run by (apply (read_node_run _ _ node); [by rewrite Enodes1|rewrite SearchNode_stats; exact Hsearch]). cbn match beta.
  erewrite bind_run by (unfold lift; rewrite Epath; reflexivity).
  destruct (kind =? kBTLeafNode); [done|].
  assert ((if negb found && negb (Z.of_nat i =? 0) then u16 (Z.of_nat i - 1) else Z.of_nat i) =
    Z.of_nat (child_index found i)) as ->; [|done].
  unfold child_index. destruct found; simpl; [done|]. destruct (Z.eqb_spec (Z.of_nat i) 0); simpl; [done|].
  rewrite u16_id by lia. lia.
Qed.

Lemma search_index_bound hdr res recs node found i :
  node_rep b hdr res recs node -> search_result ord key recs found i -> Z.of_nat i <= UINT16_MAX.
Proof.
  intros Hrep Hres. pose proof (node_rep_free _ Hb _ _ _ _ Hrep) as [_ Hn].
  destruct Hres as [_ Hres]. destruct found.
  - destruct Hres as (r & Hr%lookup_lt_Some & _). lia.
  - destruct Hres as [Hi _]. lia.
Qed.

Lemma child_index_lookup (es : list entry) found i :
  es <> [] -> search_result ord key (e_rec b <$> es) found i -> exists e, es !! child_index found i = Some e.
Proof.
  intros Hne [_ Hres]. unfold child_index. destruct found; simpl.
  - destruct Hres as (r & Hr & _). rewrite list_lookup_fmap in Hr. destruct (es !! i); [by eexists|done].
  - destruct Hres as [Hi _]. rewrite length_fmap in Hi. apply lookup_lt_is_Some_2.
    destruct (Z.eqb_spec (Z.of_nat i) 0); simpl; destruct es; simpl in *; try done; lia.
Qed.

Lemma SearchTree_loop_run h : forall n leaves path fuel s,
  bt_tree b nodes h n leaves -> in_tree s -> (h < length path)%nat -> (h < fuel)%nat ->
  exists out s', SearchTree_loop cmp key path n (Z.of_nat h) fuel s = Some (out, s') /\ stats_only s s' /\
    leaf_answer b nodes key leaves out /\ replaceable b nodes key h n leaves (so_nodeNum out).
Proof.
  induction h as [|h IH]; intros n leaves path fuel s Htree Hs Hpath Hfuel; [by inversion Htree|].
  destruct fuel as [|fuel]; [lia|].
  inversion Htree as [? hdr res recs node Hn Hrep Hh Hk Hlt HP Hsort|
    ? ? hdr res es node Hh1 Hn Hrep Hh Hk Hlt Hne Hok Hsort Hsep Hch]; subst.
  - destruct (search_level hdr res leaves node Hrep HP Hsort) as (found & i & Hsearch & Hres).
    pose proof (search_index_bound _ _ _ _ _ _ Hrep Hres) as Hi.
    destruct (SearchTree_enter 1 n node path fuel kBTLeafNode found i s Hs Hn Hlt Hh Hk eq_refl Hsearch Hi)
      as (s1 & path1 & Hs1 & Hst1 & Hlen1 & ->); [lia|]. change (kBTLeafNode =? kBTLeafNode) with true. cbn match.
    destruct (tpt_set_run path1 (Z.of_nat 1) (n, Z.of_nat i)) as (path2 & E2 & _ & Hget); [lia|].
    erewrite bind_run by (unfold lift; rewrite E2; reflexivity).
    eexists _, s1. split; [done|]. split; [done|]. split; [|by apply replaceable_leaf].
    exists hdr, res, leaves, node, found, i. simpl. split_and!; try done. lia.
  - assert (Forall P (e_rec b <$> es)) as HP.
    { apply Forall_fmap. eapply Forall_impl; [exact Hok|]. by intros e (_ & _ & _ & ?). }
    destruct (search_level hdr res _ node Hrep HP Hsort) as (found & i & Hsearch & Hres).
    pose proof (search_index_bound _ _ _ _ _ _ Hrep Hres) as Hi.
    destruct (child_index_lookup es found i Hne Hres) as [e He].
    destruct (SearchTree_enter (S h) n node path fuel kBTIndexNode found i s Hs Hn Hlt Hh Hk) as
      (s1 & path1 & Hs1 & Hst1 & Hlen1 & ->); [|done|done|lia|].
    { destruct (Z.eqb_spec (Z.of_nat (S h)) 1); [lia|done]. }
    change (kBTIndexNode =? kBTLeafNode) with false. cbn match.
    destruct (tpt_set_run path1 (Z.of_nat (S h)) (n, Z.of_nat (child_index found i))) as (path2 & E2 & Hlen2 & _); [lia|].
    erewrite bind_run by (unfold lift; rewrite E2; reflexivity).
    pose proof (Forall_lookup_1 _ _ _ _ Hok He) as Hoke.
    destruct (entry_child hdr res es node _ e Hrep He Hoke) as (kp & dp & sz & E3 & E4).
    destruct Hs1 as ((st1 & Est1) & En1 & Hio1).
    erewrite bind_run by (apply (read_node_run _ _ node); [by rewrite En1|exact E3]). cbn match beta.
    erewrite bind_run by (apply (read_node_run _ _ node); [by rewrite En1|exact E4]).
    destruct (ReleaseNode_run (Some n) s1 Hio1) as (s2 & E5 & Hst2). erewrite bind_run by exact E5.
    cbn [Z.eqb noErr negb]. replace (Z.of_nat (S h) - 1) with (Z.of_nat h) by lia.
    assert (in_tree s2) as Hs2 by (eapply in_tree_stats; [|exact Hst2]; split; [by eexists|done]).
    destruct (IH (e_child e) (e_leaves e) path2 fuel s2) as (out & s3 & -> & Hst3 & Hans & Hrepl);
      [by apply (Forall_lookup_1 _ _ _ _ Hch He)|done|lia|lia|].
    exists out, s3. split; [done|]. split; [eapply stats_only_trans; [exact Hst1|by eapply stats_only_trans]|].
    split; [|by eapply replaceable_index].
    destruct Hans as (hdr' & res' & recs & node' & found' & i' & H1 & H2 & H3 & H4 & H5 & H6 & H7 & H8 & H9 & H10 & H11).
    exists hdr', res', recs, node', found', i'. split_and!; try done.
    + intros x Hx. apply list_elem_of_In, in_concat. exists (e_leaves e). split.
      * apply list_elem_of_In, list_elem_of_fmap. exists e. split; [done|]. by eapply list_elem_of_lookup_2.
      * by apply list_elem_of_In, H9.
    + intros x Hx Hkx. apply H10; [|done]. eapply (search_goes_right b es key found i e x); try done.
      eapply Forall_impl; [exact Hch|]. intros e' He'. exact (bt_tree_P _ _ _ _ _ He').
Qed.
End Searching.

(** SearchTree from the root, with what its callers need of the leaf. *)
Lemma SearchTree_run s key leaves :
  io_fine s -> node_size_ok (f_btcb s) -> P key -> 0 < treeDepth (f_btcb s) < Z.of_nat kMaxTreeDepth ->
  bt_tree (f_btcb s) (f_nodes s) (Z.to_nat (treeDepth (f_btcb s))) (rootNode (f_btcb s)) leaves ->
  exists out s', SearchTree cmp key new_path s = Some (out, s') /\ stats_only s s' /\
    leaf_answer (f_btcb s) (f_nodes s) key leaves out /\
    replaceable (f_btcb s) (f_nodes s) key (Z.to_nat (treeDepth (f_btcb s))) (rootNode (f_btcb s)) leaves (so_nodeNum out).
Proof.
  intros Hio Hb Hkey Hd Htree. unfold SearchTree. erewrite bind_run by reflexivity.
  destruct (Z.eqb_spec (treeDepth (f_btcb s)) 0); [lia|].
  destruct (tpt_set_run new_path 0 (0, 0)) as (path & E & Hlen & _); [simpl; lia|].
  erewrite bind_run by (unfold lift; rewrite E; reflexivity).
  destruct (SearchTree_loop_run (f_btcb s) (f_nodes s) key Hb Hkey (Z.to_nat (treeDepth (f_btcb s)))
    (rootNode (f_btcb s)) leaves path (S (Z.to_nat (treeDepth (f_btcb s)))) s) as (out & s' & Hrun & H).
  - done.
  - split; [|done]. exists (stats (f_btcb s)). by destruct (f_btcb s).
  - rewrite Hlen. unfold new_path. rewrite length_replicate. lia.
  - lia.
  - rewrite Z2Nat.id in Hrun by lia. by exists out, s'.
Qed.

(** The answer for the leaf is the answer for the tree. *)
Lemma leaf_answer_err b nodes key leaves out :
  leaf_answer b nodes key leaves out ->
  so_err out = (if bool_decide (Exists (fun x => ord key x = 0) leaves) then noErr else fsBTRecordNotFoundErr).
Proof.
  intros (hdr & res & recs & node & found & i & _ & _ & _ & _ & _ & _ & -> & [Hlo Hres] & Hsub & Hsup & _).
  destruct found.
  - destruct Hres as (r & Hr & Hr0 & _). rewrite bool_decide_eq_true_2; [done|].
    apply Exists_exists. exists r. split; [|done]. apply Hsub. by eapply list_elem_of_lookup_2.
  - destruct Hres as [_ Hhi]. rewrite bool_decide_eq_false_2; [done|].
    intros (x & Hx & Hkx)%Exists_exists. pose proof (Hsup x Hx Hkx) as Hin.
    rewrite <- (take_drop i recs) in Hin. apply elem_of_app in Hin as [Hin|Hin].
    + eapply Forall_forall in Hlo; [|exact Hin]. simpl in Hlo. lia.
    + eapply Forall_forall in Hhi; [|exact Hin]. simpl in Hhi. lia.
Qed.

(** C35: On a well-formed B-tree whose depth is above 0 and below 16, the entries of the
    path table, and when the block I/O does not fail, SearchTree terminates without
    leaving a buffer or the path table, and answers noErr exactly when the tree has a
    record with the key, fsBTRecordNotFoundErr otherwise; the leaf and index it returns
    are the ones of the record, or where it belongs, and are recorded in the path table.
    *)
Theorem SearchTree_correct s key leaves :
  io_fine s -> node_size_ok (f_btcb s) -> P key -> 0 < treeDepth (f_btcb s) < Z.of_nat kMaxTreeDepth ->
  bt_tree (f_btcb s) (f_nodes s) (Z.to_nat (treeDepth (f_btcb s))) (rootNode (f_btcb s)) leaves ->
  exists out s', SearchTree cmp key new_path s = Some (out, s') /\ stats_only s s' /\
    leaf_answer (f_btcb s) (f_nodes s) key leaves out /\
    so_err out = (if bool_decide (Exists (fun x => ord key x = 0) leaves) then noErr else fsBTRecordNotFoundErr).
Proof.
  intros Hio Hb Hkey Hd Htree.
  destruct (SearchTree_run s key leaves Hio Hb Hkey Hd Htree) as (out & s' & Hrun & Hst & Hans & _).
  exists out, s'. split_and!; try done. by eapply leaf_answer_err.
Qed.
End Tree.

(** ** SplitLeft *)

(** The control blocks that agree on what the layout of nodes and keys depends on. *)
Definition same_layout (b b' : BTreeControlBlock) : Prop :=
  nodeSize b' = nodeSize b /\ attributes b' = attributes b /\ maxKeyLength b' = maxKeyLength b /\
  totalNodes b' = totalNodes b.

Lemma node_rep_layout b b' hdr res recs node :
  same_layout b b' -> node_rep b hdr res recs node -> node_rep b' hdr res recs node.
Proof. intros (E & _) (gap & ? & ? & ?). exists gap. by rewrite E. Qed.

Lemma layout_keys b b' :
  same_layout b b' ->
  lengthSize b' = lengthSize b /\ (forall k raw d, keyed_record b' k raw d = keyed_record b k raw d) /\
  (forall p raw, key_ok b p raw -> key_ok b' p raw) /\ (forall p f, GetKeyLength b' p f = GetKeyLength b p f) /\
  (node_size_ok b -> node_size_ok b').
Proof.
  intros (E1 & E2 & E3 & _).
  assert (forall m, bt_attr b' m = bt_attr b m) as Ea by (intros m; unfold bt_attr; by rewrite E2).
  assert (lengthSize b' = lengthSize b) as El by (unfold lengthSize; by rewrite Ea).
  split_and!.
  - done.
  - intros. unfold keyed_record, key_field, length_field, keyed_size. by rewrite Ea, El.
  - intros p raw. unfold key_ok, KeyLength. by rewrite Ea, El.
  - intros p f. unfold GetKeyLength, KeyLength. by rewrite !Ea, E3.
  - unfold node_size_ok. by rewrite E1.
Qed.

Lemma same_layout_trans b1 b2 b3 : same_layout b1 b2 -> same_layout b2 b3 -> same_layout b1 b3.
Proof. intros (? & ? & ? & ?) (? & ? & ? & ?). split_and!; congruence. Qed.

(** A node of the file that is not a map node and whose bit is set. *)
Definition live_node (s : btfile) (L0 : list (Z * list Z)) (n : Z) (hdr res : bytes) (recs : list bytes) (node : bytes) : Prop :=
  f_nodes s !! n = Some node /\ node_rep (f_btcb s) hdr res recs node /\ 0 <= n /\ n ∉ L0.*1 /\
  map_bits L0 !! Z.to_nat n = Some true.

(** The header of the new node. *)
Definition mk_hdr (fLink bLink kind height : Z) : bytes :=
  le32 fLink ++ le32 bLink ++ le_bytes 1 kind ++ le_bytes 1 height.

Lemma mk_hdr_fields fl bl kd h :
  0 <= fl <= UINT32_MAX -> 0 <= bl <= UINT32_MAX -> ld32 (mk_hdr fl bl kd h) 0 = Some fl /\ ld32 (mk_hdr fl bl kd h) 4 = Some bl.
Proof.
  intros Hf Hbl. split; unfold ld32.
  - unfold mk_hdr. rewrite get_bytes_head by done. cbn [fmap option_fmap option_map]. by rewrite le_value_le32.
  - unfold mk_hdr. rewrite (get_bytes_app (le32 fl)) by done. cbn [fmap option_fmap option_map]. by rewrite le_value_le32.
Qed.

(** GetNewNode gives an empty node. *)
Lemma GetNewNode_run n s :
  io_fine s -> node_size_ok (f_btcb s) ->
  (forall old, f_nodes s !! n = Some old -> len old = nodeSize (f_btcb s)) ->
  exists s' node, GetNewNode n s = Some ((noErr, Some n), s') /\
    node_rep (f_btcb s) (replicate 10 0) (replicate 2 0) [] node /\
    s' = with_nodes (<[n := node]> (f_nodes s)) (with_btcb (incr_numGetNewNodes (f_btcb s)) s).
Proof.
  intros Hio Hb Hold. unfold GetNewNode. erewrite bind_run by reflexivity.
  rewrite (bind_run _ _ s noErr s) by (unfold io_result; by rewrite Hio). cbn [Z.eqb noErr negb].
  erewrite bind_run by reflexivity. erewrite bind_run by reflexivity. simpl f_nodes.
  set (old := default _ _).
  assert (len old = nodeSize (f_btcb s)) as Hlen.
  { subst old. destruct (f_nodes s !! n) as [o|] eqn:E; simpl; [by apply Hold|].
    rewrite length_replicate. unfold node_size_ok in Hb. lia. }
  unfold node_size_ok in Hb.
  assert (exists n1, ClearNode (f_btcb s) old = Some n1 /\ len n1 = nodeSize (f_btcb s)) as (n1 & E1 & Hl1).
  { unfold ClearNode. rewrite <- Hlen. eexists. split.
    - replace old with ([] ++ old ++ []) at 1 by (by rewrite app_nil_r). by apply ClearMemory_app.
    - simpl. rewrite app_nil_r, length_replicate. done. }
  assert (exists n2, st16 n1 (nodeSize (f_btcb s) - 2) sizeof_BTNodeDescriptor = Some n2) as (n2 & E2).
  { unfold st16, put_bytes. rewrite length_le16. destruct (Z.leb_spec 0 (nodeSize (f_btcb s) - 2)); [|lia].
    destruct (Z.leb_spec (nodeSize (f_btcb s) - 2 + Z.of_nat 2) (len n1)); [by eexists|lia]. }
  erewrite bind_run by (unfold lift; rewrite E1; reflexivity).
  erewrite bind_run by (unfold lift; rewrite E2; reflexivity).
  eexists _, n2. split; [reflexivity|]. split; [|done].
  by apply (new_node_rep _ Hb old n1).
Qed.

(** Storing the links, kind and height of the new node. *)
Lemma init_header b node res recs fl bl kd h :
  node_rep b (replicate 10 0) res recs node ->
  exists node', (n ← set_fLink node fl; n ← set_bLink n bl; n ← set_kind n kd; set_height n h) = Some node' /\
    node_rep b (mk_hdr fl bl kd h) res recs node'.
Proof.
  intros H0. unfold set_fLink, set_bLink, set_kind, set_height, st32, st8.
  destruct (put_in_header b _ _ _ _ 0 (le32 fl) (le32 fl ++ replicate 6 0) H0 eq_refl) as (n1 & -> & H1).
  cbn [mbind option_bind].
  destruct (put_in_header b _ _ _ _ 4 (le32 bl) (le32 fl ++ le32 bl ++ [0; 0]) H1 eq_refl) as (n2 & -> & H2).
  cbn [mbind option_bind].
  destruct (put_in_header b _ _ _ _ 8 (le_bytes 1 kd) (le32 fl ++ le32 bl ++ le_bytes 1 kd ++ [0]) H2 eq_refl) as (n3 & -> & H3).
  cbn [mbind option_bind].
  destruct (put_in_header b _ _ _ _ 9 (le_bytes 1 h) (mk_hdr fl bl kd h) H3 eq_refl) as (n4 & -> & H4).
  by exists n4.
Qed.

(** Storing one link of a node: the others stay, and so do kind and height. *)
Lemma set_link b hdr res recs node v :
  node_rep b hdr res recs node -> 0 <= v <= UINT32_MAX ->
  (exists node' hdr', set_fLink node v = Some node' /\ node_rep b hdr' res recs node' /\
     nd_fLink node' = Some v /\ nd_bLink node' = nd_bLink node /\ nd_kind node' = nd_kind node /\ nd_height node' = nd_height node) /\
  (exists node' hdr', set_bLink node v = Some node' /\ node_rep b hdr' res recs node' /\
     nd_bLink node' = Some v /\ nd_fLink node' = nd_fLink node /\ nd_kind node' = nd_kind node /\ nd_height node' = nd_height node).
Proof.
  intros Hrep Hv. destruct (node_rep_lengths _ _ _ _ _ Hrep) as (Hh & _).
  destruct (header_rep _ _ _ _ _ Hrep) as (F & B & K & H).
  do 11 (destruct hdr as [|? hdr]; try done).
  pose proof (le_value_le32 v Hv) as Ev.
  split.
  - edestruct (put_in_header b _ _ _ _ 0 (le32 v) _ Hrep eq_refl) as (node' & E & Hrep').
    exists node'. eexists. split; [exact E|]. split; [exact Hrep'|].
    destruct (header_rep _ _ _ _ _ Hrep') as (-> & -> & -> & ->). rewrite B, K, H.
    split_and!; try reflexivity. etransitivity; [|exact (f_equal Some Ev)]. reflexivity.
  - edestruct (put_in_header b _ _ _ _ 4 (le32 v) _ Hrep eq_refl) as (node' & E & Hrep').
    exists node'. eexists. split; [exact E|]. split; [exact Hrep'|].
    destruct (header_rep _ _ _ _ _ Hrep') as (-> & -> & -> & ->). rewrite F, K, H.
    split_and!; try reflexivity. etransitivity; [|exact (f_equal Some Ev)]. reflexivity.
Qed.

Lemma rotate_nodes_run ln rn idx keyPtr recPtr recSize s left right res :
  f_nodes s !! ln = Some left -> f_nodes s !! rn = Some right ->
  RotateLeft (f_btcb s) left right idx keyPtr recPtr recSize = Some res ->
  rotate_nodes (Some ln) (Some rn) idx keyPtr recPtr recSize s =
  Some (res, with_nodes (<[rn := rot_right res]> (<[ln := rot_left res]> (f_nodes s))) s).
Proof.
  intros Hl Hr E. unfold rotate_nodes, mbind, BT_bind, btcb, buffer, lift, set_buffer. simpl.
  rewrite Hl. simpl. rewrite Hr. simpl. by rewrite E.
Qed.

Section Split.
Context (s : btfile) (L0 : list (Z * list Z)) (k : nat).
Context (Hio : io_fine s) (Hb : node_size_ok (f_btcb s)) (Hmap : node_map s L0).
Context (Hmax : len (map_bits L0) <= UINT32_MAX) (Hk : first_clear (map_bits L0) k).
Context (Hkt : Z.of_nat k < totalNodes (f_btcb s)).
Context (Hmapused : Forall (fun m => map_bits L0 !! Z.to_nat m = Some true) L0.*1).
Context (Hsizes : forall n old, f_nodes s !! n = Some old -> len old = nodeSize (f_btcb s)).

Lemma fresh_node n : 0 <= n -> map_bits L0 !! Z.to_nat n = Some true -> n <> Z.of_nat k.
Proof. intros Hn Hbit ->. rewrite Nat2Z.id in Hbit. destruct Hk as [_ Hclr]. congruence. Qed.

Lemma fresh_not_map : Z.of_nat k ∉ L0.*1.
Proof.
  intros Hin. eapply Forall_forall in Hmapused; [|exact Hin]. simpl in Hmapused.
  rewrite Nat2Z.id in Hmapused. destruct Hk as [_ Hclr]. congruence.
Qed.

Lemma first_clear_unique bits i j : first_clear bits i -> first_clear bits j -> i = j.
Proof.
  intros [Hi1 Hi2] [Hj1 Hj2]. destruct (Nat.lt_trichotomy i j) as [H|[H|H]]; [|done|].
  - eapply Forall_lookup_1 in Hj1; [|rewrite lookup_take_lt by done; exact Hi2]. done.
  - eapply Forall_lookup_1 in Hi1; [|rewrite lookup_take_lt by done; exact Hj2]. done.
Qed.

(** The allocation of the new node. *)
Lemma split_allocates :
  exists s1, AllocateNode s = Some ((noErr, Z.of_nat k), s1) /\ io_fine s1 /\
    same_layout (f_btcb s) (f_btcb s1) /\ firstLeafNode (f_btcb s1) = firstLeafNode (f_btcb s) /\
    treeDepth (f_btcb s1) = treeDepth (f_btcb s) /\
    (forall m, m ∉ L0.*1 -> f_nodes s1 !! m = f_nodes s !! m).
Proof.
  destruct (AllocateNode_run s L0 Hio Hb Hmap Hmax) as (s1 & [(Hall & _)|(k' & Hk' & H)]).
  { exfalso. destruct Hk as [_ Hclr]. eapply Forall_lookup_1 in Hall; [|exact Hclr]. done. }
  rewrite (first_clear_unique _ _ _ Hk' Hk) in *. rewrite Z.add_0_l in H.
  destruct (Z.leb_spec (totalNodes (f_btcb s)) (Z.of_nat k)); [lia|].
  destruct H as (Hrun & L' & _ & _ & _ & Hframe & (st & Est) & _ & Hio1).
  exists s1. rewrite Est. split_and!; try done.
Qed.

Context (rn : Z) (hdrR resR : bytes) (r1 r2 : list bytes) (right : bytes) (rbl h kd : Z).
Context (Hright : live_node s L0 rn hdrR resR (r1 ++ r2) right).
Context (Hrbl : nd_bLink right = Some rbl) (Hrh : nd_height right = Some h) (Hrk : nd_kind right = Some kd).
Context (Hrn : rn <= UINT32_MAX) (Hrbl32 : 0 <= rbl <= UINT32_MAX) (Hleafkind : h = 1 -> kd = kBTLeafNode).

(** The left sibling, when there is one. *)
Definition left_ok (leftNode : NodeRec) : Prop :=
  match leftNode with
  | None => True
  | Some ln => ln <> rn /\ exists hdrL resL recsL left, live_node s L0 ln hdrL resL recsL left /\
      nd_fLink left = Some rn /\ nd_height left = Some h /\ nd_kind left = Some kd
  end.

Lemma SplitLeft_check_run leftNode :
  left_ok leftNode -> SplitLeft_check leftNode (Some rn) rn s = Some (true, s).
Proof.
  intros Hleft. destruct Hright as (Hn & _). unfold SplitLeft_check.
  rewrite (bind_run _ _ s h s) by (by apply (read_node_run _ _ right)).
  rewrite (bind_run _ _ s kd s) by (by apply (read_node_run _ _ right)).
  assert ((h =? 1) && negb (kd =? kBTLeafNode) = false) as ->.
  { destruct (Z.eqb_spec h 1) as [E|]; [|done]. by rewrite (Hleafkind E). }
  destruct leftNode as [ln|]; [|done].
  destruct Hleft as (_ & hdrL & resL & recsL & left & (Hln & _) & Hf & Hlh & Hlk).
  rewrite (bind_run _ _ s rn s) by (by apply (read_node_run _ _ left)).
  rewrite (bind_run _ _ s h s) by (by apply (read_node_run _ _ left)).
  rewrite (bind_run _ _ s kd s) by (by apply (read_node_run _ _ left)).
  by rewrite !Z.eqb_refl.
Qed.

(** The old left sibling points to the new node. *)
Lemma split_relinks leftNode s1 :
  left_ok leftNode -> io_fine s1 -> same_layout (f_btcb s) (f_btcb s1) ->
  (forall m, m ∉ L0.*1 -> f_nodes s1 !! m = f_nodes s !! m) ->
  exists s2,
    (match leftNode with
     | Some _ => _ ← update_node leftNode (fun n => set_fLink n (Z.of_nat k)); UpdateNode leftNode
     | None => mret (noErr, None)
     end) s1 = Some ((noErr, None), s2) /\ io_fine s2 /\
    (exists st, f_btcb s2 = with_stats st (f_btcb s1)) /\
    (forall m, Some m <> leftNode -> f_nodes s2 !! m = f_nodes s1 !! m) /\
    (forall ln, leftNode = Some ln -> exists left left' hdrL' resL recsL,
       f_nodes s !! ln = Some left /\ f_nodes s2 !! ln = Some left' /\
       node_rep (f_btcb s) hdrL' resL recsL left' /\ nd_fLink left' = Some (Z.of_nat k) /\
       nd_bLink left' = nd_bLink left /\ exists hdrL, node_rep (f_btcb s) hdrL resL recsL left).
Proof.
  intros Hleft Hio1 Hlay Hframe. destruct leftNode as [ln|].
  - destruct Hleft as (Hne & hdrL & resL & recsL & left & (Hln & Hrep & Hln0 & Hnotmap & _) & _).
    destruct Hk as [_ Hk'%lookup_lt_Some].
    destruct (set_link (f_btcb s) hdrL resL recsL left (Z.of_nat k) Hrep ltac:(lia)) as [(left' & hdrL' & E & Hrep' & F & B & _) _].
    erewrite bind_run by (apply (update_node_run ln s1 left); [by rewrite Hframe|exact E]).
    edestruct (UpdateNode_run ln) as (s2 & E2 & [st ->]); [|rewrite E2]; [exact Hio1|].
    eexists. split; [done|]. split; [done|]. split; [by eexists|]. split.
    + intros m Hm. simpl. rewrite lookup_insert_ne; [done|]. congruence.
    + intros ? [= <-]. exists left, left', hdrL', resL, recsL. simpl. rewrite lookup_insert_eq. split_and!; try done. by exists hdrL.
  - exists s1. split_and!; try done. exists (stats (f_btcb s1)). by destruct (f_btcb s1).
Qed.
(** The new node takes over the links of the right one. *)
Lemma split_init s3 node0 :
  io_fine s3 -> same_layout (f_btcb s) (f_btcb s3) -> rn <> Z.of_nat k ->
  f_nodes s3 !! Z.of_nat k = Some node0 -> node_rep (f_btcb s) (replicate 10 0) [0; 0] [] node0 ->
  f_nodes s3 !! rn = Some right ->
  exists s4 left' right' hdrR', SplitLeft_init (Some (Z.of_nat k)) (Some rn) rn (Z.of_nat k) s3 = Some (tt, s4) /\
    io_fine s4 /\ same_layout (f_btcb s) (f_btcb s4) /\
    f_nodes s4 = <[rn := right']> (<[Z.of_nat k := left']> (f_nodes s3)) /\
    node_rep (f_btcb s) (mk_hdr rn rbl kd h) [0; 0] [] left' /\
    node_rep (f_btcb s) hdrR' resR (r1 ++ r2) right' /\
    nd_bLink right' = Some (Z.of_nat k) /\ nd_fLink right' = nd_fLink right /\ nd_kind right' = Some kd /\
    firstLeafNode (f_btcb s4) =
      (if bool_decide (kd = kBTLeafNode /\ rbl = 0) then Z.of_nat k else firstLeafNode (f_btcb s3)).
Proof.
  intros Hio3 Hlay Hne Hk3 Hrep0 Hn3. destruct Hright as (_ & HrepR & _).
  destruct Hk as [_ Hk'%lookup_lt_Some].
  destruct (init_header _ _ _ _ rn rbl kd h Hrep0) as (left' & E1 & Hl').
  destruct (set_link _ _ _ _ _ (Z.of_nat k) HrepR ltac:(lia)) as [_ (right' & hdrR' & E2 & Hr' & B & F & K & _)].
  unfold SplitLeft_init.
  rewrite (bind_run _ _ s3 rbl s3) by (by apply (read_node_run _ _ right)).
  rewrite (bind_run _ _ s3 kd s3) by (by apply (read_node_run _ _ right)).
  rewrite (bind_run _ _ s3 h s3) by (by apply (read_node_run _ _ right)).
  erewrite bind_run by (apply (update_node_run _ _ node0); [done|exact E1]).
  erewrite bind_run by (apply (update_node_run _ _ right); [simpl; by rewrite lookup_insert_ne|exact E2]).
  assert ((kd =? kBTLeafNode) && (rbl =? 0) = bool_decide (kd = kBTLeafNode /\ rbl = 0)) as ->.
  { destruct (Z.eqb_spec kd kBTLeafNode), (Z.eqb_spec rbl 0); symmetry;
      (apply bool_decide_eq_true_2 || apply bool_decide_eq_false_2); naive_solver. }
  case_bool_decide.
  - eexists _, left', right', hdrR'. split; [reflexivity|]. split_and!; try done; try (by destruct Hlay as (? & ? & ? & ?)).
    by rewrite K.
  - eexists _, left', right', hdrR'. split; [reflexivity|]. split_and!; try done; try (by destruct Hlay as (? & ? & ? & ?)).
    by rewrite K.
Qed.

Context (keyPtr raw recPtr data : bytes) (keyLength : Z).
Context (Hkey : key_ok (f_btcb s) keyPtr raw) (Hkl : len raw <= keyLength <= UINT16_MAX - 4).
Context (Hdata : get_bytes recPtr 0 (len data) = Some data) (Hdl : lengthSize (f_btcb s) <= len data).
Context (Heven : M_IsOdd (len data) = false).
Context (Hgkl : GetKeyLength (f_btcb s) keyPtr (kd =? kBTLeafNode) = Some keyLength).
Notation rec := (keyed_record (f_btcb s) keyLength raw data).
Notation All := (r1 ++ rec :: r2).
(** Any two of the records fit in a node. *)
Context (Hsmall : Forall (fun x => len rec + 2 + (len x + 2) <= nodeSize (f_btcb s) - 16) All).

(** The outcome: the new node [k] and the right node share the records. *)
Definition split_done (leftNode : NodeRec) (sp : split_out) (s' : btfile) : Prop :=
  exists m nl nr hdrN hdrR' idx node,
    sp = mkSplit noErr (Some (Z.of_nat k)) (Some rn) idx node (Z.of_nat m) /\
    f_nodes s' !! Z.of_nat k = Some nl /\ f_nodes s' !! rn = Some nr /\
    node_rep (f_btcb s) hdrN [0; 0] (take m All) nl /\ node_rep (f_btcb s) hdrR' resR (drop m All) nr /\
    nd_fLink nl = Some rn /\ nd_bLink nl = Some rbl /\
    nd_bLink nr = Some (Z.of_nat k) /\ nd_fLink nr = nd_fLink right /\
    (if decide (length r1 < m)%nat then idx = len r1 /\ node = Z.of_nat k
     else idx = len r1 - Z.of_nat m /\ node = rn) /\
    firstLeafNode (f_btcb s') =
      (if bool_decide (kd = kBTLeafNode /\ rbl = 0) then Z.of_nat k else firstLeafNode (f_btcb s)) /\
    (forall x, x ∉ L0.*1 -> x <> Z.of_nat k -> x <> rn -> Some x <> leftNode -> f_nodes s' !! x = f_nodes s !! x) /\
    (forall ln, leftNode = Some ln -> exists left', f_nodes s' !! ln = Some left' /\ nd_fLink left' = Some (Z.of_nat k)).

Lemma SplitLeft_run leftNode :
  left_ok leftNode ->
  exists sp s', SplitLeft leftNode (Some rn) rn (len r1) keyPtr recPtr (len data) s = Some (sp, s') /\
    split_done leftNode sp s'.
Proof.
  intros Hleft. pose proof Hright as (Hn & HrepR & Hrn0 & Hnotmap & Hbit).
  pose proof (fresh_node rn Hrn0 Hbit) as Hrnk.
  unfold SplitLeft. rewrite (bind_run _ _ _ _ _ (SplitLeft_check_run leftNode Hleft)). cbn [negb].
  destruct split_allocates as (s1 & E1 & Hio1 & Hlay1 & Hfl1 & _ & Hframe1).
  rewrite (bind_run _ _ _ _ _ E1). cbn match beta. cbn [exit_on_error Z.eqb noErr].
  destruct (split_relinks leftNode s1 Hleft Hio1 Hlay1 Hframe1) as (s2 & E2 & Hio2 & (st2 & Est2) & Hframe2 & Hln2).
  rewrite (bind_run _ _ _ _ _ E2). cbn match beta. cbn [exit_on_error Z.eqb noErr].
  assert (same_layout (f_btcb s) (f_btcb s2)) as Hlay2 by (rewrite Est2; by destruct Hlay1 as (? & ? & ? & ?)).
  assert (Some (Z.of_nat k) <> leftNode) as Hkln.
  { intros <-. destruct Hleft as (_ & ? & ? & ? & ? & (_ & _ & H0 & _ & Hb2) & _). by apply (fresh_node _ H0 Hb2). }
  destruct (layout_keys _ _ Hlay2) as (_ & _ & _ & _ & Hb2).
  destruct (GetNewNode_run (Z.of_nat k) s2 Hio2 (Hb2 Hb)) as (s3 & node0 & E3 & Hrep0 & Es3).
  { intros old Hold. rewrite Hframe2, Hframe1 in Hold by (done || apply fresh_not_map).
    destruct Hlay2 as (-> & _). by eapply Hsizes. }
  rewrite (bind_run _ _ _ _ _ E3). cbn match beta. cbn [exit_on_error Z.eqb noErr].
  assert (same_layout (f_btcb s) (f_btcb s3)) as Hlay3 by (subst s3; by destruct Hlay2 as (? & ? & ? & ?)).
  assert (same_layout (f_btcb s2) (f_btcb s)) as Hlay2' by (destruct Hlay2 as (? & ? & ? & ?); by split_and!).
  assert (Some rn <> leftNode) as Hrnln by (intros <-; destruct Hleft as [Hx _]; by apply Hx).
  destruct (split_init s3 node0) as (s4 & left' & right' & hdrR' & E4 & Hio4 & Hlay4 & En4 & Hl' & Hr' & HbR & HfR & HkR & Hfl4).
  { by subst s3. } { done. } { done. } { subst s3. simpl. by rewrite lookup_insert_eq. }
  { by eapply node_rep_layout. }
  { subst s3. simpl. rewrite lookup_insert_ne by done. rewrite Hframe2, Hframe1 by done. done. }
  rewrite (bind_run _ _ _ _ _ E4).
  (* the rotation *)
  destruct (layout_keys _ _ Hlay4) as (El4 & Er4 & Hk4 & Hg4 & Hb4).
  destruct (RotateLeft_rep (f_btcb s4) (Hb4 Hb) (mk_hdr rn rbl kd h) [0; 0] hdrR' resR [] r1 r2 keyPtr raw recPtr data
    keyLength (Hk4 _ _ Hkey) Hkl Hdata ltac:(by rewrite El4) right' (node_rep_layout _ _ _ _ _ _ Hlay4 Hr') Heven
    left' (node_rep_layout _ _ _ _ _ _ Hlay4 Hl')) as (res & E5 & Herr & Hres).
  { exists kd. split; [done|]. by rewrite Hg4. }
  rewrite Er4 in Hres.
  assert (rot_recordFit res = true) as Hfit.
  { destruct (rot_recordFit res); [done|]. destruct Hres as (_ & m & x & Hx & Hls & Hrs).
    exfalso. unfold left_size, right_size in Hls, Hrs. rewrite Er4 in Hls, Hrs.
    rewrite (take_S_r _ _ _ Hx), weight_app, weight_cons, weight_nil in Hls.
    pose proof (weight_split m All) as Hw. rewrite (weight_app r1), weight_cons in Hw.
    pose proof (node_rep_free _ Hb _ _ _ _ HrepR) as [Hf _]. rewrite free_space_used in Hf.
    unfold used in Hf, Hls. rewrite weight_app in Hf. rewrite weight_nil in Hls.
    eapply Forall_lookup_1 in Hsmall; [|exact Hx]. simpl in Hsmall.
    destruct Hlay4 as (EN & _). rewrite EN in Hls, Hrs. lia. }
  rewrite Hfit in Hres. destruct Hres as (m & Hm & Erot & Hnl & Hnr & Hplace).
  assert (same_layout (f_btcb s4) (f_btcb s)) as Hlay4' by (destruct Hlay4 as (? & ? & ? & ?); by split_and!).
  apply (node_rep_layout _ _ _ _ _ _ Hlay4') in Hnl, Hnr. simpl in Hnl.
  destruct (header_rep _ _ _ _ _ Hnl) as (Fl & Bl & _). destruct (header_rep _ _ _ _ _ Hnr) as (Fr & Br & _).
  destruct (header_rep _ _ _ _ _ Hr') as (Fr0 & Br0 & _).
  destruct (mk_hdr_fields rn rbl kd h ltac:(lia) Hrbl32) as [M1 M2].
  assert (f_nodes s4 !! Z.of_nat k = Some left') as Hk4n
    by (rewrite En4, lookup_insert_ne by done; by rewrite lookup_insert_eq).
  assert (f_nodes s4 !! rn = Some right') as Hr4n by (rewrite En4; by rewrite lookup_insert_eq).
  rewrite (bind_run _ _ _ _ _ (rotate_nodes_run _ _ _ _ _ _ _ _ _ _ Hk4n Hr4n E5)).
  rewrite Herr. cbn [exit_on_error Z.eqb noErr]. eexists _, _. split; [reflexivity|].
  exists m, (rot_left res), (rot_right res), (mk_hdr rn rbl kd h), hdrR', (rot_insertIndex res), (rot_insertNodeNum res).
  rewrite Erot. simpl f_nodes. split_and!; try done.
  - rewrite lookup_insert_ne by done. by rewrite lookup_insert_eq.
  - by rewrite lookup_insert_eq.
  - by rewrite Fl.
  - by rewrite Bl.
  - by rewrite Br, <- Br0.
  - by rewrite Fr, <- Fr0.
  - unfold insert_place in Hplace. destruct (header_rep _ _ _ _ _ Hl') as (Fl' & _).
    case_decide; destruct Hplace as [-> Hp]; (split; [simpl; lia|]); [congruence|].
    rewrite Fl', M1 in Hp. congruence.
  - simpl. rewrite Hfl4. subst s3. simpl. rewrite Est2. simpl. by rewrite Hfl1.
  - intros x Hx1 Hx2 Hx3 Hx4. rewrite !lookup_insert_ne by done. rewrite En4, !lookup_insert_ne by done.
    subst s3. simpl. rewrite lookup_insert_ne by done. by rewrite Hframe2, Hframe1.
  - intros ln Eln. destruct (Hln2 ln Eln) as (left0 & left1 & _ & _ & _ & _ & Hl1 & _ & Hf1 & _).
    exists left1. split; [|done]. assert (ln <> rn /\ ln <> Z.of_nat k) as [? ?] by (subst leftNode; split; congruence).
    rewrite !lookup_insert_ne by done. rewrite En4, !lookup_insert_ne by done.
    subst s3. simpl. by rewrite lookup_insert_ne by done.
Qed.
End Split.
