(* ===== verification/BTMiscProps.v ===== *)
(** * Replacing a record in its node (core/BTreeMiscOps.c) *)

From S2P Require Import Prelude HfsFormat Bytes BTNode ExtentKeys BTNodeProps BTRotate NodeReserve BTStore BTAlloc BTAllocProps BTTree BTMisc BTTreeProps.

Section Replace.
Context (b : BTreeControlBlock) (Hb : node_size_ok b) (cmp : KeyCompareProc).
Context (key raw recPtr data : bytes).
Context (Hkey : key_ok b key raw) (Hraw : len raw <= UINT16_MAX - 4).
Context (Hdata : get_bytes recPtr 0 (len data) = Some data) (Hdl : lengthSize b <= len data).
Context (Heven : M_IsOdd (len data) = false) (Hsize : keyed_size b (len raw) + len data <= UINT16_MAX).

Lemma CalcKeySize_key : CalcKeySize b key = Some (len raw + lengthSize b).
Proof.
  destruct Hkey as [Hk _]. unfold KeyLength in Hk. unfold CalcKeySize, lengthSize.
  destruct (bt_attr b kBTBigKeysMask); by rewrite Hk.
Qed.

Lemma key_size_padded :
  let keySize := u16 (len raw + lengthSize b) in
  (if M_IsOdd keySize then u16 (keySize + 1) else keySize) = keyed_size b (len raw).
Proof.
  pose proof (lengthSize_bounds b). cbv zeta. rewrite (u16_id (len raw + lengthSize b)) by (unfold UINT16_MAX in *; lia).
  unfold keyed_size, pad_even. destruct (M_IsOdd (len raw + lengthSize b)); [|done]. apply u16_id. unfold UINT16_MAX in *. lia.
Qed.

Lemma CalcKeyRecordSize_key : CalcKeyRecordSize (u16 (len raw + lengthSize b)) (len data) = keyed_size b (len raw) + len data.
Proof.
  unfold CalcKeyRecordSize. rewrite key_size_padded, Heven. apply u16_id.
  pose proof (lengthSize_bounds b). pose proof (pad_even_bounds (len raw + lengthSize b)). unfold keyed_size in *. lia.
Qed.

(** TrySimpleReplace on a leaf where SearchNode finds the key at [i], in a record
    whose key has the size of the new one: the data is replaced exactly when the new
    record fits in the free space and the old record's space; the other records and
    the header stay.  A record of the same size keeps the key bytes of the tree, any
    other gets those of the caller.  When it does not fit the node is unchanged. *)
Theorem TrySimpleReplace_correct hdr res l1 l2 node k0 raw0 data0 :
  node_rep b hdr res (l1 ++ keyed_record b k0 raw0 data0 :: l2) node -> nd_kind node = Some kBTLeafNode ->
  SearchNode cmp b node key = Some (true, len l1) -> keyLength_ok b k0 -> len raw0 <= k0 ->
  keyed_size b k0 = keyed_size b (len raw) ->
  let old := keyed_record b k0 raw0 data0 in
  let free := free_space b (l1 ++ old :: l2) in
  exists fit node', TrySimpleReplace cmp b node key recPtr (len data) = Some (fit, node') /\
    (fit = true <-> keyed_size b (len raw) + len data <= free + len old) /\
    if fit
    then node_rep b hdr res (l1 ++ (if len data =? len data0 then key_field b k0 raw0 ++ data
                                    else keyed_record b (len raw) raw data) :: l2) node'
    else node' = node.
Proof.
  intros Hrep Hk Hsn Hk0 Hr0 Eks old free.
  assert (len old = keyed_size b (len raw) + len data0) as Hold
    by (subst old; unfold keyed_record; rewrite length_app, Nat2Z.inj_add, length_key_field by done; lia).
  pose proof (node_rep_free _ Hb _ _ _ _ Hrep) as [Hf0 _]. fold old free in Hf0.
  unfold TrySimpleReplace. rewrite Hk. cbn [mbind option_bind]. rewrite Z.eqb_refl. cbn [negb].
  rewrite Hsn. cbn [mbind option_bind negb]. rewrite CalcKeySize_key. cbn [mbind option_bind]. cbv zeta.
  rewrite CalcKeyRecordSize_key, (GetRecordSize_rep _ Hb _ _ _ _ _ _ _ Hrep eq_refl). cbn [mbind option_bind].
  fold old. rewrite Hold.
  destruct (Z.eqb_spec (keyed_size b (len raw) + len data) (keyed_size b (len raw) + len data0)) as [E|E].
  - destruct (Z.eqb_spec (len data) (len data0)); [|lia].
    unfold GetRecordAddress. rewrite (GetRecordOffset_rep _ Hb _ _ _ _ _ _ Hrep eq_refl). cbn [mbind option_bind].
    rewrite key_size_padded. unfold bcopy_from. rewrite Hdata. cbn [mbind option_bind].
    unfold keyed_record in Hrep. rewrite <- (app_nil_r data0) in Hrep.
    destruct (put_in_record _ _ _ _ _ _ data _ _ _ (14 + len (concat l1) + keyed_size b (len raw)) Hrep)
      as (node' & -> & Hrep'); [rewrite length_key_field by done; lia|lia|].
    rewrite app_nil_r in Hrep'. exists true, node'. split; [done|]. split; [|done]. split; [intros _; lia|done].
  - destruct (Z.eqb_spec (len data) (len data0)); [lia|].
    rewrite (GetNodeFreeSize_rep _ Hb _ _ _ _ Hrep). cbn [mbind option_bind]. fold old free.
    destruct (Z.leb_spec (keyed_size b (len raw) + len data) (free + (keyed_size b (len raw) + len data0))).
    + destruct (DeleteRecord_rep _ Hb _ _ _ _ _ _ Hrep) as (node1 & -> & Hrep1). cbn [mbind option_bind].
      destruct Hkey as [Hkl Hkb]. rewrite Hkl. cbn [mbind option_bind].
      pose proof (InsertKeyRecord_rep _ Hb _ _ _ _ _ _ _ _ _ _ Hrep1 Hkey (conj (Z.le_refl (len raw)) Hraw) Hdata Hdl) as Hins.
      destruct (Z.ltb_spec (free_space b (l1 ++ l2)) (keyed_size b (len raw) + len data + 2)) as [Hlt|].
      { exfalso. subst free. rewrite free_space_used in H, Hlt. unfold used in H, Hlt.
        rewrite weight_app in H, Hlt. rewrite weight_cons in H. lia. }
      destruct Hins as (node2 & -> & Hrep2). exists true, node2. split; [done|]. by split.
    + exists false, node. split; [done|]. split; [|done]. split; [done|lia].
Qed.
End Replace.

Lemma TrySimpleReplace_correct_witness : exists fit node',
  TrySimpleReplace CompareExtentKeysPlus ex_bt ex_node (mkExtentKey 0 20 64) (ex_data 999) 64 = Some (fit, node') /\
  fit = true.
Proof.
  destruct (TrySimpleReplace_correct ex_bt ex_bt_ok CompareExtentKeysPlus (mkExtentKey 0 20 64)
    (drop 2 (mkExtentKey 0 20 64)) (ex_data 999) (ex_data 999)) with (hdr := ex_hdr) (res := [0; 0])
    (l1 := [ex_rec 20 8 100]) (l2 := [ex_rec 31 8 300]) (node := ex_node) (k0 := 10)
    (raw0 := drop 2 (mkExtentKey 0 20 64)) (data0 := ex_data 200) as (fit & node' & E & Hfit & _);
    [by split|by vm_compute|by vm_compute|by vm_compute|by vm_compute|by vm_compute|apply ex_node_rep|by vm_compute..|].
  exists fit, node'. split; [exact E|]. apply Hfit. by vm_compute.
Defined.
