(* ===== verification/BTBalance.v ===== *)
(** * Properties of rotating and splitting nodes, and an example tree

    RotateLeft and SplitLeft (core/BTreeTreeOps.c) as operations on the lists of
    records two siblings hold, and a small extents B-tree on which the theorems on
    trees are applied. *)

From S2P Require Import Prelude HfsFormat Bytes BTNode ExtentKeys BTNodeProps BTRotate NodeReserve BTStore BTAlloc BTAllocProps BTTree BTMisc BTTreeProps.

(** ** RotateLeft *)

(** C37: RotateLeft, asked to insert a record in the right of two siblings, never
    leaves the two buffers and has two outcomes.  Either the record fits: the left
    node has got the first records of the sequence [r1 ++ new :: r2], the right node
    keeps the rest, nothing is lost or reordered and the place reported is the one of
    the new record; or it does not, and then both nodes are unchanged and no division
    of that sequence between the two nodes would fit. *)
Theorem RotateLeft_correct bt hdrL resL hdrR resR L r1 r2 left right keyPtr raw recPtr data keyLength kind :
  node_size_ok bt -> node_rep bt hdrL resL L left -> node_rep bt hdrR resR (r1 ++ r2) right ->
  key_ok bt keyPtr raw -> len raw <= keyLength <= UINT16_MAX - 4 ->
  get_bytes recPtr 0 (len data) = Some data -> lengthSize bt <= len data -> M_IsOdd (len data) = false ->
  nd_kind right = Some kind -> GetKeyLength bt keyPtr (kind =? kBTLeafNode) = Some keyLength ->
  let All := r1 ++ keyed_record bt keyLength raw data :: r2 in
  exists res, RotateLeft bt left right (len r1) keyPtr recPtr (len data) = Some res /\ rot_err res = noErr /\
    if rot_recordFit res
    then exists m, (m <= length All)%nat /\ rot_recsRotated res = Z.of_nat m /\
      node_rep bt hdrL resL (L ++ take m All) (rot_left res) /\
      node_rep bt hdrR resR (drop m All) (rot_right res) /\
      (if decide (length r1 < m)%nat
       then rot_insertIndex res = len L + len r1 /\ nd_bLink right = Some (rot_insertNodeNum res)
       else rot_insertIndex res = len r1 - Z.of_nat m /\ nd_fLink left = Some (rot_insertNodeNum res))
    else rot_left res = left /\ rot_right res = right /\
      forall m, (m <= length All)%nat ->
        nodeSize bt < used (L ++ take m All) \/ nodeSize bt < used (drop m All).
Proof.
  intros Hbt Hl Hr Hk Hkl Hd Hdl Hev Hkind Hgkl All.
  destruct (RotateLeft_rep bt Hbt hdrL resL hdrR resR L r1 r2 keyPtr raw recPtr data keyLength Hk Hkl Hd Hdl
    right Hr Hev left Hl ltac:(by exists kind)) as (res & Hrun & Herr & H).
  pose proof (RotateLeft_complete bt Hbt hdrL resL hdrR resR L r1 r2 keyPtr raw recPtr data keyLength Hk Hkl Hd Hdl
    right Hr Hev left Hl ltac:(by exists kind) res Hrun) as Hc.
  exists res. split; [done|]. split; [done|]. destruct (rot_recordFit res).
  - exact H.
  - destruct H as (-> & _). split; [done|]. split; [done|]. intros m Hm.
    pose proof (proj1 Hc eq_refl m Hm) as Hno. fold All in Hno.
    unfold split_fits, left_size, right_size in Hno. fold All in Hno. unfold used in *. rewrite weight_app. lia.
Qed.

(** ** An extents B-tree of two leaves under a root *)

(** A node with a header, records and a gap of zeroes. *)
Definition filled_node (bt : BTreeControlBlock) (hdr : bytes) (recs : list bytes) : bytes :=
  node_bytes hdr [0; 0] recs (replicate (Z.to_nat (free_space bt recs)) 0).

Definition ex_leaf1 : list bytes := [ex_rec 20 8 100; ex_rec 20 64 200].
Definition ex_leaf2 : list bytes :=
  [ex_rec 31 8 300; ex_rec 31 16 301; ex_rec 31 24 302; ex_rec 31 32 303; ex_rec 31 40 304; ex_rec 31 48 305].
Definition ex_entries : list entry :=
  [mkEntry 10 (drop 2 (mkExtentKey 0 20 8)) 1 ex_leaf1; mkEntry 10 (drop 2 (mkExtentKey 0 31 8)) 2 ex_leaf2].

Definition ex_node1 : bytes := filled_node ex_btcb (le32 2 ++ le32 0 ++ [255; 1]) ex_leaf1.
Definition ex_node2 : bytes := filled_node ex_btcb (le32 0 ++ le32 1 ++ [255; 1]) ex_leaf2.
Definition ex_root : bytes := filled_node ex_btcb (le32 0 ++ le32 0 ++ [0; 2]) (e_rec ex_btcb <$> ex_entries).

Definition ex_tree : btfile :=
  with_nodes {[ 0 := ex_header; 1 := ex_node1; 2 := ex_node2; 3 := ex_root ]} ex_file.

Lemma filled_node_rep bt hdr recs :
  len hdr = 10 -> 0 <= free_space bt recs ->
  len (node_bytes hdr [0; 0] recs (replicate (Z.to_nat (free_space bt recs)) 0)) = nodeSize bt ->
  node_rep bt hdr [0; 0] recs (filled_node bt hdr recs).
Proof. intros H1 H2 H3. eexists. split_and!; try done; lia. Qed.

Ltac ex_forall := repeat (apply Forall_cons; split; [|]); [..|by apply Forall_nil].

Lemma ex_leaf1_ok : bt_tree has_extent_key extent_order ex_btcb (f_nodes ex_tree) 1 1 ex_leaf1.
Proof.
  eapply bt_leaf; [reflexivity|by apply filled_node_rep|by vm_compute|by vm_compute|by vm_compute| |].
  - ex_forall; by eexists.
  - repeat constructor.
Qed.

Lemma ex_leaf2_ok : bt_tree has_extent_key extent_order ex_btcb (f_nodes ex_tree) 1 2 ex_leaf2.
Proof.
  eapply bt_leaf; [reflexivity|by apply filled_node_rep|by vm_compute|by vm_compute|by vm_compute| |].
  - ex_forall; by eexists.
  - repeat constructor.
Qed.

Lemma ex_tree_ok : bt_tree has_extent_key extent_order ex_btcb (f_nodes ex_tree) 2 3 (ex_leaf1 ++ ex_leaf2).
Proof.
  change (ex_leaf1 ++ ex_leaf2) with (concat (e_leaves <$> ex_entries)).
  eapply bt_index; [done|reflexivity|by apply filled_node_rep|by vm_compute|by vm_compute|by vm_compute|done| | | |].
  - ex_forall; unfold entry_ok; (split_and!; [by vm_compute..|by eexists]).
  - repeat constructor.
  - split; repeat constructor; by vm_compute.
  - ex_forall; [apply ex_leaf1_ok|apply ex_leaf2_ok].
Qed.

Lemma SearchTree_correct_witness :
  (exists out s', SearchTree CompareExtentKeysPlus (mkExtentKey 0 31 24) new_path ex_tree = Some (out, s') /\
     so_err out = noErr) /\
  (exists out s', SearchTree CompareExtentKeysPlus (mkExtentKey 0 25 0) new_path ex_tree = Some (out, s') /\
     so_err out = fsBTRecordNotFoundErr).
Proof.
  split.
  - destruct (SearchTree_correct CompareExtentKeysPlus has_extent_key extent_order ex_tree (mkExtentKey 0 31 24)
      (ex_leaf1 ++ ex_leaf2)) as (out & s' & E & _ & _ & Herr);
      [done|apply ex_size_ok|by eexists|by vm_compute|apply ex_tree_ok|]. exists out, s'. split; [done|].
    rewrite Herr, bool_decide_eq_true_2; [done|]. apply Exists_exists. exists (ex_rec 31 24 302). split; [|done].
    do 4 right. left.
  - destruct (SearchTree_correct CompareExtentKeysPlus has_extent_key extent_order ex_tree (mkExtentKey 0 25 0)
      (ex_leaf1 ++ ex_leaf2)) as (out & s' & E & _ & _ & Herr);
      [done|apply ex_size_ok|by eexists|by vm_compute|apply ex_tree_ok|]. exists out, s'. split; [done|].
    rewrite Herr, bool_decide_eq_false_2; [done|]. intros H.
    repeat (apply Exists_cons in H as [H|H]; [by vm_compute in H|]). by apply Exists_nil in H.
Defined.

(** ** SplitLeft *)

(** The allocation state a split starts from: the map says that node [k] is the
    first free one, and the map nodes themselves are in use. *)
Definition next_free (s : btfile) (L : list (Z * list Z)) (k : nat) : Prop :=
  io_fine s /\ node_size_ok (f_btcb s) /\ node_map s L /\ len (map_bits L) <= UINT32_MAX /\
  first_clear (map_bits L) k /\ Z.of_nat k < totalNodes (f_btcb s) /\
  Forall (fun m => map_bits L !! Z.to_nat m = Some true) L.*1 /\
  (forall n old, f_nodes s !! n = Some old -> len old = nodeSize (f_btcb s)).

(** The record to insert, as the callers of SplitLeft give it. *)
Definition new_record (b : BTreeControlBlock) (kind : Z) (keyPtr raw recPtr data : bytes) (keyLength : Z) : Prop :=
  key_ok b keyPtr raw /\ len raw <= keyLength <= UINT16_MAX - 4 /\
  get_bytes recPtr 0 (len data) = Some data /\ lengthSize b <= len data /\ M_IsOdd (len data) = false /\
  GetKeyLength b keyPtr (kind =? kBTLeafNode) = Some keyLength.

(** C36: SplitLeft of a full node [rn], with or without a left sibling, when the new
    record and any record of the node fit in one node together: it takes the first
    free node [k] of the map, divides the records and the new one, in order, between
    [k] and [rn], links [k] between the old left sibling and [rn], makes it the
    first leaf when there was no left sibling, reports the place of the new record,
    and changes no other node outside the map. *)
Theorem SplitLeft_splits s L k rn hdrR resR r1 r2 right rbl h kd keyPtr raw recPtr data keyLength leftNode :
  next_free s L k -> live_node s L rn hdrR resR (r1 ++ r2) right -> rn <= UINT32_MAX ->
  nd_bLink right = Some rbl -> nd_height right = Some h -> nd_kind right = Some kd ->
  0 <= rbl <= UINT32_MAX -> (h = 1 -> kd = kBTLeafNode) ->
  new_record (f_btcb s) kd keyPtr raw recPtr data keyLength ->
  let rec := keyed_record (f_btcb s) keyLength raw data in
  Forall (fun x => len rec + 2 + (len x + 2) <= nodeSize (f_btcb s) - 16) (r1 ++ rec :: r2) ->
  left_ok s L rn h kd leftNode ->
  exists sp s', SplitLeft leftNode (Some rn) rn (len r1) keyPtr recPtr (len data) s = Some (sp, s') /\
    split_done s L k rn resR r1 r2 right rbl kd raw data keyLength leftNode sp s'.
Proof.
  intros (? & ? & ? & ? & ? & ? & ? & ?) Hr Hrn Hb Hh Hk Hrbl Hleaf (? & ? & ? & ? & ? & ?) rec Hsmall Hleft.
  by eapply SplitLeft_run.
Qed.

Lemma ex_next_free : next_free ex_tree ex_L 4.
Proof.
  split; [done|]. split; [apply ex_size_ok|]. split; [|split; [by vm_compute|split; [|split; [by vm_compute|split]]]].
  - destruct ex_node_map as [Hc Hn]. split; [|done].
    inversion Hc as [? ? ? ? H|? ? ? ? ? ? ? ? Hnil]; subst; [|by inversion Hnil]. apply map_chain_last.
    destruct H as (hdr & res & l1 & l2 & node & Hnode & H). exists hdr, res, l1, l2, node. split; [|exact H].
    vm_compute in Hnode. by injection Hnode as <-.
  - split; [|by vm_compute]. repeat constructor.
  - ex_forall. by vm_compute.
  - intros n old H. simpl in H. repeat (apply lookup_insert_Some in H as [[<- <-]|[_ H]]; [by vm_compute|]).
    by apply lookup_singleton_Some in H as [<- <-].
Qed.

Lemma SplitLeft_splits_witness : exists sp s',
  SplitLeft (Some 1) (Some 2) 2 3 (mkExtentKey 0 31 28) (ex_data 400) 64 ex_tree = Some (sp, s') /\
  exists m, sp_recsRotated sp = Z.of_nat m.
Proof.
  destruct (SplitLeft_splits ex_tree ex_L 4 2 (le32 0 ++ le32 1 ++ [255; 1]) [0; 0] (take 3 ex_leaf2) (drop 3 ex_leaf2)
    ex_node2 1 1 kBTLeafNode (mkExtentKey 0 31 28) (drop 2 (mkExtentKey 0 31 28)) (ex_data 400) (ex_data 400) 10 (Some 1))
    as (sp & s' & E & m & nl & nr & hdrN & hdrR' & idx & node & -> & _); [apply ex_next_free| |by vm_compute..| | | |].
  - repeat split; [by apply filled_node_rep|by vm_compute|]. by intros ?%list_elem_of_singleton.
  - split; [by split|]. split; [by vm_compute|]. by vm_compute.
  - ex_forall; by vm_compute.
  - split; [done|]. exists (le32 2 ++ le32 0 ++ [255; 1]), [0; 0], ex_leaf1, ex_node1.
    repeat split; [by apply filled_node_rep|by vm_compute|]. by intros ?%list_elem_of_singleton.
  - exists (mkSplit noErr (Some 4) (Some 2) idx node (Z.of_nat m)), s'. split; [exact E|]. by exists m.
Defined.

(** ** The limit on the depth of the tree *)

(** VerifyHeader accepts a header whose treeDepth is kMaxTreeDepth, but the path
    table has kMaxTreeDepth entries, 0 to kMaxTreeDepth - 1: on a tree of that depth
    whose root is a well-formed index node, SearchTree stores outside the table. *)
Theorem SearchTree_depth_fault cmp key s header node found i :
  let depth := Z.of_nat kMaxTreeDepth in
  h_treeDepth header = depth -> VerifyHeader (f_eof s) header = noErr ->
  treeDepth (f_btcb s) = h_treeDepth header -> rootNode (f_btcb s) = h_rootNode header ->
  totalNodes (f_btcb s) = h_totalNodes header -> h_rootNode header <> 0 ->
  io_fine s -> f_nodes s !! rootNode (f_btcb s) = Some node ->
  nd_height node = Some depth -> nd_kind node = Some kBTIndexNode ->
  SearchNode cmp (f_btcb s) node key = Some (found, i) ->
  SearchTree cmp key new_path s = None.
Proof.
  intros depth Hd Hver E1 E2 E3 Hroot Hio Hnode Hh Hk Hs.
  assert (rootNode (f_btcb s) < totalNodes (f_btcb s)) as Hlt.
  { rewrite E2, E3. unfold VerifyHeader in Hver. cbv zeta in Hver.
    repeat (case_match; try discriminate Hver); rewrite ?Z.leb_gt in *; lia. }
  unfold SearchTree. erewrite bind_run by reflexivity. rewrite E1, Hd.
  change (depth =? 0) with false. cbn match. erewrite bind_run by reflexivity.
  change (S (Z.to_nat depth)) with 17%nat. cbn [SearchTree_loop].
  destruct (Z.eqb_spec (rootNode (f_btcb s)) 0); [congruence|].
  erewrite bind_run by (apply (GetNode_run _ _ _ node); done). cbn match beta. cbn [Z.eqb noErr negb].
  erewrite bind_run by reflexivity.
  erewrite bind_run by (apply (read_node_run _ _ node); [done|exact Hh]). rewrite Z.eqb_refl. cbn [negb].
  erewrite bind_run by (apply (read_node_run _ _ node); [done|exact Hk]).
  change (depth =? 1) with false. change (kBTIndexNode =? kBTIndexNode) with true. cbn [negb].
  erewrite bind_run by (apply (read_node_run _ _ node); [done|]; unfold incr_numGetNodes; simpl f_btcb;
    rewrite SearchNode_stats; exact Hs).
  done.
Qed.

Definition ex_deep_btcb : BTreeControlBlock := with_treeDepth 16 ex_btcb.
Definition ex_deep : btfile :=
  with_nodes {[ 3 := filled_node ex_btcb (le32 0 ++ le32 0 ++ [0; 16]) (e_rec ex_btcb <$> ex_entries) ]}
    (with_btcb ex_deep_btcb ex_file).

Lemma SearchTree_depth_fault_witness :
  SearchTree CompareExtentKeysPlus (mkExtentKey 0 31 24) new_path ex_deep = None.
Proof.
  apply (SearchTree_depth_fault CompareExtentKeysPlus (mkExtentKey 0 31 24) ex_deep
    (mkHeader 16 3 1 2 512 64 60 0) (filled_node ex_btcb (le32 0 ++ le32 0 ++ [0; 16]) (e_rec ex_btcb <$> ex_entries))
    false 2); by vm_compute.
Defined.

Lemma RotateLeft_correct_witness : exists res,
  RotateLeft ex_btcb ex_node1 ex_node2 3 (mkExtentKey 0 31 28) (ex_data 400) 64 = Some res /\
  rot_err res = noErr.
Proof.
  destruct (RotateLeft_correct ex_btcb (le32 2 ++ le32 0 ++ [255; 1]) [0; 0] (le32 0 ++ le32 1 ++ [255; 1]) [0; 0]
    ex_leaf1 (take 3 ex_leaf2) (drop 3 ex_leaf2) ex_node1 ex_node2 (mkExtentKey 0 31 28) (drop 2 (mkExtentKey 0 31 28))
    (ex_data 400) (ex_data 400) 10 kBTLeafNode) as (res & E & Herr & _);
    [apply ex_size_ok|by apply filled_node_rep|by apply filled_node_rep|by split|by vm_compute..|].
  exists res. split; [exact E|exact Herr].
Defined.
