(* ===== verification/BTreeProps.v ===== *)
(** * Properties of the B-tree operations (core/BTree.c)

    What BTSearchRecord, BTInsertRecord, BTReplaceRecord and BTDeleteRecord do to
    the records of a well-formed tree, and that they keep it well formed. *)

From S2P Require Import Prelude HfsFormat Bytes BTNode ExtentKeys BTNodeProps BTRotate NodeReserve BTStore BTAlloc BTAllocProps BTTree BTMisc BTree BTTreeProps BTBalance.

Lemma get_bytes_take b off n bs m :
  get_bytes b off n = Some bs -> 0 <= m <= n -> get_bytes b off m = Some (take (Z.to_nat m) bs).
Proof.
  unfold get_bytes. intros H Hm. zcases_in_hyps. injection H as <-.
  destruct (Z.leb_spec (off + m) (len b)); [|lia]. destruct (Z.leb_spec 0 m); [|lia]. simpl.
  rewrite take_take. by replace (Z.to_nat m `min` Z.to_nat n)%nat with (Z.to_nat m) by lia.
Qed.

Lemma StronglySorted_weaken {A} (R R' : relation A) l :
  (forall x y, R x y -> R' x y) -> StronglySorted R l -> StronglySorted R' l.
Proof. intros HR. induction 1 as [|x l _ IH Hx]; constructor; [done|]. eapply Forall_impl; [exact Hx|]. auto. Qed.

Lemma stats_layout b st : same_layout b (with_stats st b).
Proof. by split_and!. Qed.

Section Props.
Context (cmp : KeyCompareProc) (P : bytes -> Prop) (ord : bytes -> bytes -> Z) `{!KeyOrder cmp P ord}.

(** ** Well-formed files *)

Lemma bt_tree_layout b b' nodes h n leaves :
  same_layout b b' -> bt_tree P ord b nodes h n leaves -> bt_tree P ord b' nodes h n leaves.
Proof.
  intros Hlay. destruct (layout_keys _ _ Hlay) as (El & Er & _ & _ & _).
  assert (forall e, e_rec b' e = e_rec b e) as Ee by (intros e; apply Er).
  assert (forall k, keyLength_ok b k -> keyLength_ok b' k) as Hkl.
  { intros k. unfold keyLength_ok, bt_attr. destruct Hlay as (_ & -> & _). done. }
  pose proof Hlay as (_ & _ & _ & Et).
  revert n leaves. induction h as [h IH] using lt_wf_ind. intros n leaves Htree.
  inversion Htree as [? hdr res recs node Hn Hrep|
    h1 ? hdr res es node Hle Hn Hrep Hh Hk Hlt Hne Hok Hsort Hsep Hch]; subst.
  - eapply bt_leaf; try done; [by eapply node_rep_layout|by rewrite Et].
  - assert (e_rec b' <$> es = e_rec b <$> es) as Ees by (apply list_fmap_ext; intros; apply Ee).
    eapply bt_index; try done; [rewrite Ees; by eapply node_rep_layout|by rewrite Et| |by rewrite Ees| |].
    + eapply Forall_impl; [exact Hok|]. intros e (H1 & H2 & H3 & H4). unfold entry_ok. rewrite Ee. auto.
    + destruct Hsep as [H1 H2]. split.
      * eapply Forall_impl; [exact H1|]. intros e He. by rewrite Ee.
      * eapply StronglySorted_weaken; [|exact H2]. intros e1 e2 He. by rewrite Ee.
    + eapply Forall_impl; [exact Hch|]. intros e He. apply IH; [lia|done].
Qed.

(** A B-tree file without pending I/O errors whose tree holds [leaves]. *)
Definition holds (s : btfile) (leaves : list bytes) : Prop :=
  io_fine s /\ node_size_ok (f_btcb s) /\ 0 < treeDepth (f_btcb s) < Z.of_nat kMaxTreeDepth /\
  bt_tree P ord (f_btcb s) (f_nodes s) (Z.to_nat (treeDepth (f_btcb s))) (rootNode (f_btcb s)) leaves.

Lemma holds_stats s s' leaves : holds s leaves -> stats_only s s' -> holds s' leaves.
Proof.
  intros (H1 & H2 & H3 & H4) [st ->]. unfold holds. split; [done|]. split; [done|]. split; [done|]. simpl.
  eapply bt_tree_layout; [apply stats_layout|exact H4].
Qed.

(** The tree has a record with the key. *)
Definition has_key (key : bytes) (leaves : list bytes) : Prop := Exists (fun x => ord key x = 0) leaves.

(** A record in the format InsertKeyRecord gives it. *)
Definition keyed (b : BTreeControlBlock) (x : bytes) : Prop :=
  exists k raw data, x = keyed_record b k raw data /\ keyLength_ok b k /\ len raw <= k.

(** A hint that is out of range, or points to a node that is not a leaf, or to a
    leaf of the tree. *)
Definition hint_ok (s : btfile) (leaves : list bytes) (n : Z) : Prop :=
  totalNodes (f_btcb s) <= n \/
  exists node kind cnt, f_nodes s !! n = Some node /\ nd_kind node = Some kind /\ nd_numRecords node = Some cnt /\
    (kind = kBTLeafNode -> exists hdr res recs, node_rep (f_btcb s) hdr res recs node /\
       Forall P recs /\ keys_sorted ord recs /\ forall x, x ∈ recs -> x ∈ leaves).

(** ** Searching *)

Lemma copy_record_rep b hdr res recs node i x size :
  node_size_ok b -> node_rep b hdr res recs node -> recs !! i = Some x -> keyed b x -> 0 <= size ->
  exists k raw data key, x = keyed_record b k raw data /\ keyLength_ok b k /\ len raw <= k /\
    copy_record b node (Z.of_nat i) (Some size) =
    Some (len data, Some (take (Z.to_nat (Z.min (len data) size)) data), key).
Proof.
  intros Hb Hrep Hi (k & raw & data & -> & Hk & Hraw) Hsize.
  rewrite <- (take_drop_middle _ _ _ Hi) in Hrep.
  destruct (GetRecordByIndex_rep _ Hb _ _ _ _ _ _ _ _ Hrep Hk Hraw) as [E1 E2].
  rewrite length_take_le in E1 by (apply lookup_lt_Some in Hi; lia).
  exists k, raw, data. eexists. split; [done|]. split; [done|]. split; [done|]. unfold copy_record. rewrite E1. cbn [mbind option_bind].
  rewrite (get_bytes_take _ _ _ _ _ E2) by lia. done.
Qed.

Lemma GetNode_out n fl s : totalNodes (f_btcb s) <= n -> GetNode n fl s = Some ((fsBTInvalidNodeErr, None), s).
Proof.
  intros H. unfold GetNode, mbind, BT_bind, btcb. by destruct (Z.leb_spec (totalNodes (f_btcb s)) n); [|lia].
Qed.

Lemma take_hint_run it s leaves :
  holds s leaves -> P (it_key it) ->
  (ht_nodeNum (it_hint it) = 0 \/ hint_ok s leaves (ht_nodeNum (it_hint it))) ->
  exists s', stats_only s s' /\
    ((exists it' idx, it_key it' = it_key it /\ take_hint cmp it s = Some ((noErr, false, it', None, idx), s')) \/
     (exists hdr res recs node i x, f_nodes s !! ht_nodeNum (it_hint it) = Some node /\
        node_rep (f_btcb s) hdr res recs node /\ recs !! i = Some x /\ x ∈ leaves /\ ord (it_key it) x = 0 /\
        take_hint cmp it s = Some ((noErr, true, it, Some (ht_nodeNum (it_hint it)), Z.of_nat i), s'))).
Proof.
  intros (Hio & Hb & _) HP Hhint. unfold take_hint, IsItAHint.
  destruct (Z.eqb_spec (ht_nodeNum (it_hint it)) 0) as [E0|Hne0].
  { exists (with_btcb (incr_numHintChecks (f_btcb s)) s). split; [by eexists|]. left. by exists it, 0. }
  destruct Hhint as [|Hhint]; [done|].
  set (n := ht_nodeNum (it_hint it)) in *.
  set (s1 := with_btcb (incr_numPossibleHints (incr_numHintChecks (f_btcb s))) s).
  assert (stats_only s s1) as Hs1 by (by eexists).
  rewrite (bind_run _ _ _ true s1) by done. cbn [negb].
  destruct Hhint as [Hout|(node & kind & cnt & Hn & Hk & Hc & Hleaf)].
  { rewrite (bind_run _ _ _ _ _ (GetNode_out n kGetNodeHint s1 Hout)).
    exists s1. split; [done|]. left. by exists (BTInvalidateHint it), 0. }
  destruct (Z.le_gt_cases (totalNodes (f_btcb s)) n) as [Hout|Hin].
  { rewrite (bind_run _ _ _ _ _ (GetNode_out n kGetNodeHint s1 Hout)).
    exists s1. split; [done|]. left. by exists (BTInvalidateHint it), 0. }
  destruct (GetNode_run' n kGetNodeHint s1 node) as (s2 & E2 & Hs2); [done|done|done|].
  rewrite (bind_run _ _ _ _ _ E2). cbn match beta. cbn [Z.eqb noErr negb].
  assert (stats_only s s2) as Hs by (eapply stats_only_trans; [exact Hs1|exact Hs2]). destruct Hs as [st ->].
  erewrite bind_run by reflexivity.
  erewrite bind_run
    by (apply (read_node_run _ _ node); [done|]; unfold leaf_with_records; rewrite Hk; simpl; by rewrite Hc).
  assert (forall idx, exists s', stats_only s s' /\ exists it' idx', it_key it' = it_key it /\
    ('(err, nd) ← ReleaseNode (Some n);
     if negb (err =? noErr) then mret (err, false, it, nd, 0)
     else mret (noErr, false, BTInvalidateHint it, nd, idx)) (with_btcb (with_stats st (f_btcb s)) s) =
    Some ((noErr, false, it', None, idx'), s')) as Hmiss.
  { intros idx. destruct (ReleaseNode_run (Some n) (with_btcb (with_stats st (f_btcb s)) s) Hio) as (s3 & E3 & Hs3).
    exists s3. split; [eapply stats_only_trans; [by eexists|done]|]. rewrite (bind_run _ _ _ _ _ E3).
    by exists (BTInvalidateHint it), idx. }
  destruct ((kind =? kBTLeafNode) && (0 <? cnt)) eqn:Eok.
  2:{ erewrite bind_run by reflexivity. cbn match beta.
      destruct (Hmiss 0) as (s3 & Hs3 & it' & idx' & Hk' & ->). exists s3. split; [done|]. left. by exists it', idx'. }
  apply andb_prop in Eok as [Eleaf%Z.eqb_eq _].
  destruct (Hleaf Eleaf) as (hdr & res & recs & Hrep & HPr & Hsort & Hsub).
  destruct (SearchNode_rep _ Hb cmp P ord _ _ _ _ _ Hrep HP HPr Hsort) as (found & i & Esn & Hres).
  erewrite bind_run by (apply (read_node_run _ _ node); [done|]; simpl f_btcb; rewrite SearchNode_stats; exact Esn).
  cbn match beta. destruct found.
  - destruct Hres as (_ & x & Hx & Hx0 & _).
    exists (with_btcb (incr_numValidHints (with_stats st (f_btcb s))) s). split; [by eexists|]. right.
    exists hdr, res, recs, node, i, x. split_and!; try done. apply Hsub. by eapply list_elem_of_lookup_2.
  - destruct (Hmiss (Z.of_nat i)) as (s3 & Hs3 & it' & idx' & Hk' & ->). exists s3. split; [done|]. left. by exists it', idx'.
Qed.

(** The part of BTSearchRecord after the record was found. *)
Definition search_finish (it : BTreeIterator) (size : option Z) (resultIterator : option BTreeIterator)
    (out : search_out) : BT search_record :=
  if negb ((so_err out =? noErr) || (so_err out =? fsBTRecordNotFoundErr))
  then search_record_exit (so_err out) it None resultIterator else
  let foundRecord := so_err out =? noErr in
  b ← btcb;
  '(len, data, keyPtr) ←
    (if foundRecord
     then '(len, data, key) ← read_node (so_node out) (fun n => copy_record b n (so_index out) size);
          mret (Some len, data, key)
     else mret (None, None, it_key it));
  result ← lift (result_iterator b (so_nodeNum out) (so_index out) foundRecord keyPtr resultIterator);
  '(err, _) ← ReleaseNode (so_node out);
  exit_on_error err (search_record_exit err it data result) (
  mret (mkSearchRecord (if foundRecord then noErr else fsBTRecordNotFoundErr) it len data result)).

(** The record found is the one of the node. *)
Definition found_in (s : btfile) (leaves : list bytes) (key : bytes) (size : Z) (out : search_record) : Prop :=
  exists k raw data, keyLength_ok (f_btcb s) k /\ len raw <= k /\
    keyed_record (f_btcb s) k raw data ∈ leaves /\ ord key (keyed_record (f_btcb s) k raw data) = 0 /\
    sr_err out = noErr /\ sr_recordLen out = Some (len data) /\
    sr_record out = Some (take (Z.to_nat (Z.min (len data) size)) data).

Lemma copy_record_stats b st node i size : copy_record (with_stats st b) node i size = copy_record b node i size.
Proof. reflexivity. Qed.

Lemma search_finish_found s s1 leaves it size out hdr res recs node ln i x :
  io_fine s -> node_size_ok (f_btcb s) -> Forall (keyed (f_btcb s)) leaves -> 0 <= size -> stats_only s s1 ->
  so_err out = noErr -> so_node out = Some ln -> so_index out = Z.of_nat i ->
  f_nodes s !! ln = Some node -> node_rep (f_btcb s) hdr res recs node -> recs !! i = Some x ->
  x ∈ leaves -> ord (it_key it) x = 0 ->
  exists r s', search_finish it (Some size) None out s1 = Some (r, s') /\ stats_only s s' /\
    found_in s leaves (it_key it) size r.
Proof.
  intros Hio Hb Hkeyed Hsize [st ->] Eerr Enode Eidx Hn Hrep Hi Hx Hx0. unfold search_finish. rewrite Eerr, Enode, Eidx.
  cbn [Z.eqb noErr orb negb]. erewrite bind_run by reflexivity. simpl f_btcb.
  assert (keyed (f_btcb s) x) as Hkx by (by eapply Forall_forall in Hkeyed).
  destruct (copy_record_rep _ _ _ _ _ _ _ size Hb Hrep Hi Hkx Hsize) as (k & raw & data & key & -> & Hk & Hr & Ecopy).
  erewrite bind_run by (erewrite bind_run by (apply (read_node_run _ _ node); [done|exact Ecopy]); reflexivity).
  cbn match beta. erewrite bind_run by reflexivity.
  edestruct (ReleaseNode_run (Some ln)) as (s2 & E2 & Hs2); [|rewrite (bind_run _ _ _ _ _ E2)]; [exact Hio|].
  cbn match beta. cbn [exit_on_error Z.eqb noErr]. eexists _, s2. split; [reflexivity|].
  split; [eapply stats_only_trans; [by eexists|exact Hs2]|]. exists k, raw, data. done.
Qed.

Lemma search_finish_missing s s1 it size out :
  io_fine s -> stats_only s s1 -> so_err out = fsBTRecordNotFoundErr ->
  exists r s', search_finish it size None out s1 = Some (r, s') /\ stats_only s s' /\
    sr_err r = fsBTRecordNotFoundErr /\ sr_record r = None.
Proof.
  intros Hio [st ->] Eerr. unfold search_finish. rewrite Eerr.
  change (fsBTRecordNotFoundErr =? noErr) with false. rewrite Z.eqb_refl. cbn [orb negb].
  erewrite bind_run by reflexivity. erewrite bind_run by reflexivity. cbn match beta.
  erewrite bind_run by reflexivity.
  edestruct (ReleaseNode_run (so_node out)) as (s2 & E2 & Hs2); [|rewrite (bind_run _ _ _ _ _ E2)]; [exact Hio|].
  eexists _, s2. split; [reflexivity|]. split; [eapply stats_only_trans; [by eexists|exact Hs2]|]. done.
Qed.

Lemma BTSearchRecord_run s leaves it size :
  holds s leaves -> P (it_key it) -> Forall (keyed (f_btcb s)) leaves -> 0 <= size ->
  (ht_nodeNum (it_hint it) = 0 \/ hint_ok s leaves (ht_nodeNum (it_hint it))) ->
  exists out s', BTSearchRecord cmp it (Some size) None s = Some (out, s') /\ stats_only s s' /\
    if bool_decide (has_key (it_key it) leaves) then found_in s leaves (it_key it) size out
    else sr_err out = fsBTRecordNotFoundErr /\ sr_record out = None.
Proof.
  intros Hs HP Hkeyed Hsize Hhint. pose proof Hs as (Hio & Hb & _).
  destruct (take_hint_run it s leaves Hs HP Hhint) as (s1 & Hs1 & [(it' & idx & Ek & E)|
    (hdr & res & recs & node & i & x & Hn & Hrep & Hi & Hx & Hx0 & E)]).
  - unfold BTSearchRecord. rewrite (bind_run _ _ _ _ _ E). cbn match beta. cbn [exit_on_error Z.eqb noErr].
    pose proof (holds_stats _ _ _ Hs Hs1) as (Hio1 & Hb1 & Hd1 & Htree1).
    destruct (SearchTree_run cmp P ord s1 (it_key it') leaves Hio1 Hb1 ltac:(by rewrite Ek) Hd1 Htree1)
      as (out & s2 & E2 & Hs2 & Hans & _). rewrite (bind_run _ _ _ _ _ E2).
    pose proof (leaf_answer_err ord _ _ _ _ _ Hans) as Herr.
    assert (stats_only s s2) as Hs12 by (eapply stats_only_trans; [exact Hs1|exact Hs2]).
    fold (search_finish it' (Some size) None out). rewrite Ek in Herr. unfold has_key. case_bool_decide as Hex.
    + destruct Hans as (hdr & res & recs & node & found & i & Hn & Hrep & _ & Enode & _ & Eidx & Eerr & [_ Hres] & Hsub & _).
      destruct found; [|by rewrite Herr in Eerr]. destruct Hres as (x & Hi & Hx0 & _).
      destruct Hs1 as [st ->]. simpl in Hn, Hrep. rewrite <- Ek.
      eapply (search_finish_found s s2 leaves it' size out hdr res recs node (so_nodeNum out) i x); try done.
      apply Hsub. by eapply list_elem_of_lookup_2.
    + by apply (search_finish_missing s s2).
  - unfold BTSearchRecord. rewrite (bind_run _ _ _ _ _ E). cbn match beta. cbn [exit_on_error Z.eqb noErr].
    erewrite bind_run by reflexivity.
    set (out := mkSearch noErr new_path (ht_nodeNum (it_hint it)) (Some (ht_nodeNum (it_hint it))) (Z.of_nat i)).
    fold (search_finish it (Some size) None out). rewrite bool_decide_eq_true_2.
    2:{ apply Exists_exists. by exists x. }
    by eapply (search_finish_found s s1 leaves it size out hdr res recs node (ht_nodeNum (it_hint it)) i x).
Qed.

(** C34: BTSearchRecord on a well-formed tree, with any hint that is absent, out of
    range, points to a node that is not a leaf or to a leaf of the tree: it finds the
    key exactly when the tree has it, whatever the hint, and then reports the length
    of its record and copies as much of it as the caller's buffer takes; otherwise it
    answers fsBTRecordNotFoundErr.  The tree does not change. *)
Theorem BTSearchRecord_correct s leaves it size :
  holds s leaves -> P (it_key it) -> Forall (keyed (f_btcb s)) leaves -> 0 <= size ->
  (ht_nodeNum (it_hint it) = 0 \/ hint_ok s leaves (ht_nodeNum (it_hint it))) ->
  exists out s', BTSearchRecord cmp it (Some size) None s = Some (out, s') /\ stats_only s s' /\
    if bool_decide (has_key (it_key it) leaves) then found_in s leaves (it_key it) size out
    else sr_err out = fsBTRecordNotFoundErr /\ sr_record out = None.
Proof. apply BTSearchRecord_run. Qed.

(** ** The leaf of a search *)

(** The leaf a search for [key] ends in, and the tree with other records there. *)
Record at_leaf (s : btfile) (key : bytes) (leaves : list bytes) (out : search_out) (hdr res : bytes)
    (recs : list bytes) (node : bytes) (found : bool) (i : nat) (A B : list bytes) : Prop := mkAtLeaf {
  al_lookup : f_nodes s !! so_nodeNum out = Some node;
  al_rep : node_rep (f_btcb s) hdr res recs node;
  al_kind : nd_kind node = Some kBTLeafNode;
  al_height : nd_height node = Some 1;
  al_node : so_node out = Some (so_nodeNum out);
  al_index : so_index out = Z.of_nat i;
  al_err : so_err out = (if found then noErr else fsBTRecordNotFoundErr);
  al_found : found = bool_decide (has_key key leaves);
  al_result : search_result ord key recs found i;
  al_P : Forall P recs;
  al_sorted : keys_sorted ord recs;
  al_leaves : leaves = A ++ recs ++ B;
  al_path : tpt_get (so_path out) 1 = Some (so_nodeNum out, so_index out);
  al_range : so_nodeNum out <> 0 /\ so_nodeNum out < totalNodes (f_btcb s);
  al_plug : recs <> [] -> forall node' hdr' res' recs', node_rep (f_btcb s) hdr' res' recs' node' ->
    nd_height node' = Some 1 -> nd_kind node' = Some kBTLeafNode -> keys_sorted ord recs' ->
    Forall (fun x => x ∈ recs \/ same_key P ord key x) recs' ->
    bt_tree P ord (f_btcb s) (<[so_nodeNum out := node']> (f_nodes s)) (Z.to_nat (treeDepth (f_btcb s)))
      (rootNode (f_btcb s)) (A ++ recs' ++ B);
}.

Lemma SearchTree_leaf s key leaves :
  holds s leaves -> P key ->
  exists out st hdr res recs node found i A B,
    SearchTree cmp key new_path s = Some (out, with_btcb (with_stats st (f_btcb s)) s) /\
    at_leaf s key leaves out hdr res recs node found i A B.
Proof.
  intros (Hio & Hb & Hd & Htree) HP.
  destruct (SearchTree_run cmp P ord s key leaves Hio Hb HP Hd Htree) as (out & s1 & E & [st ->] & Hans & Hrepl).
  pose proof (leaf_answer_err ord _ _ _ _ _ Hans) as Hfound.
  destruct Hans as (hdr & res & recs & node & found & i & Hn & Hrep & Hk & Enode & Hn0 & Eidx & Eerr & Hres & _ & _ & Hpath).
  assert (found = bool_decide (has_key key leaves)) as Ef.
  { unfold has_key. rewrite Eerr in Hfound. by destruct found, (bool_decide _). }
  destruct Hrepl as (hdr2 & res2 & recs2 & node2 & A & B & Hn2 & Hrep2 & _ & Hh & EL & HPr & Hs & Hlt & Hplug).
  rewrite Hn in Hn2. injection Hn2 as <-.
  rewrite <- (node_rep_inj _ _ _ _ _ _ _ _ Hb Hrep Hrep2) in *.
  exists out, st, hdr, res, recs, node, found, i, A, B. split; [done|]. by constructor.
Qed.

(** ** Inserting *)

Section Insert.
Context (s : btfile) (leaves : list bytes) (it : BTreeIterator) (raw recPtr data : bytes).
Context (eofproc : SetEndOfForkProc).
Notation b := (f_btcb s).
Notation rec := (keyed_record b (len raw) raw data).
Context (Hs : holds s leaves) (HP : P (it_key it)).
Context (Hkey : key_ok b (it_key it) raw) (Hraw : len raw <= UINT16_MAX - 4).
Context (Hdata : get_bytes recPtr 0 (len data) = Some data) (Hdl : lengthSize b <= len data).
Context (Hcheck : CheckInsertParams b it (len data) = Some noErr).

Lemma BTInsertRecord_duplicate_run :
  has_key (it_key it) leaves ->
  exists s', BTInsertRecord cmp eofproc it recPtr (len data) s = Some ((fsBTDuplicateRecordErr, with_hint no_hint it), s') /\
    stats_only s s'.
Proof.
  intros Hhas. destruct (SearchTree_leaf s (it_key it) leaves Hs HP)
    as (out & st & hdr & res & recs & node & found & i & A & B & E & Hal).
  pose proof (al_found _ _ _ _ _ _ _ _ _ _ _ _ Hal) as Hf. rewrite bool_decide_eq_true_2 in Hf by done. subst found.
  unfold BTInsertRecord. erewrite bind_run by reflexivity.
  erewrite bind_run by (unfold lift; rewrite Hcheck; reflexivity). cbn [Z.eqb noErr negb].
  rewrite (bind_run _ _ _ _ _ E), (al_err _ _ _ _ _ _ _ _ _ _ _ _ Hal). cbn [Z.eqb noErr].
  unfold insert_exit, change_exit. destruct Hs as (Hio & _).
  edestruct (ReleaseNode_run (so_node out)) as (s2 & E2 & Hs2); [|rewrite (bind_run _ _ _ _ _ E2)]; [exact Hio|].
  eexists. split; [reflexivity|]. eapply stats_only_trans; [by eexists|exact Hs2].
Qed.
Context (Hsame : same_key P ord (it_key it) rec) (Hself : ord (it_key it) rec = 0).

(** Writing the changed leaf back, with the counters and the hint of an insertion. *)
Lemma insert_written n st node' leaves' :
  bt_tree P ord b (<[n := node']> (f_nodes s)) (Z.to_nat (treeDepth b)) (rootNode b) leaves' ->
  exists s', (
    _ ← set_buffer (Some n) node';
    '(err, nodeRec) ← UpdateNode (Some n);
    exit_on_error err (insert_exit err it nodeRec) (insert_success it n)) (with_btcb (with_stats st b) s) =
      Some ((noErr, hint_to (f_btcb s') n it), s') /\ holds s' leaves' /\
    same_layout b (f_btcb s') /\ leafRecords (f_btcb s') = u32 (leafRecords b + 1) /\
    f_nodes s' = <[n := node']> (f_nodes s).
Proof.
  intros Htree. destruct Hs as (Hio & Hb & Hd & _). erewrite bind_run by reflexivity.
  edestruct (UpdateNode_run n) as (s2 & E2 & [st2 ->]); [|rewrite (bind_run _ _ _ _ _ E2)]; [exact Hio|].
  cbn match beta. cbn [exit_on_error Z.eqb noErr]. unfold insert_success.
  do 3 (erewrite bind_run by reflexivity). eexists. split; [reflexivity|].
  split; [|by split_and!]. split; [done|]. split; [done|]. split; [done|]. simpl.
  eapply bt_tree_layout; [|exact Htree]. by split_and!.
Qed.

Lemma BTInsertRecord_run out hdr res recs node i A B st :
  SearchTree cmp (it_key it) new_path s = Some (out, with_btcb (with_stats st b) s) ->
  at_leaf s (it_key it) leaves out hdr res recs node false i A B -> (0 < i)%nat ->
  keyed_size b (len raw) + len data + 2 <= free_space b recs ->
  exists s' node', BTInsertRecord cmp eofproc it recPtr (len data) s =
      Some ((noErr, hint_to (f_btcb s') (so_nodeNum out) it), s') /\
    holds s' ((A ++ take i recs) ++ rec :: drop i recs ++ B) /\ same_layout b (f_btcb s') /\
    leafRecords (f_btcb s') = u32 (leafRecords b + 1) /\
    f_nodes s' = <[so_nodeNum out := node']> (f_nodes s) /\
    node_rep b hdr res (take i recs ++ rec :: drop i recs) node' /\ keys_sorted ord (take i recs ++ rec :: drop i recs).
Proof.
  intros E Hal Hi Hfree. pose proof Hal as []. pose proof Hs as (Hio & Hb & Hd & _).
  pose proof al_result0 as (_ & Hile & _).
  assert (recs <> []) as Hne by (intros ->; simpl in Hile; lia).
  pose proof al_rep0 as Hrep. rewrite <- (take_drop i recs) in Hrep.
  pose proof (InsertKeyRecord_rep _ Hb _ _ _ _ _ _ _ _ _ _ Hrep Hkey (conj (Z.le_refl (len raw)) Hraw) Hdata Hdl) as Hins.
  rewrite (take_drop i recs) in Hins. replace (len (take i recs)) with (Z.of_nat i) in Hins by (rewrite length_take; lia).
  destruct (Z.ltb_spec (free_space b recs) (keyed_size b (len raw) + len data + 2)); [lia|].
  destruct Hins as (node' & Eins & Hrep').
  pose proof Hsame as [HPr Heq].
  pose proof (sorted_insert cmp P ord _ _ _ _ al_sorted0 al_result0 HPr al_P0 Heq) as Hsorted.
  destruct (header_rep _ _ _ _ _ Hrep') as (_ & _ & K' & H'). destruct (header_rep _ _ _ _ _ al_rep0) as (_ & _ & K & H1).
  pose proof (al_plug0 Hne node' hdr res _ Hrep' ltac:(by rewrite H', <- H1) ltac:(by rewrite K', <- K) Hsorted) as Htree.
  destruct (insert_written (so_nodeNum out) st node' (A ++ (take i recs ++ rec :: drop i recs) ++ B)) as
    (s' & E' & Hs' & Hlay & Hlr & Hn').
  { apply Htree. apply Forall_app. split; [|constructor; [by right|]];
      apply Forall_forall; intros x Hx; left; rewrite <- (take_drop i recs); apply elem_of_app; auto. }
  exists s', node'. split_and!; try done.
  - unfold BTInsertRecord. erewrite bind_run by reflexivity.
    erewrite bind_run by (unfold lift; rewrite Hcheck; reflexivity). cbn [Z.eqb noErr negb].
    rewrite (bind_run _ _ _ _ _ E), al_err0. change (fsBTRecordNotFoundErr =? noErr) with false.
    change (fsBTRecordNotFoundErr =? fsBTEmptyErr) with false. rewrite Z.eqb_refl. cbn [negb].
    rewrite al_index0, al_node0. destruct (Z.ltb_spec 0 (Z.of_nat i)); [|lia].
    erewrite bind_run by (unfold lift; destruct Hkey as [-> _]; reflexivity).
    erewrite bind_run by (unfold buffer; simpl; rewrite al_lookup0; reflexivity).
    erewrite bind_run by (unfold lift; rewrite Eins; reflexivity). cbn match beta. exact E'.
  - replace ((A ++ take i recs) ++ rec :: drop i recs ++ B) with (A ++ (take i recs ++ rec :: drop i recs) ++ B)
      by (rewrite <- !app_assoc; done). done.
Qed.
End Insert.

(** A key and record the checks of BTInsertRecord accept; the record it makes in the
    leaf has the key. *)
Definition insertable (b : BTreeControlBlock) (it : BTreeIterator) (raw recPtr data : bytes) : Prop :=
  key_ok b (it_key it) raw /\ len raw <= UINT16_MAX - 4 /\
  get_bytes recPtr 0 (len data) = Some data /\ lengthSize b <= len data /\
  CheckInsertParams b it (len data) = Some noErr /\
  same_key P ord (it_key it) (keyed_record b (len raw) raw data) /\
  ord (it_key it) (keyed_record b (len raw) raw data) = 0.

(** The search for the key ends behind a record of a leaf with room for the new one. *)
Definition room_at (s : btfile) (it : BTreeIterator) (raw data : bytes) (out : search_out) : Prop :=
  0 < so_index out /\
  exists s1 node free, SearchTree cmp (it_key it) new_path s = Some (out, s1) /\
    f_nodes s !! so_nodeNum out = Some node /\ GetNodeFreeSize (f_btcb s) node = Some free /\
    keyed_size (f_btcb s) (len raw) + len data + 2 <= free.

(** BTInsertRecord of a key the tree has: fsBTDuplicateRecordErr, the iterator's
    hint is dropped and the tree does not change. *)
Theorem BTInsertRecord_duplicate eofproc s leaves it recPtr recordLen :
  holds s leaves -> P (it_key it) -> CheckInsertParams (f_btcb s) it recordLen = Some noErr ->
  has_key (it_key it) leaves -> 0 <= recordLen ->
  exists s', BTInsertRecord cmp eofproc it recPtr recordLen s =
      Some ((fsBTDuplicateRecordErr, with_hint no_hint it), s') /\ stats_only s s'.
Proof.
  intros Hs HP Hc Hhas Hlen. assert (recordLen = len (replicate (Z.to_nat recordLen) 0)) as El
    by (rewrite length_replicate; lia).
  rewrite El in Hc |- *. exact (BTInsertRecord_duplicate_run s leaves it recPtr _ eofproc Hs HP Hc Hhas).
Qed.

Lemma BTInsertRecord_spec eofproc s leaves it raw recPtr data out :
  holds s leaves -> P (it_key it) -> insertable (f_btcb s) it raw recPtr data ->
  ~ has_key (it_key it) leaves -> room_at s it raw data out ->
  let rec := keyed_record (f_btcb s) (len raw) raw data in
  exists s' A B node' hdr res recs', leaves = A ++ B /\
    BTInsertRecord cmp eofproc it recPtr (len data) s =
      Some ((noErr, hint_to (f_btcb s') (so_nodeNum out) it), s') /\
    holds s' (A ++ rec :: B) /\ same_layout (f_btcb s) (f_btcb s') /\
    leafRecords (f_btcb s') = u32 (leafRecords (f_btcb s) + 1) /\
    f_nodes s' = <[so_nodeNum out := node']> (f_nodes s) /\
    node_rep (f_btcb s) hdr res recs' node' /\ Forall P recs' /\ keys_sorted ord recs' /\
    (forall x, x ∈ recs' -> x ∈ A ++ rec :: B).
Proof.
  intros Hs HP (H1 & H2 & H3 & H4 & H5 & H6 & H7) Hno (Hpos & s1 & node & free & E1 & Hnode & Hfree & Hroom) rec.
  destruct (SearchTree_leaf s (it_key it) leaves Hs HP)
    as (out' & st & hdr & res & recs & node2 & found & i & A & B & E & Hal).
  rewrite E in E1. injection E1 as -> <-. pose proof Hal as [].
  rewrite bool_decide_eq_false_2 in al_found0 by done. subst found.
  rewrite Hnode in al_lookup0. injection al_lookup0 as <-. pose proof Hs as (_ & Hb & _).
  rewrite (GetNodeFreeSize_rep _ Hb _ _ _ _ al_rep0) in Hfree. injection Hfree as <-.
  destruct (BTInsertRecord_run s leaves it raw recPtr data eofproc Hs H1 H2 H3 H4 H5 H6 out hdr res recs node i A B st E Hal)
    as (s' & node' & Erun & Hs' & Hlay & Hlr & Hn' & Hrep' & Hsort'); [lia|done|]. fold rec in Hs', Hrep', Hsort'.
  exists s', (A ++ take i recs), (drop i recs ++ B), node', hdr, res, (take i recs ++ rec :: drop i recs).
  split_and!; try done.
  - rewrite al_leaves0. rewrite <- (take_drop i recs) at 1. by rewrite <- !app_assoc.
  - apply Forall_app. split; [by apply Forall_take|]. constructor; [by destruct H6|by apply Forall_drop].
  - intros x. rewrite !elem_of_app, !elem_of_cons, elem_of_app. naive_solver.
Qed.

(** C31: BTInsertRecord of a new key, when its leaf has a smaller record and room: the
    record goes in the leaf and the file is again a well-formed tree, with the
    records it had and the new one; the count of records goes up by one, no other node
    changes and the hint points to the leaf. *)
Theorem BTInsertRecord_inserts eofproc s leaves it raw recPtr data out :
  holds s leaves -> P (it_key it) -> insertable (f_btcb s) it raw recPtr data ->
  ~ has_key (it_key it) leaves -> room_at s it raw data out ->
  exists s' A B, leaves = A ++ B /\
    BTInsertRecord cmp eofproc it recPtr (len data) s =
      Some ((noErr, hint_to (f_btcb s') (so_nodeNum out) it), s') /\
    holds s' (A ++ keyed_record (f_btcb s) (len raw) raw data :: B) /\
    leafRecords (f_btcb s') = u32 (leafRecords (f_btcb s) + 1) /\
    forall n, n <> so_nodeNum out -> f_nodes s' !! n = f_nodes s !! n.
Proof.
  intros Hs HP Hins Hno Hroom.
  destruct (BTInsertRecord_spec eofproc s leaves it raw recPtr data out Hs HP Hins Hno Hroom)
    as (s' & A & B & node' & hdr & res & recs' & E1 & E2 & Hs' & _ & Hlr & Hn & _).
  exists s', A, B. split_and!; try done. intros n Hne. rewrite Hn. by rewrite lookup_insert_ne.
Qed.

(** Keyed records with the same bytes have the same data. *)
Lemma keyed_record_inj b k raw data k' raw' data' :
  keyLength_ok b k -> keyLength_ok b k' -> len raw <= k -> len raw' <= k' ->
  keyed_record b k raw data = keyed_record b k' raw' data' -> data = data'.
Proof.
  intros Hk Hk' Hr Hr' E. unfold keyed_record in E.
  pose proof (CalcKeySize_field b k raw data Hk) as E1. rewrite E, CalcKeySize_field in E1 by done.
  injection E1 as E1. assert (k' = k) as -> by lia.
  pose proof (length_key_field b k raw Hr) as L1. pose proof (length_key_field b k raw' Hr') as L2.
  apply app_inj_1 in E as [_ E]; [done|lia].
Qed.

Lemma keyed_layout b b' x : same_layout b b' -> keyed b x -> keyed b' x.
Proof.
  intros Hlay (k & raw & data & -> & Hk & Hr). exists k, raw, data. destruct (layout_keys _ _ Hlay) as (_ & -> & _).
  split_and!; [done|..|done]. revert Hk. unfold keyLength_ok, bt_attr. by destruct Hlay as (_ & -> & _).
Qed.

(** C33: A record with a new key that BTInsertRecord puts into a leaf with room for it
    is found again.  When the tree is well formed and does not have the key, the block
    I/O does not fail, the place of the record is in a leaf, behind another record of
    it, that has room for the record, so that no node is split, and the keys of the tree
    and of the record have the lengths that their attributes say: inserting it, and
    searching for the key with the iterator that BTInsertRecord gives back, finds the
    data that was inserted, up to the size of the caller's buffer.  Insertions that
    split a node are not covered (BTInsertRecord_loses_record). *)
Theorem insert_search_record eofproc s leaves it raw recPtr data out size :
  holds s leaves -> P (it_key it) -> insertable (f_btcb s) it raw recPtr data ->
  ~ has_key (it_key it) leaves -> room_at s it raw data out ->
  Forall (keyed (f_btcb s)) leaves -> keyLength_ok (f_btcb s) (len raw) -> 0 <= size ->
  exists it' s', BTInsertRecord cmp eofproc it recPtr (len data) s = Some ((noErr, it'), s') /\
    exists r s'', BTSearchRecord cmp it' (Some size) None s' = Some (r, s'') /\
      sr_err r = noErr /\ sr_recordLen r = Some (len data) /\
      sr_record r = Some (take (Z.to_nat (Z.min (len data) size)) data).
Proof.
  intros Hs HP Hins Hno Hroom Hkeyed Hklen Hsize.
  destruct (BTInsertRecord_spec eofproc s leaves it raw recPtr data out Hs HP Hins Hno Hroom)
    as (s' & A & B & node' & hdr & res & recs' & EL & Erun & Hs' & Hlay & _ & Hn' & Hrep' & HP' & Hsort' & Hsub').
  destruct Hins as (_ & _ & _ & _ & _ & _ & Hself). set (rec := keyed_record (f_btcb s) (len raw) raw data) in *.
  eexists _, s'. split; [exact Erun|]. set (it' := hint_to (f_btcb s') (so_nodeNum out) it).
  destruct (layout_keys _ _ Hlay) as (_ & Er & _).
  destruct (BTSearchRecord_run s' (A ++ rec :: B) it' size Hs' HP) as (r & s'' & Esearch & _ & Hfound).
  - apply Forall_forall. intros x Hx. apply (keyed_layout _ _ _ Hlay). rewrite EL in Hkeyed.
    apply elem_of_app in Hx as [Hx|[->|Hx]%elem_of_cons].
    + eapply Forall_forall in Hkeyed; [exact Hkeyed|]. apply elem_of_app. by left.
    + exists (len raw), raw, data. done.
    + eapply Forall_forall in Hkeyed; [exact Hkeyed|]. apply elem_of_app. by right.
  - done.
  - right. right. pose proof Hs as (_ & Hb & _). destruct (header_some _ _ _ _ _ Hrep') as (_ & _ & [kind Hk] & _).
    exists node', kind, (len recs'). simpl. rewrite Hn', lookup_insert_eq. split_and!; [done|done| |].
    + by apply (numRecords_rep _ Hb _ _ _ _ Hrep').
    + intros _. exists hdr, res, recs'. split_and!; try done. by eapply node_rep_layout.
  - exists r, s''. split; [exact Esearch|]. rewrite bool_decide_eq_true_2 in Hfound.
    2:{ apply Exists_exists. exists rec. split; [|done]. apply elem_of_app. right. left. }
    destruct Hfound as (k & raw' & data' & Hk & Hr & Hin & H0 & -> & -> & ->). rewrite Er in Hin, H0.
    assert (keyed_record (f_btcb s) k raw' data' = rec) as Erec.
    { apply elem_of_app in Hin as [Hin|[Hin|Hin]%elem_of_cons]; [exfalso|done|exfalso];
        apply Hno, Exists_exists; eexists; (split; [|exact H0]); rewrite EL; apply elem_of_app; auto. }
    assert (data' = data) as ->; [|done]. apply (keyed_record_inj (f_btcb s) k raw' data' (len raw) raw data); try done.
    revert Hk. unfold keyLength_ok, bt_attr. by destruct Hlay as (_ & -> & _).
Qed.

(** ** Deleting *)

(** DeleteTree_root on a leaf that keeps records. *)
Lemma DeleteTree_root_leaf n s node cnt :
  io_fine s -> f_nodes s !! n = Some node -> nd_kind node = Some kBTLeafNode -> nd_numRecords node = Some cnt ->
  exists s' r, DeleteTree_root (Some n) s = Some ((noErr, r), s') /\ stats_only s s'.
Proof.
  intros Hio Hn Hk Hc. unfold DeleteTree_root.
  rewrite (bind_run _ _ s cnt s) by (by apply (read_node_run _ _ node)).
  destruct (cnt =? 1); [|eexists _, _; split; [reflexivity|apply stats_only_refl]].
  unfold CollapseTree. erewrite bind_run by reflexivity.
  rewrite (bind_run _ _ s (noErr, Some n) s).
  2:{ cbn [CollapseTree_loop]. rewrite (bind_run _ _ s cnt s) by (by apply (read_node_run _ _ node)).
      rewrite (bind_run _ _ s kBTLeafNode s) by (by apply (read_node_run _ _ node)). rewrite Z.eqb_refl.
      by rewrite orb_true_r. }
  cbn match beta. cbn [exit_on_error Z.eqb noErr]. erewrite bind_run by reflexivity. rewrite Z.eqb_refl. cbn [negb].
  erewrite bind_run by reflexivity.
  destruct (UpdateNode_run n s Hio) as (s2 & E2 & Hs2). rewrite (bind_run _ _ _ _ _ E2).
  eexists _, _. split; [reflexivity|done].
Qed.

(** Deleting a record of a leaf that is not its first. *)
Lemma DeleteTree_leaf s n node node' i path cnt fuel :
  io_fine s -> tpt_get path 1 = Some (n, i) -> f_nodes s !! n = Some node -> 0 < i ->
  DeleteRecord (f_btcb s) node i = Some node' -> nd_kind node' = Some kBTLeafNode ->
  nd_numRecords node' = Some cnt -> 0 < cnt ->
  exists st, DeleteTree path (Some n) i 1 (S fuel) s =
    Some (noErr, with_nodes (<[n := node']> (f_nodes s)) (with_btcb (with_stats st (f_btcb s)) s)).
Proof.
  intros Hio Hpath Hn Hi Hdel Hk Hc Hpos. cbn [DeleteTree].
  erewrite bind_run by (unfold lift; rewrite Hpath; reflexivity). cbn match beta. erewrite bind_run by reflexivity.
  rewrite (bind_run _ _ _ _ _ (update_node_run n s node _ node' Hn Hdel)).
  set (s1 := with_nodes (<[n := node']> (f_nodes s)) s).
  assert (f_nodes s1 !! n = Some node') as Hn1 by (apply lookup_insert_eq).
  rewrite (bind_run _ _ s1 cnt s1) by (by apply (read_node_run _ _ node')).
  destruct (Z.eqb_spec cnt 0); [lia|]. destruct (Z.eqb_spec i 0); [lia|]. cbn [negb andb].
  erewrite bind_run by reflexivity. cbn match beta. cbn [exit_on_error Z.eqb noErr].
  erewrite bind_run by reflexivity.
  assert (exists s2 r, (if 1 =? treeDepth (f_btcb s1) then DeleteTree_root (Some n) else mret (noErr, Some n)) s1 =
    Some ((noErr, r), s2) /\ stats_only s1 s2) as (s2 & r & E2 & Hs2).
  { destruct (1 =? treeDepth (f_btcb s1)); [by apply (DeleteTree_root_leaf n s1 node' cnt)|].
    eexists _, _. split; [reflexivity|apply stats_only_refl]. }
  rewrite (bind_run _ _ _ _ _ E2). cbn match beta. cbn [exit_on_error Z.eqb noErr orb]. rewrite andb_false_r.
  assert (exists s3 r', UpdateNode r s2 = Some ((noErr, r'), s3) /\ stats_only s2 s3) as (s3 & r' & E3 & Hs3).
  { destruct r as [m|]; [|eexists _, _; split; [reflexivity|apply stats_only_refl]].
    destruct (UpdateNode_run m s2) as (s3 & E3 & Hs3); [by destruct Hs2 as [? ->]|]. by exists s3, None. }
  rewrite (bind_run _ _ _ _ _ E3). cbn match beta. cbn [exit_on_error Z.eqb noErr].
  destruct Hs2 as [st2 ->], Hs3 as [st3 ->]. by exists st3.
Qed.

(** C32: BTDeleteRecord of a key whose record is not the first of its leaf: exactly
    that record goes, the file is again a well-formed tree with the others, the count
    of records goes down by one and no other node changes. *)
Theorem BTDeleteRecord_deletes eofproc s leaves it out s1 :
  holds s leaves -> P (it_key it) -> has_key (it_key it) leaves ->
  SearchTree cmp (it_key it) new_path s = Some (out, s1) -> 0 < so_index out ->
  exists s' A x B, leaves = A ++ x :: B /\ ord (it_key it) x = 0 /\
    BTDeleteRecord cmp eofproc it s = Some ((noErr, BTInvalidateHint it), s') /\ holds s' (A ++ B) /\
    leafRecords (f_btcb s') = u32 (leafRecords (f_btcb s) - 1) /\
    forall n, n <> so_nodeNum out -> f_nodes s' !! n = f_nodes s !! n.
Proof.
  intros Hs HP Hhas E1 Hpos. pose proof Hs as (Hio & Hb & Hd & _).
  destruct (SearchTree_leaf s (it_key it) leaves Hs HP)
    as (out' & st & hdr & res & recs & node & found & i & A & B & E & Hal).
  rewrite E in E1. injection E1 as -> <-. pose proof Hal as [].
  rewrite bool_decide_eq_true_2 in al_found0 by done. subst found.
  destruct al_result0 as (_ & x & Hx & Hx0 & _).
  pose proof (take_drop_middle _ _ _ Hx) as Erecs.
  pose proof (lookup_lt_Some _ _ _ Hx) as Hlt.
  assert (recs <> []) as Hne by (intros ->; done).
  pose proof al_rep0 as Hrep. rewrite <- Erecs in Hrep.
  destruct (DeleteRecord_rep _ Hb _ _ _ _ _ _ Hrep) as (node' & Edel & Hrep').
  replace (len (take i recs)) with (Z.of_nat i) in Edel by (rewrite length_take; lia).
  set (recs' := take i recs ++ drop (S i) recs) in *.
  assert (keys_sorted ord recs') as Hsort'.
  { unfold keys_sorted in *. rewrite <- Erecs in al_sorted0. apply StronglySorted_middle in al_sorted0 as (S1 & S2 & _ & _ & S3).
    apply StronglySorted_app. split_and!; auto. }
  destruct (header_rep _ _ _ _ _ Hrep') as (_ & _ & K' & H'). destruct (header_rep _ _ _ _ _ al_rep0) as (_ & _ & K & H1).
  assert (nd_kind node' = Some kBTLeafNode) as Hk' by (by rewrite K', <- K).
  pose proof (al_plug0 Hne node' hdr res recs' Hrep' ltac:(by rewrite H', <- H1) Hk' Hsort') as Htree.
  destruct (DeleteTree_leaf (with_btcb (with_stats st (f_btcb s)) s) (so_nodeNum out) node node' (Z.of_nat i)
    (so_path out) (len recs') (Z.to_nat (treeDepth (f_btcb s)))) as (st' & Edt); try done.
  { by rewrite al_path0, al_index0. } { lia. } { by apply (numRecords_rep _ Hb _ _ _ _ Hrep'). }
  { subst recs'. rewrite length_app, length_take. lia. }
  eexists _, (A ++ take i recs), x, (drop (S i) recs ++ B). split; [|split; [exact Hx0|split; [|split; [|split]]]].
  - rewrite al_leaves0. rewrite <- Erecs at 1. by rewrite <- !app_assoc.
  - unfold BTDeleteRecord. rewrite (bind_run _ _ _ _ _ E), al_err0. cbn [exit_on_error Z.eqb noErr].
    rewrite al_index0, al_node0. unfold extend_for_delete.
    rewrite (bind_run _ _ _ noErr (with_btcb (with_stats st (f_btcb s)) s)).
    2:{ erewrite bind_run by reflexivity. by destruct (Z.eqb_spec (Z.of_nat i) 0); [lia|]. }
    cbn [exit_on_error Z.eqb noErr]. erewrite bind_run by reflexivity. rewrite (bind_run _ _ _ _ _ Edt).
    cbn [exit_on_error Z.eqb noErr]. reflexivity.
  - split; [done|]. split; [done|]. split; [done|]. simpl.
    replace ((A ++ take i recs) ++ drop (S i) recs ++ B) with (A ++ recs' ++ B) by (subst recs'; by rewrite <- !app_assoc).
    eapply bt_tree_layout; [|apply Htree]; [by split_and!|].
    apply Forall_forall. intros y Hy. left. rewrite <- Erecs. apply elem_of_app in Hy as [Hy|Hy]; apply elem_of_app; [by left|right].
    by right.
  - done.
  - intros n Hn. simpl. by rewrite lookup_insert_ne.
Qed.

(** ** The first record *)

(** The header of the first leaf. *)
Definition leaf_hdr : bytes := replicate 8 0 ++ [255; 1].

Lemma make_leaf b res recs node :
  node_rep b (replicate 10 0) res recs node ->
  exists node', (n ← set_kind node kBTLeafNode; set_height n 1) = Some node' /\ node_rep b leaf_hdr res recs node'.
Proof.
  intros H0. unfold set_kind, set_height, st8.
  destruct (put_in_header b _ _ _ _ 8 (le_bytes 1 kBTLeafNode) (replicate 8 0 ++ [255; 0]) H0 eq_refl) as (n1 & -> & H1).
  cbn [mbind option_bind].
  destruct (put_in_header b _ _ _ _ 9 (le_bytes 1 1) leaf_hdr H1 eq_refl) as (n2 & -> & H2). by exists n2.
Qed.

Lemma SearchTree_empty s key path :
  treeDepth (f_btcb s) = 0 -> SearchTree cmp key path s = Some (mkSearch fsBTEmptyErr path 0 None 0, s).
Proof. intros H. unfold SearchTree. erewrite bind_run by reflexivity. by rewrite H. Qed.

(** BTInsertRecord in an empty tree with a free node: it takes the first free
    node of the map, and the tree becomes that leaf with the one record: depth 1, the
    leaf is the root, the first and the last leaf. *)
Theorem BTInsertRecord_first eofproc s L k it raw recPtr data :
  next_free s L k -> treeDepth (f_btcb s) = 0 -> freeNodes (f_btcb s) <> 0 -> (0 < k)%nat ->
  P (it_key it) -> insertable (f_btcb s) it raw recPtr data ->
  keyed_size (f_btcb s) (len raw) + len data + 2 <= free_space (f_btcb s) [] ->
  exists s', BTInsertRecord cmp eofproc it recPtr (len data) s =
      Some ((noErr, hint_to (f_btcb s') (Z.of_nat k) it), s') /\
    holds s' [keyed_record (f_btcb s) (len raw) raw data] /\
    treeDepth (f_btcb s') = 1 /\ rootNode (f_btcb s') = Z.of_nat k /\
    firstLeafNode (f_btcb s') = Z.of_nat k /\ lastLeafNode (f_btcb s') = Z.of_nat k.
Proof.
  intros (Hio & Hb & Hmap & Hmax & Hfc & Hkt & Hused & Hsizes) Hd Hfree Hk HP (Hkey & Hraw & Hdata & Hdl & Hcheck & Hsame & _) Hfit.
  destruct (split_allocates s L k Hio Hb Hmap Hmax Hfc Hkt) as (s1 & E1 & Hio1 & Hlay1 & _ & _ & Hframe).
  destruct (layout_keys _ _ Hlay1) as (_ & _ & _ & _ & Hb1).
  destruct (GetNewNode_run (Z.of_nat k) s1 Hio1 (Hb1 Hb)) as (s2 & node0 & E2 & Hrep0 & Es2).
  { intros old Hold. rewrite Hframe in Hold by (by eapply fresh_not_map). destruct Hlay1 as (-> & _). by eapply Hsizes. }
  assert (same_layout (f_btcb s1) (f_btcb s)) as Hlay1' by (destruct Hlay1 as (? & ? & ? & ?); by split_and!).
  apply (node_rep_layout _ _ _ _ _ _ Hlay1') in Hrep0.
  destruct (make_leaf _ _ _ _ Hrep0) as (node1 & Eleaf & Hrep1).
  pose proof (InsertKeyRecord_rep _ Hb leaf_hdr _ [] [] node1 _ _ _ _ _ Hrep1 Hkey (conj (Z.le_refl (len raw)) Hraw) Hdata Hdl) as Hins.
  simpl app in Hins. destruct (Z.ltb_spec (free_space (f_btcb s) []) (keyed_size (f_btcb s) (len raw) + len data + 2)); [lia|].
  destruct Hins as (node2 & Eins & Hrep2). change (len []) with 0 in Eins.
  unfold BTInsertRecord. erewrite bind_run by reflexivity.
  erewrite bind_run by (unfold lift; rewrite Hcheck; reflexivity). cbn [Z.eqb noErr negb].
  rewrite (bind_run _ _ _ _ _ (SearchTree_empty s (it_key it) new_path Hd)). cbn [so_err so_node so_index].
  change (fsBTEmptyErr =? noErr) with false. rewrite Z.eqb_refl. unfold insert_first.
  erewrite bind_run by reflexivity. destruct (Z.eqb_spec (freeNodes (f_btcb s)) 0); [done|].
  erewrite bind_run by reflexivity. cbn [exit_on_error Z.eqb noErr].
  rewrite (bind_run _ _ _ _ _ E1). cbn match beta. cbn [exit_on_error Z.eqb noErr].
  rewrite (bind_run _ _ _ _ _ E2). cbn match beta. cbn [exit_on_error Z.eqb noErr].
  assert (f_nodes s2 !! Z.of_nat k = Some node0) as Hn2 by (subst s2; apply lookup_insert_eq).
  rewrite (bind_run _ _ _ _ _ (update_node_run _ s2 node0 _ node1 Hn2 Eleaf)).
  erewrite bind_run by (unfold lift; destruct Hkey as [-> _]; reflexivity).
  erewrite bind_run by (unfold buffer; simpl; rewrite lookup_insert_eq; reflexivity).
  erewrite bind_run by (unfold lift; rewrite Eins; reflexivity). cbn match beta. erewrite bind_run by reflexivity.
  cbn [negb]. erewrite bind_run by reflexivity.
  edestruct (UpdateNode_run (Z.of_nat k)) as (s3 & E3 & [st3 ->]); [|rewrite (bind_run _ _ _ _ _ E3)]; [by subst s2|].
  cbn match beta. cbn [exit_on_error Z.eqb noErr]. erewrite bind_run by reflexivity. unfold insert_success.
  do 3 (erewrite bind_run by reflexivity). eexists. split; [reflexivity|].
  split; [|by simpl]. subst s2. split; [done|]. split; [by apply Hb1|]. split; [by vm_compute|]. simpl.
  eapply bt_tree_layout; [|eapply (bt_leaf P ord (f_btcb s))].
  - destruct Hlay1 as (? & ? & ? & ?). by split_and!.
  - apply lookup_insert_eq.
  - exact Hrep2.
  - by destruct (header_rep _ _ _ _ _ Hrep2) as (_ & _ & _ & ->).
  - by destruct (header_rep _ _ _ _ _ Hrep2) as (_ & _ & -> & _).
  - lia.
  - constructor; [by destruct Hsame|constructor].
  - repeat constructor.
Qed.
End Props.

(** ** Witnesses *)

Definition ex_it (file start : Z) : BTreeIterator := mkIter no_hint (mkExtentKey 0 file start).
Definition ex_hinted (file start node : Z) : BTreeIterator := mkIter (mkHint 0 node 0) (mkExtentKey 0 file start).
Notation ex_holds := (holds has_extent_key extent_order).

Lemma ex_tree_holds : ex_holds ex_tree (ex_leaf1 ++ ex_leaf2).
Proof. split; [done|]. split; [apply ex_size_ok|]. split; [by vm_compute|apply ex_tree_ok]. Qed.

Lemma ex_keyed : Forall (keyed ex_btcb) (ex_leaf1 ++ ex_leaf2).
Proof.
  ex_forall; (eexists 10, _, _; split; [reflexivity|]; split; by vm_compute).
Qed.

Lemma ex_not_key : ~ has_key extent_order (mkExtentKey 0 20 72) (ex_leaf1 ++ ex_leaf2).
Proof. intros H. repeat (apply Exists_cons in H as [H|H]; [by vm_compute in H|]). by apply Exists_nil in H. Qed.

Lemma BTSearchRecord_correct_witness : exists out s',
  BTSearchRecord CompareExtentKeysPlus (ex_hinted 31 24 1) (Some 4) None ex_tree = Some (out, s') /\
  sr_err out = noErr.
Proof.
  destruct (BTSearchRecord_correct CompareExtentKeysPlus has_extent_key extent_order ex_tree (ex_leaf1 ++ ex_leaf2)
    (ex_hinted 31 24 1) 4) as (out & s' & E & _ & H);
    [apply ex_tree_holds|by eexists|apply ex_keyed|done| |].
  - right. right. exists ex_node1, kBTLeafNode, 2. split_and!; [by vm_compute..|]. intros _.
    exists (le32 2 ++ le32 0 ++ [255; 1]), [0; 0], ex_leaf1. split; [by apply filled_node_rep|].
    split; [ex_forall; by eexists|]. split; [repeat constructor|]. intros x Hx. apply elem_of_app. by left.
  - exists out, s'. split; [exact E|]. rewrite bool_decide_eq_true_2 in H.
    + by destruct H as (? & ? & ? & _ & _ & _ & _ & ? & _).
    + apply Exists_exists. exists (ex_rec 31 24 302). split; [do 4 right; left|done].
Defined.

Lemma BTInsertRecord_duplicate_witness : exists s',
  BTInsertRecord CompareExtentKeysPlus ex_eofproc (ex_it 31 24) (ex_data 400) 64 ex_tree =
  Some ((fsBTDuplicateRecordErr, ex_it 31 24), s').
Proof.
  destruct (BTInsertRecord_duplicate CompareExtentKeysPlus has_extent_key extent_order ex_eofproc ex_tree
    (ex_leaf1 ++ ex_leaf2) (ex_it 31 24) (ex_data 400) 64) as (s' & E & _);
    [apply ex_tree_holds|by eexists|by vm_compute| |done|by exists s'].
  apply Exists_exists. exists (ex_rec 31 24 302). split; [do 4 right; left|done].
Defined.

Lemma ex_insertable : insertable has_extent_key extent_order ex_btcb (ex_it 20 72) (drop 2 (mkExtentKey 0 20 72)) (ex_data 400) (ex_data 400).
Proof. split; [by split|]. split; [by vm_compute|]. split; [done|]. split; [by vm_compute|]. split; [by vm_compute|]. split; [|done]. by split; [eexists|]. Qed.

Definition ex_found : search_out :=
  default (mkSearch 0 [] 0 None 0) (fst <$> SearchTree CompareExtentKeysPlus (mkExtentKey 0 20 72) new_path ex_tree).

Lemma ex_room : room_at CompareExtentKeysPlus ex_tree (ex_it 20 72) (drop 2 (mkExtentKey 0 20 72)) (ex_data 400) ex_found.
Proof.
  split; [by vm_compute|].
  exists (default ex_tree (snd <$> SearchTree CompareExtentKeysPlus (mkExtentKey 0 20 72) new_path ex_tree)), ex_node1, 340.
  split; [|split; [|split]]; by vm_compute.
Qed.

Lemma BTInsertRecord_inserts_witness : exists s' A B, ex_leaf1 ++ ex_leaf2 = A ++ B /\
  ex_holds s' (A ++ ex_rec 20 72 400 :: B).
Proof.
  destruct (BTInsertRecord_inserts CompareExtentKeysPlus has_extent_key extent_order ex_eofproc ex_tree
    (ex_leaf1 ++ ex_leaf2) (ex_it 20 72) (drop 2 (mkExtentKey 0 20 72)) (ex_data 400) (ex_data 400) ex_found)
    as (s' & A & B & E & _ & H & _); [apply ex_tree_holds|by eexists|apply ex_insertable|apply ex_not_key|apply ex_room|].
  by exists s', A, B.
Defined.

Lemma insert_search_record_witness : exists it' s',
  BTInsertRecord CompareExtentKeysPlus ex_eofproc (ex_it 20 72) (ex_data 400) 64 ex_tree = Some ((noErr, it'), s') /\
  exists r s'', BTSearchRecord CompareExtentKeysPlus it' (Some 4) None s' = Some (r, s'') /\ sr_record r = Some (le32 400).
Proof.
  destruct (insert_search_record CompareExtentKeysPlus has_extent_key extent_order ex_eofproc ex_tree
    (ex_leaf1 ++ ex_leaf2) (ex_it 20 72) (drop 2 (mkExtentKey 0 20 72)) (ex_data 400) (ex_data 400) ex_found 4)
    as (it' & s' & E & r & s'' & E2 & _ & _ & H);
    [apply ex_tree_holds|by eexists|apply ex_insertable|apply ex_not_key|apply ex_room|apply ex_keyed|by vm_compute|done|].
  exists it', s'. split; [exact E|]. exists r, s''. split; [exact E2|exact H].
Defined.

Lemma BTDeleteRecord_deletes_witness : exists s' A x B, ex_leaf1 ++ ex_leaf2 = A ++ x :: B /\
  BTDeleteRecord CompareExtentKeysPlus ex_eofproc (ex_it 31 24) ex_tree = Some ((noErr, ex_it 31 24), s') /\
  ex_holds s' (A ++ B).
Proof.
  destruct (SearchTree CompareExtentKeysPlus (mkExtentKey 0 31 24) new_path ex_tree) as [[out s1]|] eqn:Eo.
  2:{ exfalso. vm_compute in Eo. discriminate. }
  assert (so_index out = 2) as Ei.
  { assert (so_index <$> (fst <$> SearchTree CompareExtentKeysPlus (mkExtentKey 0 31 24) new_path ex_tree) = Some 2) as H
      by (by vm_compute). rewrite Eo in H. by injection H. }
  destruct (BTDeleteRecord_deletes CompareExtentKeysPlus has_extent_key extent_order ex_eofproc ex_tree
    (ex_leaf1 ++ ex_leaf2) (ex_it 31 24) out s1) as (s' & A & x & B & E & _ & E2 & H & _);
    [apply ex_tree_holds|by eexists| |exact Eo|lia|
      exists s', A, x, B; split; [exact E|split; [exact E2|exact H]]].
  apply Exists_exists. exists (ex_rec 31 24 302). split; [do 4 right; left|done].
Defined.

(** An empty tree: the map has node 1 free. *)
Definition ex_empty_map : list Z := 0x0080 :: replicate 127 0.
Definition ex_empty_header : bytes :=
  node_bytes (le32 0 ++ le32 0 ++ [1; 0]) [0; 0] [replicate 106 0; replicate 128 0; words ex_empty_map] [].
Definition ex_empty_btcb : BTreeControlBlock := with_treeDepth 0 (with_rootNode 0 ex_btcb).
Definition ex_empty : btfile := with_nodes {[ 0 := ex_empty_header ]} (with_btcb ex_empty_btcb ex_file).

Lemma ex_empty_next : next_free ex_empty [(0, ex_empty_map)] 1.
Proof.
  split; [done|]. split; [by vm_compute|]. split; [|split; [by vm_compute|split; [|split; [by vm_compute|split]]]].
  - split; [|apply NoDup_singleton]. apply map_chain_last.
    exists (le32 0 ++ le32 0 ++ [1; 0]), [0; 0], [replicate 106 0; replicate 128 0], [], ex_empty_header.
    split_and!; try done; [by exists []|]. repeat (apply Forall_cons; split; [done|]). by apply Forall_nil.
  - split; [|by vm_compute]. repeat constructor.
  - ex_forall. by vm_compute.
  - intros n old H. simpl in H. by apply lookup_singleton_Some in H as [<- <-].
Qed.

Lemma BTInsertRecord_first_witness : exists s', ex_holds s' [ex_rec 20 72 400] /\ rootNode (f_btcb s') = 1.
Proof.
  destruct (BTInsertRecord_first CompareExtentKeysPlus has_extent_key extent_order ex_eofproc ex_empty
    [(0, ex_empty_map)] 1 (ex_it 20 72) (drop 2 (mkExtentKey 0 20 72)) (ex_data 400) (ex_data 400))
    as (s' & _ & H & _ & Hr & _);
    [apply ex_empty_next|done|done|lia|by eexists|apply ex_insertable|by vm_compute|].
  exists s'. split; [exact H|exact Hr].
Defined.

(** ** A record that is lost *)

(** A leaf of 512 bytes that two records of 238 and 254 bytes fill. *)
Definition ex_full_btcb : BTreeControlBlock := with_treeDepth 1 (with_rootNode 1 (with_lastLeafNode 1 ex_btcb)).
Definition ex_full_rec (file : Z) (size : nat) : bytes :=
  keyed_record ex_btcb 10 (drop 2 (mkExtentKey 0 file 8)) (replicate size 7).
Definition ex_full_recs : list bytes := [ex_full_rec 20 226; ex_full_rec 40 242].
Definition ex_full : btfile :=
  with_nodes {[ 0 := ex_header; 1 := filled_node ex_full_btcb (le32 0 ++ le32 0 ++ [255; 1]) ex_full_recs ]}
    (with_btcb ex_full_btcb ex_file).

(** The result of an insertion and of the search for its key afterwards. *)
Definition insert_then_search (it : BTreeIterator) (record : bytes) (s : btfile) : option (Z * Z) :=
  '((err, it'), s') ← BTInsertRecord CompareExtentKeysPlus ex_eofproc it record (len record) s;
  '(r, _) ← BTSearchRecord CompareExtentKeysPlus (with_hint no_hint it') None None s';
  Some (err, sr_err r).

(** C38: On a well-formed tree of one full leaf, BTInsertRecord of a record that
    CheckInsertParams accepts answers noErr, but the record is not in the tree: no
    division of the three records fits the two nodes of the split, RotateLeft reports
    that, and SplitLeft does not look at it. *)
Theorem BTInsertRecord_loses_record :
  ex_holds ex_full ex_full_recs /\
  CheckInsertParams (f_btcb ex_full) (ex_it 30 8) 244 = Some noErr /\
  insert_then_search (ex_it 30 8) (replicate 244 9) ex_full = Some (noErr, fsBTRecordNotFoundErr).
Proof.
  split; [|split; by vm_compute]. split; [done|]. split; [by vm_compute|]. split; [by vm_compute|].
  eapply bt_leaf; [reflexivity|by apply (filled_node_rep ex_full_btcb)|by vm_compute|by vm_compute|by vm_compute| |].
  - ex_forall; by eexists.
  - repeat constructor.
Qed.
