(* ===== verification/RangeList.v ===== *)
(** * Range lists

    core/rangelist.c and core/rangelist.h: the sorted queue of closed byte
    ranges HFS keeps per file (the "invalid ranges" not yet zeroed on disk) and
    per volume (reserved blocks).  The TAILQ is a list of entries; a
    [struct rl_entry *] into it is an index into that list.  Offsets are
    [off_t] (signed 64 bits); every arithmetic step of the code goes through
    [s64]. *)

From S2P Require Import Prelude.

(** ** Data *)

Inductive rl_overlaptype :=
  | RL_NOOVERLAP
  | RL_MATCHINGOVERLAP
  | RL_OVERLAPCONTAINSRANGE
  | RL_OVERLAPISCONTAINED
  | RL_OVERLAPSTARTSBEFORE
  | RL_OVERLAPENDSAFTER.

#[export] Instance rl_overlaptype_eq_dec : EqDecision rl_overlaptype.
Proof. solve_decision. Defined.

Record rl_entry := rl_make { rl_start : Z; rl_end : Z }.

#[export] Instance rl_entry_eq_dec : EqDecision rl_entry.
Proof. solve_decision. Defined.

Definition RL_INFINITY : Z := INT64_MAX.

Definition rl_len (range : rl_entry) : Z :=
  s64 (s64 (rl_end range - rl_start range) + 1).

Module rangelist.

(** ** Operations *)

Definition rl_init : list rl_entry := [].

Definition rl_overlap (range : rl_entry) (start end_ : Z) : rl_overlaptype :=
  if (rl_end range <? start) || (end_ <? rl_start range) then RL_NOOVERLAP
  else if (rl_start range =? start) && (rl_end range =? end_) then RL_MATCHINGOVERLAP
  else if (rl_start range <=? start) && (end_ <=? rl_end range) then RL_OVERLAPCONTAINSRANGE
  else if (start <=? rl_start range) && (rl_end range <=? end_) then RL_OVERLAPISCONTAINED
  else if (rl_start range <? start) && (rl_end range <? end_) then RL_OVERLAPSTARTSBEFORE
  else RL_OVERLAPENDSAFTER.

(** The [while (range)] loop of [rl_scan_from]: [rest] are the entries from
    [range] on, [i] is the position of [range] in the queue. *)
Fixpoint rl_scan_loop (i : nat) (rest : list rl_entry) (start end_ : Z)
  : rl_overlaptype * option nat :=
  match rest with
  | [] => (RL_NOOVERLAP, None)
  | range :: rest' =>
      let ot := rl_overlap range start end_ in
      if negb (bool_decide (ot = RL_NOOVERLAP)) || (end_ <? rl_start range)
      then (ot, Some i)
      else rl_scan_loop (S i) rest' start end_
  end.

Definition rl_scan_from (rangelist : list rl_entry) (start end_ : Z) (range : nat)
  : rl_overlaptype * option nat :=
  rl_scan_loop range (drop range rangelist) start end_.

Definition rl_scan (rangelist : list rl_entry) (start end_ : Z)
  : rl_overlaptype * option nat :=
  rl_scan_from rangelist start end_ 0.

(** [rl_collapse_forwards]: [range] absorbs the entries after it while they
    touch it. *)
Fixpoint collapse_forwards_loop (range : rl_entry) (next : list rl_entry) : list rl_entry :=
  match next with
  | [] => [range]
  | next_range :: next' =>
      if negb (rl_end range =? RL_INFINITY) &&
         (rl_end range <? s64 (rl_start next_range - 1))
      then range :: next
      else collapse_forwards_loop (rl_make (rl_start range) (rl_end next_range)) next'
  end.

Definition rl_collapse_forwards (rangelist : list rl_entry) (range : nat) : list rl_entry :=
  match rangelist !! range with
  | Some r => take range rangelist ++ collapse_forwards_loop r (drop (S range) rangelist)
  | None => rangelist
  end.

(** [rl_collapse_backwards]: [prev] are the entries before [range], nearest
    first. *)
Fixpoint collapse_backwards_loop (prev : list rl_entry) (range : rl_entry) (next : list rl_entry)
  : list rl_entry :=
  match prev with
  | [] => range :: next
  | prev_range :: prev' =>
      if rl_end prev_range <? s64 (rl_start range - 1)
      then reverse prev ++ range :: next
      else collapse_backwards_loop prev' (rl_make (rl_start prev_range) (rl_end range)) next
  end.

Definition rl_collapse_backwards (rangelist : list rl_entry) (range : nat) : list rl_entry :=
  match rangelist !! range with
  | Some r => collapse_backwards_loop (reverse (take range rangelist)) r (drop (S range) rangelist)
  | None => rangelist
  end.

Definition rl_collapse_neighbors (rangelist : list rl_entry) (range : nat) : list rl_entry :=
  rl_collapse_backwards (rl_collapse_forwards rangelist range) range.

(** TAILQ_INSERT_BEFORE at position [i] (the tail when [i] is the length). *)
Definition tailq_insert (i : nat) (range : rl_entry) (l : list rl_entry) : list rl_entry :=
  take i l ++ range :: drop i l.

Definition rl_add (start end_ : Z) (rangelist : list rl_entry) : list rl_entry :=
  match rl_scan rangelist start end_ with
  | (RL_NOOVERLAP, overlap) =>
      let i := default (length rangelist) overlap in
      rl_collapse_neighbors (tailq_insert i (rl_make start end_) rangelist) i
  | (RL_MATCHINGOVERLAP, _) | (RL_OVERLAPCONTAINSRANGE, _) => rangelist
  | (RL_OVERLAPISCONTAINED, Some i) =>
      rl_collapse_neighbors (<[i := rl_make start end_]> rangelist) i
  | (RL_OVERLAPSTARTSBEFORE, Some i) =>
      rl_collapse_forwards (alter (fun o => rl_make (rl_start o) end_) i rangelist) i
  | (RL_OVERLAPENDSAFTER, Some i) =>
      rl_collapse_backwards (alter (fun o => rl_make start (rl_end o)) i rangelist) i
  | (_, None) => rangelist
  end.

(** The [while] loop of [rl_remove]; [None] when the fuel runs out. *)
Fixpoint rl_remove_loop (fuel : nat) (start end_ : Z) (rangelist : list rl_entry) (range : nat)
  : option (list rl_entry) :=
  match fuel with
  | O => None
  | S fuel' =>
      match rl_scan_from rangelist start end_ range with
      | (RL_NOOVERLAP, _) | (_, None) => Some rangelist
      | (RL_MATCHINGOVERLAP, Some i) => Some (delete i rangelist)
      | (RL_OVERLAPCONTAINSRANGE, Some i) =>
          match rangelist !! i with
          | None => None
          | Some o =>
              if rl_start o =? start
              then Some (<[i := rl_make (s64 (end_ + 1)) (rl_end o)]> rangelist)
              else if rl_end o =? end_
              then Some (<[i := rl_make (rl_start o) (s64 (start - 1))]> rangelist)
              else
                let splitrange := rl_make (s64 (end_ + 1)) (rl_end o) in
                Some (tailq_insert (S i) splitrange
                        (<[i := rl_make (rl_start o) (s64 (start - 1))]> rangelist))
          end
      | (RL_OVERLAPISCONTAINED, Some i) =>
          let rangelist' := delete i rangelist in
          match rangelist' !! i with
          | Some _ => rl_remove_loop fuel' start end_ rangelist' i
          | None => Some rangelist'
          end
      | (RL_OVERLAPSTARTSBEFORE, Some i) =>
          let rangelist' := alter (fun o => rl_make (rl_start o) (s64 (start - 1))) i rangelist in
          match rangelist' !! S i with
          | Some _ => rl_remove_loop fuel' start end_ rangelist' (S i)
          | None => Some rangelist'
          end
      | (RL_OVERLAPENDSAFTER, Some i) =>
          Some (alter (fun o =>
                  rl_make (if end_ =? RL_INFINITY then RL_INFINITY else s64 (end_ + 1))
                          (rl_end o)) i rangelist)
      end
  end.

Definition rl_remove (start end_ : Z) (rangelist : list rl_entry) : option (list rl_entry) :=
  match rangelist with
  | [] => Some rangelist
  | _ => rl_remove_loop (S (length rangelist)) start end_ rangelist 0
  end.

Definition rl_remove_all (rangelist : list rl_entry) : list rl_entry := rl_init.

Definition rl_subtract (a b : rl_entry) : rl_entry :=
  match rl_overlap b (rl_start a) (rl_end a) with
  | RL_MATCHINGOVERLAP | RL_OVERLAPCONTAINSRANGE =>
      rl_make (rl_start a) (s64 (rl_start a - 1))
  | RL_OVERLAPISCONTAINED =>
      if s64 (rl_end a - rl_end b) <=? s64 (rl_start b - rl_start a)
      then rl_make (rl_start a) (s64 (rl_start b - 1))
      else rl_make (s64 (rl_end b + 1)) (rl_end a)
  | RL_OVERLAPSTARTSBEFORE => rl_make (s64 (rl_end b + 1)) (rl_end a)
  | RL_OVERLAPENDSAFTER => rl_make (rl_start a) (s64 (rl_start b - 1))
  | RL_NOOVERLAP => a
  end.

End rangelist.
Import rangelist.

(** ** Specification: a range list denotes a set of offsets *)

Definition rl_in (x : Z) (r : rl_entry) : Prop := rl_start r <= x <= rl_end r.
Definition rl_mem (x : Z) (l : list rl_entry) : Prop := exists r, r ∈ l /\ rl_in x r.

Definition rl_valid (r : rl_entry) : Prop :=
  0 <= rl_start r <= rl_end r /\ rl_end r <= RL_INFINITY.
(** [a] lies before [b] and does not touch it. *)
Definition rl_before (a b : rl_entry) : Prop := rl_end a + 1 < rl_start b.
Definition rl_wf (l : list rl_entry) : Prop :=
  Forall rl_valid l /\ StronglySorted rl_before l.

Lemma rl_mem_nil x : ~ rl_mem x [].
Proof. intros (r & Hr & _). by apply elem_of_nil in Hr. Qed.

Lemma rl_mem_cons x r l : rl_mem x (r :: l) <-> rl_in x r \/ rl_mem x l.
Proof. unfold rl_mem. set_solver. Qed.

Lemma rl_mem_app x l1 l2 : rl_mem x (l1 ++ l2) <-> rl_mem x l1 \/ rl_mem x l2.
Proof. unfold rl_mem. set_solver. Qed.

Lemma rl_mem_Forall_before x b l : Forall (fun r => rl_end r < b) l -> rl_mem x l -> x < b.
Proof. rewrite Forall_forall. intros H (r & Hr & Hx). specialize (H r Hr). unfold rl_in in Hx. lia. Qed.

Lemma rl_mem_Forall_after x b l : Forall (fun r => b < rl_start r) l -> rl_mem x l -> b < x.
Proof. rewrite Forall_forall. intros H (r & Hr & Hx). specialize (H r Hr). unfold rl_in in Hx. lia. Qed.

Lemma rl_wf_nil : rl_wf [].
Proof. split; constructor. Qed.

Lemma rl_wf_cons r l :
  rl_wf (r :: l) <-> rl_valid r /\ Forall (rl_before r) l /\ rl_wf l.
Proof.
  unfold rl_wf. rewrite Forall_cons, StronglySorted_cons. tauto.
Qed.

Lemma rl_wf_app l1 l2 :
  rl_wf (l1 ++ l2) <->
  rl_wf l1 /\ rl_wf l2 /\ (forall a b, a ∈ l1 -> b ∈ l2 -> rl_before a b).
Proof.
  unfold rl_wf. rewrite Forall_app, StronglySorted_app. tauto.
Qed.

(** Everything before the entry starts and ends before it; everything after
    it starts after it. *)
Lemma rl_wf_middle pre o post :
  rl_wf (pre ++ o :: post) <->
  rl_wf pre /\ rl_wf post /\ rl_valid o /\
  Forall (fun a => rl_before a o) pre /\ Forall (rl_before o) post /\
  (forall a b, a ∈ pre -> b ∈ post -> rl_before a b).
Proof.
  rewrite rl_wf_app, rl_wf_cons, !Forall_forall. set_solver.
Qed.

Ltac rl_unfold := unfold rl_in, rl_valid, rl_before, RL_INFINITY in *; simpl in *.

(** ** The scan *)

Lemma rl_overlap_none r s e :
  rl_overlap r s e = RL_NOOVERLAP <-> rl_end r < s \/ e < rl_start r.
Proof. unfold rl_overlap. zcases; split; intros; try done; lia. Qed.

(** What [rl_scan_from] returns: the first entry that overlaps the range or
    lies after it; every entry it skipped lies before the range. *)
Lemma rl_scan_loop_spec i rest s e ot ov :
  rl_scan_loop i rest s e = (ot, ov) ->
  match ov with
  | None => ot = RL_NOOVERLAP /\ Forall (fun r => rl_end r < s) rest
  | Some k => exists pre o post,
      rest = pre ++ o :: post /\ k = (i + length pre)%nat /\
      Forall (fun r => rl_end r < s) pre /\ ot = rl_overlap o s e /\
      (ot = RL_NOOVERLAP -> e < rl_start o)
  end.
Proof.
  revert i. induction rest as [|r rest IH]; intros i; simpl.
  { intros [= <- <-]. by split. }
  destruct (decide (rl_overlap r s e = RL_NOOVERLAP)) as [Hn|Hn].
  - rewrite bool_decide_true by done. simpl.
    destruct (Z.ltb_spec e (rl_start r)).
    + intros [= <- <-]. exists [], r, rest. simpl. split_and!; try done; lia.
    + intros H0%IH. apply rl_overlap_none in Hn.
      destruct ov as [k|].
      * destruct H0 as (pre & o & post & -> & -> & Hp & -> & Ho).
        exists (r :: pre), o, post. simpl. split_and!; try done; try lia.
        constructor; [lia | done].
      * destruct H0 as [-> Hf]. split; [done|]. constructor; [lia|done].
  - rewrite bool_decide_false by done. simpl. intros [= <- <-].
    exists [], r, rest. simpl. split_and!; try done; lia.
Qed.

(** ** Collapsing *)

Lemma collapse_forwards_wf r next :
  rl_valid r -> rl_wf next -> Forall (fun n => rl_start r <= rl_start n) next ->
  rl_wf (collapse_forwards_loop r next) /\
  Forall (fun y => rl_start r <= rl_start y) (collapse_forwards_loop r next).
Proof.
  revert r. induction next as [|n next IH]; intros r Hr Hw Hs; simpl.
  { split; [|by constructor]. apply rl_wf_cons. split_and!; [done | constructor | apply rl_wf_nil]. }
  apply rl_wf_cons in Hw as (Hn & Hb & Hw). apply Forall_cons in Hs as [Hsn Hs].
  destruct (_ && _) eqn:E.
  - apply andb_true_iff in E as [E1 E2]. rewrite s64_id in E2 by (rl_unfold; lia).
    apply Z.ltb_lt in E2. split.
    + apply rl_wf_cons. split_and!; [done| |by apply rl_wf_cons].
      constructor; [rl_unfold; lia|]. eapply Forall_impl; [exact Hb|]. rl_unfold. lia.
    + constructor; [lia|]. by constructor.
  - apply (IH (rl_make (rl_start r) (rl_end n))); try done. rl_unfold. lia.
Qed.

(** When no entry after [range] ends before it, collapsing forwards keeps the
    set of offsets. *)
Lemma collapse_forwards_mem r next x :
  rl_valid r -> rl_wf next -> Forall (fun n => rl_start r <= rl_start n) next ->
  Forall (fun n => rl_end r <= rl_end n) next ->
  rl_mem x (collapse_forwards_loop r next) <-> rl_in x r \/ rl_mem x next.
Proof.
  revert r. induction next as [|n next IH]; intros r Hr Hw Hs He; simpl.
  { by rewrite rl_mem_cons. }
  apply rl_wf_cons in Hw as (Hn & Hb & Hw). apply Forall_cons in Hs as [Hsn Hs].
  apply Forall_cons in He as [Hen He].
  destruct (_ && _) eqn:E; [by rewrite !rl_mem_cons|].
  rewrite IH.
  - rewrite rl_mem_cons.
    assert (rl_start n <= rl_end r + 1).
    { rewrite s64_id in E by (rl_unfold; lia).
      zcases_in_hyps; rl_unfold; lia. }
    assert (rl_in x (rl_make (rl_start r) (rl_end n)) <-> rl_in x r \/ rl_in x n)
      by (rl_unfold; lia).
    tauto.
  - rl_unfold. lia.
  - done.
  - done.
  - apply Forall_forall. intros m Hm. rewrite Forall_forall in Hb.
    specialize (Hb m Hm). destruct Hw as [Hv _]. rewrite Forall_forall in Hv.
    specialize (Hv m Hm). rl_unfold. lia.
Qed.

Lemma rl_wf_absorb p r next :
  rl_valid p -> rl_end p < rl_start r -> rl_wf (r :: next) ->
  rl_wf (rl_make (rl_start p) (rl_end r) :: next).
Proof.
  intros Hp Hpr (Hr & Hb & Hw)%rl_wf_cons. apply rl_wf_cons.
  split_and!; [rl_unfold; lia | exact Hb | done].
Qed.

Lemma collapse_backwards_spec prev r next :
  rl_wf (reverse prev) -> rl_wf (r :: next) ->
  Forall (fun p => rl_end p < rl_start r) prev ->
  let l := collapse_backwards_loop prev r next in
  rl_wf l /\ forall x, rl_mem x l <-> rl_mem x (reverse prev) \/ rl_mem x (r :: next).
Proof.
  revert r. induction prev as [|p prev IH]; intros r Hw Hr He; simpl.
  { split; [done|]. intros x. rewrite reverse_nil. pose proof (rl_mem_nil x). tauto. }
  rewrite reverse_cons in *. pose proof Hw as Hw'.
  apply rl_wf_app in Hw as (Hw & Hp & Hb).
  assert (rl_valid p) as Hvp by (apply rl_wf_cons in Hp; tauto).
  apply Forall_cons in He as [Hep He]. pose proof Hr as Hr'.
  apply rl_wf_cons in Hr as (Hvr & Hbn & Hn).
  rewrite s64_id by (rl_unfold; lia).
  destruct (Z.ltb_spec (rl_end p) (rl_start r - 1)).
  - split; [|intros x; rewrite !rl_mem_app; tauto].
    apply rl_wf_app. split_and!; try done.
    intros a b [Ha | ->%list_elem_of_singleton]%elem_of_app Hbb.
    + specialize (Hb a p Ha ltac:(left)).
      rewrite Forall_forall in Hbn. apply elem_of_cons in Hbb as [->|Hbb];
        [|specialize (Hbn b Hbb)]; rl_unfold; lia.
    + rewrite Forall_forall in Hbn. apply elem_of_cons in Hbb as [->|Hbb];
        [|specialize (Hbn b Hbb)]; rl_unfold; lia.
  - destruct (IH (rl_make (rl_start p) (rl_end r))) as [IHw IHm]; try done.
    + by apply rl_wf_absorb.
    + apply Forall_forall. intros a Ha.
      specialize (Hb a p ltac:(by apply elem_of_reverse) ltac:(left)). rl_unfold. lia.
    + split; [done|]. intros x. rewrite IHm, !rl_mem_app, !rl_mem_cons.
      assert (rl_in x (rl_make (rl_start p) (rl_end r)) <-> rl_in x p \/ rl_in x r)
        by (rl_unfold; lia).
      pose proof (rl_mem_nil x). tauto.
Qed.

(** ** The collapse operations at an entry of a decomposed queue *)

Lemma rl_collapse_forwards_middle pre r post :
  rl_collapse_forwards (pre ++ r :: post) (length pre)
  = pre ++ collapse_forwards_loop r post.
Proof.
  unfold rl_collapse_forwards.
  by rewrite lookup_middle, take_middle, drop_S_middle.
Qed.

Lemma rl_collapse_backwards_middle pre r post :
  rl_collapse_backwards (pre ++ r :: post) (length pre)
  = collapse_backwards_loop (reverse pre) r post.
Proof.
  unfold rl_collapse_backwards.
  by rewrite lookup_middle, take_middle, drop_S_middle.
Qed.

Lemma collapse_forwards_head r next :
  exists r' next', collapse_forwards_loop r next = r' :: next' /\ rl_start r' = rl_start r.
Proof.
  revert r. induction next as [|n next IH]; intros r; simpl; [by eauto|].
  destruct (_ && _); [by eauto|].
  destruct (IH (rl_make (rl_start r) (rl_end n))) as (r' & nx & -> & Hs). by eauto.
Qed.

Lemma elem_of_before_start pre o a :
  Forall (fun p => rl_before p o) pre -> a ∈ pre -> rl_end a + 1 < rl_start o.
Proof. rewrite Forall_forall. intros H Ha. apply (H a Ha). Qed.

(** The queue around a new or grown range [r], before it is collapsed with
    its neighbours. *)
Record rl_window (pre : list rl_entry) (r : rl_entry) (post : list rl_entry) : Prop := {
  win_valid : rl_valid r;
  win_pre : rl_wf pre;
  win_post : rl_wf post;
  win_before : Forall (fun p => rl_end p < rl_start r) pre;
  win_after : Forall (fun n => rl_start r <= rl_start n) post;
}.

Lemma rl_collapse_neighbors_spec pre r post :
  rl_window pre r post ->
  let l := rl_collapse_neighbors (pre ++ r :: post) (length pre) in
  rl_wf l /\
  (Forall (fun n => rl_end r <= rl_end n) post ->
   forall x, rl_mem x l <-> rl_mem x pre \/ rl_in x r \/ rl_mem x post).
Proof.
  intros [Hr Hp Hn Hb Ha]. cbv zeta. unfold rl_collapse_neighbors.
  rewrite rl_collapse_forwards_middle.
  destruct (collapse_forwards_wf r post Hr Hn Ha) as [Hw _].
  pose proof (collapse_forwards_mem r post) as Hm.
  destruct (collapse_forwards_head r post) as (r' & nx & E & Hs).
  rewrite E in *. rewrite rl_collapse_backwards_middle.
  destruct (collapse_backwards_spec (reverse pre) r' nx) as [Hbw Hbm].
  - by rewrite reverse_involutive.
  - done.
  - apply Forall_forall. intros p Hpi. rewrite elem_of_reverse in Hpi.
    rewrite Forall_forall in Hb. specialize (Hb p Hpi). lia.
  - split; [done|]. intros He x. rewrite Hbm, Hm by done.
    by rewrite reverse_involutive.
Qed.

Lemma rl_collapse_forwards_spec pre r post :
  rl_window pre r post -> Forall (fun p => rl_before p r) pre ->
  let l := rl_collapse_forwards (pre ++ r :: post) (length pre) in
  rl_wf l /\
  (Forall (fun n => rl_end r <= rl_end n) post ->
   forall x, rl_mem x l <-> rl_mem x pre \/ rl_in x r \/ rl_mem x post).
Proof.
  intros [Hr Hp Hn Hb Ha] Hbb. cbv zeta. rewrite rl_collapse_forwards_middle.
  destruct (collapse_forwards_wf r post Hr Hn Ha) as [Hw Hs]. split.
  - apply rl_wf_app. split_and!; try done. intros a b Hai Hbi.
    rewrite Forall_forall in Hs. specialize (Hs b Hbi).
    pose proof (elem_of_before_start _ _ _ Hbb Hai). rl_unfold. lia.
  - intros He x. rewrite rl_mem_app, collapse_forwards_mem by done. done.
Qed.

Lemma rl_collapse_backwards_spec pre r post :
  rl_window pre r post -> Forall (rl_before r) post ->
  let l := rl_collapse_backwards (pre ++ r :: post) (length pre) in
  rl_wf l /\ forall x, rl_mem x l <-> rl_mem x pre \/ rl_in x r \/ rl_mem x post.
Proof.
  intros [Hr Hp Hn Hb Ha] Hbb. cbv zeta. rewrite rl_collapse_backwards_middle.
  destruct (collapse_backwards_spec (reverse pre) r post) as [Hw Hm].
  - by rewrite reverse_involutive.
  - by apply rl_wf_cons.
  - apply Forall_forall. intros p Hpi. rewrite elem_of_reverse in Hpi. rewrite Forall_forall in Hb. exact (Hb p Hpi).
  - split; [done|]. intros x. by rewrite Hm, reverse_involutive, rl_mem_cons.
Qed.

(** No entry after the one [rl_scan] returns ends before the new range does. *)
Definition rl_scan_last (l : list rl_entry) (start end_ : Z) : Prop :=
  match rl_scan l start end_ with
  | (_, Some i) => Forall (fun n => end_ <= rl_end n) (drop (S i) l)
  | (_, None) => True
  end.

(** How [rl_scan] splits a queue. *)
Lemma rl_scan_split l s e ot ov :
  rl_scan l s e = (ot, ov) ->
  match ov with
  | None => ot = RL_NOOVERLAP /\ Forall (fun r => rl_end r < s) l
  | Some k => exists pre o post,
      l = pre ++ o :: post /\ k = length pre /\
      Forall (fun r => rl_end r < s) pre /\ ot = rl_overlap o s e /\
      (ot = RL_NOOVERLAP -> e < rl_start o)
  end.
Proof. apply (rl_scan_loop_spec 0 l). Qed.

Lemma Forall_rl_start_le r o post :
  rl_start r <= rl_end o + 1 -> Forall (rl_before o) post ->
  Forall (fun n => rl_start r <= rl_start n) post.
Proof. intros Hr H. eapply Forall_impl; [exact H|]. rl_unfold. lia. Qed.

Lemma Forall_rl_end_lt pre b c :
  b <= c -> Forall (fun r => rl_end r < b) pre -> Forall (fun r => rl_end r < c) pre.
Proof. intros Hr H. eapply Forall_impl; [exact H|]. simpl. lia. Qed.

Lemma rl_overlap_cases o s e : s <= e ->
  match rl_overlap o s e with
  | RL_NOOVERLAP => rl_end o < s \/ e < rl_start o
  | RL_MATCHINGOVERLAP => rl_start o = s /\ rl_end o = e
  | RL_OVERLAPCONTAINSRANGE =>
      rl_start o <= s /\ e <= rl_end o /\ (rl_start o < s \/ e < rl_end o)
  | RL_OVERLAPISCONTAINED =>
      s <= rl_start o /\ rl_end o <= e /\ (s < rl_start o \/ rl_end o < e)
  | RL_OVERLAPSTARTSBEFORE => rl_start o < s <= rl_end o /\ rl_end o < e
  | RL_OVERLAPENDSAFTER => s < rl_start o <= e /\ e < rl_end o
  end.
Proof. unfold rl_overlap. intros. zcases. Qed.

(** What [rl_subtract] leaves of a range, which may be empty already. *)
Lemma rl_subtract_part a b :
  0 <= rl_start a <= rl_end a + 1 -> rl_end a <= RL_INFINITY -> rl_valid b ->
  let a' := rl_subtract a b in
  rl_start a <= rl_start a' <= rl_end a' + 1 /\ rl_end a' <= rl_end a /\ (forall x, rl_in x a' -> ~ rl_in x b).
Proof.
  intros Ha Hi Hb. unfold rl_subtract. destruct (Z.eq_dec (rl_start a) (rl_end a + 1)) as [E|E].
  - destruct a as [s e], b as [bs be]. unfold rl_overlap. rl_unfold.
    destruct (Z.ltb_spec be s), (Z.ltb_spec e bs); cbn [orb rl_start rl_end];
      [split; [lia|]; split; [lia|]; intros x; lia..|].
    destruct (Z.eqb_spec bs s); [lia|]. cbn [andb]. destruct (Z.leb_spec bs s), (Z.leb_spec e be); [|lia..].
    cbn [andb rl_start rl_end]. rewrite s64_id by lia. split; [lia|]. split; [lia|]. intros x. lia.
  - pose proof (rl_overlap_cases b (rl_start a) (rl_end a) ltac:(rl_unfold; lia)) as Hc.
    destruct (rl_overlap b (rl_start a) (rl_end a)); cbv zeta.
    all: try (rewrite (s64_id (rl_end a - rl_end b)), (s64_id (rl_start b - rl_start a)) by (rl_unfold; lia);
              destruct (Z.leb_spec (rl_end a - rl_end b) (rl_start b - rl_start a))).
    all: rewrite ?s64_id by (rl_unfold; lia); rl_unfold; split; [lia|]; split; [lia|]; intros x; lia.
Qed.

Section rl_add.
Context (l : list rl_entry) (s e : Z).
Hypothesis Hwf : rl_wf l.
Hypothesis Hse : 0 <= s <= e.
Hypothesis Hinf : e <= RL_INFINITY.

Lemma rl_add_at_end : Forall (fun r => rl_end r < s) l ->
  let l' := rl_collapse_neighbors (l ++ [rl_make s e]) (length l) in
  rl_wf l' /\ forall x, rl_mem x l' <-> rl_mem x l \/ s <= x <= e.
Proof.
  intros Hb.
  destruct (rl_collapse_neighbors_spec l (rl_make s e) []) as [Hw Hm].
  { split; [rl_unfold; lia | done | apply rl_wf_nil | done | constructor]. }
  split; [done|]. intros x. rewrite (Hm (Forall_nil_2 _)).
  pose proof (rl_mem_nil x). unfold rl_in. simpl. tauto.
Qed.

Lemma rl_add_at pre o post :
  l = pre ++ o :: post -> Forall (fun r => rl_end r < s) pre ->
  (rl_overlap o s e = RL_NOOVERLAP -> e < rl_start o) ->
  let l' := rl_add s e l in
  rl_scan l s e = (rl_overlap o s e, Some (length pre)) ->
  rl_wf l' /\
  (rl_scan_last l s e -> forall x, rl_mem x l' <-> rl_mem x l \/ s <= x <= e).
Proof using Hwf Hse Hinf.
  intros El Hpre Hno l' Esc. unfold l', rl_add, rl_scan_last. rewrite Esc, El, drop_S_middle.
  clear l' Esc. rewrite El in Hwf.
  pose proof Hwf as (Hp & Hq & Ho & Hbo & Hao & Hpq)%rl_wf_middle.
  pose proof (rl_overlap_cases o s e ltac:(lia)) as Hc.
  destruct (rl_overlap o s e) eqn:Eo; simpl in Hc.
  - specialize (Hno eq_refl). simpl.
    unfold tailq_insert. rewrite take_middle, drop_middle.
    destruct (rl_collapse_neighbors_spec pre (rl_make s e) (o :: post)) as [Hw Hm].
    { split; [done | done | by apply rl_wf_cons | done |].
      constructor; [simpl; lia|]. eapply Forall_rl_start_le; [|exact Hao]. rl_unfold. lia. }
    split; [done|]. intros Hlast x. rewrite Hm.
    + rewrite rl_mem_app, !rl_mem_cons. unfold rl_in. simpl. tauto.
    + constructor; [rl_unfold; lia | exact Hlast].
  - split; [done|]. intros _ x. rewrite rl_mem_app, rl_mem_cons.
    assert (s <= x <= e -> rl_in x o) by (rl_unfold; lia). tauto.
  - split; [done|]. intros _ x. rewrite rl_mem_app, rl_mem_cons.
    assert (s <= x <= e -> rl_in x o) by (rl_unfold; lia). tauto.
  - rewrite insert_middle.
    destruct (rl_collapse_neighbors_spec pre (rl_make s e) post) as [Hw Hm].
    { split; [rl_unfold; lia | done | done | done |].
      eapply Forall_rl_start_le; [|exact Hao]. rl_unfold. lia. }
    split; [done|]. intros Hlast x. rewrite (Hm Hlast), rl_mem_app, rl_mem_cons.
    assert (rl_in x o -> rl_in x (rl_make s e)) by (rl_unfold; lia).
    unfold rl_in in *. simpl in *. tauto.
  - rewrite alter_middle.
    destruct (rl_collapse_forwards_spec pre (rl_make (rl_start o) e) post) as [Hw Hm].
    { split; [rl_unfold; lia | done | done | |].
      - simpl. eapply Forall_impl; [exact Hbo|]. rl_unfold. lia.
      - eapply Forall_rl_start_le; [|exact Hao]. rl_unfold. lia. }
    { exact Hbo. }
    split; [done|]. intros Hlast x. rewrite (Hm Hlast), rl_mem_app, rl_mem_cons.
    assert (rl_in x (rl_make (rl_start o) e) <-> rl_in x o \/ s <= x <= e)
      by (rl_unfold; lia). tauto.
  - rewrite alter_middle.
    destruct (rl_collapse_backwards_spec pre (rl_make s (rl_end o)) post) as [Hw Hm].
    { split; [rl_unfold; lia | done | done | done |].
      eapply Forall_rl_start_le; [|exact Hao]. rl_unfold. lia. }
    { exact Hao. }
    split; [done|]. intros Hlast x. rewrite Hm, rl_mem_app, rl_mem_cons.
    assert (rl_in x (rl_make s (rl_end o)) <-> rl_in x o \/ s <= x <= e)
      by (rl_unfold; lia). tauto.
Qed.

Lemma rl_add_spec :
  rl_wf (rl_add s e l) /\
  (rl_scan_last l s e -> forall x, rl_mem x (rl_add s e l) <-> rl_mem x l \/ s <= x <= e).
Proof using Hwf Hse Hinf.
  destruct (rl_scan l s e) as [ot [k|]] eqn:Esc; pose proof (rl_scan_split _ _ _ _ _ Esc) as Hs.
  - destruct Hs as (pre & o & post & El & -> & Hpre & -> & Ho).
    by apply (rl_add_at pre o post El Hpre Ho).
  - destruct Hs as [-> Hb]. destruct (rl_add_at_end Hb) as [Hw Hm].
    unfold rl_add. rewrite Esc. simpl. unfold tailq_insert.
    rewrite take_ge, drop_ge by lia. split; [done|]. intros _. exact Hm.
Qed.
End rl_add.

(** ** Removal *)

(** Removing a range from a queue whose parts lie before it ([pre]), overlap
    it in one entry ([o], replaced by [mid]) and lie after it ([post]). *)
Lemma rl_remove_parts s e pre o mid post :
  rl_wf (pre ++ o :: post) -> Forall (fun r => rl_end r < s) pre ->
  Forall (fun r => e < rl_start r) post ->
  rl_wf mid ->
  (forall r, r ∈ mid -> rl_start o <= rl_start r /\ rl_end r <= rl_end o) ->
  (forall x, rl_mem x mid <-> rl_in x o /\ ~ s <= x <= e) ->
  rl_wf (pre ++ mid ++ post) /\
  forall x, rl_mem x (pre ++ mid ++ post) <->
            rl_mem x (pre ++ o :: post) /\ ~ s <= x <= e.
Proof.
  intros (Hp & Hq & Ho & Hbo & Hao & Hpq)%rl_wf_middle Hpre Hpost Hmw Hin Hm. split.
  - apply rl_wf_app. split_and!; [done | |].
    + apply rl_wf_app. split_and!; [done | done |]. intros a b Ha Hb.
      specialize (Hin a Ha). rewrite Forall_forall in Hao. specialize (Hao b Hb). rl_unfold. lia.
    + intros a b Ha [Hb|Hb]%elem_of_app; [|by apply Hpq].
      specialize (Hin b Hb). rewrite Forall_forall in Hbo. specialize (Hbo a Ha). rl_unfold. lia.
  - intros x. rewrite !rl_mem_app, rl_mem_cons, Hm.
    pose proof (rl_mem_Forall_before x s pre Hpre).
    pose proof (rl_mem_Forall_after x e post Hpost). intuition lia.
Qed.

Lemma rl_wf_singleton r : rl_valid r -> rl_wf [r].
Proof. intros. apply rl_wf_cons. split_and!; [done | constructor | apply rl_wf_nil]. Qed.

Lemma rl_mem_singleton x r : rl_mem x [r] <-> rl_in x r.
Proof. rewrite rl_mem_cons. pose proof (rl_mem_nil x). tauto. Qed.

Definition rl_remove_post (s e : Z) (l : list rl_entry) (res : option (list rl_entry)) : Prop :=
  exists l', res = Some l' /\ rl_wf l' /\
    forall x, rl_mem x l' <-> rl_mem x l /\ ~ s <= x <= e.

Lemma rl_remove_nop s e pre post :
  s <= e -> rl_wf (pre ++ post) -> Forall (fun r => rl_end r < s) pre ->
  Forall (fun r => e < rl_start r) post ->
  rl_remove_post s e (pre ++ post) (Some (pre ++ post)).
Proof.
  intros Hse Hw Hpre Hpost. eexists. split_and!; [done | done |]. intros x.
  rewrite rl_mem_app.
  pose proof (rl_mem_Forall_before x s pre Hpre).
  pose proof (rl_mem_Forall_after x e post Hpost). intuition lia.
Qed.

Lemma rl_after_o o e post : e <= rl_end o -> Forall (rl_before o) post ->
  Forall (fun r => e < rl_start r) post.
Proof. intros He H. eapply Forall_impl; [exact H|]. rl_unfold. lia. Qed.

Section rl_remove.
Context (s e : Z).
Hypothesis Hse : 0 <= s <= e.
Hypothesis Hinf : e <= RL_INFINITY.

(** The branches of the switch that end the loop. *)
Lemma rl_remove_split pre o post :
  rl_wf (pre ++ o :: post) -> Forall (fun r => rl_end r < s) pre ->
  rl_start o <= s -> e <= rl_end o -> (rl_start o < s \/ e < rl_end o) ->
  rl_remove_post s e (pre ++ o :: post)
    (if rl_start o =? s
     then Some (<[length pre := rl_make (s64 (e + 1)) (rl_end o)]> (pre ++ o :: post))
     else if rl_end o =? e
     then Some (<[length pre := rl_make (rl_start o) (s64 (s - 1))]> (pre ++ o :: post))
     else Some (tailq_insert (S (length pre)) (rl_make (s64 (e + 1)) (rl_end o))
            (<[length pre := rl_make (rl_start o) (s64 (s - 1))]> (pre ++ o :: post)))).
Proof using Hse Hinf.
  intros Hw Hpre H1 H2 H3.
  pose proof Hw as (_ & _ & Ho & _ & Hao & _)%rl_wf_middle.
  pose proof (rl_after_o o e post H2 Hao) as Hpost.
  rewrite (s64_id (s - 1)) by (rl_unfold; lia).
  destruct (Z.eqb_spec (rl_start o) s); [|destruct (Z.eqb_spec (rl_end o) e)].
  - rewrite (s64_id (e + 1)) by (rl_unfold; lia). rewrite insert_middle.
    destruct (rl_remove_parts s e pre o [rl_make (e + 1) (rl_end o)] post) as [? ?];
      [done | done | done | apply rl_wf_singleton; rl_unfold; lia | | |by eexists].
    + intros r ->%list_elem_of_singleton. simpl. lia.
    + intros x. rewrite rl_mem_singleton. rl_unfold. lia.
  - rewrite insert_middle.
    destruct (rl_remove_parts s e pre o [rl_make (rl_start o) (s - 1)] post) as [? ?];
      [done | done | done | apply rl_wf_singleton; rl_unfold; lia | | |by eexists].
    + intros r ->%list_elem_of_singleton. simpl. lia.
    + intros x. rewrite rl_mem_singleton. rl_unfold. lia.
  - rewrite (s64_id (e + 1)) by (rl_unfold; lia). rewrite insert_middle.
    unfold tailq_insert.
    rewrite take_S_middle, drop_S_middle, <- app_assoc.
    destruct (rl_remove_parts s e pre o
      [rl_make (rl_start o) (s - 1); rl_make (e + 1) (rl_end o)] post) as [? ?];
      [done | done | done | | | | by eexists].
    + apply rl_wf_cons. split_and!; [rl_unfold; lia | | apply rl_wf_singleton; rl_unfold; lia].
      constructor; [rl_unfold; lia | constructor].
    + intros r [->| ->%list_elem_of_singleton]%elem_of_cons; simpl; lia.
    + intros x. rewrite rl_mem_cons, rl_mem_singleton. rl_unfold. lia.
Qed.

Lemma rl_remove_shrink pre o o' post :
  rl_wf (pre ++ o :: post) -> Forall (fun r => rl_end r < s) pre ->
  Forall (fun r => e < rl_start r) post -> rl_valid o' ->
  rl_start o <= rl_start o' /\ rl_end o' <= rl_end o ->
  (forall x, rl_in x o' <-> rl_in x o /\ ~ s <= x <= e) ->
  rl_remove_post s e (pre ++ o :: post) (Some (pre ++ o' :: post)).
Proof.
  intros Hw Hpre Hpost Hv Hin Hm.
  destruct (rl_remove_parts s e pre o [o'] post) as [? ?]; try done; [by apply rl_wf_singleton | | |by eexists].
  - by intros r ->%list_elem_of_singleton.
  - intros x. by rewrite rl_mem_singleton.
Qed.
End rl_remove.

Section rl_remove_loop.
Context (s e : Z).
Hypothesis Hse : 0 <= s <= e.
Hypothesis Hinf : e <= RL_INFINITY.

(** The loop of [rl_remove] at a position all of whose predecessors lie
    before the removed range. *)
Lemma rl_remove_loop_spec fuel pre rest :
  (length rest < fuel)%nat -> rl_wf (pre ++ rest) ->
  Forall (fun r => rl_end r < s) pre ->
  rl_remove_post s e (pre ++ rest) (rl_remove_loop fuel s e (pre ++ rest) (length pre)).
Proof using Hse Hinf.
  revert pre rest. induction fuel as [|fuel IH]; intros pre rest Hf Hw Hpre; [lia|].
  simpl. unfold rl_scan_from. rewrite drop_app_length.
  destruct (rl_scan_loop (length pre) rest s e) as [ot ov] eqn:E.
  apply rl_scan_loop_spec in E. destruct ov as [k|].
  2: { destruct E as [-> Hr]. rewrite <- (app_nil_r (pre ++ rest)) in *.
       apply rl_remove_nop; [lia | done | by apply Forall_app | done]. }
  destruct E as (skip & o & post & -> & -> & Hskip & -> & Ho).
  rewrite <- length_app. rewrite app_assoc in *.
  assert (Forall (fun r => rl_end r < s) (pre ++ skip)) as Hps by by apply Forall_app.
  assert (length post < fuel)%nat as Hf' by (rewrite length_app in Hf; simpl in Hf; lia).
  clear Hpre Hskip Hf. revert Hps Hw. generalize (pre ++ skip). clear pre skip. intros pre Hpre Hw.
  pose proof Hw as (Hwp & Hwq & Hvo & Hbo & Hao & Hpq)%rl_wf_middle.
  pose proof (rl_overlap_cases o s e ltac:(lia)) as Hc.
  destruct (rl_overlap o s e) eqn:Eo; simpl in Hc.
  - specialize (Ho eq_refl). apply rl_remove_nop; [lia | done | done |].
    constructor; [done|]. apply (rl_after_o o); [rl_unfold; lia | done].
  - rewrite delete_middle_length.
    destruct (rl_remove_parts s e pre o [] post) as [? ?]; [done | done | | apply rl_wf_nil | | |].
    + apply (rl_after_o o); [lia | done].
    + by intros r Hr%elem_of_nil.
    + intros x. pose proof (rl_mem_nil x). rl_unfold. intuition lia.
    + by eexists.
  - rewrite lookup_middle. apply rl_remove_split; (done || lia).
  - rewrite delete_middle_length.
    assert (rl_wf (pre ++ post)) as Hw' by (apply rl_wf_app; split_and!; done).
    destruct (IH pre post Hf' Hw' Hpre) as (l' & El & Hwl & Hml).
    assert (forall x, rl_mem x l' <-> rl_mem x (pre ++ o :: post) /\ ~ s <= x <= e) as Hml'.
    { intros x. rewrite Hml, !rl_mem_app, rl_mem_cons.
      assert (rl_in x o -> s <= x <= e) by (rl_unfold; lia). tauto. }
    destruct post as [|q post].
    + rewrite app_nil_r in *. rewrite lookup_ge_None_2 by lia.
      exists pre. split_and!; [done | done |]. intros x.
      rewrite rl_mem_app, rl_mem_singleton.
      pose proof (rl_mem_Forall_before x s pre Hpre). rl_unfold. intuition lia.
    + rewrite lookup_middle, El. by exists l'.
  - rewrite alter_middle, (s64_id (s - 1)) by (rl_unfold; lia).
    set (o' := rl_make (rl_start o) (s - 1)).
    assert (rl_wf (pre ++ o' :: post)) as Hw'.
    { apply rl_wf_middle. split_and!; try done; [rl_unfold; lia|].
      eapply Forall_impl; [exact Hao|]. rl_unfold. lia. }
    destruct (IH (pre ++ [o']) post) as (l' & El & Hwl & Hml).
    { done. } { by rewrite <- app_assoc. }
    { apply Forall_app. split; [done|]. constructor; [simpl; lia | constructor]. }
    rewrite <- app_assoc in El, Hml. simpl in El, Hml.
    rewrite length_app in El. simpl in El. rewrite Nat.add_1_r in El.
    assert (forall x, rl_in x o' /\ ~ s <= x <= e <-> rl_in x o /\ ~ s <= x <= e) as Ho'
      by (intros x; subst o'; rl_unfold; lia).
    destruct post as [|q post].
    + rewrite lookup_ge_None_2 by (rewrite length_app; simpl; lia).
      eapply rl_remove_shrink; try done; subst o'; rl_unfold; [lia | lia | intros; lia].
    + rewrite lookup_S_middle, El. exists l'. split_and!; [done | done |]. intros x.
      rewrite Hml, !rl_mem_app, !rl_mem_cons. specialize (Ho' x). tauto.
  - rewrite alter_middle. destruct (Z.eqb_spec e RL_INFINITY); [rl_unfold; lia|].
    rewrite s64_id by (rl_unfold; lia).
    apply rl_remove_shrink; try done; [ | rl_unfold; lia | simpl; lia | intros x; rl_unfold; lia].
    apply (rl_after_o o); [lia | done].
Qed.

Lemma rl_remove_spec l :
  rl_wf l -> rl_remove_post s e l (rl_remove s e l).
Proof using Hse Hinf.
  intros Hw. unfold rl_remove. destruct l as [|r l].
  - exists []. split_and!; [done | done |]. intros x. pose proof (rl_mem_nil x). tauto.
  - apply (rl_remove_loop_spec _ []); [lia | done | constructor].
Qed.
End rl_remove_loop.

(** ** Properties *)

Ltac rl_wf_concrete :=
  repeat (apply rl_wf_cons; split_and!; [unfold rl_valid, RL_INFINITY, INT64_MAX; simpl; lia | |]);
  [.. | apply rl_wf_nil];
  repeat constructor; unfold rl_before; simpl; lia.

(** [rl_add] keeps the queue sorted, disjoint and non-touching with every
    offset inside [0, RL_INFINITY], whatever it overlaps; and when no entry
    after the one [rl_scan] finds ends inside the new range, the offsets of the
    result are exactly the old ones together with [start..end]. *)
Theorem rl_add_union (l : list rl_entry) (start end_ : Z) :
  rl_wf l -> 0 <= start <= end_ -> end_ <= RL_INFINITY ->
  rl_wf (rl_add start end_ l) /\
  (rl_scan_last l start end_ ->
   forall x, rl_mem x (rl_add start end_ l) <-> rl_mem x l \/ start <= x <= end_).
Proof. apply rl_add_spec. Qed.

Lemma rl_add_union_witness :
  rl_add 2 9 [rl_make 0 1; rl_make 10 12] = [rl_make 0 12] /\
  rl_wf (rl_add 2 9 [rl_make 0 1; rl_make 10 12]).
Proof.
  split; [reflexivity|].
  apply (rl_add_union [rl_make 0 1; rl_make 10 12] 2 9);
    [rl_wf_concrete | lia | unfold RL_INFINITY, INT64_MAX; lia].
Defined.

(** C39: [rl_remove] always terminates with a queue that is again sorted,
    disjoint and non-touching and denotes exactly the old offsets without
    [start..end], on every overlap case (match, split, contained entries,
    cut at either end). *)
Theorem rl_remove_difference (l : list rl_entry) (start end_ : Z) :
  rl_wf l -> 0 <= start <= end_ -> end_ <= RL_INFINITY ->
  exists l', rl_remove start end_ l = Some l' /\ rl_wf l' /\
    forall x, rl_mem x l' <-> rl_mem x l /\ ~ start <= x <= end_.
Proof. intros Hw Hse Hinf. by apply rl_remove_spec. Qed.

Lemma rl_remove_difference_witness :
  exists l', rl_remove 1 11 [rl_make 0 1; rl_make 5 6; rl_make 10 12] = Some l' /\ rl_wf l' /\
    forall x, rl_mem x l' <->
      rl_mem x [rl_make 0 1; rl_make 5 6; rl_make 10 12] /\ ~ 1 <= x <= 11.
Proof.
  apply (rl_remove_difference [rl_make 0 1; rl_make 5 6; rl_make 10 12] 1 11);
    [rl_wf_concrete | lia | unfold RL_INFINITY, INT64_MAX; lia].
Defined.

(** [rl_subtract] leaves in [a] a sub-range of the old [a] free of [b],
    and it is the largest such: any range inside [a] that avoids [b] is no
    longer than what is left (an empty result when [b] covers [a]). *)
Theorem rl_subtract_largest (a b : rl_entry) :
  rl_valid a -> rl_valid b ->
  let a' := rl_subtract a b in
  (forall x, rl_in x a' -> rl_in x a /\ ~ rl_in x b) /\
  (forall c, rl_start c <= rl_end c -> (forall x, rl_in x c -> rl_in x a /\ ~ rl_in x b) ->
   rl_end c - rl_start c <= rl_end a' - rl_start a').
Proof.
  intros Ha Hb. unfold rl_subtract.
  pose proof (rl_overlap_cases b (rl_start a) (rl_end a) ltac:(rl_unfold; lia)) as Hc.
  assert (forall c, rl_start c <= rl_end c -> (forall x, rl_in x c -> rl_in x a /\ ~ rl_in x b) ->
    rl_start a <= rl_start c /\ rl_end c <= rl_end a /\
    (rl_end c < rl_start b \/ rl_end b < rl_start c)) as Hcin.
  { intros c Hcc Hin. pose proof (Hin (rl_start c)). pose proof (Hin (rl_end c)).
    pose proof (Hin (rl_start b)). rl_unfold. lia. }
  destruct (rl_overlap b (rl_start a) (rl_end a)); cbv zeta.
  all: try (rewrite (s64_id (rl_end a - rl_end b)), (s64_id (rl_start b - rl_start a))
              by (rl_unfold; lia);
            destruct (Z.leb_spec (rl_end a - rl_end b) (rl_start b - rl_start a))).
  all: rewrite ?s64_id by (rl_unfold; lia).
  all: split; [intros x; rl_unfold; lia |].
  all: intros c Hcc Hin; specialize (Hcin c Hcc Hin); rl_unfold; lia.
Qed.

Lemma rl_subtract_largest_witness :
  rl_subtract (rl_make 0 100) (rl_make 20 30) = rl_make 31 100 /\
  (forall x, rl_in x (rl_subtract (rl_make 0 100) (rl_make 20 30)) ->
     rl_in x (rl_make 0 100) /\ ~ rl_in x (rl_make 20 30)).
Proof.
  split; [reflexivity|].
  apply (rl_subtract_largest (rl_make 0 100) (rl_make 20 30));
    unfold rl_valid, RL_INFINITY, INT64_MAX; simpl; lia.
Defined.

(** the side condition of [rl_add_union] is needed: when a second entry of
    the queue lies inside the added range, [rl_collapse_forwards] sets the end
    of the grown entry back to the end of that second entry, and the tail of
    the range that was added is lost. *)
Theorem rl_add_drops_tail (p q s e : Z) :
  0 <= p -> p <= s <= p + 4 -> q = p + 10 -> q + 2 < e -> e <= RL_INFINITY ->
  let l := [rl_make p (p + 5); rl_make q (q + 2)] in
  rl_wf l /\ rl_add s e l = [rl_make p (q + 2)] /\
  s <= e <= e /\ ~ rl_mem e (rl_add s e l).
Proof.
  intros Hp Hs -> He Hi.
  assert (rl_wf [rl_make p (p + 5); rl_make (p + 10) (p + 10 + 2)]) as Hw.
  { repeat (apply rl_wf_cons; split_and!; [rl_unfold; unfold INT64_MAX in *; lia | |]);
      [.. | apply rl_wf_nil]; repeat constructor; rl_unfold; lia. }
  assert (rl_add s e [rl_make p (p + 5); rl_make (p + 10) (p + 10 + 2)]
          = [rl_make p (p + 10 + 2)]) as E.
  { unfold rl_add, rl_scan, rl_scan_from, rl_scan_loop, rl_overlap. simpl.
    destruct (Z.ltb_spec (p + 5) s); [lia|]. destruct (Z.ltb_spec e p); [lia|]. simpl.
    destruct (Z.eqb_spec p s); simpl.
    - destruct (Z.eqb_spec (p + 5) e); [lia|]. simpl.
      destruct (Z.leb_spec p s); [|lia]. destruct (Z.leb_spec e (p + 5)); [lia|]. simpl.
      destruct (Z.leb_spec s p); [|lia]. destruct (Z.leb_spec (p + 5) e); [|lia]. simpl.
      unfold rl_collapse_neighbors, rl_collapse_forwards. simpl.
      rewrite (s64_id (p + 10 - 1)) by (rl_unfold; unfold INT64_MAX in *; lia).
      destruct (Z.ltb_spec e (p + 10 - 1)); [lia|]. rewrite andb_false_r.
      unfold rl_collapse_backwards. simpl. by subst.
    - destruct (Z.leb_spec p s); [|lia]. destruct (Z.leb_spec e (p + 5)); [lia|]. simpl.
      destruct (Z.leb_spec s p); [lia|]. simpl.
      destruct (Z.ltb_spec p s); [|lia]. destruct (Z.ltb_spec (p + 5) e); [|lia]. simpl.
      unfold rl_collapse_forwards. simpl.
      rewrite (s64_id (p + 10 - 1)) by (rl_unfold; unfold INT64_MAX in *; lia).
      destruct (Z.ltb_spec e (p + 10 - 1)); [lia|]. rewrite andb_false_r. done. }
  split_and!; [done | done | lia | lia |]. rewrite E, rl_mem_singleton. rl_unfold. lia.
Qed.

Lemma rl_add_drops_tail_witness :
  rl_add 3 20 [rl_make 0 5; rl_make 10 12] = [rl_make 0 12].
Proof.
  apply (rl_add_drops_tail 0 10 3 20); try lia; unfold RL_INFINITY, INT64_MAX; lia.
Defined.
