(* ===== verification/FreeExtCache.v ===== *)
(** * The free extent cache of the volume allocator

    core/VolumeAllocation.c: [remove_free_extent_list], [add_free_extent_list],
    [remove_free_extent_cache], [add_free_extent_cache], [ResetVCBFreeExtCache]
    and [sanity_check_free_ext].  The cache is the fixed array [vcbFreeExt] of
    [kMaxFreeExtents] descriptors with the count [vcbFreeExtCnt] of the mount
    structure (core/hfs.h); it is sorted by decreasing length, or by increasing
    start on a sparse device.  The spin lock around the updates is not modelled:
    each operation is one atomic step. *)

From S2P Require Import Prelude HfsFormat.

Definition kMaxFreeExtents : Z := 10.
Definition HFS_HAS_SPARSE_DEVICE : Z := 0x00400.

(** The fields of [struct hfsmount] the cache uses. *)
Record hfsmount := mkMount {
  vcbFreeExt : list HFSPlusExtentDescriptor;
  vcbFreeExtCnt : Z;
  hfs_flags : Z;
  allocLimit : Z;
}.

Definition set_FreeExt (m : hfsmount) (arr : list HFSPlusExtentDescriptor) (cnt : Z) : hfsmount :=
  mkMount arr cnt (hfs_flags m) (allocLimit m).

(** memmove of [n] array elements from index [src] to index [dst]. *)
Definition memmove_ext (arr : list HFSPlusExtentDescriptor) (dst src n : nat) :=
  take dst arr ++ take n (drop src arr) ++ drop (dst + n) arr.

Definition is_sparse (m : hfsmount) : bool :=
  negb (Z.land (hfs_flags m) HFS_HAS_SPARSE_DEVICE =? 0).

Definition ext_at (m : hfsmount) (i : Z) : HFSPlusExtentDescriptor :=
  vcbFreeExt m !!! Z.to_nat i.

Definition ResetVCBFreeExtCache (m : hfsmount) : hfsmount :=
  set_FreeExt m (replicate (Z.to_nat kMaxFreeExtents) (mkExtent 0 0)) 0.

(** The [printf] of the out-of-range case has no effect on the state. *)
Definition remove_free_extent_list (m : hfsmount) (index : Z) : hfsmount :=
  if (index <? 0) || (vcbFreeExtCnt m <=? u32 index) then m
  else
    let shift_count := s32 (vcbFreeExtCnt m - index - 1) in
    let arr :=
      if 0 <? shift_count
      then memmove_ext (vcbFreeExt m) (Z.to_nat index) (Z.to_nat (index + 1)) (Z.to_nat shift_count)
      else vcbFreeExt m in
    set_FreeExt m arr (u32 (vcbFreeExtCnt m - 1)).

(** The search loop of [add_free_extent_list]: the index of the first of the
    entries [l] (starting at index [i]) the new extent sorts before. *)
Fixpoint add_position (sparse : bool) (start count : Z) (i : Z) (l : list HFSPlusExtentDescriptor) : Z :=
  match l with
  | [] => i
  | e :: l' =>
      if (if sparse then start <? startBlock e else blockCount e <? count)
      then i
      else add_position sparse start count (i + 1) l'
  end.

Definition add_free_extent_list (m : hfsmount) (start count : Z) : hfsmount * Z :=
  let i := add_position (is_sparse m) start count 0
             (take (Z.to_nat (vcbFreeExtCnt m)) (vcbFreeExt m)) in
  if i =? kMaxFreeExtents then (m, i)
  else
    let cnt := if vcbFreeExtCnt m <? kMaxFreeExtents
               then u32 (vcbFreeExtCnt m + 1) else vcbFreeExtCnt m in
    let shift_count := s32 (cnt - i - 1) in
    let arr :=
      if 0 <? shift_count
      then memmove_ext (vcbFreeExt m) (Z.to_nat (i + 1)) (Z.to_nat i) (Z.to_nat shift_count)
      else vcbFreeExt m in
    (set_FreeExt m (<[Z.to_nat i := mkExtent start count]> arr) cnt, i).

(** One pass of the [for] loop of [remove_free_extent_cache], at index [i];
    [inl] is the break, [inr] the next value of [i] before the loop's [++i]. *)
Definition remove_cache_step (start endBlock : Z) (m : hfsmount) (i : Z)
  : hfsmount * (unit + Z) :=
  let currentStart := startBlock (ext_at m i) in
  let currentEnd := u32 (currentStart + blockCount (ext_at m i)) in
  if (currentEnd <=? start) || (endBlock <=? currentStart) then (m, inr i)
  else if (start <=? currentStart) && (currentEnd <=? endBlock) then
    (remove_free_extent_list m i, inr (u32 (i - 1)))
  else if (currentStart <? start) && (endBlock <? currentEnd) then
    let m1 := remove_free_extent_list m i in
    let m2 := (add_free_extent_list m1 currentStart (u32 (start - currentStart))).1 in
    ((add_free_extent_list m2 endBlock (u32 (currentEnd - endBlock))).1, inl tt)
  else
    let m1 := remove_free_extent_list m i in
    let '(m2, insertedIndex) :=
      if currentStart <? start
      then add_free_extent_list m1 currentStart (u32 (start - currentStart))
      else add_free_extent_list m1 endBlock (u32 (currentEnd - endBlock)) in
    (m2, inr (if i <? insertedIndex then u32 (i - 1) else i)).

(** The loop, with fuel; [None] when it runs out. *)
Fixpoint remove_cache_loop (fuel : nat) (start endBlock : Z) (m : hfsmount) (i : Z)
  : option hfsmount :=
  match fuel with
  | O => None
  | S fuel' =>
      if i <? vcbFreeExtCnt m then
        match remove_cache_step start endBlock m i with
        | (m', inl _) => Some m'
        | (m', inr i') => remove_cache_loop fuel' start endBlock m' (u32 (i' + 1))
        end
      else Some m
  end.

Definition cache_fuel : nat := 2 * Z.to_nat kMaxFreeExtents + 1.

Definition remove_free_extent_cache (m : hfsmount) (start count : Z) : option hfsmount :=
  remove_cache_loop cache_fuel start (u32 (start + count)) m 0.

(** The merging pass of [add_free_extent_cache]. *)
Fixpoint add_cache_loop (fuel : nat) (m : hfsmount) (start endBlock i : Z)
  : option (hfsmount * Z * Z) :=
  match fuel with
  | O => None
  | S fuel' =>
      if i <? vcbFreeExtCnt m then
        let e := ext_at m i in
        let currentEnd := u32 (startBlock e + blockCount e) in
        if (endBlock <? startBlock e) || (currentEnd <? start)
        then add_cache_loop fuel' m start endBlock (u32 (i + 1))
        else
          let start' := if startBlock e <? start then startBlock e else start in
          let endBlock' := if endBlock <? currentEnd then currentEnd else endBlock in
          add_cache_loop fuel' (remove_free_extent_list m i) start' endBlock'
            (u32 (u32 (i - 1) + 1))
      else Some (m, start, endBlock)
  end.

Definition add_free_extent_cache (m : hfsmount) (start count : Z) : option (hfsmount * bool) :=
  let retval := false in
  if allocLimit m <=? start then Some (m, retval)
  else
    let count' := if allocLimit m <? u32 (start + count)
                  then u32 (allocLimit m - start) else count in
    match add_cache_loop cache_fuel m start (u32 (start + count')) 0 with
    | None => None
    | Some (m', start', endBlock') =>
        Some ((add_free_extent_list m' start' (u32 (endBlock' - start'))).1, retval)
    end.

(** [sanity_check_free_ext] with [check_allocated] 0, as compiled with
    [ALLOC_DEBUG]: [false] where the code panics. *)
Definition sanity_check_entry (m : hfsmount) (i : Z) : bool :=
  let start := startBlock (ext_at m i) in
  let nblocks := blockCount (ext_at m i) in
  negb ((allocLimit m <? start) || (allocLimit m <? u32 (start + nblocks))) &&
  forallb (fun j => negb (start =? startBlock (ext_at m j)))
    (seqZ (i + 1) (vcbFreeExtCnt m - (i + 1))) &&
  (if u32 (i + 1) =? vcbFreeExtCnt m then true
   else if is_sparse m
   then negb (startBlock (ext_at m (i + 1)) <? start)
   else negb (nblocks <? blockCount (ext_at m (i + 1)))).

Definition sanity_check_free_ext (m : hfsmount) : bool :=
  negb (kMaxFreeExtents <? vcbFreeExtCnt m) &&
  forallb (sanity_check_entry m) (seqZ 0 (vcbFreeExtCnt m)).

(** ** Abstraction: the cached extents as a list *)

Definition fe_view (m : hfsmount) : list HFSPlusExtentDescriptor :=
  take (Z.to_nat (vcbFreeExtCnt m)) (vcbFreeExt m).

Definition array_ok (m : hfsmount) : Prop :=
  length (vcbFreeExt m) = Z.to_nat kMaxFreeExtents /\ 0 <= vcbFreeExtCnt m <= kMaxFreeExtents.

Definition ext_end (e : HFSPlusExtentDescriptor) : Z := startBlock e + blockCount e.

(** The list version of [add_free_extent_list]. *)
Definition list_add (sparse : bool) (l : list HFSPlusExtentDescriptor) (e : HFSPlusExtentDescriptor) :=
  let p := Z.to_nat (add_position sparse (startBlock e) (blockCount e) 0 l) in
  take (Z.to_nat kMaxFreeExtents) (take p l ++ e :: drop p l).

(** [m'] differs from [m] in the cache only. *)
Definition same_mount (m m' : hfsmount) : Prop :=
  hfs_flags m' = hfs_flags m /\ allocLimit m' = allocLimit m.

Ltac flia := unfold kMaxFreeExtents, UINT32_MAX in *; lia.

Lemma fe_view_length m : array_ok m -> length (fe_view m) = Z.to_nat (vcbFreeExtCnt m).
Proof. intros [Hl Hc]. unfold fe_view. rewrite length_take. lia. Qed.

Lemma fe_view_at m (pre : list HFSPlusExtentDescriptor) e post :
  fe_view m = pre ++ e :: post -> ext_at m (Z.of_nat (length pre)) = e.
Proof.
  unfold fe_view, ext_at. intros E. rewrite Nat2Z.id.
  apply list_lookup_total_correct.
  apply (lookup_take_Some _ (Z.to_nat (vcbFreeExtCnt m))). rewrite E. apply lookup_middle.
Qed.

Lemma remove_free_extent_list_view m pre e post :
  array_ok m -> fe_view m = pre ++ e :: post ->
  let m' := remove_free_extent_list m (Z.of_nat (length pre)) in
  array_ok m' /\ same_mount m m' /\ fe_view m' = pre ++ post.
Proof.
  intros Hok E. pose proof (fe_view_length m Hok) as Hlen. rewrite E, length_app in Hlen. simpl in Hlen.
  destruct Hok as [Hl Hc]. unfold kMaxFreeExtents in *.
  cbv zeta. unfold remove_free_extent_list.
  rewrite u32_id by (unfold UINT32_MAX; lia).
  destruct (Z.ltb_spec (Z.of_nat (length pre)) 0); [lia|].
  destruct (Z.leb_spec (vcbFreeExtCnt m) (Z.of_nat (length pre))); [lia|]. simpl.
  rewrite s32_id, u32_id by (unfold UINT32_MAX; lia).
  set (cnt := vcbFreeExtCnt m) in *.
  replace (Z.to_nat (cnt - Z.of_nat (length pre) - 1)) with (length post) by lia.
  assert (vcbFreeExt m = pre ++ e :: post ++ drop (Z.to_nat cnt) (vcbFreeExt m)) as Ea.
  { rewrite <- (take_drop (Z.to_nat cnt) (vcbFreeExt m)) at 1.
    unfold fe_view in E. fold cnt in E. rewrite E, <- app_assoc. done. }
  revert Ea. generalize (drop (Z.to_nat cnt) (vcbFreeExt m)). intros stale Ea.
  assert (exists tl, (if 0 <? cnt - Z.of_nat (length pre) - 1
     then memmove_ext (vcbFreeExt m) (Z.to_nat (Z.of_nat (length pre)))
            (Z.to_nat (Z.of_nat (length pre) + 1)) (length post)
     else vcbFreeExt m) = (pre ++ post) ++ tl /\ length (pre ++ post ++ tl) = 10%nat) as (tl & -> & Htl).
  { destruct (Z.ltb_spec 0 (cnt - Z.of_nat (length pre) - 1)).
    - exists (drop (length pre + length post) (vcbFreeExt m)). split.
      + unfold memmove_ext. rewrite Nat2Z.id, Z2Nat.inj_add, Nat2Z.id by lia.
        change (Z.to_nat 1) with 1%nat. rewrite Nat.add_1_r.
        rewrite Ea at 1 2. by rewrite take_middle, drop_S_middle, take_app_length, app_assoc.
      + rewrite !length_app, length_drop, Hl. lia.
    - destruct post; [|simpl in *; lia]. exists (e :: stale).
      rewrite app_nil_r. split; [by rewrite Ea|]. rewrite Ea in Hl. exact Hl. }
  split_and!; simpl; [|split; done|].
  - split; simpl; [rewrite <- app_assoc, Htl; done | unfold kMaxFreeExtents; lia].
  - unfold fe_view. simpl.
    replace (Z.to_nat (cnt - 1)) with (length (pre ++ post)) by (rewrite length_app; lia).
    apply take_app_length.
Qed.

Lemma add_position_spec sparse start count i l :
  exists pre post, l = pre ++ post /\ add_position sparse start count i l = i + Z.of_nat (length pre) /\
    Forall (fun e => (if sparse then start <? startBlock e else blockCount e <? count) = false) pre /\
    match post with
    | [] => True
    | e :: _ => (if sparse then start <? startBlock e else blockCount e <? count) = true
    end.
Proof.
  revert i. induction l as [|e l IH]; intros i; simpl.
  { exists [], []. simpl. split_and!; (done || lia || constructor). }
  destruct (if sparse then _ else _) eqn:E.
  - exists [], (e :: l). simpl. split_and!; (done || lia || constructor).
  - destruct (IH (i + 1)) as (pre & post & -> & -> & Hp & Hq).
    exists (e :: pre), post. simpl. split_and!; try done; [lia|]. by constructor.
Qed.

Lemma take_insert_shift (arr : list HFSPlusExtentDescriptor) e (i n : nat) :
  (i + 1 + n <= length arr)%nat ->
  take (i + 1 + n)
    (<[i := e]> (if 0 <? Z.of_nat n then memmove_ext arr (i + 1) i n else arr))
  = take i arr ++ e :: take n (drop i arr).
Proof.
  intros Hle.
  assert (exists x tl, (if 0 <? Z.of_nat n then memmove_ext arr (i + 1) i n else arr)
            = take i arr ++ x :: take n (drop i arr) ++ tl) as (x & tl & ->).
  { destruct (lookup_lt_is_Some_2 arr i ltac:(lia)) as [x Hx].
    exists x. destruct (Z.ltb_spec 0 (Z.of_nat n)).
    - exists (drop (i + 1 + n) arr). unfold memmove_ext.
      rewrite Nat.add_1_r, (take_S_r _ _ x Hx), <- app_assoc. done.
    - exists (drop (i + 1) arr). replace n with 0%nat by lia. simpl.
      rewrite Nat.add_1_r. symmetry. by apply take_drop_middle. }
  assert (length (take i arr) = i) as Hi by (rewrite length_take; lia).
  rewrite <- Hi at 2. rewrite insert_middle.
  replace (take i arr ++ e :: take n (drop i arr) ++ tl)
    with ((take i arr ++ e :: take n (drop i arr)) ++ tl) by by rewrite <- app_assoc.
  rewrite take_app_length'; [done|].
  rewrite length_app. simpl. rewrite Hi, length_take, length_drop. lia.
Qed.

Lemma add_free_extent_list_view m e :
  array_ok m ->
  let r := add_free_extent_list m (startBlock e) (blockCount e) in
  array_ok r.1 /\ same_mount m r.1 /\ fe_view r.1 = list_add (is_sparse m) (fe_view m) e /\
  r.2 = add_position (is_sparse m) (startBlock e) (blockCount e) 0 (fe_view m).
Proof.
  intros Hok. pose proof (fe_view_length m Hok) as Hlen. destruct Hok as [Hl Hc].
  cbv zeta. unfold add_free_extent_list, list_add. fold (fe_view m).
  destruct (add_position_spec (is_sparse m) (startBlock e) (blockCount e) 0 (fe_view m))
    as (pre & post & El & -> & _ & _).
  rewrite Z.add_0_l, Nat2Z.id. rewrite El, length_app in Hlen.
  unfold kMaxFreeExtents in *. change (Z.to_nat 10) with 10%nat in *.
  destruct (Z.eqb_spec (Z.of_nat (length pre)) 10) as [E|E]; simpl.
  { assert (post = []) as -> by (destruct post; [done | simpl in Hlen; lia]).
    rewrite El, app_nil_r, (take_ge pre), (drop_ge pre) by lia.
    split_and!; [split; [done | flia] | done | | done].
    rewrite take_app_length'; [done | lia]. }
  set (cnt := if vcbFreeExtCnt m <? 10 then u32 (vcbFreeExtCnt m + 1) else vcbFreeExtCnt m).
  assert (cnt = Z.min 10 (vcbFreeExtCnt m + 1)) as Ec.
  { subst cnt. destruct (Z.ltb_spec (vcbFreeExtCnt m) 10); [|lia].
    rewrite u32_id by (unfold UINT32_MAX; lia). lia. }
  clearbody cnt. rewrite s32_id by lia.
  set (n := Z.to_nat (cnt - Z.of_nat (length pre) - 1)).
  replace (cnt - Z.of_nat (length pre) - 1) with (Z.of_nat n) by lia.
  replace (Z.to_nat (Z.of_nat (length pre) + 1)) with (length pre + 1)%nat by lia.
  rewrite ?Nat2Z.id.
  pose proof (take_insert_shift (vcbFreeExt m) e (length pre) n ltac:(lia)) as Hs.
  split_and!; [| split; done | | done].
  - split; simpl; [|flia]. rewrite length_insert. destruct (0 <? Z.of_nat n); [|done].
    unfold memmove_ext. rewrite !length_app, !length_take, !length_drop. flia.
  - unfold fe_view at 1. simpl. replace (Z.to_nat cnt) with (length pre + 1 + n)%nat by lia.
    replace (mkExtent (startBlock e) (blockCount e)) with e by by destruct e.
    rewrite Hs. unfold fe_view in *.
    assert (take (length pre) (vcbFreeExt m) = pre) as Et.
    { transitivity (take (length pre) (take (Z.to_nat (vcbFreeExtCnt m)) (vcbFreeExt m))).
      - rewrite take_take. f_equal. lia.
      - rewrite El. apply take_app_length. }
    assert (post = take (length post) (drop (length pre) (vcbFreeExt m))) as Ed.
    { rewrite take_drop_commute. rewrite <- (drop_app_length pre post) at 1. by rewrite <- El, Hlen. }
    rewrite El, take_app_length, drop_app_length, Et.
    replace 10%nat with (length pre + S (9 - length pre))%nat by lia.
    rewrite take_app_add. simpl. do 2 f_equal. rewrite Ed, take_take. f_equal. lia.
Qed.

(** ** The cache invariant *)

Definition ext_ok (lim : Z) (e : HFSPlusExtentDescriptor) : Prop :=
  0 <= startBlock e /\ 0 < blockCount e /\ ext_end e <= lim.

(** Neither overlapping nor contiguous. *)
Definition apart (a b : HFSPlusExtentDescriptor) : Prop :=
  ext_end a < startBlock b \/ ext_end b < startBlock a.

#[export] Instance apart_sym : Symmetric apart.
Proof. unfold apart. intros a b. lia. Qed.

Definition ext_order (sparse : bool) (a b : HFSPlusExtentDescriptor) : Prop :=
  if sparse then startBlock a <= startBlock b else blockCount b <= blockCount a.

#[export] Instance ext_order_trans sparse : Transitive (ext_order sparse).
Proof. unfold ext_order. intros a b c. destruct sparse; lia. Qed.

Record fe_list_ok (sparse : bool) (lim : Z) (l : list HFSPlusExtentDescriptor) : Prop := {
  fe_ok : Forall (ext_ok lim) l;
  fe_apart : StronglySorted apart l;
  fe_sorted : StronglySorted (ext_order sparse) l;
}.

Record cache_inv (m : hfsmount) : Prop := {
  ci_array : array_ok m;
  ci_limit : allocLimit m <= UINT32_MAX;
  ci_list : fe_list_ok (is_sparse m) (allocLimit m) (fe_view m);
}.

(** The allocation blocks the cache holds. *)
Definition in_ext (b : Z) (e : HFSPlusExtentDescriptor) : Prop := startBlock e <= b < ext_end e.
Definition cached (b : Z) (l : list HFSPlusExtentDescriptor) : Prop := exists e, e ∈ l /\ in_ext b e.

Lemma cached_nil b : ~ cached b [].
Proof. intros (e & He & _). by apply elem_of_nil in He. Qed.
Lemma cached_cons b e l : cached b (e :: l) <-> in_ext b e \/ cached b l.
Proof. unfold cached. set_solver. Qed.
Lemma cached_app b l1 l2 : cached b (l1 ++ l2) <-> cached b l1 \/ cached b l2.
Proof. unfold cached. set_solver. Qed.
Lemma cached_take b n l : cached b (take n l) -> cached b l.
Proof. rewrite <- (take_drop n l) at 2. rewrite cached_app. tauto. Qed.

Lemma fe_list_ok_take sparse lim n l : fe_list_ok sparse lim l -> fe_list_ok sparse lim (take n l).
Proof. intros [H1 H2 H3]. split; [by apply Forall_take | by apply StronglySorted_take ..]. Qed.

Lemma fe_list_ok_middle sparse lim pre e post :
  fe_list_ok sparse lim (pre ++ e :: post) <->
  fe_list_ok sparse lim (pre ++ post) /\ ext_ok lim e /\ Forall (apart e) (pre ++ post) /\
  Forall (fun a => ext_order sparse a e) pre /\ Forall (ext_order sparse e) post.
Proof.
  split.
  - intros [Hok Ha Hs]. apply StronglySorted_sym_middle in Ha as [Ha He]; [|apply _].
    apply Forall_app in Hok as [Hp [Hx Hq]%Forall_cons].
    apply StronglySorted_middle in Hs as (Hs1 & Hs2 & Hs3 & Hs4 & Hs5).
    split_and!; try done. split; try done; [by apply Forall_app|].
    by apply StronglySorted_app.
  - intros ([Hok Ha Hs] & Hx & He & Hp & Hq). split.
    + apply Forall_app in Hok as [? ?]. apply Forall_app. split; [done | by constructor].
    + apply StronglySorted_sym_middle; [apply _ | done].
    + apply StronglySorted_app in Hs as (Hc & Hs1 & Hs2).
      rewrite Forall_forall in Hp. apply StronglySorted_app. split_and!; [| done |].
      * intros a b Ha' [->|Hb]%elem_of_cons; [by apply Hp | by apply Hc].
      * by apply StronglySorted_cons.
Qed.

(** Where [add_free_extent_list] puts an extent that is apart from all cached
    ones, and that the invariant holds there. *)
Lemma list_add_spec sparse lim l e :
  fe_list_ok sparse lim l -> ext_ok lim e -> Forall (apart e) l ->
  exists pre post, l = pre ++ post /\
    add_position sparse (startBlock e) (blockCount e) 0 l = Z.of_nat (length pre) /\
    list_add sparse l e = take (Z.to_nat kMaxFreeExtents) (pre ++ e :: post) /\
    fe_list_ok sparse lim (pre ++ e :: post) /\
    Forall (fun d => ext_order sparse d e) pre /\
    (match post with [] => True | d :: _ => ~ ext_order sparse d e end).
Proof.
  intros Hl He Ha. unfold list_add.
  destruct (add_position_spec sparse (startBlock e) (blockCount e) 0 l)
    as (pre & post & -> & -> & Hp & Hq).
  exists pre, post. rewrite Z.add_0_l, Nat2Z.id, take_app_length, drop_app_length.
  assert (Forall (fun d => ext_order sparse d e) pre) as Hpo.
  { eapply Forall_impl; [exact Hp|]. intros d. unfold ext_order. destruct sparse; simpl; lia. }
  assert (match post with [] => True | d :: _ => ~ ext_order sparse d e end) as Hqo.
  { destruct post as [|d post]; [done|]. unfold ext_order. destruct sparse; lia. }
  split_and!; try done. apply fe_list_ok_middle. split_and!; try done.
  destruct post as [|d post]; [constructor|].
  assert (ext_order sparse e d) as Hed by (unfold ext_order in *; destruct sparse; lia).
  constructor; [done|]. destruct Hl as [_ _ Hs]. apply StronglySorted_app in Hs as (_ & _ & Hs).
  apply StronglySorted_cons in Hs as [Hs _]. eapply Forall_impl; [exact Hs|].
  intros x Hx. by etransitivity.
Qed.

(** ** Removing a run of blocks *)

Definition clear_of (S E : Z) (e : HFSPlusExtentDescriptor) : Prop :=
  ext_end e <= S \/ E <= startBlock e.

#[export] Instance clear_of_dec S E e : Decision (clear_of S E e).
Proof. unfold clear_of. apply _. Defined.

Definition sub_ext (e o : HFSPlusExtentDescriptor) : Prop :=
  startBlock o <= startBlock e /\ ext_end e <= ext_end o.

Lemma sub_ext_apart e o l : sub_ext e o -> Forall (apart o) l -> Forall (apart e) l.
Proof.
  intros Hs H. eapply Forall_impl; [exact H|]. intros x. unfold apart, sub_ext in *. lia.
Qed.

Lemma sub_ext_order sparse e o : sub_ext e o -> ext_order sparse o e.
Proof. unfold sub_ext, ext_order, ext_end. destruct sparse; lia. Qed.

(** The number of entries the removed run overlaps. *)
Definition n_over (S E : Z) (l : list HFSPlusExtentDescriptor) : nat :=
  length (filter (fun e => ~ clear_of S E e) l).

Lemma n_over_cons S E e l :
  n_over S E (e :: l) = ((if decide (clear_of S E e) then 0 else 1) + n_over S E l)%nat.
Proof.
  unfold n_over. rewrite filter_cons.
  destruct (decide (~ clear_of S E e)), (decide (clear_of S E e)); simpl; (lia || done).
Qed.

Lemma n_over_app S E l1 l2 : n_over S E (l1 ++ l2) = (n_over S E l1 + n_over S E l2)%nat.
Proof. unfold n_over. by rewrite filter_app, length_app. Qed.

Lemma n_over_le S E l : (n_over S E l <= length l)%nat.
Proof. apply length_filter. Qed.

(** What the removal promises: the invariant again, no cached block in the
    removed run, and no other block lost unless the list was full. *)
Record cut_post (S E : Z) (m m' : hfsmount) : Prop := {
  cut_inv : cache_inv m';
  cut_same : same_mount m m';
  cut_clear : Forall (clear_of S E) (fe_view m');
  cut_sub : forall b, cached b (fe_view m') -> cached b (fe_view m);
  cut_keep : vcbFreeExtCnt m < kMaxFreeExtents ->
    forall b, cached b (fe_view m) -> ~ S <= b < E -> cached b (fe_view m');
}.

Lemma same_mount_sparse m m' : same_mount m m' -> is_sparse m' = is_sparse m.
Proof. unfold is_sparse. by intros [-> _]. Qed.

Lemma clear_not_cached S E l b : Forall (clear_of S E) l -> cached b l -> ~ S <= b < E.
Proof.
  rewrite Forall_forall. intros H (e & He & Hb). specialize (H e He).
  unfold clear_of, in_ext in *. lia.
Qed.

(** Removing the entry after [pre] and inserting a part of it again. *)
Lemma reinsert_part m pre o post e :
  cache_inv m -> fe_view m = pre ++ o :: post ->
  ext_ok (allocLimit m) e -> sub_ext e o ->
  let m1 := remove_free_extent_list m (Z.of_nat (length pre)) in
  let r := add_free_extent_list m1 (startBlock e) (blockCount e) in
  exists k post', post = k ++ post' /\ r.2 = Z.of_nat (length (pre ++ k)) /\
    fe_view r.1 = pre ++ k ++ e :: post' /\ cache_inv r.1 /\ same_mount m r.1 /\
    vcbFreeExtCnt r.1 = vcbFreeExtCnt m.
Proof.
  intros [Hok Hlim Hl] Ev He Hsub m1 r.
  pose proof (fe_view_length m Hok) as Hlen. rewrite Ev in Hl, Hlen.
  destruct (remove_free_extent_list_view m pre o post Hok Ev) as (Hok1 & Hs1 & Ev1). fold m1 in Hok1, Hs1, Ev1.
  destruct (add_free_extent_list_view m1 e Hok1) as (Hok2 & Hs2 & Ev2 & Er). fold r in Hok2, Hs2, Ev2, Er.
  rewrite (same_mount_sparse m m1 Hs1) in Ev2, Er.
  apply fe_list_ok_middle in Hl as (Hl & _ & Hap & Hop & _).
  destruct (list_add_spec (is_sparse m) (allocLimit m) (pre ++ post) e Hl He)
    as (p & q & Epq & Epos & Eadd & Hladd & _ & Hq).
  { by apply (sub_ext_apart e o). }
  assert (exists k, p = pre ++ k /\ post = k ++ q) as (k & -> & ->).
  { apply app_eq_inv in Epq as [(k & -> & ->)|(k & -> & ->)]; [|by exists k].
    destruct k as [|d k]; [exists []; by rewrite !app_nil_r|]. simpl in Hq. exfalso. apply Hq.
    rewrite Forall_forall in Hop. etransitivity; [apply Hop; set_solver|].
    by apply sub_ext_order. }
  assert (length (pre ++ k ++ e :: q) = Z.to_nat (vcbFreeExtCnt m)) as Hlen2.
  { rewrite <- Hlen, !length_app. simpl. rewrite !length_app. simpl. lia. }
  rewrite <- app_assoc in Eadd, Hladd.
  assert (fe_view r.1 = pre ++ k ++ e :: q) as Ev3.
  { rewrite Ev2, Ev1, Eadd. apply take_ge. destruct Hok as [_ Hc]. rewrite Hlen2. flia. }
  assert (same_mount m r.1) as Hs by (destruct Hs1, Hs2; split; congruence).
  exists k, q. split_and!; try done.
  - by rewrite Er, Ev1, Epos.
  - destruct Hs as [Hf Ha]. split; [done | by rewrite Ha |].
    rewrite Ev3, Ha. unfold is_sparse in *. by rewrite Hf.
  - pose proof (fe_view_length _ Hok2) as Hl2. rewrite Ev3, Hlen2 in Hl2.
    destruct Hok, Hok2. lia.
Qed.

(** Adding an extent that is apart from every cached one. *)
Lemma add_apart m e :
  cache_inv m -> ext_ok (allocLimit m) e -> Forall (apart e) (fe_view m) ->
  let m' := (add_free_extent_list m (startBlock e) (blockCount e)).1 in
  exists p q, fe_view m = p ++ q /\
    fe_view m' = take (Z.to_nat kMaxFreeExtents) (p ++ e :: q) /\ cache_inv m' /\ same_mount m m'.
Proof.
  intros [Hok Hlim Hl] He Hap m'.
  destruct (add_free_extent_list_view m e Hok) as (Hok2 & Hs2 & Ev2 & _). fold m' in Hok2, Hs2, Ev2.
  destruct (list_add_spec _ _ _ _ Hl He Hap) as (p & q & Epq & _ & Eadd & Hladd & _ & _).
  exists p, q. rewrite Ev2, Eadd. split_and!; try done.
  destruct Hs2 as [Hf Ha]. split; [done | by rewrite Ha |].
  rewrite Ev2, Eadd, Ha. unfold is_sparse in *. rewrite Hf. by apply fe_list_ok_take.
Qed.

Lemma cut_split S E m pre o post :
  S < E -> cache_inv m -> fe_view m = pre ++ o :: post ->
  startBlock o < S -> E < ext_end o ->
  let m1 := remove_free_extent_list m (Z.of_nat (length pre)) in
  let m2 := (add_free_extent_list m1 (startBlock o) (S - startBlock o)).1 in
  let m3 := (add_free_extent_list m2 E (ext_end o - E)).1 in
  cut_post S E m m3.
Proof.
  intros HSE Hinv Ev HoS HoE m1 m2 m3.
  set (e1 := mkExtent (startBlock o) (S - startBlock o)).
  set (e2 := mkExtent E (ext_end o - E)).
  pose proof Hinv as [Hok Hlim Hl]. rewrite Ev in Hl.
  apply fe_list_ok_middle in Hl as (Hl & Ho & Hap & _ & _).
  assert (ext_ok (allocLimit m) e1) as He1 by (unfold ext_ok, ext_end in *; simpl; lia).
  assert (sub_ext e1 o) as Hs1 by (unfold sub_ext, ext_end in *; simpl; lia).
  assert (sub_ext e2 o) as Hs2 by (unfold sub_ext, ext_end in *; simpl; lia).
  destruct (reinsert_part m pre o post e1 Hinv Ev He1 Hs1)
    as (k & q & -> & _ & Ev2 & Hinv2 & Hsm2 & Hcnt). 
  change (add_free_extent_list (remove_free_extent_list m (Z.of_nat (length pre)))
            (startBlock e1) (blockCount e1)).1 with m2 in Ev2, Hinv2, Hsm2, Hcnt.
  assert (Forall (apart e2) (fe_view m2)) as Hap2.
  { rewrite Ev2. pose proof (sub_ext_apart e2 o _ Hs2 Hap) as H.
    rewrite !Forall_app in H |- *. rewrite Forall_cons. unfold apart, ext_end. simpl. intuition lia. }
  assert (ext_ok (allocLimit m2) e2) as He2.
  { destruct Hsm2 as [_ ->]. unfold ext_ok, ext_end in *. simpl. lia. }
  destruct (add_apart m2 e2 Hinv2 He2 Hap2) as (p & q' & Epq & Ev3 & Hinv3 & Hsm3).
  change (add_free_extent_list m2 (startBlock e2) (blockCount e2)).1 with m3 in Ev3, Hinv3, Hsm3.
  assert (forall b, cached b (p ++ e2 :: q') <->
            cached b (pre ++ k ++ q) \/ in_ext b o /\ ~ S <= b < E) as Hblocks.
  { intros b. rewrite Ev2 in Epq. rewrite cached_app, cached_cons.
    transitivity (in_ext b e2 \/ cached b (pre ++ k ++ e1 :: q)); [rewrite Epq, cached_app; tauto|].
    rewrite !cached_app, cached_cons.
    assert (in_ext b e1 \/ in_ext b e2 <-> in_ext b o /\ ~ S <= b < E)
      by (unfold e1, e2, in_ext, ext_end; simpl; unfold ext_end in *; lia).
    tauto. }
  assert (Forall (clear_of S E) (pre ++ k ++ q)) as Hclr.
  { eapply Forall_impl; [exact Hap|]. intros x. unfold apart, clear_of, ext_end in *. lia. }
  split.
  - done.
  - destruct Hsm2, Hsm3. split; congruence.
  - rewrite Ev3. apply Forall_take.
    assert (Forall (clear_of S E) (p ++ q')) as H.
    { rewrite <- Epq, Ev2, !Forall_app, Forall_cons. rewrite !Forall_app in Hclr.
      unfold clear_of, ext_end in *. simpl. intuition lia. }
    rewrite !Forall_app in H |- *. rewrite Forall_cons. unfold clear_of, ext_end. simpl. intuition lia.
  - intros b Hb. rewrite Ev3 in Hb. apply cached_take, Hblocks in Hb.
    rewrite Ev. rewrite !cached_app, cached_cons, !cached_app in *. tauto.
  - intros Hc b Hb Hn. rewrite Ev3, take_ge.
    + apply Hblocks. rewrite Ev in Hb. rewrite !cached_app, ?cached_cons, ?cached_app in *. tauto.
    + pose proof (fe_view_length m2 (ci_array _ Hinv2)) as Hl2.
      rewrite Epq, length_app in Hl2. rewrite length_app. simpl. flia.
Qed.

(** The step at a known entry, with the 32-bit sums evaluated. *)
Lemma remove_cache_step_at S E m pre o post :
  0 <= S < E -> E <= UINT32_MAX -> cache_inv m -> fe_view m = pre ++ o :: post ->
  let i := Z.of_nat (length pre) in
  let m1 := remove_free_extent_list m i in
  let piece := if startBlock o <? S then mkExtent (startBlock o) (S - startBlock o)
               else mkExtent E (ext_end o - E) in
  remove_cache_step S E m i =
  if (ext_end o <=? S) || (E <=? startBlock o) then (m, inr i)
  else if (S <=? startBlock o) && (ext_end o <=? E) then (m1, inr (u32 (i - 1)))
  else if (startBlock o <? S) && (E <? ext_end o) then
    ((add_free_extent_list (add_free_extent_list m1 (startBlock o) (S - startBlock o)).1
        E (ext_end o - E)).1, inl tt)
  else let r := add_free_extent_list m1 (startBlock piece) (blockCount piece) in
       (r.1, inr (if i <? r.2 then u32 (i - 1) else i)).
Proof.
  intros HS HE Hinv Ev. cbv zeta. unfold remove_cache_step.
  rewrite (fe_view_at m pre o post Ev). destruct Hinv as [Hok Hlim Hl].
  rewrite Ev in Hl. apply fe_list_ok_middle in Hl as (_ & Ho & _).
  change (startBlock o + blockCount o) with (ext_end o).
  rewrite (u32_id (ext_end o)) by (unfold ext_ok in *; unfold ext_end in *; lia).
  destruct ((ext_end o <=? S) || (E <=? startBlock o)) eqn:E1; [done|].
  destruct ((S <=? startBlock o) && (ext_end o <=? E)) eqn:E0; [done|].
  apply orb_false_iff in E1 as [E1 E2]. apply Z.leb_gt in E1, E2.
  destruct ((startBlock o <? S) && (E <? ext_end o)) eqn:E3.
  - apply andb_true_iff in E3 as [E3 E4]. apply Z.ltb_lt in E3, E4.
    rewrite !u32_id by (unfold ext_ok in *; unfold ext_end in *; lia). done.
  - destruct (Z.ltb_spec (startBlock o) S); simpl.
    + rewrite u32_id by (unfold ext_ok in *; unfold ext_end in *; lia).
      by destruct (add_free_extent_list _ _ _).
    + apply andb_false_iff in E0 as [E0%Z.leb_gt|E0%Z.leb_gt]; [lia|].
      rewrite u32_id by (unfold ext_ok in *; unfold ext_end in *; lia).
      by destruct (add_free_extent_list _ _ _).
Qed.

Lemma cut_post_trans S E m m1 m2 :
  same_mount m m1 -> vcbFreeExtCnt m1 <= vcbFreeExtCnt m ->
  (forall b, cached b (fe_view m1) -> cached b (fe_view m)) ->
  (forall b, cached b (fe_view m) -> ~ S <= b < E -> cached b (fe_view m1)) ->
  cut_post S E m1 m2 -> cut_post S E m m2.
Proof.
  intros [Hf Ha] Hc Hs Hk [Hi [Hf' Ha'] Hcl Hsub Hkeep]. split; try done.
  - split; congruence.
  - intros b Hb. by apply Hs, Hsub.
  - intros Hlt b Hb Hn. apply Hkeep; [lia | by apply Hk | done].
Qed.

(** The loop from an index all of whose predecessors are already clear. *)
Lemma remove_cache_loop_spec S E fuel m pre rest :
  0 <= S < E -> E <= UINT32_MAX -> cache_inv m -> fe_view m = pre ++ rest ->
  Forall (clear_of S E) pre -> (length rest + n_over S E rest < fuel)%nat ->
  exists m', remove_cache_loop fuel S E m (Z.of_nat (length pre)) = Some m' /\ cut_post S E m m'.
Proof.
  intros HSE HE. revert m pre rest. induction fuel as [|fuel IH]; intros m pre rest Hinv Ev Hpre Hf; [lia|].
  simpl. pose proof Hinv as [Hok Hlim Hl]. pose proof (fe_view_length m Hok) as Hlen.
  rewrite Ev, length_app in Hlen. destruct Hok as [Hal Hcnt].
  destruct rest as [|o post].
  { simpl in Hlen. destruct (Z.ltb_spec (Z.of_nat (length pre)) (vcbFreeExtCnt m)); [lia|].
    exists m. split; [done|]. split; try done. by rewrite Ev, app_nil_r. }
  simpl in Hlen. destruct (Z.ltb_spec (Z.of_nat (length pre)) (vcbFreeExtCnt m)); [|lia].
  rewrite (remove_cache_step_at S E m pre o post) by (lia || done). cbv zeta.
  rewrite n_over_cons in Hf.
  pose proof Hl as Hl'. rewrite Ev in Hl'. apply fe_list_ok_middle in Hl' as (_ & Ho & Hap & _ & _).
  assert (Z.of_nat (length pre) + 1 <= UINT32_MAX) as Hpu by flia.
  destruct (decide (clear_of S E o)) as [Hcl|Hcl].
  { assert ((ext_end o <=? S) || (E <=? startBlock o) = true) as ->
      by (unfold clear_of in Hcl; apply orb_true_iff; lia).
    rewrite u32_id by lia. destruct (IH m (pre ++ [o]) post) as (m' & El & Hp); try done.
    - by rewrite <- app_assoc.
    - apply Forall_app. split; [done|]. by constructor.
    - simpl in Hf. lia.
    - exists m'. split; [|done]. rewrite <- El. f_equal. rewrite length_app. simpl. lia. }
  assert ((ext_end o <=? S) || (E <=? startBlock o) = false) as ->
    by (unfold clear_of in Hcl; apply orb_false_iff; lia).
  destruct ((S <=? startBlock o) && (ext_end o <=? E)) eqn:Ec.
  { apply andb_true_iff in Ec as [E1 E2]. apply Z.leb_le in E1, E2.
    rewrite u32_pred_succ by lia.
    destruct (remove_free_extent_list_view m pre o post) as (Hok1 & Hs1 & Ev1); try done.
    set (m1 := remove_free_extent_list m (Z.of_nat (length pre))) in *.
    assert (cache_inv m1) as Hinv1.
    { pose proof Hs1 as [Hfl Ha]. split; [done | by rewrite Ha |].
      rewrite Ev1, Ha, (same_mount_sparse m m1) by done.
      rewrite Ev in Hl. apply fe_list_ok_middle in Hl as (Hl & _). done. }
    destruct (IH m1 pre post Hinv1 Ev1 Hpre) as (m' & El & Hp); [simpl in Hf; lia|].
    exists m'. split; [done|]. apply (cut_post_trans S E m m1); try done.
    - pose proof (fe_view_length _ Hok1) as Hl1. rewrite Ev1, length_app in Hl1. lia.
    - intros b. rewrite Ev1, Ev, !cached_app, cached_cons. tauto.
    - intros b. rewrite Ev1, Ev, !cached_app, cached_cons. unfold in_ext.
      intros [?|[?|?]] ?; [tauto | lia | tauto]. }
  destruct ((startBlock o <? S) && (E <? ext_end o)) eqn:Es.
  { apply andb_true_iff in Es as [E1 E2]. apply Z.ltb_lt in E1, E2.
    eexists. split; [done|]. apply (cut_split S E m pre o post); (lia || done). }
  set (e := if startBlock o <? S then _ else _).
  assert (ext_ok (allocLimit m) e /\ sub_ext e o /\ clear_of S E e /\
    forall b, in_ext b e <-> in_ext b o /\ ~ S <= b < E) as (He & Hsub & Hce & Hbe).
  { subst e. unfold clear_of, ext_ok, sub_ext, in_ext, ext_end in *.
    destruct (Z.ltb_spec (startBlock o) S); simpl in *; zcases_in_hyps;
      split_and!; try lia; intros; lia. }
  destruct (reinsert_part m pre o post e Hinv Ev He Hsub) as (k & q & -> & Er & Ev2 & Hinv2 & Hs2 & Hc2).
  set (r := add_free_extent_list _ _ _) in *. rewrite Er.
  assert (forall b, cached b (fe_view r.1) -> cached b (fe_view m)) as Hsu.
  { intros b. specialize (Hbe b). rewrite Ev2, Ev, !cached_app, !cached_cons, cached_app. tauto. }
  assert (forall b, cached b (fe_view m) -> ~ S <= b < E -> cached b (fe_view r.1)) as Hke.
  { intros b. specialize (Hbe b). rewrite Ev2, Ev, !cached_app, !cached_cons, cached_app. tauto. }
  destruct k as [|d k].
  - rewrite app_nil_r. destruct (Z.ltb_spec (Z.of_nat (length pre)) (Z.of_nat (length pre))); [lia|].
    rewrite u32_id by lia. destruct (IH r.1 (pre ++ [e]) q) as (m' & El & Hp); try done.
    + by rewrite <- app_assoc.
    + apply Forall_app. split; [done|]. by constructor.
    + simpl in Hf. lia.
    + exists m'. split; [|apply (cut_post_trans S E m r.1); try done; lia].
      rewrite <- El. f_equal. rewrite length_app. simpl. lia.
  - rewrite length_app. simpl. destruct (Z.ltb_spec (Z.of_nat (length pre)) (Z.of_nat (length pre + Datatypes.S (length k)))); [|lia].
    rewrite u32_pred_succ by lia. destruct (IH r.1 pre ((d :: k) ++ e :: q)) as (m' & El & Hp); try done.
    + rewrite !n_over_app, !n_over_cons in *.
      destruct (decide (clear_of S E e)); [|done]. rewrite !length_app in *. simpl in *. rewrite length_app in Hf. lia.
    + exists m'. split; [done|]. apply (cut_post_trans S E m r.1); try done; lia.
Qed.

(** ** Adding a run of blocks *)

Definition run_ext (S E : Z) : HFSPlusExtentDescriptor := mkExtent S (E - S).

Lemma in_run_ext b S E : in_ext b (run_ext S E) <-> S <= b < E.
Proof. unfold in_ext, ext_end. simpl. lia. Qed.

Lemma remove_keeps_inv m pre o post :
  cache_inv m -> fe_view m = pre ++ o :: post ->
  let m1 := remove_free_extent_list m (Z.of_nat (length pre)) in
  cache_inv m1 /\ same_mount m m1 /\ fe_view m1 = pre ++ post /\
  vcbFreeExtCnt m1 = vcbFreeExtCnt m - 1.
Proof.
  intros [Hok Hlim Hl] Ev m1.
  destruct (remove_free_extent_list_view m pre o post Hok Ev) as (Hok1 & Hs1 & Ev1).
  fold m1 in Hok1, Hs1, Ev1. split_and!; try done.
  - pose proof Hs1 as [Hfl Ha]. split; [done | by rewrite Ha |].
    rewrite Ev1, Ha, (same_mount_sparse m m1) by done.
    rewrite Ev in Hl. apply fe_list_ok_middle in Hl as (Hl & _). done.
  - pose proof (fe_view_length m Hok) as L. pose proof (fe_view_length m1 Hok1) as L1.
    rewrite Ev, length_app in L. rewrite Ev1, length_app in L1. simpl in L.
    destruct Hok, Hok1. lia.
Qed.

(** The merging pass: everything it absorbs is in the resulting run, and what
    it leaves in the cache is apart from the run. *)
Lemma add_cache_loop_spec fuel m pre rest S E :
  0 <= S < E -> E <= allocLimit m -> cache_inv m -> fe_view m = pre ++ rest ->
  Forall (apart (run_ext S E)) pre -> (length rest < fuel)%nat ->
  exists m' S' E',
    add_cache_loop fuel m S E (Z.of_nat (length pre)) = Some (m', S', E') /\
    cache_inv m' /\ same_mount m m' /\ vcbFreeExtCnt m' <= vcbFreeExtCnt m /\
    0 <= S' < E' /\ E' <= allocLimit m /\
    Forall (apart (run_ext S' E')) (fe_view m') /\
    forall b, S' <= b < E' \/ cached b (fe_view m') <-> S <= b < E \/ cached b (fe_view m).
Proof.
  revert m pre rest S E. induction fuel as [|fuel IH]; intros m pre rest S E HSE HE Hinv Ev Hpre Hf; [lia|].
  simpl. pose proof Hinv as [Hok Hlim Hl]. pose proof (fe_view_length m Hok) as Hlen.
  rewrite Ev, length_app in Hlen. pose proof Hok as [_ Hcnt].
  destruct rest as [|o post].
  { simpl in Hlen. destruct (Z.ltb_spec (Z.of_nat (length pre)) (vcbFreeExtCnt m)); [lia|].
    rewrite app_nil_r in Ev. exists m, S, E. split_and!; try done; try lia. by rewrite Ev. }
  simpl in Hlen. destruct (Z.ltb_spec (Z.of_nat (length pre)) (vcbFreeExtCnt m)); [|lia].
  rewrite (fe_view_at m pre o post Ev).
  pose proof Hl as Hl'. rewrite Ev in Hl'. apply fe_list_ok_middle in Hl' as (_ & Ho & Hap & _ & _).
  change (startBlock o + blockCount o) with (ext_end o).
  rewrite (u32_id (ext_end o)) by (unfold ext_ok in *; unfold ext_end in *; lia).
  assert (Z.of_nat (length pre) + 1 <= UINT32_MAX) as Hpu by flia.
  destruct ((E <? startBlock o) || (ext_end o <? S)) eqn:Ek.
  { rewrite u32_id by lia.
    destruct (IH m (pre ++ [o]) post S E) as (m' & S' & E' & El & H'); try done.
    - by rewrite <- app_assoc.
    - apply Forall_app. split; [done|]. constructor; [|constructor].
      apply orb_true_iff in Ek. unfold apart, ext_end in *. simpl. lia.
    - simpl in Hf. lia.
    - exists m', S', E'. split; [|done]. rewrite <- El. f_equal. rewrite length_app. simpl. lia. }
  apply orb_false_iff in Ek as [Ek1%Z.ltb_ge Ek2%Z.ltb_ge].
  destruct (remove_keeps_inv m pre o post Hinv Ev) as (Hinv1 & Hs1 & Ev1 & Hc1).
  rewrite u32_pred_succ by lia.
  set (S1 := if startBlock o <? S then startBlock o else S).
  set (E1 := if E <? ext_end o then ext_end o else E).
  assert (S1 = Z.min S (startBlock o) /\ E1 = Z.max E (ext_end o)) as [HS1 HE1].
  { subst S1 E1. destruct (Z.ltb_spec (startBlock o) S), (Z.ltb_spec E (ext_end o)); lia. }
  clearbody S1 E1. unfold ext_ok in Ho.
  destruct (IH (remove_free_extent_list m (Z.of_nat (length pre))) pre post S1 E1)
    as (m' & S' & E' & El & Hi & Hsm & Hc & Hb & Hlm & Hfa & Hbl); try done.
  - lia.
  - destruct Hs1 as [_ ->]. lia.
  - apply Forall_app in Hap as [Hap _]. rewrite Forall_forall in Hap, Hpre |- *.
    intros x Hx. specialize (Hap x Hx). specialize (Hpre x Hx).
    destruct Hl as [Hx' _ _]. rewrite Ev, Forall_app, Forall_forall in Hx'.
    destruct Hx' as [Hx' _]. specialize (Hx' x Hx).
    unfold ext_ok, apart, ext_end, run_ext in *. simpl in *. lia.
  - simpl in Hf. lia.
  - exists m', S', E'. split_and!; try done; try lia.
    + destruct Hs1, Hsm. split; congruence.
    + destruct Hs1 as [_ Ha]. rewrite Ha in Hlm. lia.
    + intros b. rewrite Hbl, Ev1, Ev, !cached_app, cached_cons.
      assert (S1 <= b < E1 <-> S <= b < E \/ in_ext b o) by (unfold in_ext; lia). tauto.
Qed.

(** ** The debug check *)

Lemma ext_at_lookup m i :
  array_ok m -> 0 <= i < vcbFreeExtCnt m -> fe_view m !! Z.to_nat i = Some (ext_at m i).
Proof.
  intros Hok Hi. unfold ext_at, fe_view. pose proof Hok as [Hl Hc].
  rewrite lookup_take_lt by lia. apply list_lookup_lookup_total_lt. flia.
Qed.

Lemma StronglySorted_lookup {A} (R : relation A) l (i j : nat) x y :
  StronglySorted R l -> (i < j)%nat -> l !! i = Some x -> l !! j = Some y -> R x y.
Proof.
  intros Hs Hij Hi Hj. rewrite <- (take_drop_middle l i x Hi) in Hs.
  apply StronglySorted_middle in Hs as (_ & _ & _ & Hx & _). rewrite Forall_forall in Hx.
  apply Hx. apply list_elem_of_lookup. exists (j - S i)%nat. rewrite lookup_drop.
  replace (S i + (j - S i))%nat with j by lia. done.
Qed.

Lemma sanity_check_entry_ok m i :
  cache_inv m -> 0 <= i < vcbFreeExtCnt m -> sanity_check_entry m i = true.
Proof.
  intros [Hok Hlim [Hv Ha Hs]] Hi. unfold sanity_check_entry.
  pose proof (ext_at_lookup m i Hok Hi) as Ei.
  assert (ext_ok (allocLimit m) (ext_at m i)) as He
    by (rewrite Forall_forall in Hv; apply Hv, list_elem_of_lookup; eauto).
  unfold ext_ok, ext_end in He. rewrite u32_id by lia.
  rewrite !andb_true_iff. split_and!.
  - zcases.
  - apply forallb_forall. intros j Hj%list_elem_of_In. apply elem_of_seqZ in Hj.
    pose proof (ext_at_lookup m j Hok ltac:(lia)) as Ej.
    pose proof (StronglySorted_lookup _ _ (Z.to_nat i) (Z.to_nat j) _ _ Ha ltac:(lia) Ei Ej) as Hap.
    rewrite Forall_forall in Hv.
    assert (ext_ok (allocLimit m) (ext_at m j)) as Hej by (apply Hv, list_elem_of_lookup; eauto).
    unfold apart, ext_ok, ext_end in *. zcases.
  - destruct Hok as [Hl Hc]. rewrite u32_id by flia.
    destruct (Z.eqb_spec (i + 1) (vcbFreeExtCnt m)); [done|].
    pose proof (ext_at_lookup m (i + 1) (conj Hl Hc) ltac:(lia)) as Ej.
    pose proof (StronglySorted_lookup _ _ (Z.to_nat i) (Z.to_nat (i + 1)) _ _ Hs ltac:(lia) Ei Ej) as Ho.
    unfold ext_order in Ho. destruct (is_sparse m); zcases.
Qed.

Lemma ResetVCBFreeExtCache_inv m :
  allocLimit m <= UINT32_MAX -> cache_inv (ResetVCBFreeExtCache m).
Proof.
  intros Hl. split; [|done|].
  - split; [done | unfold kMaxFreeExtents; simpl; lia].
  - unfold fe_view. simpl. split; constructor.
Qed.

(** ** Properties *)

Definition cached_in (m : hfsmount) (b : Z) : Prop := cached b (fe_view m).

Lemma remove_free_extent_cache_spec (m : hfsmount) (start count : Z) :
  cache_inv m -> 0 <= start -> 0 < count -> start + count <= UINT32_MAX ->
  exists m', remove_free_extent_cache m start count = Some m' /\ cache_inv m' /\ same_mount m m' /\
    (forall b, cached_in m' b -> cached_in m b /\ ~ start <= b < start + count) /\
    (vcbFreeExtCnt m < kMaxFreeExtents ->
     forall b, cached_in m' b <-> cached_in m b /\ ~ start <= b < start + count).
Proof.
  intros Hinv Hs Hc Hb. unfold remove_free_extent_cache. rewrite u32_id by lia.
  destruct (remove_cache_loop_spec start (start + count) cache_fuel m [] (fe_view m))
    as (m' & El & [Hi Hsm Hcl Hsub Hkeep]); try done; try lia.
  - pose proof (n_over_le start (start + count) (fe_view m)).
    pose proof (fe_view_length m (ci_array m Hinv)). destruct (ci_array m Hinv).
    unfold cache_fuel. flia.
  - exists m'. unfold cached_in. split_and!; try done.
    + intros b Hb'. split; [by apply Hsub | by apply (clear_not_cached _ _ (fe_view m'))].
    + intros Hlt b. split; [|by intros [? ?]; apply Hkeep].
      intros Hb'. split; [by apply Hsub | by apply (clear_not_cached _ _ (fe_view m'))].
Qed.

(** C40: removing a run of blocks from a well-formed free extent cache
    terminates (the loop's index juggling included), keeps the cache sorted,
    bounded and pairwise non-contiguous, leaves no cached block inside the run,
    caches no new block, and loses no block outside the run unless the array was
    full. *)
Theorem remove_free_extent_cache_correct (m : hfsmount) (start count : Z) :
  cache_inv m -> 0 <= start -> 0 < count -> start + count <= UINT32_MAX ->
  exists m', remove_free_extent_cache m start count = Some m' /\ cache_inv m' /\
    (forall b, cached_in m' b -> cached_in m b /\ ~ start <= b < start + count) /\
    (vcbFreeExtCnt m < kMaxFreeExtents ->
     forall b, cached_in m' b <-> cached_in m b /\ ~ start <= b < start + count).
Proof.
  intros Hinv Hs Hc Hb. destruct (remove_free_extent_cache_spec m start count Hinv Hs Hc Hb) as (m' & E & Hi & _ & H). by exists m'.
Qed.

Lemma add_free_extent_cache_spec (m : hfsmount) (start count : Z) :
  cache_inv m -> 0 <= start -> 0 < count -> start + count <= UINT32_MAX ->
  let added b := start <= b < Z.min (start + count) (allocLimit m) in
  exists m' retval, add_free_extent_cache m start count = Some (m', retval) /\ retval = false /\ cache_inv m' /\ same_mount m m' /\
    (forall b, cached_in m' b -> cached_in m b \/ added b) /\
    (vcbFreeExtCnt m < kMaxFreeExtents ->
     forall b, cached_in m' b <-> cached_in m b \/ added b).
Proof.
  intros Hinv Hs Hc Hb added. unfold add_free_extent_cache, cached_in.
  destruct (Z.leb_spec (allocLimit m) start).
  { exists m, false. unfold added. split; [done|]. split; [done|]. split; [done|]. split; [by split|]. split; [tauto|]. intros _ b. intuition lia. }
  rewrite (u32_id (start + count)) by lia.
  set (count' := if allocLimit m <? start + count then u32 (allocLimit m - start) else count).
  pose proof Hinv as [Hok Hlim _].
  assert (start + count' = Z.min (start + count) (allocLimit m)) as Ec.
  { subst count'. destruct (Z.ltb_spec (allocLimit m) (start + count)); [|lia].
    rewrite u32_id by lia. lia. }
  rewrite (u32_id (start + count')) by lia.
  destruct (add_cache_loop_spec cache_fuel m [] (fe_view m) start (start + count'))
    as (m' & S' & E' & El & Hi & Hsm & Hcn & Hb' & Hlm & Hfa & Hbl); try done; try lia.
  { pose proof (fe_view_length m Hok). destruct Hok. unfold cache_fuel. flia. }
  simpl length in El. change (Z.of_nat 0) with 0 in El. rewrite El, u32_id by lia.
  eexists _, false. split; [done|]. split; [done|].
  destruct (add_apart m' (run_ext S' E') Hi) as (p & q & Epq & Ev & Hi' & Hsm'); [|done|].
  { destruct Hsm as [_ ->]. unfold ext_ok, ext_end. simpl. lia. }
  simpl in Ev, Hi', Hsm'.
  assert (forall b, cached b (p ++ run_ext S' E' :: q) <-> cached b (fe_view m) \/ added b) as Hu.
  { intros b. specialize (Hbl b). rewrite Epq, cached_app in Hbl.
    rewrite cached_app, cached_cons, in_run_ext. unfold added. rewrite <- Ec. tauto. }
  split; [done|]. split; [destruct Hsm, Hsm'; split; congruence|]. split.
  - intros b. rewrite Ev. intros Hx%cached_take. by apply Hu.
  - intros Hlt b. rewrite Ev, take_ge; [apply Hu|].
    pose proof (fe_view_length m' (ci_array m' Hi)) as L. rewrite Epq, length_app in L.
    rewrite length_app. simpl. flia.
Qed.

(** A run takes at most one more slot. *)
Lemma add_free_extent_cache_count (m m' : hfsmount) (start count : Z) r :
  cache_inv m -> 0 <= start -> 0 < count -> start + count <= UINT32_MAX ->
  add_free_extent_cache m start count = Some (m', r) -> vcbFreeExtCnt m' <= vcbFreeExtCnt m + 1.
Proof.
  intros Hinv Hs Hc Hb. unfold add_free_extent_cache. pose proof Hinv as [Hok Hlim _].
  destruct (Z.leb_spec (allocLimit m) start); [intros [= <- _]; lia|]. rewrite (u32_id (start + count)) by lia.
  set (count' := if allocLimit m <? start + count then u32 (allocLimit m - start) else count).
  assert (start + count' = Z.min (start + count) (allocLimit m)) as Ec.
  { subst count'. destruct (Z.ltb_spec (allocLimit m) (start + count)); [|lia]. rewrite u32_id by lia. lia. }
  rewrite (u32_id (start + count')) by lia.
  destruct (add_cache_loop_spec cache_fuel m [] (fe_view m) start (start + count')) as (m1 & S' & E' & El & Hi & _ & Hcn & _); try done; try lia.
  { pose proof (fe_view_length m Hok). destruct Hok. unfold cache_fuel. flia. }
  simpl length in El. change (Z.of_nat 0) with 0 in El. rewrite El. intros [= <- _].
  destruct (ci_array m1 Hi) as [_ Hcnt]. unfold add_free_extent_list. destruct (_ =? kMaxFreeExtents); cbn; [lia|].
  destruct (Z.ltb_spec (vcbFreeExtCnt m1) kMaxFreeExtents); [|lia]. rewrite u32_id by flia. lia.
Qed.

(** adding a freed run to a well-formed cache terminates, keeps the
    invariant (in particular the run is merged with everything it overlaps or
    touches, and clipped to [allocLimit]), and never caches a block that was
    neither cached nor in the run; with a free array slot it caches exactly
    their union. *)
Theorem add_free_extent_cache_correct (m : hfsmount) (start count : Z) :
  cache_inv m -> 0 <= start -> 0 < count -> start + count <= UINT32_MAX ->
  let added b := start <= b < Z.min (start + count) (allocLimit m) in
  exists m' retval, add_free_extent_cache m start count = Some (m', retval) /\ cache_inv m' /\
    (forall b, cached_in m' b -> cached_in m b \/ added b) /\
    (vcbFreeExtCnt m < kMaxFreeExtents ->
     forall b, cached_in m' b <-> cached_in m b \/ added b).
Proof.
  intros Hinv Hs Hc Hb. destruct (add_free_extent_cache_spec m start count Hinv Hs Hc Hb) as (m' & r & E & _ & Hi & _ & H).
  by exists m', r.
Qed.

(** The code's own debug check never panics on a well-formed cache: the
    count is in range, every extent ends at or before [allocLimit], no two
    entries start at the same block and the entries are in order. *)
Theorem sanity_check_free_ext_passes (m : hfsmount) :
  cache_inv m -> sanity_check_free_ext m = true.
Proof.
  intros Hinv. unfold sanity_check_free_ext. apply andb_true_iff. split.
  - destruct Hinv as [[_ Hc] _ _]. destruct (Z.ltb_spec kMaxFreeExtents (vcbFreeExtCnt m)); [lia | done].
  - apply forallb_forall. intros i Hi%list_elem_of_In. apply elem_of_seqZ in Hi.
    apply sanity_check_entry_ok; [done | lia].
Qed.

(** A cache built by the operations themselves, for the witnesses. *)
Definition example_mount : hfsmount := ResetVCBFreeExtCache (mkMount [] 0 0 1000).

Lemma example_mount_inv : cache_inv example_mount.
Proof. apply ResetVCBFreeExtCache_inv. simpl. unfold UINT32_MAX. lia. Qed.

(** A cache with the blocks 10 to 29 and 50 to 54. *)
Definition example_adds : option (hfsmount * bool) :=
  match add_free_extent_cache example_mount 10 20 with
  | Some (m, _) => add_free_extent_cache m 50 5
  | None => None
  end.
Definition example_filled : hfsmount := match example_adds with Some (m, _) => m | None => example_mount end.

Lemma example_add m start count m' r :
  cache_inv m -> 0 <= start -> 0 < count -> start + count <= UINT32_MAX ->
  add_free_extent_cache m start count = Some (m', r) -> cache_inv m'.
Proof.
  intros Hm Hs Hc Hb E. destruct (add_free_extent_cache_spec m start count Hm Hs Hc Hb) as (m1 & r1 & E1 & _ & Hi & _).
  rewrite E1 in E. by injection E as <- _.
Qed.

Lemma example_filled_inv : cache_inv example_filled.
Proof.
  unfold example_filled, example_adds. pose proof example_mount_inv as Hi. revert Hi. generalize example_mount. intros m Hi.
  destruct (add_free_extent_cache m 10 20) as [[m1 r1]|] eqn:E1; [|done].
  pose proof (example_add m 10 20 m1 r1 Hi ltac:(lia) ltac:(lia) ltac:(unfold UINT32_MAX; lia) E1) as Hi1.
  destruct (add_free_extent_cache m1 50 5) as [[m2 r2]|] eqn:E2; [|done].
  exact (example_add m1 50 5 m2 r2 Hi1 ltac:(lia) ltac:(lia) ltac:(unfold UINT32_MAX; lia) E2).
Qed.

(** The run 15 to 51 is removed: it cuts both extents, of which 10 to 14, 52 to 54 and
    nothing else remain. *)
Lemma remove_free_extent_cache_correct_witness :
  fe_view example_filled = [mkExtent 10 20; mkExtent 50 5] /\
  exists m', remove_free_extent_cache example_filled 15 37 = Some m' /\ cache_inv m' /\
    cached_in m' 14 /\ ~ cached_in m' 15 /\ ~ cached_in m' 51 /\ cached_in m' 52.
Proof.
  pose proof example_filled_inv as Hi0.
  assert (fe_view example_filled = [mkExtent 10 20; mkExtent 50 5]) as Ev by (vm_compute; reflexivity).
  assert (vcbFreeExtCnt example_filled < kMaxFreeExtents) as Hlt by (vm_compute; reflexivity).
  revert Hi0 Ev Hlt. generalize example_filled. intros m0 Hi0 Ev Hlt. split; [exact Ev|].
  destruct (remove_free_extent_cache_correct m0 15 37 Hi0) as (m' & E & Hi & _ & Hb); [lia | lia | unfold UINT32_MAX; lia |].
  exists m'. split; [exact E|]. split; [exact Hi|]. rewrite !(Hb Hlt). unfold cached_in. rewrite Ev, !cached_cons.
  unfold in_ext, ext_end. cbn [startBlock blockCount]. lia.
Defined.

Lemma add_free_extent_cache_correct_witness :
  exists m' r, add_free_extent_cache example_mount 10 5 = Some (m', r) /\ cache_inv m' /\
    cached_in m' 12.
Proof.
  destruct (add_free_extent_cache_correct example_mount 10 5 example_mount_inv)
    as (m' & r & E & Hi & _ & Hb); [lia | lia | unfold UINT32_MAX; lia |].
  exists m', r. split_and!; [done | done |].
  apply Hb; [reflexivity|]. right. vm_compute. split; [discriminate | reflexivity].
Defined.

Lemma sanity_check_free_ext_passes_witness : sanity_check_free_ext example_mount = true.
Proof. apply sanity_check_free_ext_passes, example_mount_inv. Defined.

(** [add_free_extent_cache] reports [false] on every path, also when the
    extent was inserted. *)
Theorem add_free_extent_cache_returns_false (m m' : hfsmount) (start count : Z) (r : bool) :
  add_free_extent_cache m start count = Some (m', r) -> r = false.
Proof.
  unfold add_free_extent_cache. destruct (_ <=? _); [by intros [= _ <-]|].
  destruct (add_cache_loop _ _ _ _ _) as [[[? ?] ?]|]; [by intros [= _ <-] | done].
Qed.

Lemma add_free_extent_cache_returns_false_witness :
  exists m', add_free_extent_cache example_mount 10 5 = Some (m', false) /\ cached_in m' 12.
Proof.
  destruct (add_free_extent_cache example_mount 10 5) as [[m' r]|] eqn:E; [|by vm_compute in E].
  pose proof (add_free_extent_cache_returns_false _ _ _ _ _ E) as ->.
  exists m'. split; [done|]. vm_compute in E. injection E as <-.
  exists (mkExtent 10 5). split; [left | vm_compute; split; [discriminate | reflexivity]].
Defined.
