(* ===== verification/Bitmap.v ===== *)
(** * The volume bitmap (core/VolumeAllocation.c)

    Marking runs of allocation blocks in the bitmap, clearing them and testing
    them.  The bitmap is read in blocks of vcbVBMIOSize bytes; its 32-bit words are
    kept here with the value SWAP_BE32 gives them, so that the bit of allocation
    block [b] is bit [31 - b mod 32] of word [b / 32].

    buf_meta_bread and the release of a buffer belong to the kernel: what they
    return is taken from the list [vb_io] of results to come, success when it is
    empty.  A result of [None] is a fault: an access outside of a buffer. *)

From S2P Require Import Prelude HfsFormat RangeList.

Definition kBytesPerWord : Z := 4.
Definition kBitsPerByte : Z := 8.
Definition kBitsPerWord : Z := 32.
Definition kLowBitInWordMask : Z := 1.
Definition kHighBitInWordMask : Z := 0x80000000.
Definition kAllBitsSetInWord : Z := 0xFFFFFFFF.

(** [~ x] on 32 bits. *)
Definition not32 (x : Z) : Z := u32 (Z.lnot x).

(** ** State *)

Record vbm := mkVbm {
  vb_words : list Z;
  vb_iosize : Z;                (* vcbVBMIOSize *)
  vb_totalBlocks : Z;
  vb_tentative : list rl_entry; (* hfs_reserved_ranges[HFS_TENTATIVE_BLOCKS] *)
  vb_locked : list rl_entry;    (* hfs_reserved_ranges[HFS_LOCKED_BLOCKS] *)
  vb_inconsistent : bool;       (* hfs_mark_inconsistent was called *)
  vb_io : list Z;
}.

Definition vb_with_words (v : list Z) (s : vbm) : vbm :=
  mkVbm v (vb_iosize s) (vb_totalBlocks s) (vb_tentative s) (vb_locked s) (vb_inconsistent s) (vb_io s).
Definition vb_with_io (v : list Z) (s : vbm) : vbm :=
  mkVbm (vb_words s) (vb_iosize s) (vb_totalBlocks s) (vb_tentative s) (vb_locked s) (vb_inconsistent s) v.
Definition hfs_mark_inconsistent (s : vbm) : vbm :=
  mkVbm (vb_words s) (vb_iosize s) (vb_totalBlocks s) (vb_tentative s) (vb_locked s) true (vb_io s).

Definition VB (A : Type) : Type := vbm -> option (A * vbm).

#[export] Instance VB_ret : MRet VB := fun A x s => Some (x, s).
#[export] Instance VB_bind : MBind VB := fun A B f m s =>
  match m s with
  | Some (x, s') => f x s'
  | None => None
  end.

Definition vb_state : VB vbm := fun s => Some (s, s).
Definition vb_modify (f : vbm -> vbm) : VB unit := fun s => Some (tt, f s).
Definition vb_lift {A} (o : option A) : VB A := fun s => (fun x => (x, s)) <$> o.
Definition vb_result : VB Z := fun s =>
  match vb_io s with
  | [] => Some (noErr, s)
  | e :: io => Some (e, vb_with_io io s)
  end.

Definition bitsPerBlock (s : vbm) : Z := u32 (vb_iosize s * kBitsPerByte).
Definition wordsPerBlock (s : vbm) : Z := vb_iosize s / kBytesPerWord.

(** ** Reservations *)

(** The masks of bits_set, on the 64-bit value of a quad. *)
Definition ALL64 : Z := 0xffffffffffffffff.
Definition LEFT_MASK (bit : Z) : Z := u64 (Z.shiftl ALL64 (64 - bit)).
Definition RIGHT_MASK (bit : Z) : Z := Z.shiftr ALL64 bit.

Fixpoint fill_quads (quads : list Z) (p : nat) (nquads : nat) : option (list Z) :=
  match nquads with
  | O => Some quads
  | S nquads => _ ← quads !! p; fill_quads (<[p := ALL64]> quads) (S p) nquads
  end.

(** [quads]: the bitmap as big-endian 64-bit words. *)
Definition bits_set (quads : list Z) (start end_ : Z) : option (list Z) :=
  let start_bit := Z.land start 63 in
  let end_bit := Z.land end_ 63 in
  let p := Z.to_nat (start / 64) in
  q ← quads !! p;
  if Z.land start (Z.lnot 63) =? Z.land end_ (Z.lnot 63) then
    Some (<[p := Z.lor q (Z.land (RIGHT_MASK start_bit) (LEFT_MASK end_bit))]> quads)
  else
    let quads := <[p := Z.lor q (RIGHT_MASK start_bit)]> quads in
    let nquads := Z.to_nat (Z.quot (end_ - end_bit - start - 1) 64) in
    quads ← fill_quads quads (S p) nquads;
    let p := (S p + nquads)%nat in
    if negb (end_bit =? 0) then q ← quads !! p; Some (<[p := Z.lor q (LEFT_MASK end_bit)]> quads)
    else Some quads.

(** The words of a buffer as quads, and back. *)
Fixpoint to_quads (ws : list Z) : list Z :=
  match ws with
  | w1 :: w2 :: ws => Z.lor (Z.shiftl w1 32) w2 :: to_quads ws
  | _ => []
  end.
Definition of_quads (qs : list Z) : list Z := concat ((fun q => [Z.shiftr q 32; Z.land q 0xFFFFFFFF]) <$> qs).

(** The entries of one queue applied to a buffer that starts at bit [offset];
    the boolean says that the whole buffer was set and the work is done. *)
Fixpoint process_entries (entries : list rl_entry) (quads : list Z) (offset end_ : Z) : option (bool * list Z) :=
  match entries with
  | [] => Some (false, quads)
  | entry :: entries =>
      let set a b :=
        let a := u32 (u32 a - offset) in
        let b := u32 (u32 b - offset) in
        quads ← bits_set quads a (b + 1);
        process_entries entries quads offset end_ in
      match rangelist.rl_overlap entry offset end_ with
      | RL_NOOVERLAP => process_entries entries quads offset end_
      | RL_OVERLAPCONTAINSRANGE | RL_MATCHINGOVERLAP => Some (true, (fun _ => ALL64) <$> quads)
      | RL_OVERLAPISCONTAINED => set (rl_start entry) (rl_end entry)
      | RL_OVERLAPSTARTSBEFORE => set offset (rl_end entry)
      | RL_OVERLAPENDSAFTER => set (rl_start entry) end_
      end
  end.

(** The buffer with the reservations in it: a copy, the bitmap does not change. *)
Definition process_reservations (s : vbm) (buffer : list Z) (offset : Z) (ignore_tentative : bool) : option (list Z) :=
  let nbytes := kBytesPerWord * Z.of_nat (length buffer) in
  let end_ := offset + nbytes * 8 - 1 in
  let quads := to_quads buffer in
  '(done, quads) ← (if ignore_tentative then Some (false, quads)
                    else process_entries (vb_tentative s) quads offset end_);
  if (done : bool) then Some (of_quads quads) else
  '(_, quads) ← process_entries (vb_locked s) quads offset end_;
  Some (of_quads quads).

(** ** Bitmap blocks *)

(** Which reservations ReadBitmapBlock puts in the buffer (its flags). *)
Inductive reservations := IgnoreReserved | IgnoreTentative | WithReserved.

(** The buffer of bitmap block [block]. *)
Definition block_buffer (s : vbm) (flags : reservations) (block : Z) : option (list Z) :=
  let n := Z.to_nat (wordsPerBlock s) in
  let buffer := take n (drop (Z.to_nat block * n) (vb_words s)) in
  if bool_decide (length buffer = n) then
    match flags with
    | IgnoreReserved => Some buffer
    | IgnoreTentative => process_reservations s buffer (block * vb_iosize s * 8) true
    | WithReserved => process_reservations s buffer (block * vb_iosize s * 8) false
    end
  else None.

(** The error and the block whose buffer was got. *)
Definition ReadBitmapBlock (bit : Z) : VB (Z * option Z) :=
  s ← vb_state;
  let block := bit / u32 (vb_iosize s * kBitsPerByte) in
  err ← vb_result;
  if negb (err =? noErr) then mret (err, None) else mret (noErr, Some block).

Definition ReleaseBitmapBlock : VB Z := vb_result.

(** ** Walking over the words of a run of blocks

    BlockMarkAllocatedInternal, BlockMarkFreeInternal and hfs_isallocated_internal
    go over the words of a run in the same way: the bits of a first word that is not
    whole, whole words, the bits of a last word, with the next bitmap block read
    when the words of the current one are used up.  What they do with a word is a
    [word_op]: go on, with a new value for the word or not, or leave with an error
    code. *)

Inductive word_step (A : Type) :=
  | Go (new : option Z) (acc : A)
  | Leave (err : Z) (acc : A).
Arguments Go {A}.
Arguments Leave {A}.

Record word_op (A : Type) := mkOp {
  op_bits : Z -> Z -> A -> word_step A;  (* the mask and the word *)
  op_word : Z -> A -> word_step A;       (* a whole word *)
}.
Arguments mkOp {A}.
Arguments op_bits {A}.
Arguments op_word {A}.

(** currentWord: a bitmap block and the index of a word in its buffer; wordsLeft,
    and the block number that is moved on with each bitmap block. *)
Record cursor := mkCursor { cu_block : Z; cu_index : Z; cu_left : Z; cu_start : Z }.

(** The outcome of a walk: the error, what was accumulated, and where the cursor
    is; the buffer is held unless reading or releasing a block failed. *)
Record walked (A : Type) := mkWalked { wk_err : Z; wk_acc : A; wk_held : option cursor }.
Arguments mkWalked {A}.
Arguments wk_err {A}.
Arguments wk_acc {A}.
Arguments wk_held {A}.

Section Walk.
Context {A : Type} (flags : reservations) (op : word_op A).

Definition load_word (c : cursor) : VB Z :=
  s ← vb_state;
  buffer ← vb_lift (block_buffer s flags (cu_block c));
  vb_lift (if 0 <=? cu_index c then buffer !! Z.to_nat (cu_index c) else None).

(** The buffer of a block got with IgnoreReserved is the one of the cache: a store
    goes to the bitmap. *)
Definition store_word (c : cursor) (w : Z) : VB unit :=
  s ← vb_state;
  vb_modify (vb_with_words (<[Z.to_nat (cu_block c * wordsPerBlock s + cu_index c) := w]> (vb_words s))).

(** One word: go on with [k], or leave. *)
Definition do_word (c : cursor) (f : Z -> A -> word_step A) (acc : A) (k : A -> VB (walked A)) : VB (walked A) :=
  w ← load_word c;
  match f w acc with
  | Go (Some w') acc => _ ← store_word c w'; k acc
  | Go None acc => k acc
  | Leave err acc => mret (mkWalked err acc (Some c))
  end.

(** Read in the next bitmap block when no words are left in this one. *)
Definition next_buffer (c : cursor) (acc : A) (k : cursor -> VB (walked A)) : VB (walked A) :=
  if negb (cu_left c =? 0) then k c else
  s ← vb_state;
  let startingBlock := u32 (cu_start c + bitsPerBlock s) in
  err ← ReleaseBitmapBlock;
  if negb (err =? noErr) then mret (mkWalked err acc None) else
  '(err, block) ← ReadBitmapBlock startingBlock;
  match block with
  | None => mret (mkWalked err acc None)
  | Some block => k (mkCursor block 0 (wordsPerBlock s) startingBlock)
  end.

Definition next_word (c : cursor) : cursor :=
  mkCursor (cu_block c) (cu_index c + 1) (u32 (cu_left c - 1)) (cu_start c).

(** The remaining blocks, fewer than a word. *)
Definition walk_rest (c : cursor) (numBlocks : Z) (acc : A) : VB (walked A) :=
  if numBlocks =? 0 then mret (mkWalked noErr acc (Some c)) else
  let bitMask := not32 (Z.shiftr kAllBitsSetInWord numBlocks) in
  next_buffer c acc (fun c =>
  do_word c (op_bits op bitMask) acc (fun acc => mret (mkWalked noErr acc (Some c)))).

(** Whole words, 32 blocks at a time. *)
Fixpoint walk_words (c : cursor) (numBlocks : Z) (acc : A) (fuel : nat) : VB (walked A) :=
  match fuel with
  | O => fun _ => None
  | S fuel =>
      if kBitsPerWord <=? numBlocks then
        next_buffer c acc (fun c =>
        do_word c (op_word op) acc (fun acc =>
        walk_words (next_word c) (u32 (numBlocks - kBitsPerWord)) acc fuel))
      else walk_rest c numBlocks acc
  end.

(** Each turn takes 32 blocks off. *)
Definition walk (c : cursor) (startingBlock numBlocks : Z) (acc : A) : VB (walked A) :=
  let words c numBlocks acc := walk_words c numBlocks acc (S (Z.to_nat (numBlocks / kBitsPerWord))) in
  let firstBit := startingBlock mod kBitsPerWord in
  if firstBit =? 0 then words c numBlocks acc else
  let bitMask := Z.shiftr kAllBitsSetInWord firstBit in
  let numBits := kBitsPerWord - firstBit in
  let '(numBits, bitMask) :=
    if numBlocks <? numBits
    then (numBlocks, Z.land bitMask (not32 (Z.shiftr kAllBitsSetInWord (firstBit + numBlocks))))
    else (numBits, bitMask) in
  do_word c (op_bits op bitMask) acc (fun acc => words (next_word c) (u32 (numBlocks - numBits)) acc).
End Walk.

(** The cursor at the word of [startingBlock], in the block just read. *)
Definition first_cursor (s : vbm) (block startingBlock : Z) : cursor :=
  let wordIndexInBlock := Z.land startingBlock (bitsPerBlock s - 1) / kBitsPerWord in
  mkCursor block wordIndexInBlock (wordsPerBlock s - wordIndexInBlock) startingBlock.

(** Exit: the buffer is released when it is held. *)
Definition walk_exit {A} (r : walked A) : VB unit :=
  match wk_held r with
  | Some _ => _ ← ReleaseBitmapBlock; mret tt
  | None => mret tt
  end.

(** ** BlockMarkAllocatedInternal *)

Definition set_op : word_op unit := mkOp
  (fun bitMask w _ => Go (Some (Z.lor w bitMask)) tt)
  (fun w _ => Go (Some kAllBitsSetInWord) tt).

(** [reserving]: HFS_ALLOC_LOCKED or HFS_ALLOC_TENTATIVE is set.  Telling the journal
    and the device about the blocks is not modelled. *)
Definition BlockMarkAllocatedInternal (startingBlock numBlocks : Z) (reserving : bool) : VB Z :=
  if reserving then mret noErr else
  '(err, block) ← ReadBitmapBlock startingBlock;
  match block with
  | None => mret err
  | Some block =>
      s ← vb_state;
      r ← walk IgnoreReserved set_op (first_cursor s block startingBlock) startingBlock numBlocks tt;
      _ ← walk_exit r;
      mret (wk_err r)
  end.

Definition BlockMarkAllocated (startingBlock numBlocks : Z) : VB Z :=
  BlockMarkAllocatedInternal startingBlock numBlocks false.

(** ** BlockMarkFreeInternal *)

(** The accumulator says that a block to free was not allocated. *)
Definition clear_op (do_validate : bool) : word_op bool := mkOp
  (fun bitMask w _ =>
     if do_validate && negb (Z.land w bitMask =? bitMask) then Leave EIO true
     else Go (Some (Z.land w (not32 bitMask))) false)
  (fun w _ =>
     if do_validate && negb (w =? kAllBitsSetInWord) then Leave EIO true
     else Go (Some 0) false).

(** The bounds of an unmap: no reserved range may be inside. *)
Fixpoint unmap_bounds (entries : list rl_entry) (startingBlock numBlocks min_unmap max_unmap : Z) : Z * Z :=
  match entries with
  | [] => (min_unmap, max_unmap)
  | range :: entries =>
      let min_unmap := if (rl_start range <? startingBlock) && (min_unmap <=? rl_end range)
                       then u32 (rl_end range + 1) else min_unmap in
      let max_unmap := if (u32 (startingBlock + numBlocks) <=? rl_end range) && (rl_start range <? max_unmap)
                       then u32 (rl_start range) else max_unmap in
      unmap_bounds entries startingBlock numBlocks min_unmap max_unmap
  end.

Definition cursor_at (c : cursor) (index : Z) : cursor := mkCursor (cu_block c) index (cu_left c) (cu_start c).

(** Free blocks before the run, up to the start of the bitmap block. *)
Fixpoint unmap_before (c : cursor) (bitMask min_unmap unmapStart unmapCount : Z) (fuel : nat) : VB (Z * Z) :=
  match fuel with
  | O => fun _ => None
  | S fuel =>
      if min_unmap <? unmapStart then
        let bitMask := u32 (Z.shiftl bitMask 1) in
        let '(c, bitMask) := if bitMask =? 0 then (cursor_at c (cu_index c - 1), kLowBitInWordMask) else (c, bitMask) in
        if cu_index c <? 0 then mret (unmapStart, unmapCount) else
        w ← load_word IgnoreReserved c;
        if negb (Z.land w bitMask =? 0) then mret (unmapStart, unmapCount)
        else unmap_before c bitMask min_unmap (u32 (unmapStart - 1)) (u32 (unmapCount + 1)) fuel
      else mret (unmapStart, unmapCount)
  end.

(** Free blocks after the run, up to the end of the bitmap block. *)
Fixpoint unmap_after (c : cursor) (bitMask wordsLeft max_unmap unmapStart unmapCount : Z) (fuel : nat) : VB Z :=
  match fuel with
  | O => fun _ => None
  | S fuel =>
      if u32 (unmapStart + unmapCount) <? max_unmap then
        let bitMask := Z.shiftr bitMask 1 in
        let wordsLeft := if bitMask =? 0 then u32 (wordsLeft - 1) else wordsLeft in
        if (bitMask =? 0) && (wordsLeft =? 0) then mret unmapCount else
        let '(c, bitMask) := if bitMask =? 0 then (cursor_at c (cu_index c + 1), kHighBitInWordMask) else (c, bitMask) in
        w ← load_word IgnoreReserved c;
        if negb (Z.land w bitMask =? 0) then mret unmapCount
        else unmap_after c bitMask wordsLeft max_unmap unmapStart (u32 (unmapCount + 1)) fuel
      else mret unmapCount
  end.

(** The error and the extent handed to hfs_unmap_free_extent.  Both scans stay in
    one bitmap block, so they are done after at most as many turns as it has bits. *)
Definition BlockMarkFreeInternal (startingBlock numBlocks : Z) (do_validate : bool) : VB (Z * option (Z * Z)) :=
  s ← vb_state;
  if do_validate && (vb_totalBlocks s <? u32 (startingBlock + numBlocks))
  then _ ← vb_modify hfs_mark_inconsistent; mret (EIO, None) else
  '(err, block) ← ReadBitmapBlock startingBlock;
  match block with
  | None => mret (err, None)
  | Some block =>
      let '(min_unmap, max_unmap) := unmap_bounds (vb_tentative s) startingBlock numBlocks 0 UINT32_MAX in
      let '(min_unmap, max_unmap) := unmap_bounds (vb_locked s) startingBlock numBlocks min_unmap max_unmap in
      let c := first_cursor s block startingBlock in
      let fuel := S (Z.to_nat (bitsPerBlock s)) in
      '(unmapStart, unmapCount) ←
        unmap_before c (Z.shiftr kHighBitInWordMask (startingBlock mod kBitsPerWord)) min_unmap startingBlock numBlocks fuel;
      r ← (walk IgnoreReserved (clear_op do_validate) c startingBlock numBlocks false : VB (walked bool));
      _ ← (if (wk_acc r : bool) then vb_modify hfs_mark_inconsistent else mret tt);
      match wk_held r with
      | Some c =>
          if negb (wk_err r =? noErr) then _ ← ReleaseBitmapBlock; mret (wk_err r, None) else
          let last := u32 (startingBlock + numBlocks - 1) in
          let wordIndexInBlock := Z.land last (bitsPerBlock s - 1) / kBitsPerWord in
          unmapCount ←
            unmap_after (cursor_at c wordIndexInBlock) (Z.shiftr kHighBitInWordMask (last mod kBitsPerWord))
              (wordsPerBlock s - wordIndexInBlock) max_unmap unmapStart unmapCount fuel;
          _ ← ReleaseBitmapBlock;
          mret (noErr, Some (unmapStart, unmapCount))
      | None => mret (wk_err r, None)
      end
  end.

Definition BlockMarkFree (startingBlock numBlocks : Z) : VB (Z * option (Z * Z)) :=
  BlockMarkFreeInternal startingBlock numBlocks true.

(** ** hfs_isallocated_internal *)

Fixpoint num_bits_set_loop (num count : Z) (fuel : nat) : Z :=
  match fuel with
  | O => count
  | S fuel => if num =? 0 then count else num_bits_set_loop (Z.land num (num - 1)) (count + 1) fuel
  end.

(** Each turn clears a bit of a 32-bit word. *)
Definition num_bits_set (num : Z) : Z := num_bits_set_loop num 0 32.

Definition count_op (stop_on_first : bool) : word_op Z :=
  let count (w blockCount : Z) : word_step Z :=
    if negb (w =? 0) then
      if stop_on_first then Leave noErr 1 else Go None (u32 (blockCount + num_bits_set w))
    else Go None blockCount in
  mkOp (fun bitMask w blockCount => count (Z.land w bitMask) blockCount) count.

(** The error and the count. *)
Definition hfs_isallocated_internal (startingBlock numBlocks : Z) (stop_on_first : bool) : VB (Z * Z) :=
  '(err, block) ← ReadBitmapBlock startingBlock;
  match block with
  | None => mret (err, 0)
  | Some block =>
      s ← vb_state;
      r ← walk IgnoreTentative (count_op stop_on_first) (first_cursor s block startingBlock) startingBlock numBlocks 0;
      _ ← walk_exit r;
      mret (wk_err r, wk_acc r)
  end.

Definition hfs_count_allocated (startBlock numBlocks : Z) : VB (Z * Z) :=
  hfs_isallocated_internal startBlock numBlocks false.

Definition hfs_isallocated (startingBlock numBlocks : Z) : VB Z :=
  '(error, allocCount) ← hfs_isallocated_internal startingBlock numBlocks true;
  mret (if negb (error =? noErr) then 1 else allocCount).

(** ** BlockMarkFreeUnused *)

Fixpoint free_unused_loop (startingBlock numBlocks : Z) (fuel : nat) : VB Z :=
  match fuel with
  | O => fun _ => None
  | S fuel =>
      if numBlocks =? 0 then mret noErr else
      s ← vb_state;
      let curNumBlocks := if bitsPerBlock s <=? numBlocks then bitsPerBlock s else numBlocks in
      used ← hfs_isallocated startingBlock curNumBlocks;
      '(error, _) ← (if used =? 1 then BlockMarkFreeInternal startingBlock curNumBlocks false else mret (noErr, None));
      if negb (error =? noErr) then mret error else
      free_unused_loop (u32 (startingBlock + curNumBlocks)) (u32 (numBlocks - curNumBlocks)) fuel
  end.

(** Each turn takes a bitmap block's worth of blocks off. *)
Definition BlockMarkFreeUnused (startingBlock numBlocks : Z) : VB Z :=
  s ← vb_state;
  let bpb := bitsPerBlock s in
  let lastBit := u32 (u32 (startingBlock + (bpb - 1)) / bpb * bpb) in
  let curNumBlocks := u32 (lastBit - startingBlock) in
  let curNumBlocks := if numBlocks <? curNumBlocks then numBlocks else curNumBlocks in
  '(error, _) ← BlockMarkFreeInternal startingBlock curNumBlocks false;
  if negb (error =? noErr) then mret error else
  let numBlocks := u32 (numBlocks - curNumBlocks) in
  free_unused_loop (u32 (startingBlock + curNumBlocks)) numBlocks (S (S (Z.to_nat (numBlocks / bpb)))).
