(* ===== verification/BitmapBits.v ===== *)
(** * Words, bits and masks of the volume bitmap (core/VolumeAllocation.c)

    [bit_at] reads the bitmap as one bit per allocation block; [mask_of] is the mask
    of a run of blocks in a word, and the masks the code computes by shifts are
    proved to be it. *)

From S2P Require Import Prelude HfsFormat RangeList Bitmap.

(** ** Bits *)

Definition word_ok (w : Z) : Prop := 0 <= w < 2 ^ 32.

(** The bit of allocation block [b]. *)
Definition bit_at (ws : list Z) (b : Z) : bool :=
  match ws !! Z.to_nat (b / 32) with
  | Some w => Z.testbit w (31 - b mod 32)
  | None => false
  end.

(** [b] is in the run. *)
Definition in_run (start num b : Z) : bool := (start <=? b) && (b <? start + num).

Lemma u32_testbit x i : 0 <= i -> Z.testbit (u32 x) i = (i <? 32) && Z.testbit x i.
Proof.
  intros Hi. unfold u32, wrap. destruct (Z.ltb_spec i 32).
  - by rewrite Z.mod_pow2_bits_low.
  - by rewrite Z.mod_pow2_bits_high by lia.
Qed.

Lemma not32_testbit x i : 0 <= i < 32 -> Z.testbit (not32 x) i = negb (Z.testbit x i).
Proof. intros Hi. unfold not32. rewrite u32_testbit, Z.lnot_spec by lia. by destruct (Z.ltb_spec i 32); [|lia]. Qed.

Lemma all_testbit i : 0 <= i -> Z.testbit kAllBitsSetInWord i = (i <? 32).
Proof.
  intros Hi. change kAllBitsSetInWord with (Z.ones 32). destruct (Z.ltb_spec i 32).
  - by apply Z.ones_spec_low.
  - by apply Z.ones_spec_high.
Qed.

Lemma all_shiftr_testbit n i : 0 <= n -> 0 <= i -> Z.testbit (Z.shiftr kAllBitsSetInWord n) i = (i + n <? 32).
Proof. intros Hn Hi. rewrite Z.shiftr_spec, all_testbit by lia. done. Qed.

Lemma word_ok_bits w : 0 <= w -> word_ok w <-> (forall i, 32 <= i -> Z.testbit w i = false).
Proof.
  intros Hw. unfold word_ok. split.
  - intros Hlt i Hi. destruct (Z.eq_dec w 0) as [->|]; [apply Z.bits_0|].
    apply Z.bits_above_log2; [lia|]. assert (Z.log2 w < 32) by (apply Z.log2_lt_pow2; lia). lia.
  - intros H. split; [done|]. destruct (Z.eq_dec w 0) as [->|]; [lia|].
    apply Z.log2_lt_pow2; [lia|]. destruct (Z.lt_ge_cases (Z.log2 w) 32) as [|Hge]; [done|].
    specialize (H (Z.log2 w) Hge). rewrite Z.bit_log2 in H by lia. done.
Qed.

(** Two words with the same 32 bits are the same. *)
Lemma word_ext w1 w2 :
  word_ok w1 -> word_ok w2 -> (forall i, 0 <= i < 32 -> Z.testbit w1 i = Z.testbit w2 i) -> w1 = w2.
Proof.
  intros H1 H2 H. apply Z.bits_inj'. intros i Hi. destruct (Z.lt_ge_cases i 32); [by apply H|].
  rewrite (proj1 (word_ok_bits w1 ltac:(unfold word_ok in *; lia)) H1 i),
    (proj1 (word_ok_bits w2 ltac:(unfold word_ok in *; lia)) H2 i) by lia. done.
Qed.

Lemma word_ok_lor w m : word_ok w -> word_ok m -> word_ok (Z.lor w m).
Proof.
  intros H1 H2. assert (0 <= w /\ 0 <= m) as [Hw Hm] by (unfold word_ok in *; lia).
  apply word_ok_bits; [by apply Z.lor_nonneg|]. intros i Hi. rewrite Z.lor_spec.
  rewrite (proj1 (word_ok_bits w Hw) H1), (proj1 (word_ok_bits m Hm) H2) by done. done.
Qed.

Lemma word_ok_land w m : word_ok w -> 0 <= m -> word_ok (Z.land w m).
Proof.
  intros H1 Hm. assert (0 <= w) as Hw by (unfold word_ok in *; lia).
  apply word_ok_bits; [apply Z.land_nonneg; auto|]. intros i Hi. rewrite Z.land_spec.
  by rewrite (proj1 (word_ok_bits w Hw) H1).
Qed.

Lemma word_ok_u32 x : word_ok (u32 x).
Proof. pose proof (u32_bound x). unfold word_ok, UINT32_MAX in *. lia. Qed.

(** ** Masks *)

(** The mask of a run in word [k]. *)
Definition mask_of (start num k : Z) : Z :=
  let lo := Z.max 0 (start - 32 * k) in
  let hi := Z.min 32 (start + num - 32 * k) in
  if lo <? hi then Z.land (Z.shiftr kAllBitsSetInWord lo) (not32 (Z.shiftr kAllBitsSetInWord hi)) else 0.

Lemma mask_of_testbit start num k i :
  0 <= i < 32 -> Z.testbit (mask_of start num k) i = in_run start num (32 * k + (31 - i)).
Proof.
  intros Hi. unfold mask_of, in_run. destruct (Z.ltb_spec (Z.max 0 (start - 32 * k)) (Z.min 32 (start + num - 32 * k))).
  - rewrite Z.land_spec, not32_testbit, !all_shiftr_testbit by lia.
    destruct (Z.leb_spec start (32 * k + (31 - i))), (Z.ltb_spec (32 * k + (31 - i)) (start + num)),
      (Z.ltb_spec (i + Z.max 0 (start - 32 * k)) 32), (Z.ltb_spec (i + Z.min 32 (start + num - 32 * k)) 32); simpl; lia || done.
  - rewrite Z.bits_0. destruct (Z.leb_spec start (32 * k + (31 - i))), (Z.ltb_spec (32 * k + (31 - i)) (start + num)); simpl; lia || done.
Qed.

Lemma word_ok_shiftr n : 0 <= n -> word_ok (Z.shiftr kAllBitsSetInWord n).
Proof.
  intros Hn. apply word_ok_bits; [by apply Z.shiftr_nonneg|]. intros i Hi.
  rewrite all_shiftr_testbit by lia. destruct (Z.ltb_spec (i + n) 32); [lia|done].
Qed.

Lemma mask_of_ok start num k : word_ok (mask_of start num k).
Proof.
  unfold mask_of. destruct (Z.ltb_spec (Z.max 0 (start - 32 * k)) (Z.min 32 (start + num - 32 * k))); [|done].
  apply word_ok_land; [apply word_ok_shiftr; lia|]. pose proof (word_ok_u32 (Z.lnot (Z.shiftr kAllBitsSetInWord (Z.min 32 (start + num - 32 * k))))) as Hu.
  unfold not32. unfold word_ok in Hu. lia.
Qed.

(** The masks the code computes. *)
Lemma whole_mask start num k : start <= 32 * k -> 32 * k + 32 <= start + num -> kAllBitsSetInWord = mask_of start num k.
Proof.
  intros H1 H2. apply word_ext; [done|apply mask_of_ok|]. intros i Hi. rewrite mask_of_testbit, all_testbit by lia.
  unfold in_run. destruct (Z.leb_spec start (32 * k + (31 - i))), (Z.ltb_spec (32 * k + (31 - i)) (start + num)), (Z.ltb_spec i 32); simpl; lia || done.
Qed.

Lemma rest_mask start num k n :
  start <= 32 * k -> n = start + num - 32 * k -> 0 <= n < 32 ->
  not32 (Z.shiftr kAllBitsSetInWord n) = mask_of start num k.
Proof.
  intros H1 -> Hn. apply word_ext; [apply word_ok_u32|apply mask_of_ok|]. intros i Hi.
  rewrite mask_of_testbit, not32_testbit, all_shiftr_testbit by lia. unfold in_run.
  destruct (Z.leb_spec start (32 * k + (31 - i))), (Z.ltb_spec (32 * k + (31 - i)) (start + num)),
    (Z.ltb_spec (i + (start + num - 32 * k)) 32); simpl; lia || done.
Qed.

Lemma first_mask start num k f :
  f = start mod 32 -> k = start / 32 -> 0 <= num ->
  (if num <? 32 - f
   then Z.land (Z.shiftr kAllBitsSetInWord f) (not32 (Z.shiftr kAllBitsSetInWord (f + num)))
   else Z.shiftr kAllBitsSetInWord f) = mask_of start num k.
Proof.
  intros Hf Hk Hnum. assert (start = 32 * k + f /\ 0 <= f < 32) as [Hs Hf'].
  { subst. pose proof (Z.div_mod start 32 ltac:(lia)). pose proof (Z.mod_pos_bound start 32 ltac:(lia)). lia. }
  apply word_ext; [|apply mask_of_ok|].
  - destruct (num <? 32 - f); [|apply word_ok_shiftr; lia]. apply word_ok_land; [apply word_ok_shiftr; lia|].
    pose proof (word_ok_u32 (Z.lnot (Z.shiftr kAllBitsSetInWord (f + num)))) as Hu. unfold not32. unfold word_ok in Hu. lia.
  - intros i Hi. rewrite mask_of_testbit by lia. unfold in_run. destruct (Z.ltb_spec num (32 - f)).
    + rewrite Z.land_spec, not32_testbit, !all_shiftr_testbit by lia.
      destruct (Z.leb_spec start (32 * k + (31 - i))), (Z.ltb_spec (32 * k + (31 - i)) (start + num)),
        (Z.ltb_spec (i + f) 32), (Z.ltb_spec (i + (f + num)) 32); simpl; lia || done.
    + rewrite all_shiftr_testbit by lia.
      destruct (Z.leb_spec start (32 * k + (31 - i))), (Z.ltb_spec (32 * k + (31 - i)) (start + num)), (Z.ltb_spec (i + f) 32); simpl; lia || done.
Qed.
