(* ===== verification/BitmapWalk.v ===== *)
(** * Walking over a run of blocks (core/VolumeAllocation.c)

    [walk] is the loop structure that marking, freeing and testing a run share.
    [run] is its specification: one step per word of the run, in order, with the mask
    of the run in that word, no bitmap blocks and no I/O.  [walk_run] shows that the
    walk is the run, whatever bitmap blocks it crosses; when a bitmap block cannot be
    read or released it is a prefix of the run. *)

From S2P Require Import Prelude HfsFormat RangeList Bitmap BitmapBits.

(** ** A well-formed bitmap *)

Record vbm_ok (s : vbm) : Prop := {
  vbm_iosize : vb_iosize s = 4 * wordsPerBlock s;
  vbm_pow2 : exists n, 6 <= n <= 31 /\ 32 * wordsPerBlock s = 2 ^ n;
  vbm_whole : exists blocks : nat, Z.of_nat (length (vb_words s)) = Z.of_nat blocks * wordsPerBlock s;
  vbm_small : 32 * Z.of_nat (length (vb_words s)) <= 2 ^ 32;
  vbm_words_ok : Forall word_ok (vb_words s);
}.

Lemma vbm_ok_words s ws :
  vbm_ok s -> length ws = length (vb_words s) -> Forall word_ok ws -> vbm_ok (vb_with_words ws s).
Proof. intros [H1 H2 H3 H4 H5] Hl Hws. by split; simpl; rewrite ?Hl. Qed.

Lemma vbm_ok_io s io : vbm_ok s -> vbm_ok (vb_with_io io s).
Proof. by intros [H1 H2 H3 H4 H5]. Qed.

Lemma vbm_eta s : vb_with_io (vb_io s) (vb_with_words (vb_words s) s) = s.
Proof. by destruct s. Qed.

Section Facts.
Context (s : vbm) (Hok : vbm_ok s).

Lemma wordsPerBlock_pos : 0 < wordsPerBlock s.
Proof.
  destruct (vbm_pow2 s Hok) as (n & Hn & E). pose proof (Z.pow_pos_nonneg 2 n ltac:(lia) ltac:(lia)). lia.
Qed.

Lemma bitsPerBlock_eq : bitsPerBlock s = 32 * wordsPerBlock s.
Proof.
  destruct (vbm_pow2 s Hok) as (n & Hn & E). unfold bitsPerBlock, kBitsPerByte.
  rewrite (vbm_iosize s Hok). rewrite u32_id; [lia|]. pose proof wordsPerBlock_pos.
  assert (2 ^ n <= 2 ^ 31) by (apply Z.pow_le_mono_r; lia). unfold UINT32_MAX. lia.
Qed.

Lemma block_mask b : 0 <= b -> Z.land b (bitsPerBlock s - 1) = b mod (32 * wordsPerBlock s).
Proof.
  intros Hb. destruct (vbm_pow2 s Hok) as (n & Hn & E). rewrite bitsPerBlock_eq, E.
  replace (2 ^ n - 1) with (Z.ones n) by (rewrite Z.ones_equiv; lia).
  apply Z.land_ones. lia.
Qed.
End Facts.

(** ** Calls into the buffer cache *)

Definition io_step (s : vbm) : Z * vbm :=
  match vb_io s with
  | [] => (noErr, s)
  | e :: io => (e, vb_with_io io s)
  end.

Lemma ReleaseBitmapBlock_eq s : ReleaseBitmapBlock s = Some (io_step s).
Proof. unfold ReleaseBitmapBlock, vb_result, io_step. by destruct (vb_io s). Qed.

Lemma ReadBitmapBlock_eq bit s :
  ReadBitmapBlock bit s =
  Some ((fst (io_step s), if fst (io_step s) =? noErr then Some (bit / bitsPerBlock s) else None), snd (io_step s)).
Proof.
  unfold ReadBitmapBlock, vb_state, vb_result, io_step, mbind, VB_bind. destruct (vb_io s) as [|e io]; [done|].
  simpl. destruct (Z.eqb_spec e noErr) as [->|]; done.
Qed.

(** ** The words as a buffer shows them *)

Definition view (flags : reservations) (s : vbm) (k : Z) : option Z :=
  buffer ← block_buffer s flags (k / wordsPerBlock s);
  buffer !! Z.to_nat (k mod wordsPerBlock s).

Lemma block_words s block :
  vbm_ok s -> 0 <= block -> (block + 1) * wordsPerBlock s <= Z.of_nat (length (vb_words s)) ->
  let n := Z.to_nat (wordsPerBlock s) in
  length (take n (drop (Z.to_nat block * n) (vb_words s))) = n.
Proof.
  intros Hok Hb Hle n. pose proof (wordsPerBlock_pos s Hok). rewrite length_take, length_drop.
  subst n. nia.
Qed.

(** A word inside of the bitmap is in a bitmap block that is. *)
Lemma block_inside s k :
  vbm_ok s -> 0 <= k < Z.of_nat (length (vb_words s)) ->
  (k / wordsPerBlock s + 1) * wordsPerBlock s <= Z.of_nat (length (vb_words s)).
Proof.
  intros Hok Hk. pose proof (wordsPerBlock_pos s Hok). destruct (vbm_whole s Hok) as (blocks & E).
  rewrite E in *. assert (k / wordsPerBlock s < Z.of_nat blocks) by (apply Z.div_lt_upper_bound; lia). nia.
Qed.

Lemma view_IgnoreReserved s k :
  vbm_ok s -> 0 <= k < Z.of_nat (length (vb_words s)) ->
  view IgnoreReserved s k = vb_words s !! Z.to_nat k.
Proof.
  intros Hok Hk. pose proof (wordsPerBlock_pos s Hok) as Hw.
  pose proof (block_inside s k Hok Hk) as Hin.
  assert (0 <= k / wordsPerBlock s) by (apply Z.div_pos; lia).
  pose proof (Z.mod_pos_bound k (wordsPerBlock s) Hw). pose proof (Z.div_mod k (wordsPerBlock s) ltac:(lia)) as Hdm.
  unfold view, block_buffer. rewrite bool_decide_eq_true_2 by by apply block_words. simpl.
  rewrite lookup_take_lt by lia. rewrite lookup_drop. f_equal. nia.
Qed.

(** ** The run *)

Section Run.
Context {A : Type} (flags : reservations) (op : word_op A) (s : vbm) (start num : Z).

(** [n] words from word [k] on; [None] as outcome: the end was reached. *)
Fixpoint run (n : nat) (k : Z) (ws : list Z) (acc : A) : option (option Z * A * list Z) :=
  match n with
  | O => Some (None, acc, ws)
  | S n =>
      w ← view flags (vb_with_words ws s) k;
      match op_bits op (mask_of start num k) w acc with
      | Go (Some w') acc => run n (k + 1) (<[Z.to_nat k := w']> ws) acc
      | Go None acc => run n (k + 1) ws acc
      | Leave err acc => Some (Some err, acc, ws)
      end
  end.
End Run.

(** The words of a run. *)
Definition run_length (start num : Z) : nat := Z.to_nat ((start + num - 1) / 32 + 1 - start / 32).

(** ** The walk is the run *)

Section WalkRun.
Context {A : Type} (flags : reservations) (op : word_op A) (s0 : vbm) (start num : Z) (io0 : list Z).
Context (Hok : vbm_ok s0).
Local Notation W := (wordsPerBlock s0).
Local Notation L := (Z.of_nat (length (vb_words s0))).

Definition words_inv (ws : list Z) : Prop := length ws = length (vb_words s0) /\ Forall word_ok ws.

(** A whole word is a word with a full mask; stored words are words; every word can
    be read. *)
Context (Hfull : forall w acc, word_ok w -> op_word op w acc = op_bits op kAllBitsSetInWord w acc).
Context (Hstore : forall m w acc w' acc', word_ok m -> word_ok w -> op_bits op m w acc = Go (Some w') acc' -> word_ok w').
Context (Hview : forall ws k, words_inv ws -> 0 <= k < L ->
  exists w, view flags (vb_with_words ws s0) k = Some w /\ word_ok w).

Definition state (ws io : list Z) : vbm := vb_with_io io (vb_with_words ws s0).

(** The cursor is at word [k]. *)
Record at_word (c : cursor) (k : Z) : Prop := {
  aw_index : 0 <= cu_index c <= W;
  aw_block : 0 <= cu_block c;
  aw_word : k = cu_block c * W + cu_index c;
  aw_left : cu_left c = W - cu_index c;
  aw_start : 32 * W * cu_block c <= cu_start c < 32 * W * (cu_block c + 1);
}.

Definition ended (m n : nat) (k : Z) (outcome : option Z) (err : Z) (held : option cursor) : Prop :=
  match outcome with
  | Some e => err = e /\ is_Some held
  | None =>
      (err = noErr /\ m = n /\ exists c, held = Some c /\ cu_block c = (k + Z.of_nat n - 1) / W) \/
      (err <> noErr /\ err ∈ io0 /\ held = None)
  end.

Definition walks (n : nat) (k : Z) (ws : list Z) (acc : A) (res : option (walked A * vbm)) : Prop :=
  exists m outcome acc' ws' err held io',
    res = Some (mkWalked err acc' held, state ws' io') /\ (forall e, e ∈ io' -> e ∈ io0) /\ (m <= n)%nat /\ words_inv ws' /\
    run flags op s0 start num m k ws acc = Some (outcome, acc', ws') /\
    ended m n k outcome err held.

Lemma store_inv ws k w acc w' acc' :
  words_inv ws -> 0 <= k < L -> word_ok w -> op_bits op (mask_of start num k) w acc = Go (Some w') acc' ->
  words_inv (<[Z.to_nat k := w']> ws).
Proof.
  intros [Hl Hws] Hk Hw E. split; [by rewrite length_insert|].
  apply Forall_insert; [done|]. eapply Hstore; [apply mask_of_ok|done|exact E].
Qed.

Lemma load_word_view c k ws io :
  words_inv ws -> 0 <= k < L -> at_word c k -> cu_index c < W ->
  exists w, view flags (vb_with_words ws s0) k = Some w /\ word_ok w /\
    load_word flags c (state ws io) = Some (w, state ws io).
Proof.
  intros Hi Hk [H1 H2 H3 H4 H5] Hlt. destruct (Hview ws k Hi Hk) as (w & E & Hw).
  exists w. split; [done|]. split; [done|]. unfold view in E.
  assert (k / W = cu_block c) as Ed by (subst k; rewrite Z.div_add_l, Z.div_small; lia).
  assert (k mod W = cu_index c) as Em by (subst k; rewrite Z.add_comm, Z_mod_plus_full, Z.mod_small; lia).
  change (wordsPerBlock (vb_with_words ws s0)) with W in E. rewrite Ed, Em in E.
  unfold load_word, vb_state, mbind, VB_bind.
  change (block_buffer (state ws io) flags (cu_block c)) with (block_buffer (vb_with_words ws s0) flags (cu_block c)).
  destruct (block_buffer (vb_with_words ws s0) flags (cu_block c)) as [buffer|]; [|done].
  simpl in *. destruct (Z.leb_spec 0 (cu_index c)); [|lia]. by rewrite E.
Qed.

(** One word. *)
Lemma do_word_walks c k ws io acc f n K :
  words_inv ws -> (forall e, e ∈ io -> e ∈ io0) -> 0 <= k < L -> at_word c k -> cu_index c < W ->
  (forall w acc, word_ok w -> f w acc = op_bits op (mask_of start num k) w acc) ->
  (forall ws' acc', words_inv ws' -> walks n (k + 1) ws' acc' (K acc' (state ws' io))) ->
  walks (S n) k ws acc (do_word flags c f acc K (state ws io)).
Proof.
  intros Hi Hio Hk Hc Hlt Hf HK. destruct (load_word_view c k ws io Hi Hk Hc Hlt) as (w & Ev & Hw & El).
  unfold do_word. unfold mbind, VB_bind. rewrite El. rewrite Hf by done.
  assert (forall acc' ws', words_inv ws' ->
    (forall m, run flags op s0 start num (S m) k ws acc = run flags op s0 start num m (k + 1) ws' acc') ->
    walks (S n) k ws acc (K acc' (state ws' io))) as Hgo.
  { intros acc' ws' Hi' Er. destruct (HK ws' acc' Hi') as (m & o & a & ws'' & err & held & io' & E & Hio' & Hm & Hi'' & Er' & He).
    exists (S m), o, a, ws'', err, held, io'. rewrite Er. split; [exact E|]. split; [exact Hio'|]. split; [lia|]. split; [done|]. split; [done|].
    unfold ended in *. replace (k + Z.of_nat (S n) - 1) with (k + 1 + Z.of_nat n - 1) by lia.
    destruct o; [done|]. destruct He as [(? & -> & ?)|?]; [left|right]; done. }
  destruct (op_bits op (mask_of start num k) w acc) as [[w'|] acc'|err acc'] eqn:Eop.
  - unfold store_word, vb_modify, vb_state, mbind, VB_bind.
    replace (cu_block c * wordsPerBlock (state ws io) + cu_index c) with k by apply (aw_word c k Hc).
    apply (Hgo acc' (<[Z.to_nat k := w']> ws)).
    + by eapply store_inv.
    + intros m. simpl. rewrite Ev. simpl. by rewrite Eop.
  - apply (Hgo acc' ws); [done|]. intros m. simpl. rewrite Ev. simpl. by rewrite Eop.
  - exists 1%nat, (Some err), acc', ws, err, (Some c), io. split; [done|]. split; [done|]. split; [lia|]. split; [done|].
    split; [|done]. simpl. rewrite Ev. simpl. by rewrite Eop.
Qed.

Lemma next_word_at c k : at_word c k -> cu_index c < W -> at_word (next_word c) (k + 1).
Proof.
  intros [H1 H2 H3 H4 H5] Hlt. split; simpl; try lia.
  rewrite H4. rewrite u32_id; [lia|]. destruct (vbm_pow2 s0 Hok) as (p & Hp & E).
  assert (2 ^ p <= 2 ^ 31) by (apply Z.pow_le_mono_r; lia). unfold UINT32_MAX. lia.
Qed.

(** The next bitmap block. *)
Lemma next_buffer_walks c k ws io acc n K :
  words_inv ws -> (forall e, e ∈ io -> e ∈ io0) -> 0 <= k < L -> at_word c k ->
  (forall c' io', (forall e, e ∈ io' -> e ∈ io0) -> at_word c' k -> cu_index c' < W -> walks n k ws acc (K c' (state ws io'))) ->
  walks n k ws acc (next_buffer c acc K (state ws io)).
Proof.
  intros Hi Hio Hk Hc HK. pose proof (wordsPerBlock_pos s0 Hok) as HW. unfold next_buffer. destruct Hc as [H1 H2 H3 H4 H5].
  destruct (Z.eqb_spec (cu_left c) 0) as [E0|E0]; simpl; [|apply HK; [done| |lia]; by split].
  assert (forall e io', (forall e, e ∈ io' -> e ∈ io0) -> e ∈ io -> e <> noErr -> walks n k ws acc (Some (mkWalked e acc None, state ws io'))) as Hstop.
  { intros e io' Hio' He Hne. exists 0%nat, None, acc, ws, e, None, io'. split; [done|]. split; [done|]. split; [lia|]. split; [done|].
    split; [done|]. right. auto. }
  assert (cu_index c = W) as Ei by lia.
  assert (u32 (cu_start c + 32 * W) = cu_start c + 32 * W) as Eu.
  { apply u32_id. unfold UINT32_MAX. pose proof (block_inside s0 k Hok Hk) as Hin. pose proof (vbm_small s0 Hok).
    assert (k / W = cu_block c + 1) as Ed by (subst k; rewrite Ei; rewrite Z.div_add_l by lia; rewrite Z.div_same; lia).
    rewrite Ed in Hin. nia. }
  unfold mbind, VB_bind, vb_state. change (bitsPerBlock (state ws io)) with (bitsPerBlock s0).
  rewrite (bitsPerBlock_eq s0 Hok), Eu.
  assert (forall io', (forall e, e ∈ io' -> e ∈ io0) ->
    walks n k ws acc (K (mkCursor ((cu_start c + 32 * W) / (32 * W)) 0 W (cu_start c + 32 * W)) (state ws io'))) as Hgo.
  { intros io' Hio'.
    assert ((cu_start c + 32 * W) / (32 * W) = cu_block c + 1) as ->.
    { symmetry. apply (Z.div_unique _ _ _ (cu_start c - 32 * W * cu_block c)); lia. }
    apply HK; [done| |simpl; lia]. split; simpl; lia. }
  rewrite ReleaseBitmapBlock_eq. unfold io_step at 1. destruct io as [|e io]; simpl.
  - change (u32 (vb_iosize s0 * kBitsPerByte)) with (bitsPerBlock s0). rewrite (bitsPerBlock_eq s0 Hok). by apply Hgo.
  - destruct (Z.eqb_spec e noErr) as [->|Hne]; simpl; [|apply Hstop; [intros e' ?; apply Hio, elem_of_cons; auto|apply elem_of_cons; auto|done]].
    change (vb_with_io io (state ws (noErr :: io))) with (state ws io).
    rewrite ReadBitmapBlock_eq. unfold io_step.
    change (bitsPerBlock (state ws io)) with (bitsPerBlock s0). rewrite (bitsPerBlock_eq s0 Hok).
    destruct io as [|e io]; simpl.
    + apply Hgo. intros ? []%elem_of_nil.
    + destruct (Z.eqb_spec e noErr) as [->|Hne].
      * apply Hgo. intros e' ?. apply Hio. rewrite !elem_of_cons. auto.
      * apply Hstop; [intros e' ?; apply Hio; rewrite !elem_of_cons; auto|rewrite !elem_of_cons; auto|done].
Qed.

Lemma walks_end c k ws io acc :
  words_inv ws -> (forall e, e ∈ io -> e ∈ io0) -> cu_block c = (k - 1) / W ->
  walks 0 k ws acc (Some (mkWalked noErr acc (Some c), state ws io)).
Proof.
  intros Hi Hio Hc. exists 0%nat, None, acc, ws, noErr, (Some c), io. split; [done|]. split; [done|]. split; [lia|].
  split; [done|]. split; [done|]. left. split; [done|]. split; [done|]. exists c. split; [done|].
  rewrite Hc. f_equal. lia.
Qed.

(** The last words: [num] blocks are left from word [k] on. *)
Lemma walk_words_walks fuel : forall c k ws io acc numBlocks,
  words_inv ws -> (forall e, e ∈ io -> e ∈ io0) -> at_word c k -> (numBlocks = 0 -> 1 <= cu_index c) ->
  start <= 32 * k -> numBlocks = Z.max 0 (start + num - 32 * k) -> 0 <= numBlocks <= UINT32_MAX -> start + num <= 32 * L ->
  (numBlocks / 32 < Z.of_nat fuel) ->
  walks (Z.to_nat ((numBlocks + 31) / 32)) k ws acc (walk_words flags op c numBlocks acc fuel (state ws io)).
Proof.
  induction fuel as [|fuel IH]; intros c k ws io acc numBlocks Hi Hio Hc H0 Hk En Hn Hend Hfuel.
  { pose proof (Z.div_pos numBlocks 32). lia. }
  assert (0 <= k) as Hk0 by (destruct Hc; nia).
  simpl. unfold kBitsPerWord. destruct (Z.leb_spec 32 numBlocks) as [Hge|Hlt].
  - replace (Z.to_nat ((numBlocks + 31) / 32)) with (S (Z.to_nat ((numBlocks - 32 + 31) / 32))).
    2:{ replace (numBlocks + 31) with (numBlocks - 32 + 31 + 1 * 32) by lia. rewrite Z.div_add by lia.
        pose proof (Z.div_pos (numBlocks - 32 + 31) 32). lia. }
    apply next_buffer_walks; [done|done|lia|done|]. intros c' io' Hio' Hc' Hlt.
    apply do_word_walks; [done|done|lia|done|done| |].
    + intros w a Hw. rewrite Hfull by done. f_equal. apply whole_mask; lia.
    + intros ws' acc' Hi'. rewrite u32_id by lia. apply IH; try done.
      * by apply next_word_at.
      * intros _. destruct Hc'. simpl. lia.
      * lia.
      * lia.
      * lia.
      * replace numBlocks with (numBlocks - 32 + 1 * 32) in Hfuel by lia. rewrite Z.div_add in Hfuel by lia. lia.
  - unfold walk_rest. destruct (Z.eqb_spec numBlocks 0) as [E0|E0].
    + rewrite E0. apply walks_end; [done|done|]. specialize (H0 E0). destruct Hc as [A1 A2 A3 A4 A5].
      apply (Z.div_unique _ _ _ (cu_index c - 1)); lia.
    + replace (Z.to_nat ((numBlocks + 31) / 32)) with 1%nat.
      2:{ replace ((numBlocks + 31) / 32) with 1; [done|]. apply (Z.div_unique _ _ _ (numBlocks - 1)); lia. }
      apply next_buffer_walks; [done|done|lia|done|]. intros c' io' Hio' Hc' Hlt'.
      apply do_word_walks; [done|done|lia|done|done| |].
      * intros w a Hw. f_equal. apply rest_mask; lia.
      * intros ws' acc' Hi'. apply walks_end; [done|done|]. destruct Hc' as [A1 A2 A3 A4 A5].
        apply (Z.div_unique _ _ _ (cu_index c')); lia.
Qed.

Lemma first_cursor_at io ws :
  0 <= start < 32 * L -> words_inv ws ->
  let c := first_cursor (state ws io) (start / bitsPerBlock s0) start in
  at_word c (start / 32) /\ cu_index c < W.
Proof.
  intros Hs Hi c. pose proof (wordsPerBlock_pos s0 Hok) as HW. subst c. unfold first_cursor.
  change (bitsPerBlock (state ws io)) with (bitsPerBlock s0). rewrite (block_mask s0 Hok) by lia.
  rewrite (bitsPerBlock_eq s0 Hok). change (wordsPerBlock (state ws io)) with W. unfold kBitsPerWord.
  pose proof (Z.mod_pos_bound start (32 * W) ltac:(lia)). pose proof (Z.div_mod start (32 * W) ltac:(lia)) as E.
  assert (start mod (32 * W) / 32 < W) by (apply Z.div_lt_upper_bound; lia).
  assert (0 <= start mod (32 * W) / 32) by (apply Z.div_pos; lia).
  assert (0 <= start / (32 * W)) by (apply Z.div_pos; lia).
  split; [|simpl; lia]. split; simpl; try lia.
  rewrite E at 1. replace (32 * W * (start / (32 * W))) with (start / (32 * W) * W * 32) by lia.
  rewrite Z.div_add_l by lia. done.
Qed.

(** The whole walk. *)
Lemma walk_run io :
  (forall e, e ∈ io -> e ∈ io0) -> vb_io s0 = io ->
  0 <= start -> 0 < num <= UINT32_MAX -> start + num <= 32 * L -> forall acc,
  walks (run_length start num) (start / 32) (vb_words s0) acc
    (walk flags op (first_cursor s0 (start / bitsPerBlock s0) start) start num acc s0).
Proof.
  intros Hio Eio Hs Hn Hend acc.
  assert (words_inv (vb_words s0)) as Hi by (split; [done|apply (vbm_words_ok s0 Hok)]).
  assert (s0 = state (vb_words s0) io) as Es by (subst io; symmetry; apply vbm_eta).
  destruct (first_cursor_at io (vb_words s0) ltac:(lia) Hi) as [Hc Hlt].
  rewrite <- Es in Hc, Hlt. set (c := first_cursor s0 (start / bitsPerBlock s0) start) in *.
  pose proof (Z.div_mod start 32 ltac:(lia)) as Edm. pose proof (Z.mod_pos_bound start 32 ltac:(lia)) as Hmod.
  replace (walk flags op c start num acc s0) with (walk flags op c start num acc (state (vb_words s0) io)) by (by f_equal).
  unfold walk, kBitsPerWord. destruct (Z.eqb_spec (start mod 32) 0) as [E0|E0].
  - replace (run_length start num) with (Z.to_nat ((num + 31) / 32)).
    + apply walk_words_walks; try done; lia.
    + unfold run_length. f_equal. replace (start + num - 1) with (num + 31 - 32 + start / 32 * 32) by lia.
      rewrite Z.div_add by lia. replace (num + 31 - 32) with (num + 31 + (-1) * 32) by lia. rewrite Z.div_add by lia. lia.
  - pose proof (first_mask start num (start / 32) (start mod 32) eq_refl eq_refl ltac:(lia)) as Em.
    assert (forall numBits, numBits = Z.min num (32 - start mod 32) ->
      walks (run_length start num) (start / 32) (vb_words s0) acc
        (do_word flags c (op_bits op (mask_of start num (start / 32))) acc
           (fun acc => walk_words flags op (next_word c) (u32 (num - numBits)) acc (S (Z.to_nat (u32 (num - numBits) / 32))))
           (state (vb_words s0) io))) as Hgo.
    { intros numBits Eb. rewrite u32_id by lia.
      replace (run_length start num) with (S (Z.to_nat ((num - numBits + 31) / 32))).
      - apply do_word_walks; try done; [lia|]. intros ws' acc' Hi'. apply walk_words_walks; try done.
        + by apply next_word_at.
        + intros _. pose proof (aw_index _ _ Hc). cbn [next_word cu_index]. lia.
        + lia.
        + lia.
        + lia.
        + pose proof (Z.div_pos (num - numBits) 32). lia.
      - unfold run_length. destruct (Z.min_spec num (32 - start mod 32)) as [[Hm Ez]|[Hm Ez]]; rewrite Ez in Eb; subst numBits.
        + replace (num - num + 31) with 31 by lia. change (31 / 32) with 0.
          replace ((start + num - 1) / 32) with (start / 32); [lia|].
          apply (Z.div_unique _ _ _ (start mod 32 + num - 1)); lia.
        + replace (start + num - 1) with (num - (32 - start mod 32) + 31 + start / 32 * 32) by lia.
          rewrite Z.div_add by lia. pose proof (Z.div_pos (num - (32 - start mod 32) + 31) 32). lia. }
    destruct (Z.ltb_spec num (32 - start mod 32)) as [Hsm|Hge].
    + rewrite Em. apply Hgo. lia.
    + rewrite Em. apply Hgo. lia.
Qed.
End WalkRun.
