(* ===== verification/BitmapMark.v ===== *)
(** * Marking and freeing runs of blocks (core/VolumeAllocation.c)

    Marking sets the bits of the run and no others, freeing clears them and no
    others, whatever words and bitmap blocks the run crosses.  Freeing a block that is
    not allocated is an error that marks the volume inconsistent. *)

From S2P Require Import Prelude HfsFormat RangeList Bitmap BitmapBits BitmapWalk.

(** ** Bits of a changed word *)

Lemma bit_at_insert ws k w b :
  0 <= k < Z.of_nat (length ws) -> 0 <= b ->
  bit_at (<[Z.to_nat k := w]> ws) b = if b / 32 =? k then Z.testbit w (31 - b mod 32) else bit_at ws b.
Proof.
  intros Hk Hb. unfold bit_at. pose proof (Z.div_pos b 32 Hb ltac:(lia)). destruct (Z.eqb_spec (b / 32) k) as [<-|Hne].
  - rewrite list_lookup_insert_eq by lia. done.
  - rewrite list_lookup_insert_ne by lia. done.
Qed.

(** The bit of a block in the mask of its word. *)
Lemma mask_of_block start num b : Z.testbit (mask_of start num (b / 32)) (31 - b mod 32) = in_run start num b.
Proof.
  pose proof (Z.mod_pos_bound b 32 ltac:(lia)). pose proof (Z.div_mod b 32 ltac:(lia)).
  rewrite mask_of_testbit by lia. f_equal. lia.
Qed.

(** The blocks of the run in the [n] words from [k] on. *)
Definition in_part (start num k : Z) (n : nat) (b : Z) : bool :=
  in_run start num b && ((k <=? b / 32) && (b / 32 <? k + Z.of_nat n)).

Lemma in_part_0 start num k b : in_part start num k 0 b = false.
Proof. unfold in_part. destruct (Z.leb_spec k (b / 32)), (Z.ltb_spec (b / 32) (k + Z.of_nat 0)); rewrite ?andb_false_r; lia || done. Qed.

Lemma in_part_S start num k n b :
  in_part start num k (S n) b = (in_run start num b && (b / 32 =? k)) || in_part start num (k + 1) n b.
Proof.
  unfold in_part. destruct (in_run start num b); [|done]. simpl.
  destruct (Z.leb_spec k (b / 32)), (Z.ltb_spec (b / 32) (k + Z.of_nat (S n))), (Z.eqb_spec (b / 32) k),
    (Z.leb_spec (k + 1) (b / 32)), (Z.ltb_spec (b / 32) (k + 1 + Z.of_nat n)); simpl; lia || done.
Qed.

Lemma in_part_all start num b :
  0 <= start -> 0 < num -> in_part start num (start / 32) (run_length start num) b = in_run start num b.
Proof.
  intros Hs Hn. unfold in_part. destruct (in_run start num b) eqn:E; [|done]. unfold in_run in E.
  apply andb_true_iff in E as [H1%Z.leb_le H2%Z.ltb_lt]. simpl.
  assert (start / 32 <= b / 32) by (apply Z.div_le_mono; lia).
  assert (b / 32 <= (start + num - 1) / 32) by (apply Z.div_le_mono; lia).
  unfold run_length. apply andb_true_iff. rewrite Z.leb_le, Z.ltb_lt. lia.
Qed.

Lemma in_part_run start num k n b : in_part start num k n b = true -> in_run start num b = true.
Proof. unfold in_part. by intros [? _]%andb_true_iff. Qed.

Section Mark.
Context (s : vbm) (Hok : vbm_ok s) (start num : Z).
Local Notation L := (Z.of_nat (length (vb_words s))).

Lemma words_inv_view ws k :
  words_inv s ws -> 0 <= k < L ->
  exists w, view IgnoreReserved (vb_with_words ws s) k = Some w /\ word_ok w /\ ws !! Z.to_nat k = Some w.
Proof.
  intros [Hl Hws] Hk. pose proof (vbm_ok_words s ws Hok Hl Hws) as Hok'.
  destruct (lookup_lt_is_Some_2 ws (Z.to_nat k) ltac:(lia)) as [w Ew]. exists w.
  rewrite view_IgnoreReserved by (simpl; auto; lia). split; [done|]. split; [|done].
  by eapply (Forall_lookup_1 word_ok ws).
Qed.

Lemma words_inv_insert ws k w : words_inv s ws -> word_ok w -> words_inv s (<[k := w]> ws).
Proof. intros [Hl Hws] Hw. split; [by rewrite length_insert|by apply Forall_insert]. Qed.

Lemma bit_at_word ws k w i : ws !! Z.to_nat k = Some w -> 0 <= k -> 0 <= i < 32 -> Z.testbit w i = bit_at ws (32 * k + (31 - i)).
Proof.
  intros E Hk Hi. unfold bit_at. replace ((32 * k + (31 - i)) / 32) with k by (apply (Z.div_unique _ _ _ (31 - i)); lia).
  rewrite E. f_equal. replace ((32 * k + (31 - i)) mod 32) with (31 - i) by (apply (Z.mod_unique _ _ k); lia). lia.
Qed.

(** Setting. *)
Lemma run_set n : forall k ws,
  words_inv s ws -> 0 <= k -> k + Z.of_nat n <= L ->
  exists ws', run IgnoreReserved set_op s start num n k ws tt = Some (None, tt, ws') /\
    forall b, 0 <= b -> bit_at ws' b = bit_at ws b || in_part start num k n b.
Proof.
  induction n as [|n IH]; intros k ws Hi Hk Hn.
  { exists ws. split; [done|]. intros b _. by rewrite in_part_0, orb_false_r. }
  destruct (words_inv_view ws k Hi ltac:(lia)) as (w & Ev & Hw & El). simpl. rewrite Ev. simpl.
  destruct (IH (k + 1) (<[Z.to_nat k := Z.lor w (mask_of start num k)]> ws)) as (ws' & Er & Hb).
  { apply words_inv_insert; [done|]. apply word_ok_lor; [done|apply mask_of_ok]. }
  { lia. }
  { lia. }
  exists ws'. split; [done|]. intros b Hb0. rewrite Hb, in_part_S, bit_at_insert by (destruct Hi; lia).
  destruct (Z.eqb_spec (b / 32) k) as [E|E]; [|by rewrite andb_false_r].
  rewrite andb_true_r, Z.lor_spec, orb_assoc. f_equal. subst k. rewrite mask_of_block. f_equal.
  unfold bit_at. by rewrite El.
Qed.

(** Clearing: the first word that has a bit of the run clear stops it. *)
Definition clear_bits (ws ws' : list Z) (m : nat) (k : Z) : Prop :=
  forall b, 0 <= b -> bit_at ws' b = bit_at ws b && negb (in_part start num k m b).

Lemma clear_bits_step ws ws' m k w :
  words_inv s ws -> 0 <= k < L -> ws !! Z.to_nat k = Some w ->
  clear_bits (<[Z.to_nat k := Z.land w (not32 (mask_of start num k))]> ws) ws' m (k + 1) ->
  clear_bits ws ws' (S m) k.
Proof.
  intros [Hl _] Hk El H b Hb. rewrite H, in_part_S, bit_at_insert by lia.
  destruct (Z.eqb_spec (b / 32) k) as [E|E]; [|by rewrite andb_false_r].
  subst k. pose proof (Z.mod_pos_bound b 32 ltac:(lia)).
  rewrite andb_true_r, Z.land_spec, not32_testbit, mask_of_block by lia. rewrite negb_orb, andb_assoc. f_equal.
  f_equal. unfold bit_at. by rewrite El.
Qed.

Lemma word_ok_clear w m : word_ok w -> word_ok (Z.land w (not32 m)).
Proof. intros Hw. apply word_ok_land; [done|]. pose proof (word_ok_u32 (Z.lnot m)). unfold not32. unfold word_ok in *. lia. Qed.

(** All bits of the mask are set in [w]. *)
Lemma land_mask_eq w m :
  word_ok w -> word_ok m -> Z.land w m = m <-> (forall i, 0 <= i < 32 -> Z.testbit m i = true -> Z.testbit w i = true).
Proof.
  intros Hw Hm. split.
  - intros E i Hi Ei. rewrite <- E, Z.land_spec in Ei. by apply andb_true_iff in Ei as [? _].
  - intros H. apply word_ext; [apply word_ok_land; [done|unfold word_ok in Hm; lia]|done|].
    intros i Hi. rewrite Z.land_spec. destruct (Z.testbit m i) eqn:E; [|by rewrite andb_false_r]. by rewrite H.
Qed.

Definition all_set (ws : list Z) : Prop := forall b, in_run start num b = true -> bit_at ws b = true.

Lemma run_clear validate n : forall k ws,
  words_inv s ws -> 0 <= k -> k + Z.of_nat n <= L ->
  exists m ws' outcome acc', (m <= n)%nat /\ words_inv s ws' /\
    run IgnoreReserved (clear_op validate) s start num n k ws false = Some (outcome, acc', ws') /\
    clear_bits ws ws' m k /\
    ((m = n /\ outcome = None /\ acc' = false /\
      (validate = true -> forall b, 0 <= b -> in_part start num k n b = true -> bit_at ws b = true)) \/
     (validate = true /\ outcome = Some EIO /\ acc' = true /\
      exists b, 0 <= b /\ in_part start num k n b = true /\ bit_at ws b = false)).
Proof.
  induction n as [|n IH]; intros k ws Hi Hk Hn.
  { exists 0%nat, ws, None, false. split; [done|]. split; [done|]. split; [done|].
    split; [intros b _; by rewrite in_part_0, andb_true_r|]. left. split_and!; try done.
    intros _ b _. by rewrite in_part_0. }
  destruct (words_inv_view ws k Hi ltac:(lia)) as (w & Ev & Hw & El). simpl. rewrite Ev. simpl.
  destruct (validate && negb (Z.land w (mask_of start num k) =? mask_of start num k)) eqn:Eval.
  - apply andb_true_iff in Eval as [-> Eval%negb_true_iff%Z.eqb_neq].
    exists 0%nat, ws, (Some EIO), true. split; [lia|]. split; [done|]. split; [done|].
    split; [intros b _; by rewrite in_part_0, andb_true_r|]. right. split; [done|]. split; [done|]. split; [done|].
    destruct (decide (Exists (fun i => Z.testbit (mask_of start num k) i = true /\ Z.testbit w i = false) (seqZ 0 32))) as [Hex|Hno].
    + apply Exists_exists in Hex as (i & Hi1%elem_of_seqZ & Hm & Hwi).
      assert ((32 * k + (31 - i)) / 32 = k) as Ed by (symmetry; apply (Z.div_unique _ _ _ (31 - i)); lia).
      exists (32 * k + (31 - i)). split; [lia|]. rewrite in_part_S, Ed, Z.eqb_refl, andb_true_r.
      rewrite mask_of_testbit in Hm by lia. split; [by rewrite Hm|]. rewrite <- (bit_at_word ws k w i) by (done || lia). done.
    + exfalso. apply Eval. apply land_mask_eq; [done|apply mask_of_ok|]. intros i Hi' Em.
      destruct (Z.testbit w i) eqn:E; [done|]. exfalso. apply Hno, Exists_exists. exists i.
      split; [apply elem_of_seqZ; lia|done].
  - destruct (IH (k + 1) (<[Z.to_nat k := Z.land w (not32 (mask_of start num k))]> ws))
      as (m & ws' & o & acc' & Hm & Hi' & Er & Hc & Hcase).
    { apply words_inv_insert; [done|by apply word_ok_clear]. }
    { lia. }
    { lia. }
    assert (forall b, 0 <= b -> in_part start num (k + 1) n b = true ->
      bit_at (<[Z.to_nat k:=Z.land w (not32 (mask_of start num k))]> ws) b = bit_at ws b) as Hsame.
    { intros b Hb Hp. rewrite bit_at_insert by (destruct Hi; lia). destruct (Z.eqb_spec (b / 32) k) as [E|]; [|done].
      unfold in_part in Hp. rewrite !andb_true_iff, Z.leb_le in Hp. lia. }
    exists (S m), ws', o, acc'. split; [lia|]. split; [done|]. split; [done|].
    split; [eapply clear_bits_step; [done|lia|done|done]|].
    destruct Hcase as [(-> & -> & -> & Hall)|(-> & -> & -> & b & Hb & Hp & Hbit)].
    + left. split_and!; try done. intros -> b Hb Hp. rewrite in_part_S in Hp. apply orb_true_iff in Hp as [Hp|Hp].
      * apply andb_true_iff in Hp as [Hp <-%Z.eqb_eq]. simpl in Eval. apply negb_false_iff, Z.eqb_eq in Eval.
        apply land_mask_eq with (i := 31 - b mod 32) in Eval; [|done|apply mask_of_ok|pose proof (Z.mod_pos_bound b 32 ltac:(lia)); lia|by rewrite mask_of_block].
        unfold bit_at. by rewrite El.
      * rewrite <- Hsame by done. by apply Hall.
    + right. split; [done|]. split; [done|]. split; [done|]. exists b. split; [done|].
      rewrite in_part_S, Hp, orb_true_r. split; [done|]. by rewrite <- Hsame.
Qed.
End Mark.

(** ** The walks of the operations *)

Lemma set_op_full w acc : word_ok w -> op_word set_op w acc = op_bits set_op kAllBitsSetInWord w acc.
Proof.
  intros Hw. unfold set_op. simpl. do 2 f_equal. apply word_ext; [done|by apply word_ok_lor|].
  intros i Hi. rewrite Z.lor_spec, all_testbit by lia. destruct (Z.ltb_spec i 32); [by rewrite orb_true_r|lia].
Qed.

Lemma set_op_store m w acc w' acc' :
  word_ok m -> word_ok w -> op_bits set_op m w acc = Go (Some w') acc' -> word_ok w'.
Proof. intros Hm Hw [= <- <-]. by apply word_ok_lor. Qed.

Lemma land_all w : word_ok w -> Z.land w kAllBitsSetInWord = w.
Proof.
  intros Hw. apply word_ext; [by apply word_ok_land|done|]. intros i Hi. rewrite Z.land_spec, all_testbit by lia.
  destruct (Z.ltb_spec i 32); [by rewrite andb_true_r|lia].
Qed.

Lemma clear_op_full v w acc : word_ok w -> op_word (clear_op v) w acc = op_bits (clear_op v) kAllBitsSetInWord w acc.
Proof.
  intros Hw. unfold clear_op. simpl. rewrite land_all by done.
  change (not32 kAllBitsSetInWord) with 0. by rewrite Z.land_0_r.
Qed.

Lemma clear_op_store v m w acc w' acc' :
  word_ok m -> word_ok w -> op_bits (clear_op v) m w acc = Go (Some w') acc' -> word_ok w'.
Proof. intros Hm Hw. simpl. destruct (v && _); [done|]. intros [= <- <-]. by apply word_ok_clear. Qed.

Lemma io_step_ok s : vbm_ok s -> vbm_ok (snd (io_step s)).
Proof. unfold io_step. destruct (vb_io s); [done|]. by apply vbm_ok_io. Qed.

Lemma io_step_words s : vb_words (snd (io_step s)) = vb_words s.
Proof. unfold io_step. by destruct (vb_io s). Qed.

Lemma io_step_bits s : bitsPerBlock (snd (io_step s)) = bitsPerBlock s.
Proof. unfold io_step. by destruct (vb_io s). Qed.

Lemma io_step_err s : fst (io_step s) = noErr \/ fst (io_step s) ∈ vb_io s.
Proof. unfold io_step. destruct (vb_io s) as [|e io]; [by left|]. right. apply elem_of_cons. by left. Qed.

Lemma io_step_suffix s e : e ∈ vb_io (snd (io_step s)) -> e ∈ vb_io s.
Proof. unfold io_step. destruct (vb_io s) as [|e' io] eqn:E; simpl; [by rewrite E|]. intros H. apply elem_of_cons. by right. Qed.

Lemma io_step_nil s : vb_io s = [] -> io_step s = (noErr, s).
Proof. unfold io_step. by intros ->. Qed.

(** A run inside of the bitmap. *)
Definition run_ok (s : vbm) (start num : Z) : Prop :=
  0 <= start /\ 0 < num <= UINT32_MAX /\ start + num <= 32 * Z.of_nat (length (vb_words s)).

Lemma run_length_le s start num :
  run_ok s start num -> start / 32 + Z.of_nat (run_length start num) <= Z.of_nat (length (vb_words s)).
Proof.
  intros (Hs & Hn & He). unfold run_length.
  assert ((start + num - 1) / 32 < Z.of_nat (length (vb_words s))) by (apply Z.div_lt_upper_bound; lia).
  assert (start / 32 <= (start + num - 1) / 32) by (apply Z.div_le_mono; lia). lia.
Qed.

(** A walk in the state after the first read. *)
Lemma walk_set s start num :
  vbm_ok s -> run_ok s start num ->
  walks IgnoreReserved set_op s start num (vb_io s) (run_length start num) (start / 32) (vb_words s) tt
    (walk IgnoreReserved set_op (first_cursor s (start / bitsPerBlock s) start) start num tt s).
Proof.
  intros Hok (Hs & Hn & He). apply (walk_run _ _ _ _ _ _ Hok set_op_full set_op_store) with (io := vb_io s); try done.
  intros ws k Hi Hk. destruct (words_inv_view s Hok ws k Hi Hk) as (w & ? & ? & _). by exists w.
Qed.

Lemma walk_clear s v start num :
  vbm_ok s -> run_ok s start num ->
  walks IgnoreReserved (clear_op v) s start num (vb_io s) (run_length start num) (start / 32) (vb_words s) false
    (walk IgnoreReserved (clear_op v) (first_cursor s (start / bitsPerBlock s) start) start num false s).
Proof.
  intros Hok (Hs & Hn & He). apply (walk_run _ _ _ _ _ _ Hok (clear_op_full v) (clear_op_store v)) with (io := vb_io s); try done.
  intros ws k Hi Hk. destruct (words_inv_view s Hok ws k Hi Hk) as (w & ? & ? & _). by exists w.
Qed.

Lemma walk_exit_eq {A} (r : walked A) s :
  exists io, walk_exit r s = Some (tt, vb_with_io io s) /\ (vb_io s = [] -> io = []) /\ (forall e, e ∈ io -> e ∈ vb_io s).
Proof.
  unfold walk_exit. destruct (wk_held r).
  - unfold mbind, VB_bind. rewrite ReleaseBitmapBlock_eq. unfold io_step. destruct (vb_io s) as [|e io] eqn:E.
    + exists []. split; [|done]. rewrite <- E at 1. by destruct s.
    + exists io. split; [done|]. split; [done|]. intros e' H. apply elem_of_cons. by right.
  - exists (vb_io s). split; [|done]. by destruct s.
Qed.

Lemma io_step_with s : exists io, snd (io_step s) = vb_with_io io s /\ (forall e, e ∈ io -> e ∈ vb_io s).
Proof.
  unfold io_step. destruct (vb_io s) as [|e io] eqn:E; simpl.
  - exists []. split; [|done]. rewrite <- E. by destruct s.
  - exists io. split; [done|]. intros e' He. apply elem_of_cons. by right.
Qed.

(** The same volume after an operation: what the operations never change. *)
Record same_volume (s s' : vbm) : Prop := {
  sv_ok : vbm_ok s';
  sv_length : length (vb_words s') = length (vb_words s);
  sv_total : vb_totalBlocks s' = vb_totalBlocks s;
  sv_tentative : vb_tentative s' = vb_tentative s;
  sv_locked : vb_locked s' = vb_locked s;
  sv_iosize : vb_iosize s' = vb_iosize s;
  sv_io : forall e, e ∈ vb_io s' -> e ∈ vb_io s;
}.

Lemma same_volume_io s io :
  vbm_ok s -> (forall e, e ∈ io -> e ∈ vb_io s) -> same_volume s (vb_with_io io s).
Proof. intros Hok Hio. split; try done. by apply vbm_ok_io. Qed.

Lemma same_volume_state s ws io :
  vbm_ok s -> words_inv s ws -> (forall e, e ∈ io -> e ∈ vb_io s) -> same_volume s (state s ws io).
Proof. intros Hok [Hl Hws] Hio. split; try done. by apply vbm_ok_io, vbm_ok_words. Qed.

Lemma same_volume_trans s1 s2 s3 : same_volume s1 s2 -> same_volume s2 s3 -> same_volume s1 s3.
Proof. intros [H1 H2 H3 H4 H5 H6 H7] [K1 K2 K3 K4 K5 K6 K7]. split; try congruence. auto. Qed.

Lemma io_step_same s : vbm_ok s -> same_volume s (snd (io_step s)).
Proof. intros Hok. destruct (io_step_with s) as (io & -> & Hio). by apply same_volume_io. Qed.

(** ** BlockMarkAllocated *)

Lemma BlockMarkAllocated_outcome s start num :
  vbm_ok s -> run_ok s start num ->
  exists err s', BlockMarkAllocated start num s = Some (err, s') /\ same_volume s s' /\
    vb_inconsistent s' = vb_inconsistent s /\ (err = noErr \/ err ∈ vb_io s) /\
    (forall b, 0 <= b -> bit_at (vb_words s') b = if in_run start num b then bit_at (vb_words s') b || bit_at (vb_words s) b else bit_at (vb_words s) b) /\
    (err = noErr -> forall b, in_run start num b = true -> bit_at (vb_words s') b = true).
Proof.
  intros Hok Hrun. unfold BlockMarkAllocated, BlockMarkAllocatedInternal, mbind, VB_bind.
  rewrite ReadBitmapBlock_eq. cbn [fst snd]. pose proof (io_step_err s) as Herr. pose proof (io_step_bits s) as Eb.
  destruct (io_step_with s) as (io1 & E1 & Hio1). rewrite E1 in *. set (s1 := vb_with_io io1 s) in *.
  pose proof (same_volume_io s io1 Hok Hio1) as Hsame.
  destruct (Z.eqb_spec (fst (io_step s)) noErr) as [E|E].
  2:{ exists (fst (io_step s)), s1. split; [done|]. split; [done|]. split; [done|]. split; [done|]. split; [|done].
      intros b _. destruct (in_run start num b); [|done]. simpl. by destruct (bit_at (vb_words s) b). }
  unfold vb_state. rewrite <- Eb. assert (vbm_ok s1) as Hok1 by by apply vbm_ok_io.
  destruct (walk_set s1 start num Hok1 Hrun) as (m & o & [] & ws' & err & held & io' & Ewalk & Hio & Hm & Hi & Er & He).
  rewrite Ewalk. set (r := mkWalked err tt held).
  destruct (walk_exit_eq r (state s1 ws' io')) as (io'' & -> & _ & Hio''). 
  pose proof (run_length_le s1 start num Hrun) as Hlen.
  destruct (run_set s1 Hok1 start num m (start / 32) (vb_words s1)) as (ws'' & Er' & Hb).
  { split; [done|apply (vbm_words_ok _ Hok1)]. }
  { destruct Hrun. apply Z.div_pos; lia. }
  { lia. }
  rewrite Er in Er'. injection Er' as -> <-.
  exists err, (vb_with_io io'' (state s1 ws' io')). split; [done|]. split.
  { eapply same_volume_trans; [exact Hsame|]. eapply same_volume_trans; [by apply same_volume_state|].
    apply same_volume_io; [|done]. apply vbm_ok_io. destruct Hi. by apply vbm_ok_words. }
  split; [done|]. cbn [vb_words vb_with_io state vb_with_words] in *. split.
  { destruct He as [(? & _)|(_ & ? & _)]; [by left|right; by apply Hio1]. }
  split.
  - intros b Hb0. rewrite !Hb by done. change (vb_words s1) with (vb_words s).
    destruct (in_run start num b) eqn:Er1.
    + destruct (bit_at (vb_words s) b), (in_part start num (start / 32) m b); done.
    + destruct (in_part start num (start / 32) m b) eqn:Ep; [|by rewrite orb_false_r]. apply in_part_run in Ep. congruence.
  - intros -> b H. assert (0 <= b) by (destruct Hrun as (? & _); unfold in_run in H; apply andb_true_iff in H as [H%Z.leb_le _]; lia).
    rewrite Hb by done. destruct He as [(_ & -> & _)|(? & _)]; [|done]. destruct Hrun as (? & ? & _).
    rewrite in_part_all, H, orb_true_r by lia. done.
Qed.

(** BlockMarkAllocated on a well-formed bitmap, for a run inside of it, whatever
    the outcome of the block I/O: it never runs off a buffer, the bitmap stays
    well-formed, a bit outside of the run keeps its value and none is cleared; it fails
    only with an error of the block I/O, and on success every bit of the run is set,
    whatever words and bitmap blocks the run crosses. *)
Theorem BlockMarkAllocated_bits s start num :
  vbm_ok s -> run_ok s start num ->
  exists err s', BlockMarkAllocated start num s = Some (err, s') /\ vbm_ok s' /\
    (err = noErr \/ err ∈ vb_io s) /\
    (forall b, 0 <= b -> bit_at (vb_words s) b = true -> bit_at (vb_words s') b = true) /\
    (forall b, 0 <= b -> in_run start num b = false -> bit_at (vb_words s') b = bit_at (vb_words s) b) /\
    (err = noErr -> forall b, in_run start num b = true -> bit_at (vb_words s') b = true).
Proof.
  intros Hok Hrun. destruct (BlockMarkAllocated_outcome s start num Hok Hrun) as (err & s' & E & Hs & _ & He & Hb & Hset).
  exists err, s'. split; [done|]. split; [apply Hs|]. split; [done|]. split; [|split; [|done]].
  - intros b Hb0 H. rewrite Hb, H by done. destruct (in_run start num b); [by rewrite orb_true_r|done].
  - intros b Hb0 H. by rewrite Hb, H by done.
Qed.
