(* ===== verification/BitmapFree.v ===== *)
(** * Freeing a run and the extent that is unmapped (core/VolumeAllocation.c)

    BlockMarkFreeInternal clears the bits of a run and looks for free blocks around
    it, in the same bitmap block, to tell the device about one larger extent. *)

From S2P Require Import Prelude HfsFormat RangeList Bitmap BitmapBits BitmapWalk BitmapMark.

(** ** One bit of a word *)

Definition bit_mask (i : Z) : Z := 2 ^ (31 - i).

Lemma land_bit_mask w i : 0 <= i < 32 -> (Z.land w (bit_mask i) =? 0) = negb (Z.testbit w (31 - i)).
Proof.
  intros Hi. unfold bit_mask. destruct (Z.testbit w (31 - i)) eqn:E; simpl.
  - apply Z.eqb_neq. intros H. assert (Z.testbit (Z.land w (2 ^ (31 - i))) (31 - i) = true) as H'.
    { rewrite Z.land_spec, E, Z.pow2_bits_true by lia. done. }
    by rewrite H, Z.bits_0 in H'.
  - apply Z.eqb_eq, Z.bits_inj'. intros j Hj. rewrite Z.bits_0, Z.land_spec.
    destruct (Z.eq_dec j (31 - i)) as [->|]; [by rewrite E|]. by rewrite Z.pow2_bits_false, andb_false_r by lia.
Qed.

Lemma high_mask i : 0 <= i < 32 -> Z.shiftr kHighBitInWordMask i = bit_mask i.
Proof.
  intros Hi. change kHighBitInWordMask with (2 ^ 31). rewrite Z.shiftr_div_pow2 by lia. unfold bit_mask.
  rewrite <- Z.pow_sub_r by lia. done.
Qed.

Lemma bit_mask_back i : 0 <= i < 32 -> u32 (Z.shiftl (bit_mask i) 1) = if i =? 0 then 0 else bit_mask (i - 1).
Proof.
  intros Hi. rewrite Z.shiftl_mul_pow2 by lia. unfold bit_mask. rewrite <- Z.pow_add_r by lia.
  destruct (Z.eqb_spec i 0) as [->|Hne]; [done|]. replace (31 - i + 1) with (31 - (i - 1)) by lia.
  apply u32_id. unfold UINT32_MAX. pose proof (Z.pow_pos_nonneg 2 (31 - (i - 1)) ltac:(lia) ltac:(lia)).
  assert (2 ^ (31 - (i - 1)) <= 2 ^ 31) by (apply Z.pow_le_mono_r; lia). lia.
Qed.

Lemma bit_mask_forward i : 0 <= i < 32 -> Z.shiftr (bit_mask i) 1 = if i =? 31 then 0 else bit_mask (i + 1).
Proof.
  intros Hi. rewrite Z.shiftr_div_pow2 by lia. unfold bit_mask. destruct (Z.eqb_spec i 31) as [->|Hne]; [done|].
  rewrite <- Z.pow_sub_r by lia. f_equal. lia.
Qed.

Lemma bit_mask_pos i : i < 32 -> (bit_mask i =? 0) = false.
Proof. intros Hi. apply Z.eqb_neq. unfold bit_mask. pose proof (Z.pow_pos_nonneg 2 (31 - i)). lia. Qed.

Section Scan.
Context (s : vbm) (Hok : vbm_ok s).
Local Notation W := (wordsPerBlock s).
Local Notation L := (Z.of_nat (length (vb_words s))).

Lemma load_word_direct c :
  0 <= cu_block c -> 0 <= cu_index c < W -> cu_block c * W + cu_index c < L ->
  exists w, load_word IgnoreReserved c s = Some (w, s) /\ vb_words s !! Z.to_nat (cu_block c * W + cu_index c) = Some w.
Proof.
  intros Hb Hi Hk. set (k := cu_block c * W + cu_index c) in *.
  destruct (lookup_lt_is_Some_2 (vb_words s) (Z.to_nat k) ltac:(nia)) as [w Ew]. exists w. split; [|done].
  pose proof (view_IgnoreReserved s k Hok ltac:(nia)) as E. unfold view in E.
  replace (k / W) with (cu_block c) in E by (apply (Z.div_unique _ _ _ (cu_index c)); lia).
  replace (k mod W) with (cu_index c) in E by (apply (Z.mod_unique _ _ (cu_block c)); lia).
  unfold load_word, mbind, VB_bind, vb_state. destruct (block_buffer s IgnoreReserved (cu_block c)); simpl in *; [|congruence].
  destruct (Z.leb_spec 0 (cu_index c)); [|lia]. by rewrite E, Ew.
Qed.

(** The bit of a cursor and a mask. *)
Lemma cursor_bit c i w :
  0 <= cu_block c * W + cu_index c -> 0 <= i < 32 ->
  vb_words s !! Z.to_nat (cu_block c * W + cu_index c) = Some w ->
  negb (Z.land w (bit_mask i) =? 0) = bit_at (vb_words s) (32 * (cu_block c * W + cu_index c) + i).
Proof.
  intros Hk Hi E. rewrite land_bit_mask, negb_involutive by done.
  rewrite (bit_at_word (vb_words s) _ w (31 - i) E) by lia. f_equal. lia.
Qed.

Lemma unmap_before_ok fuel : forall c i min p cnt,
  0 <= cu_block c -> 0 <= cu_index c < W -> (cu_block c + 1) * W <= L -> 0 <= i < 32 ->
  p = 32 * (cu_block c * W + cu_index c) + i -> 0 <= cnt -> p + cnt <= UINT32_MAX ->
  p - 32 * (cu_block c * W) < Z.of_nat fuel ->
  exists st, unmap_before c (bit_mask i) min p cnt fuel s = Some ((st, cnt + (p - st)), s) /\
    0 <= st <= p /\ (min <= p -> min <= st) /\ forall b, st <= b < p -> bit_at (vb_words s) b = false.
Proof.
  induction fuel as [|fuel IH]; intros c i min p cnt Hb Hi HL Hbit Hp Hc Hmax Hfuel; [nia|].
  assert (0 <= p) as Hp0 by nia. simpl. destruct (Z.ltb_spec min p) as [Hlt|Hge].
  2:{ exists p. split; [unfold mret, VB_ret; do 3 f_equal; lia|]. split; [lia|]. split; [lia|]. intros; lia. }
  rewrite bit_mask_back by done.
  assert (exists c' i', (if (if i =? 0 then 0 else bit_mask (i - 1)) =? 0
     then (cursor_at c (cu_index c - 1), kLowBitInWordMask) else (c, if i =? 0 then 0 else bit_mask (i - 1))) = (c', bit_mask i') /\
     cu_block c' = cu_block c /\ 0 <= i' < 32 /\ -1 <= cu_index c' < W /\ p - 1 = 32 * (cu_block c' * W + cu_index c') + i')
    as (c' & i' & -> & Ecb & Hi' & Hci & Ep).
  { destruct (Z.eqb_spec i 0) as [->|Hne].
    - exists (cursor_at c (cu_index c - 1)), 31. split; [done|]. simpl. split; [done|]. lia.
    - rewrite bit_mask_pos by lia. exists c, (i - 1). split; [done|]. split; [done|]. lia. }
  destruct (Z.ltb_spec (cu_index c') 0) as [Hneg|Hpos].
  { exists p. split; [unfold mret, VB_ret; do 3 f_equal; lia|]. split; [lia|]. split; [lia|]. intros; lia. }
  destruct (load_word_direct c') as (w & El & Ew); [lia|lia|rewrite Ecb; lia|].
  unfold mbind, VB_bind. rewrite El, (cursor_bit c' i' w) by (done || nia). rewrite <- Ep.
  destruct (bit_at (vb_words s) (p - 1)) eqn:Ebit.
  { exists p. split; [unfold mret, VB_ret; do 3 f_equal; lia|]. split; [lia|]. split; [lia|]. intros; lia. }
  assert (0 <= cu_block c' * W) by (apply Z.mul_nonneg_nonneg; lia).
  rewrite !u32_id by (unfold UINT32_MAX in *; lia).
  destruct (IH c' i' min (p - 1) (cnt + 1)) as (st & E & Hst & Hmin & Hfree); rewrite ?Ecb; try lia.
  exists st. rewrite E. split; [do 3 f_equal; lia|]. split; [lia|]. split; [lia|].
  intros b Hbr. destruct (Z.eq_dec b (p - 1)) as [->|]; [done|]. apply Hfree. lia.
Qed.

Lemma unmap_after_ok fuel : forall c i left_ max st cnt,
  0 <= cu_block c -> 0 <= cu_index c < W -> (cu_block c + 1) * W <= L -> 0 <= i < 32 ->
  left_ = W - cu_index c -> st + cnt - 1 = 32 * (cu_block c * W + cu_index c) + i -> 0 <= st -> 0 <= cnt -> max <= UINT32_MAX ->
  st + cnt <= UINT32_MAX -> 32 * ((cu_block c + 1) * W) - (st + cnt) < Z.of_nat fuel ->
  exists cnt', unmap_after c (bit_mask i) left_ max st cnt fuel s = Some (cnt', s) /\
    cnt <= cnt' /\ (st + cnt <= max -> st + cnt' <= max) /\ st + cnt' <= UINT32_MAX /\ st + cnt' <= 32 * L /\
    forall b, st + cnt <= b < st + cnt' -> bit_at (vb_words s) b = false.
Proof.
  induction fuel as [|fuel IH]; intros c i left_ max st cnt Hb Hi HL Hbit Hleft Hp Hst Hc Hmax Hle Hfuel; [nia|].
  assert (32 * (cu_block c * W + cu_index c) + i < 32 * L) as HpL by nia.
  simpl. rewrite (u32_id (st + cnt)) by (unfold UINT32_MAX in *; lia). destruct (Z.ltb_spec (st + cnt) max) as [Hlt|Hge].
  2:{ exists cnt. split; [done|]. split_and!; intros; lia. }
  rewrite bit_mask_forward by done.
  assert (forall c' i' left', cu_block c' = cu_block c -> 0 <= cu_index c' < W -> 0 <= i' < 32 -> left' = W - cu_index c' ->
    st + cnt = 32 * (cu_block c' * W + cu_index c') + i' ->
    exists cnt', (w ← load_word IgnoreReserved c';
      if negb (Z.land w (bit_mask i') =? 0) then mret cnt
      else unmap_after c' (bit_mask i') left' max st (u32 (cnt + 1)) fuel) s = Some (cnt', s) /\
    cnt <= cnt' /\ (st + cnt <= max -> st + cnt' <= max) /\ st + cnt' <= UINT32_MAX /\ st + cnt' <= 32 * L /\
    forall b, st + cnt <= b < st + cnt' -> bit_at (vb_words s) b = false) as Hgo.
  { intros c' i' left' Ecb Hci Hi' El' Ep. destruct (load_word_direct c') as (w & El & Ew); [lia|lia|rewrite Ecb; lia|].
    unfold mbind, VB_bind. rewrite El, (cursor_bit c' i' w) by (done || nia). rewrite <- Ep.
    destruct (bit_at (vb_words s) (st + cnt)) eqn:Ebit.
    { exists cnt. split; [done|]. split_and!; intros; lia. }
    rewrite u32_id by (unfold UINT32_MAX in *; lia).
    destruct (IH c' i' left' max st (cnt + 1)) as (cnt' & E & H1 & H2 & H3 & H4 & Hfree); try lia; try (rewrite Ecb; lia).
    exists cnt'. split; [done|]. split; [lia|]. split; [lia|]. split; [lia|]. split; [lia|].
    intros b Hbr. destruct (Z.eq_dec b (st + cnt)) as [->|]; [done|]. apply Hfree. lia. }
  destruct (Z.eqb_spec i 31) as [Ei|Ei].
  - rewrite Z.eqb_refl. destruct (vbm_pow2 s Hok) as (n & Hn & E2).
    assert (2 ^ n <= 2 ^ 31) by (apply Z.pow_le_mono_r; lia).
    rewrite u32_id by (unfold UINT32_MAX; lia). destruct (Z.eqb_spec (left_ - 1) 0) as [El|El]; simpl.
    + exists cnt. split; [done|]. split_and!; intros; lia.
    + change kHighBitInWordMask with (bit_mask 0). apply Hgo; simpl; lia.
  - rewrite bit_mask_pos by lia. simpl. apply Hgo; lia.
Qed.
End Scan.

(** ** The bounds of the unmap *)

Definition clear_of (start num : Z) (range : rl_entry) : Prop :=
  0 <= rl_start range <= rl_end range /\ rl_end range < UINT32_MAX /\
  (rl_end range < start \/ start + num <= rl_start range).

Lemma unmap_bounds_ok entries start num : 0 <= start -> 0 < num -> start + num <= UINT32_MAX ->
  forall min max, max <= UINT32_MAX ->
  let '(min', max') := unmap_bounds entries start num min max in
  max' <= UINT32_MAX /\
  (Forall (clear_of start num) entries -> min <= start -> start + num <= max ->
   min <= min' <= start /\ start + num <= max' <= max /\
   Forall (fun r => rl_end r < min' \/ max' <= rl_start r) entries).
Proof.
  intros Hs Hn Hle. induction entries as [|r entries IH]; intros min max Hmax; simpl.
  { split; [lia|]. intros _ ? ?. split; [lia|]. split; [lia|]. by apply Forall_nil. }
  rewrite (u32_id (start + num)) by lia.
  set (min1 := if (rl_start r <? start) && (min <=? rl_end r) then _ else _).
  set (max1 := if (start + num <=? rl_end r) && (rl_start r <? max) then _ else _).
  assert (max1 <= UINT32_MAX /\
    (clear_of start num r -> min <= start -> start + num <= max ->
     min <= min1 <= start /\ start + num <= max1 <= max /\ (rl_end r < min1 \/ max1 <= rl_start r))) as (H2 & H3).
  { subst min1 max1. pose proof (u32_bound (rl_start r)). split.
    - destruct ((start + num <=? rl_end r) && (rl_start r <? max)); lia.
    - intros ((Ha & Hb) & Hc & Hd) ? ?. rewrite !u32_id by lia.
      destruct (Z.ltb_spec (rl_start r) start), (Z.leb_spec min (rl_end r)), (Z.leb_spec (start + num) (rl_end r)),
        (Z.ltb_spec (rl_start r) max); simpl; lia. }
  specialize (IH min1 max1 H2).
  destruct (unmap_bounds entries start num min1 max1) as [min' max'].
  destruct IH as (I2 & I3). split; [lia|]. intros [Hr Hrs]%Forall_cons Hm1 Hm2.
  destruct (H3 Hr Hm1 Hm2) as (J1 & J2 & J3). destruct (I3 Hrs) as (K1 & K2 & K3); [lia|lia|].
  split; [lia|]. split; [lia|]. apply Forall_cons. split; [lia|done].
Qed.

(** ** The walk that clears the bits *)

(** What a free does to the bits: only bits of the run change, and they are cleared. *)
Definition only_cleared (start num : Z) (ws ws' : list Z) : Prop :=
  forall b, 0 <= b -> bit_at ws' b = if in_run start num b then bit_at ws' b && bit_at ws b else bit_at ws b.

Lemma clear_bits_only start num ws ws' m k : clear_bits start num ws ws' m k -> only_cleared start num ws ws'.
Proof.
  intros H b Hb. destruct (in_run start num b) eqn:E.
  - rewrite (H b Hb). by destruct (bit_at ws b), (in_part start num k m b).
  - rewrite (H b Hb). destruct (in_part start num k m b) eqn:Ep; [|by rewrite andb_true_r].
    apply in_part_run in Ep. congruence.
Qed.

Lemma clear_walk s v start num :
  vbm_ok s -> run_ok s start num ->
  exists err bad held ws' io',
    walk IgnoreReserved (clear_op v) (first_cursor s (start / bitsPerBlock s) start) start num false s
      = Some (mkWalked err bad held, state s ws' io') /\ (forall e, e ∈ io' -> e ∈ vb_io s) /\
    words_inv s ws' /\ only_cleared start num (vb_words s) ws' /\
    ((err = noErr /\ bad = false /\
      (exists c, held = Some c /\ cu_block c = (start + num - 1) / 32 / wordsPerBlock s) /\
      (forall b, 0 <= b -> in_run start num b = true -> bit_at ws' b = false) /\
      (v = true -> forall b, 0 <= b -> in_run start num b = true -> bit_at (vb_words s) b = true)) \/
     (v = true /\ err = EIO /\ bad = true /\ is_Some held /\
      exists b, 0 <= b /\ in_run start num b = true /\ bit_at (vb_words s) b = false) \/
     (err <> noErr /\ err ∈ vb_io s /\ bad = false /\ held = None)).
Proof.
  intros Hok Hrun.
  destruct (walk_clear s v start num Hok Hrun) as (m & o & bad & ws' & err & held & io' & Ewalk & Hio & Hm & Hi & Er & He).
  pose proof (run_length_le s start num Hrun) as Hlen.
  destruct (run_clear s Hok start num v m (start / 32) (vb_words s)) as (m' & ws'' & o' & acc' & Hm' & Hi' & Er' & Hc & Hcase).
  { split; [done|apply (vbm_words_ok _ Hok)]. }
  { destruct Hrun. apply Z.div_pos; lia. }
  { lia. }
  rewrite Er in Er'. injection Er' as <- <- <-. destruct Hrun as (Hs & Hn & Hle).
  exists err, bad, held, ws', io'. split; [exact Ewalk|]. split; [done|]. split; [done|].
  split; [by eapply clear_bits_only|].
  destruct Hcase as [(-> & -> & -> & Hall)|(-> & -> & -> & b & Hb & Hp & Hbit)].
  - destruct He as [(-> & -> & c & -> & Ec)|(? & ? & ->)]; [left|by right; right].
    split; [done|]. split; [done|]. split.
    { exists c. split; [done|]. rewrite Ec. f_equal. unfold run_length.
      assert (start / 32 <= (start + num - 1) / 32) by (apply Z.div_le_mono; lia). lia. }
    split.
    + intros b Hb Hr. rewrite (Hc b Hb), in_part_all, Hr by lia. by rewrite andb_false_r.
    + intros Hv b Hb Hr. apply Hall; [done|done|]. by rewrite in_part_all by lia.
  - right; left. destruct He as [-> Hh]. split_and!; try done. exists b. split; [done|]. split; [by eapply in_part_run|done].
Qed.

(** ** BlockMarkFreeInternal *)

Definition reserved_ranges (s : vbm) : list rl_entry := vb_tentative s ++ vb_locked s.

(** How a free ends. *)
Inductive free_outcome (v : bool) (start num : Z) (s s' : vbm) : Z -> option (Z * Z) -> Prop :=
| Freed us uc :
    (* every block of the run is free now *)
    (forall b, in_run start num b = true -> bit_at (vb_words s') b = false) ->
    (v = true -> forall b, in_run start num b = true -> bit_at (vb_words s) b = true) ->
    vb_inconsistent s' = vb_inconsistent s ->
    (* the extent to unmap is in the bitmap, contains the run and has only free blocks *)
    0 <= us <= start -> start + num <= us + uc <= 32 * Z.of_nat (length (vb_words s)) ->
    (forall b, us <= b < us + uc -> bit_at (vb_words s') b = false) ->
    (* and stays out of the reserved ranges when the run does *)
    (Forall (clear_of start num) (reserved_ranges s) ->
     Forall (fun r => rl_end r < us \/ us + uc <= rl_start r) (reserved_ranges s)) ->
    free_outcome v start num s s' noErr (Some (us, uc))
| FreeOfUnallocated b :
    v = true -> in_run start num b = true -> bit_at (vb_words s) b = false -> vb_inconsistent s' = true ->
    free_outcome v start num s s' EIO None
| FreeIOError err :
    err <> noErr -> err ∈ vb_io s -> vb_inconsistent s' = vb_inconsistent s ->
    free_outcome v start num s s' err None.

Lemma first_cursor_io s block start : first_cursor (snd (io_step s)) block start = first_cursor s block start.
Proof. unfold first_cursor, bitsPerBlock, wordsPerBlock, io_step. by destruct (vb_io s). Qed.

Lemma in_run_nonneg start num b : 0 <= start -> in_run start num b = true -> 0 <= b.
Proof. unfold in_run. intros Hs [H%Z.leb_le _]%andb_true_iff. lia. Qed.

Lemma unmap_bounds_both s start num :
  0 <= start -> 0 < num -> start + num <= UINT32_MAX ->
  exists min max,
    (let '(min_unmap, max_unmap) := unmap_bounds (vb_tentative s) start num 0 UINT32_MAX in
     unmap_bounds (vb_locked s) start num min_unmap max_unmap) = (min, max) /\ max <= UINT32_MAX /\
    (Forall (clear_of start num) (reserved_ranges s) ->
     min <= start /\ start + num <= max /\
     Forall (fun r => rl_end r < min \/ max <= rl_start r) (reserved_ranges s)).
Proof.
  intros Hs Hn Hle. pose proof (unmap_bounds_ok (vb_tentative s) start num Hs Hn Hle 0 UINT32_MAX ltac:(lia)) as H1.
  destruct (unmap_bounds (vb_tentative s) start num 0 UINT32_MAX) as [min1 max1]. destruct H1 as [Hm1 H1].
  pose proof (unmap_bounds_ok (vb_locked s) start num Hs Hn Hle min1 max1 Hm1) as H2.
  destruct (unmap_bounds (vb_locked s) start num min1 max1) as [min max]. destruct H2 as [Hm H2].
  exists min, max. split; [done|]. split; [done|]. unfold reserved_ranges. rewrite !Forall_app. intros [Ht Hl].
  destruct (H1 Ht) as (A1 & A2 & A3); [lia|lia|]. destruct (H2 Hl) as (B1 & B2 & B3); [lia|lia|].
  split; [lia|]. split; [lia|]. split; [|done]. eapply Forall_impl; [exact A3|]. simpl. intros; lia.
Qed.

(** The scan before the run, in the bitmap as it was. *)
Lemma scan_before s start num min :
  vbm_ok s -> run_ok s start num -> start + num <= UINT32_MAX ->
  exists us, unmap_before (first_cursor s (start / bitsPerBlock s) start)
      (Z.shiftr kHighBitInWordMask (start mod kBitsPerWord)) min start num (S (Z.to_nat (bitsPerBlock s))) s
    = Some ((us, num + (start - us)), s) /\
    0 <= us <= start /\ (min <= start -> min <= us) /\ forall b, us <= b < start -> bit_at (vb_words s) b = false.
Proof.
  intros Hok (Hs & Hn & Hle) Hmax. pose proof (wordsPerBlock_pos s Hok) as HW. pose proof (bitsPerBlock_eq s Hok) as Ebpb.
  assert (words_inv s (vb_words s)) as Hi by (split; [done|apply (vbm_words_ok s Hok)]).
  destruct (first_cursor_at s start Hok (vb_io s) (vb_words s) ltac:(lia) Hi) as [[A1 A2 A3 A4 A5] Hlt].
  unfold state in *. rewrite vbm_eta in *.
  set (c := first_cursor s (start / bitsPerBlock s) start) in *.
  pose proof (Z.mod_pos_bound start 32 ltac:(lia)). pose proof (Z.div_mod start 32 ltac:(lia)).
  unfold kBitsPerWord. rewrite high_mask by lia.
  apply (unmap_before_ok s Hok); try done; try lia.
  pose proof (block_inside s (start / 32) Hok) as Hin.
  replace (start / 32 / wordsPerBlock s) with (cu_block c) in Hin by (apply (Z.div_unique _ _ _ (cu_index c)); lia).
  apply Hin. split; [lia|]. apply Z.div_lt_upper_bound; lia.
Qed.

(** The scan after it, in the bitmap as it is now. *)
Lemma scan_after s c start num max us uc :
  vbm_ok s -> run_ok s start num -> start + num <= UINT32_MAX -> max <= UINT32_MAX ->
  cu_block c = (start + num - 1) / 32 / wordsPerBlock s -> 0 <= us -> 0 <= uc -> us + uc = start + num ->
  let last := u32 (start + num - 1) in
  let wordIndexInBlock := Z.land last (bitsPerBlock s - 1) / kBitsPerWord in
  exists uc', unmap_after (cursor_at c wordIndexInBlock) (Z.shiftr kHighBitInWordMask (last mod kBitsPerWord))
      (wordsPerBlock s - wordIndexInBlock) max us uc (S (Z.to_nat (bitsPerBlock s))) s = Some (uc', s) /\
    uc <= uc' /\ (us + uc <= max -> us + uc' <= max) /\ us + uc' <= 32 * Z.of_nat (length (vb_words s)) /\
    forall b, us + uc <= b < us + uc' -> bit_at (vb_words s) b = false.
Proof.
  intros Hok (Hs & Hn & Hle) Hmax Hm Ec Hus Huc Esum. rewrite (u32_id (start + num - 1)) by lia. intros last idx.
  pose proof (wordsPerBlock_pos s Hok) as HW. pose proof (bitsPerBlock_eq s Hok) as Ebpb.
  unfold kBitsPerWord. pose proof (Z.mod_pos_bound last 32 ltac:(lia)).
  assert (idx = last / 32 mod wordsPerBlock s) as Ei.
  { subst idx. rewrite (block_mask s Hok) by lia. unfold kBitsPerWord.
    pose proof (Z.div_mod last 32 ltac:(lia)). pose proof (Z.div_mod (last / 32) (wordsPerBlock s) ltac:(lia)).
    pose proof (Z.mod_pos_bound (last / 32) (wordsPerBlock s) HW).
    symmetry. apply (Z.div_unique _ _ _ (last mod 32)); [lia|].
    symmetry. apply (Z.mod_unique _ _ (last / 32 / wordsPerBlock s)); lia. }
  pose proof (Z.mod_pos_bound (last / 32) (wordsPerBlock s) HW).
  pose proof (Z.div_mod (last / 32) (wordsPerBlock s) ltac:(lia)). pose proof (Z.div_mod last 32 ltac:(lia)).
  assert (0 <= last / 32 / wordsPerBlock s) by (apply Z.div_pos; [apply Z.div_pos|]; lia).
  rewrite high_mask by lia.
  destruct (unmap_after_ok s Hok (S (Z.to_nat (bitsPerBlock s))) (cursor_at c idx) (last mod 32) (wordsPerBlock s - idx) max us uc)
    as (uc' & E & Hge & Hlim & _ & Hin & Hfree); simpl; rewrite ?Ec; change (start + num - 1) with last; try lia.
  { apply (block_inside s (last / 32) Hok). split; [lia|]. apply Z.div_lt_upper_bound; lia. }
  exists uc'. split; [exact E|]. auto.
Qed.

Lemma BlockMarkFreeInternal_outcome v s start num :
  vbm_ok s -> run_ok s start num -> start + num <= UINT32_MAX -> (v = true -> start + num <= vb_totalBlocks s) ->
  exists err unmap s', BlockMarkFreeInternal start num v s = Some ((err, unmap), s') /\
    same_volume s s' /\ only_cleared start num (vb_words s) (vb_words s') /\ free_outcome v start num s s' err unmap.
Proof.
  intros Hok Hrun Hmax Htotal. pose proof Hrun as (Hs & Hn & Hle).
  unfold BlockMarkFreeInternal, mbind, VB_bind, vb_state. rewrite (u32_id (start + num)) by lia.
  assert (v && (vb_totalBlocks s <? start + num) = false) as ->.
  { destruct v; [|done]. simpl. apply Z.ltb_ge. auto. }
  rewrite ReadBitmapBlock_eq. cbn [fst snd].
  pose proof (io_step_bits s) as Eb. pose proof (first_cursor_io s (start / bitsPerBlock s) start) as Ec.
  pose proof (io_step_err s) as Herr.
  destruct (io_step_with s) as (io1 & E1 & Hio1). rewrite E1 in *. set (s1 := vb_with_io io1 s) in *.
  pose proof (same_volume_io s io1 Hok Hio1) as Hsame. fold s1 in Hsame. pose proof (sv_ok _ _ Hsame) as Hok1.
  destruct (Z.eqb_spec (fst (io_step s)) noErr) as [E|E].
  2:{ exists (fst (io_step s)), None, s1. split; [done|]. split; [done|]. split.
      - intros b _. destruct (in_run start num b); [|done]. simpl. by destruct (bit_at (vb_words s) b).
      - destruct Herr as [|Herr]; [done|]. by apply FreeIOError. }
  destruct (unmap_bounds_both s start num Hs ltac:(lia) Hmax) as (min & max & Ebounds & Hmax' & Hclear).
  destruct (unmap_bounds (vb_tentative s) start num 0 UINT32_MAX) as [min1 max1]. rewrite Ebounds. clear Ebounds.
  rewrite <- Ec, <- Eb. change (wordsPerBlock s) with (wordsPerBlock s1).
  destruct (scan_before s1 start num min Hok1 Hrun Hmax) as (us & -> & Hus & Hmin & Hfree).
  destruct (clear_walk s1 v start num Hok1 Hrun) as (err & bad & held & ws' & io' & -> & Hio & Hi & Honly & Hcase).
  cbn [wk_acc wk_held wk_err]. pose proof (same_volume_state s1 ws' io' Hok1 Hi Hio) as Hsame2.
  assert (forall s3 io3, same_volume s1 s3 -> (forall e, e ∈ io3 -> e ∈ vb_io s3) -> same_volume s (vb_with_io io3 s3)) as Hfinal.
  { intros s3 io3 H3 Hio3. eapply same_volume_trans; [exact Hsame|]. eapply same_volume_trans; [exact H3|].
    apply same_volume_io; [apply H3|done]. }
  destruct Hcase as [(-> & -> & (c & -> & Hc) & Hcl & Hall)|[(-> & -> & -> & [c ->] & b & Hb & Hr & Hbit)|(Hne & Hin & -> & ->)]].
  - unfold mret, VB_ret. change (noErr =? noErr) with true. cbn [negb].
    destruct (scan_after (state s1 ws' io') c start num max us (num + (start - us))) as (uc & Euc & Hge & Hlim & Hin & Hafter);
      [apply Hsame2| |lia|lia|done|lia|lia|lia|].
    { split; [done|]. split; [done|]. rewrite (sv_length _ _ Hsame2). done. }
    change (bitsPerBlock (state s1 ws' io')) with (bitsPerBlock s1) in Euc.
    change (wordsPerBlock (state s1 ws' io')) with (wordsPerBlock s1) in Euc.
    rewrite Euc, ReleaseBitmapBlock_eq. destruct (io_step_with (state s1 ws' io')) as (io3 & E3 & Hio3).
    rewrite (surjective_pairing (io_step (state s1 ws' io'))), E3.
    exists noErr, (Some (us, uc)), (vb_with_io io3 (state s1 ws' io')). split; [done|]. split; [by apply Hfinal|].
    split; [done|]. assert (forall b, in_run start num b = true -> bit_at ws' b = false) as Hcl'.
    { intros b Hr. apply Hcl; [|done]. by eapply in_run_nonneg. }
    rewrite (sv_length _ _ Hsame2) in Hin. apply Freed; cbn [vb_words vb_with_io state vb_with_words]; try done; try lia.
    + intros Hv b Hr. apply Hall; [done| |done]. by eapply in_run_nonneg.
    + change (vb_words s1) with (vb_words s) in Hin. lia.
    + intros b Hb. destruct (Z.lt_ge_cases b start); [|destruct (Z.lt_ge_cases b (start + num))].
      * rewrite (Honly b), (Hfree b) by lia. destruct (in_run start num b); [by rewrite andb_false_r|done].
      * apply Hcl'. unfold in_run. apply andb_true_iff. rewrite Z.leb_le, Z.ltb_lt. lia.
      * apply Hafter. lia.
    + intros Hres. destruct (Hclear Hres) as (B1 & B2 & B3). eapply Forall_impl; [exact B3|]. simpl. intros r Hr. lia.
  - unfold mret, VB_ret, vb_modify. change (EIO =? noErr) with false. cbn [negb]. rewrite ReleaseBitmapBlock_eq.
    set (s3 := hfs_mark_inconsistent (state s1 ws' io')). destruct (io_step_with s3) as (io3 & E3 & Hio3).
    rewrite (surjective_pairing (io_step s3)), E3. exists EIO, None, (vb_with_io io3 s3). split; [done|].
    split; [apply Hfinal; [|done]; by destruct Hsame2 as [[] ? ? ? ? ? ?]|].
    split; [done|]. by eapply FreeOfUnallocated.
  - unfold mret, VB_ret. exists err, None, (state s1 ws' io'). split; [done|].
    split; [by eapply same_volume_trans|]. split; [done|]. apply FreeIOError; [done|by apply Hio1|done].
Qed.
