(* ===== verification/BitmapReserve.v ===== *)
(** * Reservations in a bitmap buffer (core/VolumeAllocation.c)

    process_reservations puts the reserved ranges of blocks into a copy of a bitmap
    block, 64 bits at a time.  A reader of the buffer sees a block as allocated when
    its bit is set or a range holds it. *)

From S2P Require Import Prelude HfsFormat RangeList Bitmap BitmapBits BitmapWalk BitmapMark.
Import rangelist.

Definition quad_ok (q : Z) : Prop := 0 <= q < 2 ^ 64.

(** The bit of position [b] in a buffer of quads. *)
Definition qbit_at (qs : list Z) (b : Z) : bool :=
  match qs !! Z.to_nat (b / 64) with
  | Some q => Z.testbit q (63 - b mod 64)
  | None => false
  end.

Lemma quad_ok_bits w : 0 <= w -> quad_ok w <-> (forall i, 64 <= i -> Z.testbit w i = false).
Proof.
  intros Hw. unfold quad_ok. split.
  - intros Hlt i Hi. destruct (Z.eq_dec w 0) as [->|]; [apply Z.bits_0|].
    apply Z.bits_above_log2; [lia|]. assert (Z.log2 w < 64) by (apply Z.log2_lt_pow2; lia). lia.
  - intros H. split; [done|]. destruct (Z.eq_dec w 0) as [->|]; [lia|].
    apply Z.log2_lt_pow2; [lia|]. destruct (Z.lt_ge_cases (Z.log2 w) 64) as [|Hge]; [done|].
    specialize (H (Z.log2 w) Hge). rewrite Z.bit_log2 in H by lia. done.
Qed.

Lemma quad_ok_lor w m : quad_ok w -> quad_ok m -> quad_ok (Z.lor w m).
Proof.
  intros H1 H2. assert (0 <= w /\ 0 <= m) as [Hw Hm] by (unfold quad_ok in *; lia).
  apply quad_ok_bits; [by apply Z.lor_nonneg|]. intros i Hi. rewrite Z.lor_spec.
  rewrite (proj1 (quad_ok_bits w Hw) H1), (proj1 (quad_ok_bits m Hm) H2) by done. done.
Qed.

Lemma quad_ok_land w m : quad_ok w -> 0 <= m -> quad_ok (Z.land w m).
Proof.
  intros H1 Hm. assert (0 <= w) as Hw by (unfold quad_ok in *; lia).
  apply quad_ok_bits; [apply Z.land_nonneg; auto|]. intros i Hi. rewrite Z.land_spec.
  by rewrite (proj1 (quad_ok_bits w Hw) H1).
Qed.

(** ** The masks *)

Lemma ALL64_testbit i : 0 <= i -> Z.testbit ALL64 i = (i <? 64).
Proof.
  intros Hi. change ALL64 with (Z.ones 64). destruct (Z.ltb_spec i 64).
  - by apply Z.ones_spec_low.
  - by apply Z.ones_spec_high.
Qed.

Lemma RIGHT_MASK_testbit bit b : 0 <= bit -> 0 <= b < 64 -> Z.testbit (RIGHT_MASK bit) (63 - b) = (bit <=? b).
Proof. intros Hbit Hb. unfold RIGHT_MASK. rewrite Z.shiftr_spec, ALL64_testbit by lia. destruct (Z.ltb_spec (63 - b + bit) 64), (Z.leb_spec bit b); lia || done. Qed.

Lemma LEFT_MASK_testbit bit b : 0 < bit < 64 -> 0 <= b < 64 -> Z.testbit (LEFT_MASK bit) (63 - b) = (b <? bit).
Proof.
  intros Hbit Hb. unfold LEFT_MASK, u64, wrap. rewrite Z.mod_pow2_bits_low, Z.shiftl_spec by lia.
  destruct (Z.ltb_spec b bit).
  - rewrite ALL64_testbit by lia. destruct (Z.ltb_spec (63 - b - (64 - bit)) 64); [done|lia].
  - by rewrite Z.testbit_neg_r by lia.
Qed.

Lemma quad_ok_RIGHT bit : 0 <= bit -> quad_ok (RIGHT_MASK bit).
Proof.
  intros Hb. unfold RIGHT_MASK. apply quad_ok_bits; [by apply Z.shiftr_nonneg|]. intros i Hi.
  rewrite Z.shiftr_spec, ALL64_testbit by lia. destruct (Z.ltb_spec (i + bit) 64); [lia|done].
Qed.

Lemma quad_ok_LEFT bit : quad_ok (LEFT_MASK bit).
Proof. apply (wrap_bound 64). lia. Qed.

(** ** bits_set *)

Lemma qbit_at_insert qs p q b :
  (p < length qs)%nat -> 0 <= b ->
  qbit_at (<[p := q]> qs) b = if b / 64 =? Z.of_nat p then Z.testbit q (63 - b mod 64) else qbit_at qs b.
Proof.
  intros Hp Hb. unfold qbit_at. pose proof (Z.div_pos b 64 Hb ltac:(lia)). destruct (Z.eqb_spec (b / 64) (Z.of_nat p)) as [E|Hne].
  - replace (Z.to_nat (b / 64)) with p by lia. by rewrite list_lookup_insert_eq.
  - rewrite list_lookup_insert_ne by lia. done.
Qed.

(** Setting bits with a mask in one quad. *)
Lemma qbit_at_lor qs p q m b :
  qs !! p = Some q -> 0 <= b ->
  qbit_at (<[p := Z.lor q m]> qs) b = qbit_at qs b || ((b / 64 =? Z.of_nat p) && Z.testbit m (63 - b mod 64)).
Proof.
  intros E Hb. assert (p < length qs)%nat by (eapply lookup_lt_Some; exact E). rewrite qbit_at_insert by done.
  destruct (Z.eqb_spec (b / 64) (Z.of_nat p)) as [Eb|]; [|by rewrite orb_false_r].
  rewrite Z.lor_spec. unfold qbit_at. rewrite Eb, Nat2Z.id, E. done.
Qed.

Lemma quads_ok_insert qs p q : Forall quad_ok qs -> quad_ok q -> Forall quad_ok (<[p := q]> qs).
Proof. intros. by apply Forall_insert. Qed.

Lemma fill_quads_ok n : forall qs p,
  Forall quad_ok qs -> (p + n <= length qs)%nat ->
  exists qs', fill_quads qs p n = Some qs' /\ length qs' = length qs /\ Forall quad_ok qs' /\
    forall b, 0 <= b -> qbit_at qs' b = qbit_at qs b || ((Z.of_nat p <=? b / 64) && (b / 64 <? Z.of_nat (p + n))).
Proof.
  induction n as [|n IH]; intros qs p Hok Hle.
  { exists qs. split; [done|]. split; [done|]. split; [done|]. intros b Hb.
    destruct (Z.leb_spec (Z.of_nat p) (b / 64)), (Z.ltb_spec (b / 64) (Z.of_nat (p + 0))); simpl; try lia; by rewrite orb_false_r. }
  destruct (lookup_lt_is_Some_2 qs p ltac:(lia)) as [q E]. simpl. rewrite E. simpl.
  destruct (IH (<[p := ALL64]> qs) (S p)) as (qs' & Ef & Hl & Hok' & Hb).
  { by apply quads_ok_insert. }
  { rewrite length_insert. lia. }
  exists qs'. split; [done|]. rewrite length_insert in Hl. split; [done|]. split; [done|].
  intros b Hb0. rewrite Hb, qbit_at_insert by lia. pose proof (Z.mod_pos_bound b 64 ltac:(lia)).
  destruct (Z.eqb_spec (b / 64) (Z.of_nat p)) as [Ep|Ep].
  - rewrite ALL64_testbit by lia. destruct (Z.ltb_spec (63 - b mod 64) 64), (Z.leb_spec (Z.of_nat p) (b / 64)),
      (Z.ltb_spec (b / 64) (Z.of_nat (p + S n))); simpl; try lia; by rewrite orb_true_r.
  - f_equal. destruct (Z.leb_spec (Z.of_nat (S p)) (b / 64)), (Z.ltb_spec (b / 64) (Z.of_nat (S p + n))),
      (Z.leb_spec (Z.of_nat p) (b / 64)), (Z.ltb_spec (b / 64) (Z.of_nat (p + S n))); simpl; lia || done.
Qed.

Lemma land_63 x : 0 <= x -> Z.land x 63 = x mod 64.
Proof. intros. change 63 with (Z.ones 6). by rewrite Z.land_ones. Qed.

Lemma land_lnot_63 x : 0 <= x -> Z.land x (Z.lnot 63) = x / 64 * 64.
Proof.
  intros. change 63 with (Z.ones 6). rewrite <- Z.ldiff_land, Z.ldiff_ones_r by lia.
  rewrite Z.shiftl_mul_pow2, Z.shiftr_div_pow2 by lia. done.
Qed.

Lemma bits_set_spec qs start end_ :
  Forall quad_ok qs -> 0 <= start < end_ -> end_ <= 64 * Z.of_nat (length qs) ->
  exists qs', bits_set qs start end_ = Some qs' /\ length qs' = length qs /\ Forall quad_ok qs' /\
    forall b, 0 <= b -> qbit_at qs' b = qbit_at qs b || ((start <=? b) && (b <? end_)).
Proof.
  intros Hok Hs He. unfold bits_set. rewrite !land_63, !land_lnot_63 by lia.
  pose proof (Z.div_mod start 64 ltac:(lia)). pose proof (Z.mod_pos_bound start 64 ltac:(lia)).
  pose proof (Z.div_mod end_ 64 ltac:(lia)). pose proof (Z.mod_pos_bound end_ 64 ltac:(lia)).
  assert (Z.of_nat (Z.to_nat (start / 64)) = start / 64) as Ep by (rewrite Z2Nat.id; [done|apply Z.div_pos; lia]).
  set (p := Z.to_nat (start / 64)) in *.
  destruct (lookup_lt_is_Some_2 qs p ltac:(lia)) as [q Eq]. rewrite Eq. cbn [mbind option_bind].
  assert (quad_ok q) as Hq by (by eapply (Forall_lookup_1 quad_ok qs)).
  destruct (Z.eqb_spec (start / 64 * 64) (end_ / 64 * 64)) as [Es|Es].
  - eexists. split; [done|]. rewrite length_insert. split; [done|]. split.
    { apply quads_ok_insert; [done|]. apply quad_ok_lor; [done|]. apply quad_ok_land; [apply quad_ok_RIGHT; lia|].
      pose proof (quad_ok_LEFT (end_ mod 64)) as Hl. unfold quad_ok in Hl. lia. }
    intros b Hb. rewrite (qbit_at_lor qs p q) by done. f_equal. rewrite Ep.
    pose proof (Z.div_mod b 64 ltac:(lia)). pose proof (Z.mod_pos_bound b 64 ltac:(lia)).
    rewrite Z.land_spec, RIGHT_MASK_testbit, LEFT_MASK_testbit by lia.
    destruct (Z.eqb_spec (b / 64) (start / 64)), (Z.leb_spec (start mod 64) (b mod 64)), (Z.ltb_spec (b mod 64) (end_ mod 64)),
      (Z.leb_spec start b), (Z.ltb_spec b end_); simpl; lia || done.
  - assert (Z.to_nat (Z.quot (end_ - end_ mod 64 - start - 1) 64) = Z.to_nat (end_ / 64 - start / 64 - 1)) as En.
    { f_equal. rewrite Z.quot_div_nonneg by lia. symmetry. apply (Z.div_unique _ _ _ (63 - start mod 64)); lia. }
    rewrite En.
    assert (quad_ok (Z.lor q (RIGHT_MASK (start mod 64)))) as Hq1 by (apply quad_ok_lor; [done|apply quad_ok_RIGHT; lia]).
    destruct (fill_quads_ok (Z.to_nat (end_ / 64 - start / 64 - 1)) (<[p := Z.lor q (RIGHT_MASK (start mod 64))]> qs) (S p))
      as (qs1 & Ef & Hl & Hok1 & Hb1).
    { by apply quads_ok_insert. }
    { rewrite length_insert. lia. }
    rewrite Ef. cbn [mbind option_bind]. rewrite length_insert in Hl.
    assert (forall b, 0 <= b -> qbit_at qs1 b = qbit_at qs b || ((start <=? b) && (b / 64 <? end_ / 64))) as Hb2.
    { intros b Hb. rewrite (Hb1 b Hb), (qbit_at_lor qs p q), Ep by done. rewrite <- orb_assoc. f_equal.
      pose proof (Z.div_mod b 64 ltac:(lia)). pose proof (Z.mod_pos_bound b 64 ltac:(lia)).
      rewrite RIGHT_MASK_testbit by lia.
      destruct (Z.eqb_spec (b / 64) (start / 64)), (Z.leb_spec (start mod 64) (b mod 64)),
        (Z.leb_spec (Z.of_nat (S p)) (b / 64)), (Z.ltb_spec (b / 64) (Z.of_nat (S p + Z.to_nat (end_ / 64 - start / 64 - 1)))),
        (Z.leb_spec start b), (Z.ltb_spec (b / 64) (end_ / 64)); simpl; lia || done. }
    destruct (Z.eqb_spec (end_ mod 64) 0) as [E0|E0]; cbn [negb].
    + exists qs1. split; [done|]. split; [done|]. split; [done|]. intros b Hb. rewrite Hb2 by done. f_equal. f_equal.
      pose proof (Z.div_mod b 64 ltac:(lia)). pose proof (Z.mod_pos_bound b 64 ltac:(lia)).
      destruct (Z.ltb_spec (b / 64) (end_ / 64)), (Z.ltb_spec b end_); lia || done.
    + replace (S p + Z.to_nat (end_ / 64 - start / 64 - 1))%nat with (Z.to_nat (end_ / 64)) by lia.
      destruct (lookup_lt_is_Some_2 qs1 (Z.to_nat (end_ / 64)) ltac:(lia)) as [q2 Eq2]. rewrite Eq2. cbn [mbind option_bind].
      assert (quad_ok q2) as Hq2 by (by eapply (Forall_lookup_1 quad_ok qs1)).
      eexists. split; [done|]. rewrite length_insert. split; [done|]. split.
      { apply quads_ok_insert; [done|]. apply quad_ok_lor; [done|apply quad_ok_LEFT]. }
      intros b Hb. rewrite (qbit_at_lor qs1 _ q2), Hb2 by done. rewrite <- orb_assoc. f_equal.
      pose proof (Z.div_mod b 64 ltac:(lia)). pose proof (Z.mod_pos_bound b 64 ltac:(lia)).
      rewrite LEFT_MASK_testbit, Z2Nat.id by lia.
      destruct (Z.leb_spec start b), (Z.ltb_spec (b / 64) (end_ / 64)), (Z.eqb_spec (b / 64) (end_ / 64)),
        (Z.ltb_spec (b mod 64) (end_ mod 64)), (Z.ltb_spec b end_); simpl; lia || done.
Qed.

(** ** Words and quads *)

Lemma to_quads_lookup i : forall ws, Nat.Even (length ws) ->
  to_quads ws !! i = (w1 ← ws !! (2 * i)%nat; w2 ← ws !! (2 * i + 1)%nat; Some (Z.lor (Z.shiftl w1 32) w2)).
Proof.
  induction i as [|i IH]; intros [|w1 [|w2 ws]] Hev; try done.
  - replace (2 * S i)%nat with (S (S (2 * i))) by lia. replace (S (S (2 * i)) + 1)%nat with (S (S (2 * i + 1))) by lia.
    simpl. replace (i + (i + 0))%nat with (2 * i)%nat by lia. apply IH. destruct Hev as [h E]. exists (h - 1)%nat. simpl in E. lia.
Qed.

Lemma to_quads_length n : forall ws, length ws = (2 * n)%nat -> length (to_quads ws) = n.
Proof.
  induction n as [|n IH]; intros [|w1 [|w2 ws]] E; simpl in *; try lia. rewrite IH by lia. done.
Qed.

Lemma of_quads_cons q qs : of_quads (q :: qs) = Z.shiftr q 32 :: Z.land q 0xFFFFFFFF :: of_quads qs.
Proof. done. Qed.

Lemma of_quads_length qs : length (of_quads qs) = (2 * length qs)%nat.
Proof. induction qs as [|q qs IH]; [done|]. rewrite of_quads_cons. simpl. rewrite IH. lia. Qed.

Lemma of_quads_lookup i : forall qs,
  of_quads qs !! (2 * i)%nat = (fun q => Z.shiftr q 32) <$> qs !! i /\
  of_quads qs !! (2 * i + 1)%nat = (fun q => Z.land q 0xFFFFFFFF) <$> qs !! i.
Proof.
  induction i as [|i IH]; intros [|q qs]; try done.
  rewrite of_quads_cons. replace (2 * S i)%nat with (S (S (2 * i))) by lia.
  replace (S (S (2 * i)) + 1)%nat with (S (S (2 * i + 1))) by lia. apply IH.
Qed.

Lemma quad_testbit w1 w2 b :
  word_ok w1 -> word_ok w2 -> 0 <= b < 64 ->
  Z.testbit (Z.lor (Z.shiftl w1 32) w2) (63 - b) = if b <? 32 then Z.testbit w1 (31 - b) else Z.testbit w2 (63 - b).
Proof.
  intros H1 H2 Hb. rewrite Z.lor_spec, Z.shiftl_spec by lia. destruct (Z.ltb_spec b 32).
  - rewrite (proj1 (word_ok_bits w2 ltac:(unfold word_ok in *; lia)) H2) by lia. rewrite orb_false_r. f_equal. lia.
  - by rewrite Z.testbit_neg_r by lia.
Qed.

Lemma quad_ok_words w1 w2 : word_ok w1 -> word_ok w2 -> quad_ok (Z.lor (Z.shiftl w1 32) w2).
Proof.
  intros H1 H2. assert (0 <= w1 /\ 0 <= w2) as [? ?] by (unfold word_ok in *; lia).
  apply quad_ok_bits; [apply Z.lor_nonneg; split; [by apply Z.shiftl_nonneg|done]|].
  intros i Hi. rewrite Z.lor_spec, Z.shiftl_spec by lia.
  rewrite (proj1 (word_ok_bits w1 ltac:(done)) H1), (proj1 (word_ok_bits w2 ltac:(done)) H2) by lia. done.
Qed.

Lemma to_quads_ok n : forall ws, length ws = (2 * n)%nat -> Forall word_ok ws -> Forall quad_ok (to_quads ws).
Proof.
  induction n as [|n IH]; intros [|w1 [|w2 ws]] E Hok; simpl in *; try lia; [by apply Forall_nil|].
  apply Forall_cons in Hok as [H1 Hok]. apply Forall_cons in Hok as [H2 Hok].
  apply Forall_cons. split; [by apply quad_ok_words|]. apply IH; [lia|done].
Qed.

(** The word of a position in its quad. *)
Lemma half_index b : 0 <= b ->
  Z.to_nat (b / 32) = if b mod 64 <? 32 then (2 * Z.to_nat (b / 64))%nat else (2 * Z.to_nat (b / 64) + 1)%nat.
Proof.
  intros Hb. pose proof (Z.div_mod b 64 ltac:(lia)). pose proof (Z.mod_pos_bound b 64 ltac:(lia)).
  pose proof (Z.div_pos b 64 ltac:(lia) ltac:(lia)). destruct (Z.ltb_spec (b mod 64) 32).
  - assert (b / 32 = 2 * (b / 64)) as -> by (symmetry; apply (Z.div_unique _ _ _ (b mod 64)); lia). lia.
  - assert (b / 32 = 2 * (b / 64) + 1) as -> by (symmetry; apply (Z.div_unique _ _ _ (b mod 64 - 32)); lia). lia.
Qed.

Lemma half_mod b : 0 <= b -> b mod 32 = if b mod 64 <? 32 then b mod 64 else b mod 64 - 32.
Proof.
  intros Hb. pose proof (Z.div_mod b 64 ltac:(lia)). pose proof (Z.mod_pos_bound b 64 ltac:(lia)).
  destruct (Z.ltb_spec (b mod 64) 32); symmetry.
  - apply (Z.mod_unique _ _ (2 * (b / 64))); lia.
  - apply (Z.mod_unique _ _ (2 * (b / 64) + 1)); lia.
Qed.

Lemma to_quads_bit n ws b :
  length ws = (2 * n)%nat -> Forall word_ok ws -> 0 <= b -> qbit_at (to_quads ws) b = bit_at ws b.
Proof.
  intros Hl Hok Hb. unfold qbit_at, bit_at. rewrite to_quads_lookup by (exists n; lia).
  rewrite half_index, half_mod by done. pose proof (Z.mod_pos_bound b 64 ltac:(lia)).
  destruct (ws !! (2 * Z.to_nat (b / 64))%nat) as [w1|] eqn:E1.
  - destruct (lookup_lt_is_Some_2 ws (2 * Z.to_nat (b / 64) + 1)%nat) as [w2 E2].
    { apply lookup_lt_Some in E1. lia. }
    rewrite E2. cbn [mbind option_bind].
    rewrite quad_testbit by (done || by eapply (Forall_lookup_1 word_ok ws)).
    destruct (Z.ltb_spec (b mod 64) 32); [by rewrite E1|]. rewrite E2. f_equal. lia.
  - cbn [mbind option_bind]. destruct (b mod 64 <? 32); [by rewrite E1|].
    rewrite lookup_ge_None_2; [done|]. apply lookup_ge_None in E1. lia.
Qed.

Lemma of_quads_bit qs b : 0 <= b -> bit_at (of_quads qs) b = qbit_at qs b.
Proof.
  intros Hb. unfold qbit_at, bit_at. rewrite half_index, half_mod by done.
  destruct (of_quads_lookup (Z.to_nat (b / 64)) qs) as [E1 E2]. pose proof (Z.mod_pos_bound b 64 ltac:(lia)).
  destruct (Z.ltb_spec (b mod 64) 32).
  - rewrite E1. destruct (qs !! Z.to_nat (b / 64)) as [q|]; [|done]. simpl. rewrite Z.shiftr_spec by lia. f_equal. lia.
  - rewrite E2. destruct (qs !! Z.to_nat (b / 64)) as [q|]; [|done]. simpl.
    change 4294967295 with (Z.ones 32). rewrite Z.land_spec, Z.ones_spec_low, andb_true_r by lia. f_equal. lia.
Qed.

Lemma of_quads_ok qs : Forall quad_ok qs -> Forall word_ok (of_quads qs).
Proof.
  induction 1 as [|q qs Hq Hqs IH]; [by apply Forall_nil|]. rewrite of_quads_cons.
  apply Forall_cons. split; [|apply Forall_cons; split; [|done]].
  - unfold word_ok, quad_ok in *. rewrite Z.shiftr_div_pow2 by lia. split; [apply Z.div_pos; lia|].
    apply Z.div_lt_upper_bound; lia.
  - change 4294967295 with (Z.ones 32). rewrite Z.land_ones by lia. apply Z.mod_pos_bound. lia.
Qed.

(** ** The reserved ranges *)

Definition in_ranges (entries : list rl_entry) (b : Z) : bool :=
  existsb (fun r => (rl_start r <=? b) && (b <=? rl_end r)) entries.

Definition range_ok (r : rl_entry) : Prop := 0 <= rl_start r <= rl_end r /\ rl_end r < UINT32_MAX.

Lemma in_ranges_app l1 l2 b : in_ranges (l1 ++ l2) b = in_ranges l1 b || in_ranges l2 b.
Proof. apply existsb_app. Qed.

Lemma process_entries_ok entries offset end_ :
  Forall range_ok entries -> 0 <= offset -> end_ <= UINT32_MAX -> forall quads,
  Forall quad_ok quads -> (0 < length quads)%nat -> end_ = offset + 64 * Z.of_nat (length quads) - 1 ->
  exists done quads', process_entries entries quads offset end_ = Some (done, quads') /\
    length quads' = length quads /\ Forall quad_ok quads' /\
    (forall b, 0 <= b < 64 * Z.of_nat (length quads) ->
      qbit_at quads' b = qbit_at quads b || in_ranges entries (offset + b)) /\
    (done = true -> forall b, 0 <= b < 64 * Z.of_nat (length quads) -> qbit_at quads' b = true).
Proof.
  intros Hr Ho He. induction Hr as [|r entries [H0 H1] Hr IH]; intros quads Hok Hlen Eend.
  { exists false, quads. split; [done|]. split; [done|]. split; [done|]. split; [|done]. intros b _. by rewrite orb_false_r. }
  simpl. assert (forall a c, offset <= a <= c -> c <= end_ ->
    (forall b, 0 <= b < 64 * Z.of_nat (length quads) -> (rl_start r <=? offset + b) && (offset + b <=? rl_end r) = (a <=? offset + b) && (offset + b <=? c)) ->
    exists done quads', (quads ← bits_set quads (u32 (u32 a - offset)) (u32 (u32 c - offset) + 1);
        process_entries entries quads offset end_) = Some (done, quads') /\
      length quads' = length quads /\ Forall quad_ok quads' /\
      (forall b, 0 <= b < 64 * Z.of_nat (length quads) ->
        qbit_at quads' b = qbit_at quads b || ((rl_start r <=? offset + b) && (offset + b <=? rl_end r) || in_ranges entries (offset + b))) /\
      (done = true -> forall b, 0 <= b < 64 * Z.of_nat (length quads) -> qbit_at quads' b = true)) as Hset.
  { intros a c Ha Hc Heq. unfold UINT32_MAX in *.
    rewrite (u32_id a), (u32_id c), (u32_id (a - offset)), (u32_id (c - offset)) by (unfold UINT32_MAX; lia).
    destruct (bits_set_spec quads (a - offset) (c - offset + 1) Hok) as (q1 & -> & Hl1 & Hok1 & Hb1); [lia|lia|].
    cbn [mbind option_bind]. destruct (IH q1 Hok1) as (d & q2 & Ep & Hl2 & Hok2 & Hb2 & Hd); [lia|lia|].
    exists d, q2. split; [done|]. rewrite Hl1 in *. split; [done|]. split; [done|]. split; [|done].
    intros b Hb. rewrite Hb2, Hb1, <- orb_assoc by lia. f_equal. f_equal. rewrite Heq by done.
    destruct (Z.leb_spec (a - offset) b), (Z.ltb_spec b (c - offset + 1)), (Z.leb_spec a (offset + b)), (Z.leb_spec (offset + b) c); simpl; lia || done. }
  pose proof (rl_overlap_cases r offset end_ ltac:(lia)) as Hcase.
  assert (rl_start r <= offset /\ end_ <= rl_end r ->
    exists done quads', Some (true, (fun _ : Z => ALL64) <$> quads) = Some (done, quads') /\
      length quads' = length quads /\ Forall quad_ok quads' /\
      (forall b, 0 <= b < 64 * Z.of_nat (length quads) ->
        qbit_at quads' b = qbit_at quads b || ((rl_start r <=? offset + b) && (offset + b <=? rl_end r) || in_ranges entries (offset + b))) /\
      (done = true -> forall b, 0 <= b < 64 * Z.of_nat (length quads) -> qbit_at quads' b = true)) as Hall.
  { intros [Hc1 Hc2].
    assert (forall b, 0 <= b < 64 * Z.of_nat (length quads) -> qbit_at ((fun _ : Z => ALL64) <$> quads) b = true) as Ht.
    { intros b Hb. unfold qbit_at. rewrite list_lookup_fmap. pose proof (Z.div_pos b 64).
      assert (b / 64 < Z.of_nat (length quads)) by (apply Z.div_lt_upper_bound; lia).
      destruct (lookup_lt_is_Some_2 quads (Z.to_nat (b / 64)) ltac:(lia)) as [q ->]. simpl.
      pose proof (Z.mod_pos_bound b 64 ltac:(lia)). rewrite ALL64_testbit by lia. by apply Z.ltb_lt; lia. }
    exists true, ((fun _ : Z => ALL64) <$> quads). split; [done|]. split; [by rewrite length_fmap|]. split.
    { apply Forall_fmap, Forall_forall. intros; simpl. done. }
    split; [|done]. intros b Hb. rewrite Ht by done. symmetry. rewrite !orb_true_iff. right; left.
    rewrite andb_true_iff, !Z.leb_le. lia. }
  destruct (rl_overlap r offset end_); try (apply Hall; lia).
  - destruct (IH quads Hok Hlen Eend) as (d & q2 & Ep & Hl2 & Hok2 & Hb2 & Hd). exists d, q2. split; [done|].
    split; [done|]. split; [done|]. split; [|done]. intros b Hb. rewrite Hb2 by done. f_equal.
    destruct (Z.leb_spec (rl_start r) (offset + b)), (Z.leb_spec (offset + b) (rl_end r)); simpl; lia || done.
  - apply Hset; [lia|lia|done].
  - apply Hset; [lia|lia|]. intros b Hb. destruct (Z.leb_spec (rl_start r) (offset + b)), (Z.leb_spec offset (offset + b)); lia || done.
  - apply Hset; [lia|lia|]. intros b Hb. destruct (Z.leb_spec (offset + b) (rl_end r)), (Z.leb_spec (offset + b) end_); lia || done.
Qed.

(** ** What a buffer shows *)

(** The ranges that a read puts in. *)
Definition ranges_of (s : vbm) (flags : reservations) : list rl_entry :=
  match flags with
  | IgnoreReserved => []
  | IgnoreTentative => vb_locked s
  | WithReserved => vb_tentative s ++ vb_locked s
  end.

Lemma process_reservations_ok s buffer offset ignore_tentative n :
  Forall range_ok (vb_tentative s) -> Forall range_ok (vb_locked s) ->
  length buffer = (2 * n)%nat -> (0 < n)%nat -> Forall word_ok buffer -> 0 <= offset ->
  offset + 64 * Z.of_nat n - 1 <= UINT32_MAX ->
  exists buffer', process_reservations s buffer offset ignore_tentative = Some buffer' /\
    length buffer' = length buffer /\ Forall word_ok buffer' /\
    forall b, 0 <= b < 64 * Z.of_nat n ->
      bit_at buffer' b = bit_at buffer b || in_ranges ((if ignore_tentative then [] else vb_tentative s) ++ vb_locked s) (offset + b).
Proof.
  intros Ht Hl Hlen Hn Hok Ho He. unfold process_reservations, kBytesPerWord.
  pose proof (to_quads_length n buffer Hlen) as Hq. pose proof (to_quads_ok n buffer Hlen Hok) as Hqok.
  set (end_ := offset + 4 * Z.of_nat (length buffer) * 8 - 1).
  assert (end_ = offset + 64 * Z.of_nat (length (to_quads buffer)) - 1) as Eend by (subst end_; lia).
  assert (exists done q1, (if ignore_tentative then Some (false, to_quads buffer)
      else process_entries (vb_tentative s) (to_quads buffer) offset end_) = Some (done, q1) /\
    length q1 = n /\ Forall quad_ok q1 /\
    (forall b, 0 <= b < 64 * Z.of_nat n ->
      qbit_at q1 b = bit_at buffer b || in_ranges (if ignore_tentative then [] else vb_tentative s) (offset + b)) /\
    (done = true -> forall b, 0 <= b < 64 * Z.of_nat n -> qbit_at q1 b = true)) as (d & q1 & -> & Hl1 & Hok1 & Hb1 & Hd).
  { destruct ignore_tentative.
    - exists false, (to_quads buffer). split; [done|]. split; [done|]. split; [done|]. split; [|done].
      intros b Hb. rewrite (to_quads_bit n), orb_false_r by (done || lia). done.
    - destruct (process_entries_ok (vb_tentative s) offset end_ Ht Ho ltac:(lia) (to_quads buffer) Hqok ltac:(lia) Eend)
        as (d & q1 & E & Hl1 & Hok1 & Hb1 & Hd). rewrite Hq in *. exists d, q1. split; [done|]. split; [done|]. split; [done|].
      split; [|done]. intros b Hb. rewrite Hb1, (to_quads_bit n) by (done || lia). done. }
  cbn [mbind option_bind]. destruct d.
  - exists (of_quads q1). split; [done|]. rewrite of_quads_length. split; [lia|]. split; [by apply of_quads_ok|].
    intros b Hb. rewrite of_quads_bit by lia. rewrite in_ranges_app, orb_assoc, <- Hb1 by done. by rewrite Hd.
  - destruct (process_entries_ok (vb_locked s) offset end_ Hl Ho ltac:(lia) q1 Hok1 ltac:(lia) ltac:(lia))
      as (d2 & q2 & -> & Hl2 & Hok2 & Hb2 & _). cbn [mbind option_bind].
    exists (of_quads q2). split; [done|]. rewrite of_quads_length. split; [lia|]. split; [by apply of_quads_ok|].
    intros b Hb. rewrite of_quads_bit by lia. rewrite Hb2, Hb1, in_ranges_app, orb_assoc by lia. done.
Qed.

Lemma bit_at_take_drop ws m n b :
  0 <= b < 32 * Z.of_nat n -> bit_at (take n (drop m ws)) b = bit_at ws (32 * Z.of_nat m + b).
Proof.
  intros Hb. unfold bit_at. pose proof (Z.div_pos b 32).
  assert (b / 32 < Z.of_nat n) by (apply Z.div_lt_upper_bound; lia).
  rewrite lookup_take_lt, lookup_drop by lia.
  replace ((32 * Z.of_nat m + b) / 32) with (Z.of_nat m + b / 32) by (rewrite Z.mul_comm, Z.div_add_l; lia).
  replace ((32 * Z.of_nat m + b) mod 32) with (b mod 32) by (rewrite Z.add_comm, Z.mul_comm, Z_mod_plus_full; lia).
  replace (Z.to_nat (Z.of_nat m + b / 32)) with (m + Z.to_nat (b / 32))%nat by lia. done.
Qed.

(** A block seen as allocated. *)
Definition seen (s : vbm) (flags : reservations) (b : Z) : bool :=
  bit_at (vb_words s) b || in_ranges (ranges_of s flags) b.

Lemma block_buffer_ok s flags block :
  vbm_ok s -> Forall range_ok (vb_tentative s) -> Forall range_ok (vb_locked s) ->
  0 <= block -> (block + 1) * wordsPerBlock s <= Z.of_nat (length (vb_words s)) ->
  exists buffer, block_buffer s flags block = Some buffer /\
    length buffer = Z.to_nat (wordsPerBlock s) /\ Forall word_ok buffer /\
    forall b, 0 <= b < 32 * wordsPerBlock s -> bit_at buffer b = seen s flags (32 * wordsPerBlock s * block + b).
Proof.
  intros Hok Ht Hl Hb Hin. pose proof (wordsPerBlock_pos s Hok) as HW. pose proof (vbm_small s Hok) as Hsmall.
  destruct (vbm_pow2 s Hok) as (p & Hp & E2).
  assert (exists n, wordsPerBlock s = 2 * n /\ 0 < n) as (n & En & Hn).
  { exists (2 ^ (p - 6)). pose proof (Z.pow_pos_nonneg 2 (p - 6) ltac:(lia) ltac:(lia)). split; [|done].
    replace p with (6 + (p - 6)) in E2 by lia. rewrite Z.pow_add_r in E2 by lia. lia. }
  unfold block_buffer. set (raw := take _ _).
  assert (length raw = Z.to_nat (wordsPerBlock s)) as Hlen by (by apply block_words).
  assert (Forall word_ok raw) as Hraw by (apply Forall_take, Forall_drop, (vbm_words_ok s Hok)).
  assert (forall b, 0 <= b < 32 * wordsPerBlock s -> bit_at raw b = bit_at (vb_words s) (32 * wordsPerBlock s * block + b)) as Hbits.
  { intros b Hb'. subst raw. rewrite bit_at_take_drop by lia. f_equal. nia. }
  rewrite bool_decide_eq_true_2 by done.
  assert (forall it, exists buffer', process_reservations s raw (block * vb_iosize s * 8) it = Some buffer' /\
    length buffer' = Z.to_nat (wordsPerBlock s) /\ Forall word_ok buffer' /\
    forall b, 0 <= b < 32 * wordsPerBlock s -> bit_at buffer' b = bit_at (vb_words s) (32 * wordsPerBlock s * block + b) ||
      in_ranges ((if it then [] else vb_tentative s) ++ vb_locked s) (32 * wordsPerBlock s * block + b)) as Hres.
  { intros it. rewrite (vbm_iosize s Hok).
    destruct (process_reservations_ok s raw (block * (4 * wordsPerBlock s) * 8) it (Z.to_nat n)) as (buf & E & H1 & H2 & H3);
      try done; try lia; [unfold UINT32_MAX; nia|].
    exists buf. split; [done|]. split; [lia|]. split; [done|]. intros b Hb'. rewrite H3, Hbits by lia.
    f_equal. f_equal. lia. }
  unfold seen, ranges_of. destruct flags.
  - exists raw. split; [done|]. split; [done|]. split; [done|]. intros b Hb'. by rewrite orb_false_r, Hbits.
  - destruct (Hres true) as (buf & E & H1 & H2 & H3). by exists buf.
  - destruct (Hres false) as (buf & E & H1 & H2 & H3). by exists buf.
Qed.

(** The words of any view. *)
Lemma view_bits s flags k :
  vbm_ok s -> Forall range_ok (vb_tentative s) -> Forall range_ok (vb_locked s) ->
  0 <= k < Z.of_nat (length (vb_words s)) ->
  exists w, view flags s k = Some w /\ word_ok w /\
    forall i, 0 <= i < 32 -> Z.testbit w i = seen s flags (32 * k + (31 - i)).
Proof.
  intros Hok Ht Hl Hk. pose proof (wordsPerBlock_pos s Hok) as HW.
  pose proof (block_inside s k Hok Hk) as Hin. pose proof (Z.div_pos k (wordsPerBlock s) ltac:(lia) HW).
  destruct (block_buffer_ok s flags (k / wordsPerBlock s) Hok Ht Hl ltac:(done) Hin) as (buf & Eb & Hlen & Hbok & Hbits).
  pose proof (Z.mod_pos_bound k (wordsPerBlock s) HW). pose proof (Z.div_mod k (wordsPerBlock s) ltac:(lia)) as Edm.
  unfold view. rewrite Eb. cbn [mbind option_bind].
  destruct (lookup_lt_is_Some_2 buf (Z.to_nat (k mod wordsPerBlock s)) ltac:(lia)) as [w Ew]. exists w.
  split; [done|]. split; [by eapply (Forall_lookup_1 word_ok buf)|]. intros i Hi.
  rewrite (bit_at_word buf (k mod wordsPerBlock s) w i) by (done || lia). rewrite Hbits by lia. f_equal. nia.
Qed.

(** bits_set on a buffer of big-endian 64-bit words sets exactly the bits from
    start up to, not including, end, and never writes outside of the buffer, for any
    non-empty range inside of it: also when start and end are in one word, when end is
    on a word boundary, and when it is the end of the buffer. *)
Theorem bits_set_correct qs start end_ :
  Forall quad_ok qs -> 0 <= start < end_ -> end_ <= 64 * Z.of_nat (length qs) ->
  exists qs', bits_set qs start end_ = Some qs' /\ length qs' = length qs /\
    forall b, 0 <= b -> qbit_at qs' b = qbit_at qs b || ((start <=? b) && (b <? end_)).
Proof.
  intros Hok Hs He. destruct (bits_set_spec qs start end_ Hok Hs He) as (qs' & E & Hl & _ & Hb). by exists qs'.
Qed.

Lemma bits_set_correct_witness :
  exists qs', bits_set [0; 0; 0] 60 128 = Some qs' /\ length qs' = 3%nat /\
    forall b, 0 <= b -> qbit_at qs' b = qbit_at [0; 0; 0] b || ((60 <=? b) && (b <? 128)).
Proof.
  apply (bits_set_correct [0; 0; 0] 60 128); [|lia|simpl; lia].
  do 3 (apply Forall_cons; split; [unfold quad_ok; lia|]). by apply Forall_nil.
Defined.
