(* ===== verification/BitmapCount.v ===== *)
(** * Testing and counting allocated blocks (core/VolumeAllocation.c)

    hfs_isallocated_internal looks at every block of a run and at no other, with the
    locked reservations in the buffer: it counts the blocks seen as allocated, or
    stops at the first one. *)

From S2P Require Import Prelude HfsFormat RangeList Bitmap BitmapBits BitmapWalk BitmapMark BitmapFree BitmapReserve.

(** ** Counting *)

(** How many of the [n] blocks from [a] on satisfy [f]. *)
Definition count_in (f : Z -> bool) (a n : Z) : Z := Z.of_nat (length (filter (fun b => f b = true) (seqZ a n))).

Fixpoint sum_in (f : Z -> bool) (a : Z) (n : nat) : Z :=
  match n with
  | O => 0
  | S n => Z.b2z (f a) + sum_in f (a + 1) n
  end.

Lemma count_in_sum f n : forall a, count_in f a (Z.of_nat n) = sum_in f a n.
Proof.
  induction n as [|n IH]; intros a; [done|]. unfold count_in in *. rewrite seqZ_cons by lia.
  replace (Z.pred (Z.of_nat (S n))) with (Z.of_nat n) by lia. replace (Z.succ a) with (a + 1) by lia.
  rewrite filter_cons. simpl. rewrite <- IH. destruct (decide (f a = true)) as [E|E].
  - rewrite E. simpl. lia.
  - apply not_true_is_false in E. rewrite E. simpl. lia.
Qed.

Lemma sum_in_ext f g n : forall a, (forall b, a <= b < a + Z.of_nat n -> f b = g b) -> sum_in f a n = sum_in g a n.
Proof.
  induction n as [|n IH]; intros a H; [done|]. simpl. rewrite H by lia. f_equal. apply IH. intros b Hb. apply H. lia.
Qed.

Lemma sum_in_app f n m : forall a, sum_in f a (n + m) = sum_in f a n + sum_in f (a + Z.of_nat n) m.
Proof.
  induction n as [|n IH]; intros a.
  - simpl. by rewrite Z.add_0_r.
  - change (S n + m)%nat with (S (n + m)). cbn [sum_in]. rewrite IH.
    replace (a + Z.of_nat (S n)) with (a + 1 + Z.of_nat n) by lia. lia.
Qed.

Lemma sum_in_none f a n : (forall b, a <= b < a + Z.of_nat n -> f b = false) -> sum_in f a n = 0.
Proof. revert a. induction n as [|n IH]; intros a H; [done|]. simpl. rewrite H by lia. simpl. apply IH. intros b Hb. apply H. lia. Qed.

Lemma sum_in_bounds f n : forall a, 0 <= sum_in f a n <= Z.of_nat n.
Proof. induction n as [|n IH]; intros a; cbn [sum_in]; [lia|]. specialize (IH (a + 1)). destruct (f a); simpl Z.b2z; lia. Qed.

(** Only the blocks of a range count. *)
Lemma sum_in_range f a n start num :
  a <= start -> start + Z.of_nat num <= a + Z.of_nat n ->
  sum_in (fun b => f b && in_run start (Z.of_nat num) b) a n = sum_in f start num.
Proof.
  intros H1 H2. set (pre := Z.to_nat (start - a)). replace n with (pre + (num + (n - pre - num)))%nat by lia.
  rewrite !sum_in_app. replace (a + Z.of_nat pre) with start by lia.
  rewrite (sum_in_none _ a pre), (sum_in_none _ (start + Z.of_nat num)).
  - rewrite Z.add_0_l, Z.add_0_r. apply sum_in_ext. intros b Hb. unfold in_run.
    destruct (Z.leb_spec start b), (Z.ltb_spec b (start + Z.of_nat num)); try lia. by rewrite andb_true_r.
  - intros b Hb. unfold in_run. destruct (Z.leb_spec start b), (Z.ltb_spec b (start + Z.of_nat num)); try lia; apply andb_false_r.
  - intros b Hb. unfold in_run. destruct (Z.leb_spec start b), (Z.ltb_spec b (start + Z.of_nat num)); try lia; apply andb_false_r.
Qed.

Lemma count_in_0 f a n : count_in f a n = 0 <-> forall b, a <= b < a + n -> f b = false.
Proof.
  unfold count_in. split.
  - intros H0 b Hb. destruct (f b) eqn:Eb; [|done]. exfalso.
    assert (b ∈ filter (fun b => f b = true) (seqZ a n)) as Hb' by (apply list_elem_of_filter; rewrite elem_of_seqZ; auto).
    destruct (filter _ (seqZ a n)); [by apply elem_of_nil in Hb'|simpl in H0; lia].
  - intros H0. destruct (filter _ (seqZ a n)) as [|b l] eqn:Ef; [done|]. exfalso.
    assert (b ∈ filter (fun b => f b = true) (seqZ a n)) as Hb' by (rewrite Ef; left).
    apply list_elem_of_filter in Hb' as [Hs' Hb'%elem_of_seqZ]. rewrite H0 in Hs' by lia. done.
Qed.

Lemma count_in_pos f a n : count_in f a n <> 0 -> exists b, a <= b < a + n /\ f b = true.
Proof.
  intros Hne. destruct (decide (Exists (fun b => f b = true) (seqZ a n))) as [Hex|Hno].
  - apply Exists_exists in Hex as (b & Hb%elem_of_seqZ & Hsb). exists b. split; [lia|done].
  - destruct Hne. apply count_in_0. intros b Hb. destruct (f b) eqn:Eb; [|done]. exfalso.
    apply Hno, Exists_exists. exists b. split; [apply elem_of_seqZ; lia|done].
Qed.

(** ** num_bits_set *)

Fixpoint popcount (n : nat) (w : Z) : Z :=
  match n with
  | O => 0
  | S n => Z.b2z (Z.odd w) + popcount n (Z.div2 w)
  end.

Lemma popcount_bounds n : forall w, 0 <= popcount n w <= Z.of_nat n.
Proof. induction n as [|n IH]; intros w; cbn [popcount]; [lia|]. specialize (IH (Z.div2 w)). destruct (Z.odd w); simpl Z.b2z; lia. Qed.

Lemma popcount_0 n : popcount n 0 = 0.
Proof. induction n as [|n IH]; [done|]. cbn [popcount]. change (Z.div2 0) with 0. by rewrite IH. Qed.

Lemma land_double m1 m2 b1 b2 : Z.land (2 * m1 + Z.b2z b1) (2 * m2 + Z.b2z b2) = 2 * Z.land m1 m2 + Z.b2z (b1 && b2).
Proof.
  apply Z.bits_inj'. intros i Hi. rewrite Z.land_spec. destruct (Z.eq_dec i 0) as [->|].
  - by rewrite !Z.testbit_0_r.
  - replace i with (Z.succ (i - 1)) by lia. rewrite !Z.testbit_succ_r by lia. by rewrite Z.land_spec.
Qed.

Lemma popcount_double n x : popcount (S n) (2 * x) = popcount n x.
Proof.
  cbn [popcount]. rewrite Z.odd_mul. simpl (Z.odd 2). rewrite Z.div2_div, Z.mul_comm, Z.div_mul by lia. done.
Qed.

(** [w & (w - 1)] has one bit less. *)
Lemma popcount_clear n : forall w, 0 < w < 2 ^ Z.of_nat n -> popcount n (Z.land w (w - 1)) = popcount n w - 1.
Proof.
  induction n as [|n IH]; intros w Hw; [simpl in Hw; lia|].
  pose proof (Z.div2_odd w) as E. replace (Z.of_nat (S n)) with (Z.succ (Z.of_nat n)) in Hw by lia.
  rewrite Z.pow_succ_r in Hw by lia. set (m := Z.div2 w) in *. destruct (Z.odd w) eqn:Eo; simpl Z.b2z in E.
  - replace w with (2 * m + Z.b2z true) at 1 2 by (simpl; lia).
    replace (2 * m + Z.b2z true - 1) with (2 * m + Z.b2z false) by (simpl; lia).
    rewrite land_double, Z.land_diag. simpl (Z.b2z (true && false)). rewrite Z.add_0_r, popcount_double.
    cbn [popcount]. rewrite Eo. subst m. simpl Z.b2z. lia.
  - assert (0 < m) by lia. replace w with (2 * m + Z.b2z false) at 1 2 by (simpl; lia).
    replace (2 * m + Z.b2z false - 1) with (2 * (m - 1) + Z.b2z true) by (simpl; lia).
    rewrite land_double. simpl (Z.b2z (false && true)). rewrite Z.add_0_r, popcount_double.
    rewrite IH by lia. cbn [popcount]. rewrite Eo. subst m. simpl Z.b2z. lia.
Qed.

Lemma num_bits_set_loop_eq fuel : forall w count,
  word_ok w -> popcount 32 w <= Z.of_nat fuel -> num_bits_set_loop w count fuel = count + popcount 32 w.
Proof.
  induction fuel as [|fuel IH]; intros w count Hw Hle; cbn [num_bits_set_loop].
  - pose proof (popcount_bounds 32 w). lia.
  - destruct (Z.eqb_spec w 0) as [->|Hne]; [rewrite popcount_0; lia|].
    assert (0 < w < 2 ^ Z.of_nat 32) as Hw' by (unfold word_ok in Hw; simpl; lia).
    pose proof (popcount_clear 32 w Hw'). rewrite IH; [lia|apply word_ok_land; [done|lia]|lia].
Qed.

Lemma num_bits_set_eq w : word_ok w -> num_bits_set w = popcount 32 w.
Proof. intros Hw. unfold num_bits_set. rewrite num_bits_set_loop_eq; [lia|done|]. pose proof (popcount_bounds 32 w). lia. Qed.

(** The bits of a word, from the other end. *)
Lemma popcount_sum n : forall w, popcount n w = sum_in (fun i => Z.testbit w i) 0 n.
Proof.
  induction n as [|n IH]; intros w; [done|]. cbn [popcount sum_in]. rewrite IH, <- Z.bit0_odd. f_equal.
  assert (forall a, 0 <= a -> sum_in (fun i => Z.testbit (Z.div2 w) i) a n = sum_in (fun i => Z.testbit w i) (a + 1) n) as H; [|by apply H].
  clear IH. induction n as [|n IH]; intros a Ha; [done|]. cbn [sum_in]. rewrite IH by lia.
  rewrite Z.div2_spec, Z.shiftr_spec by done. done.
Qed.

Lemma sum_in_rev f n : forall a, sum_in f a n = sum_in (fun i => f (2 * a + Z.of_nat n - 1 - i)) a n.
Proof.
  induction n as [|n IH]; intros a; [done|].
  replace (S n) with (n + 1)%nat at 2 by lia. rewrite sum_in_app. cbn [sum_in].
  rewrite IH. replace (2 * a + Z.of_nat (S n) - 1 - (a + Z.of_nat n)) with a by lia. rewrite Z.add_0_r, Z.add_comm. f_equal.
  assert (forall c, (forall i, f (2 * (a + 1) + Z.of_nat n - 1 - (i + 1)) = c i) -> sum_in (fun i => f (2 * (a + 1) + Z.of_nat n - 1 - i)) (a + 1) n = sum_in c a n) as H.
  { clear IH. intros c Hc. revert Hc. generalize (2 * (a + 1) + Z.of_nat n - 1). intros z Hc. revert a Hc.
    induction n as [|n IH]; intros a Hc; [done|]. cbn [sum_in]. rewrite IH by done. by rewrite <- Hc. }
  apply H. intros i. f_equal. lia.
Qed.

(** The blocks of the run in a word. *)
Lemma num_bits_set_word s flags start num k w :
  word_ok w -> (forall i, 0 <= i < 32 -> Z.testbit w i = seen s flags (32 * k + (31 - i))) ->
  num_bits_set (Z.land w (mask_of start num k)) =
  sum_in (fun b => seen s flags b && in_run start num b) (32 * k) 32.
Proof.
  intros Hw Hbits. assert (0 <= mask_of start num k) by (pose proof (mask_of_ok start num k) as Hm; unfold word_ok in Hm; lia).
  rewrite num_bits_set_eq by (by apply word_ok_land). rewrite popcount_sum, sum_in_rev.
  assert (forall c g n, (forall i, 0 <= i < 32 -> g i = c (32 * k + i)) -> forall a, 0 <= a -> a + Z.of_nat n <= 32 ->
    sum_in g a n = sum_in c (32 * k + a) n) as H'.
  { intros c g n Hg. induction n as [|n IH]; intros a Ha Hn; [done|]. cbn [sum_in]. rewrite IH by lia.
    rewrite Hg by lia. do 2 f_equal. lia. }
  etrans; [apply (H' (fun b => seen s flags b && in_run start num b)); [|lia|simpl; lia]|by rewrite Z.add_0_r].
  intros i Hi.
  rewrite Z.land_spec, mask_of_testbit, Hbits by lia. do 2 f_equal; lia.
Qed.

(** ** The walk that counts *)

Lemma count_op_full stop w acc : word_ok w -> op_word (count_op stop) w acc = op_bits (count_op stop) kAllBitsSetInWord w acc.
Proof. intros Hw. unfold count_op. simpl. by rewrite land_all. Qed.

Lemma count_op_store stop m w acc w' acc' :
  word_ok m -> word_ok w -> op_bits (count_op stop) m w acc = Go (Some w') acc' -> word_ok w'.
Proof. intros _ _. simpl. destruct (negb (Z.land w m =? 0)), stop; intros H; discriminate H. Qed.

Definition ranges_ok (s : vbm) : Prop := Forall range_ok (vb_tentative s) /\ Forall range_ok (vb_locked s).

Section Count.
Context (s : vbm) (Hok : vbm_ok s) (Hr : ranges_ok s) (start num : Z).
Local Notation L := (Z.of_nat (length (vb_words s))).
Local Notation marked := (seen s IgnoreTentative).

Definition word_marks (k : Z) : Z := sum_in (fun b => marked b && in_run start num b) (32 * k) 32.

Lemma vbm_eta_words : vb_with_words (vb_words s) s = s.
Proof. by destruct s. Qed.

(** One word of the run. *)
Lemma run_count_word k :
  0 <= k < L -> exists w, view IgnoreTentative (vb_with_words (vb_words s) s) k = Some w /\
    num_bits_set (Z.land w (mask_of start num k)) = word_marks k /\
    ((Z.land w (mask_of start num k) =? 0) = (word_marks k =? 0)).
Proof.
  intros Hk. destruct Hr as [Ht Hl]. destruct (view_bits s IgnoreTentative k Hok Ht Hl Hk) as (w & Ev & Hw & Hbits).
  exists w. rewrite vbm_eta_words. split; [done|]. pose proof (num_bits_set_word s IgnoreTentative start num k w Hw Hbits) as E.
  split; [done|]. unfold word_marks. rewrite <- E.
  assert (0 <= mask_of start num k) by (pose proof (mask_of_ok start num k) as Hm; unfold word_ok in Hm; lia).
  assert (word_ok (Z.land w (mask_of start num k))) as Hwm by (by apply word_ok_land).
  destruct (Z.eqb_spec (Z.land w (mask_of start num k)) 0) as [->|Hne]; [done|]. symmetry. apply Z.eqb_neq.
  rewrite num_bits_set_eq by done. set (x := Z.land w (mask_of start num k)) in *.
  pose proof (popcount_bounds 32 (Z.land x (x - 1))) as Hb. rewrite (popcount_clear 32 x) in Hb; [lia|].
  change (Z.of_nat 32) with 32. unfold word_ok in Hwm. lia.
Qed.

Definition marks (k : Z) (n : nat) : Z := sum_in (fun b => marked b && in_run start num b) (32 * k) (32 * n).

Lemma marks_S k n : marks k (S n) = word_marks k + marks (k + 1) n.
Proof.
  unfold marks, word_marks. replace (32 * S n)%nat with (32 + 32 * n)%nat by lia. rewrite sum_in_app.
  f_equal. f_equal. lia.
Qed.

Lemma run_count n : forall k acc,
  0 <= k -> k + Z.of_nat n <= L -> 0 <= acc -> acc + marks k n <= UINT32_MAX ->
  run IgnoreTentative (count_op false) s start num n k (vb_words s) acc = Some (None, acc + marks k n, vb_words s).
Proof.
  induction n as [|n IH]; intros k acc Hk Hn Ha Hle.
  { unfold marks. simpl. by rewrite Z.add_0_r. }
  rewrite marks_S in *. destruct (run_count_word k ltac:(lia)) as (w & Ev & Ec & Ez).
  assert (0 <= word_marks k) by apply sum_in_bounds. assert (0 <= marks (k + 1) n) by apply sum_in_bounds.
  cbn [run]. rewrite Ev. cbn [mbind option_bind op_bits count_op]. rewrite Ez, Ec.
  destruct (Z.eqb_spec (word_marks k) 0) as [E0|E0]; cbn [negb].
  - rewrite IH by lia. do 3 f_equal. lia.
  - rewrite u32_id by lia. rewrite IH by lia. do 3 f_equal. lia.
Qed.

Lemma run_first n : forall k,
  0 <= k -> k + Z.of_nat n <= L ->
  run IgnoreTentative (count_op true) s start num n k (vb_words s) 0 =
  Some (if marks k n =? 0 then (None, 0, vb_words s) else (Some noErr, 1, vb_words s)).
Proof.
  induction n as [|n IH]; intros k Hk Hn; [done|].
  rewrite marks_S in *. destruct (run_count_word k ltac:(lia)) as (w & Ev & Ec & Ez).
  assert (0 <= word_marks k) by apply sum_in_bounds. assert (0 <= marks (k + 1) n) by apply sum_in_bounds.
  cbn [run]. rewrite Ev. cbn [mbind option_bind op_bits count_op]. rewrite Ez.
  destruct (Z.eqb_spec (word_marks k) 0) as [E0|E0]; cbn [negb].
  - rewrite IH by lia. rewrite E0. done.
  - destruct (Z.eqb_spec (word_marks k + marks (k + 1) n) 0); [lia|done].
Qed.

Lemma marks_all : run_ok s start num -> marks (start / 32) (run_length start num) = count_in marked start num.
Proof.
  intros (Hs & Hn & Hle). unfold marks.
  assert (count_in marked start num = sum_in marked start (Z.to_nat num)) as -> by (rewrite <- count_in_sum; f_equal; lia).
  rewrite <- (sum_in_range marked (32 * (start / 32)) (32 * run_length start num) start (Z.to_nat num)).
  - apply sum_in_ext. intros b _. by rewrite Z2Nat.id by lia.
  - pose proof (Z.div_mod start 32 ltac:(lia)). pose proof (Z.mod_pos_bound start 32 ltac:(lia)). lia.
  - unfold run_length. pose proof (Z.div_mod (start + num - 1) 32 ltac:(lia)).
    pose proof (Z.mod_pos_bound (start + num - 1) 32 ltac:(lia)).
    assert (start / 32 <= (start + num - 1) / 32) by (apply Z.div_le_mono; lia). lia.
Qed.

Lemma marks_prefix m k n : (m <= n)%nat -> marks k m <= marks k n.
Proof.
  intros Hm. unfold marks. replace (32 * n)%nat with (32 * m + 32 * (n - m))%nat by lia. rewrite sum_in_app.
  pose proof (sum_in_bounds (fun b => marked b && in_run start num b) (32 * (n - m)) (32 * k + Z.of_nat (32 * m))). lia.
Qed.

Lemma count_in_bounds f a n : 0 <= n -> 0 <= count_in f a n <= n.
Proof. intros Hn. replace n with (Z.of_nat (Z.to_nat n)) by lia. rewrite count_in_sum. apply sum_in_bounds. Qed.

Lemma walk_count stop acc :
  run_ok s start num ->
  walks IgnoreTentative (count_op stop) s start num (vb_io s) (run_length start num) (start / 32) (vb_words s) acc
    (walk IgnoreTentative (count_op stop) (first_cursor s (start / bitsPerBlock s) start) start num acc s).
Proof.
  intros (Hs & Hn & He). apply (walk_run _ _ _ _ _ _ Hok (count_op_full stop) (count_op_store stop)) with (io := vb_io s); try done.
  intros ws k [Hl Hws] Hk. destruct Hr as [Ht Hlk].
  destruct (view_bits (vb_with_words ws s) IgnoreTentative k) as (w & E & Hw & _); simpl; try done.
  - by apply vbm_ok_words.
  - lia.
  - by exists w.
Qed.
End Count.

(** ** hfs_isallocated_internal *)

(** A count only reads: nothing but the results of the I/O is used up. *)
Lemma hfs_isallocated_internal_spec s stop start num :
  vbm_ok s -> ranges_ok s -> run_ok s start num ->
  let total := count_in (seen s IgnoreTentative) start num in
  exists err count io, hfs_isallocated_internal start num stop s = Some ((err, count), vb_with_io io s) /\
    (forall e, e ∈ io -> e ∈ vb_io s) /\ (err = noErr \/ err ∈ vb_io s) /\
    (err = noErr -> count = if stop then (if total =? 0 then 0 else 1) else total) /\
    (stop = false -> 0 <= count <= total).
Proof.
  intros Hok Hr Hrun total. unfold hfs_isallocated_internal, mbind, VB_bind. rewrite ReadBitmapBlock_eq.
  pose proof (io_step_err s) as Herr. pose proof (io_step_bits s) as Eb.
  pose proof (first_cursor_io s (start / bitsPerBlock s) start) as Ec.
  assert (0 <= total <= num) as Htotal by (apply count_in_bounds; destruct Hrun; lia).
  destruct (io_step_with s) as (io1 & E1 & Hio1). rewrite E1 in *.
  destruct (Z.eqb_spec (fst (io_step s)) noErr) as [E|E].
  2:{ exists (fst (io_step s)), 0, io1. split; [done|]. split; [done|]. split; [done|]. split; [done|]. lia. }
  unfold vb_state. rewrite <- Eb. set (s1 := vb_with_io io1 s) in *.
  assert (vbm_ok s1) as Hok1 by by apply vbm_ok_io.
  destruct (walk_count s1 Hok1 Hr start num stop 0 Hrun) as (m & o & acc & ws' & err & held & io2 & Ew & Hio2 & Hm & Hi & Er & He).
  rewrite Ew. cbn [wk_err wk_acc]. set (r := mkWalked err acc held).
  destruct (walk_exit_eq r (state s1 ws' io2)) as (io3 & -> & _ & Hio3).
  pose proof (run_length_le s1 start num Hrun) as Hlen.
  assert (0 <= start / 32) as Hd by (destruct Hrun; apply Z.div_pos; lia).
  pose proof (marks_all s1 start num Hrun) as Ht. change (seen s1 IgnoreTentative) with (seen s IgnoreTentative) in Ht. fold total in Ht.
  pose proof (marks_prefix s1 start num m (start / 32) (run_length start num) Hm) as Hpre. rewrite Ht in Hpre.
  assert (0 <= marks s1 start num (start / 32) m) as Hm0 by apply sum_in_bounds.
  exists err, acc, io3.
  assert (ws' = vb_words s /\ (err = noErr -> acc = if stop then (if total =? 0 then 0 else 1) else total) /\
    (stop = false -> 0 <= acc <= total) /\ (err = noErr \/ err ∈ vb_io s)) as (-> & Hacc & Hbound & Herr').
  { destruct stop.
    - rewrite (run_first s1 Hok1 Hr start num m) in Er by lia.
      destruct (Z.eqb_spec (marks s1 start num (start / 32) m) 0) as [E0|E0]; injection Er as <- <- <-.
      + destruct He as [(-> & -> & _)|(Hne & Hin & _)].
        * rewrite Ht in E0. rewrite E0. split_and!; try done; by left.
        * split_and!; try done. right. by apply Hio1.
      + destruct He as [-> _]. destruct (Z.eqb_spec total 0); [lia|]. split_and!; try done; by left.
    - rewrite (run_count s1 Hok1 Hr start num m) in Er by (destruct Hrun; lia). injection Er as <- <- <-.
      split; [done|]. split; [|split; [lia|]].
      + intros ->. destruct He as [(_ & -> & _)|[? _]]; [|done]. by rewrite Ht.
      + destruct He as [(-> & _)|(_ & Hin & _)]; [by left|right; by apply Hio1]. }
  assert (vb_with_io io3 (state s1 (vb_words s) io2) = vb_with_io io3 s) as -> by (by destruct s).
  split; [done|]. split; [|by split_and!]. intros e He'. apply Hio1. apply Hio2. by apply Hio3.
Qed.

(** hfs_count_allocated, for a run inside of a well-formed bitmap, counts the
    blocks of the run whose bit is set or that a locked reservation holds, each once and
    no others, whatever words and bitmap blocks the run crosses and whatever the
    reserved ranges are; it changes nothing. *)
Theorem hfs_count_allocated_counts s start num :
  vbm_ok s -> ranges_ok s -> run_ok s start num -> vb_io s = [] ->
  hfs_count_allocated start num s =
  Some ((noErr, count_in (fun b => bit_at (vb_words s) b || in_ranges (vb_locked s) b) start num), s).
Proof.
  intros Hok Hr Hrun Hio. destruct (hfs_isallocated_internal_spec s false start num Hok Hr Hrun)
    as (err & count & io & E & Hin & Herr & Hc & _).
  rewrite Hio in Herr, Hin. destruct Herr as [->|[]%elem_of_nil]. rewrite (Hc eq_refl) in E.
  assert (io = []) as -> by (destruct io as [|e io]; [done|]; destruct (not_elem_of_nil e); apply Hin; left).
  unfold hfs_count_allocated. rewrite E. rewrite <- Hio. by destruct s.
Qed.

(** hfs_isallocated answers 0 or 1, and 0 only when no block of the run is
    allocated or in a locked reservation: an I/O error is never taken for free blocks.
    Without I/O errors the answer is 0 exactly then. *)
Theorem hfs_isallocated_safe s start num :
  vbm_ok s -> ranges_ok s -> run_ok s start num ->
  exists answer io, hfs_isallocated start num s = Some (answer, vb_with_io io s) /\ (answer = 0 \/ answer = 1) /\
    (answer = 0 -> forall b, in_run start num b = true -> bit_at (vb_words s) b = false /\ in_ranges (vb_locked s) b = false) /\
    (vb_io s = [] -> answer = 1 -> exists b, in_run start num b = true /\ (bit_at (vb_words s) b = true \/ in_ranges (vb_locked s) b = true)).
Proof.
  intros Hok Hr Hrun. destruct (hfs_isallocated_internal_spec s true start num Hok Hr Hrun)
    as (err & count & io & E & Hin & Herr & Hc & _).
  unfold hfs_isallocated, mbind, VB_bind. rewrite E. pose proof Hrun as (Hs & Hn & _).
  destruct (Z.eqb_spec err noErr) as [->|Hne]; cbn [negb].
  - specialize (Hc eq_refl). exists count, io. split; [done|].
    destruct (Z.eqb_spec (count_in (seen s IgnoreTentative) start num) 0) as [E0|E0]; subst count.
    + split; [by left|]. split; [|done]. intros _ b Hb. unfold in_run in Hb.
      rewrite andb_true_iff, Z.leb_le, Z.ltb_lt in Hb. apply orb_false_iff.
      apply (proj1 (count_in_0 _ _ _) E0). lia.
    + split; [by right|]. split; [done|]. intros _ _. destruct (count_in_pos _ _ _ E0) as (b & Hb & Hsb).
      exists b. unfold in_run. rewrite andb_true_iff, Z.leb_le, Z.ltb_lt. split; [lia|]. by apply orb_true_iff.
  - exists 1, io. split; [done|]. split; [by right|]. split; [done|]. intros Hnil. rewrite Hnil in Herr.
    by destruct Herr as [|[]%elem_of_nil].
Qed.
