(* ===== verification/BitmapProps.v ===== *)
(** * What the volume bitmap promises (core/VolumeAllocation.c)

    The bitmap stands for the set of allocated blocks.  [bm_spec] is the contract of
    the operations on that set; [bitmap_refines_sets] shows that any sequence of
    operations on the words of the bitmap is one the contract allows. *)

From S2P Require Import Prelude HfsFormat RangeList Bitmap BitmapBits BitmapWalk BitmapMark BitmapFree BitmapReserve BitmapCount.

(** ** Freeing *)

(** A run of blocks of the volume. *)
Definition volume_run (s : vbm) (start num : Z) : Prop :=
  0 <= start /\ 0 < num /\ start + num <= vb_totalBlocks s /\
  vb_totalBlocks s <= UINT32_MAX /\ vb_totalBlocks s <= 32 * Z.of_nat (length (vb_words s)).

Lemma volume_run_ok s start num : volume_run s start num -> run_ok s start num.
Proof. intros (H1 & H2 & H3 & H4 & H5). unfold run_ok. lia. Qed.

Lemma BlockMarkFree_outcome s start num :
  vbm_ok s -> volume_run s start num ->
  exists err unmap s', BlockMarkFree start num s = Some ((err, unmap), s') /\ same_volume s s' /\
    only_cleared start num (vb_words s) (vb_words s') /\ free_outcome true start num s s' err unmap.
Proof.
  intros Hok Hrun. apply BlockMarkFreeInternal_outcome; [done|by apply volume_run_ok|..]; unfold volume_run in Hrun; [lia|].
  intros _. lia.
Qed.

Lemma no_io_nil s s' : same_volume s s' -> vb_io s = [] -> vb_io s' = [].
Proof.
  intros Hs Hio. destruct (vb_io s') as [|e io] eqn:E; [done|]. destruct (not_elem_of_nil e). rewrite <- Hio.
  apply (sv_io _ _ Hs). rewrite E. left.
Qed.

(** Freeing a run of blocks of the volume that are all allocated, when the block I/O
    works: BlockMarkFree succeeds, clears the bit of every block of the run and changes no
    other bit, and does not mark the volume inconsistent. *)
Theorem BlockMarkFree_frees s start num :
  vbm_ok s -> volume_run s start num -> vb_io s = [] ->
  (forall b, in_run start num b = true -> bit_at (vb_words s) b = true) ->
  exists unmap s', BlockMarkFree start num s = Some ((noErr, unmap), s') /\ vbm_ok s' /\
    vb_inconsistent s' = vb_inconsistent s /\
    forall b, 0 <= b -> bit_at (vb_words s') b = bit_at (vb_words s) b && negb (in_run start num b).
Proof.
  intros Hok Hrun Hio Hall. destruct (BlockMarkFree_outcome s start num Hok Hrun) as (err & unmap & s' & E & Hs & Hc & Ho).
  destruct Ho as [us uc H1 H2 H3 H4 H5 H6 H7|b H1 H2 H3 H4|err H1 H2 H3].
  - exists (Some (us, uc)), s'. split; [done|]. split; [apply Hs|]. split; [done|]. intros b Hb.
    rewrite (Hc b Hb). destruct (in_run start num b) eqn:Er; [|by rewrite andb_true_r].
    by rewrite (H1 b Er), andb_false_r.
  - by rewrite (Hall b H2) in H3.
  - rewrite Hio in H2. by apply elem_of_nil in H2.
Qed.

(** C27: Freeing a run of blocks of the volume of which one is not allocated fails, in
    one of two ways: with EIO and the volume marked inconsistent, or with another error
    of the block I/O, after which nothing is said of the mark.  In both there is nothing
    to unmap, bits outside of the run never change and none is set. *)
Theorem BlockMarkFree_unallocated s start num b0 :
  vbm_ok s -> volume_run s start num -> in_run start num b0 = true -> bit_at (vb_words s) b0 = false ->
  exists err s', BlockMarkFree start num s = Some ((err, None), s') /\ vbm_ok s' /\
    (err = EIO /\ vb_inconsistent s' = true \/ err <> noErr /\ err ∈ vb_io s) /\
    forall b, 0 <= b -> (in_run start num b = false -> bit_at (vb_words s') b = bit_at (vb_words s) b) /\
                        (bit_at (vb_words s') b = true -> bit_at (vb_words s) b = true).
Proof.
  intros Hok Hrun Hr Hb0. destruct (BlockMarkFree_outcome s start num Hok Hrun) as (err & unmap & s' & E & Hs & Hc & Ho).
  assert (forall b, 0 <= b -> (in_run start num b = false -> bit_at (vb_words s') b = bit_at (vb_words s) b) /\
                        (bit_at (vb_words s') b = true -> bit_at (vb_words s) b = true)) as Hbits.
  { intros b Hb. rewrite (Hc b Hb). destruct (in_run start num b); [|done]. split; [done|]. by intros [_ ?]%andb_true_iff. }
  destruct Ho as [us uc H1 H2 H3 H4 H5 H6 H7|b H1 H2 H3 H4|err H1 H2 H3].
  - rewrite (H2 eq_refl b0 Hr) in Hb0. done.
  - exists EIO, s'. split; [done|]. split; [apply Hs|]. split; [by left|done].
  - exists err, s'. split; [done|]. split; [apply Hs|]. split; [by right|done].
Qed.

(** C28: What a free hands to hfs_unmap_free_extent, when it succeeds: an extent of the
    bitmap that contains the freed run, of which every block is free in the new bitmap;
    and when no reserved range touches the run, no reserved range touches the extent, so
    that the device is never told to drop a reserved block.  Nothing is handed over when
    the free fails. *)
Theorem BlockMarkFree_unmap_safe s start num :
  vbm_ok s -> volume_run s start num ->
  exists err unmap s', BlockMarkFree start num s = Some ((err, unmap), s') /\
    match unmap with
    | None => err <> noErr
    | Some (us, uc) => err = noErr /\
        0 <= us <= start /\ start + num <= us + uc <= 32 * Z.of_nat (length (vb_words s)) /\
        (forall b, us <= b < us + uc -> bit_at (vb_words s') b = false) /\
        (Forall (clear_of start num) (vb_tentative s ++ vb_locked s) ->
         Forall (fun r => rl_end r < us \/ us + uc <= rl_start r) (vb_tentative s ++ vb_locked s))
    end.
Proof.
  intros Hok Hrun. destruct (BlockMarkFree_outcome s start num Hok Hrun) as (err & unmap & s' & E & Hs & Hc & Ho).
  exists err, unmap, s'. split; [done|]. destruct Ho as [us uc H1 H2 H3 H4 H5 H6 H7|b H1 H2 H3 H4|err H1 H2 H3]; done.
Qed.

(** ** Bitmaps with the same bits *)

Lemma words_ext ws1 ws2 :
  length ws1 = length ws2 -> Forall word_ok ws1 -> Forall word_ok ws2 ->
  (forall b, 0 <= b -> bit_at ws1 b = bit_at ws2 b) -> ws1 = ws2.
Proof.
  intros Hl H1 H2 Hb. apply list_eq. intros k. destruct (ws1 !! k) as [w1|] eqn:E1.
  - destruct (lookup_lt_is_Some_2 ws2 k) as [w2 E2]; [rewrite <- Hl; by eapply lookup_lt_Some|].
    rewrite E2. f_equal. apply word_ext; [by eapply (Forall_lookup_1 word_ok ws1)|by eapply (Forall_lookup_1 word_ok ws2)|].
    intros i Hi. rewrite (bit_at_word ws1 (Z.of_nat k) w1), (bit_at_word ws2 (Z.of_nat k) w2) by (rewrite ?Nat2Z.id; done || lia).
    apply Hb. lia.
  - symmetry. apply lookup_ge_None. rewrite <- Hl. by apply lookup_ge_None.
Qed.

(** Marking a run of free blocks allocated and freeing it again gives the bitmap
    back, word for word, with no error and the volume still consistent. *)
Theorem mark_free_roundtrip s start num :
  vbm_ok s -> volume_run s start num -> vb_io s = [] ->
  (forall b, in_run start num b = true -> bit_at (vb_words s) b = false) ->
  exists s1 unmap s2,
    BlockMarkAllocated start num s = Some (noErr, s1) /\ BlockMarkFree start num s1 = Some ((noErr, unmap), s2) /\
    vb_words s2 = vb_words s /\ vb_inconsistent s2 = vb_inconsistent s.
Proof.
  intros Hok Hrun Hio Hfree.
  destruct (BlockMarkAllocated_outcome s start num Hok (volume_run_ok s start num Hrun)) as (err & s1 & E1 & Hs1 & Hi1 & He1 & Hb1 & Hset1).
  destruct He1 as [->|He1]; [|rewrite Hio in He1; by apply elem_of_nil in He1].
  assert (volume_run s1 start num) as Hrun1 by (unfold volume_run; by rewrite (sv_total _ _ Hs1), (sv_length _ _ Hs1)).
  destruct (BlockMarkFree_outcome s1 start num (sv_ok _ _ Hs1) Hrun1) as (err & unmap & s2 & E2 & Hs2 & Hc & Ho).
  destruct Ho as [us uc H1 H2 H3 H4 H5 H6 H7|b H1 H2 H3 H4|err H1 H2 H3].
  - exists s1, (Some (us, uc)), s2. split; [done|]. split; [done|]. split; [|congruence].
    apply words_ext.
    + by rewrite (sv_length _ _ Hs2), (sv_length _ _ Hs1).
    + apply (vbm_words_ok _ (sv_ok _ _ Hs2)).
    + apply (vbm_words_ok _ Hok).
    + intros b Hb. destruct (in_run start num b) eqn:Er.
      * by rewrite (H1 b Er), (Hfree b Er).
      * by rewrite (Hc b Hb), Er, (Hb1 b Hb), Er.
  - by rewrite (Hset1 eq_refl b H2) in H3.
  - rewrite (no_io_nil s s1 Hs1 Hio) in H2. by apply elem_of_nil in H2.
Qed.

(** ** The contract on the set of allocated blocks *)

Definition allocated (s : vbm) : gset Z :=
  list_to_set (filter (fun b => bit_at (vb_words s) b = true) (seqZ 0 (32 * Z.of_nat (length (vb_words s))))).

(** The blocks of the locked reservations. *)
Definition locked_blocks (s : vbm) : gset Z :=
  list_to_set (filter (fun b => in_ranges (vb_locked s) b = true) (seqZ 0 (32 * Z.of_nat (length (vb_words s))))).

Definition blocks (start num : Z) : gset Z := list_to_set (seqZ start num).

Inductive bm_op :=
  | OpAllocate (start num : Z)
  | OpFree (start num : Z)
  | OpTest (start num : Z)
  | OpCount (start num : Z).

Definition bm_exec (op : bm_op) : VB Z :=
  match op with
  | OpAllocate start num => BlockMarkAllocated start num
  | OpFree start num => r ← BlockMarkFree start num; mret (fst r)
  | OpTest start num => hfs_isallocated start num
  | OpCount start num => r ← hfs_count_allocated start num; mret (snd r)
  end.

(** [locked]: reserved blocks count as allocated for the tests. *)
Inductive bm_spec (locked : gset Z) : bm_op -> gset Z -> Z -> gset Z -> Prop :=
| spec_allocate start num A :
    bm_spec locked (OpAllocate start num) A noErr (A ∪ blocks start num)
| spec_free start num A :
    blocks start num ⊆ A -> bm_spec locked (OpFree start num) A noErr (A ∖ blocks start num)
| spec_free_unallocated start num A A' :
    ~ (blocks start num ⊆ A) -> A ∖ blocks start num ⊆ A' -> A' ⊆ A -> bm_spec locked (OpFree start num) A EIO A'
| spec_test start num A :
    bm_spec locked (OpTest start num) A (if decide (blocks start num ## A ∪ locked) then 0 else 1) A
| spec_count start num A :
    bm_spec locked (OpCount start num) A (Z.of_nat (size (blocks start num ∩ (A ∪ locked)))) A.

(** Sequences of operations, with their answers. *)
Fixpoint bm_exec_all (ops : list bm_op) : VB (list Z) :=
  match ops with
  | [] => mret []
  | op :: ops => r ← bm_exec op; rs ← bm_exec_all ops; mret (r :: rs)
  end.

Inductive bm_spec_all (locked : gset Z) : list bm_op -> gset Z -> list Z -> gset Z -> Prop :=
| spec_nil A : bm_spec_all locked [] A [] A
| spec_cons op ops A r A' rs A'' :
    bm_spec locked op A r A' -> bm_spec_all locked ops A' rs A'' -> bm_spec_all locked (op :: ops) A (r :: rs) A''.

Definition bm_op_ok (s : vbm) (op : bm_op) : Prop :=
  match op with
  | OpAllocate start num | OpFree start num | OpTest start num | OpCount start num => volume_run s start num
  end.

Lemma bit_at_inside ws b : bit_at ws b = true -> b < 32 * Z.of_nat (length ws).
Proof.
  unfold bit_at. destruct (ws !! Z.to_nat (b / 32)) eqn:E; [|done]. intros _. apply lookup_lt_Some in E.
  pose proof (Z.div_mod b 32 ltac:(lia)). pose proof (Z.mod_pos_bound b 32 ltac:(lia)). lia.
Qed.

Lemma elem_of_allocated s b : b ∈ allocated s <-> 0 <= b /\ bit_at (vb_words s) b = true.
Proof.
  unfold allocated. rewrite elem_of_list_to_set, list_elem_of_filter, elem_of_seqZ. split; [tauto|].
  intros [Hb E]. split; [done|]. apply bit_at_inside in E. lia.
Qed.

Lemma elem_of_blocks start num b : b ∈ blocks start num <-> in_run start num b = true.
Proof. unfold blocks, in_run. rewrite elem_of_list_to_set, elem_of_seqZ, andb_true_iff, Z.leb_le, Z.ltb_lt. done. Qed.

Lemma blocks_allocated s start num :
  0 <= start -> blocks start num ⊆ allocated s <-> forall b, in_run start num b = true -> bit_at (vb_words s) b = true.
Proof.
  intros Hs. split.
  - intros H b Hr. apply elem_of_blocks, H, elem_of_allocated in Hr. tauto.
  - intros H b Hr%elem_of_blocks. apply elem_of_allocated. split; [by eapply in_run_nonneg|auto].
Qed.

(** The allocated or locked blocks of a run. *)
Lemma elem_of_seen s start num b :
  run_ok s start num -> in_run start num b = true ->
  b ∈ allocated s ∪ locked_blocks s <-> seen s IgnoreTentative b = true.
Proof.
  intros (Hs & Hn & Hle) Hr. unfold seen, ranges_of, locked_blocks.
  rewrite elem_of_union, elem_of_allocated, elem_of_list_to_set, list_elem_of_filter, elem_of_seqZ, orb_true_iff.
  unfold in_run in Hr. rewrite andb_true_iff, Z.leb_le, Z.ltb_lt in Hr. split; [tauto|].
  intros [H|H]; [left|right]; split; lia || done.
Qed.

Lemma count_in_size s start num :
  run_ok s start num ->
  count_in (seen s IgnoreTentative) start num = Z.of_nat (size (blocks start num ∩ (allocated s ∪ locked_blocks s))).
Proof.
  intros Hrun. unfold count_in. f_equal. rewrite <- (size_list_to_set (C := gset Z)).
  - f_equal. apply set_eq. intros b. rewrite elem_of_intersection, elem_of_list_to_set, list_elem_of_filter, elem_of_blocks.
    rewrite elem_of_seqZ. split.
    + intros [Hsb Hb]. assert (in_run start num b = true) as Hr by (unfold in_run; rewrite andb_true_iff, Z.leb_le, Z.ltb_lt; lia).
      split; [done|]. by rewrite elem_of_seen by done.
    + intros [Hr Hb]. rewrite elem_of_seen in Hb by done. split; [done|].
      unfold in_run in Hr. rewrite andb_true_iff, Z.leb_le, Z.ltb_lt in Hr. lia.
  - apply NoDup_filter, NoDup_seqZ.
Qed.

Lemma same_volume_sets s s' :
  same_volume s s' -> (forall op, bm_op_ok s op -> bm_op_ok s' op) /\ locked_blocks s' = locked_blocks s /\ (ranges_ok s -> ranges_ok s').
Proof.
  intros Hs. split; [|split].
  - intros [] ; simpl; unfold volume_run; by rewrite (sv_total _ _ Hs), (sv_length _ _ Hs).
  - unfold locked_blocks. by rewrite (sv_locked _ _ Hs), (sv_length _ _ Hs).
  - unfold ranges_ok. by rewrite (sv_locked _ _ Hs), (sv_tentative _ _ Hs).
Qed.

(** One operation. *)
Definition refines_op (s : vbm) (op : bm_op) : Prop :=
  exists r s', bm_exec op s = Some (r, s') /\ same_volume s s' /\
    bm_spec (locked_blocks s) op (allocated s) r (allocated s').

Section Operation.
Context (s : vbm) (Hok : vbm_ok s) (Hr : ranges_ok s) (Hio : vb_io s = []) (start num : Z) (Hop : volume_run s start num).
Let Hrun : run_ok s start num := volume_run_ok s start num Hop.
Let Hs0 : 0 <= start := proj1 Hop.

Lemma allocate_refines : refines_op s (OpAllocate start num).
Proof.
  destruct (BlockMarkAllocated_outcome s start num Hok Hrun) as (err & s' & E & Hs & Hi & He & Hb & Hset).
  destruct He as [->|He]; [|rewrite Hio in He; by apply elem_of_nil in He].
  exists noErr, s'. split; [exact E|]. split; [done|].
  assert (allocated s' = allocated s ∪ blocks start num) as ->; [|apply spec_allocate].
  apply set_eq. intros b. rewrite elem_of_union, !elem_of_allocated, elem_of_blocks. split.
  - intros [Hb0 H]. rewrite (Hb b Hb0) in H. destruct (in_run start num b); [by right|by left].
  - intros [[Hb0 H]|H].
    + split; [done|]. rewrite (Hb b Hb0), H. by destruct (in_run start num b); rewrite ?orb_true_r.
    + split; [by eapply in_run_nonneg|]. by apply Hset.
Qed.

Lemma free_refines : refines_op s (OpFree start num).
Proof.
  destruct (BlockMarkFree_outcome s start num Hok Hop) as (err & unmap & s' & E & Hs & Hc & Ho).
  exists err, s'. unfold bm_exec, mbind, VB_bind. rewrite E. split; [done|]. split; [done|].
  assert (forall b, b ∈ allocated s' <-> b ∈ allocated s /\ (b ∈ blocks start num -> bit_at (vb_words s') b = true)) as Hset.
  { intros b. rewrite !elem_of_allocated, elem_of_blocks. split.
    - intros [Hb0 H]. split; [|done]. split; [done|]. rewrite (Hc b Hb0) in H. destruct (in_run start num b); [|done].
      by apply andb_true_iff in H as [_ H].
    - intros [[Hb0 H] Hx]. split; [done|]. destruct (in_run start num b) eqn:Er; [by apply Hx|]. by rewrite (Hc b Hb0), Er. }
  destruct Ho as [us uc H1 H2 H3 H4 H5 H6 H7|b H1 H2 H3 H4|err H1 H2 H3].
  - assert (allocated s' = allocated s ∖ blocks start num) as ->; [|apply spec_free; by apply blocks_allocated; [|apply H2]].
    apply set_eq. intros b. rewrite Hset, elem_of_difference. split.
    + intros [H Hx]. split; [done|]. intros Hin. specialize (Hx Hin). apply elem_of_blocks, H1 in Hin. congruence.
    + intros [H Hx]. split; [done|]. intros Hin. by destruct Hx.
  - apply spec_free_unallocated.
    + rewrite blocks_allocated by done. intros H. by rewrite (H b H2) in H3.
    + intros c [Hc1 Hc2]%elem_of_difference. apply Hset. split; [done|]. intros Hin. by destruct Hc2.
    + intros c Hc1%Hset. tauto.
  - rewrite Hio in H2. by apply elem_of_nil in H2.
Qed.

Lemma test_refines : refines_op s (OpTest start num).
Proof.
  destruct (hfs_isallocated_internal_spec s true start num Hok Hr Hrun) as (err & count & io & E & Hin & Herr & Hc & _).
  destruct Herr as [->|Herr]; [|rewrite Hio in Herr; by apply elem_of_nil in Herr].
  exists count, (vb_with_io io s). unfold bm_exec, hfs_isallocated, mbind, VB_bind. rewrite E. split; [done|].
  split; [by apply same_volume_io|]. rewrite (Hc eq_refl). change (allocated (vb_with_io io s)) with (allocated s).
  assert ((if count_in (seen s IgnoreTentative) start num =? 0 then 0 else 1) =
    if decide (blocks start num ## allocated s ∪ locked_blocks s) then 0 else 1) as ->; [|apply spec_test].
  destruct (Z.eqb_spec (count_in (seen s IgnoreTentative) start num) 0) as [E0|E0]; destruct (decide _) as [Hd|Hd]; try done.
  - destruct Hd. intros b Hb1 Hb2. apply elem_of_blocks in Hb1. rewrite elem_of_seen in Hb2 by done.
    rewrite (proj1 (count_in_0 _ _ _) E0) in Hb2; [done|]. unfold in_run in Hb1. rewrite andb_true_iff, Z.leb_le, Z.ltb_lt in Hb1. lia.
  - destruct (count_in_pos _ _ _ E0) as (b & Hb & Hsb).
    assert (in_run start num b = true) as Hr' by (unfold in_run; rewrite andb_true_iff, Z.leb_le, Z.ltb_lt; lia).
    destruct (Hd b); [by apply elem_of_blocks|by apply (elem_of_seen s start num b)].
Qed.

Lemma count_refines : refines_op s (OpCount start num).
Proof.
  destruct (hfs_isallocated_internal_spec s false start num Hok Hr Hrun) as (err & count & io & E & Hin & Herr & Hc & _).
  destruct Herr as [->|Herr]; [|rewrite Hio in Herr; by apply elem_of_nil in Herr].
  exists count, (vb_with_io io s). unfold bm_exec, hfs_count_allocated, mbind, VB_bind. rewrite E. split; [done|].
  split; [by apply same_volume_io|]. rewrite (Hc eq_refl). change (allocated (vb_with_io io s)) with (allocated s).
  cbv zeta. rewrite count_in_size by done. apply spec_count.
Qed.
End Operation.

Lemma bm_exec_refines s op :
  vbm_ok s -> ranges_ok s -> vb_io s = [] -> bm_op_ok s op -> refines_op s op.
Proof.
  intros Hok Hr Hio Hop. destruct op; [apply allocate_refines|apply free_refines|apply test_refines|apply count_refines]; done.
Qed.

(** C26: The bitmap refines the set of allocated blocks: started on a well-formed bitmap
    and with working block I/O, any sequence of allocations, frees, tests and counts of
    runs of the volume runs to the end without a fault, and its answers and the final
    set of allocated blocks are ones the contract [bm_spec] allows for the sequence
    started on the initial set. *)
Theorem bitmap_refines_sets s ops :
  vbm_ok s -> ranges_ok s -> vb_io s = [] -> Forall (bm_op_ok s) ops ->
  exists answers s', bm_exec_all ops s = Some (answers, s') /\ vbm_ok s' /\
    bm_spec_all (locked_blocks s) ops (allocated s) answers (allocated s').
Proof.
  intros Hok Hr Hio Hops. revert s Hok Hr Hio Hops. induction ops as [|op ops IH]; intros s Hok Hr Hio Hops.
  { exists [], s. split; [done|]. split; [done|]. apply spec_nil. }
  apply Forall_cons in Hops as [Hop Hops].
  destruct (bm_exec_refines s op Hok Hr Hio Hop) as (r & s1 & E & Hs & Hspec).
  destruct (same_volume_sets s s1 Hs) as (Hop1 & Hl & Hr1).
  destruct (IH s1 (sv_ok _ _ Hs) (Hr1 Hr) (no_io_nil s s1 Hs Hio)) as (rs & s2 & E2 & Hok2 & Hspec2).
  { eapply Forall_impl; [exact Hops|]. done. }
  exists (r :: rs), s2. simpl. unfold mbind, VB_bind. rewrite E, E2. split; [done|]. split; [done|].
  rewrite Hl in Hspec2. by eapply spec_cons.
Qed.

(** ** A bitmap of two blocks of 64 bits, with blocks 0 to 3 and 62 to 65 allocated *)

Definition ex_bitmap : vbm := mkVbm [0xF0000000; 3; 0xC0000000; 0] 8 120 [rl_make 70 79] [rl_make 40 41] false [].

Lemma in_run_forallb f start num :
  forallb f (seqZ start num) = true -> forall b, in_run start num b = true -> f b = true.
Proof.
  intros H b Hb. apply forallb_forall with (x := b) in H; [done|]. apply list_elem_of_In, elem_of_seqZ.
  unfold in_run in Hb. rewrite andb_true_iff, Z.leb_le, Z.ltb_lt in Hb. lia.
Qed.

Lemma ex_bitmap_ok : vbm_ok ex_bitmap.
Proof.
  split; [done|by exists 6|by exists 2%nat|done|].
  do 4 (apply Forall_cons; split; [done|]). by apply Forall_nil.
Qed.

Lemma ex_bitmap_ranges : ranges_ok ex_bitmap.
Proof. split; (apply Forall_cons; split; [unfold range_ok, UINT32_MAX; simpl; lia|by apply Forall_nil]). Qed.

Lemma ex_bitmap_run start num : 0 <= start -> 0 < num -> start + num <= 120 -> volume_run ex_bitmap start num.
Proof. intros. unfold volume_run, UINT32_MAX. simpl. lia. Qed.

Lemma BlockMarkAllocated_bits_witness :
  exists err s', BlockMarkAllocated 20 60 ex_bitmap = Some (err, s') /\ vbm_ok s' /\
    (err = noErr \/ err ∈ vb_io ex_bitmap) /\
    (forall b, 0 <= b -> bit_at (vb_words ex_bitmap) b = true -> bit_at (vb_words s') b = true) /\
    (forall b, 0 <= b -> in_run 20 60 b = false -> bit_at (vb_words s') b = bit_at (vb_words ex_bitmap) b) /\
    (err = noErr -> forall b, in_run 20 60 b = true -> bit_at (vb_words s') b = true).
Proof.
  apply (BlockMarkAllocated_bits ex_bitmap 20 60 ex_bitmap_ok). apply volume_run_ok, ex_bitmap_run; lia.
Defined.

Lemma BlockMarkFree_frees_witness :
  exists unmap s', BlockMarkFree 62 4 ex_bitmap = Some ((noErr, unmap), s') /\ vbm_ok s' /\
    vb_inconsistent s' = vb_inconsistent ex_bitmap /\
    forall b, 0 <= b -> bit_at (vb_words s') b = bit_at (vb_words ex_bitmap) b && negb (in_run 62 4 b).
Proof.
  apply (BlockMarkFree_frees ex_bitmap 62 4 ex_bitmap_ok); [apply ex_bitmap_run; lia|done|].
  apply in_run_forallb. reflexivity.
Defined.

Lemma BlockMarkFree_unallocated_witness :
  exists err s', BlockMarkFree 62 5 ex_bitmap = Some ((err, None), s') /\ vbm_ok s' /\
    (err = EIO /\ vb_inconsistent s' = true \/ err <> noErr /\ err ∈ vb_io ex_bitmap) /\
    forall b, 0 <= b -> (in_run 62 5 b = false -> bit_at (vb_words s') b = bit_at (vb_words ex_bitmap) b) /\
                        (bit_at (vb_words s') b = true -> bit_at (vb_words ex_bitmap) b = true).
Proof.
  apply (BlockMarkFree_unallocated ex_bitmap 62 5 66 ex_bitmap_ok); [apply ex_bitmap_run; lia|reflexivity|reflexivity].
Defined.

Lemma BlockMarkFree_unmap_safe_witness :
  exists err unmap s', BlockMarkFree 62 4 ex_bitmap = Some ((err, unmap), s') /\
    match unmap with
    | None => err <> noErr
    | Some (us, uc) => err = noErr /\
        0 <= us <= 62 /\ 62 + 4 <= us + uc <= 32 * Z.of_nat (length (vb_words ex_bitmap)) /\
        (forall b, us <= b < us + uc -> bit_at (vb_words s') b = false) /\
        (Forall (clear_of 62 4) (vb_tentative ex_bitmap ++ vb_locked ex_bitmap) ->
         Forall (fun r => rl_end r < us \/ us + uc <= rl_start r) (vb_tentative ex_bitmap ++ vb_locked ex_bitmap))
    end.
Proof. apply (BlockMarkFree_unmap_safe ex_bitmap 62 4 ex_bitmap_ok). apply ex_bitmap_run; lia. Defined.

Lemma mark_free_roundtrip_witness :
  exists s1 unmap s2,
    BlockMarkAllocated 4 50 ex_bitmap = Some (noErr, s1) /\ BlockMarkFree 4 50 s1 = Some ((noErr, unmap), s2) /\
    vb_words s2 = vb_words ex_bitmap /\ vb_inconsistent s2 = vb_inconsistent ex_bitmap.
Proof.
  apply (mark_free_roundtrip ex_bitmap 4 50 ex_bitmap_ok); [apply ex_bitmap_run; lia|done|].
  intros b Hb. apply negb_true_iff. revert b Hb. apply in_run_forallb. reflexivity.
Defined.

Lemma hfs_count_allocated_counts_witness :
  hfs_count_allocated 30 40 ex_bitmap =
  Some ((noErr, count_in (fun b => bit_at (vb_words ex_bitmap) b || in_ranges (vb_locked ex_bitmap) b) 30 40), ex_bitmap).
Proof.
  apply (hfs_count_allocated_counts ex_bitmap 30 40 ex_bitmap_ok ex_bitmap_ranges); [|done].
  apply volume_run_ok, ex_bitmap_run; lia.
Defined.

Lemma hfs_isallocated_safe_witness :
  exists answer io, hfs_isallocated 4 40 ex_bitmap = Some (answer, vb_with_io io ex_bitmap) /\ (answer = 0 \/ answer = 1) /\
    (answer = 0 -> forall b, in_run 4 40 b = true -> bit_at (vb_words ex_bitmap) b = false /\ in_ranges (vb_locked ex_bitmap) b = false) /\
    (vb_io ex_bitmap = [] -> answer = 1 -> exists b, in_run 4 40 b = true /\ (bit_at (vb_words ex_bitmap) b = true \/ in_ranges (vb_locked ex_bitmap) b = true)).
Proof.
  apply (hfs_isallocated_safe ex_bitmap 4 40 ex_bitmap_ok ex_bitmap_ranges).
  apply volume_run_ok, ex_bitmap_run; lia.
Defined.

Definition ex_ops : list bm_op := [OpTest 10 20; OpAllocate 4 20; OpCount 0 120; OpFree 3 30; OpFree 0 4].

Lemma bitmap_refines_sets_witness :
  exists answers s', bm_exec_all ex_ops ex_bitmap = Some (answers, s') /\ vbm_ok s' /\
    bm_spec_all (locked_blocks ex_bitmap) ex_ops (allocated ex_bitmap) answers (allocated s').
Proof.
  apply (bitmap_refines_sets ex_bitmap ex_ops ex_bitmap_ok ex_bitmap_ranges); [done|].
  repeat (apply Forall_cons; split; [apply ex_bitmap_run; lia|]). by apply Forall_nil.
Defined.

(** When the second bitmap block cannot be read, the count so far is handed out with
    the error: blocks 0 to 3, the locked 40 and 41, and 62 and 63. *)
Example hfs_count_allocated_partial :
  hfs_count_allocated 0 120 (vb_with_io [noErr; noErr; EIO] ex_bitmap) = Some ((EIO, 8), ex_bitmap).
Proof. reflexivity. Qed.
