(* ===== verification/BitmapUnused.v ===== *)
(** * Freeing the blocks past the end of a volume (core/VolumeAllocation.c)

    BlockMarkFreeUnused clears a range a bitmap block at a time and skips the bitmap
    blocks that are clear already. *)

From S2P Require Import Prelude HfsFormat RangeList Bitmap BitmapBits BitmapWalk BitmapMark BitmapFree BitmapReserve BitmapCount BitmapProps.

(** What the range looks like afterwards. *)
Definition cleared (start num : Z) (s s' : vbm) : Prop :=
  same_volume s s' /\ vb_inconsistent s' = vb_inconsistent s /\
  forall b, 0 <= b -> bit_at (vb_words s') b = bit_at (vb_words s) b && negb (in_run start num b).

Lemma cleared_none s start num : vbm_ok s -> num <= 0 -> cleared start num s s.
Proof.
  intros Hok Hn. split; [|split; [done|]].
  - by split.
  - intros b Hb. unfold in_run. destruct (Z.leb_spec start b), (Z.ltb_spec b (start + num)); simpl; try lia; by rewrite andb_true_r.
Qed.

Lemma cleared_trans s1 s2 s3 start n1 n2 :
  0 <= n1 -> 0 <= n2 -> cleared start n1 s1 s2 -> cleared (start + n1) n2 s2 s3 -> cleared start (n1 + n2) s1 s3.
Proof.
  intros Hn1 Hn2 (H1 & H2 & H3) (K1 & K2 & K3). split; [by eapply same_volume_trans|]. split; [congruence|].
  intros b Hb. rewrite K3, H3, <- andb_assoc by done. f_equal. unfold in_run.
  destruct (Z.leb_spec start b), (Z.ltb_spec b (start + n1)), (Z.leb_spec (start + n1) b), (Z.ltb_spec b (start + n1 + n2)),
    (Z.ltb_spec b (start + (n1 + n2))); simpl; lia || done.
Qed.

(** Freeing without checks, with working I/O. *)
Lemma free_unchecked s start num :
  vbm_ok s -> vb_io s = [] -> run_ok s start num -> start + num <= UINT32_MAX ->
  exists unmap s', BlockMarkFreeInternal start num false s = Some ((noErr, unmap), s') /\ cleared start num s s'.
Proof.
  intros Hok Hio Hrun Hmax.
  destruct (BlockMarkFreeInternal_outcome false s start num Hok Hrun Hmax) as (err & unmap & s' & E & Hs & Hc & Ho); [done|].
  destruct Ho as [us uc H1 H2 H3 H4 H5 H6 H7|b H1 H2 H3 H4|err H1 H2 H3].
  - exists (Some (us, uc)), s'. split; [done|]. split; [done|]. split; [done|]. intros b Hb. rewrite (Hc b Hb).
    destruct (in_run start num b) eqn:Er; [by rewrite (H1 b Er), andb_false_r|by rewrite andb_true_r].
  - done.
  - rewrite Hio in H2. by apply elem_of_nil in H2.
Qed.

(** Nothing to free, at the start of a bitmap block: the scans stop at once. *)
Lemma free_nothing s start :
  vbm_ok s -> vb_io s = [] -> 0 <= start < 32 * Z.of_nat (length (vb_words s)) -> start mod bitsPerBlock s = 0 ->
  exists unmap, BlockMarkFreeInternal start 0 false s = Some ((noErr, unmap), s).
Proof.
  intros Hok Hio Hs Hmod. pose proof (wordsPerBlock_pos s Hok) as HW. pose proof (bitsPerBlock_eq s Hok) as Eb.
  pose proof (Z.div_mod start (32 * wordsPerBlock s) ltac:(lia)) as Edm. rewrite Eb in Hmod. rewrite Hmod in Edm.
  assert (start mod 32 = 0) as Hmod32.
  { rewrite Edm, Z.add_0_r, <- Z.mul_assoc, Z.mul_comm. apply Z.mod_mul. lia. }
  assert (first_cursor s (start / bitsPerBlock s) start = mkCursor (start / bitsPerBlock s) 0 (wordsPerBlock s) start) as Ec.
  { unfold first_cursor. rewrite (block_mask s Hok), Hmod by lia. change (0 / kBitsPerWord) with 0. by rewrite Z.sub_0_r. }
  unfold BlockMarkFreeInternal, mbind, VB_bind, vb_state. cbn [andb].
  rewrite ReadBitmapBlock_eq, (io_step_nil s Hio). cbn [fst snd].
  replace (noErr =? noErr) with true by done. cbv iota. rewrite Ec.
  destruct (unmap_bounds (vb_tentative s) start 0 0 UINT32_MAX) as [min1 max1].
  destruct (unmap_bounds (vb_locked s) start 0 min1 max1) as [min max].
  unfold kBitsPerWord. rewrite Hmod32.
  set (c := mkCursor (start / bitsPerBlock s) 0 (wordsPerBlock s) start).
  assert (forall fuel, unmap_before c (Z.shiftr kHighBitInWordMask 0) min start 0 (S fuel) s = Some ((start, 0), s)) as ->.
  { intros fuel. cbn [unmap_before]. by destruct (min <? start). }
  assert (walk IgnoreReserved (clear_op false) c start 0 false s = Some (mkWalked noErr false (Some c), s)) as ->.
  { unfold walk, kBitsPerWord. by rewrite Hmod32. }
  cbn [wk_acc wk_held wk_err]. unfold mret, VB_ret. replace (noErr =? noErr) with true by done. cbn [negb].
  set (last := u32 (start + 0 - 1)).
  assert (last mod 32 = 31 /\ Z.land last (bitsPerBlock s - 1) / 32 = wordsPerBlock s - 1) as [El1 El2].
  { destruct (vbm_pow2 s Hok) as (n & Hn & E2). rewrite (block_mask s Hok) by apply u32_bound. rewrite E2.
    assert (last mod 2 ^ n = 2 ^ n - 1) as El.
    { subst last. unfold u32, wrap. replace 32 with (n + (32 - n)) by lia. rewrite Z.pow_add_r by lia.
      rewrite Z.rem_mul_r by (apply Z.pow_nonzero || apply Z.pow_pos_nonneg; lia).
      rewrite (Z.mul_comm (2 ^ n) (_ mod _)), Z_mod_plus_full, Z.mod_mod by (apply Z.pow_nonzero; lia).
      rewrite Edm, E2. symmetry. apply (Z.mod_unique _ _ (start / 2 ^ n - 1)); [|lia].
      pose proof (Z.pow_pos_nonneg 2 n ltac:(lia) ltac:(lia)). lia. }
    rewrite El. split.
    - pose proof (Z.div_mod last (2 ^ n)) as Ed. rewrite El in Ed. rewrite Ed by (apply Z.pow_nonzero; lia).
      symmetry. rewrite <- E2. apply (Z.mod_unique _ _ (wordsPerBlock s * (last / (32 * wordsPerBlock s)) + wordsPerBlock s - 1)); lia.
    - rewrite <- E2. symmetry. apply (Z.div_unique _ _ _ 31); lia. }
  rewrite El1, El2. change (Z.shiftr kHighBitInWordMask 31) with 1.
  assert (forall fuel, unmap_after (cursor_at c (wordsPerBlock s - 1)) 1 (wordsPerBlock s - (wordsPerBlock s - 1)) max start 0 (S fuel) s
    = Some (0, s)) as ->.
  { intros fuel. replace (wordsPerBlock s - (wordsPerBlock s - 1)) with 1 by lia. cbn [unmap_after]. by destruct (u32 (start + 0) <? max). }
  rewrite ReleaseBitmapBlock_eq, (io_step_nil s Hio). by eexists.
Qed.

(** One turn of the loop. *)
Lemma free_chunk s start n :
  vbm_ok s -> ranges_ok s -> vb_io s = [] -> run_ok s start n -> start + n <= UINT32_MAX ->
  exists used s1, hfs_isallocated start n s = Some (used, s) /\
    (used = 1 -> exists unmap, BlockMarkFreeInternal start n false s = Some ((noErr, unmap), s1)) /\
    (used <> 1 -> s1 = s) /\ cleared start n s s1.
Proof.
  intros Hok Hr Hio Hrun Hmax.
  destruct (hfs_isallocated_internal_spec s true start n Hok Hr Hrun) as (err & count & io & E & Hin & Herr & Hc & _).
  destruct Herr as [->|Herr]; [|rewrite Hio in Herr; by apply elem_of_nil in Herr].
  assert (vb_with_io io s = s) as Es.
  { destruct io as [|e io]; [|destruct (not_elem_of_nil e); rewrite <- Hio; apply Hin; left]. rewrite <- Hio. by destruct s. }
  rewrite Es in E. specialize (Hc eq_refl).
  assert (hfs_isallocated start n s = Some (count, s)) as Eu by (unfold hfs_isallocated, mbind, VB_bind; by rewrite E).
  destruct (free_unchecked s start n Hok Hio Hrun Hmax) as (unmap & s1 & Ef & Hcl).
  destruct (Z.eqb_spec (count_in (seen s IgnoreTentative) start n) 0) as [E0|E0]; subst count.
  - exists 0, s. split; [done|]. split; [done|]. split; [done|]. split; [by split|]. split; [done|].
    intros b Hb. destruct (in_run start n b) eqn:Er; [|by rewrite andb_true_r].
    assert (seen s IgnoreTentative b = false) as [-> _]%orb_false_iff; [|done].
    apply (proj1 (count_in_0 _ _ _) E0). unfold in_run in Er. rewrite andb_true_iff, Z.leb_le, Z.ltb_lt in Er. lia.
  - exists 1, s1. split; [done|]. split; [by exists unmap|]. done.
Qed.

(** The turns that are left. *)
Definition turns (bpb num : Z) : Z := num / bpb + (if num mod bpb =? 0 then 0 else 1).

Lemma turns_left bpb num fuel :
  0 < bpb -> 0 < num -> turns bpb num < Z.of_nat (S fuel) ->
  turns bpb (num - (if bpb <=? num then bpb else num)) < Z.of_nat fuel.
Proof.
  intros Hb Hn. unfold turns. pose proof (Z.div_mod num bpb ltac:(lia)). pose proof (Z.mod_pos_bound num bpb Hb).
  pose proof (Z.div_pos num bpb ltac:(lia) Hb). destruct (Z.leb_spec bpb num) as [Hle|Hlt].
  - assert ((num - bpb) / bpb = num / bpb - 1) as -> by (symmetry; apply (Z.div_unique _ _ _ (num mod bpb)); lia).
    assert ((num - bpb) mod bpb = num mod bpb) as -> by (symmetry; apply (Z.mod_unique _ _ (num / bpb - 1)); lia).
    destruct (num mod bpb =? 0); lia.
  - rewrite Z.sub_diag, Z.div_0_l, Z.mod_0_l by lia. rewrite (Z.mod_small num), (Z.div_small num) by lia.
    change (0 =? 0) with true. destruct (Z.eqb_spec num 0); lia.
Qed.

Lemma free_unused_loop_clears fuel : forall s start num,
  vbm_ok s -> ranges_ok s -> vb_io s = [] -> 0 <= start -> 0 <= num -> start + num <= UINT32_MAX ->
  start + num <= 32 * Z.of_nat (length (vb_words s)) -> turns (bitsPerBlock s) num < Z.of_nat fuel ->
  exists s', free_unused_loop start num fuel s = Some (noErr, s') /\ cleared start num s s'.
Proof.
  induction fuel as [|fuel IH]; intros s start num Hok Hr Hio Hs Hn Hmax Hle Hfuel.
  { pose proof (bitsPerBlock_eq s Hok). pose proof (wordsPerBlock_pos s Hok). pose proof (Z.div_pos num (bitsPerBlock s)).
    unfold turns in Hfuel. destruct (num mod bitsPerBlock s =? 0); lia. }
  pose proof (bitsPerBlock_eq s Hok) as Eb. pose proof (wordsPerBlock_pos s Hok) as HW.
  cbn [free_unused_loop]. destruct (Z.eqb_spec num 0) as [->|Hne].
  { exists s. split; [done|]. by apply cleared_none. }
  unfold mbind, VB_bind, vb_state. set (n := if bitsPerBlock s <=? num then bitsPerBlock s else num).
  assert (0 < n <= num) as Hn1 by (subst n; destruct (Z.leb_spec (bitsPerBlock s) num); lia).
  destruct (free_chunk s start n Hok Hr Hio) as (used & s1 & Eu & Hfree & Hskip & Hcl); [split; lia|lia|].
  rewrite Eu. destruct (Hcl) as (Hs1 & _).
  assert (vb_io s1 = []) as Hio1 by (by eapply no_io_nil).
  destruct (same_volume_sets s s1 Hs1) as (_ & _ & Hr1).
  assert (bitsPerBlock s1 = bitsPerBlock s) as Eb1 by (unfold bitsPerBlock; by rewrite (sv_iosize _ _ Hs1)).
  destruct (IH s1 (start + n) (num - n) (sv_ok _ _ Hs1) (Hr1 Hr) Hio1) as (s2 & E2 & Hcl2); try lia.
  { by rewrite (sv_length _ _ Hs1); lia. }
  { rewrite Eb1. apply turns_left; lia. }
  exists s2. split; [|replace num with (n + (num - n)) by lia; eapply cleared_trans; [lia|lia|exact Hcl|exact Hcl2]].
  rewrite <- E2. rewrite !u32_id by lia.
  destruct (Z.eqb_spec used 1) as [->|Hu].
  - destruct (Hfree eq_refl) as [unmap ->]. done.
  - rewrite (Hskip Hu). done.
Qed.

(** The blocks up to the next bitmap block, also when the rounding wraps around. *)
Lemma round_up bpb p start :
  bpb = 2 ^ p -> 6 <= p <= 31 -> 0 <= start <= UINT32_MAX ->
  let cur := u32 (u32 (u32 (start + (bpb - 1)) / bpb * bpb) - start) in
  0 <= cur < bpb /\ (start + cur) mod bpb = 0.
Proof.
  intros -> Hp Hs. pose proof (Z.pow_pos_nonneg 2 p ltac:(lia) ltac:(lia)) as Hpos.
  assert (2 ^ p <= 2 ^ 31) by (apply Z.pow_le_mono_r; lia). unfold UINT32_MAX in *.
  destruct (Z.lt_ge_cases (start + (2 ^ p - 1)) (2 ^ 32)) as [Hlt|Hge].
  - rewrite (u32_id (start + _)) by (unfold UINT32_MAX; lia). set (q := (start + (2 ^ p - 1)) / 2 ^ p).
    pose proof (Z.div_mod (start + (2 ^ p - 1)) (2 ^ p) ltac:(lia)). pose proof (Z.mod_pos_bound (start + (2 ^ p - 1)) (2 ^ p) Hpos).
    fold q in H0. rewrite (u32_id (q * 2 ^ p)), u32_id by (unfold UINT32_MAX; lia). split; [lia|].
    replace (start + (q * 2 ^ p - start)) with (q * 2 ^ p) by lia. apply Z.mod_mul. lia.
  - assert (u32 (start + (2 ^ p - 1)) = start + (2 ^ p - 1) - 2 ^ 32) as ->.
    { unfold u32, wrap. symmetry. apply (Z.mod_unique _ _ 1); lia. }
    rewrite Z.div_small by lia. change (u32 (0 * 2 ^ p)) with 0.
    assert (u32 (0 - start) = 2 ^ 32 - start) as -> by (unfold u32, wrap; symmetry; apply (Z.mod_unique _ _ (-1)); lia).
    split; [lia|]. replace (start + (2 ^ 32 - start)) with (2 ^ (32 - p) * 2 ^ p); [apply Z.mod_mul; lia|].
    rewrite <- Z.pow_add_r by lia. replace (32 - p + p) with 32 by lia. lia.
Qed.

(** The part of the range in the first bitmap block. *)
Lemma free_first s start n :
  vbm_ok s -> vb_io s = [] -> 0 <= start < 32 * Z.of_nat (length (vb_words s)) -> 0 <= n ->
  start + n <= UINT32_MAX -> start + n <= 32 * Z.of_nat (length (vb_words s)) -> (n = 0 -> start mod bitsPerBlock s = 0) ->
  exists unmap s', BlockMarkFreeInternal start n false s = Some ((noErr, unmap), s') /\ cleared start n s s'.
Proof.
  intros Hok Hio Hs Hn Hmax Hle H0. destruct (Z.eq_dec n 0) as [->|Hne].
  - destruct (free_nothing s start Hok Hio Hs (H0 eq_refl)) as [unmap E]. exists unmap, s. split; [done|]. by apply cleared_none.
  - apply free_unchecked; [done|done|unfold run_ok; lia|done].
Qed.

(** BlockMarkFreeUnused on a range inside of a well-formed bitmap, with working block
    I/O, ends with success and with every bit of the range clear and every other bit as
    it was, whether the range starts inside of a bitmap block or at its start, and also
    when rounding up to the next bitmap block wraps around at the 32-bit limit. *)
Theorem BlockMarkFreeUnused_clears s start num :
  vbm_ok s -> ranges_ok s -> vb_io s = [] -> run_ok s start num -> start + num <= UINT32_MAX ->
  exists s', BlockMarkFreeUnused start num s = Some (noErr, s') /\ vbm_ok s' /\
    forall b, 0 <= b -> bit_at (vb_words s') b = bit_at (vb_words s) b && negb (in_run start num b).
Proof.
  intros Hok Hr Hio Hrun Hmax. pose proof Hrun as (Hs & Hn & Hle).
  pose proof (bitsPerBlock_eq s Hok) as Eb. pose proof (wordsPerBlock_pos s Hok) as HW. destruct (vbm_pow2 s Hok) as (p & Hp & Ep).
  unfold BlockMarkFreeUnused, mbind, VB_bind, vb_state.
  destruct (round_up (bitsPerBlock s) p start) as [Hcur Hmod]; [lia|lia|lia|].
  set (cur := u32 (u32 (u32 (start + (bitsPerBlock s - 1)) / bitsPerBlock s * bitsPerBlock s) - start)) in *.
  set (n := if num <? cur then num else cur).
  assert (0 <= n <= num /\ (n = 0 -> cur = 0)) as [Hn0 Hn1] by (subst n; destruct (Z.ltb_spec num cur); lia).
  destruct (free_first s start n Hok Hio) as (unmap & s1 & E1 & Hcl1); [lia|lia|lia|lia| |].
  { intros Hz. rewrite <- Hmod. f_equal. lia. }
  rewrite E1. change (noErr =? noErr) with true. cbn [negb]. pose proof Hcl1 as (Hs1 & _).
  rewrite !u32_id by lia. destruct (same_volume_sets s s1 Hs1) as (_ & _ & Hr1).
  assert (bitsPerBlock s1 = bitsPerBlock s) as Eb1 by (unfold bitsPerBlock; by rewrite (sv_iosize _ _ Hs1)).
  destruct (free_unused_loop_clears (S (S (Z.to_nat ((num - n) / bitsPerBlock s)))) s1 (start + n) (num - n))
    as (s2 & E2 & Hcl2); [apply Hs1|by apply Hr1|by eapply no_io_nil|lia|lia|lia|rewrite (sv_length _ _ Hs1); lia| |].
  { rewrite Eb1. unfold turns. pose proof (Z.div_pos (num - n) (bitsPerBlock s)). destruct (_ =? 0); lia. }
  rewrite E2. exists s2. split; [done|]. destruct (cleared_trans s s1 s2 start n (num - n) ltac:(lia) ltac:(lia) Hcl1 Hcl2) as (Hs2 & _ & Hb).
  split; [apply Hs2|]. replace (n + (num - n)) with num in Hb by lia. done.
Qed.

Lemma BlockMarkFreeUnused_clears_witness :
  exists s', BlockMarkFreeUnused 10 118 ex_bitmap = Some (noErr, s') /\ vbm_ok s' /\
    forall b, 0 <= b -> bit_at (vb_words s') b = bit_at (vb_words ex_bitmap) b && negb (in_run 10 118 b).
Proof.
  apply (BlockMarkFreeUnused_clears ex_bitmap 10 118 ex_bitmap_ok ex_bitmap_ranges); [done|unfold run_ok, UINT32_MAX; simpl; lia|done].
Defined.
