(* ===== verification/JournalTrim.v ===== *)
(** * The trim lists of the journal (core/hfs_journal.c)

    The extents freed by the active transaction, and those of the transaction being
    flushed: byte ranges that may be unmapped once the transaction is on disk.
    journal_trim_add_extent adds a range, journal_trim_remove_extent takes out a range
    that is in use again, journal_trim_extent_overlap looks for a range.

    A list is kept as its [extent_count] live extents with the size of its array;
    whether an allocation of memory succeeds is taken from the list [jt_memory] of
    results to come, success when it is empty.  The locks are not modelled: each
    operation is one step. *)

From S2P Require Import Prelude HfsFormat.

Definition ENOMEM : Z := 12.
Definition JOURNAL_DEFAULT_TRIM_EXTENTS : Z := 4096 / 16.

Record dk_extent := mkDk { de_offset : Z; de_length : Z }.

#[export] Instance dk_extent_inhabited : Inhabited dk_extent := populate (mkDk 0 0).

Record jnl_trim_list := mkTrim {
  tl_allocated : Z;             (* allocated_count *)
  tl_extents : list dk_extent;  (* extents[0 .. extent_count - 1] *)
}.

(** The part of [struct journal] the trim code uses: the list of the active
    transaction, which is open, and the one of the transaction being flushed. *)
Record jtrim := mkJtrim {
  jt_invalid : bool;                   (* JOURNAL_INVALID *)
  jt_active : jnl_trim_list;           (* active_tr->trim *)
  jt_async : option jnl_trim_list;     (* async_trim *)
  jt_flush : bool;                     (* active_tr->flush_on_completion *)
  jt_memory : list bool;
}.

Definition extent_end (e : dk_extent) : Z := u64 (de_offset e + de_length e).

(** A loop that moves over the extents a test holds for. *)
Fixpoint count_while (test : dk_extent -> bool) (l : list dk_extent) : nat :=
  match l with
  | [] => O
  | e :: l => if test e then S (count_while test l) else O
  end.

(** The error, the list and the results that are left. *)
Definition trim_realloc (trim : jnl_trim_list) (memory : list bool) : Z * jnl_trim_list * list bool :=
  match memory with
  | false :: memory => (ENOMEM, mkTrim (tl_allocated trim) [], memory)
  | _ => (0, mkTrim (u32 (tl_allocated trim + JOURNAL_DEFAULT_TRIM_EXTENTS)) (tl_extents trim), tail memory)
  end.

(** Room for one more extent. *)
Definition trim_room (trim : jnl_trim_list) (memory : list bool) : Z * jnl_trim_list * list bool :=
  if Z.of_nat (length (tl_extents trim)) =? tl_allocated trim then trim_realloc trim memory else (0, trim, memory).

(** The first extent found that overlaps the range; each turn halves what is left. *)
Fixpoint trim_search_loop (extents : list dk_extent) (offset end_ lower upper : Z) (fuel : nat) : option dk_extent :=
  match fuel with
  | O => None
  | S fuel =>
      if lower <? upper then
        let middle := u32 (lower + upper) / 2 in
        let e := extents !!! Z.to_nat middle in
        if end_ <=? de_offset e then trim_search_loop extents offset end_ lower middle fuel
        else if extent_end e <=? offset then trim_search_loop extents offset end_ (u32 (middle + 1)) upper fuel
        else Some e
      else None
  end.

Definition trim_search_extent (trim : jnl_trim_list) (offset length_ : Z) : option dk_extent :=
  let n := length (tl_extents trim) in
  trim_search_loop (tl_extents trim) offset (u64 (offset + length_)) 0 (Z.of_nat n) (S n).

(** The error and the journal. *)
Definition journal_trim_add_extent (j : jtrim) (offset length_ : Z) : Z * jtrim :=
  if jt_invalid j then (EINVAL, j) else
  let trim := jt_active j in
  let extents := tl_extents trim in
  let with_active memory t := mkJtrim (jt_invalid j) t (jt_async j) (jt_flush j) memory in
  let end_ := u64 (offset + length_) in
  let insert_index := count_while (fun e => extent_end e <? offset) extents in
  let replace_count := count_while (fun e => de_offset e <=? end_) (drop insert_index extents) in
  match replace_count with
  | O =>
      let '(err, trim, memory) := trim_room trim (jt_memory j) in
      if negb (err =? 0) then (ENOMEM, with_active memory trim) else
      (0, with_active memory
            (mkTrim (tl_allocated trim)
               (take insert_index extents ++ mkDk offset length_ :: drop insert_index extents)))
  | S _ =>
      let first := extents !!! insert_index in
      let last := extents !!! (insert_index + replace_count - 1)%nat in
      let offset := if de_offset first <? offset then de_offset first else offset in
      let end_ := if end_ <? extent_end last then extent_end last else end_ in
      (0, with_active (jt_memory j)
            (mkTrim (tl_allocated trim)
               (take insert_index extents ++ mkDk offset (u64 (end_ - offset)) :: drop (insert_index + replace_count) extents)))
  end.

(** journal_trim_extent_overlap: the end of the overlap. *)
Definition journal_trim_extent_overlap (j : jtrim) (offset length_ : Z) : option Z :=
  let overlap :=
    match trim_search_extent (jt_active j) offset length_ with
    | Some e => Some e
    | None => trim ← jt_async j; trim_search_extent trim offset length_
    end in
  e ← overlap;
  Some (if extent_end e <? u64 (offset + length_) then extent_end e else u64 (offset + length_)).

Definition journal_request_immediate_flush (j : jtrim) : jtrim :=
  mkJtrim (jt_invalid j) (jt_active j) (jt_async j) true (jt_memory j).

(** The last extent that starts before the range and the first one that ends after it
    are cut, the extents between them dropped. *)
Definition cut_extents (extents : list dk_extent) (keep_before keep_after : nat) (offset end_ : Z) : list dk_extent :=
  let extents :=
    if bool_decide (0 < keep_before)%nat then
      let e := extents !!! (keep_before - 1)%nat in
      if offset <? extent_end e
      then <[(keep_before - 1)%nat := mkDk (de_offset e) (u64 (offset - de_offset e))]> extents else extents
    else extents in
  let extents :=
    if bool_decide (keep_after < length extents)%nat then
      let e := extents !!! keep_after in
      if de_offset e <? end_
      then <[keep_after := mkDk end_ (u64 (extent_end e - end_))]> extents else extents
    else extents in
  take keep_before extents ++ drop keep_after extents.

(** The error, the list and the results that are left. *)
Definition trim_remove_extent (trim : jnl_trim_list) (memory : list bool) (offset length_ : Z) : Z * jnl_trim_list * list bool :=
  let extents := tl_extents trim in
  let end_ := u64 (offset + length_) in
  let keep_before := count_while (fun e => de_offset e <? offset) extents in
  let from := (keep_before - 1)%nat in
  let whole := count_while (fun e => extent_end e <=? end_) (drop from extents) in
  let keep_after := (from + whole)%nat in
  (* the range is inside of one extent: the extent is stored twice *)
  let '(err, trim, memory, extents, keep_after) :=
    if bool_decide (keep_after < keep_before)%nat then
      let '(err, trim, memory) := trim_room trim memory in
      (err, trim, memory, take keep_before extents ++ drop keep_after extents, S keep_after)
    else (0, trim, memory, extents, keep_after) in
  if negb (err =? 0) then (ENOMEM, trim, memory) else
  (0, mkTrim (tl_allocated trim) (cut_extents extents keep_before keep_after offset end_), memory).

Definition journal_trim_remove_extent (j : jtrim) (offset length_ : Z) : Z * jtrim :=
  if jt_invalid j then (EINVAL, j) else
  let '(error, active, memory) := trim_remove_extent (jt_active j) (jt_memory j) offset length_ in
  let j := mkJtrim (jt_invalid j) active (jt_async j) (jt_flush j) memory in
  if negb (error =? 0) then (error, j) else
  match jt_async j with
  | None => (error, j)
  | Some async =>
      match trim_search_extent async offset length_ with
      | None => (error, j)
      | Some _ =>
          let '(error, async, memory) := trim_remove_extent async memory offset length_ in
          (error, mkJtrim (jt_invalid j) active (Some async) (jt_flush j) memory)
      end
  end.

Example ex_trim : jtrim := mkJtrim false (mkTrim 256 [mkDk 0 10; mkDk 20 10; mkDk 40 10]) None false [].
Example ex_add : tl_extents (jt_active (snd (journal_trim_add_extent ex_trim 5 30))) = [mkDk 0 35; mkDk 40 10].
Proof. reflexivity. Qed.
Example ex_add_between : tl_extents (jt_active (snd (journal_trim_add_extent ex_trim 12 3))) = [mkDk 0 10; mkDk 12 3; mkDk 20 10; mkDk 40 10].
Proof. reflexivity. Qed.
Example ex_remove_hole : tl_extents (jt_active (snd (journal_trim_remove_extent ex_trim 22 3))) = [mkDk 0 10; mkDk 20 2; mkDk 25 5; mkDk 40 10].
Proof. reflexivity. Qed.
Example ex_remove_span : tl_extents (jt_active (snd (journal_trim_remove_extent ex_trim 5 40))) = [mkDk 0 5; mkDk 45 5].
Proof. reflexivity. Qed.
