(* ===== verification/JournalTrimProps.v ===== *)
(** * Properties of the journal's trim lists (core/hfs_journal.c)

    A trim list is kept in order and disjoint; adding a range adds its bytes, removing
    a range takes its bytes out, and the binary search finds an overlap exactly when
    there is one. *)

From S2P Require Import Prelude HfsFormat JournalTrim.

(** ** Well-formed lists *)

Definition dk_end (e : dk_extent) : Z := de_offset e + de_length e.
Definition dk_ok (e : dk_extent) : Prop := 0 <= de_offset e /\ 0 < de_length e /\ dk_end e < 2 ^ 64.
Definition before (a b : dk_extent) : Prop := dk_end a <= de_offset b.

Record trim_ok (l : list dk_extent) : Prop := {
  to_ok : Forall dk_ok l;
  to_sorted : StronglySorted before l;
}.

(** [x] is a byte of the list. *)
Definition in_extent (x : Z) (e : dk_extent) : Prop := de_offset e <= x < dk_end e.
Definition in_trim (l : list dk_extent) (x : Z) : Prop := exists e, e ∈ l /\ in_extent x e.

(** The starts and the ends of the extents. *)
Definition ends (l : list dk_extent) (x : Z) : Prop := exists e, e ∈ l /\ (x = de_offset e \/ x = dk_end e).
Definition new_ends (offset end_ : Z) (l l' : list dk_extent) : Prop :=
  forall x, ends l' x -> ends l x \/ x = offset \/ x = end_.

Ltac dk_unfold := unfold dk_ok, before, in_extent, dk_end, u64, wrap in *; simpl in *.

Lemma extent_end_ok e : dk_ok e -> extent_end e = dk_end e.
Proof. intros H. unfold extent_end, u64. apply wrap_id. dk_unfold. lia. Qed.

Lemma in_trim_nil x : ~ in_trim [] x.
Proof. by intros (e & ?%elem_of_nil & _). Qed.
Lemma in_trim_cons e l x : in_trim (e :: l) x <-> in_extent x e \/ in_trim l x.
Proof. unfold in_trim. setoid_rewrite elem_of_cons. naive_solver. Qed.
Lemma in_trim_app l1 l2 x : in_trim (l1 ++ l2) x <-> in_trim l1 x \/ in_trim l2 x.
Proof. unfold in_trim. setoid_rewrite elem_of_app. naive_solver. Qed.

Lemma in_trim_from l c x : (forall e, e ∈ l -> c <= de_offset e) -> in_trim l x -> c <= x.
Proof. intros H (e & He & Hx). specialize (H e He). unfold in_extent in Hx. lia. Qed.
Lemma in_trim_upto l c x : (forall e, e ∈ l -> dk_end e <= c) -> in_trim l x -> x < c.
Proof. intros H (e & He & Hx). specialize (H e He). unfold in_extent in Hx. lia. Qed.

Lemma trim_ok_nil : trim_ok [].
Proof. split; constructor. Qed.

Lemma trim_ok_app l1 l2 :
  trim_ok (l1 ++ l2) <-> trim_ok l1 /\ trim_ok l2 /\ (forall a b, a ∈ l1 -> b ∈ l2 -> before a b).
Proof.
  split.
  - intros [H1 H2]. apply Forall_app in H1 as [? ?]. apply StronglySorted_app in H2 as (? & ? & ?).
    split; [by split|]. split; [by split|done].
  - intros ([H1 H2] & [H3 H4] & H5). split; [by apply Forall_app|]. apply StronglySorted_app. auto.
Qed.

Lemma trim_ok_cons e l : trim_ok (e :: l) <-> dk_ok e /\ trim_ok l /\ Forall (before e) l.
Proof.
  split.
  - intros [H1 H2]. apply Forall_cons in H1 as [? ?]. apply StronglySorted_cons in H2 as [? ?].
    split; [done|]. split; [by split|done].
  - intros (H1 & [H2 H3] & H4). split; [by apply Forall_cons|]. by constructor.
Qed.

Lemma trim_ok_in l e : trim_ok l -> e ∈ l -> dk_ok e.
Proof. intros [H _]. by apply Forall_forall. Qed.

(** ** The loops over the extents *)

(** A test that holds for a part of the list only at its front. *)
Lemma count_while_split (test : dk_extent -> bool) l :
  (forall a b, a ∈ l -> b ∈ l -> before a b -> test b = true -> test a = true) -> StronglySorted before l ->
  exists pre post, l = pre ++ post /\ count_while test l = length pre /\
    (forall e, e ∈ pre -> test e = true) /\ (forall e, e ∈ post -> test e = false).
Proof.
  induction l as [|e l IH]; intros Hmono Hs.
  { exists [], []. split; [done|]. split; [done|]. split; intros ? []%elem_of_nil. }
  apply StronglySorted_cons in Hs as [Hf Hs]. rewrite Forall_forall in Hf. simpl. destruct (test e) eqn:Et.
  - destruct IH as (pre & post & -> & -> & Hp & Hq); [|done|].
    { intros a b Ha Hb. apply Hmono; by right. }
    exists (e :: pre), post. split; [done|]. split; [done|]. split; [|done].
    intros x [->|Hx]%elem_of_cons; [done|by apply Hp].
  - exists [], (e :: l). split; [done|]. split; [done|]. split; [by intros ? []%elem_of_nil|].
    intros x [->|Hx]%elem_of_cons; [done|]. destruct (test x) eqn:Ex; [|done].
    rewrite (Hmono e x) in Et; [done|left|by right|by apply Hf|done].
Qed.

Lemma count_ends_before c l :
  trim_ok l -> exists pre post, l = pre ++ post /\ count_while (fun e => extent_end e <? c) l = length pre /\
    (forall e, e ∈ pre -> dk_end e < c) /\ (forall e, e ∈ post -> c <= dk_end e).
Proof.
  intros Hl. destruct (count_while_split (fun e => extent_end e <? c) l) as (pre & post & -> & E & H1 & H2); [|apply Hl|].
  - intros a b Ha Hb Hab. pose proof (trim_ok_in l a Hl Ha). pose proof (trim_ok_in l b Hl Hb).
    rewrite !extent_end_ok, !Z.ltb_lt by done. dk_unfold. lia.
  - exists pre, post. split; [done|]. split; [done|]. split; intros e He.
    + specialize (H1 e He). rewrite extent_end_ok, Z.ltb_lt in H1; [done|]. eapply trim_ok_in; [exact Hl|]. apply elem_of_app. by left.
    + specialize (H2 e He). rewrite extent_end_ok, Z.ltb_ge in H2; [done|]. eapply trim_ok_in; [exact Hl|]. apply elem_of_app. by right.
Qed.

Lemma count_ends_upto c l :
  trim_ok l -> exists pre post, l = pre ++ post /\ count_while (fun e => extent_end e <=? c) l = length pre /\
    (forall e, e ∈ pre -> dk_end e <= c) /\ (forall e, e ∈ post -> c < dk_end e).
Proof.
  intros Hl. destruct (count_while_split (fun e => extent_end e <=? c) l) as (pre & post & -> & E & H1 & H2); [|apply Hl|].
  - intros a b Ha Hb Hab. pose proof (trim_ok_in l a Hl Ha). pose proof (trim_ok_in l b Hl Hb).
    rewrite !extent_end_ok, !Z.leb_le by done. dk_unfold. lia.
  - exists pre, post. split; [done|]. split; [done|]. split; intros e He.
    + specialize (H1 e He). rewrite extent_end_ok, Z.leb_le in H1; [done|]. eapply trim_ok_in; [exact Hl|]. apply elem_of_app. by left.
    + specialize (H2 e He). rewrite extent_end_ok, Z.leb_gt in H2; [done|]. eapply trim_ok_in; [exact Hl|]. apply elem_of_app. by right.
Qed.

Lemma count_starts (test : Z -> bool) l :
  (forall a b, a <= b -> test b = true -> test a = true) ->
  trim_ok l -> exists pre post, l = pre ++ post /\ count_while (fun e => test (de_offset e)) l = length pre /\
    (forall e, e ∈ pre -> test (de_offset e) = true) /\ (forall e, e ∈ post -> test (de_offset e) = false).
Proof.
  intros Hmono Hl. apply (count_while_split (fun e => test (de_offset e))); [|apply Hl].
  intros a b Ha Hb Hab. apply Hmono. pose proof (trim_ok_in l a Hl Ha). dk_unfold. lia.
Qed.

(** ** The search *)

Definition overlaps (offset end_ : Z) (e : dk_extent) : Prop := de_offset e < end_ /\ offset < dk_end e.

Lemma trim_search_loop_correct l offset end_ fuel : trim_ok l -> Z.of_nat (length l) <= 2 ^ 31 -> forall lower upper,
  0 <= lower -> upper <= Z.of_nat (length l) -> upper - lower < Z.of_nat fuel -> 
  (forall i e, l !! i = Some e -> Z.of_nat i < lower -> ~ overlaps offset end_ e) ->
  (forall i e, l !! i = Some e -> upper <= Z.of_nat i -> ~ overlaps offset end_ e) ->
  match trim_search_loop l offset end_ lower upper fuel with
  | Some e => e ∈ l /\ overlaps offset end_ e
  | None => forall e, e ∈ l -> ~ overlaps offset end_ e
  end.
Proof.
  intros Hl Hlen. induction fuel as [|fuel IH]; intros lower upper H0 Hup Hf Hlo Hhi.
  { intros e (i & E)%list_elem_of_lookup. destruct (Z.lt_ge_cases (Z.of_nat i) lower); [by eapply Hlo|]. apply (Hhi i e E). lia. }
  simpl. destruct (Z.ltb_spec lower upper) as [Hlt|Hge].
  2:{ intros e (i & E)%list_elem_of_lookup. destruct (Z.lt_ge_cases (Z.of_nat i) lower); [by eapply Hlo|]. apply (Hhi i e E). lia. }
  rewrite u32_id by (unfold UINT32_MAX; lia).
  assert (lower <= (lower + upper) / 2 < upper) as Hmid.
  { split; [apply Z.div_le_lower_bound; lia|apply Z.div_lt_upper_bound; lia]. }
  set (mid := (lower + upper) / 2) in *. 
  destruct (lookup_lt_is_Some_2 l (Z.to_nat mid) ltac:(lia)) as [e E].
  rewrite (list_lookup_total_correct _ _ _ E).
  assert (dk_ok e) as Hok by (apply (trim_ok_in l); [done|by eapply list_elem_of_lookup_2]).
  rewrite extent_end_ok by done.
  assert (forall i j a b, (i < j)%nat -> l !! i = Some a -> l !! j = Some b -> before a b) as Hsort.
  { intros i j a b Hij Ea Eb. apply list_elem_of_split_length in Ea as (l1 & l2 & -> & ->).
    destruct Hl as [_ Hs]. apply StronglySorted_app in Hs as (_ & _ & Hs). apply StronglySorted_cons in Hs as [Hs _].
    rewrite Forall_forall in Hs. apply Hs. apply list_elem_of_lookup. exists (j - S (length l1))%nat.
    rewrite lookup_app_r in Eb by lia. destruct (j - length l1)%nat as [|k] eqn:Ek; [lia|].
    replace (j - S (length l1))%nat with k by lia. done. }
  destruct (Z.leb_spec end_ (de_offset e)) as [H1|H1]; [|destruct (Z.leb_spec (dk_end e) offset) as [H2|H2]].
  - apply IH; [lia|lia|lia|done|]. intros i a Ea Hi [Ho _].
    destruct (decide (i = Z.to_nat mid)) as [->|]; [rewrite E in Ea; injection Ea as <-; lia|].
    pose proof (Hsort (Z.to_nat mid) i e a ltac:(lia) E Ea). dk_unfold. lia.
  - rewrite u32_id by (unfold UINT32_MAX; lia). apply IH; [lia|lia|lia| |done]. intros i a Ea Hi [_ Ho].
    destruct (decide (i = Z.to_nat mid)) as [->|]; [rewrite E in Ea; injection Ea as <-; lia|].
    pose proof (Hsort i (Z.to_nat mid) a e ltac:(lia) Ea E). assert (dk_ok a) by (apply (trim_ok_in l); [done|by eapply list_elem_of_lookup_2]).
    dk_unfold. lia.
  - split; [by eapply list_elem_of_lookup_2|]. by split.
Qed.

Lemma trim_search_extent_correct trim offset length_ :
  trim_ok (tl_extents trim) -> Z.of_nat (length (tl_extents trim)) <= 2 ^ 31 ->
  0 <= offset -> 0 <= length_ -> offset + length_ < 2 ^ 64 ->
  match trim_search_extent trim offset length_ with
  | Some e => e ∈ tl_extents trim /\ overlaps offset (offset + length_) e
  | None => forall e, e ∈ tl_extents trim -> ~ overlaps offset (offset + length_) e
  end.
Proof.
  intros Hl Hlen H0 H1 H2. unfold trim_search_extent, u64. cbv zeta. rewrite (wrap_id 64 (offset + length_)) by lia.
  apply trim_search_loop_correct; [done|done|lia|lia|rewrite Nat2Z.inj_succ; lia| |].
  - intros i e E Hi. lia.
  - intros i e E Hi. apply lookup_lt_Some in E. lia.
Qed.

(** ** Adding *)

(** The extents a range is merged with. *)
Lemma trim_add_split l offset end_ :
  trim_ok l -> offset < end_ -> exists pre mid post, l = pre ++ mid ++ post /\
    count_while (fun e => extent_end e <? offset) l = length pre /\
    count_while (fun e => de_offset e <=? end_) (drop (length pre) l) = length mid /\
    (forall e, e ∈ pre -> dk_end e < offset) /\
    (forall e, e ∈ mid -> offset <= dk_end e /\ de_offset e <= end_) /\
    (forall e, e ∈ post -> end_ < de_offset e).
Proof.
  intros Hl Hlt. destruct (count_ends_before offset l Hl) as (pre & rest & -> & E1 & Hpre & Hrest).
  apply trim_ok_app in Hl as (_ & Hr & _).
  destruct (count_starts (fun x => x <=? end_) rest) as (mid & post & -> & E2 & Hmid & Hpost);
    [intros a b Hab; rewrite !Z.leb_le; lia|done|].
  exists pre, mid, post. split; [done|]. split; [done|]. rewrite drop_app_length. split; [done|]. split; [done|]. split.
  - intros e He. split; [apply Hrest, elem_of_app; by left|]. apply Z.leb_le. by apply Hmid.
  - intros e He. apply Z.leb_gt. by apply Hpost.
Qed.

Lemma sorted_first_last (mid : list dk_extent) :
  mid <> [] -> trim_ok mid -> exists first last, mid !! 0%nat = Some first /\ mid !! (length mid - 1)%nat = Some last /\
    forall e, e ∈ mid -> de_offset first <= de_offset e /\ dk_end e <= dk_end last.
Proof.
  intros Hne Hm. destruct mid as [|first mid]; [done|]. exists first.
  destruct (exists_last (l := first :: mid)) as (init & last & E); [done|]. exists last.
  split; [done|]. split.
  { rewrite E, length_app. replace (length init + length [last] - 1)%nat with (length init) by (simpl; lia). apply lookup_middle. }
  intros e He. split.
  - apply trim_ok_cons in Hm as (Hf & _ & Hb). apply elem_of_cons in He as [->|He]; [done|].
    rewrite Forall_forall in Hb. specialize (Hb e He). dk_unfold. lia.
  - rewrite E in He, Hm. apply trim_ok_app in Hm as (_ & Hlast & Hb). apply trim_ok_cons in Hlast as (Hlast & _).
    apply elem_of_app in He as [He|He%list_elem_of_singleton]; [|subst; done].
    specialize (Hb e last He ltac:(apply list_elem_of_singleton; done)). dk_unfold. lia.
Qed.

Lemma new_ends_cons offset end_ l pre post e :
  (forall x, x ∈ pre \/ x ∈ post -> x ∈ l) -> (forall x, x = de_offset e \/ x = dk_end e -> ends l x \/ x = offset \/ x = end_) ->
  new_ends offset end_ l (pre ++ e :: post).
Proof.
  intros Hin He x (e' & [H|[->|H]%elem_of_cons]%elem_of_app & Hx); [left; exists e'; auto|by apply He|left; exists e'; auto].
Qed.

(** Replacing the middle of a list by the hull of it and a range that touches it all. *)
Lemma trim_replace pre mid post offset end_ first last :
  trim_ok (pre ++ mid ++ post) -> 0 <= offset < end_ -> end_ < 2 ^ 64 ->
  (forall e, e ∈ pre -> dk_end e < offset) -> (forall e, e ∈ post -> end_ < de_offset e) ->
  (forall e, e ∈ mid -> offset <= dk_end e /\ de_offset e <= end_) ->
  first ∈ mid -> last ∈ mid -> (forall e, e ∈ mid -> de_offset first <= de_offset e /\ dk_end e <= dk_end last) ->
  let lo := Z.min (de_offset first) offset in
  let hi := Z.max (dk_end last) end_ in
  trim_ok (pre ++ mkDk lo (hi - lo) :: post) /\
  (forall x, in_trim (pre ++ mkDk lo (hi - lo) :: post) x <-> in_trim (pre ++ mid ++ post) x \/ offset <= x < end_) /\
  new_ends offset end_ (pre ++ mid ++ post) (pre ++ mkDk lo (hi - lo) :: post).
Proof.
  intros Hl Hr Hmax Hpre Hpost Hmid Hf Hla Hfl lo hi.
  apply trim_ok_app in Hl as (Hp & Hmp & Hb1). apply trim_ok_app in Hmp as (Hm & Hq & Hb2).
  pose proof (trim_ok_in _ _ Hm Hf) as Hfok. pose proof (trim_ok_in _ _ Hm Hla) as Hlok.
  pose proof (Hmid first Hf) as Hf1. pose proof (Hmid last Hla) as Hl1. pose proof (Hfl first Hf) as Hf2.
  split; [|split].
  - apply trim_ok_app. split; [done|]. split.
    + apply trim_ok_cons. split; [subst lo hi; dk_unfold; lia|]. split; [done|]. apply Forall_forall.
      intros e He. specialize (Hb2 last e Hla He). specialize (Hpost e He). subst lo hi. dk_unfold. lia.
    + intros a b Ha [->|Hbb]%elem_of_cons.
      * specialize (Hpre a Ha). specialize (Hb1 a first Ha ltac:(apply elem_of_app; by left)). subst lo hi. dk_unfold. lia.
      * apply Hb1; [done|]. apply elem_of_app. by right.
  - intros x. rewrite in_trim_app, in_trim_cons, !in_trim_app.
    assert (in_extent x (mkDk lo (hi - lo)) <-> in_trim mid x \/ offset <= x < end_) as ->; [|tauto].
    split.
    + intros Hx. destruct (Z.lt_ge_cases x offset) as [Hlt|Hge]; [|destruct (Z.lt_ge_cases x end_) as [Hlt'|Hge']].
      * left. exists first. split; [done|]. subst lo hi. dk_unfold. lia.
      * right. lia.
      * left. exists last. split; [done|]. subst lo hi. dk_unfold. lia.
    + intros [(e & He & Hx)|Hx]; [specialize (Hfl e He)|]; subst lo hi; dk_unfold; lia.
  - apply new_ends_cons; [intros x; rewrite !elem_of_app; tauto|]. intros x Hx. cbn [de_offset] in Hx. unfold dk_end in Hx. cbn in Hx.
    assert (ends (pre ++ mid ++ post) (de_offset first) /\ ends (pre ++ mid ++ post) (dk_end last)) as [E1 E2].
    { split; [exists first|exists last]; (split; [rewrite !elem_of_app; tauto|auto]). }
    destruct (Z.min_spec (de_offset first) offset) as [[_ Em]|[_ Em]], (Z.max_spec (dk_end last) end_) as [[_ Ex]|[_ Ex]];
      subst lo hi; rewrite Em, Ex in Hx; destruct Hx as [->|Hx]; try (right; lia); try (by left);
      (left; by replace x with (dk_end last) by lia) || (right; lia).
Qed.

Lemma trim_insert pre post offset end_ :
  trim_ok (pre ++ post) -> 0 <= offset < end_ -> end_ < 2 ^ 64 ->
  (forall e, e ∈ pre -> dk_end e < offset) -> (forall e, e ∈ post -> end_ < de_offset e) ->
  trim_ok (pre ++ mkDk offset (end_ - offset) :: post) /\
  (forall x, in_trim (pre ++ mkDk offset (end_ - offset) :: post) x <-> in_trim (pre ++ post) x \/ offset <= x < end_) /\
  new_ends offset end_ (pre ++ post) (pre ++ mkDk offset (end_ - offset) :: post).
Proof.
  intros Hl Hr Hmax Hpre Hpost. apply trim_ok_app in Hl as (Hp & Hq & Hb). split; [|split].
  - apply trim_ok_app. split; [done|]. split.
    + apply trim_ok_cons. split; [dk_unfold; lia|]. split; [done|]. apply Forall_forall.
      intros e He. specialize (Hpost e He). dk_unfold. lia.
    + intros a b Ha [->|Hbb]%elem_of_cons; [|by apply Hb]. specialize (Hpre a Ha). dk_unfold. lia.
  - intros x. rewrite in_trim_app, in_trim_cons, in_trim_app.
    assert (in_extent x (mkDk offset (end_ - offset)) <-> offset <= x < end_) as -> by (dk_unfold; lia). tauto.
  - apply new_ends_cons; [intros x; rewrite elem_of_app; tauto|]. intros x Hx. dk_unfold. right. lia.
Qed.

(** ** Removing *)

(** The part of an extent before a byte, and the part from a byte on. *)
Definition cut_end (c : Z) (e : dk_extent) : dk_extent :=
  if c <? extent_end e then mkDk (de_offset e) (u64 (c - de_offset e)) else e.
Definition cut_start (c : Z) (e : dk_extent) : dk_extent :=
  if de_offset e <? c then mkDk c (u64 (extent_end e - c)) else e.

Lemma cut_end_ok c e : dk_ok e -> de_offset e < c ->
  de_offset (cut_end c e) = de_offset e /\ dk_end (cut_end c e) = Z.min (dk_end e) c.
Proof.
  intros He Hc. unfold cut_end. rewrite extent_end_ok by done. destruct (Z.ltb_spec c (dk_end e)) as [H|H]; [|lia].
  unfold u64. rewrite wrap_id by (dk_unfold; lia). dk_unfold. lia.
Qed.

Lemma cut_start_ok c e : dk_ok e -> c < dk_end e ->
  de_offset (cut_start c e) = Z.max (de_offset e) c /\ dk_end (cut_start c e) = dk_end e.
Proof.
  intros He Hc. unfold cut_start. rewrite extent_end_ok by done. destruct (Z.ltb_spec (de_offset e) c) as [H|H]; [|lia].
  unfold u64. rewrite wrap_id by (dk_unfold; lia). dk_unfold. lia.
Qed.

Lemma cut_ends c l : 0 <= c -> trim_ok l -> (forall e, e ∈ l -> de_offset e < c) ->
  trim_ok (cut_end c <$> l) /\ (forall e, e ∈ cut_end c <$> l -> dk_end e <= c) /\
  forall x, in_trim (cut_end c <$> l) x <-> in_trim l x /\ x < c.
Proof.
  intros H0. induction l as [|e l IH]; intros Hl Hc.
  { split; [done|]. split; [by intros ? ?%not_elem_of_nil|]. intros x. split; [intros H; by apply in_trim_nil in H|intros [H _]; by apply in_trim_nil in H]. }
  apply trim_ok_cons in Hl as (He & Hl & Hb). destruct (IH Hl) as (H1 & H2 & H3); [intros; apply Hc; by right|].
  destruct (cut_end_ok c e He ltac:(apply Hc; left)) as [E1 E2]. pose proof (Hc e ltac:(left)) as Hce. cbn [fmap list_fmap].
  split; [|split].
  - apply trim_ok_cons. split; [dk_unfold; lia|]. split; [done|]. apply Forall_forall. intros b Hbb.
    apply list_elem_of_fmap in Hbb as (b' & -> & Hb'). rewrite Forall_forall in Hb. specialize (Hb b' Hb').
    destruct (cut_end_ok c b') as [E3 E4]; [by apply (trim_ok_in l)|apply Hc; by right|]. unfold before in *. rewrite E3. lia.
  - intros a [->|Ha]%elem_of_cons; [lia|by apply H2].
  - intros x. rewrite !in_trim_cons, H3. unfold in_extent. rewrite E1, E2.
    rewrite Z.min_glb_lt_iff. tauto.
Qed.

Lemma cut_starts c l : 0 <= c -> trim_ok l -> (forall e, e ∈ l -> c < dk_end e) ->
  trim_ok (cut_start c <$> l) /\ (forall e, e ∈ cut_start c <$> l -> c <= de_offset e) /\
  forall x, in_trim (cut_start c <$> l) x <-> in_trim l x /\ c <= x.
Proof.
  intros H0. induction l as [|e l IH]; intros Hl Hc.
  { split; [done|]. split; [by intros ? ?%not_elem_of_nil|]. intros x. split; [intros H; by apply in_trim_nil in H|intros [H _]; by apply in_trim_nil in H]. }
  apply trim_ok_cons in Hl as (He & Hl & Hb). destruct (IH Hl) as (H1 & H2 & H3); [intros; apply Hc; by right|].
  destruct (cut_start_ok c e He ltac:(apply Hc; left)) as [E1 E2]. pose proof (Hc e ltac:(left)) as Hce. cbn [fmap list_fmap].
  split; [|split].
  - apply trim_ok_cons. split; [dk_unfold; lia|]. split; [done|]. apply Forall_forall. intros b Hbb.
    apply list_elem_of_fmap in Hbb as (b' & -> & Hb'). rewrite Forall_forall in Hb. specialize (Hb b' Hb').
    destruct (cut_start_ok c b') as [E3 E4]; [by apply (trim_ok_in l)|apply Hc; by right|]. unfold before in *. rewrite E3. lia.
  - intros a [->|Ha]%elem_of_cons; [lia|by apply H2].
  - intros x. rewrite !in_trim_cons, H3. unfold in_extent. rewrite E1, E2.
    rewrite Z.max_lub_iff. tauto.
Qed.

(** Away from the cut an extent stays as it is. *)
Lemma cut_end_id c l : trim_ok l -> (forall e, e ∈ l -> dk_end e <= c) -> cut_end c <$> l = l.
Proof.
  intros Hl Hc. rewrite <-(list_fmap_id l) at 2. apply list_fmap_ext. intros i e E%list_elem_of_lookup_2.
  unfold cut_end. rewrite extent_end_ok by (by apply (trim_ok_in l)). destruct (Z.ltb_spec c (dk_end e)) as [H|]; [|done]. specialize (Hc e E). lia.
Qed.

Lemma cut_start_id c (l : list dk_extent) : (forall e, e ∈ l -> c <= de_offset e) -> cut_start c <$> l = l.
Proof.
  intros Hc. rewrite <-(list_fmap_id l) at 2. apply list_fmap_ext. intros i e E%list_elem_of_lookup_2.
  unfold cut_start. destruct (Z.ltb_spec (de_offset e) c) as [H|]; [|done]. specialize (Hc e E). lia.
Qed.

(** The two updates of [trim_remove_extent]: of the last extent that starts before
    the range, and of the first one that ends after it. *)
Lemma cut_last_step c pre rest : trim_ok pre -> (forall e, e ∈ pre -> de_offset e < c) ->
  (if bool_decide (0 < length pre)%nat then
     let e := (pre ++ rest) !!! (length pre - 1)%nat in
     if c <? extent_end e
     then <[(length pre - 1)%nat := mkDk (de_offset e) (u64 (c - de_offset e))]> (pre ++ rest) else pre ++ rest
   else pre ++ rest) = (cut_end c <$> pre) ++ rest.
Proof.
  intros Hl Hc. destruct pre as [|p pre _] using rev_ind; [done|]. apply trim_ok_app in Hl as (Hl & Hp & Hb).
  rewrite bool_decide_eq_true_2 by (rewrite length_app; simpl; lia). cbv zeta.
  replace (length (pre ++ [p]) - 1)%nat with (length pre) by (rewrite length_app; simpl; lia).
  rewrite <-app_assoc. cbn [app]. rewrite (list_lookup_total_middle _ _ _ _ eq_refl).
  rewrite fmap_app, cut_end_id; [|done|].
  2:{ intros e He. specialize (Hb e p He ltac:(apply list_elem_of_singleton; done)).
      specialize (Hc p ltac:(apply elem_of_app; right; left)). unfold before in Hb. lia. }
  rewrite <-app_assoc. unfold cut_end. cbn [fmap list_fmap app]. destruct (c <? extent_end p); [|done].
  by rewrite insert_app_r_alt, Nat.sub_diag by lia.
Qed.

Lemma cut_first_step c pre post : trim_ok post -> (forall e, e ∈ post -> c < dk_end e) ->
  (if bool_decide (length pre < length (pre ++ post))%nat then
     let e := (pre ++ post) !!! length pre in
     if de_offset e <? c
     then <[length pre := mkDk c (u64 (extent_end e - c))]> (pre ++ post) else pre ++ post
   else pre ++ post) = pre ++ (cut_start c <$> post).
Proof.
  intros Hl Hc. destruct post as [|p post].
  { rewrite bool_decide_eq_false_2 by (rewrite app_nil_r; lia). done. }
  rewrite bool_decide_eq_true_2 by (rewrite length_app; simpl; lia). cbv zeta.
  rewrite (list_lookup_total_middle _ _ _ _ eq_refl). apply trim_ok_cons in Hl as (Hp & Hl & Hb).
  cbn [fmap list_fmap]. rewrite (cut_start_id c post).
  2:{ intros e He. rewrite Forall_forall in Hb. specialize (Hb e He). specialize (Hc p ltac:(left)). unfold before in Hb. lia. }
  unfold cut_start. destruct (de_offset p <? c); [|done].
  by rewrite insert_app_r_alt, Nat.sub_diag by lia.
Qed.

Lemma cut_extents_eq pre mid post offset end_ :
  trim_ok pre -> trim_ok post -> (forall e, e ∈ pre -> de_offset e < offset) -> (forall e, e ∈ post -> end_ < dk_end e) ->
  cut_extents (pre ++ mid ++ post) (length pre) (length pre + length mid) offset end_
  = (cut_end offset <$> pre) ++ (cut_start end_ <$> post).
Proof.
  intros Hp Hq H1 H2. unfold cut_extents. rewrite cut_last_step by done. cbv zeta.
  assert (length pre + length mid = length ((cut_end offset <$> pre) ++ mid))%nat as -> by (rewrite length_app, length_fmap; lia).
  rewrite app_assoc. pose proof (cut_first_step end_ ((cut_end offset <$> pre) ++ mid) post Hq H2) as E.
  cbv zeta in E. rewrite E. rewrite drop_app_length. f_equal.
  by rewrite <-app_assoc, <-(length_fmap (cut_end offset) pre), take_app_length.
Qed.

Definition removed (offset end_ : Z) (l l' : list dk_extent) : Prop :=
  trim_ok l' /\ (forall x, in_trim l' x <-> in_trim l x /\ ~ (offset <= x < end_)) /\ new_ends offset end_ l l'.

Lemma cut_removes l pre mid post offset end_ :
  trim_ok pre -> trim_ok post -> 0 <= offset < end_ ->
  (forall e, e ∈ pre -> de_offset e < offset) -> (forall e, e ∈ post -> end_ < dk_end e) ->
  (forall e, e ∈ pre \/ e ∈ post -> e ∈ l) ->
  (forall x, in_trim l x <-> in_trim pre x \/ in_trim mid x \/ in_trim post x) ->
  (forall x, in_trim mid x -> offset <= x < end_) ->
  (forall x, in_trim pre x -> end_ <= x -> in_trim post x) ->
  (forall x, in_trim post x -> x < offset -> in_trim pre x) ->
  removed offset end_ l (cut_extents (pre ++ mid ++ post) (length pre) (length pre + length mid) offset end_).
Proof.
  intros Hp Hq Hr H1 H2 Hin Hl Hm H3 H4. rewrite cut_extents_eq by done.
  destruct (cut_ends offset pre ltac:(lia) Hp H1) as (P1 & P2 & P3).
  destruct (cut_starts end_ post ltac:(lia) Hq H2) as (Q1 & Q2 & Q3). split; [|split].
  - apply trim_ok_app. split; [done|]. split; [done|]. intros a b Ha Hb. specialize (P2 a Ha). specialize (Q2 b Hb).
    unfold before. lia.
  - intros x. rewrite in_trim_app, P3, Q3, Hl. split.
    + intros [[? ?]|[? ?]]; (split; [tauto|lia]).
    + intros [[H|[H|H]] Hx]; [|by apply Hm in H|].
      * destruct (Z.lt_ge_cases x offset); [by left|]. right. split; [apply H3; [done|]|]; lia.
      * destruct (Z.lt_ge_cases x offset); [left; split; [by apply H4|done]|]. right. split; [done|lia].
  - intros x (e & [(e' & -> & He)%list_elem_of_fmap|(e' & -> & He)%list_elem_of_fmap]%elem_of_app & Hx).
    + destruct (cut_end_ok offset e') as [E1 E2]; [by apply (trim_ok_in pre)|by apply H1|]. rewrite E1, E2 in Hx.
      destruct (Z.min_spec (dk_end e') offset) as [[_ Em]|[_ Em]]; rewrite Em in Hx; [left; exists e'; auto|].
      destruct Hx; [left; exists e'; auto|right; by left].
    + destruct (cut_start_ok end_ e') as [E1 E2]; [by apply (trim_ok_in post)|by apply H2|]. rewrite E1, E2 in Hx.
      destruct (Z.max_spec (de_offset e') end_) as [[_ Em]|[_ Em]]; rewrite Em in Hx; [|left; exists e'; auto].
      destruct Hx; [right; by right|left; exists e'; auto].
Qed.

Lemma trim_room_outcome trim memory :
  let '(err, trim', memory') := trim_room trim memory in
  (err = 0 /\ tl_extents trim' = tl_extents trim /\ memory' ⊆ memory) \/ (err = ENOMEM /\ tl_extents trim' = [] /\ memory = false :: memory').
Proof.
  unfold trim_room, trim_realloc. destruct (_ =? _); [|by left].
  destruct memory as [|[] memory]; [by left| |by right]. left. split; [done|]. split; [done|]. by apply list_subseteq_cons.
Qed.

Lemma trim_remove_extent_outcome trim memory offset length_ :
  trim_ok (tl_extents trim) -> 0 <= offset -> 0 < length_ -> offset + length_ < 2 ^ 64 ->
  let '(err, trim', memory') := trim_remove_extent trim memory offset length_ in
  (err = 0 /\ removed offset (offset + length_) (tl_extents trim) (tl_extents trim') /\ memory' ⊆ memory)
  \/ (err = ENOMEM /\ tl_extents trim' = [] /\ memory = false :: memory').
Proof.
  intros Hl H0 H1 H2. unfold trim_remove_extent. cbv zeta.
  assert (u64 (offset + length_) = offset + length_) as Eend by (unfold u64; apply wrap_id; lia).
  assert (0 <= offset < offset + length_) as Hr by lia. revert Eend Hr.
  generalize (u64 (offset + length_)) as end_. intros end_ <- Hr.
  destruct (count_starts (fun x => x <? offset) (tl_extents trim)) as (pre & rest & E & -> & Hpre & Hrest);
    [intros a b Hab; rewrite !Z.ltb_lt; lia|done|].
  assert (forall e, e ∈ pre -> de_offset e < offset) as Hpre' by (intros e He; apply Z.ltb_lt; by apply Hpre).
  assert (forall e, e ∈ rest -> offset <= de_offset e) as Hrest' by (intros e He; apply Z.ltb_ge; by apply Hrest).
  clear Hpre Hrest. rewrite E in *. apply trim_ok_app in Hl as (Hp & Hq & Hb).
  destruct pre as [|p pre _] using rev_ind.
  - cbn [length app]. change (0 - 1)%nat with O. rewrite drop_0.
    destruct (count_ends_upto end_ rest Hq) as (mid & post & -> & -> & Hmid & Hpost).
    rewrite bool_decide_eq_false_2 by lia. cbn [negb Z.eqb tl_extents]. left. split; [done|].
    apply trim_ok_app in Hq as (Hm & Hq & Hb2). split; [|done].
    apply (cut_removes _ [] mid post); [done|done|done|done|done|intros e; rewrite elem_of_nil, !elem_of_app; tauto| | |by intros x []%in_trim_nil|].
    + intros x. cbn [app]. rewrite in_trim_app. pose proof (in_trim_nil x). tauto.
    + intros x Hx. split; [|by apply (in_trim_upto mid)]. apply (in_trim_from mid); [|done].
      intros e He. apply Hrest', elem_of_app. by left.
    + intros x Hx Hlt. apply (in_trim_from post offset) in Hx; [lia|]. intros e He. apply Hrest', elem_of_app. by right.
  - assert (length (pre ++ [p]) - 1 = length pre)%nat as -> by (rewrite length_app; simpl; lia).
    assert (drop (length pre) ((pre ++ [p]) ++ rest) = p :: rest) as -> by (by rewrite <-app_assoc, drop_app_length).
    assert (dk_ok p) as Hpok by (apply (trim_ok_in _ _ Hp), elem_of_app; right; left).
    cbn [count_while]. rewrite extent_end_ok by done. destruct (Z.leb_spec (dk_end p) end_) as [Hpe|Hpe].
    + destruct (count_ends_upto end_ rest Hq) as (mid & post & -> & -> & Hmid & Hpost).
      rewrite bool_decide_eq_false_2 by (rewrite length_app; simpl; lia). cbn [negb Z.eqb tl_extents]. left. split; [done|].
      assert (length pre + S (length mid) = length (pre ++ [p]) + length mid)%nat as -> by (rewrite length_app; simpl; lia).
      apply trim_ok_app in Hq as (Hm & Hq & Hb2). split; [|done]. apply cut_removes; [done|done|done|done|done|intros e; rewrite !elem_of_app; tauto| | | |].
      * intros x. rewrite <-app_assoc, !in_trim_app. tauto.
      * intros x Hx. split; [|by apply (in_trim_upto mid)]. apply (in_trim_from mid); [|done].
        intros e He. apply Hrest', elem_of_app. by left.
      * intros x Hx Hlt. apply (in_trim_upto (pre ++ [p]) end_) in Hx; [lia|].
        apply trim_ok_app in Hp as (_ & _ & Hbp). intros e [He|He%list_elem_of_singleton]%elem_of_app; [|by subst].
        specialize (Hbp e p He ltac:(by apply list_elem_of_singleton)). dk_unfold. lia.
      * intros x Hx Hlt. apply (in_trim_from post offset) in Hx; [lia|]. intros e He. apply Hrest', elem_of_app. by right.
    + rewrite bool_decide_eq_true_2 by (rewrite length_app; simpl; lia).
      pose proof (trim_room_outcome trim memory) as Hroom. destruct (trim_room trim memory) as [[err trim'] memory'].
      destruct Hroom as [(-> & _ & Hsub)|(-> & E' & ->)]; [|right; done]. left. cbn [negb Z.eqb tl_extents]. split; [done|]. split; [|done].
      rewrite Nat.add_0_r, take_app_length, <-app_assoc, drop_app_length.
      assert (S (length pre) = length (pre ++ [p]) + length (@nil dk_extent))%nat as -> by (rewrite length_app; simpl; lia).
      apply (cut_removes _ (pre ++ [p]) [] (p :: rest)); [done| |done|done| |intros e; rewrite !elem_of_app, !elem_of_cons; tauto| |by intros x []%in_trim_nil| |].
      * apply trim_ok_cons. split; [done|]. split; [done|]. apply Forall_forall. intros b Hbb. apply Hb; [|done].
        apply elem_of_app. right. left.
      * intros e [->|He]%elem_of_cons; [done|]. specialize (Hb p e ltac:(apply elem_of_app; right; left) He).
        pose proof (trim_ok_in _ _ Hq He). dk_unfold. lia.
      * intros x. rewrite !in_trim_app, !in_trim_cons. pose proof (in_trim_nil x). tauto.
      * intros x Hx Hle. rewrite in_trim_app in Hx. destruct Hx as [Hx|Hx]; [|apply in_trim_cons in Hx as [Hx|[]%in_trim_nil]; apply in_trim_cons; by left].
        apply (in_trim_upto pre offset) in Hx; [lia|]. apply trim_ok_app in Hp as (_ & _ & Hbp). intros e He.
        specialize (Hbp e p He ltac:(by apply list_elem_of_singleton)). specialize (Hpre' p ltac:(apply elem_of_app; right; left)). dk_unfold. lia.
      * intros x [Hx|Hx]%in_trim_cons Hlt; [apply in_trim_app; right; apply in_trim_cons; by left|].
        apply (in_trim_from rest offset) in Hx; [lia|done].
Qed.

(** ** The operations of the journal *)

Record jtrim_ok (j : jtrim) : Prop := {
  jo_active : trim_ok (tl_extents (jt_active j));
  jo_async : forall t, jt_async j = Some t -> trim_ok (tl_extents t) /\ Z.of_nat (length (tl_extents t)) <= 2 ^ 31;
  jo_count : Z.of_nat (length (tl_extents (jt_active j))) <= 2 ^ 31;
}.

(** A byte that is to be trimmed: by the active transaction or by the one in flight. *)
Definition pending (j : jtrim) (x : Z) : Prop :=
  in_trim (tl_extents (jt_active j)) x \/ exists t, jt_async j = Some t /\ in_trim (tl_extents t) x.

Lemma journal_trim_add_extent_spec (j : jtrim) (offset length_ : Z) :
  trim_ok (tl_extents (jt_active j)) -> jt_invalid j = false ->
  0 <= offset -> 0 < length_ -> offset + length_ < 2 ^ 64 ->
  let (err, j') := journal_trim_add_extent j offset length_ in
  jt_async j' = jt_async j /\ trim_ok (tl_extents (jt_active j')) /\
  ((err = 0 /\ (forall x, in_trim (tl_extents (jt_active j')) x <->
                        in_trim (tl_extents (jt_active j)) x \/ offset <= x < offset + length_) /\
     new_ends offset (offset + length_) (tl_extents (jt_active j)) (tl_extents (jt_active j')) /\ jt_memory j' ⊆ jt_memory j /\ jt_invalid j' = false)
   \/ (err = ENOMEM /\ tl_extents (jt_active j') = [] /\ jt_memory j = false :: jt_memory j')).
Proof.
  intros Hl Hinv H0 H1 H2. unfold journal_trim_add_extent. rewrite Hinv.
  assert (u64 (offset + length_) = offset + length_) as -> by (unfold u64; apply wrap_id; lia).
  destruct (trim_add_split _ offset (offset + length_) Hl) as (pre & mid & post & E & -> & -> & Hpre & Hmid & Hpost); [lia|].
  destruct mid as [|m mid].
  - cbn [length]. pose proof (trim_room_outcome (jt_active j) (jt_memory j)) as Hroom.
    destruct (trim_room (jt_active j) (jt_memory j)) as [[err trim'] memory'].
    destruct Hroom as [(-> & E' & Hsub)|(-> & E' & Em)]; cbn; rewrite E; split; try done.
    + cbn [app]. rewrite take_app_length, drop_app_length. rewrite E in Hl.
      destruct (trim_insert pre post offset (offset + length_)) as (Q1 & Q2 & Q3); [done|lia|lia|done|done|].
      replace (offset + length_ - offset) with length_ in Q1, Q2, Q3 by lia. split; [done|]. left. auto.
    + rewrite E'. split; [apply trim_ok_nil|]. by right.
  - cbn [length jt_async jt_active jt_memory tl_extents]. split; [done|].
    destruct (sorted_first_last (m :: mid)) as (first & last & Ef & El & Hfl); [done| |].
    { rewrite E in Hl. apply trim_ok_app in Hl as (_ & Hl & _). by apply trim_ok_app in Hl as (Hl & _). }
    assert (tl_extents (jt_active j) !!! length pre = first) as ->.
    { rewrite E, lookup_total_app_r, Nat.sub_diag by lia. cbn in Ef. injection Ef as <-. done. }
    assert (tl_extents (jt_active j) !!! (length pre + S (length mid) - 1)%nat = last) as ->.
    { apply list_lookup_total_correct. rewrite E, lookup_app_r by lia.
      replace (length pre + S (length mid) - 1 - length pre)%nat with (length (m :: mid) - 1)%nat by (simpl; lia).
      by rewrite lookup_app_l by (simpl; lia). }
    rewrite E in Hl |- *. apply list_elem_of_lookup_2 in Ef, El.
    destruct (trim_replace pre (m :: mid) post offset (offset + length_) first last Hl ltac:(lia) ltac:(lia) Hpre Hpost Hmid Ef El Hfl) as (Q1 & Q2 & Q3).
    assert (dk_ok first /\ dk_ok last) as [Hfo Hlo].
    { split; (apply (trim_ok_in _ _ Hl), elem_of_app; right; apply elem_of_app; by left). }
    rewrite take_app_length, drop_app_add, extent_end_ok by done. change (S (length mid)) with (length (m :: mid)). rewrite drop_app_length.
    assert ((if de_offset first <? offset then de_offset first else offset) = Z.min (de_offset first) offset) as ->.
    { destruct (Z.ltb_spec (de_offset first) offset); lia. }
    assert ((if offset + length_ <? dk_end last then dk_end last else offset + length_) = Z.max (dk_end last) (offset + length_)) as ->.
    { destruct (Z.ltb_spec (offset + length_) (dk_end last)); lia. }
    unfold u64. rewrite wrap_id by (dk_unfold; lia). split; [done|]. left. auto.
Qed.

(** C30: Adding a freed range to the trim list of the active transaction makes it the
    union of the list and the range, in order, disjoint and with neighbours merged,
    and leaves the list in flight alone; the only error is the one of an allocation
    that fails, and then the list is empty, so that nothing wrong can be trimmed. *)
Theorem journal_trim_add_extent_union (j : jtrim) (offset length_ : Z) :
  trim_ok (tl_extents (jt_active j)) -> jt_invalid j = false ->
  0 <= offset -> 0 < length_ -> offset + length_ < 2 ^ 64 ->
  let (err, j') := journal_trim_add_extent j offset length_ in
  jt_async j' = jt_async j /\ trim_ok (tl_extents (jt_active j')) /\
  ((err = 0 /\ forall x, in_trim (tl_extents (jt_active j')) x <->
                        in_trim (tl_extents (jt_active j)) x \/ offset <= x < offset + length_)
   \/ (err = ENOMEM /\ tl_extents (jt_active j') = [] /\ jt_memory j = false :: jt_memory j')).
Proof.
  intros H1 H2 H3 H4 H5. pose proof (journal_trim_add_extent_spec j offset length_ H1 H2 H3 H4 H5) as H.
  destruct (journal_trim_add_extent j offset length_) as [err j']. destruct H as (G1 & G2 & [(-> & G3 & _)|G3]); (split; [done|]); (split; [done|]).
  - left. by split.
  - by right.
Qed.

Lemma trim_search_removed trim offset length_ :
  trim_ok (tl_extents trim) -> Z.of_nat (length (tl_extents trim)) <= 2 ^ 31 ->
  0 <= offset -> 0 < length_ -> offset + length_ < 2 ^ 64 -> trim_search_extent trim offset length_ = None ->
  forall x, in_trim (tl_extents trim) x -> ~ (offset <= x < offset + length_).
Proof.
  intros Hl Hc H0 H1 H2 E x (e & He & Hx) Hr. pose proof (trim_search_extent_correct trim offset length_ Hl Hc H0 ltac:(lia) H2) as H.
  rewrite E in H. apply (H e He). unfold overlaps, in_extent in *. lia.
Qed.

(** The extents of both lists. *)
Definition trims (j : jtrim) : list dk_extent :=
  tl_extents (jt_active j) ++ match jt_async j with Some t => tl_extents t | None => [] end.

Lemma new_ends_app offset end_ l1 l2 l1' l2' :
  new_ends offset end_ l1 l1' -> new_ends offset end_ l2 l2' -> new_ends offset end_ (l1 ++ l2) (l1' ++ l2').
Proof.
  intros H1 H2 x (e & [He|He]%elem_of_app & Hx).
  - destruct (H1 x) as [(e' & He' & Hx')|?]; [by exists e| |by right]. left. exists e'. split; [|done]. apply elem_of_app. by left.
  - destruct (H2 x) as [(e' & He' & Hx')|?]; [by exists e| |by right]. left. exists e'. split; [|done]. apply elem_of_app. by right.
Qed.

Lemma new_ends_refl offset end_ l : new_ends offset end_ l l.
Proof. intros x Hx. by left. Qed.

Lemma journal_trim_remove_extent_spec (j : jtrim) (offset length_ : Z) :
  jtrim_ok j -> jt_invalid j = false -> 0 <= offset -> 0 < length_ -> offset + length_ < 2 ^ 64 ->
  let (err, j') := journal_trim_remove_extent j offset length_ in
  trim_ok (tl_extents (jt_active j')) /\ (forall t, jt_async j' = Some t -> trim_ok (tl_extents t)) /\
  ((err = 0 /\ (forall x, pending j' x <-> pending j x /\ ~ (offset <= x < offset + length_)) /\
      new_ends offset (offset + length_) (trims j) (trims j') /\ jt_memory j' ⊆ jt_memory j /\ jt_invalid j' = false)
   \/ (err = ENOMEM /\ false ∈ jt_memory j /\
       ((tl_extents (jt_active j') = [] /\ jt_async j' = jt_async j)
        \/ (removed offset (offset + length_) (tl_extents (jt_active j)) (tl_extents (jt_active j')) /\
            exists t, jt_async j' = Some t /\ tl_extents t = [])))).
Proof.
  intros [Hl Has Hc] Hinv H0 H1 H2. unfold journal_trim_remove_extent. rewrite Hinv.
  pose proof (trim_remove_extent_outcome (jt_active j) (jt_memory j) offset length_ Hl H0 H1 H2) as Ha.
  destruct (trim_remove_extent (jt_active j) (jt_memory j) offset length_) as [[err active] memory] eqn:Em.
  destruct Ha as [(-> & (Hok & Hr & Hends) & Hsub)|(-> & E & Emem)].
  2:{ cbn. rewrite E. split; [apply trim_ok_nil|]. split; [intros t Et; by apply Has|]. right. split; [done|].
      rewrite Emem. split; [left|by left]. }
  cbn [negb Z.eqb]. cbn [jt_async].
  destruct (jt_async j) as [async|] eqn:Eas.
  2:{ cbn. split; [done|]. split; [done|]. left. split; [done|]. split.
      - intros x. unfold pending. cbn. rewrite Hr, Eas. naive_solver.
      - unfold trims. rewrite Eas. cbn. by split; [apply new_ends_app; [|apply new_ends_refl]|]. }
  destruct (Has async eq_refl) as [Hs Hsc].
  destruct (trim_search_extent async offset length_) as [e|] eqn:Es.
  - pose proof (trim_remove_extent_outcome async memory offset length_ Hs H0 H1 H2) as Ha.
    destruct (trim_remove_extent async memory offset length_) as [[err async'] memory''].
    destruct Ha as [(-> & (Hok' & Hr' & Hends') & Hsub')|(-> & E & ->)]; cbn.
    + split; [done|]. split; [by intros t [= <-]|]. left. split; [done|]. split.
      * intros x. unfold pending. cbn. rewrite Eas, Hr.
        split; [intros [?|(t & [= <-] & ?%Hr')]; naive_solver|].
        intros [[?|(t & [= <-] & ?)] ?]; [by left|right]. exists async'. split; [done|]. by apply Hr'.
      * unfold trims. rewrite Eas. cbn. split; [by apply new_ends_app|]. split; [by etrans|done].
    + split; [done|]. split; [intros t [= <-]; rewrite E; apply trim_ok_nil|]. right. split; [done|]. split; [apply Hsub; left|].
      right. split; [by split|by eauto].
  - cbn. split; [done|]. split; [by intros t [= <-]|]. left. split; [done|]. split.
    + intros x. unfold pending. cbn. rewrite Eas, Hr.
      pose proof (trim_search_removed async offset length_ Hs Hsc H0 H1 H2 Es x). naive_solver.
    + unfold trims. rewrite Eas. cbn. by split; [apply new_ends_app; [|apply new_ends_refl]|].
Qed.

(** C29: Taking a range that is in use again out of the trim lists: without an error
    no byte of the range is pending any more, in the active transaction or in the one
    in flight, every other pending byte still is, and the lists stay well formed.  An
    allocation that fails empties the list it was for; when that is the active
    transaction's, the list in flight is not looked at. *)
Theorem journal_trim_remove_extent_difference (j : jtrim) (offset length_ : Z) :
  jtrim_ok j -> jt_invalid j = false -> 0 <= offset -> 0 < length_ -> offset + length_ < 2 ^ 64 ->
  let (err, j') := journal_trim_remove_extent j offset length_ in
  trim_ok (tl_extents (jt_active j')) /\ (forall t, jt_async j' = Some t -> trim_ok (tl_extents t)) /\
  ((err = 0 /\ forall x, pending j' x <-> pending j x /\ ~ (offset <= x < offset + length_))
   \/ (err = ENOMEM /\ false ∈ jt_memory j /\
       ((tl_extents (jt_active j') = [] /\ jt_async j' = jt_async j)
        \/ (removed offset (offset + length_) (tl_extents (jt_active j)) (tl_extents (jt_active j')) /\
            exists t, jt_async j' = Some t /\ tl_extents t = [])))).
Proof.
  intros H1 H2 H3 H4 H5. pose proof (journal_trim_remove_extent_spec j offset length_ H1 H2 H3 H4 H5) as H.
  destruct (journal_trim_remove_extent j offset length_) as [err j']. destruct H as (G1 & G2 & [(-> & G3 & _)|G3]); (split; [done|]); (split; [done|]).
  - left. by split.
  - by right.
Qed.

Lemma journal_trim_extent_overlap_spec (j : jtrim) (offset length_ : Z) :
  jtrim_ok j -> 0 <= offset -> 0 < length_ -> offset + length_ < 2 ^ 64 ->
  match journal_trim_extent_overlap j offset length_ with
  | Some e => offset < e <= offset + length_ /\ pending j (e - 1) /\ (e = offset + length_ \/ exists x, x ∈ trims j /\ e = dk_end x)
  | None => forall x, offset <= x < offset + length_ -> ~ pending j x
  end.
Proof.
  intros [Hl Has Hc] H0 H1 H2. unfold journal_trim_extent_overlap.
  assert (u64 (offset + length_) = offset + length_) as -> by (unfold u64; apply wrap_id; lia).
  pose proof (trim_search_extent_correct (jt_active j) offset length_ Hl Hc H0 ltac:(lia) H2) as Ha.
  assert (forall l e, trim_ok l -> e ∈ l -> overlaps offset (offset + length_) e ->
            let o := if extent_end e <? offset + length_ then extent_end e else offset + length_ in
            offset < o <= offset + length_ /\ in_trim l (o - 1) /\ (o = offset + length_ \/ exists x, x ∈ l /\ o = dk_end x)) as Hend.
  { intros l e Hlo He [Ho1 Ho2]. pose proof (trim_ok_in l e Hlo He) as Hok. rewrite extent_end_ok by done. cbv zeta.
    destruct (Z.ltb_spec (dk_end e) (offset + length_)); (split; [lia|]); (split; [exists e; (split; [done|]); dk_unfold; lia|]); [right; by exists e|by left]. }
  destruct (trim_search_extent (jt_active j) offset length_) as [e|] eqn:Es.
  { unfold mbind, option_bind. destruct Ha as [He Ho]. destruct (Hend _ e Hl He Ho) as (? & ? & Hor). split; [done|]. split; [by left|].
    destruct Hor as [?|(x & Hx & ?)]; [by left|right]. exists x. split; [|done]. apply elem_of_app. by left. }
  pose proof (trim_search_removed _ offset length_ Hl Hc H0 H1 H2 Es) as Hno.
  destruct (jt_async j) as [async|] eqn:Eas; unfold mbind, option_bind.
  2:{ intros x Hx [Hp|(t & Et & _)]; [by apply (Hno x)|congruence]. }
  destruct (Has async eq_refl) as [Hs Hsc].
  pose proof (trim_search_extent_correct async offset length_ Hs Hsc H0 ltac:(lia) H2) as Hb.
  destruct (trim_search_extent async offset length_) as [e|] eqn:Es'.
  - destruct Hb as [He Ho]. destruct (Hend _ e Hs He Ho) as (? & ? & Hor). split; [done|]. split; [right; eauto|].
    destruct Hor as [?|(x & Hx & ?)]; [by left|right]. exists x. split; [|done]. unfold trims. rewrite Eas. apply elem_of_app. by right.
  - intros x Hx [Hp|(t & Et & Hp)]; [by apply (Hno x)|]. rewrite Eas in Et. injection Et as <-.
    by apply (trim_search_removed async offset length_ Hs Hsc H0 H1 H2 Es' x).
Qed.

(** The search for a pending trim in a range answers exactly when a byte of the
    range is pending, in the active transaction or in the one in flight, and the end
    it gives is the end of such a part: the byte before it is in the range and
    pending. *)
Theorem journal_trim_extent_overlap_correct (j : jtrim) (offset length_ : Z) :
  jtrim_ok j -> 0 <= offset -> 0 < length_ -> offset + length_ < 2 ^ 64 ->
  match journal_trim_extent_overlap j offset length_ with
  | Some e => offset < e <= offset + length_ /\ pending j (e - 1)
  | None => forall x, offset <= x < offset + length_ -> ~ pending j x
  end.
Proof.
  intros Hj H0 H1 H2. pose proof (journal_trim_extent_overlap_spec j offset length_ Hj H0 H1 H2) as H.
  destruct (journal_trim_extent_overlap j offset length_); [|done]. tauto.
Qed.

(** ** Concrete runs *)

Lemma trim_ok_sorted l : Forall dk_ok l -> Sorted before l -> trim_ok l.
Proof.
  intros Hl Hs. split; [done|]. induction Hs as [|e l Hs IH Hd]; [constructor|].
  apply Forall_cons in Hl as [He Hl]. specialize (IH Hl). constructor; [done|].
  destruct l as [|a l]; [done|]. inversion Hd as [|? ? Hea]; subst. apply StronglySorted_cons in IH as [Hal _].
  apply Forall_cons in Hl as [Ha _]. constructor; [done|]. eapply Forall_impl; [exact Hal|]. intros b Hab. simpl in Hab. dk_unfold. lia.
Qed.

Ltac trim_concrete := apply trim_ok_sorted; cbn; repeat constructor; dk_unfold; lia.

Definition ex_jtrim : jtrim :=
  mkJtrim false (mkTrim 3 [mkDk 0 10; mkDk 20 10; mkDk 40 10]) (Some (mkTrim 256 [mkDk 10 5; mkDk 60 10])) false [true].

Lemma ex_jtrim_ok : jtrim_ok ex_jtrim.
Proof.
  split; [trim_concrete| |by cbn]. intros t [= <-]. split; [trim_concrete|by cbn].
Qed.

Lemma journal_trim_add_extent_witness :
  tl_extents (jt_active (snd (journal_trim_add_extent ex_jtrim 12 3))) = [mkDk 0 10; mkDk 12 3; mkDk 20 10; mkDk 40 10] /\
  (let (err, j') := journal_trim_add_extent ex_jtrim 12 3 in
   jt_async j' = jt_async ex_jtrim /\ trim_ok (tl_extents (jt_active j')) /\
   ((err = 0 /\ forall x, in_trim (tl_extents (jt_active j')) x <-> in_trim (tl_extents (jt_active ex_jtrim)) x \/ 12 <= x < 12 + 3)
    \/ (err = ENOMEM /\ tl_extents (jt_active j') = [] /\ jt_memory ex_jtrim = false :: jt_memory j'))).
Proof.
  split; [vm_compute; reflexivity|].
  apply (journal_trim_add_extent_union ex_jtrim 12 3); [apply ex_jtrim_ok|reflexivity|lia|lia|lia].
Defined.

Lemma journal_trim_remove_extent_witness :
  tl_extents (jt_active (snd (journal_trim_remove_extent ex_jtrim 5 40))) = [mkDk 0 5; mkDk 45 5] /\
  (let (err, j') := journal_trim_remove_extent ex_jtrim 5 40 in
   trim_ok (tl_extents (jt_active j')) /\ (forall t, jt_async j' = Some t -> trim_ok (tl_extents t)) /\
   ((err = 0 /\ forall x, pending j' x <-> pending ex_jtrim x /\ ~ (5 <= x < 5 + 40))
    \/ (err = ENOMEM /\ false ∈ jt_memory ex_jtrim /\
        ((tl_extents (jt_active j') = [] /\ jt_async j' = jt_async ex_jtrim)
         \/ (removed 5 (5 + 40) (tl_extents (jt_active ex_jtrim)) (tl_extents (jt_active j')) /\
             exists t, jt_async j' = Some t /\ tl_extents t = []))))).
Proof.
  split; [vm_compute; reflexivity|].
  apply (journal_trim_remove_extent_difference ex_jtrim 5 40); [apply ex_jtrim_ok|reflexivity|lia|lia|lia].
Defined.

Lemma journal_trim_extent_overlap_witness :
  journal_trim_extent_overlap ex_jtrim 55 8 = Some 63 /\
  match journal_trim_extent_overlap ex_jtrim 55 8 with
  | Some e => 55 < e <= 55 + 8 /\ pending ex_jtrim (e - 1)
  | None => forall x, 55 <= x < 55 + 8 -> ~ pending ex_jtrim x
  end.
Proof.
  split; [vm_compute; reflexivity|].
  apply (journal_trim_extent_overlap_correct ex_jtrim 55 8); [apply ex_jtrim_ok|lia|lia|lia].
Defined.

(** With no memory to split an extent, the list in flight keeps the range. *)
Example remove_without_memory :
  journal_trim_remove_extent (mkJtrim false (mkTrim 1 [mkDk 0 100]) (Some (mkTrim 1 [mkDk 10 5])) false [false]) 10 5
  = (ENOMEM, mkJtrim false (mkTrim 1 []) (Some (mkTrim 1 [mkDk 10 5])) false []).
Proof. vm_compute. reflexivity. Qed.
