(* ===== verification/JournalIO.v ===== *)
(** * The journal and its device (core/hfs_journal.c, core/hfs_journal.h)

    The journal is a ring of bytes on a device: block zero holds the header, the bytes
    from [jhdr_size] to [size] are written in order and reused.  do_journal_io reads and
    writes it, in pieces, and goes on behind the header when it reaches the end.

    The device of the journal is a list of bytes, read and written at the block numbers
    the code gives (blocks of [jhdr_size] bytes, which journal_open makes the block size
    of the device); the device of the file system is a map from positions to bytes.  When
    both are one device, the blocks of the file system are not those of the journal.
    Results of requests to the devices are taken from lists in the state, success when
    they are empty. *)

From S2P Require Import Prelude HfsFormat Bytes.

(** ** Data *)

Definition JOURNAL_HEADER_MAGIC : Z := 0x4a4e4c78.
Definition ENDIAN_MAGIC : Z := 0x12345678.
Definition JOURNAL_INVALID : Z := 0x00020000.
Definition JOURNAL_FLUSHCACHE_ERR : Z := 0x00040000.
Definition JOURNAL_NEED_SWAP : Z := 0x00080000.
Definition JOURNAL_DO_FUA_WRITES : Z := 0x00100000.
Definition JOURNAL_FEATURE_BARRIER : Z := 0x00400000.

Record journal_header := mkJhdr {
  magic : Z;
  endian : Z;
  jh_start : Z;
  jh_end : Z;
  jh_size : Z;
  blhdr_size : Z;
  jh_checksum : Z;
  jhdr_size : Z;
  jh_sequence_num : Z;
}.

(** What happens to a write to the file system: the error of the first read, whether
    there is a buffer, whether it has the size, the error of the write, and how many
    bytes a write that fails leaves on the disk. *)
Record fs_outcome := mkFsOutcome {
  fo_bread : Z;
  fo_getblk : bool;
  fo_sized : bool;
  fo_bwrite : Z;
  fo_written : nat;
}.

(** The part of [struct journal] that reading, writing and replaying use. *)
Record journal := mkJournal {
  jhdr : journal_header;
  header_rest : bytes;          (* header_buf behind the structure *)
  jdev : bytes;
  jdev_offset : Z;
  same_device : bool;           (* jdev == fsdev *)
  max_read_size : Z;
  max_write_size : Z;
  jn_flags : Z;
  last_flush_err : Z;
  flush_counter : Z;
  fsdev : gmap Z Z;
  jdev_io : list Z;
  fsdev_io : list fs_outcome;
}.

Definition with_jhdr (h : journal_header) (j : journal) : journal :=
  mkJournal h (header_rest j) (jdev j) (jdev_offset j) (same_device j) (max_read_size j) (max_write_size j)
    (jn_flags j) (last_flush_err j) (flush_counter j) (fsdev j) (jdev_io j) (fsdev_io j).
Definition with_jdev (d : bytes) (j : journal) : journal :=
  mkJournal (jhdr j) (header_rest j) d (jdev_offset j) (same_device j) (max_read_size j) (max_write_size j)
    (jn_flags j) (last_flush_err j) (flush_counter j) (fsdev j) (jdev_io j) (fsdev_io j).
Definition with_jdev_io (l : list Z) (j : journal) : journal :=
  mkJournal (jhdr j) (header_rest j) (jdev j) (jdev_offset j) (same_device j) (max_read_size j) (max_write_size j)
    (jn_flags j) (last_flush_err j) (flush_counter j) (fsdev j) l (fsdev_io j).
Definition with_flush (flags err count : Z) (j : journal) : journal :=
  mkJournal (jhdr j) (header_rest j) (jdev j) (jdev_offset j) (same_device j) (max_read_size j) (max_write_size j)
    flags err count (fsdev j) (jdev_io j) (fsdev_io j).
Definition with_fsdev (fs : gmap Z Z) (l : list fs_outcome) (j : journal) : journal :=
  mkJournal (jhdr j) (header_rest j) (jdev j) (jdev_offset j) (same_device j) (max_read_size j) (max_write_size j)
    (jn_flags j) (last_flush_err j) (flush_counter j) fs (jdev_io j) l.

Definition set_range (start end_ : Z) (h : journal_header) : journal_header :=
  mkJhdr (magic h) (endian h) start end_ (jh_size h) (blhdr_size h) (jh_checksum h) (jhdr_size h) (jh_sequence_num h).
Definition set_checksum (c : Z) (h : journal_header) : journal_header :=
  mkJhdr (magic h) (endian h) (jh_start h) (jh_end h) (jh_size h) (blhdr_size h) c (jhdr_size h) (jh_sequence_num h).
Definition set_sequence (n : Z) (h : journal_header) : journal_header :=
  mkJhdr (magic h) (endian h) (jh_start h) (jh_end h) (jh_size h) (blhdr_size h) (jh_checksum h) (jhdr_size h) n.

(** The structure in memory. *)
Definition header_bytes (h : journal_header) : bytes :=
  le_bytes 4 (magic h) ++ le_bytes 4 (endian h) ++ le_bytes 8 (jh_start h) ++ le_bytes 8 (jh_end h) ++
  le_bytes 8 (jh_size h) ++ le_bytes 4 (blhdr_size h) ++ le_bytes 4 (jh_checksum h) ++ le_bytes 4 (jhdr_size h) ++
  le_bytes 4 (jh_sequence_num h).

Definition JOURNAL_HEADER_CKSUM_SIZE : Z := 44.

(** ** calc_checksum *)

Definition checksum_step (cksum b : Z) : Z := Z.lxor (u32 (Z.shiftl cksum 8)) (u32 (cksum + b)).

Definition calc_checksum (ptr : bytes) : Z := u32 (Z.lnot (foldl checksum_step 0 ptr)).

(** ** do_journal_io *)

Inductive direction := JNL_READ | JNL_WRITE.

(** The error of the next request to the device. *)
Definition next_io (j : journal) : Z * journal :=
  match jdev_io j with
  | [] => (0, j)
  | err :: l => (err, with_jdev_io l j)
  end.

(** One request at a block of the device, for [n] bytes of [data] from [at_] on: the data,
    or an error, which a request beyond the device gives, too. *)
Definition strategy (dir : direction) (j : journal) (blkno : Z) (data : bytes) (at_ n : Z) : option (option bytes * journal) :=
  let '(err, j) := next_io j in
  if negb (err =? 0) then Some (None, j) else
  let pos := blkno * jhdr_size (jhdr j) in
  match dir with
  | JNL_READ =>
      match get_bytes (jdev j) pos n with
      | None => Some (None, j)
      | Some bs => data ← put_bytes data at_ bs; Some (Some data, j)
      end
  | JNL_WRITE =>
      bs ← get_bytes data at_ n;
      match put_bytes (jdev j) pos bs with
      | None => Some (None, j)
      | Some d => Some (Some data, with_jdev d j)
      end
  end.

(** From the label [again] on: the bytes that were read or written, the offset behind
    them and the data. *)
Fixpoint journal_io_loop (dir : direction) (header : bool) (max_iosize len : Z) (j : journal)
    (offset curlen io_sz : Z) (data : bytes) (fuel : nat) : option (Z * Z * bytes * journal) :=
  match fuel with
  | O => None
  | S fuel =>
      let size := jh_size (jhdr j) in
      let past := (size <? s64 (offset + curlen)) && negb (offset =? 0) && negb (size =? 0) in
      let curlen := if past && negb (offset =? size) then size - offset else curlen in
      let offset := if past && (offset =? size) then jhdr_size (jhdr j) else offset in
      let curlen := if max_iosize <? curlen then max_iosize else curlen in
      if curlen <=? 0 then None else
      if (offset =? 0) && negb header then None else
      if jhdr_size (jhdr j) =? 0 then None else
      let blkno := Z.quot (s64 (jdev_offset j + offset)) (jhdr_size (jhdr j)) in
      '(done, j) ← strategy dir j blkno data io_sz curlen;
      match done with
      | None => Some (0, offset, data, j)
      | Some data =>
          let offset := s64 (offset + curlen) in
          let io_sz := io_sz + curlen in
          if negb (io_sz =? len) then
            journal_io_loop dir header max_iosize len j
              (if size <=? offset then jhdr_size (jhdr j) else offset) (len - io_sz) io_sz data fuel
          else Some (io_sz, offset, data, j)
      end
  end.

Definition do_journal_io (dir : direction) (header : bool) (j : journal) (offset : Z) (data : bytes) (len : Z)
    : option (Z * Z * bytes * journal) :=
  if (offset <? 0) || (jh_size (jhdr j) <? offset) then None else
  let max_iosize := match dir with JNL_WRITE => max_write_size j | JNL_READ => max_read_size j end in
  journal_io_loop dir header max_iosize len j offset len 0 data (S (Z.to_nat len)).

Definition read_journal_data : journal -> Z -> bytes -> Z -> option (Z * Z * bytes * journal) := do_journal_io JNL_READ false.
Definition write_journal_data : journal -> Z -> bytes -> Z -> option (Z * Z * bytes * journal) := do_journal_io JNL_WRITE false.

Definition read_journal_header (j : journal) (data : bytes) (len : Z) : option (Z * Z * bytes * journal) :=
  do_journal_io JNL_READ true j 0 data len.

(** ** write_journal_header *)

Definition ISSETJ (j : journal) (flag : Z) : bool := negb (Z.land (jn_flags j) flag =? 0).

(** The caches of the device are flushed: the error, which is the next of the device. *)
Definition flush_device (j : journal) : Z * journal :=
  let j := if negb (ISSETJ j JOURNAL_FEATURE_BARRIER) || negb (same_device j)
           then with_flush (jn_flags j) (last_flush_err j) (u32 (flush_counter j + 1)) j else j in
  next_io j.

Definition flush_before (updating_start : bool) (j : journal) : journal :=
  if negb updating_start && negb (ISSETJ j JOURNAL_DO_FUA_WRITES) then
    let '(ret, j) := flush_device j in
    if negb (ret =? 0) then with_flush (Z.lor (jn_flags j) JOURNAL_FLUSHCACHE_ERR) ret (flush_counter j) j else j
  else j.

Definition flush_after (updating_start : bool) (j : journal) : journal :=
  if updating_start && negb (ISSETJ j JOURNAL_DO_FUA_WRITES) then snd (flush_device j) else j.

(** The header gets the sequence number and the checksum. *)
Definition stamp_header (sequence_num : Z) (h : journal_header) : journal_header :=
  let h := set_checksum 0 (set_sequence sequence_num h) in
  set_checksum (calc_checksum (take (Z.to_nat JOURNAL_HEADER_CKSUM_SIZE) (header_bytes h))) h.

Definition write_journal_header (updating_start : bool) (sequence_num : Z) (j : journal) : option (Z * journal) :=
  let j := flush_before updating_start j in
  let h := stamp_header sequence_num (jhdr j) in
  let j := with_jhdr h j in
  '(n, _, _, j) ← do_journal_io JNL_WRITE true j 0 (header_bytes h ++ header_rest j) (jhdr_size h);
  if negb (n =? jhdr_size h) then
    Some (-1, with_flush (Z.lor (jn_flags j) JOURNAL_INVALID) (last_flush_err j) (flush_counter j) j)
  else Some (0, flush_after updating_start j).

Definition journal_max_blocks (h : journal_header) : Z := blhdr_size h / 16 - 1.

(** ** update_fs_block *)

Definition next_fs (j : journal) : fs_outcome * journal :=
  match fsdev_io j with
  | [] => (mkFsOutcome 0 true true 0 0, j)
  | o :: l => (o, with_fsdev (fsdev j) l j)
  end.

(** Bytes from a position on. *)
Definition write_fs (pos : Z) (data : bytes) (fs : gmap Z Z) : gmap Z Z := map_seqZ pos data ∪ fs.

Definition update_fs_block (j : journal) (block_ptr : bytes) (fs_block bsize : Z) : option (Z * journal) :=
  let '(o, j) := next_fs j in
  if negb (fo_bread o =? 0) && negb (fo_getblk o) then Some (-1, j) else
  if negb (fo_sized o) then Some (-1, j) else
  data ← get_bytes block_ptr 0 bsize;
  let pos := fs_block * jhdr_size (jhdr j) in
  if negb (fo_bwrite o =? 0)
  then Some (fo_bwrite o, with_fsdev (write_fs pos (take (fo_written o) data) (fsdev j)) (fsdev_io j) j)
  else Some (0, with_fsdev (write_fs pos data (fsdev j)) (fsdev_io j) j).
