(* ===== verification/JournalCoalesce.v ===== *)
(** * The table of blocks to replay (core/hfs_journal.c)

    While the journal is read, replay_journal keeps a sorted table of the blocks of the
    file system that are in the journal, each with the place of its data.  A block that is
    written again replaces what it overlaps, so the table says for each byte of the file
    system where its last value is.

    The table is the array with the number of its entries in use; grow_table makes the
    array as long as [num_buckets] says, so that number is its length.  An access outside
    of the array is a fault, like a panic.  New entries are marked free; what else the
    memory holds is not read. *)

From S2P Require Import Prelude HfsFormat Bytes JournalIO.

Record bucket := mkBucket {
  block_num : Z;
  jnl_offset : Z;
  block_size : Z;
  cksum : Z;
}.

Record cotable := mkTable {
  co_buf : list bucket;
  num_full : Z;
}.

Definition num_buckets (t : cotable) : Z := len (co_buf t).

Definition STARTING_BUCKETS : Z := 256.

Definition free_bucket : bucket := mkBucket (-1) 0 0 0.

Definition set_num (n : Z) (b : bucket) : bucket := mkBucket n (jnl_offset b) (block_size b) (cksum b).
Definition set_cksum (c : Z) (b : bucket) : bucket := mkBucket (block_num b) (jnl_offset b) (block_size b) c.

(** ** The array *)

Definition at_index {A} (l : list A) (i : Z) : option A := if 0 <=? i then l !! Z.to_nat i else None.

Definition co_update (i : Z) (f : bucket -> bucket) (t : cotable) : option cotable :=
  b ← at_index (co_buf t) i; Some (mkTable (<[Z.to_nat i := f b]> (co_buf t)) (num_full t)).

(** bcopy of [n] entries inside the array. *)
Definition copy_buckets (src dst n : Z) (l : list bucket) : option (list bucket) :=
  if (0 <=? src) && (0 <=? dst) && (0 <=? n) && (src + n <=? len l) && (dst + n <=? len l)
  then Some (take (Z.to_nat dst) l ++ take (Z.to_nat n) (drop (Z.to_nat src) l) ++ drop (Z.to_nat (dst + n)) l)
  else None.

(** ** grow_table *)

(** The size of the table, and the table. *)
Definition grow_table (t : cotable) (new_size : Z) : Z * cotable :=
  if new_size <? num_buckets t then (num_buckets t, t)
  else (new_size, mkTable (co_buf t ++ replicate (Z.to_nat (new_size - num_buckets t)) free_bucket) (num_full t)).

(** ** lookup_bucket *)

(** The binary search: the index of the block, or -1, and the last [hi]. *)
Fixpoint bucket_search (l : list bucket) (num lo hi : Z) (fuel : nat) : option (Z * Z) :=
  match fuel with
  | O => None
  | S fuel =>
      let mid := Z.quot (hi - lo) 2 + lo in
      b ← at_index l mid;
      if num =? block_num b then Some (mid, hi) else
      let '(lo, hi) := if num <? block_num b then (lo, mid) else (mid + 1, hi) in
      if lo <? hi then bucket_search l num lo hi fuel else Some (-1, hi)
  end.

(** The entries from [i] on that are the block, too. *)
Fixpoint count_matches (l : list bucket) (num num_full i : Z) (fuel : nat) : option Z :=
  match fuel with
  | O => None
  | S fuel =>
      if i <? num_full then
        b ← at_index l i;
        if num =? block_num b then n ← count_matches l num num_full (i + 1) fuel; Some (n + 1) else Some 0
      else Some 0
  end.

Definition lookup_bucket (t : cotable) (num : Z) : option Z :=
  if num_full t =? 0 then Some 0 else
  '(index, hi) ← bucket_search (co_buf t) num 0 (num_full t - 1) (S (Z.to_nat (num_full t)));
  b ← at_index (co_buf t) hi;
  let index := if num =? block_num b then hi else index in
  if index =? -1 then Some (if num <? block_num b then hi else hi + 1) else
  matches ← count_matches (co_buf t) num (num_full t) (index + 1) (S (Z.to_nat (num_full t)));
  Some (index + matches).

Section Journal.
Variable h : journal_header.

(** ** insert_block *)

(** Room for an entry at [blk_index]. *)
Definition insert_room (blk_index : Z) (t : cotable) : option (option cotable) :=
  let new_size := s32 (num_buckets t * 2) in
  let '(grow_size, t') := if num_buckets t - 1 <=? num_full t then grow_table t new_size else (new_size, t) in
  if grow_size <? new_size then Some None else
  l ← (if negb (blk_index =? num_full t') then copy_buckets blk_index (blk_index + 1) (num_full t' - blk_index) (co_buf t')
       else Some (co_buf t'));
  Some (Some (mkTable l (num_full t' + 1))).

Definition insert_block (blk_index num size offset cksum : Z) (overwriting : bool) (t : cotable) : option (Z * cotable) :=
  room ← (if negb overwriting then insert_room blk_index t else Some (Some t));
  match room with
  | None => Some (-1, t)
  | Some t =>
      let offset := if jh_size h <=? s64 offset then u64 (jhdr_size h + (offset - jh_size h)) else offset in
      if size <=? 0 then None else
      t ← co_update blk_index (fun _ => mkBucket num (u32 offset) (u32 size) cksum) t;
      Some (blk_index, t)
  end.

(** ** do_overlap *)

(** The position of a block on the device. *)
Definition block_pos (num : Z) : Z := s64 (num * jhdr_size h).

(** The overlap with the entry before is cut off; the part of that entry behind the new
    block becomes an entry. *)
Definition overlap_previous (blk_index block_start block_end cksum : Z) (t : cotable) : option cotable :=
  p ← at_index (co_buf t) (blk_index - 1);
  let prev_block_start := block_pos (block_num p) in
  let prev_block_end := s64 (prev_block_start + block_size p) in
  let overlap := s64 (prev_block_end - block_start) in
  if 0 <? overlap then
    if negb (overlap mod jhdr_size h =? 0) then None else
    t ← (if block_end <? prev_block_end then
           '(err, t) ← insert_block blk_index (s64 (u64 block_end / jhdr_size h)) (u64 (prev_block_end - block_end))
                         (u64 (jnl_offset p + (block_end - prev_block_start))) cksum false t;
           if err <? 0 then None else Some t
         else Some t);
    co_update (blk_index - 1) (fun p => mkBucket (block_num p) (jnl_offset p) (u32 (block_start - prev_block_start)) 0) t
  else Some t.

(** An entry that the new block overlaps partly loses its first [overlap] bytes. *)
Definition cut_bucket (overlap : Z) (b : bucket) : bucket :=
  let new_offset := u64 (jnl_offset b + overlap) in
  let new_offset := if jh_size h <=? s64 new_offset then u64 (jhdr_size h + (new_offset - jh_size h)) else new_offset in
  mkBucket (s64 (block_num b + overlap / jhdr_size h)) (u32 new_offset) (u32 (block_size b - overlap)) 0.

(** The entries the new block overlaps: those inside of it get the number -2.  The index
    behind them, and how many have to go. *)
Fixpoint mark_overlapped (block_end index num_to_remove : Z) (t : cotable) (fuel : nat) : option (Z * Z * cotable) :=
  match fuel with
  | O => None
  | S fuel =>
      if index <? num_full t then
        b ← at_index (co_buf t) index;
        if block_pos (block_num b) <? block_end then
          if s64 (block_num b * jhdr_size h + block_size b) <=? block_end then
            t ← co_update index (set_num (-2)) t;
            mark_overlapped block_end (index + 1) (num_to_remove + 1) t fuel
          else
            let overlap := s64 (block_end - block_num b * jhdr_size h) in
            t ← (if 0 <? overlap then
                   if negb (overlap mod jhdr_size h =? 0) then None else
                   t ← co_update index (cut_bucket overlap) t;
                   if u32 (block_size b - overlap) <=? 0 then None else Some t
                 else Some t);
            mark_overlapped block_end (index + 1) num_to_remove t fuel
        else Some (index, num_to_remove, t)
      else Some (index, num_to_remove, t)
  end.

(** The marked entries from [index] down to [blk_index] go. *)
Fixpoint remove_marked (blk_index index : Z) (t : cotable) (fuel : nat) : option cotable :=
  match fuel with
  | O => None
  | S fuel =>
      if blk_index <=? index then
        b ← at_index (co_buf t) index;
        if block_num b =? -2 then
          t ← (if index =? num_full t - 1 then co_update index (set_num (-1)) t
               else l ← copy_buckets (index + 1) index (num_full t - (index + 1)) (co_buf t);
                    Some (mkTable l (num_full t)));
          remove_marked blk_index (index - 1) (mkTable (co_buf t) (num_full t - 1)) fuel
        else remove_marked blk_index (index - 1) t fuel
      else Some t
  end.

(** The [n] entries from [i] on are marked free. *)
Fixpoint clear_stale (i : Z) (n : nat) (t : cotable) : option cotable :=
  match n with
  | O => Some t
  | S n => t ← co_update i (set_num (-1)) t; clear_stale (i + 1) n t
  end.

Definition remove_overlapped (blk_index block_end : Z) (t : cotable) : option cotable :=
  '(index, num_to_remove, t) ← mark_overlapped block_end blk_index 0 t (S (Z.to_nat (num_full t)));
  t ← remove_marked blk_index (index - 1) t (S (Z.to_nat (num_full t)));
  clear_stale (num_full t) (Z.to_nat num_to_remove) t.

(** Whether the entry at the index is overwritten, and the table. *)
Definition do_overlap (blk_index num size cksum : Z) (t : cotable) : option (bool * cotable) :=
  let block_start := block_pos num in
  let block_end := s64 (block_start + size) in
  b ← at_index (co_buf t) blk_index;
  let overwrite := (num =? block_num b) && (block_size b <=? size) in
  t ← (if negb (blk_index =? 0) && negb overwrite then overlap_previous blk_index block_start block_end cksum t else Some t);
  b ← at_index (co_buf t) blk_index;
  if negb overwrite && (block_end <=? block_pos (block_num b)) then Some (false, t) else
  simple ← (if negb overwrite then Some false else
            if num_full t <=? blk_index + 1 then Some true else
            next ← at_index (co_buf t) (blk_index + 1); Some (block_end <=? block_pos (block_num next)));
  if (simple : bool) then t ← co_update blk_index (set_cksum cksum) t; Some (true, t)
  else t ← remove_overlapped blk_index block_end t; Some (false, t).

(** ** add_block *)

(** The index of the entry, or -1. *)
Definition add_block (num size offset cksum : Z) (t : cotable) : option (Z * cotable) :=
  blk_index ← lookup_bucket t num;
  if (blk_index <? 0) || (num_full t <? blk_index) then Some (-1, t) else
  '(overwriting, t) ← do_overlap blk_index num size cksum t;
  insert_block blk_index num size offset cksum overwriting t.

End Journal.

Definition empty_table : cotable := mkTable (replicate (Z.to_nat STARTING_BUCKETS) free_bucket) 0.
