(* ===== verification/CoalesceProps.v ===== *)
(** * The table always says where the last write of a byte is (core/hfs_journal.c)

    [source] is the meaning of a table: where in the journal the value of a byte of the
    file system is.  add_block makes the bytes of a block come from its place, and leaves
    those of all other bytes, however the block overlaps the entries of the table. *)

From S2P Require Import Prelude HfsFormat Bytes JournalIO JournalCoalesce.

Section Coalesce.
Variable h : journal_header.
Notation bsz := (jhdr_size h).
Notation jsz := (jh_size h).

(** The ring of the journal: whole blocks behind the header, at most what journal_open
    lets pass. *)
Record geometry_ok : Prop := {
  geo_block : 0 < bsz;
  geo_size : bsz < jsz <= 2 ^ 30;
  geo_whole : (bsz | jsz);
}.

Hypothesis Hgeo : geometry_ok.

(** A position behind the end is one behind the header. *)
Definition ring (p : Z) : Z := if jsz <=? p then p - jsz + bsz else p.

Definition bpos (b : bucket) : Z := block_num b * bsz.
Definition bend (b : bucket) : Z := bpos b + block_size b.

(** Where the byte at [x] of the file system is in the journal. *)
Fixpoint source (l : list bucket) (x : Z) : option Z :=
  match l with
  | [] => None
  | b :: l => if (bpos b <=? x) && (x <? bend b) then Some (ring (jnl_offset b + (x - bpos b))) else source l x
  end.

(** ** Well-formed tables *)

Record bucket_ok (b : bucket) : Prop := {
  bo_num : 0 <= block_num b;
  bo_size : 0 < block_size b <= jsz - bsz;
  bo_whole : (bsz | block_size b);
  bo_offset : bsz <= jnl_offset b < jsz;
  bo_aligned : (bsz | jnl_offset b);
  bo_end : bend b <= INT64_MAX;
}.

Definition apart (a b : bucket) : Prop := bend a <= bpos b.

Definition free_entry (b : bucket) : Prop := block_num b = -1.

(** The entries in use are [l], sorted by the blocks they are for and not overlapping, and
    there is at least one free entry behind them. *)
Record coalesced (t : cotable) (l : list bucket) : Prop := {
  co_live : exists stale, t = mkTable (l ++ stale) (len l) /\ stale <> [] /\ Forall free_entry stale;
  co_ok : Forall bucket_ok l;
  co_sorted : StronglySorted apart l;
}.

(** At most [n] entries were ever in use. *)
Definition roomy (n : Z) (t : cotable) : Prop := num_full t <= n /\ num_buckets t <= 2 * n + STARTING_BUCKETS + 2.

Lemma bend_gt b : bucket_ok b -> bpos b < bend b.
Proof. intros [? [? ?] ? ? ? ?]. unfold bend. lia. Qed.
Lemma bpos_nonneg b : bucket_ok b -> 0 <= bpos b.
Proof. intros [? ? ? ? ? ?]. destruct Hgeo. unfold bpos. nia. Qed.
Lemma bpos_whole b : (bsz | bpos b).
Proof. unfold bpos. by exists (block_num b). Qed.
Lemma bend_whole b : bucket_ok b -> (bsz | bend b).
Proof. intros [? ? ? ? ? ?]. apply Z.divide_add_r; [apply bpos_whole | done]. Qed.

Lemma block_pos_eq n : 0 <= n -> n * bsz <= INT64_MAX -> block_pos h n = n * bsz.
Proof. intros. destruct Hgeo. unfold block_pos. apply s64_id. nia. Qed.

Lemma bucket_pos b : bucket_ok b -> block_pos h (block_num b) = bpos b.
Proof. intros Hb. pose proof (bend_gt b Hb). destruct Hb as [? ? ? ? ? ?]. unfold bpos in *. apply block_pos_eq; lia. Qed.

(** ** Sources *)

Lemma source_app l1 l2 x : source (l1 ++ l2) x = match source l1 x with Some p => Some p | None => source l2 x end.
Proof. induction l1 as [|b l1 IH]; cbn; [done|]. by destruct (_ && _). Qed.

Lemma source_cons b l x : source (b :: l) x = match source [b] x with Some p => Some p | None => source l x end.
Proof. apply (source_app [b] l). Qed.

Lemma source_before l x : Forall (fun b => bend b <= x) l -> source l x = None.
Proof. induction 1; cbn; [done|]. zcases. Qed.

Lemma source_after l x : Forall (fun b => x < bpos b) l -> source l x = None.
Proof. induction 1; cbn; [done|]. zcases. Qed.

Lemma source_low l1 l2 s x : Forall (fun b => s <= bpos b) l2 -> x < s -> source (l1 ++ l2) x = source l1 x.
Proof.
  intros H Hx. rewrite source_app, (source_after l2); [by destruct (source l1 x)|].
  eapply Forall_impl; [exact H|]. cbn. lia.
Qed.

Lemma source_high l1 l2 e x : Forall (fun b => bend b <= e) l1 -> e <= x -> source (l1 ++ l2) x = source l2 x.
Proof.
  intros H Hx. rewrite source_app, (source_before l1); [done|].
  eapply Forall_impl; [exact H|]. cbn. lia.
Qed.

Lemma ring_ring p k : bsz <= p <= jsz + (jsz - bsz) -> 0 <= k -> p + k < jsz + (jsz - bsz) -> ring (ring p + k) = ring (p + k).
Proof. destruct Hgeo. intros. unfold ring. zcases. Qed.

Lemma ring_bound p : bsz <= p < jsz + (jsz - bsz) -> bsz <= ring p < jsz.
Proof. destruct Hgeo. intros. unfold ring. zcases. Qed.

Lemma ring_whole p : (bsz | p) -> (bsz | ring p).
Proof.
  destruct Hgeo as [? ? Hw]. intros Hp. unfold ring. destruct (_ <=? _); [|done].
  apply Z.divide_add_r; [by apply Z.divide_sub_r|apply Z.divide_refl].
Qed.

(** ** Sorted lists of entries *)

Lemma apart_order a b : bucket_ok a -> bucket_ok b -> apart a b -> block_num a < block_num b.
Proof.
  intros Ha Hb. pose proof (bend_gt a Ha). destruct Hgeo. unfold apart, bpos, bend in *. intros. nia.
Qed.

Lemma sorted_bends l b : Forall bucket_ok l -> bucket_ok b -> StronglySorted apart (l ++ [b]) ->
  Forall (fun a => bend a <= bpos b) l.
Proof. intros Hl Hb Hs. by apply StronglySorted_middle in Hs as (_ & _ & H & _). Qed.

Lemma sorted_nums l i j a b : Forall bucket_ok l -> StronglySorted apart l -> (i < j)%nat -> l !! i = Some a -> l !! j = Some b ->
  block_num a < block_num b.
Proof.
  intros Hl Hs. revert i j. induction Hs as [|c l Hs IH Hc]; intros i j Hij Ha Hb; [done|].
  apply Forall_cons in Hl as [Hc' Hl]. destruct j as [|j]; [lia|]. cbn in Hb. destruct i as [|i].
  - injection Ha as <-. apply apart_order; [done|by eapply (Forall_lookup_1 _ l)|by eapply (Forall_lookup_1 _ l)].
  - cbn in Ha. apply (IH Hl i j); [lia|done..].
Qed.

(** ** lookup_bucket *)

Lemma at_index_app (l1 l2 : list bucket) i : i = len l1 -> at_index (l1 ++ l2) i = head l2.
Proof.
  intros ->. unfold at_index. rewrite (proj2 (Z.leb_le 0 _)) by lia. rewrite Nat2Z.id.
  rewrite lookup_app_r by lia. rewrite Nat.sub_diag. by destruct l2.
Qed.

Lemma at_index_live (l stale : list bucket) i : 0 <= i < len l -> exists b, at_index (l ++ stale) i = Some b /\ l !! Z.to_nat i = Some b.
Proof.
  intros Hi. unfold at_index. rewrite (proj2 (Z.leb_le 0 i)) by lia.
  destruct (lookup_lt_is_Some_2 l (Z.to_nat i)) as [b Hb]; [lia|]. exists b. split; [|done]. by apply lookup_app_l_Some.
Qed.

(** What is left to look at: the entries before [lo] are less, those behind [hi] greater. *)
Definition narrowed (l : list bucket) (num lo hi : Z) : Prop :=
  (forall i b, Z.of_nat i < lo -> l !! i = Some b -> block_num b < num) /\
  (forall i b, hi < Z.of_nat i -> l !! i = Some b -> num < block_num b).

Lemma bucket_search_spec l stale num : Forall bucket_ok l -> StronglySorted apart l -> forall fuel lo hi,
  0 <= lo <= hi -> hi < len l -> narrowed l num lo hi -> (Z.to_nat (hi - lo) < fuel)%nat ->
  exists index hi', bucket_search (l ++ stale) num lo hi fuel = Some (index, hi') /\ 0 <= hi' < len l /\
    ((exists b, 0 <= index /\ l !! Z.to_nat index = Some b /\ block_num b = num) \/
     (index = -1 /\ exists lo', hi' <= lo' <= hi' + 1 /\ narrowed l num lo' hi')).
Proof.
  intros Hok Hs. induction fuel as [|fuel IH]; intros lo hi Hlo Hhi Hn Hf; [lia|]. cbn [bucket_search].
  assert (0 <= Z.quot (hi - lo) 2 /\ 2 * Z.quot (hi - lo) 2 <= hi - lo) as [Hq1 Hq2].
  { rewrite Z.quot_div_nonneg by lia. split; [apply Z.div_pos; lia|]. apply Z.mul_div_le. lia. }
  assert (lo <= Z.quot (hi - lo) 2 + lo <= hi /\ (lo < hi -> Z.quot (hi - lo) 2 + lo < hi)) as [Hm1 Hm2] by lia.
  set (mid := Z.quot (hi - lo) 2 + lo) in *. clearbody mid.
  destruct (at_index_live l stale mid) as (b & -> & Hb); [lia|]. cbn [mbind option_bind].
  destruct (Z.eqb_spec num (block_num b)) as [->|Hne].
  { exists mid, hi. split; [done|]. split; [lia|]. left. exists b. split_and!; [lia|done|done]. }
  destruct Hn as [Hn1 Hn2]. destruct (Z.ltb_spec num (block_num b)) as [Hlt|Hge].
  - assert (narrowed l num lo mid) as Hn'.
    { split; [done|]. intros i c Hi Hc. destruct (decide (i = Z.to_nat mid)) as [->|]; [lia|].
      pose proof (sorted_nums l (Z.to_nat mid) i b c Hok Hs ltac:(lia) Hb Hc). lia. }
    destruct (Z.ltb_spec lo mid).
    + apply IH; [lia|lia|done|lia].
    + exists (-1), mid. split; [done|]. split; [lia|]. right. split; [done|]. exists lo. split; [lia|done].
  - assert (narrowed l num (mid + 1) hi) as Hn'.
    { split; [|done]. intros i c Hi Hc. destruct (decide (i = Z.to_nat mid)) as [->|]; [|].
      - rewrite Hb in Hc. injection Hc as <-. lia.
      - pose proof (sorted_nums l i (Z.to_nat mid) c b Hok Hs ltac:(lia) Hc Hb). lia. }
    destruct (Z.ltb_spec (mid + 1) hi).
    + apply IH; [lia|lia|done|lia].
    + exists (-1), hi. split; [done|]. split; [lia|]. right. split; [done|]. exists (mid + 1). split; [|done].
      assert (hi <= mid + 1) by lia. split; [lia|]. lia.
Qed.

(** No other entry is the block. *)
Lemma count_matches_none l stale num i b fuel : Forall bucket_ok l -> StronglySorted apart l ->
  l !! Z.to_nat i = Some b -> 0 <= i -> block_num b = num -> (0 < fuel)%nat -> count_matches (l ++ stale) num (len l) (i + 1) fuel = Some 0.
Proof.
  intros Hok Hs Hb Hi <- Hf. destruct fuel as [|fuel]; [lia|]. cbn. destruct (Z.ltb_spec (i + 1) (len l)); [|done].
  destruct (at_index_live l stale (i + 1)) as (c & -> & Hc); [lia|]. cbn.
  pose proof (sorted_nums l (Z.to_nat i) (Z.to_nat (i + 1)) b c Hok Hs ltac:(lia) Hb Hc).
  by destruct (Z.eqb_spec (block_num b) (block_num c)); [lia|].
Qed.

Lemma lookup_split l num i : 0 <= i <= len l ->
  (forall j b, Z.of_nat j < i -> l !! j = Some b -> block_num b < num) ->
  (forall j b, i <= Z.of_nat j -> l !! j = Some b -> num <= block_num b) ->
  exists A B, l = A ++ B /\ i = len A /\ Forall (fun b => block_num b < num) A /\ Forall (fun b => num <= block_num b) B.
Proof.
  intros Hi H1 H2. exists (take (Z.to_nat i) l), (drop (Z.to_nat i) l). split_and!.
  - by rewrite take_drop.
  - rewrite length_take. lia.
  - apply Forall_lookup. intros j b Hj. apply lookup_take_Some in Hj as [Hj Hlt]. apply (H1 j); [lia|done].
  - apply Forall_lookup. intros j b Hj. rewrite lookup_drop in Hj. apply (H2 (Z.to_nat i + j)%nat); [lia|done].
Qed.

Lemma lookup_bucket_spec t l num : coalesced t l -> exists A B,
  lookup_bucket t num = Some (len A) /\ l = A ++ B /\
  Forall (fun b => block_num b < num) A /\ Forall (fun b => num <= block_num b) B.
Proof.
  intros [(stale & -> & Hne & Hst) Hok Hs]. unfold lookup_bucket. cbn [num_full co_buf].
  destruct (Z.eqb_spec (len l) 0) as [Hz|Hnz].
  { exists [], l. destruct l; [|cbn in Hz; lia]. by rewrite !Forall_nil. }
  destruct (bucket_search_spec l stale num Hok Hs (S (Z.to_nat (len l))) 0 (len l - 1)) as (index & hi & -> & Hhi & Hcase);
    [lia|lia| |lia|].
  { split; intros i b Hi Hb; [lia|]. apply lookup_lt_Some in Hb. lia. }
  cbn [mbind option_bind]. destruct (at_index_live l stale hi Hhi) as (c & Ec & Hc). rewrite Ec. cbn [mbind option_bind].
  assert (forall i b, 0 <= i -> l !! Z.to_nat i = Some b -> block_num b = num -> exists A B,
    (matches ← count_matches (l ++ stale) num (len l) (i + 1) (S (Z.to_nat (len l))); Some (i + matches)) = Some (len A) /\ l = A ++ B /\
    Forall (fun b => block_num b < num) A /\ Forall (fun b => num <= block_num b) B) as Hfound.
  { intros i b Hi Hb Hn. rewrite (count_matches_none l stale num i b) by (done || lia). cbn. rewrite Z.add_0_r.
    pose proof (lookup_lt_Some _ _ _ Hb).
    destruct (lookup_split l num i) as (A & B & E1 & E2 & HA & HB); [lia|..].
    - intros j d Hj Hd. pose proof (sorted_nums l j (Z.to_nat i) d b Hok Hs ltac:(lia) Hd Hb). lia.
    - intros j d Hj Hd. destruct (decide (j = Z.to_nat i)) as [->|]; [rewrite Hb in Hd; injection Hd as <-; lia|].
      pose proof (sorted_nums l (Z.to_nat i) j b d Hok Hs ltac:(lia) Hb Hd). lia.
    - exists A, B. by rewrite <- E2. }
  destruct (Z.eqb_spec num (block_num c)) as [Heq|Hne'].
  { destruct (Z.eqb_spec hi (-1)); [lia|]. apply (Hfound hi c); [lia|done|done]. }
  destruct Hcase as [(b & Hi & Hb & Hn)|(-> & lo & Hlo & Hn1 & Hn2)].
  { destruct (Z.eqb_spec index (-1)); [lia|]. by apply (Hfound index b). }
  cbn. destruct (Z.ltb_spec num (block_num c)).
  - destruct (lookup_split l num hi) as (A & B & E1 & E2 & HA & HB); [lia|..].
    + intros j d Hj. apply Hn1. lia.
    + intros j d Hj Hd. destruct (decide (j = Z.to_nat hi)) as [->|]; [rewrite Hc in Hd; injection Hd as <-; lia|].
      pose proof (Hn2 j d ltac:(lia) Hd). lia.
    + exists A, B. by rewrite <- E2.
  - destruct (lookup_split l num (hi + 1)) as (A & B & E1 & E2 & HA & HB); [lia|..].
    + intros j d Hj Hd. destruct (decide (j = Z.to_nat hi)) as [->|]; [rewrite Hc in Hd; injection Hd as <-; lia|].
      pose proof (sorted_nums l j (Z.to_nat hi) d c Hok Hs ltac:(lia) Hd Hc). lia.
    + intros j d Hj Hd. pose proof (Hn2 j d ltac:(lia) Hd). lia.
    + exists A, B. by rewrite <- E2.
Qed.

(** ** Changing the array *)

Lemma co_update_at (l1 l2 : list bucket) b i f n : i = len l1 ->
  co_update i f (mkTable (l1 ++ b :: l2) n) = Some (mkTable (l1 ++ f b :: l2) n).
Proof.
  intros ->. unfold co_update. cbn [co_buf num_full]. rewrite at_index_app by done. cbn [head mbind option_bind].
  by rewrite Nat2Z.id, insert_middle.
Qed.

(** Entries move one place to the right, over the first free one. *)
Lemma copy_right (A B S : list bucket) x : exists y,
  copy_buckets (len A) (len A + 1) (len B) (A ++ B ++ x :: S) = Some (A ++ y :: B ++ S).
Proof.
  exists (default x (head B)). unfold copy_buckets. rewrite !length_app. cbn [length].
  rewrite (proj2 (Z.leb_le 0 (len A))), (proj2 (Z.leb_le 0 (len A + 1))), (proj2 (Z.leb_le 0 (len B))) by lia. cbn [andb].
  rewrite (proj2 (Z.leb_le (len A + len B) _)), (proj2 (Z.leb_le (len A + 1 + len B) _)) by lia. cbn [andb]. f_equal.
  replace (Z.to_nat (len A + 1)) with (length A + 1)%nat by lia.
  replace (Z.to_nat (len A + 1 + len B)) with (length A + (length B + 1))%nat by lia. rewrite !Nat2Z.id.
  rewrite drop_app_length, take_app_length, take_app_add, drop_app_add.
  replace (length B + 1)%nat with (length (B ++ [x])) by (rewrite length_app; cbn; lia).
  replace (B ++ x :: S) with ((B ++ [x]) ++ S) by by rewrite <- app_assoc.
  rewrite drop_app_length. rewrite <- app_assoc. f_equal.
  destruct B as [|b B]; cbn; [done|]. by rewrite take_0.
Qed.

(** Entries move one place to the left, over one that is gone; the last stays twice. *)
Lemma copy_left (A D S : list bucket) x : D <> [] -> exists y,
  copy_buckets (len A + 1) (len A) (len D) (A ++ x :: D ++ S) = Some (A ++ D ++ y :: S).
Proof.
  intros HD. destruct (exists_last HD) as (D' & y & ->). exists y. unfold copy_buckets. rewrite !length_app. cbn [length].
  rewrite !length_app. cbn [length].
  rewrite (proj2 (Z.leb_le 0 (len A))), (proj2 (Z.leb_le 0 (len A + 1))), (proj2 (Z.leb_le 0 (Z.of_nat (length D' + 1)))) by lia. cbn [andb].
  rewrite (proj2 (Z.leb_le (len A + 1 + _) _)), (proj2 (Z.leb_le (len A + Z.of_nat (length D' + 1)) _)) by lia. cbn [andb]. f_equal.
  replace (Z.to_nat (len A + 1)) with (length A + 1)%nat by lia.
  replace (Z.to_nat (len A + Z.of_nat (length D' + 1))) with (length A + (1 + length D'))%nat by lia. rewrite !Nat2Z.id.
  rewrite take_app_length, !drop_app_add. cbn [drop].
  replace (length D' + 1)%nat with (length (D' ++ [y])) by (rewrite length_app; cbn; lia). rewrite drop_0, take_app_length.
  rewrite <- !app_assoc. f_equal. f_equal. cbn [drop Nat.add]. by rewrite drop_app_length.
Qed.

(** ** insert_block *)

Definition free_entries (l : list bucket) : Prop := l <> [] /\ Forall free_entry l.

Lemma num_buckets_bound n t : roomy n t -> 2 * n + STARTING_BUCKETS + 2 < 2 ^ 29 -> s32 (num_buckets t * 2) = num_buckets t * 2.
Proof. intros [_ H] Hn. apply s32_id. unfold num_buckets in *. lia. Qed.

Lemma insert_room_spec n (A B stale : list bucket) : free_entries stale ->
  roomy n (mkTable (A ++ B ++ stale) (len (A ++ B))) -> 2 * n + STARTING_BUCKETS + 2 < 2 ^ 29 ->
  exists y stale', insert_room (len A) (mkTable (A ++ B ++ stale) (len (A ++ B))) =
    Some (Some (mkTable (A ++ y :: B ++ stale') (len (A ++ B) + 1))) /\ free_entries stale' /\
    roomy (n + 1) (mkTable (A ++ y :: B ++ stale') (len (A ++ B) + 1)).
Proof.
  intros [Hne Hfree] Hroom Hn. set (t := mkTable _ _) in Hroom |- *.
  assert (exists grown, (let '(g, t') := if num_buckets t - 1 <=? num_full t then grow_table t (num_buckets t * 2) else (num_buckets t * 2, t)
      in g = num_buckets t * 2 /\ t' = mkTable (A ++ B ++ stale ++ grown) (len (A ++ B))) /\
      Forall free_entry grown /\ (2 <= length (stale ++ grown))%nat /\
      num_buckets (mkTable (A ++ B ++ stale ++ grown) (len (A ++ B))) <= 2 * (n + 1) + STARTING_BUCKETS + 2) as (grown & Hgrow & Hg & Hlong & Hb).
  { destruct Hroom as [Hr1 Hr2]. cbn [num_full t] in Hr1. unfold t, num_buckets in *. cbn [co_buf num_full] in *. rewrite !length_app in *.
    assert (length stale <> 0%nat) by (destruct stale; [done|cbn; lia]).
    destruct (Z.leb_spec (Z.of_nat (length A + (length B + length stale)) - 1) (Z.of_nat (length A + length B))).
    - exists (replicate (length A + (length B + length stale)) free_bucket).
      unfold grow_table, num_buckets. cbn [co_buf num_full]. rewrite !length_app.
      rewrite (proj2 (Z.ltb_ge _ _)) by lia. split; [split; [done|]|split; [|split]].
      + rewrite <- !app_assoc. repeat f_equal. lia.
      + by apply Forall_replicate.
      + rewrite length_replicate. lia.
      + rewrite length_replicate. unfold STARTING_BUCKETS. lia.
    - exists []. rewrite app_nil_r. split; [done|]. split; [by apply Forall_nil|]. rewrite !length_app. split; lia. }
  unfold insert_room. rewrite (num_buckets_bound n t Hroom Hn).
  destruct (if num_buckets t - 1 <=? num_full t then _ else _) as [g t'] eqn:E. destruct Hgrow as [-> ->]. clear E.
  rewrite Z.ltb_irrefl. destruct (stale ++ grown) as [|z stale'] eqn:Ez; [cbn in Hlong; lia|].
  assert (Forall free_entry (z :: stale')) as Hz by (rewrite <- Ez; by apply Forall_app). apply Forall_cons in Hz as [_ Hz].
  destruct (copy_right A B stale' z) as [y Hy]. cbn [num_full co_buf].
  destruct (Z.eqb_spec (len A) (len (A ++ B))) as [HB|HB]; cbn [negb].
  - assert (B = []) as -> by (rewrite length_app in HB; destruct B; [done|cbn in HB; lia]).
    exists z, stale'. cbn [app mbind option_bind] in *. split; [done|]. split; [split; [destruct stale'; [cbn in Hlong; lia|done]|done]|].
    destruct Hroom as [Hr1 Hr2]. split; [cbn [num_full t] in Hr1 |- *; lia|done].
  - rewrite length_app, Nat2Z.inj_add, Z.add_simpl_l, Hy. cbn [mbind option_bind].
    exists y, stale'. split; [done|]. split; [split; [destruct stale'; [cbn in Hlong; lia|done]|done]|].
    destruct Hroom as [Hr1 Hr2]. split; [cbn [num_full t] in Hr1 |- *; rewrite length_app in Hr1; lia|].
    unfold num_buckets in *. cbn [co_buf] in *. rewrite !length_app in *. cbn [length] in *. rewrite !length_app in *. cbn [length] in *. lia.
Qed.

(** The place of an entry, as it is kept. *)
Definition new_bucket (num size offset ck : Z) : bucket := mkBucket num (ring offset) size ck.

Lemma ring_eq offset : bsz <= offset < jsz + (jsz - bsz) ->
  u32 (if jsz <=? s64 offset then u64 (bsz + (offset - jsz)) else offset) = ring offset.
Proof.
  intros Ho. destruct Hgeo. rewrite s64_id by (unfold INT64_MAX; lia). unfold ring. destruct (Z.leb_spec jsz offset).
  - unfold u64. rewrite wrap_id by lia. rewrite u32_id by (unfold UINT32_MAX; lia). lia.
  - apply u32_id. unfold UINT32_MAX. lia.
Qed.

Lemma insert_block_new n A B stale num size offset ck : free_entries stale ->
  roomy n (mkTable (A ++ B ++ stale) (len (A ++ B))) -> 2 * n + STARTING_BUCKETS + 2 < 2 ^ 29 ->
  0 < size <= UINT32_MAX -> bsz <= offset < jsz + (jsz - bsz) ->
  exists stale', insert_block h (len A) num size offset ck false (mkTable (A ++ B ++ stale) (len (A ++ B))) =
    Some (len A, mkTable (A ++ new_bucket num size offset ck :: B ++ stale') (len (A ++ B) + 1)) /\ free_entries stale' /\
    roomy (n + 1) (mkTable (A ++ new_bucket num size offset ck :: B ++ stale') (len (A ++ B) + 1)).
Proof.
  intros Hf Hr Hn Hsz Ho. destruct (insert_room_spec n A B stale Hf Hr Hn) as (y & stale' & E & Hf' & Hr').
  exists stale'. unfold insert_block. cbn [negb]. rewrite E. cbn [mbind option_bind].
  rewrite (proj2 (Z.leb_gt size 0)) by lia. rewrite co_update_at by done. cbn [mbind option_bind].
  rewrite ring_eq by done. rewrite u32_id by lia. split; [done|]. split; [done|].
  destruct Hr' as [H1 H2]. split; [done|]. unfold num_buckets in *. cbn [co_buf] in *. rewrite length_app in *. done.
Qed.

Lemma insert_block_over A B b num size offset ck m : 0 < size <= UINT32_MAX -> bsz <= offset < jsz + (jsz - bsz) ->
  insert_block h (len A) num size offset ck true (mkTable (A ++ b :: B) m) =
    Some (len A, mkTable (A ++ new_bucket num size offset ck :: B) m).
Proof.
  intros Hsz Ho. unfold insert_block. cbn [negb mbind option_bind]. rewrite (proj2 (Z.leb_gt size 0)) by lia.
  rewrite co_update_at by done. cbn [mbind option_bind]. rewrite ring_eq by done. by rewrite u32_id by lia.
Qed.

(** ** Removing what a block overlaps *)

(** An entry without its first [o] bytes, whole blocks of them. *)
Definition cut_front (o : Z) (b : bucket) : bucket :=
  mkBucket (block_num b + o / bsz) (ring (jnl_offset b + o)) (block_size b - o) 0.
(** An entry that ends at [s]. *)
Definition cut_back (s : Z) (b : bucket) : bucket := mkBucket (block_num b) (jnl_offset b) (s - bpos b) 0.

(** What of the entries is behind [e], when those before the first are gone. *)
Definition cut_to (e : Z) (l : list bucket) : list bucket :=
  match l with
  | c :: l => (if bpos c <? e then cut_front (e - bpos c) c else c) :: l
  | [] => []
  end.

Lemma divide_pos a b : (a | b) -> 0 < a -> b / a * a = b.
Proof. intros [k ->] Ha. by rewrite Z.div_mul by lia. Qed.

Lemma cut_bucket_eq e b : bucket_ok b -> (bsz | e) -> bpos b < e < bend b -> cut_bucket h (e - bpos b) b = cut_front (e - bpos b) b.
Proof.
  intros Hb He Hin. pose proof (bpos_whole b) as Hp. pose proof Hb as [? Hs ? Ho ? Hend]. destruct Hgeo as [Hg1 Hg2 Hg3].
  assert ((bsz | e - bpos b)) as Hd by by apply Z.divide_sub_r.
  pose proof (divide_pos _ _ Hd Hg1). unfold cut_bucket, cut_front, bend in *.
  assert (e - bpos b < block_size b) by lia.
  assert (u64 (jnl_offset b + (e - bpos b)) = jnl_offset b + (e - bpos b)) as -> by (apply wrap_id; lia).
  rewrite ring_eq by lia. rewrite (u32_id (block_size b - _)) by (unfold UINT32_MAX; lia).
  f_equal. apply s64_id. unfold bpos, INT64_MAX in *. split; [|nia].
  assert (0 <= (e - block_num b * bsz) / bsz) by (apply Z.div_pos; lia). lia.
Qed.

Lemma cut_front_pos e b : (bsz | e) -> bpos b <= e -> bpos (cut_front (e - bpos b) b) = e /\ bend (cut_front (e - bpos b) b) = bend b.
Proof.
  intros He Hle. pose proof (bpos_whole b) as Hp. destruct Hgeo as [Hg1 Hg2 Hg3].
  assert ((bsz | e - bpos b)) as Hd by by apply Z.divide_sub_r. pose proof (divide_pos _ _ Hd Hg1).
  assert (bpos (cut_front (e - bpos b) b) = e) as E by (unfold bpos at 1; cbn [cut_front block_num]; rewrite Z.mul_add_distr_r, H; unfold bpos; lia).
  split; [done|]. unfold bend. rewrite E. cbn [cut_front block_size]. lia.
Qed.

Lemma cut_front_ok e b : bucket_ok b -> (bsz | e) -> bpos b <= e < bend b -> bucket_ok (cut_front (e - bpos b) b).
Proof.
  intros Hb He Hin. destruct (cut_front_pos e b He ltac:(lia)) as [E1 E2].
  pose proof (bpos_whole b) as Hp. pose proof Hb as [? Hs ? Ho ? Hend]. destruct Hgeo as [Hg1 Hg2 Hg3].
  assert ((bsz | e - bpos b)) as Hd by by apply Z.divide_sub_r.
  split; cbn [cut_front block_num block_size jnl_offset].
  - assert (0 <= (e - bpos b) / bsz) by (apply Z.div_pos; lia). lia.
  - unfold bend in Hin. lia.
  - by apply Z.divide_sub_r.
  - apply ring_bound. unfold bend in Hin. lia.
  - apply ring_whole. by apply Z.divide_add_r.
  - fold (cut_front (e - bpos b) b). lia.
Qed.

Lemma cut_front_source e b x : bucket_ok b -> (bsz | e) -> bpos b <= e < bend b -> e <= x ->
  source [cut_front (e - bpos b) b] x = source [b] x.
Proof.
  intros Hb He Hin Hx. destruct (cut_front_pos e b He ltac:(lia)) as [E1 E2]. cbn [source]. rewrite E1, E2.
  rewrite (proj2 (Z.leb_le e x)), (proj2 (Z.leb_le (bpos b) x)) by lia. cbn [andb]. destruct (Z.ltb_spec x (bend b)); [|done].
  f_equal. cbn [cut_front jnl_offset]. destruct Hb as [? Hs ? Ho ? Hend]. unfold bend in *.
  rewrite ring_ring by (destruct Hgeo; lia). f_equal. lia.
Qed.

Lemma cut_back_ok s b : bucket_ok b -> (bsz | s) -> bpos b < s <= bend b -> bucket_ok (cut_back s b).
Proof.
  intros Hb He Hin. pose proof (bpos_whole b) as Hp. pose proof Hb as [? Hs ? Ho ? Hend].
  unfold bend in *. split; cbn [cut_back block_num block_size jnl_offset]; try done.
  - lia.
  - by apply Z.divide_sub_r.
  - unfold bend, cut_back, bpos in *. cbn in *. lia.
Qed.

Lemma cut_back_source s b x : s <= bend b -> x < s -> source [cut_back s b] x = source [b] x.
Proof.
  intros Hs Hx. cbn [source]. unfold bend at 1. unfold bpos at 1 2 4. cbn [cut_back block_num block_size jnl_offset].
  fold (bpos b). destruct (bpos b <=? x); [|done]. cbn [andb]. rewrite !(proj2 (Z.ltb_lt x _)) by lia. done.
Qed.

Lemma len_snoc {A} (l : list A) x : len (l ++ [x]) = len l + 1.
Proof. rewrite length_app. cbn. lia. Qed.

Lemma at_index_middle (A S : list bucket) b i : i = len A -> at_index (A ++ b :: S) i = Some b.
Proof. intros. by rewrite at_index_app. Qed.

Lemma mark_stops A D stale e k n fuel : Forall bucket_ok D -> Forall (fun b => e <= bpos b) D -> n = len A + len D -> (0 < fuel)%nat ->
  mark_overlapped h e (len A) k (mkTable (A ++ D ++ stale) n) fuel = Some (len A, k, mkTable (A ++ D ++ stale) n).
Proof.
  intros Hok Hb -> Hf. destruct fuel as [|fuel]; [lia|]. cbn [mark_overlapped num_full co_buf].
  destruct D as [|d D]; [cbn; by rewrite Z.add_0_r, Z.ltb_irrefl|].
  rewrite (proj2 (Z.ltb_lt _ _)) by (cbn; lia). cbn [app]. rewrite at_index_middle by done. cbn [mbind option_bind].
  apply Forall_cons in Hok as [Hd _]. apply Forall_cons in Hb as [Hb _]. rewrite bucket_pos by done.
  by rewrite (proj2 (Z.ltb_ge _ _)) by lia.
Qed.

(** The entries behind the marked ones: the first may lose its front. *)
Lemma mark_cut A C stale e k n fuel : Forall bucket_ok C -> StronglySorted apart C -> (bsz | e) ->
  (forall c C', C = c :: C' -> e < bend c) -> n = len A + len C -> (length C < fuel)%nat ->
  exists j, (j = 0 \/ j = 1 /\ C <> []) /\ mark_overlapped h e (len A) k (mkTable (A ++ C ++ stale) n) fuel =
    Some (len A + j, k, mkTable (A ++ cut_to e C ++ stale) n).
Proof.
  intros Hok Hs He Hhd Hn Hf. destruct C as [|c C].
  { exists 0. split; [by left|]. rewrite Z.add_0_r. cbn [cut_to]. apply (mark_stops A []); [by apply Forall_nil|by apply Forall_nil|done|lia]. }
  specialize (Hhd c C eq_refl). cbn in Hf. apply Forall_cons in Hok as [Hc Hok]. apply StronglySorted_cons in Hs as [Hap Hs].
  cbn [cut_to]. destruct (Z.ltb_spec (bpos c) e) as [Hlt|Hge].
  2:{ exists 0. split; [by left|]. rewrite Z.add_0_r. apply (mark_stops A (c :: C)); [by apply Forall_cons| |done|lia].
      apply Forall_cons. split; [done|]. eapply Forall_impl; [exact Hap|]. unfold apart. intros b ?. lia. }
  exists 1. split; [by right|]. destruct fuel as [|fuel]; [lia|]. cbn [mark_overlapped num_full co_buf].
  rewrite (proj2 (Z.ltb_lt _ _)) by (subst n; cbn; lia). cbn [app]. rewrite at_index_middle by done. cbn [mbind option_bind].
  rewrite bucket_pos by done. rewrite (proj2 (Z.ltb_lt _ _)) by lia.
  pose proof Hc as [? Hsz ? Ho ? Hend]. pose proof (bpos_nonneg c Hc).
  assert (s64 (block_num c * bsz + block_size c) = bend c) as -> by (apply s64_id; fold (bpos c); fold (bend c); unfold bend in *; lia).
  rewrite (proj2 (Z.leb_gt _ _)) by lia. fold (bpos c).
  assert (s64 (e - bpos c) = e - bpos c) as -> by (apply s64_id; lia).
  rewrite (proj2 (Z.ltb_lt 0 _)) by lia.
  assert ((e - bpos c) mod bsz = 0) as -> by (apply Z.mod_divide; [destruct Hgeo; lia|]; apply Z.divide_sub_r; [done|apply bpos_whole]).
  change (negb (0 =? 0)) with false. cbn match. rewrite co_update_at by done. cbn [mbind option_bind].
  rewrite u32_id by (unfold bend in *; destruct Hgeo; unfold UINT32_MAX; lia). rewrite (proj2 (Z.leb_gt _ 0)) by (unfold bend in *; lia). cbn [mbind option_bind].
  rewrite cut_bucket_eq by done.
  replace (A ++ cut_front (e - bpos c) c :: C ++ stale) with ((A ++ [cut_front (e - bpos c) c]) ++ C ++ stale) by by rewrite <- app_assoc.
  rewrite <- len_snoc with (x := cut_front (e - bpos c) c). apply mark_stops; [done| | |lia].
  - eapply Forall_impl; [exact Hap|]. unfold apart. intros b ?. lia.
  - rewrite len_snoc. subst n. cbn. lia.
Qed.

Lemma mark_overlapped_spec C stale e : forall R A k n fuel, Forall bucket_ok (R ++ C) -> StronglySorted apart C -> (bsz | e) ->
  Forall (fun b => bend b <= e) R -> (forall c C', C = c :: C' -> e < bend c) -> n = len A + len R + len C ->
  (length R + length C < fuel)%nat ->
  exists j, (j = 0 \/ j = 1 /\ C <> []) /\ mark_overlapped h e (len A) k (mkTable (A ++ R ++ C ++ stale) n) fuel =
    Some (len A + len R + j, k + len R, mkTable (A ++ (set_num (-2) <$> R) ++ cut_to e C ++ stale) n).
Proof.
  induction R as [|r R IH]; intros A k n fuel Hok Hs He HR Hhd Hn Hf.
  - destruct (mark_cut A C stale e k n fuel Hok Hs He Hhd ltac:(cbn in Hn; lia) ltac:(cbn in Hf; lia)) as (j & Hj & E).
    exists j. split; [done|]. cbn. by rewrite !Z.add_0_r.
  - cbn [app] in Hok. apply Forall_cons in Hok as [Hr Hok]. apply Forall_cons in HR as [Her HR]. destruct fuel as [|fuel]; [lia|].
    cbn [mark_overlapped num_full co_buf]. rewrite (proj2 (Z.ltb_lt _ _)) by (subst n; cbn; lia). cbn [app]. rewrite at_index_middle by done.
    cbn [mbind option_bind]. rewrite bucket_pos by done. pose proof (bend_gt r Hr). rewrite (proj2 (Z.ltb_lt _ _)) by lia.
    pose proof (bpos_nonneg r Hr). pose proof Hr as [? ? ? ? ? Hend].
    assert (s64 (block_num r * bsz + block_size r) = bend r) as -> by (apply s64_id; fold (bpos r); fold (bend r); lia).
    rewrite (proj2 (Z.leb_le _ _)) by lia. rewrite co_update_at by done. cbn [mbind option_bind].
    replace (A ++ set_num (-2) r :: R ++ C ++ stale) with ((A ++ [set_num (-2) r]) ++ R ++ C ++ stale) by by rewrite <- app_assoc.
    rewrite <- len_snoc with (x := set_num (-2) r).
    destruct (IH (A ++ [set_num (-2) r]) (k + 1) n fuel Hok Hs He HR Hhd) as (j & Hj & ->); [rewrite len_snoc; subst n; cbn; lia|cbn in Hf; lia|].
    exists j. split; [done|]. rewrite len_snoc. cbn [fmap list_fmap length]. rewrite <- !app_assoc. cbn [app]. do 2 f_equal. f_equal; lia.
Qed.

Lemma remove_marked_spec A D : forall R S n fuel, n = len A + len R + len D -> (length R < fuel)%nat ->
  exists J, length J = length R /\
    remove_marked (len A) (len A + len R - 1) (mkTable (A ++ (set_num (-2) <$> R) ++ D ++ S) n) fuel =
      Some (mkTable (A ++ D ++ J ++ S) (len A + len D)).
Proof.
  intros R. induction R as [|r R IH] using rev_ind; intros S n fuel -> Hf.
  - exists []. split; [done|]. destruct fuel as [|fuel]; [lia|]. cbn [remove_marked].
    rewrite (proj2 (Z.leb_gt _ _)) by (cbn; lia). cbn. by rewrite Z.add_0_r.
  - rewrite length_app in Hf. cbn in Hf. destruct fuel as [|fuel]; [lia|]. cbn [remove_marked].
    rewrite len_snoc. rewrite (proj2 (Z.leb_le _ _)) by lia. rewrite fmap_app. cbn [fmap list_fmap co_buf num_full].
    set (M := set_num (-2) <$> R). assert (length M = length R) as HM by apply length_fmap.
    replace (A ++ (M ++ [set_num (-2) r]) ++ D ++ S) with ((A ++ M) ++ set_num (-2) r :: D ++ S) by by rewrite <- !app_assoc.
    assert (len A + (len R + 1) - 1 = len (A ++ M)) as -> by (rewrite length_app, HM; lia).
    rewrite at_index_middle by done. cbn [mbind option_bind set_num block_num]. change (-2 =? -2) with true. cbn match.
    assert (exists y, (if len (A ++ M) =? len A + (len R + 1) + len D - 1
        then co_update (len (A ++ M)) (set_num (-1)) (mkTable ((A ++ M) ++ set_num (-2) r :: D ++ S) (len A + (len R + 1) + len D))
        else l ← copy_buckets (len (A ++ M) + 1) (len (A ++ M)) (len A + (len R + 1) + len D - (len (A ++ M) + 1)) ((A ++ M) ++ set_num (-2) r :: D ++ S);
             Some (mkTable l (len A + (len R + 1) + len D))) =
        Some (mkTable ((A ++ M) ++ D ++ y :: S) (len A + (len R + 1) + len D))) as [y ->].
    { destruct D as [|d D].
      - rewrite (proj2 (Z.eqb_eq _ _)) by (rewrite length_app, HM; cbn; lia). cbn [app]. rewrite co_update_at by done. by eexists.
      - rewrite (proj2 (Z.eqb_neq _ _)) by (rewrite length_app, HM; cbn; lia).
        destruct (copy_left (A ++ M) (d :: D) S (set_num (-2) r)) as [y Hy]; [done|]. exists y.
        replace (_ - (len (A ++ M) + 1)) with (len (d :: D)) by (rewrite length_app, HM; lia). by rewrite Hy. }
    cbn [mbind option_bind co_buf num_full].
    destruct (IH (y :: S) (len A + len R + len D) fuel ltac:(lia) ltac:(lia)) as (J & HJ & E).
    exists (J ++ [y]). split; [rewrite !length_app, HJ; done|].
    replace (len (A ++ M) - 1) with (len A + len R - 1) by (rewrite length_app, HM; lia).
    replace (len A + (len R + 1) + len D - 1) with (len A + len R + len D) by lia.
    rewrite <- !app_assoc. cbn [app]. exact E.
Qed.

Lemma clear_stale_spec S n : forall J A i, i = len A ->
  clear_stale i (length J) (mkTable (A ++ J ++ S) n) = Some (mkTable (A ++ (set_num (-1) <$> J) ++ S) n).
Proof.
  induction J as [|j J IH]; intros A i ->; [done|]. cbn [clear_stale length app]. rewrite co_update_at by done. cbn [mbind option_bind].
  replace (A ++ set_num (-1) j :: J ++ S) with ((A ++ [set_num (-1) j]) ++ J ++ S) by by rewrite <- app_assoc.
  rewrite (IH (A ++ [set_num (-1) j])) by by rewrite len_snoc. cbn [fmap list_fmap]. by rewrite <- app_assoc.
Qed.

Lemma length_cut_to e C : length (cut_to e C) = length C.
Proof. by destruct C. Qed.

Lemma num_of_pos b : 0 <= bpos b -> block_num b <> -2.
Proof. destruct Hgeo. unfold bpos. nia. Qed.

Lemma cut_to_pos e C c D : cut_to e C = c :: D -> Forall bucket_ok C -> (bsz | e) -> 0 <= bpos c.
Proof.
  intros E Hok He. destruct C as [|c' C]; [done|]. apply Forall_cons in Hok as [Hc _]. injection E as <- _.
  pose proof (bpos_nonneg c' Hc). destruct (Z.ltb_spec (bpos c') e); [|done].
  destruct (cut_front_pos e c' He ltac:(lia)) as [-> _]. lia.
Qed.

Lemma remove_overlapped_spec A R C stale e n : Forall bucket_ok (R ++ C) -> StronglySorted apart C -> (bsz | e) ->
  Forall (fun b => bend b <= e) R -> (forall c C', C = c :: C' -> e < bend c) -> n = len A + len R + len C -> free_entries stale ->
  exists stale', free_entries stale' /\ length stale' = (length R + length stale)%nat /\
    remove_overlapped h (len A) e (mkTable (A ++ R ++ C ++ stale) n) =
      Some (mkTable (A ++ cut_to e C ++ stale') (len A + len C)).
Proof.
  intros Hok Hs He HR Hhd Hn [Hne Hfree]. unfold remove_overlapped. cbn [num_full].
  destruct (mark_overlapped_spec C stale e R A 0 n (S (Z.to_nat n)) Hok Hs He HR Hhd Hn) as (j & Hj & ->); [lia|].
  cbn [mbind option_bind num_full].
  assert (exists fuel, (length R < fuel)%nat /\
    remove_marked (len A) (len A + len R + j - 1) (mkTable (A ++ (set_num (-2) <$> R) ++ cut_to e C ++ stale) n) (S (Z.to_nat n)) =
    remove_marked (len A) (len A + len R - 1) (mkTable (A ++ (set_num (-2) <$> R) ++ cut_to e C ++ stale) n) fuel) as (fuel & Hfuel & ->).
  { destruct Hj as [->|[-> HC]]; [exists (S (Z.to_nat n)); rewrite Z.add_0_r; split; [lia|done]|].
    destruct (cut_to e C) as [|c D] eqn:Ec; [by apply (f_equal length) in Ec; rewrite length_cut_to in Ec; destruct C|].
    exists (Z.to_nat n). assert (length C <> 0%nat) by by destruct C. split; [lia|]. cbn [remove_marked].
    rewrite (proj2 (Z.leb_le _ _)) by lia. cbn [co_buf]. rewrite app_assoc. cbn [app]. rewrite at_index_middle by (rewrite length_app, length_fmap; lia).
    cbn [mbind option_bind]. apply Forall_app in Hok as [_ Hok].
    rewrite (proj2 (Z.eqb_neq _ _)) by (by eapply num_of_pos, cut_to_pos). rewrite <- app_assoc. f_equal. lia. }
  destruct (remove_marked_spec A (cut_to e C) R stale n fuel) as (J & HJ & ->); [by rewrite length_cut_to|done|].
  cbn [mbind option_bind num_full]. rewrite Z.add_0_l, Nat2Z.id, <- HJ, length_cut_to.
  rewrite app_assoc. rewrite clear_stale_spec by (rewrite length_app, length_cut_to; lia).
  exists ((set_num (-1) <$> J) ++ stale). split; [|split; [by rewrite length_app, length_fmap|by rewrite <- app_assoc]].
  split; [by destruct (set_num (-1) <$> J)|]. apply Forall_app. split; [|done]. apply Forall_fmap, Forall_true. done.
Qed.

(** ** do_overlap *)

(** The entries before and behind the bytes from [s] to [e], where they were. *)
Record split_at (l : list bucket) (s e : Z) (A B : list bucket) : Prop := {
  sp_before : Forall (fun b => bend b <= s) A;
  sp_after : Forall (fun b => e <= bpos b) B;
  sp_ok1 : Forall bucket_ok A;
  sp_ok2 : Forall bucket_ok B;
  sp_sorted1 : StronglySorted apart A;
  sp_sorted2 : StronglySorted apart B;
  sp_low : forall x, x < s -> source A x = source l x;
  sp_high : forall x, e <= x -> source B x = source l x;
}.

Lemma partition_ends e B : Forall bucket_ok B -> StronglySorted apart B -> exists R C,
  B = R ++ C /\ Forall (fun b => bend b <= e) R /\ (forall c C', C = c :: C' -> e < bend c).
Proof.
  intros Hok Hs. induction Hs as [|b B Hs IH Hb].
  - exists [], []. split; [done|]. split; [by apply Forall_nil|done].
  - apply Forall_cons in Hok as [Hb' Hok]. destruct (IH Hok) as (R & C & -> & HR & HC).
    destruct (Z.le_gt_cases (bend b) e).
    + exists (b :: R), C. split; [done|]. split; [by apply Forall_cons|done].
    + exists [], (b :: R ++ C). split; [done|]. split; [by apply Forall_nil|]. by intros c C' [= <- <-].
Qed.

(** What is left of the entries behind the new block. *)
Lemma cut_to_spec e R C : Forall bucket_ok C -> StronglySorted apart C -> (bsz | e) ->
  Forall (fun b => bend b <= e) R -> (forall c C', C = c :: C' -> e < bend c) ->
  Forall (fun b => e <= bpos b) (cut_to e C) /\ Forall bucket_ok (cut_to e C) /\ StronglySorted apart (cut_to e C) /\
  (forall x, e <= x -> source (cut_to e C) x = source (R ++ C) x).
Proof.
  intros Hok Hs He HR Hhd. destruct C as [|c C].
  { cbn. split_and!; [by apply Forall_nil|by apply Forall_nil|constructor|]. intros x Hx. by rewrite (source_high R [] e). }
  specialize (Hhd c C eq_refl). apply Forall_cons in Hok as [Hc Hok]. apply StronglySorted_cons in Hs as [Hap Hs]. cbn [cut_to].
  assert (Forall (fun b => e <= bpos b) C) as HC by (eapply Forall_impl; [exact Hap|]; unfold apart; intros; lia).
  destruct (Z.ltb_spec (bpos c) e) as [Hlt|Hge].
  - destruct (cut_front_pos e c He ltac:(lia)) as [E1 E2]. split_and!.
    + apply Forall_cons. by rewrite E1.
    + apply Forall_cons. split; [apply cut_front_ok; [done|done|lia]|done].
    + apply StronglySorted_cons. split; [|done]. eapply Forall_impl; [exact Hap|]. unfold apart. by rewrite E2.
    + intros x Hx. rewrite (source_high R (c :: C) e) by done. rewrite !(source_cons _ C). rewrite (cut_front_source e c x) by (done || lia). done.
  - split_and!; [by apply Forall_cons|by apply Forall_cons|by apply StronglySorted_cons|].
    intros x Hx. by rewrite (source_high R (c :: C) e).
Qed.

(** The blocks that can be in the journal. *)
Record block_ok (num size : Z) : Prop := {
  bk_num : 0 <= num;
  bk_size : 0 < size <= jsz - bsz;
  bk_whole : (bsz | size);
  bk_end : num * bsz + size <= INT64_MAX;
}.

Section Block.
Variables (num size s e : Z).
Hypothesis Hblock : block_ok num size.
Hypothesis Es : s = num * bsz.
Hypothesis Ee : e = s + size.

Lemma block_edges : block_pos h num = s /\ s64 (s + size) = e /\ 0 <= s < e /\ e <= INT64_MAX /\ (bsz | s) /\ (bsz | e).
Proof.
  destruct Hblock, Hgeo. assert (0 <= s) by nia. split_and!; try lia.
  - rewrite Es. apply block_pos_eq; [done|]. lia.
  - rewrite <- Ee. apply s64_id. lia.
  - by exists num.
  - rewrite Ee, Es. apply Z.divide_add_r; [by exists num|done].
Qed.

(** What the entry before the block becomes, and what of it is behind the block. *)
Lemma overlap_previous_spec n A p B stale ck : bucket_ok p -> block_num p < num -> free_entries stale ->
  roomy n (mkTable (A ++ p :: B ++ stale) (len (A ++ p :: B))) -> 2 * n + STARTING_BUCKETS + 2 < 2 ^ 29 ->
  exists p' Q stale', overlap_previous h (len A + 1) s e ck (mkTable (A ++ p :: B ++ stale) (len (A ++ p :: B))) =
      Some (mkTable (A ++ p' :: Q ++ B ++ stale') (len (A ++ p' :: Q ++ B))) /\ free_entries stale' /\
    roomy (n + len Q) (mkTable (A ++ p' :: Q ++ B ++ stale') (len (A ++ p' :: Q ++ B))) /\
    (p' = p /\ bend p <= s \/ p' = cut_back s p /\ s < bend p) /\
    (Q = [] /\ bend p <= e \/ Q = [set_cksum ck (cut_front (e - bpos p) p)] /\ e < bend p).
Proof.
  intros Hp Hlt Hf Hr Hn. destruct block_edges as (_ & _ & Hse & Hmax & Hs & He).
  pose proof (bend_gt p Hp) as Hgt. pose proof (bpos_nonneg p Hp) as Hnn. pose proof Hp as [? Hsz ? Ho ? Hend].
  assert (bpos p < s) as Hps by (rewrite Es; unfold bpos; destruct Hgeo; nia).
  assert ((bsz | bend p)) as Hbp by by apply bend_whole.
  unfold overlap_previous. cbn [co_buf]. rewrite at_index_middle by lia. cbn [mbind option_bind].
  rewrite bucket_pos by done. assert (s64 (bpos p + block_size p) = bend p) as -> by (apply s64_id; unfold bend in *; lia).
  assert (s64 (bend p - s) = bend p - s) as -> by (apply s64_id; unfold INT64_MAX in *; lia).
  destruct (Z.ltb_spec 0 (bend p - s)) as [Hov|Hno].
  2:{ exists p, [], stale. cbn. rewrite Z.add_0_r. split; [done|]. split; [done|]. split; [done|]. split; left; (split; [done|lia]). }
  assert ((bend p - s) mod bsz = 0) as -> by (apply Z.mod_divide; [destruct Hgeo; lia|]; by apply Z.divide_sub_r).
  change (negb (0 =? 0)) with false. cbn match.
  assert (forall b2, u32 (s - bpos p) = s - bpos p /\ (A ++ p :: b2 = (A ++ [p]) ++ b2)) as Hcut.
  { intros b2. split; [apply u32_id; unfold bend in *; destruct Hgeo; unfold UINT32_MAX; lia|by rewrite <- app_assoc]. }
  destruct (Z.ltb_spec e (bend p)) as [Hsplit|Hnosplit].
  - replace (A ++ p :: B ++ stale) with ((A ++ [p]) ++ B ++ stale) in Hr |- * by by rewrite <- app_assoc.
    replace (len (A ++ p :: B)) with (len ((A ++ [p]) ++ B)) in Hr |- * by by rewrite <- app_assoc.
    destruct (insert_block_new n (A ++ [p]) B stale (e / bsz) (bend p - e) (jnl_offset p + (e - bpos p)) ck Hf Hr Hn) as (stale' & E & Hf' & Hr').
    { unfold bend in *. destruct Hgeo. unfold UINT32_MAX. lia. }
    { unfold bend in *. destruct Hgeo. lia. }
    assert (s64 (u64 e / bsz) = e / bsz) as ->.
    { unfold u64. rewrite wrap_id by (unfold INT64_MAX in *; lia). assert (0 <= e / bsz <= e) by (destruct Hgeo; split; [apply Z.div_pos; lia|apply Z.div_le_upper_bound; nia]).
      apply s64_id. lia. }
    assert (u64 (bend p - e) = bend p - e) as -> by (apply wrap_id; unfold bend, INT64_MAX in *; lia).
    assert (u64 (jnl_offset p + (e - bpos p)) = jnl_offset p + (e - bpos p)) as -> by (apply wrap_id; unfold bend in *; destruct Hgeo; lia).
    rewrite len_snoc in E. rewrite E. cbn [mbind option_bind]. rewrite (proj2 (Z.ltb_ge _ 0)) by lia. cbn [mbind option_bind].
    assert (new_bucket (e / bsz) (bend p - e) (jnl_offset p + (e - bpos p)) ck = set_cksum ck (cut_front (e - bpos p) p)) as Eq.
    { unfold new_bucket, set_cksum, cut_front. cbn. f_equal; [|unfold bend; lia].
      unfold bpos. replace (e - block_num p * bsz) with (e + - block_num p * bsz) by lia. rewrite Z.div_add by (destruct Hgeo; lia). lia. }
    rewrite Eq in *. rewrite <- app_assoc. cbn [app]. rewrite co_update_at by lia. fold (cut_back s p).
    destruct (Hcut B) as [-> _].
    exists (cut_back s p), [set_cksum ck (cut_front (e - bpos p) p)], stale'. cbn [app].
    assert (len ((A ++ [p]) ++ B) + 1 = len (A ++ cut_back s p :: set_cksum ck (cut_front (e - bpos p) p) :: B)) as <-.
    { rewrite !length_app. cbn. lia. }
    split; [done|]. split; [done|]. split; [|split; right; (split; [done|lia])].
    destruct Hr' as [H1 H2]. split; [done|]. unfold num_buckets in *. cbn [co_buf] in *. rewrite !length_app in *. cbn [length] in *. rewrite !length_app in *. lia.
  - cbn [mbind option_bind]. rewrite co_update_at by lia. destruct (Hcut B) as [-> _].
    exists (cut_back s p), [], stale. cbn [app]. fold (cut_back s p). rewrite !length_app. cbn [length]. rewrite Z.add_0_r.
    split; [done|]. split; [done|]. split; [|split; [right|left]; (split; [done|lia])].
    destruct Hr as [H1 H2]. split; [cbn [num_full] in *; rewrite length_app in H1; done|]. unfold num_buckets in *. cbn [co_buf] in *. rewrite !length_app in *. done.
Qed.

(** The entries before the block, as overlap_previous leaves them. *)
Lemma previous_split A p p' Q B ck : Forall bucket_ok (A ++ [p]) -> StronglySorted apart (A ++ p :: B) -> Forall bucket_ok B ->
  Forall (fun b => num <= block_num b) B -> block_num p < num ->
  (p' = p /\ bend p <= s \/ p' = cut_back s p /\ s < bend p) ->
  (Q = [] /\ bend p <= e \/ Q = [set_cksum ck (cut_front (e - bpos p) p)] /\ e < bend p) ->
  Forall (fun b => bend b <= s) (A ++ [p']) /\ Forall bucket_ok (A ++ [p']) /\ StronglySorted apart (A ++ [p']) /\
  (forall x, x < s -> source (A ++ [p']) x = source (A ++ p :: B) x) /\
  Forall bucket_ok Q /\ Forall (fun b => e <= bpos b) Q /\ StronglySorted apart (Q ++ B) /\
  (forall x, e <= x -> source (Q ++ B) x = source (A ++ p :: B) x).
Proof.
  intros Hok Hs HB HnB Hnum Hp' HQ. destruct block_edges as (_ & _ & Hse & Hmax & Hsd & Hed).
  apply Forall_app in Hok as [HA Hp]. apply Forall_cons in Hp as [Hp _].
  pose proof (bend_gt p Hp) as Hgt. apply StronglySorted_middle in Hs as (HsA & HsB & HAp & HpB & HAB).
  assert (bpos p < s) as Hps by (rewrite Es; destruct Hgeo; unfold bpos in *; apply Z.mul_lt_mono_pos_r; lia).
  assert (Forall (fun b => s <= bpos b) B) as HB'.
  { eapply Forall_impl; [exact HnB|]. intros b Hb. rewrite Es. unfold bpos. destruct Hgeo. cbn in Hb. nia. }
  assert (bucket_ok p' /\ bend p' <= s /\ bpos p' = bpos p /\ (forall x, x < s -> source [p'] x = source [p] x)) as (Hp'' & Hend & Hpos & Hsrc).
  { destruct Hp' as [[-> ?]|[-> Hlt]]; [done|]. split; [apply cut_back_ok; [done|done|lia]|]. split; [unfold bend, bpos; cbn; unfold bpos; lia|].
    split; [done|]. intros x Hx. apply cut_back_source; lia. }
  assert (Forall (fun b => bend b <= bpos p) A) as HA' by exact HAp.
  split; [apply Forall_app; split; [eapply Forall_impl; [exact HA'|]; cbn; intros; lia|by apply Forall_singleton]|].
  split; [apply Forall_app; split; [done|by apply Forall_singleton]|].
  split.
  { apply StronglySorted_app. split_and!; [|done|by repeat constructor]. intros a b Ha ->%list_elem_of_singleton.
    unfold apart. rewrite Hpos. by apply (proj1 (Forall_forall _ _) HA'). }
  split.
  { intros x Hx. rewrite (app_assoc A [p] B : A ++ p :: B = _), (source_low (A ++ [p]) B s) by done.
    rewrite !source_app. by rewrite Hsrc. }
  destruct HQ as [[-> Hle]|[-> Hlt]].
  - split; [by apply Forall_nil|]. split; [by apply Forall_nil|]. split; [done|]. intros x Hx. cbn [app].
    rewrite (app_assoc A [p] B : A ++ p :: B = _). rewrite (source_high (A ++ [p]) B e); [done| |done].
    apply Forall_app. split; [eapply Forall_impl; [exact HA'|]; cbn; intros; lia|by apply Forall_singleton].
  - destruct (cut_front_pos e p Hed ltac:(lia)) as [E1 E2].
    assert (bucket_ok (set_cksum ck (cut_front (e - bpos p) p))) as Hq.
    { destruct (cut_front_ok e p Hp Hed ltac:(lia)) as [? ? ? ? ? ?]. by split. }
    split; [by apply Forall_singleton|]. split; [apply Forall_singleton; unfold bpos in E1; unfold bpos; cbn in *; lia|].
    split; [apply StronglySorted_cons; split; [|done]; eapply Forall_impl; [exact HpB|]; unfold apart, bend, bpos in *; cbn in *; intros; lia|].
    intros x Hx. cbn [app]. rewrite source_cons.
    assert (source [set_cksum ck (cut_front (e - bpos p) p)] x = source [cut_front (e - bpos p) p] x) as -> by done.
    rewrite (cut_front_source e p x) by (done || lia). rewrite (source_app A (p :: B)), (source_before A); [symmetry; apply source_cons|].
    eapply Forall_impl; [exact HA'|]. cbn. intros. lia.
Qed.

(** The entries behind the block: either they are not touched, or remove_overlapped cuts them. *)
Lemma overlap_next_spec A B stale : Forall bucket_ok B -> StronglySorted apart B -> free_entries stale ->
  exists B1 stale', free_entries stale' /\ length (B1 ++ stale') = length (B ++ stale) /\
    remove_overlapped h (len A) e (mkTable (A ++ B ++ stale) (len (A ++ B))) = Some (mkTable (A ++ B1 ++ stale') (len (A ++ B1))) /\
    (length B1 <= length B)%nat /\
    Forall (fun b => e <= bpos b) B1 /\ Forall bucket_ok B1 /\ StronglySorted apart B1 /\ (forall x, e <= x -> source B1 x = source B x).
Proof.
  intros Hok Hs Hf. destruct block_edges as (_ & _ & Hse & Hmax & Hsd & Hed).
  destruct (partition_ends e B Hok Hs) as (R & C & -> & HR & HC).
  pose proof Hok as HokC. apply Forall_app in HokC as [_ HokC]. apply StronglySorted_app in Hs as (_ & _ & HsC).
  destruct (remove_overlapped_spec A R C stale e (len (A ++ R ++ C)) Hok HsC Hed HR HC ltac:(rewrite !length_app; lia) Hf) as (stale' & Hf' & Hl & E).
  rewrite <- app_assoc, E. destruct (cut_to_spec e R C HokC HsC Hed HR HC) as (H1 & H2 & H3 & H4).
  exists (cut_to e C), stale'. rewrite !length_app, length_cut_to, Hl. split; [done|]. split; [lia|].
  split; [rewrite Nat2Z.inj_add; done|]. split; [lia|done].
Qed.

Lemma head_free stale d : free_entries stale -> exists b, head (stale ++ d) = Some b /\ block_num b = -1.
Proof. intros [Hne Hf]. destruct stale as [|b stale]; [done|]. apply Forall_cons in Hf as [Hb _]. by exists b. Qed.

Lemma roomy_shrink n l1 l2 m1 m2 : roomy n (mkTable l1 m1) -> length l2 = length l1 -> m2 <= m1 -> roomy n (mkTable l2 m2).
Proof. intros [H1 H2] Hl Hm. unfold roomy, num_buckets in *. cbn in *. rewrite Hl. lia. Qed.

(** Behind overlap_previous, when the entry at the index is not overwritten. *)
Lemma overlap_rest_spec n A B stale : Forall bucket_ok B -> StronglySorted apart B -> free_entries stale ->
  roomy n (mkTable (A ++ B ++ stale) (len (A ++ B))) ->
  exists B1 stale', (b ← at_index (A ++ B ++ stale) (len A);
      if e <=? block_pos h (block_num b) then Some (false, mkTable (A ++ B ++ stale) (len (A ++ B)))
      else t ← remove_overlapped h (len A) e (mkTable (A ++ B ++ stale) (len (A ++ B))); Some (false, t)) =
    Some (false, mkTable (A ++ B1 ++ stale') (len (A ++ B1))) /\ free_entries stale' /\
    roomy n (mkTable (A ++ B1 ++ stale') (len (A ++ B1))) /\
    Forall (fun b => e <= bpos b) B1 /\ Forall bucket_ok B1 /\ StronglySorted apart B1 /\ (forall x, e <= x -> source B1 x = source B x).
Proof using Hblock Es Ee Hgeo.
  intros Hok Hs Hf Hr. destruct block_edges as (_ & _ & Hse & Hmax & Hsd & Hed).
  destruct (overlap_next_spec A B stale Hok Hs Hf) as (B1 & stale' & Hf' & Hl & E & Hl1 & H1 & H2 & H3 & H4).
  assert (roomy n (mkTable (A ++ B1 ++ stale') (len (A ++ B1)))) as Hr'.
  { eapply roomy_shrink; [exact Hr|rewrite !(length_app A), Hl; done|rewrite !length_app; lia]. }
  rewrite at_index_app by done.
  destruct B as [|b B].
  - destruct Hf as [Hne Hfree]. destruct stale as [|z stale]; [done|]. cbn [app head mbind option_bind].
    apply Forall_cons in Hfree as [Hz _]. rewrite Hz.
    assert (block_pos h (-1) = - bsz) as -> by (unfold block_pos; destruct Hgeo; rewrite s64_id by (unfold INT64_MAX; lia); lia).
    rewrite (proj2 (Z.leb_gt _ _)) by (destruct Hgeo; lia). cbn [app] in E. rewrite E. cbn [mbind option_bind].
    by exists B1, stale'.
  - cbn [app head mbind option_bind]. pose proof Hok as Hok'. apply Forall_cons in Hok' as [Hb _]. rewrite bucket_pos by done.
    destruct (Z.leb_spec e (bpos b)).
    + exists (b :: B), stale. split; [done|]. split; [done|]. split; [done|]. apply StronglySorted_cons in Hs as Hs'. destruct Hs' as [Hap _].
      split; [|done]. apply Forall_cons. split; [done|]. pose proof (bend_gt b Hb). eapply Forall_impl; [exact Hap|]. unfold apart. intros; lia.
    + cbn [app] in E. rewrite E. cbn [mbind option_bind]. by exists B1, stale'.
Qed.

Lemma sorted_all_before A b : Forall bucket_ok (A ++ [b]) -> StronglySorted apart (A ++ [b]) -> Forall (fun a => bend a <= bpos b) A.
Proof. intros _ Hs. apply StronglySorted_middle in Hs as (_ & _ & H & _). exact H. Qed.

(** The block of an entry is written again, with at least as many bytes. *)
Lemma overwrite_spec n A b B stale ck : Forall bucket_ok (A ++ b :: B) -> StronglySorted apart (A ++ b :: B) ->
  block_num b = num -> block_size b <= size -> free_entries stale ->
  roomy n (mkTable (A ++ b :: B ++ stale) (len (A ++ b :: B))) ->
  exists over o B1 stale', do_overlap h (len A) num size ck (mkTable (A ++ b :: B ++ stale) (len (A ++ b :: B))) =
      Some (over, mkTable (A ++ o ++ B1 ++ stale') (len (A ++ o ++ B1))) /\
    (over = false /\ o = [] \/ over = true /\ exists b', o = [b']) /\ split_at (A ++ b :: B) s e A B1 /\ free_entries stale' /\
    roomy n (mkTable (A ++ o ++ B1 ++ stale') (len (A ++ o ++ B1))).
Proof using Hblock Es Ee Hgeo.
  intros Hok Hs Hnum Hsz Hf Hr. destruct block_edges as (Epos & Eend & Hse & Hmax & Hsd & Hed).
  pose proof Hok as Hok'. apply Forall_app in Hok' as [HokA HokB]. pose proof HokB as HokB'. apply Forall_cons in HokB' as [Hb HokB'].
  pose proof Hs as Hs'. apply StronglySorted_middle in Hs' as (HsA & HsB & HAb & HbB & HAB).
  assert (bpos b = s) as Hbs by (unfold bpos; rewrite Hnum; done).
  assert (StronglySorted apart (b :: B)) as HsbB by by apply StronglySorted_cons.
  assert (Forall (fun a => bend a <= s) A) as HAs by (rewrite <- Hbs; exact HAb).
  assert (forall B1, Forall (fun b => e <= bpos b) B1 -> Forall bucket_ok B1 -> StronglySorted apart B1 ->
    (forall x, e <= x -> source B1 x = source (b :: B) x) -> split_at (A ++ b :: B) s e A B1) as Hsplit.
  { intros B1 H1 H2 H3 H4. split; try done.
    - intros x Hx. symmetry. apply (source_low A (b :: B) s); [|done]. apply Forall_cons. split; [lia|].
      eapply Forall_impl; [exact HbB|]. pose proof (bend_gt b Hb). unfold apart. intros; lia.
    - intros x Hx. rewrite (source_high A (b :: B) s x) by (done || lia). by apply H4. }
  unfold do_overlap. rewrite Epos, Eend. cbn [co_buf]. rewrite at_index_middle by done. cbn [mbind option_bind].
  rewrite (proj2 (Z.eqb_eq num _)) by done. rewrite (proj2 (Z.leb_le _ size)) by done. cbn [andb negb].
  rewrite andb_false_r. cbn [mbind option_bind co_buf num_full]. rewrite (at_index_middle A (B ++ stale) b (len A)) by done. cbn [mbind option_bind].
  assert (exists simple, (if len (A ++ b :: B) <=? len A + 1 then Some true
      else next ← at_index (A ++ b :: B ++ stale) (len A + 1); Some (e <=? block_pos h (block_num next))) = Some simple /\
      (simple = true -> Forall (fun b => e <= bpos b) B)) as (simple & -> & Hsimple).
  { destruct B as [|c B].
    - rewrite (proj2 (Z.leb_le _ _)) by (rewrite length_app; cbn; lia). exists true. split; [done|]. intros _. by apply Forall_nil.
    - rewrite (proj2 (Z.leb_gt _ _)) by (rewrite length_app; cbn; lia).
      replace (A ++ b :: (c :: B) ++ stale) with ((A ++ [b]) ++ c :: B ++ stale) by by rewrite <- app_assoc.
      rewrite at_index_middle by by rewrite len_snoc. cbn [mbind option_bind]. eexists. split; [done|]. intros Hle%Z.leb_le.
      apply Forall_cons in HokB' as [Hc _]. rewrite bucket_pos in Hle by done. apply Forall_cons. split; [done|].
      apply StronglySorted_cons in HsB as [Hap _]. pose proof (bend_gt c Hc). eapply Forall_impl; [exact Hap|]. unfold apart. intros; lia. }
  cbn [mbind option_bind]. destruct simple.
  - specialize (Hsimple eq_refl). rewrite co_update_at by done. cbn [mbind option_bind]. exists true, [set_cksum ck b], B, stale. cbn [app].
    assert (len (A ++ set_cksum ck b :: B) = len (A ++ b :: B)) as -> by (rewrite !length_app; done).
    split; [done|]. split; [right; by eauto|]. split; [|split; [done|]].
    + apply Hsplit; [done..|]. intros x Hx. rewrite source_cons. cbn [source]. unfold bend. rewrite Hbs, (proj2 (Z.ltb_ge x _)) by lia. by rewrite andb_false_r.
    + eapply roomy_shrink; [exact Hr|by rewrite !length_app|done].
  - destruct (overlap_next_spec A (b :: B) stale HokB HsbB Hf) as (B1 & stale' & Hf' & Hl & E & Hl1 & H1 & H2 & H3 & H4).
    cbn [app] in E. rewrite E. cbn [mbind option_bind]. exists false, [], B1, stale'. cbn [app]. split; [done|]. split; [by left|].
    split; [by apply Hsplit|]. split; [done|].
    eapply roomy_shrink; [exact Hr|rewrite !(length_app A), Hl; done|rewrite !length_app; lia].
Qed.

(** The entry at the index is another block, or a shorter one. *)
Lemma no_overwrite A B stale : Forall (fun b => num <= block_num b) B -> free_entries stale ->
  ~ (exists b B', B = b :: B' /\ block_num b = num /\ block_size b <= size) ->
  exists b, at_index (A ++ B ++ stale) (len A) = Some b /\ (num =? block_num b) && (block_size b <=? size) = false.
Proof using Hblock Es Ee Hgeo.
  intros HnB Hf Hno. rewrite at_index_app by done. destruct B as [|b B].
  - destruct (head_free stale [] Hf) as (b & Hb & Hn). rewrite app_nil_r in Hb. exists b. split; [done|]. rewrite Hn.
    destruct Hblock. by rewrite (proj2 (Z.eqb_neq num (-1))) by lia.
  - exists b. split; [done|]. destruct (Z.eqb_spec num (block_num b)) as [Hn|]; [|done]. destruct (Z.leb_spec (block_size b) size); [|done].
    destruct Hno. by exists b, B.
Qed.

Lemma overlap_spec n A B stale ck : Forall bucket_ok (A ++ B) -> StronglySorted apart (A ++ B) ->
  Forall (fun b => block_num b < num) A -> Forall (fun b => num <= block_num b) B -> free_entries stale ->
  ~ (exists b B', B = b :: B' /\ block_num b = num /\ block_size b <= size) ->
  roomy n (mkTable (A ++ B ++ stale) (len (A ++ B))) -> 2 * n + STARTING_BUCKETS + 2 < 2 ^ 29 ->
  exists A1 B1 stale', do_overlap h (len A) num size ck (mkTable (A ++ B ++ stale) (len (A ++ B))) =
      Some (false, mkTable (A1 ++ B1 ++ stale') (len (A1 ++ B1))) /\ length A1 = length A /\
    split_at (A ++ B) s e A1 B1 /\ free_entries stale' /\ roomy (n + 1) (mkTable (A1 ++ B1 ++ stale') (len (A1 ++ B1))).
Proof using Hblock Es Ee Hgeo.
  intros Hok Hs HnA HnB Hf Hno Hr Hn. destruct block_edges as (Epos & Eend & Hse & Hmax & Hsd & Hed).
  pose proof Hok as Hok'. apply Forall_app in Hok' as [HokA HokB].
  pose proof Hs as Hs'. apply StronglySorted_app in Hs' as (HAB & HsA & HsB).
  destruct (no_overwrite A B stale HnB Hf Hno) as (b & Eb & Eo).
  assert (Forall (fun b => s <= bpos b) B) as HB'.
  { eapply Forall_impl; [exact HnB|]. intros c Hc. rewrite Es. unfold bpos. destruct Hgeo. cbn in Hc. nia. }
  unfold do_overlap. rewrite Epos, Eend. cbn [co_buf]. rewrite Eb. cbn [mbind option_bind]. rewrite Eo. cbn [negb]. rewrite andb_true_r.
  cbn [andb].
  assert (forall m l1 l2, roomy m (mkTable l1 l2) -> m <= n + 1 -> roomy (n + 1) (mkTable l1 l2)) as Hmore by (unfold roomy; intros; lia).
  destruct A as [|a0 A0] eqn:EA.
  - cbn [length Z.of_nat]. change (0 =? 0) with true. cbn [negb mbind option_bind co_buf].
    destruct (overlap_rest_spec n [] B stale HokB HsB Hf Hr) as (B1 & stale' & E & Hf' & Hr' & H1 & H2 & H3 & H4).
    exists [], B1, stale'. split; [exact E|]. split; [done|]. split; [|split; [done|by eapply Hmore; [exact Hr'|lia]]].
    split; [by apply Forall_nil|done|by apply Forall_nil|done|constructor|done| |done].
    intros x Hx. cbn. symmetry. apply source_after. eapply Forall_impl; [exact HB'|]. cbn. intros; lia.
  - rewrite <- EA in *. assert (A <> []) as HneA by by rewrite EA. clear EA a0 A0.
    destruct (exists_last HneA) as (A' & p & ->). rewrite len_snoc. rewrite (proj2 (Z.eqb_neq _ 0)) by lia. cbn [negb].
    apply Forall_app in HnA as [_ Hp]. apply Forall_cons in Hp as [Hnp _].
    pose proof HokA as HokA'. apply Forall_app in HokA' as [_ Hp]. apply Forall_cons in Hp as [Hp _].
    rewrite <- !(app_assoc A' [p]) in *. cbn [app] in *.
    destruct (overlap_previous_spec n A' p B stale ck Hp Hnp Hf Hr Hn) as (p' & Q & stale1 & E & Hf1 & Hr1 & Hp' & HQ).
    rewrite E. cbn [mbind option_bind co_buf].
    destruct (previous_split A' p p' Q B ck HokA Hs HokB HnB Hnp Hp' HQ) as (P1 & P2 & P3 & P4 & P5 & P6 & P7 & P8).
    assert (forall l, A' ++ p' :: l = (A' ++ [p']) ++ l) as Eas by (intros; by rewrite <- app_assoc).
    rewrite (Eas (Q ++ B ++ stale1)), (Eas (Q ++ B)) in Hr1 |- *. rewrite <- len_snoc with (x := p').
    assert (Forall bucket_ok (Q ++ B)) as HokQ by by apply Forall_app.
    rewrite (app_assoc Q B stale1) in Hr1 |- *.
    destruct (overlap_rest_spec (n + len Q) (A' ++ [p']) (Q ++ B) stale1 HokQ P7 Hf1 Hr1) as (B1 & stale' & E2 & Hf' & Hr' & H1 & H2 & H3 & H4).
    exists (A' ++ [p']), B1, stale'. split; [exact E2|]. split; [rewrite !length_app; done|].
    split; [|split; [done|eapply Hmore; [exact Hr'|destruct HQ as [[-> _]|[-> _]]; cbn; lia]]].
    split; try done. intros x Hx. rewrite H4 by done. by apply P8.
Qed.

(** The new entry between what is before and what is behind it. *)
Lemma coalesced_insert l A B stale offset ck : split_at l s e A B -> bsz <= offset <= jsz -> (bsz | offset) -> free_entries stale ->
  coalesced (mkTable (A ++ new_bucket num size offset ck :: B ++ stale) (len A + 1 + len B)) (A ++ new_bucket num size offset ck :: B) /\
  forall x, source (A ++ new_bucket num size offset ck :: B) x =
    if (s <=? x) && (x <? e) then Some (ring (offset + (x - s))) else source l x.
Proof using Hblock Es Ee Hgeo.
  intros [HA HB Hok1 Hok2 Hs1 Hs2 Hlow Hhigh] Ho Hal [Hne Hfree]. destruct block_edges as (_ & _ & Hse & Hmax & Hsd & Hed).
  set (nb := new_bucket num size offset ck).
  assert (bpos nb = s) as Epos by done. assert (bend nb = e) as Eend by (unfold bend; rewrite Epos, Ee; done).
  assert (bucket_ok nb) as Hnb.
  { destruct Hblock, Hgeo. split; cbn; try done; [apply ring_bound; lia|by apply ring_whole]. }
  split.
  - split.
    + exists stale. split; [|done]. rewrite <- app_assoc. f_equal. rewrite length_app. cbn. lia.
    + apply Forall_app. split; [done|by apply Forall_cons].
    + apply StronglySorted_app. split_and!; [|done|apply StronglySorted_cons; split; [|done]].
      * intros a b Ha Hb. unfold apart. pose proof (proj1 (Forall_forall _ _) HA a Ha) as Hae. cbn in Hae.
        apply elem_of_cons in Hb as [->|Hb]; [lia|]. pose proof (proj1 (Forall_forall _ _) HB b Hb) as Hbe. cbn in Hbe. lia.
      * eapply Forall_impl; [exact HB|]. unfold apart. cbn. intros. lia.
  - intros x. rewrite source_app, source_cons. cbn [source]. rewrite Epos, Eend.
    destruct (Z.leb_spec s x) as [Hsx|Hsx]; [destruct (Z.ltb_spec x e) as [Hxe|Hxe]|]; cbn [andb].
    + rewrite source_before by (eapply Forall_impl; [exact HA|]; cbn; intros; lia). f_equal. cbn [nb new_bucket jnl_offset].
      apply ring_ring; destruct Hblock, Hgeo; lia.
    + rewrite source_before by (eapply Forall_impl; [exact HA|]; cbn; intros; lia). by apply Hhigh.
    + rewrite (source_after B) by (eapply Forall_impl; [exact HB|]; cbn; intros; lia). rewrite <- Hlow by done. by destruct (source A x).
Qed.
End Block.

Lemma add_block_spec n t l num size offset ck : coalesced t l -> roomy n t -> 2 * n + STARTING_BUCKETS + 4 < 2 ^ 29 ->
  block_ok num size -> bsz <= offset <= jsz -> (bsz | offset) ->
  exists i t' l', add_block h num size offset ck t = Some (i, t') /\ 0 <= i /\ coalesced t' l' /\ roomy (n + 2) t' /\
    forall x, source l' x = if (num * bsz <=? x) && (x <? num * bsz + size) then Some (ring (offset + (x - num * bsz))) else source l x.
Proof using Hgeo.
  intros Hc Hr Hn Hbk Ho Hal. destruct (lookup_bucket_spec t l num Hc) as (A & B & E & -> & HnA & HnB).
  destruct Hc as [(stale & -> & Hne & Hfree) Hok Hs]. unfold add_block. rewrite E. cbn [mbind option_bind num_full].
  rewrite (proj2 (Z.ltb_ge _ 0)), (proj2 (Z.ltb_ge _ (len A))) by (rewrite ?length_app; lia). cbn [orb].
  assert (free_entries stale) as Hf by done. clear Hne Hfree. rewrite <- app_assoc in *.
  set (s := num * bsz) in *. set (e := s + size).
  assert (0 < size <= UINT32_MAX /\ bsz <= offset < jsz + (jsz - bsz)) as [Hsz Ho2] by (destruct Hbk, Hgeo; unfold UINT32_MAX; lia).
  assert ((exists b B', B = b :: B' /\ block_num b = num /\ block_size b <= size) \/
    ~ (exists b B', B = b :: B' /\ block_num b = num /\ block_size b <= size)) as [(b & B' & -> & Hnum & Hle)|Hno].
  { destruct B as [|b B]; [right; intros (? & ? & ? & _); done|].
    destruct (decide (block_num b = num /\ block_size b <= size)) as [[? ?]|Hn']; [left; eauto|right]. intros (? & ? & [= <- <-] & ?). done. }
  - destruct (overwrite_spec num size s e Hbk eq_refl eq_refl n A b B' stale ck Hok Hs Hnum Hle Hf Hr) as (over & o & B1 & stale' & E2 & Hcase & Hsp & Hf' & Hr').
    cbn [app]. rewrite E2. cbn [mbind option_bind]. destruct Hcase as [[-> ->]|[-> [b' ->]]]; cbn [app] in *.
    + destruct (insert_block_new n A B1 stale' num size offset ck Hf' Hr' ltac:(lia) Hsz Ho2) as (stale2 & E3 & Hf2 & Hr2).
      destruct (coalesced_insert num size s e Hbk eq_refl eq_refl _ A B1 stale2 offset ck Hsp Ho Hal Hf2) as [Hc' Hsrc].
      eexists _, _, _. split; [exact E3|]. split; [lia|]. split; [|split; [|exact Hsrc]].
      * replace (len (A ++ B1) + 1) with (len A + 1 + len B1) by (rewrite length_app; lia). exact Hc'.
      * unfold roomy in *. lia.
    + destruct (coalesced_insert num size s e Hbk eq_refl eq_refl _ A B1 stale' offset ck Hsp Ho Hal Hf') as [Hc' Hsrc].
      eexists _, _, _. split; [by apply insert_block_over|]. split; [lia|]. split; [|split; [|exact Hsrc]].
      * replace (len (A ++ b' :: B1)) with (len A + 1 + len B1) by (rewrite length_app; cbn; lia). exact Hc'.
      * assert (roomy (n + 2) (mkTable (A ++ b' :: B1 ++ stale') (len (A ++ b' :: B1)))) as Hmore by (unfold roomy in *; lia).
        eapply roomy_shrink; [exact Hmore|by rewrite !length_app|done].
  - destruct (overlap_spec num size s e Hbk eq_refl eq_refl n A B stale ck Hok Hs HnA HnB Hf Hno Hr ltac:(lia)) as (A1 & B1 & stale1 & E2 & Hl & Hsp & Hf1 & Hr1).
    rewrite E2. cbn [mbind option_bind]. rewrite <- Hl.
    destruct (insert_block_new (n + 1) A1 B1 stale1 num size offset ck Hf1 Hr1 ltac:(lia) Hsz Ho2) as (stale2 & E3 & Hf2 & Hr2).
    destruct (coalesced_insert num size s e Hbk eq_refl eq_refl _ A1 B1 stale2 offset ck Hsp Ho Hal Hf2) as [Hc' Hsrc].
    eexists _, _, _. split; [exact E3|]. split; [lia|]. split; [|split; [|exact Hsrc]].
    * replace (len (A1 ++ B1) + 1) with (len A1 + 1 + len B1) by (rewrite length_app; lia). exact Hc'.
    * replace (n + 2) with (n + 1 + 1) by lia. exact Hr2.
Qed.
End Coalesce.
