(* ===== verification/JournalReplay.v ===== *)
(** * Replaying the journal (core/hfs_journal.c)

    When a volume is mounted that was not unmounted, the blocks that the journal holds are
    written to the file system.  replay_journal reads the block list headers one after the
    other, checks them and puts their blocks in the table of JournalCoalesce; past the end
    that the journal header tells it goes on as long as there are valid headers in
    sequence.  Then it writes the blocks and makes the journal empty.

    The structures are in memory as they are on disk.  A union of a checksum and a
    sequence number is its 32 bits.  What a turn of the loop does is [replay_turn]; its
    gotos are the constructors of [turn_result]. *)

From S2P Require Import Prelude HfsFormat Bytes JournalIO JournalCoalesce.

Definition BLHDR_CHECKSUM_SIZE : Z := 32.
Definition BLHDR_CHECK_CHECKSUMS : Z := 1.
Definition BLHDR_FIRST_HEADER : Z := 2.

(** ** Block list headers *)

Record block_info := mkBinfo {
  bnum : Z;
  bsize : Z;
  bi_word : Z;          (* cksum or sequence_num *)
}.

Record block_list_header := mkBlhdr {
  max_blocks : Z;
  num_blocks : Z;
  bytes_used : Z;
  bl_checksum : Z;
  bl_flags : Z;
  binfo : list block_info;
}.

Definition ld_word (n : nat) (b : bytes) (off : Z) : option Z := le_value <$> get_bytes b off (Z.of_nat n).

Fixpoint load_binfo (b : bytes) (off : Z) (n : nat) : option (list block_info) :=
  match n with
  | O => Some []
  | S n =>
      num ← ld_word 8 b off;
      size ← ld_word 4 b (off + 8);
      word ← ld_word 4 b (off + 12);
      rest ← load_binfo b (off + 16) n;
      Some (mkBinfo (s64 num) (s32 size) word :: rest)
  end.

(** The structure at the start of a buffer, with [n] entries. *)
Definition load_blhdr (b : bytes) (n : nat) : option block_list_header :=
  max ← ld_word 2 b 0;
  num ← ld_word 2 b 2;
  used ← ld_word 4 b 4;
  cksum ← ld_word 4 b 8;
  flags ← ld_word 4 b 12;
  info ← load_binfo b 16 n;
  Some (mkBlhdr max num (s32 used) cksum (s32 flags) info).

(** The bytes of an integer in the other order. *)
Definition swap_bytes (n : nat) (x : Z) : Z := le_value (rev (le_bytes n x)).
Definition SWAP16 (x : Z) : Z := swap_bytes 2 x.
Definition SWAP32 (x : Z) : Z := swap_bytes 4 x.
Definition SWAP64 (x : Z) : Z := swap_bytes 8 x.

Definition swap_journal_header (h : journal_header) : journal_header :=
  mkJhdr (s32 (SWAP32 (magic h))) (s32 (SWAP32 (endian h))) (s64 (SWAP64 (jh_start h))) (s64 (SWAP64 (jh_end h)))
    (s64 (SWAP64 (jh_size h))) (s32 (SWAP32 (blhdr_size h))) (SWAP32 (jh_checksum h)) (s32 (SWAP32 (jhdr_size h)))
    (SWAP32 (jh_sequence_num h)).

Definition swap_block_info (b : block_info) : block_info :=
  mkBinfo (s64 (SWAP64 (bnum b))) (s32 (SWAP32 (bsize b))) (SWAP32 (bi_word b)).

Definition swap_block_list_header (h : journal_header) (b : block_list_header) : block_list_header :=
  let num := SWAP16 (num_blocks b) in
  let info := if journal_max_blocks h <=? num then binfo b
              else (swap_block_info <$> take (Z.to_nat num) (binfo b)) ++ drop (Z.to_nat num) (binfo b) in
  mkBlhdr (SWAP16 (max_blocks b)) num (s32 (SWAP32 (bytes_used b))) (SWAP32 (bl_checksum b)) (s32 (SWAP32 (bl_flags b))) info.

(** The header in a buffer of [blhdr_size] bytes, and whether its checksum is right. *)
Definition decode_blhdr (j : journal) (buff : bytes) : option (block_list_header * bool) :=
  if negb (blhdr_size (jhdr j) mod 16 =? 0) then None else
  let entries := Z.to_nat (journal_max_blocks (jhdr j)) in
  blhdr ← load_blhdr buff entries;
  zeroed ← put_bytes buff 8 (le_bytes 4 0);
  sum ← get_bytes zeroed 0 BLHDR_CHECKSUM_SIZE;
  let checksum := calc_checksum sum in
  blhdr0 ← load_blhdr zeroed entries;
  if ISSETJ j JOURNAL_NEED_SWAP
  then Some (swap_block_list_header (jhdr j) blhdr0, checksum =? SWAP32 (bl_checksum blhdr))
  else Some (blhdr0, checksum =? bl_checksum blhdr).

(** ** The state of the loop *)

Record replay := mkReplay {
  rp_jnl : journal;
  rp_table : cotable;
  check_past_jnl_end : bool;
  in_uncharted_territory : bool;
  last_sequence_num : Z;
  txn_start_offset : Z;
  check_block_checksums : bool;
  rp_block_ptr : option Z;        (* the size of the buffer, when there is one *)
  replay_retry_count : Z;
}.

Definition rp_set_jnl (j : journal) (r : replay) : replay :=
  mkReplay j (rp_table r) (check_past_jnl_end r) (in_uncharted_territory r) (last_sequence_num r) (txn_start_offset r)
    (check_block_checksums r) (rp_block_ptr r) (replay_retry_count r).
Definition rp_set_table (t : cotable) (r : replay) : replay :=
  mkReplay (rp_jnl r) t (check_past_jnl_end r) (in_uncharted_territory r) (last_sequence_num r) (txn_start_offset r)
    (check_block_checksums r) (rp_block_ptr r) (replay_retry_count r).
Definition rp_set_check_past (b : bool) (r : replay) : replay :=
  mkReplay (rp_jnl r) (rp_table r) b (in_uncharted_territory r) (last_sequence_num r) (txn_start_offset r)
    (check_block_checksums r) (rp_block_ptr r) (replay_retry_count r).
Definition rp_set_uncharted (b : bool) (r : replay) : replay :=
  mkReplay (rp_jnl r) (rp_table r) (check_past_jnl_end r) b (last_sequence_num r) (txn_start_offset r)
    (check_block_checksums r) (rp_block_ptr r) (replay_retry_count r).
Definition rp_set_sequence (n : Z) (r : replay) : replay :=
  mkReplay (rp_jnl r) (rp_table r) (check_past_jnl_end r) (in_uncharted_territory r) n (txn_start_offset r)
    (check_block_checksums r) (rp_block_ptr r) (replay_retry_count r).
Definition rp_set_txn (off : Z) (r : replay) : replay :=
  mkReplay (rp_jnl r) (rp_table r) (check_past_jnl_end r) (in_uncharted_territory r) (last_sequence_num r) off
    (check_block_checksums r) (rp_block_ptr r) (replay_retry_count r).
Definition rp_set_check (b : bool) (p : option Z) (r : replay) : replay :=
  mkReplay (rp_jnl r) (rp_table r) (check_past_jnl_end r) (in_uncharted_territory r) (last_sequence_num r) (txn_start_offset r)
    b p (replay_retry_count r).
Definition rp_set_retry (n : Z) (r : replay) : replay :=
  mkReplay (rp_jnl r) (rp_table r) (check_past_jnl_end r) (in_uncharted_territory r) (last_sequence_num r) (txn_start_offset r)
    (check_block_checksums r) (rp_block_ptr r) n.

(** The start and the end that the journal header in memory has. *)
Definition rp_set_range (start end_ : Z) (r : replay) : replay :=
  rp_set_jnl (with_jhdr (set_range start end_ (jhdr (rp_jnl r))) (rp_jnl r)) r.

(** The loop goes on, or the replay is given up. *)
Inductive turn_result :=
| TurnNext (r : replay)
| TurnBad (r : replay).      (* goto bad_replay *)

(** The label restart_replay. *)
Definition clear_table (t : cotable) : cotable := mkTable (set_num (-1) <$> co_buf t) 0.

(** The label bad_txn_handling: the transactions before the one that is bad are replayed
    again, from the start. *)
Definition bad_txn_handling (orig_jnl_start : Z) (r : replay) : turn_result :=
  if txn_start_offset r =? 0 then TurnBad r else
  if replay_retry_count r =? 3 then TurnBad r else
  TurnNext (rp_set_table (clear_table (rp_table r)) (rp_set_sequence 0 (rp_set_check_past false
    (rp_set_range orig_jnl_start (txn_start_offset r) (rp_set_retry (replay_retry_count r + 1) r))))).

(** ** The blocks of a header *)

(** The size of the largest block from entry [i] on, or nothing if a number is bad. *)
Fixpoint largest_block (info : list block_info) (i max_bsize : Z) (n : nat) : option (option Z) :=
  match n with
  | O => Some (Some max_bsize)
  | S n =>
      b ← at_index info i;
      if (bnum b <? 0) && negb (bnum b =? -1) then Some None
      else largest_block info (i + 1) (if max_bsize <? u64 (bsize b) then u64 (bsize b) else max_bsize) n
  end.

Inductive add_result :=
| AddDone (offset : Z) (r : replay)
| AddBadTxn (r : replay)
| AddBad (r : replay).

(** Whether the data of the block at [offset] has the checksum: it is read into
    [block_ptr], which must be there. *)
Definition check_block (r : replay) (offset size cksum : Z) : option (bool * replay) :=
  n ← rp_block_ptr r;
  '(ret, _, data, j) ← read_journal_data (rp_jnl r) offset (replicate (Z.to_nat n) 0) (u64 size);
  let r := rp_set_jnl j r in
  if negb (ret =? u64 size) then Some (false, r) else
  data ← get_bytes data 0 size;
  Some ((cksum =? 0) || (calc_checksum data =? cksum), r).

(** The [n] entries from [i] on, with their data from [offset] on. *)
Fixpoint add_blocks (info : list block_info) (i offset : Z) (r : replay) (n : nat) : option add_result :=
  match n with
  | O => Some (AddDone offset r)
  | S n =>
      b ← at_index info i;
      if bsize b =? 0 then Some (AddBadTxn r) else
      let next r :=
        let h := jhdr (rp_jnl r) in
        let offset := s64 (offset + bsize b) in
        add_blocks info (i + 1) (if jh_size h <=? offset then jhdr_size h + (offset - jh_size h) else offset) r n in
      if bnum b =? -1 then next r else
      '(good, r) ← (if check_block_checksums r then check_block r offset (bsize b) (bi_word b) else Some (true, r));
      if negb good then Some (AddBadTxn r) else
      '(ret_val, t) ← add_block (jhdr (rp_jnl r)) (bnum b) (u64 (bsize b)) (u64 offset) (bi_word b) (rp_table r);
      let r := rp_set_table t r in
      if ret_val =? -1 then Some (AddBad r) else next r
  end.

(** ** A turn of the loop *)

(** The header is good and in sequence. *)
Definition replay_header (orig_jnl_start blhdr_offset offset : Z) (blhdr : block_list_header) (r : replay) : option turn_result :=
  let h := jhdr (rp_jnl r) in
  if (jh_end h <=? blhdr_offset) && (jh_start h <=? jh_end h) && (last_sequence_num r =? 0) then
    Some (TurnNext (rp_set_range (jh_end h) (jh_end h) (rp_set_check_past false r)))
  else
  if (max_blocks blhdr <=? 0) || (jh_size h / jhdr_size h <? max_blocks blhdr) || (num_blocks blhdr <=? 0) || (max_blocks blhdr <? num_blocks blhdr)
  then Some (bad_txn_handling orig_jnl_start r) else
  max_bsize ← largest_block (binfo blhdr) 1 0 (Z.to_nat (num_blocks blhdr - 1));
  match max_bsize with
  | None => Some (bad_txn_handling orig_jnl_start r)
  | Some max_bsize =>
      let r := if negb (Z.land (bl_flags blhdr) BLHDR_CHECK_CHECKSUMS =? 0) then rp_set_check true (Some max_bsize) r
               else rp_set_check (check_block_checksums r) None r in
      let r := if negb (Z.land (bl_flags blhdr) BLHDR_FIRST_HEADER =? 0) then rp_set_txn blhdr_offset r else r in
      added ← add_blocks (binfo blhdr) 1 offset r (Z.to_nat (num_blocks blhdr - 1));
      match added with
      | AddBad r => Some (TurnBad r)
      | AddBadTxn r => Some (bad_txn_handling orig_jnl_start r)
      | AddDone _ r =>
          let r := rp_set_check (check_block_checksums r) None r in
          let h := jhdr (rp_jnl r) in
          let start := s64 (jh_start h + bytes_used blhdr) in
          let start := if jh_size h <=? start then Z.rem start (jh_size h) + jhdr_size h else start in
          let r := rp_set_range start (jh_end h) r in
          Some (TurnNext (if start =? jh_end h then rp_set_uncharted true r else r))
      end
  end.

Definition out_of_sequence (last seq : Z) : bool :=
  negb (last =? 0) && negb (seq =? 0) && negb (seq =? last) && negb (seq =? u32 (last + 1)).

Definition replay_turn (orig_jnl_start : Z) (r : replay) : option turn_result :=
  let h := jhdr (rp_jnl r) in
  let blhdr_offset := jh_start h in
  '(ret, offset, data_buff, j) ← read_journal_data (rp_jnl r) blhdr_offset (replicate (Z.to_nat (blhdr_size h)) 0) (blhdr_size h);
  let r := rp_set_jnl j r in
  if negb (ret =? blhdr_size h) then Some (bad_txn_handling orig_jnl_start r) else
  '(blhdr, good) ← decode_blhdr j data_buff;
  if negb good then
    if check_past_jnl_end r && in_uncharted_territory r then
      Some (TurnNext (rp_set_range blhdr_offset blhdr_offset (rp_set_check_past false r)))
    else if blhdr_offset =? orig_jnl_start then Some (TurnBad r)
    else Some (bad_txn_handling orig_jnl_start r)
  else
  first ← at_index (binfo blhdr) 0;
  let seq := bi_word first in
  if out_of_sequence (last_sequence_num r) seq then
    let past := check_past_jnl_end r in
    let r := rp_set_txn blhdr_offset (rp_set_range (jh_start h) blhdr_offset r) in
    if past then Some (TurnNext (rp_set_check_past false r))
    else Some (bad_txn_handling orig_jnl_start r)
  else replay_header orig_jnl_start blhdr_offset offset blhdr (rp_set_sequence seq r).

(** The loop: the replay is given up, or all headers are read. *)
Fixpoint replay_loop (orig_jnl_start : Z) (r : replay) (fuel : nat) : option (bool * replay) :=
  match fuel with
  | O => None
  | S fuel =>
      let h := jhdr (rp_jnl r) in
      if check_past_jnl_end r || negb (jh_start h =? jh_end h) then
        turn ← replay_turn orig_jnl_start r;
        match turn with
        | TurnNext r => replay_loop orig_jnl_start r fuel
        | TurnBad r => Some (false, r)
        end
      else Some (true, r)
  end.

(** ** Writing the blocks *)

Section PageSize.
Variable PAGE_SIZE : Z.

(** The size of the buffer for the blocks: the largest block of the table, whole pages. *)
Definition replay_bsize (t : cotable) : Z :=
  let max_bsize := foldl (fun m b => if block_num b =? -1 then m else if m <? block_size b then block_size b else m)
                     PAGE_SIZE (take (Z.to_nat (num_full t)) (co_buf t)) in
  if negb (Z.land max_bsize (PAGE_SIZE - 1) =? 0) then Z.land (max_bsize + PAGE_SIZE) (Z.lnot (PAGE_SIZE - 1)) else max_bsize.

(** The entries of the table from [i] on: whether all could be written. *)
Fixpoint replay_blocks (bufsize : Z) (j : journal) (t : cotable) (i : Z) (n : nat) : option (bool * journal) :=
  match n with
  | O => Some (true, j)
  | S n =>
      b ← at_index (co_buf t) i;
      if block_num b =? -1 then replay_blocks bufsize j t (i + 1) n else
      '(ret, _, data, j) ← read_journal_data j (jnl_offset b) (replicate (Z.to_nat bufsize) 0) (block_size b);
      if negb (ret =? block_size b) then Some (false, j) else
      '(err, j) ← update_fs_block j data (block_num b) (block_size b);
      if negb (err =? 0) then Some (false, j) else replay_blocks bufsize j t (i + 1) n
  end.

Definition replay_finish (r : replay) : option (Z * journal) :=
  let j := rp_jnl r in
  let h := jhdr j in
  let j := if negb (jh_start h =? jh_end h) then with_jhdr (set_range (jh_start h) (jh_start h) h) j else j in
  let t := rp_table r in
  '(good, j) ← replay_blocks (replay_bsize t) j t 0 (Z.to_nat (num_full t));
  if negb good then Some (-1, j) else
  '(err, j) ← write_journal_header true (jh_sequence_num (jhdr j)) j;
  Some (if negb (err =? 0) then -1 else 0, j).

(** The start and the end are not at the very end of the journal. *)
Definition wrap_range (h : journal_header) : journal_header :=
  set_range (if jh_start h =? jh_size h then jhdr_size h else jh_start h) (if jh_end h =? jh_size h then jhdr_size h else jh_end h) h.

Definition replay_journal (j : journal) (fuel : nat) : option (Z * journal) :=
  let h := wrap_range (jhdr j) in
  let j := with_jhdr h j in
  if jh_start h =? jh_end h then Some (0, j) else
  '(good, r) ← replay_loop (jh_start h) (mkReplay j empty_table true false 0 0 false None 0) fuel;
  if negb good then Some (-1, rp_jnl r) else replay_finish r.

End PageSize.
