(* ===== verification/JournalIOProps.v ===== *)
(** * Reading the journal (core/hfs_journal.c)

    Reading from the journal gives the bytes of its ring, in however many requests and
    wherever the end of the journal is: [log_bytes] are the bytes from a position on. *)

From S2P Require Import Prelude HfsFormat Bytes JournalIO JournalCoalesce CoalesceProps.

(** A journal on its device; requests are for whole blocks, or larger than the journal. *)
Record device_ok (j : journal) : Prop := {
  dv_geometry : geometry_ok (jhdr j);
  dv_offset : 0 <= jdev_offset j <= 2 ^ 62;
  dv_aligned : (jhdr_size (jhdr j) | jdev_offset j);
  dv_inside : jdev_offset j + jh_size (jhdr j) <= len (jdev j);
  dv_read : 0 < max_read_size j;
  dv_requests : (jhdr_size (jhdr j) | max_read_size j) \/ jh_size (jhdr j) <= max_read_size j;
}.

Section Read.
Variable j : journal.
Hypothesis Hdev : device_ok j.
Notation h := (jhdr j).
Notation bsz := (jhdr_size h).
Notation jsz := (jh_size h).

Definition at_journal (p : Z) : Z := default 0 (jdev j !! Z.to_nat (jdev_offset j + p)).

(** The [n] bytes of the ring from [off] on. *)
Definition log_bytes (off n : Z) : bytes := (fun k => at_journal (ring h (off + k))) <$> seqZ 0 n.

Lemma length_log_bytes off n : 0 <= n -> len (log_bytes off n) = n.
Proof. intros. unfold log_bytes. rewrite length_fmap, length_seqZ. lia. Qed.

Lemma log_bytes_app off a b : bsz <= off <= jsz -> 0 <= a -> 0 <= b -> a + b <= jsz - bsz ->
  log_bytes off (a + b) = log_bytes off a ++ log_bytes (ring h (off + a)) b.
Proof.
  intros Ho Ha Hb Hab. unfold log_bytes. rewrite seqZ_app by lia. rewrite fmap_app. f_equal.
  replace (0 + a) with a by lia. apply list_eq. intros i. rewrite !list_lookup_fmap.
  destruct (decide (Z.of_nat i < b)) as [Hi|Hi].
  - rewrite !lookup_seqZ_lt by lia. cbn. f_equal. f_equal.
    destruct Hdev as [Hg _ _ _ _ _]. rewrite (ring_ring h Hg) by lia. f_equal. lia.
  - rewrite !lookup_seqZ_ge by lia. done.
Qed.

(** Up to the end of the journal the bytes are next to each other on the device. *)
Lemma log_bytes_device o c : 0 <= o -> 0 <= c -> o + c <= jsz -> get_bytes (jdev j) (jdev_offset j + o) c = Some (log_bytes o c).
Proof.
  intros Ho Hc Hend. destruct Hdev as [[Hg1 Hg2 _] Hoff _ Hin _ _]. unfold get_bytes.
  rewrite (proj2 (Z.leb_le 0 (jdev_offset j + o))), (proj2 (Z.leb_le 0 c)), (proj2 (Z.leb_le (jdev_offset j + o + c) _)) by lia. cbn [andb]. f_equal.
  apply list_eq. intros i. unfold log_bytes. rewrite list_lookup_fmap.
  destruct (decide (Z.of_nat i < c)) as [Hi|Hi].
  - rewrite lookup_take_lt by lia. rewrite lookup_drop, lookup_seqZ_lt by lia. cbn. unfold at_journal, ring.
    rewrite (proj2 (Z.leb_gt _ _)) by lia.
    destruct (lookup_lt_is_Some_2 (jdev j) (Z.to_nat (jdev_offset j + o) + i)) as [x Hx]; [lia|].
    rewrite Hx. replace (Z.to_nat (jdev_offset j + (o + (0 + Z.of_nat i)))) with (Z.to_nat (jdev_offset j + o) + i)%nat by lia. by rewrite Hx.
  - rewrite lookup_take_ge by lia. by rewrite lookup_seqZ_ge by lia.
Qed.

Lemma put_bytes_front (X buf Y : bytes) k : k = len X -> (length Y <= length buf)%nat ->
  put_bytes (X ++ buf) k Y = Some (X ++ Y ++ drop (length Y) buf).
Proof.
  intros -> Hl. unfold put_bytes. rewrite (proj2 (Z.leb_le 0 _)), (proj2 (Z.leb_le _ _)) by (rewrite ?length_app; lia). cbn [andb].
  rewrite Nat2Z.id, take_app_length, drop_app_add. done.
Qed.

(** One request that does not go past the end. *)
Lemma strategy_read o c k (X buf : bytes) : jdev_io j = [] -> 0 < o -> (bsz | o) -> 0 <= c -> o + c <= jsz ->
  k = len X -> c <= len buf ->
  strategy JNL_READ j (Z.quot (s64 (jdev_offset j + o)) bsz) (X ++ buf) k c =
    Some (Some (X ++ log_bytes o c ++ drop (Z.to_nat c) buf), j).
Proof.
  intros Hio Ho Hal Hc Hend -> Hbuf. destruct Hdev as [[Hg1 Hg2 Hg3] Hoff Hda Hin _ _].
  unfold strategy, next_io. rewrite Hio. change (negb (0 =? 0)) with false. cbn match.
  rewrite s64_id by (unfold INT64_MAX; lia). rewrite Z.quot_div_nonneg by lia.
  rewrite (divide_pos bsz) by (done || by apply Z.divide_add_r).
  rewrite log_bytes_device by lia. pose proof (length_log_bytes o c Hc).
  rewrite put_bytes_front by lia. cbn [mbind option_bind]. by replace (Z.to_nat c) with (length (log_bytes o c)) by lia.
Qed.

(** Where a read ends. *)
Definition ends_at (off off' : Z) : Prop := bsz <= off' <= jsz /\ (off < jsz + (jsz - bsz) -> ring h off' = ring h off).

(** A request of at most [m] bytes is up to the end of the journal, or of whole blocks. *)
Lemma request_fits m o curlen : 0 < m -> (bsz | m) \/ jsz <= m -> 0 < curlen -> bsz <= o <= jsz -> (bsz | o) -> curlen <= jsz - bsz ->
  let past := (jsz <? s64 (o + curlen)) && negb (o =? 0) && negb (jsz =? 0) in
  let c := if past && negb (o =? jsz) then jsz - o else curlen in
  let o' := if past && (o =? jsz) then bsz else o in
  let c := if m <? c then m else c in
  o' = ring h o /\ 0 < c <= curlen /\ o' + c <= jsz /\ (c = curlen \/ (bsz | c)).
Proof.
  intros Hm1 Hm2 Hc Ho Hal Hfit. destruct Hdev as [[Hg1 Hg2 Hg3] _ _ _ _ _]. cbv zeta.
  rewrite s64_id by (unfold INT64_MAX; lia). rewrite (proj2 (Z.eqb_neq o 0)), (proj2 (Z.eqb_neq jsz 0)) by lia. cbn [negb]. rewrite !andb_true_r.
  assert ((bsz | jsz - o)) as Hd by by apply Z.divide_sub_r.
  unfold ring. destruct (Z.ltb_spec jsz (o + curlen)), (Z.eqb_spec o jsz) as [->|]; cbn [andb negb].
  - rewrite Z.leb_refl. replace (jsz - jsz + bsz) with bsz by lia. split; [done|].
    destruct (Z.ltb_spec m curlen); (split; [lia|]; split; [lia|]); [right; destruct Hm2; [done|lia]|by left].
  - rewrite (proj2 (Z.leb_gt _ _)) by lia. split; [done|].
    destruct (Z.ltb_spec m (jsz - o)); (split; [lia|]; split; [lia|]); [right; destruct Hm2; [done|lia]|by right].
  - lia.
  - rewrite (proj2 (Z.leb_gt _ _)) by lia. split; [done|].
    destruct (Z.ltb_spec m curlen); (split; [lia|]; split; [lia|]); [right; destruct Hm2; [done|lia]|by left].
Qed.

Lemma ring_end p : bsz <= p <= jsz -> ring h (if jsz <=? p then bsz else p) = ring h p.
Proof.
  intros Hp. destruct Hdev as [[Hg1 Hg2 _] _ _ _ _ _]. unfold ring.
  destruct (Z.leb_spec jsz p); [rewrite (proj2 (Z.leb_gt jsz bsz)) by lia|rewrite (proj2 (Z.leb_gt jsz p)) by lia]; lia.
Qed.

Lemma journal_io_loop_read off n : jdev_io j = [] -> bsz <= off <= jsz -> (bsz | off) -> n <= jsz - bsz -> forall fuel o k buf,
  0 <= k < n -> bsz <= o <= jsz -> (bsz | o) -> ring h o = ring h (off + k) -> n - k <= len buf -> (Z.to_nat (n - k) < fuel)%nat ->
  exists off', journal_io_loop JNL_READ false (max_read_size j) n j o (n - k) k (log_bytes off k ++ buf) fuel =
    Some (n, off', log_bytes off n ++ drop (Z.to_nat (n - k)) buf, j) /\ ends_at (off + n) off'.
Proof.
  intros Hio Hoff Hal Hn. induction fuel as [|fuel IH]; intros o k buf Hk Ho Hoal Hring Hbuf Hf; [lia|]. cbn [journal_io_loop].
  pose proof Hdev as [Hg _ _ _ _ _]. pose proof Hg as [Hg1 Hg2 Hg3].
  pose proof (request_fits (max_read_size j) o (n - k) (dv_read _ Hdev) (dv_requests _ Hdev) ltac:(lia) Ho Hoal ltac:(lia)) as Hreq. cbv zeta in Hreq.
  set (past := (jsz <? s64 (o + (n - k))) && negb (o =? 0) && negb (jsz =? 0)) in *. clearbody past.
  set (o' := if past && (o =? jsz) then bsz else o) in *. clearbody o'.
  set (c0 := if past && negb (o =? jsz) then jsz - o else n - k) in *. clearbody c0.
  set (c := if max_read_size j <? c0 then max_read_size j else c0) in *. clearbody c. clear c0.
  destruct Hreq as (-> & Hc & Hend & Hwhole).
  assert (bsz <= ring h o < jsz) as Hr by (apply (ring_bound h Hg); lia).
  assert ((bsz | ring h o)) as Hral by by apply (ring_whole h Hg).
  rewrite (proj2 (Z.leb_gt c 0)), (proj2 (Z.eqb_neq (ring h o) 0)), (proj2 (Z.eqb_neq bsz 0)) by lia. cbn [andb].
  assert (k = len (log_bytes off k)) as Hlk by (rewrite length_log_bytes; lia).
  rewrite (strategy_read (ring h o) c k) by (done || lia). cbn [mbind option_bind].
  rewrite s64_id by (unfold INT64_MAX; lia).
  assert (log_bytes off k ++ log_bytes (ring h o) c = log_bytes off (k + c)) as Happ.
  { rewrite Hring. symmetry. apply log_bytes_app; lia. }
  rewrite app_assoc, Happ.
  destruct (Z.eqb_spec (k + c) n) as [Heq|Hne]; cbn [negb].
  - exists (ring h o + c). rewrite Heq. replace (Z.to_nat c) with (Z.to_nat (n - k)) by lia. split; [done|].
    split; [lia|]. intros Hlt. rewrite Hring. rewrite (ring_ring h Hg) by lia. f_equal. lia.
  - assert ((bsz | c)) as Hcal by (destruct Hwhole as [->|]; [lia|done]).
    destruct (IH (if jsz <=? ring h o + c then bsz else ring h o + c) (k + c) (drop (Z.to_nat c) buf)) as (off' & E & He).
    + lia.
    + destruct (Z.leb_spec jsz (ring h o + c)); lia.
    + destruct (Z.leb_spec jsz (ring h o + c)); [apply Z.divide_refl|by apply Z.divide_add_r].
    + assert (ring h (if jsz <=? ring h o + c then bsz else ring h o + c) = ring h (ring h o + c)) as ->.
      { apply ring_end; lia. }
      rewrite Hring, (ring_ring h Hg) by lia. f_equal. lia.
    + rewrite length_drop. lia.
    + lia.
    + exists off'. replace (n - k - c) with (n - (k + c)) by lia. replace (n - (k + c)) with (n - (k + c)) in E by lia. rewrite E. split; [|done].
      rewrite drop_drop. do 5 f_equal. lia.
Qed.

Lemma read_journal_data_ok off n buf : jdev_io j = [] -> bsz <= off <= jsz -> (bsz | off) -> 0 < n <= jsz - bsz -> n <= len buf ->
  exists off', read_journal_data j off buf n = Some (n, off', log_bytes off n ++ drop (Z.to_nat n) buf, j) /\ ends_at (off + n) off'.
Proof.
  intros Hio Ho Hal Hn Hbuf. unfold read_journal_data, do_journal_io. pose proof Hdev as [[Hg1 Hg2 _] _ _ _ _ _].
  rewrite (proj2 (Z.ltb_ge off 0)), (proj2 (Z.ltb_ge jsz off)) by lia. cbn [orb].
  destruct (journal_io_loop_read off n Hio Ho Hal ltac:(lia) (S (Z.to_nat n)) off 0 buf) as (off' & E & He); try lia; [done|by rewrite Z.add_0_r|].
  exists off'. rewrite Z.sub_0_r in E. split; [|done]. exact E.
Qed.
End Read.

(** ** The header *)

(** The buffer of the header has its block, and a request can be as large. *)
Record header_buffer_ok (j : journal) : Prop := {
  hb_size : jhdr_size (jhdr j) <= len (header_bytes (jhdr j) ++ header_rest j);
  hb_write : jhdr_size (jhdr j) <= max_write_size j;
}.

Lemma length_header_bytes h : len (header_bytes h) = 48.
Proof. unfold header_bytes. rewrite !length_app, !length_le_bytes. reflexivity. Qed.

(** The block that the header is. *)
Definition header_block (h : journal_header) (rest : bytes) : bytes := take (Z.to_nat (jhdr_size h)) (header_bytes h ++ rest).

Lemma length_header_block h j : header_buffer_ok j -> 0 < jhdr_size h -> jhdr_size h = jhdr_size (jhdr j) -> len (header_block h (header_rest j)) = jhdr_size h.
Proof.
  intros [Hb _] Hpos E. unfold header_block. rewrite length_take. rewrite length_app in *. pose proof (length_header_bytes h). pose proof (length_header_bytes (jhdr j)). lia.
Qed.

(** Flushing a device without errors counts. *)
Lemma flush_before_ok u j : jdev_io j = [] -> exists n, flush_before u j = with_flush (jn_flags j) (last_flush_err j) n j.
Proof.
  intros Hio. assert (j = with_flush (jn_flags j) (last_flush_err j) (flush_counter j) j) as E by by destruct j.
  unfold flush_before. destruct (_ && _); [|by eexists]. unfold flush_device. destruct (_ || _); unfold next_io; cbn [with_flush jdev_io]; rewrite Hio; by eexists.
Qed.

Lemma flush_after_ok u j : jdev_io j = [] -> exists n, flush_after u j = with_flush (jn_flags j) (last_flush_err j) n j.
Proof.
  intros Hio. assert (j = with_flush (jn_flags j) (last_flush_err j) (flush_counter j) j) as E by by destruct j.
  unfold flush_after. destruct (_ && _); [|by eexists]. unfold flush_device. destruct (_ || _); unfold next_io; cbn [with_flush jdev_io]; rewrite Hio; by eexists.
Qed.

(** A journal whose header was written. *)
Record header_written (seq : Z) (j j' : journal) : Prop := {
  hw_journal : exists d n, j' = with_flush (jn_flags j) (last_flush_err j) n (with_jdev d (with_jhdr (stamp_header seq (jhdr j)) j));
  hw_block : put_bytes (jdev j) (jdev_offset j) (header_block (stamp_header seq (jhdr j)) (header_rest j)) = Some (jdev j');
}.

Lemma write_journal_header_ok u seq j : device_ok j -> jdev_io j = [] -> header_buffer_ok j ->
  exists j', write_journal_header u seq j = Some (0, j') /\ header_written seq j j'.
Proof.
  intros Hdev Hio Hbuf. pose proof Hdev as [[Hg1 Hg2 Hg3] Hoff Hda Hin _ _]. pose proof Hbuf as [Hb1 Hb2].
  destruct (flush_before_ok u j Hio) as [n1 E1]. unfold write_journal_header. rewrite E1.
  change (jhdr (with_flush (jn_flags j) (last_flush_err j) n1 j)) with (jhdr j). set (h' := stamp_header seq (jhdr j)).
  set (j1 := with_jhdr h' _). change (header_rest j1) with (header_rest j). set (data := header_bytes h' ++ header_rest j).
  change (jhdr_size h') with (jhdr_size (jhdr j)). set (bsz := jhdr_size (jhdr j)) in *.
  pose proof (length_header_block h' j Hbuf Hg1 eq_refl) as Hlb. change (header_block h' (header_rest j)) with (take (Z.to_nat bsz) data) in Hlb. change (jhdr_size h') with bsz in Hlb.
  assert (get_bytes data 0 bsz = Some (take (Z.to_nat bsz) data)) as Hget.
  { unfold get_bytes. rewrite length_take in Hlb. rewrite (proj2 (Z.leb_le 0 bsz)), (proj2 (Z.leb_le (0 + bsz) _)) by lia. done. }
  assert (exists d, put_bytes (jdev j) (jdev_offset j) (take (Z.to_nat bsz) data) = Some d) as [d Hd].
  { unfold put_bytes. rewrite (proj2 (Z.leb_le 0 (jdev_offset j))), (proj2 (Z.leb_le _ (len (jdev j)))) by lia. by eexists. }
  assert (do_journal_io JNL_WRITE true j1 0 data bsz = Some (bsz, bsz, data, with_jdev d j1)) as Eio.
  { unfold do_journal_io. change (jh_size (jhdr j1)) with (jh_size (jhdr j)). rewrite (proj2 (Z.ltb_ge 0 0)), (proj2 (Z.ltb_ge (jh_size (jhdr j)) 0)) by lia. cbn [orb].
    change (max_write_size j1) with (max_write_size j). cbn [journal_io_loop]. change (0 =? 0) with true. cbn [negb]. rewrite !andb_false_r.
    cbn [andb]. rewrite (proj2 (Z.ltb_ge _ bsz)) by lia. rewrite (proj2 (Z.leb_gt bsz 0)) by lia. change (jhdr_size (jhdr j1)) with bsz.
    rewrite (proj2 (Z.eqb_neq bsz 0)) by lia. change (jdev_offset j1) with (jdev_offset j). rewrite Z.add_0_r.
    rewrite (s64_id (jdev_offset j)) by (unfold INT64_MAX; lia). rewrite Z.quot_div_nonneg by lia.
    unfold strategy, next_io. change (jdev_io j1) with (jdev_io j). rewrite Hio. change (0 =? 0) with true. cbn match beta delta [negb].
    change (jhdr_size (jhdr j1)) with bsz. rewrite (divide_pos bsz) by done. rewrite Hget. cbn [mbind option_bind].
    change (jdev j1) with (jdev j). rewrite Hd. cbn [mbind option_bind]. rewrite !Z.add_0_l, Z.eqb_refl. cbn [negb].
    by rewrite s64_id by (unfold INT64_MAX; lia). }
  rewrite Eio. cbn [mbind option_bind]. rewrite Z.eqb_refl. cbn [negb].
  destruct (flush_after_ok u (with_jdev d j1) Hio) as [n2 ->].
  eexists. split; [reflexivity|]. split; [by exists d, n2|exact Hd].
Qed.
