(* ===== verification/ReplayProps.v ===== *)
(** * The log and what replaying it does (core/hfs_journal.c)

    The log is a chain of block list headers, each with blocks behind it ([log_chain]).
    Replaying means to write the blocks one after the other ([apply_writes]); the table
    has the last write of each byte, and writing its entries gives the same. *)

From S2P Require Import Prelude HfsFormat Bytes JournalIO JournalCoalesce CoalesceProps JournalReplay JournalIOProps.

(** ** Writes *)

(** A block of the file system, and where its data is in the journal. *)
Record log_write := mkWrite { lw_num : Z; lw_size : Z; lw_offset : Z }.

Section Journal.
Variable j : journal.
Hypothesis Hdev : device_ok j.
Notation h := (jhdr j).
Notation bsz := (jhdr_size h).
Notation jsz := (jh_size h).

Definition covers (w : log_write) (x : Z) : bool := (lw_num w * bsz <=? x) && (x <? lw_num w * bsz + lw_size w).

Definition apply_write (fs : gmap Z Z) (w : log_write) : gmap Z Z :=
  write_fs (lw_num w * bsz) (log_bytes j (lw_offset w) (lw_size w)) fs.

(** The blocks are written in the order of the log. *)
Definition apply_writes (ws : list log_write) (fs : gmap Z Z) : gmap Z Z := foldl apply_write fs ws.

(** Where the last write of a byte has its value. *)
Definition last_write (ws : list log_write) (x : Z) : option Z :=
  foldl (fun acc w => if covers w x then Some (ring h (lw_offset w + (x - lw_num w * bsz))) else acc) None ws.

Definition value_at (fs : gmap Z Z) (p : option Z) (x : Z) : option Z :=
  match p with Some p => Some (at_journal j p) | None => fs !! x end.

Lemma lookup_write_fs pos data fs x : write_fs pos data fs !! x =
  if (pos <=? x) && (x <? pos + len data) then data !! Z.to_nat (x - pos) else fs !! x.
Proof.
  unfold write_fs. destruct (Z.leb_spec pos x) as [H1|H1]; [destruct (Z.ltb_spec x (pos + len data)) as [H2|H2]|]; cbn [andb].
  - destruct (lookup_lt_is_Some_2 data (Z.to_nat (x - pos))) as [y Hy]; [lia|]. rewrite Hy.
    apply lookup_union_Some_l. apply lookup_map_seqZ_Some. by split.
  - rewrite lookup_union_r; [done|]. apply lookup_map_seqZ_None. lia.
  - rewrite lookup_union_r; [done|]. apply lookup_map_seqZ_None. lia.
Qed.

Lemma lookup_log_bytes off n k : 0 <= k < n -> log_bytes j off n !! Z.to_nat k = Some (at_journal j (ring h (off + k))).
Proof.
  intros Hk. unfold log_bytes. rewrite list_lookup_fmap, lookup_seqZ_lt by lia. cbn. do 3 f_equal. lia.
Qed.

Lemma lookup_write_log pos off n fs x : 0 <= n -> write_fs pos (log_bytes j off n) fs !! x =
  value_at fs (if (pos <=? x) && (x <? pos + n) then Some (ring h (off + (x - pos))) else None) x.
Proof.
  intros Hn. rewrite lookup_write_fs, length_log_bytes by done.
  destruct (Z.leb_spec pos x); [destruct (Z.ltb_spec x (pos + n))|]; cbn [andb value_at]; [|done..].
  apply lookup_log_bytes. lia.
Qed.

Lemma last_write_snoc ws w x : last_write (ws ++ [w]) x =
  if covers w x then Some (ring h (lw_offset w + (x - lw_num w * bsz))) else last_write ws x.
Proof. unfold last_write. by rewrite foldl_app. Qed.

Lemma lookup_apply_writes ws fs x : Forall (fun w => 0 <= lw_size w) ws -> apply_writes ws fs !! x = value_at fs (last_write ws x) x.
Proof.
  induction ws as [|w ws IH] using rev_ind; intros Hws; [done|]. apply Forall_app in Hws as [Hws Hw]. apply Forall_cons in Hw as [Hw _].
  rewrite last_write_snoc. unfold apply_writes. rewrite foldl_app. cbn [foldl]. unfold apply_write at 1.
  rewrite lookup_write_log by done. unfold covers. destruct (_ && _); [done|]. apply IH, Hws.
Qed.

(** ** Writing a table *)

Definition write_bucket (fs : gmap Z Z) (b : bucket) : gmap Z Z :=
  write_fs (bpos h b) (log_bytes j (jnl_offset b) (block_size b)) fs.

Lemma source_cons_apart b l x : Forall (apart h b) l -> Forall (bucket_ok h) l -> x < bend h b -> source h l x = None.
Proof.
  intros Hb Hok Hx. apply source_after. eapply Forall_impl; [exact Hb|]. unfold apart. cbn. intros; lia.
Qed.

Lemma lookup_write_buckets l : Forall (bucket_ok h) l -> StronglySorted (apart h) l -> forall fs x,
  foldl write_bucket fs l !! x = value_at fs (source h l x) x.
Proof.
  intros Hok Hs. induction Hs as [|b l Hs IH Hb]; intros fs x; [done|]. apply Forall_cons in Hok as [Hbo Hok].
  cbn [foldl]. rewrite IH by done. pose proof Hbo as [? ? ? ? ? ?]. cbn [source]. unfold write_bucket.
  destruct (Z.leb_spec (bpos h b) x); [destruct (Z.ltb_spec x (bend h b))|]; cbn [andb].
  - rewrite (source_cons_apart b l x) by done. cbn [value_at]. rewrite lookup_write_log by lia.
    rewrite (proj2 (Z.leb_le _ _)), (proj2 (Z.ltb_lt _ _)) by (unfold bend in *; lia). done.
  - destruct (source h l x); cbn [value_at]; [done|]. rewrite lookup_write_log by lia. unfold bend in *.
    rewrite (proj2 (Z.ltb_ge _ _)) by lia. by rewrite andb_false_r.
  - destruct (source h l x); cbn [value_at]; [done|]. rewrite lookup_write_log by lia.
    by rewrite (proj2 (Z.leb_gt _ _)) by lia.
Qed.

(** ** The log *)

Definition header_at (pos : Z) : option (block_list_header * bool) := decode_blhdr j (log_bytes j pos (blhdr_size h)).

(** The blocks behind a header; the first entry is about the header. *)
Definition header_blocks (b : block_list_header) : list block_info := take (Z.to_nat (num_blocks b - 1)) (drop 1 (binfo b)).

Fixpoint block_writes (off : Z) (l : list block_info) : list log_write :=
  match l with
  | [] => []
  | b :: l =>
      let rest := block_writes (ring h (off + bsize b)) l in
      if bnum b =? -1 then rest else mkWrite (bnum b) (bsize b) off :: rest
  end.

Definition header_writes (pos : Z) (b : block_list_header) : list log_write :=
  block_writes (ring h (pos + blhdr_size h)) (header_blocks b).

Definition log_writes (hs : list (Z * block_list_header)) : list log_write := concat ((fun '(pos, b) => header_writes pos b) <$> hs).

(** Whole blocks; those that were not killed are blocks of the file system, and have the
    checksum if it is checked. *)
Fixpoint blocks_ok (checked : bool) (off : Z) (l : list block_info) : Prop :=
  match l with
  | [] => True
  | b :: l =>
      0 < bsize b <= jsz - bsz /\ (bsz | bsize b) /\
      (bnum b <> -1 -> block_ok h (bnum b) (bsize b) /\
        (checked = true -> bi_word b = 0 \/ calc_checksum (log_bytes j off (bsize b)) = bi_word b)) /\
      blocks_ok checked (ring h (off + bsize b)) l
  end.

Record header_ok (checked : bool) (pos : Z) (b : block_list_header) : Prop := {
  ho_read : header_at pos = Some (b, true);
  ho_max : 0 < max_blocks b <= jsz / bsz;
  ho_num : 0 < num_blocks b <= max_blocks b;
  ho_entries : num_blocks b <= len (binfo b);
  ho_flag : negb (Z.land (bl_flags b) BLHDR_CHECK_CHECKSUMS =? 0) = checked;
  ho_blocks : blocks_ok checked (ring h (pos + blhdr_size h)) (header_blocks b);
  ho_used : 0 <= bytes_used b <= jsz - bsz;
  ho_used_whole : (bsz | bytes_used b);
}.

(** The sequence number of a header is in its first entry. *)
Definition sequence_of (b : block_list_header) : option Z := bi_word <$> head (binfo b).

(** From the number [last] at [pos] on, the headers [hs] lead to [last'] and [pos']. *)
Inductive log_chain (checked : bool) : Z -> Z -> list (Z * block_list_header) -> Z -> Z -> Prop :=
| ChainEnd last pos : log_chain checked last pos [] last pos
| ChainNext last pos b seq hs last' pos' :
    header_ok checked pos b -> sequence_of b = Some seq -> seq <> 0 -> out_of_sequence last seq = false ->
    log_chain checked seq (ring h (pos + bytes_used b)) hs last' pos' ->
    log_chain checked last pos ((pos, b) :: hs) last' pos'.

(** Behind the log there is no header, or one of an older transaction. *)
Definition log_stops (last pos : Z) : Prop := exists b good, header_at pos = Some (b, good) /\
  (good = false \/ good = true /\ exists seq, sequence_of b = Some seq /\ out_of_sequence last seq = true).

(** The log from the start that the journal header tells: it gets to the end that the
    header tells, and maybe further.  Both may be the very end of the journal, which is
    the position behind the header. *)
Record replayable (checked : bool) (hs : list (Z * block_list_header)) (pos : Z) : Prop := {
  rl_blhdr : 0 < blhdr_size h < jsz - bsz;
  rl_blhdr_whole : (bsz | blhdr_size h);
  rl_start : bsz <= jh_start h <= jsz;
  rl_start_whole : (bsz | jh_start h);
  rl_end : bsz <= jh_end h <= jsz;
  rl_not_empty : ring h (jh_start h) <> ring h (jh_end h);
  rl_chain : exists hs1 hs2 last1 last, hs = hs1 ++ hs2 /\ hs1 <> [] /\
    log_chain checked 0 (ring h (jh_start h)) hs1 last1 (ring h (jh_end h)) /\
    log_chain checked last1 (ring h (jh_end h)) hs2 last pos /\
    log_stops last pos;
  rl_room : 4 * len (log_writes hs) + STARTING_BUCKETS + 8 < 2 ^ 29;
}.

Lemma block_writes_sizes checked l : forall off, blocks_ok checked off l -> Forall (fun w => 0 <= lw_size w) (block_writes off l).
Proof.
  induction l as [|b l IH]; intros off Hok; [by apply Forall_nil|]. destruct Hok as (Hsz & _ & _ & Hok). cbn [block_writes].
  destruct (_ =? _); [by apply IH|]. apply Forall_cons. split; [cbn; lia|by apply IH].
Qed.

Lemma chain_sizes checked last pos hs last' pos' : log_chain checked last pos hs last' pos' -> Forall (fun w => 0 <= lw_size w) (log_writes hs).
Proof.
  induction 1 as [|last pos b seq hs last' pos' Hok _ _ _ _ IH]; [by apply Forall_nil|].
  unfold log_writes. cbn [fmap list_fmap concat]. apply Forall_app. split; [|exact IH]. eapply block_writes_sizes, ho_blocks, Hok.
Qed.

Lemma chain_app checked last pos hs1 hs2 last1 pos1 last2 pos2 : log_chain checked last pos hs1 last1 pos1 ->
  log_chain checked last1 pos1 hs2 last2 pos2 -> log_chain checked last pos (hs1 ++ hs2) last2 pos2.
Proof. induction 1; [done|]. intros. cbn. econstructor; eauto. Qed.

Lemma log_writes_app hs1 hs2 : log_writes (hs1 ++ hs2) = log_writes hs1 ++ log_writes hs2.
Proof. unfold log_writes. by rewrite fmap_app, concat_app. Qed.
End Journal.
