(* ===== verification/ReplayLoop.v ===== *)
(** * Reading the log (core/hfs_journal.c)

    The loop of replay_journal reads every header of the log, and when it stops the table
    has the last write of each byte. *)

From S2P Require Import Prelude HfsFormat Bytes JournalIO JournalCoalesce CoalesceProps JournalReplay JournalIOProps ReplayProps.

Section Loop.
Variable j : journal.
Hypothesis Hdev : device_ok j.
Hypothesis Hio : jdev_io j = [].
Notation h := (jhdr j).
Notation bsz := (jhdr_size h).
Notation jsz := (jh_size h).

(** The journal with another start and end: these are all the loop changes in it. *)
Definition ranged (s e : Z) : journal := with_jhdr (set_range s e h) j.

Lemma ranged_ok s e : device_ok (ranged s e).
Proof. destruct Hdev as [[? ? ?] ? ? ? ? ?]. by split. Qed.

Lemma read_ranged s e off n buf : bsz <= off <= jsz -> (bsz | off) -> 0 < n <= jsz - bsz -> n <= len buf ->
  exists off', read_journal_data (ranged s e) off buf n = Some (n, off', log_bytes j off n ++ drop (Z.to_nat n) buf, ranged s e) /\
    bsz <= off' <= jsz /\ (off + n < jsz + (jsz - bsz) -> ring h off' = ring h (off + n)).
Proof. intros. exact (read_journal_data_ok (ranged s e) (ranged_ok s e) off n buf Hio H H0 H1 H2). Qed.

(** The table has the last writes of [ws]. *)
Definition table_has (ws : list log_write) (t : cotable) : Prop :=
  (exists l, coalesced h t l /\ forall x, source h l x = last_write j ws x) /\ roomy (2 * len ws) t.

Lemma table_add ws t num size off off' ck : table_has ws t -> 2 * (2 * len ws) + STARTING_BUCKETS + 4 < 2 ^ 29 ->
  block_ok h num size -> bsz <= off <= jsz -> (bsz | off) -> off' = ring h off ->
  exists i t', add_block h num size off ck t = Some (i, t') /\ 0 <= i /\ table_has (ws ++ [mkWrite num size off']) t'.
Proof.
  intros [(l & Hc & Hsrc) Hr] Hn Hb Ho Hal ->. pose proof Hdev as [Hg _ _ _ _ _].
  destruct (add_block_spec h Hg (2 * len ws) t l num size off ck Hc Hr Hn Hb Ho Hal) as (i & t' & l' & E & Hi & Hc' & Hr' & Hs).
  exists i, t'. split; [done|]. split; [done|]. split.
  - exists l'. split; [done|]. intros x. rewrite Hs, last_write_snoc. unfold covers. cbn [lw_num lw_size lw_offset].
    destruct (Z.leb_spec (num * bsz) x); [destruct (Z.ltb_spec x (num * bsz + size))|]; cbn [andb]; [|by rewrite Hsrc..].
    pose proof Hb as [? ? ? ?]. f_equal. symmetry. apply (ring_ring h Hg); destruct Hg; lia.
  - rewrite length_app. cbn [length]. replace (2 * Z.of_nat (length ws + 1)) with (2 * len ws + 2) by lia. done.
Qed.

(** ** The blocks of a header *)

Lemma at_index_drop {A} (l : list A) i x r : 0 <= i -> drop (Z.to_nat i) l = x :: r -> at_index l i = Some x.
Proof.
  intros Hi E. unfold at_index. rewrite (proj2 (Z.leb_le 0 i)) by lia.
  rewrite <- (Nat.add_0_r (Z.to_nat i)), <- lookup_drop, E. done.
Qed.

Lemma drop_next {A} (l : list A) i x r : 0 <= i -> drop (Z.to_nat i) l = x :: r -> drop (Z.to_nat (i + 1)) l = r.
Proof. intros Hi E. replace (Z.to_nat (i + 1)) with (Z.to_nat i + 1)%nat by lia. by rewrite <- drop_drop, E. Qed.

Lemma blocks_ok_size checked off l : blocks_ok j checked off l -> Forall (fun b => 0 < bsize b <= jsz - bsz) l.
Proof. revert off. induction l as [|b l IH]; intros off; [by constructor|]. intros (H & _ & _ & Hl). constructor; [done|by eapply IH]. Qed.

Lemma u64_size n : 0 < n <= jsz - bsz -> u64 n = n.
Proof. intros. destruct Hdev as [[? ? ?] _ _ _ _ _]. apply wrap_id. lia. Qed.

Lemma largest_block_ok info checked : forall l off i m tail, 0 <= i -> drop (Z.to_nat i) info = l ++ tail -> blocks_ok j checked off l ->
  exists m', largest_block info i m (length l) = Some (Some m') /\ m <= m' /\ Forall (fun b => bsize b <= m') l.
Proof.
  induction l as [|b l IH]; intros off i m tail Hi E Hok; [exists m; split; [done|]; split; [lia|by constructor]|].
  destruct Hok as (Hsz & Hw & Hnum & Hok). cbn [largest_block length]. rewrite (at_index_drop info i b (l ++ tail)) by done.
  cbn [mbind option_bind].
  assert ((bnum b <? 0) && negb (bnum b =? -1) = false) as ->.
  { destruct (Z.eqb_spec (bnum b) (-1)); [apply andb_false_r|]. destruct (Hnum ltac:(done)) as [[Hn _ _ _] _]. by rewrite (proj2 (Z.ltb_ge _ 0)) by lia. }
  rewrite u64_size by done.
  destruct (IH (ring h (off + bsize b)) (i + 1) (if m <? bsize b then bsize b else m) tail ltac:(lia)) as (m' & -> & Hm & Hl).
  { by rewrite (drop_next info i b (l ++ tail)). } { done. }
  exists m'. split; [done|]. destruct (Z.ltb_spec m (bsize b)); (split; [lia|constructor; [lia|done]]).
Qed.

(** The data of a block is read, and has the checksum. *)
Lemma check_block_ok s e r off off' n size ck : rp_jnl r = ranged s e -> rp_block_ptr r = Some n ->
  bsz <= off <= jsz -> (bsz | off) -> 0 < size <= jsz - bsz -> size <= n -> log_bytes j off size = log_bytes j off' size ->
  (ck = 0 \/ calc_checksum (log_bytes j off' size) = ck) ->
  check_block r off size ck = Some (true, r).
Proof.
  intros Hj Hp Ho Hal Hsz Hn Hlog Hck. unfold check_block. rewrite Hp. cbn [mbind option_bind]. rewrite Hj, u64_size by done.
  destruct (read_ranged s e off size (replicate (Z.to_nat n) 0) Ho Hal Hsz) as (o & -> & _); [rewrite length_replicate; lia|].
  cbn [mbind option_bind]. rewrite Z.eqb_refl. cbn [negb]. rewrite get_bytes_head by (rewrite length_log_bytes; lia).
  cbn [mbind option_bind]. rewrite Hlog. f_equal. f_equal.
  - destruct Hck as [Hz|Hz]; rewrite Hz; [done|]. by rewrite Z.eqb_refl, orb_true_r.
  - destruct r. cbn in *. by subst.
Qed.

Lemma log_bytes_ring off n : bsz <= off <= jsz -> n <= jsz - bsz -> log_bytes j off n = log_bytes j (ring h off) n.
Proof.
  intros Ho Hn. unfold log_bytes. apply list_fmap_ext. intros i k Hk. apply lookup_seqZ in Hk as [-> Hk].
  f_equal. destruct Hdev as [Hg _ _ _ _ _]. symmetry. apply (ring_ring h Hg); destruct Hg; lia.
Qed.

Lemma next_offset off size : bsz <= off <= jsz -> 0 < size <= jsz - bsz ->
  let o := s64 (off + size) in
  let o' := if jsz <=? o then bsz + (o - jsz) else o in
  bsz <= o' <= jsz /\ ring h o' = ring h (ring h off + size) /\ ((bsz | off) -> (bsz | size) -> (bsz | o')).
Proof.
  intros Ho Hs. cbv zeta. destruct Hdev as [[Hg1 Hg2 Hg3] _ _ _ _ _]. rewrite s64_id by (unfold INT64_MAX; lia).
  split; [destruct (Z.leb_spec jsz (off + size)); lia|]. split.
  - unfold ring. zcases.
  - intros Ha Hb. pose proof (Z.divide_add_r _ _ _ Ha Hb). destruct (_ <=? _); [|done].
    apply Z.divide_add_r; [apply Z.divide_refl|]. by apply Z.divide_sub_r.
Qed.

Lemma add_blocks_ok s e info checked : forall l off i r tail ws, 0 <= i -> drop (Z.to_nat i) info = l ++ tail ->
  rp_jnl r = ranged s e -> check_block_checksums r = checked ->
  (checked = true -> exists n, rp_block_ptr r = Some n /\ Forall (fun b => bsize b <= n) l) ->
  blocks_ok j checked (ring h off) l -> bsz <= off <= jsz -> (bsz | off) ->
  table_has ws (rp_table r) -> 4 * len (ws ++ block_writes j (ring h off) l) + STARTING_BUCKETS + 8 < 2 ^ 29 ->
  exists off' t, add_blocks info i off r (length l) = Some (AddDone off' (rp_set_table t r)) /\
    table_has (ws ++ block_writes j (ring h off) l) t.
Proof.
  induction l as [|b l IH]; intros off i r tail ws Hi E Hj Hck Hptr Hok Ho Hal Ht Hn.
  { exists off, (rp_table r). cbn [block_writes length add_blocks]. rewrite app_nil_r. split; [|done]. by destruct r. }
  destruct Hok as (Hsz & Hw & Hnum & Hok). cbn [add_blocks length].
  rewrite (at_index_drop info i b (l ++ tail)) by done. cbn [mbind option_bind].
  rewrite (proj2 (Z.eqb_neq (bsize b) 0)) by lia. cbv zeta.
  pose proof (next_offset off (bsize b) Ho Hsz) as Hnext. cbv zeta in Hnext.
  change (ring (jhdr j)) with (ring h) in *.
  assert (forall t, jhdr (rp_jnl (rp_set_table t r)) = set_range s e h) as Hjt by (intros; cbn; by rewrite Hj).
  assert (Hptr' : checked = true -> exists n, rp_block_ptr r = Some n /\ Forall (fun b => bsize b <= n) l).
  { intros Hc. destruct (Hptr Hc) as (n & Hn' & Hl). apply Forall_cons in Hl as [_ Hl]. eauto. }
  set (o' := if jsz <=? s64 (off + bsize b) then bsz + (s64 (off + bsize b) - jsz) else s64 (off + bsize b)) in *.
  destruct Hnext as (Ho' & Hring & Hal'). specialize (Hal' Hal Hw).
  cbn [block_writes] in *. destruct (Z.eqb_spec (bnum b) (-1)) as [Hkill|Hlive].
  - rewrite Hj. cbn [ranged with_jhdr jhdr set_range jh_size jhdr_size]. fold o'.
    rewrite <- Hring in *.
    apply (IH o' (i + 1) r tail ws); try done; [lia|by rewrite (drop_next info i b (l ++ tail))].
  - destruct (Hnum Hlive) as [Hblk Hsum].
    assert ((if check_block_checksums r then check_block r off (bsize b) (bi_word b) else Some (true, r)) = Some (true, r)) as ->.
    { rewrite Hck. destruct checked; [|done]. destruct (Hptr eq_refl) as (n & Hp & Hl). apply Forall_cons in Hl as [Hl _].
      apply (check_block_ok s e r off (ring h off) n); [done..| |by apply Hsum]. apply log_bytes_ring; lia. }
    cbn [mbind option_bind negb]. rewrite Hj. cbn [ranged with_jhdr jhdr].
    rewrite u64_size by done. assert (u64 off = off) as -> by (apply wrap_id; destruct Hdev as [[? ? ?] _ _ _ _ _]; lia).
    destruct (table_add ws (rp_table r) (bnum b) (bsize b) off (ring h off) (bi_word b) Ht) as (idx & t & Ea & Hidx & Ht'); try done.
    { rewrite length_app in Hn. cbn in Hn. lia. }
    change (add_block (set_range s e h)) with (add_block h). rewrite Ea. cbn [mbind option_bind].
    rewrite (proj2 (Z.eqb_neq idx (-1))) by lia. rewrite Hjt. cbn [set_range jh_size jhdr_size]. fold o'.
    rewrite <- Hring in *.
    replace (ws ++ mkWrite (bnum b) (bsize b) (ring h off) :: block_writes j (ring h o') l)
      with ((ws ++ [mkWrite (bnum b) (bsize b) (ring h off)]) ++ block_writes j (ring h o') l) in * by by rewrite <- app_assoc.
    destruct (IH o' (i + 1) (rp_set_table t r) tail (ws ++ [mkWrite (bnum b) (bsize b) (ring h off)])) as (off' & t' & E' & Ht2); try done.
    + lia.
    + by rewrite (drop_next info i b (l ++ tail)).
    + exists off', t'. split; [|done]. rewrite E'. by destruct r.
Qed.

(** ** A turn *)

(** The loop is at [s], has read the writes [ws], and goes on past the end [e]. *)
Record reading (checked : bool) (ws : list log_write) (s e last : Z) (uncharted : bool) (r : replay) : Prop := {
  rd_jnl : rp_jnl r = ranged s e;
  rd_table : table_has ws (rp_table r);
  rd_past : check_past_jnl_end r = true;
  rd_uncharted : in_uncharted_territory r = uncharted;
  rd_last : last_sequence_num r = last;
  rd_check : check_block_checksums r = true -> checked = true;
}.

Hypothesis Hblhdr : 0 < blhdr_size h < jsz - bsz.
Hypothesis Hblhdr_whole : (bsz | blhdr_size h).

Lemma read_header s e : bsz <= s < jsz -> (bsz | s) ->
  exists off, read_journal_data (ranged s e) s (replicate (Z.to_nat (blhdr_size h)) 0) (blhdr_size h) =
      Some (blhdr_size h, off, log_bytes j s (blhdr_size h), ranged s e) /\
    bsz <= off <= jsz /\ ring h off = ring h (s + blhdr_size h) /\ (bsz | off).
Proof.
  intros Hs Hal. pose proof Hdev as [Hg _ _ _ _ _]. pose proof Hg as [Hg1 Hg2 Hg3].
  destruct (read_ranged s e s (blhdr_size h) (replicate (Z.to_nat (blhdr_size h)) 0) ltac:(lia) Hal ltac:(lia)) as (off & E & Ho & Hr).
  { rewrite length_replicate. lia. }
  exists off. rewrite drop_ge, app_nil_r in E by (rewrite length_replicate; lia). split; [done|]. split; [done|].
  specialize (Hr ltac:(lia)). split; [done|].
  assert ((bsz | ring h off)) as Hw by (rewrite Hr; apply (ring_whole h Hg), Z.divide_add_r; done).
  unfold ring in Hw. destruct (Z.leb_spec jsz off); [|done]. replace off with jsz by lia. done.
Qed.

Lemma next_header s used : bsz <= s < jsz -> 0 <= used <= jsz - bsz -> (bsz | s) -> (bsz | used) ->
  (let n := s64 (s + used) in if jsz <=? n then Z.rem n jsz + bsz else n) = ring h (s + used) /\
  bsz <= ring h (s + used) < jsz /\ (bsz | ring h (s + used)).
Proof.
  intros Hs Hu Ha Hb. pose proof Hdev as [Hg _ _ _ _ _]. pose proof Hg as [Hg1 Hg2 Hg3]. cbv zeta.
  rewrite s64_id by (unfold INT64_MAX; lia). split; [|split; [apply (ring_bound h Hg); lia|apply (ring_whole h Hg); by apply Z.divide_add_r]].
  unfold ring. destruct (Z.leb_spec jsz (s + used)); [|done].
  rewrite Z.rem_mod_nonneg by lia. replace (s + used) with ((s + used - jsz) + 1 * jsz) at 1 by lia. rewrite Z.mod_add by lia. rewrite Z.mod_small by lia. lia.
Qed.

Lemma header_blocks_split b : 0 < num_blocks b <= len (binfo b) ->
  length (header_blocks b) = Z.to_nat (num_blocks b - 1) /\
  drop (Z.to_nat 1) (binfo b) = header_blocks b ++ drop (Z.to_nat (num_blocks b - 1)) (drop 1 (binfo b)).
Proof.
  intros Hn. unfold header_blocks. split; [|by rewrite take_drop]. rewrite length_take, length_drop. lia.
Qed.

(** The blocks of a good header are added, and the loop is at the next header. *)
Lemma replay_header_ok checked ws s e seq u r b off orig : header_ok j checked s b -> seq <> 0 ->
  reading checked ws s e seq u r -> bsz <= s < jsz -> (bsz | s) ->
  bsz <= off <= jsz -> ring h off = ring h (s + blhdr_size h) -> (bsz | off) ->
  4 * len (ws ++ header_writes j s b) + STARTING_BUCKETS + 8 < 2 ^ 29 ->
  exists r', replay_header orig s off b r = Some (TurnNext r') /\
    reading checked (ws ++ header_writes j s b) (ring h (s + bytes_used b)) e seq (u || (ring h (s + bytes_used b) =? e)) r'.
Proof.
  intros [Hread Hmax Hnum Hent Hflag Hblocks Hused Hwhole] Hseq [Rj Rt Rp Ru Rl Rc] Hs Hal Ho Hring Hoal Hroom.
  unfold replay_header. rewrite Rj. cbn [ranged with_jhdr jhdr set_range jh_end jh_start jh_size jhdr_size].
  rewrite Rl, (proj2 (Z.eqb_neq seq 0)) by done. rewrite andb_false_r.
  rewrite (proj2 (Z.leb_gt (max_blocks b) 0)), (proj2 (Z.ltb_ge _ (max_blocks b))), (proj2 (Z.leb_gt (num_blocks b) 0)), (proj2 (Z.ltb_ge _ (num_blocks b))) by lia.
  cbn [orb]. destruct (header_blocks_split b ltac:(lia)) as [Hlen Hsplit]. rewrite <- Hlen.
  destruct (largest_block_ok (binfo b) checked (header_blocks b) (ring h (s + blhdr_size h)) 1 0 _ ltac:(lia) Hsplit Hblocks) as (m & -> & _ & Hm).
  cbn [mbind option_bind]. cbv zeta. rewrite Hflag.
  set (r1 := if checked then rp_set_check true (Some m) r else rp_set_check (check_block_checksums r) None r).
  set (r2 := if negb (Z.land (bl_flags b) BLHDR_FIRST_HEADER =? 0) then rp_set_txn s r1 else r1).
  assert (rp_jnl r2 = ranged s e /\ rp_table r2 = rp_table r /\ check_past_jnl_end r2 = true /\ in_uncharted_territory r2 = u /\
    last_sequence_num r2 = seq /\ check_block_checksums r2 = checked /\ (checked = true -> rp_block_ptr r2 = Some m)) as (R1 & R2 & R3 & R4 & R5 & R6 & R7).
  { unfold r2, r1. clear -Rj Rp Ru Rl Rc.
    destruct checked, (negb (Z.land (bl_flags b) BLHDR_FIRST_HEADER =? 0)); cbn; split_and!; try done;
      by destruct (check_block_checksums r); [specialize (Rc eq_refl)|]. }
  clearbody r2. clear r1.
  unfold header_writes in *. rewrite <- Hring in *.
  destruct (add_blocks_ok s e (binfo b) checked (header_blocks b) off 1 r2 _ ws ltac:(lia) Hsplit R1 R6) as (off' & t & Ea & Ht);
    [intros Hc; exists m; by rewrite R7|done|done|done|by rewrite R2|done|].
  rewrite Ea. cbn [mbind option_bind rp_set_table rp_set_check rp_jnl]. rewrite R1. cbn [ranged with_jhdr jhdr set_range jh_end jh_start jh_size jhdr_size].
  destruct (next_header s (bytes_used b) Hs Hused Hal Hwhole) as (En & _ & _). cbv zeta in En. rewrite En.
  eexists. split; [reflexivity|]. destruct (Z.eqb_spec (ring h (s + bytes_used b)) e).
  - split; cbn; try done; [by rewrite R1|by rewrite orb_true_r|by rewrite R6].
  - split; cbn; try done; [by rewrite R1|by rewrite orb_false_r|by rewrite R6].
Qed.

Lemma sequence_first b seq : sequence_of b = Some seq -> exists first, at_index (binfo b) 0 = Some first /\ bi_word first = seq.
Proof. unfold sequence_of, at_index. cbn. destruct (binfo b) as [|f l]; [done|]. intros [= <-]. by exists f. Qed.

Lemma replay_turn_ok checked ws s e last u r b seq orig : header_ok j checked s b -> sequence_of b = Some seq -> seq <> 0 ->
  out_of_sequence last seq = false -> reading checked ws s e last u r -> bsz <= s < jsz -> (bsz | s) ->
  4 * len (ws ++ header_writes j s b) + STARTING_BUCKETS + 8 < 2 ^ 29 ->
  exists r', replay_turn orig r = Some (TurnNext r') /\
    reading checked (ws ++ header_writes j s b) (ring h (s + bytes_used b)) e seq (u || (ring h (s + bytes_used b) =? e)) r'.
Proof.
  intros Hok Hseq Hnz Hin Hrd Hs Hal Hroom. destruct (sequence_first b seq Hseq) as (first & Ef & <-).
  destruct (read_header s e Hs Hal) as (off & E & Ho & Hring & Hoal).
  unfold replay_turn. pose proof Hrd as [Rj Rt Rp Ru Rl Rc]. rewrite Rj. cbn [ranged with_jhdr jhdr set_range jh_start blhdr_size].
  fold (ranged s e). rewrite E. cbn [mbind option_bind]. rewrite Z.eqb_refl. cbn [negb].
  change (decode_blhdr (ranged s e)) with (decode_blhdr j).
  pose proof (ho_read _ _ _ _ Hok) as Hat. unfold header_at in Hat. rewrite Hat. cbn [mbind option_bind negb]. rewrite Ef. cbn [mbind option_bind rp_set_jnl last_sequence_num].
  rewrite Rl, Hin. by apply replay_header_ok.
Qed.

(** The loop stops: the start and the end are where it is. *)
Record stopped (ws : list log_write) (s : Z) (r : replay) : Prop := {
  sd_jnl : rp_jnl r = ranged s s;
  sd_table : table_has ws (rp_table r);
  sd_past : check_past_jnl_end r = false;
}.

Lemma replay_turn_stops checked ws s e last r orig : log_stops j last s -> reading checked ws s e last true r ->
  bsz <= s < jsz -> (bsz | s) -> exists r', replay_turn orig r = Some (TurnNext r') /\ stopped ws s r'.
Proof.
  intros (b & good & Hat & Hcase) [Rj Rt Rp Ru Rl Rc] Hs Hal.
  destruct (read_header s e Hs Hal) as (off & E & _ & _ & _).
  unfold replay_turn. rewrite Rj. cbn [ranged with_jhdr jhdr set_range jh_start blhdr_size].
  fold (ranged s e). rewrite E. cbn [mbind option_bind]. rewrite Z.eqb_refl. cbn [negb].
  change (decode_blhdr (ranged s e)) with (decode_blhdr j). unfold header_at in Hat. rewrite Hat. cbn [mbind option_bind].
  destruct Hcase as [Hg|[Hg (seq & Hseq & Hout)]]; subst good; cbn [negb].
  - cbn [rp_set_jnl check_past_jnl_end in_uncharted_territory]. rewrite Rp, Ru. cbn [andb]. eexists. split; [reflexivity|]. by split.
  - destruct (sequence_first b seq Hseq) as (first & Ef & <-). rewrite Ef. cbn [mbind option_bind rp_set_jnl last_sequence_num].
    rewrite Rl, Hout. cbn. rewrite Rp. eexists. split; [reflexivity|]. by split.
Qed.

(** ** The loop *)

Lemma chain_run checked orig e u0 hs : forall ws s last last' pos r fuel,
  log_chain j checked last s hs last' pos -> reading checked ws s e last u0 r -> bsz <= s < jsz -> (bsz | s) ->
  4 * len (ws ++ log_writes j hs) + STARTING_BUCKETS + 8 < 2 ^ 29 ->
  exists r' u, replay_loop orig r (length hs + fuel) = replay_loop orig r' fuel /\
    reading checked (ws ++ log_writes j hs) pos e last' u r' /\ bsz <= pos < jsz /\ (bsz | pos) /\
    (u0 = true \/ hs <> [] /\ pos = e -> u = true).
Proof.
  revert u0. induction hs as [|[p b] hs IH]; intros u0 ws s last last' pos r fuel Hch Hrd Hs Hal Hroom.
  - inversion Hch; subst. exists r, u0. rewrite app_nil_r. split; [done|]. split; [done|]. split; [done|]. split; [done|]. intros [?|[? _]]; done.
  - inversion Hch as [|? ? ? seq ? ? ? Hok Hseq Hnz Hin Hrest]; subst.
    unfold log_writes in Hroom. cbn [fmap list_fmap concat] in Hroom. fold (log_writes j hs) in Hroom. rewrite app_assoc in Hroom.
    destruct (replay_turn_ok checked ws p e last u0 r b seq orig Hok Hseq Hnz Hin Hrd Hs Hal) as (r1 & E1 & Hrd1).
    { rewrite length_app in Hroom. lia. }
    destruct (next_header p (bytes_used b) Hs (ho_used _ _ _ _ Hok) Hal (ho_used_whole _ _ _ _ Hok)) as (_ & Hs' & Hal').
    destruct (IH _ _ _ _ _ _ r1 fuel Hrest Hrd1 Hs' Hal' Hroom) as (r' & u & E2 & Hrd2 & Hpos & Hpal & Hu).
    exists r', u. cbn [length Nat.add replay_loop]. rewrite (rd_past _ _ _ _ _ _ _ Hrd). cbn [orb]. rewrite E1. cbn [mbind option_bind]. rewrite E2.
    split; [done|]. unfold log_writes. cbn [fmap list_fmap concat]. fold (log_writes j hs). rewrite app_assoc. split; [done|]. split; [done|]. split; [done|].
    intros Hcase. apply Hu. destruct Hcase as [Hcase|[_ He]]; [left; by rewrite Hcase|].
    destruct hs as [|x hs]; [left|by right]. inversion Hrest. subst. by rewrite Z.eqb_refl, orb_true_r.
Qed.

Lemma empty_table_has : table_has [] empty_table.
Proof.
  split.
  - exists []. split; [|done]. split; [|by constructor|by constructor]. exists (replicate 256 free_bucket). split_and!; try done.
    by apply Forall_replicate.
  - by split; vm_compute.
Qed.

Lemma replay_loop_ok checked hs pos fuel : replayable j checked hs pos -> (length hs + 1 < fuel)%nat ->
  exists r, replay_loop (ring h (jh_start h)) (mkReplay (ranged (ring h (jh_start h)) (ring h (jh_end h))) empty_table true false 0 0 false None 0) fuel = Some (true, r) /\
    stopped (log_writes j hs) pos r.
Proof.
  intros [_ _ Hs0 Hal0 He Hne (hs1 & hs2 & last1 & last & -> & Hne1 & Hc1 & Hc2 & Hstop) Hroom] Hf.
  pose proof Hdev as [Hg _ _ _ _ _]. pose proof Hg as [Hg1 Hg2 Hg3].
  assert (bsz <= ring h (jh_start h) < jsz) as Hs by (apply (ring_bound h Hg); lia).
  assert ((bsz | ring h (jh_start h))) as Hal by by apply (ring_whole h Hg).
  set (r0 := mkReplay _ _ _ _ _ _ _ _ _). set (S0 := ring h (jh_start h)) in *. set (E0 := ring h (jh_end h)) in *.
  assert (reading checked [] S0 E0 0 false r0) as Hr0 by (split; try done; apply empty_table_has).
  rewrite log_writes_app in *. rewrite length_app in Hf.
  destruct (chain_run checked S0 E0 false hs1 [] S0 0 last1 E0 r0 (fuel - length hs1) Hc1 Hr0 Hs Hal) as (r1 & u1 & E1 & Hr1 & He1 & Hal1 & Hu1).
  { cbn [app]. rewrite length_app in Hroom. lia. }
  rewrite Hu1 in Hr1 by (right; done). cbn [app] in Hr1.
  destruct (chain_run checked S0 E0 true hs2 (log_writes j hs1) E0 last1 last pos r1 (fuel - length hs1 - length hs2) Hc2 Hr1 He1 Hal1 Hroom) as (r2 & u2 & E2 & Hr2 & Hp2 & Hal2 & Hu2).
  rewrite Hu2 in Hr2 by by left.
  destruct (replay_turn_stops checked _ pos E0 last r2 S0 Hstop Hr2 Hp2 Hal2) as (r3 & E3 & Hst).
  exists r3. split; [|done]. replace (length hs1 + (fuel - length hs1))%nat with fuel in E1 by lia. rewrite E1.
  replace (fuel - length hs1)%nat with (length hs2 + (fuel - length hs1 - length hs2))%nat by lia. rewrite E2.
  destruct (fuel - length hs1 - length hs2)%nat as [|[|n]] eqn:Efuel; [lia|lia|]. cbn [replay_loop].
  rewrite (rd_past _ _ _ _ _ _ _ Hr2). cbn [orb]. rewrite E3. cbn [mbind option_bind].
  rewrite (sd_past _ _ _ Hst), (sd_jnl _ _ _ Hst). cbn. by rewrite Z.eqb_refl.
Qed.
End Loop.
