(* ===== verification/ReplayCorrect.v ===== *)
(** * Replaying the journal is writing the log (core/hfs_journal.c)

    replay_journal writes the blocks of the log to the file system, as if it wrote them in
    the order of the log, and makes the journal empty.  When the writes fail half way, or
    the machine stops, the journal is as it was, and replaying it again gives the same. *)

From S2P Require Import Prelude HfsFormat Bytes JournalIO JournalCoalesce CoalesceProps JournalReplay JournalIOProps ReplayProps ReplayLoop.

(** ** Writing the table *)

(** The size of the buffer is at least that of each block. *)
Lemma fold_max_le l : forall m, m <= foldl (fun m b => if block_num b =? -1 then m else if m <? block_size b then block_size b else m) m l /\
  Forall (fun b => block_num b <> -1 -> block_size b <= foldl (fun m b => if block_num b =? -1 then m else if m <? block_size b then block_size b else m) m l) l.
Proof.
  induction l as [|b l IH]; intros m; [split; [done|by constructor]|]. cbn [foldl].
  destruct (IH (if block_num b =? -1 then m else if m <? block_size b then block_size b else m)) as [H1 H2].
  split; [|constructor; [|done]].
  - destruct (block_num b =? -1); [done|]. destruct (Z.ltb_spec m (block_size b)); lia.
  - intros Hb. rewrite (proj2 (Z.eqb_neq _ _)) in H1 |- * by done. destruct (Z.ltb_spec m (block_size b)); lia.
Qed.

Lemma round_page p m : 0 <= p -> m <= Z.land (m + 2 ^ p) (Z.lnot (2 ^ p - 1)).
Proof.
  intros Hp. rewrite <- Z.ldiff_land. replace (2 ^ p - 1) with (Z.ones p) by (rewrite Z.ones_equiv; lia).
  rewrite Z.ldiff_ones_r, Z.shiftl_mul_pow2, Z.shiftr_div_pow2 by lia.
  assert (0 < 2 ^ p) as H2 by (apply Z.pow_pos_nonneg; lia).
  pose proof (Z.div_mod (m + 2 ^ p) (2 ^ p) ltac:(lia)). pose proof (Z.mod_pos_bound (m + 2 ^ p) (2 ^ p) H2). lia.
Qed.

Lemma replay_bsize_ok p t l stale : 0 <= p -> t = mkTable (l ++ stale) (len l) ->
  Forall (fun b => block_num b <> -1 -> block_size b <= replay_bsize (2 ^ p) t) l.
Proof.
  intros Hp ->. unfold replay_bsize. cbn [num_full co_buf]. rewrite Nat2Z.id, take_app_length.
  destruct (fold_max_le l (2 ^ p)) as [_ Hl]. eapply Forall_impl; [exact Hl|]. cbv beta. intros b Hb Hn. specialize (Hb Hn).
  set (m := foldl _ _ _) in *. destruct (negb _); [|done]. pose proof (round_page p m Hp). lia.
Qed.

Section Replay.
Variable j : journal.
Hypothesis Hdev : device_ok j.
Hypothesis Hio : jdev_io j = [].
Notation h := (jhdr j).
Notation bsz := (jhdr_size h).
Notation jsz := (jh_size h).

(** The journal while the blocks are written: only the file system changes. *)
Definition written (s : Z) (fs : gmap Z Z) (o : list fs_outcome) : journal := with_fsdev fs o (ranged j s s).

Lemma read_written s fs o off n buf : bsz <= off <= jsz -> (bsz | off) -> 0 < n <= jsz - bsz -> n <= len buf ->
  exists off', read_journal_data (written s fs o) off buf n = Some (n, off', log_bytes j off n ++ drop (Z.to_nat n) buf, written s fs o).
Proof.
  intros H1 H2 H3 H4. assert (device_ok (written s fs o)) as Hd by (destruct Hdev as [[? ? ?] ? ? ? ? ?]; by split).
  destruct (read_journal_data_ok (written s fs o) Hd off n buf Hio H1 H2 H3 H4) as (off' & E & _). exists off'. exact E.
Qed.

(** Bytes of the file system that are as they were, or have their last value. *)
Definition partly (l : list bucket) (fs fs' : gmap Z Z) : Prop :=
  forall x, fs' !! x = fs !! x \/ exists p, source h l x = Some p /\ fs' !! x = Some (at_journal j p).

Lemma update_fs_block_ok s fs o b data : bucket_ok h b -> exists err fs' o',
  update_fs_block (written s fs o) (log_bytes j (jnl_offset b) (block_size b) ++ data) (block_num b) (block_size b) =
    Some (err, written s fs' o') /\
  (err = 0 -> fs' = write_bucket j fs b) /\ (o = [] -> err = 0 /\ o' = []) /\ partly [b] fs fs'.
Proof using Hdev.
  intros Hb. pose proof Hb as [_ Hsz _ _ _ _]. unfold update_fs_block, next_fs. cbn [written with_fsdev fsdev_io].
  assert (get_bytes (log_bytes j (jnl_offset b) (block_size b) ++ data) 0 (block_size b) = Some (log_bytes j (jnl_offset b) (block_size b))) as Hget
    by (apply get_bytes_head; rewrite length_log_bytes; lia).
  assert (partly [b] fs fs) as Hsame by (intros x; by left).
  assert (forall n, partly [b] fs (write_fs (block_num b * bsz) (take n (log_bytes j (jnl_offset b) (block_size b))) fs)) as Hpart.
  { intros n x. rewrite lookup_write_fs, length_take. fold (bpos h b).
    pose proof (length_log_bytes j (jnl_offset b) (block_size b) ltac:(lia)) as Hl.
    destruct (Z.leb_spec (bpos h b) x); [destruct (Z.ltb_spec x (bpos h b + Z.of_nat (n `min` length (log_bytes j (jnl_offset b) (block_size b)))))|]; cbn [andb]; [|by left..].
    right. rewrite lookup_take_lt by lia. rewrite lookup_log_bytes by lia. eexists. split; [|reflexivity]. cbn [source].
    rewrite (proj2 (Z.leb_le _ _)), (proj2 (Z.ltb_lt x (bend h b))) by (unfold bend; lia). done. }
  destruct o as [|x o]; cbv beta iota zeta.
  - cbn [fo_bread fo_getblk fo_sized fo_bwrite]. change (0 =? 0) with true. cbn [negb andb]. rewrite Hget. cbn [mbind option_bind].
    exists 0, (write_bucket j fs b), []. split; [done|]. split; [done|]. split; [done|].
    specialize (Hpart (length (log_bytes j (jnl_offset b) (block_size b)))). rewrite firstn_all in Hpart. exact Hpart.
  - destruct (negb (fo_bread x =? 0) && negb (fo_getblk x)); [exists (-1), fs, o; split; [done|]; split; [lia|]; split; [done|done]|].
    destruct (negb (fo_sized x)); [exists (-1), fs, o; split; [done|]; split; [lia|]; split; [done|done]|].
    rewrite Hget. cbn [mbind option_bind]. destruct (Z.eqb_spec (fo_bwrite x) 0) as [|Hne]; cbn [negb].
    + exists 0, (write_bucket j fs b), o. split; [done|]. split; [done|]. split; [done|].
      specialize (Hpart (length (log_bytes j (jnl_offset b) (block_size b)))). rewrite firstn_all in Hpart. exact Hpart.
    + eexists (fo_bwrite x), _, o. split; [reflexivity|]. split; [done|]. split; [done|]. apply Hpart.
Qed.

Lemma partly_cons b l fs fs1 fs2 : Forall (bucket_ok h) l -> Forall (apart h b) l -> partly [b] fs fs1 -> partly l fs1 fs2 -> partly (b :: l) fs fs2.
Proof.
  intros Hok Hb H1 H2 x. rewrite source_cons. destruct (H2 x) as [->|(p & Hp & Hx)].
  - destruct (H1 x) as [H|(p & Hp & Hx)]; [by left|]. right. exists p. by rewrite Hp.
  - destruct (source h [b] x) as [q|] eqn:Eq; [|by right; exists p]. exfalso. cbn [source] in Eq.
    destruct (Z.ltb_spec x (bend h b)); [|by rewrite andb_false_r in Eq]. by rewrite (source_cons_apart j b l x) in Hp.
Qed.

(** All entries are written, or some, up to a write that fails. *)
Lemma replay_blocks_ok s B m : forall l t i fs o tail, 0 <= i -> drop (Z.to_nat i) (co_buf t) = l ++ tail ->
  Forall (bucket_ok h) l -> StronglySorted (apart h) l -> Forall (fun b => block_num b <> -1 -> block_size b <= B) l -> m = length l ->
  exists good fs' o', replay_blocks B (written s fs o) t i m = Some (good, written s fs' o') /\
    (good = true -> fs' = foldl (write_bucket j) fs l) /\ (o = [] -> good = true /\ o' = []) /\ partly l fs fs'.
Proof using Hdev Hio.
  intros l. revert m. induction l as [|b l IH]; intros m t i fs o tail Hi E Hok Hs HB ->.
  { exists true, fs, o. split; [done|]. split; [done|]. split; [done|]. intros x. by left. }
  apply Forall_cons in Hok as [Hb Hok]. apply StronglySorted_cons in Hs as [Hap Hs]. apply Forall_cons in HB as [HbB HB].
  pose proof Hb as [Hn Hsz Hw Ho Hal Hend]. cbn [replay_blocks length]. rewrite (at_index_drop (co_buf t) i b (l ++ tail)) by done.
  cbn [mbind option_bind]. rewrite (proj2 (Z.eqb_neq (block_num b) (-1))) by lia. specialize (HbB ltac:(lia)).
  destruct (read_written s fs o (jnl_offset b) (block_size b) (replicate (Z.to_nat B) 0)) as (off & Er); try done; [lia|rewrite length_replicate; lia|].
  rewrite Er. cbn [mbind option_bind]. rewrite Z.eqb_refl. cbn [negb].
  destruct (update_fs_block_ok s fs o b (drop (Z.to_nat (block_size b)) (replicate (Z.to_nat B) 0)) Hb) as (err & fs1 & o1 & Eu & H1 & H2 & H3).
  rewrite Eu. cbn [mbind option_bind]. destruct (Z.eqb_spec err 0) as [He|He]; cbn [negb].
  - destruct (IH (length l) t (i + 1) fs1 o1 tail) as (good & fs2 & o2 & E2 & G1 & G2 & G3); try done; [lia|by rewrite (drop_next (co_buf t) i b (l ++ tail))|].
    exists good, fs2, o2. split; [done|]. split; [intros Hg; rewrite (G1 Hg), (H1 He); done|].
    split; [intros Ho0; apply G2, (H2 Ho0)|]. by eapply partly_cons.
  - exists false, fs1, o1. split; [done|]. split; [done|]. split; [intros Ho0; destruct (H2 Ho0); lia|].
    eapply partly_cons; [done|done|exact H3|]. intros x. by left.
Qed.

(** ** The header *)

Hypothesis Hbuf : header_buffer_ok j.

Lemma write_header_ok s seq fs o : exists j', write_journal_header true seq (written s fs o) =
    Some (0, j') /\ fsdev j' = fs /\ jhdr j' = stamp_header seq (set_range s s h) /\
    put_bytes (jdev j) (jdev_offset j) (take (Z.to_nat bsz) (header_bytes (jhdr j') ++ header_rest j)) = Some (jdev j').
Proof using Hdev Hio Hbuf.
  assert (device_ok (written s fs o)) as Hd by (destruct Hdev as [[? ? ?] ? ? ? ? ?]; by split).
  assert (header_buffer_ok (written s fs o)) as Hb by (destruct Hbuf as [Hb ?]; split; [|done]; rewrite length_app, ?length_header_bytes in *; exact Hb).
  destruct (write_journal_header_ok true seq (written s fs o) Hd Hio Hb) as (j' & E & [(d & n & ->) Hput]).
  by eexists.
Qed.

(** ** replay_journal *)

(** The journal is empty, and its header on the device says so. *)
Definition emptied (pos : Z) (j' : journal) : Prop :=
  jhdr j' = stamp_header (jh_sequence_num h) (set_range pos pos h) /\
  put_bytes (jdev j) (jdev_offset j) (take (Z.to_nat bsz) (header_bytes (jhdr j') ++ header_rest j)) = Some (jdev j').

(** Some bytes of the log are written. *)
Definition partly_applied (ws : list log_write) (fs fs' : gmap Z Z) : Prop :=
  forall x, fs' !! x = fs !! x \/ exists p, last_write j ws x = Some p /\ fs' !! x = Some (at_journal j p).

Lemma wrap_range_ring : 0 < bsz < jsz -> bsz <= jh_start h <= jsz -> bsz <= jh_end h <= jsz ->
  wrap_range h = set_range (ring h (jh_start h)) (ring h (jh_end h)) h.
Proof.
  intros Hb Hs He. unfold wrap_range, ring.
  destruct (Z.eqb_spec (jh_start h) jsz), (Z.eqb_spec (jh_end h) jsz), (Z.leb_spec jsz (jh_start h)), (Z.leb_spec jsz (jh_end h)); try lia; f_equal; lia.
Qed.

Lemma replay_journal_run p checked hs pos fuel : 0 <= p -> replayable j checked hs pos -> (length hs + 1 < fuel)%nat ->
  exists r j', replay_journal (2 ^ p) j fuel = Some (r, j') /\
    (r = 0 /\ fsdev j' = apply_writes j (log_writes j hs) (fsdev j) /\ emptied pos j' \/
     r = -1 /\ fsdev_io j <> [] /\ jdev j' = jdev j /\ partly_applied (log_writes j hs) (fsdev j) (fsdev j')).
Proof using Hdev Hio Hbuf.
  intros Hp Hrep Hf. pose proof Hrep as [Hb1 Hb2 Hs Hal He Hne Hchain Hroom].
  destruct Hchain as (hs1 & hs2 & last1 & last & -> & _ & Hc1 & Hc2 & _).
  assert (Forall (fun w => 0 <= lw_size w) (log_writes j (hs1 ++ hs2))) as Hsizes.
  { rewrite log_writes_app. apply Forall_app. split; by eapply chain_sizes. }
  destruct (replay_loop_ok j Hdev Hio Hb1 Hb2 checked _ pos fuel Hrep Hf) as (r & Eloop & [Rj [(l & [(stale & Et & _ & _) Hok Hsorted] & Hsrc) _] _]).
  unfold replay_journal. rewrite wrap_range_ring; [|destruct Hdev as [[? ? ?] _ _ _ _ _]; lia|done|done].
  cbn [set_range jh_start jh_end]. rewrite (proj2 (Z.eqb_neq _ _)) by done.
  fold (ranged j (ring h (jh_start h)) (ring h (jh_end h))). rewrite Eloop. cbn [mbind option_bind negb].
  unfold replay_finish. rewrite Rj. change (jh_start (jhdr (ranged j pos pos))) with pos. change (jh_end (jhdr (ranged j pos pos))) with pos.
  rewrite Z.eqb_refl. cbn [negb].
  pose proof (replay_bsize_ok p (rp_table r) l stale Hp Et) as HB.
  assert (num_full (rp_table r) = len l /\ co_buf (rp_table r) = l ++ stale) as [-> Ebuf] by by rewrite Et.
  destruct (replay_blocks_ok pos (replay_bsize (2 ^ p) (rp_table r)) (Z.to_nat (len l)) l (rp_table r) 0 (fsdev j) (fsdev_io j) stale)
    as (good & fs & o & Eb & G1 & G2 & G3); try done; [lia|].
  change (written pos (fsdev j) (fsdev_io j)) with (ranged j pos pos) in Eb. rewrite Eb. cbn [mbind option_bind].
  destruct good; cbn [negb].
  - change (jh_sequence_num (jhdr (written pos fs o))) with (jh_sequence_num h).
    destruct (write_header_ok pos (jh_sequence_num h) fs o) as (j' & Ew & Hfs & Hh & Hput). rewrite Ew. cbn [mbind option_bind].
    exists 0, j'. split; [done|]. left. split; [done|]. split; [|done].
    rewrite Hfs, (G1 eq_refl). apply map_eq. intros x. rewrite (lookup_write_buckets j l Hok Hsorted), lookup_apply_writes by done. by rewrite Hsrc.
  - eexists _, _. split; [reflexivity|]. right. split; [done|]. split; [intros Ho; by destruct (G2 Ho)|]. split; [done|].
    intros x. destruct (G3 x) as [Hx|(q & Hq & Hx)]; [by left|]. right. exists q. by rewrite <- Hsrc.
Qed.
End Replay.

(** ** Replaying again *)

(** A journal with the same log. *)
Definition with_fs (fs : gmap Z Z) (j : journal) : journal := with_fsdev fs [] j.

Lemma chain_fs j fs checked last pos hs last' pos' : log_chain j checked last pos hs last' pos' ->
  log_chain (with_fs fs j) checked last pos hs last' pos'.
Proof. induction 1 as [|? ? ? ? ? ? ? [? ? ? ? ? ? ? ?]]; econstructor; try done; by split. Qed.

Lemma replayable_fs j fs checked hs pos : replayable j checked hs pos -> replayable (with_fs fs j) checked hs pos.
Proof.
  intros [? ? ? ? ? ? (hs1 & hs2 & last1 & last & Hhs & Hne & Hc1 & Hc2 & Hst) ?]. split; try done.
  exists hs1, hs2, last1, last. split; [done|]. split; [done|]. split; [exact (chain_fs j fs _ _ _ _ _ _ Hc1)|]. split; [exact (chain_fs j fs _ _ _ _ _ _ Hc2)|done].
Qed.

Lemma partly_applied_again j ws fs fs' : Forall (fun w => 0 <= lw_size w) ws -> partly_applied j ws fs fs' ->
  apply_writes j ws fs' = apply_writes j ws fs.
Proof.
  intros Hws Hp. apply map_eq. intros x. rewrite !lookup_apply_writes by done.
  destruct (Hp x) as [Hx|(p & Hl & _)]; [|by rewrite Hl]. destruct (last_write j ws x); [done|]. exact Hx.
Qed.

(** ** The theorems *)

(** read_journal_data gives the bytes of the ring of the journal from a position on,
    however the requests to the device are cut, and going on behind the journal header
    when it reaches the end of the journal; the offset it leaves is where the bytes end. *)
Theorem read_journal_data_correct j off n buf : device_ok j -> jdev_io j = [] ->
  jhdr_size (jhdr j) <= off <= jh_size (jhdr j) -> (jhdr_size (jhdr j) | off) ->
  0 < n < jh_size (jhdr j) - jhdr_size (jhdr j) -> n <= len buf ->
  exists off', read_journal_data j off buf n = Some (n, off', log_bytes j off n ++ drop (Z.to_nat n) buf, j) /\
    jhdr_size (jhdr j) <= off' <= jh_size (jhdr j) /\ ring (jhdr j) off' = ring (jhdr j) (off + n).
Proof.
  intros Hdev Hio Ho Hal Hn Hbuf. destruct (read_journal_data_ok j Hdev off n buf Hio Ho Hal ltac:(lia) Hbuf) as (off' & E & Hend & Hr).
  exists off'. split; [done|]. split; [done|]. apply Hr. lia.
Qed.

(** C20: add_block makes the bytes of the block come from its place in the journal, and
    those of all other bytes of the file system from where they came from, whatever
    entries of the table the block overlaps: before it, behind it, inside of it or around
    it.  The table stays sorted without overlaps, there is no panic and no access outside
    of the table, which grows when it has to. *)
Theorem add_block_correct h n t l num size offset ck : geometry_ok h -> coalesced h t l -> roomy n t ->
  2 * n + STARTING_BUCKETS + 4 < 2 ^ 29 -> block_ok h num size -> jhdr_size h <= offset <= jh_size h -> (jhdr_size h | offset) ->
  exists i t' l', add_block h num size offset ck t = Some (i, t') /\ 0 <= i /\ coalesced h t' l' /\ roomy (n + 2) t' /\
    forall x, source h l' x =
      if (num * jhdr_size h <=? x) && (x <? num * jhdr_size h + size) then Some (ring h (offset + (x - num * jhdr_size h)))
      else source h l x.
Proof. intros Hg. by apply (add_block_spec h Hg n). Qed.

(** C9: When the devices have no errors, replay_journal returns 0, the file system is as
    if all blocks of the log were written one after the other, and the journal is empty:
    start and end are behind the last header, in memory and on the device.  The log ends
    where no header with a checksum and a sequence number that fits follows, at the end
    that the journal header tells or behind it. *)
Theorem replay_journal_correct j p checked hs pos fuel : device_ok j -> header_buffer_ok j -> jdev_io j = [] -> fsdev_io j = [] ->
  0 <= p -> replayable j checked hs pos -> (length hs + 1 < fuel)%nat ->
  exists j', replay_journal (2 ^ p) j fuel = Some (0, j') /\
    fsdev j' = apply_writes j (log_writes j hs) (fsdev j) /\ emptied j pos j'.
Proof.
  intros Hdev Hbuf Hio Hfs Hp Hrep Hf.
  destruct (replay_journal_run j Hdev Hio Hbuf p checked hs pos fuel Hp Hrep Hf) as (r & j' & E & [(-> & H)|(_ & H & _)]); [|done].
  by exists j'.
Qed.

(** C10: If a write to the file system fails, or leaves half of a block, replay_journal
    returns -1 and the journal on the device is as it was; replaying it again, on the
    file system as it is then, gives what replaying it without the failure would have. *)
Theorem replay_after_failure j p checked hs pos fuel : device_ok j -> header_buffer_ok j -> jdev_io j = [] ->
  0 <= p -> replayable j checked hs pos -> (length hs + 1 < fuel)%nat ->
  exists r j1, replay_journal (2 ^ p) j fuel = Some (r, j1) /\
    (r = 0 /\ fsdev j1 = apply_writes j (log_writes j hs) (fsdev j) /\ emptied j pos j1 \/
     r = -1 /\ jdev j1 = jdev j /\
     exists j2, replay_journal (2 ^ p) (with_fs (fsdev j1) j) fuel = Some (0, j2) /\
       fsdev j2 = apply_writes j (log_writes j hs) (fsdev j) /\ emptied j pos j2).
Proof.
  intros Hdev Hbuf Hio Hp Hrep Hf.
  destruct (replay_journal_run j Hdev Hio Hbuf p checked hs pos fuel Hp Hrep Hf) as (r & j1 & E & [H|(-> & _ & Hj & Hpart)]);
    exists r, j1 || exists (-1), j1; (split; [done|]); [by left|right].
  split; [done|]. split; [done|].
  assert (device_ok (with_fs (fsdev j1) j)) as Hdev2 by (destruct Hdev as [[? ? ?] ? ? ? ? ?]; by split).
  assert (header_buffer_ok (with_fs (fsdev j1) j)) as Hbuf2 by (destruct Hbuf; by split).
  destruct (replay_journal_run (with_fs (fsdev j1) j) Hdev2 Hio Hbuf2 p checked hs pos fuel Hp (replayable_fs _ _ _ _ _ Hrep) Hf)
    as (r2 & j2 & E2 & [(-> & H2 & H3)|(_ & H2 & _)]); [|done].
  exists j2. split; [done|]. split; [|done]. rewrite H2. apply (partly_applied_again j); [|done].
  destruct Hrep as [_ _ _ _ _ _ (hs1 & hs2 & last1 & last & -> & _ & Hc1 & Hc2 & _) _].
  rewrite log_writes_app. apply Forall_app. split; by eapply chain_sizes.
Qed.
