(* ===== verification/BlhdrOrder.v ===== *)
(** * Journals of machines with the other byte order (core/hfs_journal.c)

    A journal is in the byte order of the machine that wrote it.  When that is the other
    one, the integers of a header are swapped after its checksum was computed. *)

From S2P Require Import Prelude HfsFormat Bytes JournalIO JournalCoalesce JournalReplay JournalIOProps.

(** ** Integers in both orders *)

(** The bytes of an integer on the disk. *)
Definition store (swapped : bool) (n : nat) (v : Z) : bytes := if swapped then rev (le_bytes n v) else le_bytes n v.

Lemma length_store sw n v : length (store sw n v) = n.
Proof. unfold store. destruct sw; [rewrite length_rev|]; apply length_le_bytes. Qed.

Lemma le_bytes_value bs : Forall byte_ok bs -> le_bytes (length bs) (le_value bs) = bs.
Proof.
  induction 1 as [|b bs Hb Hbs IH]; [done|]. cbn [length le_bytes le_value]. unfold byte_ok in Hb.
  replace (b + 256 * le_value bs) with (b + le_value bs * 256) by lia.
  rewrite Z.mod_add, Z.mod_small by lia. rewrite Z.div_add, Z.div_small by lia. by rewrite Z.add_0_l, IH.
Qed.

Lemma le_bytes_mod n v w : v mod 2 ^ (8 * Z.of_nat n) = w mod 2 ^ (8 * Z.of_nat n) -> le_bytes n v = le_bytes n w.
Proof.
  intros E. rewrite <- !le_value_bytes in E.
  rewrite <- (le_bytes_value (le_bytes n v)), <- (le_bytes_value (le_bytes n w)) by apply le_bytes_ok.
  by rewrite !length_le_bytes, E.
Qed.

Lemma swap_store n v w : w mod 2 ^ (8 * Z.of_nat n) = le_value (store true n v) mod 2 ^ (8 * Z.of_nat n) ->
  swap_bytes n w = v mod 2 ^ (8 * Z.of_nat n).
Proof.
  intros E. unfold swap_bytes. rewrite (le_bytes_mod n w _ E). cbn [store].
  assert (Forall byte_ok (rev (le_bytes n v))) as Hok by (apply List.Forall_rev, le_bytes_ok).
  pose proof (le_bytes_value _ Hok) as Hv. rewrite length_rev, length_le_bytes in Hv. rewrite Hv, rev_involutive. apply le_value_bytes.
Qed.

(** What the code reads, in its own order or swapped. *)
Definition fetched (sw : bool) (n : nat) (v : Z) : Z := if sw then swap_bytes n v else v.

Lemma fetch_unsigned sw n v : 0 <= v < 2 ^ (8 * Z.of_nat n) -> fetched sw n (le_value (store sw n v)) = v.
Proof.
  intros Hv. destruct sw; cbn [fetched].
  - rewrite (swap_store n v) by done. by apply Z.mod_small.
  - cbn [store]. rewrite le_value_bytes. by apply Z.mod_small.
Qed.

Lemma swrap_mod w x : 0 < w -> swrap w x mod 2 ^ w = x mod 2 ^ w.
Proof.
  intros Hw. assert (2 ^ w = 2 * 2 ^ (w - 1)) as E by (rewrite <- Z.pow_succ_r by lia; f_equal; lia).
  assert (0 < 2 ^ (w - 1)) by (apply Z.pow_pos_nonneg; lia).
  unfold swrap. rewrite Zminus_mod_idemp_l. f_equal. lia.
Qed.

Lemma swrap_of_mod w x : 0 < w -> - 2 ^ (w - 1) <= x < 2 ^ (w - 1) -> swrap w (x mod 2 ^ w) = x.
Proof.
  intros Hw Hx. rewrite <- (swrap_id w x) at 2 by done. unfold swrap. by rewrite Z.add_mod_idemp_l by (apply Z.pow_nonzero; lia).
Qed.

Lemma fetch_signed sw n v : (0 < n)%nat -> - 2 ^ (8 * Z.of_nat n - 1) <= v < 2 ^ (8 * Z.of_nat n - 1) ->
  swrap (8 * Z.of_nat n) (fetched sw n (swrap (8 * Z.of_nat n) (le_value (store sw n v)))) = v.
Proof.
  intros Hn Hv. destruct sw; cbn [fetched].
  - rewrite (swap_store n v) by (apply swrap_mod; lia). apply swrap_of_mod; [lia|done].
  - cbn [store]. rewrite le_value_bytes, swrap_of_mod by (done || lia). apply swrap_id; [lia|done].
Qed.

(** ** Headers in both orders *)

Definition store_info (sw : bool) (b : block_info) : bytes := store sw 8 (bnum b) ++ store sw 4 (bsize b) ++ store sw 4 (bi_word b).

(** The entries behind those of the header's blocks are whatever they are. *)
Definition store_entries (sw : bool) (b : block_list_header) : bytes :=
  concat (store_info sw <$> take (Z.to_nat (num_blocks b)) (binfo b)) ++ concat (store_info false <$> drop (Z.to_nat (num_blocks b)) (binfo b)).

Definition store_blhdr (sw : bool) (b : block_list_header) : bytes :=
  store sw 2 (max_blocks b) ++ store sw 2 (num_blocks b) ++ store sw 4 (bytes_used b) ++ store sw 4 (bl_checksum b) ++
  store sw 4 (bl_flags b) ++ store_entries sw b.

Definition set_bl_checksum (c : Z) (b : block_list_header) : block_list_header :=
  mkBlhdr (max_blocks b) (num_blocks b) (bytes_used b) c (bl_flags b) (binfo b).

(** With the checksum of its first bytes. *)
Definition seal_blhdr (sw : bool) (b : block_list_header) : block_list_header :=
  set_bl_checksum (calc_checksum (take 32 (store_blhdr sw (set_bl_checksum 0 b)))) b.

Definition info_ok (b : block_info) : Prop :=
  - 2 ^ 63 <= bnum b < 2 ^ 63 /\ - 2 ^ 31 <= bsize b < 2 ^ 31 /\ 0 <= bi_word b < 2 ^ 32.

Record blhdr_ok (b : block_list_header) : Prop := {
  bh_max : 0 <= max_blocks b < 2 ^ 16;
  bh_num : 0 <= num_blocks b < 2 ^ 16;
  bh_used : - 2 ^ 31 <= bytes_used b < 2 ^ 31;
  bh_flags : - 2 ^ 31 <= bl_flags b < 2 ^ 31;
  bh_info : Forall info_ok (binfo b);
}.

(** An entry as it is read, before it is swapped. *)
Definition raw_info (sw : bool) (b : block_info) : block_info :=
  mkBinfo (s64 (le_value (store sw 8 (bnum b)))) (s32 (le_value (store sw 4 (bsize b)))) (le_value (store sw 4 (bi_word b))).

Lemma raw_info_native b : info_ok b -> raw_info false b = b.
Proof.
  intros (Hn & Hs & Hw). destruct b as [n s w]. unfold raw_info. cbn [bnum bsize bi_word store] in *. rewrite !le_value_bytes.
  f_equal; [apply (swrap_of_mod 64); [lia|done]|apply (swrap_of_mod 32); [lia|done]|by apply Z.mod_small].
Qed.

Lemma swap_raw_info b : info_ok b -> swap_block_info (raw_info true b) = b.
Proof.
  intros (Hn & Hs & Hw). destruct b as [n s w]. unfold swap_block_info, raw_info. cbn [bnum bsize bi_word] in *.
  f_equal; [apply (fetch_signed true 8); [lia|done]|apply (fetch_signed true 4); [lia|done]|by apply (fetch_unsigned true 4)].
Qed.

Lemma ld_word_store n A B sw v off : off = len A -> ld_word n (A ++ store sw n v ++ B) off = Some (le_value (store sw n v)).
Proof. intros ->. unfold ld_word. rewrite get_bytes_app by (rewrite ?length_store; done). done. Qed.

Lemma load_binfo_store sw l : forall A B off, off = len A ->
  load_binfo (A ++ concat (store_info sw <$> l) ++ B) off (length l) = Some (raw_info sw <$> l).
Proof.
  induction l as [|b l IH]; intros A B off ->; [done|]. cbn [fmap list_fmap concat length load_binfo].
  change (store_info sw b) with (store sw 8 (bnum b) ++ store sw 4 (bsize b) ++ store sw 4 (bi_word b)). rewrite <- !app_assoc.
  set (R := concat _ ++ B). rewrite ld_word_store by done. cbn [mbind option_bind].
  rewrite (app_assoc A), (ld_word_store 4 _ _ sw (bsize b) (len A + 8)) by (rewrite length_app, length_store; lia). cbn [mbind option_bind].
  rewrite (app_assoc (A ++ _)), (ld_word_store 4 _ _ sw (bi_word b) (len A + 12)) by (rewrite !length_app, !length_store; lia). cbn [mbind option_bind].
  rewrite (app_assoc ((A ++ _) ++ _)). unfold R. rewrite IH by (rewrite !length_app, !length_store; lia). done.
Qed.

Lemma length_store_info sw l : length (concat (store_info sw <$> l)) = (16 * length l)%nat.
Proof.
  induction l as [|b l IH]; [done|]. cbn [fmap list_fmap concat length]. rewrite length_app, IH.
  unfold store_info. rewrite !length_app, !length_store. lia.
Qed.

Lemma load_binfo_app b l1 l2 off n1 n2 : load_binfo b off n1 = Some l1 -> load_binfo b (off + 16 * Z.of_nat n1) n2 = Some l2 ->
  load_binfo b off (n1 + n2) = Some (l1 ++ l2).
Proof.
  revert l1 off. induction n1 as [|n1 IH]; intros l1 off H1 H2; cbn [load_binfo Nat.add] in *.
  { injection H1 as <-. rewrite Z.mul_0_r, Z.add_0_r in H2. done. }
  destruct (ld_word 8 b off), (ld_word 4 b (off + 8)), (ld_word 4 b (off + 12)); try done. cbn [mbind option_bind] in *.
  destruct (load_binfo b (off + 16) n1) as [l|] eqn:El; [|done]. cbn [mbind option_bind] in H1. injection H1 as <-.
  rewrite (IH l (off + 16) El) by (rewrite <- H2; f_equal; lia). done.
Qed.

(** What load_blhdr reads. *)
Definition raw_blhdr (sw : bool) (b : block_list_header) : block_list_header :=
  mkBlhdr (le_value (store sw 2 (max_blocks b))) (le_value (store sw 2 (num_blocks b))) (s32 (le_value (store sw 4 (bytes_used b))))
    (le_value (store sw 4 (bl_checksum b))) (s32 (le_value (store sw 4 (bl_flags b))))
    ((raw_info sw <$> take (Z.to_nat (num_blocks b)) (binfo b)) ++ (raw_info false <$> drop (Z.to_nat (num_blocks b)) (binfo b))).

Lemma ld_word_at n P R sw v off S : S = P ++ store sw n v ++ R -> off = len P -> ld_word n S off = Some (le_value (store sw n v)).
Proof. intros -> ->. by apply ld_word_store. Qed.

Lemma load_store_blhdr sw b : load_blhdr (store_blhdr sw b) (length (binfo b)) = Some (raw_blhdr sw b).
Proof.
  set (X1 := store sw 2 (max_blocks b)). set (X2 := store sw 2 (num_blocks b)). set (X3 := store sw 4 (bytes_used b)).
  set (X4 := store sw 4 (bl_checksum b)). set (X5 := store sw 4 (bl_flags b)).
  assert (store_blhdr sw b = X1 ++ X2 ++ X3 ++ X4 ++ X5 ++ store_entries sw b) as ES by done.
  assert (length X1 = 2%nat /\ length X2 = 2%nat /\ length X3 = 4%nat /\ length X4 = 4%nat /\ length X5 = 4%nat) as (L1 & L2 & L3 & L4 & L5)
    by (split_and!; apply length_store).
  unfold load_blhdr.
  rewrite (ld_word_at 2 [] _ sw (max_blocks b) 0 _ ES) by done. cbn [mbind option_bind].
  rewrite (ld_word_at 2 X1 _ sw (num_blocks b) 2 _ ES) by lia. cbn [mbind option_bind].
  rewrite (ld_word_at 4 (X1 ++ X2) (X4 ++ X5 ++ store_entries sw b) sw (bytes_used b) 4) by (rewrite ?ES, ?length_app, <- ?app_assoc; done || lia). cbn [mbind option_bind].
  rewrite (ld_word_at 4 (X1 ++ X2 ++ X3) (X5 ++ store_entries sw b) sw (bl_checksum b) 8) by (rewrite ?ES, ?length_app, <- ?app_assoc; done || lia). cbn [mbind option_bind].
  rewrite (ld_word_at 4 (X1 ++ X2 ++ X3 ++ X4) (store_entries sw b) sw (bl_flags b) 12) by (rewrite ?ES, ?length_app, <- ?app_assoc; done || lia). cbn [mbind option_bind].
  set (F := X1 ++ X2 ++ X3 ++ X4 ++ X5).
  assert (len F = 16) as HF by (unfold F; rewrite !length_app; lia).
  set (n := Z.to_nat (num_blocks b)).
  assert (store_blhdr sw b = F ++ concat (store_info sw <$> take n (binfo b)) ++ concat (store_info false <$> drop n (binfo b))) as EF
    by (rewrite ES; unfold F; by rewrite <- !app_assoc).
  rewrite EF. replace (length (binfo b)) with (length (take n (binfo b)) + length (drop n (binfo b)))%nat by (rewrite <- length_app, take_drop; done).
  rewrite (load_binfo_app _ (raw_info sw <$> take n (binfo b)) (raw_info false <$> drop n (binfo b))); [done| |].
  - apply load_binfo_store. lia.
  - rewrite <- (app_nil_r (concat (store_info false <$> drop n (binfo b)))), (app_assoc F). apply load_binfo_store. rewrite length_app, length_store_info. lia.
Qed.

Lemma put_checksum sw b : put_bytes (store_blhdr sw b) 8 (le_bytes 4 0) = Some (store_blhdr sw (set_bl_checksum 0 b)).
Proof.
  assert (store sw 4 0 = le_bytes 4 0) as Hz by (destruct sw; reflexivity).
  unfold store_blhdr. cbn [set_bl_checksum max_blocks num_blocks bytes_used bl_checksum bl_flags]. rewrite Hz.
  change (store_entries sw (set_bl_checksum 0 b)) with (store_entries sw b).
  rewrite !(app_assoc (store sw 2 (max_blocks b))), !(app_assoc (_ ++ store sw 2 (num_blocks b))).
  apply put_bytes_app; [rewrite !length_app, !length_store; done|by rewrite length_store].
Qed.

Lemma length_store_entries sw b : length (store_entries sw b) = (16 * length (binfo b))%nat.
Proof. unfold store_entries. rewrite length_app, !length_store_info, length_take, length_drop. lia. Qed.

Lemma length_store_blhdr sw b : len (store_blhdr sw b) = 16 + 16 * len (binfo b).
Proof. unfold store_blhdr. rewrite !length_app, !length_store, length_store_entries. lia. Qed.

Lemma raw_blhdr_native b : blhdr_ok b -> raw_blhdr false (set_bl_checksum 0 b) = set_bl_checksum 0 b.
Proof.
  intros [Hm Hn Hu Hf Hi]. destruct b as [m n u c f info]. unfold raw_blhdr, set_bl_checksum. cbn [max_blocks num_blocks bytes_used bl_checksum bl_flags binfo] in *.
  rewrite <- fmap_app, take_drop. f_equal.
  - by apply (fetch_unsigned false 2).
  - by apply (fetch_unsigned false 2).
  - unfold s32. rewrite <- (fetch_signed false 4 u) at 2 by (done || lia). cbn [fetched store]. rewrite le_value_bytes. by rewrite !(swrap_of_mod 32), swrap_id by (done || lia).
  - unfold s32. rewrite <- (fetch_signed false 4 f) at 2 by (done || lia). cbn [fetched store]. rewrite le_value_bytes. by rewrite !(swrap_of_mod 32), swrap_id by (done || lia).
  - rewrite <- (list_fmap_id info) at 2. apply list_fmap_ext. intros i x Hx. apply raw_info_native. by eapply Forall_lookup_1.
Qed.

(** The fields of a header, when its entries are [info]. *)
Definition with_info (info : list block_info) (b : block_list_header) : block_list_header :=
  mkBlhdr (max_blocks b) (num_blocks b) (bytes_used b) (bl_checksum b) (bl_flags b) info.

Lemma swap_raw_blhdr h b : blhdr_ok b -> len (binfo b) = journal_max_blocks h -> 0 < num_blocks b <= len (binfo b) ->
  swap_block_list_header h (raw_blhdr true (set_bl_checksum 0 b)) =
    with_info (if journal_max_blocks h <=? num_blocks b then raw_info true <$> binfo b else binfo b) (set_bl_checksum 0 b).
Proof.
  intros [Hm Hn Hu Hf Hi] Hlen Hnum. destruct b as [m n u c f info]. unfold swap_block_list_header, raw_blhdr, with_info, set_bl_checksum.
  cbn [max_blocks num_blocks bytes_used bl_checksum bl_flags binfo] in *.
  assert (SWAP16 (le_value (store true 2 n)) = n) as -> by by apply (fetch_unsigned true 2).
  f_equal.
  - by apply (fetch_unsigned true 2).
  - apply (fetch_signed true 4); [lia|done].
  - apply (fetch_signed true 4); [lia|done].
  - destruct (Z.leb_spec (journal_max_blocks h) n).
    + rewrite take_ge, drop_ge by lia. by rewrite app_nil_r.
    + assert (length (raw_info true <$> take (Z.to_nat n) info) = Z.to_nat n) as Hl by (rewrite length_fmap, length_take; lia).
      rewrite take_app_length', drop_app_length' by done. rewrite <- list_fmap_compose.
      rewrite <- (take_drop (Z.to_nat n) info) in Hi. apply Forall_app in Hi as [Hi1 Hi2].
      transitivity (take (Z.to_nat n) info ++ drop (Z.to_nat n) info); [f_equal|apply take_drop].
      * rewrite <- (list_fmap_id (take _ info)) at 2. apply list_fmap_ext. intros i x Hx. apply swap_raw_info. exact (Forall_lookup_1 _ _ _ _ Hi1 Hx).
      * rewrite <- (list_fmap_id (drop _ info)) at 2. apply list_fmap_ext. intros i x Hx. apply raw_info_native. exact (Forall_lookup_1 _ _ _ _ Hi2 Hx).
Qed.

Lemma calc_checksum_bound l : 0 <= calc_checksum l < 2 ^ 32.
Proof. unfold calc_checksum, u32. by apply wrap_bound. Qed.

Section Decode.
Variables (j : journal) (b : block_list_header).
Notation sw := (ISSETJ j JOURNAL_NEED_SWAP).
Hypothesis Hsize : blhdr_size (jhdr j) mod 16 = 0.
Hypothesis Hentries : len (binfo b) = journal_max_blocks (jhdr j).
Hypothesis Hnum : 0 < num_blocks b <= len (binfo b).
Hypothesis Hok : blhdr_ok b.

Lemma decode_stored : decode_blhdr j (store_blhdr sw (seal_blhdr sw b)) =
  Some (if sw then with_info (if journal_max_blocks (jhdr j) <=? num_blocks b then raw_info true <$> binfo b else binfo b) (set_bl_checksum 0 b)
        else set_bl_checksum 0 b, true).
Proof using Hsize Hentries Hnum Hok.
  unfold decode_blhdr. rewrite Hsize. change (negb (0 =? 0)) with false. cbn match. rewrite <- Hentries, Nat2Z.id.
  rewrite (load_store_blhdr sw (seal_blhdr sw b) : load_blhdr _ (length (binfo b)) = _). cbn [mbind option_bind].
  rewrite put_checksum. change (set_bl_checksum 0 (seal_blhdr sw b)) with (set_bl_checksum 0 b). cbn [mbind option_bind].
  set (Z0 := store_blhdr sw (set_bl_checksum 0 b)).
  assert (len Z0 = 16 + 16 * len (binfo b)) as HZ by exact (length_store_blhdr sw (set_bl_checksum 0 b)).
  assert (get_bytes Z0 0 BLHDR_CHECKSUM_SIZE = Some (take 32 Z0)) as ->.
  { unfold get_bytes, BLHDR_CHECKSUM_SIZE. rewrite (proj2 (Z.leb_le (0 + 32) _)) by lia. done. }
  cbn [mbind option_bind]. 
  rewrite (load_store_blhdr sw (set_bl_checksum 0 b) : load_blhdr Z0 (length (binfo b)) = _). cbn [mbind option_bind].
  set (ck := calc_checksum (take 32 Z0)).
  assert (bl_checksum (raw_blhdr sw (seal_blhdr sw b)) = le_value (store sw 4 ck)) as -> by done.
  pose proof (fetch_unsigned sw 4 ck (calc_checksum_bound _)) as Hck.
  destruct sw; cbn [fetched] in Hck.
  - unfold SWAP32. rewrite Hck, Z.eqb_refl. rewrite swap_raw_blhdr by done. by rewrite <- Hentries.
  - rewrite Hck, Z.eqb_refl. by rewrite raw_blhdr_native.
Qed.
End Decode.

(** C21: A header that a machine of either byte order stored with its checksum is read as
    it was, and its checksum is found right: swapping undoes the other order.  In the
    other order this takes a free entry: num_blocks is less than the entries there are. *)
Theorem decode_blhdr_stored j b : blhdr_size (jhdr j) mod 16 = 0 -> len (binfo b) = journal_max_blocks (jhdr j) ->
  0 < num_blocks b <= len (binfo b) -> blhdr_ok b ->
  (ISSETJ j JOURNAL_NEED_SWAP = true -> num_blocks b < journal_max_blocks (jhdr j)) ->
  decode_blhdr j (store_blhdr (ISSETJ j JOURNAL_NEED_SWAP) (seal_blhdr (ISSETJ j JOURNAL_NEED_SWAP) b)) = Some (set_bl_checksum 0 b, true).
Proof.
  intros Hs He Hn Hok Hfree. rewrite decode_stored by done. destruct (ISSETJ j _); [|done].
  rewrite (proj2 (Z.leb_gt _ _)) by by apply Hfree. by destruct b.
Qed.

(** A header of the other order without a free entry keeps its entries unswapped, though
    its checksum is right. *)
Theorem decode_blhdr_full j b : blhdr_size (jhdr j) mod 16 = 0 -> len (binfo b) = journal_max_blocks (jhdr j) ->
  0 < num_blocks b -> num_blocks b = len (binfo b) -> blhdr_ok b -> ISSETJ j JOURNAL_NEED_SWAP = true ->
  decode_blhdr j (store_blhdr true (seal_blhdr true b)) = Some (with_info (raw_info true <$> binfo b) (set_bl_checksum 0 b), true).
Proof.
  intros Hs He Hn Hfull Hok Hsw. pose proof (decode_stored j b Hs He ltac:(lia) Hok) as E. rewrite Hsw in E. rewrite E.
  by rewrite (proj2 (Z.leb_le _ _)) by lia.
Qed.
