(* ===== verification/ReplayExample.v ===== *)
(** * A journal to replay

    A small journal with blocks of 64 bytes: a transaction at its end, whose header the
    journal header tells, and one behind it, at the start of the ring, which it does not
    tell.  The second writes three blocks over the first, and the middle one again. *)

From S2P Require Import Prelude HfsFormat Bytes JournalIO JournalCoalesce CoalesceProps JournalReplay JournalIOProps ReplayProps ReplayLoop ReplayCorrect BlhdrOrder.

Definition ex_info (b : block_info) : bytes := le_bytes 8 (bnum b) ++ le_bytes 4 (bsize b) ++ le_bytes 4 (bi_word b).

(** A header of 64 bytes with its checksum. *)
Definition ex_header (b : block_list_header) : bytes :=
  let front := le_bytes 2 (max_blocks b) ++ le_bytes 2 (num_blocks b) ++ le_bytes 4 (bytes_used b) in
  let back := le_bytes 4 (bl_flags b) ++ concat (ex_info <$> binfo b) in
  front ++ le_bytes 4 (calc_checksum (take 32 (front ++ [0; 0; 0; 0] ++ back))) ++ back.

Definition ex_data (first n : Z) : bytes := (fun k => (first + k) mod 256) <$> seqZ 0 n.

Definition ex_block1 : bytes := ex_data 1 64.
Definition ex_block2 : bytes := ex_data 100 192.
Definition ex_block3 : bytes := ex_data 7 64.

Definition ex_blhdr1 : block_list_header :=
  mkBlhdr 3 2 128 0 3 [mkBinfo 0 0 41; mkBinfo 5 64 (calc_checksum ex_block1); mkBinfo 0 0 0].
Definition ex_blhdr2 : block_list_header :=
  mkBlhdr 3 3 320 0 3 [mkBinfo 0 0 42; mkBinfo 4 192 (calc_checksum ex_block2); mkBinfo 5 64 0].

Definition ex_jhdr : journal_header := mkJhdr JOURNAL_HEADER_MAGIC ENDIAN_MAGIC 640 768 768 64 0 64 41.

(** 64 bytes before the journal, its header, the second transaction, free space, and the
    first transaction. *)
Definition ex_jdev : bytes :=
  replicate 64 9 ++ header_bytes ex_jhdr ++ replicate 16 0 ++
  ex_header ex_blhdr2 ++ ex_block2 ++ ex_block3 ++ replicate 256 0 ++ ex_header ex_blhdr1 ++ ex_block1.

Definition ex_journal : journal :=
  mkJournal ex_jhdr (replicate 16 0) ex_jdev 64 false 128 128 0 0 0 (write_fs 250 (replicate 300 33) ∅) [] [].
(** The same, with a file system that fails at the third write, of which ten bytes are done. *)
Definition ex_failing : journal :=
  with_fsdev (fsdev ex_journal) [mkFsOutcome 0 true true 0 0; mkFsOutcome 5 true true 0 0; mkFsOutcome 0 true true 5 10] ex_journal.

Definition ex_log : list (Z * block_list_header) := [(640, ex_blhdr1); (64, ex_blhdr2)].

Ltac divide k := exists k; reflexivity.

Lemma ex_geometry : geometry_ok ex_jhdr.
Proof. split; [reflexivity|by split|divide 12]. Qed.

Lemma ex_device_ok : device_ok ex_journal.
Proof.
  split; [exact ex_geometry|by split|divide 1| |reflexivity|left; divide 2].
  apply Z.leb_le. vm_compute. reflexivity.
Qed.

Lemma ex_buffer_ok : header_buffer_ok ex_journal.
Proof. split; apply Z.leb_le; vm_compute; reflexivity. Qed.

Lemma ex_block_ok num size k : 0 <= num <= 100 -> size = k * 64 -> 0 < k < 11 -> block_ok ex_jhdr num size.
Proof. intros Hn -> Hk. split; cbn; [lia|lia|by exists k|unfold INT64_MAX; lia]. Qed.

Lemma ex_header1_ok : header_ok ex_journal true 640 ex_blhdr1.
Proof.
  split; [vm_compute; reflexivity|split; [reflexivity|apply Z.leb_le; reflexivity]|by split|by apply Z.leb_le|reflexivity| |by split|divide 2].
  cbn [header_blocks ex_blhdr1 num_blocks binfo]. change (take _ _) with [mkBinfo 5 64 (calc_checksum ex_block1)].
  split; [by split|]. split; [divide 1|]. split; [|done].
  intros _. split; [by apply (ex_block_ok 5 64 1)|]. intros _. right. vm_compute. reflexivity.
Qed.

Lemma ex_header2_ok : header_ok ex_journal true 64 ex_blhdr2.
Proof.
  split; [vm_compute; reflexivity|split; [reflexivity|apply Z.leb_le; reflexivity]|by split|by apply Z.leb_le|reflexivity| |by split|divide 5].
  cbn [header_blocks ex_blhdr2 num_blocks binfo]. change (take _ _) with [mkBinfo 4 192 (calc_checksum ex_block2); mkBinfo 5 64 0].
  split; [by split|]. split; [divide 3|]. split; [|split; [by split|split; [divide 1|split; [|done]]]].
  - intros _. split; [by apply (ex_block_ok 4 192 3)|]. intros _. right. vm_compute. reflexivity.
  - intros _. split; [by apply (ex_block_ok 5 64 1)|]. intros _. by left.
Qed.

Lemma ex_replayable : replayable ex_journal true ex_log 384.
Proof.
  split; [by split|divide 1|by split|divide 10|by split|vm_compute; discriminate| |vm_compute; reflexivity].
  exists [(640, ex_blhdr1)], [(64, ex_blhdr2)], 41, 42. split; [done|]. split; [done|]. split; [|split].
  - apply (ChainNext _ _ _ _ _ 41); [exact ex_header1_ok|reflexivity|done|reflexivity|]. apply ChainEnd.
  - apply (ChainNext _ _ _ _ _ 42); [exact ex_header2_ok|reflexivity|done|reflexivity|]. apply ChainEnd.
  - eexists _, false. split; [vm_compute; reflexivity|by left].
Qed.

Lemma read_journal_data_correct_witness : exists off',
  read_journal_data ex_journal 640 (replicate 192 0) 192 = Some (192, off', log_bytes ex_journal 640 192 ++ [], ex_journal) /\
  64 <= off' <= 768 /\ ring ex_jhdr off' = ring ex_jhdr 832.
Proof.
  apply (read_journal_data_correct ex_journal 640 192 (replicate 192 0)); [exact ex_device_ok|reflexivity|by split|divide 10|by split|done].
Defined.

(** The second block of the second transaction splits the first. *)
Lemma add_block_correct_witness : exists i t' l', add_block ex_jhdr 5 64 320 0 (mkTable [mkBucket 4 128 192 0; free_bucket] 1) = Some (i, t') /\
  0 <= i /\ coalesced ex_jhdr t' l' /\ roomy 3 t' /\
  forall x, source ex_jhdr l' x = if (320 <=? x) && (x <? 384) then Some (ring ex_jhdr (320 + (x - 320)))
    else source ex_jhdr [mkBucket 4 128 192 0] x.
Proof.
  apply (add_block_correct ex_jhdr 1 (mkTable [mkBucket 4 128 192 0; free_bucket] 1) [mkBucket 4 128 192 0] 5 64 320 0);
    [exact ex_geometry| |by split|reflexivity|by apply (ex_block_ok 5 64 1)|by split|divide 5].
  split; [exists [free_bucket]; split; [done|split; [done|by repeat constructor]]| |by repeat constructor].
  constructor; [|constructor]. split; cbn; [done|done|divide 3|done|divide 2|vm_compute; discriminate].
Defined.

Lemma replay_journal_correct_witness : exists j', replay_journal (2 ^ 12) ex_journal 4 = Some (0, j') /\
  fsdev j' = apply_writes ex_journal (log_writes ex_journal ex_log) (fsdev ex_journal) /\ emptied ex_journal 384 j'.
Proof.
  apply (replay_journal_correct ex_journal 12 true ex_log 384 4);
    [exact ex_device_ok|exact ex_buffer_ok|reflexivity|reflexivity|done|exact ex_replayable|cbn; lia].
Defined.

Lemma replay_after_failure_witness : exists r j1, replay_journal (2 ^ 12) ex_failing 4 = Some (r, j1) /\
  (r = 0 /\ fsdev j1 = apply_writes ex_failing (log_writes ex_failing ex_log) (fsdev ex_failing) /\ emptied ex_failing 384 j1 \/
   r = -1 /\ jdev j1 = jdev ex_failing /\
   exists j2, replay_journal (2 ^ 12) (with_fs (fsdev j1) ex_failing) 4 = Some (0, j2) /\
     fsdev j2 = apply_writes ex_failing (log_writes ex_failing ex_log) (fsdev ex_failing) /\ emptied ex_failing 384 j2).
Proof.
  apply (replay_after_failure ex_failing 12 true ex_log 384 4); [|by destruct ex_buffer_ok; split|reflexivity|done| |cbn; lia].
  - destruct ex_device_ok as [[? ? ?] ? ? ? ? ?]. by split.
  - destruct ex_replayable as [? ? ? ? ? ? (hs1 & hs2 & last1 & last & Hhs & Hne & Hc1 & Hc2 & Hst) ?]. split; try done.
    exists hs1, hs2, last1, last. split; [done|]. split; [done|].
    assert (forall a b c d e, log_chain ex_journal true a b c d e -> log_chain ex_failing true a b c d e) as Htr.
    { induction 1 as [|? ? ? ? ? ? ? [? ? ? ? ? ? ? ?]]; econstructor; try done; by split. }
    split; [by apply Htr|]. split; [by apply Htr|done].
Defined.

(** What is on the disk then: the bytes of block 5 are those of the last write. *)
Example ex_replayed : (fun '(r, j) => (r, fsdev j !! 319, fsdev j !! 320, fsdev j !! 383, fsdev j !! 384, jh_start (jhdr j))) <$>
  replay_journal (2 ^ 12) ex_journal 4 = Some (0, Some 163, Some 7, Some 70, Some 228, 384).
Proof. vm_compute. reflexivity. Qed.

(** The first header as a machine of the other order stores it. *)
Definition ex_swapped : journal := with_flush JOURNAL_NEED_SWAP 0 0 ex_journal.

Lemma decode_blhdr_stored_witness : decode_blhdr ex_swapped (store_blhdr true (seal_blhdr true ex_blhdr1)) = Some (ex_blhdr1, true).
Proof.
  apply (decode_blhdr_stored ex_swapped ex_blhdr1); [reflexivity|reflexivity|by split|split; cbn; try lia|intros _; reflexivity].
  pose proof (calc_checksum_bound ex_block1). repeat constructor; cbn; lia.
Defined.

Lemma decode_blhdr_full_witness : decode_blhdr ex_swapped (store_blhdr true (seal_blhdr true ex_blhdr2)) =
  Some (with_info (raw_info true <$> binfo ex_blhdr2) ex_blhdr2, true).
Proof.
  apply (decode_blhdr_full ex_swapped ex_blhdr2); [reflexivity|reflexivity|done|reflexivity|split; cbn; try lia|reflexivity].
  pose proof (calc_checksum_bound ex_block2). repeat constructor; cbn; lia.
Defined.
