(* ===== verification/Volume.v ===== *)
(** * The state of the block allocator (core/VolumeAllocation.c, core/hfs.h)

    The part of struct hfsmount the allocator keeps, the summary table, the queues of
    reserved ranges, and the calls that keep the journal's trim lists in step with
    the bitmap.

    The entries of the two queues are shared: the holder of a reservation has a
    pointer to the entry that is on the queue, and the allocator changes entries it
    has no pointer back from.  So the entries live in a store, the queues and the
    reservations hold their addresses.

    The device is told of blocks it may forget (DKIOCUNMAP) or must map; that leaves
    no trace in this state.  The locks are not modelled, each operation is one step;
    hfs_assert is compiled to nothing that changes the state.  A result of [None] is
    a fault: a panic, an access outside of an array or through a dangling pointer. *)

From S2P Require Import Prelude HfsFormat RangeList FreeExtCache Bitmap JournalTrim.

(** ** Constants *)

Definition HFS_METADATA_ZONE : Z := 0x80.
Definition HFS_SKIP_UPDATE_NEXT_ALLOCATION : Z := 0x04000.
Definition HFS_SUMMARY_TABLE : Z := 0x800000.

Definition HFS_MIN_SUMMARY_BLOCKSIZE : Z := 4096.

Definition HFS_ALLOC_FORCECONTIG : Z := 0x001.
Definition HFS_ALLOC_METAZONE : Z := 0x002.
Definition HFS_ALLOC_SKIPFREEBLKS : Z := 0x004.
Definition HFS_ALLOC_FLUSHTXN : Z := 0x008.
Definition HFS_ALLOC_TENTATIVE : Z := 0x010.
Definition HFS_ALLOC_LOCKED : Z := 0x020.
Definition HFS_ALLOC_IGNORE_TENTATIVE : Z := 0x040.
Definition HFS_ALLOC_IGNORE_RESERVED : Z := 0x080.
Definition HFS_ALLOC_USE_TENTATIVE : Z := 0x100.
Definition HFS_ALLOC_COMMIT : Z := 0x200.
Definition HFS_ALLOC_TRY_HARD : Z := 0x400.
Definition HFS_ALLOC_ROLL_BACK : Z := 0x800.

(** ISSET, SET and CLR. *)
Definition ISSET (flags mask : Z) : bool := negb (Z.land flags mask =? 0).
Definition SET (flags mask : Z) : Z := Z.lor flags mask.
Definition CLR (flags mask : Z) : Z := Z.land flags (not32 mask).

(** ** State *)

(** The bitmap and the block I/O on it; see Bitmap.v. *)
Record bitmap := mkBitmap {
  bm_words : list Z;
  bm_iosize : Z;                (* vcbVBMIOSize *)
  bm_totalBlocks : Z;
  bm_inconsistent : bool;
  bm_io : list Z;
}.

(** hfs_reserved_ranges: the entries by address, and the queues. *)
Inductive reserved_list := HFS_TENTATIVE_BLOCKS | HFS_LOCKED_BLOCKS.
Record reserved := mkReserved {
  rs_entries : gmap Z rl_entry;
  rs_tentative : list Z;
  rs_locked : list Z;
}.

Record counts := mkCounts {
  freeBlocks : Z;
  tentativeBlocks : Z;
  lockedBlocks : Z;
  loanedBlocks : Z;
  reserveBlocks : Z;
  nextAllocation : Z;
  sparseAllocation : Z;
  hfs_freed_block_count : Z;
}.

(** The volume that backs a sparse device: whether its vnode can be got, what
    vfs_statfs says of it (f_bavail, f_bsize), hfs_sparsebandblks and
    hfs_backingfs_maxblocks. *)
Record backing := mkBacking {
  bk_gone : bool;
  bk_stat : option (Z * Z);
  bk_bandblks : Z;
  bk_maxblks : Z;
}.

Record geometry := mkGeometry {
  blockSize : Z;
  hfsPlusIOPosOffset : Z;
  hfs_logical_bytes : Z;
  hfs_metazone_start : Z;
  hfs_metazone_end : Z;
  hfs_backing : option backing;
  hfs_allocation_blocks : option Z;  (* hfs_allocation_cp->c_blocks *)
}.

(** hfs_summary_table, its bytes, and hfs_summary_size; the bytes are hfs_summary_bytes
    long. *)
Record summary := mkSummary { sm_table : list Z; sm_size : Z }.

Record vol := mkVol {
  vo_bitmap : bitmap;
  vo_cache : hfsmount;          (* the free extent cache, hfs_flags, allocLimit *)
  vo_summary : summary;
  vo_reserved : reserved;
  vo_jnl : option jtrim;
  vo_counts : counts;
  vo_geom : geometry;
}.

Definition with_bitmap x v := mkVol x (vo_cache v) (vo_summary v) (vo_reserved v) (vo_jnl v) (vo_counts v) (vo_geom v).
Definition with_cache x v := mkVol (vo_bitmap v) x (vo_summary v) (vo_reserved v) (vo_jnl v) (vo_counts v) (vo_geom v).
Definition with_summary x v := mkVol (vo_bitmap v) (vo_cache v) x (vo_reserved v) (vo_jnl v) (vo_counts v) (vo_geom v).
Definition with_reserved x v := mkVol (vo_bitmap v) (vo_cache v) (vo_summary v) x (vo_jnl v) (vo_counts v) (vo_geom v).
Definition with_jnl x v := mkVol (vo_bitmap v) (vo_cache v) (vo_summary v) (vo_reserved v) x (vo_counts v) (vo_geom v).
Definition with_counts x v := mkVol (vo_bitmap v) (vo_cache v) (vo_summary v) (vo_reserved v) (vo_jnl v) x (vo_geom v).

Definition vo_flags (v : vol) : Z := hfs_flags (vo_cache v).
Definition vo_allocLimit (v : vol) : Z := allocLimit (vo_cache v).
Definition vo_totalBlocks (v : vol) : Z := bm_totalBlocks (vo_bitmap v).
Definition has_flag (v : vol) (flag : Z) : bool := ISSET (vo_flags v) flag.

Definition set_freeBlocks x c := mkCounts x (tentativeBlocks c) (lockedBlocks c) (loanedBlocks c) (reserveBlocks c) (nextAllocation c) (sparseAllocation c) (hfs_freed_block_count c).
Definition set_tentativeBlocks x c := mkCounts (freeBlocks c) x (lockedBlocks c) (loanedBlocks c) (reserveBlocks c) (nextAllocation c) (sparseAllocation c) (hfs_freed_block_count c).
Definition set_lockedBlocks x c := mkCounts (freeBlocks c) (tentativeBlocks c) x (loanedBlocks c) (reserveBlocks c) (nextAllocation c) (sparseAllocation c) (hfs_freed_block_count c).
Definition set_nextAllocation x c := mkCounts (freeBlocks c) (tentativeBlocks c) (lockedBlocks c) (loanedBlocks c) (reserveBlocks c) x (sparseAllocation c) (hfs_freed_block_count c).
Definition set_sparseAllocation x c := mkCounts (freeBlocks c) (tentativeBlocks c) (lockedBlocks c) (loanedBlocks c) (reserveBlocks c) (nextAllocation c) x (hfs_freed_block_count c).
Definition set_freed_block_count x c := mkCounts (freeBlocks c) (tentativeBlocks c) (lockedBlocks c) (loanedBlocks c) (reserveBlocks c) (nextAllocation c) (sparseAllocation c) x.

Definition V (A : Type) : Type := vol -> option (A * vol).

#[export] Instance V_ret : MRet V := fun A x v => Some (x, v).
#[export] Instance V_bind : MBind V := fun A B f m v =>
  match m v with
  | Some (x, v') => f x v'
  | None => None
  end.

Definition fault {A} : V A := fun _ => None.
Definition get_vol : V vol := fun v => Some (v, v).
Definition modify (f : vol -> vol) : V unit := fun v => Some (tt, f v).
Definition vo_lift {A} (o : option A) : V A := fun v => (fun x => (x, v)) <$> o.
Definition modify_counts (f : counts -> counts) : V unit := modify (fun v => with_counts (f (vo_counts v)) v).
Definition when (b : bool) (m : V unit) : V unit := if b then m else mret tt.

(** The ranges on a queue. *)
Definition queue (l : reserved_list) (r : reserved) : list Z :=
  match l with HFS_TENTATIVE_BLOCKS => rs_tentative r | HFS_LOCKED_BLOCKS => rs_locked r end.
Definition ranges (l : reserved_list) (r : reserved) : list rl_entry := omap (fun p => rs_entries r !! p) (queue l r).

(** The bitmap with the reserved ranges, and an operation of Bitmap.v on it. *)
Definition vbm_of (v : vol) : vbm :=
  let b := vo_bitmap v in
  mkVbm (bm_words b) (bm_iosize b) (bm_totalBlocks b) (ranges HFS_TENTATIVE_BLOCKS (vo_reserved v))
    (ranges HFS_LOCKED_BLOCKS (vo_reserved v)) (bm_inconsistent b) (bm_io b).
Definition with_vbm (s : vbm) (v : vol) : vol :=
  with_bitmap (mkBitmap (vb_words s) (vb_iosize s) (vb_totalBlocks s) (vb_inconsistent s) (vb_io s)) v.
Definition on_bitmap {A} (m : VB A) : V A := fun v =>
  match m (vbm_of v) with
  | Some (x, s) => Some (x, with_vbm s v)
  | None => None
  end.
Definition mark_inconsistent : V unit := on_bitmap (vb_modify hfs_mark_inconsistent).

(** What a read puts in a buffer. *)
Definition reservations_of (flags : Z) : reservations :=
  if ISSET flags HFS_ALLOC_IGNORE_RESERVED then IgnoreReserved
  else if ISSET flags HFS_ALLOC_IGNORE_TENTATIVE then IgnoreTentative else WithReserved.

(** ** The free extent cache on the volume *)

Definition vo_add_free_extent (start count : Z) : V bool :=
  v ← get_vol;
  '(m, updated) ← vo_lift (add_free_extent_cache (vo_cache v) start count);
  _ ← modify (with_cache m); mret (updated : bool).

Definition vo_remove_free_extent (start count : Z) : V unit :=
  v ← get_vol;
  m ← vo_lift (remove_free_extent_cache (vo_cache v) start count);
  modify (with_cache m).

(** ** The summary table: a bit for each bitmap block, set when it has no free block *)

(** [None]: the error EINVAL. *)
Definition hfs_get_summary_index (v : vol) (block : Z) : option Z :=
  if has_flag v HFS_SUMMARY_TABLE then
    if vo_totalBlocks v <=? block then None
    else if bm_iosize (vo_bitmap v) =? 0 then None
    else Some (block / u32 (bm_iosize (vo_bitmap v) * kBitsPerByte))
  else None.

Definition summary_bit (v : vol) (index : Z) : option bool :=
  byte ← sm_table (vo_summary v) !! Z.to_nat (index / kBitsPerByte);
  Some (Z.testbit byte (index mod kBitsPerByte)).

(** The error and whether a block may be free. *)
Definition hfs_check_summary (v : vol) (allocblock : Z) : option (Z * bool) :=
  if bm_iosize (vo_bitmap v) =? 0 then Some (EINVAL, false) else
  if has_flag v HFS_SUMMARY_TABLE then
    match hfs_get_summary_index v allocblock with
    | None => Some (EINVAL, false)
    | Some index => bit ← summary_bit v index; Some (0, negb bit)
    end
  else Some (0, false).

(** The block of a bit, an error when it is past the end. *)
Definition hfs_get_summary_allocblock (v : vol) (summarybit : Z) : option Z :=
  let allocblk := u32 (summarybit * u32 (bm_iosize (vo_bitmap v) * kBitsPerByte)) in
  if vo_totalBlocks v <=? allocblk then None else Some allocblk.

Definition hfs_set_summary (summarybit : Z) (inuse : bool) : V unit :=
  v ← get_vol;
  if (bm_iosize (vo_bitmap v) =? 0) || negb (has_flag v HFS_SUMMARY_TABLE) then mret tt else
  let byte_index := Z.to_nat (summarybit / kBitsPerByte) in
  let bit_in_byte := summarybit mod kBitsPerByte in
  current_byte ← vo_lift (sm_table (vo_summary v) !! byte_index);
  let current_byte :=
    if inuse then Z.lor current_byte (Z.shiftl 1 bit_in_byte)
    else Z.land current_byte (Z.lnot (Z.shiftl 1 bit_in_byte)) in
  modify (with_summary (mkSummary (<[byte_index := current_byte]> (sm_table (vo_summary v))) (sm_size (vo_summary v)))).

Fixpoint release_summary_loop (current_bit end_bit : Z) (fuel : nat) : V unit :=
  match fuel with
  | O => fault
  | S fuel =>
      if current_bit <=? end_bit then
        _ ← hfs_set_summary current_bit false;
        release_summary_loop (u32 (current_bit + 1)) end_bit fuel
      else mret tt
  end.

(** Its callers do not look at the error. *)
Definition hfs_release_summary (start_blk length_ : Z) : V unit :=
  v ← get_vol;
  let end_blk := u32 (u32 (start_blk + length_) - 1) in
  match hfs_get_summary_index v start_blk with
  | None => mret tt
  | Some start_bit =>
      match hfs_get_summary_index v end_blk with
      | None => mret tt
      | Some end_bit => release_summary_loop start_bit end_bit (S (Z.to_nat (end_bit + 1 - start_bit)))
      end
  end.

(** The error and the first block of the first bit that is clear. *)
Fixpoint find_summary_loop (v : vol) (bit_index summary_cap : Z) (fuel : nat) : option (Z * Z) :=
  match fuel with
  | O => None
  | S fuel =>
      if bit_index <=? summary_cap then
        bit ← summary_bit v bit_index;
        if (bit : bool) then find_summary_loop v (u32 (bit_index + 1)) summary_cap fuel
        else match hfs_get_summary_allocblock v bit_index with
             | None => Some (EINVAL, 0)
             | Some newblock => Some (0, newblock)
             end
      else Some (ENOSPC, 0)
  end.

Definition hfs_find_summary_free (v : vol) (block : Z) : option (Z * Z) :=
  if has_flag v HFS_SUMMARY_TABLE then
    match hfs_get_summary_index v (u32 (vo_allocLimit v - 1)) with
    | None => Some (EINVAL, 0)
    | Some summary_cap =>
        '(err, maybe_has_blocks) ← hfs_check_summary v block;
        if negb (err =? 0) then Some (err, 0) else
        if (maybe_has_blocks : bool) then Some (0, block) else
        match hfs_get_summary_index v block with
        | None => Some (EINVAL, 0)
        | Some bit_index => find_summary_loop v bit_index summary_cap (S (Z.to_nat (summary_cap + 1 - bit_index)))
        end
    end
  else Some (ENOSPC, 0).

(** The bit of a bitmap block that was found to have no free block. *)
Definition summary_full (block : Z) : V unit :=
  v ← get_vol;
  index ← vo_lift (hfs_get_summary_index v block);
  hfs_set_summary index true.

(** The number of bits: one for each I/O on the bitmap file. *)
Definition summary_bits (v : vol) (c_blocks : Z) : Z :=
  if negb (blockSize (vo_geom v) =? bm_iosize (vo_bitmap v))
  then u32 (u64 (c_blocks * blockSize (vo_geom v)) / bm_iosize (vo_bitmap v)) else c_blocks.

Definition hfs_init_summary : V Z :=
  v ← get_vol;
  match hfs_allocation_blocks (vo_geom v) with
  | None => mret EINVAL
  | Some c_blocks =>
      if blockSize (vo_geom v) <? HFS_MIN_SUMMARY_BLOCKSIZE then mret EINVAL else
      let summary_size := summary_bits v c_blocks in
      let summary_size_bytes := u32 (summary_size / kBitsPerByte + 1) in
      _ ← modify (with_summary (mkSummary (replicate (Z.to_nat summary_size_bytes) 0) summary_size));
      _ ← modify (fun v => let m := vo_cache v in
            with_cache (mkMount (vcbFreeExt m) (vcbFreeExtCnt m) (Z.lor (hfs_flags m) HFS_SUMMARY_TABLE) (allocLimit m)) v);
      mret 0
  end.

Definition hfs_rebuild_summary : V Z :=
  v ← get_vol;
  c_blocks ← vo_lift (hfs_allocation_blocks (vo_geom v));
  let new_summary_size := summary_bits v c_blocks in
  if new_summary_size =? sm_size (vo_summary v) then mret 0 else
  let summarybytes := u32 (new_summary_size / kBitsPerByte + 1) in
  let table := take (Z.to_nat summarybytes) (sm_table (vo_summary v)) in
  let newtable := table ++ replicate (Z.to_nat summarybytes - length table) 0 in
  _ ← modify (with_summary (mkSummary newtable new_summary_size)); mret 0.

(** ** Free blocks *)

(** The blocks the backing volume has room for, [None] when there is no such limit. *)
Definition hfs_get_backing_free_blks (v : vol) : option Z :=
  bk ← hfs_backing (vo_geom v);
  if bk_gone bk then Some 0 else
  let loanedblks := u32 (loanedBlocks (vo_counts v) + lockedBlocks (vo_counts v)) in
  '(f_bavail, f_bsize) ← bk_stat bk;
  let bs := blockSize (vo_geom v) in
  let vfreeblks := if negb (f_bsize =? bs) then u64 (f_bavail * f_bsize) / bs else f_bavail in
  let vfreeblks := if bk_bandblks bk <? vfreeblks then vfreeblks - bk_bandblks bk else 0 in
  let loanedblks := u32 (2 * loanedblks) in
  let vfreeblks := if loanedblks <? vfreeblks then vfreeblks - loanedblks else 0 in
  Some (if negb (bk_maxblks bk =? 0) then Z.min vfreeblks (bk_maxblks bk) else vfreeblks).

Definition hfs_freeblks (v : vol) (wantreserve : bool) : Z :=
  let c := vo_counts v in
  let freeblks := freeBlocks c in
  let loanblks := u32 (loanedBlocks c + lockedBlocks c) in
  let freeblks :=
    if wantreserve then if reserveBlocks c <? freeblks then freeblks - reserveBlocks c else 0 else freeblks in
  let freeblks := if loanblks <? freeblks then freeblks - loanblks else 0 in
  match hfs_get_backing_free_blks v with
  | Some vfreeblks => u32 (Z.min freeblks vfreeblks)
  | None => freeblks
  end.
