(* ===== verification/VolumeOps.v ===== *)
(** * The journal, the reserved ranges and freeing of blocks (core/VolumeAllocation.c)

    How blocks that are freed, and blocks that are in use again, are told to the
    journal's trim lists; marking with the journal in step; the queues of reserved
    ranges; BlockDeallocate. *)

From S2P Require Import Prelude HfsFormat RangeList FreeExtCache Bitmap JournalTrim Volume.

(** ** Blocks and bytes *)

Definition block_offset (g : geometry) (block : Z) : Z := u64 (u64 (block * blockSize g) + hfsPlusIOPosOffset g).
Definition block_bytes (g : geometry) (numBlocks : Z) : Z := u64 (numBlocks * blockSize g).

(** The journal's own operations on the trim lists. *)
Definition on_trim (f : jtrim -> Z * jtrim) : V Z :=
  v ← get_vol;
  match vo_jnl v with
  | None => mret 0
  | Some j => let '(err, j) := f j in _ ← modify (with_jnl (Some j)); mret err
  end.

(** The errors are printed only. *)
Definition hfs_unmap_free_extent (startingBlock numBlocks : Z) : V unit :=
  v ← get_vol;
  let offset := block_offset (vo_geom v) startingBlock in
  let length_ := block_bytes (vo_geom v) numBlocks in
  if (hfs_logical_bytes (vo_geom v) <=? offset) || (hfs_logical_bytes (vo_geom v) <? u64 (offset + length_))
  then mret tt else
  _ ← on_trim (fun j => journal_trim_add_extent j offset length_); mret tt.

Definition hfs_unmap_alloc_extent (startingBlock numBlocks : Z) : V unit :=
  v ← get_vol;
  _ ← on_trim (fun j => journal_trim_remove_extent j (block_offset (vo_geom v) startingBlock) (block_bytes (vo_geom v) numBlocks));
  mret tt.

(** The extents of a transaction that is on disk. *)
Fixpoint hfs_trim_callback (extents : list dk_extent) : V unit :=
  match extents with
  | [] => mret tt
  | e :: extents =>
      v ← get_vol;
      let startBlock := u32 (u64 (de_offset e - hfsPlusIOPosOffset (vo_geom v)) / blockSize (vo_geom v)) in
      let numBlocks := u32 (de_length e / blockSize (vo_geom v)) in
      _ ← vo_add_free_extent startBlock numBlocks;
      hfs_trim_callback extents
  end.

(** journal_trim_flush, for the transaction in flight: its extents are on disk, the file
    system is told, and nothing is in flight any more. *)
Definition journal_trim_flush : V unit :=
  v ← get_vol;
  match vo_jnl v with
  | Some j =>
      match jt_async j with
      | Some trim =>
          _ ← hfs_trim_callback (tl_extents trim);
          modify (fun v => with_jnl ((fun j => mkJtrim (jt_invalid j) (jt_active j) None (jt_flush j) (jt_memory j)) <$> vo_jnl v) v)
      | None => mret tt
      end
  | None => mret tt
  end.

(** end_transaction: the list of the active transaction is in flight from now on, and
    the next transaction starts with an empty one.  A list in flight is a panic. *)
Definition trim_hand_over : V unit :=
  v ← get_vol;
  match vo_jnl v with
  | Some j =>
      match jt_async j with
      | Some _ => fault
      | None =>
          let async := if 0 <? Z.of_nat (length (tl_extents (jt_active j))) then Some (jt_active j) else None in
          modify (with_jnl (Some (mkJtrim (jt_invalid j) (mkTrim 0 []) async false (jt_memory j))))
      end
  | None => mret tt
  end.

(** The error, whether some block was freed by a transaction that is not on disk,
    and the block the first such part ends at. *)
Definition CheckUnmappedBytes (v : vol) (blockno numblocks : Z) : Z * bool * Z :=
  match vo_jnl v with
  | None => (0, false, 0)
  | Some j =>
      let device_offset := block_offset (vo_geom v) blockno in
      let numbytes := block_bytes (vo_geom v) numblocks in
      let device_sz := hfs_logical_bytes (vo_geom v) in
      if (device_sz <=? device_offset) || (u64 (device_sz - device_offset) <? numbytes) then (EINVAL, false, 0) else
      match journal_trim_extent_overlap j device_offset numbytes with
      | Some lba_overlap_end => (0, true, u32 (u64 (lba_overlap_end - hfsPlusIOPosOffset (vo_geom v)) / blockSize (vo_geom v)))
      | None => (0, false, 0)
      end
  end.

(** ** Marking *)

(** BlockMarkAllocatedInternal with the journal: blocks that were just freed ask for
    a flush, and none of them is to be trimmed any more. *)
Definition mark_allocated (startingBlock numBlocks flags : Z) : V Z :=
  v ← get_vol;
  let '(err, force_flush, _) := CheckUnmappedBytes v startingBlock numBlocks in
  _ ← when ((err =? 0) && force_flush) (_ ← on_trim (fun j => (0, journal_request_immediate_flush j)); mret tt);
  _ ← hfs_unmap_alloc_extent startingBlock numBlocks;
  on_bitmap (BlockMarkAllocatedInternal startingBlock numBlocks (ISSET flags (Z.lor HFS_ALLOC_LOCKED HFS_ALLOC_TENTATIVE))).

(** BlockMarkFreeInternal: the extent it gives is to be unmapped. *)
Definition mark_free (startingBlock numBlocks : Z) (do_validate : bool) : V Z :=
  '(err, unmap) ← on_bitmap (BlockMarkFreeInternal startingBlock numBlocks do_validate);
  _ ← match unmap with
      | Some (unmapStart, unmapCount) => hfs_unmap_free_extent unmapStart unmapCount
      | None => mret tt
      end;
  mret err.

(** ** Reserved ranges *)

Definition get_entry (p : Z) : V rl_entry := v ← get_vol; vo_lift (rs_entries (vo_reserved v) !! p).
Definition set_entry (p : Z) (e : rl_entry) : V unit :=
  modify (fun v => let r := vo_reserved v in
    with_reserved (mkReserved (<[p := e]> (rs_entries r)) (rs_tentative r) (rs_locked r)) v).

(** TAILQ_REMOVE and hfs_free. *)
Definition dequeue (l : reserved_list) (p : Z) : V unit :=
  modify (fun v => let r := vo_reserved v in
    let drop_p := filter (fun q => q <> p) in
    with_reserved
      (match l with
       | HFS_TENTATIVE_BLOCKS => mkReserved (rs_entries r) (drop_p (rs_tentative r)) (rs_locked r)
       | HFS_LOCKED_BLOCKS => mkReserved (rs_entries r) (rs_tentative r) (drop_p (rs_locked r))
       end) v).
Definition free_entry (p : Z) : V unit :=
  modify (fun v => let r := vo_reserved v in
    with_reserved (mkReserved (delete p (rs_entries r)) (rs_tentative r) (rs_locked r)) v).

(** An entry that is off its queue has start -1. *)
Definition hfs_release_reserved (p : Z) (l : reserved_list) : V unit :=
  range ← get_entry p;
  if rl_start range =? -1 then mret tt else
  _ ← dequeue l p;
  _ ← when (0 <? rl_len range)
       (_ ← match l with
            | HFS_TENTATIVE_BLOCKS => modify_counts (fun c => set_tentativeBlocks (u32 (tentativeBlocks c - rl_len range)) c)
            | HFS_LOCKED_BLOCKS => modify_counts (fun c => set_lockedBlocks (u32 (lockedBlocks c - rl_len range)) c)
            end;
        _ ← hfs_release_summary (u32 (rl_start range)) (u32 (rl_len range));
        _ ← vo_add_free_extent (u32 (rl_start range)) (u32 (rl_len range)); mret tt);
  set_entry p (rl_make (-1) (-2)).

(** The reservation after it: none. *)
Definition hfs_free_locked_internal (reservation : option Z) (l : reserved_list) : V (option Z) :=
  match reservation with
  | None => mret None
  | Some p => _ ← hfs_release_reserved p l; _ ← free_entry p; mret None
  end.

Definition hfs_free_tentative (reservation : option Z) : V (option Z) := hfs_free_locked_internal reservation HFS_TENTATIVE_BLOCKS.
Definition hfs_free_locked (reservation : option Z) : V (option Z) := hfs_free_locked_internal reservation HFS_LOCKED_BLOCKS.

(** All but the first three tentative ranges are released. *)
Fixpoint release_from (ps : list Z) (nranges : Z) : V unit :=
  match ps with
  | [] => mret tt
  | p :: ps =>
      let nranges := nranges + 1 in
      _ ← when (3 <? nranges) (hfs_release_reserved p HFS_TENTATIVE_BLOCKS);
      release_from ps nranges
  end.

(** The address of a new entry. *)
Definition fresh_entry (r : reserved) : Z := 1 + map_fold (fun p _ m => Z.max p m) 0 (rs_entries r).

Definition add_to_reserved_list (start count : Z) (l : reserved_list) : V Z :=
  v ← get_vol;
  _ ← match l with
      | HFS_TENTATIVE_BLOCKS => release_from (rs_tentative (vo_reserved v)) 0
      | HFS_LOCKED_BLOCKS => mret tt
      end;
  v ← get_vol;
  let r := vo_reserved v in
  let p := fresh_entry r in
  let entries := <[p := rl_make start (u32 (u32 (start + count) - 1))]> (rs_entries r) in
  _ ← modify (with_reserved
        (match l with
         | HFS_TENTATIVE_BLOCKS => mkReserved entries (p :: rs_tentative r) (rs_locked r)
         | HFS_LOCKED_BLOCKS => mkReserved entries (rs_tentative r) (p :: rs_locked r)
         end));
  mret p.

(** ** BlockDeallocate *)

Definition HFS_UPDATE_NEXT_ALLOCATION (new_nextAllocation : Z) : V unit :=
  v ← get_vol;
  when (negb (has_flag v HFS_SKIP_UPDATE_NEXT_ALLOCATION)) (modify_counts (set_nextAllocation new_nextAllocation)).

Definition BlockDeallocate (firstBlock numBlocks flags : Z) : V Z :=
  if ISSET flags (Z.lor HFS_ALLOC_TENTATIVE HFS_ALLOC_LOCKED) then mret 0 else
  if numBlocks =? 0 then mret noErr else
  _ ← hfs_release_summary firstBlock numBlocks;
  err ← mark_free firstBlock numBlocks true;
  if negb (err =? noErr) then mret err else
  _ ← when (negb (ISSET flags HFS_ALLOC_SKIPFREEBLKS))
       (modify_counts (fun c => set_freeBlocks (u32 (freeBlocks c + numBlocks)) c));
  _ ← modify_counts (fun c => set_freed_block_count (u32 (hfs_freed_block_count c + numBlocks)) c);
  v ← get_vol;
  _ ← when (nextAllocation (vo_counts v) =? u32 (firstBlock + numBlocks))
       (HFS_UPDATE_NEXT_ALLOCATION (u32 (nextAllocation (vo_counts v) - numBlocks)));
  _ ← match vo_jnl v with
      | None =>
          _ ← vo_add_free_extent firstBlock numBlocks;
          modify_counts (fun c => if firstBlock <? sparseAllocation c then set_sparseAllocation firstBlock c else c)
      | Some _ => mret tt
      end;
  mret noErr.

(** ** UpdateAllocLimit *)

(** Tentative ranges that reach past the new end are released. *)
Fixpoint release_past (ps : list Z) (new_end_block : Z) : V unit :=
  match ps with
  | [] => mret tt
  | p :: ps =>
      range ← get_entry p;
      _ ← match rangelist.rl_overlap range new_end_block RL_INFINITY with
          | RL_NOOVERLAP => mret tt
          | _ => hfs_release_reserved p HFS_TENTATIVE_BLOCKS
          end;
      release_past ps new_end_block
  end.

Definition UpdateAllocLimit (new_end_block : Z) : V Z :=
  _ ← modify (fun v => with_cache (ResetVCBFreeExtCache (mkMount (vcbFreeExt (vo_cache v)) (vcbFreeExtCnt (vo_cache v)) (vo_flags v) new_end_block)) v);
  _ ← hfs_rebuild_summary;
  v ← get_vol;
  _ ← release_past (rs_tentative (vo_reserved v)) new_end_block;
  mret 0.
