(* ===== verification/BlockSearch.v ===== *)
(** * Searching for free blocks (core/VolumeAllocation.c)

    The searches hfs_block_alloc uses: the free extent cache (BlockFindKnown), the
    first free run of the bitmap (BlockFindAny), a run that is long enough
    (BlockFindContiguous, BlockFindContig) and the exhaustive search
    (hfs_alloc_try_hard).

    A search reads the bitmap word by word through a buffer; [cursor] is the place in
    the buffer, as in Bitmap.v.  A loop has as fuel more turns than it has blocks to
    look at. *)

From S2P Require Import Prelude HfsFormat RangeList FreeExtCache Bitmap JournalTrim Volume VolumeOps.

Definition kBitsWithinWordMask : Z := kBitsPerWord - 1.

(** The next block outside of the metadata zone. *)
Definition NextBitmapBlock (v : vol) (bit : Z) : Z :=
  if negb (has_flag v HFS_METADATA_ZONE) then bit else
  if (hfs_metazone_start (vo_geom v) <=? bit) && (bit <=? hfs_metazone_end (vo_geom v))
  then u32 (hfs_metazone_end (vo_geom v) + 1) else bit.

(** Where a search starts when the zone is not for it; [None]: there is no room. *)
Definition skip_metazone (v : vol) (useMetaZone : bool) (startingBlock endingBlock : Z) : option Z :=
  if negb useMetaZone && has_flag v HFS_METADATA_ZONE && (startingBlock <=? hfs_metazone_end (vo_geom v)) then
    if u32 (hfs_metazone_end (vo_geom v) + 2) <? endingBlock then Some (u32 (hfs_metazone_end (vo_geom v) + 1)) else None
  else Some startingBlock.

(** The word the cursor is at, and the next one. *)
Definition fetch (flags : Z) (c : cursor) : V Z := on_bitmap (load_word (reservations_of flags) c).
Definition advance (c : cursor) : cursor := mkCursor (cu_block c) (cu_index c + 1) (u32 (cu_left c - 1)) 0.
Definition read_block (bit : Z) : V (Z * option Z) := on_bitmap (ReadBitmapBlock bit).
Definition release_block : V Z := on_bitmap ReleaseBitmapBlock.
Definition words_of (v : vol) : Z := bm_iosize (vo_bitmap v) / kBytesPerWord.
Definition block_start (v : vol) (block : Z) : cursor := mkCursor block 0 (words_of v) 0.

(** ** BlockFindKnown *)

(** The error and the extent, which is left alone when the cache is empty. *)
Definition BlockFindKnown (maxBlocks : Z) (extent : HFSPlusExtentDescriptor) : V (Z * HFSPlusExtentDescriptor) :=
  v ← get_vol;
  let m := vo_cache v in
  if (vcbFreeExtCnt m =? 0) || (blockCount (ext_at m 0) =? 0) then mret (dskFulErr, extent) else
  let actualStartBlock := startBlock (ext_at m 0) in
  let actualNumBlocks := if maxBlocks <? blockCount (ext_at m 0) then maxBlocks else blockCount (ext_at m 0) in
  let extent := mkExtent actualStartBlock actualNumBlocks in
  if vo_allocLimit v <? u32 (actualStartBlock + actualNumBlocks)
  then _ ← mark_inconsistent; mret (EIO, extent) else mret (0, extent).

(** ** BlockFindAnyBitmap *)

(** Exit with an error, with the buffer held or not; or a free block. *)
Inductive any_found := AnyExit (err : Z) (held : bool) | AnyFree (block : Z) (c : cursor) (word bitMask : Z).

(** While loop 1. *)
Fixpoint any_skip (flags endingBlock block : Z) (c : cursor) (word bitMask summary_block_scan : Z) (fuel : nat) : V any_found :=
  match fuel with
  | O => fault
  | S fuel =>
      if negb (block <? endingBlock) then mret (AnyExit dskFulErr true) else
      if Z.land word bitMask =? 0 then mret (AnyFree block c word bitMask) else
      let block := u32 (block + 1) in
      let bitMask := Z.shiftr bitMask 1 in
      if negb (bitMask =? 0) then any_skip flags endingBlock block c word bitMask summary_block_scan fuel else
      let c := advance c in
      if negb (cu_left c =? 0) then
        word ← fetch flags c;
        any_skip flags endingBlock block c word kHighBitInWordMask summary_block_scan fuel
      else
        v ← get_vol;
        _ ← when (has_flag v HFS_SUMMARY_TABLE && negb (summary_block_scan =? 0)) (summary_full summary_block_scan);
        err ← release_block;
        if negb (err =? noErr) then mret (AnyExit err false) else
        let block := if ISSET flags HFS_ALLOC_METAZONE then block else NextBitmapBlock v block in
        if endingBlock <=? block then mret (AnyExit dskFulErr false) else
        '(err, b) ← read_block block;
        match b with
        | None => mret (AnyExit err false)
        | Some b =>
            let c := block_start v b in
            word ← fetch flags c;
            any_skip flags endingBlock block c word kHighBitInWordMask block fuel
        end
  end.

(** While loop 2: the error, whether the buffer is held, and the block it stops at. *)
Fixpoint any_extend (flags endingBlock err block : Z) (c : cursor) (word bitMask : Z) (fuel : nat) : V (Z * bool * Z) :=
  match fuel with
  | O => fault
  | S fuel =>
      if negb (Z.land word bitMask =? 0) then mret (err, true, block) else
      let block := u32 (block + 1) in
      if block =? endingBlock then mret (err, true, block) else
      let bitMask := Z.shiftr bitMask 1 in
      if negb (bitMask =? 0) then any_extend flags endingBlock err block c word bitMask fuel else
      let c := advance c in
      if negb (cu_left c =? 0) then
        word ← fetch flags c;
        any_extend flags endingBlock err block c word kHighBitInWordMask fuel
      else
        v ← get_vol;
        err ← release_block;
        if negb (err =? noErr) then mret (err, false, block) else
        if negb (ISSET flags HFS_ALLOC_METAZONE) && negb (NextBitmapBlock v block =? block) then mret (err, false, block) else
        if endingBlock <=? block then mret (err, false, block) else
        '(err, b) ← read_block block;
        match b with
        | None => mret (err, false, block)
        | Some b =>
            let c := block_start v b in
            word ← fetch flags c;
            any_extend flags endingBlock err block c word kHighBitInWordMask fuel
        end
  end.

(** Exit: the error and the extent. *)
Definition any_exit (held : bool) (err start block : Z) : V (Z * HFSPlusExtentDescriptor) :=
  _ ← when held (_ ← release_block; mret tt);
  if err =? noErr then
    let num := u32 (block - start) in
    v ← get_vol;
    if vo_allocLimit v <? u32 (start + num) then fault else mret (err, mkExtent start num)
  else mret (err, mkExtent 0 0).

(** restartSearchAny: a free block that waits for a trim moves the start past it. *)
Fixpoint any_search (flags endingBlock startingBlock maxBlocks : Z) (fuel : nat) : V (Z * HFSPlusExtentDescriptor) :=
  match fuel with
  | O => fault
  | S fuel =>
      v ← get_vol;
      match skip_metazone v (ISSET flags HFS_ALLOC_METAZONE) startingBlock endingBlock with
      | None => any_exit false dskFulErr 0 0
      | Some startingBlock =>
          let maxBlocks := if u32 (endingBlock - startingBlock) <? maxBlocks then u32 (endingBlock - startingBlock) else maxBlocks in
          '(err, b) ← read_block startingBlock;
          match b with
          | None => any_exit false err 0 0
          | Some b =>
              let bitsPerBlock := u32 (bm_iosize (vo_bitmap v) * kBitsPerByte) in
              let wordIndexInBlock := Z.land startingBlock (bitsPerBlock - 1) / kBitsPerWord in
              let c := mkCursor b wordIndexInBlock (words_of v - wordIndexInBlock) 0 in
              word ← fetch flags c;
              let blocks := S (Z.to_nat (endingBlock - startingBlock)) in
              found ← any_skip flags endingBlock startingBlock c word
                        (Z.shiftr kHighBitInWordMask (Z.land startingBlock kBitsWithinWordMask)) 0 blocks;
              match found with
              | AnyExit err held => any_exit held err 0 0
              | AnyFree block c word bitMask =>
                  v ← get_vol;
                  let '(err, recently_deleted, nextblk) :=
                    if ISSET flags HFS_ALLOC_FLUSHTXN then (err, false, 0) else
                    match vo_jnl v with
                    | None => (err, false, 0)
                    | Some _ => CheckUnmappedBytes v block 1
                    end in
                  if (err =? 0) && recently_deleted then
                    err ← release_block;
                    if negb (err =? noErr) then any_exit false err 0 0
                    else any_search flags endingBlock nextblk maxBlocks fuel
                  else
                    let endingBlock := if block <? u32 (endingBlock - maxBlocks) then u32 (block + maxBlocks) else endingBlock in
                    '(err, held, stop) ← any_extend flags endingBlock err block c word bitMask blocks;
                    any_exit held err block stop
              end
          end
      end
  end.

Definition BlockFindAnyBitmap (startingBlock endingBlock maxBlocks flags : Z) : V (Z * HFSPlusExtentDescriptor) :=
  any_search flags endingBlock startingBlock maxBlocks (S (Z.to_nat endingBlock)).

(** ** BlockFindAny *)

(** The extent is left alone when the summary table is trusted and has nothing. *)
Definition BlockFindAny (startingBlock endingBlock maxBlocks flags : Z) (trustSummary : bool)
    (extent : HFSPlusExtentDescriptor) : V (Z * HFSPlusExtentDescriptor) :=
  v ← get_vol;
  if has_flag v HFS_SUMMARY_TABLE then
    '(err, suggested_start) ← vo_lift (hfs_find_summary_free v startingBlock);
    if err =? 0 then BlockFindAnyBitmap suggested_start endingBlock maxBlocks flags else
    if (err =? ENOSPC) && trustSummary then mret (dskFulErr, extent)
    else BlockFindAnyBitmap startingBlock endingBlock maxBlocks flags
  else BlockFindAnyBitmap startingBlock endingBlock maxBlocks flags.

(** ** BlockFindContiguous *)

(** On over the bits of a word that are set, from a bit on: the mask of the first clear
    one, 0 when there is none, and its block. *)
Fixpoint over_set (word bitMask block : Z) (fuel : nat) : Z * Z :=
  match fuel with
  | O => (bitMask, block)
  | S fuel => if negb (Z.land word bitMask =? 0) then over_set word (Z.shiftr bitMask 1) (u32 (block + 1)) fuel else (bitMask, block)
  end.

(** On over the bits that are clear. *)
Fixpoint over_clear (word bitMask block : Z) (fuel : nat) : Z * Z :=
  match fuel with
  | O => (bitMask, block)
  | S fuel =>
      if negb (bitMask =? 0) && (Z.land word bitMask =? 0) then over_clear word (Z.shiftr bitMask 1) (u32 (block + 1)) fuel
      else (bitMask, block)
  end.

Definition word_bits : nat := 33.

(** Where a search is: an error exit, the end of the loop with no buffer, or a block. *)
Inductive contig_at := ContigError (err : Z) | ContigLoopExit | ContigAt (block : Z) (c : cursor).

Section Contiguous.
Context (flags endingBlock stopBlock maxBlocks : Z) (useMetaZone trustSummary : bool).

(** The next bitmap block, looking for a free one: not one of the zone, not one the
    summary table knows to be full. *)
Definition contig_next_block (block : Z) (k : Z -> cursor -> V contig_at) : V contig_at :=
  v ← get_vol;
  let block := if useMetaZone then block else NextBitmapBlock v block in
  if negb useMetaZone && (stopBlock <=? block) then mret ContigLoopExit else
  '(err, suggestion) ←
    (if trustSummary && has_flag v HFS_SUMMARY_TABLE then vo_lift (hfs_find_summary_free v block) else mret (0, block));
  if negb (err =? 0) && negb (err =? ENOSPC) then mret (ContigError err) else
  if (trustSummary && has_flag v HFS_SUMMARY_TABLE) && ((err =? ENOSPC) || (stopBlock <=? suggestion)) then mret ContigLoopExit else
  '(err, b) ← read_block suggestion;
  match b with
  | None => mret (ContigError err)
  | Some b => k suggestion (block_start v b)
  end.

(** Inner while loop 1, whole words. *)
Fixpoint contig_skip_words (block : Z) (c : cursor) (summary_block_scan : Z) (fuel : nat) : V contig_at :=
  match fuel with
  | O => fault
  | S fuel =>
      if negb (block <? stopBlock) then mret (ContigAt block c) else
      let examine block c summary_block_scan :=
        tempWord ← fetch flags c;
        if negb (u32 (tempWord + 1) =? 0) then
          mret (ContigAt (snd (over_set tempWord kHighBitInWordMask block word_bits)) c)
        else contig_skip_words (u32 (block + kBitsPerWord)) (advance c) summary_block_scan fuel in
      if negb (cu_left c =? 0) then examine block c summary_block_scan else
      v ← get_vol;
      _ ← when (has_flag v HFS_SUMMARY_TABLE && negb (summary_block_scan =? 0)) (summary_full summary_block_scan);
      err ← release_block;
      if negb (err =? noErr) then mret (ContigError err) else
      contig_next_block block (fun block c => examine block c block)
  end.

(** Inner while loop 1: a free block, or stopBlock is reached. *)
Definition contig_skip (block : Z) (c : cursor) : V contig_at :=
  let fuel := S (S (Z.to_nat (stopBlock - block))) in
  if negb (Z.land block kBitsWithinWordMask =? 0) then
    tempWord ← fetch flags c;
    let '(bitMask, block) := over_set tempWord (Z.shiftr kHighBitInWordMask (Z.land block kBitsWithinWordMask)) block word_bits in
    if negb (bitMask =? 0) then mret (ContigAt block c)
    else contig_skip_words block (advance c) 0 fuel
  else contig_skip_words block c 0 fuel.

(** Inner while loop 2, whole words. *)
Fixpoint contig_count_words (firstBlock block : Z) (c : cursor) (fuel : nat) : V contig_at :=
  match fuel with
  | O => fault
  | S fuel =>
      if negb (block <? endingBlock) then mret (ContigAt block c) else
      let examine c :=
        tempWord ← fetch flags c;
        if negb (tempWord =? 0) then
          mret (ContigAt (snd (over_clear tempWord kHighBitInWordMask block word_bits)) c)
        else
          let block := u32 (block + kBitsPerWord) in
          let c := advance c in
          if maxBlocks <=? u32 (block - firstBlock) then mret (ContigAt block c)
          else contig_count_words firstBlock block c fuel in
      if negb (cu_left c =? 0) then examine c else
      v ← get_vol;
      err ← release_block;
      if negb (err =? noErr) then mret (ContigError err) else
      if negb useMetaZone && negb (NextBitmapBlock v block =? block) then mret ContigLoopExit else
      '(err, b) ← read_block block;
      match b with
      | None => mret (ContigError err)
      | Some b => examine (block_start v b)
      end
  end.

(** Inner while loop 2: the block after the free run from [block] on. *)
Definition contig_count (block : Z) (c : cursor) : V contig_at :=
  let fuel := S (S (Z.to_nat (endingBlock - block))) in
  if negb (Z.land block kBitsWithinWordMask =? 0) then
    tempWord ← fetch flags c;
    let '(bitMask, next) := over_clear tempWord (Z.shiftr kHighBitInWordMask (Z.land block kBitsWithinWordMask)) block word_bits in
    if negb (bitMask =? 0) then mret (ContigAt next c)
    else contig_count_words block next (advance c) fuel
  else contig_count_words block block c fuel.
End Contiguous.

(** The part of a free run outside of the tentative ranges. *)
Fixpoint outside_tentative (free_extent : rl_entry) (ranges : list rl_entry) : rl_entry :=
  match ranges with
  | [] => free_extent
  | range :: ranges =>
      let free_extent := rangelist.rl_subtract free_extent range in
      if rl_len range =? 0 then free_extent else outside_tentative free_extent ranges
  end.

(** A run that is too short goes to the cache, unless it waits for a trim; the boolean is
    updated_free_extent. *)
Definition contig_remember (flags firstBlock foundBlocks : Z) (updated : bool) : V (Z * Z * bool) :=
  v ← get_vol;
  let '(firstBlock, foundBlocks) :=
    if ISSET flags HFS_ALLOC_IGNORE_TENTATIVE then
      let free_extent := outside_tentative (rl_make firstBlock (u32 (u32 (firstBlock + foundBlocks) - 1)))
                           (ranges HFS_TENTATIVE_BLOCKS (vo_reserved v)) in
      (u32 (rl_start free_extent), u32 (rl_len free_extent))
    else (firstBlock, foundBlocks) in
  if foundBlocks =? 0 then mret (firstBlock, foundBlocks, updated) else
  let '(err, recently_deleted, _) := CheckUnmappedBytes v firstBlock foundBlocks in
  if negb (err =? 0) || negb recently_deleted then
    updated ← vo_add_free_extent firstBlock foundBlocks;
    mret (firstBlock, foundBlocks, updated)
  else mret (firstBlock, foundBlocks, updated).

(** How the main loop ends: with an error and no buffer, or with the run found, the
    best one, and whether the buffer is held. *)
Inductive contig_end :=
  | ContigFailed (err : Z) (updated : bool)
  | ContigEnd (held : bool) (firstBlock foundBlocks : Z) (best : HFSPlusExtentDescriptor) (updated : bool).

Section MainLoop.
Context (flags endingBlock stopBlock minBlocks maxBlocks : Z) (useMetaZone trustSummary : bool).

Fixpoint contig_loop (firstBlock block : Z) (c : cursor) (remaining : Z) (best : HFSPlusExtentDescriptor)
    (updated : bool) (fuel : nat) : V contig_end :=
  match fuel with
  | O => fault
  | S fuel =>
      at1 ← contig_skip flags stopBlock useMetaZone trustSummary block c;
      match at1 with
      | ContigError err => mret (ContigFailed err updated)
      | ContigLoopExit => mret (ContigEnd false firstBlock 0 best updated)
      | ContigAt block c =>
          if stopBlock <=? block then mret (ContigEnd true firstBlock 0 best updated) else
          let firstBlock := block in
          at2 ← contig_count flags endingBlock maxBlocks useMetaZone block c;
          match at2 with
          | ContigError err => mret (ContigFailed err updated)
          | ContigLoopExit => mret (ContigEnd false firstBlock 0 best updated)
          | ContigAt block c =>
              let block := if endingBlock <? block then endingBlock else block in
              let foundBlocks := u32 (block - firstBlock) in
              let foundBlocks := if maxBlocks <? foundBlocks then maxBlocks else foundBlocks in
              let remaining :=
                if remaining =? 0 then remaining
                else if remaining <? foundBlocks then UINT32_MAX else remaining - foundBlocks in
              let best :=
                if ISSET flags HFS_ALLOC_TRY_HARD && (blockCount best <? foundBlocks)
                then mkExtent firstBlock foundBlocks else best in
              let found :=
                if ISSET flags HFS_ALLOC_TRY_HARD
                then (maxBlocks <=? foundBlocks) || (remaining <=? blockCount best)
                else minBlocks <=? foundBlocks in
              if (found : bool) then mret (ContigEnd true firstBlock foundBlocks best updated) else
              '(firstBlock, foundBlocks, updated) ← contig_remember flags firstBlock foundBlocks updated;
              if block <? stopBlock
              then contig_loop firstBlock block c remaining best updated fuel
              else mret (ContigEnd true firstBlock foundBlocks best updated)
          end
      end
  end.
End MainLoop.

(** The smallest start in the cache. *)
Definition min_cached (v : vol) : Z :=
  foldl (fun min_start e => if startBlock e <? min_start then startBlock e else min_start) (vo_totalBlocks v) (fe_view (vo_cache v)).

Definition update_sparse (updated : bool) : V unit :=
  v ← get_vol;
  when (updated && is_sparse (vo_cache v) && negb (min_cached v =? vo_totalBlocks v))
    (modify_counts (fun c =>
       let c := if min_cached v <? nextAllocation c then set_nextAllocation (min_cached v) c else c in
       if min_cached v <? sparseAllocation c then set_sparseAllocation (min_cached v) c else c)).

(** The outputs. *)
Definition contig_finish (flags minBlocks : Z) (r : contig_end) : V (Z * HFSPlusExtentDescriptor) :=
  match r with
  | ContigFailed err updated => _ ← update_sparse updated; mret (err, mkExtent 0 0)
  | ContigEnd held firstBlock foundBlocks best updated =>
      let found := if ISSET flags HFS_ALLOC_TRY_HARD then best else mkExtent firstBlock foundBlocks in
      v ← get_vol;
      if blockCount found <? minBlocks then
        _ ← update_sparse updated; _ ← when held (_ ← release_block; mret tt); mret (dskFulErr, mkExtent 0 0)
      else if vo_allocLimit v <? u32 (startBlock found + blockCount found) then fault
      else _ ← update_sparse updated; _ ← when held (_ ← release_block; mret tt); mret (noErr, found)
  end.

Definition BlockFindContiguous (startingBlock endingBlock minBlocks maxBlocks : Z) (useMetaZone trustSummary : bool)
    (flags : Z) : V (Z * HFSPlusExtentDescriptor) :=
  v ← get_vol;
  match skip_metazone v useMetaZone startingBlock endingBlock with
  | None => mret (dskFulErr, mkExtent 0 0)
  | Some startingBlock =>
      if u32 (endingBlock - startingBlock) <? minBlocks then mret (dskFulErr, mkExtent 0 0) else
      let stopBlock := u32 (u32 (endingBlock - minBlocks) + 1) in
      let currentBlock := if useMetaZone then startingBlock else NextBitmapBlock v startingBlock in
      let use_summary := trustSummary && has_flag v HFS_SUMMARY_TABLE in
      '(err, suggestion) ← (if use_summary then vo_lift (hfs_find_summary_free v currentBlock) else mret (0, currentBlock));
      if negb (err =? 0) && negb (err =? ENOSPC) then mret (err, mkExtent 0 0) else
      if use_summary && ((err =? ENOSPC) || (stopBlock <=? suggestion)) then mret (dskFulErr, mkExtent 0 0) else
      let currentBlock := suggestion in
      '(err, b) ← read_block currentBlock;
      match b with
      | None => mret (err, mkExtent 0 0)
      | Some b =>
          let wordIndexInBlock := Z.land (currentBlock / kBitsPerWord) (words_of v - 1) in
          let c := mkCursor b wordIndexInBlock (words_of v - wordIndexInBlock) 0 in
          let cnt := vo_counts v in
          let remaining := u32 (u32 (freeBlocks cnt - lockedBlocks cnt) -
                             (if ISSET flags HFS_ALLOC_IGNORE_TENTATIVE then 0 else tentativeBlocks cnt)) in
          r ← contig_loop flags endingBlock stopBlock minBlocks maxBlocks useMetaZone trustSummary
                0 currentBlock c remaining (mkExtent 0 0) false (S (S (Z.to_nat (endingBlock - currentBlock))));
          contig_finish flags minBlocks r
      end
  end.
