(* ===== verification/BlockAlloc.v ===== *)
(** * Allocating blocks (core/VolumeAllocation.c)

    hfs_block_alloc_int, with BlockFindContig and hfs_alloc_try_hard, and its entry
    point BlockAllocate; hfs_block_alloc only translates the error it gives.

    The arguments in [extra_args] that are addresses of reservations are given as the
    reservations themselves, the address of an entry or none; the result has them as
    they are after the call. *)

From S2P Require Import Prelude HfsFormat RangeList FreeExtCache Bitmap JournalTrim Volume VolumeOps BlockSearch.

(** ** BlockFindContig *)

Definition extents_overlap (start1 len1 start2 len2 : Z) : bool :=
  negb ((u32 (start1 + len1) <=? start2) || (u32 (start2 + len2) <=? start1)).

(** A run found, the first one that waits for a trim, and how the search goes on. *)
Fixpoint find_contig_loop (minBlocks maxBlocks flags currentStart : Z) (collision : HFSPlusExtentDescriptor)
    (fuel : nat) : V (Z * HFSPlusExtentDescriptor) :=
  match fuel with
  | O => fault
  | S fuel =>
      let useMetaZone := ISSET flags HFS_ALLOC_METAZONE in
      v ← get_vol;
      r ← BlockFindContiguous currentStart (vo_allocLimit v) minBlocks maxBlocks useMetaZone true flags;
      '(retval, found) ←
        (if (fst r =? dskFulErr) && negb (currentStart =? 0) then
           if has_flag v HFS_SUMMARY_TABLE
           then BlockFindContiguous 1 (vo_allocLimit v) minBlocks maxBlocks useMetaZone false flags
           else BlockFindContiguous 1 currentStart minBlocks maxBlocks useMetaZone false flags
         else mret r);
      if negb (retval =? noErr) then mret (retval, found) else
      if negb (startBlock collision =? 0) &&
         extents_overlap (startBlock found) (blockCount found) (startBlock collision) (blockCount collision)
      then if ISSET flags HFS_ALLOC_FLUSHTXN then mret (noErr, collision) else mret (dskFulErr, found) else
      v ← get_vol;
      let '(err, recently_deleted, nextStart) := CheckUnmappedBytes v (startBlock found) (blockCount found) in
      if (err =? 0) && recently_deleted then
        find_contig_loop minBlocks maxBlocks flags nextStart
          (if startBlock collision =? 0 then found else collision) fuel
      else if (startBlock found =? 0) && (blockCount found =? 0)
      then find_contig_loop minBlocks maxBlocks flags currentStart collision fuel
      else mret (noErr, found)
  end.

(** The extent is left alone on an error. *)
Definition BlockFindContig (startingBlock minBlocks maxBlocks flags : Z) (extent : HFSPlusExtentDescriptor)
    : V (Z * HFSPlusExtentDescriptor) :=
  v ← get_vol;
  '(retval, found) ← find_contig_loop minBlocks maxBlocks flags startingBlock (mkExtent 0 0)
                       (S (S (2 * Z.to_nat (vo_allocLimit v))));
  mret (retval, if retval =? noErr then found else extent).

(** ** hfs_alloc_try_hard *)

Definition hfs_alloc_try_hard (extent : HFSPlusExtentDescriptor) (max_blocks flags : Z) : V (Z * HFSPlusExtentDescriptor) :=
  let min_blocks := blockCount extent in
  v ← get_vol;
  '(err, extent) ←
    (if (0 <? startBlock extent) && (startBlock extent <? vo_allocLimit v) &&
        (max_blocks <? u32 (vo_allocLimit v - startBlock extent))
     then BlockFindContiguous (startBlock extent) (u32 (startBlock extent + max_blocks)) max_blocks max_blocks true true flags
     else mret (dskFulErr, extent));
  if negb (err =? dskFulErr) then mret (err, extent) else
  '(err, extent) ← BlockFindKnown max_blocks extent;
  if (err =? 0) && (max_blocks <=? blockCount extent) then mret (0, extent) else
  if negb (err =? 0) && negb (err =? dskFulErr) then mret (err, extent) else
  v ← get_vol;
  BlockFindContiguous 1 (vo_allocLimit v) min_blocks max_blocks true true flags.

(** ** hfs_block_alloc_int *)

Record extra_args := mkArgs {
  max_blocks : Z;
  reservation_in : option Z;
  alignment : Z;
  alignment_offset : Z;
}.

(** The error, the extent and the two reservations. *)
Record allocated_extent := mkAllocated {
  al_err : Z;
  al_extent : HFSPlusExtentDescriptor;
  al_in : option Z;
  al_out : option Z;
}.

(** exit. *)
Definition alloc_failed (err : Z) (res_in : option Z) : V allocated_extent :=
  mret (mkAllocated err (mkExtent 0 0) res_in None).

Definition aligned (ap : option extra_args) (minBlocks : Z) (extent : HFSPlusExtentDescriptor) : HFSPlusExtentDescriptor :=
  match ap with
  | Some ap =>
      if negb (alignment ap =? 0) && (blockCount extent <? max_blocks ap) then
        let rounding := u32 (blockCount extent + alignment_offset ap) mod u32 (alignment ap) in
        if u32 (minBlocks + rounding) <=? blockCount extent
        then mkExtent (startBlock extent) (u32 (blockCount extent - rounding)) else extent
      else extent
  | None => extent
  end.

(** The tentative blocks of the run [start, end_], one range at a time. *)
Definition steal_tentative (start end_ p : Z) : V unit :=
  range ← get_entry p;
  let less n := modify_counts (fun c => set_tentativeBlocks (u32 (tentativeBlocks c - n)) c) in
  match rangelist.rl_overlap range start end_ with
  | RL_OVERLAPCONTAINSRANGE =>
      if rl_end range - end_ <? start - rl_start range then
        _ ← less (rl_end range + 1 - start);
        _ ← hfs_release_summary (u32 (end_ + 1)) (u32 (rl_end range - end_));
        let old_end := u32 (rl_end range) in
        _ ← set_entry p (rl_make (rl_start range) (u32 (start - 1)));
        _ ← vo_add_free_extent (u32 (end_ + 1)) (u32 (old_end - end_)); mret tt
      else
        _ ← less (u32 (end_ + 1) - rl_start range);
        _ ← hfs_release_summary (u32 (rl_start range)) (u32 (start - rl_start range));
        let old_start := u32 (rl_start range) in
        _ ← set_entry p (rl_make (u32 (end_ + 1)) (rl_end range));
        _ ← vo_add_free_extent old_start (u32 (start - old_start)); mret tt
  | RL_MATCHINGOVERLAP | RL_OVERLAPISCONTAINED =>
      _ ← less (rl_len range);
      _ ← set_entry p (rl_make (rl_start range) (rl_start range - 1));
      hfs_release_reserved p HFS_TENTATIVE_BLOCKS
  | RL_OVERLAPSTARTSBEFORE =>
      _ ← less (rl_end range + 1 - start);
      set_entry p (rl_make (rl_start range) (u32 (start - 1)))
  | RL_OVERLAPENDSAFTER =>
      _ ← less (u32 (end_ + 1) - rl_start range);
      set_entry p (rl_make (u32 (end_ + 1)) (rl_end range))
  | RL_NOOVERLAP => mret tt
  end.

Fixpoint steal_all (start end_ : Z) (ps : list Z) : V unit :=
  match ps with
  | [] => mret tt
  | p :: ps => _ ← steal_tentative start end_ p; steal_all start end_ ps
  end.

(** Taking blocks out of the reservation they were in. *)
Definition take_reserved (l : reserved_list) (res_in : option Z) (count : Z) : V rl_entry :=
  p ← vo_lift res_in;
  range ← get_entry p;
  let range := rl_make (rl_start range + count) (rl_end range) in
  _ ← set_entry p range; mret range.

(** What is left to do once the blocks are marked. *)
Definition alloc_account (extent : HFSPlusExtentDescriptor) (flags : Z) (updateAllocPtr : bool) (res_in : option Z)
    : V (option Z * option Z) :=
  let start := startBlock extent in
  let count := blockCount extent in
  _ ← when (negb (ISSET flags (Z.lor HFS_ALLOC_USE_TENTATIVE HFS_ALLOC_COMMIT)))
       (v ← get_vol;
        _ ← when ((vcbFreeExtCnt (vo_cache v) =? 0) && (hfs_freed_block_count (vo_counts v) =? 0))
             (modify_counts (set_sparseAllocation start));
        _ ← modify_counts (fun c => set_freed_block_count
              (if count <? hfs_freed_block_count c then u32 (hfs_freed_block_count c - count) else 0) c);
        _ ← when (updateAllocPtr && ((start <? hfs_metazone_start (vo_geom v)) || (hfs_metazone_end (vo_geom v) <? start)))
             (HFS_UPDATE_NEXT_ALLOCATION start);
        vo_remove_free_extent start count);
  res_in ←
    (if ISSET flags HFS_ALLOC_USE_TENTATIVE then
       range ← take_reserved HFS_TENTATIVE_BLOCKS res_in count;
       _ ← modify_counts (fun c => set_tentativeBlocks (u32 (tentativeBlocks c - count)) c);
       if rl_len range <=? 0 then hfs_free_tentative res_in else mret res_in
     else if ISSET flags HFS_ALLOC_COMMIT then
       _ ← take_reserved HFS_LOCKED_BLOCKS res_in count;
       _ ← modify_counts (fun c => set_lockedBlocks (u32 (lockedBlocks c - count)) c);
       hfs_free_locked res_in
     else mret res_in);
  _ ← modify_counts (fun c =>
        if ISSET flags HFS_ALLOC_TENTATIVE then set_tentativeBlocks (u32 (tentativeBlocks c + count)) c
        else if ISSET flags HFS_ALLOC_LOCKED then set_lockedBlocks (u32 (lockedBlocks c + count)) c
        else if negb (ISSET flags HFS_ALLOC_SKIPFREEBLKS) then set_freeBlocks (u32 (freeBlocks c - count)) c
        else c);
  res_out ←
    (if ISSET flags HFS_ALLOC_TENTATIVE then p ← add_to_reserved_list start count HFS_TENTATIVE_BLOCKS; mret (Some p)
     else if ISSET flags HFS_ALLOC_LOCKED then p ← add_to_reserved_list start count HFS_LOCKED_BLOCKS; mret (Some p)
     else mret None);
  _ ← when (ISSET flags HFS_ALLOC_IGNORE_TENTATIVE)
       (v ← get_vol; steal_all start (u32 (u32 (start + count) - 1)) (rs_tentative (vo_reserved v)));
  mret (res_in, res_out).

(** mark_allocated. *)
Definition alloc_mark (ap : option extra_args) (minBlocks : Z) (extent : HFSPlusExtentDescriptor) (flags : Z)
    (updateAllocPtr : bool) (res_in : option Z) : V allocated_extent :=
  let extent := aligned ap minBlocks extent in
  err ← mark_allocated (startBlock extent) (blockCount extent) flags;
  if negb (err =? 0) then alloc_failed err res_in else
  if blockCount extent =? 0 then mret (mkAllocated 0 extent res_in None) else
  '(res_in, res_out) ← alloc_account extent flags updateAllocPtr res_in;
  mret (mkAllocated 0 extent res_in res_out).

(** The searches for blocks that need not be contiguous. *)
Definition find_any_extent (startingBlock maxBlocks flags : Z) (extent : HFSPlusExtentDescriptor)
    : V (Z * HFSPlusExtentDescriptor * Z) :=
  let forceFlush := ISSET flags HFS_ALLOC_FLUSHTXN in
  let flags := if forceFlush then CLR flags HFS_ALLOC_FLUSHTXN else flags in
  '(err, extent) ← BlockFindKnown maxBlocks extent;
  v ← get_vol;
  '(err, extent) ←
    (if err =? dskFulErr then BlockFindAny startingBlock (vo_allocLimit v) maxBlocks flags true extent else mret (err, extent));
  if negb (err =? dskFulErr) then mret (err, extent, flags) else
  '(err, extent) ←
    (if has_flag v HFS_SUMMARY_TABLE then BlockFindAny 1 (vo_allocLimit v) maxBlocks flags false extent
     else BlockFindAny 1 startingBlock maxBlocks flags false extent);
  if (err =? dskFulErr) && forceFlush then
    let flags := SET flags HFS_ALLOC_FLUSHTXN in
    '(err, extent) ← BlockFindAny 1 (vo_allocLimit v) maxBlocks flags false extent;
    mret (err, extent, flags)
  else mret (err, extent, flags).

(** From the check for free blocks on. *)
Definition alloc_search (ap : option extra_args) (startingBlock minBlocks maxBlocks freeBlocks_ : Z)
    (extent : HFSPlusExtentDescriptor) (flags : Z) (res_in : option Z) : V allocated_extent :=
  let forceContiguous := ISSET flags (Z.lor HFS_ALLOC_FORCECONTIG HFS_ALLOC_TRY_HARD) in
  v ← get_vol;
  let flags := if freeBlocks_ <? u32 (tentativeBlocks (vo_counts v) + minBlocks)
               then SET flags HFS_ALLOC_IGNORE_TENTATIVE else flags in
  let check := negb (ISSET flags HFS_ALLOC_SKIPFREEBLKS) in
  if check && ((freeBlocks_ =? 0) || forceContiguous && (freeBlocks_ <? minBlocks)) then alloc_failed dskFulErr res_in else
  let minBlocks := if check && (freeBlocks_ <? minBlocks) then freeBlocks_ else minBlocks in
  let maxBlocks := if check && (freeBlocks_ <? maxBlocks) then freeBlocks_ else maxBlocks in
  if ISSET flags HFS_ALLOC_TRY_HARD then
    '(err, extent) ← hfs_alloc_try_hard extent maxBlocks flags;
    if negb (err =? 0) then alloc_failed err res_in else alloc_mark ap minBlocks extent flags false res_in
  else
  let updateAllocPtr := startingBlock =? 0 in
  let startingBlock :=
    if startingBlock =? 0 then
      if is_sparse (vo_cache v) then sparseAllocation (vo_counts v) else nextAllocation (vo_counts v)
    else startingBlock in
  let startingBlock := if vo_allocLimit v <=? startingBlock then 0 else startingBlock in
  if (forceContiguous : bool) then
    '(err, extent) ← BlockFindContig startingBlock minBlocks maxBlocks flags extent;
    let updateAllocPtr :=
      if (err =? noErr) && (startingBlock <? startBlock extent) &&
         ((startBlock extent <? hfs_metazone_start (vo_geom v)) || (hfs_metazone_end (vo_geom v) <? startBlock extent))
      then true else updateAllocPtr in
    if negb (err =? 0) then alloc_failed err res_in else alloc_mark ap minBlocks extent flags updateAllocPtr res_in
  else
    '(err, extent, flags) ← find_any_extent startingBlock maxBlocks flags extent;
    if negb (err =? 0) then alloc_failed err res_in else alloc_mark ap minBlocks extent flags updateAllocPtr res_in.

Definition hfs_block_alloc_int (extent : HFSPlusExtentDescriptor) (flags : Z) (ap : option extra_args) : V allocated_extent :=
  let startingBlock := startBlock extent in
  let minBlocks := blockCount extent in
  let maxBlocks := match ap with Some ap => if max_blocks ap =? 0 then minBlocks else max_blocks ap | None => minBlocks end in
  let res_in := ap ← ap; reservation_in ap in
  if ISSET flags HFS_ALLOC_COMMIT then
    p ← vo_lift res_in;
    range ← get_entry p;
    alloc_mark ap minBlocks (mkExtent (u32 (rl_start range)) (u32 (rl_len range))) flags false res_in
  else if ISSET flags HFS_ALLOC_ROLL_BACK then alloc_mark ap minBlocks extent flags false res_in
  else
  v ← get_vol;
  let freeBlocks_ := hfs_freeblks v false in
  if ISSET flags HFS_ALLOC_USE_TENTATIVE then
    _ ← vo_lift ap;
    use ← match res_in with
          | Some p =>
              range ← get_entry p;
              let count := Z.min (Z.min maxBlocks (u32 (rl_len range))) freeBlocks_ in
              mret (if negb (rl_start range =? -1) && (minBlocks <=? count) then Some (u32 (rl_start range), count) else None)
          | None => mret None
          end;
    match use with
    | Some (start, count) =>
        let flags := if ISSET flags HFS_ALLOC_LOCKED then flags else SET flags HFS_ALLOC_COMMIT in
        alloc_mark ap minBlocks (mkExtent start count) flags false res_in
    | None =>
        res_in ← hfs_free_tentative res_in;
        alloc_search ap startingBlock minBlocks maxBlocks freeBlocks_ extent (CLR flags HFS_ALLOC_USE_TENTATIVE) res_in
    end
  else alloc_search ap startingBlock minBlocks maxBlocks freeBlocks_ extent flags res_in.

(** The error, and the start and the length of the extent. *)
Definition BlockAllocate (startingBlock minBlocks maxBlocks flags : Z) : V (Z * Z * Z) :=
  r ← hfs_block_alloc_int (mkExtent startingBlock minBlocks) flags (Some (mkArgs maxBlocks None 0 0));
  mret (al_err r, startBlock (al_extent r), blockCount (al_extent r)).
