(* ===== verification/VolumeProps.v ===== *)
(** * Well-formed volumes (core/VolumeAllocation.c)

    [vol_ok] is what the allocator relies on: the bitmap is whole and covers the
    blocks that may be allocated, the reserved ranges are ranges, the pending trims are
    whole blocks, the summary table is long enough.  With it the calls that read the
    bitmap, the summary table and the journal's trim lists never fault, and say what is
    in them. *)

From S2P Require Import Prelude HfsFormat RangeList FreeExtCache Bitmap BitmapBits BitmapWalk BitmapMark BitmapFree BitmapReserve JournalTrim JournalTrimProps Volume VolumeOps BlockSearch.

(** ** The invariant *)

Definition words_total (v : vol) : Z := Z.of_nat (length (bm_words (vo_bitmap v))).
Definition block_bits (v : vol) : Z := bitsPerBlock (vbm_of v).

(** A block that a search with [flags] takes for used. *)
Definition used (v : vol) (flags b : Z) : bool := seen (vbm_of v) (reservations_of flags) b.

Definition bitmap_ok (v : vol) : Prop :=
  vbm_ok (vbm_of v) /\ Forall range_ok (vb_tentative (vbm_of v)) /\ Forall range_ok (vb_locked (vbm_of v)).

Record limits_ok (v : vol) : Prop := {
  li_alloc : 1 < vo_allocLimit v <= vo_totalBlocks v;
  li_total : vo_totalBlocks v <= 32 * words_total v;
  li_max : vo_totalBlocks v <= UINT32_MAX;
  (* the first block is that of the volume header *)
  li_first : bit_at (bm_words (vo_bitmap v)) 0 = true;
  li_zone : 0 <= hfs_metazone_end (vo_geom v) < UINT32_MAX - 1;
  (* the last block is that of the alternate volume header *)
  li_last : bit_at (bm_words (vo_bitmap v)) (vo_totalBlocks v - 1) = true;
}.

Record geom_ok (v : vol) : Prop := {
  go_size : 0 < blockSize (vo_geom v);
  go_offset : 0 <= hfsPlusIOPosOffset (vo_geom v);
  go_device : hfsPlusIOPosOffset (vo_geom v) + vo_totalBlocks v * blockSize (vo_geom v) <= hfs_logical_bytes (vo_geom v);
  go_max : hfs_logical_bytes (vo_geom v) < 2 ^ 64;
}.

(** A range of whole blocks of the volume. *)
Definition whole_blocks (v : vol) (e : dk_extent) : Prop :=
  exists s n, 0 <= s /\ 0 < n /\ s + n <= vo_totalBlocks v /\
    de_offset e = hfsPlusIOPosOffset (vo_geom v) + s * blockSize (vo_geom v) /\
    de_length e = n * blockSize (vo_geom v).

Definition jnl_ok (v : vol) : Prop :=
  forall j, vo_jnl v = Some j -> jtrim_ok j /\ jt_invalid j = false /\ Forall (whole_blocks v) (trims j).

(** Every bitmap block has its bit in the table. *)
Definition summary_ok (v : vol) : Prop :=
  has_flag v HFS_SUMMARY_TABLE = true ->
  forall b, 0 <= b < vo_totalBlocks v -> (Z.to_nat (b / block_bits v / 8) < length (sm_table (vo_summary v)))%nat.

Record vol_ok (v : vol) : Prop := {
  vk_bitmap : bitmap_ok v;
  vk_limits : limits_ok v;
  vk_geom : geom_ok v;
  vk_jnl : jnl_ok v;
  vk_summary : summary_ok v;
  vk_cache : cache_inv (vo_cache v);
}.

(** ** Calls that read *)

Definition set_io (io : list Z) (v : vol) : vol :=
  let b := vo_bitmap v in with_bitmap (mkBitmap (bm_words b) (bm_iosize b) (bm_totalBlocks b) (bm_inconsistent b) io) v.

Lemma with_vbm_io io v : with_vbm (vb_with_io io (vbm_of v)) v = set_io io v.
Proof. done. Qed.

Lemma with_vbm_id v : with_vbm (vbm_of v) v = v.
Proof. by destruct v as [[] ? ? ? ? ? ?]. Qed.

Lemma release_block_eq v :
  exists err io, release_block v = Some (err, set_io io v) /\ (forall e, e ∈ io -> e ∈ bm_io (vo_bitmap v)) /\
    (err = noErr \/ err ∈ bm_io (vo_bitmap v)).
Proof.
  unfold release_block, on_bitmap. rewrite ReleaseBitmapBlock_eq.
  destruct (io_step_with (vbm_of v)) as (io & E & Hio). pose proof (io_step_err (vbm_of v)) as Herr.
  destruct (io_step (vbm_of v)) as [err s]. cbn [fst snd] in *. subst s. by exists err, io.
Qed.

Lemma read_block_eq bit v :
  exists err io, read_block bit v = Some ((err, if err =? noErr then Some (bit / block_bits v) else None), set_io io v) /\
    (forall e, e ∈ io -> e ∈ bm_io (vo_bitmap v)) /\ (err = noErr \/ err ∈ bm_io (vo_bitmap v)).
Proof.
  unfold read_block, on_bitmap. rewrite ReadBitmapBlock_eq.
  destruct (io_step_with (vbm_of v)) as (io & E & Hio). pose proof (io_step_err (vbm_of v)) as Herr.
  destruct (io_step (vbm_of v)) as [err s]. cbn [fst snd] in *. subst s. by exists err, io.
Qed.

(** The cursor is at word [k]. *)
Record cursor_word (v : vol) (c : cursor) (k : Z) : Prop := {
  cw_block : 0 <= cu_block c;
  cw_index : 0 <= cu_index c < words_of v;
  cw_word : k = cu_block c * words_of v + cu_index c;
  cw_left : cu_left c = words_of v - cu_index c;
}.

(** What a word shows, word [k]. *)
Definition shows (v : vol) (flags k word : Z) : Prop :=
  word_ok word /\ forall i, 0 <= i < 32 -> Z.testbit word i = used v flags (32 * k + (31 - i)).

Lemma words_of_eq v : words_of v = wordsPerBlock (vbm_of v).
Proof. done. Qed.

Lemma words_of_pos v : vol_ok v -> 0 < words_of v.
Proof. intros [[Hok _] _ _ _ _ _]. rewrite words_of_eq. by apply wordsPerBlock_pos. Qed.

Lemma block_bits_eq v : vol_ok v -> block_bits v = 32 * words_of v.
Proof. intros [[Hok _] _ _ _ _ _]. by apply bitsPerBlock_eq. Qed.

Lemma word_index v b :
  vol_ok v -> 0 <= b -> Z.land (b / kBitsPerWord) (words_of v - 1) = Z.land b (block_bits v - 1) / kBitsPerWord.
Proof.
  intros Hv Hb. pose proof (words_of_pos v Hv) as HW. destruct Hv as [[Hok _] _ _ _ _ _].
  unfold block_bits. rewrite (block_mask _ Hok) by done. rewrite words_of_eq in *. unfold kBitsPerWord.
  destruct (vbm_pow2 _ Hok) as (n & Hn & E).
  assert (wordsPerBlock (vbm_of v) = 2 ^ (n - 5)) as Ew.
  { replace n with (n - 5 + 5) in E by lia. rewrite Z.pow_add_r in E by lia. change (2 ^ 5) with 32 in E. lia. }
  rewrite Z.rem_mul_r by lia. rewrite (Z.mul_comm 32), Z.div_add by lia. rewrite (Z.div_small (b mod 32)) by (apply Z.mod_pos_bound; lia).
  rewrite Ew. replace (2 ^ (n - 5) - 1) with (Z.ones (n - 5)) by (rewrite Z.ones_equiv; lia). rewrite Z.land_ones by lia. lia.
Qed.

Lemma fetch_ok v flags c k :
  vol_ok v -> cursor_word v c k -> 0 <= k < words_total v ->
  exists w, fetch flags c v = Some (w, v) /\ shows v flags k w.
Proof.
  intros Hv [H1 H2 H3 H4] Hk. pose proof (words_of_pos v Hv) as HW. destruct Hv as [(Hok & Ht & Hl) _ _ _ _ _].
  destruct (view_bits (vbm_of v) (reservations_of flags) k Hok Ht Hl Hk) as (w & E & Hw & Hbits).
  exists w. split; [|by split]. unfold fetch, on_bitmap, load_word, vb_state, mbind, VB_bind.
  unfold view in E. rewrite words_of_eq in *.
  assert (k / wordsPerBlock (vbm_of v) = cu_block c) as Ed by (subst k; rewrite Z.div_add_l, Z.div_small; lia).
  assert (k mod wordsPerBlock (vbm_of v) = cu_index c) as Em by (subst k; rewrite Z.add_comm, Z_mod_plus_full, Z.mod_small; lia).
  rewrite Ed, Em in E. destruct (block_buffer (vbm_of v) (reservations_of flags) (cu_block c)) as [buffer|]; [|done].
  cbn [mbind option_bind] in E. cbn [vb_lift fmap option_fmap option_map].
  destruct (Z.leb_spec 0 (cu_index c)); [|lia]. unfold vb_lift. rewrite E. cbn. by rewrite with_vbm_id.
Qed.

(** ** Blocks that wait for a trim *)

Definition pending_block (v : vol) (b : Z) : Prop :=
  exists j, vo_jnl v = Some j /\ pending j (hfsPlusIOPosOffset (vo_geom v) + b * blockSize (vo_geom v)).

Lemma pending_trims j x : pending j x <-> exists e, e ∈ trims j /\ in_extent x e.
Proof.
  unfold pending, in_trim, trims. setoid_rewrite elem_of_app. split.
  - intros [(e & He & Hx)|(t & Et & e & He & Hx)]; exists e; [tauto|]. rewrite Et. tauto.
  - intros (e & [He|He] & Hx); [left; eauto|]. destruct (jt_async j) as [t|]; [|by apply elem_of_nil in He]. right. eauto.
Qed.

(** With whole blocks in the lists every byte of a block says the same. *)
Lemma pending_byte v j b x :
  geom_ok v -> vo_jnl v = Some j -> Forall (whole_blocks v) (trims j) -> 0 <= b ->
  hfsPlusIOPosOffset (vo_geom v) + b * blockSize (vo_geom v) <= x < hfsPlusIOPosOffset (vo_geom v) + (b + 1) * blockSize (vo_geom v) ->
  pending j x <-> pending_block v b.
Proof.
  intros [Hs _ _ _] Ej Hw Hb Hx. rewrite Forall_forall in Hw.
  assert (forall e, e ∈ trims j -> in_extent x e <-> in_extent (hfsPlusIOPosOffset (vo_geom v) + b * blockSize (vo_geom v)) e) as He.
  { intros e He. destruct (Hw e He) as (s & n & H0 & Hn & _ & Eo & El). unfold in_extent, dk_end. rewrite Eo, El.
    set (B := blockSize (vo_geom v)) in *.
    assert (forall c, c * B <= x - hfsPlusIOPosOffset (vo_geom v) <-> c <= b) as Hc by (intros c; split; intros ?; nia).
    pose proof (Hc s). pose proof (Hc (s + n)). split; intros ?; nia. }
  unfold pending_block. split.
  - intros (e & Hin & Hx')%pending_trims. exists j. split; [done|]. apply pending_trims. exists e. split; [done|]. by apply He.
  - intros (j' & Ej' & (e & Hin & Hx')%pending_trims). rewrite Ej in Ej'. injection Ej' as <-. apply pending_trims.
    exists e. split; [done|]. by apply He.
Qed.

Lemma block_offset_ok v b :
  vol_ok v -> 0 <= b < vo_totalBlocks v -> block_offset (vo_geom v) b = hfsPlusIOPosOffset (vo_geom v) + b * blockSize (vo_geom v).
Proof. intros [_ _ [H1 H2 H3 H4] _ _ _] Hb. unfold block_offset, u64. rewrite (wrap_id 64 (b * _)), wrap_id by nia. lia. Qed.

Lemma block_bytes_ok v n :
  vol_ok v -> 0 <= n <= vo_totalBlocks v -> block_bytes (vo_geom v) n = n * blockSize (vo_geom v).
Proof. intros [_ _ [H1 H2 H3 H4] _ _ _] Hb. unfold block_bytes, u64. apply wrap_id. nia. Qed.

Lemma CheckUnmappedBytes_ok v b n :
  vol_ok v -> 0 <= b -> 0 < n -> b + n <= vo_totalBlocks v ->
  exists freed e, CheckUnmappedBytes v b n = (0, freed, e) /\
    (freed = false -> forall x, b <= x < b + n -> ~ pending_block v x) /\
    (freed = true -> b < e <= b + n /\ pending_block v (e - 1) /\ is_Some (vo_jnl v)).
Proof.
  intros Hv Hb Hn Hle. pose proof (block_offset_ok v b Hv ltac:(lia)) as Eo. pose proof (block_bytes_ok v n Hv ltac:(lia)) as El.
  unfold CheckUnmappedBytes. destruct (vo_jnl v) as [j|] eqn:Ej.
  2:{ exists false, 0. split; [done|]. split; [|done]. intros _ x _ (j & Ej' & _). congruence. }
  rewrite Eo, El. pose proof Hv as [_ [Hl1 _ Hl3 _ _ _] Hg Hj _ _]. pose proof Hg as [H1 H2 H3 H4].
  destruct (Hj j Ej) as (Hjo & _ & Hw). set (P := hfsPlusIOPosOffset (vo_geom v)) in *. set (B := blockSize (vo_geom v)) in *.
  destruct (Z.leb_spec (hfs_logical_bytes (vo_geom v)) (P + b * B)); [nia|].
  unfold u64 at 1. rewrite wrap_id by nia.
  destruct (Z.ltb_spec (hfs_logical_bytes (vo_geom v) - (P + b * B)) (n * B)); [nia|]. cbn [orb].
  pose proof (journal_trim_extent_overlap_spec j (P + b * B) (n * B) Hjo ltac:(nia) ltac:(nia) ltac:(nia)) as Hov.
  destruct (journal_trim_extent_overlap j (P + b * B) (n * B)) as [e|].
  - destruct Hov as (He & Hp & Ha). assert (exists k, e = P + k * B /\ b < k <= b + n) as (k & -> & Hk).
    { destruct Ha as [->|(x & Hx & ->)]; [exists (b + n); split; [subst P B; nia|lia]|].
      rewrite Forall_forall in Hw. destruct (Hw x Hx) as (s & m & G1 & G2 & G3 & G4 & G5). unfold dk_end in *. fold P B in G4, G5.
      exists (s + m). split; [nia|]. rewrite G4, G5 in He. nia. }
    exists true, k. replace (P + k * B - P) with (k * B) by lia. unfold u64. rewrite wrap_id by nia.
    rewrite Z.div_mul by lia. rewrite u32_id by (unfold UINT32_MAX in *; lia). split; [done|]. split; [done|]. intros _. split; [done|].
    split; [|done]. apply (pending_byte v j (k - 1) (P + k * B - 1) Hg Ej Hw); [lia|fold P B; nia|done].
  - exists false, 0. split; [done|]. split; [|done]. intros _ x Hx Hpb.
    apply (pending_byte v j x (P + x * B) Hg Ej Hw) in Hpb; [|lia|fold P B; nia]. apply (Hov (P + x * B)); [nia|done].
Qed.

(** ** The summary table *)

(** The bitmap block of a block, as a bit of the table. *)
Lemma get_summary_index_ok v b :
  vol_ok v -> has_flag v HFS_SUMMARY_TABLE = true -> 0 <= b < vo_totalBlocks v ->
  hfs_get_summary_index v b = Some (b / block_bits v).
Proof.
  intros Hv Hf Hb. unfold hfs_get_summary_index. rewrite Hf. destruct (Z.leb_spec (vo_totalBlocks v) b); [lia|].
  pose proof (words_of_pos v Hv). destruct (Z.eqb_spec (bm_iosize (vo_bitmap v)) 0) as [E|]; [|done].
  unfold words_of in *. rewrite E in *. done.
Qed.

Lemma set_summary_ok v index inuse :
  vol_ok v -> has_flag v HFS_SUMMARY_TABLE = true -> (Z.to_nat (index / 8) < length (sm_table (vo_summary v)))%nat ->
  exists byte, sm_table (vo_summary v) !! Z.to_nat (index / 8) = Some byte /\
    hfs_set_summary index inuse v = Some (tt, with_summary (mkSummary (<[Z.to_nat (index / 8) :=
      if inuse then Z.lor byte (Z.shiftl 1 (index mod 8)) else Z.land byte (Z.lnot (Z.shiftl 1 (index mod 8)))]>
      (sm_table (vo_summary v))) (sm_size (vo_summary v))) v).
Proof.
  intros Hv Hf Hi. destruct (lookup_lt_is_Some_2 _ _ Hi) as [byte E]. exists byte. split; [done|].
  unfold hfs_set_summary, mbind, V_bind, get_vol. rewrite Hf. pose proof (words_of_pos v Hv).
  destruct (Z.eqb_spec (bm_iosize (vo_bitmap v)) 0) as [E0|]; [unfold words_of in *; by rewrite E0 in *|].
  cbn [negb orb]. unfold vo_lift. change kBitsPerByte with 8. rewrite E. cbn. by destruct inuse.
Qed.

(** A bit of the table. *)
Definition table_bit (t : list Z) (index : Z) : bool :=
  match t !! Z.to_nat (index / 8) with Some byte => Z.testbit byte (index mod 8) | None => false end.

Lemma summary_bit_ok v index :
  (Z.to_nat (index / 8) < length (sm_table (vo_summary v)))%nat ->
  summary_bit v index = Some (table_bit (sm_table (vo_summary v)) index).
Proof.
  intros Hi. destruct (lookup_lt_is_Some_2 _ _ Hi) as [byte E]. unfold summary_bit, table_bit.
  change kBitsPerByte with 8. by rewrite E.
Qed.

Lemma table_bit_set t index byte (inuse : bool) i :
  0 <= index -> 0 <= i -> t !! Z.to_nat (index / 8) = Some byte ->
  table_bit (<[Z.to_nat (index / 8) := if inuse then Z.lor byte (Z.shiftl 1 (index mod 8))
                                       else Z.land byte (Z.lnot (Z.shiftl 1 (index mod 8)))]> t) i
  = if i =? index then inuse else table_bit t i.
Proof.
  intros Hx Hi E. unfold table_bit. pose proof (Z.div_pos index 8 Hx ltac:(lia)). pose proof (Z.div_pos i 8 Hi ltac:(lia)).
  pose proof (Z.mod_pos_bound i 8 ltac:(lia)). pose proof (Z.mod_pos_bound index 8 ltac:(lia)).
  pose proof (Z.div_mod i 8 ltac:(lia)). pose proof (Z.div_mod index 8 ltac:(lia)).
  assert (Z.shiftl 1 (index mod 8) = 2 ^ (index mod 8)) as Es by (rewrite Z.shiftl_mul_pow2 by lia; lia).
  destruct (Z.eq_dec (i / 8) (index / 8)) as [Ed|Ed].
  - rewrite Ed, list_lookup_insert_eq by (by eapply lookup_lt_Some). rewrite E, Es.
    assert ((i =? index) = (index mod 8 =? i mod 8)) as -> by (destruct (Z.eqb_spec i index), (Z.eqb_spec (index mod 8) (i mod 8)); lia).
    destruct inuse; [rewrite Z.lor_spec|rewrite Z.land_spec, Z.lnot_spec by lia]; rewrite Z.pow2_bits_eqb by lia;
      destruct (index mod 8 =? i mod 8); by rewrite ?orb_true_r, ?orb_false_r, ?andb_false_r, ?andb_true_r.
  - rewrite list_lookup_insert_ne by lia. destruct (Z.eqb_spec i index); [congruence|done].
Qed.

(** ** What a search does to a volume

    It reads bitmap blocks, notes in the summary table that a bitmap block is full,
    and may put free runs it comes across in the free extent cache. *)

Definition set_table (t : list Z) (v : vol) : vol := with_summary (mkSummary t (sm_size (vo_summary v))) v.

(** A bit that is set in the table is right, or was set before. *)
Definition noted (v : vol) (flags : Z) (t : list Z) : Prop :=
  forall index, 0 <= index -> table_bit t index = true ->
    table_bit (sm_table (vo_summary v)) index = true \/
    (forall b, 0 <= b -> b / block_bits v = index -> used v flags b = true).

(** A block that may be in the cache: it is free, not reserved and waits for no trim. *)
Definition idle (v : vol) (b : Z) : Prop := used v 0 b = false /\ ~ pending_block v b.

(** A cache with more such blocks. *)
Record cache_grown (v : vol) (m : hfsmount) : Prop := {
  cg_mount : same_mount (vo_cache v) m;
  cg_inv : cache_inv m;
  cg_free : forall b, cached_in m b -> cached_in (vo_cache v) b \/ idle v b;
}.

Record searched (flags : Z) (v v' : vol) : Prop := {
  se_state : exists io t m, v' = set_io io (set_table t (with_cache m v)) /\ (forall e, e ∈ io -> e ∈ bm_io (vo_bitmap v)) /\
    length t = length (sm_table (vo_summary v)) /\ noted v flags t /\ cache_grown v m;
}.

Lemma cache_grown_refl v : vol_ok v -> cache_grown v (vo_cache v).
Proof. intros Hv. split; [done|apply Hv|auto]. Qed.

Lemma searched_refl flags v : vol_ok v -> searched flags v v.
Proof.
  intros Hv. split. exists (bm_io (vo_bitmap v)), (sm_table (vo_summary v)), (vo_cache v).
  split; [by destruct v as [[] ? [] ? ? ? ?]|].
  split; [done|]. split; [done|]. split; [|by apply cache_grown_refl]. intros i _ H. by left.
Qed.

Lemma searched_io flags v v' io :
  searched flags v v' -> (forall e, e ∈ io -> e ∈ bm_io (vo_bitmap v')) -> searched flags v (set_io io v').
Proof.
  intros [(io' & t & m & -> & Hio & Hl & Hn)] Hio'. split. exists io, t, m. split; [done|]. split; [|done].
  intros e He. apply Hio. by apply Hio'.
Qed.

(** A search changes nothing that it looks at. *)
Lemma searched_same flags v v' :
  searched flags v v' ->
  vo_allocLimit v' = vo_allocLimit v /\ vo_reserved v' = vo_reserved v /\ vo_jnl v' = vo_jnl v /\ vo_counts v' = vo_counts v /\
  vo_geom v' = vo_geom v /\ bm_words (vo_bitmap v') = bm_words (vo_bitmap v) /\ bm_iosize (vo_bitmap v') = bm_iosize (vo_bitmap v) /\
  bm_totalBlocks (vo_bitmap v') = bm_totalBlocks (vo_bitmap v) /\ bm_inconsistent (vo_bitmap v') = bm_inconsistent (vo_bitmap v) /\
  (forall e, e ∈ bm_io (vo_bitmap v') -> e ∈ bm_io (vo_bitmap v)).
Proof. intros [(io & t & m & -> & Hio & _ & _ & [[_ Ha] _ _])]. by repeat split. Qed.

Lemma searched_flag flags v v' f : searched flags v v' -> has_flag v' f = has_flag v f.
Proof. intros [(io & t & m & -> & _ & _ & _ & [[Hf _] _ _])]. unfold has_flag, vo_flags. cbn. by rewrite Hf. Qed.

Lemma searched_ok flags v v' : vol_ok v -> searched flags v v' -> vol_ok v'.
Proof.
  intros [H1 H2 H3 H4 H5 H6] Hs. pose proof (searched_flag flags v v' HFS_SUMMARY_TABLE Hs) as Ef.
  pose proof (searched_same flags v v' Hs) as (Ea & _). destruct Hs as [(io & t & m & -> & Hio & Hl & Hn & Hc)]. split.
  - destruct H1 as (Hok & Ht & Hlk). split; [|by split]. apply (vbm_ok_io (vbm_of v) io Hok).
  - destruct H2. split; try done; by rewrite Ea.
  - destruct H3; by split.
  - done.
  - intros Hf b Hb. rewrite Ef in Hf. cbn in *. rewrite Hl. by apply (H5 Hf b).
  - apply Hc.
Qed.

Lemma searched_used flags v v' fl b : searched flags v v' -> used v' fl b = used v fl b.
Proof. by intros [(io & t & m & -> & _)]. Qed.

Lemma searched_pending flags v v' b : searched flags v v' -> pending_block v' b <-> pending_block v b.
Proof. by intros [(io & t & m & -> & _)]. Qed.

Lemma searched_bits flags v v' : searched flags v v' -> block_bits v' = block_bits v.
Proof. by intros [(io & t & m & -> & _)]. Qed.
Lemma searched_check flags v v' b n : searched flags v v' -> CheckUnmappedBytes v' b n = CheckUnmappedBytes v b n.
Proof. by intros [(io & t & m & -> & _)]. Qed.

Lemma searched_trans flags v1 v2 v3 : searched flags v1 v2 -> searched flags v2 v3 -> searched flags v1 v3.
Proof.
  intros [(io1 & t1 & m1 & -> & Hio1 & Hl1 & Hn1 & [Hm1 Hi1 Hf1])] [(io2 & t2 & m2 & -> & Hio2 & Hl2 & Hn2 & [Hm2 Hi2 Hf2])].
  split. exists io2, t2, m2.
  split; [done|]. split; [intros e He; by apply Hio1, Hio2|]. split; [cbn in Hl2; lia|]. split.
  - intros i Hi Ht. destruct (Hn2 i Hi Ht) as [H|H]; [|by right]. by apply Hn1.
  - split; [|done|].
    + destruct Hm1, Hm2. cbn in *. split; congruence.
    + intros b Hb. destruct (Hf2 b Hb) as [H|H]; [|by right]. by apply Hf1.
Qed.

(** Putting free blocks in the cache. *)
Lemma searched_add flags v v' s n :
  vol_ok v -> searched flags v v' -> 0 <= s -> 0 < n -> s + n <= vo_totalBlocks v -> (forall b, s <= b < s + n -> idle v b) ->
  exists v'', vo_add_free_extent s n v' = Some (false, v'') /\ searched flags v v''.
Proof.
  intros Hv Hs H0 Hn Hle Hidle. pose proof (li_max v (vk_limits v Hv)) as Hmax. pose proof (searched_ok flags v v' Hv Hs) as Hv'.
  destruct Hs as [(io & t & m & -> & Hio & Hl & Hn' & [Hm Hi Hf])]. set (v' := set_io io (set_table t (with_cache m v))) in *.
  destruct (add_free_extent_cache_spec m s n Hi H0 Hn ltac:(lia)) as (m' & r & E & -> & Hi' & Hm' & Hb & _).
  exists (with_cache m' v'). split.
  - unfold vo_add_free_extent, mbind, V_bind, get_vol, vo_lift. cbn [vo_cache v' set_io set_table with_cache with_summary with_bitmap]. by rewrite E.
  - split. exists io, t, m'. split; [done|]. split; [done|]. split; [done|]. split; [done|]. split; [|done|].
    + destruct Hm, Hm'. split; congruence.
    + intros b Hc. destruct (Hb b Hc) as [H|H]; [by apply Hf|]. right. apply Hidle. lia.
Qed.

(** The note that a bitmap block is full, when it is. *)
Lemma summary_full_ok flags v v' block :
  vol_ok v -> searched flags v v' -> 0 <= block < vo_totalBlocks v -> has_flag v HFS_SUMMARY_TABLE = true ->
  (forall b, 0 <= b -> b / block_bits v = block / block_bits v -> used v flags b = true) ->
  exists v'', summary_full block v' = Some (tt, v'') /\ searched flags v v'' /\ bm_io (vo_bitmap v'') = bm_io (vo_bitmap v').
Proof.
  intros Hv Hs Hb Hf Hfull. pose proof (searched_ok flags v v' Hv Hs) as Hv'.
  pose proof (searched_flag flags v v' HFS_SUMMARY_TABLE Hs) as Ef. rewrite Hf in Ef.
  destruct Hs as [(io & t & m & -> & Hio & Hl & Hn & Hc)]. set (v' := set_io io (set_table t (with_cache m v))) in *.
  unfold summary_full, mbind, V_bind, get_vol. rewrite (get_summary_index_ok v' block Hv' Ef Hb).
  pose proof (vk_summary _ Hv' Ef block Hb) as Hlt.
  assert (0 <= block / block_bits v') as Hx.
  { apply Z.div_pos; [lia|]. rewrite (block_bits_eq v' Hv'). pose proof (words_of_pos v' Hv'). lia. }
  destruct (set_summary_ok v' (block / block_bits v') true Hv' Ef Hlt) as (byte & E & Es).
  exists (set_io io (set_table (<[Z.to_nat (block / block_bits v' / 8) := Z.lor byte (Z.shiftl 1 ((block / block_bits v') mod 8))]> t) (with_cache m v))).
  split; [|split; [|done]].
  - unfold vo_lift. cbn [fmap option_fmap option_map]. rewrite Es. done.
  - split. exists io, (<[Z.to_nat (block / block_bits v' / 8) := Z.lor byte (Z.shiftl 1 ((block / block_bits v') mod 8))]> t), m.
    split; [done|]. split; [done|]. split; [by rewrite length_insert|]. split; [|done].
    intros i Hi Ht. rewrite (table_bit_set t _ byte true i Hx Hi E) in Ht.
    destruct (Z.eqb_spec i (block / block_bits v')) as [->|]; [right; exact Hfull|by apply Hn].
Qed.

(** ** Looking for free blocks in the summary table *)

(** A bit is set only when every block of its bitmap block is used: for a search with
    [flags], and for every search. *)
Definition summary_says (v : vol) (flags : Z) : Prop :=
  forall index, 0 <= index -> table_bit (sm_table (vo_summary v)) index = true ->
    forall b, 0 <= b -> b / block_bits v = index -> used v flags b = true.
Definition summary_sound (v : vol) : Prop := summary_says v 0.

Lemma used_none v flags b : used v flags b = true -> used v 0 b = true.
Proof.
  unfold used, seen, ranges_of, reservations_of. change (ISSET 0 HFS_ALLOC_IGNORE_RESERVED) with false.
  change (ISSET 0 HFS_ALLOC_IGNORE_TENTATIVE) with false. cbn match. rewrite in_ranges_app.
  destruct (ISSET flags HFS_ALLOC_IGNORE_RESERVED), (ISSET flags HFS_ALLOC_IGNORE_TENTATIVE); rewrite ?in_ranges_app; cbn;
    rewrite ?orb_true_iff; intuition done.
Qed.

Lemma searched_sound flags v v' : searched flags v v' -> summary_sound v -> summary_sound v'.
Proof.
  intros Hs Hsound index Hi Hbit b Hb Ed. rewrite (searched_used flags v v') by done. rewrite (searched_bits flags v v') in Ed by done.
  destruct Hs as [(io & t & m & -> & _ & _ & Hn & _)]. destruct (Hn index Hi Hbit) as [H|H]; [by apply (Hsound index)|].
  by apply (used_none v flags), H.
Qed.

Lemma searched_says flags v v' : searched flags v v' -> summary_says v flags -> summary_says v' flags.
Proof.
  intros Hs Hsound index Hi Hbit b Hb Ed. rewrite (searched_used flags v v') by done. rewrite (searched_bits flags v v') in Ed by done.
  destruct Hs as [(io & t & m & -> & _ & _ & Hn & _)]. destruct (Hn index Hi Hbit) as [H|H]; [by apply (Hsound index)|by apply H].
Qed.

Definition all_full (v : vol) (from to : Z) : Prop := forall i, from <= i < to -> table_bit (sm_table (vo_summary v)) i = true.

Section Summary.
Context (v : vol) (Hv : vol_ok v) (Hf : has_flag v HFS_SUMMARY_TABLE = true).
Local Notation BB := (block_bits v).

Lemma block_bits_pos : 0 < BB.
Proof. rewrite (block_bits_eq v Hv). pose proof (words_of_pos v Hv). lia. Qed.

Lemma summary_bit_of index :
  0 <= index -> index * BB < vo_totalBlocks v -> summary_bit v index = Some (table_bit (sm_table (vo_summary v)) index).
Proof.
  intros Hi Hlt. apply summary_bit_ok. pose proof block_bits_pos.
  pose proof (vk_summary v Hv Hf (index * BB) ltac:(nia)) as H'. rewrite Z.div_mul in H' by lia. done.
Qed.

(** What the search answers from bit [from] on, up to bit [cap]. *)
Definition summary_answer (from cap : Z) (err newblock : Z) : Prop :=
  (err = 0 /\ newblock mod BB = 0 /\ from <= newblock / BB <= cap /\ all_full v from (newblock / BB) /\
     table_bit (sm_table (vo_summary v)) (newblock / BB) = false) \/
  (err = ENOSPC /\ all_full v from (cap + 1)).

Lemma find_summary_loop_ok fuel : forall index cap,
  0 <= index -> cap * BB < vo_totalBlocks v -> cap + 1 - index < Z.of_nat fuel -> 0 < Z.of_nat fuel ->
  exists err newblock, find_summary_loop v index cap fuel = Some (err, newblock) /\ summary_answer index cap err newblock.
Proof.
  pose proof (li_max v (vk_limits v Hv)) as Hmax. pose proof block_bits_pos as HB.
  induction fuel as [|fuel IH]; intros index cap Hi Hcap Hfuel Hf0; [lia|]. cbn [find_summary_loop].
  destruct (Z.leb_spec index cap) as [Hle|Hgt].
  2:{ exists ENOSPC, 0. split; [done|]. right. split; [done|]. intros i Hi'. lia. }
  rewrite summary_bit_of by nia. cbn [mbind option_bind]. destruct (table_bit (sm_table (vo_summary v)) index) eqn:Eb.
  - rewrite u32_id by nia. destruct (IH (index + 1) cap) as (err & nb & E & Ha); [lia|done|lia|lia|].
    exists err, nb. split; [done|]. unfold all_full, summary_answer in *.
    destruct Ha as [(-> & H1 & H2 & H3 & H4)|(-> & H3)]; [left|right].
    + split; [done|]. split; [done|]. split; [lia|]. split; [|done]. intros i Hi'. destruct (Z.eq_dec i index) as [->|]; [done|]. apply H3. lia.
    + split; [done|]. intros i Hi'. destruct (Z.eq_dec i index) as [->|]; [done|]. apply H3. lia.
  - unfold hfs_get_summary_allocblock. change (u32 (bm_iosize (vo_bitmap v) * kBitsPerByte)) with BB. rewrite u32_id by nia.
    destruct (Z.leb_spec (vo_totalBlocks v) (index * BB)); [nia|]. exists 0, (index * BB). split; [done|]. left. split; [done|].
    rewrite Z.mod_mul, Z.div_mul by lia. split; [done|]. split; [lia|]. split; [intros i Hi'; lia|done].
Qed.

(** The suggestion of the table: the block itself when its bit is clear, or the start
    of the next bitmap block whose bit is. *)
Lemma hfs_find_summary_free_ok block :
  0 <= block < vo_totalBlocks v ->
  exists err newblock, hfs_find_summary_free v block = Some (err, newblock) /\
    ((err = 0 /\ (newblock = block \/ newblock mod BB = 0 /\ block < newblock < vo_allocLimit v) /\
      all_full v (block / BB) (newblock / BB) /\ table_bit (sm_table (vo_summary v)) (newblock / BB) = false) \/
     (err = ENOSPC /\ all_full v (block / BB) ((vo_allocLimit v - 1) / BB + 1))).
Proof.
  intros Hb. pose proof (li_alloc v (vk_limits v Hv)) as Ha. pose proof (li_max v (vk_limits v Hv)) as Hmax. pose proof block_bits_pos as HB.
  unfold hfs_find_summary_free. rewrite Hf. rewrite (u32_id (vo_allocLimit v - 1)) by lia.
  rewrite (get_summary_index_ok v (vo_allocLimit v - 1) Hv Hf) by lia.
  assert (hfs_check_summary v block = Some (0, negb (table_bit (sm_table (vo_summary v)) (block / BB)))) as ->.
  { unfold hfs_check_summary. rewrite Hf, (get_summary_index_ok v block Hv Hf Hb).
    pose proof (words_of_pos v Hv). destruct (Z.eqb_spec (bm_iosize (vo_bitmap v)) 0) as [E0|]; [unfold words_of in *; by rewrite E0 in *|].
    pose proof (Z.div_pos block BB). pose proof (Z.mul_div_le block BB HB). rewrite summary_bit_of by lia. done. }
  cbn [mbind option_bind]. change (negb (0 =? 0)) with false. cbn match.
  destruct (table_bit (sm_table (vo_summary v)) (block / BB)) eqn:Ebit; cbn [negb].
  2:{ exists 0, block. split; [done|]. left. split; [done|]. split; [by left|]. split; [intros i Hi; lia|done]. }
  rewrite (get_summary_index_ok v block Hv Hf Hb).
  pose proof (Z.div_pos block BB ltac:(lia) HB). pose proof (Z.mul_div_le (vo_allocLimit v - 1) BB HB) as Hcap.
  destruct (find_summary_loop_ok (S (Z.to_nat ((vo_allocLimit v - 1) / BB + 1 - block / BB))) (block / BB) ((vo_allocLimit v - 1) / BB))
    as (err & nb & E & Hans); [lia|lia|lia|lia|]. exists err, nb. split; [done|].
  destruct Hans as [(-> & H1 & H2 & H3 & H4)|(-> & H3)]; [left|by right]. split; [done|]. split; [|done].
  right. split; [done|]. apply Z.div_exact in H1; [|lia]. assert (nb / BB <> block / BB) by (intros Ee; congruence).
  pose proof (Z.div_mod block BB ltac:(lia)). pose proof (Z.mod_pos_bound block BB HB). nia.
Qed.
End Summary.
