(* ===== verification/BlockSearchProps.v ===== *)
(** * The searches for free blocks are right (core/VolumeAllocation.c)

    A run that a search gives has only blocks that are free, not reserved and inside
    of the bounds asked for; when it answers that there is none, every block in the
    bounds is used or waits for a trim.  The searches always end. *)

From S2P Require Import Prelude HfsFormat RangeList FreeExtCache Bitmap BitmapBits BitmapWalk BitmapMark BitmapFree BitmapReserve JournalTrim JournalTrimProps Volume VolumeOps BlockSearch VolumeProps.

(** ** Going over the bits *)

Section Bits.
Context (v0 : vol) (flags : Z) (Hv0 : vol_ok v0).
Local Notation W := (words_of v0).
Local Notation BB := (block_bits v0).
Local Notation total := (32 * words_total v0).

(** The cursor, the word and the mask are those of block [b]. *)
Record at_block (c : cursor) (word bitMask b : Z) : Prop := {
  ab_cursor : cursor_word v0 c (b / 32);
  ab_word : shows v0 flags (b / 32) word;
  ab_mask : bitMask = bit_mask (b mod 32);
}.

Lemma at_block_free c word bitMask b :
  at_block c word bitMask b -> (Z.land word bitMask =? 0) = negb (used v0 flags b).
Proof.
  intros [_ [_ Hw] ->]. pose proof (Z.mod_pos_bound b 32 ltac:(lia)). pose proof (Z.div_mod b 32 ltac:(lia)).
  rewrite land_bit_mask by lia. f_equal. rewrite Hw by lia. f_equal. lia.
Qed.

Lemma fetch_searched v c k :
  searched flags v0 v -> cursor_word v0 c k -> 0 <= k < words_total v0 ->
  exists w, fetch flags c v = Some (w, v) /\ shows v0 flags k w.
Proof.
  intros Hs Hc Hk. pose proof (searched_ok flags v0 v Hv0 Hs) as Hv.
  pose proof (searched_same _ _ _ Hs) as (_ & _ & _ & _ & _ & Ew & Ei & _).
  destruct (fetch_ok v flags c k Hv) as (w & E & Hw & Hb).
  - destruct Hc. split; unfold words_of in *; by rewrite ?Ei.
  - unfold words_total in *. by rewrite Ew.
  - exists w. split; [done|]. split; [done|]. intros i Hi. rewrite Hb by done. by apply (searched_used flags).
Qed.

(** The word of a block is in a bitmap block that is whole. *)
Lemma word_block_inside k : 0 <= k < words_total v0 -> (k / W + 1) * W <= words_total v0.
Proof. intros Hk. destruct Hv0 as [[Hok _] _ _ _ _ _]. by apply (block_inside (vbm_of v0) k Hok). Qed.

Lemma next_same_word b : 0 <= b -> b mod 32 <> 31 -> (b + 1) / 32 = b / 32 /\ (b + 1) mod 32 = b mod 32 + 1.
Proof.
  intros Hb Hm. pose proof (Z.mod_pos_bound b 32 ltac:(lia)). pose proof (Z.div_mod b 32 ltac:(lia)). split.
  - symmetry. apply (Z.div_unique _ _ _ (b mod 32 + 1)); lia.
  - symmetry. apply (Z.mod_unique _ _ (b / 32)); lia.
Qed.

Lemma next_other_word b : 0 <= b -> b mod 32 = 31 -> (b + 1) / 32 = b / 32 + 1 /\ (b + 1) mod 32 = 0.
Proof.
  intros Hb Hm. pose proof (Z.div_mod b 32 ltac:(lia)). split.
  - symmetry. apply (Z.div_unique _ _ _ 0); lia.
  - symmetry. apply (Z.mod_unique _ _ (b / 32 + 1)); lia.
Qed.

(** The next bit: of the same word, of the next word, or in the next bitmap block. *)
Lemma next_bit c word bitMask b :
  at_block c word bitMask b -> 0 <= b < total ->
  (Z.shiftr bitMask 1 <> 0 /\ at_block c word (Z.shiftr bitMask 1) (b + 1)) \/
  (Z.shiftr bitMask 1 = 0 /\ cu_left (advance c) <> 0 /\ cursor_word v0 (advance c) ((b + 1) / 32) /\
     (b + 1) mod 32 = 0 /\ 0 <= (b + 1) / 32 < words_total v0 /\ (b + 1) mod BB <> 0) \/
  (Z.shiftr bitMask 1 = 0 /\ cu_left (advance c) = 0 /\ (b + 1) mod BB = 0).
Proof.
  intros [[H1 H2 H3 H4] Hw ->] Hb. pose proof (words_of_pos v0 Hv0) as HW.
  pose proof (Z.mod_pos_bound b 32 ltac:(lia)) as Hm. pose proof (Z.div_mod b 32 ltac:(lia)) as Hdm.
  rewrite bit_mask_forward by lia. destruct (Z.eqb_spec (b mod 32) 31) as [E|E].
  - right. destruct (next_other_word b ltac:(lia) E) as [E1 E2].
    assert (u32 (cu_left c - 1) = W - (cu_index c + 1)) as Eu.
    { rewrite H4, u32_id; [lia|]. destruct Hv0 as [[Hok _] _ _ _ _ _]. destruct (vbm_pow2 _ Hok) as (p & Hp & Ep).
      rewrite <-(words_of_eq v0) in Ep. assert (2 ^ p <= 2 ^ 31) by (apply Z.pow_le_mono_r; lia). unfold UINT32_MAX. lia. }
    unfold advance. cbn [cu_left]. rewrite Eu. destruct (Z.eq_dec (W - (cu_index c + 1)) 0) as [E0|E0].
    + right. split; [done|]. split; [done|]. rewrite (block_bits_eq v0 Hv0). symmetry.
      apply (Z.mod_unique _ _ (cu_block c + 1)); [left; lia|]. nia.
    + left. split; [done|]. split; [done|]. split; [|split; [done|]].
      * split; cbn [cu_block cu_index cu_left]; lia.
      * pose proof (word_block_inside (b / 32) ltac:(lia)) as Hin.
        assert (b / 32 / W = cu_block c) as Ed by (rewrite H3, Z.div_add_l, Z.div_small; lia). rewrite Ed in Hin. split; [nia|].
        rewrite (block_bits_eq v0 Hv0). intros Ez. pose proof (Z.div_mod (b + 1) 32 ltac:(lia)) as D1.
        pose proof (Z.mod_unique (b + 1) (32 * W) (cu_block c) (32 * (cu_index c + 1)) ltac:(left; lia) ltac:(nia)). lia.
  - left. destruct (next_same_word b ltac:(lia) E) as [E1 E2]. split.
    + pose proof (bit_mask_pos (b mod 32 + 1) ltac:(lia)) as Hp. by apply Z.eqb_neq in Hp.
    + split; rewrite ?E1, ?E2; [by split|done|done].
Qed.

Lemma block_start_eq v b : searched flags v0 v -> block_start v b = block_start v0 b.
Proof. by intros [(io & t & m & -> & _)]. Qed.

(** The start of a bitmap block. *)
Lemma block_start_word v b :
  searched flags v0 v -> 0 <= b < total -> b mod BB = 0 -> cursor_word v0 (block_start v0 (b / BB)) (b / 32).
Proof.
  intros Hs Hb Hm. rewrite <-(block_start_eq v) by done. pose proof (words_of_pos v0 Hv0) as HW. pose proof (block_bits_eq v0 Hv0) as EB.
  pose proof (searched_same _ _ _ Hs) as (_ & _ & _ & _ & _ & _ & Ei & _).
  pose proof (Z.div_mod b BB ltac:(lia)) as Hdm. pose proof (Z.div_pos b BB ltac:(lia) ltac:(lia)).
  assert (words_of v = W) as EW by (unfold words_of; by rewrite Ei).
  unfold block_start. rewrite EW. split; cbn [cu_block cu_index cu_left]; try lia.
  symmetry. apply (Z.div_unique _ _ _ 0); lia.
Qed.

Lemma at_word_start c word b :
  cursor_word v0 c (b / 32) -> shows v0 flags (b / 32) word -> b mod 32 = 0 -> at_block c word kHighBitInWordMask b.
Proof. intros H1 H2 E. split; [done|done|]. by rewrite E. Qed.

Lemma block_aligned_word b : b mod BB = 0 -> b mod 32 = 0.
Proof.
  intros E. rewrite (block_bits_eq v0 Hv0) in E. pose proof (words_of_pos v0 Hv0).
  pose proof (Z.div_mod b (32 * W) ltac:(lia)) as Hdm. symmetry. apply (Z.mod_unique _ _ (W * (b / (32 * W)))); [left; lia|]. nia.
Qed.

(** The first cursor of a search. *)
Lemma first_cursor_word v b :
  searched flags v0 v -> 0 <= b < total ->
  let wordIndexInBlock := Z.land b (BB - 1) / kBitsPerWord in
  cursor_word v0 (mkCursor (b / BB) wordIndexInBlock (words_of v - wordIndexInBlock) 0) (b / 32).
Proof.
  intros Hs Hb. pose proof (words_of_pos v0 Hv0) as HW. pose proof (block_bits_eq v0 Hv0) as EB.
  pose proof (searched_same _ _ _ Hs) as (_ & _ & _ & _ & _ & _ & Ei & _).
  assert (words_of v = W) as EW by (unfold words_of; by rewrite Ei). cbv zeta. rewrite EW.
  pose proof Hv0 as [[Hok _] _ _ _ _ _]. unfold block_bits in *. rewrite (block_mask _ Hok) by lia. rewrite <-words_of_eq.
  rewrite EB. unfold kBitsPerWord. pose proof (Z.mod_pos_bound b (32 * W) ltac:(lia)). pose proof (Z.div_mod b (32 * W) ltac:(lia)) as Hdm.
  pose proof (Z.div_pos b (32 * W) ltac:(lia) ltac:(lia)). pose proof (Z.div_mod (b mod (32 * W)) 32 ltac:(lia)) as Hdm2.
  pose proof (Z.mod_pos_bound (b mod (32 * W)) 32 ltac:(lia)).
  assert (b mod (32 * W) / 32 < W) by (apply Z.div_lt_upper_bound; lia).
  assert (0 <= b mod (32 * W) / 32) by (apply Z.div_pos; lia).
  split; cbn [cu_block cu_index cu_left]; try lia.
  symmetry. apply (Z.div_unique _ _ _ ((b mod (32 * W)) mod 32)); [left; lia|]. nia.
Qed.
End Bits.

Lemma searched_next flags v v' b : searched flags v v' -> NextBitmapBlock v' b = NextBitmapBlock v b.
Proof. intros Hs. unfold NextBitmapBlock. rewrite (searched_flag flags v v') by done. by destruct Hs as [(io & t & m & -> & _)]. Qed.

Lemma aligned_next B a c : 0 < B -> a mod B = 0 -> c mod B = 0 -> a < c <= a + B -> c = a + B.
Proof.
  intros HB Ha Hc Hac. apply Z.div_exact in Ha, Hc; [|lia|lia]. rewrite Ha, Hc in Hac |- *.
  replace (B * (a / B) + B) with (B * (a / B + 1)) in * by lia. destruct Hac as [H1 H2].
  apply Z.mul_lt_mono_pos_l in H1; [|done]. apply Z.mul_le_mono_pos_l in H2; [|done]. f_equal. lia.
Qed.

(** ** BlockFindAnyBitmap *)

Section Any.
Context (v0 : vol) (flags : Z) (Hv0 : vol_ok v0) (start ending : Z).
Context (Hstart : 0 <= start) (Hend : ending <= vo_allocLimit v0).
(** The zone has been skipped already. *)
Context (Hzone : forall b, start <= b -> ISSET flags HFS_ALLOC_METAZONE = false -> NextBitmapBlock v0 b = b).
Local Notation BB := (block_bits v0).
Local Notation total := (32 * words_total v0).
Local Notation io0 := (bm_io (vo_bitmap v0)).

Definition all_used (a b : Z) : Prop := forall x, a <= x < b -> used v0 flags x = true.

Lemma all_used_snoc a b : all_used a b -> used v0 flags b = true -> all_used a (b + 1).
Proof. intros H Hb x Hx. destruct (Z.eq_dec x b) as [->|]; [done|]. apply H. lia. Qed.

Lemma end_limits : ending <= total /\ total <= 2 ^ 32 /\ ending <= UINT32_MAX /\ ending <= vo_totalBlocks v0.
Proof.
  pose proof Hv0 as [[Hok _] [Hl1 Hl2 Hl3 _ _ _] _ _ _ _]. pose proof (vbm_small _ Hok). unfold words_total in *.
  cbn [vb_words vbm_of] in *. lia.
Qed.

Lemma zone_next v b : searched flags v0 v -> start <= b ->
  (if ISSET flags HFS_ALLOC_METAZONE then b else NextBitmapBlock v b) = b.
Proof.
  intros Hs Hb. destruct (ISSET flags HFS_ALLOC_METAZONE) eqn:E; [done|].
  rewrite (searched_next flags v0 v) by done. by apply Hzone.
Qed.

(** The bitmap block that was scanned from its start. *)
Definition scanned (scan block : Z) : Prop :=
  scan = 0 \/ (start <= scan <= block /\ scan mod BB = 0 /\ block < scan + BB).

Lemma scanned_full v scan block :
  searched flags v0 v -> scanned scan block -> all_used start (block + 1) -> (block + 1) mod BB = 0 ->
  0 <= block < ending ->
  exists v', when (has_flag v HFS_SUMMARY_TABLE && negb (scan =? 0)) (summary_full scan) v = Some (tt, v') /\ searched flags v0 v'.
Proof.
  intros Hs Hsc Hu Hm Hb. destruct end_limits as (E1 & E2 & E3 & E4). unfold when. destruct (Z.eqb_spec scan 0) as [->|Hne].
  { rewrite andb_false_r. by exists v. }
  rewrite andb_true_r, (searched_flag flags v0) by done. destruct (has_flag v0 HFS_SUMMARY_TABLE) eqn:Hf; [|by exists v].
  destruct Hsc as [|(H1 & H2 & H3)]; [done|]. pose proof (words_of_pos v0 Hv0) as HW. pose proof (block_bits_eq v0 Hv0) as EB.
  destruct (summary_full_ok flags v0 v scan Hv0 Hs) as (v' & E & Hs' & _); [lia|done| |by exists v'].
  intros b Hb0 Ed. apply Hu. pose proof (aligned_next BB scan (block + 1) ltac:(lia) H2 Hm ltac:(lia)).
  pose proof (Z.div_mod b BB ltac:(lia)) as D1. pose proof (Z.div_mod scan BB ltac:(lia)) as D2.
  pose proof (Z.mod_pos_bound b BB ltac:(lia)). rewrite Ed in D1. lia.
Qed.

Definition skip_result (found : any_found) : Prop :=
  match found with
  | AnyExit err _ => (err = dskFulErr /\ all_used start ending) \/ (err <> noErr /\ err ∈ io0)
  | AnyFree b c word bitMask =>
      start <= b < ending /\ used v0 flags b = false /\ all_used start b /\ at_block v0 flags c word bitMask b
  end.

(** A read at a new bitmap block. *)
Lemma read_ok v b :
  searched flags v0 v -> 0 <= b < total -> b mod BB = 0 ->
  (exists err v', read_block b v = Some ((err, None), v') /\ err <> noErr /\ err ∈ io0 /\ searched flags v0 v') \/
  (exists v' w, read_block b v = Some ((noErr, Some (b / BB)), v') /\ searched flags v0 v' /\
     fetch flags (block_start v0 (b / BB)) v' = Some (w, v') /\
     at_block v0 flags (block_start v0 (b / BB)) w kHighBitInWordMask b).
Proof.
  intros Hs Hb Hm. destruct (read_block_eq b v) as (err & io & E & Hio & Herr).
  pose proof (searched_io flags v0 v io Hs Hio) as Hs'.
  pose proof (searched_same _ _ _ Hs) as (_ & _ & _ & _ & _ & _ & _ & _ & _ & Hsub).
  destruct (Z.eqb_spec err noErr) as [->|Hne].
  - right. rewrite (searched_bits flags v0 v) in E by done. exists (set_io io v).
    pose proof (block_start_word v0 flags Hv0 _ b Hs' Hb Hm) as Hc.
    assert (b / 32 < words_total v0) by (apply Z.div_lt_upper_bound; lia). pose proof (Z.div_pos b 32 ltac:(lia)).
    destruct (fetch_searched v0 flags Hv0 _ _ (b / 32) Hs' Hc) as (w & Ef & Hw); [lia|].
    exists w. split; [done|]. split; [done|]. split; [done|].
    apply (at_word_start v0 flags); [done|done|]. by apply (block_aligned_word v0 Hv0).
  - left. exists err, (set_io io v). split; [done|]. split; [done|]. split; [|done]. destruct Herr as [|Herr]; [done|]. by apply Hsub.
Qed.

Lemma any_skip_ok fuel : forall v block c word bitMask scan,
  searched flags v0 v -> at_block v0 flags c word bitMask block -> start <= block < total -> all_used start block ->
  scanned scan block -> ending - block < Z.of_nat fuel -> 0 < Z.of_nat fuel ->
  exists found v', any_skip flags ending block c word bitMask scan fuel v = Some (found, v') /\ searched flags v0 v' /\ skip_result found.
Proof.
  destruct end_limits as (L1 & L2 & L3 & L4).
  induction fuel as [|fuel IH]; intros v block c word bitMask scan Hs Hat Hb Hu Hsc Hf Hf0; [lia|].
  cbn [any_skip]. destruct (Z.ltb_spec block ending) as [Hlt|Hge]; cbn [negb].
  2:{ exists (AnyExit dskFulErr true), v. split; [done|]. split; [done|]. left. split; [done|]. intros x Hx. apply Hu. lia. }
  rewrite (at_block_free v0 flags c word bitMask block Hat). destruct (used v0 flags block) eqn:Eu; cbn [negb].
  2:{ exists (AnyFree block c word bitMask), v. split; [done|]. split; [done|]. split; [lia|]. split; [done|]. by split. }
  rewrite u32_id by lia. pose proof (all_used_snoc _ _ Hu Eu) as Hu'.
  destruct (next_bit v0 flags Hv0 c word bitMask block Hat ltac:(lia)) as [(Hm & Hat')|[(Hm & Hl & Hc & Hm32 & Hk & HnB)|(Hm & Hl & HmB)]].
  - apply Z.eqb_neq in Hm. rewrite Hm. cbn [negb].
    pose proof (Z.div_mod block 32 ltac:(lia)). pose proof (Z.mod_pos_bound block 32 ltac:(lia)).
    assert (block mod 32 <> 31) as H31.
    { intros E31. apply Z.eqb_neq in Hm. destruct Hat as [_ _ ->]. rewrite bit_mask_forward, E31 in Hm by lia. done. }
    assert (block + 1 < total) by lia.
    apply IH; try done; try lia. destruct Hsc as [|(S1 & S2 & S3)]; [by left|right]. split; [lia|]. split; [done|].
    destruct (Z.eq_dec (block + 1) (scan + BB)) as [Ee|]; [|lia]. exfalso.
    assert ((block + 1) mod 32 = 0) as E0.
    { apply (block_aligned_word v0 Hv0). rewrite Ee. rewrite <-(Z.mul_1_l BB) at 1. rewrite Z_mod_plus_full. done. }
    destruct (next_same_word block ltac:(lia) H31). lia.
  - rewrite Hm. cbn [Z.eqb negb]. apply Z.eqb_neq in Hl. rewrite Hl. cbn [negb].
    destruct (fetch_searched v0 flags Hv0 v _ _ Hs Hc Hk) as (w & Ef & Hw).
    unfold mbind at 1, V_bind at 1. rewrite Ef.
    apply IH; try done; try lia.
    + by apply (at_word_start v0 flags).
    + pose proof (Z.div_mod (block + 1) 32 ltac:(lia)). lia.
    + destruct Hsc as [|(S1 & S2 & S3)]; [by left|right]. split; [lia|]. split; [done|].
      destruct (Z.eq_dec (block + 1) (scan + BB)) as [Ee|]; [|lia]. exfalso. apply HnB.
      rewrite Ee. rewrite <-(Z.mul_1_l BB) at 1. by rewrite Z_mod_plus_full.
  - rewrite Hm, Hl. cbn [Z.eqb negb]. unfold mbind, V_bind, get_vol.
    destruct (scanned_full v scan block Hs Hsc Hu' HmB ltac:(lia)) as (v1 & -> & Hs1).
    destruct (release_block_eq v1) as (err & io & -> & Hio & Herr). pose proof (searched_io flags v0 v1 io Hs1 Hio) as Hs2.
    pose proof (searched_same _ _ _ Hs1) as (_ & _ & _ & _ & _ & _ & _ & _ & _ & Hsub).
    destruct (Z.eqb_spec err noErr) as [->|Hne]; cbn [negb].
    2:{ exists (AnyExit err false), (set_io io v1). split; [done|]. split; [done|]. right. split; [done|]. destruct Herr; [done|by apply Hsub]. }
    rewrite (zone_next v) by (done || lia). destruct (Z.leb_spec ending (block + 1)) as [Hge|Hlt'].
    { exists (AnyExit dskFulErr false), (set_io io v1). split; [done|]. split; [done|]. left. split; [done|]. intros x Hx. apply Hu'. lia. }
    destruct (read_ok _ (block + 1) Hs2 ltac:(lia) HmB) as [(e & v2 & -> & Hne & He & Hs3)|(v2 & w & -> & Hs3 & Ef & Hat')].
    { exists (AnyExit e false), v2. split; [done|]. split; [done|]. by right. }
    rewrite (block_start_eq v0 flags v) by done. rewrite Ef. apply IH; try done; try lia.
    right. split; [lia|]. split; [done|]. pose proof (words_of_pos v0 Hv0). pose proof (block_bits_eq v0 Hv0). lia.
Qed.

Definition all_free (a b : Z) : Prop := forall x, a <= x < b -> used v0 flags x = false.

Lemma all_free_snoc a b : all_free a b -> used v0 flags b = false -> all_free a (b + 1).
Proof. intros H Hb x Hx. destruct (Z.eq_dec x b) as [->|]; [done|]. apply H. lia. Qed.

(** A run from [first] on that was free up to [block] ends. *)
Definition extended (stop_at first block : Z) (r : option (Z * bool * Z * vol)) : Prop :=
  exists err held stop v', r = Some (err, held, stop, v') /\ searched flags v0 v' /\
    ((err = noErr /\ block <= stop <= stop_at /\ all_free first stop /\ (used v0 flags block = false -> block < stop)) \/
     (err <> noErr /\ err ∈ io0)).

Lemma any_extend_ok fuel : forall v stop_at first block c word bitMask,
  searched flags v0 v -> at_block v0 flags c word bitMask block -> start <= block -> block < stop_at <= ending ->
  all_free first block -> stop_at - block < Z.of_nat fuel ->
  extended stop_at first block (any_extend flags stop_at noErr block c word bitMask fuel v).
Proof.
  destruct end_limits as (L1 & L2 & L3 & L4).
  induction fuel as [|fuel IH]; intros v stop_at first block c word bitMask Hs Hat Hb Hlt Hfree Hf; [lia|].
  cbn [any_extend]. rewrite (at_block_free v0 flags c word bitMask block Hat), negb_involutive.
  destruct (used v0 flags block) eqn:Eu.
  { exists noErr, true, block, v. split; [done|]. split; [done|]. left. split; [done|]. split; [lia|]. split; [done|congruence]. }
  rewrite u32_id by lia. pose proof (all_free_snoc _ _ Hfree Eu) as Hfree'.
  assert (forall held v', searched flags v0 v' -> block + 1 <= stop_at -> extended stop_at first block (Some (noErr, held, block + 1, v'))) as Hstop.
  { intros held v' Hs' Hle. exists noErr, held, (block + 1), v'. split; [done|]. split; [done|]. left. split; [done|]. split; [lia|]. split; [done|]. lia. }
  destruct (Z.eqb_spec (block + 1) stop_at) as [Es|Es]; [apply Hstop; [done|lia]|].
  assert (forall v' c' w' m', searched flags v0 v' -> at_block v0 flags c' w' m' (block + 1) ->
    extended stop_at first block (any_extend flags stop_at noErr (block + 1) c' w' m' fuel v')) as Hgo.
  { intros v' c' w' m' Hs' Hat'. destruct (IH v' stop_at first (block + 1) c' w' m' Hs' Hat') as (err & h & stop & v'' & E & Hs'' & Hc); try done; try lia.
    exists err, h, stop, v''. split; [done|]. split; [done|]. destruct Hc as [(? & ? & ? & _)|?]; [left|by right].
    split; [done|]. split; [lia|]. split; [done|]. lia. }
  destruct (next_bit v0 flags Hv0 c word bitMask block Hat ltac:(lia)) as [(Hm & Hat')|[(Hm & Hl & Hc & Hm32 & Hk & HnB)|(Hm & Hl & HmB)]].
  - apply Z.eqb_neq in Hm. rewrite Hm. cbn [negb]. by apply Hgo.
  - rewrite Hm. cbn [Z.eqb negb]. apply Z.eqb_neq in Hl. rewrite Hl. cbn [negb].
    destruct (fetch_searched v0 flags Hv0 v _ _ Hs Hc Hk) as (w & Ef & Hw).
    unfold mbind at 1, V_bind at 1. rewrite Ef. apply Hgo; [done|]. by apply (at_word_start v0 flags).
  - rewrite Hm, Hl. cbn [Z.eqb negb]. unfold mbind, V_bind, get_vol.
    destruct (release_block_eq v) as (err & io & -> & Hio & Herr). pose proof (searched_io flags v0 v io Hs Hio) as Hs2.
    pose proof (searched_same _ _ _ Hs) as (_ & _ & _ & _ & _ & _ & _ & _ & _ & Hsub).
    destruct (Z.eqb_spec err noErr) as [->|Hne]; cbn [negb].
    2:{ exists err, false, (block + 1), (set_io io v). split; [done|]. split; [done|]. right. split; [done|]. destruct Herr; [done|by apply Hsub]. }
    assert (negb (ISSET flags HFS_ALLOC_METAZONE) && negb (NextBitmapBlock v (block + 1) =? block + 1) = false) as ->.
    { pose proof (zone_next v (block + 1) Hs ltac:(lia)) as Hz. destruct (ISSET flags HFS_ALLOC_METAZONE); [done|].
      rewrite Hz. by rewrite Z.eqb_refl. }
    destruct (Z.leb_spec stop_at (block + 1)); [apply Hstop; [done|lia]|].
    destruct (read_ok _ (block + 1) Hs2 ltac:(lia) HmB) as [(e & v2 & -> & Hne & He & Hs3)|(v2 & w & -> & Hs3 & Ef & Hat')].
    { exists e, false, (block + 1), v2. split; [done|]. split; [done|]. by right. }
    rewrite (block_start_eq v0 flags v) by done. rewrite Ef. by apply Hgo.
Qed.
End Any.

(** Whether a search may not give blocks that wait for a trim. *)
Definition avoids_trims (v : vol) (flags : Z) : bool :=
  negb (ISSET flags HFS_ALLOC_FLUSHTXN) && match vo_jnl v with Some _ => true | None => false end.

(** A block that a search from [start] to [ending] looks at: not of the metadata zone,
    unless the zone may be used, and there is room after it. *)
Definition outside_zone (v : vol) (useMetaZone : bool) (start ending b : Z) : Prop :=
  useMetaZone = true \/ has_flag v HFS_METADATA_ZONE = false \/
  (hfs_metazone_end (vo_geom v) < b /\ (start <= hfs_metazone_end (vo_geom v) -> hfs_metazone_end (vo_geom v) + 2 < ending)).

Lemma outside_zone_later v use start start' ending b :
  start <= start' -> outside_zone v use start ending b -> outside_zone v use start' ending b.
Proof. intros Hle [?|[?|[H1 H2]]]; [by left|right; by left|]. right. right. split; [done|]. intros. apply H2. lia. Qed.

Lemma skip_metazone_ok v use start ending :
  vol_ok v -> 0 <= start < 32 * words_total v -> ending <= vo_allocLimit v ->
  match skip_metazone v use start ending with
  | Some start' => start <= start' < 32 * words_total v /\ (start <= ending -> start' <= ending) /\
      (forall b, start' <= b -> use = false -> NextBitmapBlock v b = b) /\
      (forall b, start <= b -> outside_zone v use start ending b <-> start' <= b)
  | None => forall b, start <= b -> ~ outside_zone v use start ending b
  end.
Proof.
  intros Hv Hs He. pose proof (li_zone v (vk_limits v Hv)) as Hz. pose proof (li_alloc v (vk_limits v Hv)) as Ha.
  pose proof (li_total v (vk_limits v Hv)) as Ht. unfold skip_metazone, outside_zone, NextBitmapBlock.
  destruct use; cbn [negb andb].
  { split; [lia|]. split; [done|]. split; [done|]. intros b Hb. split; [done|by left]. }
  destruct (has_flag v HFS_METADATA_ZONE) eqn:Ef; cbn [negb andb].
  2:{ split; [lia|]. split; [done|]. split; [done|]. intros b Hb. split; [done|right; by left]. }
  rewrite !u32_id by (unfold UINT32_MAX in *; lia).
  destruct (Z.leb_spec start (hfs_metazone_end (vo_geom v))) as [H1|H1].
  - destruct (Z.ltb_spec (hfs_metazone_end (vo_geom v) + 2) ending) as [H2|H2].
    + split; [lia|]. split; [lia|]. split.
      * intros b Hb _. destruct (Z.leb_spec b (hfs_metazone_end (vo_geom v))); [lia|]. by rewrite andb_false_r.
      * intros b Hb. split; [intros [?|[?|?]]; [done|done|lia]|]. intros Hb'. right. right. lia.
    + intros b Hb [?|[?|?]]; [done|done|lia].
  - split; [lia|]. split; [done|]. split.
    + intros b Hb _. destruct (Z.leb_spec b (hfs_metazone_end (vo_geom v))); [lia|]. by rewrite andb_false_r.
    + intros b Hb. split; [done|]. intros _. right. right. lia.
Qed.

(** The answer of a search: a run, the disk is full, or an error of the block I/O. *)
Inductive search_result (v : vol) (run : Z -> Z -> Prop) (full : Prop) : Z -> HFSPlusExtentDescriptor -> Prop :=
| SearchRun s n : run s n -> search_result v run full noErr (mkExtent s n)
| SearchFull ext : full -> search_result v run full dskFulErr ext
| SearchIO err ext : err <> noErr -> err ∈ bm_io (vo_bitmap v) -> search_result v run full err ext.

Lemma search_result_mono v (run run' : Z -> Z -> Prop) (full full' : Prop) err ext :
  (forall s n, run s n -> run' s n) -> (full -> full') -> search_result v run full err ext -> search_result v run' full' err ext.
Proof. intros H1 H2 [s n ?|?|?]; [apply SearchRun; auto|apply SearchFull; auto|by apply SearchIO]. Qed.

(** Every block is free for a search with [flags]. *)
Definition free_run (v : vol) (flags s n : Z) : Prop := forall b, s <= b < s + n -> used v flags b = false.

(** What a search for any free run between [start] and [ending] may give, and when it
    may give up. *)
Record any_run (v : vol) (flags start ending maxBlocks s n : Z) : Prop := {
  ar_start : start <= s;
  ar_count : 0 < n <= maxBlocks;
  ar_end : s + n <= ending;
  ar_free : free_run v flags s n;
  ar_idle : avoids_trims v flags = true -> ~ pending_block v s;
}.
Definition any_full (v : vol) (flags start ending : Z) : Prop :=
  forall b, start <= b < ending -> outside_zone v (ISSET flags HFS_ALLOC_METAZONE) start ending b ->
    used v flags b = true \/ (avoids_trims v flags = true /\ pending_block v b).
Definition any_result (v : vol) (flags start ending maxBlocks : Z) : Z -> HFSPlusExtentDescriptor -> Prop :=
  search_result v (any_run v flags start ending maxBlocks) (any_full v flags start ending).

Lemma any_exit_err v0 flags v held err s b :
  searched flags v0 v -> err <> noErr ->
  exists v', any_exit held err s b v = Some ((err, mkExtent 0 0), v') /\ searched flags v0 v'.
Proof.
  intros Hs Hne. unfold any_exit, when. destruct (Z.eqb_spec err noErr); [done|]. destruct held; unfold mbind, V_bind.
  - destruct (release_block_eq v) as (e & io & -> & Hio & _). exists (set_io io v). split; [done|]. by apply searched_io.
  - by exists v.
Qed.

Lemma any_exit_ok v0 flags v held s b :
  searched flags v0 v -> 0 <= s <= b -> b <= vo_allocLimit v0 -> vol_ok v0 ->
  exists v', any_exit held noErr s b v = Some ((noErr, mkExtent s (b - s)), v') /\ searched flags v0 v'.
Proof.
  intros Hs Hsb Hb Hv. pose proof (vk_limits v0 Hv) as [Hl1 _ Hl3 _ _ _].
  assert (u32 (b - s) = b - s) as E1 by (apply u32_id; lia). assert (u32 (s + (b - s)) = b) as E2 by (rewrite u32_id; lia).
  assert (forall v', searched flags v0 v' ->
    (let num := u32 (b - s) in v ← get_vol; if vo_allocLimit v <? u32 (s + num) then fault else mret (noErr, mkExtent s num)) v'
     = Some ((noErr, mkExtent s (b - s)), v')) as Hfin.
  { intros v' Hs'. cbv zeta. rewrite E1, E2. unfold mbind, V_bind, get_vol.
    pose proof (searched_same _ _ _ Hs') as (Ec & _). rewrite Ec.
    destruct (Z.ltb_spec (vo_allocLimit v0) b); [lia|done]. }
  unfold any_exit, when. change (noErr =? noErr) with true. cbn match. unfold mbind at 1, V_bind at 1. destruct held.
  - unfold mbind at 1, V_bind at 1. destruct (release_block_eq v) as (e & io & -> & Hio & _). exists (set_io io v).
    pose proof (searched_io flags v0 v io Hs Hio) as Hs'. split; [|done]. by apply Hfin.
  - exists v. split; [|done]. by apply Hfin.
Qed.

Lemma searched_avoids flags v v' fl : searched flags v v' -> avoids_trims v' fl = avoids_trims v fl.
Proof. by intros [(io & t & m & -> & _)]. Qed.

(** The block after a free one has a bit. *)
Lemma free_edge v flags b :
  vol_ok v -> 0 <= b < vo_allocLimit v -> used v flags b = false -> b + 1 < 32 * words_total v.
Proof.
  intros Hv Hb Hu. pose proof (vk_limits v Hv) as [Hl1 Hl2 _ _ _ Hlast]. destruct (Z.eq_dec b (vo_totalBlocks v - 1)) as [->|]; [|lia].
  unfold used, seen in Hu. cbn [vb_words vbm_of] in Hu. by rewrite Hlast in Hu.
Qed.

Lemma any_result_later v flags start start' block ending maxBlocks maxBlocks' err ext :
  start <= start' <= block -> maxBlocks' <= maxBlocks ->
  (forall b, start <= b -> outside_zone v (ISSET flags HFS_ALLOC_METAZONE) start ending b -> start' <= b) ->
  (forall b, start' <= b < block -> used v flags b = true) ->
  avoids_trims v flags = true -> pending_block v block ->
  any_result v flags (block + 1) ending maxBlocks' err ext -> any_result v flags start ending maxBlocks err ext.
Proof.
  intros H1 H2 Hz Hu Ha Hp. apply search_result_mono.
  - intros s n [G1 G2 G3 G4 G5]. split; [lia|lia|lia|done|done].
  - intros G b Hb Ho. specialize (Hz b ltac:(lia) Ho).
    destruct (Z.lt_ge_cases b block); [left; apply Hu; lia|].
    destruct (Z.eq_dec b block) as [->|]; [by right|]. apply G; [lia|]. by apply (outside_zone_later v _ start); [lia|].
Qed.

Lemma any_search_ok v0 flags ending fuel : vol_ok v0 -> ending <= vo_allocLimit v0 -> forall v start maxBlocks,
  searched flags v0 v -> 0 <= start < 32 * words_total v0 -> 0 < maxBlocks <= UINT32_MAX ->
  ending - start < Z.of_nat fuel -> 0 < Z.of_nat fuel ->
  exists err ext v', any_search flags ending start maxBlocks fuel v = Some ((err, ext), v') /\ searched flags v0 v' /\
    any_result v0 flags start ending maxBlocks err ext.
Proof.
  intros Hv0 Hend. induction fuel as [|fuel IH]; intros v start maxBlocks Hs Hst Hmax Hf Hf0; [lia|].
  pose proof (searched_same _ _ _ Hs) as (_ & _ & _ & _ & _ & _ & _ & _ & _ & Hsub).
  cbn [any_search]. unfold mbind at 1, V_bind at 1, get_vol at 1.
  assert (skip_metazone v (ISSET flags HFS_ALLOC_METAZONE) start ending = skip_metazone v0 (ISSET flags HFS_ALLOC_METAZONE) start ending) as ->
    by (unfold skip_metazone; rewrite (searched_flag flags v0 v) by done; destruct Hs as [(io & t & m & -> & _)]; done).
  pose proof (skip_metazone_ok v0 (ISSET flags HFS_ALLOC_METAZONE) start ending Hv0 Hst Hend) as Hskip.
  destruct (skip_metazone v0 _ start ending) as [start'|].
  2:{ destruct (any_exit_err v0 flags v false dskFulErr 0 0 Hs) as (v' & -> & Hs'); [done|]. eexists _, _, v'. split; [done|].
      split; [done|]. apply SearchFull. intros b Hb Ho. exfalso. by apply (Hskip b); [lia|]. }
  destruct Hskip as (Hst' & _ & Hzone & Hbefore).
  destruct (end_limits v0 Hv0 ending Hend) as (L1 & L2 & L3 & L4).
  destruct (read_block_eq start' v) as (err & io & E & Hio & Herr). unfold mbind at 1, V_bind at 1. rewrite E.
  pose proof (searched_io flags v0 v io Hs Hio) as Hs1.
  destruct (Z.eqb_spec err noErr) as [->|Hne].
  2:{ destruct (any_exit_err v0 flags (set_io io v) false err 0 0 Hs1 Hne) as (v' & -> & Hs'). eexists _, _, v'. split; [done|].
      split; [done|]. apply SearchIO; [done|]. destruct Herr; [done|by apply Hsub]. }
  change (u32 (bm_iosize (vo_bitmap v) * kBitsPerByte)) with (block_bits v). rewrite (searched_bits flags v0 v) by done.
  pose proof (first_cursor_word v0 flags Hv0 v start' Hs ltac:(lia)) as Hc. cbv zeta in Hc.
  set (c := mkCursor _ _ _ _) in *. clearbody c. pose proof (Z.div_pos start' 32 ltac:(lia) ltac:(lia)).
  assert (start' / 32 < words_total v0) by (apply Z.div_lt_upper_bound; lia).
  destruct (fetch_searched v0 flags Hv0 (set_io io v) c _ Hs1 Hc) as (w & Ef & Hw); [lia|].
  unfold mbind at 1, V_bind at 1. rewrite Ef. unfold mbind at 1, V_bind at 1.
  destruct (any_skip_ok v0 flags Hv0 start' ending ltac:(lia) Hend Hzone (S (Z.to_nat (ending - start'))) (set_io io v) start' c w
              (Z.shiftr kHighBitInWordMask (Z.land start' kBitsWithinWordMask)) 0) as (found & v1 & -> & Hs2 & Hfound);
    try done; try lia.
  { split; [done|done|]. unfold kBitsWithinWordMask, kBitsPerWord. change (32 - 1) with (Z.ones 5). rewrite Z.land_ones by lia.
    change (2 ^ 5) with 32. apply high_mask. pose proof (Z.mod_pos_bound start' 32 ltac:(lia)). lia. }
  { intros x Hx. lia. }
  { by left. }
  destruct found as [err held|block c' w' m'].
  { assert (err <> noErr) as Hne by (destruct Hfound as [[-> _]|[? _]]; done).
    destruct (any_exit_err v0 flags v1 held err 0 0 Hs2 Hne) as (v' & -> & Hs'). eexists _, _, v'. split; [done|]. split; [done|].
    destruct Hfound as [[-> Hu]|[_ Hin]]; [|by apply SearchIO]. apply SearchFull. intros b Hb Ho.
    apply Hbefore in Ho; [|lia]. left. apply Hu. lia. }
  destruct Hfound as (Hb & Hfree & Hused & Hat).
  set (max' := if u32 (ending - start') <? maxBlocks then u32 (ending - start') else maxBlocks).
  assert (max' = Z.min maxBlocks (ending - start')) as Emax.
  { subst max'. rewrite u32_id by lia. destruct (Z.ltb_spec (ending - start') maxBlocks); lia. }
  clearbody max'. pose proof (CheckUnmappedBytes_ok v0 block 1 Hv0 ltac:(lia) ltac:(lia) ltac:(lia)) as Hcheck.
  destruct Hcheck as (freed & e & Echeck & Hno & Hyes). unfold mbind at 1, V_bind at 1, get_vol at 1.
  assert (exists e', (if ISSET flags HFS_ALLOC_FLUSHTXN then (noErr, false, 0)
           else match vo_jnl v1 with Some _ => CheckUnmappedBytes v1 block 1 | None => (noErr, false, 0) end)
          = (0, avoids_trims v0 flags && freed, e') /\ (avoids_trims v0 flags && freed = true -> e' = e)) as (e' & -> & He').
  { rewrite (searched_check flags v0 v1) by done. pose proof (searched_same _ _ _ Hs2) as (_ & _ & -> & _). unfold avoids_trims.
    destruct (ISSET flags HFS_ALLOC_FLUSHTXN); [by exists 0|]. destruct (vo_jnl v0); [|by exists 0]. exists e. by rewrite Echeck. }
  change (0 =? 0) with true. rewrite andb_true_l. destruct (avoids_trims v0 flags && freed) eqn:Eaf.
  - apply andb_true_iff in Eaf as [Ea ->]. rewrite He' by done. destruct (Hyes eq_refl) as (He & Hpend & _).
    assert (e = block + 1) as -> by lia. replace (block + 1 - 1) with block in Hpend by lia.
    unfold mbind at 1, V_bind at 1. destruct (release_block_eq v1) as (err & io' & -> & Hio' & Herr').
    pose proof (searched_io flags v0 v1 io' Hs2 Hio') as Hs3.
    pose proof (searched_same _ _ _ Hs2) as (_ & _ & _ & _ & _ & _ & _ & _ & _ & Hsub2).
    destruct (Z.eqb_spec err noErr) as [->|Hne]; cbn [negb].
    + pose proof (free_edge v0 flags block Hv0 ltac:(lia) Hfree).
      destruct (IH (set_io io' v1) (block + 1) max' Hs3 ltac:(lia) ltac:(lia) ltac:(lia) ltac:(lia)) as (err & ext & v' & -> & Hs' & Hr).
      eexists _, _, v'. split; [done|]. split; [done|].
      apply (any_result_later v0 flags start start' block ending maxBlocks max'); try done; try lia. intros b Hb1. by apply Hbefore.
    + destruct (any_exit_err v0 flags _ false err 0 0 Hs3 Hne) as (v' & -> & Hs'). eexists _, _, v'. split; [done|]. split; [done|].
      apply SearchIO; [done|]. destruct Herr'; [done|by apply Hsub2].
  - unfold mbind at 1, V_bind at 1.
    set (stop_at := if block <? u32 (ending - max') then u32 (block + max') else ending).
    assert (block < stop_at <= ending /\ stop_at <= block + max') as [Hsa Hsm].
    { subst stop_at. rewrite (u32_id (ending - max')) by lia. destruct (Z.ltb_spec block (ending - max')); [rewrite u32_id by lia|]; lia. }
    clearbody stop_at. change (any_extend flags stop_at 0) with (any_extend flags stop_at noErr).
    destruct (any_extend_ok v0 flags Hv0 start' ending ltac:(lia) Hend Hzone (S (Z.to_nat (ending - start'))) v1 stop_at block block c' w' m')
      as (err & held & stop & v2 & -> & Hs3 & Hr); try done; try lia.
    { intros x Hx. lia. }
    destruct Hr as [(-> & Hstop & Hall & Hlt)|[Hne Hin]].
    + specialize (Hlt Hfree). destruct (any_exit_ok v0 flags v2 held block stop Hs3 ltac:(lia) ltac:(lia) Hv0) as (v' & -> & Hs').
      eexists _, _, v'. split; [done|]. split; [done|]. apply SearchRun. split; [lia|lia|lia| |].
      * intros b Hb'. apply Hall. lia.
      * intros Ea. rewrite Ea in Eaf. cbn in Eaf. subst freed. apply Hno; [done|lia].
    + destruct (any_exit_err v0 flags v2 held err block stop Hs3 Hne) as (v' & -> & Hs'). eexists _, _, v'. split; [done|].
      split; [done|]. by apply SearchIO.
Qed.

(** ** BlockFindAny *)

(** The blocks before the place the table suggests. *)
Lemma before_suggestion v flags block newblock b :
  vol_ok v -> summary_says v flags -> all_full v (block / block_bits v) (newblock / block_bits v) ->
  newblock mod block_bits v = 0 -> 0 <= block <= b -> b < newblock -> used v flags b = true.
Proof.
  intros Hv Hsays Hfull Hm Hb Hlt. pose proof (block_bits_pos v Hv) as HB.
  assert (b / block_bits v < newblock / block_bits v).
  { apply Z.div_lt_upper_bound; [done|]. apply Z.div_exact in Hm; lia. }
  apply (Hsays (b / block_bits v)); [apply Z.div_pos; lia| |lia|done].
  apply Hfull. split; [apply Z.div_le_mono; lia|done].
Qed.

Lemma after_last v flags block b :
  vol_ok v -> summary_says v flags -> all_full v (block / block_bits v) ((vo_allocLimit v - 1) / block_bits v + 1) ->
  0 <= block <= b -> b < vo_allocLimit v -> used v flags b = true.
Proof.
  intros Hv Hsays Hfull Hb Hlt. pose proof (block_bits_pos v Hv) as HB.
  apply (Hsays (b / block_bits v)); [apply Z.div_pos; lia| |lia|done].
  apply Hfull. pose proof (Z.div_le_mono block b _ HB ltac:(lia)). pose proof (Z.div_le_mono b (vo_allocLimit v - 1) _ HB ltac:(lia)). lia.
Qed.

(** That the table is right is only needed for the answer that the disk is full. *)
Definition any_full_by_table (v : vol) (flags start ending : Z) : Prop :=
  (has_flag v HFS_SUMMARY_TABLE = true -> summary_says v flags) -> any_full v flags start ending.

Lemma BlockFindAny_ok v0 flags v start ending maxBlocks trustSummary ext0 :
  vol_ok v0 -> searched flags v0 v -> 0 <= start < vo_totalBlocks v0 -> ending <= vo_allocLimit v0 -> 0 < maxBlocks <= UINT32_MAX ->
  exists err ext v', BlockFindAny start ending maxBlocks flags trustSummary ext0 v = Some ((err, ext), v') /\ searched flags v0 v' /\
    search_result v0 (any_run v0 flags start ending maxBlocks) (any_full_by_table v0 flags start ending) err ext.
Proof.
  intros Hv0 Hs Hst He Hm. pose proof (li_total v0 (vk_limits v0 Hv0)) as Ht. pose proof (li_alloc v0 (vk_limits v0 Hv0)) as Hal.
  assert (forall start', start <= start' < 32 * words_total v0 ->
    (forall b, start <= b < start' -> (has_flag v0 HFS_SUMMARY_TABLE = true -> summary_says v0 flags) -> used v0 flags b = true) ->
    exists err ext v', BlockFindAnyBitmap start' ending maxBlocks flags v = Some ((err, ext), v') /\ searched flags v0 v' /\
      search_result v0 (any_run v0 flags start ending maxBlocks) (any_full_by_table v0 flags start ending) err ext) as Hgo.
  { intros start' Hst' Hbefore.
    destruct (any_search_ok v0 flags ending (S (Z.to_nat ending)) Hv0 He v start' maxBlocks) as (err & ext & v' & E & Hs' & Hr);
      [done|lia|lia|lia|lia|].
    exists err, ext, v'. split; [done|]. split; [done|]. revert Hr. apply search_result_mono.
    - intros s n []. split; [lia|done..].
    - intros G Hsays b Hb Ho. destruct (Z.lt_ge_cases b start'); [left; apply Hbefore; [lia|done]|]. apply G; [lia|]. by apply (outside_zone_later v0 _ start); [lia|]. }
  assert (exists err ext v', BlockFindAnyBitmap start ending maxBlocks flags v = Some ((err, ext), v') /\ searched flags v0 v' /\
      search_result v0 (any_run v0 flags start ending maxBlocks) (any_full_by_table v0 flags start ending) err ext) as Hsame.
  { apply Hgo; [lia|]. intros b Hb. lia. }
  unfold BlockFindAny, mbind at 1, V_bind at 1, get_vol. rewrite (searched_flag flags v0) by done.
  destruct (has_flag v0 HFS_SUMMARY_TABLE) eqn:Hf; [|done].
  pose proof (searched_ok flags v0 v Hv0 Hs) as Hv. pose proof (searched_flag flags v0 v HFS_SUMMARY_TABLE Hs) as Hf'. rewrite Hf in Hf'.
  pose proof (searched_same flags v0 v Hs) as (Ea & _ & _ & _ & _ & _ & _ & Et & _).
  destruct (hfs_find_summary_free_ok v Hv Hf' start) as (err & nb & E & Hans); [unfold vo_totalBlocks in *; by rewrite Et|].
  unfold mbind, V_bind, vo_lift. rewrite E. cbn [fmap option_fmap option_map].
  pose proof (searched_bits flags v0 v Hs) as EB.
  destruct Hans as [(-> & Hnb & Hfull & _)|(-> & Hfull)].
  - change (0 =? 0) with true. cbn match. destruct Hnb as [->|[Hmod Hlt]]; [done|]. apply Hgo; [rewrite Ea in Hlt; lia|].
    intros b Hb Hsays. rewrite <-(searched_used flags v0 v flags b Hs).
    apply (before_suggestion v flags start nb b Hv); [apply (searched_says flags v0); auto|done|done|lia|lia].
  - change (ENOSPC =? 0) with false. change (ENOSPC =? ENOSPC) with true. cbn match. rewrite andb_true_l. destruct trustSummary; [|done].
    exists dskFulErr, ext0, v. split; [done|]. split; [done|]. apply SearchFull. intros Hsays b Hb _. left.
    rewrite <-(searched_used flags v0 v flags b Hs).
    apply (after_last v flags start b Hv); [apply (searched_says flags v0); auto|done|lia|rewrite Ea; lia].
Qed.

(** C24: A search of the bitmap for any free run: it ends and never leaves a buffer,
    whatever the block I/O does, in one of three ways.  It gives a run inside of the
    bounds, not longer than asked for, that has only blocks that are free and not in the
    reserved ranges it must respect; with a journal and without HFS_ALLOC_FLUSHTXN its
    first block does not wait for a trim (the others may).  Or it answers that the disk
    is full, and every block it may look at is used, or waits for a trim with a journal
    and without HFS_ALLOC_FLUSHTXN.  Or it gives back an error of the block I/O. *)
Theorem BlockFindAnyBitmap_correct (v : vol) (start ending maxBlocks flags : Z) :
  vol_ok v -> 0 <= start < 32 * words_total v -> ending <= vo_allocLimit v -> 0 < maxBlocks <= UINT32_MAX ->
  exists err ext v', BlockFindAnyBitmap start ending maxBlocks flags v = Some ((err, ext), v') /\ searched flags v v' /\
    any_result v flags start ending maxBlocks err ext.
Proof.
  intros Hv Hs He Hm. apply (any_search_ok v flags ending _ Hv He v start maxBlocks (searched_refl flags v Hv) Hs Hm); lia.
Qed.
