(* ===== verification/ContigProps.v ===== *)
(** * The search for a long free run is right (core/VolumeAllocation.c)

    BlockFindContiguous on a well-formed volume: it ends, the run it gives is free,
    inside of the bounds and of a length asked for, and without HFS_ALLOC_TRY_HARD it
    gives up only when there is no such run.  On the way it fills the free extent
    cache, with blocks that may be in it. *)

From S2P Require Import Prelude HfsFormat RangeList FreeExtCache Bitmap BitmapBits BitmapWalk BitmapMark BitmapFree BitmapReserve JournalTrim JournalTrimProps Volume VolumeOps BlockSearch VolumeProps BlockSearchProps.

(** ** Inside of a word *)

(** The mask of bit [i]; after the last one it is 0. *)
Definition mask_at (i : Z) : Z := if i =? 32 then 0 else bit_mask i.

Lemma mask_at_zero i : 0 <= i <= 32 -> (mask_at i =? 0) = (i =? 32).
Proof. intros Hi. unfold mask_at. destruct (Z.eqb_spec i 32); [done|]. apply bit_mask_pos. lia. Qed.

Lemma mask_at_next i : 0 <= i < 32 -> Z.shiftr (mask_at i) 1 = mask_at (i + 1).
Proof.
  intros Hi. unfold mask_at. destruct (Z.eqb_spec i 32); [lia|]. rewrite bit_mask_forward by lia.
  destruct (Z.eqb_spec i 31), (Z.eqb_spec (i + 1) 32); lia || done.
Qed.

Lemma mask_at_start b : Z.shiftr kHighBitInWordMask (Z.land b kBitsWithinWordMask) = mask_at (b mod 32).
Proof.
  unfold kBitsWithinWordMask, kBitsPerWord, mask_at. change (32 - 1) with (Z.ones 5). rewrite Z.land_ones by lia.
  change (2 ^ 5) with 32. pose proof (Z.mod_pos_bound b 32 ltac:(lia)). destruct (Z.eqb_spec (b mod 32) 32); [lia|]. by apply high_mask.
Qed.

Lemma within_word b : (Z.land b kBitsWithinWordMask =? 0) = (b mod 32 =? 0).
Proof. unfold kBitsWithinWordMask, kBitsPerWord. change (32 - 1) with (Z.ones 5). by rewrite Z.land_ones by lia. Qed.

Section Word.
Context (v : vol) (flags k word : Z) (Hshows : shows v flags k word) (Hk : 0 <= k) (Hmax : 32 * k + 32 <= UINT32_MAX).

Lemma word_bit i : 0 <= i <= 32 -> (Z.land word (mask_at i) =? 0) = (i =? 32) || negb (used v flags (32 * k + i)).
Proof.
  intros Hi. unfold mask_at. destruct (Z.eqb_spec i 32) as [->|]; [by rewrite Z.land_0_r|]. cbn [orb].
  rewrite land_bit_mask by lia. destruct Hshows as [_ Hb]. rewrite Hb by lia. do 3 f_equal. lia.
Qed.

Lemma over_set_ok fuel : forall i, 0 <= i <= 32 -> 32 - i < Z.of_nat fuel ->
  exists j, i <= j <= 32 /\ over_set word (mask_at i) (32 * k + i) fuel = (mask_at j, 32 * k + j) /\
    all_used v flags (32 * k + i) (32 * k + j) /\ (j < 32 -> used v flags (32 * k + j) = false).
Proof.
  induction fuel as [|fuel IH]; intros i Hi Hf; [lia|]. cbn [over_set]. rewrite word_bit by done.
  destruct (Z.eqb_spec i 32) as [->|]; cbn [orb negb].
  { exists 32. split; [lia|]. split; [done|]. split; [intros x Hx; lia|lia]. }
  destruct (used v flags (32 * k + i)) eqn:Eu; cbn [negb].
  - rewrite mask_at_next, u32_id by lia. destruct (IH (i + 1)) as (j & Hj & E & Hu & Hl); [lia|lia|].
    exists j. split; [lia|]. rewrite Z.add_assoc in E. split; [done|]. split; [|done]. intros x Hx.
    destruct (Z.eq_dec x (32 * k + i)) as [->|]; [done|]. apply Hu. lia.
  - exists i. split; [lia|]. split; [done|]. split; [intros x Hx; lia|done].
Qed.

Lemma over_clear_ok fuel : forall i, 0 <= i <= 32 -> 32 - i < Z.of_nat fuel ->
  exists j, i <= j <= 32 /\ over_clear word (mask_at i) (32 * k + i) fuel = (mask_at j, 32 * k + j) /\
    all_free v flags (32 * k + i) (32 * k + j) /\ (j < 32 -> used v flags (32 * k + j) = true).
Proof.
  induction fuel as [|fuel IH]; intros i Hi Hf; [lia|]. cbn [over_clear]. rewrite word_bit, mask_at_zero by done.
  destruct (Z.eqb_spec i 32) as [->|]; cbn [orb negb andb].
  { exists 32. split; [lia|]. split; [done|]. split; [intros x Hx; lia|lia]. }
  destruct (used v flags (32 * k + i)) eqn:Eu; cbn [negb].
  - exists i. split; [lia|]. split; [done|]. split; [intros x Hx; lia|done].
  - rewrite mask_at_next, u32_id by lia. destruct (IH (i + 1)) as (j & Hj & E & Hu & Hl); [lia|lia|].
    exists j. split; [lia|]. rewrite Z.add_assoc in E. split; [done|]. split; [|done]. intros x Hx.
    destruct (Z.eq_dec x (32 * k + i)) as [->|]; [done|]. apply Hu. lia.
Qed.

(** A word with all bits set, or with none. *)
Lemma word_full : u32 (word + 1) = 0 -> all_used v flags (32 * k) (32 * k + 32).
Proof.
  intros E x Hx. destruct Hshows as [Hw Hb]. unfold word_ok in Hw.
  assert (word = kAllBitsSetInWord) as ->.
  { unfold u32, wrap in E. pose proof (Z.div_mod (word + 1) (2 ^ 32) ltac:(lia)). unfold kAllBitsSetInWord. nia. }
  specialize (Hb (31 - (x - 32 * k)) ltac:(lia)). rewrite all_testbit in Hb by lia.
  replace (32 * k + (31 - (31 - (x - 32 * k)))) with x in Hb by lia. rewrite <-Hb. destruct (Z.ltb_spec (31 - (x - 32 * k)) 32); [done|lia].
Qed.

Lemma word_empty : word = 0 -> all_free v flags (32 * k) (32 * k + 32).
Proof.
  intros -> x Hx. destruct Hshows as [_ Hb]. specialize (Hb (31 - (x - 32 * k)) ltac:(lia)). rewrite Z.bits_0 in Hb.
  by replace (32 * k + (31 - (31 - (x - 32 * k)))) with x in Hb by lia.
Qed.
End Word.

Section WordBack.
Context (v : vol) (flags k word : Z) (Hshows : shows v flags k word).

Lemma used_word_full : all_used v flags (32 * k) (32 * k + 32) -> u32 (word + 1) = 0.
Proof.
  intros Hu. destruct Hshows as [Hw Hb]. assert (word = kAllBitsSetInWord) as ->; [|done].
  apply word_ext; [done|done|]. intros i Hi. rewrite Hb, all_testbit, Hu by lia. destruct (Z.ltb_spec i 32); [done|lia].
Qed.

Lemma free_word_empty : all_free v flags (32 * k) (32 * k + 32) -> word = 0.
Proof.
  intros Hu. destruct Hshows as [Hw Hb]. apply word_ext; [done|done|].
  intros i Hi. by rewrite Hb, Z.bits_0, Hu by lia.
Qed.
End WordBack.

(** ** Going over whole words *)

Section Contig.
Context (v0 : vol) (flags : Z) (Hv0 : vol_ok v0) (start ending stop maxBlocks : Z) (useMetaZone trustSummary : bool).
Context (Hstart : 0 <= start) (Hend : ending <= vo_allocLimit v0) (Hmax : ending <= UINT32_MAX - 31) (Hstop : stop <= ending).
(** The zone has been skipped already. *)
Context (Hzone : forall b, start <= b -> useMetaZone = false -> NextBitmapBlock v0 b = b).
Local Notation BB := (block_bits v0).
Local Notation W := (words_of v0).
Local Notation io0 := (bm_io (vo_bitmap v0)).

(** What is known of the blocks from [a] to [b] when the table is right. *)
Definition table_right : Prop := trustSummary = true -> has_flag v0 HFS_SUMMARY_TABLE = true -> summary_says v0 flags.
Definition skipped (a b : Z) : Prop := table_right -> all_used v0 flags a b.

Lemma skipped_trans a b c : skipped a b -> skipped b c -> skipped a c.
Proof. intros H1 H2 Ht x Hx. destruct (Z.lt_ge_cases x b); [apply H1; [done|lia]|apply H2; [done|lia]]. Qed.

Lemma contig_limits : ending <= 32 * words_total v0 /\ ending <= vo_totalBlocks v0.
Proof. pose proof (vk_limits v0 Hv0) as [Hl1 Hl2 Hl3 _ _ _]. lia. Qed.

Lemma contig_zone v b : searched flags v0 v -> start <= b -> (if useMetaZone then b else NextBitmapBlock v b) = b.
Proof.
  intros Hs Hb. destruct useMetaZone; [done|]. rewrite (searched_next flags v0 v) by done. by apply Hzone.
Qed.

(** The cursor is at the word that starts with [block], or at the end of the bitmap
    block before it. *)
Definition at_words (block : Z) (c : cursor) : Prop :=
  block mod 32 = 0 /\ (cursor_word v0 c (block / 32) \/ (cu_left c = 0 /\ block mod BB = 0)).

Lemma advance_words c k :
  cursor_word v0 c k -> 0 <= k ->
  at_words (32 * k + 32) (advance c) /\ (cu_left (advance c) <> 0 -> (32 * k + 32) mod BB <> 0).
Proof.
  intros [H1 H2 H3 H4] Hk. pose proof (words_of_pos v0 Hv0) as HW.
  assert (u32 (cu_left c - 1) = W - (cu_index c + 1)) as Eu.
  { rewrite H4, u32_id; [lia|]. destruct Hv0 as [[Hok _] _ _ _ _ _]. destruct (vbm_pow2 _ Hok) as (p & Hp & Ep).
    rewrite <-(words_of_eq v0) in Ep. assert (2 ^ p <= 2 ^ 31) by (apply Z.pow_le_mono_r; lia). unfold UINT32_MAX. lia. }
  unfold at_words, advance. rewrite Eu. cbn [cu_left]. split.
  2:{ intros Hl. rewrite (block_bits_eq v0 Hv0). replace (32 * k + 32) with (32 * (cu_index c + 1) + cu_block c * (32 * W)) by nia.
      rewrite Z_mod_plus_full, Z.mod_small; lia. }
  split. { replace (32 * k + 32) with ((k + 1) * 32) by lia. by rewrite Z.mod_mul. }
  destruct (Z.eq_dec (W - (cu_index c + 1)) 0) as [E0|E0].
  - right. split; [done|]. rewrite (block_bits_eq v0 Hv0). symmetry. apply (Z.mod_unique _ _ (cu_block c + 1)); [left; lia|]. nia.
  - left. replace ((32 * k + 32) / 32) with (k + 1) by (replace (32 * k + 32) with ((k + 1) * 32) by lia; by rewrite Z.div_mul).
    split; cbn [cu_block cu_index cu_left]; lia.
Qed.

Lemma at_words_fetch v block c :
  searched flags v0 v -> at_words block c -> 0 <= block < ending -> cu_left c <> 0 ->
  cursor_word v0 c (block / 32) /\ exists w, fetch flags c v = Some (w, v) /\ shows v0 flags (block / 32) w /\ 32 * (block / 32) = block.
Proof.
  intros Hs [Hm [Hc|[? _]]] Hb Hl; [|done]. destruct contig_limits. split; [done|].
  pose proof (Z.div_mod block 32 ltac:(lia)).
  destruct (fetch_searched v0 flags Hv0 v c (block / 32) Hs Hc) as (w & E & Hw); [lia|]. exists w. split; [done|]. split; [done|]. lia.
Qed.

(** What the first loop may answer, from block [lo] on. *)
Definition skip_outcome (lo : Z) (r : option (contig_at * vol)) : Prop :=
  exists at_ v', r = Some (at_, v') /\ searched flags v0 v' /\
    match at_ with
    | ContigError err => err <> noErr /\ err ∈ io0
    | ContigLoopExit => skipped lo stop
    | ContigAt b c => lo <= b /\ skipped lo b /\ (b < stop -> used v0 flags b = false /\ cursor_word v0 c (b / 32))
    end.

Lemma skip_outcome_later lo b r : lo <= b -> skipped lo b -> skip_outcome b r -> skip_outcome lo r.
Proof.
  intros Hle Hsk (at_ & v' & E & Hs & H). exists at_, v'. split; [done|]. split; [done|].
  destruct at_ as [|err|b' c]; [done| |].
  - by apply (skipped_trans lo b).
  - destruct H as (H1 & H2 & H3). split; [lia|]. split; [by apply (skipped_trans lo b)|done].
Qed.
(** The suggestion of the table is used when the table is trusted. *)
Lemma suggestion_ok v block :
  searched flags v0 v -> 0 <= block < stop ->
  exists err suggestion,
    (if trustSummary && has_flag v HFS_SUMMARY_TABLE then vo_lift (hfs_find_summary_free v block) else mret (0, block)) v
      = Some ((err, suggestion), v) /\
    negb (err =? 0) && negb (err =? ENOSPC) = false /\
    if (trustSummary && has_flag v HFS_SUMMARY_TABLE) && ((err =? ENOSPC) || (stop <=? suggestion)) then skipped block stop
    else block <= suggestion < stop /\ skipped block suggestion /\ (suggestion = block \/ suggestion mod BB = 0).
Proof.
  intros Hs Hb. destruct contig_limits as [L1 L2].
  destruct (trustSummary && has_flag v HFS_SUMMARY_TABLE) eqn:Et.
  2:{ exists 0, block. split; [done|]. split; [done|]. cbn [andb]. split; [lia|]. split; [intros _ x Hx; lia|by left]. }
  apply andb_true_iff in Et as [Et Ef]. pose proof (searched_ok flags v0 v Hv0 Hs) as Hv.
  pose proof (searched_same flags v0 v Hs) as (Ea & _ & _ & _ & _ & _ & _ & Eb & _). pose proof (searched_bits flags v0 v Hs) as EB.
  destruct (hfs_find_summary_free_ok v Hv Ef block) as (err & nb & E & Hans); [unfold vo_totalBlocks in *; rewrite Eb; lia|].
  exists err, nb. unfold vo_lift. rewrite E. split; [done|].
  assert (table_right -> summary_says v flags) as Hr.
  { intros Hr. apply (searched_says flags v0 v Hs). apply Hr; [done|]. by rewrite <-(searched_flag flags v0 v). }
  destruct Hans as [(-> & Hnb & Hfull & _)|(-> & Hfull)]; (split; [done|]).
  - cbn [andb orb]. change (0 =? ENOSPC) with false. cbn [orb].
    assert (skipped block nb) as Hsk.
    { intros Htr x Hx. rewrite <-(searched_used flags v0 v flags x Hs). destruct Hnb as [->|[Hmod Hlt]]; [lia|].
      apply (before_suggestion v flags block nb x Hv); [auto|done|done|lia|lia]. }
    destruct (Z.leb_spec stop nb).
    + intros Htr x Hx. apply Hsk; [done|lia].
    + split; [destruct Hnb as [->|[? ?]]; lia|]. split; [done|]. rewrite <-EB. tauto.
  - change (ENOSPC =? ENOSPC) with true. cbn [andb orb]. intros Htr x Hx.
    rewrite <-(searched_used flags v0 v flags x Hs). apply (after_last v flags block x Hv); [auto|done|lia|rewrite Ea; lia].
Qed.

Lemma contig_next_block_ok v block k :
  searched flags v0 v -> start <= block < stop -> block mod BB = 0 ->
  (forall v' b c, searched flags v0 v' -> block <= b < stop -> b mod BB = 0 -> skipped block b -> cursor_word v0 c (b / 32) ->
     skip_outcome block (k b c v')) ->
  skip_outcome block (contig_next_block stop useMetaZone trustSummary block k v).
Proof.
  intros Hs Hb HmB Hk. destruct contig_limits as [L1 L2]. unfold contig_next_block, mbind at 1, V_bind at 1, get_vol at 1.
  rewrite (contig_zone v) by (done || lia).
  destruct (Z.leb_spec stop block); [lia|]. rewrite andb_false_r.
  destruct (suggestion_ok v block Hs ltac:(lia)) as (err & nb & E & E0 & Hnb).
  unfold mbind at 1, V_bind at 1. rewrite E, E0.
  destruct ((trustSummary && has_flag v HFS_SUMMARY_TABLE) && ((err =? ENOSPC) || (stop <=? nb))).
  { exists ContigLoopExit, v. split; [done|]. by split. }
  destruct Hnb as (Hlt & Hsk & Hm). unfold mbind at 1, V_bind at 1.
  assert (nb mod BB = 0) as HmN by (destruct Hm as [->|?]; done).
  destruct (read_ok v0 flags Hv0 v nb Hs ltac:(lia) HmN) as [(e & v' & -> & Hne & He & Hs')|(v' & w & -> & Hs' & _ & [Hc _ _])].
  - exists (ContigError e), v'. split; [done|]. by split.
  - rewrite (block_start_eq v0 flags v) by done. apply Hk; try done.
Qed.

(** The bitmap block whose words are looked at from the first one on. *)
Definition scanning (scan block : Z) : Prop :=
  scan = 0 \/ (0 <= scan <= block /\ scan mod BB = 0 /\ block <= scan + BB /\ all_used v0 flags scan block).

Lemma scanning_next scan block :
  scanning scan block -> block mod 32 = 0 -> (scan <> 0 -> block < scan + BB) -> 0 <= block -> all_used v0 flags block (block + 32) -> scanning scan (block + 32).
Proof.
  intros [->|(H1 & H2 & H3 & H4)] Hm Hlt Hb Hu; [by left|]. destruct (Z.eq_dec scan 0) as [->|Hne]; [by left|]. right.
  split; [lia|]. split; [done|]. split.
  - specialize (Hlt Hne). pose proof (block_aligned_word v0 Hv0 (scan + BB)) as Ha.
    rewrite <-(Z.mul_1_l BB) in Ha at 1. rewrite Z_mod_plus_full in Ha. specialize (Ha H2).
    apply Z.div_exact in Hm, Ha; lia.
  - intros x Hx. destruct (Z.lt_ge_cases x block); [apply H4|apply Hu]; lia.
Qed.

Lemma scanning_full v scan block :
  searched flags v0 v -> scanning scan block -> block mod BB = 0 -> (scan <> 0 -> scan < block) -> block < stop ->
  exists v', when (has_flag v HFS_SUMMARY_TABLE && negb (scan =? 0)) (summary_full scan) v = Some (tt, v') /\ searched flags v0 v'.
Proof.
  intros Hs Hsc Hm Hlt Hb. destruct contig_limits as [L1 L2]. unfold when. destruct (Z.eqb_spec scan 0) as [->|Hne].
  { rewrite andb_false_r. by exists v. }
  rewrite andb_true_r, (searched_flag flags v0) by done. destruct (has_flag v0 HFS_SUMMARY_TABLE) eqn:Hf; [|by exists v].
  destruct Hsc as [|(H1 & H2 & H3 & Hu)]; [done|]. specialize (Hlt Hne).
  pose proof (block_bits_pos v0 Hv0) as HB. pose proof (aligned_next BB scan block HB H2 Hm ltac:(lia)) as ->.
  destruct (summary_full_ok flags v0 v scan Hv0 Hs) as (v' & E & Hs' & _); [lia|done| |by exists v'].
  intros b Hb0 Ed. apply Hu. pose proof (Z.div_mod b BB ltac:(lia)) as D1. pose proof (Z.div_mod scan BB ltac:(lia)) as D2.
  pose proof (Z.mod_pos_bound b BB ltac:(lia)). rewrite Ed in D1. lia.
Qed.

Lemma contig_skip_words_ok fuel : forall v block c scan,
  searched flags v0 v -> start <= block -> at_words block c -> scanning scan block ->
  (scan <> 0 -> scan < block /\ (cu_left c <> 0 -> block mod BB <> 0)) -> stop - block < Z.of_nat fuel -> 0 < Z.of_nat fuel ->
  skip_outcome block (contig_skip_words flags stop useMetaZone trustSummary block c scan fuel v).
Proof.
  destruct contig_limits as [L1 L2].
  induction fuel as [|fuel IH]; intros v block c scan Hs Hb Hat Hsc Hscan Hf Hf0; [lia|]. cbn [contig_skip_words].
  destruct (Z.ltb_spec block stop) as [Hlt|Hge]; cbn [negb].
  2:{ exists (ContigAt block c), v. split; [done|]. split; [done|]. split; [lia|]. split; [intros _ x Hx; lia|lia]. }
  assert (forall v b c scan, searched flags v0 v -> start <= b < stop -> b mod 32 = 0 -> cursor_word v0 c (b / 32) ->
    scanning scan b -> (scan <> 0 -> b < scan + BB) -> stop - b < Z.of_nat (S fuel) ->
    skip_outcome b ((tempWord ← fetch flags c;
        if negb (u32 (tempWord + 1) =? 0)
        then mret (ContigAt (over_set tempWord kHighBitInWordMask b word_bits).2 c)
        else contig_skip_words flags stop useMetaZone trustSummary (u32 (b + kBitsPerWord)) (advance c) scan fuel) v)) as Hex.
  { clear v block c scan Hs Hb Hat Hsc Hscan Hf Hlt. intros v b c scan Hs Hb Hm Hc Hsc Hlt Hf.
    pose proof (Z.div_mod b 32 ltac:(lia)) as Hd. rewrite Hm in Hd. pose proof (Z.div_pos b 32 ltac:(lia) ltac:(lia)) as Hk.
    destruct (fetch_searched v0 flags Hv0 v c (b / 32) Hs Hc) as (w & Ef & Hw); [lia|].
    unfold mbind at 1, V_bind at 1. rewrite Ef. assert (b = 32 * (b / 32)) as Eb by lia.
    destruct (Z.eqb_spec (u32 (w + 1)) 0) as [Ew|Ew]; cbn [negb].
    - pose proof (word_full v0 flags (b / 32) w Hw Ew) as Hu. rewrite <-Eb in Hu. unfold kBitsPerWord. rewrite u32_id by lia.
      destruct (advance_words c (b / 32) Hc Hk) as [Hat' Hl']. rewrite <-Eb in Hat', Hl'.
      apply (skip_outcome_later b (b + 32)); [lia|intros _; exact Hu|].
      apply IH; [done|lia|done|apply scanning_next; done || lia|intros Hne; split; [|done]|lia|lia].
      destruct Hsc as [|[? _]]; lia.
    - destruct (over_set_ok v0 flags (b / 32) w Hw Hk ltac:(lia) word_bits 0 ltac:(lia) ltac:(unfold word_bits; lia)) as (j & Hj & E & Hu & Hl).
      change (mask_at 0) with kHighBitInWordMask in E. rewrite Z.add_0_r in E, Hu. rewrite <-Eb in E, Hu, Hl. rewrite E. cbn [snd].
      assert (j < 32) as Hj32.
      { destruct (Z.eq_dec j 32) as [->|]; [|lia]. exfalso. apply Ew, (used_word_full v0 flags (b / 32) w Hw). by rewrite <-Eb. }
      exists (ContigAt (b + j) c), v. split; [done|]. split; [done|]. split; [lia|]. split; [intros _; exact Hu|]. intros _.
      split; [apply Hl; done|]. assert ((b + j) / 32 = b / 32) as -> by (symmetry; apply (Z.div_unique _ _ _ j); lia). done. }
  destruct (Z.eqb_spec (cu_left c) 0) as [Hl|Hl]; cbn [negb].
  - destruct Hat as [Hm [[_ Hi _ Hcl]|[_ HmB]]]; [lia|]. unfold mbind at 1, V_bind at 1, get_vol at 1.
    rewrite (searched_flag flags v0 v) by done. unfold mbind at 1, V_bind at 1.
    destruct (scanning_full v scan block Hs Hsc HmB) as (v1 & E & Hs1); [intros Hne; by apply Hscan|done|].
    rewrite (searched_flag flags v0 v) in E by done. rewrite E.
    destruct (release_block_eq v1) as (err & io & Er & Hio & Herr). unfold mbind at 1, V_bind at 1. rewrite Er.
    pose proof (searched_io flags v0 v1 io Hs1 Hio) as Hs2.
    pose proof (searched_same _ _ _ Hs1) as (_ & _ & _ & _ & _ & _ & _ & _ & _ & Hsub).
    destruct (Z.eqb_spec err noErr) as [->|Hne]; cbn [negb].
    + apply contig_next_block_ok; [done|lia|done|]. intros v' b c' Hs' Hb' Hm' Hsk Hc'.
      apply (skip_outcome_later block b); [lia|done|]. apply Hex; try done; try lia.
      * by apply (block_aligned_word v0 Hv0).
      * right. split; [lia|]. split; [done|]. pose proof (block_bits_pos v0 Hv0). split; [lia|]. intros x Hx. lia.
      * pose proof (block_bits_pos v0 Hv0). lia.
    + exists (ContigError err), (set_io io v1). split; [done|]. split; [done|]. split; [done|]. destruct Herr; [done|by apply Hsub].
  - destruct Hat as [Hm [Hc|[? _]]]; [|done]. apply Hex; try done. intros Hne. specialize (Hscan Hne) as [_ HnB]. specialize (HnB Hl).
    destruct Hsc as [|(H1 & H2 & H3 & _)]; [done|]. destruct (Z.eq_dec block (scan + BB)) as [->|]; [|lia]. exfalso. apply HnB.
    rewrite <-(Z.mul_1_l BB) at 1. by rewrite Z_mod_plus_full.
Qed.

Lemma contig_skip_ok v block c :
  searched flags v0 v -> start <= block < stop -> cursor_word v0 c (block / 32) ->
  skip_outcome block (contig_skip flags stop useMetaZone trustSummary block c v).
Proof.
  intros Hs Hb Hc. destruct contig_limits as [L1 L2]. unfold contig_skip. rewrite within_word, mask_at_start.
  pose proof (Z.div_mod block 32 ltac:(lia)) as Hd. pose proof (Z.mod_pos_bound block 32 ltac:(lia)) as Hm.
  pose proof (Z.div_pos block 32 ltac:(lia) ltac:(lia)) as Hk.
  destruct (Z.eqb_spec (block mod 32) 0) as [Em|Em]; cbn [negb].
  { apply contig_skip_words_ok; [done|lia|by split; [|left]|by left|done|lia|lia]. }
  destruct (fetch_searched v0 flags Hv0 v c (block / 32) Hs Hc) as (w & Ef & Hw); [lia|].
  unfold mbind at 1, V_bind at 1. rewrite Ef.
  destruct (over_set_ok v0 flags (block / 32) w Hw Hk ltac:(lia) word_bits (block mod 32) ltac:(lia) ltac:(unfold word_bits; lia)) as (j & Hj & E & Hu & Hl).
  rewrite <-Hd in E, Hu. rewrite E, mask_at_zero by lia. destruct (Z.eqb_spec j 32) as [->|Hj32]; cbn [negb].
  - destruct (advance_words c (block / 32) Hc Hk) as [Hat' _]. apply (skip_outcome_later block (32 * (block / 32) + 32)); [lia|by intros _|].
    apply contig_skip_words_ok; [done|lia|done|by left|done|lia|lia].
  - exists (ContigAt (32 * (block / 32) + j) c), v. split; [done|]. split; [done|]. split; [lia|]. split; [by intros _|]. intros _.
    split; [apply Hl; lia|]. assert ((32 * (block / 32) + j) / 32 = block / 32) as -> by (symmetry; apply (Z.div_unique _ _ _ j); lia). done.
Qed.

(** What the second loop may answer for the run from [first] on. *)
Definition count_outcome (first lo : Z) (r : option (contig_at * vol)) : Prop :=
  exists at_ v', r = Some (at_, v') /\ searched flags v0 v' /\
    match at_ with
    | ContigError err => err <> noErr /\ err ∈ io0
    | ContigLoopExit => False
    | ContigAt b c => lo <= b /\ b <= UINT32_MAX /\ all_free v0 flags first b /\
        (ending <= b \/ maxBlocks <= b - first \/ (used v0 flags b = true /\ cursor_word v0 c (b / 32)))
    end.

Lemma count_outcome_later first lo b r : lo <= b -> count_outcome first b r -> count_outcome first lo r.
Proof.
  intros Hle (at_ & v' & E & Hs & H). exists at_, v'. split; [done|]. split; [done|].
  destruct at_ as [|err|b' c]; [done|done|]. destruct H. split; [lia|done].
Qed.

Lemma all_free_trans a b c : all_free v0 flags a b -> all_free v0 flags b c -> all_free v0 flags a c.
Proof. intros H1 H2 x Hx. destruct (Z.lt_ge_cases x b); [apply H1|apply H2]; lia. Qed.

Lemma contig_count_words_ok first fuel : forall v block c,
  searched flags v0 v -> start <= first <= block -> block <= UINT32_MAX -> at_words block c -> all_free v0 flags first block ->
  ending - block < Z.of_nat fuel -> 0 < Z.of_nat fuel ->
  count_outcome first block (contig_count_words flags ending maxBlocks useMetaZone first block c fuel v).
Proof.
  destruct contig_limits as [L1 L2].
  induction fuel as [|fuel IH]; intros v block c Hs Hb Hbm Hat Hfree Hf Hf0; [lia|]. cbn [contig_count_words].
  destruct (Z.ltb_spec block ending) as [Hlt|Hge]; cbn [negb].
  2:{ exists (ContigAt block c), v. split; [done|]. split; [done|]. split; [lia|]. split; [done|]. split; [done|]. by left. }
  assert (forall v c, searched flags v0 v -> block mod 32 = 0 -> cursor_word v0 c (block / 32) ->
    count_outcome first block ((tempWord ← fetch flags c;
        if negb (tempWord =? 0)
        then mret (ContigAt (over_clear tempWord kHighBitInWordMask block word_bits).2 c)
        else if maxBlocks <=? u32 (u32 (block + kBitsPerWord) - first)
             then mret (ContigAt (u32 (block + kBitsPerWord)) (advance c))
             else contig_count_words flags ending maxBlocks useMetaZone first (u32 (block + kBitsPerWord)) (advance c) fuel) v)) as Hex.
  { clear v c Hs Hat. intros v c Hs Hm Hc.
    pose proof (Z.div_mod block 32 ltac:(lia)) as Hd. rewrite Hm in Hd. pose proof (Z.div_pos block 32 ltac:(lia) ltac:(lia)) as Hk.
    destruct (fetch_searched v0 flags Hv0 v c (block / 32) Hs Hc) as (w & Ef & Hw); [lia|].
    unfold mbind at 1, V_bind at 1. rewrite Ef. assert (block = 32 * (block / 32)) as Eb by lia.
    destruct (Z.eqb_spec w 0) as [Ew|Ew]; cbn [negb].
    - pose proof (word_empty v0 flags (block / 32) w Hw Ew) as Hu. rewrite <-Eb in Hu. unfold kBitsPerWord. rewrite !(u32_id (block + 32)) by lia.
      rewrite u32_id by lia. destruct (advance_words c (block / 32) Hc Hk) as [Hat' _]. rewrite <-Eb in Hat'.
      pose proof (all_free_trans _ _ _ Hfree Hu) as Hfree'. destruct (Z.leb_spec maxBlocks (block + 32 - first)).
      + exists (ContigAt (block + 32) (advance c)), v. split; [done|]. split; [done|]. split; [lia|]. split; [lia|]. split; [done|]. right. by left.
      + apply (count_outcome_later first block (block + 32)); [lia|]. apply IH; done || lia.
    - destruct (over_clear_ok v0 flags (block / 32) w Hw Hk ltac:(lia) word_bits 0 ltac:(lia) ltac:(unfold word_bits; lia)) as (j & Hj & E & Hu & Hl).
      change (mask_at 0) with kHighBitInWordMask in E. rewrite Z.add_0_r in E, Hu. rewrite <-Eb in E, Hu, Hl. rewrite E. cbn [snd].
      assert (j < 32) as Hj32.
      { destruct (Z.eq_dec j 32) as [->|]; [|lia]. exfalso. apply Ew, (free_word_empty v0 flags (block / 32) w Hw). by rewrite <-Eb. }
      exists (ContigAt (block + j) c), v. split; [done|]. split; [done|]. split; [lia|]. split; [lia|].
      split; [by apply (all_free_trans _ block)|]. right. right. split; [apply Hl; done|].
      assert ((block + j) / 32 = block / 32) as -> by (symmetry; apply (Z.div_unique _ _ _ j); lia). done. }
  destruct (Z.eqb_spec (cu_left c) 0) as [Hl|Hl]; cbn [negb].
  2:{ destruct Hat as [Hm [Hc|[? _]]]; [|done]. by apply Hex. }
  destruct Hat as [Hm [[_ Hi _ Hcl]|[_ HmB]]]; [lia|]. unfold mbind at 1, V_bind at 1, get_vol at 1.
  destruct (release_block_eq v) as (err & io & Er & Hio & Herr). unfold mbind at 1, V_bind at 1. rewrite Er.
  pose proof (searched_io flags v0 v io Hs Hio) as Hs2.
  pose proof (searched_same _ _ _ Hs) as (_ & _ & _ & _ & _ & _ & _ & _ & _ & Hsub).
  destruct (Z.eqb_spec err noErr) as [->|Hne]; cbn [negb].
  2:{ exists (ContigError err), (set_io io v). split; [done|]. split; [done|]. split; [done|]. destruct Herr; [done|by apply Hsub]. }
  assert (negb useMetaZone && negb (NextBitmapBlock v block =? block) = false) as ->.
  { pose proof (contig_zone v block Hs ltac:(lia)) as Hz. destruct useMetaZone; [done|]. rewrite Hz. by rewrite Z.eqb_refl. }
  unfold mbind at 1, V_bind at 1.
  destruct (read_ok v0 flags Hv0 (set_io io v) block Hs2 ltac:(lia) HmB) as [(e & v' & -> & Hne & He & Hs')|(v' & w & -> & Hs' & _ & [Hc _ _])].
  - exists (ContigError e), v'. split; [done|]. by split.
  - rewrite (block_start_eq v0 flags v) by done. by apply Hex.
Qed.

Lemma contig_count_ok v block c :
  searched flags v0 v -> start <= block < ending -> used v0 flags block = false -> 0 < maxBlocks -> cursor_word v0 c (block / 32) ->
  count_outcome block (block + 1) (contig_count flags ending maxBlocks useMetaZone block c v).
Proof.
  intros Hs Hb Hfr Hmx Hc. destruct contig_limits as [L1 L2].
  assert (forall r, count_outcome block block r -> count_outcome block (block + 1) r) as Hlater.
  { intros r (at_ & v' & E & Hs' & H). exists at_, v'. split; [done|]. split; [done|].
    destruct at_ as [|err|b' c']; [done|done|]. destruct H as (H1 & H2 & H3 & H4). split; [|done].
    destruct (Z.eq_dec b' block) as [->|]; [|lia]. exfalso. destruct H4 as [|[|[H4 _]]]; [lia|lia|congruence]. }
  apply Hlater. unfold contig_count. rewrite within_word, mask_at_start.
  pose proof (Z.div_mod block 32 ltac:(lia)) as Hd. pose proof (Z.mod_pos_bound block 32 ltac:(lia)) as Hm.
  pose proof (Z.div_pos block 32 ltac:(lia) ltac:(lia)) as Hk.
  destruct (Z.eqb_spec (block mod 32) 0) as [Em|Em]; cbn [negb].
  { apply contig_count_words_ok; [done|lia|lia|by split; [|left]|intros x Hx; lia|lia|lia]. }
  destruct (fetch_searched v0 flags Hv0 v c (block / 32) Hs Hc) as (w & Ef & Hw); [lia|].
  unfold mbind at 1, V_bind at 1. rewrite Ef.
  destruct (over_clear_ok v0 flags (block / 32) w Hw Hk ltac:(lia) word_bits (block mod 32) ltac:(lia) ltac:(unfold word_bits; lia)) as (j & Hj & E & Hu & Hl).
  rewrite <-Hd in E, Hu. rewrite E, mask_at_zero by lia. destruct (Z.eqb_spec j 32) as [->|Hj32]; cbn [negb].
  - destruct (advance_words c (block / 32) Hc Hk) as [Hat' _]. apply (count_outcome_later block block (32 * (block / 32) + 32)); [lia|].
    apply contig_count_words_ok; [done|lia|lia|done|done|lia|lia].
  - exists (ContigAt (32 * (block / 32) + j) c), v. split; [done|]. split; [done|]. split; [lia|]. split; [lia|]. split; [done|]. right. right.
    split; [apply Hl; lia|]. assert ((32 * (block / 32) + j) / 32 = block / 32) as -> by (symmetry; apply (Z.div_unique _ _ _ j); lia). done.
Qed.
End Contig.

(** ** The cache *)

Lemma outside_tentative_ok ranges : Forall range_ok ranges -> forall a,
  0 <= rl_start a <= rl_end a + 1 -> rl_end a <= UINT32_MAX ->
  let a' := outside_tentative a ranges in
  rl_start a <= rl_start a' <= rl_end a' + 1 /\ rl_end a' <= rl_end a /\ (forall x, rl_in x a' -> in_ranges ranges x = false).
Proof.
  induction 1 as [|r ranges Hr _ IH]; intros a Ha Hi; cbn [outside_tentative].
  { cbv zeta. split; [lia|]. split; [lia|]. done. }
  assert (rl_valid r) as Hv by (unfold rl_valid, range_ok, RL_INFINITY, INT64_MAX, UINT32_MAX in *; lia).
  assert (rl_len r =? 0 = false) as ->.
  { unfold rl_len, range_ok, UINT32_MAX in *. rewrite (s64_id (rl_end r - rl_start r)), s64_id by (unfold INT64_MAX; lia). apply Z.eqb_neq. lia. }
  destruct (rl_subtract_part a r Ha) as (H1 & H2 & H3); [unfold RL_INFINITY, INT64_MAX, UINT32_MAX in *; lia|done|].
  set (a1 := rangelist.rl_subtract a r) in *. clearbody a1. destruct (IH a1 ltac:(lia) ltac:(lia)) as (G1 & G2 & G3).
  split; [lia|]. split; [lia|]. intros x Hx. cbn [in_ranges existsb]. specialize (G3 x Hx). unfold in_ranges in G3. rewrite G3.
  assert (rl_in x a1) as Hx1 by (unfold rl_in in *; lia). specialize (H3 x Hx1). unfold rl_in in H3.
  destruct (Z.leb_spec (rl_start r) x), (Z.leb_spec x (rl_end r)); [lia|done..].
Qed.

(** A block that a search takes for free, and that no tentative range holds. *)
Lemma used_outside v flags b :
  ISSET flags HFS_ALLOC_IGNORE_RESERVED = false -> used v flags b = false ->
  (ISSET flags HFS_ALLOC_IGNORE_TENTATIVE = true -> in_ranges (ranges HFS_TENTATIVE_BLOCKS (vo_reserved v)) b = false) ->
  used v 0 b = false.
Proof.
  unfold used, seen, ranges_of, reservations_of. intros ->. change (ISSET 0 HFS_ALLOC_IGNORE_RESERVED) with false.
  change (ISSET 0 HFS_ALLOC_IGNORE_TENTATIVE) with false. cbn match. destruct (ISSET flags HFS_ALLOC_IGNORE_TENTATIVE); [|done].
  cbn [vb_tentative vb_locked vb_words vbm_of]. intros Hu Ht. rewrite in_ranges_app, Ht by done. done.
Qed.

Lemma contig_remember_ok v0 flags v first found :
  vol_ok v0 -> searched flags v0 v -> ISSET flags HFS_ALLOC_IGNORE_RESERVED = false ->
  0 <= first -> 0 < found -> first + found <= vo_totalBlocks v0 -> free_run v0 flags first found ->
  exists first' found' v', contig_remember flags first found false v = Some ((first', found', false), v') /\
    searched flags v0 v' /\ 0 <= found' <= found.
Proof.
  intros Hv0 Hs Hir Hf Hn Hle Hfree. pose proof (li_max v0 (vk_limits v0 Hv0)) as Hmax.
  pose proof (searched_same flags v0 v Hs) as (_ & Er & _).
  assert (forall s n, first <= s -> 0 <= n -> s + n <= first + found ->
    (ISSET flags HFS_ALLOC_IGNORE_TENTATIVE = true -> forall b, s <= b < s + n -> in_ranges (ranges HFS_TENTATIVE_BLOCKS (vo_reserved v0)) b = false) ->
    exists v', (if n =? 0 then mret (s, n, false) else
      let '(err, recently_deleted, _) := CheckUnmappedBytes v s n in
      if negb (err =? 0) || negb recently_deleted then updated ← vo_add_free_extent s n; mret (s, n, updated) else mret (s, n, false)) v
      = Some ((s, n, false), v') /\ searched flags v0 v') as Hadd.
  { intros s n H1 H2 H3 Ht. destruct (Z.eqb_spec n 0) as [->|Hne]; [by exists v|].
    rewrite (searched_check flags v0 v) by done.
    destruct (CheckUnmappedBytes_ok v0 s n Hv0 ltac:(lia) ltac:(lia) ltac:(lia)) as (freed & e & -> & Hno & _).
    change (negb (0 =? 0)) with false. cbn [orb]. destruct freed; cbn [negb]; [by exists v|].
    destruct (searched_add flags v0 v s n Hv0 Hs) as (v' & E & Hs'); [lia|lia|lia| |].
    - intros b Hb. split; [|by apply Hno]. apply (used_outside v0 flags b Hir); [apply Hfree; lia|]. intros Et. by apply Ht.
    - exists v'. unfold mbind, V_bind. by rewrite E. }
  unfold contig_remember, mbind at 1, V_bind at 1, get_vol at 1. destruct (ISSET flags HFS_ALLOC_IGNORE_TENTATIVE).
  - rewrite (u32_id (first + found)), (u32_id (first + found - 1)) by lia. rewrite Er.
    pose proof (outside_tentative_ok (ranges HFS_TENTATIVE_BLOCKS (vo_reserved v0))) as Hout.
    destruct Hv0 as [(_ & Hrange & _) _ _ _ _ _]. specialize (Hout Hrange (rl_make first (first + found - 1))). cbn [rl_start rl_end] in Hout.
    specialize (Hout ltac:(lia) ltac:(lia)). cbv zeta in Hout. set (a := outside_tentative _ _) in *. clearbody a.
    destruct Hout as (G1 & G2 & G3). unfold rl_len.
    rewrite (s64_id (rl_end a - rl_start a)), s64_id, (u32_id (rl_start a)), u32_id by (unfold INT64_MAX, UINT32_MAX in *; lia).
    destruct (Hadd (rl_start a) (rl_end a - rl_start a + 1)) as (v' & E & Hs'); [lia|lia|lia| |].
    + intros _ b Hb. apply G3. unfold rl_in. lia.
    + exists (rl_start a), (rl_end a - rl_start a + 1), v'. split; [done|]. split; [done|]. lia.
  - destruct (Hadd first found) as (v' & E & Hs'); [lia|lia|lia|done|]. exists first, found, v'. split; [done|]. split; [done|]. lia.
Qed.

(** ** BlockFindContiguous *)

(** What the search may give, and when it may give up. *)
Record contig_run (v : vol) (flags start ending minBlocks maxBlocks s n : Z) : Prop := {
  cr_start : start <= s;
  cr_count : minBlocks <= n <= maxBlocks;
  cr_end : s + n <= ending;
  cr_free : free_run v flags s n;
}.

(** Every run of the length asked for has a used block. *)
Definition no_run (v : vol) (flags start ending minBlocks : Z) : Prop :=
  forall s, start <= s -> s + minBlocks <= ending -> exists b, s <= b < s + minBlocks /\ used v flags b = true.

Section Loop.
Context (v0 : vol) (flags : Z) (Hv0 : vol_ok v0) (start ending minBlocks maxBlocks : Z) (useMetaZone trustSummary : bool).
Context (Hir : ISSET flags HFS_ALLOC_IGNORE_RESERVED = false).
Context (Hstart : 0 <= start) (Hend : ending <= vo_allocLimit v0) (Hmax : ending <= UINT32_MAX - 31).
Context (Hmin : 0 < minBlocks <= maxBlocks) (Hmx : maxBlocks <= UINT32_MAX).
Context (Hzone : forall b, start <= b -> useMetaZone = false -> NextBitmapBlock v0 b = b).
Local Notation stop := (ending - minBlocks + 1).
Local Notation io0 := (bm_io (vo_bitmap v0)).
Local Notation right := (ISSET flags HFS_ALLOC_TRY_HARD = false /\ table_right v0 flags trustSummary).

(** No run that starts before [block] is long enough. *)
Definition passed (block : Z) : Prop :=
  right -> forall s, start <= s < block -> s + minBlocks <= ending -> exists b, s <= b < s + minBlocks /\ used v0 flags b = true.

Lemma passed_start : passed start.
Proof. intros _ s Hs. lia. Qed.

Lemma passed_skipped a b : passed a -> skipped v0 flags trustSummary a b -> passed b.
Proof.
  intros Hp Hs Hr s Hsb Hle. destruct (Z.lt_ge_cases s a); [apply Hp; [done|lia|done]|]. exists s. split; [lia|]. apply Hs; [apply Hr|lia].
Qed.

Lemma passed_stop b : stop <= b -> passed b -> right -> no_run v0 flags start ending minBlocks.
Proof. intros Hb Hp Hr s Hs Hle. apply Hp; [done|lia|done]. Qed.

(** The best run so far, if there is one. *)
Definition best_ok (best : HFSPlusExtentDescriptor) : Prop :=
  blockCount best = 0 \/ contig_run v0 flags start ending 1 maxBlocks (startBlock best) (blockCount best).

Definition contig_end_ok (r : contig_end) : Prop :=
  match r with
  | ContigFailed err updated => updated = false /\ err <> noErr /\ err ∈ io0
  | ContigEnd _ first found best updated =>
      updated = false /\ best_ok best /\
      (ISSET flags HFS_ALLOC_TRY_HARD = false ->
       (contig_run v0 flags start ending minBlocks maxBlocks first found /\ passed first) \/
       (0 <= found < minBlocks /\ (table_right v0 flags trustSummary -> no_run v0 flags start ending minBlocks)))
  end.

Lemma contig_loop_ok fuel : forall v first block c remaining best,
  searched flags v0 v -> start <= block < stop -> cursor_word v0 c (block / 32) -> passed block -> best_ok best ->
  ending - block < Z.of_nat fuel ->
  exists r v', contig_loop flags ending stop minBlocks maxBlocks useMetaZone trustSummary first block c remaining best false fuel v = Some (r, v') /\
    searched flags v0 v' /\ contig_end_ok r.
Proof.
  pose proof (contig_limits v0 Hv0 ending Hend) as [L1 L2].
  induction fuel as [|fuel IH]; intros v first block c remaining best Hs Hb Hc Hp Hbest Hf; [lia|]. cbn [contig_loop].
  assert (forall held f v', searched flags v0 v' -> (right -> no_run v0 flags start ending minBlocks) ->
    exists r v'', (mret (ContigEnd held f 0 best false) : V contig_end) v' = Some (r, v'') /\ searched flags v0 v'' /\ contig_end_ok r) as Hfull.
  { intros held f v' Hs' Hno. exists (ContigEnd held f 0 best false), v'. split; [done|]. split; [done|]. split; [done|]. split; [done|].
    intros Eh. right. split; [lia|]. intros Ht. by apply Hno. }
  destruct (contig_skip_ok v0 flags Hv0 start ending stop useMetaZone trustSummary Hstart Hend Hmax ltac:(lia) Hzone v block c Hs ltac:(lia) Hc)
    as (at1 & v1 & E1 & Hs1 & H1).
  unfold mbind at 1, V_bind at 1. rewrite E1. destruct at1 as [err| |block1 c1].
  { exists (ContigFailed err false), v1. split; [done|]. by split. }
  { apply Hfull; [done|]. apply (passed_stop stop); [lia|]. by apply (passed_skipped block). }
  destruct H1 as (Hle1 & Hsk & Hfr). pose proof (passed_skipped _ _ Hp Hsk) as Hp1.
  destruct (Z.leb_spec stop block1) as [Hge|Hlt1]; [by apply Hfull; [|apply (passed_stop block1)]|].
  destruct (Hfr Hlt1) as [Hu1 Hc1].
  destruct (contig_count_ok v0 flags Hv0 start ending maxBlocks useMetaZone Hstart Hend Hmax Hzone v1 block1 c1 Hs1 ltac:(lia) Hu1 ltac:(lia) Hc1)
    as (at2 & v2 & E2 & Hs2 & H2).
  unfold mbind at 1, V_bind at 1. rewrite E2. destruct at2 as [err| |block2 c2]; [|done|].
  { exists (ContigFailed err false), v2. split; [done|]. by split. }
  destruct H2 as (Hle2 & Hm2 & Hfree & Hwhy).
  set (block3 := if ending <? block2 then ending else block2).
  assert (block3 = Z.min ending block2) as E3 by (subst block3; destruct (Z.ltb_spec ending block2); lia). clearbody block3.
  cbv zeta. rewrite (u32_id (block3 - block1)) by lia.
  set (found := if maxBlocks <? block3 - block1 then maxBlocks else block3 - block1).
  assert (found = Z.min maxBlocks (block3 - block1)) as Efound by (subst found; destruct (Z.ltb_spec maxBlocks (block3 - block1)); lia).
  clearbody found. set (remaining' := if remaining =? 0 then _ else _). clearbody remaining'.
  assert (free_run v0 flags block1 found) as Hrun by (intros x Hx; apply Hfree; lia).
  assert (contig_run v0 flags start ending 1 maxBlocks block1 found) as Hcr by (split; [lia|lia|lia|done]).
  set (best' := if ISSET flags HFS_ALLOC_TRY_HARD && (blockCount best <? found) then _ else _).
  assert (best_ok best') as Hbest' by (subst best'; destruct (ISSET flags HFS_ALLOC_TRY_HARD && (blockCount best <? found)); [by right|done]).
  clearbody best'. destruct (if ISSET flags HFS_ALLOC_TRY_HARD then _ else _) eqn:Efd.
  { exists (ContigEnd true block1 found best' false), v2. split; [done|]. split; [done|]. split; [done|]. split; [done|].
    intros Eh. rewrite Eh in Efd. apply Z.leb_le in Efd. left. split; [|done]. split; [lia|lia|lia|done]. }
  destruct (contig_remember_ok v0 flags v2 block1 found Hv0 Hs2 Hir) as (f' & n' & v3 & Er & Hs3 & Hn'); [lia|lia|lia|done|].
  unfold mbind, V_bind. rewrite Er.
  assert (block3 < stop -> used v0 flags block2 = true /\ cursor_word v0 c2 (block2 / 32) /\ block3 = block2) as Hgo.
  { intros Hlt. destruct Hwhy as [|[Hwhy|[Hu2 Hc2]]]; [lia| |split; [done|]; split; [done|lia]]. exfalso.
    assert (found = maxBlocks) as Ef by lia. destruct (ISSET flags HFS_ALLOC_TRY_HARD).
    - apply orb_false_iff in Efd as [Efd _]. apply Z.leb_gt in Efd. lia.
    - apply Z.leb_gt in Efd. lia. }
  assert (passed block3) as Hp3.
  { intros [Eh Hr] s Hsb Hle. rewrite Eh in Efd. apply Z.leb_gt in Efd.
    destruct (Z.lt_ge_cases s block1); [apply Hp1; [done|lia|done]|]. exists block2. split; [lia|].
    destruct Hwhy as [|[|[? _]]]; [lia|lia|done]. }
  destruct (Z.ltb_spec block3 stop) as [Hlt|Hge].
  - destruct (Hgo Hlt) as (Hu2 & Hc2 & ->). apply IH; done || lia.
  - exists (ContigEnd true f' n' best' false), v3. split; [done|]. split; [done|]. split; [done|]. split; [done|].
    intros Eh. rewrite Eh in Efd. apply Z.leb_gt in Efd. right. split; [lia|]. intros Ht. by apply (passed_stop block3).
Qed.

Lemma contig_finish_ok v r :
  searched flags v0 v -> contig_end_ok r ->
  exists err ext v', contig_finish flags minBlocks r v = Some ((err, ext), v') /\ searched flags v0 v' /\
    search_result v0 (fun s n => contig_run v0 flags start ending minBlocks maxBlocks s n /\ passed s)
      (right -> no_run v0 flags start ending minBlocks) err ext.
Proof.
  intros Hs Hr. pose proof (contig_limits v0 Hv0 ending Hend) as [L1 L2].
  assert (forall v, update_sparse false v = Some (tt, v)) as Hus by done.
  destruct r as [err u|held first found best u]; destruct Hr as (-> & Hr); cbn [contig_finish].
  { exists err, (mkExtent 0 0), v. unfold mbind, V_bind. rewrite Hus. split; [done|]. split; [done|]. apply SearchIO; apply Hr. }
  destruct Hr as [Hbest Hfound]. unfold mbind at 1, V_bind at 1, get_vol at 1.
  set (ext := if ISSET flags HFS_ALLOC_TRY_HARD then best else mkExtent first found).
  assert ((contig_run v0 flags start ending minBlocks maxBlocks (startBlock ext) (blockCount ext) /\ passed (startBlock ext)) \/
          (blockCount ext < minBlocks /\ (right -> no_run v0 flags start ending minBlocks))) as Hext.
  { subst ext. destruct (ISSET flags HFS_ALLOC_TRY_HARD) eqn:Eh.
    - destruct (Z.lt_ge_cases (blockCount best) minBlocks); [right; split; [done|intros [? _]; congruence]|]. left.
      split; [|intros [? _]; congruence]. destruct Hbest as [|[]]; [lia|]. by split; [|lia|..].
    - cbn [startBlock blockCount]. destruct (Hfound eq_refl) as [|[? Hno]]; [by left|]. right. split; [lia|]. intros [_ Ht]. by apply Hno. }
  clearbody ext. assert (forall v', searched flags v0 v' -> exists v'', when held (_ ← release_block; mret tt) v' = Some (tt, v'') /\ searched flags v0 v'') as Hrel.
  { intros v' Hs'. destruct held; [|by exists v']. unfold when, mbind, V_bind. destruct (release_block_eq v') as (e & io & -> & Hio & _).
    exists (set_io io v'). split; [done|]. by apply searched_io. }
  pose proof (searched_same flags v0 v Hs) as (Ea & _). destruct (Hrel v Hs) as (v' & Er & Hs').
  destruct (Z.ltb_spec (blockCount ext) minBlocks) as [Hlt|Hge].
  - exists dskFulErr, (mkExtent 0 0), v'. unfold mbind at 1, V_bind at 1. rewrite Hus. unfold mbind at 1, V_bind at 1. rewrite Er. split; [done|]. split; [done|]. apply SearchFull.
    destruct Hext as [[[] _]|[_ ?]]; [lia|done].
  - destruct Hext as [[Hc Hp]|[? _]]; [|lia]. pose proof Hc as [C1 C2 C3 C4]. rewrite Ea, u32_id by lia.
    destruct (Z.ltb_spec (vo_allocLimit v0) (startBlock ext + blockCount ext)); [lia|].
    exists noErr, ext, v'. unfold mbind at 1, V_bind at 1. rewrite Hus. unfold mbind at 1, V_bind at 1. rewrite Er. split; [done|]. split; [done|]. destruct ext. by apply SearchRun.
Qed.
End Loop.

(** Every run of the length asked for that may be used and starts before [bound] has a
    used block; without HFS_ALLOC_TRY_HARD, and when a summary table that is trusted is
    right. *)
Definition no_run_before (v : vol) (flags start ending minBlocks : Z) (useMetaZone trustSummary : bool) (bound : Z) : Prop :=
  ISSET flags HFS_ALLOC_TRY_HARD = false -> table_right v flags trustSummary ->
  forall s, start <= s < bound -> s + minBlocks <= ending -> outside_zone v useMetaZone start ending s ->
    exists b, s <= b < s + minBlocks /\ used v flags b = true.

(** What the search may give, the first run that fits, and when it may give up. *)
Record contig_fit (v : vol) (flags start ending minBlocks maxBlocks : Z) (useMetaZone trustSummary : bool) (s n : Z) : Prop := {
  cf_run : contig_run v flags start ending minBlocks maxBlocks s n;
  cf_zone : outside_zone v useMetaZone start ending s;
  cf_first : no_run_before v flags start ending minBlocks useMetaZone trustSummary s;
}.
Definition contig_full (v : vol) (flags start ending minBlocks : Z) (useMetaZone trustSummary : bool) : Prop :=
  no_run_before v flags start ending minBlocks useMetaZone trustSummary ending.

(** The volume and the bounds of a search. *)
Record contig_bounds (v : vol) (flags start ending minBlocks maxBlocks : Z) : Prop := {
  cb_reserved : ISSET flags HFS_ALLOC_IGNORE_RESERVED = false;
  cb_start : 0 <= start <= ending;
  cb_first : start < 32 * words_total v;
  cb_limit : ending <= vo_allocLimit v;
  (* adding a word to a block number must not wrap around *)
  cb_max : ending <= UINT32_MAX - 31;
  cb_min : 0 < minBlocks <= maxBlocks;
  cb_count : maxBlocks <= UINT32_MAX;
}.

Lemma BlockFindContiguous_ok v0 flags v start ending minBlocks maxBlocks useMetaZone trustSummary :
  vol_ok v0 -> searched flags v0 v -> contig_bounds v0 flags start ending minBlocks maxBlocks ->
  exists err ext v', BlockFindContiguous start ending minBlocks maxBlocks useMetaZone trustSummary flags v = Some ((err, ext), v') /\
    searched flags v0 v' /\
    search_result v0 (contig_fit v0 flags start ending minBlocks maxBlocks useMetaZone trustSummary)
      (contig_full v0 flags start ending minBlocks useMetaZone trustSummary) err ext.
Proof.
  intros Hv0 Hs [Hir Hst Hfirst Hend Hmax Hmin Hcnt]. unfold BlockFindContiguous, mbind at 1, V_bind at 1, get_vol at 1.
  assert (skip_metazone v useMetaZone start ending = skip_metazone v0 useMetaZone start ending) as ->
    by (unfold skip_metazone; rewrite (searched_flag flags v0 v) by done; destruct Hs as [(io & t & m & -> & _)]; done).
  pose proof (skip_metazone_ok v0 useMetaZone start ending Hv0 ltac:(lia) Hend) as Hskip.
  assert (forall P : Prop, P -> exists err ext v', (mret (dskFulErr, mkExtent 0 0) : V _) v = Some ((err, ext), v') /\ searched flags v0 v' /\
    search_result v0 (contig_fit v0 flags start ending minBlocks maxBlocks useMetaZone trustSummary) P err ext) as Hfull.
  { intros P HP. eexists _, _, v. split; [done|]. split; [done|]. by apply SearchFull. }
  destruct (skip_metazone v0 useMetaZone start ending) as [start'|].
  2:{ apply Hfull. intros _ _ s H1 H2 Ho. exfalso. by apply (Hskip s); [lia|]. }
  destruct Hskip as (Hst' & Hse & Hzone & Hbefore). specialize (Hse ltac:(lia)).
  pose proof (contig_limits v0 Hv0 ending Hend) as [L1 L2].
  rewrite (u32_id (ending - start')) by lia. destruct (Z.ltb_spec (ending - start') minBlocks) as [Hlt|Hge].
  { apply Hfull. intros _ _ s H1 H2 Ho. apply Hbefore in Ho; lia. }
  rewrite (u32_id (ending - minBlocks)), (u32_id (ending - minBlocks + 1)) by lia.
  rewrite (contig_zone v0 flags start' useMetaZone Hzone v start' Hs) by lia.
  destruct (suggestion_ok v0 flags Hv0 ending (ending - minBlocks + 1) trustSummary Hend ltac:(lia) v start' Hs ltac:(lia)) as (err & nb & E & E0 & Hnb).
  unfold mbind at 1, V_bind at 1. cbv zeta. rewrite E, E0.
  assert (skipped v0 flags trustSummary start' (ending - minBlocks + 1) -> contig_full v0 flags start ending minBlocks useMetaZone trustSummary) as Hskfull.
  { intros Hsk _ Htr s H1 H2 Ho. exists s. split; [lia|]. apply Hbefore in Ho; [|lia]. apply Hsk; [done|lia]. }
  destruct ((trustSummary && has_flag v HFS_SUMMARY_TABLE) && ((err =? ENOSPC) || (ending - minBlocks + 1 <=? nb))).
  { apply Hfull. by apply Hskfull. }
  destruct Hnb as (Hlt & Hsk & Hm). unfold mbind at 1, V_bind at 1.
  destruct (read_block_eq nb v) as (err' & io & Er & Hio & Herr). rewrite Er.
  pose proof (searched_io flags v0 v io Hs Hio) as Hs'.
  pose proof (searched_same _ _ _ Hs) as (_ & _ & _ & _ & _ & _ & Ei & _ & _ & Hsub).
  destruct (Z.eqb_spec err' noErr) as [->|Hne].
  2:{ eexists err', _, _. split; [done|]. split; [done|]. apply SearchIO; [done|]. destruct Herr; [done|by apply Hsub]. }
  pose proof (first_cursor_word v0 flags Hv0 v nb Hs ltac:(lia)) as Hc. cbv zeta in Hc.
  assert (words_of v = words_of v0) as EW by (unfold words_of; by rewrite Ei).
  rewrite <-(word_index v0 nb Hv0), <-EW in Hc by lia. rewrite (searched_bits flags v0 v) by done.
  destruct (contig_loop_ok v0 flags Hv0 start' ending minBlocks maxBlocks useMetaZone trustSummary Hir ltac:(lia) Hend Hmax Hmin Hzone
    (S (S (Z.to_nat (ending - nb)))) (set_io io v) 0 nb _
    (u32 (u32 (freeBlocks (vo_counts v) - lockedBlocks (vo_counts v)) - (if ISSET flags HFS_ALLOC_IGNORE_TENTATIVE then 0 else tentativeBlocks (vo_counts v))))
    (mkExtent 0 0) Hs' ltac:(lia) Hc) as (r & v' & El & Hs'' & Hr);
    [eapply passed_skipped; [exact Hmin|apply passed_start|exact Hsk]|by left|lia|].
  unfold mbind at 1, V_bind at 1. rewrite El.
  destruct (contig_finish_ok v0 flags Hv0 start' ending minBlocks maxBlocks trustSummary ltac:(lia) Hend Hmax Hmin v' r Hs'' Hr)
    as (err2 & ext & v'' & -> & Hs3 & Hres).
  exists err2, ext, v''. split; [done|]. split; [done|]. revert Hres. apply search_result_mono.
  - intros s n [[R1 R2 R3 R4] Hp]. split; [split; [lia|done..]|by apply Hbefore; lia|].
    intros Eh Htr s' H1 H2 Ho. apply Hbefore in Ho; [|lia]. apply Hp; [done|lia|done].
  - intros Hno Eh Htr s H1 H2 Ho. apply Hbefore in Ho; [|lia]. apply Hno; [done|lia|lia].
Qed.

(** C22: A search for a long free run, from a block and to a bound in range, without
    HFS_ALLOC_IGNORE_RESERVED: it ends and never leaves a buffer, whatever the block I/O
    does, in one of three ways.  It gives a run inside of the bounds and of the zone
    that may be used, with a length asked for and only free blocks; without
    HFS_ALLOC_TRY_HARD, and when the summary table is right or is not trusted or not
    there, no run of the least length starts before it.  Or it answers that the disk is
    full; under the same two conditions no run of the least length is free then, and
    without them nothing is said.  Or it gives back an error of the block I/O.  In every
    case it changes no bit and no count, and puts in the free extent cache only blocks
    that are free, not reserved and wait for no trim. *)
Theorem BlockFindContiguous_correct (v : vol) (start ending minBlocks maxBlocks flags : Z) (useMetaZone trustSummary : bool) :
  vol_ok v -> contig_bounds v flags start ending minBlocks maxBlocks ->
  exists err ext v', BlockFindContiguous start ending minBlocks maxBlocks useMetaZone trustSummary flags v = Some ((err, ext), v') /\
    searched flags v v' /\
    search_result v (contig_fit v flags start ending minBlocks maxBlocks useMetaZone trustSummary)
      (contig_full v flags start ending minBlocks useMetaZone trustSummary) err ext.
Proof. intros Hv Hb. apply BlockFindContiguous_ok; [done|by apply searched_refl|done]. Qed.
