(* ===== verification/AllocSearchProps.v ===== *)
(** * The allocator's searches together (core/VolumeAllocation.c)

    BlockFindContig goes over the runs that are long enough, past those that wait for a
    trim, and wraps around once: it ends, although nothing in its loop counts.
    BlockFindKnown takes blocks of the free extent cache, hfs_alloc_try_hard and the
    searches for any blocks combine these. *)

From S2P Require Import Prelude HfsFormat RangeList FreeExtCache Bitmap BitmapBits BitmapWalk BitmapMark BitmapFree BitmapReserve JournalTrim JournalTrimProps Volume VolumeOps BlockSearch BlockAlloc VolumeProps BlockSearchProps ContigProps.

(** ** BlockFindContig *)

Section FindContig.
Context (v0 : vol) (flags minBlocks maxBlocks : Z).
Context (Hv0 : vol_ok v0) (Hmax : vo_allocLimit v0 <= UINT32_MAX - 31).
Context (Hir : ISSET flags HFS_ALLOC_IGNORE_RESERVED = false) (Htry : ISSET flags HFS_ALLOC_TRY_HARD = false).
Context (Hmin : 0 < minBlocks <= maxBlocks) (Hcnt : maxBlocks <= UINT32_MAX).
(** The table is right, and the block I/O has no error that is taken for a full disk. *)
Context (Htable : table_right v0 flags true) (Hio : dskFulErr ∉ bm_io (vo_bitmap v0)).
Local Notation limit := (vo_allocLimit v0).
Local Notation use := (ISSET flags HFS_ALLOC_METAZONE).
Local Notation wrapped cur := (if has_flag v0 HFS_SUMMARY_TABLE then limit else cur).

Lemma no_table_right : table_right v0 flags false.
Proof. done. Qed.

(** One round: from [cur] on, and from the start of the volume. *)
Definition round_run (cur s n : Z) : Prop :=
  contig_fit v0 flags cur limit minBlocks maxBlocks use true s n \/
  (cur <> 0 /\ contig_full v0 flags cur limit minBlocks use true /\
   contig_fit v0 flags 1 (wrapped cur) minBlocks maxBlocks use false s n).
Definition round_full (cur : Z) : Prop :=
  contig_full v0 flags cur limit minBlocks use true /\
  (cur <> 0 -> contig_full v0 flags 1 (wrapped cur) minBlocks use false).

Definition find_round (cur : Z) : V (Z * HFSPlusExtentDescriptor) :=
  v ← get_vol;
  r ← BlockFindContiguous cur (vo_allocLimit v) minBlocks maxBlocks use true flags;
  (if (fst r =? dskFulErr) && negb (cur =? 0) then
     if has_flag v HFS_SUMMARY_TABLE
     then BlockFindContiguous 1 (vo_allocLimit v) minBlocks maxBlocks use false flags
     else BlockFindContiguous 1 cur minBlocks maxBlocks use false flags
   else mret r).

Lemma find_round_ok v cur :
  searched flags v0 v -> 0 <= cur <= limit -> cur < 32 * words_total v0 ->
  exists err ext v', find_round cur v = Some ((err, ext), v') /\ searched flags v0 v' /\
    search_result v0 (round_run cur) (round_full cur) err ext.
Proof.
  intros Hs Hc Hw. pose proof (vk_limits v0 Hv0) as [Hl1 Hl2 _ _ _ _].
  pose proof (searched_same flags v0 v Hs) as (Ea & _). pose proof (searched_flag flags v0 v HFS_SUMMARY_TABLE Hs) as Ef.
  unfold find_round, mbind at 1, V_bind at 1, get_vol. rewrite Ea, Ef.
  destruct (BlockFindContiguous_ok v0 flags v cur limit minBlocks maxBlocks use true Hv0 Hs) as (err & ext & v1 & E & Hs1 & Hr); [by split|].
  unfold mbind at 1, V_bind at 1. rewrite E. cbn [fst].
  assert ((if has_flag v0 HFS_SUMMARY_TABLE then BlockFindContiguous 1 limit minBlocks maxBlocks use false flags
           else BlockFindContiguous 1 cur minBlocks maxBlocks use false flags)
          = BlockFindContiguous 1 (wrapped cur) minBlocks maxBlocks use false flags) as -> by by destruct (has_flag v0 HFS_SUMMARY_TABLE).
  destruct Hr as [s n Hr|ext Hr|err ext Hne Hin].
  - change (noErr =? dskFulErr) with false. cbn [andb]. eexists _, _, v1. split; [done|]. split; [done|]. apply SearchRun. by left.
  - rewrite Z.eqb_refl. cbn [andb]. destruct (Z.eqb_spec cur 0) as [->|Hne]; cbn [negb].
    { eexists _, _, v1. split; [done|]. split; [done|]. apply SearchFull. by split. }
    destruct (BlockFindContiguous_ok v0 flags v1 1 (wrapped cur) minBlocks maxBlocks use false Hv0 Hs1) as (err2 & ext2 & v2 & -> & Hs2 & Hr2).
    { destruct (has_flag v0 HFS_SUMMARY_TABLE); split; done || lia. }
    exists err2, ext2, v2. split; [done|]. split; [done|]. revert Hr2. apply search_result_mono; [by right|by split].
  - destruct (Z.eqb_spec err dskFulErr) as [->|]; [done|]. cbn [andb]. exists err, ext, v1. split; [done|]. split; [done|]. by apply SearchIO.
Qed.

(** The rest of a turn of the loop, with the run that was found. *)
Lemma find_contig_step cur collision fuel v :
  find_contig_loop minBlocks maxBlocks flags cur collision (S fuel) v =
  match find_round cur v with
  | Some ((retval, found), v') =>
      (if negb (retval =? noErr) then mret (retval, found) else
       if negb (startBlock collision =? 0) &&
          extents_overlap (startBlock found) (blockCount found) (startBlock collision) (blockCount collision)
       then if ISSET flags HFS_ALLOC_FLUSHTXN then mret (noErr, collision) else mret (dskFulErr, found) else
       v ← get_vol;
       let '(err, recently_deleted, nextStart) := CheckUnmappedBytes v (startBlock found) (blockCount found) in
       if (err =? 0) && recently_deleted then
         find_contig_loop minBlocks maxBlocks flags nextStart (if startBlock collision =? 0 then found else collision) fuel
       else if (startBlock found =? 0) && (blockCount found =? 0)
       then find_contig_loop minBlocks maxBlocks flags cur collision fuel
       else mret (noErr, found)) v'
  | None => None
  end.
Proof.
  cbn [find_contig_loop]. unfold find_round, mbind, V_bind, get_vol.
  destruct (BlockFindContiguous cur _ _ _ _ _ _ v) as [[r v1]|]; [|done].
  destruct ((fst r =? dskFulErr) && negb (cur =? 0)); [|by destruct r].
  destruct (has_flag v HFS_SUMMARY_TABLE).
  - by destruct (BlockFindContiguous 1 _ _ _ _ _ _ v1) as [[[] ?]|].
  - by destruct (BlockFindContiguous 1 _ _ _ _ _ _ v1) as [[[] ?]|].
Qed.

(** What the search may give: a free run, of which no block waits for a trim unless a
    flush of the transaction is allowed. *)
Definition run_pending (s n : Z) : Prop := exists b, s <= b < s + n /\ pending_block v0 b.
Definition contig_found (s n : Z) : Prop :=
  contig_run v0 flags 1 limit minBlocks maxBlocks s n /\ (ISSET flags HFS_ALLOC_FLUSHTXN = false -> ~ run_pending s n).
(** It gives up when there is no run, or only one that waits for a trim was seen. *)
Definition contig_gives_up (start : Z) : Prop :=
  round_full start \/ exists s n, contig_run v0 flags 1 limit minBlocks maxBlocks s n /\ run_pending s n.

Definition past_zone (b : Z) : Prop :=
  use = true \/ has_flag v0 HFS_METADATA_ZONE = false \/ hfs_metazone_end (vo_geom v0) < b.

Lemma outside_past start ending b : outside_zone v0 use start ending b -> past_zone b.
Proof. intros [?|[?|[? _]]]; [by left|right; by left|right; by right]. Qed.

(** The first run that waits for a trim, and where the search is now. *)
Record colliding (cur : Z) (collision : HFSPlusExtentDescriptor) : Prop := {
  co_run : contig_run v0 flags 1 limit minBlocks maxBlocks (startBlock collision) (blockCount collision);
  co_pending : run_pending (startBlock collision) (blockCount collision);
  co_zone : past_zone (startBlock collision);
  co_here : past_zone cur;
}.
Definition measure (cur : Z) (collision : HFSPlusExtentDescriptor) : Z :=
  if startBlock collision =? 0 then 2 * limit + 1
  else if cur <=? startBlock collision then limit - cur else 2 * limit + 1 - cur.

Lemma overlap_apart s n collision :
  0 <= s -> 0 <= startBlock collision -> s + n <= limit -> startBlock collision + blockCount collision <= limit -> 0 < n -> 0 < blockCount collision ->
  extents_overlap s n (startBlock collision) (blockCount collision) = false ->
  s + n <= startBlock collision \/ startBlock collision + blockCount collision <= s.
Proof.
  intros. pose proof (vk_limits v0 Hv0) as [_ _ Hl3 _ _ _]. unfold extents_overlap in *. rewrite !u32_id in * by lia.
  destruct (Z.leb_spec (s + n) (startBlock collision)), (Z.leb_spec (startBlock collision + blockCount collision) s); cbn in *; lia || done.
Qed.

(** The collision is free, so a search over it finds it or something before it. *)
Lemma not_past_collision cur collision start ending trust bound :
  colliding cur collision -> no_run_before v0 flags start ending minBlocks use trust bound ->
  table_right v0 flags trust -> start <= startBlock collision < bound -> startBlock collision + minBlocks <= ending ->
  outside_zone v0 use start ending (startBlock collision) -> False.
Proof.
  intros [[R1 R2 R3 R4] _ _ _] Hno Ht Hb He Ho. destruct (Hno Htry Ht (startBlock collision) Hb He Ho) as (b & Hb1 & Hu).
  rewrite (R4 b) in Hu by lia. done.
Qed.

(** After the first collision the search does not come back to where it was. *)
Lemma round_progress cur collision s n :
  colliding cur collision -> 0 <= cur <= limit -> round_run cur s n ->
  s + n <= startBlock collision \/ startBlock collision + blockCount collision <= s ->
  forall next, s < next <= s + n -> measure next collision < measure cur collision.
Proof.
  intros Hco Hcur Hround Hap next Hnext. pose proof Hco as [[R1 R2 R3 R4] _ Hz Hh]. unfold measure.
  assert (0 <= s /\ 0 < n) as [Hs0 Hn0] by (destruct Hround as [[[F1 F2 F3 F4] _ _]|(_ & _ & [[F1 F2 F3 F4] _ _])]; lia).
  destruct (Z.eqb_spec (startBlock collision) 0); [lia|]. destruct (Z.leb_spec cur (startBlock collision)) as [Hle|Hgt].
  - assert (outside_zone v0 use cur limit (startBlock collision)) as Ho.
    { destruct Hz as [?|[?|Hz]]; [by left|right; by left|]. destruct Hh as [?|[?|Hh]]; [by left|right; by left|]. right. right. lia. }
    assert (s <= startBlock collision /\ cur <= s) as [Hs1 Hs2].
    { destruct Hround as [[[F1 F2 F3 F4] _ Hfirst]|(_ & Hfull & _)].
      - split; [|done]. destruct (Z.le_gt_cases s (startBlock collision)); [done|]. exfalso.
        apply (not_past_collision cur collision cur limit true s Hco Hfirst Htable); [lia|lia|done].
      - exfalso. apply (not_past_collision cur collision cur limit true limit Hco Hfull Htable); [lia|lia|done]. }
    destruct (Z.leb_spec next (startBlock collision)); lia.
  - destruct (Z.leb_spec next (startBlock collision)); [lia|].
    destruct Hround as [[[F1 F2 F3 F4] _ _]|(Hne & _ & [[F1 F2 F3 F4] _ Hfirst])]; [lia|]. exfalso.
    apply (not_past_collision cur collision 1 (wrapped cur) false s Hco Hfirst no_table_right); [lia|destruct (has_flag v0 HFS_SUMMARY_TABLE); lia|].
    destruct Hz as [?|[?|Hz]]; [by left|right; by left|]. right. right. split; [done|]. intros _.
    destruct (has_flag v0 HFS_SUMMARY_TABLE); lia.
Qed.

Lemma round_run_ok cur s n :
  0 <= cur <= limit -> round_run cur s n -> contig_run v0 flags 1 limit minBlocks maxBlocks s n /\ past_zone s.
Proof.
  intros Hc Hround. assert (used v0 flags 0 = true) as H0.
  { unfold used, seen. cbn [vb_words vbm_of]. by rewrite (li_first v0 (vk_limits v0 Hv0)). }
  assert (forall s n, 0 <= s -> minBlocks <= n -> free_run v0 flags s n -> 1 <= s) as Hpos.
  { intros s' n' Hs' Hn' Hf. destruct (Z.eq_dec s' 0) as [->|]; [|lia]. rewrite (Hf 0) in H0 by lia. done. }
  destruct Hround as [[[F1 F2 F3 F4] Hz _]|(_ & _ & [[F1 F2 F3 F4] Hz _])].
  - split; [|by eapply outside_past]. split; [apply (Hpos s n); done || lia|done|done|done].
  - split; [|by eapply outside_past]. split; [done|done|destruct (has_flag v0 HFS_SUMMARY_TABLE); lia|done].
Qed.

Lemma find_contig_loop_ok fuel : forall v cur collision,
  searched flags v0 v -> 0 <= cur <= limit -> cur < 32 * words_total v0 ->
  startBlock collision = 0 \/ colliding cur collision -> measure cur collision < Z.of_nat fuel ->
  exists err ext v', find_contig_loop minBlocks maxBlocks flags cur collision fuel v = Some ((err, ext), v') /\ searched flags v0 v' /\
    search_result v0 contig_found ((startBlock collision = 0 /\ round_full cur) \/
      exists s n, contig_run v0 flags 1 limit minBlocks maxBlocks s n /\ run_pending s n) err ext.
Proof.
  pose proof (vk_limits v0 Hv0) as [Hl1 Hl2 Hl3 _ _ _].
  induction fuel as [|fuel IH]; intros v cur collision Hs Hc Hw Hcol Hf.
  { unfold measure in Hf. exfalso. destruct (startBlock collision =? 0), (cur <=? startBlock collision); lia. }
  rewrite find_contig_step. destruct (find_round_ok v cur Hs Hc Hw) as (err & ext & v1 & -> & Hs1 & Hr).
  destruct Hr as [s n Hround|ext Hfull|err ext Hne Hin].
  2:{ eexists _, _, v1. split; [done|]. split; [done|]. apply SearchFull. destruct Hcol as [?|[]]; [by left|]. right. by eexists _, _. }
  2:{ destruct (Z.eqb_spec err noErr); [done|]. eexists _, _, v1. split; [done|]. split; [done|]. by apply SearchIO. }
  change (negb (noErr =? noErr)) with false. cbn match. destruct (round_run_ok cur s n Hc Hround) as [Hrun Hz].
  pose proof Hrun as [R1 R2 R3 R4]. cbn [startBlock blockCount].
  destruct (negb (startBlock collision =? 0) && extents_overlap s n (startBlock collision) (blockCount collision)) eqn:Eov.
  { apply andb_true_iff in Eov as [Ec Eo]. apply negb_true_iff, Z.eqb_neq in Ec. destruct Hcol as [|Hco]; [done|].
    pose proof Hco as [C1 C2 _ _]. destruct (ISSET flags HFS_ALLOC_FLUSHTXN) eqn:Efl.
    - destruct collision as [c cn]. eexists _, _, v1. split; [done|]. split; [done|]. apply SearchRun. split; [done|congruence].
    - eexists _, _, v1. split; [done|]. split; [done|]. apply SearchFull. right. by eexists _, _. }
  unfold mbind at 1, V_bind at 1, get_vol. rewrite (searched_check flags v0 v1) by done.
  destruct (CheckUnmappedBytes_ok v0 s n Hv0 ltac:(lia) ltac:(lia) ltac:(lia)) as (freed & next & -> & Hno & Hyes).
  change (0 =? 0) with true. cbn [andb]. destruct freed.
  2:{ destruct (Z.eqb_spec s 0); [lia|]. cbn [andb]. eexists _, _, v1. split; [done|]. split; [done|]. apply SearchRun. split; [done|].
      intros _ (b & Hb & Hp). by apply (Hno eq_refl b). }
  destruct (Hyes eq_refl) as (Hnext & Hpend & _).
  assert (run_pending s n) as Hrp by (exists (next - 1); split; [lia|done]).
  assert (past_zone next) as Hzn by (destruct Hz as [?|[?|Hz]]; [by left|right; by left|right; right; lia]).
  pose proof (free_edge v0 flags (next - 1) Hv0 ltac:(lia) (R4 (next - 1) ltac:(lia))) as Hedge.
  destruct (Z.eqb_spec (startBlock collision) 0) as [E0|E0].
  - destruct (IH v1 next (mkExtent s n) Hs1 ltac:(lia) ltac:(lia)) as (err & ext & v2 & E & Hs2 & Hr2).
    + right. by split.
    + unfold measure in *. cbn [startBlock]. rewrite E0 in Hf. cbn [Z.eqb] in Hf. destruct (Z.eqb_spec s 0), (Z.leb_spec next s); lia.
    + exists err, ext, v2. split; [done|]. split; [done|]. revert Hr2. apply search_result_mono; [done|].
      intros [[? _]|?]; [cbn [startBlock] in *; lia|by right].
  - destruct Hcol as [|Hco]; [done|]. cbn [negb andb] in Eov. pose proof Hco as [[C1 C2 C3 C4] C5 C6 C7].
    pose proof (overlap_apart s n collision ltac:(lia) ltac:(lia) R3 C3 ltac:(lia) ltac:(lia) Eov) as Hap.
    pose proof (round_progress cur collision s n Hco Hc Hround Hap next Hnext).
    destruct (IH v1 next collision Hs1 ltac:(lia) ltac:(lia)) as (err & ext & v2 & E & Hs2 & Hr2); [right; by split|lia|].
    exists err, ext, v2. split; [done|]. split; [done|]. revert Hr2. apply search_result_mono; [done|]. intros [[? _]|?]; [done|by right].
Qed.

(** The extent is left alone when there is no run. *)
Lemma BlockFindContig_ok v start ext0 :
  searched flags v0 v -> 0 <= start < limit ->
  exists err ext v', BlockFindContig start minBlocks maxBlocks flags ext0 v = Some ((err, ext), v') /\ searched flags v0 v' /\
    search_result v0 contig_found (contig_gives_up start) err ext.
Proof.
  intros Hs Hst. pose proof (vk_limits v0 Hv0) as [Hl1 Hl2 _ _ _ _]. pose proof (searched_same flags v0 v Hs) as (Ea & _).
  unfold BlockFindContig, mbind at 1, V_bind at 1, get_vol at 1. rewrite Ea.
  destruct (find_contig_loop_ok (S (S (2 * Z.to_nat limit))) v start (mkExtent 0 0)) as (err & ext & v' & E & Hs' & Hr); [done|lia|lia|by left|unfold measure; cbn; lia|].
  unfold mbind at 1, V_bind at 1. rewrite E.
  exists err, (if err =? noErr then ext else ext0), v'. split; [done|]. split; [done|].
  destruct Hr as [s n Hr|ext Hr|err ext Hne Hin].
  - by apply SearchRun.
  - apply SearchFull. destruct Hr as [[_ ?]|?]; [by left|by right].
  - by apply SearchIO.
Qed.
End FindContig.

