(* ===== verification/AllocInv.v ===== *)
(** * The invariant of the block allocator (core/VolumeAllocation.c)

    [alloc_inv]: no block in the free extent cache is in use, no block that waits for a
    trim is in use, and the summary table calls no bitmap block full that is not.  The
    steps the allocator is made of keep it: marking blocks, freeing blocks, telling the
    journal, and the changes to the cache and the summary table. *)

From S2P Require Import Prelude HfsFormat RangeList FreeExtCache Bitmap BitmapBits BitmapWalk BitmapMark BitmapFree BitmapReserve BitmapProps JournalTrim JournalTrimProps Volume VolumeOps BlockSearch VolumeProps.

Definition memory_ok (v : vol) : Prop := forall j, vo_jnl v = Some j -> false ∉ jt_memory j.

Record alloc_inv (v : vol) : Prop := {
  av_ok : vol_ok v;
  (* the search of the trim lists adds two indexes *)
  av_size : vo_totalBlocks v <= 2 ^ 31;
  av_cache : forall b, cached_in (vo_cache v) b -> used v 0 b = false;
  av_pending : forall b, 0 <= b -> pending_block v b -> used v 0 b = false;
  av_summary : has_flag v HFS_SUMMARY_TABLE = true -> summary_sound v;
  (* no allocation of memory for the trim lists fails *)
  av_memory : memory_ok v;
}.

(** ** What an operation leaves as it is *)

(** The counts an allocation or a free keeps; the hints for the next search stay block
    numbers. *)
Record kept_counts (c c' : counts) : Prop := {
  kc_tentative : tentativeBlocks c' = tentativeBlocks c;
  kc_locked : lockedBlocks c' = lockedBlocks c;
  kc_loaned : loanedBlocks c' = loanedBlocks c;
  kc_reserve : reserveBlocks c' = reserveBlocks c;
  kc_next : 0 <= nextAllocation c -> 0 <= nextAllocation c';
  kc_sparse : 0 <= sparseAllocation c -> 0 <= sparseAllocation c';
  kc_free : 0 <= freeBlocks c <= UINT32_MAX -> 0 <= freeBlocks c' <= UINT32_MAX;
}.

#[export] Instance kept_counts_preorder : PreOrder kept_counts.
Proof. split; [by intros c|]. intros c1 c2 c3 [A1 A2 A3 A4 A5 A6 A7] [B1 B2 B3 B4 B5 B6 B7]. split; [congruence..|auto|auto|auto]. Qed.

(** The same volume but for what is allocated. *)
Record same_shape (v v' : vol) : Prop := {
  ss_total : vo_totalBlocks v' = vo_totalBlocks v;
  ss_geom : vo_geom v' = vo_geom v;
  ss_reserved : vo_reserved v' = vo_reserved v;
  ss_mount : same_mount (vo_cache v) (vo_cache v');
  ss_counts : kept_counts (vo_counts v) (vo_counts v');
  ss_io : forall e, e ∈ bm_io (vo_bitmap v') -> e ∈ bm_io (vo_bitmap v);
}.

#[export] Instance same_shape_preorder : PreOrder same_shape.
Proof.
  split; [by intros v|]. intros v1 v2 v3 [A1 A2 A3 [A4 A4'] A5 A6] [B1 B2 B3 [B4 B4'] B5 B6].
  split; [congruence..|split; congruence|by transitivity (vo_counts v2)|auto].
Qed.

Lemma same_shape_limit v v' : same_shape v v' -> vo_allocLimit v' = vo_allocLimit v.
Proof. by intros [_ _ _ [_ ?] _ _]. Qed.

Lemma same_shape_flag v v' f : same_shape v v' -> has_flag v' f = has_flag v f.
Proof. intros [_ _ _ [E _] _ _]. unfold has_flag, vo_flags. by rewrite E. Qed.

Lemma same_shape_counts v v' c m :
  same_shape v v' -> same_mount (vo_cache v') m -> kept_counts (vo_counts v') c -> same_shape v (with_counts c (with_cache m v')).
Proof.
  intros [H1 H2 H3 [H4 H4'] H5 H6] [M1 M2] Hc. split; [done|done|done| | |done].
  - split; cbn; congruence.
  - cbn [vo_counts with_counts]. by transitivity (vo_counts v').
Qed.

(** ** The trim lists *)

Section Whole.
Context (v : vol) (Hg : geom_ok v).
Local Notation P := (hfsPlusIOPosOffset (vo_geom v)).
Local Notation B := (blockSize (vo_geom v)).

(** A byte where a block starts, or the volume ends. *)
Definition at_edge (x : Z) : Prop := exists s, 0 <= s <= vo_totalBlocks v /\ x = P + s * B.

Lemma whole_blocks_ends e : dk_ok e -> whole_blocks v e <-> at_edge (de_offset e) /\ at_edge (dk_end e).
Proof.
  intros He. destruct Hg as [H1 H2 H3 H4]. split.
  - intros (s & n & G1 & G2 & G3 & G4 & G5). split; [exists s; split; [lia|done]|]. exists (s + n). split; [lia|]. unfold dk_end. lia.
  - intros [(s & Hs & E1) (t & Ht & E2)]. exists s, (t - s). unfold dk_ok, dk_end in *. split; [lia|]. split; [nia|]. split; [lia|]. split; [done|]. lia.
Qed.

Lemma whole_blocks_new l l' offset end_ :
  Forall dk_ok l -> Forall dk_ok l' -> new_ends offset end_ l l' -> at_edge offset -> at_edge end_ -> Forall (whole_blocks v) l -> Forall (whole_blocks v) l'.
Proof.
  intros Hl Hl' Hn H1 H2 Hw. rewrite Forall_forall in Hl, Hl', Hw |- *. intros e He. apply whole_blocks_ends; [by apply Hl'|].
  assert (forall x, ends l' x -> at_edge x) as Hends.
  { intros x Hx. destruct (Hn x Hx) as [(e' & He' & Hx')|[->| ->]]; [|done|done].
    specialize (Hw e' He'). apply whole_blocks_ends in Hw as [? ?]; [|by apply Hl]. by destruct Hx' as [->| ->]. }
  split; apply Hends; exists e; auto.
Qed.

(** A list of whole blocks is not longer than the volume. *)
Lemma whole_blocks_count l : forall lo, trim_ok l -> Forall (whole_blocks v) l -> lo <= vo_totalBlocks v ->
  (forall e, e ∈ l -> P + lo * B <= de_offset e) -> Z.of_nat (length l) <= vo_totalBlocks v - lo.
Proof.
  destruct Hg as [H1 H2 H3 H4]. induction l as [|e l IH]; intros lo Hl Hw Hlo Hge; [cbn; lia|].
  apply trim_ok_cons in Hl as (He & Hl & Hb). apply Forall_cons in Hw as [(s & n & G1 & G2 & G3 & G4 & G5) Hw].
  pose proof (Hge e ltac:(left)) as He0. specialize (IH (s + n) Hl Hw ltac:(lia)).
  assert (lo <= s) by nia. cbn [length]. enough (Z.of_nat (length l) <= vo_totalBlocks v - (s + n)) by lia. apply IH.
  intros e' He'. rewrite Forall_forall in Hb. specialize (Hb e' He'). unfold before, dk_end in Hb. lia.
Qed.

Lemma whole_blocks_bound l : vo_totalBlocks v <= 2 ^ 31 -> 0 <= vo_totalBlocks v -> trim_ok l -> Forall (whole_blocks v) l -> Z.of_nat (length l) <= 2 ^ 31.
Proof.
  intros Hmax H0 Hl Hw. pose proof (whole_blocks_count l 0 Hl Hw H0) as Hc. enough (Z.of_nat (length l) <= vo_totalBlocks v - 0) by lia.
  apply Hc. intros e He. rewrite Forall_forall in Hw. destruct (Hw e He) as (s & n & ?). destruct Hg. nia.
Qed.
End Whole.

(** The same volume but for the journal's lists. *)
Record jnl_step (v v' : vol) : Prop := {
  js_state : exists j, v' = with_jnl j v;
  js_jnl : jnl_ok v';
  js_memory : memory_ok v';
  js_some : vo_jnl v' = None <-> vo_jnl v = None;
}.

Lemma jnl_step_refl v : vol_ok v -> memory_ok v -> jnl_step v v.
Proof. intros Hv Hm. split; [exists (vo_jnl v); by destruct v|apply Hv|done|done]. Qed.

Lemma jnl_step_ok v v' : vol_ok v -> jnl_step v v' -> vol_ok v'.
Proof. intros [H1 [] [] H4 H5 H6] [(j & ->) Hj _ _]. split; [done|by split|by split|done..]. Qed.

Section Trim.
Context (v : vol) (Hv : vol_ok v) (Hsize : vo_totalBlocks v <= 2 ^ 31) (Hmem : memory_ok v).
Context (s n : Z) (Hs : 0 <= s) (Hn : 0 < n) (Hle : s + n <= vo_totalBlocks v).
Local Notation P := (hfsPlusIOPosOffset (vo_geom v)).
Local Notation B := (blockSize (vo_geom v)).

Lemma run_bytes :
  block_offset (vo_geom v) s = P + s * B /\ block_bytes (vo_geom v) n = n * B /\ 0 <= P + s * B /\ 0 < n * B /\ P + s * B + n * B < 2 ^ 64 /\
  P + s * B + n * B <= hfs_logical_bytes (vo_geom v).
Proof.
  rewrite (block_offset_ok v s Hv), (block_bytes_ok v n Hv) by lia. destruct (vk_geom v Hv) as [H1 H2 H3 H4].
  assert (s * B + n * B <= vo_totalBlocks v * B) by nia. split; [done|]. split; [done|]. split; [nia|]. split; [nia|]. split; nia.
Qed.

Lemma run_edges : at_edge v (P + s * B) /\ at_edge v (P + s * B + n * B).
Proof. split; [exists s|exists (s + n)]; lia. Qed.

Lemma in_run_bytes b : P + s * B <= P + b * B < P + s * B + n * B <-> s <= b < s + n.
Proof. destruct (vk_geom v Hv) as [H1 _ _ _]. split; intros ?; nia. Qed.

Lemma jnl_new j j' :
  vo_jnl v = Some j -> trim_ok (tl_extents (jt_active j')) -> (forall t, jt_async j' = Some t -> trim_ok (tl_extents t)) ->
  Forall (whole_blocks v) (trims j') -> jt_invalid j' = false -> jt_memory j' ⊆ jt_memory j ->
  jnl_step v (with_jnl (Some j') v).
Proof.
  intros Ej Ha Has Hw Hinv Hsub. pose proof (vk_limits v Hv) as [Hl1 _ _ _ _ _]. unfold trims in Hw. apply Forall_app in Hw as [Hw1 Hw2]. split.
  - by exists (Some j').
  - intros j0 [= <-]. split; [|split; [done|by apply Forall_app]]. split; [done| |].
    + intros t Et. split; [by apply Has|]. apply (whole_blocks_bound v (vk_geom v Hv)); [done|lia|by apply Has|]. by rewrite Et in Hw2.
    + apply (whole_blocks_bound v (vk_geom v Hv)); done || lia.
  - intros j0 [= <-] Hf. by apply (Hmem j Ej), Hsub.
  - by rewrite Ej.
Qed.

Lemma jnl_lists j : vo_jnl v = Some j -> trim_ok (tl_extents (jt_active j)) /\ (forall t, jt_async j = Some t -> trim_ok (tl_extents t)).
Proof. intros Ej. destruct (vk_jnl v Hv j Ej) as ([H1 H2 H3] & _ & _). split; [done|]. intros t Et. by apply H2. Qed.

Lemma trims_ok j : trim_ok (tl_extents (jt_active j)) -> (forall t, jt_async j = Some t -> trim_ok (tl_extents t)) -> Forall dk_ok (trims j).
Proof.
  intros Ha Has. unfold trims. apply Forall_app. split; [apply Ha|]. destruct (jt_async j) as [t|]; [by apply Has|by apply Forall_nil].
Qed.

(** Blocks that are in use again are not to be trimmed. *)
Lemma hfs_unmap_alloc_extent_ok :
  exists v', hfs_unmap_alloc_extent s n v = Some (tt, v') /\ jnl_step v v' /\
    forall b, pending_block v' b <-> pending_block v b /\ ~ s <= b < s + n.
Proof.
  destruct run_bytes as (Eo & El & H0 & H1 & H2 & _). destruct run_edges as [He1 He2].
  unfold hfs_unmap_alloc_extent, on_trim, mbind, V_bind, get_vol. rewrite Eo, El. destruct (vo_jnl v) as [j|] eqn:Ej.
  2:{ exists v. split; [done|]. split; [by apply jnl_step_refl|]. intros b. unfold pending_block. rewrite Ej. split; [by intros (? & ? & _)|by intros [(? & ? & _) _]]. }
  destruct (vk_jnl v Hv j Ej) as (Hj & Hinv & Hw). destruct (jnl_lists j Ej) as [Ha Has].
  pose proof (journal_trim_remove_extent_spec j (P + s * B) (n * B) Hj Hinv H0 H1 H2) as Hr.
  destruct (journal_trim_remove_extent j (P + s * B) (n * B)) as [err j']. destruct Hr as (Ha' & Has' & Hr).
  destruct Hr as [(-> & Hp & Hends & Hsub & Hinv')|(_ & Hf & _)]; [|by destruct (Hmem j Ej)].
  exists (with_jnl (Some j') v). split; [done|]. split.
  - apply (jnl_new j); try done. by apply (whole_blocks_new v (vk_geom v Hv) (trims j) _ (P + s * B) (P + s * B + n * B)); [by apply trims_ok|by apply trims_ok|..].
  - intros b. unfold pending_block. cbn [vo_jnl with_jnl vo_geom]. rewrite <-in_run_bytes. split.
    + intros (j0 & [= <-] & Hpb). apply Hp in Hpb as [Hpb Hb]. split; [by exists j|done].
    + intros [(j0 & Ej0 & Hpb) Hb]. rewrite Ej in Ej0. injection Ej0 as <-. exists j'. split; [done|]. by apply Hp.
Qed.

(** Blocks that are free are to be trimmed. *)
Lemma hfs_unmap_free_extent_ok :
  exists v', hfs_unmap_free_extent s n v = Some (tt, v') /\ jnl_step v v' /\
    (vo_jnl v = None -> v' = v) /\
    (is_Some (vo_jnl v) -> forall b, pending_block v' b <-> pending_block v b \/ s <= b < s + n).
Proof.
  destruct run_bytes as (Eo & El & H0 & H1 & H2 & H3). destruct run_edges as [He1 He2].
  unfold hfs_unmap_free_extent, mbind at 1, V_bind at 1, get_vol. rewrite Eo, El. unfold u64. rewrite wrap_id by lia.
  destruct (Z.leb_spec (hfs_logical_bytes (vo_geom v)) (P + s * B)); [lia|].
  destruct (Z.ltb_spec (hfs_logical_bytes (vo_geom v)) (P + s * B + n * B)); [lia|]. cbn [orb].
  unfold on_trim, mbind, V_bind, get_vol. destruct (vo_jnl v) as [j|] eqn:Ej.
  2:{ exists v. split; [done|]. split; [by apply jnl_step_refl|]. split; [done|by intros []]. }
  destruct (vk_jnl v Hv j Ej) as (Hj & Hinv & Hw). destruct (jnl_lists j Ej) as [Ha Has].
  pose proof (journal_trim_add_extent_spec j (P + s * B) (n * B) Ha Hinv H0 H1 H2) as Hr.
  destruct (journal_trim_add_extent j (P + s * B) (n * B)) as [err j']. destruct Hr as (Eas & Ha' & Hr).
  destruct Hr as [(-> & Hp & Hends & Hsub & Hinv')|(_ & _ & Hf)]; [|destruct (Hmem j Ej); rewrite Hf; left].
  exists (with_jnl (Some j') v). split; [done|]. rewrite <-Eas in Has. split; [|split; [done|]].
  - apply (jnl_new j); try done.
    apply (whole_blocks_new v (vk_geom v Hv) (trims j) _ (P + s * B) (P + s * B + n * B)); [by apply trims_ok; [|rewrite <-Eas]|by apply trims_ok| |done..].
    unfold trims. rewrite Eas. by apply new_ends_app; [|apply new_ends_refl].
  - intros _ b. unfold pending_block. cbn [vo_jnl with_jnl vo_geom]. rewrite <-in_run_bytes. unfold pending in *. split.
    + intros (j0 & [= <-] & [Hpb|(t & Et & Hpb)]).
      * apply Hp in Hpb as [Hpb|Hpb]; [left; exists j; auto|by right].
      * left. exists j. split; [done|]. right. exists t. by rewrite <-Eas.
    + intros [(j0 & Ej0 & Hpb)|Hpb].
      * rewrite Ej in Ej0. injection Ej0 as <-. exists j'. split; [done|]. destruct Hpb as [Hpb|(t & Et & Hpb)].
        -- left. apply Hp. by left.
        -- right. exists t. by rewrite Eas.
      * exists j'. split; [done|]. left. apply Hp. by right.
Qed.
End Trim.

(** ** Bits *)

Lemma vbm_of_with s' v : same_volume (vbm_of v) s' -> vbm_of (with_vbm s' v) = s'.
Proof.
  intros [_ _ _ Ht Hl _ _]. destruct s' as [w i t ten loc inc io]. cbn in Ht, Hl. subst ten loc. done.
Qed.

Lemma used_with s' v flags b :
  same_volume (vbm_of v) s' -> used (with_vbm s' v) flags b = bit_at (vb_words s') b || in_ranges (ranges_of (vbm_of v) (reservations_of flags)) b.
Proof.
  intros Hs. unfold used. rewrite vbm_of_with by done. unfold seen. f_equal. destruct Hs as [_ _ _ Ht Hl _ _].
  unfold ranges_of. rewrite Ht, Hl. done.
Qed.

Lemma used_bit v flags b : used v flags b = bit_at (bm_words (vo_bitmap v)) b || in_ranges (ranges_of (vbm_of v) (reservations_of flags)) b.
Proof. done. Qed.

(** The bitmap is another one, of the same volume. *)
Lemma vol_ok_bits v s' :
  vol_ok v -> same_volume (vbm_of v) s' -> bit_at (vb_words s') 0 = true -> bit_at (vb_words s') (vo_totalBlocks v - 1) = true ->
  vol_ok (with_vbm s' v).
Proof.
  intros [[_ Hr] [Hl1 Hl2 Hl3 Hl4 Hl5 Hl6] [] H4 H5 H6] Hs Hb0 Hlast.
  pose proof (vbm_of_with s' v Hs) as Ev. destruct Hs as [Hok Hlen Htot Ht Hl Hi _].
  assert (bm_iosize (vo_bitmap (with_vbm s' v)) = bm_iosize (vo_bitmap v)) as Ei by exact Hi.
  assert (vo_totalBlocks (with_vbm s' v) = vo_totalBlocks v) as Et by exact Htot.
  assert (words_total (with_vbm s' v) = words_total v) as Ew by (unfold words_total; cbn; cbn in Hlen; lia).
  assert (block_bits (with_vbm s' v) = block_bits v) as Eb by (unfold block_bits, bitsPerBlock; rewrite Ev; cbn; by rewrite Hi).
  split.
  - unfold bitmap_ok. rewrite Ev, Ht, Hl. by split.
  - split; rewrite ?Et, ?Ew; done.
  - split; rewrite ?Et; done.
  - intros j Ej. destruct (H4 j Ej) as (Hj & Hinv & Hw). split; [done|]. split; [done|].
    eapply Forall_impl; [exact Hw|]. intros e (s & n & G1 & G2 & G3 & G4). exists s, n. rewrite Et. auto.
  - intros Hf b Hb. rewrite Eb. rewrite Et in Hb. by apply H5.
  - done.
Qed.

(** Marking a run of blocks in use. *)
Record marked (s n : Z) (v v' : vol) : Prop := {
  mk_ok : vol_ok v';
  mk_memory : memory_ok v';
  mk_frame : vo_cache v' = vo_cache v /\ vo_summary v' = vo_summary v /\ vo_reserved v' = vo_reserved v /\ vo_counts v' = vo_counts v /\
    vo_geom v' = vo_geom v;
  mk_volume : vo_totalBlocks v' = vo_totalBlocks v /\ block_bits v' = block_bits v /\
    bm_inconsistent (vo_bitmap v') = bm_inconsistent (vo_bitmap v);
  mk_kept : forall b, 0 <= b -> bit_at (bm_words (vo_bitmap v)) b = true -> bit_at (bm_words (vo_bitmap v')) b = true;
  mk_other : forall b, 0 <= b -> ~ s <= b < s + n -> bit_at (bm_words (vo_bitmap v')) b = bit_at (bm_words (vo_bitmap v)) b;
  mk_pending : forall b, pending_block v' b <-> pending_block v b /\ ~ s <= b < s + n;
  mk_io : forall e, e ∈ bm_io (vo_bitmap v') -> e ∈ bm_io (vo_bitmap v);
  mk_ranges : forall flags b, in_ranges (ranges_of (vbm_of v') (reservations_of flags)) b = in_ranges (ranges_of (vbm_of v) (reservations_of flags)) b;
}.

Lemma marked_shape s n v v' : marked s n v v' -> same_shape v v'.
Proof. intros [_ _ (Ec & Es & Er & Eco & Eg) (Et & _) _ _ _ Hio _]. split; [done|done|done|by rewrite Ec|by rewrite Eco|done]. Qed.

Lemma in_run_iff s n b : in_run s n b = true <-> s <= b < s + n.
Proof. unfold in_run. rewrite andb_true_iff, Z.leb_le, Z.ltb_lt. lia. Qed.
Lemma in_run_not s n b : in_run s n b = false <-> ~ s <= b < s + n.
Proof. rewrite <-in_run_iff. by rewrite not_true_iff_false. Qed.

Lemma mark_allocated_ok v s n flags :
  vol_ok v -> vo_totalBlocks v <= 2 ^ 31 -> memory_ok v -> 0 <= s -> 0 < n -> s + n <= vo_totalBlocks v ->
  ISSET flags (Z.lor HFS_ALLOC_LOCKED HFS_ALLOC_TENTATIVE) = false ->
  exists err v', mark_allocated s n flags v = Some (err, v') /\ marked s n v v' /\
    (err = noErr \/ err ∈ bm_io (vo_bitmap v)) /\
    (err = noErr -> forall b, s <= b < s + n -> bit_at (bm_words (vo_bitmap v')) b = true).
Proof.
  intros Hv Hsize Hmem Hs Hn Hle Hflags. pose proof (vk_limits v Hv) as [Hl1 Hl2 Hl3 Hfirst _ Hlast].
  unfold mark_allocated. rewrite Hflags. unfold mbind at 1, V_bind at 1, get_vol.
  destruct (CheckUnmappedBytes_ok v s n Hv Hs Hn Hle) as (freed & e & -> & _). change (0 =? 0) with true. cbn [andb].
  assert (exists v1, when freed (_ ← on_trim (fun j => (0, journal_request_immediate_flush j)); mret tt) v = Some (tt, v1) /\ jnl_step v v1 /\
    forall b, pending_block v1 b <-> pending_block v b) as (v1 & E1 & Hs1 & Hp1).
  { destruct freed; [|exists v; split; [done|]; split; [by apply jnl_step_refl|done]].
    unfold when, on_trim, mbind, V_bind, get_vol. destruct (vo_jnl v) as [j|] eqn:Ej.
    - exists (with_jnl (Some (journal_request_immediate_flush j)) v). split; [done|]. destruct (vk_jnl v Hv j Ej) as ([Ha Has Hc] & Hinv & Hw). split.
      + split; [by eexists| | |].
        * intros j0 [= <-]. by split.
        * intros j0 [= <-]. by apply (Hmem j).
        * by rewrite Ej.
      + intros b. unfold pending_block. cbn [vo_jnl with_jnl vo_geom]. rewrite Ej. split; intros (j0 & [= <-] & Hb); by eexists.
    - exists v. split; [done|]. split; [by apply jnl_step_refl|done]. }
  unfold mbind at 1, V_bind at 1. rewrite E1. pose proof (jnl_step_ok v v1 Hv Hs1) as Hv1. destruct Hs1 as [(j1 & ->) Hj1 Hm1 _].
  destruct (hfs_unmap_alloc_extent_ok (with_jnl j1 v) Hv1 Hsize Hm1 s n Hs Hn Hle) as (v2 & E2 & Hs2 & Hp2).
  unfold mbind, V_bind. rewrite E2. pose proof (jnl_step_ok _ v2 Hv1 Hs2) as Hv2. destruct Hs2 as [(j2 & ->) Hj2 Hm2 _].
  set (v2 := with_jnl j2 (with_jnl j1 v)) in *. unfold on_bitmap. change (vbm_of v2) with (vbm_of v).
  destruct Hv2 as [[Hok Hr] Hlim2 Hg2 Hjo2 Hsu2 Hc2].
  destruct (BlockMarkAllocated_outcome (vbm_of v) s n Hok) as (err & s' & E & Hsame & Hinc & Herr & Hbits & Hset).
  { unfold run_ok. unfold words_total in *. cbn [vb_words vbm_of]. lia. }
  unfold BlockMarkAllocated in E. rewrite E. exists err, (with_vbm s' v2). split; [done|].
  assert (forall b, 0 <= b -> bit_at (bm_words (vo_bitmap v)) b = true -> bit_at (vb_words s') b = true) as Hkept.
  { intros b Hb Hbit. rewrite Hbits by done. cbn [vb_words vbm_of]. rewrite Hbit. destruct (in_run s n b); [apply orb_true_r|done]. }
  split; [|split; [done|]; intros He b Hb; apply Hset; [done|by apply in_run_iff]].
  split.
  - apply (vol_ok_bits v2 s'); [by split|done|by apply Hkept|apply Hkept; [unfold v2, vo_totalBlocks in *; cbn; lia|done]].
  - done.
  - done.
  - split; [apply Hsame|]. split; [|done]. unfold block_bits. rewrite (vbm_of_with s' v2) by done. unfold bitsPerBlock. by rewrite (sv_iosize _ _ Hsame).
  - done.
  - intros b Hb Hout. cbn [vo_bitmap with_vbm with_bitmap bm_words]. rewrite Hbits by done. by rewrite (proj2 (in_run_not s n b) Hout).
  - intros b. change (pending_block (with_vbm s' v2) b) with (pending_block v2 b). by rewrite Hp2, Hp1.
  - apply Hsame.
  - intros fl b. rewrite (vbm_of_with s' v2) by done. destruct Hsame as [_ _ _ Ht Hl _ _]. unfold ranges_of. by rewrite Ht, Hl.
Qed.
