(* ===== verification/AllocProps.v ===== *)
(** * Allocating blocks is right (core/VolumeAllocation.c)

    BlockAllocate gives blocks that were free and not reserved, marks exactly these and
    accounts for them; BlockDeallocate frees exactly the blocks it is given.  Both keep
    [alloc_inv], so that in any sequence of them no block is given twice. *)

From S2P Require Import Prelude HfsFormat RangeList FreeExtCache Bitmap BitmapBits BitmapWalk BitmapMark BitmapFree BitmapReserve BitmapProps JournalTrim JournalTrimProps Volume VolumeOps BlockSearch BlockAlloc VolumeProps BlockSearchProps ContigProps AllocSearchProps AllocInv.

(** ** Flags *)

(** Flags of an allocation of blocks for a file: no reservations are involved. *)
Definition plain_mask : Z := 0xBF0.
Definition plain (flags : Z) : Prop := Z.land flags plain_mask = 0.

Lemma plain_isset flags m : plain flags -> Z.land plain_mask m = m -> ISSET flags m = false.
Proof. unfold plain, ISSET. intros Hp <-. by rewrite Z.land_assoc, Hp, Z.land_0_l. Qed.

Lemma plain_set flags m : plain flags -> Z.land m plain_mask = 0 -> plain (SET flags m).
Proof. unfold plain, SET. intros Hp Hm. by rewrite Z.land_lor_distr_l, Hp, Hm. Qed.

Lemma plain_clr flags m : plain flags -> plain (CLR flags m).
Proof. unfold plain, CLR. intros Hp. by rewrite <-Z.land_assoc, (Z.land_comm (not32 m)), Z.land_assoc, Hp. Qed.

Lemma plain_used v flags b : plain flags -> used v flags b = used v 0 b.
Proof. intros Hp. unfold used, reservations_of. by rewrite !(plain_isset flags) by done. Qed.

Lemma searched_flags f1 f2 v v' : (forall b, used v f1 b = used v f2 b) -> searched f1 v v' -> searched f2 v v'.
Proof.
  intros Hu [(io & t & m & -> & H1 & H2 & H3 & H4)]. split. exists io, t, m. split; [done|]. split; [done|]. split; [done|]. split; [|done].
  intros i Hi Hb. destruct (H3 i Hi Hb) as [|Hf]; [by left|right]. intros b H0 Ed. rewrite <-Hu. by apply Hf.
Qed.

(** ** Accounting *)

Lemma alloc_inv_counts v c : alloc_inv v -> alloc_inv (with_counts c v).
Proof.
  intros [[H1 [] [] H4 H5 H6] ? ? ? ? ?]. split; [|done..]. split; [done|by split|by split|done..].
Qed.

Lemma searched_inv v v' : searched 0 v v' -> alloc_inv v -> alloc_inv v'.
Proof.
  intros Hs [H1 H2 H3 H4 H5 H6]. pose proof (searched_ok 0 v v' H1 Hs) as Hv'. pose proof (searched_sound 0 v v' Hs) as Hsound.
  pose proof (searched_flag 0 v v' HFS_SUMMARY_TABLE Hs) as Ef. pose proof (searched_same 0 v v' Hs) as (_ & _ & Ej & _ & _ & _ & _ & Et & _).
  split.
  - done.
  - unfold vo_totalBlocks in *. by rewrite Et.
  - intros b Hb. rewrite (searched_used 0 v v') by done. destruct Hs as [(io & t & m & -> & _ & _ & _ & [_ _ Hc])]. destruct (Hc b Hb) as [?|[? _]]; [by apply H3|done].
  - intros b Hb Hp. rewrite (searched_used 0 v v') by done. apply H4; [done|]. by apply (searched_pending 0 v v').
  - intros Hf. apply Hsound, H5. by rewrite <-Ef.
  - intros j Ej'. apply H6. by rewrite <-Ej.
Qed.

(** More blocks that are not used in the cache. *)
Lemma alloc_inv_cache v m :
  alloc_inv v -> cache_inv m -> same_mount (vo_cache v) m -> (forall b, cached_in m b -> cached_in (vo_cache v) b \/ used v 0 b = false) ->
  alloc_inv (with_cache m v).
Proof.
  intros [[G1 [L1 L2 L3 L4 L5 L6] [] G4 G5 G6] H2 H3 H4 H5 H6] Hm Hsm Hc.
  assert (has_flag (with_cache m v) HFS_SUMMARY_TABLE = has_flag v HFS_SUMMARY_TABLE) as Ef.
  { destruct Hsm as [Hfl _]. unfold has_flag, vo_flags. cbn. by rewrite Hfl. }
  split.
  - split; [done| |by split|done|intros Hf; apply G5; by rewrite <-Ef|done]. split; try done. destruct Hsm as [_ Hal]. unfold vo_allocLimit in *. cbn. by rewrite Hal.
  - done.
  - intros b Hb. change (used v 0 b = false). destruct (Hc b Hb) as [|]; [by apply H3|done].
  - exact H4.
  - rewrite Ef. exact H5.
  - exact H6.
Qed.

(** Marking blocks that are taken out of the cache. *)
Lemma alloc_inv_marked v v' s n m :
  alloc_inv v -> marked s n v v' -> cache_inv m -> same_mount (vo_cache v') m ->
  (forall b, cached_in m b -> cached_in (vo_cache v') b /\ ~ s <= b < s + n) -> alloc_inv (with_cache m v').
Proof.
  intros [H1 H2 H3 H4 H5 H6] [M1 M2 (Ec & Es & Er & Eco & Eg) (Et & Eb & Ei) M3 M4 M5 _ M6] Hm Hsm Hcache.
  assert (forall b, 0 <= b -> ~ s <= b < s + n -> used v' 0 b = used v 0 b) as Hu.
  { intros b Hb Hout. rewrite !used_bit. by rewrite M4, M6. }
  assert (has_flag (with_cache m v') HFS_SUMMARY_TABLE = has_flag v HFS_SUMMARY_TABLE) as Ef.
  { destruct Hsm as [Hfl _]. unfold has_flag, vo_flags. cbn. by rewrite <-Ec, Hfl. }
  assert (forall b, cached_in m b -> 0 <= b) as Hpos.
  { intros b (e & He & Hb). destruct Hm as [_ _ [Hok _ _]]. rewrite Forall_forall in Hok. specialize (Hok e He). unfold ext_ok, in_ext in *. lia. }
  destruct Hsm as [Hfl Hal]. split.
  - destruct M1 as [G1 [L1 L2 L3 L4 L5 L6] [] G4 G5 G6]. split; [done| |by split|done| |done].
    + split; try done. unfold vo_allocLimit in *. cbn. by rewrite Hal.
    + intros Hf. apply G5. unfold has_flag, vo_flags in *. cbn in Hf. by rewrite Hfl in Hf.
  - change (vo_totalBlocks v' <= 2 ^ 31). by rewrite Et.
  - intros b Hb. destruct (Hcache b Hb) as [Hb' Hout]. change (used v' 0 b = false). rewrite Hu; [|by apply Hpos|done]. apply H3. by rewrite <-Ec.
  - intros b Hb Hp. change (pending_block v' b) in Hp. apply M5 in Hp as [Hp Hout]. change (used v' 0 b = false). rewrite Hu by done. by apply H4.
  - rewrite Ef. intros Hf index Hi Hbit b Hb Ed. change (used v' 0 b = true). cbn in Hbit. rewrite Es in Hbit.
    change (b / block_bits v' = index) in Ed. rewrite Eb in Ed. specialize (H5 Hf index Hi Hbit b Hb Ed). rewrite used_bit in *.
    rewrite M6. apply orb_true_iff in H5 as [Hx|Hx]; [by rewrite M3|by rewrite Hx, orb_true_r].
  - done.
Qed.

Lemma searched_shape flags v v' : searched flags v v' -> same_shape v v'.
Proof.
  intros Hs. pose proof (searched_same flags v v' Hs) as (_ & Er & _ & Ec & Eg & _ & _ & Et & _ & Hio).
  split; [done|done|done| |by rewrite Ec|done]. by destruct Hs as [(io & t & m & -> & _ & _ & _ & [Hm _ _])].
Qed.

(** A step that only changes counts, not the one of free blocks. *)
Definition counts_step (m : V unit) : Prop :=
  forall v, exists c, m v = Some (tt, with_counts c v) /\ freeBlocks c = freeBlocks (vo_counts v) /\ kept_counts (vo_counts v) c.

Lemma counts_step_modify f : (forall c, freeBlocks (f c) = freeBlocks c /\ kept_counts c (f c)) -> counts_step (modify_counts f).
Proof. intros Hf v. exists (f (vo_counts v)). split; [done|apply Hf]. Qed.

Lemma counts_step_when b m : counts_step m -> counts_step (when b m).
Proof. intros Hm v. destruct b; [apply Hm|]. exists (vo_counts v). split; [by destruct v|done]. Qed.

(** The counts an allocation sets on its own. *)
Lemma kept_freed x c : kept_counts c (set_freed_block_count x c).
Proof. by split. Qed.
Lemma kept_free x c : kept_counts c (set_freeBlocks (u32 x) c).
Proof. split; try done. intros _. apply u32_bound. Qed.
Lemma kept_sparse x c : 0 <= x -> kept_counts c (set_sparseAllocation x c).
Proof. by split. Qed.
Lemma kept_next x c : 0 <= x -> kept_counts c (set_nextAllocation x c).
Proof. by split. Qed.
#[local] Hint Resolve kept_freed kept_free kept_sparse kept_next : core.

Lemma counts_step_bind m1 m2 : counts_step m1 -> counts_step m2 -> counts_step (_ ← m1; m2).
Proof.
  intros H1 H2 v. unfold mbind, V_bind. destruct (H1 v) as (c1 & -> & E1 & K1). destruct (H2 (with_counts c1 v)) as (c2 & -> & E2 & K2).
  exists c2. split; [done|]. split; [by rewrite E2|]. by transitivity c1.
Qed.

Lemma counts_step_get f : (forall v, counts_step (f v)) -> counts_step (v ← get_vol; f v).
Proof. intros Hf v. unfold mbind, V_bind, get_vol. apply Hf. Qed.

Lemma counts_step_next n : 0 <= n -> counts_step (HFS_UPDATE_NEXT_ALLOCATION n).
Proof. intros Hn. apply counts_step_get. intros v. apply counts_step_when, counts_step_modify. auto. Qed.

Lemma V_bind_assoc {A B C} (m : V A) (f : A -> V B) (g : B -> V C) v : (x ← (y ← m; f y); g x) v = (y ← m; x ← f y; g x) v.
Proof. unfold mbind, V_bind. by destruct (m v) as [[]|]. Qed.

Lemma vo_remove_free_extent_ok v start count :
  cache_inv (vo_cache v) -> 0 <= start -> 0 < count -> start + count <= UINT32_MAX ->
  exists m, vo_remove_free_extent start count v = Some (tt, with_cache m v) /\ cache_inv m /\ same_mount (vo_cache v) m /\
    (forall b, cached_in m b -> cached_in (vo_cache v) b /\ ~ start <= b < start + count).
Proof.
  intros Hi Hs Hc Hle. destruct (remove_free_extent_cache_spec (vo_cache v) start count Hi Hs Hc Hle) as (m & E & Hi' & Hm & Hb & _).
  exists m. unfold vo_remove_free_extent, mbind, V_bind, get_vol, vo_lift. rewrite E. done.
Qed.

Lemma alloc_account_ok v ext flags upd :
  plain flags -> cache_inv (vo_cache v) -> 0 <= startBlock ext -> 0 < blockCount ext -> startBlock ext + blockCount ext <= UINT32_MAX ->
  exists c m, alloc_account ext flags upd None v = Some ((None, None), with_counts c (with_cache m v)) /\ cache_inv m /\
    same_mount (vo_cache v) m /\
    (forall b, cached_in m b -> cached_in (vo_cache v) b /\ ~ startBlock ext <= b < startBlock ext + blockCount ext) /\
    freeBlocks c = (if ISSET flags HFS_ALLOC_SKIPFREEBLKS then freeBlocks (vo_counts v) else u32 (freeBlocks (vo_counts v) - blockCount ext)) /\
    kept_counts (vo_counts v) c.
Proof.
  intros Hp Hi Hs Hc Hle. unfold alloc_account. cbv zeta.
  rewrite (plain_isset flags (Z.lor HFS_ALLOC_USE_TENTATIVE HFS_ALLOC_COMMIT)), (plain_isset flags HFS_ALLOC_USE_TENTATIVE),
    (plain_isset flags HFS_ALLOC_COMMIT), (plain_isset flags HFS_ALLOC_IGNORE_TENTATIVE) by done.
  rewrite !(plain_isset flags HFS_ALLOC_TENTATIVE), !(plain_isset flags HFS_ALLOC_LOCKED) by done. cbn [negb].
  set (start := startBlock ext) in *. set (count := blockCount ext) in *.
  assert (exists c m, (when true
       (v ← get_vol;
        _ ← when ((vcbFreeExtCnt (vo_cache v) =? 0) && (hfs_freed_block_count (vo_counts v) =? 0))
             (modify_counts (set_sparseAllocation start));
        _ ← modify_counts (fun c => set_freed_block_count
              (if count <? hfs_freed_block_count c then u32 (hfs_freed_block_count c - count) else 0) c);
        _ ← when (upd && ((start <? hfs_metazone_start (vo_geom v)) || (hfs_metazone_end (vo_geom v) <? start)))
             (HFS_UPDATE_NEXT_ALLOCATION start);
        vo_remove_free_extent start count)) v = Some (tt, with_cache m (with_counts c v)) /\ (freeBlocks c = freeBlocks (vo_counts v) /\ kept_counts (vo_counts v) c) /\ cache_inv m /\
    same_mount (vo_cache v) m /\ (forall b, cached_in m b -> cached_in (vo_cache v) b /\ ~ start <= b < start + count)) as (c & m & E & [Ef Hk] & Hm).
  { unfold when at 1. unfold mbind at 1, V_bind at 1, get_vol.
    set (b1 := (vcbFreeExtCnt (vo_cache v) =? 0) && (hfs_freed_block_count (vo_counts v) =? 0)).
    set (b2 := upd && ((start <? hfs_metazone_start (vo_geom v)) || (hfs_metazone_end (vo_geom v) <? start))).
    assert (counts_step (_ ← when b1 (modify_counts (set_sparseAllocation start));
        _ ← modify_counts (fun c => set_freed_block_count
              (if count <? hfs_freed_block_count c then u32 (hfs_freed_block_count c - count) else 0) c);
        when b2 (HFS_UPDATE_NEXT_ALLOCATION start))) as Hstep.
    { apply counts_step_bind; [apply counts_step_when, counts_step_modify; auto|].
      apply counts_step_bind; [apply counts_step_modify; auto|]. by apply counts_step_when, counts_step_next. }
    destruct (Hstep v) as (c & Ec & Efc). destruct (vo_remove_free_extent_ok (with_counts c v) start count Hi Hs Hc Hle) as (m & Em & Hm).
    exists c, m. split; [|done]. rewrite <-Em. unfold mbind, V_bind in Ec |- *.
    destruct (when b1 _ v) as [[[] va]|]; [|done]. destruct (modify_counts _ va) as [[[] vb]|]; [|done].
    by destruct (when b2 _ vb) as [[[] vc]|]; [injection Ec as ->|]. }
  unfold mbind at 1, V_bind at 1. rewrite E. unfold mbind, V_bind, modify_counts, modify, when, mret, V_ret.
  eexists _, m. split; [reflexivity|]. destruct Hm as (H1 & H2 & H3). split; [done|]. split; [done|]. split; [done|].
  cbn [vo_counts with_counts with_cache]. destruct (ISSET flags HFS_ALLOC_SKIPFREEBLKS); cbn; rewrite <-Ef; [done|].
  split; [done|]. by transitivity c.
Qed.

(** ** Giving a run of blocks *)

Definition no_reserves (v v' : vol) : Prop := vo_reserved v' = vo_reserved v.

(** The run of [n] blocks from [s] on was free and is given. *)
Record given (v : vol) (flags s n : Z) (v' : vol) : Prop := {
  gi_start : 0 <= s;
  gi_count : 0 < n;
  gi_limit : s + n <= vo_allocLimit v;
  gi_free : free_run v 0 s n;
  gi_bits : forall b, 0 <= b -> bit_at (bm_words (vo_bitmap v')) b = in_run s n b || bit_at (bm_words (vo_bitmap v)) b;
  gi_pending : forall b, s <= b < s + n -> ~ pending_block v' b;
  gi_count_free : freeBlocks (vo_counts v') =
    if ISSET flags HFS_ALLOC_SKIPFREEBLKS then freeBlocks (vo_counts v) else u32 (freeBlocks (vo_counts v) - n);
  gi_shape : same_shape v v';
  gi_inv : alloc_inv v';
}.

Lemma given_searched v v1 flags s n v' : searched 0 v v1 -> given v1 flags s n v' -> given v flags s n v'.
Proof.
  intros Hs [H1 H2 H3 H4 H5 H6 H7 H8 H9]. pose proof (searched_same 0 v v1 Hs) as (Ea & _ & _ & Ec & _ & Ew & _).
  split; [done|done|by rewrite <-Ea| |by rewrite <-Ew|done|by rewrite <-Ec| |done].
  - intros b Hb. rewrite <-(searched_used 0 v v1 0 b Hs). by apply H4.
  - transitivity v1; [by apply (searched_shape 0)|done].
Qed.

(** The volume after a failed allocation: no block that was in use is free. *)
Record not_given (v v' : vol) : Prop := {
  ng_ok : vol_ok v';
  ng_kept : forall b, 0 <= b -> bit_at (bm_words (vo_bitmap v)) b = true -> bit_at (bm_words (vo_bitmap v')) b = true;
  ng_shape : same_shape v v';
}.

Lemma not_given_searched flags v v1 v' : searched flags v v1 -> not_given v1 v' -> not_given v v'.
Proof.
  intros Hs [H1 H2 H3]. pose proof (searched_same flags v v1 Hs) as (_ & _ & _ & _ & _ & Ew & _). split; [done|by rewrite <-Ew|].
  transitivity v1; [by apply (searched_shape flags)|done].
Qed.

Lemma searched_not_given flags v v' : vol_ok v -> searched flags v v' -> not_given v v'.
Proof.
  intros Hv Hs. pose proof (searched_same flags v v' Hs) as (_ & _ & _ & _ & _ & Ew & _).
  split; [by apply (searched_ok flags v)|by rewrite Ew|by apply (searched_shape flags)].
Qed.

(** An allocation ends with blocks, or with an error and none. *)
Inductive mark_outcome (v : vol) (flags s n : Z) (res_in : option Z) : option (allocated_extent * vol) -> Prop :=
| MarkGiven v' : given v flags s n v' -> mark_outcome v flags s n res_in (Some (mkAllocated 0 (mkExtent s n) res_in None, v'))
| MarkIO err v' : err <> noErr -> err ∈ bm_io (vo_bitmap v) -> not_given v v' ->
    mark_outcome v flags s n res_in (Some (mkAllocated err (mkExtent 0 0) res_in None, v')).

Definition no_alignment (ap : option extra_args) : Prop := match ap with Some ap => alignment ap = 0 | None => True end.

Lemma alloc_mark_ok v ap minBlocks s n flags upd :
  alloc_inv v -> plain flags -> no_alignment ap -> 0 <= s -> 0 < n -> s + n <= vo_allocLimit v -> free_run v 0 s n ->
  mark_outcome v flags s n None (alloc_mark ap minBlocks (mkExtent s n) flags upd None v).
Proof.
  intros Hi Hp Hap Hs Hn Hle Hfree. pose proof Hi as [Hv Hsize _ _ _ Hmem]. pose proof (vk_limits v Hv) as [Hl1 Hl2 Hl3 _ _ _].
  assert (aligned ap minBlocks (mkExtent s n) = mkExtent s n) as Ea.
  { unfold aligned. destruct ap as [ap|]; [|done]. cbn in Hap. rewrite Hap. done. }
  unfold alloc_mark. rewrite Ea. cbn [startBlock blockCount].
  destruct (mark_allocated_ok v s n flags Hv Hsize Hmem Hs Hn ltac:(lia)) as (err & v1 & E1 & Hm & Herr & Hset); [by apply plain_isset|].
  unfold mbind at 1, V_bind at 1. rewrite E1. destruct (Z.eqb_spec err 0) as [->|Hne]; cbn [negb].
  2:{ apply MarkIO; [done|by destruct Herr|]. split; [apply Hm|apply Hm|by apply (marked_shape s n)]. }
  destruct (Z.eqb_spec n 0); [lia|].
  pose proof Hm as [M1 _ (Ec & Es & Er & Eco & Eg) (Et & Eb & Ei) M3 M4 M5 _ M6].
  destruct (alloc_account_ok v1 (mkExtent s n) flags upd Hp (vk_cache v1 M1)) as (c & m & E2 & Hmi & Hsm & Hcache & Hfr & Hk); [done|done|cbn; lia|].
  unfold mbind, V_bind. rewrite E2. cbn [startBlock blockCount] in *. apply MarkGiven.
  split; [done|done|done|done| | | |by apply same_shape_counts; [apply (marked_shape s n)|..]|].
  - intros b Hb. change (bit_at (bm_words (vo_bitmap v1)) b = in_run s n b || bit_at (bm_words (vo_bitmap v)) b).
    destruct (in_run s n b) eqn:Ein.
    + apply in_run_iff in Ein. by apply Hset.
    + apply in_run_not in Ein. by apply M4.
  - intros b Hb Hpb. change (pending_block v1 b) in Hpb. by apply M5 in Hpb as [_ ?].
  - change (freeBlocks c = if ISSET flags HFS_ALLOC_SKIPFREEBLKS then freeBlocks (vo_counts v) else u32 (freeBlocks (vo_counts v) - n)).
    by rewrite Hfr, Eco.
  - by apply alloc_inv_counts, (alloc_inv_marked v v1 s n m).
Qed.

(** ** BlockFindKnown *)

Lemma BlockFindKnown_ok v maxBlocks ext0 :
  alloc_inv v -> 0 < maxBlocks ->
  BlockFindKnown maxBlocks ext0 v = Some ((dskFulErr, ext0), v) \/
  exists s n, BlockFindKnown maxBlocks ext0 v = Some ((0, mkExtent s n), v) /\ 0 <= s /\ 0 < n <= maxBlocks /\ s + n <= vo_allocLimit v /\ free_run v 0 s n.
Proof.
  intros Hi Hm. pose proof (av_ok v Hi) as Hv. pose proof (vk_cache v Hv) as [Ha Hlim [Hok _ _]].
  unfold BlockFindKnown, mbind, V_bind, get_vol. destruct (Z.eqb_spec (vcbFreeExtCnt (vo_cache v)) 0) as [E0|E0]; [by left|].
  cbn [orb]. pose proof (fe_view_length _ Ha) as Hlen. destruct Ha as [Hal Hcnt].
  destruct (fe_view (vo_cache v)) as [|e l] eqn:Ev; [cbn in Hlen; lia|].
  pose proof (fe_view_at (vo_cache v) [] e l Ev) as Eat. change (ext_at (vo_cache v) 0 = e) in Eat. rewrite Eat. apply Forall_cons in Hok as [(H1 & H2 & H3) _].
  destruct (Z.eqb_spec (blockCount e) 0) as [|_]; [lia|]. cbn [startBlock blockCount].
  set (n := if maxBlocks <? blockCount e then maxBlocks else blockCount e).
  assert (n = Z.min maxBlocks (blockCount e)) as En by (subst n; destruct (Z.ltb_spec maxBlocks (blockCount e)); lia). clearbody n.
  right. exists (startBlock e), n. unfold ext_end, vo_allocLimit in *. rewrite u32_id by lia.
  destruct (Z.ltb_spec (allocLimit (vo_cache v)) (startBlock e + n)); [lia|]. split; [done|]. split; [done|]. split; [lia|]. split; [lia|].
  intros b Hb. apply (av_cache v Hi). exists e. rewrite Ev. split; [left|]. unfold in_ext, ext_end. lia.
Qed.

(** ** The searches for any blocks *)

Lemma isset_clr flags m m' : Z.land (not32 m) m' = m' -> ISSET (CLR flags m) m' = ISSET flags m'.
Proof. unfold ISSET, CLR. intros E. by rewrite <-Z.land_assoc, E. Qed.
Lemma isset_set flags m m' : Z.land m m' = 0 -> ISSET (SET flags m) m' = ISSET flags m'.
Proof. unfold ISSET, SET. intros E. by rewrite Z.land_lor_distr_l, E, Z.lor_0_r. Qed.

(** A run of free blocks of the volume, not longer than asked for. *)
Definition free_blocks_run (v : vol) (maxBlocks s n : Z) : Prop :=
  0 <= s /\ 0 < n <= maxBlocks /\ s + n <= vo_allocLimit v /\ free_run v 0 s n.

Section FindAny.
Context (v : vol) (Hi : alloc_inv v) (maxBlocks : Z) (Hmax : 0 < maxBlocks <= UINT32_MAX) (Hio : dskFulErr ∉ bm_io (vo_bitmap v)).
Local Notation limit := (vo_allocLimit v).

Lemma BlockFindAny_plain f v1 start ending trust ext0 :
  plain f -> searched 0 v v1 -> 0 <= start < vo_totalBlocks v -> ending <= limit ->
  exists err ext v2, BlockFindAny start ending maxBlocks f trust ext0 v1 = Some ((err, ext), v2) /\ searched 0 v v2 /\
    search_result v (free_blocks_run v maxBlocks) (any_full v f start ending) err ext.
Proof.
  intros Hp Hs Hst He. pose proof (plain_used v f) as Hu.
  destruct (BlockFindAny_ok v f v1 start ending maxBlocks trust ext0 (av_ok v Hi)) as (err & ext & v2 & E & Hs2 & Hr); [|done|done|done|].
  { by apply (searched_flags 0); [intros b; rewrite Hu|]. }
  exists err, ext, v2. split; [done|]. split; [by apply (searched_flags f); [intros b; rewrite Hu|]|]. revert Hr. apply search_result_mono.
  - intros s n [H1 H2 H3 H4 _]. split; [lia|]. split; [done|]. split; [lia|]. intros b Hb. rewrite <-Hu by done. by apply H4.
  - intros Hf. apply Hf. intros Hfl index Hx Hbit b Hb Ed. rewrite Hu by done. by apply (av_summary v Hi Hfl index).
Qed.

(** Every block that may be used is in use, or waits for a trim that may not be forced. *)
Definition disk_full (flags : Z) : Prop :=
  forall b, 1 <= b < limit ->
    ISSET flags HFS_ALLOC_METAZONE = true \/ has_flag v HFS_METADATA_ZONE = false \/ hfs_metazone_end (vo_geom v) + 1 < b ->
    used v 0 b = true \/ (ISSET flags HFS_ALLOC_FLUSHTXN = false /\ pending_block v b).

(** Two searches that cover the volume. *)
Lemma any_full_both f start second :
  plain f -> 0 <= start < limit -> second = limit \/ second = start -> any_full v f start limit -> any_full v f 1 second ->
  forall b, 1 <= b < limit ->
    ISSET f HFS_ALLOC_METAZONE = true \/ has_flag v HFS_METADATA_ZONE = false \/ hfs_metazone_end (vo_geom v) + 1 < b ->
    used v 0 b = true \/ (avoids_trims v f = true /\ pending_block v b).
Proof.
  intros Hp Hst Hsec H1 H2 b Hb Hz. rewrite <-(plain_used v f) by done.
  assert (forall s e, s <= b < e -> outside_zone v (ISSET f HFS_ALLOC_METAZONE) s e b) as Ho.
  { intros s e Hse. destruct Hz as [?|[?|?]]; [by left|right; by left|right; right; lia]. }
  destruct (Z.lt_ge_cases b start); [|apply H1; [lia|apply Ho; lia]].
  destruct Hsec as [->| ->]; (apply H2; [lia|apply Ho; lia]).
Qed.

Lemma find_any_extent_ok start flags ext0 :
  plain flags -> 0 <= start < limit ->
  exists err ext flags' v', find_any_extent start maxBlocks flags ext0 v = Some ((err, ext, flags'), v') /\ searched 0 v v' /\
    plain flags' /\ ISSET flags' HFS_ALLOC_SKIPFREEBLKS = ISSET flags HFS_ALLOC_SKIPFREEBLKS /\
    search_result v (free_blocks_run v maxBlocks) (disk_full flags) err ext.
Proof.
  intros Hp Hst. pose proof (av_ok v Hi) as Hv. pose proof (vk_limits v Hv) as [Hl1 _ _ _ _ _]. unfold find_any_extent.
  set (f1 := if ISSET flags HFS_ALLOC_FLUSHTXN then CLR flags HFS_ALLOC_FLUSHTXN else flags).
  assert (plain f1 /\ ISSET f1 HFS_ALLOC_SKIPFREEBLKS = ISSET flags HFS_ALLOC_SKIPFREEBLKS /\
    ISSET f1 HFS_ALLOC_METAZONE = ISSET flags HFS_ALLOC_METAZONE) as (Hp1 & Hskip & Hmeta).
  { subst f1. destruct (ISSET flags HFS_ALLOC_FLUSHTXN); [|done]. split; [by apply plain_clr|]. split; by apply isset_clr. }
  clearbody f1.
  assert (forall s n v', searched 0 v v' -> free_blocks_run v maxBlocks s n -> forall f, plain f -> ISSET f HFS_ALLOC_SKIPFREEBLKS = ISSET flags HFS_ALLOC_SKIPFREEBLKS ->
    exists err ext flags' v'', Some ((noErr, mkExtent s n, f), v') = Some ((err, ext, flags'), v'') /\ searched 0 v v'' /\
      plain flags' /\ ISSET flags' HFS_ALLOC_SKIPFREEBLKS = ISSET flags HFS_ALLOC_SKIPFREEBLKS /\
      search_result v (free_blocks_run v maxBlocks) (disk_full flags) err ext) as Hrun.
  { intros s n v' Hs' Hr f Hpf Hsf. exists noErr, (mkExtent s n), f, v'. do 4 (split; [done|]). by apply SearchRun. }
  assert (forall err ext v', searched 0 v v' -> err <> noErr -> err ∈ bm_io (vo_bitmap v) -> forall f, plain f -> ISSET f HFS_ALLOC_SKIPFREEBLKS = ISSET flags HFS_ALLOC_SKIPFREEBLKS ->
    exists err' ext' flags' v'', Some ((err, ext, f), v') = Some ((err', ext', flags'), v'') /\ searched 0 v v'' /\
      plain flags' /\ ISSET flags' HFS_ALLOC_SKIPFREEBLKS = ISSET flags HFS_ALLOC_SKIPFREEBLKS /\
      search_result v (free_blocks_run v maxBlocks) (disk_full flags) err' ext') as Hbad.
  { intros err ext v' Hs' Hne Hin f Hpf Hsf. exists err, ext, f, v'. do 4 (split; [done|]). by apply SearchIO. }
  assert (forall err, err ∈ bm_io (vo_bitmap v) -> (err =? dskFulErr) = false) as Hne.
  { intros err Hin. apply Z.eqb_neq. by intros ->. }
  pose proof (searched_refl 0 v Hv) as Hs0. unfold mbind at 1, V_bind at 1.
  destruct (BlockFindKnown_ok v maxBlocks ext0 Hi ltac:(lia)) as [E|(s & n & E & Hr)]; rewrite E.
  2:{ unfold mbind, V_bind, get_vol. change (0 =? dskFulErr) with false. cbn. by apply Hrun. }
  unfold mbind at 1, V_bind at 1, get_vol at 1. rewrite Z.eqb_refl.
  destruct (BlockFindAny_plain f1 v start limit true ext0 Hp1 Hs0 ltac:(lia) ltac:(lia)) as (err & ext & v1 & E1 & Hs1 & Hr1).
  unfold mbind at 1, V_bind at 1. rewrite E1.
  destruct Hr1 as [s n Hr|ext Hfull1|err ext Hen Hin].
  { change (negb (noErr =? dskFulErr)) with true. cbn match. by apply Hrun. }
  2:{ rewrite Hne by done. cbn [negb]. by apply Hbad. }
  rewrite Z.eqb_refl. cbn [negb].
  set (second := if has_flag v HFS_SUMMARY_TABLE then limit else start).
  assert ((if has_flag v HFS_SUMMARY_TABLE then BlockFindAny 1 limit maxBlocks f1 false ext else BlockFindAny 1 start maxBlocks f1 false ext)
    = BlockFindAny 1 second maxBlocks f1 false ext) as -> by (subst second; by destruct (has_flag v HFS_SUMMARY_TABLE)).
  assert (second = limit \/ second = start) as Hsec by (subst second; destruct (has_flag v HFS_SUMMARY_TABLE); auto). clearbody second.
  destruct (BlockFindAny_plain f1 v1 1 second false ext Hp1 Hs1 ltac:(lia) ltac:(lia)) as (err & ext2 & v2 & E2 & Hs2 & Hr2).
  unfold mbind at 1, V_bind at 1. rewrite E2.
  destruct Hr2 as [s n Hr|ext2 Hfull2|err ext2 Hen Hin].
  { change (noErr =? dskFulErr) with false. cbn [andb]. by apply Hrun. }
  2:{ rewrite Hne by done. cbn [andb]. by apply Hbad. }
  rewrite Z.eqb_refl. cbn [andb]. pose proof (any_full_both f1 start second Hp1 Hst Hsec Hfull1 Hfull2) as Hboth. rewrite Hmeta in Hboth.
  destruct (ISSET flags HFS_ALLOC_FLUSHTXN) eqn:Efl.
  2:{ exists dskFulErr, ext2, f1, v2. do 4 (split; [done|]). apply SearchFull. intros b Hb Hz.
      destruct (Hboth b Hb Hz) as [?|[_ ?]]; [by left|right]. by split. }
  assert (plain (SET f1 HFS_ALLOC_FLUSHTXN)) as Hp3 by by apply plain_set.
  assert (ISSET (SET f1 HFS_ALLOC_FLUSHTXN) HFS_ALLOC_SKIPFREEBLKS = ISSET flags HFS_ALLOC_SKIPFREEBLKS) as Hskip3 by by rewrite isset_set.
  destruct (BlockFindAny_plain (SET f1 HFS_ALLOC_FLUSHTXN) v2 1 limit false ext2 Hp3 Hs2 ltac:(lia) ltac:(lia)) as (err & ext3 & v3 & E3 & Hs3 & Hr3).
  unfold mbind at 1, V_bind at 1. rewrite E3.
  destruct Hr3 as [s n Hr|ext3 Hfull3|err ext3 Hen Hin]; [by apply Hrun| |by apply Hbad].
  exists dskFulErr, ext3, (SET f1 HFS_ALLOC_FLUSHTXN), v3. do 4 (split; [done|]). apply SearchFull. intros b Hb Hz. left.
  rewrite <-Hmeta, <-(isset_set f1 HFS_ALLOC_FLUSHTXN) in Hz by done.
  destruct (any_full_both _ 1 limit Hp3 ltac:(lia) (or_introl eq_refl) Hfull3 Hfull3 b Hb Hz) as [?|[Ha _]]; [done|].
  exfalso. unfold avoids_trims in Ha. assert (ISSET (SET f1 HFS_ALLOC_FLUSHTXN) HFS_ALLOC_FLUSHTXN = true) as Es; [|by rewrite Es in Ha].
  unfold ISSET, SET. rewrite Z.land_lor_distr_l. apply negb_true_iff, Z.eqb_neq. intros Ez%Z.lor_eq_0_iff. by destruct Ez.
Qed.
End FindAny.

(** ** hfs_alloc_try_hard *)

Definition long_run (v : vol) (minBlocks maxBlocks s n : Z) : Prop := free_blocks_run v maxBlocks s n /\ minBlocks <= n.

Section TryHard.
Context (v : vol) (Hi : alloc_inv v) (flags minBlocks maxBlocks : Z) (Hp : plain flags).
Context (Hmin : 0 < minBlocks <= maxBlocks) (Hmax : maxBlocks <= UINT32_MAX) (Hio : dskFulErr ∉ bm_io (vo_bitmap v)).
Local Notation limit := (vo_allocLimit v).

Lemma size_max : limit <= UINT32_MAX - 31.
Proof. pose proof (vk_limits v (av_ok v Hi)) as [Hl1 _ _ _ _ _]. pose proof (av_size v Hi). unfold UINT32_MAX. lia. Qed.

Lemma BlockFindContiguous_plain v1 start ending least use trust :
  searched 0 v v1 -> 0 <= start <= ending -> start < limit -> ending <= limit -> minBlocks <= least <= maxBlocks ->
  exists err ext v2, BlockFindContiguous start ending least maxBlocks use trust flags v1 = Some ((err, ext), v2) /\ searched 0 v v2 /\
    search_result v (long_run v least maxBlocks) True err ext.
Proof.
  intros Hs Hst Hlt He Hl. pose proof (plain_used v flags) as Hu. pose proof size_max.
  pose proof (vk_limits v (av_ok v Hi)) as [Hl1 Hl2 _ _ _ _].
  destruct (BlockFindContiguous_ok v flags v1 start ending least maxBlocks use trust (av_ok v Hi)) as (err & ext & v2 & E & Hs2 & Hr).
  - by apply (searched_flags 0); [intros b; rewrite Hu|].
  - split; [by apply plain_isset|lia..].
  - exists err, ext, v2. split; [done|]. split; [by apply (searched_flags flags); [intros b; rewrite Hu|]|]. revert Hr.
    apply search_result_mono; [|done]. intros s n [[R1 R2 R3 R4] _ _]. split; [|lia]. split; [lia|]. split; [lia|]. split; [lia|].
    intros b Hb. rewrite <-Hu by done. by apply R4.
Qed.

Lemma hfs_alloc_try_hard_ok start :
  0 <= start ->
  exists err ext v', hfs_alloc_try_hard (mkExtent start minBlocks) maxBlocks flags v = Some ((err, ext), v') /\ searched 0 v v' /\
    search_result v (long_run v minBlocks maxBlocks) True err ext.
Proof.
  intros Hst. pose proof (av_ok v Hi) as Hv. pose proof (searched_refl 0 v Hv) as Hs0. pose proof size_max.
  pose proof (vk_limits v Hv) as [Hl1 _ Hl3 _ _ _].
  unfold hfs_alloc_try_hard. cbv zeta. cbn [startBlock blockCount]. unfold mbind at 1, V_bind at 1, get_vol at 1.
  assert (exists err ext v1, (if (0 <? start) && (start <? limit) && (maxBlocks <? u32 (limit - start))
     then BlockFindContiguous start (u32 (start + maxBlocks)) maxBlocks maxBlocks true true flags
     else mret (dskFulErr, mkExtent start minBlocks)) v = Some ((err, ext), v1) /\ searched 0 v v1 /\
     search_result v (long_run v maxBlocks maxBlocks) True err ext) as (err & ext & v1 & E1 & Hs1 & Hr1).
  { destruct ((0 <? start) && (start <? limit) && (maxBlocks <? u32 (limit - start))) eqn:Ec.
    - apply andb_true_iff in Ec as [[E1%Z.ltb_lt E2%Z.ltb_lt]%andb_true_iff E3%Z.ltb_lt]. rewrite u32_id in E3 by lia. rewrite u32_id by lia.
      apply BlockFindContiguous_plain; done || lia.
    - eexists _, _, v. split; [done|]. split; [done|]. by apply SearchFull. }
  unfold mbind at 1, V_bind at 1. rewrite E1.
  assert (forall err, err ∈ bm_io (vo_bitmap v) -> (err =? dskFulErr) = false) as Hne.
  { intros e Hin. apply Z.eqb_neq. by intros ->. }
  destruct Hr1 as [s n [Hr Hn]|ext _|err ext Hen Hin].
  { change (noErr =? dskFulErr) with false. cbn [negb]. eexists _, _, v1. split; [done|]. split; [done|]. apply SearchRun. split; [done|lia]. }
  2:{ rewrite Hne by done. cbn [negb]. eexists _, _, v1. split; [done|]. split; [done|]. by apply SearchIO. }
  rewrite Z.eqb_refl. cbn [negb]. pose proof (searched_inv v v1 Hs1 Hi) as Hi1.
  pose proof (searched_same 0 v v1 Hs1) as (Ea & _).
  assert (exists err ext v2, BlockFindContiguous 1 limit minBlocks maxBlocks true true flags v1 = Some ((err, ext), v2) /\ searched 0 v v2 /\
    search_result v (long_run v minBlocks maxBlocks) True err ext) as Hlast by (apply BlockFindContiguous_plain; done || lia).
  unfold mbind at 1, V_bind at 1. destruct (BlockFindKnown_ok v1 maxBlocks ext Hi1 ltac:(lia)) as [E|(s & n & E & R1 & R2 & R3 & R4)]; rewrite E.
  - change (dskFulErr =? 0) with false. rewrite Z.eqb_refl. cbn [negb andb]. unfold mbind at 1, V_bind at 1, get_vol. by rewrite Ea.
  - change (0 =? 0) with true. cbn [negb andb blockCount]. destruct (Z.leb_spec maxBlocks n).
    + eexists _, _, v1. split; [done|]. split; [done|]. apply SearchRun. split; [|lia]. split; [done|]. split; [done|]. rewrite <-Ea. split; [done|].
      intros b Hb. rewrite <-(searched_used 0 v v1 0 b Hs1). by apply R4.
    + unfold mbind at 1, V_bind at 1, get_vol. by rewrite Ea.
Qed.
End TryHard.

(** ** hfs_block_alloc *)

(** A request of blocks for a file, with room for it besides the reservations. *)
Record request_ok (v : vol) (flags minBlocks maxBlocks : Z) : Prop := {
  rq_plain : plain flags;
  rq_count : 0 < minBlocks <= maxBlocks;
  rq_max : maxBlocks <= UINT32_MAX;
  rq_tentative : 0 <= tentativeBlocks (vo_counts v) <= UINT32_MAX - minBlocks;
  rq_room : tentativeBlocks (vo_counts v) + minBlocks <= hfs_freeblks v false;
  rq_next : 0 <= nextAllocation (vo_counts v) /\ 0 <= sparseAllocation (vo_counts v);
  (* no error of the block I/O is taken for a full disk *)
  rq_io : dskFulErr ∉ bm_io (vo_bitmap v);
}.

(** Why there are no blocks. *)
Definition no_blocks (v : vol) (flags minBlocks : Z) : Prop :=
  if ISSET flags HFS_ALLOC_TRY_HARD then True
  else if ISSET flags HFS_ALLOC_FORCECONTIG then exists start maxBlocks, contig_gives_up v flags minBlocks maxBlocks start
  else disk_full v flags.

(** How an allocation ends. *)
Inductive alloc_outcome (v : vol) (flags minBlocks maxBlocks : Z) : option (allocated_extent * vol) -> Prop :=
| AllocGiven s n v' :
    given v flags s n v' -> n <= maxBlocks -> (ISSET flags (Z.lor HFS_ALLOC_FORCECONTIG HFS_ALLOC_TRY_HARD) = true -> minBlocks <= n) ->
    alloc_outcome v flags minBlocks maxBlocks (Some (mkAllocated 0 (mkExtent s n) None None, v'))
| AllocFull v' :
    searched 0 v v' -> alloc_inv v' -> no_blocks v flags minBlocks ->
    alloc_outcome v flags minBlocks maxBlocks (Some (mkAllocated dskFulErr (mkExtent 0 0) None None, v'))
| AllocIO err v' :
    err <> noErr -> err ∈ bm_io (vo_bitmap v) -> not_given v v' ->
    alloc_outcome v flags minBlocks maxBlocks (Some (mkAllocated err (mkExtent 0 0) None None, v')).

Lemma given_flags v f1 f2 s n v' : ISSET f1 HFS_ALLOC_SKIPFREEBLKS = ISSET f2 HFS_ALLOC_SKIPFREEBLKS -> given v f1 s n v' -> given v f2 s n v'.
Proof. intros E []. split; try done. by rewrite <-E. Qed.

(** The blocks a search gave are marked. *)
Lemma alloc_mark_searched v v1 flags f minBlocks maxBlocks ap least s n upd :
  alloc_inv v -> searched 0 v v1 -> plain f -> ISSET f HFS_ALLOC_SKIPFREEBLKS = ISSET flags HFS_ALLOC_SKIPFREEBLKS -> no_alignment ap ->
  free_blocks_run v maxBlocks s n -> (ISSET flags (Z.lor HFS_ALLOC_FORCECONTIG HFS_ALLOC_TRY_HARD) = true -> minBlocks <= n) ->
  alloc_outcome v flags minBlocks maxBlocks (alloc_mark ap least (mkExtent s n) f upd None v1).
Proof.
  intros Hi Hs Hp Hskip Hap (H1 & H2 & H3 & H4) Hleast. pose proof (searched_inv v v1 Hs Hi) as Hi1.
  pose proof (searched_same 0 v v1 Hs) as (Ea & _ & _ & _ & _ & _ & _ & _ & _ & Hsub).
  destruct (alloc_mark_ok v1 ap least s n f upd Hi1 Hp Hap) as [v' Hg|err v' Hne Hin Hv']; [done|lia|by rewrite Ea| | |].
  - intros b Hb. rewrite (searched_used 0 v v1 0 b Hs). by apply H4.
  - apply AllocGiven; [|lia|done]. apply (given_flags v f flags); [done|]. by apply (given_searched v v1).
  - apply AllocIO; [done|by apply Hsub|by apply (not_given_searched 0 v v1)].
Qed.

Lemma alloc_failed_searched v v1 flags minBlocks maxBlocks err :
  alloc_inv v -> searched 0 v v1 -> (err = dskFulErr /\ no_blocks v flags minBlocks) \/ (err <> noErr /\ err ∈ bm_io (vo_bitmap v)) ->
  alloc_outcome v flags minBlocks maxBlocks (alloc_failed err None v1).
Proof.
  intros Hi Hs [[-> Hno]|[Hne Hin]]; [apply AllocFull; [done|by apply (searched_inv v)|done]|].
  apply AllocIO; [done|done|]. by apply (searched_not_given 0 v v1 (av_ok v Hi)).
Qed.

Lemma isset_lor flags a b : ISSET flags (Z.lor a b) = ISSET flags a || ISSET flags b.
Proof.
  unfold ISSET. rewrite Z.land_lor_distr_r. destruct (Z.eqb_spec (Z.land flags a) 0) as [->|Ha], (Z.eqb_spec (Z.land flags b) 0) as [->|Hb]; cbn [negb orb].
  - done.
  - rewrite Z.lor_0_l. by apply negb_true_iff, Z.eqb_neq.
  - rewrite Z.lor_0_r. by apply negb_true_iff, Z.eqb_neq.
  - apply negb_true_iff, Z.eqb_neq. intros [E _]%Z.lor_eq_0_iff. done.
Qed.

Lemma outcome_max v flags minBlocks m1 m2 r : m1 <= m2 -> alloc_outcome v flags minBlocks m1 r -> alloc_outcome v flags minBlocks m2 r.
Proof. intros Hle [s n v' Hg Hn Hl|v' H1 H2 H3|err v' H1 H2 H3]; [apply AllocGiven; [done|lia|done]|by apply AllocFull|by apply AllocIO]. Qed.

Lemma alloc_search_ok v ap start minBlocks maxBlocks flags :
  alloc_inv v -> request_ok v flags minBlocks maxBlocks -> no_alignment ap -> 0 <= start ->
  alloc_outcome v flags minBlocks maxBlocks
    (alloc_search ap start minBlocks maxBlocks (hfs_freeblks v false) (mkExtent start minBlocks) flags None v).
Proof.
  intros Hi [Hp Hmin Hmax Ht Hroom Hnext Hio] Hap Hst. pose proof (av_ok v Hi) as Hv. pose proof (searched_refl 0 v Hv) as Hs0.
  pose proof (vk_limits v Hv) as [Hl1 _ _ _ _ _].
  unfold alloc_search. unfold mbind at 1, V_bind at 1, get_vol at 1. cbv zeta. rewrite u32_id by lia.
  destruct (Z.ltb_spec (hfs_freeblks v false) (tentativeBlocks (vo_counts v) + minBlocks)); [lia|].
  destruct (Z.eqb_spec (hfs_freeblks v false) 0) as [|_]; [lia|]. cbn [orb].
  destruct (Z.ltb_spec (hfs_freeblks v false) minBlocks); [lia|]. rewrite !andb_false_r.
  set (max' := if negb (ISSET flags HFS_ALLOC_SKIPFREEBLKS) && (hfs_freeblks v false <? maxBlocks) then hfs_freeblks v false else maxBlocks).
  assert (minBlocks <= max' <= maxBlocks) as Hmax'.
  { subst max'. destruct (negb _ && _) eqn:E; [|lia]. apply andb_true_iff in E as [_ E%Z.ltb_lt]. lia. }
  clearbody max'. apply (outcome_max v flags minBlocks max' maxBlocks); [lia|].
  assert (forall err, err <> noErr -> (err =? 0) = false) as Hne0 by (intros err Herr; by apply Z.eqb_neq).
  destruct (ISSET flags HFS_ALLOC_TRY_HARD) eqn:Etry.
  { destruct (hfs_alloc_try_hard_ok v Hi flags minBlocks max' Hp ltac:(lia) ltac:(lia) Hio start Hst) as (err & ext & v1 & E & Hs1 & Hr).
    unfold mbind at 1, V_bind at 1. rewrite E. destruct Hr as [s n [Hr Hn]|ext _|err ext Hen Hin].
    - cbn [negb Z.eqb]. by apply alloc_mark_searched.
    - change (negb (dskFulErr =? 0)) with true. cbn match. apply alloc_failed_searched; [done|done|]. left. split; [done|]. unfold no_blocks. by rewrite Etry.
    - rewrite Hne0 by done. cbn [negb]. apply alloc_failed_searched; [done|done|by right]. }
  set (start' := if vo_allocLimit v <=? _ then 0 else _).
  assert (0 <= start' < vo_allocLimit v) as Hst'.
  { subst start'. set (x := if start =? 0 then _ else _). assert (0 <= x) by (subst x; destruct (start =? 0); [destruct (is_sparse (vo_cache v)); lia|lia]).
    clearbody x. destruct (Z.leb_spec (vo_allocLimit v) x); lia. }
  clearbody start'. rewrite isset_lor, Etry, orb_false_r. destruct (ISSET flags HFS_ALLOC_FORCECONTIG) eqn:Eforce.
  - pose proof (plain_used v flags) as Hu.
    destruct (BlockFindContig_ok v flags minBlocks max' Hv (size_max v Hi) ltac:(by apply plain_isset) Etry ltac:(lia) ltac:(lia)) with (v := v) (start := start') (ext0 := mkExtent start minBlocks)
      as (err & ext & v1 & E & Hs1 & Hr); [|done|by apply searched_refl|done|].
    { intros _ Hfl index Hx Hbit b Hb Ed. rewrite Hu by done. by apply (av_summary v Hi Hfl index). }
    unfold mbind at 1, V_bind at 1. rewrite E. assert (searched 0 v v1) as Hs1' by (apply (searched_flags flags); [intros b; by rewrite Hu|done]).
    destruct Hr as [s n [[R1 R2 R3 R4] _]|ext Hr|err ext Hen Hin].
    + change (negb (noErr =? 0)) with false. cbn match. apply alloc_mark_searched; try done; [|lia].
      split; [lia|]. split; [lia|]. split; [lia|]. intros b Hb. rewrite <-Hu by done. by apply R4.
    + change (negb (dskFulErr =? 0)) with true. cbn match. apply alloc_failed_searched; [done|done|]. left. split; [done|].
      unfold no_blocks. rewrite Etry, Eforce. by exists start', max'.
    + rewrite Hne0 by done. cbn [negb]. apply alloc_failed_searched; [done|done|by right].
  - destruct (find_any_extent_ok v Hi max' ltac:(lia) Hio start' flags (mkExtent start minBlocks) Hp Hst') as (err & ext & f & v1 & E & Hs1 & Hpf & Hskip & Hr).
    unfold mbind at 1, V_bind at 1. rewrite E. destruct Hr as [s n Hr|ext Hr|err ext Hen Hin].
    + change (negb (noErr =? 0)) with false. cbn match. apply alloc_mark_searched; try done. rewrite isset_lor, Eforce, Etry. done.
    + change (negb (dskFulErr =? 0)) with true. cbn match. apply alloc_failed_searched; [done|done|]. left. split; [done|].
      unfold no_blocks. by rewrite Etry, Eforce.
    + rewrite Hne0 by done. cbn [negb]. apply alloc_failed_searched; [done|done|by right].
Qed.

(** How BlockAllocate ends: with blocks, without because there are none, or with an
    error of the block I/O. *)
Inductive allocate_outcome (v : vol) (flags minBlocks maxBlocks : Z) : option (Z * Z * Z * vol) -> Prop :=
| AllocateGiven s n v' :
    given v flags s n v' -> n <= maxBlocks -> (ISSET flags (Z.lor HFS_ALLOC_FORCECONTIG HFS_ALLOC_TRY_HARD) = true -> minBlocks <= n) ->
    allocate_outcome v flags minBlocks maxBlocks (Some (noErr, s, n, v'))
| AllocateFull v' :
    searched 0 v v' -> alloc_inv v' -> no_blocks v flags minBlocks ->
    allocate_outcome v flags minBlocks maxBlocks (Some (dskFulErr, 0, 0, v'))
| AllocateIO err v' :
    err <> noErr -> err ∈ bm_io (vo_bitmap v) -> not_given v v' ->
    allocate_outcome v flags minBlocks maxBlocks (Some (err, 0, 0, v')).

Lemma BlockAllocate_ok v start minBlocks maxBlocks flags :
  alloc_inv v -> request_ok v flags minBlocks maxBlocks -> 0 <= start ->
  allocate_outcome v flags minBlocks maxBlocks (BlockAllocate start minBlocks maxBlocks flags v).
Proof.
  intros Hi Hrq Hst. pose proof Hrq as [Hp Hmin _ _ _ _ _]. unfold BlockAllocate, mbind at 1, V_bind at 1.
  unfold hfs_block_alloc_int. cbn [startBlock blockCount max_blocks reservation_in mbind option_bind].
  rewrite (plain_isset flags HFS_ALLOC_COMMIT), (plain_isset flags HFS_ALLOC_ROLL_BACK) by done.
  unfold mbind at 1, V_bind at 1, get_vol at 1. rewrite (plain_isset flags HFS_ALLOC_USE_TENTATIVE) by done.
  destruct (Z.eqb_spec maxBlocks 0); [lia|].
  destruct (alloc_search_ok v (Some (mkArgs maxBlocks None 0 0)) start minBlocks maxBlocks flags Hi Hrq eq_refl Hst) as [s n' v' Hg Hn Hl|v' H1 H2 H3|err v' H1 H2 H3].
  - by apply AllocateGiven.
  - by apply AllocateFull.
  - by apply AllocateIO.
Qed.

(** C2: An allocation of blocks for a file, on a volume that satisfies the invariant of
    the allocator and for a request that is in order ([request_ok]): no flag for
    tentative, locked or reserved blocks or for a commit or roll-back is given, the
    volume has the least number of blocks besides the tentative ones, and the number
    dskFulErr is not among the results of the block I/O. It ends without a panic. On
    success the blocks it gives are a run in bounds, not longer than asked for, at least
    as long as asked for when it must be contiguous or the search is to try hard; every
    block of it was free and not reserved by anyone, and does not wait for a trim any
    more; exactly these bits are set, the count of free blocks is what is left (unless
    HFS_ALLOC_SKIPFREEBLKS is set, when it stays), and the invariant holds again. It
    answers that the disk is full only when the search that was asked for has nothing
    (nothing is said of this with HFS_ALLOC_TRY_HARD); then no bit and no count has
    changed, and the invariant holds. Otherwise it gives back an error of the block I/O:
    then no bit is cleared and the volume is well formed, but the invariant is not
    claimed, since bits may be set for blocks that are still in the cache. *)
Theorem BlockAllocate_correct v start minBlocks maxBlocks flags :
  alloc_inv v -> request_ok v flags minBlocks maxBlocks -> 0 <= start ->
  allocate_outcome v flags minBlocks maxBlocks (BlockAllocate start minBlocks maxBlocks flags v).
Proof. apply BlockAllocate_ok. Qed.
