(* ===== verification/FreeProps.v ===== *)
(** * Freeing blocks is right (core/VolumeAllocation.c)

    BlockDeallocate clears exactly the bits of the run it is given, takes its bitmap
    blocks out of the summary table, gives them to the journal to be trimmed, or to the
    free extent cache when there is no journal, and keeps the invariant.  With it and
    BlockAllocate the allocator is a refinement of sets of blocks. *)

From S2P Require Import Prelude HfsFormat RangeList FreeExtCache Bitmap BitmapBits BitmapWalk BitmapMark BitmapFree BitmapReserve BitmapProps JournalTrim JournalTrimProps Volume VolumeOps BlockSearch BlockAlloc VolumeProps BlockSearchProps ContigProps AllocSearchProps AllocInv AllocProps.

(** ** The summary table *)

Section Release.
Context (v : vol) (Hv : vol_ok v).
Local Notation BB := (block_bits v).

Lemma vol_ok_table t : length t = length (sm_table (vo_summary v)) -> vol_ok (set_table t v).
Proof.
  intros Hl. destruct Hv as [H1 [] [] H4 H5 H6]. split; [done|by split|by split|done| |done].
  intros Hf b Hb. cbn. rewrite Hl. by apply H5.
Qed.

Lemma release_summary_loop_ok (Hf : has_flag v HFS_SUMMARY_TABLE = true) fuel : forall t cur last,
  length t = length (sm_table (vo_summary v)) -> 0 <= cur -> 0 <= last -> last * BB < vo_totalBlocks v -> last + 1 - cur < Z.of_nat fuel -> 0 < Z.of_nat fuel ->
  exists t', release_summary_loop cur last fuel (set_table t v) = Some (tt, set_table t' v) /\ length t' = length (sm_table (vo_summary v)) /\
    forall i, 0 <= i -> table_bit t' i = table_bit t i && negb ((cur <=? i) && (i <=? last)).
Proof.
  pose proof (block_bits_pos v Hv) as HB. pose proof (li_max v (vk_limits v Hv)) as Hmax.
  induction fuel as [|fuel IH]; intros t cur last Hl Hc Hla Hlast Hfu Hf0; [lia|]. cbn [release_summary_loop].
  destruct (Z.leb_spec cur last) as [Hle|Hgt].
  2:{ exists t. split; [done|]. split; [done|]. intros i Hi. destruct (Z.leb_spec cur i), (Z.leb_spec i last); try lia; cbn; by rewrite andb_true_r. }
  pose proof (vol_ok_table t Hl) as Hvt.
  destruct (set_summary_ok (set_table t v) cur false Hvt Hf) as (byte & E & Es).
  { cbn. rewrite Hl. pose proof (vk_summary v Hv Hf (cur * BB)) as Hs. rewrite Z.div_mul in Hs by lia. apply Hs. nia. }
  unfold mbind, V_bind. rewrite Es. cbn [sm_table vo_summary set_table with_summary sm_size].
  set (t1 := <[Z.to_nat (cur / 8) := _]> t). assert (length t1 = length (sm_table (vo_summary v))) as Hl1 by (subst t1; by rewrite length_insert).
  rewrite u32_id by nia. destruct (IH t1 (cur + 1) last Hl1) as (t' & E' & Hl' & Hb); [lia|lia|done|lia|lia|].
  exists t'. split; [exact E'|]. split; [done|]. intros i Hi. rewrite Hb by done. subst t1.
  rewrite (table_bit_set t cur byte false i Hc Hi E). destruct (Z.eqb_spec i cur) as [->|Hne].
  - assert ((cur <=? cur) && (cur <=? last) = true) as -> by lia. by rewrite andb_false_r.
  - f_equal. f_equal. destruct (Z.leb_spec (cur + 1) i), (Z.leb_spec cur i); lia || done.
Qed.

(** The bitmap blocks of a run are not full any more, the others are as they were. *)
Lemma hfs_release_summary_ok s n :
  0 <= s -> 0 < n -> s + n <= vo_totalBlocks v ->
  exists t, hfs_release_summary s n v = Some (tt, set_table t v) /\ length t = length (sm_table (vo_summary v)) /\
    (forall i, 0 <= i -> table_bit t i = true -> table_bit (sm_table (vo_summary v)) i = true) /\
    (has_flag v HFS_SUMMARY_TABLE = true -> forall b, s <= b < s + n -> table_bit t (b / BB) = false).
Proof.
  intros Hs Hn Hle. pose proof (block_bits_pos v Hv) as HB. pose proof (li_max v (vk_limits v Hv)) as Hmax.
  unfold hfs_release_summary, mbind, V_bind, get_vol. rewrite (u32_id (s + n)), u32_id by lia.
  destruct (has_flag v HFS_SUMMARY_TABLE) eqn:Hf.
  2:{ exists (sm_table (vo_summary v)). unfold hfs_get_summary_index. rewrite Hf. split; [by destruct v as [? ? [] ? ? ? ?]|]. split; [done|]. split; [done|]. by intros. }
  rewrite !(get_summary_index_ok v) by (done || lia).
  pose proof (Z.div_pos s BB ltac:(lia) HB). pose proof (Z.div_pos (s + n - 1) BB ltac:(lia) HB). pose proof (Z.mul_div_le (s + n - 1) BB HB).
  destruct (release_summary_loop_ok Hf (S (Z.to_nat ((s + n - 1) / BB + 1 - s / BB))) (sm_table (vo_summary v)) (s / BB) ((s + n - 1) / BB))
    as (t & E & Hl & Hb); [done|lia|lia|lia|lia|lia|].
  exists t. split; [rewrite <-E; f_equal; by destruct v as [? ? [] ? ? ? ?]|]. split; [done|]. split.
  - intros i Hi Ht. rewrite Hb in Ht by done. by apply andb_true_iff in Ht as [? _].
  - intros _ b Hbr. rewrite Hb by (apply Z.div_pos; lia).
    pose proof (Z.div_le_mono s b BB HB ltac:(lia)). pose proof (Z.div_le_mono b (s + n - 1) BB HB ltac:(lia)).
    assert ((s / BB <=? b / BB) && (b / BB <=? (s + n - 1) / BB) = true) as -> by lia. by rewrite andb_false_r.
Qed.
End Release.

(** ** Clearing bits *)

(** The bits of [v'] are those of [v], some in the run cleared. *)
Record unmarked (s n : Z) (v v' : vol) : Prop := {
  um_ok : vol_ok v';
  um_memory : memory_ok v';
  um_frame : vo_cache v' = vo_cache v /\ vo_summary v' = vo_summary v /\ vo_reserved v' = vo_reserved v /\ vo_counts v' = vo_counts v /\
    vo_geom v' = vo_geom v;
  um_volume : vo_totalBlocks v' = vo_totalBlocks v /\ block_bits v' = block_bits v;
  um_less : forall b, 0 <= b -> bit_at (bm_words (vo_bitmap v')) b = true -> bit_at (bm_words (vo_bitmap v)) b = true;
  um_other : forall b, 0 <= b -> ~ s <= b < s + n -> bit_at (bm_words (vo_bitmap v')) b = bit_at (bm_words (vo_bitmap v)) b;
  um_ranges : forall flags b, in_ranges (ranges_of (vbm_of v') (reservations_of flags)) b = in_ranges (ranges_of (vbm_of v) (reservations_of flags)) b;
  um_pending : forall b, 0 <= b -> pending_block v' b -> pending_block v b \/ used v' 0 b = false;
  um_jnl : vo_jnl v' = None <-> vo_jnl v = None;
  um_io : forall e, e ∈ bm_io (vo_bitmap v') -> e ∈ bm_io (vo_bitmap v);
}.

Lemma unmarked_shape s n v v' : unmarked s n v v' -> same_shape v v'.
Proof. intros [_ _ (Ec & Es & Er & Eco & Eg) (Et & _) _ _ _ _ _ Hio]. split; [done|done|done|by rewrite Ec|by rewrite Eco|done]. Qed.

Lemma in_ranges_false rs b : Forall (fun r => b < rl_start r \/ rl_end r < b) rs -> in_ranges rs b = false.
Proof.
  induction 1 as [|r rs H _ IH]; [done|]. unfold in_ranges in *. cbn [existsb]. rewrite IH, orb_false_r. lia.
Qed.

(** Blocks with a clear bit in no reserved range are not used. *)
Lemma used_clear v us uc b :
  us <= b < us + uc -> bit_at (bm_words (vo_bitmap v)) b = false ->
  Forall (fun r => rl_end r < us \/ us + uc <= rl_start r) (reserved_ranges (vbm_of v)) -> used v 0 b = false.
Proof.
  intros Hb Hbit Hr. rewrite used_bit, Hbit. cbn [orb]. apply in_ranges_false.
  eapply Forall_impl; [exact Hr|]. intros r Hx. cbn in Hx. lia.
Qed.

Section MarkFree.
Context (v : vol) (Hv : vol_ok v) (Hsize : vo_totalBlocks v <= 2 ^ 31) (Hmem : memory_ok v).
Context (s n : Z) (Hs : 1 <= s) (Hn : 0 < n) (Hle : s + n < vo_totalBlocks v).
Context (Hclear : Forall (clear_of s n) (reserved_ranges (vbm_of v))).

Lemma unmarked_bits s' :
  same_volume (vbm_of v) s' -> only_cleared s n (bm_words (vo_bitmap v)) (vb_words s') -> unmarked s n v (with_vbm s' v).
Proof.
  intros Hsame Honly. pose proof (vk_limits v Hv) as [_ _ _ Hfirst _ Hlast].
  assert (forall b, 0 <= b -> ~ s <= b < s + n -> bit_at (vb_words s') b = bit_at (bm_words (vo_bitmap v)) b) as Hother.
  { intros b Hb Hout. rewrite (Honly b Hb). by rewrite (proj2 (in_run_not s n b) Hout). }
  split.
  - apply vol_ok_bits; [done|done|rewrite Hother by lia; done|rewrite Hother by lia; done].
  - done.
  - done.
  - split; [apply Hsame|]. unfold block_bits. rewrite (vbm_of_with s' v) by done. unfold bitsPerBlock. by rewrite (sv_iosize _ _ Hsame).
  - intros b Hb. cbn [vo_bitmap with_vbm with_bitmap bm_words]. rewrite (Honly b Hb).
    destruct (in_run s n b); [|done]. by intros [_ ?]%andb_true_iff.
  - done.
  - intros fl b. rewrite (vbm_of_with s' v) by done. destruct Hsame as [_ _ _ Ht Hl _ _]. unfold ranges_of. by rewrite Ht, Hl.
  - intros b _ Hp. left. exact Hp.
  - done.
  - apply Hsame.
Qed.

(** What a free does, by its error. *)
Inductive mark_free_outcome (v' : vol) : Z -> Prop :=
| UnmarkedRun :
    (forall b, s <= b < s + n -> bit_at (bm_words (vo_bitmap v')) b = false /\ bit_at (bm_words (vo_bitmap v)) b = true) ->
    bm_inconsistent (vo_bitmap v') = bm_inconsistent (vo_bitmap v) ->
    (is_Some (vo_jnl v) -> forall b, s <= b < s + n -> pending_block v' b) ->
    mark_free_outcome v' noErr
| UnmarkedUnallocated b :
    s <= b < s + n -> bit_at (bm_words (vo_bitmap v)) b = false -> bm_inconsistent (vo_bitmap v') = true ->
    mark_free_outcome v' EIO
| UnmarkedIO err :
    err <> noErr -> err ∈ bm_io (vo_bitmap v) -> bm_inconsistent (vo_bitmap v') = bm_inconsistent (vo_bitmap v) ->
    mark_free_outcome v' err.

Lemma unmarked_jnl v1 v2 us uc :
  unmarked s n v v1 -> jnl_step v1 v2 -> (vo_jnl v1 = None -> v2 = v1) ->
  (is_Some (vo_jnl v1) -> forall b, pending_block v2 b <-> pending_block v1 b \/ us <= b < us + uc) ->
  (forall b, us <= b < us + uc -> used v1 0 b = false) -> unmarked s n v v2.
Proof.
  intros [U1 U2 U3 U4 U5 U6 U7 U8 U9 U10] Hj Hnone Hp Hu. pose proof (jnl_step_ok v1 v2 U1 Hj) as Hv2. destruct Hj as [(j & ->) Hj Hm Hs9].
  split; try done.
  - intros b Hb Hpb. change (used (with_jnl j v1) 0 b) with (used v1 0 b). destruct (vo_jnl v1) as [j1|] eqn:Ej.
    + apply (Hp ltac:(done)) in Hpb as [Hpb|Hpb]; [by apply U8|right; by apply Hu].
    + rewrite (Hnone eq_refl) in Hpb. by apply U8.
  - by rewrite Hs9.
Qed.

Lemma mark_free_ok :
  exists err v', mark_free s n true v = Some (err, v') /\ unmarked s n v v' /\ mark_free_outcome v' err.
Proof.
  pose proof Hv as [[Hok Hrange] _ _ _ _ _]. pose proof (vk_limits v Hv) as [Hl1 Hl2 Hl3 Hfirst _ Hlast].
  destruct (BlockMarkFreeInternal_outcome true (vbm_of v) s n Hok) as (err & unmap & s' & E & Hsame & Honly & Ho).
  { unfold run_ok, words_total in *. cbn [vb_words vbm_of]. lia. }
  { lia. }
  { intros _. change (s + n <= vo_totalBlocks v). lia. }
  pose proof (unmarked_bits s' Hsame Honly) as Hu. unfold mark_free, mbind at 1, V_bind at 1, on_bitmap. rewrite E.
  destruct Ho as [us uc H1 H2 H3 H4 H5 H6 H7|b H1 H2 H3 H4|err H1 H2 H3].
  - assert (us + uc <= vo_totalBlocks v) as Huc.
    { destruct (Z.le_gt_cases (us + uc) (vo_totalBlocks v)) as [|Hgt]; [done|]. specialize (H6 (vo_totalBlocks v - 1) ltac:(lia)).
      rewrite (Honly (vo_totalBlocks v - 1)) in H6 by lia. rewrite (proj2 (in_run_not s n _)) in H6 by lia. cbn [vb_words vbm_of] in H6. congruence. }
    assert (forall b, us <= b < us + uc -> used (with_vbm s' v) 0 b = false) as Hused.
    { intros b Hb. apply (used_clear _ us uc); [done|by apply H6|]. rewrite (vbm_of_with s' v) by done. unfold reserved_ranges.
      destruct Hsame as [_ _ _ -> -> _ _]. by apply H7. }
    destruct (hfs_unmap_free_extent_ok (with_vbm s' v) (um_ok _ _ _ _ Hu)) with (s := us) (n := uc) as (v2 & E2 & Hj & Hnone & Hp).
    { by rewrite (proj1 (um_volume _ _ _ _ Hu)). } { done. } { lia. } { lia. } { by rewrite (proj1 (um_volume _ _ _ _ Hu)). }
    exists noErr, v2. unfold mbind, V_bind. rewrite E2. split; [done|]. split; [by apply (unmarked_jnl (with_vbm s' v) v2 us uc)|].
    destruct Hj as [(j & Ev) _ _ _]. apply UnmarkedRun.
    + intros b Hb%in_run_iff. rewrite Ev. by split; [apply H1|apply H2].
    + rewrite Ev. exact H3.
    + intros Hsome b Hb. apply Hp; [done|]. right. lia.
  - exists EIO, (with_vbm s' v). split; [done|]. split; [done|]. apply (UnmarkedUnallocated _ b); [by apply in_run_iff|done|done].
  - exists err, (with_vbm s' v). split; [done|]. split; [done|]. by apply UnmarkedIO.
Qed.
End MarkFree.

(** ** BlockDeallocate *)

Lemma used_unmarked s n v v' b : unmarked s n v v' -> 0 <= b -> used v 0 b = false -> used v' 0 b = false.
Proof.
  intros [_ _ _ _ H5 _ H7 _ _ _] Hb. rewrite !used_bit, H7. intros [Hbit Hr]%orb_false_iff. rewrite Hr, orb_false_r.
  destruct (bit_at (bm_words (vo_bitmap v')) b) eqn:E; [|done]. by rewrite (H5 b Hb E) in Hbit.
Qed.

(** Clearing bits keeps the invariant when their bitmap blocks are not said to be full. *)
Lemma alloc_inv_unmarked s n v t v' :
  alloc_inv v -> length t = length (sm_table (vo_summary v)) ->
  (forall i, 0 <= i -> table_bit t i = true -> table_bit (sm_table (vo_summary v)) i = true) ->
  (has_flag v HFS_SUMMARY_TABLE = true -> forall b, s <= b < s + n -> table_bit t (b / block_bits v) = false) ->
  unmarked s n (set_table t v) v' -> alloc_inv v'.
Proof.
  intros [H1 H2 H3 H4 H5 H6] Hl Ht Hrun Hu. pose proof Hu as [U1 U2 (Ec & Es & _ & _ & _) (Et & Eb) _ U6 U7 U8 _ _].
  assert (forall b, 0 <= b -> used v 0 b = false -> used v' 0 b = false) as Hused by (intros b Hb; by apply (used_unmarked s n (set_table t v) v')).
  split; [done|by rewrite Et| | | |done].
  - intros b Hb. rewrite Ec in Hb. apply Hused; [|by apply H3]. destruct Hb as (e & He & Hb). destruct (vk_cache v H1) as [_ _ [Hok _ _]].
    rewrite Forall_forall in Hok. specialize (Hok e He). unfold ext_ok, in_ext in *. lia.
  - intros b Hb Hp. destruct (U8 b Hb Hp) as [Hp'|]; [|done]. by apply Hused, H4.
  - assert (has_flag v' HFS_SUMMARY_TABLE = has_flag v HFS_SUMMARY_TABLE) as -> by (unfold has_flag, vo_flags; by rewrite Ec).
    intros Hf index Hi Hbit b Hb Ed. rewrite Es in Hbit. rewrite Eb in Ed. change (table_bit t index = true) in Hbit. change (b / block_bits v = index) in Ed.
    assert (~ s <= b < s + n) as Hout by (intros Hin; rewrite <-Ed, (Hrun Hf b Hin) in Hbit; done).
    specialize (H5 Hf index Hi (Ht index Hi Hbit) b Hb Ed). rewrite used_bit in *. rewrite U7, (U6 b Hb Hout). exact H5.
Qed.

(** The run of [n] blocks from [s] on is put into the free extent cache, up to the limit
    of allocations: exactly, when the cache has a free slot. *)
Definition cache_gains (m : hfsmount) (s n : Z) (m' : hfsmount) : Prop :=
  let added b := s <= b < Z.min (s + n) (allocLimit m) in
  (forall b, cached_in m' b -> cached_in m b \/ added b) /\
  (vcbFreeExtCnt m < kMaxFreeExtents -> forall b, cached_in m' b <-> cached_in m b \/ added b).

(** The run of [n] blocks from [s] on was allocated and is free. *)
Record freed (v : vol) (flags s n : Z) (v' : vol) : Prop := {
  fd_was : forall b, s <= b < s + n -> bit_at (bm_words (vo_bitmap v)) b = true;
  fd_bits : forall b, 0 <= b -> bit_at (bm_words (vo_bitmap v')) b = bit_at (bm_words (vo_bitmap v)) b && negb (in_run s n b);
  fd_consistent : bm_inconsistent (vo_bitmap v') = bm_inconsistent (vo_bitmap v);
  fd_pending : is_Some (vo_jnl v) -> forall b, s <= b < s + n -> pending_block v' b;
  fd_cache : match vo_jnl v with
    | Some _ => vo_cache v' = vo_cache v
    | None => cache_gains (vo_cache v) s n (vo_cache v')
    end;
  fd_count_free : freeBlocks (vo_counts v') =
    if ISSET flags HFS_ALLOC_SKIPFREEBLKS then freeBlocks (vo_counts v) else u32 (freeBlocks (vo_counts v) + n);
  fd_shape : same_shape v v';
  fd_inv : alloc_inv v';
}.

(** The volume after a failed free: only bits of the run have changed. *)
Record not_freed (v : vol) (s n : Z) (v' : vol) : Prop := {
  nf_less : forall b, 0 <= b -> bit_at (bm_words (vo_bitmap v')) b = true -> bit_at (bm_words (vo_bitmap v)) b = true;
  nf_other : forall b, 0 <= b -> ~ s <= b < s + n -> bit_at (bm_words (vo_bitmap v')) b = bit_at (bm_words (vo_bitmap v)) b;
  nf_counts : vo_counts v' = vo_counts v;
  nf_shape : same_shape v v';
  nf_inv : alloc_inv v';
}.

(** How BlockDeallocate ends. *)
Inductive deallocate_outcome (v : vol) (flags s n : Z) : option (Z * vol) -> Prop :=
| DeallocateFreed v' :
    freed v flags s n v' -> deallocate_outcome v flags s n (Some (noErr, v'))
| DeallocateUnallocated b v' :
    s <= b < s + n -> bit_at (bm_words (vo_bitmap v)) b = false -> bm_inconsistent (vo_bitmap v') = true -> not_freed v s n v' ->
    deallocate_outcome v flags s n (Some (EIO, v'))
| DeallocateIO err v' :
    err <> noErr -> err ∈ bm_io (vo_bitmap v) -> bm_inconsistent (vo_bitmap v') = bm_inconsistent (vo_bitmap v) -> not_freed v s n v' ->
    deallocate_outcome v flags s n (Some (err, v')).

(** What BlockDeallocate does once the bits are clear. *)
Definition dealloc_account (firstBlock numBlocks flags : Z) : V unit :=
  _ ← when (negb (ISSET flags HFS_ALLOC_SKIPFREEBLKS))
       (modify_counts (fun c => set_freeBlocks (u32 (freeBlocks c + numBlocks)) c));
  _ ← modify_counts (fun c => set_freed_block_count (u32 (hfs_freed_block_count c + numBlocks)) c);
  v ← get_vol;
  when (nextAllocation (vo_counts v) =? u32 (firstBlock + numBlocks))
       (HFS_UPDATE_NEXT_ALLOCATION (u32 (nextAllocation (vo_counts v) - numBlocks))).

Lemma dealloc_account_ok v s n flags :
  exists c, dealloc_account s n flags v = Some (tt, with_counts c v) /\
    freeBlocks c = (if ISSET flags HFS_ALLOC_SKIPFREEBLKS then freeBlocks (vo_counts v) else u32 (freeBlocks (vo_counts v) + n)) /\
    kept_counts (vo_counts v) c.
Proof.
  set (c1 := if ISSET flags HFS_ALLOC_SKIPFREEBLKS then vo_counts v else set_freeBlocks (u32 (freeBlocks (vo_counts v) + n)) (vo_counts v)).
  assert (counts_step (_ ← modify_counts (fun c => set_freed_block_count (u32 (hfs_freed_block_count c + n)) c);
    v ← get_vol;
    when (nextAllocation (vo_counts v) =? u32 (s + n)) (HFS_UPDATE_NEXT_ALLOCATION (u32 (nextAllocation (vo_counts v) - n))))) as Hstep.
  { apply counts_step_bind; [apply counts_step_modify; intros c; by split; [|apply kept_freed]|]. apply counts_step_get. intros w.
    apply counts_step_when, counts_step_next. apply u32_bound. }
  destruct (Hstep (with_counts c1 v)) as (c & Ec & Ef & Hk). exists c. split.
  - change (with_counts c v) with (with_counts c (with_counts c1 v)). rewrite <-Ec. unfold dealloc_account, mbind at 1, V_bind at 1. subst c1. destruct (ISSET flags HFS_ALLOC_SKIPFREEBLKS); [|done]. by destruct v.
  - rewrite Ef. subst c1. destruct (ISSET flags HFS_ALLOC_SKIPFREEBLKS); [done|]. split; [done|].
    exact (transitivity (kept_free _ _) Hk).
Qed.

Section Deallocate.
Context (v : vol) (Hi : alloc_inv v) (s n flags : Z).
Context (Hs : 1 <= s) (Hn : 0 < n) (Hle : s + n < vo_totalBlocks v).
Context (Hclear : Forall (clear_of s n) (reserved_ranges (vbm_of v))).
Context (Hflags : ISSET flags (Z.lor HFS_ALLOC_TENTATIVE HFS_ALLOC_LOCKED) = false).

(** The blocks go to the cache when no trim waits for them. *)
Lemma dealloc_cache_ok v1 :
  alloc_inv v1 -> vo_totalBlocks v1 = vo_totalBlocks v -> (forall b, s <= b < s + n -> used v1 0 b = false) ->
  exists m c, (_ ← vo_add_free_extent s n;
    modify_counts (fun c => if s <? sparseAllocation c then set_sparseAllocation s c else c)) v1 = Some (tt, with_counts c (with_cache m v1)) /\
    alloc_inv (with_counts c (with_cache m v1)) /\ freeBlocks c = freeBlocks (vo_counts v1) /\ same_shape v1 (with_counts c (with_cache m v1)) /\
    cache_gains (vo_cache v1) s n m.
Proof.
  intros H1 Et Hu. pose proof (av_ok v1 H1) as Hv1. pose proof (li_max v1 (vk_limits v1 Hv1)) as Hmax. rewrite Et in Hmax.
  destruct (add_free_extent_cache_spec (vo_cache v1) s n (vk_cache v1 Hv1)) as (m & r & E & -> & Hmi & Hsm & Hb & Hfull); [lia|done|lia|].
  assert (alloc_inv (with_cache m v1)) as Hinv.
  { apply alloc_inv_cache; [done..|]. intros b Hc. destruct (Hb b Hc) as [|Hx]; [by left|right]. apply Hu. lia. }
  exists m, (let c := vo_counts v1 in if s <? sparseAllocation c then set_sparseAllocation s c else c). split; [|split; [|split; [|split]]].
  - unfold vo_add_free_extent, mbind, V_bind, get_vol, vo_lift. rewrite E. done.
  - by apply alloc_inv_counts.
  - cbv zeta. by destruct (s <? sparseAllocation (vo_counts v1)).
  - apply same_shape_counts; [done|done|]. cbv zeta. destruct (s <? sparseAllocation (vo_counts v1)); [|done]. apply kept_sparse. lia.
  - by split.
Qed.

Lemma BlockDeallocate_ok : deallocate_outcome v flags s n (BlockDeallocate s n flags v).
Proof.
  pose proof Hi as [Hv Hsize _ _ _ Hmem]. unfold BlockDeallocate. rewrite Hflags. destruct (Z.eqb_spec n 0); [lia|].
  destruct (hfs_release_summary_ok v Hv s n) as (t & E1 & Hl & Ht & Hrun); [lia|done|lia|].
  unfold mbind at 1, V_bind at 1. rewrite E1.
  destruct (mark_free_ok (set_table t v) (vol_ok_table v Hv t Hl) Hsize Hmem s n Hs Hn Hle Hclear) as (err & v1 & E2 & Hu & Ho).
  unfold mbind at 1, V_bind at 1. rewrite E2. pose proof (alloc_inv_unmarked s n v t v1 Hi Hl Ht Hrun Hu) as Hi1.
  pose proof Hu as [_ _ (Ec & _ & Er & Eco & _) (Et & _) Hless Hother Hranges _ Ejnl _].
  assert (same_shape v v1) as Hsh by (transitivity (set_table t v); [by split|by apply (unmarked_shape s n)]).
  change (vo_counts v1 = vo_counts v) in Eco. change (vo_reserved v1 = vo_reserved v) in Er.
  change (vo_cache v1 = vo_cache v) in Ec. change (vo_jnl v1 = None <-> vo_jnl v = None) in Ejnl.
  assert (not_freed v s n v1) as Hnf by (by split).
  destruct Ho as [Hbits Hinc Hpend|b Hb Hbit Hinc|err Hne Hin Hinc].
  2:{ by apply (DeallocateUnallocated _ _ _ _ b). }
  2:{ destruct (Z.eqb_spec err noErr); [done|]. cbn [negb]. by apply DeallocateIO. }
  change (negb (noErr =? noErr)) with false. cbn match.
  destruct (dealloc_account_ok v1 s n flags) as (c & E3 & Hc & Hk).
  assert (forall F : option jtrim -> V Z, (_ ← when (negb (ISSET flags HFS_ALLOC_SKIPFREEBLKS)) (modify_counts (fun c => set_freeBlocks (u32 (freeBlocks c + n)) c));
    _ ← modify_counts (fun c => set_freed_block_count (u32 (hfs_freed_block_count c + n)) c);
    v ← get_vol;
    _ ← when (nextAllocation (vo_counts v) =? u32 (s + n)) (HFS_UPDATE_NEXT_ALLOCATION (u32 (nextAllocation (vo_counts v) - n)));
    F (vo_jnl v)) v1 = F (vo_jnl v1) (with_counts c v1)) as Hacc.
  { intros F. revert E3. unfold dealloc_account, mbind, V_bind, get_vol. destruct (ISSET flags HFS_ALLOC_SKIPFREEBLKS); cbn [negb when modify_counts modify mret V_ret];
      (destruct (when _ _ _) as [[[] vc]|]; [|done]); by intros [= ->]. }
  specialize (Hacc (fun jnl => _ ← match jnl with
      | None => _ ← vo_add_free_extent s n;
          modify_counts (fun c => if s <? sparseAllocation c then set_sparseAllocation s c else c)
      | Some _ => mret tt
      end; mret noErr)). cbn beta in Hacc. rewrite Hacc.
  assert (forall b, 0 <= b -> bit_at (bm_words (vo_bitmap v1)) b = bit_at (bm_words (vo_bitmap v)) b && negb (in_run s n b)) as Hexact.
  { intros b Hb. destruct (in_run s n b) eqn:Ein.
    - apply in_run_iff in Ein. rewrite andb_false_r. by apply Hbits.
    - apply in_run_not in Ein. rewrite andb_true_r. by apply Hother. }
  assert (same_shape v (with_counts c v1)) as Hshc by (by apply (same_shape_counts v v1 c (vo_cache v1))).
  assert (alloc_inv (with_counts c v1)) as Hic by (by apply alloc_inv_counts). rewrite Eco in Hc.
  destruct (vo_jnl v1) as [j|] eqn:Ej.
  { apply DeallocateFreed. split; [by intros b Hb; apply Hbits|exact Hexact|exact Hinc|exact Hpend| |exact Hc|done|done].
    destruct (vo_jnl v); [exact Ec|]. by pose proof (proj2 Ejnl eq_refl). }
  pose proof (proj1 Ejnl eq_refl) as E0.
  destruct (dealloc_cache_ok (with_counts c v1)) as (m & c' & E4 & Hi4 & Hc4 & Hsh4 & Hgain); [done|done| |].
  { intros b Hb. apply (used_clear _ s n b Hb); [by apply Hbits|]. unfold reserved_ranges in *. cbn [vb_tentative vb_locked vbm_of vo_reserved with_counts].
    rewrite Er. eapply Forall_impl; [exact Hclear|]. intros r (_ & _ & Hr). lia. }
  unfold mbind at 1, V_bind at 1. rewrite E4. apply DeallocateFreed. change (vo_cache (with_counts c v1)) with (vo_cache v1) in Hgain. rewrite Ec in Hgain.
  split; [by intros b Hb; apply Hbits|exact Hexact|exact Hinc| | |rewrite <-Hc; exact Hc4|by transitivity (with_counts c v1)|done].
  - rewrite E0. intros Hsome. by destruct Hsome.
  - by rewrite E0.
Qed.
End Deallocate.

(** C3: Freeing a run of blocks, not the first and not the last block of the volume,
    that keeps out of the reserved ranges, on a volume that satisfies the invariant of
    the allocator, without the flags for tentative and locked blocks, whatever block I/O
    fails: BlockDeallocate ends without a panic. It succeeds only if every block of the
    run was allocated; then exactly these bits are clear, the blocks are counted as free
    unless HFS_ALLOC_SKIPFREEBLKS is set, and the invariant holds again; with a journal
    the blocks wait for a trim and the cache of free extents is as it was; without one
    they are put into the cache, which then has exactly its old blocks and those of the
    run below the limit of allocations when it had a free slot, and no others in any
    case. When it fails it has met a block that was not allocated, answers EIO and marks
    the volume inconsistent, or it has met another error of the block I/O (also when the
    run has a block that was not allocated and that it did not come to); then no bit is
    set, no bit outside the run and no count changes, and the invariant holds. *)
Theorem BlockDeallocate_correct v s n flags :
  alloc_inv v -> 1 <= s -> 0 < n -> s + n < vo_totalBlocks v -> Forall (clear_of s n) (reserved_ranges (vbm_of v)) ->
  ISSET flags (Z.lor HFS_ALLOC_TENTATIVE HFS_ALLOC_LOCKED) = false ->
  deallocate_outcome v flags s n (BlockDeallocate s n flags v).
Proof. intros. by apply BlockDeallocate_ok. Qed.
