(* ===== verification/AllocSafety.v ===== *)
(** * No block is given twice (core/VolumeAllocation.c, core/hfs_journal.c)

    The allocator with a client: the client asks for blocks with BlockAllocate, gives
    back blocks it holds with BlockDeallocate, and at any time a transaction ends and
    the trim of the transaction before is done, so that the blocks that were freed come
    back to the free extent cache.  In every sequence of these steps the blocks the
    client holds are allocated, and those it is given were not.

    The steps are those without an error of the block I/O while blocks are marked: such
    an error leaves blocks in the cache that are marked already. *)

From S2P Require Import Prelude HfsFormat RangeList FreeExtCache Bitmap BitmapBits BitmapWalk BitmapMark BitmapFree BitmapReserve BitmapProps JournalTrim JournalTrimProps Volume VolumeOps BlockSearch BlockAlloc VolumeProps BlockSearchProps ContigProps AllocSearchProps AllocInv AllocProps FreeProps.

(** ** The end of a transaction *)

(** The trims that the next transaction collects, and those in flight. *)
Definition collected (v : vol) : list dk_extent := match vo_jnl v with Some j => tl_extents (jt_active j) | None => [] end.
Definition in_flight (v : vol) : list dk_extent :=
  match vo_jnl v with Some j => match jt_async j with Some t => tl_extents t | None => [] end | None => [] end.

Definition block_in (v : vol) (extents : list dk_extent) (b : Z) : Prop :=
  in_trim extents (hfsPlusIOPosOffset (vo_geom v) + b * blockSize (vo_geom v)).

Lemma pending_lists v b : pending_block v b <-> block_in v (collected v) b \/ block_in v (in_flight v) b.
Proof.
  unfold pending_block, block_in, collected, in_flight, pending. destruct (vo_jnl v) as [j|].
  - split.
    + intros (j' & [= <-] & [?|(t & -> & ?)]); auto.
    + intros H. exists j. split; [done|]. destruct H as [?|H]; [by left|]. right. destruct (jt_async j) as [t|]; [by exists t|]. by destruct H as (e & He%elem_of_nil & _).
  - split; [by intros (? & ? & _)|]. by intros [(e & He%elem_of_nil & _)|(e & He%elem_of_nil & _)].
Qed.

(** The blocks of [extents] are put into the cache, up to the limit of allocations, when
    it has a slot for each of the extents. *)
Definition takes_back (v : vol) (extents : list dk_extent) (m : hfsmount) : Prop :=
  allocLimit m = allocLimit (vo_cache v) /\
  (vcbFreeExtCnt (vo_cache v) + Z.of_nat (length extents) <= kMaxFreeExtents ->
   vcbFreeExtCnt m <= vcbFreeExtCnt (vo_cache v) + Z.of_nat (length extents) /\
   forall b, 0 <= b -> cached_in m b <-> cached_in (vo_cache v) b \/ block_in v extents b /\ b < allocLimit (vo_cache v)).

Lemma takes_back_nil v : takes_back v [] (vo_cache v).
Proof. split; [done|]. intros _. split; [lia|]. intros b _. split; [by left|]. by intros [?|[(e & He%elem_of_nil & _) _]]. Qed.

Lemma takes_back_cons v s n e extents m1 m : 0 <= s -> 0 < n -> s + n <= UINT32_MAX -> cache_inv (vo_cache v) -> geom_ok v ->
  de_offset e = hfsPlusIOPosOffset (vo_geom v) + s * blockSize (vo_geom v) -> de_length e = n * blockSize (vo_geom v) ->
  add_free_extent_cache (vo_cache v) s n = Some (m1, false) -> takes_back (with_cache m1 v) extents m -> takes_back v (e :: extents) m.
Proof.
  intros Hs Hn Hmax Hc [G1 _ _ _] Eo El E [Hl Hb]. pose proof (add_free_extent_cache_count _ _ _ _ _ Hc Hs Hn Hmax E) as Hcnt.
  destruct (add_free_extent_cache_spec (vo_cache v) s n Hc Hs Hn Hmax) as (m1' & r & E' & _ & _ & [_ Hlim] & _ & Hgain).
  rewrite E in E'. injection E' as <- <-. cbn [vo_cache with_cache] in *. split; [by rewrite Hl|]. cbn [length]. intros Hroom.
  destruct Hb as [Hb1 Hb2]; [lia|]. split; [lia|]. intros b H0. rewrite (Hb2 b H0), (Hgain ltac:(lia) b), Hlim. unfold block_in, in_trim. cbn [vo_geom with_cache].
  setoid_rewrite elem_of_cons. set (x := hfsPlusIOPosOffset (vo_geom v) + b * blockSize (vo_geom v)).
  assert (in_extent x e <-> s <= b < s + n) as He by (unfold in_extent, dk_end, x; rewrite Eo, El; nia).
  split.
  - intros [[?|Hx]|[(e' & He' & Hx) ?]]; [by left|right|right].
    + split; [|lia]. exists e. split; [by left|apply He; lia].
    + split; [|done]. exists e'. auto.
  - intros [?|[(e' & [->|He'] & Hx) ?]]; [by left; left| |].
    + left. right. apply He in Hx. lia.
    + right. split; [|done]. by exists e'.
Qed.

(** The extents of a transaction that is on disk go to the cache. *)
Lemma hfs_trim_callback_ok extents : forall v,
  alloc_inv v -> Forall (whole_blocks v) extents ->
  (forall b e, 0 <= b -> e ∈ extents -> in_extent (hfsPlusIOPosOffset (vo_geom v) + b * blockSize (vo_geom v)) e -> used v 0 b = false) ->
  exists m, hfs_trim_callback extents v = Some (tt, with_cache m v) /\ alloc_inv (with_cache m v) /\ takes_back v extents m.
Proof.
  induction extents as [|e extents IH]; intros v Hi Hw Hfree.
  { exists (vo_cache v). split; [by destruct v|]. split; [by destruct v|apply takes_back_nil]. }
  apply Forall_cons in Hw as [(s & n & H1 & H2 & H3 & Eo & El) Hw]. pose proof (av_ok v Hi) as Hv.
  pose proof (li_max v (vk_limits v Hv)) as Hmax. pose proof (vk_geom v Hv) as [G1 G2 G3 G4].
  cbn [hfs_trim_callback]. unfold mbind at 1, V_bind at 1, get_vol at 1. rewrite Eo, El.
  rewrite Z.add_simpl_l. unfold u64. rewrite (wrap_id 64 (s * _)) by nia. rewrite !Z.div_mul, !u32_id by lia.
  destruct (add_free_extent_cache_spec (vo_cache v) s n (vk_cache v Hv)) as (m & r & E & -> & Hmi & Hsm & Hb & _); [lia|done|lia|].
  assert (forall b, s <= b < s + n -> used v 0 b = false) as Hrun.
  { intros b Hbr. apply (Hfree b e); [lia|left|]. unfold in_extent, dk_end. rewrite Eo, El. nia. }
  destruct (IH (with_cache m v)) as (m' & E' & Hi' & Hback).
  - apply alloc_inv_cache; [done..|]. intros b Hc. destruct (Hb b Hc) as [|Hx]; [by left|right]. apply Hrun. lia.
  - done.
  - intros b e' Hb0 He'. apply Hfree; [done|by right].
  - exists m'. split; [|split; [done|apply (takes_back_cons v s n e extents m m'); try done; [lia|apply (vk_cache v Hv)]]]. change (with_cache m' v) with (with_cache m' (with_cache m v)). rewrite <-E'. unfold vo_add_free_extent, mbind, V_bind, get_vol, vo_lift. by rewrite E.
Qed.

(** Journals with fewer trims. *)
Lemma alloc_inv_jnl v j j' :
  alloc_inv v -> vo_jnl v = Some j -> jtrim_ok j' -> jt_invalid j' = false -> (forall e, e ∈ trims j' -> e ∈ trims j) -> jt_memory j' = jt_memory j ->
  alloc_inv (with_jnl (Some j') v).
Proof.
  intros [[G1 [] [] G4 G5 G6] H2 H3 H4 H5 H6] Ej Hj Hinv Hsub Hm. destruct (G4 j Ej) as (_ & _ & Hw).
  assert (forall b, pending_block (with_jnl (Some j') v) b -> pending_block v b) as Hp.
  { intros b (j0 & [= <-] & Hb). exists j. split; [done|]. apply pending_trims in Hb as (e & He & Hb). apply pending_trims. eauto. }
  split; [|done|done| |done|].
  - split; [done|by split|by split| |done|done]. intros j0 [= <-]. split; [done|]. split; [done|].
    rewrite Forall_forall in Hw |- *. intros e He. by apply Hw, Hsub.
  - intros b Hb Hpb. by apply (H4 b Hb), Hp.
  - intros j0 [= <-]. rewrite Hm. by apply H6.
Qed.

Lemma empty_trim_ok : trim_ok [].
Proof. split; constructor. Qed.

Definition idle_async (v : vol) : Prop := forall j, vo_jnl v = Some j -> jt_async j = None.

Lemma trim_hand_over_ok v :
  alloc_inv v -> idle_async v ->
  exists v', trim_hand_over v = Some (tt, v') /\ alloc_inv v' /\ vo_bitmap v' = vo_bitmap v /\ vo_cache v' = vo_cache v /\
    vo_reserved v' = vo_reserved v /\ (forall b, pending_block v' b <-> pending_block v b) /\
    collected v' = [] /\ in_flight v' = collected v /\ vo_geom v' = vo_geom v.
Proof.
  intros Hi Hidle. unfold trim_hand_over, mbind, V_bind, get_vol. destruct (vo_jnl v) as [j|] eqn:Ej.
  2:{ exists v. split; [done|]. split; [done|]. do 3 (split; [done|]). split; [done|]. unfold collected, in_flight. by rewrite Ej. }
  pose proof (Hidle j Ej) as Ea. rewrite Ea. destruct (vk_jnl v (av_ok v Hi) j Ej) as ([J1 J2 J3] & Hinv & Hw).
  set (async := if 0 <? _ then _ else _).
  assert (forall e, e ∈ match async with Some t => tl_extents t | None => [] end <-> e ∈ tl_extents (jt_active j)) as Hasync.
  { intros e. subst async. destruct (tl_extents (jt_active j)) eqn:E; [done|]. change (0 <? Z.of_nat (length (d :: l))) with true. cbn match. by rewrite E. }
  eexists. split; [reflexivity|]. split; [|split; [done|split; [done|split; [done|split]]]].
  - apply (alloc_inv_jnl v j); [done|done| |done| |done].
    + split; [apply empty_trim_ok| |cbn; lia]. cbn. intros t Et. subst async. destruct (0 <? _); [|done]. injection Et as <-. by split.
    + intros e. unfold trims. cbn. rewrite Hasync, elem_of_app. by left.
  - intros b. unfold pending_block. cbn [vo_jnl with_jnl vo_geom].
    assert (forall x, pending (mkJtrim (jt_invalid j) (mkTrim 0 []) async false (jt_memory j)) x <-> pending j x) as Hp.
    { intros x. rewrite !pending_trims. unfold trims. cbn. rewrite Ea, app_nil_r. by setoid_rewrite Hasync. }
    rewrite Ej. split; intros (j0 & [= <-] & Hb); eexists; (split; [reflexivity|]); by apply Hp.
  - split; [done|]. split; [|done]. unfold in_flight, collected. cbn. rewrite Ej. subst async. by destruct (tl_extents (jt_active j)) eqn:E.
Qed.

Lemma journal_trim_flush_ok v :
  alloc_inv v ->
  exists v', journal_trim_flush v = Some (tt, v') /\ alloc_inv v' /\ vo_bitmap v' = vo_bitmap v /\ vo_reserved v' = vo_reserved v /\
    idle_async v' /\ takes_back v (in_flight v) (vo_cache v') /\ collected v' = collected v /\ in_flight v' = [] /\ vo_geom v' = vo_geom v.
Proof.
  intros Hi. unfold journal_trim_flush, mbind at 1, V_bind at 1, get_vol. unfold collected, in_flight, idle_async. destruct (vo_jnl v) as [j|] eqn:Ej.
  2:{ exists v. rewrite Ej. do 5 (split; [done|]). split; [apply takes_back_nil|done]. }
  destruct (vk_jnl v (av_ok v Hi) j Ej) as ([J1 J2 J3] & Hinv & Hw). destruct (jt_async j) as [t|] eqn:Ea.
  2:{ exists v. rewrite Ej, Ea. do 4 (split; [done|]). split; [by intros j' [= <-]|]. split; [apply takes_back_nil|done]. }
  assert (forall e, e ∈ tl_extents t -> e ∈ trims j) as Hin by (intros e He; unfold trims; rewrite Ea; apply elem_of_app; by right).
  destruct (hfs_trim_callback_ok (tl_extents t) v Hi) as (m & E & Him & Hback).
  { rewrite Forall_forall in Hw |- *. intros e He. by apply Hw, Hin. }
  { intros b e Hb He Hx. apply (av_pending v Hi b Hb). exists j. split; [done|]. apply pending_trims. eauto. }
  set (j' := mkJtrim (jt_invalid j) (jt_active j) None (jt_flush j) (jt_memory j)).
  exists (with_jnl (Some j') (with_cache m v)). unfold mbind, V_bind. rewrite E. split; [unfold modify; cbn; by rewrite Ej|].
  split; [|do 2 (split; [done|]); split; [by intros j0 [= <-]|by split]].
  apply (alloc_inv_jnl _ j); try done. unfold trims. cbn. intros e. rewrite app_nil_r, elem_of_app. by left.
Qed.

(** ** The allocator and a client *)

(** A volume and the blocks the client holds. *)
Record client := mkClient { cl_vol : vol; cl_held : gset Z }.

Definition bit_set (v : vol) (b : Z) : Prop := bit_at (bm_words (vo_bitmap v)) b = true.

Inductive alloc_step : client -> client -> Prop :=
| StepAllocate v held start minBlocks maxBlocks flags s n v' :
    0 <= start -> request_ok v flags minBlocks maxBlocks ->
    BlockAllocate start minBlocks maxBlocks flags v = Some (noErr, s, n, v') ->
    alloc_step (mkClient v held) (mkClient v' (held ∪ blocks s n))
| StepFull v held start minBlocks maxBlocks flags s n v' :
    0 <= start -> request_ok v flags minBlocks maxBlocks ->
    BlockAllocate start minBlocks maxBlocks flags v = Some (dskFulErr, s, n, v') ->
    alloc_step (mkClient v held) (mkClient v' held)
| StepFree v held s n flags err v' :
    0 < n -> blocks s n ⊆ held -> ISSET flags (Z.lor HFS_ALLOC_TENTATIVE HFS_ALLOC_LOCKED) = false ->
    BlockDeallocate s n flags v = Some (err, v') ->
    alloc_step (mkClient v held) (mkClient v' (held ∖ blocks s n))
| StepTransaction v held v' :
    trim_hand_over v = Some (tt, v') -> idle_async v -> alloc_step (mkClient v held) (mkClient v' held)
| StepTrimmed v held v' :
    journal_trim_flush v = Some (tt, v') -> alloc_step (mkClient v held) (mkClient v' held).

(** What holds of every state that can be reached from [v0], where nothing is held. *)
Record client_inv (v0 : vol) (c : client) : Prop := {
  ci_alloc : alloc_inv (cl_vol c);
  ci_total : vo_totalBlocks (cl_vol c) = vo_totalBlocks v0;
  ci_reserved : vo_reserved (cl_vol c) = vo_reserved v0;
  ci_held : forall b, b ∈ cl_held c -> 0 <= b < vo_totalBlocks v0 /\ bit_set (cl_vol c) b;
  (* the blocks that were in use are not touched *)
  ci_first : forall b, 0 <= b -> bit_set v0 b -> bit_set (cl_vol c) b /\ b ∉ cl_held c;
  ci_apart : forall b, b ∈ cl_held c -> in_ranges (reserved_ranges (vbm_of v0)) b = false;
}.

(** A run none of whose blocks is in a range keeps out of the ranges. *)
Lemma run_unreserved rs s n :
  Forall range_ok rs -> 0 < n -> (forall b, s <= b < s + n -> in_ranges rs b = false) -> Forall (clear_of s n) rs.
Proof.
  intros Hok Hn Hno. apply Forall_forall. intros r Hrin. rewrite Forall_forall in Hok. destruct (Hok r Hrin) as [Hr1 Hr2].
  split; [done|]. split; [done|]. destruct (Z.lt_ge_cases (rl_end r) s) as [|Hge]; [by left|right].
  destruct (Z.le_gt_cases (s + n) (rl_start r)) as [|Hgt]; [done|]. exfalso.
  specialize (Hno (Z.max s (rl_start r)) ltac:(lia)). unfold in_ranges in Hno. rewrite <-not_true_iff_false, existsb_exists in Hno.
  apply Hno. exists r. split; [by apply list_elem_of_In|lia].
Qed.

Section Client.
Context (v0 : vol) (Hi0 : alloc_inv v0).

Lemma reserved_same v : vo_reserved v = vo_reserved v0 -> reserved_ranges (vbm_of v) = reserved_ranges (vbm_of v0).
Proof. unfold reserved_ranges. cbn. by intros ->. Qed.

(** Blocks that are held are neither the first nor the last, and keep out of the
    reserved ranges. *)
Lemma held_run c s n :
  client_inv v0 c -> 0 < n -> blocks s n ⊆ cl_held c ->
  1 <= s /\ s + n < vo_totalBlocks v0 /\ Forall (clear_of s n) (reserved_ranges (vbm_of v0)).
Proof.
  intros [H1 Ht Hr Hh Hf Ha] Hn Hsub. pose proof (vk_limits v0 (av_ok v0 Hi0)) as [L1 _ _ Lf _ Ll].
  pose proof (vk_bitmap v0 (av_ok v0 Hi0)) as (_ & R1 & R2).
  assert (forall b, s <= b < s + n -> b ∈ cl_held c) as Hin by (intros b Hb; by apply Hsub, elem_of_blocks, in_run_iff).
  assert (forall b, 0 <= b -> bit_set v0 b -> ~ s <= b < s + n) as Hout by (intros b H0 Hb Hbr; by apply (Hf b H0 Hb), Hin).
  pose proof (Hh s (Hin s ltac:(lia))) as [? _]. pose proof (Hh (s + n - 1) (Hin (s + n - 1) ltac:(lia))) as [? _].
  pose proof (Hout 0 ltac:(lia) Lf). pose proof (Hout (vo_totalBlocks v0 - 1) ltac:(lia) Ll). split; [lia|]. split; [lia|].
  apply run_unreserved; [by apply Forall_app|done|]. intros b Hb. by apply Ha, Hin.
Qed.

Lemma allocate_inv v held start minBlocks maxBlocks flags s n v' :
  client_inv v0 (mkClient v held) -> 0 <= start -> request_ok v flags minBlocks maxBlocks ->
  BlockAllocate start minBlocks maxBlocks flags v = Some (noErr, s, n, v') ->
  client_inv v0 (mkClient v' (held ∪ blocks s n)) /\ blocks s n ## held /\ forall b, b ∈ blocks s n -> ~ bit_set v b.
Proof.
  intros [H1 Ht Hr Hh Hf Ha] Hst Hrq E. cbn [cl_vol cl_held] in *. pose proof (BlockAllocate_ok v start minBlocks maxBlocks flags H1 Hrq Hst) as Ho.
  rewrite E in Ho. inversion Ho as [s' n' w Hg Hmax Hleast Eq|w _ _ _ Eq|err w Hne _ _ Eq]; [|by subst]. subst s' n' w. clear Ho.
  destruct Hg as [G1 G2 G3 G4 G5 G6 G7 [G9 _ G8 _ _ _] G10]. pose proof (vk_limits v (av_ok v H1)) as [L1 _ _ _ _ _].
  assert (forall b, s <= b < s + n -> ~ bit_set v b) as Hfree.
  { intros b Hb Hbit. specialize (G4 b Hb). rewrite used_bit, Hbit in G4. done. }
  split; [|split].
  - split; cbn [cl_vol cl_held]; [done|by rewrite G9|by rewrite G8| | |].
    + intros b [Hb|Hb]%elem_of_union.
      * destruct (Hh b Hb) as [? Hbit]. split; [done|]. unfold bit_set. by rewrite G5, Hbit, orb_true_r by lia.
      * apply elem_of_blocks in Hb. pose proof Hb as Hb'%in_run_iff. split; [lia|]. unfold bit_set. by rewrite G5, Hb by lia.
    + intros b H0 Hbit. destruct (Hf b H0 Hbit) as [Hv Hnot]. split; [unfold bit_set in *; by rewrite G5, Hv, orb_true_r by lia|].
      intros [|Hb%elem_of_blocks%in_run_iff]%elem_of_union; [done|]. by apply (Hfree b).
    + intros b [Hb|Hb%elem_of_blocks%in_run_iff]%elem_of_union; [by apply Ha|]. specialize (G4 b Hb). rewrite used_bit in G4.
      apply orb_false_iff in G4 as [_ G4]. rewrite <-(reserved_same v Hr). exact G4.
  - intros b Hb%elem_of_blocks%in_run_iff Hheld. apply (Hfree b Hb), (Hh b Hheld).
  - intros b Hb%elem_of_blocks%in_run_iff. by apply Hfree.
Qed.

Lemma deallocate_inv v held s n flags :
  client_inv v0 (mkClient v held) -> 0 < n -> blocks s n ⊆ held -> ISSET flags (Z.lor HFS_ALLOC_TENTATIVE HFS_ALLOC_LOCKED) = false ->
  exists err v', BlockDeallocate s n flags v = Some (err, v') /\ (err = noErr \/ err <> noErr /\ err ∈ bm_io (vo_bitmap v)) /\
    client_inv v0 (mkClient v' (held ∖ blocks s n)).
Proof.
  intros Hc Hn Hsub Hflags. destruct (held_run _ s n Hc Hn Hsub) as (B1 & B2 & B3). pose proof Hc as [H1 Ht Hr Hh Hf Ha].
  cbn [cl_vol cl_held] in *.
  assert (forall v', alloc_inv v' -> vo_totalBlocks v' = vo_totalBlocks v -> vo_reserved v' = vo_reserved v ->
    (forall b, 0 <= b -> ~ s <= b < s + n -> bit_at (bm_words (vo_bitmap v')) b = bit_at (bm_words (vo_bitmap v)) b) ->
    client_inv v0 (mkClient v' (held ∖ blocks s n))) as Hinv.
  { intros v' Hi' Et Er Hother. split; cbn [cl_vol cl_held]; [done|by rewrite Et|by rewrite Er| | |].
    - intros b [Hb Hout]%elem_of_difference. destruct (Hh b Hb) as [? Hbit]. split; [done|]. unfold bit_set. rewrite Hother; [done|lia|].
      intros Hin. by apply Hout, elem_of_blocks, in_run_iff.
    - intros b H0 Hbit. destruct (Hf b H0 Hbit) as [Hv Hnot]. split; [|by intros [? _]%elem_of_difference]. unfold bit_set. rewrite Hother; [done|done|].
      intros Hin. by apply Hnot, Hsub, elem_of_blocks, in_run_iff.
    - intros b [Hb _]%elem_of_difference. by apply Ha. }
  destruct (BlockDeallocate_ok v H1 s n flags B1 Hn) as [v' Hfr|b v' Hb Hbit _ _|err v' Hne Hin _ Hnf]; [by rewrite Ht|by rewrite (reserved_same v Hr)|done|..].
  - exists noErr, v'. split; [done|]. split; [by left|]. destruct Hfr as [_ F2 _ _ _ _ [] F8]. apply Hinv; try done.
    intros b H0 Hout. rewrite F2 by done. by rewrite (proj2 (in_run_not s n b) Hout), andb_true_r.
  - assert (b ∈ held) as Hheld by (by apply Hsub, elem_of_blocks, in_run_iff). destruct (Hh b Hheld) as [_ Hset]. unfold bit_set in Hset. congruence.
  - exists err, v'. split; [done|]. split; [by right|]. destruct Hnf as [N1 N2 N3 [] N6]. by apply Hinv.
Qed.

Lemma frame_inv v v' held :
  client_inv v0 (mkClient v held) -> alloc_inv v' -> vo_totalBlocks v' = vo_totalBlocks v -> bm_words (vo_bitmap v') = bm_words (vo_bitmap v) ->
  vo_reserved v' = vo_reserved v -> client_inv v0 (mkClient v' held).
Proof.
  intros [H1 Ht Hr Hh Hf Ha] Hi' Et Ew Er. unfold bit_set in *. cbn [cl_vol cl_held] in *.
  split; cbn [cl_vol cl_held]; unfold bit_set; rewrite ?Et, ?Er, ?Ew; done.
Qed.

Lemma alloc_step_inv c c' : client_inv v0 c -> alloc_step c c' -> client_inv v0 c'.
Proof.
  intros Hc Hstep. destruct Hstep as [v held start least most flags s n v' Hst Hrq E|v held start least most flags s n v' Hst Hrq E
    |v held s n flags err v' Hn Hsub Hflags E|v held v' E Hidle|v held v' E].
  - by apply (allocate_inv v held start least most flags s n v').
  - pose proof (BlockAllocate_ok v start least most flags (ci_alloc _ _ Hc) Hrq Hst) as Ho. rewrite E in Ho.
    inversion Ho as [| w Hs Hi' _ Eq|err w Hne Hin _ Eq]; subst; [|by destruct (rq_io v flags least most Hrq)].
    pose proof (searched_same 0 v v' Hs) as (_ & Er & _ & _ & _ & Ew & _ & Et & _). by apply (frame_inv v).
  - destruct (deallocate_inv v held s n flags Hc Hn Hsub Hflags) as (err' & w & E' & _ & Hinv). rewrite E in E'. by injection E' as <- <-.
  - destruct (trim_hand_over_ok v (ci_alloc _ _ Hc) Hidle) as (w & E' & Hi' & Eb & _ & Er & _). rewrite E in E'. injection E' as <-.
    unfold vo_totalBlocks in *. apply (frame_inv v); try done; unfold vo_totalBlocks; by rewrite Eb.
  - destruct (journal_trim_flush_ok v (ci_alloc _ _ Hc)) as (w & E' & Hi' & Eb & Er & _). rewrite E in E'. injection E' as <-.
    apply (frame_inv v); try done; unfold vo_totalBlocks; by rewrite Eb.
Qed.
End Client.

Lemma reachable_inv v0 c : alloc_inv v0 -> rtc alloc_step (mkClient v0 ∅) c -> client_inv v0 c.
Proof.
  intros Hi Hr. remember (mkClient v0 ∅) as c0 eqn:E0. assert (client_inv v0 c0) as Hc.
  { subst c0. split; cbn; [done|done|done|by intros b Hb%elem_of_empty| |by intros b Hb%elem_of_empty].
    intros b _ Hb. split; [done|]. apply not_elem_of_empty. }
  clear E0. induction Hr as [|c c1 c2 Hs _ IH]; [done|]. apply IH. by apply (alloc_step_inv v0 Hi c).
Qed.

(** C1: The allocator is safe for its client.  From a volume that satisfies the
    invariant, after any sequence of allocations, failed allocations, frees of blocks
    that are held (whole runs given before or parts of them), ends of transactions and
    completed trims: the invariant holds; every block that is held is allocated; every
    block that was in use at the start is still in use and not held; no held block is in
    a reserved range; a further allocation never gives a block that is held or was in
    use; and a free of held blocks ends without a panic, and fails only with an error of
    the block I/O.  The allocations are those with plain flags and room ([request_ok])
    that succeed or find the disk full; one that ends in an error of the block I/O is
    not a step. *)
Theorem no_block_given_twice v0 c :
  alloc_inv v0 -> rtc alloc_step (mkClient v0 ∅) c ->
  client_inv v0 c /\
  (forall start minBlocks maxBlocks flags s n v',
    0 <= start -> request_ok (cl_vol c) flags minBlocks maxBlocks ->
    BlockAllocate start minBlocks maxBlocks flags (cl_vol c) = Some (noErr, s, n, v') ->
    blocks s n ## cl_held c /\ forall b, b ∈ blocks s n -> ~ bit_set v0 b) /\
  (forall s n flags,
    0 < n -> blocks s n ⊆ cl_held c -> ISSET flags (Z.lor HFS_ALLOC_TENTATIVE HFS_ALLOC_LOCKED) = false ->
    exists err v', BlockDeallocate s n flags (cl_vol c) = Some (err, v') /\
      (err = noErr \/ err <> noErr /\ err ∈ bm_io (vo_bitmap (cl_vol c)))).
Proof.
  intros Hi Hr. pose proof (reachable_inv v0 c Hi Hr) as Hc. split; [done|]. destruct c as [v held]. cbn [cl_vol cl_held]. split.
  - intros start least most flags s n v' Hst Hrq E. destruct (allocate_inv v0 v held start least most flags s n v' Hc Hst Hrq E) as (Hc' & Hd & Hfree).
    split; [done|]. intros b Hb Hbit. destruct (ci_held _ _ Hc' b) as [? _]; [cbn; set_solver|].
    apply (Hfree b Hb). by apply (ci_first _ _ Hc b ltac:(lia) Hbit).
  - intros s n flags Hn Hsub Hfl. destruct (deallocate_inv v0 Hi v held s n flags Hc Hn Hsub Hfl) as (err & v' & E & He & _). eauto.
Qed.

(** C25: Blocks that were freed come back: on a volume that satisfies the invariant the
    trim in flight completes, the transaction then ends without the panic for a trim in
    flight, and its own trim completes.  After that no block waits for a trim; and if
    the cache of free extents has a slot for every extent that waited, it has exactly
    the blocks it had and those that waited and are below the limit of allocations.  The
    bitmap and the reservations are as they were, and the invariant holds. *)
Theorem freed_blocks_come_back v :
  alloc_inv v ->
  exists v1 v2 v3, journal_trim_flush v = Some (tt, v1) /\ trim_hand_over v1 = Some (tt, v2) /\ journal_trim_flush v2 = Some (tt, v3) /\
    alloc_inv v3 /\ vo_bitmap v3 = vo_bitmap v /\ vo_reserved v3 = vo_reserved v /\ idle_async v3 /\ (forall b, ~ pending_block v3 b) /\
    (vcbFreeExtCnt (vo_cache v) + Z.of_nat (length (in_flight v)) + Z.of_nat (length (collected v)) <= kMaxFreeExtents ->
     forall b, 0 <= b -> cached_in (vo_cache v3) b <-> cached_in (vo_cache v) b \/ pending_block v b /\ b < allocLimit (vo_cache v)).
Proof.
  intros Hi. destruct (journal_trim_flush_ok v Hi) as (v1 & E1 & Hi1 & Eb1 & Er1 & Ha1 & [Hl1 Ht1] & Ec1 & _ & Eg1).
  destruct (trim_hand_over_ok v1 Hi1 Ha1) as (v2 & E2 & Hi2 & Eb2 & Em2 & Er2 & _ & Ec2 & Ef2 & Eg2).
  destruct (journal_trim_flush_ok v2 Hi2) as (v3 & E3 & Hi3 & Eb3 & Er3 & Ha3 & [Hl3 Ht3] & Ec3 & Ef3 & Eg3).
  exists v1, v2, v3. do 4 (split; [done|]). split; [by rewrite Eb3, Eb2|]. split; [by rewrite Er3, Er2|]. split; [done|]. split.
  - intros b. rewrite pending_lists, Ef3, Ec3, Ec2. by intros [(e & He%elem_of_nil & _)|(e & He%elem_of_nil & _)].
  - intros Hroom b Hb. rewrite Em2, Ef2, Ec1 in Ht3. destruct Ht1 as [Hc1 Ht1]; [lia|]. destruct Ht3 as [_ Ht3]; [lia|].
    rewrite (Ht3 b Hb), (Ht1 b Hb), Hl1, pending_lists. unfold block_in. rewrite Eg2, Eg1. tauto.
Qed.
