(* ===== verification/AllocExample.v ===== *)
(** * A small volume on which the allocator's theorems apply

    256 blocks of 4096 bytes, a bitmap of four blocks of 64 bits, a journal, a summary
    table and a tentative range.  The witnesses of the theorems about the searches, about
    allocating and about freeing. *)

From S2P Require Import Prelude HfsFormat RangeList FreeExtCache Bitmap BitmapBits BitmapWalk BitmapMark BitmapFree BitmapReserve BitmapProps JournalTrim JournalTrimProps Volume VolumeOps BlockSearch BlockAlloc VolumeProps BlockSearchProps ContigProps AllocSearchProps AllocInv AllocProps FreeProps AllocSafety.

Definition ex_vol : vol :=
  mkVol (mkBitmap [0xFFFFFFFF; 0xFFF0FFFF; 0; 0xFFFF0000; 0; 0; 0; 1] 8 256 false [])
    (ResetVCBFreeExtCache (mkMount [] 0 HFS_SUMMARY_TABLE 255)) (mkSummary [0] 4)
    (mkReserved {[1 := rl_make 200 203]} [1] []) (Some (mkJtrim false (mkTrim 0 []) None false []))
    (mkCounts 160 4 0 0 0 0 0 0) (mkGeometry 4096 0 (256 * 4096) 0 0 None (Some 1)).

Lemma ex_vol_ok : vol_ok ex_vol.
Proof.
  split.
  - split; [|split; [|by apply Forall_nil]].
    + split; [done|by exists 6|by exists 4%nat|done|]. do 8 (apply Forall_cons; split; [done|]). by apply Forall_nil.
    + change (vb_tentative (vbm_of ex_vol)) with [rl_make 200 203]. apply Forall_cons. split; [|by apply Forall_nil].
      unfold range_ok, UINT32_MAX. cbn. lia.
  - split; vm_compute; done || (split; done).
  - split; vm_compute; done.
  - intros j [= <-]. split; [split|split; [done|by apply Forall_nil]]; [apply empty_trim_ok|done|done].
  - intros _ b Hb. cbn. change (block_bits ex_vol) with 64. change (vo_totalBlocks ex_vol) with 256 in Hb.
    assert (0 <= b / 64 / 8 < 1) by (split; [apply Z.div_pos; [apply Z.div_pos|]; lia|apply Z.div_lt_upper_bound; [lia|apply Z.div_lt_upper_bound; lia]]). lia.
  - apply ResetVCBFreeExtCache_inv. vm_compute. done.
Qed.

Lemma ex_vol_inv : alloc_inv ex_vol.
Proof.
  split.
  - apply ex_vol_ok.
  - vm_compute. done.
  - intros b (e & He & _). vm_compute in He. by apply elem_of_nil in He.
  - intros b _ (j & [= <-] & (e & He & _)%pending_trims). by apply elem_of_nil in He.
  - intros _ index Hi Hbit. exfalso. unfold table_bit in Hbit. change (sm_table (vo_summary ex_vol)) with [0] in Hbit.
    destruct (Z.to_nat (index / 8)) as [|k]; cbn [lookup list_lookup] in Hbit; [by rewrite Z.testbit_0_l in Hbit|done].
  - intros j [= <-]. apply not_elem_of_nil.
Qed.

Lemma ex_request flags minBlocks maxBlocks :
  plain flags -> 0 < minBlocks <= maxBlocks -> minBlocks <= 156 -> maxBlocks <= 1000 -> request_ok ex_vol flags minBlocks maxBlocks.
Proof.
  intros Hf H1 H2 H3. split; [done|done|unfold UINT32_MAX; lia|cbn; unfold UINT32_MAX; lia| |done|apply not_elem_of_nil].
  change (hfs_freeblks ex_vol false) with 160. cbn. lia.
Qed.

Lemma BlockFindAnyBitmap_correct_witness :
  exists err ext v', BlockFindAnyBitmap 10 255 30 0 ex_vol = Some ((err, ext), v') /\ searched 0 ex_vol v' /\
    any_result ex_vol 0 10 255 30 err ext.
Proof. apply (BlockFindAnyBitmap_correct ex_vol 10 255 30 0 ex_vol_ok); vm_compute; [split|..]; congruence || (split; congruence). Defined.

Lemma BlockFindContiguous_correct_witness :
  exists err ext v', BlockFindContiguous 1 255 40 50 true true 0 ex_vol = Some ((err, ext), v') /\ searched 0 ex_vol v' /\
    search_result ex_vol (contig_fit ex_vol 0 1 255 40 50 true true) (contig_full ex_vol 0 1 255 40 true true) err ext.
Proof. apply (BlockFindContiguous_correct ex_vol 1 255 40 50 0 true true ex_vol_ok). split; vm_compute; try congruence; split; congruence. Defined.

Lemma BlockAllocate_correct_witness :
  allocate_outcome ex_vol HFS_ALLOC_FORCECONTIG 20 30 (BlockAllocate 0 20 30 HFS_ALLOC_FORCECONTIG ex_vol).
Proof. apply (BlockAllocate_correct ex_vol 0 20 30 HFS_ALLOC_FORCECONTIG ex_vol_inv); [apply ex_request; [done|lia..]|lia]. Defined.

(** The volume with another journal, or none. *)
Lemma ex_with_jnl o :
  (forall j, o = Some j -> jtrim_ok j /\ jt_invalid j = false /\ Forall (whole_blocks ex_vol) (trims j) /\ false ∉ jt_memory j) ->
  (forall b, 0 <= b -> pending_block (with_jnl o ex_vol) b -> used ex_vol 0 b = false) -> alloc_inv (with_jnl o ex_vol).
Proof.
  intros Ho Hp. destruct ex_vol_inv as [[G1 [] [] _ G5 G6] H2 H3 _ H5 _].
  split; [split; [done|by split|by split| |done|done]|done|done|exact Hp|done|].
  - intros j Ej. by destruct (Ho j Ej) as (? & ? & ? & _).
  - intros j Ej. by destruct (Ho j Ej) as (_ & _ & _ & ?).
Qed.

(** Without a journal. *)
Definition ex_plain : vol := with_jnl None ex_vol.

Lemma ex_plain_inv : alloc_inv ex_plain.
Proof. apply ex_with_jnl; [done|]. by intros b _ (j & ? & _). Qed.

(** With a journal, and without one. *)
Lemma BlockDeallocate_correct_witness :
  deallocate_outcome ex_vol 0 10 30 (BlockDeallocate 10 30 0 ex_vol) /\ deallocate_outcome ex_plain 0 10 30 (BlockDeallocate 10 30 0 ex_plain).
Proof.
  assert (Forall (clear_of 10 30) [rl_make 200 203]) as Hclear.
  { apply Forall_singleton. unfold clear_of, UINT32_MAX. cbn. lia. }
  split.
  - by apply (BlockDeallocate_correct ex_vol 10 30 0 ex_vol_inv).
  - by apply (BlockDeallocate_correct ex_plain 10 30 0 ex_plain_inv).
Defined.

(** The blocks 44 to 47 wait for the trim in flight, 64 to 69 for the next one. *)
Definition ex_trims : jtrim :=
  mkJtrim false (mkTrim 1 [mkDk (64 * 4096) (6 * 4096)]) (Some (mkTrim 1 [mkDk (44 * 4096) (4 * 4096)])) false [].
Definition ex_waiting : vol := with_jnl (Some ex_trims) ex_vol.

Lemma ex_pending b : pending_block ex_waiting b <-> 64 <= b < 70 \/ 44 <= b < 48.
Proof.
  rewrite pending_lists. unfold block_in, in_trim. cbn [collected in_flight ex_waiting vo_jnl with_jnl ex_trims jt_active jt_async tl_extents].
  setoid_rewrite list_elem_of_singleton. unfold in_extent, dk_end.
  change (hfsPlusIOPosOffset (vo_geom ex_waiting)) with 0. change (blockSize (vo_geom ex_waiting)) with 4096.
  split; [intros [(e & -> & H)|(e & -> & H)]; cbn in H; lia|intros [H|H]; [left|right]; eexists; (split; [reflexivity|cbn; lia])].
Qed.

Lemma ex_trim_ok s n : 0 <= s < 2 ^ 16 -> 0 < n < 2 ^ 16 -> trim_ok [mkDk (s * 4096) (n * 4096)].
Proof. intros Hs Hn. split; [|by repeat constructor]. apply Forall_singleton. unfold dk_ok, dk_end. cbn. lia. Qed.

Lemma ex_waiting_inv : alloc_inv ex_waiting.
Proof.
  apply ex_with_jnl.
  - intros j [= <-]. split; [|split; [done|split; [|apply not_elem_of_nil]]].
    + split; [by apply ex_trim_ok|intros t [= <-]; split; [by apply ex_trim_ok|done]|done].
    + apply Forall_cons. split; [by exists 64, 6|]. apply Forall_singleton. by exists 44, 4.
  - intros b _ [Hb|Hb]%ex_pending.
    + assert (b = 64 \/ b = 65 \/ b = 66 \/ b = 67 \/ b = 68 \/ b = 69) as Hc by lia.
      destruct Hc as [->|[->|[->|[->|[->| ->]]]]]; vm_compute; reflexivity.
    + assert (b = 44 \/ b = 45 \/ b = 46 \/ b = 47) as Hc by lia. destruct Hc as [->|[->|[->| ->]]]; vm_compute; reflexivity.
Qed.

(** After the two trims the block 45 and the block 66, which waited, are in the cache. *)
Lemma freed_blocks_come_back_witness :
  pending_block ex_waiting 45 /\ pending_block ex_waiting 66 /\
  exists v1 v2 v3, journal_trim_flush ex_waiting = Some (tt, v1) /\ trim_hand_over v1 = Some (tt, v2) /\ journal_trim_flush v2 = Some (tt, v3) /\
    alloc_inv v3 /\ (forall b, ~ pending_block v3 b) /\ cached_in (vo_cache v3) 45 /\ cached_in (vo_cache v3) 66 /\ ~ cached_in (vo_cache v3) 70.
Proof.
  pose proof ex_pending as Hp. split; [apply Hp; lia|]. split; [apply Hp; lia|].
  destruct (freed_blocks_come_back ex_waiting ex_waiting_inv) as (v1 & v2 & v3 & E1 & E2 & E3 & Hi & _ & _ & _ & Hnone & Hback).
  specialize (Hback ltac:(vm_compute; congruence)). change (allocLimit (vo_cache ex_waiting)) with 255 in Hback.
  exists v1, v2, v3. do 3 (split; [assumption|]). split; [exact Hi|]. split; [exact Hnone|]. rewrite !Hback, !Hp by lia.
  assert (~ cached_in (vo_cache ex_waiting) 70) as Hno by (intros (e & He & _); by apply elem_of_nil in He).
  split; [right; lia|split; [right; lia|intros [?|?]; [done|lia]]].
Defined.

(** The volume after an operation. *)
Definition after {A} (m : V A) (v : vol) : vol := match m v with Some (_, v') => v' | None => v end.
Definition ex_after : vol := after (BlockAllocate 0 20 30 HFS_ALLOC_FORCECONTIG) ex_vol.

Lemma ex_reachable : rtc alloc_step (mkClient ex_vol ∅) (mkClient ex_after (∅ ∪ blocks 64 30)).
Proof.
  apply rtc_once, (StepAllocate ex_vol ∅ 0 20 30 HFS_ALLOC_FORCECONTIG); [done|apply ex_request; [done|lia..]|].
  vm_compute. reflexivity.
Qed.

Lemma no_block_given_twice_witness :
  rtc alloc_step (mkClient ex_vol ∅) (mkClient ex_after (∅ ∪ blocks 64 30)) /\ client_inv ex_vol (mkClient ex_after (∅ ∪ blocks 64 30)).
Proof. split; [exact ex_reachable|]. exact (proj1 (no_block_given_twice ex_vol _ ex_vol_inv ex_reachable)). Defined.

