(* ===== verification/ExtentsFile.v ===== *)
(** * The extents overflow file, as the file extents use it (core/FileExtentMapping.c)

    The extents that do not fit in a file's catalog record are records of a B-tree, the
    extents overflow file.  FileExtentMapping.c reads and changes them with the
    operations of BTree.c.  [ExtentsTree] has these operations, on a state of the tree
    of any type [E]; [ExtentsTreeLaws] is what they promise: the tree holds a finite map
    from keys to records, which they look up and change.  A change may make the tree
    grow, so it works on the volume too.

    [Finite] is the map itself with the operations on it; [BTSearchRecord] on the node
    bytes is BTree.v. *)

From S2P Require Import Prelude HfsFormat ExtentKeys RangeList FreeExtCache Bitmap BitmapBits BitmapWalk BitmapMark JournalTrim Volume VolumeOps BlockSearch VolumeProps AllocInv AllocProps.

(** ** Keys and records *)

(** HFSPlusExtentKey (core/hfs_format.h); its pad is always 0. *)
Record HFSPlusExtentKey := mkExtKey {
  xk_keyLength : Z;
  xk_forkType : Z;
  xk_fileID : Z;
  xk_startBlock : Z;
}.

(** HFSPlusExtentRecord: kHFSPlusExtentDensity descriptors. *)
Notation HFSPlusExtentRecord := (list HFSPlusExtentDescriptor).

Definition fsBTStartOfIterationErr : Z := ERR_BASE + 0x353.

(** Where a key is in the order of CompareExtentKeysPlus. *)
Notation extent_id := (Z * Z * Z)%type.
Definition key_id (k : HFSPlusExtentKey) : extent_id := (xk_fileID k, xk_forkType k, xk_startBlock k).
Definition tree_key (forkType fileID startBlock : Z) : HFSPlusExtentKey :=
  mkExtKey kHFSPlusExtentKeyMaximumLength forkType fileID startBlock.

Definition id_before (a b : extent_id) : Prop :=
  a.1.1 < b.1.1 \/ a.1.1 = b.1.1 /\ (a.1.2 < b.1.2 \/ a.1.2 = b.1.2 /\ a.2 < b.2).
#[export] Instance id_before_dec a b : Decision (id_before a b).
Proof. unfold id_before. apply _. Defined.

(** ** The operations *)

(** Each gives the OSErr first; [None] is a fault.  The hint is a node number. *)
Class ExtentsTree (E : Type) := {
  (* BTSearchRecord: the record and the hint *)
  et_search : HFSPlusExtentKey -> Z -> E -> option (Z * HFSPlusExtentRecord * Z * E);
  (* BTIterateRecord with kBTreePrevRecord, from the key and the hint of a search *)
  et_previous : HFSPlusExtentKey -> Z -> E -> option (Z * HFSPlusExtentKey * HFSPlusExtentRecord * Z * E);
  (* BTInsertRecord *)
  et_insert : HFSPlusExtentKey -> HFSPlusExtentRecord -> E -> vol -> option (Z * Z * E * vol);
  (* BTDeleteRecord *)
  et_delete : HFSPlusExtentKey -> E -> vol -> option (Z * E * vol);
  (* BTReplaceRecord *)
  et_replace : HFSPlusExtentKey -> Z -> HFSPlusExtentRecord -> E -> vol -> option (Z * E * vol);
  (* BTFlushPath *)
  et_flush : E -> option (Z * E);
  (* c_flag & C_MODIFIED of the cnode of the file *)
  et_modified : E -> bool;
  (* leafRecords of the control block *)
  et_records : E -> Z;
}.

(** ** What they promise *)

Notation extent_map := (gmap extent_id HFSPlusExtentRecord).

(** What growing the tree may do to the volume. *)
Record grown (v v' : vol) : Prop := {
  gr_inv : alloc_inv v';
  gr_kept : forall b, 0 <= b -> bit_at (bm_words (vo_bitmap v)) b = true -> bit_at (bm_words (vo_bitmap v')) b = true;
  gr_shape : same_shape v v';
}.

Lemma grown_refl v : alloc_inv v -> grown v v.
Proof. by split. Qed.

(** The largest key before [id]. *)
Definition is_previous (m : extent_map) (id id' : extent_id) : Prop :=
  is_Some (m !! id') /\ id_before id' id /\ forall i, is_Some (m !! i) -> id_before i id -> i = id' \/ id_before i id'.
Definition no_previous (m : extent_map) (id : extent_id) : Prop := forall i, is_Some (m !! i) -> ~ id_before i id.

Section Outcomes.
Context (holds : extent_map -> Prop).

(** The errors of the tree: of its block I/O, or that its file cannot grow. *)
Context (failure full : Z -> Prop).

Inductive search_outcome (m : extent_map) (id : extent_id) : Z -> HFSPlusExtentRecord -> Prop :=
| SearchFound r : m !! id = Some r -> search_outcome m id noErr r
| SearchMissing r : m !! id = None -> search_outcome m id btNotFound r
| SearchFailure err r : failure err -> search_outcome m id err r.

Inductive previous_outcome (m : extent_map) (id : extent_id) : Z -> HFSPlusExtentKey -> HFSPlusExtentRecord -> Prop :=
| PreviousFound k r : is_previous m id (key_id k) -> m !! key_id k = Some r -> xk_keyLength k = kHFSPlusExtentKeyMaximumLength ->
    previous_outcome m id noErr k r
| PreviousNone err k r : no_previous m id -> err = fsBTStartOfIterationErr \/ err = btNotFound -> previous_outcome m id err k r
| PreviousFailure err k r : failure err -> previous_outcome m id err k r.
End Outcomes.

(** A change of the tree that should make it [m']. *)
Inductive change_outcome {E} (holds : E -> extent_map -> Prop) (failure full : Z -> Prop) (m m' : extent_map) (v : vol) : Z -> E -> vol -> Prop :=
| ChangeDone e v' : holds e m' -> grown v v' -> change_outcome holds failure full m m' v noErr e v'
| ChangeFull err e v' : full err -> holds e m -> grown v v' -> change_outcome holds failure full m m' v err e v'
| ChangeFailure err e v' : failure err -> not_given v v' -> change_outcome holds failure full m m' v err e v'.

Class ExtentsTreeLaws (E : Type) `{!ExtentsTree E} := {
  et_holds : E -> extent_map -> Prop;
  et_failure : Z -> Prop;
  et_full : Z -> Prop;
  et_failure_other err : et_failure err -> err <> noErr /\ err <> btNotFound /\ err <> fsBTStartOfIterationErr /\ err <> fxRangeErr /\ err <> fxOvFlErr;
  et_full_other err : et_full err -> err <> noErr /\ err <> btNotFound /\ err <> fxRangeErr;
  et_size e m : et_holds e m -> Z.of_nat (size m) <= et_records e;
  et_search_ok e m k hint : et_holds e m -> xk_keyLength k = kHFSPlusExtentKeyMaximumLength ->
    exists err r hint' e', et_search k hint e = Some (err, r, hint', e') /\ et_holds e' m /\ search_outcome et_failure m (key_id k) err r;
  et_previous_ok e m k hint : et_holds e m -> xk_keyLength k = kHFSPlusExtentKeyMaximumLength -> m !! key_id k = None ->
    exists err k' r hint' e', et_previous k hint e = Some (err, k', r, hint', e') /\ et_holds e' m /\ previous_outcome et_failure m (key_id k) err k' r;
  et_insert_ok e m k r v : et_holds e m -> xk_keyLength k = kHFSPlusExtentKeyMaximumLength -> m !! key_id k = None -> alloc_inv v ->
    exists err hint e' v', et_insert k r e v = Some (err, hint, e', v') /\
      change_outcome et_holds et_failure et_full m (<[key_id k := r]> m) v err e' v';
  et_delete_ok e m k r v : et_holds e m -> xk_keyLength k = kHFSPlusExtentKeyMaximumLength -> m !! key_id k = Some r -> alloc_inv v ->
    exists err e' v', et_delete k e v = Some (err, e', v') /\ change_outcome et_holds et_failure et_full m (delete (key_id k) m) v err e' v';
  et_replace_ok e m k hint r r' v : et_holds e m -> xk_keyLength k = kHFSPlusExtentKeyMaximumLength -> m !! key_id k = Some r -> alloc_inv v ->
    exists err e' v', et_replace k hint r' e v = Some (err, e', v') /\
      change_outcome et_holds et_failure et_full m (<[key_id k := r']> m) v err e' v';
  (* also after a failure *)
  et_flush_ok e : exists err e', et_flush e = Some (err, e') /\ forall m, et_holds e m -> et_holds e' m;
}.

(** ** The map itself *)

Module Finite.
Definition search (k : HFSPlusExtentKey) (hint : Z) (m : extent_map) : option (Z * HFSPlusExtentRecord * Z * extent_map) :=
  Some (match m !! key_id k with Some r => (noErr, r, 1) | None => (btNotFound, [], 1) end, m).

(** The largest of the keys before [id]. *)
Definition better (id i : extent_id) (r : HFSPlusExtentRecord) (best : option (extent_id * HFSPlusExtentRecord)) :=
  if decide (id_before i id) then
    match best with
    | Some (j, r') => if decide (id_before j i) then Some (i, r) else best
    | None => Some (i, r)
    end
  else best.
Definition largest_before (id : extent_id) (m : extent_map) : option (extent_id * HFSPlusExtentRecord) := map_fold (better id) None m.

Definition previous (k : HFSPlusExtentKey) (hint : Z) (m : extent_map)
    : option (Z * HFSPlusExtentKey * HFSPlusExtentRecord * Z * extent_map) :=
  Some (match largest_before (key_id k) m with
        | Some (f, t, s, r) => (noErr, tree_key t f s, r, 1)
        | None => (fsBTStartOfIterationErr, k, [], 0)
        end, m).
Definition insert_record (k : HFSPlusExtentKey) (r : HFSPlusExtentRecord) (m : extent_map) (v : vol) : option (Z * Z * extent_map * vol) :=
  match m !! key_id k with
  | Some _ => Some (btExists, 0, m, v)
  | None => Some (noErr, 1, <[key_id k := r]> m, v)
  end.
Definition delete_record (k : HFSPlusExtentKey) (m : extent_map) (v : vol) : option (Z * extent_map * vol) :=
  match m !! key_id k with
  | Some _ => Some (noErr, delete (key_id k) m, v)
  | None => Some (btNotFound, m, v)
  end.
Definition replace_record (k : HFSPlusExtentKey) (hint : Z) (r : HFSPlusExtentRecord) (m : extent_map) (v : vol) : option (Z * extent_map * vol) :=
  match m !! key_id k with
  | Some _ => Some (noErr, <[key_id k := r]> m, v)
  | None => Some (btNotFound, m, v)
  end.

#[export] Instance tree : ExtentsTree extent_map := {
  et_search := search;
  et_previous := previous;
  et_insert := insert_record;
  et_delete := delete_record;
  et_replace := replace_record;
  et_flush m := Some (noErr, m);
  et_modified _ := true;
  et_records m := Z.of_nat (size m);
}.

Lemma id_before_total i j : i <> j -> ~ id_before i j -> id_before j i.
Proof. destruct i as [[i1 i2] i3], j as [[j1 j2] j3]. unfold id_before. cbn. intros Hne Hn. assert (i1 <> j1 \/ i2 <> j2 \/ i3 <> j3) by (destruct (decide (i1 = j1)), (decide (i2 = j2)), (decide (i3 = j3)); subst; tauto). lia. Qed.

Lemma id_before_trans i j k : id_before i j -> id_before j k -> id_before i k.
Proof. unfold id_before. lia. Qed.

Lemma largest_before_ok id m :
  match largest_before id m with
  | Some (i, r) => is_previous m id i /\ m !! i = Some r
  | None => no_previous m id
  end.
Proof.
  apply (map_fold_weak_ind (fun best m => match best with Some (i, r) => is_previous m id i /\ m !! i = Some r | None => no_previous m id end)).
  - intros i [r Hr]. by rewrite lookup_empty in Hr.
  - intros i r m' best Hnone IH. unfold better. destruct (decide (id_before i id)) as [Hb|Hb].
    2:{ destruct best as [[j r']|].
        - destruct IH as [(H1 & H2 & H3) Hr]. assert (i <> j) by (intros ->; congruence). split; [|by rewrite lookup_insert_ne]. split; [|split; [done|]].
          + by rewrite lookup_insert_ne.
          + intros k Hk Hbk. apply H3; [|done]. destruct (decide (i = k)) as [->|]; [done|]. by rewrite lookup_insert_ne in Hk.
        - intros k Hk Hbk. destruct (decide (i = k)) as [->|]; [done|]. rewrite lookup_insert_ne in Hk by done. by destruct (IH k). }
    destruct best as [[j r']|].
    + destruct IH as [(H1 & H2 & H3) Hr]. assert (i <> j) as Hij by (intros ->; congruence). destruct (decide (id_before j i)) as [Hji|Hji].
      * split; [|by rewrite lookup_insert_eq]. split; [by rewrite lookup_insert_eq|]. split; [done|]. intros k Hk Hbk.
        destruct (decide (i = k)) as [->|]; [by left|]. rewrite lookup_insert_ne in Hk by done. right.
        destruct (H3 k Hk Hbk) as [->|]; [done|]. by apply (id_before_trans k j i).
      * split; [|by rewrite lookup_insert_ne]. split; [by rewrite lookup_insert_ne|]. split; [done|]. intros k Hk Hbk.
        destruct (decide (i = k)) as [<-|]; [right; by apply id_before_total|]. rewrite lookup_insert_ne in Hk by done. by apply H3.
    + split; [|by rewrite lookup_insert_eq]. split; [by rewrite lookup_insert_eq|]. split; [done|]. intros k Hk Hbk.
      destruct (decide (i = k)) as [->|]; [by left|]. rewrite lookup_insert_ne in Hk by done. by destruct (IH k Hk).
Qed.

#[export] Program Instance laws : ExtentsTreeLaws extent_map := {|
  et_holds e m := e = m;
  et_failure _ := False;
  et_full _ := False;
|}.
Next Obligation. done. Qed.
Next Obligation. done. Qed.
Next Obligation. by intros e m ->. Qed.
Next Obligation.
  intros e m k hint -> _. cbn. unfold search. destruct (m !! key_id k) as [r|] eqn:E; eexists _, _, _, _; (split; [reflexivity|]; split; [done|]).
  - by apply SearchFound.
  - by apply SearchMissing.
Qed.
Next Obligation.
  intros e m k hint -> _ _. cbn. unfold previous. pose proof (largest_before_ok (key_id k) m) as Hl.
  destruct (largest_before (key_id k) m) as [[[[f t] s] r]|]; eexists _, _, _, _, _; (split; [reflexivity|]; split; [done|]).
  - destruct Hl. by apply PreviousFound.
  - apply PreviousNone; [done|by left].
Qed.
Next Obligation.
  intros e m k r v -> _ E Hi. cbn. unfold insert_record. rewrite E. eexists _, _, _, _. split; [reflexivity|]. apply ChangeDone; [done|by apply grown_refl].
Qed.
Next Obligation.
  intros e m k r v -> _ E Hi. cbn. unfold delete_record. rewrite E. eexists _, _, _. split; [reflexivity|]. apply ChangeDone; [done|by apply grown_refl].
Qed.
Next Obligation.
  intros e m k hint r r' v -> _ E Hi. cbn. unfold replace_record. rewrite E. eexists _, _, _. split; [reflexivity|]. apply ChangeDone; [done|by apply grown_refl].
Qed.
Next Obligation. intros e. by exists noErr, e. Qed.
End Finite.
