(* ===== verification/FileExtents.v ===== *)
(** * The extents of a file (core/FileExtentMapping.c)

    Where the blocks of a file are: the first eight extents are in the file control
    block, the others in records of the extents overflow file.  Looking a position up,
    giving a file blocks and taking blocks from it, on an HFS+ volume (vcbSigWord is
    kHFSPlusSigWord, on HFSX volumes as well; the branches for HFS volumes are left out,
    of the numbers of extents in a record kHFSPlusExtentDensity is the one).

    Pinning of blocks to a fast device and the accounting of hot files leave no trace in
    this state, should_pin_blocks does: it decides the flags of an allocation. *)

From S2P Require Import Prelude HfsFormat ExtentKeys RangeList FreeExtCache Bitmap JournalTrim Volume VolumeOps BlockSearch BlockAlloc ExtentsFile.

(** ** Constants *)

Definition kDataForkType : Z := 0.
Definition kResourceForkType : Z := 0xFF.
Definition kNoHint : Z := 0.
Definition kHFSExtentsFileID : Z := 3.
Definition kHFSFirstUserCatalogNodeID : Z := 16.

Definition kEFAllMask : Z := 0x01.
Definition kEFContigMask : Z := 0x02.
Definition kEFReserveMask : Z := 0x04.
Definition kEFDeferMask : Z := 0x08.
Definition kEFNoClumpMask : Z := 0x10.
Definition kEFMetadataMask : Z := 0x20.

Definition HFS_MAX_DEFERED_ALLOC : Z := 1024 * 1024.
Definition HFS_DID_CONTIG_SCAN : Z := 0x100000.
Definition HFS_CS_HOTFILE_PIN : Z := 0x4000000.
Definition HFS_ALLOC_FAST_DEV : Z := 0x1000.

Definition C_MODIFIED : Z := 0x0000010.
Definition C_MINOR_MOD : Z := 0x0000100.
Definition kHFSFastDevPinnedMask : Z := 0x0100.
Definition kHFSAutoCandidateMask : Z := 0x0800.
Definition EBUSY : Z := 16.

Definition ENOENT : Z := 2.
Definition ENXIO : Z := 6.
Definition EEXIST : Z := 17.
Definition EISDIR : Z := 21.
Definition ERANGE : Z := 34.
Definition ENAMETOOLONG : Z := 63.
Definition ENOTEMPTY : Z := 66.
Definition EOVERFLOW : Z := 84.
Definition HFS_ERESERVEDNAME : Z := -8.
Definition bdNamErr : Z := -37.
Definition memFullErr : Z := -108.
Definition fileBoundsErr : Z := -1309.
Definition cmNotFound : Z := ERR_BASE + 48.
Definition cmExists : Z := ERR_BASE + 49.
Definition cmNotEmpty : Z := ERR_BASE + 50.
Definition cmFThdDirErr : Z := ERR_BASE + 53.
Definition fsBTBadNodeSize : Z := ERR_BASE + 0x30C.

(** hfs_vfsutils.c *)
Definition MacToVFSError (err : Z) : Z :=
  if 0 <=? err then err
  else if err =? HFS_ERESERVEDNAME then err
  else if (err =? dskFulErr) || (err =? btNoSpaceAvail) then ENOSPC
  else if err =? fxOvFlErr then EOVERFLOW
  else if err =? btBadNode then EIO
  else if err =? memFullErr then ENOMEM
  else if (err =? cmExists) || (err =? btExists) then EEXIST
  else if (err =? cmNotFound) || (err =? btNotFound) then ENOENT
  else if err =? cmNotEmpty then ENOTEMPTY
  else if err =? cmFThdDirErr then EISDIR
  else if err =? fxRangeErr then ERANGE
  else if err =? bdNamErr then ENAMETOOLONG
  else if (err =? paramErr) || (err =? fileBoundsErr) then EINVAL
  else if err =? fsBTBadNodeSize then ENXIO
  else EIO.

(** The macro of sys/types.h. *)
Definition howmany (x y : Z) : Z := if Z.rem x y =? 0 then Z.quot x y else Z.quot x y + 1.

(** ** State *)

(** The file control block (struct filefork) with what is used of its cnode: the count
    of blocks of both forks, the flags, the identifier, which fork it is, and for a
    cnode with a vnode whether that is a system file. *)
Record fcb := mkFcb {
  fcbExtents : HFSPlusExtentRecord;
  ff_blocks : Z;
  ff_unallocblocks : Z;
  ff_size : Z;
  c_blocks : Z;
  c_flag : Z;
  c_touch_chgtime : bool;
  c_fileid : Z;
  FORK_IS_RSRC : bool;
  c_vp : option bool;
  ca_recflags : Z;
}.

Definition set_fcbExtents x f := mkFcb x (ff_blocks f) (ff_unallocblocks f) (ff_size f) (c_blocks f) (c_flag f) (c_touch_chgtime f) (c_fileid f) (FORK_IS_RSRC f) (c_vp f) (ca_recflags f).
Definition set_ff_blocks x f := mkFcb (fcbExtents f) x (ff_unallocblocks f) (ff_size f) (c_blocks f) (c_flag f) (c_touch_chgtime f) (c_fileid f) (FORK_IS_RSRC f) (c_vp f) (ca_recflags f).
Definition set_ff_unallocblocks x f := mkFcb (fcbExtents f) (ff_blocks f) x (ff_size f) (c_blocks f) (c_flag f) (c_touch_chgtime f) (c_fileid f) (FORK_IS_RSRC f) (c_vp f) (ca_recflags f).
Definition set_c_blocks x f := mkFcb (fcbExtents f) (ff_blocks f) (ff_unallocblocks f) (ff_size f) x (c_flag f) (c_touch_chgtime f) (c_fileid f) (FORK_IS_RSRC f) (c_vp f) (ca_recflags f).
Definition set_c_flag x f := mkFcb (fcbExtents f) (ff_blocks f) (ff_unallocblocks f) (ff_size f) (c_blocks f) x (c_touch_chgtime f) (c_fileid f) (FORK_IS_RSRC f) (c_vp f) (ca_recflags f).
Definition set_c_touch_chgtime x f := mkFcb (fcbExtents f) (ff_blocks f) (ff_unallocblocks f) (ff_size f) (c_blocks f) (c_flag f) x (c_fileid f) (FORK_IS_RSRC f) (c_vp f) (ca_recflags f).

Definition fork_type (f : fcb) : Z := if FORK_IS_RSRC f then kResourceForkType else kDataForkType.

(** The volume, the tree, the file, and hfs_header_dirty. *)
Record xstate (E : Type) := mkX {
  x_vol : vol;
  x_tree : E;
  x_fcb : fcb;
  x_dirty : bool;
}.
Arguments mkX {E}.
Arguments x_vol {E}.
Arguments x_tree {E}.
Arguments x_fcb {E}.
Arguments x_dirty {E}.

Definition X (E A : Type) : Type := xstate E -> option (A * xstate E).
#[export] Instance X_ret E : MRet (X E) := fun A x s => Some (x, s).
#[export] Instance X_bind E : MBind (X E) := fun A B f m s =>
  match m s with
  | Some (x, s') => f x s'
  | None => None
  end.

Section Operations.
Context {E : Type} `{!ExtentsTree E}.
Implicit Types (s : xstate E).

Definition x_lift {A} (o : option A) : X E A := fun s => (fun x => (x, s)) <$> o.
Definition get_volume : X E vol := fun s => Some (x_vol s, s).
Definition get_fcb : X E fcb := fun s => Some (x_fcb s, s).
Definition modify_fcb (f : fcb -> fcb) : X E unit := fun s => Some (tt, mkX (x_vol s) (x_tree s) (f (x_fcb s)) (x_dirty s)).
Definition on_vol {A} (m : V A) : X E A := fun s =>
  '(x, v) ← m (x_vol s); Some (x, mkX v (x_tree s) (x_fcb s) (x_dirty s)).
Definition on_tree {A} (m : E -> option (A * E)) : X E A := fun s =>
  '(x, e) ← m (x_tree s); Some (x, mkX (x_vol s) e (x_fcb s) (x_dirty s)).
Definition change_tree {A} (m : E -> vol -> option (A * E * vol)) : X E A := fun s =>
  '(x, e, v) ← m (x_tree s) (x_vol s); Some (x, mkX v e (x_fcb s) (x_dirty s)).
Definition MarkVCBDirty : X E unit := fun s => Some (tt, mkX (x_vol s) (x_tree s) (x_fcb s) true).
Definition when_x (b : bool) (m : X E unit) : X E unit := if b then m else mret tt.
Definition set_modified : X E unit := modify_fcb (fun f => set_c_flag (SET (c_flag f) C_MODIFIED) f).

(** BTFlushPath, whose error most callers do not look at. *)
Definition BTFlushPath : X E Z := on_tree et_flush.

(** ** Records of the extents file *)

(** The key and the record are not written when there is an error. *)
Definition FindExtentRecord (forkType fileID startBlock : Z) (allowPrevious : bool)
    : X E (Z * HFSPlusExtentKey * HFSPlusExtentRecord * Z) :=
  let key := tree_key forkType fileID startBlock in
  '(err, data, hint) ← on_tree (et_search key 0);
  if (err =? btNotFound) && allowPrevious then
    '(err, key, data, hint) ← on_tree (et_previous key hint);
    let err := if err =? fsBTStartOfIterationErr then btNotFound else err in
    let err := if err =? noErr then
        if negb (xk_fileID key =? fileID) || negb (xk_forkType key =? forkType) then btNotFound else noErr
      else err in
    mret (err, key, data, hint)
  else mret (err, key, data, hint).

(** The error and the hint. *)
Definition CreateExtentRecord (key : HFSPlusExtentKey) (extents : HFSPlusExtentRecord) : X E (Z * Z) :=
  '(err, hint) ← change_tree (et_insert key extents);
  let hint := if err =? noErr then hint else 0 in
  _ ← BTFlushPath;
  mret (err, hint).

Definition DeleteExtentRecord (forkType fileID startBlock : Z) : X E Z :=
  err ← change_tree (et_delete (tree_key forkType fileID startBlock));
  _ ← BTFlushPath;
  mret err.

Definition FlushExtentFile : X E Z :=
  err ← BTFlushPath;
  if err =? noErr then
    modified ← on_tree (fun e => Some (et_modified e, e));
    _ ← when_x modified MarkVCBDirty;
    mret err
  else mret err.

Definition UpdateExtentRecord (deleted : bool) (extentFileKey : HFSPlusExtentKey) (extentData : HFSPlusExtentRecord)
    (extentBTreeHint : Z) : X E Z :=
  if xk_keyLength extentFileKey =? 0 then
    _ ← modify_fcb (set_fcbExtents extentData);
    _ ← when_x (negb deleted) set_modified;
    mret noErr
  else
    '(err, _, hint) ← on_tree (et_search extentFileKey extentBTreeHint);
    err ← (if err =? noErr then change_tree (et_replace extentFileKey hint extentData) else mret err);
    _ ← BTFlushPath;
    mret err.

(** ** Searching *)

(** Over the extents of a record: whether one was found, how many were passed, and the
    file block after the last one looked at. *)
Fixpoint search_extents (searchFABN : Z) (extents : HFSPlusExtentRecord) (extentIndex endingFABNPlusOne : Z) : bool * Z * Z :=
  match extents with
  | [] => (false, extentIndex, endingFABNPlusOne)
  | e :: extents =>
      if blockCount e =? 0 then (false, extentIndex, endingFABNPlusOne) else
      let ending := u32 (endingFABNPlusOne + blockCount e) in
      if searchFABN <? ending then (true, extentIndex, ending)
      else search_extents searchFABN extents (extentIndex + 1) ending
  end.

(** The error, foundExtentIndex, endingFABNPlusOne and noMoreExtents. *)
Definition SearchExtentRecord (searchFABN : Z) (extentData : HFSPlusExtentRecord) (extentDataStartFABN : Z) : Z * Z * Z * bool :=
  let '(foundExtent, extentIndex, ending) := search_extents searchFABN extentData 0 extentDataStartFABN in
  if foundExtent then (noErr, extentIndex, ending, false)
  else (fxRangeErr, if 0 <? extentIndex then extentIndex - 1 else 0, ending, extentIndex <? kHFSPlusExtentDensity).

(** What SearchExtentFile writes; key length 0 says that the record is that of the file
    control block. *)
Record found_extent := mkFound {
  fx_err : Z;
  fx_key : HFSPlusExtentKey;
  fx_data : HFSPlusExtentRecord;
  fx_index : Z;
  fx_hint : Z;
  fx_ending : Z;
}.
Definition fcb_key : HFSPlusExtentKey := mkExtKey 0 0 0 0.

Definition SearchExtentFile (filePosition : Z) : X E found_extent :=
  v ← get_volume;
  fcb ← get_fcb;
  let filePositionBlock := u32 (Z.quot filePosition (blockSize (vo_geom v))) in
  let '(err, index, ending, noMoreExtents) := SearchExtentRecord filePositionBlock (fcbExtents fcb) 0 in
  if err =? noErr then mret (mkFound noErr fcb_key (fcbExtents fcb) index kNoHint ending) else
  if (noMoreExtents : bool) then mret (mkFound fxRangeErr fcb_key (fcbExtents fcb) index kNoHint ending) else
  '(err, key, data, hint) ← FindExtentRecord (fork_type fcb) (c_fileid fcb) filePositionBlock true;
  if err =? btNotFound then mret (mkFound fxRangeErr fcb_key (fcbExtents fcb) index kNoHint ending) else
  if err =? noErr then
    let '(err, index, ending, _) := SearchExtentRecord filePositionBlock data (xk_startBlock key) in
    mret (mkFound err key data index hint ending)
  else mret (mkFound err key data index hint ending).

(** The extent at an index of a record. *)
Definition extent_at (data : HFSPlusExtentRecord) (index : Z) : option HFSPlusExtentDescriptor := data !! Z.to_nat index.

(** The error, the first sector and the contiguous bytes, written when there is no error;
    the caller may not want the bytes. *)
Definition MapFileBlockC (hfs_logical_block_size numberOfBytes offset : Z) (wantBytes : bool) : X E (Z * option (Z * Z)) :=
  out ← SearchExtentFile offset;
  if negb (fx_err out =? noErr) then mret (fx_err out, None) else
  v ← get_volume;
  fcb ← get_fcb;
  found ← x_lift (extent_at (fx_data out) (fx_index out));
  let allocBlockSize := blockSize (vo_geom v) in
  let firstFABN := u32 (fx_ending out - blockCount found) in
  let dataEnd := s64 (fx_ending out * allocBlockSize) in
  let peof := s64 (ff_blocks fcb * allocBlockSize) in
  let dataEnd := if peof <? dataEnd then peof else dataEnd in
  let sectorsPerBlock := allocBlockSize / hfs_logical_block_size in
  let temp := Z.quot (s64 (offset - s64 (firstFABN * allocBlockSize))) hfs_logical_block_size in
  let temp := s64 (temp + s64 (startBlock found * sectorsPerBlock)) in
  let temp := s64 (temp + hfsPlusIOPosOffset (vo_geom v) / hfs_logical_block_size) in
  if wantBytes then
    let tmpOff := s64 (dataEnd - offset) in
    if tmpOff <=? 0 then mret (EINVAL, None)
    else mret (noErr, Some (temp, if s64 numberOfBytes <? tmpOff then numberOfBytes else tmpOff))
  else mret (noErr, Some (temp, 0)).

(** ** Releasing *)

(** The error, the blocks released and whether the last extent was among them. *)
Fixpoint release_extents (extents : HFSPlusExtentRecord) (numReleased : Z) : X E (Z * Z * bool) :=
  match extents with
  | [] => mret (noErr, numReleased, false)
  | e :: extents =>
      if blockCount e =? 0 then mret (noErr, numReleased, true) else
      err ← on_vol (BlockDeallocate (startBlock e) (blockCount e) 0);
      if negb (err =? noErr) then mret (err, numReleased, false)
      else release_extents extents (u32 (numReleased + blockCount e))
  end.
Definition ReleaseExtents (extentRecord : HFSPlusExtentRecord) : X E (Z * Z * bool) := release_extents extentRecord 0.

(** The error and whether a record was deleted. *)
Fixpoint truncate_extents_loop (forkType fileID startBlock : Z) (recordDeleted : bool) (fuel : nat) : X E (Z * bool) :=
  match fuel with
  | O => fun _ => None
  | S fuel =>
      '(err, _, extents, _) ← FindExtentRecord forkType fileID startBlock false;
      if negb (err =? noErr) then mret (if err =? btNotFound then noErr else err, recordDeleted) else
      '(err, numberExtentsReleased, _) ← ReleaseExtents extents;
      if negb (err =? noErr) then mret (err, recordDeleted) else
      err ← DeleteExtentRecord forkType fileID startBlock;
      if negb (err =? noErr) then mret (err, recordDeleted) else
      truncate_extents_loop forkType fileID (u32 (startBlock + numberExtentsReleased)) true fuel
  end.

(** Each turn deletes a record: one more than there are. *)
Definition records_fuel (s : xstate E) : nat := S (Z.to_nat (et_records (x_tree s))).

Definition TruncateExtents (forkType fileID startBlock : Z) (recordDeleted : bool) : X E (Z * bool) :=
  fun s => truncate_extents_loop forkType fileID startBlock recordDeleted (records_fuel s) s.

Definition DeallocateFork (fileID forkType : Z) (catalogExtents : HFSPlusExtentRecord) (recordDeleted : bool) : X E (Z * bool) :=
  '(err, numReleased, releasedLastExtent) ← ReleaseExtents catalogExtents;
  if (err =? noErr) && negb releasedLastExtent then TruncateExtents forkType fileID numReleased recordDeleted
  else mret (err, recordDeleted).

(** ** TruncateFileC *)

Definition no_extent : HFSPlusExtentDescriptor := mkExtent 0 0.
Definition no_extents : HFSPlusExtentRecord := replicate (Z.to_nat kHFSPlusExtentDensity) no_extent.

(** The extents of a record from an index on are released: the error, the record, the
    file block after them and whether an extent changed.  The index is the number of
    descriptors of [kept]. *)
Fixpoint release_following (kept extents : HFSPlusExtentRecord) (nextBlock : Z) (changed : bool)
    : X E (Z * HFSPlusExtentRecord * Z * bool) :=
  match extents with
  | [] => mret (noErr, kept, nextBlock, changed)
  | e :: extents =>
      if blockCount e =? 0 then mret (noErr, kept ++ e :: extents, nextBlock, changed) else
      err ← on_vol (BlockDeallocate (startBlock e) (blockCount e) 0);
      if negb (err =? noErr) then mret (err, kept ++ e :: extents, nextBlock, changed)
      else release_following (kept ++ [no_extent]) extents (u32 (nextBlock + blockCount e)) true
  end.

(** The extent that holds the new end is shortened: the error, the record and whether it
    changed. *)
Definition shorten_extent (truncateToExtent : bool) (record : HFSPlusExtentRecord) (index extentNextBlock nextBlock : Z)
    : X E (Z * HFSPlusExtentRecord * bool) :=
  let numBlocks := u32 (extentNextBlock - nextBlock) in
  if truncateToExtent || (numBlocks =? 0) then mret (noErr, record, false) else
  e ← x_lift (extent_at record index);
  err ← on_vol (BlockDeallocate (u32 (u32 (startBlock e + blockCount e) - numBlocks)) numBlocks 0);
  if negb (err =? noErr) then mret (err, record, false) else
  let count := u32 (blockCount e - numBlocks) in
  mret (noErr, <[Z.to_nat index := mkExtent (if count =? 0 then 0 else startBlock e) count]> record, true).

(** The record with the new end: the error, the record, the file block after it and
    whether it changed. *)
Definition cut_record (truncateToExtent : bool) (out : found_extent) (nextBlock : Z) : X E (Z * HFSPlusExtentRecord * Z * bool) :=
  '(err, record, changed) ← shorten_extent truncateToExtent (fx_data out) (fx_index out) (fx_ending out) nextBlock;
  if negb (err =? noErr) then mret (err, record, nextBlock, changed) else
  let first := S (Z.to_nat (fx_index out)) in
  release_following (take first record) (drop first record) (fx_ending out) changed.

(** The error and whether a record was deleted. *)
Definition truncate_to (peof nextBlock physNumBlocks : Z) (deleted : bool) (forkType fileid : Z) (truncateToExtent : bool)
    : X E (Z * bool) :=
  out ← SearchExtentFile (peof - 1);
  if negb (fx_err out =? noErr) then mret (fx_err out, false) else
  '(err, record, nextBlock, changed) ← cut_record truncateToExtent out nextBlock;
  if negb (err =? noErr) then mret (err, false) else
  err ← (if (changed : bool) then UpdateExtentRecord deleted (fx_key out) record (fx_hint out) else mret noErr);
  if negb (err =? noErr) then mret (err, false) else
  if nextBlock <? physNumBlocks then TruncateExtents forkType fileid nextBlock false else mret (noErr, false).

Definition TruncateFileC (peof : Z) (deleted rsrc : bool) (fileid : Z) (truncateToExtent : bool) : X E Z :=
  v ← get_volume;
  fcb ← get_fcb;
  let forkType := if rsrc then kResourceForkType else kDataForkType in
  let physNumBlocks := ff_blocks fcb in
  let nextBlock := u32 (howmany peof (blockSize (vo_geom v))) in
  let peof := s64 (nextBlock * blockSize (vo_geom v)) in
  let numBlocks := u32 (Z.quot peof (blockSize (vo_geom v))) in
  _ ← when_x (negb deleted) (modify_fcb (fun f => set_c_blocks (u32 (c_blocks f - u32 (ff_blocks f - numBlocks))) f));
  _ ← modify_fcb (set_ff_blocks numBlocks);
  _ ← when_x (negb deleted) set_modified;
  '(err, recordDeleted) ←
    (if peof =? 0 then
       '(err, recordDeleted) ← DeallocateFork fileid forkType (fcbExtents fcb) false;
       _ ← when_x (err =? noErr) (modify_fcb (set_fcbExtents no_extents));
       mret (err, recordDeleted)
     else truncate_to peof nextBlock physNumBlocks deleted forkType fileid truncateToExtent);
  _ ← when_x recordDeleted (_ ← FlushExtentFile; mret tt);
  mret err.

(** ** HeadTruncateFile *)

(** The extents to keep: an array of a record's size. *)
Definition add_tail (tail : list HFSPlusExtentDescriptor) (e : HFSPlusExtentDescriptor) : X E (list HFSPlusExtentDescriptor) :=
  if Z.of_nat (length tail) <? kHFSPlusExtentDensity then mret (tail ++ [e]) else fun _ => None.

(** Where the loops over the extents are. *)
Record head_state := mkHead {
  hd_blkcnt : Z;                              (* of the last extent looked at *)
  hd_blksfreed : Z;
  hd_passed : Z;                              (* blocks of the extents passed *)
  hd_tail : list HFSPlusExtentDescriptor;
}.

(** The extents of the file control block, from index [i] on: an error of the first
    is given back. *)
Fixpoint head_resident (extents : HFSPlusExtentRecord) (i : nat) (headblks : Z) (h : head_state) : X E (Z * head_state) :=
  match extents with
  | [] => mret (0, h)
  | e :: extents =>
      let blkcnt := blockCount e in
      if blkcnt =? 0 then mret (0, mkHead 0 (hd_blksfreed h) (hd_passed h) (hd_tail h)) else
      let passed := u32 (hd_passed h + blkcnt) in
      if hd_blksfreed h <? headblks then
        error ← on_vol (BlockDeallocate (startBlock e) blkcnt 0);
        if negb (error =? 0) && (i =? 0)%nat then mret (error, h) else
        _ ← modify_fcb (fun f => set_fcbExtents (<[i := no_extent]> (fcbExtents f)) f);
        head_resident extents (S i) headblks (mkHead blkcnt (u32 (hd_blksfreed h + blkcnt)) passed (hd_tail h))
      else
        tail ← add_tail (hd_tail h) (mkExtent (startBlock e) blkcnt);
        head_resident extents (S i) headblks (mkHead blkcnt (hd_blksfreed h) passed tail)
  end.

(** The extents of a record of the extents file; errors are printed only. *)
Fixpoint head_overflow (extents : HFSPlusExtentRecord) (headblks : Z) (h : head_state) : X E head_state :=
  match extents with
  | [] => mret h
  | e :: extents =>
      let blkcnt := blockCount e in
      if blkcnt =? 0 then mret (mkHead 0 (hd_blksfreed h) (hd_passed h) (hd_tail h)) else
      let passed := u32 (hd_passed h + blkcnt) in
      if hd_blksfreed h <? headblks then
        _ ← on_vol (BlockDeallocate (startBlock e) blkcnt 0);
        head_overflow extents headblks (mkHead blkcnt (u32 (hd_blksfreed h + blkcnt)) passed (hd_tail h))
      else
        tail ← add_tail (hd_tail h) (mkExtent (startBlock e) blkcnt);
        head_overflow extents headblks (mkHead blkcnt (hd_blksfreed h) passed tail)
  end.

Fixpoint head_records (forkType fileID headblks : Z) (h : head_state) (fuel : nat) : X E head_state :=
  match fuel with
  | O => fun _ => None
  | S fuel =>
      let startblk := hd_passed h in
      '(error, _, extents, _) ← FindExtentRecord forkType fileID startblk false;
      if negb (error =? 0) then mret h else
      h ← head_overflow extents headblks h;
      _ ← DeleteExtentRecord forkType fileID startblk;
      if hd_blkcnt h =? 0 then mret h else head_records forkType fileID headblks h fuel
  end.

Definition overflow_records (forkType fileID headblks : Z) (h : head_state) : X E head_state :=
  fun s => head_records forkType fileID headblks h (records_fuel s) s.

Definition HeadTruncateFile (headblks : Z) : X E Z :=
  fcb ← get_fcb;
  let forkType := fork_type fcb in
  '(error, h) ← head_resident (fcbExtents fcb) 0 headblks (mkHead 0 0 0 []);
  if negb (error =? 0) then mret (MacToVFSError error) else
  h ← (if hd_blkcnt h =? 0 then mret h
       else overflow_records forkType (c_fileid fcb) headblks h);
  _ ← when_x (negb (hd_blksfreed h =? 0))
       (_ ← modify_fcb (set_fcbExtents (hd_tail h ++ replicate (Z.to_nat kHFSPlusExtentDensity - length (hd_tail h)) no_extent));
        _ ← modify_fcb (fun f => set_ff_blocks (u32 (ff_blocks f - headblks)) (set_c_blocks (u32 (c_blocks f - headblks)) f));
        _ ← set_modified;
        _ ← modify_fcb (set_c_touch_chgtime true);
        _ ← FlushExtentFile; mret tt);
  mret (MacToVFSError 0).

(** ** NodesAreContiguous *)

(** Whether all extents are whole nodes, the blocks looked at, and whether the last
    extent was among them. *)
Fixpoint ExtentsAreIntegral (extentRecord : HFSPlusExtentRecord) (mask blocksChecked : Z) : bool * Z * bool :=
  match extentRecord with
  | [] => (true, blocksChecked, false)
  | e :: extentRecord =>
      if blockCount e =? 0 then (true, blocksChecked, true) else
      let blocksChecked := u32 (blocksChecked + blockCount e) in
      if negb (Z.land (blockCount e) mask =? 0) then (false, blocksChecked, false)
      else ExtentsAreIntegral extentRecord mask blocksChecked
  end.

Fixpoint nodes_loop (fileID mask startBlock : Z) (fuel : nat) : X E bool :=
  match fuel with
  | O => fun _ => None
  | S fuel =>
      '(result, _, extents, _) ← FindExtentRecord kDataForkType fileID startBlock false;
      if negb (result =? 0) then mret true else
      let '(integral, blocksChecked, lastExtentReached) := ExtentsAreIntegral extents mask 0 in
      if negb integral then mret false else
      if (lastExtentReached : bool) then mret true
      else nodes_loop fileID mask (u32 (startBlock + blocksChecked)) fuel
  end.

Definition nodes_overflow (fileID mask startBlock : Z) : X E bool := fun s => nodes_loop fileID mask startBlock (records_fuel s) s.

Definition NodesAreContiguous (nodeSize : Z) : X E bool :=
  v ← get_volume;
  fcb ← get_fcb;
  let bs := blockSize (vo_geom v) in
  if nodeSize <=? bs then mret true else
  let mask := u32 (nodeSize / bs - 1) in
  let '(integral, blocksChecked, lastExtentReached) := ExtentsAreIntegral (fcbExtents fcb) mask 0 in
  if negb integral then mret false else
  if lastExtentReached || (ff_size fcb <=? s64 (blocksChecked * bs)) then mret true else
  nodes_overflow (c_fileid fcb) mask blocksChecked.

(** ** ExtendFileC and AddFileExtent *)

Definition should_pin_blocks (v : vol) (f : fcb) : bool :=
  if negb (has_flag v HFS_CS_HOTFILE_PIN) then false else
  match c_vp f with
  | None => false
  | Some issystem =>
      if issystem then true else
      if ISSET (ca_recflags f) kHFSAutoCandidateMask then false
      else ISSET (ca_recflags f) kHFSFastDevPinnedMask
  end.

(** A record of one extent. *)
Definition one_extent (start count : Z) : HFSPlusExtentRecord :=
  mkExtent start count :: replicate (Z.to_nat kHFSPlusExtentDensity - 1) no_extent.

(** The index a new extent goes to. *)
Definition next_index (data : HFSPlusExtentRecord) (index : Z) : option Z :=
  last ← extent_at data index; Some (if negb (blockCount last =? 0) then index + 1 else index).

Definition AddFileExtent (start count : Z) : X E Z :=
  v ← get_volume;
  fcb ← get_fcb;
  let peof := s64 (u32 (ff_blocks fcb + count) * blockSize (vo_geom v)) in
  out ← SearchExtentFile (peof - 1);
  if negb (fx_err out =? fxRangeErr) then mret EBUSY else
  index ← x_lift (next_index (fx_data out) (fx_index out));
  error ←
    (if index =? kHFSPlusExtentDensity then
       '(error, _) ← CreateExtentRecord (tree_key kDataForkType (c_fileid fcb) (fx_ending out)) (one_extent start count);
       mret (if error =? fxOvFlErr then dskFulErr else error)
     else UpdateExtentRecord false (fx_key out) (<[Z.to_nat index := mkExtent start count]> (fx_data out)) (fx_hint out));
  _ ← FlushExtentFile;
  mret error.

(** The variables of ExtendFileC its loop changes. *)
Record extend_state := mkExtend {
  el_err : Z;
  el_wantContig : bool;
  el_useMetaZone : bool;
  el_allowFlushTxns : bool;
  el_bytesToAdd : Z;
  el_maximumBytes : Z;
  el_nextBlock : Z;
  el_key : HFSPlusExtentKey;
  el_data : HFSPlusExtentRecord;
  el_index : Z;
  el_hint : Z;
  el_needsFlush : bool;
}.

Definition set_el_err x l := mkExtend x (el_wantContig l) (el_useMetaZone l) (el_allowFlushTxns l) (el_bytesToAdd l) (el_maximumBytes l) (el_nextBlock l) (el_key l) (el_data l) (el_index l) (el_hint l) (el_needsFlush l).
Definition set_el_wantContig x l := mkExtend (el_err l) x (el_useMetaZone l) (el_allowFlushTxns l) (el_bytesToAdd l) (el_maximumBytes l) (el_nextBlock l) (el_key l) (el_data l) (el_index l) (el_hint l) (el_needsFlush l).
Definition set_el_useMetaZone x l := mkExtend (el_err l) (el_wantContig l) x (el_allowFlushTxns l) (el_bytesToAdd l) (el_maximumBytes l) (el_nextBlock l) (el_key l) (el_data l) (el_index l) (el_hint l) (el_needsFlush l).
Definition set_el_allowFlushTxns x l := mkExtend (el_err l) (el_wantContig l) (el_useMetaZone l) x (el_bytesToAdd l) (el_maximumBytes l) (el_nextBlock l) (el_key l) (el_data l) (el_index l) (el_hint l) (el_needsFlush l).
Definition set_el_amounts bytes maximum next l := mkExtend (el_err l) (el_wantContig l) (el_useMetaZone l) (el_allowFlushTxns l) bytes maximum next (el_key l) (el_data l) (el_index l) (el_hint l) (el_needsFlush l).
Definition set_el_record key data index hint flush l := mkExtend (el_err l) (el_wantContig l) (el_useMetaZone l) (el_allowFlushTxns l) (el_bytesToAdd l) (el_maximumBytes l) (el_nextBlock l) key data index hint flush.

(** What does not change in the loop. *)
Record extend_args := mkExtendArgs {
  ea_blockHint : Z;
  ea_flags : Z;
  ea_fastdev : Z;
}.

(** The error, and the start and the length of what was allocated. *)
Definition extend_allocate (a : extend_args) (startBlock : Z) (l : extend_state) : X E (Z * Z * Z) :=
  v ← get_volume;
  let bs := blockSize (vo_geom v) in
  let availbytes := s64 (hfs_freeblks v (ISSET (ea_flags a) kEFReserveMask) * bs) in
  if availbytes <=? 0 then mret (dskFulErr, 0, 0)
  else if el_wantContig l && (availbytes <? el_bytesToAdd l) then mret (dskFulErr, 0, 0)
  else
    let ba_flags := ea_fastdev a in
    let ba_flags := if el_wantContig l then Z.lor ba_flags HFS_ALLOC_FORCECONTIG else ba_flags in
    let ba_flags := if el_useMetaZone l then Z.lor ba_flags HFS_ALLOC_METAZONE else ba_flags in
    let ba_flags := if el_allowFlushTxns l then Z.lor ba_flags HFS_ALLOC_FLUSHTXN else ba_flags in
    on_vol (BlockAllocate startBlock (u32 (howmany (Z.min (el_bytesToAdd l) availbytes) bs))
              (u32 (howmany (Z.min (el_maximumBytes l) availbytes) bs)) ba_flags).

(** When the disk is full: try again with less or elsewhere ([inl]), or go on ([inr],
    with whether to leave the loop). *)
Definition extend_full (forceContig : bool) (actualNumBlocks : Z) (l : extend_state) : extend_state + (extend_state * bool) :=
  if forceContig then
    if negb (el_allowFlushTxns l) then inl (set_el_err noErr (set_el_wantContig true (set_el_allowFlushTxns true l)))
    else inr (l, true)
  else if el_wantContig l then inl (set_el_wantContig false (set_el_err noErr l))
  else
    let l := if negb (actualNumBlocks =? 0) then set_el_err noErr l else l in
    if negb (el_useMetaZone l) then inl (set_el_useMetaZone true (set_el_err noErr l))
    else if negb (el_allowFlushTxns l) then inl (set_el_err noErr (set_el_allowFlushTxns true l))
    else inr (l, false).

(** The blocks go in the last record of the file, or in a new one: the state with
    [el_err] set. *)
Definition extend_record (a : extend_args) (startBlock actualStartBlock actualNumBlocks : Z) (l : extend_state) : X E extend_state :=
  fcb ← get_fcb;
  last ← x_lift (extent_at (el_data l) (el_index l));
  if (actualStartBlock =? startBlock) && (ea_blockHint a =? 0) then
    let data := <[Z.to_nat (el_index l) := mkExtent (HfsFormat.startBlock last) (u32 (blockCount last + actualNumBlocks))]> (el_data l) in
    err ← UpdateExtentRecord false (el_key l) data (el_hint l);
    mret (set_el_err err (set_el_record (el_key l) data (el_index l) (el_hint l) (el_needsFlush l) l))
  else
    let index := if negb (blockCount last =? 0) then el_index l + 1 else el_index l in
    if index =? kHFSPlusExtentDensity then
      if c_fileid fcb =? kHFSExtentsFileID then
        _ ← on_vol (BlockDeallocate actualStartBlock actualNumBlocks 0);
        mret (set_el_err dskFulErr l)
      else
      let key := tree_key (fork_type fcb) (c_fileid fcb) (el_nextBlock l) in
      let data := one_extent actualStartBlock actualNumBlocks in
      '(err, hint) ← CreateExtentRecord key data;
      err ← (if err =? fxOvFlErr then
               _ ← on_vol (BlockDeallocate actualStartBlock actualNumBlocks 0); mret dskFulErr
             else mret err);
      mret (set_el_err err (set_el_record key data 0 hint (if err =? noErr then true else el_needsFlush l) l))
    else
      let data := <[Z.to_nat index := mkExtent actualStartBlock actualNumBlocks]> (el_data l) in
      err ← UpdateExtentRecord false (el_key l) data (el_hint l);
      mret (set_el_err err (set_el_record (el_key l) data index (el_hint l) (el_needsFlush l) l)).

(** The blocks are counted. *)
Definition extend_account (actualNumBlocks : Z) (l : extend_state) : X E extend_state :=
  v ← get_volume;
  let bs := blockSize (vo_geom v) in
  let bytesThisExtent := s64 (actualNumBlocks * bs) in
  let blocks := Z.quot bytesThisExtent bs in
  _ ← modify_fcb (fun f => set_c_blocks (u32 (c_blocks f + blocks)) (set_ff_blocks (u32 (ff_blocks f + blocks)) f));
  _ ← set_modified;
  let nextBlock := u32 (el_nextBlock l + actualNumBlocks) in
  mret (if el_bytesToAdd l <? bytesThisExtent then set_el_amounts 0 (el_maximumBytes l) nextBlock l
        else set_el_amounts (s64 (el_bytesToAdd l - bytesThisExtent)) (s64 (el_maximumBytes l - bytesThisExtent)) nextBlock l).

(** One turn of the loop: the state, and whether the turn ended with a break. *)
Definition extend_turn (a : extend_args) (l : extend_state) : X E (extend_state * bool) :=
  let forceContig := ISSET (ea_flags a) kEFContigMask in
  last ← x_lift (extent_at (el_data l) (el_index l));
  let startBlock := if negb (ea_blockHint a =? 0) then ea_blockHint a else u32 (startBlock last + blockCount last) in
  '(err, actualStartBlock, actualNumBlocks) ← extend_allocate a startBlock l;
  let l := set_el_err err l in
  match (if err =? dskFulErr then extend_full forceContig actualNumBlocks l else inr (l, false)) with
  | inl l => mret (l, false)
  | inr (l, true) => mret (l, true)
  | inr (l, false) =>
      if negb (el_err l =? noErr) then mret (l, false) else
      l ← extend_record a startBlock actualStartBlock actualNumBlocks l;
      if negb (el_err l =? noErr) then mret (l, true) else
      l ← extend_account actualNumBlocks l;
      if forceContig then mret (if negb (el_bytesToAdd l =? 0) then set_el_err dskFulErr l else l, true)
      else mret (l, false)
  end.

Fixpoint extend_loop (a : extend_args) (l : extend_state) (fuel : nat) : X E extend_state :=
  match fuel with
  | O => fun _ => None
  | S fuel =>
      '(l, stop) ← extend_turn a l;
      if (stop : bool) then mret l else
      if (el_err l =? noErr) && negb (el_bytesToAdd l =? 0) then extend_loop a l fuel else mret l
  end.

(** Four turns that try again, and at least a block with each of the others. *)
Definition extend_fuel (bytesToAdd bs : Z) : nat := 5 + Z.to_nat (howmany bytesToAdd bs).

(** core/VolumeAllocation.c: there is no red-black tree. *)
Definition hfs_isrbtree_active : bool := false.

(** Blocks are only promised: they are on loan until they are allocated. *)
Definition defer_allocation (blocksToAdd : Z) : X E unit :=
  _ ← on_vol (modify_counts (fun c => mkCounts (freeBlocks c) (tentativeBlocks c) (lockedBlocks c) (u32 (loanedBlocks c + blocksToAdd))
        (reserveBlocks c) (nextAllocation c) (sparseAllocation c) (hfs_freed_block_count c)));
  modify_fcb (fun f => set_c_flag (SET (c_flag f) C_MINOR_MOD)
    (set_ff_blocks (u32 (ff_blocks f + blocksToAdd)) (set_c_blocks (u32 (c_blocks f + blocksToAdd))
    (set_ff_unallocblocks (u32 (ff_unallocblocks f + blocksToAdd)) f)))).

(** The blocks that are on loan are given back. *)
Definition give_back_loan (loaned : Z) : X E unit :=
  _ ← modify_fcb (fun f => set_ff_unallocblocks 0 (set_ff_blocks (u32 (ff_blocks f - loaned)) (set_c_blocks (u32 (c_blocks f - loaned)) f)));
  on_vol (modify_counts (fun c => mkCounts (freeBlocks c) (tentativeBlocks c) (lockedBlocks c) (u32 (loanedBlocks c - loaned))
    (reserveBlocks c) (nextAllocation c) (sparseAllocation c) (hfs_freed_block_count c))).

Definition set_hfs_flag (flag : Z) : V unit :=
  modify (fun v => let m := vo_cache v in with_cache (mkMount (vcbFreeExt m) (vcbFreeExtCnt m) (SET (hfs_flags m) flag) (allocLimit m)) v).

(** Whether to ask for contiguous blocks first. *)
Definition want_contig (flags : Z) (forceContig : bool) : X E bool :=
  v ← get_volume;
  fcb ← get_fcb;
  if has_flag v HFS_HAS_SPARSE_DEVICE && (kHFSFirstUserCatalogNodeID <=? c_fileid fcb) && negb (ISSET flags kEFMetadataMask) then
    if hfs_isrbtree_active then mret forceContig
    else if negb (has_flag v HFS_DID_CONTIG_SCAN) then _ ← on_vol (set_hfs_flag HFS_DID_CONTIG_SCAN); mret true
    else mret false
  else mret true.

(** Keep the roving allocator out of the metadata zone. *)
Definition leave_metadata_zone : X E unit :=
  v ← get_volume;
  let next := nextAllocation (vo_counts v) in
  when_x (has_flag v HFS_METADATA_ZONE && (hfs_metazone_start (vo_geom v) <=? next) && (next <=? hfs_metazone_end (vo_geom v)))
    (_ ← on_vol (HFS_UPDATE_NEXT_ALLOCATION (u32 (hfs_metazone_end (vo_geom v) + 1))); MarkVCBDirty).

(** The error and the bytes that were added. *)
Definition extend_exit (err prevblocks : Z) (needsFlush : bool) : X E (Z * Z) :=
  _ ← leave_metadata_zone;
  v ← get_volume;
  fcb ← get_fcb;
  let added := if prevblocks <? ff_blocks fcb then s64 (u32 (ff_blocks fcb - prevblocks) * blockSize (vo_geom v)) else 0 in
  _ ← when_x needsFlush (_ ← FlushExtentFile; mret tt);
  mret (err, added).

(** From the search for the last extent on. *)
Definition extend_from (bytesToAdd maximumBytes blockHint flags prevblocks : Z) : X E (Z * Z) :=
  v ← get_volume;
  fcb ← get_fcb;
  let bs := blockSize (vo_geom v) in
  let peof := s64 (s64 (ff_blocks fcb * bs) + bytesToAdd) in
  out ← SearchExtentFile (peof - 1);
  if fx_err out =? noErr then
    _ ← modify_fcb (fun f => set_c_blocks (u32 (c_blocks f + Z.quot bytesToAdd bs)) (set_ff_blocks (u32 (Z.quot peof bs)) f));
    _ ← set_modified;
    extend_exit noErr prevblocks false
  else if negb (fx_err out =? fxRangeErr) then extend_exit (fx_err out) prevblocks false
  else
  let nextBlock := fx_ending out in
  let bytesThisExtent := s64 (u32 (nextBlock - ff_blocks fcb) * bs) in
  _ ← when_x (negb (bytesThisExtent =? 0))
       (_ ← modify_fcb (fun f => set_c_blocks (u32 (c_blocks f + Z.quot bytesThisExtent bs)) (set_ff_blocks nextBlock f)); set_modified);
  let bytesToAdd := if negb (bytesThisExtent =? 0) then s64 (bytesToAdd - bytesThisExtent) else bytesToAdd in
  wantContig ← want_contig flags (ISSET flags kEFContigMask);
  v ← get_volume;
  fcb ← get_fcb;
  let fastdev := if should_pin_blocks v fcb then HFS_ALLOC_FAST_DEV else 0 in
  l ← extend_loop (mkExtendArgs blockHint flags fastdev)
        (mkExtend noErr wantContig (ISSET flags kEFMetadataMask) false bytesToAdd maximumBytes nextBlock
          (fx_key out) (fx_data out) (fx_index out) (fx_hint out) false)
        (extend_fuel bytesToAdd bs);
  extend_exit (el_err l) prevblocks (el_needsFlush l).

(** The bytes asked for, rounded up to the clump size of the volume. *)
Definition maximum_bytes (vcbClpSiz bs bytesToAdd flags : Z) : Z :=
  if (s32 bs <? vcbClpSiz) && (bytesToAdd <? HFS_MAX_DEFERED_ALLOC) && negb (ISSET flags kEFNoClumpMask)
  then s64 (howmany bytesToAdd vcbClpSiz * vcbClpSiz) else bytesToAdd.

(** The error and the bytes that were added. *)
Definition ExtendFileC (vcbClpSiz bytesToAdd blockHint flags : Z) : X E (Z * Z) :=
  v ← get_volume;
  fcb ← get_fcb;
  let bs := blockSize (vo_geom v) in
  let prevblocks := ff_blocks fcb in
  let blocksToAdd := howmany bytesToAdd bs in
  let bytesToAdd := s64 (blocksToAdd * bs) in
  if ISSET flags kEFDeferMask && (bytesToAdd <? HFS_MAX_DEFERED_ALLOC) && (blocksToAdd <? hfs_freeblks v true) then
    _ ← defer_allocation blocksToAdd; mret (0, bytesToAdd)
  else
  let loaned := ff_unallocblocks fcb in
  _ ← when_x (0 <? loaned) (give_back_loan loaned);
  let blocksToAdd := if 0 <? loaned then blocksToAdd + loaned else blocksToAdd in
  let bytesToAdd := if 0 <? loaned then s64 (blocksToAdd * bs) else bytesToAdd in
  v ← get_volume;
  if ISSET flags kEFAllMask && (hfs_freeblks v (ISSET flags kEFReserveMask) <? blocksToAdd)
  then extend_exit dskFulErr prevblocks false
  else extend_from bytesToAdd (maximum_bytes vcbClpSiz bs bytesToAdd flags) blockHint flags prevblocks.
End Operations.
