(* ===== verification/ForkRep.v ===== *)
(** * The blocks of a file and the records that hold them (core/FileExtentMapping.c)

    A file is a list of extents.  Eight at a time they are in the file control block and
    in the records of the extents overflow file ([fork_rep]); a record's key is the number
    of blocks before it.  The extents are runs of blocks of the volume ([file_blocks]);
    [on_disk] says that these are allocated to the file alone. *)

From S2P Require Import Prelude HfsFormat ExtentKeys RangeList FreeExtCache Bitmap BitmapBits BitmapWalk BitmapMark BitmapFree BitmapReserve BitmapProps JournalTrim Volume VolumeOps BlockSearch BlockAlloc VolumeProps BlockSearchProps AllocInv AllocProps FreeProps AllocSafety ExtentsFile FileExtents.

(** ** Lists of extents *)

Fixpoint total (l : list HFSPlusExtentDescriptor) : Z :=
  match l with [] => 0 | e :: l => blockCount e + total l end.

Definition counts_ok (l : list HFSPlusExtentDescriptor) : Prop := Forall (fun e => 0 < blockCount e) l.

(** A record, filled up. *)
Definition pad (l : list HFSPlusExtentDescriptor) : HFSPlusExtentRecord := l ++ replicate (8 - length l) no_extent.

Lemma total_app l1 l2 : total (l1 ++ l2) = total l1 + total l2.
Proof. induction l1 as [|e l1 IH]; cbn; [done|]. rewrite IH. lia. Qed.

Lemma total_nonneg l : counts_ok l -> 0 <= total l.
Proof. induction 1; cbn; lia. Qed.

Lemma total_pos l : counts_ok l -> l <> [] -> 0 < total l.
Proof. destruct 1 as [|e l H1 H2]; [done|]. intros _. pose proof (total_nonneg l H2). cbn. lia. Qed.

Lemma counts_ok_app l1 l2 : counts_ok (l1 ++ l2) <-> counts_ok l1 /\ counts_ok l2.
Proof. apply Forall_app. Qed.

(** The extent a file block is in. *)
Lemma total_split l n :
  counts_ok l -> 0 <= n < total l -> exists A e B, l = A ++ e :: B /\ total A <= n < total A + blockCount e.
Proof.
  intros Hl. revert n. induction Hl as [|e l He Hl IH]; intros n Hn; cbn [total] in Hn; [lia|].
  destruct (Z.lt_ge_cases n (blockCount e)).
  - exists [], e, l. cbn. split; [done|lia].
  - destruct (IH (n - blockCount e) ltac:(lia)) as (A & e' & B & -> & H'). exists (e :: A), e', B. cbn [total app]. split; [done|lia].
Qed.

(** The prefixes of a list are ordered by their totals. *)
Lemma prefix_total P x P' x' :
  P ++ x = P' ++ x' -> counts_ok (P ++ x) -> (length P < length P')%nat -> total P < total P'.
Proof.
  intros E Hc Hlt. destruct (app_eq_inv _ _ _ _ E) as [(k & -> & _)|(k & -> & _)].
  - rewrite length_app in Hlt. lia.
  - rewrite total_app. assert (k <> []) as Hne by (intros ->; rewrite app_nil_r in Hlt; lia).
    rewrite E, counts_ok_app in Hc. destruct Hc as [Hc _]. apply counts_ok_app in Hc as [_ Hk]. pose proof (total_pos k Hk Hne). lia.
Qed.

Lemma prefix_total_eq P x P' x' : P ++ x = P' ++ x' -> counts_ok (P ++ x) -> total P = total P' -> P = P' /\ x = x'.
Proof.
  intros E Hc Ht. destruct (lt_eq_lt_dec (length P) (length P')) as [[Hl|Hl]|Hl].
  - pose proof (prefix_total P x P' x' E Hc Hl). lia.
  - by apply app_inj_1.
  - rewrite E in Hc. pose proof (prefix_total P' x' P x (eq_sym E) Hc Hl). lia.
Qed.

(** ** Records *)

(** [c] are the extents of one record, [P] those before it and [Q] those after it. *)
Record chunk_of (exts P c Q : list HFSPlusExtentDescriptor) : Prop := {
  co_split : exts = P ++ c ++ Q;
  co_place : exists k, length P = (8 * k)%nat;
  co_size : (length c <= 8)%nat;
  co_full : Q <> [] -> length c = 8%nat;
  co_some : c = [] -> P = [] /\ Q = [];
}.

Lemma chunk_at exts n : (n < length exts)%nat -> exists P c Q, chunk_of exts P c Q /\ (length P <= n < length P + length c)%nat.
Proof.
  intros Hn. set (k := (n / 8)%nat). pose proof (Nat.div_mod_eq n 8) as En. pose proof (Nat.mod_upper_bound n 8 ltac:(lia)) as Hm. fold k in En.
  assert (length (take (8 * k) exts) = 8 * k)%nat as El by (rewrite length_take; lia).
  assert (length (take 8 (drop (8 * k) exts)) = 8 `min` (length exts - 8 * k))%nat as Ec by (rewrite length_take, length_drop; lia).
  exists (take (8 * k) exts), (take 8 (drop (8 * k) exts)), (drop 8 (drop (8 * k) exts)). split; [split|].
  - by rewrite !take_drop.
  - by exists k.
  - lia.
  - intros Hq. assert (length (drop 8 (drop (8 * k) exts)) <> 0)%nat by (intros E; by destruct (nil_length_inv _ E)). rewrite Ec. rewrite !length_drop in *. lia.
  - intros E0. apply (f_equal length) in E0. rewrite Ec in E0. change (length (@nil HFSPlusExtentDescriptor)) with 0%nat in E0. lia.
  - lia.
Qed.

Lemma chunk_first exts : chunk_of exts [] (take 8 exts) (drop 8 exts).
Proof.
  split.
  - cbn. by rewrite take_drop.
  - by exists 0%nat.
  - rewrite length_take. lia.
  - intros Hq. rewrite length_take. assert (length (drop 8 exts) <> 0)%nat by (intros E; by destruct (nil_length_inv _ E)). rewrite length_drop in *. lia.
  - intros E. apply (f_equal length) in E. rewrite length_take in E. change (length (@nil HFSPlusExtentDescriptor)) with 0%nat in E.
    assert (length exts = 0)%nat as ->%nil_length_inv by lia. done.
Qed.

Lemma chunk_empty P c Q : chunk_of [] P c Q -> P = [] /\ c = [] /\ Q = [].
Proof. intros [E _ _ _ _]. symmetry in E. apply app_eq_nil in E as [-> E]. by apply app_eq_nil in E as [-> ->]. Qed.

Section TwoChunks.
Context (exts P c Q P' c' Q' : list HFSPlusExtentDescriptor) (H1 : chunk_of exts P c Q) (H2 : chunk_of exts P' c' Q').

Lemma chunk_same : length P = length P' -> P = P' /\ c = c' /\ Q = Q'.
Proof.
  intros El. destruct H1 as [E1 _ S1 F1 N1], H2 as [E2 _ S2 F2 N2]. rewrite E1 in E2. apply app_inj_1 in E2 as [<- E2]; [|done].
  split; [done|]. destruct (decide (length c = length c')) as [Ec|Ec]; [by apply app_inj_1|].
  exfalso. apply (f_equal length) in E2. rewrite !length_app in E2. destruct (decide (Q = [])) as [->|HQ], (decide (Q' = [])) as [->|HQ']; cbn in E2.
  - lia.
  - specialize (F2 HQ'). lia.
  - specialize (F1 HQ). lia.
  - specialize (F1 HQ). specialize (F2 HQ'). lia.
Qed.

(** A later record comes after all extents of this one. *)
Lemma chunk_later : (length P < length P')%nat -> exists R, P' = P ++ c ++ R /\ Q = R ++ c' ++ Q' /\ length c = 8%nat.
Proof.
  intros Hlt. destruct H1 as [E1 [k Hk] S1 F1 N1], H2 as [E2 [k' Hk'] S2 F2 N2]. rewrite E1, (app_assoc P) in E2.
  assert (length P + 8 <= length P')%nat as Hle by lia. destruct (app_eq_inv _ _ _ _ E2) as [(R & Ea & Eb)|(R & Ea & Eb)].
  - assert (R = []) as ->. { apply (f_equal length) in Ea. rewrite !length_app in Ea. apply nil_length_inv. lia. }
    rewrite app_nil_r in Ea. cbn in Eb. exists []. rewrite app_nil_r. split; [done|]. split; [done|].
    apply (f_equal length) in Ea. rewrite length_app in Ea. lia.
  - exists R. rewrite Ea, app_assoc. split; [done|]. split; [done|]. destruct (decide (Q = [])) as [->|]; [|by apply F1].
    symmetry in Eb. apply app_eq_nil in Eb as [-> _]. rewrite app_nil_r in Ea. rewrite Ea, length_app in Hle. lia.
Qed.
End TwoChunks.

(** No record comes after the last one. *)
Lemma chunk_last exts P c P' c' Q' : chunk_of exts P c [] -> chunk_of exts P' c' Q' -> (length P' <= length P)%nat.
Proof.
  intros H1 H2. destruct (le_lt_dec (length P') (length P)) as [|Hlt]; [done|]. exfalso.
  destruct (chunk_later _ _ _ _ _ _ _ H1 H2 Hlt) as (R & -> & E0 & _). symmetry in E0.
  apply app_eq_nil in E0 as [-> [-> ->]%app_eq_nil]. destruct (co_some _ _ _ _ H2 eq_refl) as [E _]. rewrite E in Hlt. cbn in Hlt. lia.
Qed.

(** ** The records of a fork *)

(** Where a record is: in the file control block or in the tree. *)
Definition chunk_key (ft fid : Z) (P : list HFSPlusExtentDescriptor) : HFSPlusExtentKey :=
  match P with [] => fcb_key | _ => tree_key ft fid (total P) end.

(** The records of the tree for a fork with the extents [exts]. *)
Definition overflow (exts : list HFSPlusExtentDescriptor) (s : Z) (r : HFSPlusExtentRecord) : Prop :=
  exists P c Q, chunk_of exts P c Q /\ P <> [] /\ s = total P /\ r = pad c.

Record fork_rep (m : extent_map) (ft fid : Z) (resident : HFSPlusExtentRecord) (exts : list HFSPlusExtentDescriptor) : Prop := {
  fr_counts : counts_ok exts;
  fr_total : total exts <= UINT32_MAX;
  fr_resident : resident = pad (take 8 exts);
  fr_records : forall s r, m !! (fid, ft, s) = Some r <-> overflow exts s r;
}.

(** The maps agree but on the records of a fork. *)
Definition same_others (ft fid : Z) (m m' : extent_map) : Prop :=
  forall f t s, (f, t) <> (fid, ft) -> m' !! (f, t, s) = m !! (f, t, s).

#[export] Instance same_others_preorder ft fid : PreOrder (same_others ft fid).
Proof. split; [done|]. intros m1 m2 m3 H1 H2 f t s Hne. by rewrite H2, H1. Qed.

Lemma same_others_insert ft fid m s r : same_others ft fid m (<[(fid, ft, s) := r]> m).
Proof. intros f t s' Hne. rewrite lookup_insert_ne; [done|congruence]. Qed.
Lemma same_others_delete ft fid m s : same_others ft fid m (delete (fid, ft, s) m).
Proof. intros f t s' Hne. rewrite lookup_delete_ne; [done|congruence]. Qed.

(** A record is written where it is. *)
Definition put_chunk (ft fid : Z) (P : list HFSPlusExtentDescriptor) (r : HFSPlusExtentRecord) (m : extent_map) : extent_map :=
  match P with [] => m | _ => <[(fid, ft, total P) := r]> m end.
Definition put_resident (P : list HFSPlusExtentDescriptor) (r resident : HFSPlusExtentRecord) : HFSPlusExtentRecord :=
  match P with [] => r | _ => resident end.

Lemma put_chunk_cons ft fid P r m : P <> [] -> put_chunk ft fid P r m = <[(fid, ft, total P) := r]> m.
Proof. by destruct P. Qed.
Lemma put_resident_cons P r resident : P <> [] -> put_resident P r resident = resident.
Proof. by destruct P. Qed.
Lemma chunk_key_cons ft fid P : P <> [] -> chunk_key ft fid P = tree_key ft fid (total P).
Proof. by destruct P. Qed.

Lemma same_others_put ft fid P r m : same_others ft fid m (put_chunk ft fid P r m).
Proof. destruct P; [done|]. apply same_others_insert. Qed.

Section Rep.
Context (ft fid : Z).
Implicit Types (m : extent_map) (exts P c Q : list HFSPlusExtentDescriptor).

Lemma overflow_lookup m resident exts P c Q :
  fork_rep m ft fid resident exts -> chunk_of exts P c Q -> P <> [] -> m !! (fid, ft, total P) = Some (pad c).
Proof. intros Hr Hc HP. apply (fr_records _ _ _ _ _ Hr). by exists P, c, Q. Qed.

(** A record is that of the place its key names. *)
Lemma overflow_at exts P c Q r : counts_ok exts -> chunk_of exts P c Q -> overflow exts (total P) r -> r = pad c.
Proof.
  intros Hc H1 (P' & c' & Q' & H2 & HP & Ht & ->). pose proof (co_split _ _ _ _ H1) as E1. pose proof (co_split _ _ _ _ H2) as E2.
  rewrite E1 in Hc. destruct (prefix_total_eq P (c ++ Q) P' (c' ++ Q') ltac:(congruence) Hc Ht) as [<- _].
  by destruct (chunk_same exts P c Q P c' Q' H1 H2 eq_refl) as (_ & -> & _).
Qed.

(** There is no other key among the blocks of a record. *)
Lemma overflow_between exts P c Q x r :
  counts_ok exts -> chunk_of exts P c Q -> overflow exts x r -> total P <= x < total (P ++ c) -> x = total P.
Proof.
  intros Hc H1 (P' & c' & Q' & H2 & HP & -> & _) Hx. pose proof (co_split _ _ _ _ H1) as E1. pose proof (co_split _ _ _ _ H2) as E2.
  destruct (lt_eq_lt_dec (length P') (length P)) as [[Hl|Hl]|Hl].
  - rewrite E2 in Hc. pose proof (prefix_total P' (c' ++ Q') P (c ++ Q) ltac:(congruence) Hc Hl). lia.
  - by destruct (chunk_same _ _ _ _ _ _ _ H2 H1 Hl) as [-> _].
  - destruct (chunk_later _ _ _ _ _ _ _ H1 H2 Hl) as (R & -> & _). rewrite E2 in Hc. apply counts_ok_app in Hc as [[_ [_ HcR]%counts_ok_app]%counts_ok_app _].
    pose proof (total_nonneg R HcR). rewrite (app_assoc P), (total_app (P ++ c)) in Hx. lia.
Qed.

(** The keys are before the end of the file. *)
Lemma overflow_low exts x r : counts_ok exts -> overflow exts x r -> x < total exts.
Proof.
  intros Hc (P & c & Q & H2 & HP & -> & _). pose proof (co_split _ _ _ _ H2) as E1. rewrite E1, total_app. rewrite E1 in Hc.
  apply counts_ok_app in Hc as [_ Hc]. assert (c ++ Q <> []) as Hne by (intros [-> _]%app_eq_nil; by destruct (co_some _ _ _ _ H2 eq_refl)).
  pose proof (total_pos _ Hc Hne). lia.
Qed.

Lemma no_record_past m resident exts s :
  fork_rep m ft fid resident exts -> total exts <= s -> m !! (fid, ft, s) = None.
Proof.
  intros [Hc _ _ Hr] Hs. destruct (m !! (fid, ft, s)) as [r|] eqn:E; [|done]. exfalso. apply Hr in E. pose proof (overflow_low exts s r Hc E). lia.
Qed.

(** The record after [P] becomes another one, and the later ones go. *)
Lemma rep_cut m m2 resident exts P c Q c' :
  fork_rep m ft fid resident exts -> chunk_of exts P c Q -> counts_ok c' -> (length c' <= 8)%nat -> (c' = [] -> P = []) ->
  total (P ++ c') <= UINT32_MAX ->
  (forall s, s < total (P ++ c) -> m2 !! (fid, ft, s) = put_chunk ft fid P (pad c') m !! (fid, ft, s)) ->
  (forall s, total (P ++ c) <= s -> m2 !! (fid, ft, s) = None) ->
  fork_rep m2 ft fid (put_resident P (pad c') resident) (P ++ c').
Proof.
  intros [Hc Ht Hres Hrec] Hch Hc' Hl' Hn' Ht' Hlow Hhigh. pose proof Hch as [E1 Hpl Hsz Hfull Hnil].
  pose proof Hc as HcP. rewrite E1 in HcP. apply counts_ok_app in HcP as [HcP [Hcc _]%counts_ok_app].
  assert (chunk_of (P ++ c') P c' []) as Hch' by (split; [by rewrite app_nil_r|done|done|done|intros E0; by rewrite Hn']).
  assert (P <> [] -> total P < total (P ++ c)) as HtP.
  { intros HP. rewrite total_app. assert (c <> []) as Hne by (intros E0; by destruct (Hnil E0)). pose proof (total_pos c Hcc Hne). lia. }
  split; [by apply counts_ok_app|done| |].
  - destruct P as [|e P]; cbn [put_resident app].
    + by rewrite take_ge.
    + rewrite Hres, E1. f_equal. destruct Hpl as [k Hk]. assert (8 <= length (e :: P))%nat by (cbn in *; lia).
      change (take 8 ((e :: P) ++ c ++ Q) = take 8 ((e :: P) ++ c')). by rewrite !take_app_le.
  - intros s r. destruct (Z.lt_ge_cases s (total (P ++ c))) as [Hs|Hs].
    2:{ rewrite Hhigh by done. split; [done|]. intros (P2 & c2 & Q2 & H2 & HP2 & -> & _). exfalso. pose proof (chunk_last _ _ _ _ _ _ Hch' H2) as Hle.
        assert (P <> []) as HP by (intros ->; apply HP2, nil_length_inv; cbn in Hle; lia). specialize (HtP HP).
        destruct (decide (length P2 = length P)) as [El|El]; [destruct (chunk_same _ _ _ _ _ _ _ H2 Hch' El) as [-> _]; lia|].
        pose proof (co_split _ _ _ _ H2) as E2. assert (counts_ok (P2 ++ c2 ++ Q2)) as Hc2 by (rewrite <-E2; by apply counts_ok_app).
        pose proof (prefix_total P2 (c2 ++ Q2) P c' (eq_sym E2) Hc2 ltac:(lia)). lia. }
    rewrite Hlow by done. destruct (decide (P <> [] /\ s = total P)) as [[HP ->]|Hout].
    { rewrite put_chunk_cons, lookup_insert_eq by done. split; [intros [= <-]; by exists P, c', []|].
      intros Ho. f_equal. symmetry. by apply (overflow_at (P ++ c') P c' []); [apply counts_ok_app|..]. }
    assert (put_chunk ft fid P (pad c') m !! (fid, ft, s) = m !! (fid, ft, s)) as ->.
    { destruct (decide (P = [])) as [->|HP]; [done|]. rewrite put_chunk_cons, lookup_insert_ne by (done || naive_solver). done. }
    (* the earlier records are the same *)
    assert (forall x y, chunk_of (P ++ x) P (take 8 x) (drop 8 x) -> (forall P2 c2 Q2, chunk_of (P ++ x) P2 c2 Q2 -> s = total P2 -> (length P2 <= length P)%nat) ->
      overflow (P ++ x) s r -> overflow (P ++ y) s r) as Hgen.
    { intros x y Hx Hle (P2 & c2 & Q2 & H2 & HP2 & Es & Er). pose proof (Hle P2 c2 Q2 H2 Es). destruct (decide (length P2 = length P)) as [El|El].
      - exfalso. destruct (chunk_same _ _ _ _ _ _ _ H2 Hx El) as [-> _]. by destruct Hout.
      - destruct (chunk_later _ _ _ _ _ _ _ H2 Hx ltac:(lia)) as (R & EP & EQ & E8). exists P2, c2, (R ++ y). split; [|done].
        destruct H2 as [_ ? ? _ ?]. split; [rewrite EP, <-!app_assoc; done|done|done|done|intros ->; done]. }
    rewrite Hrec, E1. split; apply Hgen.
    + destruct (decide (Q = [])) as [->|HQ]; [rewrite app_nil_r, take_ge, drop_ge by done; by rewrite E1, app_nil_r in Hch|].
      rewrite take_app_length', drop_app_length' by (symmetry; by apply Hfull). by rewrite <-E1.
    + intros P2 c2 Q2 H2 ->. destruct (le_lt_dec (length P2) (length P)) as [|Hlt]; [done|]. exfalso. rewrite <-E1 in H2.
      destruct (chunk_later _ _ _ _ _ _ _ Hch H2 Hlt) as (R & -> & ER & _). rewrite (app_assoc P), (total_app (P ++ c)) in Hs.
      pose proof (co_split _ _ _ _ H2) as E2. rewrite E2 in Hc. apply counts_ok_app in Hc as [[_ [_ HcR]%counts_ok_app]%counts_ok_app _]. pose proof (total_nonneg R HcR). lia.
    + by rewrite take_ge, drop_ge.
    + intros P2 c2 Q2 H2 _. by apply (chunk_last _ _ _ _ _ _ Hch' H2).
Qed.

(** The last record becomes another one. *)
Lemma rep_put_last m resident exts P c c' :
  fork_rep m ft fid resident exts -> chunk_of exts P c [] -> counts_ok c' -> (length c' <= 8)%nat -> (c' = [] -> P = []) ->
  total (P ++ c') <= UINT32_MAX ->
  fork_rep (put_chunk ft fid P (pad c') m) ft fid (put_resident P (pad c') resident) (P ++ c').
Proof.
  intros Hr Hch Hc' Hl' Hn' Ht'. apply (rep_cut m _ resident exts P c []); try done. intros s Hs.
  pose proof (co_split _ _ _ _ Hch) as E1. rewrite app_nil_r in E1. destruct (decide (P = [])) as [->|HP].
  - apply (no_record_past m resident exts s Hr). by rewrite E1.
  - pose proof (fr_counts _ _ _ _ _ Hr) as Hc. rewrite E1 in Hc. apply counts_ok_app in Hc as [_ Hcc].
    assert (c <> []) as Hne by (intros E0; by destruct (co_some _ _ _ _ Hch E0)). pose proof (total_pos c Hcc Hne). rewrite total_app in Hs.
    rewrite put_chunk_cons, lookup_insert_ne by (done || (intros [= E0]; lia)). apply (no_record_past m resident exts s Hr). rewrite E1, total_app. lia.
Qed.

(** A new record after a full one. *)
Lemma rep_new m resident exts P c e :
  fork_rep m ft fid resident exts -> chunk_of exts P c [] -> length c = 8%nat -> 0 < blockCount e -> total (exts ++ [e]) <= UINT32_MAX ->
  fork_rep (<[(fid, ft, total exts) := pad [e]]> m) ft fid resident (exts ++ [e]).
Proof.
  intros [Hc Ht Hres Hrec] Hch Hl He Ht'. pose proof Hch as [E1 [k Hk] _ _ _]. rewrite app_nil_r in E1.
  assert (length exts = 8 * S k)%nat as Elen by (rewrite E1, length_app; lia).
  assert (exts <> []) as Hne by (intros ->; cbn in Elen; lia).
  assert (counts_ok [e]) as Hce by (by apply Forall_singleton).
  assert (chunk_of (exts ++ [e]) exts [e] []) as Hnew by (split; [done|by exists (S k)|cbn; lia|done|done]).
  assert (counts_ok (exts ++ [e])) as Hc' by by apply counts_ok_app.
  split; [done|done| |].
  - rewrite Hres. f_equal. by rewrite take_app_le by lia.
  - intros s r. destruct (decide (s = total exts)) as [->|Hs].
    { rewrite lookup_insert_eq. split; [intros [= <-]; by exists exts, [e], []|]. intros Ho. f_equal. symmetry. by apply (overflow_at (exts ++ [e]) exts [e] []). }
    rewrite lookup_insert_ne by congruence. rewrite Hrec. split.
    + intros (P2 & c2 & Q2 & H2 & HP2 & Es & Er). exists P2, c2, (Q2 ++ [e]). split; [|done].
      pose proof H2 as [E2 P2' S2 F2 N2]. split; [rewrite E2, <-!app_assoc; done|done|done| |by intros E0; destruct (N2 E0)].
      intros _. destruct (decide (Q2 = [])) as [->|]; [|by apply F2]. rewrite app_nil_r in E2. destruct P2' as [k2 Hk2].
      apply (f_equal length) in E2. rewrite length_app in E2. assert (c2 <> []) by (intros ->; by destruct (N2 eq_refl)).
      assert (length c2 <> 0)%nat by (intros E0; by apply nil_length_inv in E0). lia.
    + intros (P2 & c2 & Q2 & H2 & HP2 & Es & Er). destruct (lt_eq_lt_dec (length P2) (length exts)) as [[Hlt|Heq]|Hlt].
      * destruct (chunk_later _ _ _ _ _ _ _ H2 Hnew Hlt) as (R & EP & EQ & El). exists P2, c2, R. split; [|done].
        destruct H2 as [_ ? ? _ ?]. split; [done|done|done|done|]. intros ->. done.
      * destruct (chunk_same _ _ _ _ _ _ _ H2 Hnew Heq) as (-> & _). done.
      * pose proof (chunk_last _ _ _ _ _ _ Hnew H2). lia.
Qed.
End Rep.

(** ** The blocks of a file *)

Definition run_blocks (e : HFSPlusExtentDescriptor) : list Z := seqZ (startBlock e) (blockCount e).
Definition file_blocks (l : list HFSPlusExtentDescriptor) : list Z := l ≫= run_blocks.

Lemma elem_of_run e b : b ∈ run_blocks e <-> startBlock e <= b < startBlock e + blockCount e.
Proof. unfold run_blocks. rewrite elem_of_seqZ. done. Qed.

Lemma file_blocks_app l1 l2 : file_blocks (l1 ++ l2) = file_blocks l1 ++ file_blocks l2.
Proof. apply bind_app. Qed.

Lemma file_blocks_one e : file_blocks [e] = run_blocks e.
Proof. unfold file_blocks. cbn. by rewrite app_nil_r. Qed.

Lemma file_blocks_length l : counts_ok l -> Z.of_nat (length (file_blocks l)) = total l.
Proof.
  induction 1 as [|e l He _ IH]; [done|]. change (file_blocks (e :: l)) with (run_blocks e ++ file_blocks l).
  rewrite length_app. unfold run_blocks. rewrite length_seqZ. cbn [total]. lia.
Qed.

Lemma file_blocks_lookup A e B n :
  counts_ok A -> total A <= n < total A + blockCount e ->
  file_blocks (A ++ e :: B) !! Z.to_nat n = Some (startBlock e + (n - total A)).
Proof.
  intros Hc Hn. pose proof (file_blocks_length A Hc) as El. pose proof (total_nonneg A Hc). rewrite file_blocks_app.
  rewrite lookup_app_r by lia. change (file_blocks (e :: B)) with (run_blocks e ++ file_blocks B).
  rewrite lookup_app_l by (unfold run_blocks; rewrite length_seqZ; lia). unfold run_blocks. apply lookup_seqZ. lia.
Qed.

Record on_disk (v : vol) (bl : list Z) : Prop := {
  od_nodup : NoDup bl;
  od_inside : forall b, b ∈ bl -> 0 < b < vo_totalBlocks v - 1;
  od_set : forall b, b ∈ bl -> bit_set v b;
  od_apart : forall b, b ∈ bl -> in_ranges (reserved_ranges (vbm_of v)) b = false;
}.

Lemma reserved_ranges_shape v v' : same_shape v v' -> reserved_ranges (vbm_of v') = reserved_ranges (vbm_of v).
Proof. intros [_ _ E _ _ _]. unfold reserved_ranges. cbn. by rewrite E. Qed.

(** The bits of other blocks do not matter. *)
Lemma on_disk_step v v' bl bl' :
  on_disk v bl -> same_shape v v' -> NoDup bl' -> (forall b, b ∈ bl' -> b ∈ bl /\ bit_set v' b) -> on_disk v' bl'.
Proof.
  intros [H1 H2 H3 H4] Hs Hn Hb. pose proof (ss_total _ _ Hs) as Et. split; [done|..]; intros b Hin; destruct (Hb b Hin) as [Hin' Hset].
  - rewrite Et. auto.
  - done.
  - rewrite (reserved_ranges_shape v v' Hs). auto.
Qed.

Definition bits_kept (v v' : vol) : Prop := forall b, 0 <= b -> bit_set v b -> bit_set v' b.
#[export] Instance bits_kept_preorder : PreOrder bits_kept.
Proof. split; [by intros v b|]. intros v1 v2 v3 H1 H2 b Hb Hs. by apply H2, H1. Qed.

Lemma on_disk_kept v v' bl : on_disk v bl -> same_shape v v' -> bits_kept v v' -> on_disk v' bl.
Proof.
  intros Hd Hs Hk. apply (on_disk_step v v' bl bl Hd Hs (od_nodup _ _ Hd)). intros b Hb. split; [done|].
  apply Hk; [|by apply (od_set v bl)]. pose proof (od_inside _ _ Hd b Hb). lia.
Qed.

Lemma on_disk_grown v v' bl : on_disk v bl -> grown v v' -> on_disk v' bl.
Proof. intros Hd [_ Hk Hs]. by apply (on_disk_kept v). Qed.

(** The blocks are not more than the volume has. *)
Lemma on_disk_length v bl : on_disk v bl -> 0 < vo_totalBlocks v -> Z.of_nat (length bl) <= vo_totalBlocks v.
Proof.
  intros [Hn Hi _ _] Ht. assert (length bl <= length (seqZ 0 (vo_totalBlocks v)))%nat as Hl; [|rewrite length_seqZ in Hl; lia].
  apply submseteq_length, NoDup_submseteq; [done|]. intros b Hb. apply elem_of_seqZ. specialize (Hi b Hb). lia.
Qed.

(** A run that was free joins. *)
Lemma on_disk_given v bl flags s n v' :
  alloc_inv v -> on_disk v bl -> given v flags s n v' -> on_disk v' (bl ++ seqZ s n).
Proof.
  intros Hi [H1 H2 H3 H4] [G1 G2 G3 G4 G5 G6 G7 G8 G9]. pose proof (vk_limits v (av_ok v Hi)) as [L1 _ _ Lf _ Ll].
  pose proof (ss_total _ _ G8) as Et. pose proof (reserved_ranges_shape v v' G8) as Er.
  assert (forall b, b ∈ seqZ s n -> ~ bit_set v b /\ in_ranges (reserved_ranges (vbm_of v)) b = false) as Hfree.
  { intros b Hb%elem_of_seqZ. specialize (G4 b Hb). rewrite used_bit in G4. apply orb_false_iff in G4 as [G4 G4']. unfold bit_set. by rewrite G4. }
  split.
  - apply NoDup_app. split; [done|]. split; [|apply NoDup_seqZ]. intros b Hb Hb'. by apply (Hfree b Hb'), H3.
  - rewrite Et. intros b [Hb|Hb]%elem_of_app; [auto|]. destruct (Hfree b Hb) as [Hn _]. apply elem_of_seqZ in Hb.
    assert (b <> 0) by (intros ->; by apply Hn). assert (b <> vo_totalBlocks v - 1) by (intros ->; by apply Hn). lia.
  - intros b Hb. assert (0 <= b) as H0 by (apply elem_of_app in Hb as [Hb|Hb%elem_of_seqZ]; [specialize (H2 b Hb); lia|lia]).
    unfold bit_set. rewrite G5 by done. apply elem_of_app in Hb as [Hb|Hb%elem_of_seqZ]; [by rewrite (H3 b Hb), orb_true_r|].
    by rewrite (proj2 (in_run_iff s n b) Hb).
  - rewrite Er. intros b [Hb|Hb]%elem_of_app; [auto|]. by apply Hfree.
Qed.

(** A run of the file can be freed. *)
Lemma on_disk_run v bl e :
  alloc_inv v -> on_disk v bl -> 0 < blockCount e -> (forall b, b ∈ run_blocks e -> b ∈ bl) ->
  1 <= startBlock e /\ startBlock e + blockCount e < vo_totalBlocks v /\ Forall (clear_of (startBlock e) (blockCount e)) (reserved_ranges (vbm_of v)).
Proof.
  intros Hi [H1 H2 H3 H4] Hn Hin. pose proof (vk_bitmap v (av_ok v Hi)) as (_ & R1 & R2).
  pose proof (H2 _ (Hin (startBlock e) ltac:(apply elem_of_run; lia))).
  pose proof (H2 _ (Hin (startBlock e + blockCount e - 1) ltac:(apply elem_of_run; lia))).
  split; [lia|]. split; [lia|]. apply run_unreserved; [by apply Forall_app|done|]. intros b Hb. by apply H4, Hin, elem_of_run.
Qed.

Lemma deallocate_run v bl e :
  alloc_inv v -> on_disk v bl -> 0 < blockCount e -> (forall b, b ∈ run_blocks e -> b ∈ bl) ->
  exists err v', BlockDeallocate (startBlock e) (blockCount e) 0 v = Some (err, v') /\
    (err = noErr /\ freed v 0 (startBlock e) (blockCount e) v' \/ err <> noErr /\ err ∈ bm_io (vo_bitmap v) /\ not_freed v (startBlock e) (blockCount e) v').
Proof.
  intros Hi Hd Hn Hin. destruct (on_disk_run v bl e Hi Hd Hn Hin) as (B1 & B2 & B3).
  destruct (BlockDeallocate_ok v Hi (startBlock e) (blockCount e) 0 B1 Hn B2 B3 eq_refl) as [v' Hf|b v' Hb Hbit _ _|err v' Hne Hio _ Hf].
  - exists noErr, v'. split; [done|]. by left.
  - exfalso. pose proof (od_set _ _ Hd b (Hin b ltac:(by apply elem_of_run))) as Hset. unfold bit_set in Hset. congruence.
  - exists err, v'. split; [done|]. by right.
Qed.

(** The other blocks stay. *)
Lemma on_disk_freed v flags s n v' bl :
  on_disk v bl -> freed v flags s n v' -> (forall b, b ∈ bl -> ~ s <= b < s + n) -> on_disk v' bl.
Proof.
  intros Hd [_ F2 _ _ _ _ F6 _] Hout. apply (on_disk_step v v' bl bl Hd F6 (od_nodup _ _ Hd)). intros b Hb. split; [done|].
  pose proof (od_inside _ _ Hd b Hb). unfold bit_set. rewrite F2 by lia. rewrite (od_set _ _ Hd b Hb). by rewrite (proj2 (in_run_not s n b) (Hout b Hb)).
Qed.

Lemma on_disk_sub v bl bl' : on_disk v bl -> sublist bl' bl -> on_disk v bl'.
Proof.
  intros [H1 H2 H3 H4] Hs. assert (forall b, b ∈ bl' -> b ∈ bl) as Hin by (intros b; by apply (sublist_subseteq _ _ Hs)).
  split; auto. by apply (sublist_NoDup _ bl).
Qed.

#[export] Instance on_disk_proper v : Proper ((≡ₚ) ==> iff) (on_disk v).
Proof.
  assert (forall bl bl', bl ≡ₚ bl' -> on_disk v bl -> on_disk v bl') as Hp.
  { intros bl bl' Hp [H1 H2 H3 H4]. split; [by rewrite <-Hp|..]; intros b; rewrite <-Hp; auto. }
  intros bl bl' Hbl. split; by apply Hp.
Qed.
