(* ===== verification/FileSearchProps.v ===== *)
(** * Looking up the blocks of a file (core/FileExtentMapping.c)

    SearchExtentFile finds the extent of a position wherever its record is, or the last
    extent of the file; MapFileBlockC gives the sector of a position, and as many bytes
    as are contiguous on the disk; NodesAreContiguous tells whether no node of a B-tree
    file is split. *)

From S2P Require Import Prelude HfsFormat ExtentKeys RangeList FreeExtCache Bitmap BitmapBits JournalTrim Volume VolumeOps BlockSearch BlockAlloc VolumeProps BlockSearchProps AllocInv AllocProps FreeProps AllocSafety ExtentsFile FileExtents ForkRep.

(** ** SearchExtentRecord *)

Lemma search_extents_found A e rest fabn : forall index base,
  counts_ok A -> 0 < blockCount e -> 0 <= base -> base + total A + blockCount e <= UINT32_MAX ->
  base + total A <= fabn < base + total A + blockCount e ->
  search_extents fabn (A ++ e :: rest) index base = (true, index + Z.of_nat (length A), base + total A + blockCount e).
Proof.
  induction A as [|e' A IH]; intros index base Hc He Hb Hle Hf; cbn [search_extents app total length] in *.
  - destruct (Z.eqb_spec (blockCount e) 0); [lia|]. rewrite u32_id by lia. destruct (Z.ltb_spec fabn (base + blockCount e)); [|lia].
    f_equal; [f_equal; lia|lia].
  - apply Forall_cons in Hc as [He' Hc]. pose proof (total_nonneg A Hc). destruct (Z.eqb_spec (blockCount e') 0); [lia|].
    rewrite u32_id by lia. destruct (Z.ltb_spec fabn (base + blockCount e')); [lia|]. rewrite IH by (done || lia).
    f_equal; [f_equal; lia|lia].
Qed.

Lemma search_extents_missing A k fabn : forall index base,
  counts_ok A -> 0 <= base -> base + total A <= UINT32_MAX -> base + total A <= fabn ->
  search_extents fabn (A ++ replicate k no_extent) index base = (false, index + Z.of_nat (length A), base + total A).
Proof.
  induction A as [|e' A IH]; intros index base Hc Hb Hle Hf; cbn [search_extents app total length] in *.
  - rewrite !Z.add_0_r. by destruct k.
  - apply Forall_cons in Hc as [He' Hc]. pose proof (total_nonneg A Hc). destruct (Z.eqb_spec (blockCount e') 0); [lia|].
    rewrite u32_id by lia. destruct (Z.ltb_spec fabn (base + blockCount e')); [lia|]. rewrite IH by (done || lia).
    f_equal; [f_equal; lia|lia].
Qed.

Lemma SearchExtentRecord_found A e B fabn base :
  counts_ok (A ++ e :: B) -> 0 <= base -> base + total A + blockCount e <= UINT32_MAX -> base + total A <= fabn < base + total A + blockCount e ->
  SearchExtentRecord fabn (pad (A ++ e :: B)) base = (noErr, Z.of_nat (length A), base + total A + blockCount e, false).
Proof.
  intros Hc Hb Hle Hf. apply counts_ok_app in Hc as [HcA HcB]. apply Forall_cons in HcB as [He _].
  unfold SearchExtentRecord, pad. rewrite <-app_assoc. cbn [app]. by rewrite search_extents_found.
Qed.

Lemma SearchExtentRecord_missing c fabn base :
  counts_ok c -> 0 <= base -> base + total c <= UINT32_MAX -> base + total c <= fabn ->
  SearchExtentRecord fabn (pad c) base = (fxRangeErr, Z.of_nat (length c - 1), base + total c, Z.of_nat (length c) <? kHFSPlusExtentDensity).
Proof.
  intros Hc Hb Hle Hf. unfold SearchExtentRecord, pad. rewrite search_extents_missing by done. rewrite !Z.add_0_l.
  assert ((if 0 <? Z.of_nat (length c) then Z.of_nat (length c) - 1 else 0) = Z.of_nat (length c - 1)) as ->; [|done].
  destruct (Z.ltb_spec 0 (Z.of_nat (length c))); lia.
Qed.

(** ** The records of the tree *)

Section Search.
Context {E : Type} `{!ExtentsTree E} `{!ExtentsTreeLaws E}.
Implicit Types (s : xstate E) (m : extent_map).

Definition with_tree (e : E) s : xstate E := mkX (x_vol s) e (x_fcb s) (x_dirty s).

Lemma key_eta k : xk_keyLength k = kHFSPlusExtentKeyMaximumLength -> k = tree_key (xk_forkType k) (xk_fileID k) (xk_startBlock k).
Proof. destruct k. cbn. by intros ->. Qed.

(** The record with a key. *)
Lemma FindExtentRecord_exact s m ft fid sb :
  et_holds (x_tree s) m ->
  exists err data hint e, FindExtentRecord ft fid sb false s = Some ((err, tree_key ft fid sb, data, hint), with_tree e s) /\ et_holds e m /\
    search_outcome et_failure m (fid, ft, sb) err data.
Proof.
  intros Hh. destruct (et_search_ok (x_tree s) m (tree_key ft fid sb) 0 Hh eq_refl) as (err & r & hint & e & Es & He & Ho).
  exists err, r, hint, e. split; [|done]. unfold FindExtentRecord, on_tree, mbind, X_bind, option_bind. rewrite Es. by rewrite andb_false_r.
Qed.

(** The record of the fork with the key, or else the one before. *)
Inductive previous_found m (ft fid sb : Z) : Z -> HFSPlusExtentKey -> HFSPlusExtentRecord -> Prop :=
| PrevRecord (s' : Z) r :
    s' <= sb -> m !! (fid, ft, s') = Some r -> (forall (s'' : Z) r', m !! (fid, ft, s'') = Some r' -> s'' <= sb -> s'' <= s') ->
    previous_found m ft fid sb noErr (tree_key ft fid s') r
| PrevNone k r : (forall s'' : Z, s'' <= sb -> m !! (fid, ft, s'') = None) -> previous_found m ft fid sb btNotFound k r
| PrevFailure err k r : et_failure err -> previous_found m ft fid sb err k r.

Lemma previous_of_fork m ft fid sb err k r :
  m !! (fid, ft, sb) = None -> previous_outcome et_failure m (fid, ft, sb) err k r ->
  previous_found m ft fid sb
    (let err := if err =? fsBTStartOfIterationErr then btNotFound else err in
     if err =? noErr then if negb (xk_fileID k =? fid) || negb (xk_forkType k =? ft) then btNotFound else noErr else err) k r.
Proof.
  intros Hno [k' r' (H1 & H2 & H3) Hr Hk|err' k' r' Hn Herr|err' k' r' Hf].
  - cbv zeta. change (noErr =? fsBTStartOfIterationErr) with false. cbn match. change (noErr =? noErr) with true. cbn match.
    rewrite (key_eta k' Hk) in *. set (f := xk_fileID k') in *. set (t := xk_forkType k') in *. set (s' := xk_startBlock k') in *.
    cbn [xk_fileID xk_forkType tree_key] in *. unfold key_id, id_before in *. cbn in H2, H3, Hr.
    destruct (Z.eqb_spec f fid) as [Ef|Ef], (Z.eqb_spec t ft) as [Et|Et]; cbn [negb orb].
    + rewrite Ef, Et in *. apply PrevRecord; [lia|done|]. intros s'' r2 Hs Hle. destruct (decide (s'' = sb)) as [->|]; [congruence|].
      destruct (H3 (fid, ft, s'')) as [[= E0]|E0]; [by rewrite Hs|cbn; lia|lia|cbn in E0; lia].
    + apply PrevNone. intros s'' Hle. destruct (m !! (fid, ft, s'')) as [r2|] eqn:Es; [|done]. exfalso. destruct (decide (s'' = sb)) as [->|]; [congruence|].
      destruct (H3 (fid, ft, s'')) as [E0|E0]; [by rewrite Es|cbn; lia|congruence|cbn in E0; lia].
    + apply PrevNone. intros s'' Hle. destruct (m !! (fid, ft, s'')) as [r2|] eqn:Es; [|done]. exfalso. destruct (decide (s'' = sb)) as [->|]; [congruence|].
      destruct (H3 (fid, ft, s'')) as [E0|E0]; [by rewrite Es|cbn; lia|congruence|cbn in E0; lia].
    + apply PrevNone. intros s'' Hle. destruct (m !! (fid, ft, s'')) as [r2|] eqn:Es; [|done]. exfalso. destruct (decide (s'' = sb)) as [->|]; [congruence|].
      destruct (H3 (fid, ft, s'')) as [E0|E0]; [by rewrite Es|cbn; lia|congruence|cbn in E0; lia].
  - assert ((let err := if err' =? fsBTStartOfIterationErr then btNotFound else err' in
      if err =? noErr then if negb (xk_fileID k' =? fid) || negb (xk_forkType k' =? ft) then btNotFound else noErr else err) = btNotFound) as ->
      by (by destruct Herr as [->| ->]).
    apply PrevNone. intros s'' Hle. destruct (m !! (fid, ft, s'')) as [r2|] eqn:Es; [|done]. exfalso.
    destruct (decide (s'' = sb)) as [->|]; [congruence|]. apply (Hn (fid, ft, s'')); [by rewrite Es|]. unfold id_before. cbn. lia.
  - cbv zeta. destruct (et_failure_other err' Hf) as (N1 & N2 & N3 & _). destruct (Z.eqb_spec err' fsBTStartOfIterationErr); [done|].
    destruct (Z.eqb_spec err' noErr); [done|]. by apply PrevFailure.
Qed.

Lemma FindExtentRecord_previous s m ft fid sb :
  et_holds (x_tree s) m ->
  exists err key data hint e, FindExtentRecord ft fid sb true s = Some ((err, key, data, hint), with_tree e s) /\ et_holds e m /\
    previous_found m ft fid sb err key data.
Proof.
  intros Hh. destruct (et_search_ok (x_tree s) m (tree_key ft fid sb) 0 Hh eq_refl) as (err & r & hint & e & Es & He & Ho).
  unfold FindExtentRecord, on_tree, mbind at 1, X_bind at 1, mbind at 1, option_bind at 1. rewrite Es. rewrite andb_true_r. destruct Ho as [r Hr|r Hr|err r Hf].
  - change (noErr =? btNotFound) with false. cbn match. exists noErr, (tree_key ft fid sb), r, hint, e. split; [done|]. split; [done|].
    apply PrevRecord; [lia|done|auto].
  - rewrite Z.eqb_refl. destruct (et_previous_ok e m (tree_key ft fid sb) hint He eq_refl Hr) as (err & k & r' & hint' & e' & Ep & He' & Ho).
    unfold mbind at 1, X_bind at 1, mbind at 1, option_bind at 1. cbn [x_tree]. rewrite Ep. eexists _, k, r', hint', e'. split; [reflexivity|]. split; [done|].
    by apply previous_of_fork.
  - destruct (et_failure_other err Hf) as (_ & N2 & _). destruct (Z.eqb_spec err btNotFound); [done|].
    exists err, (tree_key ft fid sb), r, hint, e. split; [done|]. split; [done|]. by apply PrevFailure.
Qed.

(** ** SearchExtentFile *)

(** The file, on a volume and with its records in the tree. *)
Record file_rep s m (exts : list HFSPlusExtentDescriptor) : Prop := {
  fi_holds : et_holds (x_tree s) m;
  fi_rep : fork_rep m (fork_type (x_fcb s)) (c_fileid (x_fcb s)) (fcbExtents (x_fcb s)) exts;
  fi_disk : on_disk (x_vol s) (file_blocks exts);
}.

(** Where the extent with file block [fb] is, or that the file ends before it. *)
Inductive located (exts : list HFSPlusExtentDescriptor) (ft fid fb : Z) : found_extent -> Prop :=
| LocatedIn P A e B Q hint :
    chunk_of exts P (A ++ e :: B) Q -> total (P ++ A) <= fb < total (P ++ A) + blockCount e ->
    located exts ft fid fb
      (mkFound noErr (chunk_key ft fid P) (pad (A ++ e :: B)) (Z.of_nat (length A)) hint (total (P ++ A) + blockCount e))
| LocatedPast P c hint :
    chunk_of exts P c [] -> total exts <= fb ->
    located exts ft fid fb (mkFound fxRangeErr (chunk_key ft fid P) (pad c) (Z.of_nat (length c - 1)) hint (total exts))
| LocatedFailure out : et_failure (fx_err out) -> located exts ft fid fb out.

(** A block of the first record. *)
Lemma take_split A (e : HFSPlusExtentDescriptor) B : (length A < 8)%nat -> take 8 (A ++ e :: B) = A ++ e :: take (7 - length A) B.
Proof. intros Hl. rewrite take_app_ge by lia. f_equal. by replace (8 - length A)%nat with (S (7 - length A)) by lia. Qed.

Lemma chunk_final exts : exists P c, chunk_of exts P c [].
Proof.
  destruct exts as [|e exts]; [exists [], []; by apply (chunk_first [])|].
  destruct (chunk_at (e :: exts) (length exts)) as (P & c & Q & Hc & Hl); [cbn; lia|]. exists P, c.
  assert (Q = []) as ->; [|done]. apply nil_length_inv. pose proof (co_split _ _ _ _ Hc) as E0. apply (f_equal length) in E0.
  rewrite !length_app in E0. cbn in *. lia.
Qed.

(** The record that [fb] is in, or the last one. *)
Lemma record_before m ft fid resident exts fb key data :
  fork_rep m ft fid resident exts -> total (take 8 exts) <= fb -> previous_found m ft fid fb noErr key data ->
  exists P c Q, chunk_of exts P c Q /\ P <> [] /\ key = tree_key ft fid (total P) /\ data = pad c /\ total P <= fb /\
    (total exts <= fb -> Q = []) /\ (fb < total exts -> fb < total (P ++ c)).
Proof.
  intros Hr Hfirst Hp. pose proof (fr_counts _ _ _ _ _ Hr) as Hc.
  inversion Hp as [s' r Hle Hs Hmax|k r Hn Ek|err k r Hf]; subst; [|by destruct (et_failure_other noErr Hf)].
  apply (fr_records _ _ _ _ _ Hr) in Hs as (P & c & Q & Hch & HP & -> & ->). exists P, c, Q. do 5 (split; [done|]).
  pose proof (co_split _ _ _ _ Hch) as Ee.
  (* no record of the file is between *)
  assert (forall P' c' Q', chunk_of exts P' c' Q' -> total P' <= fb -> (length P' <= length P)%nat) as Hlast.
  { intros P' c' Q' Hch' Ht. destruct (decide (P' = [])) as [->|HP']; [cbn; lia|]. destruct (le_lt_dec (length P') (length P)) as [|Hlt]; [done|].
    pose proof (Hmax (total P') _ (overflow_lookup ft fid m resident exts P' c' Q' Hr Hch' HP') Ht) as Hle'.
    pose proof (co_split _ _ _ _ Hch') as Ee'. rewrite Ee in Hc. pose proof (prefix_total P (c ++ Q) P' (c' ++ Q') ltac:(congruence) Hc Hlt). lia. }
  split.
  - intros Hpast. destruct (chunk_final exts) as (P' & c' & Hf). destruct (decide (length P = length P')) as [El|Hne].
    + by destruct (chunk_same _ _ _ _ _ _ _ Hch Hf El) as (_ & _ & ->).
    + exfalso. pose proof (chunk_last _ _ _ _ _ _ Hf Hch). assert (total P' <= fb) as Ht; [|pose proof (Hlast P' c' [] Hf Ht); lia].
      pose proof (co_split _ _ _ _ Hf) as Ef. rewrite Ef, total_app in Hpast. rewrite Ef in Hc. apply counts_ok_app in Hc as [_ Hc].
      pose proof (total_nonneg _ Hc). lia.
  - intros Hin. destruct (Z.lt_ge_cases fb (total (P ++ c))) as [|Hge]; [done|]. exfalso.
    assert (Q <> []) as HQ by (intros ->; rewrite app_nil_r in Ee; rewrite Ee in Hin; lia).
    pose proof (co_full _ _ _ _ Hch HQ) as Hl8. destruct (co_place _ _ _ _ Hch) as [k Hk].
    destruct (chunk_at exts (length P + 8)) as (P' & c' & Q' & Hch' & Hl').
    { rewrite Ee, !length_app. assert (length Q <> 0)%nat by (intros E0; by apply nil_length_inv in E0). lia. }
    destruct (co_place _ _ _ _ Hch') as [k' Hk']. pose proof (co_size _ _ _ _ Hch').
    assert (length P' = length P + 8)%nat as El by lia.
    destruct (chunk_later _ _ _ _ _ _ _ Hch Hch' ltac:(lia)) as (R & -> & _ & _). assert (R = []) as -> by (apply nil_length_inv; rewrite !length_app in El; lia).
    rewrite app_nil_r in *. pose proof (Hlast _ _ _ Hch' Hge). lia.
Qed.

Lemma SearchExtentFile_ok s m exts pos :
  file_rep s m exts ->
  exists out e, SearchExtentFile pos s = Some (out, with_tree e s) /\ et_holds e m /\
    located exts (fork_type (x_fcb s)) (c_fileid (x_fcb s)) (u32 (Z.quot pos (blockSize (vo_geom (x_vol s))))) out.
Proof.
  intros [Hh Hr _]. pose proof Hr as [Hc Ht Hres _]. assert (with_tree (x_tree s) s = s) as Eid by by destruct s.
  unfold SearchExtentFile. unfold mbind at 1, X_bind at 1, get_volume. unfold mbind at 1, X_bind at 1, get_fcb.
  set (ft := fork_type (x_fcb s)) in *. set (fid := c_fileid (x_fcb s)) in *.
  set (fb := u32 _). assert (0 <= fb) as Hfb by apply u32_bound. clearbody fb. cbv zeta. rewrite Hres.
  pose proof (chunk_first exts) as Hfirst. set (first := take 8 exts) in *. set (rest := drop 8 exts) in *.
  assert (exts = first ++ rest) as Esplit by (symmetry; apply take_drop).
  assert (counts_ok first /\ counts_ok rest) as [Hcf Hcr] by (apply counts_ok_app; by rewrite <-Esplit).
  assert (total exts = total first + total rest) as Etot by (by rewrite Esplit at 1; rewrite total_app). pose proof (total_nonneg _ Hcr).
  destruct (Z.lt_ge_cases fb (total first)) as [Hin|Hout].
  { (* in the first record *)
    destruct (total_split first fb Hcf ltac:(lia)) as (A & e & B & Ef & HA). rewrite Ef in Hcf, Hfirst |- *.
    pose proof (total_app A (e :: B)) as Eab. pose proof Hcf as [_ [_ HcB]%Forall_cons]%counts_ok_app. pose proof (total_nonneg B HcB). rewrite Ef, Eab in *. cbn [total] in *.
    rewrite SearchExtentRecord_found by (done || lia). eexists _, (x_tree s). rewrite Eid. split; [reflexivity|]. split; [done|].
    by apply (LocatedIn exts ft fid fb [] A e B rest kNoHint). }
  rewrite SearchExtentRecord_missing by (done || lia). change (fxRangeErr =? noErr) with false. cbn match. rewrite Z.add_0_l.
  assert (forall e, et_holds e m -> total exts <= fb -> rest = [] ->
    exists out e', Some (mkFound fxRangeErr fcb_key (pad first) (Z.of_nat (length first - 1)) kNoHint (total first), with_tree e s) = Some (out, with_tree e' s) /\
      et_holds e' m /\ located exts ft fid fb out) as Hpast.
  { intros e He Hfe Er. rewrite Er in Hfirst. eexists _, e. split; [reflexivity|]. split; [done|].
    assert (total first = total exts) as -> by (rewrite Etot, Er; cbn; lia). by apply (LocatedPast exts ft fid fb [] first). }
  destruct (Z.ltb_spec (Z.of_nat (length first)) kHFSPlusExtentDensity) as [Hshort|Hfull].
  { assert (rest = []) as Er. { destruct rest as [|e rest]; [done|]. pose proof (co_full _ _ _ _ Hfirst ltac:(done)) as E8. unfold kHFSPlusExtentDensity in Hshort. lia. }
    destruct (Hpast (x_tree s) Hh) as (out & e & E0 & He); [rewrite Etot, Er; cbn; lia|done|]. exists out, e. rewrite <-E0, Eid. done. }
  destruct (FindExtentRecord_previous s m ft fid fb Hh) as (err & key & data & hint & e & Es & He & Hp).
  unfold mbind at 1, X_bind at 1. rewrite Es.
  inversion Hp as [s' r Hle Hs Hmax|k r Hn Ek|err' k r Hf]; subst err key data; clear Hp.
  - change (noErr =? btNotFound) with false. change (noErr =? noErr) with true. cbn match.
    destruct (record_before m ft fid _ exts fb (tree_key ft fid s') r Hr Hout) as (P & c & Q & Hch & HP & [= ->] & -> & HtP & HQ & Hin).
    { by apply PrevRecord. }
    pose proof (co_split _ _ _ _ Hch) as Ee. pose proof Hc as HcP. rewrite Ee in HcP. apply counts_ok_app in HcP as [HcP [Hcc HcQ]%counts_ok_app].
    pose proof (total_nonneg _ HcP). pose proof (total_nonneg _ Hcc). pose proof (total_nonneg _ HcQ).
    assert (total exts = total P + total c + total Q) as Et by (rewrite Ee, !total_app; lia). cbn [xk_startBlock tree_key].
    rewrite <-(chunk_key_cons ft fid P HP). destruct (Z.lt_ge_cases fb (total (P ++ c))) as [Hfc|Hfc].
    + rewrite total_app in Hfc. destruct (total_split c (fb - total P) Hcc ltac:(lia)) as (A & e' & B & -> & HA).
      pose proof (total_app A (e' :: B)) as Eab. pose proof Hcc as [_ [_ HcB]%Forall_cons]%counts_ok_app. pose proof (total_nonneg B HcB). cbn [total] in Eab.
      rewrite SearchExtentRecord_found by (done || lia). eexists _, e. split; [reflexivity|]. split; [done|].
      rewrite <-total_app. apply (LocatedIn exts ft fid fb P A e' B Q); [done|]. rewrite total_app. lia.
    + assert (total exts <= fb) as Hge by (destruct (Z.le_gt_cases (total exts) fb) as [|Hlt]; [done|]; specialize (Hin ltac:(lia)); lia).
      rewrite (HQ Hge) in *. rewrite total_app in Hfc. rewrite SearchExtentRecord_missing by (done || lia). eexists _, e. split; [reflexivity|]. split; [done|].
      assert (total P + total c = total exts) as -> by (rewrite Et; cbn; lia). by apply LocatedPast.
  - rewrite Z.eqb_refl. assert (rest = []) as Er.
    { destruct rest as [|e' rest'] eqn:Er; [done|]. exfalso. assert (length first = 8)%nat as E8 by by apply (co_full _ _ _ _ Hfirst).
      destruct (chunk_at exts 8) as (P & c & Q & Hch & Hl). { rewrite Esplit, length_app. cbn. lia. }
      pose proof (co_size _ _ _ _ Hch). destruct (co_place _ _ _ _ Hch) as [k' Hk']. assert (length P = 8)%nat as EP by lia.
      destruct (chunk_later _ _ _ _ _ _ _ Hfirst Hch ltac:(cbn; lia)) as (R & EPR & _). cbn in EPR. assert (R = []) as -> by (apply nil_length_inv; apply (f_equal length) in EPR; rewrite length_app in EPR; lia).
      rewrite app_nil_r in EPR. subst P. pose proof (overflow_lookup ft fid m _ exts _ c Q Hr Hch) as Hlook. rewrite (Hn (total first)) in Hlook by lia.
      discriminate Hlook. by intros E0; rewrite E0 in E8. }
    apply Hpast; [done|rewrite Etot, Er; cbn; lia|done].
  - destruct (et_failure_other err' Hf) as (N1 & N2 & _). destruct (Z.eqb_spec err' btNotFound); [done|]. destruct (Z.eqb_spec err' noErr); [done|].
    eexists _, e. split; [reflexivity|]. split; [done|]. by apply LocatedFailure.
Qed.

(** C7: SearchExtentFile, for a file whose extents are in its control block and in the
    records of the extents file, at any position: without a fault and without a change,
    it finds the record, the index and the end of the extent the position is in, in
    whichever record that is; beyond the last extent it gives fxRangeErr with the last
    record and extent of the file; or an error of the tree. *)
Theorem SearchExtentFile_correct s m exts pos :
  file_rep s m exts ->
  exists out e, SearchExtentFile pos s = Some (out, with_tree e s) /\ et_holds e m /\
    located exts (fork_type (x_fcb s)) (c_fileid (x_fcb s)) (u32 (Z.quot pos (blockSize (vo_geom (x_vol s))))) out.
Proof. apply SearchExtentFile_ok. Qed.

(** ** MapFileBlockC *)

Lemma file_total s m exts : vol_ok (x_vol s) -> file_rep s m exts -> total exts <= vo_totalBlocks (x_vol s).
Proof.
  intros Hv [_ Hr Hd]. rewrite <-(file_blocks_length exts (fr_counts _ _ _ _ _ Hr)). apply (on_disk_length (x_vol s)); [done|].
  pose proof (li_alloc _ (vk_limits _ Hv)). lia.
Qed.

Lemma file_extent s m exts A e B :
  vol_ok (x_vol s) -> file_rep s m exts -> exts = A ++ e :: B -> 1 <= startBlock e /\ 0 < blockCount e /\ startBlock e + blockCount e < vo_totalBlocks (x_vol s).
Proof.
  intros Hv [_ Hr [_ Hin _ _]] Ee. pose proof (fr_counts _ _ _ _ _ Hr) as Hc. rewrite Ee in Hc. apply counts_ok_app in Hc as [_ [He _]%Forall_cons].
  assert (forall b, startBlock e <= b < startBlock e + blockCount e -> 0 < b < vo_totalBlocks (x_vol s) - 1) as Hb.
  { intros b Hb. apply Hin. rewrite Ee, file_blocks_app. change (file_blocks (e :: B)) with (run_blocks e ++ file_blocks B).
    rewrite !elem_of_app, elem_of_run. auto. }
  pose proof (Hb (startBlock e) ltac:(lia)). pose proof (Hb (startBlock e + blockCount e - 1) ltac:(lia)). lia.
Qed.

(** What MapFileBlockC answers for [offset], in file block [fb]. *)
Inductive mapped s exts (sector numberOfBytes offset : Z) : Z * option (Z * Z) -> Prop :=
| MappedTo A e B :
    let bs := blockSize (vo_geom (x_vol s)) in
    let fb := offset / bs in
    exts = A ++ e :: B -> total A <= fb < total A + blockCount e -> offset < ff_blocks (x_fcb s) * bs ->
    mapped s exts sector numberOfBytes offset
      (noErr, Some (hfsPlusIOPosOffset (vo_geom (x_vol s)) / sector + (startBlock e + (fb - total A)) * (bs / sector) + offset mod bs / sector,
                    Z.min numberOfBytes (Z.min ((total A + blockCount e) * bs) (ff_blocks (x_fcb s) * bs) - offset)))
| MappedPastEnd :
    ff_blocks (x_fcb s) * blockSize (vo_geom (x_vol s)) <= offset -> offset / blockSize (vo_geom (x_vol s)) < total exts ->
    mapped s exts sector numberOfBytes offset (EINVAL, None)
| MappedPast : total exts <= offset / blockSize (vo_geom (x_vol s)) -> mapped s exts sector numberOfBytes offset (fxRangeErr, None)
| MappedFailure err : et_failure err -> mapped s exts sector numberOfBytes offset (err, None).

Lemma div_le_self a b : 0 <= a -> 0 < b -> 0 <= a / b <= a.
Proof. intros Ha Hb. split; [by apply Z.div_pos|]. apply Z.div_le_upper_bound; [done|]. pose proof (Z.mul_le_mono_nonneg_r 1 b a). lia. Qed.

Lemma sector_of bs sector offset base :
  0 < sector -> (sector | bs) -> 0 < bs -> 0 <= base -> base * bs <= offset ->
  Z.quot (offset - base * bs) sector = (offset / bs - base) * (bs / sector) + offset mod bs / sector.
Proof.
  intros Hs [k ->] Hb H0 Hle. rewrite Z.div_mul by lia. rewrite Z.quot_div_nonneg by lia.
  rewrite (Z.div_mod offset (k * sector)) at 1 by lia.
  replace (k * sector * (offset / (k * sector)) + offset mod (k * sector) - base * (k * sector))
    with (offset mod (k * sector) + (offset / (k * sector) - base) * k * sector) by ring.
  rewrite Z.div_add by lia. lia.
Qed.

(** C6: MapFileBlockC, for a file as above on a device of less than 2^63 bytes whose sectors
    divide the blocks: the sector it gives is that of the disk block the file has at the
    offset, and the bytes are those asked for, cut at the end of that extent and at the
    end of the file.  Past the end of the file, but in its last extent, the answer is
    EINVAL, past the last extent fxRangeErr; or it is an error of the tree. *)
Theorem MapFileBlockC_correct s m exts sector numberOfBytes offset :
  vol_ok (x_vol s) -> file_rep s m exts -> hfs_logical_bytes (vo_geom (x_vol s)) < 2 ^ 63 ->
  0 < sector -> (sector | blockSize (vo_geom (x_vol s))) -> 0 <= numberOfBytes < 2 ^ 63 ->
  0 <= offset < 2 ^ 63 -> offset / blockSize (vo_geom (x_vol s)) <= UINT32_MAX ->
  0 <= ff_blocks (x_fcb s) * blockSize (vo_geom (x_vol s)) < 2 ^ 63 ->
  exists out e, MapFileBlockC sector numberOfBytes offset true s = Some (out, with_tree e s) /\ et_holds e m /\ mapped s exts sector numberOfBytes offset out.
Proof.
  intros Hv Hf Hdev Hsec Hdiv Hnum Hoff Hfb Hff. destruct (SearchExtentFile_ok s m exts offset Hf) as (out & e & Es & He & Hl).
  pose proof (file_total s m exts Hv Hf) as Htot. destruct (vk_geom _ Hv) as [G1 G2 G3 G4]. pose proof (fr_counts _ _ _ _ _ (fi_rep _ _ _ Hf)) as Hc.
  unfold MapFileBlockC. unfold mbind at 1, X_bind at 1. rewrite Es. rewrite Z.quot_div_nonneg in Hl by lia.
  set (bs := blockSize (vo_geom (x_vol s))) in *. rewrite u32_id in Hl by (split; [apply Z.div_pos; lia|done]).
  destruct Hl as [P A x B Q hint Hch Hin|P c hint Hch Hpast|out Hfail].
  - change (negb (fx_err _ =? noErr)) with false. cbn match. unfold mbind at 1, X_bind at 1, get_volume. unfold mbind at 1, X_bind at 1, get_fcb.
    assert (extent_at (pad (A ++ x :: B)) (Z.of_nat (length A)) = Some x) as Ex.
    { unfold extent_at, pad. rewrite Nat2Z.id, <-app_assoc. by apply lookup_middle. }
    cbn [fx_data fx_index fx_ending]. unfold mbind at 1, X_bind at 1, x_lift. rewrite Ex. cbn [fmap option_fmap option_map x_vol x_fcb with_tree]. fold bs.
    pose proof (co_split _ _ _ _ Hch) as Ee. rewrite <-(app_assoc A) in Ee. cbn [app] in Ee. rewrite (app_assoc P) in Ee.
    destruct (file_extent s m exts (P ++ A) x (B ++ Q) Hv Hf Ee) as (X1 & X2 & X3).
    assert (0 <= total (P ++ A) /\ total (P ++ A) + blockCount x <= total exts) as [T1 T2].
    { rewrite Ee in Hc |- *. apply counts_ok_app in Hc as [Hc1 [_ Hc2]%Forall_cons]. pose proof (total_nonneg _ Hc1). pose proof (total_nonneg _ Hc2).
      rewrite (total_app (P ++ A)). cbn [total]. lia. }
    set (T := total (P ++ A)) in *. assert (T * bs <= offset < (T + blockCount x) * bs) as Hob.
    { pose proof (Z.div_mod offset bs ltac:(lia)). pose proof (Z.mod_pos_bound offset bs ltac:(lia)). nia. }
    assert (0 <= T * bs /\ (T + blockCount x) * bs <= vo_totalBlocks (x_vol s) * bs /\ (startBlock x + blockCount x) * bs < vo_totalBlocks (x_vol s) * bs) as (B1 & B2 & B3) by nia.
    replace (T + blockCount x - blockCount x) with T by lia. rewrite (u32_id T) by (pose proof (li_max _ (vk_limits _ Hv)); lia).
    rewrite (s64_id ((T + blockCount x) * bs)), (s64_id (ff_blocks (x_fcb s) * bs)), (s64_id (T * bs)), (s64_id (offset - T * bs)) by (unfold INT64_MAX; lia).
    rewrite (sector_of bs sector offset T Hsec Hdiv) by lia. set (dataEnd := if _ <? _ then _ else _).
    assert (dataEnd = Z.min ((T + blockCount x) * bs) (ff_blocks (x_fcb s) * bs)) as Ed by (subst dataEnd; destruct (Z.ltb_spec (ff_blocks (x_fcb s) * bs) ((T + blockCount x) * bs)); lia).
    clearbody dataEnd. set (fb := offset / bs) in *. set (r := offset mod bs) in *.
    assert (0 <= bs / sector /\ bs / sector * sector = bs) as [D1 D2].
    { split; [apply Z.div_pos; lia|]. destruct Hdiv as [k Ek]. rewrite Ek, Z.div_mul by lia. done. }
    pose proof (Z.mod_pos_bound offset bs ltac:(lia)) as Hr. fold r in Hr. pose proof (div_le_self r sector ltac:(lia) Hsec) as D3.
    pose proof (div_le_self (hfsPlusIOPosOffset (vo_geom (x_vol s))) sector G2 Hsec) as D4.
    set (q := bs / sector) in *. pose proof (Z.mul_le_mono_nonneg_l 1 sector q D1 ltac:(lia)) as D5. rewrite D2 in D5.
    pose proof (Z.mul_nonneg_nonneg (fb - T) q ltac:(lia) D1). pose proof (Z.mul_le_mono_nonneg_l q bs (fb - T) ltac:(lia) ltac:(lia)).
    pose proof (Z.mul_nonneg_nonneg (startBlock x) q ltac:(lia) D1). pose proof (Z.mul_le_mono_nonneg_l q bs (startBlock x) ltac:(lia) ltac:(lia)).
    pose proof (Z.mul_le_mono_nonneg_r (fb - T) (blockCount x - 1) bs ltac:(lia) ltac:(lia)).
    clear D2.
    rewrite (s64_id (startBlock x * q)) by (unfold INT64_MAX; lia).
    rewrite (s64_id ((fb - T) * q + r / sector + startBlock x * q)) by (unfold INT64_MAX; lia).
    rewrite (s64_id (_ + hfsPlusIOPosOffset (vo_geom (x_vol s)) / sector)) by (unfold INT64_MAX; lia).
    rewrite (s64_id (dataEnd - offset)), (s64_id numberOfBytes) by (unfold INT64_MAX; lia).
    destruct (Z.leb_spec (dataEnd - offset) 0).
    + eexists _, e. split; [reflexivity|]. split; [done|]. apply MappedPastEnd; fold bs fb; lia.
    + eexists _, e. split; [reflexivity|]. split; [done|].
      replace ((fb - T) * q + r / sector + startBlock x * q + hfsPlusIOPosOffset (vo_geom (x_vol s)) / sector)
        with (hfsPlusIOPosOffset (vo_geom (x_vol s)) / sector + (startBlock x + (fb - T)) * q + r / sector) by ring.
      replace (if numberOfBytes <? dataEnd - offset then numberOfBytes else dataEnd - offset)
        with (Z.min numberOfBytes (dataEnd - offset)) by (destruct (Z.ltb_spec numberOfBytes (dataEnd - offset)); lia).
      rewrite Ed. apply (MappedTo s exts sector numberOfBytes offset (P ++ A) x (B ++ Q)); [done|done|fold bs; lia].
  - change (negb (fx_err _ =? noErr)) with true. cbn match. eexists _, e. split; [reflexivity|]. split; [done|]. by apply MappedPast.
  - destruct (et_failure_other _ Hfail) as (N1 & _). destruct (Z.eqb_spec (fx_err out) noErr); [done|]. cbn [negb].
    eexists _, e. split; [reflexivity|]. split; [done|]. by apply MappedFailure.
Qed.

(** ** NodesAreContiguous *)

(** Every extent holds a whole number of nodes of [n] blocks. *)
Definition whole_nodes (n : Z) (l : list HFSPlusExtentDescriptor) : Prop := Forall (fun e => (n | blockCount e)) l.

Lemma total_whole n l : whole_nodes n l -> (n | total l).
Proof. induction 1 as [|e l He _ IH]; cbn; [apply Z.divide_0_r|]. by apply Z.divide_add_r. Qed.

(** Node [i] of such a file is in one run. *)
Lemma whole_nodes_run n l i :
  counts_ok l -> 0 < n -> whole_nodes n l -> 0 <= i -> (i + 1) * n <= total l ->
  exists start, forall j, 0 <= j < n -> file_blocks l !! Z.to_nat (i * n + j) = Some (start + j).
Proof.
  intros Hc Hn Hw Hi Hle. destruct (total_split l (i * n) Hc) as (A & e & B & -> & HA); [nia|]. unfold whole_nodes in Hw.
  apply Forall_app in Hw as [[a Ea]%total_whole [[k Ek] _]%Forall_cons]. apply counts_ok_app in Hc as [HcA _].
  assert (i < a + k) by (apply (Z.mul_lt_mono_pos_r n); lia).
  exists (startBlock e + (i * n - total A)). intros j Hj. rewrite (file_blocks_lookup A e B) by (done || nia). f_equal. lia.
Qed.

Lemma ExtentsAreIntegral_ok k c : forall base fill,
  0 <= k -> counts_ok c -> 0 <= base -> base + total c <= UINT32_MAX ->
  (whole_nodes (2 ^ k) c /\ ExtentsAreIntegral (c ++ replicate fill no_extent) (Z.ones k) base = (true, base + total c, negb (fill =? 0)%nat)) \/
  (~ whole_nodes (2 ^ k) c /\ exists checked, ExtentsAreIntegral (c ++ replicate fill no_extent) (Z.ones k) base = (false, checked, false)).
Proof.
  intros base fill Hk. revert base. induction c as [|e c IH]; intros base Hc Hb Hle.
  - left. split; [by apply Forall_nil|]. cbn [app total]. rewrite Z.add_0_r. by destruct fill.
  - apply Forall_cons in Hc as [He Hc]. cbn [total] in Hle. pose proof (total_nonneg c Hc). cbn [app ExtentsAreIntegral].
    destruct (Z.eqb_spec (blockCount e) 0); [lia|]. rewrite u32_id by lia. rewrite Z.land_ones by done.
    destruct (Z.eqb_spec (blockCount e mod 2 ^ k) 0) as [Ez|Ez]; cbn [negb].
    + destruct (IH (base + blockCount e) Hc ltac:(lia) ltac:(lia)) as [[Hw ->]|[Hw (ch & ->)]].
      * left. split; [|f_equal; f_equal; cbn; lia]. apply Forall_cons. split; [|done]. apply Z.mod_divide; [|done]. apply Z.pow_nonzero; lia.
      * right. split; [by intros [_ ?]%Forall_cons|by exists ch].
    + right. split; [|by eexists]. intros [Hd _]%Forall_cons. apply Z.mod_divide in Hd; [done|]. apply Z.pow_nonzero; lia.
Qed.

(** The tree has not fewer records than the extents need. *)
Lemma records_enough ft fid exts : forall (Q P c : list HFSPlusExtentDescriptor) m,
  counts_ok exts -> chunk_of exts P c Q -> P <> [] ->
  (forall P' c' Q', chunk_of exts P' c' Q' -> (length P <= length P')%nat -> is_Some (m !! (fid, ft, total P'))) ->
  (length (c ++ Q) <= 8 * size m)%nat.
Proof.
  intros Q. remember (length Q) as len eqn:Elen. revert Q Elen. induction len as [len IH] using lt_wf_ind. intros Q -> P c m Hc Hch HP Hin.
  destruct (Hin P c Q Hch ltac:(lia)) as [r Hr]. pose proof (co_size _ _ _ _ Hch) as Hsz. pose proof (co_split _ _ _ _ Hch) as Ee.
  assert (size (delete (fid, ft, total P) m) = pred (size m)) as Esz by (by apply map_size_delete_Some; rewrite Hr).
  assert (size m <> 0)%nat by (intros E0%map_size_empty_inv; by rewrite E0, lookup_empty in Hr).
  destruct (decide (Q = [])) as [->|HQ]; [rewrite app_nil_r; lia|]. pose proof (co_full _ _ _ _ Hch HQ) as Hl8. destruct (co_place _ _ _ _ Hch) as [k Hk].
  destruct (chunk_at exts (length P + 8)) as (P' & c' & Q' & Hch' & Hl').
  { rewrite Ee, !length_app. assert (length Q <> 0)%nat by (intros E0; by apply nil_length_inv in E0). lia. }
  destruct (co_place _ _ _ _ Hch') as [k' Hk']. pose proof (co_size _ _ _ _ Hch').
  destruct (chunk_later _ _ _ _ _ _ _ Hch Hch' ltac:(lia)) as (R & EP & EQ & _).
  assert (R = []) as -> by (apply nil_length_inv; rewrite EP, !length_app in Hl', Hk'; lia). rewrite app_nil_r in EP. cbn in EQ.
  assert (c' <> []) as Hc' by (intros ->; cbn in Hl'; lia).
  assert (length c' <> 0)%nat by (intros E0; by apply nil_length_inv in E0).
  enough (length (c' ++ Q') <= 8 * size (delete (fid, ft, total P) m))%nat as Hle by (rewrite EQ, !length_app in *; lia).
  apply (IH (length Q') ltac:(rewrite EQ, length_app; lia) Q' eq_refl P' c'); [done|done| |].
  - intros ->. symmetry in EP. by apply app_eq_nil in EP as [-> _].
  - intros P2 c2 Q2 H2 Hl2. rewrite lookup_delete_ne; [apply (Hin P2 c2 Q2); [done|lia]|]. intros [= Et].
    pose proof (co_split _ _ _ _ H2) as E2. rewrite Ee in Hc. destruct (prefix_total_eq P (c ++ Q) P2 (c2 ++ Q2) ltac:(congruence) Hc Et) as [-> _]. lia.
Qed.

(** The record after the extents [P]. *)
Lemma chunk_next exts P rest :
  exts = P ++ rest -> (exists k, length P = (8 * k)%nat) -> rest <> [] -> exists c Q, chunk_of exts P c Q /\ rest = c ++ Q.
Proof.
  intros -> [k Hk] Hne. assert (length rest <> 0)%nat by (intros E0; by apply nil_length_inv in E0).
  destruct (chunk_at (P ++ rest) (length P)) as (P' & c & Q & Hch & Hl); [rewrite length_app; lia|].
  destruct (co_place _ _ _ _ Hch) as [k' Hk']. pose proof (co_size _ _ _ _ Hch). pose proof (co_split _ _ _ _ Hch) as Ee.
  apply app_inj_1 in Ee as [<- ->]; [by exists c, Q|lia].
Qed.

Definition tree_failed : Prop := exists err, et_failure err.

Lemma nodes_loop_ok s m exts k fuel : forall P rest e,
  fork_rep m kDataForkType (c_fileid (x_fcb s)) (fcbExtents (x_fcb s)) exts -> 0 <= k ->
  exts = P ++ rest -> (exists j, length P = (8 * j)%nat) -> P <> [] -> (length rest <= 8 * fuel)%nat -> et_holds e m ->
  exists b e', nodes_loop (c_fileid (x_fcb s)) (Z.ones k) (total P) (S fuel) (with_tree e s) = Some (b, with_tree e' s) /\ et_holds e' m /\
    (if (b : bool) then whole_nodes (2 ^ k) rest \/ tree_failed else ~ whole_nodes (2 ^ k) rest).
Proof.
  induction fuel as [|fuel IH]; intros P rest e Hr Hk Ee Hpl HP Hlen He; set (fid := c_fileid (x_fcb s)) in *;
    pose proof (fr_counts _ _ _ _ _ Hr) as Hc; pose proof (fr_total _ _ _ _ _ Hr) as Ht; rewrite Ee in Hc, Ht;
    rewrite total_app in Ht; apply counts_ok_app in Hc as [HcP Hcr]; pose proof (total_nonneg _ HcP); pose proof (total_nonneg _ Hcr);
    destruct (FindExtentRecord_exact (with_tree e s) m kDataForkType fid (total P) He) as (err & data & hint & e' & Es & He' & Ho);
    change (with_tree e' (with_tree e s)) with (with_tree e' s) in Es.
  1: assert (rest = []) as -> by (apply nil_length_inv; lia).
  all: cbn [nodes_loop]; unfold mbind at 1, X_bind at 1; rewrite Es; inversion Ho as [r Hr' E0 Er|r Hr' E0 Er|err' r Hf E0 Er]; subst err data; clear Ho Es.
  (* a failure ends the search *)
  3, 6: destruct (et_failure_other err' Hf) as (N1 & _); change 0 with noErr; destruct (Z.eqb_spec err' noErr); [done|]; cbn [negb];
    exists true, e'; split; [done|]; split; [done|]; right; by exists err'.
  - exfalso. rewrite (no_record_past kDataForkType fid m _ exts (total P) Hr) in Hr'; [done|]. rewrite Ee, total_app. cbn. lia.
  - exists true, e'. split; [done|]. split; [done|]. left. by apply Forall_nil.
  - change (negb (noErr =? 0)) with false. cbn match. destruct (decide (rest = [])) as [->|Hne].
    { exfalso. rewrite (no_record_past kDataForkType fid m _ exts (total P) Hr) in Hr'; [done|]. rewrite Ee, total_app. cbn. lia. }
    destruct (chunk_next exts P rest Ee Hpl Hne) as (c & Q & Hch & ->). rewrite (overflow_lookup kDataForkType fid m _ exts P c Q Hr Hch HP) in Hr'. injection Hr' as <-.
    apply counts_ok_app in Hcr as [Hcc HcQ]. pose proof (total_nonneg _ Hcc). pose proof (total_nonneg _ HcQ). rewrite total_app in Ht.
    unfold pad. destruct (ExtentsAreIntegral_ok k c 0 (8 - length c) Hk Hcc) as [[Hw ->]|[Hw (ch & ->)]]; [lia|lia| |].
    2:{ exists false, e'. split; [done|]. split; [done|]. intros Hall. by apply Forall_app in Hall as [Hall _]. }
    cbn [negb]. rewrite Z.add_0_l. destruct (Nat.eqb_spec (8 - length c) 0) as [E8|E8]; cbn [negb].
    + rewrite u32_id by lia. rewrite <-total_app. rewrite length_app in Hlen. destruct (IH (P ++ c) Q e' Hr Hk) as (b & e2 & E2 & He2 & Hb).
      * by rewrite <-app_assoc.
      * destruct Hpl as [j Hj]. exists (S j). rewrite length_app. pose proof (co_size _ _ _ _ Hch). lia.
      * intros E0. by apply app_eq_nil in E0 as [-> _].
      * pose proof (co_size _ _ _ _ Hch). lia.
      * done.
      * exists b, e2. split; [exact E2|]. split; [done|]. destruct b.
        -- destruct Hb as [Hb|]; [left; by apply Forall_app|by right].
        -- intros Hall. by apply Forall_app in Hall as [_ Hall].
    + assert (Q = []) as -> by (destruct (decide (Q = [])) as [|HQ]; [done|]; pose proof (co_full _ _ _ _ Hch HQ); lia).
      exists true, e'. split; [done|]. split; [done|]. left. by rewrite app_nil_r.
  - change (negb (btNotFound =? 0)) with true. cbn match. exists true, e'. split; [done|]. split; [done|]. left.
    destruct (decide (rest = [])) as [->|Hne]; [by apply Forall_nil|]. exfalso. destruct (chunk_next exts P rest Ee Hpl Hne) as (c & Q & Hch & ->).
    rewrite (overflow_lookup kDataForkType fid m _ exts P c Q Hr Hch HP) in Hr'. done.
Qed.

(** NodesAreContiguous, for the data fork of a B-tree file and nodes of 2^k blocks,
    ends and answers without changing anything.  When it says no, some extent is not a
    whole number of nodes; when it says yes, all extents are, or those of the control
    block are and hold the whole file by its size, or the tree has an error: then, by
    [whole_nodes_run], every node is in one run of the disk. *)
Theorem NodesAreContiguous_correct s m exts k :
  let bs := blockSize (vo_geom (x_vol s)) in
  vol_ok (x_vol s) -> hfs_logical_bytes (vo_geom (x_vol s)) < 2 ^ 63 -> file_rep s m exts -> FORK_IS_RSRC (x_fcb s) = false -> 0 <= k <= 32 ->
  exists b e, NodesAreContiguous (2 ^ k * bs) s = Some (b, with_tree e s) /\ et_holds e m /\
    if (b : bool) then
      whole_nodes (2 ^ k) exts \/
      (whole_nodes (2 ^ k) (take 8 exts) /\ ff_size (x_fcb s) <= total (take 8 exts) * bs) \/ tree_failed
    else ~ whole_nodes (2 ^ k) exts.
Proof.
  intros bs Hv Hdev Hf Hd Hk. pose proof Hf as [Hh Hr _]. destruct (vk_geom _ Hv) as [G1 G2 G3 G4]. fold bs in G1, G3.
  assert (with_tree (x_tree s) s = s) as Eid by by destruct s. assert (fork_type (x_fcb s) = kDataForkType) as Eft by (unfold fork_type; by rewrite Hd).
  pose proof (file_total s m exts Hv Hf) as Htot. pose proof (li_max _ (vk_limits _ Hv)) as Hmax.
  unfold NodesAreContiguous. unfold mbind at 1, X_bind at 1, get_volume. unfold mbind at 1, X_bind at 1, get_fcb. fold bs. cbv zeta.
  assert (0 < 2 ^ k) as Hpk by (apply Z.pow_pos_nonneg; lia). assert (2 ^ k <= 2 ^ 32) as Hk32 by (apply Z.pow_le_mono_r; lia).
  destruct (Z.leb_spec (2 ^ k * bs) bs) as [Hle|Hgt].
  { exists true, (x_tree s). rewrite Eid. split; [done|]. split; [done|]. left. assert (2 ^ k = 1) as -> by nia. apply Forall_forall. intros e _. apply Z.divide_1_l. }
  rewrite Z.div_mul by lia. rewrite (u32_id (2 ^ k - 1)) by (unfold UINT32_MAX; lia).
  replace (2 ^ k - 1) with (Z.ones k) by (rewrite Z.ones_equiv; lia). rewrite (fr_resident _ _ _ _ _ Hr).
  pose proof (chunk_first exts) as Hfirst. pose proof (co_split _ _ _ _ Hfirst) as Ee. set (first := take 8 exts) in *. set (rest := drop 8 exts) in *. cbn in Ee.
  pose proof (fr_counts _ _ _ _ _ Hr) as Hc. rewrite Ee in Hc, Htot. rewrite total_app in Htot. apply counts_ok_app in Hc as [Hcf Hcr].
  pose proof (total_nonneg _ Hcf). pose proof (total_nonneg _ Hcr).
  assert (forall n, whole_nodes n exts <-> whole_nodes n first /\ whole_nodes n rest) as Hall by (intros n; rewrite Ee at 1; apply Forall_app).
  unfold pad. destruct (ExtentsAreIntegral_ok k first 0 (8 - length first) ltac:(lia) Hcf) as [[Hw ->]|[Hw (ch & ->)]]; [lia|lia| |].
  2:{ exists false, (x_tree s). rewrite Eid. split; [done|]. split; [done|]. by intros [? _]%Hall. }
  cbn [negb]. rewrite Z.add_0_l. rewrite s64_id by (unfold INT64_MAX; nia).
  destruct (Nat.eqb_spec (8 - length first) 0) as [E8|E8]; cbn [negb orb].
  2:{ exists true, (x_tree s). rewrite Eid. split; [done|]. split; [done|]. left. apply Hall. split; [done|].
      destruct (decide (rest = [])) as [->|HQ]; [by apply Forall_nil|]. pose proof (co_full _ _ _ _ Hfirst HQ). lia. }
  destruct (Z.leb_spec (ff_size (x_fcb s)) (total first * bs)) as [Hsize|Hsize].
  { exists true, (x_tree s). rewrite Eid. split; [done|]. split; [done|]. right. by left. }
  unfold nodes_overflow, records_fuel. pose proof (et_size (x_tree s) m Hh) as Hsz.
  assert (first <> []) as HP by (intros E0; rewrite E0 in E8; cbn in E8; lia).
  assert (exists j, length first = (8 * j)%nat) as Hpl by (exists 1%nat; pose proof (co_size _ _ _ _ Hfirst); lia).
  rewrite Eft in Hr. destruct (nodes_loop_ok s m exts k (Z.to_nat (et_records (x_tree s))) first rest (x_tree s) Hr ltac:(lia) Ee Hpl HP) as (b & e & En & He & Hb).
  { destruct (decide (rest = [])) as [->|Hne]; [cbn; lia|]. destruct (chunk_next exts first rest Ee Hpl Hne) as (c & Q & Hch & Er).
    enough (length rest <= 8 * size m)%nat by lia. rewrite Er.
    apply (records_enough kDataForkType (c_fileid (x_fcb s)) exts Q first c m); [by apply (fr_counts _ _ _ _ _ Hr)|done|done|].
    intros P' c' Q' Hch' Hl'. assert (P' <> []) as HP' by (intros ->; cbn in Hl'; apply HP, nil_length_inv; lia).
    by rewrite (overflow_lookup _ _ _ _ _ _ _ _ Hr Hch' HP'). }
  { done. }
  rewrite Eid in En. exists b, e. split; [exact En|]. split; [done|]. destruct b.
  - destruct Hb as [Hb|Hb]; [left; by apply Hall|right; by right].
  - by intros [_ ?]%Hall.
Qed.
End Search.
