(* ===== verification/FileStepProps.v ===== *)
(** * The steps file operations are made of (core/FileExtentMapping.c)

    Freeing the blocks of a record, deleting, writing and making a record of the extents
    file: what each does to the volume, the tree and the file, and how it can fail. *)

From S2P Require Import Prelude HfsFormat ExtentKeys RangeList FreeExtCache Bitmap BitmapBits JournalTrim Volume VolumeOps BlockSearch BlockAlloc VolumeProps BlockSearchProps AllocInv AllocProps FreeProps AllocSafety ExtentsFile FileExtents ForkRep FileSearchProps.

(** ** Volumes *)

(** Blocks are freed run by run, and in between the tree may grow. *)
Inductive frees : vol -> list HFSPlusExtentDescriptor -> vol -> Prop :=
| FreesNil v : frees v [] v
| FreesRun v v1 v2 e l : freed v 0 (startBlock e) (blockCount e) v1 -> frees v1 l v2 -> frees v (e :: l) v2
| FreesTree v v1 v2 l : grown v v1 -> frees v1 l v2 -> frees v l v2.

Lemma frees_app v v1 v2 l1 l2 : frees v l1 v1 -> frees v1 l2 v2 -> frees v (l1 ++ l2) v2.
Proof. induction 1; intros Hl; [done|eapply FreesRun; eauto|eapply FreesTree; eauto]. Qed.

Lemma frees_one v v1 e : freed v 0 (startBlock e) (blockCount e) v1 -> frees v [e] v1.
Proof. intros Hf. by apply (FreesRun v v1), FreesNil. Qed.

Lemma frees_grown v v1 : grown v v1 -> frees v [] v1.
Proof. intros Hg. by apply (FreesTree v v1), FreesNil. Qed.

Lemma frees_inv v l v' : frees v l v' -> alloc_inv v -> alloc_inv v'.
Proof. induction 1 as [|v v1 v2 e l Hf _ IH|v v1 v2 l Hg _ IH]; intros Hi; [done|apply IH, Hf|apply IH, Hg]. Qed.

Lemma frees_shape v l v' : frees v l v' -> same_shape v v'.
Proof. induction 1 as [|v v1 v2 e l Hf _ IH|v v1 v2 l Hg _ IH]; [done|transitivity v1; [apply Hf|done]|transitivity v1; [apply Hg|done]]. Qed.

(** Blocks that are not among those freed stay in use. *)
Lemma frees_kept v l v' b : frees v l v' -> 0 <= b -> b ∉ file_blocks l -> bit_set v b -> bit_set v' b.
Proof.
  intros Hf Hb. induction Hf as [|v v1 v2 e l Hf _ IH|v v1 v2 l Hg _ IH]; intros Hout Hset; [done| |].
  - change (file_blocks (e :: l)) with (run_blocks e ++ file_blocks l) in Hout. apply not_elem_of_app in Hout as [H1 H2].
    apply IH; [done|]. unfold bit_set in *. rewrite (fd_bits _ _ _ _ _ Hf) by done. rewrite Hset. rewrite elem_of_run in H1.
    by rewrite (proj2 (in_run_not _ _ b) H1).
  - apply IH; [done|]. by apply (gr_kept _ _ Hg).
Qed.

Lemma frees_on_disk v l v' bl :
  frees v l v' -> on_disk v (file_blocks l ++ bl) -> on_disk v' bl.
Proof.
  intros Hf Hd. pose proof Hd as [Hn Hi Hs Ha]. apply NoDup_app in Hn as (_ & Hn & Hbl).
  assert (on_disk v bl) as Hd' by (apply (on_disk_sub v _ bl Hd), sublist_inserts_l; done).
  apply (on_disk_step v v' bl bl Hd' (frees_shape _ _ _ Hf) Hbl). intros b Hb. split; [done|].
  apply (frees_kept v l); [done| | |by apply (od_set v bl)].
  - pose proof (od_inside _ _ Hd' b Hb). lia.
  - intros Hin. by apply (Hn b).
Qed.

(** An operation that should free the blocks of [l] stopped with an error. *)
Record stopped {E} `{!ExtentsTree E} `{!ExtentsTreeLaws E} (err : Z) (v : vol) (l : list HFSPlusExtentDescriptor) (v' : vol) : Prop := {
  st_err : err <> noErr;
  st_why : err ∈ bm_io (vo_bitmap v) \/ et_failure err \/ et_full err;
  st_ok : vol_ok v';
  st_shape : same_shape v v';
  st_kept : forall b, 0 <= b -> b ∉ file_blocks l -> bit_set v b -> bit_set v' b;
}.

Section Steps.
Context {E : Type} `{!ExtentsTree E} `{!ExtentsTreeLaws E}.
Implicit Types (s : xstate E) (m : extent_map).

Lemma stopped_frees err v v1 v2 l1 l2 l : frees v l1 v1 -> stopped err v1 l2 v2 -> l1 ++ l2 ⊆ l -> stopped err v l v2.
Proof.
  intros Hf [H1 H2 H3 H4 H5] Hsub. pose proof (frees_shape _ _ _ Hf) as Hs. split; [done| |done|by transitivity v1|].
  - destruct H2 as [H2|?]; [left; by apply (ss_io _ _ Hs)|by right].
  - assert (forall b e, e ∈ l1 ++ l2 -> b ∈ run_blocks e -> b ∈ file_blocks l) as Hin.
    { intros b e He Hb. apply list_elem_of_bind. exists e. auto. }
    intros b Hb Hout Hset. apply H5; [done| |].
    + intros (e & He & Hl)%list_elem_of_bind. apply Hout, (Hin b e); [apply elem_of_app; by right|done].
    + apply (frees_kept v l1); [done|done| |done]. intros (e & He & Hl)%list_elem_of_bind. apply Hout, (Hin b e); [apply elem_of_app; by left|done].
Qed.

Lemma stopped_sub err v v' l l' : stopped err v l v' -> l ⊆ l' -> stopped err v l' v'.
Proof. intros Hs Hsub. by apply (stopped_frees err v v v' [] l l' (FreesNil v)). Qed.

Lemma not_freed_stopped err v e v' l :
  err <> noErr -> err ∈ bm_io (vo_bitmap v) -> not_freed v (startBlock e) (blockCount e) v' -> e ∈ l -> stopped err v l v'.
Proof.
  intros Hne Hin [H1 H2 _ H4 H5] He. split; [done|by left|apply H5|done|]. intros b Hb Hout Hset. unfold bit_set in *. rewrite H2; [done|done|].
  intros Hr. apply Hout, list_elem_of_bind. exists e. split; [by apply elem_of_run|done].
Qed.

Lemma not_given_stopped err v v' l : et_failure err -> not_given v v' -> stopped err v l v'.
Proof.
  intros Hf [H1 H2 H3]. split; [by apply (et_failure_other err Hf)|by right; left|done|done|]. intros b Hb _. by apply H2.
Qed.

Lemma grown_stopped err v v' l : et_full err -> grown v v' -> stopped err v l v'.
Proof.
  intros Hf [H1 H2 H3]. split; [by apply (et_full_other err Hf)|by right; right|apply H1|done|]. intros b Hb _. by apply H2.
Qed.

(** ** Releasing *)

Definition with_vol (v : vol) s : xstate E := mkX v (x_tree s) (x_fcb s) (x_dirty s).

(** The steps of a bind. *)
Lemma X_bind_eq {A B} (m : X E A) (f : A -> X E B) s x s' : m s = Some (x, s') -> (x ← m; f x) s = f x s'.
Proof. intros E0. unfold mbind, X_bind. by rewrite E0. Qed.

Lemma on_vol_eq {A} (m : V A) s x v : m (x_vol s) = Some (x, v) -> on_vol m s = Some (x, with_vol v s).
Proof. intros E0. unfold on_vol, mbind, option_bind. by rewrite E0. Qed.

(** A run of the file is freed, or the block I/O has an error. *)
Lemma deallocate_step s e bl :
  alloc_inv (x_vol s) -> on_disk (x_vol s) (run_blocks e ++ bl) -> 0 < blockCount e ->
  exists err v', on_vol (BlockDeallocate (startBlock e) (blockCount e) 0) s = Some (err, with_vol v' s) /\
    (err = noErr /\ freed (x_vol s) 0 (startBlock e) (blockCount e) v' /\ on_disk v' bl \/
     err <> noErr /\ err ∈ bm_io (vo_bitmap (x_vol s)) /\ not_freed (x_vol s) (startBlock e) (blockCount e) v').
Proof.
  intros Hi Hd He. destruct (deallocate_run (x_vol s) _ e Hi Hd He) as (err & v' & E0 & Ho); [intros b; rewrite elem_of_app; by left|].
  exists err, v'. split; [by apply on_vol_eq|]. destruct Ho as [[-> Hf]|Ho]; [left|by right]. split; [done|]. split; [done|].
  apply (frees_on_disk (x_vol s) [e]); [by apply frees_one|]. by rewrite file_blocks_one.
Qed.

Lemma release_extents_ok c : forall s n k bl,
  alloc_inv (x_vol s) -> counts_ok c -> on_disk (x_vol s) (file_blocks c ++ bl) -> 0 <= n -> n + total c <= UINT32_MAX ->
  exists err n' last v', release_extents (c ++ replicate k no_extent) n s = Some ((err, n', last), with_vol v' s) /\
    (err = noErr /\ n' = n + total c /\ last = negb (k =? 0)%nat /\ frees (x_vol s) c v' \/ stopped err (x_vol s) c v').
Proof.
  induction c as [|e c IH]; intros s n k bl Hi Hc Hd Hn Hle.
  - exists noErr, n, (negb (k =? 0)%nat), (x_vol s). assert (with_vol (x_vol s) s = s) as -> by by destruct s. split; [by destruct k|].
    left. split; [done|]. split; [cbn; lia|]. split; [done|]. apply FreesNil.
  - apply Forall_cons in Hc as [He Hc]. cbn [total] in Hle. pose proof (total_nonneg c Hc). cbn [app release_extents].
    destruct (Z.eqb_spec (blockCount e) 0); [lia|].
    destruct (deallocate_step s e (file_blocks c ++ bl) Hi) as (err & v1 & E1 & Ho); [by rewrite app_assoc|done|].
    rewrite (X_bind_eq _ _ _ _ _ E1). destruct Ho as [(-> & Hf & Hd1)|(Hne & Hin & Hnf)].
    2:{ destruct (Z.eqb_spec err noErr); [done|]. cbn [negb]. eexists err, _, _, v1. split; [reflexivity|]. right.
        apply (not_freed_stopped err (x_vol s) e); [done..|left]. }
    change (negb (noErr =? noErr)) with false. cbn match. rewrite u32_id by lia.
    destruct (IH (with_vol v1 s) (n + blockCount e) k bl) as (err & n' & last & v2 & E2 & Ho); [apply Hf|done|done|lia|lia|].
    exists err, n', last, v2. split; [exact E2|]. destruct Ho as [(-> & -> & -> & Hfr)|Hst].
    + left. split; [done|]. split; [cbn [total]; lia|]. split; [done|]. by apply (FreesRun _ v1).
    + right. apply (stopped_frees err (x_vol s) v1 v2 [e] c); [by apply frees_one|done|]. done.
Qed.

Lemma ReleaseExtents_ok c s bl :
  alloc_inv (x_vol s) -> counts_ok c -> on_disk (x_vol s) (file_blocks c ++ bl) -> total c <= UINT32_MAX ->
  exists err n' last v', ReleaseExtents (pad c) s = Some ((err, n', last), with_vol v' s) /\
    (err = noErr /\ n' = total c /\ last = negb (8 - length c =? 0)%nat /\ frees (x_vol s) c v' \/ stopped err (x_vol s) c v').
Proof. intros Hi Hc Hd Hle. apply (release_extents_ok c s 0 (8 - length c) bl); done. Qed.

(** ** Changes of the tree *)

(** How a change that should make the records [m'] and the file control block [f'] ends. *)
Inductive tree_changed m m' s (f' : fcb) : Z -> xstate E -> Prop :=
| TreeDone e v : et_holds e m' -> grown (x_vol s) v -> tree_changed m m' s f' noErr (mkX v e f' (x_dirty s))
| TreeFull err e v : et_full err -> et_holds e m -> grown (x_vol s) v -> tree_changed m m' s f' err (mkX v e (x_fcb s) (x_dirty s))
| TreeFailed err e v : et_failure err -> not_given (x_vol s) v -> tree_changed m m' s f' err (mkX v e (x_fcb s) (x_dirty s)).

Lemma BTFlushPath_eq s : exists err e, BTFlushPath s = Some (err, with_tree e s) /\ forall m, et_holds (x_tree s) m -> et_holds e m.
Proof.
  destruct (et_flush_ok (x_tree s)) as (err & e & E0 & Hm). exists err, e. split; [|done]. unfold BTFlushPath, on_tree, mbind, option_bind. by rewrite E0.
Qed.

(** A change, and the flush after it. *)
Lemma change_flush_eq m m' s err e v :
  change_outcome et_holds et_failure et_full m m' (x_vol s) err e v ->
  exists err2 e2, BTFlushPath (mkX v e (x_fcb s) (x_dirty s)) = Some (err2, mkX v e2 (x_fcb s) (x_dirty s)) /\
    tree_changed m m' s (x_fcb s) err (mkX v e2 (x_fcb s) (x_dirty s)).
Proof.
  intros Ho. destruct (BTFlushPath_eq (mkX v e (x_fcb s) (x_dirty s))) as (err2 & e2 & E2 & Hm). exists err2, e2. split; [exact E2|]. cbn [x_tree] in Hm.
  destruct Ho as [e v Hh Hg|err e v Hf Hh Hg|err e v Hf Hng]; [apply TreeDone|apply TreeFull|apply TreeFailed]; auto.
Qed.

Lemma DeleteExtentRecord_ok s m ft fid sb r :
  et_holds (x_tree s) m -> alloc_inv (x_vol s) -> m !! (fid, ft, sb) = Some r ->
  exists err s', DeleteExtentRecord ft fid sb s = Some (err, s') /\ tree_changed m (delete (fid, ft, sb) m) s (x_fcb s) err s'.
Proof.
  intros Hh Hi Hr. destruct (et_delete_ok (x_tree s) m (tree_key ft fid sb) r (x_vol s) Hh eq_refl Hr Hi) as (err & e & v & E1 & Ho).
  destruct (change_flush_eq m _ s err e v Ho) as (err2 & e2 & E2 & Hc). exists err, (mkX v e2 (x_fcb s) (x_dirty s)). split; [|done].
  unfold DeleteExtentRecord. erewrite X_bind_eq by (unfold change_tree, mbind, option_bind; rewrite E1; reflexivity). by rewrite (X_bind_eq _ _ _ _ _ E2).
Qed.

Lemma CreateExtentRecord_ok s m ft fid sb r :
  et_holds (x_tree s) m -> alloc_inv (x_vol s) -> m !! (fid, ft, sb) = None ->
  exists err hint s', CreateExtentRecord (tree_key ft fid sb) r s = Some ((err, hint), s') /\ tree_changed m (<[(fid, ft, sb) := r]> m) s (x_fcb s) err s'.
Proof.
  intros Hh Hi Hr. destruct (et_insert_ok (x_tree s) m (tree_key ft fid sb) r (x_vol s) Hh eq_refl Hr Hi) as (err & hint & e & v & E1 & Ho).
  destruct (change_flush_eq m _ s err e v Ho) as (err2 & e2 & E2 & Hc). eexists err, _, (mkX v e2 (x_fcb s) (x_dirty s)). split; [|done].
  unfold CreateExtentRecord. erewrite X_bind_eq by (unfold change_tree, mbind, option_bind; rewrite E1; reflexivity). cbv beta iota zeta. by rewrite (X_bind_eq _ _ _ _ _ E2).
Qed.

(** The control block after its record was written. *)
Definition updated_fcb (deleted : bool) (P : list HFSPlusExtentDescriptor) (r : HFSPlusExtentRecord) (f : fcb) : fcb :=
  match P with
  | [] => let f := set_fcbExtents r f in if deleted then f else set_c_flag (SET (c_flag f) C_MODIFIED) f
  | _ => f
  end.

Lemma UpdateExtentRecord_ok s m ft fid P deleted r r0 hint :
  et_holds (x_tree s) m -> alloc_inv (x_vol s) -> (P <> [] -> m !! (fid, ft, total P) = Some r0) ->
  exists err s', UpdateExtentRecord deleted (chunk_key ft fid P) r hint s = Some (err, s') /\
    tree_changed m (put_chunk ft fid P r m) s (updated_fcb deleted P r (x_fcb s)) err s'.
Proof.
  intros Hh Hi Hr. destruct (decide (P = [])) as [->|HP].
  { exists noErr, (mkX (x_vol s) (x_tree s) (updated_fcb deleted [] r (x_fcb s)) (x_dirty s)). split; [by destruct deleted|].
    apply TreeDone; [done|by apply grown_refl]. }
  specialize (Hr HP). rewrite chunk_key_cons, put_chunk_cons by done.
  assert (updated_fcb deleted P r (x_fcb s) = x_fcb s) as -> by by destruct P.
  unfold UpdateExtentRecord. cbn [xk_keyLength tree_key]. change (kHFSPlusExtentKeyMaximumLength =? 0) with false. cbn match.
  destruct (et_search_ok (x_tree s) m (tree_key ft fid (total P)) hint Hh eq_refl) as (err & r1 & hint' & e & E1 & He & Ho).
  erewrite X_bind_eq by (unfold on_tree, mbind, option_bind; rewrite E1; reflexivity).
  change (key_id (tree_key ft fid (total P))) with (fid, ft, total P) in Ho.
  inversion Ho as [r2 Hr2 E2 E3|r2 Hr2 E2 E3|err2 r2 Hf E2 E3]; subst; [|congruence|].
  - destruct (et_replace_ok e m (tree_key ft fid (total P)) hint' r1 r (x_vol s) He eq_refl Hr2 Hi) as (err & e2 & v & E2 & Ho2).
    destruct (change_flush_eq m _ s err e2 v Ho2) as (err3 & e3 & E3 & Hc). exists err, (mkX v e3 (x_fcb s) (x_dirty s)). split; [|done].
    change (noErr =? noErr) with true. cbn match. erewrite X_bind_eq by (unfold change_tree, mbind, option_bind; cbn [x_tree x_vol]; rewrite E2; reflexivity).
    by rewrite (X_bind_eq _ _ _ _ _ E3).
  - destruct (et_failure_other err Hf) as (N1 & _). destruct (Z.eqb_spec err noErr); [done|].
    destruct (BTFlushPath_eq (with_tree e s)) as (err3 & e3 & E3 & _). exists err, (with_tree e3 s). split.
    + erewrite X_bind_eq by reflexivity. by rewrite (X_bind_eq _ _ _ _ _ E3).
    + apply TreeFailed; [done|]. split; [apply Hi|done|done].
Qed.

Lemma FlushExtentFile_eq s :
  exists err e d, FlushExtentFile s = Some (err, mkX (x_vol s) e (x_fcb s) d) /\ forall m, et_holds (x_tree s) m -> et_holds e m.
Proof.
  destruct (BTFlushPath_eq s) as (err & e & E1 & Hm). unfold FlushExtentFile. rewrite (X_bind_eq _ _ _ _ _ E1).
  destruct (err =? noErr); [|by eexists _, _, (x_dirty s)]. erewrite X_bind_eq by reflexivity. cbn [x_tree with_tree].
  destruct (et_modified e); [by eexists _, _, true|by eexists _, _, (x_dirty s)].
Qed.
End Steps.
