(* ===== verification/FileTruncateProps.v ===== *)
(** * Taking blocks from a file (core/FileExtentMapping.c)

    TruncateFileC leaves a file the blocks before the new end, in the same places, frees
    the others and deletes the records they were in. *)

From S2P Require Import Prelude HfsFormat ExtentKeys RangeList FreeExtCache Bitmap BitmapBits JournalTrim Volume VolumeOps BlockSearch BlockAlloc VolumeProps BlockSearchProps AllocInv AllocProps FreeProps AllocSafety ExtentsFile FileExtents ForkRep FileSearchProps FileStepProps.

Section Truncate.
Context {E : Type} `{!ExtentsTree E} `{!ExtentsTreeLaws E}.
Implicit Types (s : xstate E) (m : extent_map).

(** ** TruncateExtents *)

(** The records from key [n] on are gone, the others are as they were. *)
Record records_cut (ft fid n : Z) m m' : Prop := {
  rc_others : same_others ft fid m m';
  rc_low : forall x : Z, x < n -> m' !! (fid, ft, x) = m !! (fid, ft, x);
  rc_high : forall x : Z, n <= x -> m' !! (fid, ft, x) = None;
}.

Lemma truncate_extents_loop_ok ft fid exts fuel : forall P rest (deleted : bool) s m,
  counts_ok exts -> total exts <= UINT32_MAX -> exts = P ++ rest -> (rest <> [] -> exists k, length P = (8 * k)%nat) -> P <> [] ->
  et_holds (x_tree s) m -> alloc_inv (x_vol s) -> on_disk (x_vol s) (file_blocks rest) ->
  (forall (x : Z) r, total P <= x -> m !! (fid, ft, x) = Some r <-> overflow exts x r) -> (size m < fuel)%nat ->
  exists err del s', truncate_extents_loop ft fid (total P) deleted fuel s = Some ((err, del), s') /\ x_fcb s' = x_fcb s /\
    (err = noErr /\ frees (x_vol s) rest (x_vol s') /\ (exists m', et_holds (x_tree s') m' /\ records_cut ft fid (total P) m m') \/
     stopped err (x_vol s) rest (x_vol s')).
Proof.
  induction fuel as [|fuel IH]; intros P rest deleted s m Hc Ht Ee Hpl HP Hh Hi Hd Hrec Hfuel; [lia|].
  pose proof Hc as HcP. rewrite Ee in HcP. apply counts_ok_app in HcP as [HcP Hcr].
  pose proof Ht as Htot. rewrite Ee, total_app in Htot. pose proof (total_nonneg _ HcP). pose proof (total_nonneg _ Hcr).
  assert (forall x, x < total P -> total P <= x -> False) as Hno by lia.
  destruct (FindExtentRecord_exact s m ft fid (total P) Hh) as (err & data & hint & e & E1 & He & Ho).
  cbn [truncate_extents_loop]. rewrite (X_bind_eq _ _ _ _ _ E1).
  inversion Ho as [r Hr E2 E3|r Hr E2 E3|err' r Hf E2 E3]; subst err data; clear Ho E1.
  - change (negb (noErr =? noErr)) with false. cbn match. assert (overflow exts (total P) r) as Hov by (by apply Hrec).
    assert (rest <> []) as Hne.
    { intros ->. rewrite app_nil_r in Ee. subst P. pose proof (overflow_low exts _ r Hc Hov). lia. }
    destruct (chunk_next exts P rest Ee (Hpl Hne) Hne) as (c & Q & Hch & Er). pose proof (overflow_at exts P c Q r Hc Hch Hov) as ->.
    rewrite Er in Hcr, Htot, Hd. rewrite total_app in Htot. apply counts_ok_app in Hcr as [Hcc HcQ]. pose proof (total_nonneg _ Hcc). pose proof (total_nonneg _ HcQ). rewrite file_blocks_app in Hd.
    destruct (ReleaseExtents_ok c (with_tree e s) (file_blocks Q) Hi Hcc Hd ltac:(lia)) as (err & n' & last & v1 & E2 & Ho).
    rewrite (X_bind_eq _ _ _ _ _ E2). destruct Ho as [(-> & -> & _ & Hfr)|Hst].
    2:{ destruct (Z.eqb_spec err noErr); [by destruct Hst|]. cbn [negb]. eexists err, _, _. split; [reflexivity|]. split; [done|]. right.
        rewrite Er. apply (stopped_sub err _ _ c); [done|]. intros x Hx. apply elem_of_app. by left. }
    change (negb (noErr =? noErr)) with false. cbn match.
    pose proof (frees_inv _ _ _ Hfr Hi) as Hi1. pose proof (frees_on_disk _ _ _ _ Hfr Hd) as Hd1.
    destruct (DeleteExtentRecord_ok (with_vol v1 (with_tree e s)) m ft fid (total P) (pad c) He Hi1 Hr) as (err & s2 & E3 & Hch2).
    rewrite (X_bind_eq _ _ _ _ _ E3). inversion Hch2 as [e2 v2 Hh2 Hg E4 E5|err2 e2 v2 Hf2 Hh2 Hg E4 E5|err2 e2 v2 Hf2 Hng E4 E5]; subst err s2; clear Hch2 E3.
    + change (negb (noErr =? noErr)) with false. cbn match. rewrite u32_id by lia. rewrite <-total_app. cbn [x_vol with_vol with_tree x_fcb x_dirty] in *.
      destruct (IH (P ++ c) Q true (mkX v2 e2 (x_fcb s) (x_dirty s)) (delete (fid, ft, total P) m)) as (err & del & s' & E4 & Ef & Ho).
      * done.
      * done.
      * by rewrite Ee, Er, app_assoc.
      * intros HQ. destruct (Hpl Hne) as [k Hk]. exists (S k). rewrite length_app, (co_full _ _ _ _ Hch HQ). lia.
      * by intros [-> _]%app_eq_nil.
      * done.
      * apply Hg.
      * by apply (on_disk_grown v1).
      * intros x r Hx. rewrite total_app in Hx. assert (c <> []) as Hcne by (intros E0; by destruct (co_some _ _ _ _ Hch E0)).
        pose proof (total_pos _ Hcc Hcne). rewrite lookup_delete_ne by congruence || (intros [= E0]; lia). apply Hrec. lia.
      * rewrite map_size_delete_Some by (by rewrite Hr). assert (size m <> 0)%nat by (intros E0%map_size_empty_inv; by rewrite E0, lookup_empty in Hr). lia.
      * exists err, del, s'. split; [exact E4|]. split; [done|]. rewrite Er. destruct Ho as [(-> & Hfr2 & m' & Hh' & Hcut)|Hst].
        -- left. split; [done|]. split; [apply (frees_app _ v1); [done|by apply (FreesTree v1 v2)]|]. exists m'. split; [done|]. destruct Hcut as [C1 C2 C3]. split.
           ++ transitivity (delete (fid, ft, total P) m); [apply same_others_delete|done].
           ++ intros x Hx. rewrite C2 by (rewrite total_app; lia). by rewrite lookup_delete_ne by (intros [= E0]; lia).
           ++ intros x Hx. destruct (Z.lt_ge_cases x (total (P ++ c))) as [Hlt|]; [|by apply C3]. rewrite C2 by done.
              destruct (decide (x = total P)) as [->|Hxne]; [by rewrite lookup_delete_eq|]. rewrite lookup_delete_ne by congruence.
              destruct (m !! (fid, ft, x)) as [r|] eqn:Ex; [|done]. apply Hrec in Ex; [|done]. by destruct Hxne; apply (overflow_between exts P c Q x r).
        -- right. apply (stopped_frees err (x_vol s) v2 _ c Q); [|done|done]. rewrite <-(app_nil_r c). by apply (frees_app _ v1), frees_grown.
    + destruct (et_full_other err2 Hf2) as (N1 & _). destruct (Z.eqb_spec err2 noErr); [done|]. cbn [negb]. eexists err2, _, _. split; [reflexivity|]. split; [done|]. right.
      rewrite Er. apply (stopped_frees err2 (x_vol s) v1 _ c []); [done|by apply grown_stopped|]. intros x. rewrite app_nil_r, elem_of_app. by left.
    + destruct (et_failure_other err2 Hf2) as (N1 & _). destruct (Z.eqb_spec err2 noErr); [done|]. cbn [negb]. eexists err2, _, _. split; [reflexivity|]. split; [done|]. right.
      rewrite Er. apply (stopped_frees err2 (x_vol s) v1 _ c []); [done|by apply not_given_stopped|]. intros x. rewrite app_nil_r, elem_of_app. by left.
  - change (negb (btNotFound =? noErr)) with true. cbn match. exists noErr, deleted, (with_tree e s). split; [done|]. split; [done|]. left. split; [done|].
    assert (rest = []) as ->.
    { destruct (decide (rest = [])) as [|Hne]; [done|]. exfalso. destruct (chunk_next exts P rest Ee (Hpl Hne) Hne) as (c & Q & Hch & Er).
      assert (m !! (fid, ft, total P) = Some (pad c)) as Hs; [|congruence]. apply Hrec; [done|]. by exists P, c, Q. }
    split; [apply FreesNil|]. exists m. split; [done|]. split; [done|done|]. intros x Hx. destruct (m !! (fid, ft, x)) as [r2|] eqn:Ex; [|done].
    exfalso. apply Hrec in Ex; [|done]. pose proof (overflow_low exts x _ Hc Ex). rewrite app_nil_r in Ee. subst P. lia.
  - destruct (et_failure_other err' Hf) as (N1 & N2 & _). destruct (Z.eqb_spec err' noErr); [done|]. destruct (Z.eqb_spec err' btNotFound); [done|]. cbn [negb].
    eexists err', _, _. split; [reflexivity|]. split; [done|]. right. apply not_given_stopped; [done|]. split; [apply Hi|done|done].
Qed.

Lemma TruncateExtents_ok ft fid exts P rest (deleted : bool) s m :
  counts_ok exts -> total exts <= UINT32_MAX -> exts = P ++ rest -> (rest <> [] -> exists k, length P = (8 * k)%nat) -> P <> [] ->
  et_holds (x_tree s) m -> alloc_inv (x_vol s) -> on_disk (x_vol s) (file_blocks rest) ->
  (forall (x : Z) r, total P <= x -> m !! (fid, ft, x) = Some r <-> overflow exts x r) ->
  exists err del s', TruncateExtents ft fid (total P) deleted s = Some ((err, del), s') /\ x_fcb s' = x_fcb s /\
    (err = noErr /\ frees (x_vol s) rest (x_vol s') /\ (exists m', et_holds (x_tree s') m' /\ records_cut ft fid (total P) m m') \/
     stopped err (x_vol s) rest (x_vol s')).
Proof.
  intros. apply (truncate_extents_loop_ok ft fid exts (records_fuel s) P rest deleted s m); try done.
  unfold records_fuel. assert (Z.of_nat (size m) <= et_records (x_tree s)) by by apply et_size. lia.
Qed.

(** ** The last record that stays *)

(** The new end is in the last extent. *)
Definition ends_in (exts : list HFSPlusExtentDescriptor) (n : Z) : Prop := 0 <= n <= total exts /\ forall A e, exts = A ++ [e] -> total A < n.

Lemma shorten_extent_ok (tte : bool) A e B T n s bl :
  alloc_inv (x_vol s) -> on_disk (x_vol s) (run_blocks e ++ bl) -> 0 < blockCount e -> 0 <= T < n -> n <= T + blockCount e -> T + blockCount e <= UINT32_MAX ->
  exists err record (changed : bool) v',
    shorten_extent tte (pad (A ++ e :: B)) (Z.of_nat (length A)) (T + blockCount e) n s = Some ((err, record, changed), with_vol v' s) /\
    exists e' gone, run_blocks e = run_blocks e' ++ file_blocks gone /\ T < n <= T + blockCount e' /\ T + blockCount e' <= T + blockCount e /\
      (if tte then e' = e else T + blockCount e' = n) /\
      (err = noErr /\ record = pad (A ++ e' :: B) /\ (if changed then True else e' = e) /\ frees (x_vol s) gone v' \/ stopped err (x_vol s) gone v').
Proof.
  intros Hi Hd He HT Hn Hmax. pose proof (on_disk_run (x_vol s) _ e Hi Hd He) as (R1 & R2 & _); [intros b; rewrite elem_of_app; by left|].
  pose proof (li_max _ (vk_limits _ (av_ok _ Hi))) as Htot. assert (with_vol (x_vol s) s = s) as Eid by by destruct s.
  unfold shorten_extent. rewrite u32_id by lia.
  assert (extent_at (pad (A ++ e :: B)) (Z.of_nat (length A)) = Some e) as Ex.
  { unfold extent_at, pad. rewrite Nat2Z.id, <-app_assoc. by apply lookup_middle. }
  assert (tte = true \/ T + blockCount e - n = 0 -> exists err record (changed : bool) v', Some ((noErr, pad (A ++ e :: B), false), s) = Some ((err, record, changed), with_vol v' s) /\
    exists e' gone, run_blocks e = run_blocks e' ++ file_blocks gone /\ T < n <= T + blockCount e' /\ T + blockCount e' <= T + blockCount e /\
      (if tte then e' = e else T + blockCount e' = n) /\
      (err = noErr /\ record = pad (A ++ e' :: B) /\ (if changed then True else e' = e) /\ frees (x_vol s) gone v' \/ stopped err (x_vol s) gone v')) as Hnone.
  { intros Hor. exists noErr, (pad (A ++ e :: B)), false, (x_vol s). rewrite Eid. split; [done|]. exists e, []. rewrite app_nil_r.
    split; [done|]. split; [lia|]. split; [lia|]. split; [destruct tte; [done|destruct Hor; [done|lia]]|]. left. do 3 (split; [done|]). apply FreesNil. }
  destruct tte; [by apply Hnone; left|]. cbn [orb]. destruct (Z.eqb_spec (T + blockCount e - n) 0) as [Ez|Hnz]; [by apply Hnone; right|]. clear Hnone.
  erewrite X_bind_eq by (unfold x_lift; rewrite Ex; reflexivity). rewrite (u32_id (startBlock e + blockCount e)) by lia.
  set (k := T + blockCount e - n) in *. rewrite (u32_id (startBlock e + blockCount e - k)) by lia.
  set (cut := mkExtent (startBlock e + blockCount e - k) k). set (e' := mkExtent (startBlock e) (n - T)).
  assert (run_blocks e = run_blocks e' ++ file_blocks [cut]) as Erun.
  { rewrite file_blocks_one. unfold run_blocks, e', cut. cbn [startBlock blockCount].
    replace (blockCount e) with ((n - T) + k) at 1 by lia. rewrite seqZ_app by lia. do 2 f_equal. lia. }
  assert (on_disk (x_vol s) (run_blocks cut ++ run_blocks e' ++ bl)) as Hd'.
  { rewrite Erun, file_blocks_one in Hd. by rewrite (app_assoc (run_blocks cut)), (Permutation_app_comm (run_blocks cut)). }
  destruct (deallocate_step s cut _ Hi Hd') as (err & v1 & E1 & Ho); [cbn; lia|].
  cbn [startBlock blockCount cut] in E1. rewrite (X_bind_eq _ _ _ _ _ E1). destruct Ho as [(-> & Hf & _)|(Hne & Hin & Hnf)].
  - change (negb (noErr =? noErr)) with false. cbn match. rewrite u32_id by lia. replace (blockCount e - k) with (n - T) by lia.
    destruct (Z.eqb_spec (n - T) 0); [lia|]. eexists noErr, _, true, v1. split; [reflexivity|]. exists e', [cut].
    split; [done|]. cbn [blockCount e']. split; [lia|]. split; [lia|]. split; [lia|]. left. split; [done|]. split; [|split; [done|by apply frees_one]].
    rewrite Nat2Z.id. unfold pad. rewrite <-!app_assoc. cbn [app]. rewrite insert_middle. by rewrite !length_app.
  - destruct (Z.eqb_spec err noErr); [done|]. cbn [negb]. eexists err, _, _, v1. split; [reflexivity|]. exists e', [cut].
    split; [done|]. cbn [blockCount e']. split; [lia|]. split; [lia|]. split; [lia|]. right. apply (not_freed_stopped err (x_vol s) cut); [done..|left].
Qed.

Lemma release_following_ok B : forall s kept fill next (changed : bool) bl,
  alloc_inv (x_vol s) -> counts_ok B -> on_disk (x_vol s) (file_blocks B ++ bl) -> 0 <= next -> next + total B <= UINT32_MAX ->
  exists err record next' (changed' : bool) v',
    release_following kept (B ++ replicate fill no_extent) next changed s = Some ((err, record, next', changed'), with_vol v' s) /\
    (err = noErr /\ record = kept ++ replicate (length B + fill) no_extent /\ next' = next + total B /\ (if changed' then True else changed = false /\ B = []) /\
     frees (x_vol s) B v' \/ stopped err (x_vol s) B v').
Proof.
  induction B as [|e B IH]; intros s kept fill next changed bl Hi Hc Hd Hn Hle.
  - exists noErr, (kept ++ replicate fill no_extent), next, changed, (x_vol s). assert (with_vol (x_vol s) s = s) as -> by by destruct s.
    split; [destruct fill; cbn; [by rewrite app_nil_r|done]|]. left. split; [done|]. split; [done|]. split; [cbn; lia|]. split; [by destruct changed|apply FreesNil].
  - apply Forall_cons in Hc as [He Hc]. cbn [total] in Hle. pose proof (total_nonneg B Hc). cbn [app release_following].
    destruct (Z.eqb_spec (blockCount e) 0); [lia|].
    destruct (deallocate_step s e (file_blocks B ++ bl) Hi) as (err & v1 & E1 & Ho); [by rewrite app_assoc|done|].
    rewrite (X_bind_eq _ _ _ _ _ E1). destruct Ho as [(-> & Hf & Hd1)|(Hne & Hin & Hnf)].
    2:{ destruct (Z.eqb_spec err noErr); [done|]. cbn [negb]. eexists err, _, _, _, v1. split; [reflexivity|]. right.
        apply (not_freed_stopped err (x_vol s) e); [done..|left]. }
    change (negb (noErr =? noErr)) with false. cbn match. rewrite u32_id by lia.
    destruct (IH (with_vol v1 s) (kept ++ [no_extent]) fill (next + blockCount e) true bl) as (err & record & next' & ch & v2 & E2 & Ho); [apply Hf|done|done|lia|lia|].
    exists err, record, next', ch, v2. split; [exact E2|]. destruct Ho as [(-> & -> & -> & Hch & Hfr)|Hst].
    + left. split; [done|]. split; [by rewrite <-app_assoc|]. split; [cbn [total]; lia|]. split; [by destruct ch; [|destruct Hch]|]. by apply (FreesRun _ v1).
    + right. apply (stopped_frees err (x_vol s) v1 v2 [e] B); [by apply frees_one|done|]. done.
Qed.

(** The record with the new end. *)
Lemma cut_record_ok (tte : bool) s T A e B n key hint bl :
  alloc_inv (x_vol s) -> on_disk (x_vol s) (run_blocks e ++ file_blocks B ++ bl) -> 0 < blockCount e -> counts_ok B ->
  0 <= T < n -> n <= T + blockCount e -> T + blockCount e + total B <= UINT32_MAX -> (length A + S (length B) <= 8)%nat ->
  exists err record next (changed : bool) v',
    cut_record tte (mkFound noErr key (pad (A ++ e :: B)) (Z.of_nat (length A)) hint (T + blockCount e)) n s = Some ((err, record, next, changed), with_vol v' s) /\
    exists e' gone, run_blocks e = run_blocks e' ++ file_blocks gone /\ T < n <= T + blockCount e' /\ T + blockCount e' <= T + blockCount e /\
      (if tte then e' = e else T + blockCount e' = n) /\
      (err = noErr /\ record = pad (A ++ [e']) /\ next = T + blockCount e + total B /\ (if changed then True else e' = e /\ B = []) /\
       frees (x_vol s) (gone ++ B) v' \/ stopped err (x_vol s) (gone ++ B) v').
Proof.
  intros Hi Hd He HcB HT Hn Hmax Hsz. pose proof (total_nonneg B HcB).
  destruct (shorten_extent_ok tte A e B T n s _ Hi Hd He HT Hn ltac:(lia)) as (err & record & changed & v1 & E1 & e' & gone & Erun & Hn1 & Hn2 & Htte & Ho).
  unfold cut_record. cbn [fx_data fx_index fx_ending]. rewrite (X_bind_eq _ _ _ _ _ E1). destruct Ho as [(-> & -> & Hch1 & Hfr1)|Hst].
  2:{ destruct (Z.eqb_spec err noErr); [by destruct Hst|]. cbn [negb]. eexists _, _, _, _, _. split; [reflexivity|]. exists e', gone. do 4 (split; [done|]). right.
      apply (stopped_sub err _ _ gone); [done|]. intros x Hx. apply elem_of_app. by left. }
  change (negb (noErr =? noErr)) with false. cbn match. rewrite Nat2Z.id.
  assert (pad (A ++ e' :: B) = (A ++ [e']) ++ B ++ replicate (8 - length (A ++ e' :: B)) no_extent) as -> by (unfold pad; by rewrite <-!app_assoc).
  rewrite take_app_length', drop_app_length' by (rewrite length_app; cbn; lia).
  assert (on_disk v1 (file_blocks B ++ bl)) as Hd1.
  { apply (frees_on_disk (x_vol s) gone); [done|]. apply (on_disk_sub _ _ _ Hd). rewrite Erun, <-app_assoc. by apply sublist_inserts_l. }
  destruct (release_following_ok B (with_vol v1 s) (A ++ [e']) (8 - length (A ++ e' :: B)) (T + blockCount e) changed bl (frees_inv _ _ _ Hfr1 Hi) HcB Hd1 ltac:(lia) ltac:(lia))
    as (err & record & next & ch & v2 & E2 & Ho).
  exists err, record, next, ch, v2. split; [exact E2|]. exists e', gone. do 4 (split; [done|]). destruct Ho as [(-> & -> & -> & Hch2 & Hfr2)|Hst].
  - left. split; [done|]. split; [unfold pad; do 2 f_equal; rewrite !length_app; cbn; lia|]. split; [done|].
    split; [by destruct ch; [|destruct Hch2 as [-> ->]]|by apply (frees_app _ v1)].
  - right. by apply (stopped_frees err (x_vol s) v1 v2 gone B).
Qed.

(** ** truncate_to *)

(** The control blocks are of the same fork, and count the same blocks. *)
Definition same_fork (f f' : fcb) : Prop :=
  c_fileid f' = c_fileid f /\ FORK_IS_RSRC f' = FORK_IS_RSRC f /\ ff_unallocblocks f' = ff_unallocblocks f.
Definition same_blocks (f f' : fcb) : Prop := ff_blocks f' = ff_blocks f /\ c_blocks f' = c_blocks f.

Lemma same_fork_updated deleted P r f : same_fork f (updated_fcb deleted P r f) /\ same_blocks f (updated_fcb deleted P r f).
Proof. by destruct P, deleted. Qed.

Lemma same_fork_type f f' : same_fork f f' -> fork_type f' = fork_type f /\ c_fileid f' = c_fileid f.
Proof. intros (E1 & E2 & _). unfold fork_type. by rewrite E2. Qed.

(** How cutting a file with the extents [exts] to [n] blocks ends: [kept] stays, [gone] is
    freed, also when there is an error nothing else. *)
Inductive cut_outcome s m exts n (tte : bool) : Z -> xstate E -> Prop :=
| CutDone kept gone m' s' :
    file_blocks exts = file_blocks kept ++ file_blocks gone -> ends_in kept n ->
    (if tte then exists rest, exts = kept ++ rest else total kept = n) ->
    frees (x_vol s) gone (x_vol s') -> file_rep s' m' kept -> same_others (fork_type (x_fcb s)) (c_fileid (x_fcb s)) m m' -> same_fork (x_fcb s) (x_fcb s') ->
    cut_outcome s m exts n tte noErr s'
| CutStopped err kept gone s' :
    file_blocks exts = file_blocks kept ++ file_blocks gone -> n <= total kept -> stopped err (x_vol s) gone (x_vol s') -> cut_outcome s m exts n tte err s'.

(** The records after the one that was cut, if the file went on. *)
Lemma truncate_rest s m exts P c Q ft fid resident m0 (phys : Z) :
  fork_rep m0 ft fid resident exts -> chunk_of exts P c Q -> (Q <> [] -> total (P ++ c) < phys) -> (Q = [] -> phys <= total (P ++ c)) -> c <> [] ->
  (forall x : Z, total (P ++ c) <= x -> m !! (fid, ft, x) = m0 !! (fid, ft, x)) ->
  et_holds (x_tree s) m -> alloc_inv (x_vol s) -> on_disk (x_vol s) (file_blocks Q) ->
  exists err del s', (if total (P ++ c) <? phys then TruncateExtents ft fid (total (P ++ c)) false else mret (noErr, false)) s = Some ((err, del), s') /\
    x_fcb s' = x_fcb s /\
    (err = noErr /\ frees (x_vol s) Q (x_vol s') /\ (exists m', et_holds (x_tree s') m' /\ records_cut ft fid (total (P ++ c)) m m') \/
     stopped err (x_vol s) Q (x_vol s')).
Proof.
  intros Hr Hch HQ1 HQ2 Hcne Hsame Hh Hi Hd. pose proof Hr as [Hc Ht _ Hrec]. pose proof (co_split _ _ _ _ Hch) as Ee.
  destruct (decide (Q = [])) as [->|HQ].
  - specialize (HQ2 eq_refl). destruct (Z.ltb_spec (total (P ++ c)) phys); [lia|]. exists noErr, false, s. split; [done|]. split; [done|]. left.
    split; [done|]. split; [apply FreesNil|]. exists m. split; [done|]. split; [done|done|]. intros x Hx. rewrite Hsame by done.
    apply (no_record_past ft fid m0 resident exts x Hr). by rewrite Ee, app_nil_r.
  - specialize (HQ1 HQ). destruct (Z.ltb_spec (total (P ++ c)) phys); [|lia].
    apply (TruncateExtents_ok ft fid exts (P ++ c) Q false s m); try done.
    + by rewrite Ee, app_assoc.
    + intros _. destruct (co_place _ _ _ _ Hch) as [k Hk]. exists (S k). rewrite length_app, (co_full _ _ _ _ Hch HQ). lia.
    + by intros [_ ->]%app_eq_nil.
    + intros x r Hx. by rewrite Hsame.
Qed.

(** The record is written when it changed. *)
Lemma write_cut_ok s m ft fid P c c' Q (changed deleted : bool) hint :
  et_holds (x_tree s) m -> alloc_inv (x_vol s) -> fork_rep m ft fid (fcbExtents (x_fcb s)) (P ++ c ++ Q) -> chunk_of (P ++ c ++ Q) P c Q ->
  (if changed then True else c' = c) ->
  exists err s', (if changed then UpdateExtentRecord deleted (chunk_key ft fid P) (pad c') hint else mret noErr) s = Some (err, s') /\
    tree_changed m (put_chunk ft fid P (pad c') m) s (x_fcb s') err s' /\ same_blocks (x_fcb s) (x_fcb s') /\
    (err = noErr -> fcbExtents (x_fcb s') = put_resident P (pad c') (fcbExtents (x_fcb s)) /\ same_fork (x_fcb s) (x_fcb s')).
Proof.
  intros Hh Hi Hr Hch Hc'.
  assert (P <> [] -> m !! (fid, ft, total P) = Some (pad c)) as Hold by (intros HP; exact (overflow_lookup ft fid m _ _ P c Q Hr Hch HP)).
  destruct changed.
  - destruct (UpdateExtentRecord_ok s m ft fid P deleted (pad c') (pad c) hint Hh Hi Hold) as (err & s3 & E3 & Hch3). exists err, s3. split; [done|].
    pose proof (same_fork_updated deleted P (pad c') (x_fcb s)) as [Hs1 Hs2].
    destruct Hch3 as [e v Hh3 Hg3|err3 e v Hfl Hh3 Hg3|err3 e v Hfl Hng3]; (split; [by constructor|]); (split; [done|]).
    + intros _. split; [by destruct P, deleted|done].
    + intros ->. by destruct (et_full_other noErr Hfl).
    + intros ->. by destruct (et_failure_other noErr Hfl).
  - subst c'. exists noErr, s. split; [done|]. assert (put_chunk ft fid P (pad c) m = m) as ->.
    { destruct (decide (P = [])) as [->|HP]; [done|]. rewrite put_chunk_cons by done. by apply insert_id, Hold. }
    split; [|split; [done|intros _; split; [|done]]].
    + destruct s as [v e f d]. by apply (TreeDone m m (mkX v e f d) f e v), grown_refl.
    + destruct P; [|done]. cbn [put_resident]. rewrite (fr_resident _ _ _ _ _ Hr). cbn [app]. f_equal.
      destruct (decide (Q = [])) as [->|HQ]; [rewrite app_nil_r; apply take_ge, (co_size _ _ _ _ Hch)|].
      apply take_app_length'. symmetry. by apply (co_full _ _ _ _ Hch).
Qed.

Lemma truncate_to_ok s m exts n phys deleted (tte : bool) :
  let bs := blockSize (vo_geom (x_vol s)) in
  alloc_inv (x_vol s) -> file_rep s m exts -> 1 <= n <= total exts -> ends_in exts phys ->
  exists err del s', truncate_to (n * bs) n phys deleted (fork_type (x_fcb s)) (c_fileid (x_fcb s)) tte s = Some ((err, del), s') /\
    same_blocks (x_fcb s) (x_fcb s') /\ cut_outcome s m exts n tte err s'.
Proof.
  intros bs Hi Hf Hn [Hph1 Hph2]. pose proof (go_size _ (vk_geom _ (av_ok _ Hi))) as Hbs. fold bs in Hbs.
  pose proof (file_total s m exts (av_ok _ Hi) Hf) as Htot. pose proof (li_max _ (vk_limits _ (av_ok _ Hi))) as Hmax.
  destruct (SearchExtentFile_ok s m exts (n * bs - 1) Hf) as (out & e0 & E1 & Hh0 & Hl). fold bs in Hl.
  assert (u32 (Z.quot (n * bs - 1) bs) = n - 1) as Efb.
  { rewrite Z.quot_div_nonneg by nia. replace (n * bs - 1) with ((n - 1) * bs + (bs - 1)) by ring. rewrite Z.div_add_l, Z.div_small by lia. rewrite u32_id; lia. }
  rewrite Efb in Hl. unfold truncate_to. rewrite (X_bind_eq _ _ _ _ _ E1). pose proof Hf as [Hh Hr Hd]. set (ft := fork_type (x_fcb s)) in *. set (fid := c_fileid (x_fcb s)) in *.
  pose proof Hr as [Hc _ Hres Hrec]. clear E1.
  assert (forall err l s', x_vol s' = x_vol s -> et_failure err -> stopped err (x_vol s) l (x_vol s')) as Hfailed.
  { intros err l s' -> Hfl. apply not_given_stopped; [done|]. split; [apply Hi|done|done]. }
  destruct Hl as [P A e B Q hint Hch Hin|P c hint Hch Hpast|out Hfail]; [|lia|].
  2:{ destruct (et_failure_other _ Hfail) as (N1 & _). destruct (Z.eqb_spec (fx_err out) noErr); [done|]. cbn [negb]. eexists _, _, _. split; [reflexivity|]. split; [done|].
      apply (CutStopped s m exts n tte (fx_err out) exts []); [by rewrite app_nil_r|lia|by apply Hfailed]. }
  change (negb (fx_err _ =? noErr)) with false. cbn [fx_data fx_index fx_ending fx_key fx_hint]. cbn match.
  set (T := total (P ++ A)) in *. pose proof (co_split _ _ _ _ Hch) as Ee. pose proof (co_size _ _ _ _ Hch) as Hsz. rewrite length_app in Hsz. cbn [length] in Hsz.
  assert (exts = (P ++ A) ++ e :: B ++ Q) as Ee2 by (rewrite Ee, <-!app_assoc; done).
  pose proof Hc as Hcc. rewrite Ee2 in Hcc. apply counts_ok_app in Hcc as [HcPA [He [HcB HcQ]%counts_ok_app]%Forall_cons].
  pose proof (total_nonneg _ HcPA). pose proof (total_nonneg _ HcB). pose proof (total_nonneg _ HcQ).
  assert (total exts = T + blockCount e + total B + total Q) as Et by (rewrite Ee2, (total_app (P ++ A)); cbn [total]; rewrite (total_app B); unfold T; lia).
  assert (file_blocks exts = file_blocks (P ++ A) ++ run_blocks e ++ file_blocks B ++ file_blocks Q) as Efile.
  { rewrite Ee2, file_blocks_app. change (file_blocks (e :: B ++ Q)) with (run_blocks e ++ file_blocks (B ++ Q)). by rewrite (file_blocks_app B). }
  set (s0 := with_tree e0 s) in *.
  (* the record with the new end *)
  assert (on_disk (x_vol s0) (run_blocks e ++ file_blocks B ++ file_blocks Q ++ file_blocks (P ++ A))) as Hd0.
  { change (x_vol s0) with (x_vol s). revert Hd. apply on_disk_proper. rewrite Efile. solve_Permutation. }
  destruct (cut_record_ok tte s0 T A e B n (chunk_key ft fid P) hint _ Hi Hd0 He HcB ltac:(lia) ltac:(lia) ltac:(lia) ltac:(lia))
    as (err & record & next & ch & v2 & E1 & e' & gone & Erun & Hn' & Hn2 & Htte & Ho).
  rewrite (X_bind_eq _ _ _ _ _ E1). clear E1.
  assert (file_blocks exts = file_blocks ((P ++ A) ++ [e']) ++ file_blocks (gone ++ B ++ Q)) as Ecut.
  { rewrite Efile, Erun, !file_blocks_app, file_blocks_one. by rewrite <-!app_assoc. }
  assert (total ((P ++ A) ++ [e']) = T + blockCount e') as Etk by (rewrite total_app; cbn [total]; unfold T; lia).
  destruct Ho as [(-> & -> & -> & Hch2 & Hfr)|Hst].
  2:{ destruct (Z.eqb_spec err noErr); [by destruct Hst|]. cbn [negb]. eexists _, _, _. split; [reflexivity|]. split; [done|].
      apply (CutStopped s m exts n tte err _ _ _ Ecut); [lia|]. apply (stopped_sub err _ _ (gone ++ B)); [done|]. intros x. rewrite !elem_of_app. tauto. }
  change (negb (noErr =? noErr)) with false. cbn match. change (x_vol s0) with (x_vol s) in Hfr. pose proof (frees_inv _ _ _ Hfr Hi) as Hi2.
  assert (on_disk v2 (file_blocks Q ++ file_blocks ((P ++ A) ++ [e']))) as Hd2.
  { apply (frees_on_disk (x_vol s) (gone ++ B)); [done|]. revert Hd. apply on_disk_proper. rewrite Ecut, !(file_blocks_app gone), (file_blocks_app B). solve_Permutation. }
  set (c' := A ++ [e']) in *. assert (chunk_of exts P (A ++ e :: B) Q) as Hch0 by done.
  destruct (write_cut_ok (with_vol v2 s0) m ft fid P (A ++ e :: B) c' Q ch deleted hint Hh0 Hi2) as (err & s3 & E3 & Hch3 & Hcnt & Hfcb).
  { by rewrite <-Ee. } { by rewrite <-Ee. } { by destruct ch; [|destruct Hch2 as [-> ->]]. }
  cbn [fx_key fx_hint]. rewrite (X_bind_eq _ _ _ _ _ E3). clear E3.
  assert (et_failure err -> forall v, not_given v2 v -> stopped err (x_vol s) (gone ++ B ++ Q) v) as Hfail2.
  { intros Hfl v Hng. apply (stopped_frees err (x_vol s) v2 v (gone ++ B) []); [done|by apply not_given_stopped|]. intros x. rewrite !elem_of_app, elem_of_nil. tauto. }
  inversion Hch3 as [e3 v3 Hh3 Hg3 E3 E4|err3 e3 v3 Hfl Hh3 Hg3 E3 E4|err3 e3 v3 Hfl Hng3 E3 E4]; subst err.
  2:{ destruct (et_full_other _ Hfl) as (N1 & _). destruct (Z.eqb_spec err3 noErr); [done|]. cbn [negb]. eexists _, _, _. split; [reflexivity|]. split; [done|].
      apply (CutStopped s m exts n tte err3 _ _ _ Ecut); [lia|]. cbn [x_vol].
      apply (stopped_frees err3 (x_vol s) v2 v3 (gone ++ B) []); [done|by apply grown_stopped|]. intros x. rewrite !elem_of_app, elem_of_nil. tauto. }
  2:{ destruct (et_failure_other _ Hfl) as (N1 & _). destruct (Z.eqb_spec err3 noErr); [done|]. cbn [negb]. eexists _, _, _. split; [reflexivity|]. split; [done|].
      apply (CutStopped s m exts n tte err3 _ _ _ Ecut); [lia|]. by apply Hfail2. }
  change (negb (noErr =? noErr)) with false. cbn match. destruct (Hfcb eq_refl) as [Hres3 Hsame3]. cbn [x_fcb with_vol] in E4.
  assert (T + blockCount e + total B = total (P ++ A ++ e :: B)) as -> by (rewrite (app_assoc P), total_app; cbn [total]; lia).
  assert (total P < total (P ++ A ++ e :: B)) as HPc by (rewrite total_app; pose proof (total_pos (A ++ e :: B)) as Hp; specialize (Hp ltac:(apply counts_ok_app; split; [by apply counts_ok_app in HcPA as []|by apply Forall_cons]) ltac:(by destruct A)); lia).
  destruct (truncate_rest s3 (put_chunk ft fid P (pad c') m) exts P (A ++ e :: B) Q ft fid _ m phys Hr Hch0) as (err & del & s4 & E5 & Ef4 & Ho).
  - intros HQ. destruct (exists_last HQ) as (Q' & l & ->). specialize (Hph2 (P ++ (A ++ e :: B) ++ Q') l ltac:(rewrite Ee, <-!app_assoc; done)).
    rewrite (app_assoc P), (total_app (P ++ _)) in Hph2. apply counts_ok_app in HcQ as [HcQ _]. pose proof (total_nonneg _ HcQ). lia.
  - intros ->. rewrite app_nil_r in Ee. rewrite <-Ee. lia.
  - by destruct A.
  - intros x Hx. destruct (decide (P = [])) as [->|HP]; [done|]. rewrite put_chunk_cons, lookup_insert_ne by (done || (intros [= E0]; lia)). done.
  - by rewrite <-E4.
  - rewrite <-E4. apply Hg3.
  - rewrite <-E4. apply (on_disk_grown v2); [|done]. apply (on_disk_sub v2 _ _ Hd2), sublist_inserts_r. done.
  - exists err, del, s4. rewrite E4. split; [exact E5|]. split; [by rewrite Ef4|]. assert (x_vol s3 = v3) as Ev3 by by rewrite <-E4. rewrite Ev3 in Ho.
    assert (frees (x_vol s) (gone ++ B) v3) as Hfr3. { rewrite <-(app_nil_r (gone ++ B)). by apply (frees_app _ v2), frees_grown. }
    destruct Ho as [(-> & Hfr4 & m4 & Hh4 & [Hoth Hlow Hhigh])|Hst].
    + assert (frees (x_vol s) (gone ++ B ++ Q) (x_vol s4)) as Hfrall by (rewrite app_assoc; by apply (frees_app _ v3)).
      apply (CutDone s m exts n tte ((P ++ A) ++ [e']) (gone ++ B ++ Q) m4 s4 Ecut).
      * split; [lia|]. intros A2 e2 E6. apply app_inj_tail in E6 as [<- <-]. unfold T in *. lia.
      * destruct tte; [subst e'; exists (B ++ Q); by rewrite Ee2, <-!app_assoc|lia].
      * done.
      * destruct (same_fork_type _ _ Hsame3) as [Eft Efid]. rewrite <-Ef4 in Eft, Efid.
        split; [done| |].
        -- rewrite Eft, Efid, Ef4, Hres3, <-app_assoc. apply (rep_cut ft fid m m4 _ exts P (A ++ e :: B) Q); try done.
           ++ apply counts_ok_app in HcPA as [_ HcA]. apply counts_ok_app. split; [done|]. apply Forall_singleton. lia.
           ++ rewrite length_app. cbn. lia.
           ++ intros E0. by apply app_eq_nil in E0 as [_ ?].
           ++ rewrite app_assoc. fold c'. lia.
        -- apply (frees_on_disk (x_vol s) (gone ++ B ++ Q)); [done|]. rewrite Ecut in Hd. by rewrite Permutation_app_comm.
      * transitivity (put_chunk ft fid P (pad c') m); [apply same_others_put|done].
      * rewrite Ef4. done.
    + apply (CutStopped s m exts n tte err _ _ _ Ecut); [lia|]. apply (stopped_frees err (x_vol s) v3 (x_vol s4) (gone ++ B) Q); [done|done|]. by rewrite app_assoc.
Qed.

(** ** TruncateFileC *)

(** The same file, with other counts of blocks. *)
Definition same_extents (f f' : fcb) : Prop := same_fork f f' /\ fcbExtents f' = fcbExtents f.

Lemma file_rep_fcb s m exts e f d :
  file_rep s m exts -> et_holds e m -> same_extents (x_fcb s) f -> file_rep (mkX (x_vol s) e f d) m exts.
Proof. intros [Hh Hr Hd] He [Hf Ef]. destruct (same_fork_type _ _ Hf) as [E1 E2]. split; cbn [x_tree x_fcb x_vol]; [done| |done]. by rewrite E1, E2, Ef. Qed.

(** The control block before, the tree and hfs_header_dirty after do not matter. *)
Lemma cut_outcome_frame s f m exts n (tte : bool) err s' e d :
  same_extents f (x_fcb s) -> cut_outcome s m exts n tte err s' -> (forall m', et_holds (x_tree s') m' -> et_holds e m') ->
  cut_outcome (mkX (x_vol s) (x_tree s) f (x_dirty s)) m exts n tte err (mkX (x_vol s') e (x_fcb s') d).
Proof.
  intros [Hf Ef] Ho He. destruct (same_fork_type _ _ Hf) as [E1 E2]. destruct Ho as [kept gone m' s' H1 H2 H3 H4 H5 H6 H7|err kept gone s' H1 H2 H3].
  - apply (CutDone _ m exts n tte kept gone m'); try done.
    + apply file_rep_fcb; [done|by apply He, H5|by split].
    + cbn [x_fcb]. by rewrite <-E1, <-E2.
    + cbn [x_fcb]. destruct Hf as (F1 & F2 & F3), H7 as (G1 & G2 & G3). split; [congruence|]. split; congruence.
  - by apply (CutStopped _ m exts n tte err kept gone).
Qed.

(** The keys in the tree are after the blocks of the control block. *)
Lemma no_record_first m ft fid resident exts (x : Z) : fork_rep m ft fid resident exts -> x < total (take 8 exts) -> m !! (fid, ft, x) = None.
Proof.
  intros [Hc _ _ Hrec] Hx. destruct (m !! (fid, ft, x)) as [r|] eqn:Em; [|done]. exfalso. apply Hrec in Em as (P & c & Q & Hch' & HP & -> & _).
  destruct (co_place _ _ _ _ Hch') as [k Hk]. assert (length P <> 0)%nat as Hl by (intros E0; by apply nil_length_inv in E0).
  destruct (chunk_later _ _ _ _ _ _ _ (chunk_first exts) Hch' ltac:(cbn; lia)) as (R & EP & _). cbn [app] in EP.
  pose proof (co_split _ _ _ _ Hch') as E'. rewrite EP in Hx. rewrite total_app in Hx. rewrite E', EP in Hc.
  apply counts_ok_app in Hc as [[_ HcR]%counts_ok_app _]. pose proof (total_nonneg R HcR). lia.
Qed.

(** All blocks of a fork are freed and its records deleted. *)
Lemma DeallocateFork_ok s m exts :
  alloc_inv (x_vol s) -> file_rep s m exts ->
  exists err del s', DeallocateFork (c_fileid (x_fcb s)) (fork_type (x_fcb s)) (fcbExtents (x_fcb s)) false s = Some ((err, del), s') /\
    x_fcb s' = x_fcb s /\
    (err = noErr /\ frees (x_vol s) exts (x_vol s') /\
       (exists m', et_holds (x_tree s') m' /\ same_others (fork_type (x_fcb s)) (c_fileid (x_fcb s)) m m' /\
          forall x, m' !! (c_fileid (x_fcb s), fork_type (x_fcb s), x) = None) \/
     stopped err (x_vol s) exts (x_vol s')).
Proof.
  intros Hi [Hh Hr Hd]. set (ft := fork_type (x_fcb s)) in *. set (fid := c_fileid (x_fcb s)) in *. pose proof Hr as [Hc Ht Hres Hrec].
  pose proof (chunk_first exts) as Hch. set (first := take 8 exts) in *. set (rest := drop 8 exts) in *. pose proof (co_split _ _ _ _ Hch) as Ee. cbn [app] in Ee.
  assert (counts_ok first /\ counts_ok rest) as [Hcf Hcr] by (apply counts_ok_app; by rewrite <-Ee).
  assert (total exts = total first + total rest) as Et by (by rewrite Ee at 1; rewrite total_app).
  pose proof (total_nonneg _ Hcr). pose proof (total_nonneg _ Hcf).
  assert (file_blocks exts = file_blocks first ++ file_blocks rest) as Ef by (by rewrite Ee at 1; rewrite file_blocks_app).
  rewrite Hres. rewrite Ef in Hd. destruct (ReleaseExtents_ok first s _ Hi Hcf Hd ltac:(lia)) as (err & n' & last & v1 & E1 & Ho).
  unfold DeallocateFork. rewrite (X_bind_eq _ _ _ _ _ E1). clear E1. destruct Ho as [(-> & -> & -> & Hfr)|Hst].
  2:{ destruct (Z.eqb_spec err noErr); [by destruct Hst|]. eexists _, _, _. split; [reflexivity|]. split; [done|]. right.
      apply (stopped_sub err _ _ first); [done|]. intros x Hx. rewrite Ee. apply elem_of_app. by left. }
  change (noErr =? noErr) with true. cbn [andb]. rewrite negb_involutive.
  pose proof (fun x => no_record_first m ft fid _ exts x Hr) as Hnone. fold first in Hnone.
  destruct (Nat.eqb_spec (8 - length first) 0) as [El|El].
  - assert (length first = 8)%nat as El8 by (pose proof (co_size _ _ _ _ Hch); lia).
    destruct (TruncateExtents_ok ft fid exts first rest false (with_vol v1 s) m) as (err & del & s' & E2 & Ef2 & Ho); try done.
    + intros _. by exists 1%nat.
    + by intros ->.
    + by apply (frees_inv (x_vol s) first).
    + by apply (frees_on_disk (x_vol s) first).
    + exists err, del, s'. split; [exact E2|]. split; [done|]. rewrite Ee. destruct Ho as [(-> & Hfr2 & m' & Hh' & [C1 C2 C3])|Hst].
      * left. split; [done|]. split; [by apply (frees_app _ v1)|]. exists m'. split; [done|]. split; [done|]. intros x.
        destruct (Z.lt_ge_cases x (total first)) as [Hx|Hx]; [|by apply C3]. rewrite C2 by done. by apply Hnone.
      * right. by apply (stopped_frees err (x_vol s) v1 _ first rest).
  - assert (rest = []) as Er. { destruct (decide (rest = [])) as [|HQ]; [done|]. pose proof (co_full _ _ _ _ Hch HQ). lia. }
    exists noErr, false, (with_vol v1 s). split; [done|]. split; [done|]. left. split; [done|].
    rewrite Er, app_nil_r in Ee. rewrite <-Ee in Hfr. split; [done|]. exists m. split; [done|]. split; [done|]. intros x.
    destruct (m !! (fid, ft, x)) as [r|] eqn:Em; [|done]. exfalso. destruct (Z.lt_ge_cases x (total first)) as [Hx|Hx]; [by rewrite Hnone in Em|].
    apply Hrec in Em. pose proof (overflow_low exts x r Hc Em). pose proof (f_equal total Ee). lia.
Qed.

(** A fork whose extents are all in the control block. *)
Lemma fork_rep_resident m ft fid (exts : list HFSPlusExtentDescriptor) :
  (forall x : Z, m !! (fid, ft, x) = None) -> counts_ok exts -> total exts <= UINT32_MAX -> (length exts <= 8)%nat -> fork_rep m ft fid (pad exts) exts.
Proof.
  intros Hn Hc Ht Hl. split; [done|done|by rewrite take_ge|]. intros x r. rewrite Hn. split; [done|]. intros (P & c & Q & Hch & HP & _).
  destruct (co_place _ _ _ _ Hch) as [k Hk]. pose proof (co_split _ _ _ _ Hch) as Ee. apply (f_equal length) in Ee. rewrite !length_app in Ee.
  assert (length P <> 0)%nat by (intros E0; by apply nil_length_inv in E0). assert (c = []) as Ec by (apply nil_length_inv; lia).
  by destruct (co_some _ _ _ _ Hch Ec).
Qed.

Lemma on_disk_nil v : on_disk v [].
Proof. split; [apply NoDup_nil_2|intros b []%not_elem_of_nil..]. Qed.

Lemma truncate_empty s m exts (tte : bool) :
  alloc_inv (x_vol s) -> file_rep s m exts ->
  exists err del s', ('(err, recordDeleted) ← DeallocateFork (c_fileid (x_fcb s)) (fork_type (x_fcb s)) (fcbExtents (x_fcb s)) false;
       _ ← when_x (err =? noErr) (modify_fcb (set_fcbExtents no_extents));
       mret (err, recordDeleted)) s = Some ((err, del), s') /\ same_blocks (x_fcb s) (x_fcb s') /\ cut_outcome s m exts 0 tte err s'.
Proof.
  intros Hi Hf. destruct (DeallocateFork_ok s m exts Hi Hf) as (err & del & s' & E1 & Ef & Ho). rewrite (X_bind_eq _ _ _ _ _ E1).
  destruct Ho as [(-> & Hfr & m' & Hh & Hoth & Hnone)|Hst].
  - eexists _, _, _. split; [reflexivity|]. cbn [x_fcb]. rewrite Ef. split; [done|].
    apply (CutDone _ m exts 0 tte [] exts m'); try done.
    + split; [done|]. by intros [] ?.
    + destruct tte; [by exists exts|done].
    + split; cbn [x_tree x_fcb x_vol]; [done| |apply on_disk_nil]. apply (fork_rep_resident m' _ _ []); [done|by apply Forall_nil|done|cbn; lia].
  - destruct (Z.eqb_spec err noErr); [by destruct Hst|]. eexists _, _, _. split; [reflexivity|]. rewrite Ef. split; [done|].
    apply (CutStopped s m exts 0 tte err [] exts); [done|done|done].
Qed.

Lemma howmany_ok x y : 0 <= x -> 0 < y -> 0 <= howmany x y /\ x <= howmany x y * y < x + y.
Proof.
  intros Hx Hy. unfold howmany. rewrite Z.rem_mod_nonneg, Z.quot_div_nonneg by lia. pose proof (Z.div_mod x y ltac:(lia)) as Ed. pose proof (Z.mod_pos_bound x y Hy).
  pose proof (Z.div_pos x y Hx Hy). destruct (Z.eqb_spec (x mod y) 0); lia.
Qed.

(** C5: TruncateFileC, for a file on a volume that satisfies the invariant of the allocator,
    its extents in the control block and in the records of the extents file, whatever
    fails: it ends without a panic, and the count of blocks is that of the new end.
    Without an error the file is what was before the new end (up to the end of the
    extent, if that was asked for), in the same places, its records are again those of
    its extents and those of other forks are as before; exactly the blocks after the new
    end are freed, for each the allocator's books are kept, and the invariants hold
    again.  When the block I/O or the tree fails, no block before the new end, and none
    of another file, has been freed. *)
Theorem TruncateFileC_correct s m exts peof deleted (tte : bool) :
  let n := howmany peof (blockSize (vo_geom (x_vol s))) in
  alloc_inv (x_vol s) -> file_rep s m exts -> hfs_logical_bytes (vo_geom (x_vol s)) < 2 ^ 63 ->
  0 <= peof -> n <= total exts -> ends_in exts (ff_blocks (x_fcb s)) ->
  exists err s', TruncateFileC peof deleted (FORK_IS_RSRC (x_fcb s)) (c_fileid (x_fcb s)) tte s = Some (err, s') /\
    ff_blocks (x_fcb s') = n /\
    c_blocks (x_fcb s') = (if deleted then c_blocks (x_fcb s) else u32 (c_blocks (x_fcb s) - u32 (ff_blocks (x_fcb s) - n))) /\
    cut_outcome s m exts n tte err s'.
Proof.
  intros n Hi Hf Hdev Hp Hn Hends. destruct (vk_geom _ (av_ok _ Hi)) as [G1 G2 G3 G4]. pose proof (file_total s m exts (av_ok _ Hi) Hf) as Htot.
  pose proof (li_max _ (vk_limits _ (av_ok _ Hi))) as Hmax. set (bs := blockSize (vo_geom (x_vol s))) in *.
  destruct (howmany_ok peof bs Hp G1) as [H0 _]. fold n in H0.
  assert (0 <= n * bs < 2 ^ 63) as Hnb.
  { split; [lia|]. pose proof (Z.mul_le_mono_nonneg_r n (vo_totalBlocks (x_vol s)) bs ltac:(lia) ltac:(lia)). lia. }
  unfold TruncateFileC. unfold mbind at 1, X_bind at 1, get_volume. unfold mbind at 1, X_bind at 1, get_fcb. cbv zeta. fold bs. fold n.
  rewrite (u32_id n) by lia. rewrite (s64_id (n * bs)) by (unfold INT64_MAX; lia). rewrite Z.quot_mul by lia. rewrite (u32_id n) by lia.
  set (f1 := (if deleted then id else set_c_flag (SET (c_flag (x_fcb s)) C_MODIFIED))
    (set_ff_blocks n (set_c_blocks (if deleted then c_blocks (x_fcb s) else u32 (c_blocks (x_fcb s) - u32 (ff_blocks (x_fcb s) - n))) (x_fcb s)))).
  set (s1 := mkX (x_vol s) (x_tree s) f1 (x_dirty s)).
  assert (forall A (k : X E A), (_ ← when_x (negb deleted) (modify_fcb (fun f => set_c_blocks (u32 (c_blocks f - u32 (ff_blocks f - n))) f));
    _ ← modify_fcb (set_ff_blocks n); _ ← when_x (negb deleted) set_modified; k) s = k s1) as Estart.
  { intros A k. unfold s1, f1. destruct s as [v e f d], deleted; [|reflexivity]. by destruct f. }
  rewrite Estart. clear Estart. assert (same_extents (x_fcb s) f1) as Hsame by (unfold f1; by destruct deleted).
  assert (file_rep s1 m exts) as Hf1 by (apply file_rep_fcb; [done|apply Hf|done]).
  destruct (same_fork_type _ _ (proj1 Hsame)) as [Eft Efid].
  assert (exists err del s2, (if n * bs =? 0 then
       '(err, recordDeleted) ← DeallocateFork (c_fileid (x_fcb s1)) (fork_type (x_fcb s1)) (fcbExtents (x_fcb s1)) false;
       _ ← when_x (err =? noErr) (modify_fcb (set_fcbExtents no_extents));
       mret (err, recordDeleted)
     else truncate_to (n * bs) n (ff_blocks (x_fcb s)) deleted (fork_type (x_fcb s1)) (c_fileid (x_fcb s1)) tte) s1 = Some ((err, del), s2) /\
     same_blocks f1 (x_fcb s2) /\ cut_outcome s1 m exts n tte err s2) as (err & del & s2 & E1 & Hsb & Ho).
  { destruct (Z.eqb_spec (n * bs) 0) as [Ez|Hnz].
    - assert (n = 0) as -> by nia. by apply truncate_empty.
    - apply (truncate_to_ok s1 m exts n (ff_blocks (x_fcb s)) deleted tte); [done|done| |done]. split; [|done]. destruct (Z.eq_dec n 0) as [->|]; lia. }
  cbn [x_fcb s1] in E1. rewrite Eft, Efid, (proj2 Hsame) in E1. unfold fork_type in E1. rewrite (X_bind_eq _ _ _ _ _ E1).
  assert (forall e d, (forall m', et_holds (x_tree s2) m' -> et_holds e m') -> cut_outcome s m exts n tte err (mkX (x_vol s2) e (x_fcb s2) d)) as Hfinal.
  { intros e d He. pose proof (cut_outcome_frame s1 (x_fcb s) m exts n tte err s2 e d) as Hfr. cbn [x_vol x_tree x_dirty s1] in Hfr.
    assert (mkX (x_vol s) (x_tree s) (x_fcb s) (x_dirty s) = s) as Es by by destruct s. rewrite Es in Hfr. apply Hfr; [|done|done]. cbn [x_fcb]. by destruct Hsame. }
  destruct Hsb as [B1 B2].
  assert (ff_blocks f1 = n /\ c_blocks f1 = (if deleted then c_blocks (x_fcb s) else u32 (c_blocks (x_fcb s) - u32 (ff_blocks (x_fcb s) - n)))) as [F1 F2]
    by (unfold f1; by destruct deleted).
  rewrite F1 in B1. rewrite F2 in B2. destruct del.
  - destruct (FlushExtentFile_eq s2) as (err2 & e & d & E2 & He). exists err, (mkX (x_vol s2) e (x_fcb s2) d). split; [|by auto].
    unfold when_x. erewrite X_bind_eq; [reflexivity|]. by rewrite (X_bind_eq _ _ _ _ _ E2).
  - exists err, s2. split; [done|]. split; [done|]. split; [done|]. assert (mkX (x_vol s2) (x_tree s2) (x_fcb s2) (x_dirty s2) = s2) as <- by by destruct s2. by apply Hfinal.
Qed.
End Truncate.
