(* ===== verification/FileHeadProps.v ===== *)
(** * Cutting the head of a file off (core/FileExtentMapping.c)

    HeadTruncateFile frees the first extents of a file and makes those that stay the
    extents of its control block; its records in the extents file are deleted. *)

From S2P Require Import Prelude HfsFormat ExtentKeys RangeList FreeExtCache Bitmap BitmapBits JournalTrim Volume VolumeOps BlockSearch BlockAlloc VolumeProps BlockSearchProps AllocInv AllocProps FreeProps AllocSafety ExtentsFile FileExtents ForkRep FileSearchProps FileStepProps FileTruncateProps.

(** ** Freeing with errors that are ignored *)

(** At most the blocks of [l] are freed, and all of them if the block I/O has no errors. *)
Record released (v : vol) (l : list HFSPlusExtentDescriptor) (v' : vol) : Prop := {
  re_inv : alloc_inv v';
  re_shape : same_shape v v';
  re_kept : forall b, 0 <= b -> b ∉ file_blocks l -> bit_set v b -> bit_set v' b;
  re_all : bm_io (vo_bitmap v) = [] -> frees v l v';
}.

Lemma released_refl v : alloc_inv v -> released v [] v.
Proof. intros Hi. split; [done|done|done|]. intros _. apply FreesNil. Qed.

Lemma released_app v v1 v2 l1 l2 : released v l1 v1 -> released v1 l2 v2 -> released v (l1 ++ l2) v2.
Proof.
  intros [A1 A2 A3 A4] [B1 B2 B3 B4]. split; [done|by transitivity v1| |].
  - intros b Hb Hout Hs. rewrite file_blocks_app in Hout. apply not_elem_of_app in Hout as [H1 H2]. auto.
  - intros Hio. apply (frees_app _ v1); [by apply A4|]. apply B4. destruct (bm_io (vo_bitmap v1)) as [|e io] eqn:Eio; [done|].
    pose proof (ss_io _ _ A2 e) as Hin. rewrite Hio, Eio in Hin. by destruct (not_elem_of_nil e (Hin ltac:(left))).
Qed.

Lemma released_grown v v' : grown v v' -> released v [] v'.
Proof. intros Hg. split; [apply Hg|apply Hg| |]. - intros b Hb _. by apply (gr_kept _ _ Hg). - intros _. by apply frees_grown. Qed.

Lemma released_on_disk v l v' bl : released v l v' -> on_disk v (file_blocks l ++ bl) -> on_disk v' bl.
Proof.
  intros [_ Hs Hk _] Hd. pose proof (od_nodup _ _ Hd) as (_ & Hout & Hn)%NoDup_app. apply (on_disk_step v v' _ bl Hd Hs Hn).
  intros b Hb. assert (b ∈ file_blocks l ++ bl) as Hb' by (apply elem_of_app; by right). split; [done|]. pose proof (od_inside _ _ Hd b Hb').
  apply Hk; [lia| |by apply (od_set _ _ Hd)]. intros Hl. by apply (Hout b).
Qed.

Section Head.
Context {E : Type} `{!ExtentsTree E} `{!ExtentsTreeLaws E}.
Implicit Types (s : xstate E) (m : extent_map).

(** The control blocks count the same, and are of the same fork. *)
Definition same_counts (f f' : fcb) : Prop := same_fork f f' /\ same_blocks f f'.

Lemma same_counts_trans f1 f2 f3 : same_counts f1 f2 -> same_counts f2 f3 -> same_counts f1 f3.
Proof. intros [(A1 & A2 & A3) [A4 A5]] [(B1 & B2 & B3) [B4 B5]]. split; split_and!; congruence. Qed.

Lemma release_step s e bl :
  alloc_inv (x_vol s) -> on_disk (x_vol s) (run_blocks e ++ bl) -> 0 < blockCount e ->
  exists err v', on_vol (BlockDeallocate (startBlock e) (blockCount e) 0) s = Some (err, with_vol v' s) /\ released (x_vol s) [e] v' /\
    (err <> 0 -> err ∈ bm_io (vo_bitmap (x_vol s))).
Proof.
  intros Hi Hd He. destruct (deallocate_step s e bl Hi Hd He) as (err & v' & E1 & Ho). exists err, v'. split; [done|].
  destruct Ho as [(-> & Hf & _)|(Hne & Hin & Hnf)].
  - split; [|by intros []]. split; [apply Hf|apply Hf| |intros _; by apply frees_one]. intros b Hb Hout Hs. rewrite file_blocks_one, elem_of_run in Hout.
    unfold bit_set in *. rewrite (fd_bits _ _ _ _ _ Hf) by done. by rewrite Hs, (proj2 (in_run_not _ _ b) Hout).
  - split; [|done]. split; [apply Hnf|apply Hnf| |intros Eio; rewrite Eio in Hin; by apply not_elem_of_nil in Hin].
    intros b Hb Hout Hs. rewrite file_blocks_one, elem_of_run in Hout. unfold bit_set in *. by rewrite (nf_other _ _ _ _ Hnf).
Qed.

(** ** The extents of the control block *)

Lemma head_resident_keep t : forall i s headblks b fr pa tl fill,
  counts_ok t -> (t <> [] -> headblks <= fr) -> 0 <= pa -> pa + total t <= UINT32_MAX -> (length tl + length t <= 8)%nat ->
  exists blk, head_resident (t ++ replicate fill no_extent) i headblks (mkHead b fr pa tl) s = Some ((0, mkHead blk fr (pa + total t) (tl ++ t)), s) /\
    (blk = 0 <-> fill <> 0%nat \/ t = [] /\ b = 0).
Proof.
  induction t as [|e t IH]; intros i s headblks b fr pa tl fill Hc Hfr Hpa Hle Hlen.
  - rewrite app_nil_r, Z.add_0_r. destruct fill as [|fill]; cbn; [exists b|exists 0]; (split; [done|]); naive_solver.
  - apply Forall_cons in Hc as [He Hc]. cbn [total] in Hle. pose proof (total_nonneg t Hc). cbn [app head_resident length] in *. specialize (Hfr ltac:(done)).
    destruct (Z.eqb_spec (blockCount e) 0); [lia|]. cbn [hd_blksfreed hd_passed hd_tail]. destruct (Z.ltb_spec fr headblks); [lia|].
    rewrite u32_id by lia. erewrite X_bind_eq.
    2:{ unfold add_tail, kHFSPlusExtentDensity. destruct (Z.ltb_spec (Z.of_nat (length tl)) 8); [reflexivity|lia]. }
    destruct (IH (S i) s headblks (blockCount e) fr (pa + blockCount e) (tl ++ [mkExtent (startBlock e) (blockCount e)]) fill) as (blk & E1 & Hb); try done; try lia.
    { rewrite length_app. cbn. lia. }
    exists blk. split; [|split; [intros Hb0; left; apply Hb in Hb0 as [?|[_ ?]]; [done|lia]|intros [?|[? _]]; [apply Hb; by left|done]]].
    rewrite E1. destruct e as [st cnt]. cbn [startBlock blockCount total]. by rewrite <-app_assoc, <-Z.add_assoc.
Qed.

Lemma head_overflow_keep t : forall s headblks b fr pa tl fill,
  counts_ok t -> (t <> [] -> headblks <= fr) -> 0 <= pa -> pa + total t <= UINT32_MAX -> (length tl + length t <= 8)%nat ->
  exists blk, head_overflow (t ++ replicate fill no_extent) headblks (mkHead b fr pa tl) s = Some (mkHead blk fr (pa + total t) (tl ++ t), s) /\
    (blk = 0 <-> fill <> 0%nat \/ t = [] /\ b = 0).
Proof.
  induction t as [|e t IH]; intros s headblks b fr pa tl fill Hc Hfr Hpa Hle Hlen.
  - rewrite app_nil_r, Z.add_0_r. destruct fill as [|fill]; cbn; [exists b|exists 0]; (split; [done|]); naive_solver.
  - apply Forall_cons in Hc as [He Hc]. cbn [total] in Hle. pose proof (total_nonneg t Hc). cbn [app head_overflow length] in *. specialize (Hfr ltac:(done)).
    destruct (Z.eqb_spec (blockCount e) 0); [lia|]. cbn [hd_blksfreed hd_passed hd_tail]. destruct (Z.ltb_spec fr headblks); [lia|].
    rewrite u32_id by lia. erewrite X_bind_eq.
    2:{ unfold add_tail, kHFSPlusExtentDensity. destruct (Z.ltb_spec (Z.of_nat (length tl)) 8); [reflexivity|lia]. }
    destruct (IH s headblks (blockCount e) fr (pa + blockCount e) (tl ++ [mkExtent (startBlock e) (blockCount e)]) fill) as (blk & E1 & Hb); try done; try lia.
    { rewrite length_app. cbn. lia. }
    exists blk. split; [|split; [intros Hb0; left; apply Hb in Hb0 as [?|[_ ?]]; [done|lia]|intros [?|[? _]]; [apply Hb; by left|done]]].
    rewrite E1. destruct e as [st cnt]. cbn [startBlock blockCount total]. by rewrite <-app_assoc, <-Z.add_assoc.
Qed.

(** Extents of the head are freed; the first may fail, and then nothing has changed but
    bits of it. *)
Lemma head_resident_free h : forall i s headblks b fr pa rest bl,
  counts_ok h -> 0 <= fr -> fr + total h <= headblks <= UINT32_MAX -> 0 <= pa -> pa + total h <= UINT32_MAX ->
  alloc_inv (x_vol s) -> on_disk (x_vol s) (file_blocks h ++ bl) ->
  (exists blk s', head_resident (h ++ rest) i headblks (mkHead b fr pa []) s =
       head_resident rest (i + length h) headblks (mkHead blk (fr + total h) (pa + total h) []) s' /\
     (h = [] -> blk = b) /\ (h <> [] -> blk <> 0) /\ released (x_vol s) h (x_vol s') /\ x_tree s' = x_tree s /\ same_counts (x_fcb s) (x_fcb s')) \/
  (i = 0%nat /\ exists err v', head_resident (h ++ rest) i headblks (mkHead b fr pa []) s = Some ((err, mkHead b fr pa []), with_vol v' s) /\
     err <> 0 /\ err ∈ bm_io (vo_bitmap (x_vol s)) /\ exists e h', h = e :: h' /\ released (x_vol s) [e] v').
Proof.
  induction h as [|e h IH]; intros i s headblks b fr pa rest bl Hc Hfr Hle Hpa Hpl Hi Hd.
  - left. exists b, s. cbn [app length total]. rewrite !Z.add_0_r, Nat.add_0_r. do 3 (split; [done|]). split; [by apply released_refl|]. by split.
  - apply Forall_cons in Hc as [He Hc]. cbn [total] in Hle, Hpl. pose proof (total_nonneg h Hc). cbn [app head_resident length].
    destruct (Z.eqb_spec (blockCount e) 0); [lia|]. cbn [hd_blksfreed hd_passed hd_tail]. destruct (Z.ltb_spec fr headblks); [|lia]. rewrite (u32_id (pa + blockCount e)) by lia.
    change (file_blocks (e :: h)) with (run_blocks e ++ file_blocks h) in Hd. rewrite <-app_assoc in Hd.
    destruct (release_step s e _ Hi Hd He) as (err & v' & E1 & Hr & Hio). rewrite (X_bind_eq _ _ _ _ _ E1).
    destruct (negb (err =? 0) && (i =? 0)%nat) eqn:E0.
    { apply andb_true_iff in E0 as [E0 Ei]. apply negb_true_iff, Z.eqb_neq in E0. apply Nat.eqb_eq in Ei. right. split; [done|].
      exists err, v'. split; [done|]. split; [done|]. split; [auto|]. by exists e, h. }
    erewrite X_bind_eq by reflexivity. set (s1 := mkX _ _ _ _). rewrite u32_id by lia.
    destruct (IH (S i) s1 headblks (blockCount e) (fr + blockCount e) (pa + blockCount e) rest bl Hc) as [(blk & s' & E2 & B1 & B2 & R & Et & Hsc)|(? & _)]; try done; try lia; cbn [x_vol s1 with_vol].
    + apply Hr.
    + apply (released_on_disk (x_vol s) [e]); [done|]. by rewrite file_blocks_one.
    + left. exists blk, s'. split; [|split; [done|]].
      * rewrite E2. cbn [total]. rewrite <-!Z.add_assoc. by replace (S i + length h)%nat with (i + S (length h))%nat by lia.
      * split. { intros _. destruct (decide (h = [])) as [->|Hne]; [rewrite B1 by done; lia|by apply B2]. }
        split; [by apply (released_app _ v' _ [e])|]. split; [done|]. by apply (same_counts_trans _ (x_fcb s1)).
Qed.

Lemma head_overflow_free h : forall s headblks b fr pa rest bl,
  counts_ok h -> 0 <= fr -> fr + total h <= headblks <= UINT32_MAX -> 0 <= pa -> pa + total h <= UINT32_MAX ->
  alloc_inv (x_vol s) -> on_disk (x_vol s) (file_blocks h ++ bl) ->
  exists blk v', head_overflow (h ++ rest) headblks (mkHead b fr pa []) s =
       head_overflow rest headblks (mkHead blk (fr + total h) (pa + total h) []) (with_vol v' s) /\
     (h = [] -> blk = b) /\ (h <> [] -> blk <> 0) /\ released (x_vol s) h v'.
Proof.
  induction h as [|e h IH]; intros s headblks b fr pa rest bl Hc Hfr Hle Hpa Hpl Hi Hd.
  - exists b, (x_vol s). cbn [app total]. rewrite !Z.add_0_r. assert (with_vol (x_vol s) s = s) as -> by by destruct s. do 3 (split; [done|]). by apply released_refl.
  - apply Forall_cons in Hc as [He Hc]. cbn [total] in Hle, Hpl. pose proof (total_nonneg h Hc). cbn [app head_overflow].
    destruct (Z.eqb_spec (blockCount e) 0); [lia|]. cbn [hd_blksfreed hd_passed hd_tail]. destruct (Z.ltb_spec fr headblks); [|lia]. rewrite (u32_id (pa + blockCount e)) by lia.
    change (file_blocks (e :: h)) with (run_blocks e ++ file_blocks h) in Hd. rewrite <-app_assoc in Hd.
    destruct (release_step s e _ Hi Hd He) as (err & v1 & E1 & Hr & Hio). rewrite (X_bind_eq _ _ _ _ _ E1). rewrite u32_id by lia.
    destruct (IH (with_vol v1 s) headblks (blockCount e) (fr + blockCount e) (pa + blockCount e) rest bl Hc) as (blk & v2 & E2 & B1 & B2 & R); try done; try lia; cbn [x_vol with_vol].
    + apply Hr.
    + apply (released_on_disk (x_vol s) [e]); [done|]. by rewrite file_blocks_one.
    + exists blk, v2. split; [|split; [done|]].
      * rewrite E2. cbn [total]. by rewrite <-!Z.add_assoc.
      * split. { intros _. destruct (decide (h = [])) as [->|Hne]; [rewrite B1 by done; lia|by apply B2]. }
        by apply (released_app _ v1 _ [e]).
Qed.

(** ** Records *)

Section Cut.
Context (n : nat) (exts : list HFSPlusExtentDescriptor) (Hcounts : counts_ok exts) (Htotal : total exts <= UINT32_MAX).
Context (Htail : (length (drop n exts) <= 8)%nat).
Local Notation headblks := (total (take n exts)).

(** Where the loops are when the extents [P] are passed. *)
Definition passed (b : Z) (P : list HFSPlusExtentDescriptor) : head_state := mkHead b (total (take n P)) (total P) (drop n P).

Lemma counts_take (k : nat) (l : list HFSPlusExtentDescriptor) : counts_ok l -> counts_ok (take k l) /\ counts_ok (drop k l).
Proof. intros Hc. rewrite <-(take_drop k l) in Hc. by apply counts_ok_app in Hc. Qed.

(** The extents [c] after [P] are split into those of the head and those of the tail. *)
Lemma head_split P c Q :
  exts = P ++ c ++ Q ->
  let h := take (n - length P) c in let t := drop (n - length P) c in
  c = h ++ t /\ counts_ok h /\ counts_ok t /\ take n (P ++ c) = take n P ++ h /\ drop n (P ++ c) = drop n P ++ t /\
  (h = [] \/ drop n P = []) /\ total (take n P) + total h <= headblks /\ (t <> [] -> headblks <= total (take n P) + total h) /\
  (length (drop n P) + length t <= 8)%nat /\ 0 <= total (take n P) /\ 0 <= total P /\ total P + total h + total t <= UINT32_MAX.
Proof.
  intros Ee h t. pose proof Hcounts as Hc. rewrite Ee in Hc. apply counts_ok_app in Hc as [HcP [Hcc HcQ]%counts_ok_app].
  destruct (counts_take (n - length P) c Hcc) as [Hch Hct]. fold h t in Hch, Hct.
  assert (c = h ++ t) as Ec by (symmetry; apply take_drop).
  assert (take n (P ++ c) = take n P ++ h) as E1 by apply take_app. assert (drop n (P ++ c) = drop n P ++ t) as E2 by apply drop_app.
  assert (take n exts = take n P ++ h ++ take (n - length P - length c) Q) as E3 by (rewrite Ee, take_app, take_app; done).
  assert (drop n exts = drop n P ++ t ++ drop (n - length P - length c) Q) as E4 by (rewrite Ee, drop_app, drop_app; done).
  destruct (counts_take (n - length P - length c) Q HcQ) as [HcQ1 _]. destruct (counts_take n P HcP) as [HcP1 _].
  pose proof (total_nonneg _ HcQ1). pose proof (total_nonneg _ HcP1). pose proof (total_nonneg _ HcP). pose proof (total_nonneg _ HcQ).
  do 5 (split; [done|]). split.
  { destruct (le_lt_dec n (length P)); [left; unfold h; replace (n - length P)%nat with 0%nat by lia; done|right; apply drop_ge; lia]. }
  split; [rewrite E3, !total_app; lia|]. split.
  { intros Ht. rewrite E3, !total_app. replace (n - length P - length c)%nat with 0%nat; [change (total (take 0 Q)) with 0; lia|].
    assert (length t <> 0)%nat as Hlt by (intros E0; by apply nil_length_inv in E0). unfold t in Hlt. rewrite length_drop in Hlt. lia. }
  split; [rewrite E4, !length_app in Htail; lia|]. split; [done|]. split; [done|].
  rewrite Ee, !total_app in Htotal. pose proof (f_equal total Ec) as Etc. rewrite total_app in Etc. lia.
Qed.

(** A record of the extents file. *)
Lemma overflow_chunk s P c Q b bl :
  exts = P ++ c ++ Q -> (length c <= 8)%nat -> alloc_inv (x_vol s) -> on_disk (x_vol s) (file_blocks (take (n - length P) c) ++ bl) ->
  exists blk v', head_overflow (pad c) headblks (passed b P) s = Some (passed blk (P ++ c), with_vol v' s) /\
    released (x_vol s) (take (n - length P) c) v' /\ (c <> [] -> (blk = 0 <-> (length c < 8)%nat)).
Proof.
  intros Ee Hl Hi Hd. destruct (head_split P c Q Ee) as (Ec & Hch & Hct & E1 & E2 & Hor & S1 & S2 & S3 & S4 & S5 & S6).
  set (h := take (n - length P) c) in *. set (t := drop (n - length P) c) in *. unfold passed. rewrite E1, E2, !total_app.
  assert (pad c = h ++ t ++ replicate (8 - length c) no_extent) as -> by (unfold pad; rewrite Ec at 1; by rewrite <-app_assoc).
  pose proof (total_nonneg _ Hct). pose proof (total_nonneg _ Hch). assert (headblks <= UINT32_MAX) as Hhb.
  { destruct (counts_take n exts Hcounts) as [? Hx]. pose proof (total_nonneg _ Hx). pose proof (f_equal total (take_drop n exts)) as Et. rewrite total_app in Et. lia. }
  pose proof (f_equal total Ec) as Etc. rewrite total_app in Etc.
  assert (exists blk1 v1, head_overflow (h ++ t ++ replicate (8 - length c) no_extent) headblks (mkHead b (total (take n P)) (total P) (drop n P)) s =
    head_overflow (t ++ replicate (8 - length c) no_extent) headblks (mkHead blk1 (total (take n P) + total h) (total P + total h) (drop n P)) (with_vol v1 s) /\
    (h <> [] -> blk1 <> 0) /\ released (x_vol s) h v1) as (blk1 & v1 & -> & Hb1 & Hr1).
  { destruct Hor as [Eh|Ed].
    - rewrite Eh. exists b, (x_vol s). cbn [app total]. rewrite !Z.add_0_r. assert (with_vol (x_vol s) s = s) as -> by by destruct s. do 2 (split; [done|]). by apply released_refl.
    - rewrite Ed. destruct (head_overflow_free h s headblks b (total (take n P)) (total P) (t ++ replicate (8 - length c) no_extent) bl) as (blk1 & v1 & E3 & _ & B2 & R); try done; try lia.
      by exists blk1, v1. }
  destruct (head_overflow_keep t (with_vol v1 s) headblks blk1 (total (take n P) + total h) (total P + total h) (drop n P) (8 - length c)) as (blk & E3 & Hb); try done; try lia.
  exists blk, v1. split; [rewrite E3; do 3 f_equal; lia|]. split; [done|]. intros Hne. rewrite Hb. split.
  - intros [?|[Et Eb]]; [lia|]. exfalso. apply Hb1; [|done]. intros Eh. apply Hne. by rewrite Ec, Eh, Et.
  - intros ?. left. lia.
Qed.

(** The tree does not fail. *)
Context (Hnofail : forall err, ~ et_failure err) (Hnofull : forall err, ~ et_full err).

Lemma head_records_ok ft fid fuel : forall P rest s m b bl,
  exts = P ++ rest -> (rest <> [] -> exists k, length P = (8 * k)%nat) -> P <> [] -> et_holds (x_tree s) m -> alloc_inv (x_vol s) ->
  on_disk (x_vol s) (file_blocks (take (n - length P) rest) ++ bl) ->
  (forall (x : Z) r, total P <= x -> m !! (fid, ft, x) = Some r <-> overflow exts x r) -> (size m < fuel)%nat ->
  exists blk s', head_records ft fid headblks (passed b P) fuel s = Some (passed blk exts, s') /\ x_fcb s' = x_fcb s /\
    released (x_vol s) (take (n - length P) rest) (x_vol s') /\ exists m', et_holds (x_tree s') m' /\ records_cut ft fid (total P) m m'.
Proof.
  induction fuel as [|fuel IH]; intros P rest s m b bl Ee Hpl HP Hh Hi Hd Hrec Hfuel; [lia|]. cbn [head_records hd_passed passed].
  destruct (FindExtentRecord_exact s m ft fid (total P) Hh) as (err & data & hint & e & E1 & He & Ho). rewrite (X_bind_eq _ _ _ _ _ E1).
  inversion Ho as [r Hr E2 E3|r Hr E2 E3|err' r Hf E2 E3]; subst err data; clear Ho E1; [| |by destruct (Hnofail err')].
  2:{ (* no more records *)
    assert (rest = []) as Er.
    { destruct (decide (rest = [])) as [|Hne]; [done|]. exfalso. destruct (chunk_next exts P rest Ee (Hpl Hne) Hne) as (c & Q & Hch & Er).
      assert (m !! (fid, ft, total P) = Some (pad c)) as Hs; [|congruence]. apply Hrec; [done|]. by exists P, c, Q. }
    rewrite Er in *. rewrite app_nil_r in Ee. rewrite take_nil. exists b, (with_tree e s). split; [by rewrite Ee|]. split; [done|].
    split; [by apply released_refl|]. exists m. split; [done|]. split; [done|done|]. intros x Hx. destruct (m !! (fid, ft, x)) as [r2|] eqn:Ex; [|done].
    exfalso. apply Hrec in Ex; [|done]. pose proof (overflow_low exts x _ Hcounts Ex). pose proof (f_equal total Ee). lia. }
  change (negb (noErr =? 0)) with false. cbn match. assert (overflow exts (total P) r) as Hov by (by apply Hrec).
  assert (rest <> []) as Hne.
  { intros ->. rewrite app_nil_r in Ee. pose proof (overflow_low exts _ r Hcounts Hov). pose proof (f_equal total Ee). lia. }
  destruct (chunk_next exts P rest Ee (Hpl Hne) Hne) as (c & Q & Hch & Er). pose proof (overflow_at exts P c Q r Hcounts Hch Hov) as ->.
  pose proof (co_split _ _ _ _ Hch) as Ec. assert (c <> []) as Hcne by (intros E0; by destruct (co_some _ _ _ _ Hch E0)).
  rewrite Er in Hd |- *. rewrite take_app, file_blocks_app, <-app_assoc in Hd.
  destruct (overflow_chunk (with_tree e s) P c Q b _ Ec (co_size _ _ _ _ Hch) Hi Hd) as (blk & v1 & E1 & Hr1 & Hblk). specialize (Hblk Hcne).
  rewrite (X_bind_eq _ _ _ _ _ E1). clear E1.
  destruct (DeleteExtentRecord_ok (with_vol v1 (with_tree e s)) m ft fid (total P) (pad c) He (re_inv _ _ _ Hr1) Hr) as (err & s2 & E1 & Hch2).
  rewrite (X_bind_eq _ _ _ _ _ E1). inversion Hch2 as [e2 v2 Hh2 Hg E4 E5|err2 e2 v2 Hf2 Hh2 Hg E4 E5|err2 e2 v2 Hf2 Hng E4 E5]; subst err s2; clear Hch2 E1;
    [|by destruct (Hnofull err2)|by destruct (Hnofail err2)].
  cbn [x_fcb x_dirty with_vol with_tree hd_blkcnt passed].
  set (s2 := mkX v2 e2 (x_fcb s) (x_dirty s)). assert (released (x_vol s) (take (n - length P) c) v2) as Hr2.
  { rewrite <-(app_nil_r (take _ c)). apply (released_app _ v1); [done|]. by apply released_grown. }
  pose proof Hcounts as Hc. rewrite Ec in Hc. apply counts_ok_app in Hc as [_ [Hcc _]%counts_ok_app]. pose proof (total_pos _ Hcc Hcne) as Hcpos.
  assert (forall m', records_cut ft fid (total (P ++ c)) (delete (fid, ft, total P) m) m' -> records_cut ft fid (total P) m m') as Hcut.
  { intros m' [C1 C2 C3]. split.
    - transitivity (delete (fid, ft, total P) m); [apply same_others_delete|done].
    - intros x Hx. rewrite C2 by (rewrite total_app; lia). by rewrite lookup_delete_ne by (intros [= E0]; lia).
    - intros x Hx. destruct (Z.lt_ge_cases x (total (P ++ c))) as [Hlt|]; [|by apply C3]. rewrite C2 by done.
      destruct (decide (x = total P)) as [->|Hxne]; [by rewrite lookup_delete_eq|]. rewrite lookup_delete_ne by congruence.
      destruct (m !! (fid, ft, x)) as [r|] eqn:Ex; [|done]. apply Hrec in Ex; [|done]. by destruct Hxne; apply (overflow_between exts P c Q x r). }
  assert (forall (x : Z) r, total (P ++ c) <= x -> delete (fid, ft, total P) m !! (fid, ft, x) = Some r <-> overflow exts x r) as Hrec2.
  { intros x r Hx. rewrite total_app in Hx. rewrite lookup_delete_ne by congruence || (intros [= E0]; lia). apply Hrec. lia. }
  destruct (Z.eqb_spec blk 0) as [E0|Hnz].
  - (* the last record *)
    assert (Q = []) as EQ. { destruct (decide (Q = [])) as [|HQ]; [done|]. pose proof (co_full _ _ _ _ Hch HQ). apply Hblk in E0. lia. }
    rewrite EQ, app_nil_r in *. exists blk, s2. split; [rewrite <-Ec; done|]. split; [done|]. split; [done|].
    exists (delete (fid, ft, total P) m). split; [done|]. apply Hcut. split; [done|done|]. intros x Hx. destruct (delete (fid, ft, total P) m !! (fid, ft, x)) as [r|] eqn:Ex; [|done].
    exfalso. apply Hrec2 in Ex; [|done]. pose proof (overflow_low exts x _ Hcounts Ex). pose proof (f_equal total Ec). lia.
  - destruct (IH (P ++ c) Q s2 (delete (fid, ft, total P) m) blk bl) as (blk2 & s' & E1 & Ef & Hr3 & m' & Hh' & Hc'); try done.
    + by rewrite Ec, app_assoc.
    + intros HQ. destruct (Hpl Hne) as [k Hk]. exists (S k). rewrite length_app, (co_full _ _ _ _ Hch HQ). lia.
    + by intros [-> _]%app_eq_nil.
    + apply Hg.
    + rewrite length_app, Nat.sub_add_distr. apply (on_disk_grown v1); [|done]. by apply (released_on_disk (x_vol s) (take (n - length P) c)).
    + rewrite map_size_delete_Some by (by rewrite Hr). assert (size m <> 0)%nat by (intros E2%map_size_empty_inv; by rewrite E2, lookup_empty in Hr). lia.
    + exists blk2, s'. split; [exact E1|]. split; [done|]. split; [|exists m'; auto]. rewrite take_app. apply (released_app _ v2); [done|].
      by rewrite length_app, Nat.sub_add_distr in Hr3.
Qed.

(** The extents of the control block. *)
Lemma resident_chunk s c Q bl :
  exts = c ++ Q -> (length c <= 8)%nat -> alloc_inv (x_vol s) -> on_disk (x_vol s) (file_blocks (take n c) ++ bl) ->
  (exists blk s', head_resident (pad c) 0 headblks (mkHead 0 0 0 []) s = Some ((0, passed blk c), s') /\
     released (x_vol s) (take n c) (x_vol s') /\ x_tree s' = x_tree s /\ same_counts (x_fcb s) (x_fcb s') /\ (blk = 0 <-> (length c < 8)%nat)) \/
  (exists err v', head_resident (pad c) 0 headblks (mkHead 0 0 0 []) s = Some ((err, mkHead 0 0 0 []), with_vol v' s) /\
     err <> 0 /\ err ∈ bm_io (vo_bitmap (x_vol s)) /\ exists e rest, take n c = e :: rest /\ released (x_vol s) [e] v').
Proof.
  intros Ee Hl Hi Hd. destruct (head_split [] c Q Ee) as (Ec & Hch & Hct & _ & _ & _ & S1 & S2 & S3 & _ & _ & S6).
  cbn [length app total] in *. rewrite Nat.sub_0_r, take_nil, drop_nil in *. cbn [length total] in *. rewrite !Z.add_0_l in *.
  set (h := take n c) in *. set (t := drop n c) in *. pose proof (total_nonneg _ Hct). pose proof (total_nonneg _ Hch).
  assert (pad c = h ++ t ++ replicate (8 - length c) no_extent) as -> by (unfold pad; rewrite Ec at 1; by rewrite <-app_assoc).
  assert (headblks <= UINT32_MAX) as Hhb.
  { destruct (counts_take n exts Hcounts) as [? Hx]. pose proof (total_nonneg _ Hx). pose proof (f_equal total (take_drop n exts)) as Et. rewrite total_app in Et. lia. }
  pose proof (f_equal total Ec) as Etc. rewrite total_app in Etc.
  destruct (head_resident_free h 0 s headblks 0 0 0 (t ++ replicate (8 - length c) no_extent) bl) as [(blk1 & s1 & -> & _ & Hb1 & Hr1 & Et1 & Hs1)|(_ & err & v' & E1 & Hne & Hio & e & rest & Eh & Hr)];
    try done; try lia; [|right; exists err, v'; do 3 (split; [done|]); by exists e, rest].
  left. destruct (head_resident_keep t (0 + length h) s1 headblks blk1 (0 + total h) (0 + total h) [] (8 - length c)) as (blk & E3 & Hb); try done; try lia.
  exists blk, s1. split; [rewrite E3; unfold passed; fold h t; by rewrite Etc, !Z.add_0_l|]. do 3 (split; [done|]). rewrite Hb. split.
  - intros [?|[Et Eb]]; [lia|]. destruct (decide (h = [])) as [Eh|Hh]; [|by destruct (Hb1 Hh)]. pose proof (f_equal length Ec) as El. rewrite Eh, Et in El. cbn in El. lia.
  - intros ?. left. lia.
Qed.
End Cut.

(** ** HeadTruncateFile *)

Lemma MacToVFSError_nonzero err : err <> 0 -> MacToVFSError err <> 0.
Proof.
  intros Hne. unfold MacToVFSError, dskFulErr, fxOvFlErr, btBadNode, memFullErr, btNotFound, btExists, cmNotFound, cmExists. destruct (Z.leb_spec 0 err); [done|]. repeat case_match; try done; by apply Z.eqb_eq in H0; subst.
Qed.

(** How cutting the extents [hd] off the file [hd ++ tl] ends. *)
Inductive head_cut s m hd tl : Z -> xstate E -> Prop :=
| HeadCut m' s' :
    file_rep s' m' tl -> released (x_vol s) hd (x_vol s') -> same_others (fork_type (x_fcb s)) (c_fileid (x_fcb s)) m m' -> same_fork (x_fcb s) (x_fcb s') ->
    ff_blocks (x_fcb s') = u32 (ff_blocks (x_fcb s) - total hd) -> c_blocks (x_fcb s') = u32 (c_blocks (x_fcb s) - total hd) ->
    head_cut s m hd tl 0 s'
| HeadKept err e rest s' :
    err <> 0 -> hd = e :: rest -> released (x_vol s) [e] (x_vol s') -> x_fcb s' = x_fcb s -> x_tree s' = x_tree s -> bm_io (vo_bitmap (x_vol s)) <> [] ->
    head_cut s m hd tl err s'.

(** C8: HeadTruncateFile, for a cut at the end of one of the extents of a file, on a
    volume that satisfies the invariant of the allocator and with an extents file whose
    operations do not fail: when at most eight extents are left it ends without a panic
    and never writes outside of the array of these.  It ends in one of two ways.
    Without an error the file is what was after the cut, in the same places and all in
    the control block, without any record; no block but those cut off is freed, and
    these all are if the block I/O has no error.  Or the block I/O fails at the first
    free and the error is given back: then the control block and the records are as they
    were, and no block but those of the first extent has been freed. *)
Theorem HeadTruncateFile_correct s m hd tl :
  alloc_inv (x_vol s) -> file_rep s m (hd ++ tl) -> hd <> [] -> (length tl <= 8)%nat -> (forall err, ~ et_failure err) -> (forall err, ~ et_full err) ->
  exists err s', HeadTruncateFile (total hd) s = Some (err, s') /\ head_cut s m hd tl err s'.
Proof.
  intros Hi [Hh Hr Hd] Hne Htl Hnofail Hnofull. set (ft := fork_type (x_fcb s)) in *. set (fid := c_fileid (x_fcb s)) in *. pose proof Hr as [Hc Ht Hres Hrec].
  set (exts := hd ++ tl) in *. set (n := length hd).
  assert (take n exts = hd) as Etk by apply take_app_length. assert (drop n exts = tl) as Edr by apply drop_app_length.
  pose proof Hc as [Hch Hct]%counts_ok_app. pose proof (total_pos _ Hch Hne) as Hpos.
  pose proof (chunk_first exts) as Hfirst. set (first := take 8 exts) in *. set (rest := drop 8 exts) in *.
  assert (exts = first ++ rest) as Ee by (symmetry; apply take_drop). assert (length (drop n exts) <= 8)%nat as Hdr by by rewrite Edr.
  assert (hd = take n first ++ take (n - length first) rest) as Ehd by (rewrite <-Etk, Ee at 1; apply take_app).
  assert (on_disk (x_vol s) (file_blocks (take n first) ++ file_blocks (take (n - length first) rest) ++ file_blocks tl)) as Hd1.
  { unfold exts in Hd. rewrite file_blocks_app, Ehd, file_blocks_app, <-app_assoc in Hd. exact Hd. }
  unfold HeadTruncateFile. erewrite X_bind_eq by reflexivity. cbv zeta. fold ft fid. rewrite Hres, <-Etk.
  destruct (resident_chunk n exts Hc Ht Hdr s first rest _ Ee (co_size _ _ _ _ Hfirst) Hi Hd1) as [(blk & s1 & E1 & Hr1 & Et1 & [Hs1 Hb1] & Hblk)|(err & v' & E1 & Herr & Hio & e & rest' & Eh & Hr1)];
    rewrite (X_bind_eq _ _ _ _ _ E1); clear E1.
  2:{ destruct (Z.eqb_spec err 0); [done|]. cbn [negb]. eexists _, _. split; [reflexivity|].
      apply (HeadKept s m _ tl _ e (rest' ++ take (n - length first) rest)); [by apply MacToVFSError_nonzero|by rewrite Etk, Ehd, Eh|done|done|done|].
      intros E0. rewrite E0 in Hio. by apply not_elem_of_nil in Hio. }
  change (negb (0 =? 0)) with false. cbn match. cbn [hd_blkcnt passed].
  assert (exists blk2 s2 m2, (if blk =? 0 then mret (passed n blk first) else overflow_records ft fid (total (take n exts)) (passed n blk first)) s1 =
    Some (passed n blk2 exts, s2) /\ x_fcb s2 = x_fcb s1 /\ released (x_vol s1) (take (n - length first) rest) (x_vol s2) /\
    et_holds (x_tree s2) m2 /\ same_others ft fid m m2 /\ forall x : Z, m2 !! (fid, ft, x) = None) as (blk2 & s2 & m2 & E1 & Ef2 & Hr2 & Hh2 & Hoth & Hnone).
  { destruct (Z.eqb_spec blk 0) as [E0|Hnz].
    - assert (rest = []) as Er. { destruct (decide (rest = [])) as [|HQ]; [done|]. pose proof (co_full _ _ _ _ Hfirst HQ). apply Hblk in E0. lia. }
      rewrite Er, app_nil_r in Ee. exists blk, s1, m. rewrite Er, take_nil, <-Ee. split; [done|]. split; [done|]. split; [apply released_refl, Hr1|].
      split; [by rewrite Et1|]. split; [done|]. intros x. destruct (Z.lt_ge_cases x (total exts)) as [Hx|Hx].
      + apply (no_record_first m ft fid _ exts x Hr). fold first. by rewrite <-Ee.
      + by apply (no_record_past ft fid m _ exts x Hr).
    - assert (length first = 8%nat) as El. { pose proof (co_size _ _ _ _ Hfirst). destruct (decide (length first < 8)%nat) as [?|?]; [by destruct Hnz; apply Hblk|lia]. }
      destruct (head_records_ok n exts Hc Ht Hdr Hnofail Hnofull ft fid (records_fuel s1) first rest s1 m blk (file_blocks tl)) as (blk2 & s2 & E1 & Ef2 & Hr2 & m2 & Hh2 & [C1 C2 C3]); try done.
      + intros _. by exists 1%nat.
      + by intros ->.
      + by rewrite Et1.
      + apply Hr1.
      + by apply (released_on_disk (x_vol s) (take n first)).
      + unfold records_fuel. rewrite Et1. assert (Z.of_nat (size m) <= et_records (x_tree s)) by by apply et_size. lia.
      + exists blk2, s2, m2. split; [exact E1|]. do 4 (split; [done|]). intros x. destruct (Z.lt_ge_cases x (total first)) as [Hx|Hx]; [|by apply C3].
        rewrite C2 by done. by apply (no_record_first m ft fid _ exts x Hr). }
  rewrite (X_bind_eq _ _ _ _ _ E1). clear E1. cbn [hd_blksfreed hd_tail passed]. rewrite Etk, Edr. destruct (Z.eqb_spec (total hd) 0); [lia|]. cbn [negb when_x].
  set (f3 := set_c_touch_chgtime true (set_c_flag (SET (c_flag (x_fcb s2)) C_MODIFIED) (set_ff_blocks (u32 (ff_blocks (x_fcb s2) - total hd))
    (set_c_blocks (u32 (c_blocks (x_fcb s2) - total hd)) (set_fcbExtents (pad tl) (x_fcb s2)))))).
  destruct (FlushExtentFile_eq (mkX (x_vol s2) (x_tree s2) f3 (x_dirty s2))) as (err2 & e2 & d2 & E2 & He2). cbn [x_vol x_tree x_fcb] in E2, He2.
  exists 0, (mkX (x_vol s2) e2 f3 d2). split.
  - erewrite X_bind_eq; [reflexivity|]. do 4 (erewrite X_bind_eq by reflexivity). exact (X_bind_eq _ _ _ _ _ E2).
  - destruct Hs1 as (A1 & A2 & A3), Hb1 as [B1 B2].
    assert (fork_type f3 = ft /\ c_fileid f3 = fid) as [Eft Efid] by (unfold f3, fork_type; cbn; by rewrite Ef2, A2, A1).
    assert (released (x_vol s) hd (x_vol s2)) as Hrall by (rewrite Ehd; by apply (released_app _ (x_vol s1))).
    apply (HeadCut s m hd tl m2); cbn [x_vol x_fcb x_tree].
    + split; cbn [x_vol x_fcb x_tree]; [auto| |].
      * rewrite Eft, Efid. apply (fork_rep_resident m2 ft fid tl); [done|done| |done]. unfold exts in Ht. rewrite total_app in Ht. pose proof (total_nonneg _ Hch). lia.
      * apply (released_on_disk (x_vol s) hd); [done|]. unfold exts in Hd. by rewrite file_blocks_app in Hd.
    + done.
    + done.
    + unfold f3. cbn. rewrite Ef2. done.
    + unfold f3. cbn. by rewrite Ef2, B1.
    + unfold f3. cbn. by rewrite Ef2, B2.
Qed.

End Head.
