(* ===== verification/FileExtendSteps.v ===== *)
(** * A turn of ExtendFileC (core/FileExtentMapping.c)

    ExtendFileC allocates blocks and puts them in the last record of the file, or in a new
    one, until the file has the blocks it should get.  Here are the steps of a turn: what
    [extend_allocate] asks of the allocator, where [extend_record] puts the blocks, and
    what [extend_account] counts. *)

From S2P Require Import Prelude HfsFormat ExtentKeys RangeList FreeExtCache Bitmap BitmapBits JournalTrim Volume VolumeOps BlockSearch BlockAlloc VolumeProps BlockSearchProps AllocInv AllocProps FreeProps AllocSafety ExtentsFile FileExtents ForkRep FileSearchProps FileStepProps FileTruncateProps.

(** ** Volumes that can be asked for blocks *)

(** No tentative allocation is under way, the counts are counts, and no error of the
    block I/O is taken for a full disk. *)
Record ready (v : vol) : Prop := {
  rd_tentative : tentativeBlocks (vo_counts v) = 0;
  rd_free : 0 <= freeBlocks (vo_counts v) <= UINT32_MAX;
  rd_reserve : 0 <= reserveBlocks (vo_counts v);
  rd_next : 0 <= nextAllocation (vo_counts v) /\ 0 <= sparseAllocation (vo_counts v);
  rd_io : dskFulErr ∉ bm_io (vo_bitmap v);
  rd_size : blockSize (vo_geom v) < 2 ^ 31;
}.

Lemma ready_shape v v' : same_shape v v' -> ready v -> ready v'.
Proof.
  intros [_ Eg _ _ [K1 _ _ K4 K5 K6 K7] Hio] [R1 R2 R3 [R4 R4'] R5 R6]. split; [congruence|auto|lia|auto|auto|by rewrite Eg].
Qed.

(** What an allocation may use without the reserve is not less than with it. *)
Lemma hfs_freeblks_bound v (r : bool) : ready v -> 0 <= hfs_freeblks v r <= UINT32_MAX /\ hfs_freeblks v r <= hfs_freeblks v false.
Proof.
  intros [_ Hf Hr _ _ _]. unfold hfs_freeblks. pose proof (u32_bound (loanedBlocks (vo_counts v) + lockedBlocks (vo_counts v))) as Hl.
  set (loan := u32 _) in *. cbv zeta.
  set (a := if loan <? _ then _ else 0). set (b := if loan <? freeBlocks (vo_counts v) then _ else 0).
  assert (0 <= a <= b /\ b <= UINT32_MAX) as [Ha Hb] by (unfold a, b; destruct r, (Z.ltb_spec (reserveBlocks (vo_counts v)) (freeBlocks (vo_counts v))); repeat case_match; zcases; lia).
  clearbody a b. destruct (hfs_get_backing_free_blks v) as [x|]; [|lia].
  pose proof (u32_bound (Z.min a x)). pose proof (u32_bound (Z.min b x)). split; [lia|].
  destruct (Z.le_gt_cases 0 x); [rewrite !u32_id by lia; lia|]. rewrite !Z.min_r by lia. done.
Qed.

Lemma grown_trans v1 v2 v3 : grown v1 v2 -> grown v2 v3 -> grown v1 v3.
Proof. intros [_ A2 A3] [B1 B2 B3]. split; [done|auto|by transitivity v2]. Qed.

Lemma grown_searched v v' : alloc_inv v' -> searched 0 v v' -> vol_ok v -> grown v v'.
Proof. intros Hi Hs Hv. destruct (searched_not_given 0 v v' Hv Hs) as [_ H2 H3]. by split. Qed.

Section Steps.
Context {E : Type} `{!ExtentsTree E} `{!ExtentsTreeLaws E}.
Implicit Types (s : xstate E) (m : extent_map) (l : extend_state).

(** ** Allocating *)

(** The blocks come from the free ones; without any the volume is the same to the file;
    or the block I/O has an error. *)
Inductive allocated s l : Z * Z * Z -> vol -> Prop :=
| AllocatedRun flags st n v' :
    given (x_vol s) flags st n v' -> (el_wantContig l = true -> el_bytesToAdd l <= n * blockSize (vo_geom (x_vol s))) ->
    allocated s l (noErr, st, n) v'
| AllocatedNone v' : grown (x_vol s) v' -> allocated s l (dskFulErr, 0, 0) v'
| AllocatedIO err v' : err <> noErr -> err <> dskFulErr -> err ∈ bm_io (vo_bitmap (x_vol s)) -> not_given (x_vol s) v' -> allocated s l (err, 0, 0) v'.

Lemma howmany_mul k y : 0 < y -> howmany (k * y) y = k.
Proof. intros Hy. unfold howmany. rewrite Z.rem_mul, Z.quot_mul by lia. done. Qed.

Lemma extend_allocate_ok a s l startBlock k :
  alloc_inv (x_vol s) -> ready (x_vol s) -> 0 <= startBlock -> ea_fastdev a = 0 \/ ea_fastdev a = HFS_ALLOC_FAST_DEV ->
  1 <= k -> el_bytesToAdd l = k * blockSize (vo_geom (x_vol s)) -> el_bytesToAdd l <= el_maximumBytes l ->
  exists r v', extend_allocate a startBlock l s = Some (r, with_vol v' s) /\ allocated s l r v'.
Proof.
  intros Hi Hr Hst Hfd Hk Ek Hmax. pose proof (go_size _ (vk_geom _ (av_ok _ Hi))) as Hbs. pose proof (rd_size _ Hr) as Hbs2.
  unfold extend_allocate. unfold mbind at 1, X_bind at 1, get_volume. cbv zeta.
  set (bs := blockSize (vo_geom (x_vol s))) in *.
  destruct (hfs_freeblks_bound (x_vol s) (ISSET (ea_flags a) kEFReserveMask) Hr) as [Hf Hff]. set (F := hfs_freeblks (x_vol s) (ISSET (ea_flags a) kEFReserveMask)) in *.
  assert (0 <= F * bs <= UINT32_MAX * (2 ^ 31)) as Hfb by (split; [apply Z.mul_nonneg_nonneg; lia|apply Z.mul_le_mono_nonneg; lia]).
  rewrite (s64_id (F * bs)) by (unfold INT64_MAX, UINT32_MAX in *; lia).
  assert (with_vol (x_vol s) s = s) as Es by by destruct s.
  destruct (Z.leb_spec (F * bs) 0) as [|Hav].
  { exists (dskFulErr, 0, 0), (x_vol s). rewrite Es. split; [done|]. by apply AllocatedNone, grown_refl. }
  destruct (el_wantContig l && (F * bs <? el_bytesToAdd l)) eqn:Ewant.
  { exists (dskFulErr, 0, 0), (x_vol s). rewrite Es. split; [done|]. by apply AllocatedNone, grown_refl. }
  set (flags := if el_allowFlushTxns l then _ else _).
  assert (1 <= F) as HF by nia.
  assert (howmany (Z.min (el_bytesToAdd l) (F * bs)) bs = Z.min k F) as ->.
  { rewrite Ek, Z.mul_min_distr_nonneg_r by lia. by apply howmany_mul. }
  destruct (howmany_ok (Z.min (el_maximumBytes l) (F * bs)) bs ltac:(lia) Hbs) as [H0 Hmx].
  set (mx := howmany (Z.min (el_maximumBytes l) (F * bs)) bs) in *. assert (Z.min k F <= mx <= F) as Hmx2.
  { split; [|nia]. assert (Z.min k F * bs <= mx * bs); [|nia]. rewrite <-Z.mul_min_distr_nonneg_r by lia. lia. }
  rewrite !u32_id by lia.
  assert (plain flags /\ (el_wantContig l = true -> ISSET flags (Z.lor HFS_ALLOC_FORCECONTIG HFS_ALLOC_TRY_HARD) = true)) as [Hp Hc].
  { unfold flags. split; [|intros ->]; destruct Hfd as [->| ->], (el_useMetaZone l), (el_allowFlushTxns l); try done; by destruct (el_wantContig l). }
  assert (request_ok (x_vol s) flags (Z.min k F) mx) as Hrq.
  { destruct Hr as [R1 R2 R3 R4 R5 R6]. split; try done; lia. }
  pose proof (BlockAllocate_ok (x_vol s) startBlock (Z.min k F) mx flags Hi Hrq Hst) as Ho.
  inversion Ho as [st n v' Hg Hn Hl E1|v' H1 H2 H3 E1|err v' H1 H2 H3 E1]; symmetry in E1; rewrite (on_vol_eq _ _ _ _ E1).
  - exists (noErr, st, n), v'. split; [done|]. apply (AllocatedRun s l flags); [done|]. intros Ew. specialize (Hl (Hc Ew)).
    rewrite Ew in Ewant. cbn [andb] in Ewant. apply Z.ltb_ge in Ewant. fold bs. rewrite Ek in Ewant |- *. apply Z.mul_le_mono_nonneg_r; [lia|]. nia.
  - exists (dskFulErr, 0, 0), v'. split; [done|]. apply AllocatedNone, grown_searched; [done|done|apply Hi].
  - exists (err, 0, 0), v'. split; [done|]. apply AllocatedIO; try done. intros ->. by apply (rd_io _ Hr).
Qed.

(** ** The last record *)

(** The loop is at the last record of the file, and at its last extent. *)
Definition at_end (ft fid : Z) (exts : list HFSPlusExtentDescriptor) (key : HFSPlusExtentKey) (data : HFSPlusExtentRecord) (index : Z) : Prop :=
  exists P c, chunk_of exts P c [] /\ key = chunk_key ft fid P /\ data = pad c /\ index = Z.of_nat (length c - 1).

(** The last extent of a record, or none. *)
Lemma last_extent c : (length c <= 8)%nat ->
  exists e, extent_at (pad c) (Z.of_nat (length c - 1)) = Some e /\
    (c = [] /\ e = no_extent \/ exists A, c = A ++ [e] /\ (length c - 1)%nat = length A).
Proof.
  intros Hl. unfold extent_at. rewrite Nat2Z.id. destruct (decide (c = [])) as [->|Hne]; [exists no_extent; by split; [|left]|].
  destruct (exists_last Hne) as (A & e & ->). exists e. assert (length (A ++ [e]) - 1 = length A)%nat as El by (rewrite length_app; cbn; lia). rewrite El.
  split; [|right; by exists A]. unfold pad. rewrite <-app_assoc. by apply lookup_middle.
Qed.

(** What a turn leaves of the state of the loop but for the record. *)
Definition same_amounts l l' : Prop :=
  el_wantContig l' = el_wantContig l /\ el_useMetaZone l' = el_useMetaZone l /\ el_allowFlushTxns l' = el_allowFlushTxns l /\
  el_bytesToAdd l' = el_bytesToAdd l /\ el_maximumBytes l' = el_maximumBytes l /\ el_nextBlock l' = el_nextBlock l.

(** Bits are kept but for a run. *)
Definition kept_but st n (v v' : vol) : Prop := forall b, 0 <= b -> ~ st <= b < st + n -> bit_set v b -> bit_set v' b.

(** The run from [st] on is put at the end of the file: it is in a record, or there is an
    error and the file is what it was, or the tree failed. *)
Inductive recorded s m exts st n l : extend_state -> xstate E -> Prop :=
| RecordedRun exts' m' l' s' :
    el_err l' = noErr -> same_amounts l l' -> at_end (fork_type (x_fcb s)) (c_fileid (x_fcb s)) exts' (el_key l') (el_data l') (el_index l') ->
    grown (x_vol s) (x_vol s') -> file_rep s' m' exts' -> file_blocks exts' = file_blocks exts ++ seqZ st n -> total exts' = total exts + n ->
    same_others (fork_type (x_fcb s)) (c_fileid (x_fcb s)) m m' -> same_fork (x_fcb s) (x_fcb s') -> same_blocks (x_fcb s) (x_fcb s') ->
    recorded s m exts st n l l' s'
| RecordedFull l' s' :
    el_err l' = dskFulErr \/ et_full (el_err l') -> alloc_inv (x_vol s') -> same_shape (x_vol s) (x_vol s') -> kept_but st n (x_vol s) (x_vol s') ->
    file_rep s' m exts -> x_fcb s' = x_fcb s -> recorded s m exts st n l l' s'
| RecordedFailed l' s' :
    et_failure (el_err l') -> not_given (x_vol s) (x_vol s') -> x_fcb s' = x_fcb s -> recorded s m exts st n l l' s'.

(** The run is given back. *)
Lemma give_back_ok s st n bl :
  alloc_inv (x_vol s) -> on_disk (x_vol s) (bl ++ seqZ st n) -> 0 < n ->
  exists err v', on_vol (BlockDeallocate st n 0) s = Some (err, with_vol v' s) /\ alloc_inv v' /\ same_shape (x_vol s) v' /\ kept_but st n (x_vol s) v' /\ on_disk v' bl.
Proof.
  intros Hi Hd Hn. destruct (deallocate_run (x_vol s) _ (mkExtent st n) Hi Hd Hn) as (err & v' & E0 & Ho).
  { intros b Hb. apply elem_of_app. by right. }
  cbn [startBlock blockCount] in *. exists err, v'. split; [by apply on_vol_eq|].
  assert (kept_but st n (x_vol s) v' -> same_shape (x_vol s) v' -> on_disk v' bl) as Hod.
  { intros Hk Hs. pose proof (od_nodup _ _ Hd) as (Hnd & Hout & _)%NoDup_app. apply (on_disk_step (x_vol s) v' _ bl Hd Hs Hnd).
    intros b Hb. assert (b ∈ bl ++ seqZ st n) as Hb' by (apply elem_of_app; by left). split; [done|]. pose proof (od_inside _ _ Hd b Hb').
    apply Hk; [lia| |by apply (od_set _ _ Hd)]. intros Hr. apply (Hout b Hb), elem_of_seqZ. lia. }
  destruct Ho as [[-> Hf]|(_ & _ & Hnf)].
  - assert (kept_but st n (x_vol s) v') as Hk.
    { intros b Hb Hr Hset. unfold bit_set in *. rewrite (fd_bits _ _ _ _ _ Hf) by done. by rewrite Hset, (proj2 (in_run_not st n b) Hr). }
    split; [apply Hf|]. split; [apply Hf|]. split; [done|]. apply Hod; [done|apply Hf].
  - assert (kept_but st n (x_vol s) v') as Hk.
    { intros b Hb Hr Hset. unfold bit_set in *. by rewrite (nf_other _ _ _ _ Hnf). }
    split; [apply Hnf|]. split; [apply Hnf|]. split; [done|]. apply Hod; [done|apply Hnf].
Qed.

(** A change of the tree puts the run at the end of the file. *)
Lemma recorded_changed s m m1 f1 exts exts' st n l l' err s' :
  file_rep s m exts -> on_disk (x_vol s) (file_blocks exts') -> tree_changed m m1 s f1 err s' ->
  fork_rep m1 (fork_type (x_fcb s)) (c_fileid (x_fcb s)) (fcbExtents f1) exts' -> same_others (fork_type (x_fcb s)) (c_fileid (x_fcb s)) m m1 ->
  same_fork (x_fcb s) f1 -> same_blocks (x_fcb s) f1 ->
  file_blocks exts' = file_blocks exts ++ seqZ st n -> total exts' = total exts + n ->
  el_err l' = err -> same_amounts l l' -> at_end (fork_type (x_fcb s)) (c_fileid (x_fcb s)) exts' (el_key l') (el_data l') (el_index l') ->
  recorded s m exts st n l l' s'.
Proof.
  intros Hf Hd Hch Hr Hoth Hsf Hsb Eb Et Eerr Ham Hend. pose proof (same_fork_type _ _ Hsf) as [E1 E2].
  destruct Hch as [e v Hh Hg|err e v Hfl Hh Hg|err e v Hfl Hng].
  - apply (RecordedRun s m exts st n l exts' m1); try done. split; cbn [x_tree x_fcb x_vol]; [done|by rewrite E1, E2|by apply (on_disk_grown (x_vol s))].
  - apply RecordedFull; cbn [x_vol x_fcb]; [rewrite Eerr; by right|apply Hg|apply Hg|intros b Hb _; by apply (gr_kept _ _ Hg)| |done].
    destruct Hf as [_ Hr0 Hd0]. split; cbn [x_tree x_fcb x_vol]; [done|done|by apply (on_disk_grown (x_vol s))].
  - apply RecordedFailed; [by rewrite Eerr|done|done].
Qed.

(** The run in the last record. *)
Lemma write_end_ok s m exts P c c' st n l hint flush :
  alloc_inv (x_vol s) -> file_rep s m exts -> on_disk (x_vol s) (file_blocks exts ++ seqZ st n) ->
  chunk_of exts P c [] -> counts_ok c' -> (length c' <= 8)%nat -> c' <> [] ->
  file_blocks c' = file_blocks c ++ seqZ st n -> total c' = total c + n -> total exts + n <= UINT32_MAX ->
  exists err s', UpdateExtentRecord false (chunk_key (fork_type (x_fcb s)) (c_fileid (x_fcb s)) P) (pad c') hint s = Some (err, s') /\
    recorded s m exts st n l
      (set_el_err err (set_el_record (chunk_key (fork_type (x_fcb s)) (c_fileid (x_fcb s)) P) (pad c') (Z.of_nat (length c' - 1)) hint flush l)) s'.
Proof.
  intros Hi Hf Hd Hch Hc' Hl Hne Eb Et Hmax. pose proof Hf as [Hh Hr _]. pose proof (co_split _ _ _ _ Hch) as Ee. rewrite app_nil_r in Ee.
  set (ft := fork_type (x_fcb s)) in *. set (fid := c_fileid (x_fcb s)) in *.
  assert (file_blocks (P ++ c') = file_blocks exts ++ seqZ st n) as Eb' by (by rewrite Ee, !file_blocks_app, Eb, app_assoc).
  assert (total (P ++ c') = total exts + n) as Et' by (rewrite Ee, !total_app, Et; lia).
  destruct (UpdateExtentRecord_ok s m ft fid P false (pad c') (pad c) hint Hh Hi) as (err & s' & E1 & Hch2).
  { intros HP. by apply (overflow_lookup ft fid m (fcbExtents (x_fcb s)) exts P c []). }
  exists err, s'. split; [exact E1|]. destruct (same_fork_updated false P (pad c') (x_fcb s)) as [Hs1 Hs2].
  apply (recorded_changed s m (put_chunk ft fid P (pad c') m) (updated_fcb false P (pad c') (x_fcb s)) exts (P ++ c') st n l _ err s' Hf); try done.
  - by rewrite Eb'.
  - assert (fcbExtents (updated_fcb false P (pad c') (x_fcb s)) = put_resident P (pad c') (fcbExtents (x_fcb s))) as -> by by destruct P.
    apply (rep_put_last ft fid m _ exts P c c'); try done. lia.
  - apply same_others_put.
  - exists P, c'. split; [|done]. destruct (co_place _ _ _ _ Hch) as [k Hk]. split; [by rewrite app_nil_r|by exists k|done|done|done].
Qed.

(** A new record for the run. *)
Lemma create_end_ok s m exts P c st n l flush :
  alloc_inv (x_vol s) -> file_rep s m exts -> on_disk (x_vol s) (file_blocks exts ++ seqZ st n) -> 0 < n ->
  chunk_of exts P c [] -> length c = 8%nat -> total exts + n <= UINT32_MAX ->
  let ft := fork_type (x_fcb s) in let fid := c_fileid (x_fcb s) in
  exists err hint s', CreateExtentRecord (tree_key ft fid (total exts)) (one_extent st n) s = Some ((err, hint), s') /\
    recorded s m exts st n l (set_el_err err (set_el_record (tree_key ft fid (total exts)) (one_extent st n) 0 hint (flush err) l)) s' /\
    (err = fxOvFlErr -> on_disk (x_vol s') (file_blocks exts ++ seqZ st n)).
Proof.
  intros Hi Hf Hd Hn Hch Hl Hmax ft fid. pose proof Hf as [Hh Hr _]. pose proof (co_split _ _ _ _ Hch) as Ee. rewrite app_nil_r in Ee.
  assert (exts <> []) as Hne by (intros ->; destruct (chunk_empty _ _ _ Hch) as (_ & -> & _); done).
  destruct (CreateExtentRecord_ok s m ft fid (total exts) (one_extent st n) Hh Hi) as (err & hint & s' & E1 & Hch2).
  { apply (no_record_past ft fid m _ exts _ Hr). lia. }
  exists err, hint, s'. split; [exact E1|]. split; cycle 1.
  { intros ->. inversion Hch2 as [e v Hh2 Hg|err e v Hfl Hh2 Hg|err e v Hfl Hng]; subst; try by apply (on_disk_grown (x_vol s)).
    by destruct (et_failure_other _ Hfl) as (_ & _ & _ & _ & ?). }
  assert (total (exts ++ [mkExtent st n]) = total exts + n) as Et by (rewrite total_app; cbn; lia).
  apply (recorded_changed s m (<[(fid, ft, total exts) := one_extent st n]> m) (x_fcb s) exts (exts ++ [mkExtent st n]) st n l _ err s' Hf); try done.
  - by rewrite file_blocks_app, file_blocks_one.
  - apply (rep_new ft fid m _ exts P c (mkExtent st n)); try done. lia.
  - apply same_others_insert.
  - by rewrite file_blocks_app, file_blocks_one.
  - exists exts, [mkExtent st n]. split; [|by rewrite chunk_key_cons]. destruct (co_place _ _ _ _ Hch) as [k Hk].
    split; [done| |cbn; lia|done|done]. exists (S k). rewrite Ee, length_app. lia.
Qed.

(** ** extend_record *)

Lemma pad_replace A (e x : HFSPlusExtentDescriptor) : <[length A := x]> (pad (A ++ [e])) = pad (A ++ [x]).
Proof. unfold pad. rewrite <-!app_assoc. cbn [app]. rewrite insert_middle. do 2 f_equal. by rewrite !length_app. Qed.

Lemma pad_append c (x : HFSPlusExtentDescriptor) : (length c < 8)%nat -> <[length c := x]> (pad c) = pad (c ++ [x]).
Proof.
  intros Hl. unfold pad. rewrite length_app. cbn [length]. replace (8 - length c)%nat with (S (8 - (length c + 1)))%nat by lia.
  cbn [replicate]. by rewrite insert_middle, <-app_assoc.
Qed.

Lemma seqZ_join (a k n : Z) : 0 <= k -> 0 <= n -> seqZ a (k + n) = seqZ a k ++ seqZ (a + k) n.
Proof. intros. by apply seqZ_app. Qed.

Lemma run_total s m exts st n :
  alloc_inv (x_vol s) -> file_rep s m exts -> on_disk (x_vol s) (file_blocks exts ++ seqZ st n) -> 0 < n ->
  1 <= st /\ total exts + n <= UINT32_MAX.
Proof.
  intros Hi Hf Hd Hn. pose proof (od_inside _ _ Hd st ltac:(apply elem_of_app; right; apply elem_of_seqZ; lia)). split; [lia|].
  pose proof (vk_limits _ (av_ok _ Hi)) as [L1 _ L3 _ _ _]. pose proof (on_disk_length _ _ Hd ltac:(lia)) as Hlen.
  rewrite length_app, length_seqZ, Nat2Z.inj_add, (file_blocks_length exts (fr_counts _ _ _ _ _ (fi_rep _ _ _ Hf))) in Hlen. lia.
Qed.

Lemma extend_record_ok a s m exts st n l e :
  alloc_inv (x_vol s) -> file_rep s m exts -> on_disk (x_vol s) (file_blocks exts ++ seqZ st n) -> 0 < n ->
  at_end (fork_type (x_fcb s)) (c_fileid (x_fcb s)) exts (el_key l) (el_data l) (el_index l) -> el_nextBlock l = total exts ->
  extent_at (el_data l) (el_index l) = Some e ->
  exists l' s', extend_record a (if negb (ea_blockHint a =? 0) then ea_blockHint a else u32 (startBlock e + blockCount e)) st n l s = Some (l', s') /\
    recorded s m exts st n l l' s'.
Proof.
  intros Hi Hf Hd Hn (P & c & Hch & Ek & Ed & Ei) Enext Ee. destruct (run_total s m exts st n Hi Hf Hd Hn) as [Hst Hmax].
  pose proof (co_size _ _ _ _ Hch) as Hsz. pose proof (co_split _ _ _ _ Hch) as Esp. rewrite app_nil_r in Esp.
  pose proof (fr_counts _ _ _ _ _ (fi_rep _ _ _ Hf)) as Hcx. pose proof Hcx as Hcc. rewrite Esp in Hcc. apply counts_ok_app in Hcc as [_ Hcc].
  destruct (last_extent c Hsz) as (e' & Ee' & Hlast). rewrite Ed, Ei, Ee' in Ee. injection Ee as ->.
  unfold extend_record. unfold mbind at 1, X_bind at 1, get_fcb. erewrite X_bind_eq by (unfold x_lift; rewrite Ed, Ei, Ee'; reflexivity).
  set (start := if negb (ea_blockHint a =? 0) then _ else _).
  destruct ((st =? start) && (ea_blockHint a =? 0)) eqn:Ejoin.
  { (* after the last extent *)
    apply andb_true_iff in Ejoin as [Es Eh]. apply Z.eqb_eq in Es. unfold start in Es. rewrite Eh in Es. cbn [negb] in Es.
    destruct Hlast as [[-> ->]|(A & -> & El)]; [change (u32 _) with 0 in Es; lia|].
    destruct (file_extent s m exts (P ++ A) e [] (av_ok _ Hi) Hf ltac:(by rewrite Esp, app_assoc)) as (X1 & X2 & X3).
    pose proof (li_max _ (vk_limits _ (av_ok _ Hi))) as Hmx. rewrite u32_id in Es by lia.
    apply counts_ok_app in Hcc as [HcA _]. assert (blockCount e + n <= UINT32_MAX) as Hsum.
    { assert (total exts = total (P ++ A) + blockCount e) as Et by (rewrite Esp, app_assoc, (total_app (P ++ A)); cbn [total]; lia).
      rewrite Esp, app_assoc in Hcx. apply counts_ok_app in Hcx as [Hcx _]. pose proof (total_nonneg _ Hcx). lia. }
    rewrite u32_id by lia. rewrite Ei, Nat2Z.id, El, Ed, pad_replace, Ek. set (x := mkExtent (startBlock e) (blockCount e + n)).
    destruct (write_end_ok s m exts P (A ++ [e]) (A ++ [x]) st n l (el_hint l) (el_needsFlush l) Hi Hf Hd Hch) as (err & s' & E1 & Hr); try done.
    - apply counts_ok_app. split; [done|]. apply Forall_singleton. cbn. lia.
    - rewrite length_app in *. cbn in *. lia.
    - by destruct A.
    - rewrite !file_blocks_app, !file_blocks_one. unfold run_blocks, x. cbn [startBlock blockCount]. rewrite seqZ_join, Es by lia. by rewrite <-app_assoc.
    - rewrite !total_app. cbn. lia.
    - rewrite (X_bind_eq _ _ _ _ _ E1). eexists _, s'. split; [reflexivity|].
      assert (length (A ++ [x]) - 1 = length A)%nat as El2 by (rewrite length_app; cbn; lia). by rewrite El2 in Hr. }
  (* another extent *)
  assert ((if negb (blockCount e =? 0) then el_index l + 1 else el_index l) = Z.of_nat (length c)) as ->.
  { rewrite Ei. destruct Hlast as [[-> ->]|(A & -> & El)]; [done|]. apply counts_ok_app in Hcc as [_ [He _]%Forall_cons].
    destruct (Z.eqb_spec (blockCount e) 0); [lia|]. rewrite El, length_app. cbn. lia. }
  destruct (Z.eqb_spec (Z.of_nat (length c)) kHFSPlusExtentDensity) as [E8|Hn8]; unfold kHFSPlusExtentDensity in *.
  - assert (length c = 8%nat) as El8 by lia. destruct (Z.eqb_spec (c_fileid (x_fcb s)) kHFSExtentsFileID) as [_|_].
    + destruct (give_back_ok s st n _ Hi Hd Hn) as (err & v' & E1 & I1 & I2 & I3 & I4). rewrite (X_bind_eq _ _ _ _ _ E1). eexists _, _. split; [reflexivity|].
      apply RecordedFull; [by left|done|done|done| |done]. destruct Hf as [F1 F2 F3]. by split.
    + rewrite Enext. destruct (create_end_ok s m exts P c st n l (fun err => if err =? noErr then true else el_needsFlush l) Hi Hf Hd Hn Hch El8 Hmax) as (err & hint & s' & E1 & Hr & Hd2).
      rewrite (X_bind_eq _ _ _ _ _ E1). cbv beta iota zeta. destruct (Z.eqb_spec err fxOvFlErr) as [->|Hne].
      * inversion Hr as [exts2 m2 l2 s2 Er|l2 s2 Hor Hi2 Hs2 Hk2 Hf2 Ef2|l2 s2 Hfl]; subst; cbn [el_err set_el_err] in *; [done| |by destruct (et_failure_other _ Hfl) as (_ & _ & _ & _ & ?)].
        destruct (give_back_ok s' st n _ Hi2 (Hd2 eq_refl) Hn) as (err & v' & E2 & I1 & I2 & I3 & I4).
        erewrite X_bind_eq by (rewrite (X_bind_eq _ _ _ _ _ E2); reflexivity). eexists _, _. split; [reflexivity|].
        apply RecordedFull; [by left|done|by transitivity (x_vol s')|intros b Hb Hr' Hset; by apply I3, Hk2|destruct Hf2 as [F1 F2 F3]; by split|done].
      * eexists _, s'. split; [reflexivity|done].
  - rewrite Ed, Nat2Z.id, pad_append, Ek by lia.
    destruct (write_end_ok s m exts P c (c ++ [mkExtent st n]) st n l (el_hint l) (el_needsFlush l) Hi Hf Hd Hch) as (err & s' & E1 & Hr); try done.
    + apply counts_ok_app. split; [done|]. by apply Forall_singleton.
    + rewrite length_app. cbn. lia.
    + by destruct c.
    + by rewrite file_blocks_app, file_blocks_one.
    + rewrite total_app. cbn. lia.
    + rewrite (X_bind_eq _ _ _ _ _ E1). eexists _, s'. split; [reflexivity|].
      assert (length (c ++ [mkExtent st n]) - 1 = length c)%nat as El2 by (rewrite length_app; cbn; lia). by rewrite El2 in Hr.
Qed.
End Steps.
