(* ===== verification/FileExtendProps.v ===== *)
(** * Giving blocks to a file (core/FileExtentMapping.c)

    ExtendFileC leaves the blocks a file has where they are and puts free blocks after
    them, in the file control block and in the records of the extents file. *)

From S2P Require Import Prelude HfsFormat ExtentKeys RangeList FreeExtCache Bitmap BitmapBits BitmapFree JournalTrim Volume VolumeOps BlockSearch BlockAlloc VolumeProps BlockSearchProps AllocInv AllocProps FreeProps AllocSafety ExtentsFile FileExtents ForkRep FileSearchProps FileStepProps FileTruncateProps FileExtendSteps.

Lemma u32_add_l a b : u32 (u32 a + b) = u32 (a + b).
Proof. unfold u32, wrap. by rewrite Z.add_mod_idemp_l. Qed.

(** ** The flag of the scan for contiguous blocks *)

Definition with_scan (v : vol) : vol :=
  let m := vo_cache v in with_cache (mkMount (vcbFreeExt m) (vcbFreeExtCnt m) (SET (hfs_flags m) HFS_DID_CONTIG_SCAN) (allocLimit m)) v.
Definition scanned (v v1 : vol) : Prop := v1 = v \/ v1 = with_scan v.

Lemma with_scan_flag v f : Z.land HFS_DID_CONTIG_SCAN f = 0 -> has_flag (with_scan v) f = has_flag v f.
Proof. intros E0. by apply isset_set. Qed.

Lemma with_scan_inv v : alloc_inv v -> alloc_inv (with_scan v).
Proof.
  intros [[G1 [L1 L2 L3 L4 L5 L6] [] G4 G5 G6] H2 H3 H4 H5 H6].
  pose proof (with_scan_flag v HFS_SUMMARY_TABLE eq_refl) as Ef.
  assert (is_sparse (vo_cache (with_scan v)) = is_sparse (vo_cache v)) as Es by (unfold is_sparse; cbn; exact (isset_set (hfs_flags (vo_cache v)) HFS_DID_CONTIG_SCAN HFS_HAS_SPARSE_DEVICE eq_refl)).
  split; [|done|exact H3|exact H4| |exact H6].
  - split; [done|by split|by split|done|intros Hf; apply G5; by rewrite <-Ef|]. destruct G6 as [C1 C2 C3]. split; [done|done|by rewrite Es].
  - rewrite Ef. exact H5.
Qed.

Lemma scanned_inv v v1 : scanned v v1 -> alloc_inv v -> alloc_inv v1.
Proof. intros [-> | ->]; [done|apply with_scan_inv]. Qed.
Lemma scanned_ready v v1 : scanned v v1 -> ready v -> ready v1.
Proof. by intros [-> | ->]; [|intros []; split]. Qed.

(** The bits of the volume do not change. *)
Lemma on_disk_same v v' bl :
  vo_bitmap v' = vo_bitmap v -> vo_reserved v' = vo_reserved v -> on_disk v bl -> on_disk v' bl.
Proof.
  intros Eb Er [H1 H2 H3 H4]. split; [done|..]; intros b Hb.
  - unfold vo_totalBlocks. rewrite Eb. by apply H2.
  - unfold bit_set. rewrite Eb. by apply H3.
  - assert (reserved_ranges (vbm_of v') = reserved_ranges (vbm_of v)) as -> by (unfold reserved_ranges; cbn; by rewrite Er). by apply H4.
Qed.

Section Extend.
Context {E : Type} `{!ExtentsTree E} `{!ExtentsTreeLaws E}.
Implicit Types (s : xstate E) (m : extent_map) (l : extend_state).

(** ** What has been added *)

(** From the file with the extents [exts0] in [s0] to that with [exts] in [s]: the blocks
    [new] are added, they were free, and nothing else has changed but the counts. *)
Record progress s0 m0 exts0 s m exts (new : list Z) : Prop := {
  pg_rep : file_rep s m exts;
  pg_blocks : file_blocks exts = file_blocks exts0 ++ new;
  pg_total : total exts = total exts0 + Z.of_nat (length new);
  pg_new : forall b, b ∈ new -> 0 < b /\ ~ bit_set (x_vol s0) b;
  pg_kept : bits_kept (x_vol s0) (x_vol s);
  pg_shape : same_shape (x_vol s0) (x_vol s);
  pg_others : same_others (fork_type (x_fcb s0)) (c_fileid (x_fcb s0)) m0 m;
  pg_fork : same_fork (x_fcb s0) (x_fcb s);
  pg_count : ff_blocks (x_fcb s) = ff_blocks (x_fcb s0) + Z.of_nat (length new);
  pg_cnode : u32 (c_blocks (x_fcb s)) = u32 (c_blocks (x_fcb s0) + Z.of_nat (length new));
}.

Lemma progress_refl s m exts : file_rep s m exts -> progress s m exts s m exts [].
Proof.
  intros Hf. split; try done; cbn [length Z.of_nat]; [by rewrite app_nil_r|lia|by intros b ?%not_elem_of_nil|lia|by rewrite Z.add_0_r].
Qed.

Lemma progress_trans s0 m0 e0 s1 m1 e1 s2 m2 e2 n1 n2 :
  progress s0 m0 e0 s1 m1 e1 n1 -> progress s1 m1 e1 s2 m2 e2 n2 -> progress s0 m0 e0 s2 m2 e2 (n1 ++ n2).
Proof.
  intros [A1 A2 A3 A4 A5 A6 A7 A8 A9 A10] [B1 B2 B3 B4 B5 B6 B7 B8 B9 B10]. destruct (same_fork_type _ _ A8) as [E1 E2]. rewrite E1, E2 in B7.
  split; rewrite ?length_app, ?Nat2Z.inj_add; try done.
  - by rewrite B2, A2, app_assoc.
  - lia.
  - intros b [Hb|Hb]%elem_of_app; [by apply A4|]. destruct (B4 b Hb) as [H0 Hn]. split; [done|]. intros Hs. apply Hn, A5; [lia|done].
  - by transitivity (x_vol s1).
  - by transitivity (x_vol s1).
  - by transitivity m1.
  - destruct A8 as (? & ? & ?), B8 as (? & ? & ?). split; [congruence|]. split; congruence.
  - lia.
  - rewrite B10, Z.add_assoc. rewrite <-(u32_add_l (c_blocks (x_fcb s1))), A10, u32_add_l. done.
Qed.

(** The volume has grown by something else. *)
Lemma progress_kept s0 m0 e0 s m e new s' :
  progress s0 m0 e0 s m e new -> et_holds (x_tree s') m -> x_fcb s' = x_fcb s -> same_shape (x_vol s) (x_vol s') -> bits_kept (x_vol s) (x_vol s') ->
  progress s0 m0 e0 s' m e new.
Proof.
  intros [[A0 A1 A1'] A2 A3 A4 A5 A6 A7 A8 A9 A10] Hh Ef Hs Hk. split; rewrite ?Ef; try done.
  - split; rewrite ?Ef; [done|done|by apply (on_disk_kept (x_vol s))].
  - by transitivity (x_vol s).
  - by transitivity (x_vol s).
Qed.

(** How an extension by at least [k] blocks ends. *)
Inductive extended s0 m0 exts0 (k : Z) (contig : bool) : Z -> xstate E -> Prop :=
| ExtendedTo err exts m new s :
    progress s0 m0 exts0 s m exts new -> alloc_inv (x_vol s) -> err = noErr \/ err = dskFulErr \/ et_full err ->
    (err = noErr -> k <= Z.of_nat (length new)) -> (err = noErr -> contig = true -> exists st, new = seqZ st (Z.of_nat (length new))) ->
    extended s0 m0 exts0 k contig err s
| ExtendedIO err exts m new s :
    progress s0 m0 exts0 s m exts new -> vol_ok (x_vol s) -> err <> noErr -> err ∈ bm_io (vo_bitmap (x_vol s0)) -> extended s0 m0 exts0 k contig err s
| ExtendedFailure err s :
    et_failure err -> vol_ok (x_vol s) -> same_shape (x_vol s0) (x_vol s) -> bits_kept (x_vol s0) (x_vol s) ->
    ff_blocks (x_fcb s0) <= ff_blocks (x_fcb s) <= UINT32_MAX -> extended s0 m0 exts0 k contig err s.

(** ** extend_account *)

Lemma extend_account_ok s n l m exts :
  let bs := blockSize (vo_geom (x_vol s)) in
  vol_ok (x_vol s) -> ready (x_vol s) -> file_rep s m exts -> 0 < n -> 0 <= ff_blocks (x_fcb s) -> 0 <= el_nextBlock l ->
  ff_blocks (x_fcb s) + n = total exts -> el_nextBlock l + n = total exts -> 0 < el_bytesToAdd l <= el_maximumBytes l -> el_maximumBytes l < 2 ^ 63 ->
  exists f, extend_account n l s =
      Some (if el_bytesToAdd l <? n * bs then set_el_amounts 0 (el_maximumBytes l) (total exts) l
            else set_el_amounts (el_bytesToAdd l - n * bs) (el_maximumBytes l - n * bs) (total exts) l, mkX (x_vol s) (x_tree s) f (x_dirty s)) /\
    same_extents (x_fcb s) f /\ ff_blocks f = total exts /\ u32 (c_blocks f) = u32 (c_blocks (x_fcb s) + n).
Proof.
  intros bs Hv Hrd Hf Hn Hff Hnb Eff Enb Hb Hmax. pose proof (file_total s m exts Hv Hf) as Ht. pose proof (li_max _ (vk_limits _ Hv)).
  pose proof (go_size _ (vk_geom _ Hv)) as Hbs. pose proof (rd_size _ Hrd) as Hbs2. fold bs in Hbs, Hbs2.
  assert (0 < n * bs < UINT32_MAX * 2 ^ 31 + 1) as Hp.
  { split; [by apply Z.mul_pos_pos|]. apply Z.lt_succ_r, Z.mul_le_mono_nonneg; lia. }
  unfold extend_account. unfold mbind at 1, X_bind at 1, get_volume. cbv zeta. fold bs.
  rewrite (s64_id (n * bs)) by (unfold INT64_MAX, UINT32_MAX in *; lia). rewrite Z.quot_mul by lia.
  exists (set_c_flag (SET (c_flag (x_fcb s)) C_MODIFIED) (set_c_blocks (u32 (c_blocks (x_fcb s) + n)) (set_ff_blocks (total exts) (x_fcb s)))).
  split; [|split; [done|split; [done|]]].
  - erewrite X_bind_eq by reflexivity. erewrite X_bind_eq by reflexivity. unfold mret, X_ret. do 2 f_equal.
    + rewrite u32_id by lia. rewrite Enb. destruct (Z.ltb_spec (el_bytesToAdd l) (n * bs)); [done|]. by rewrite !s64_id by (unfold INT64_MAX; lia).
    + cbn. rewrite (u32_id (ff_blocks (x_fcb s) + n)) by lia. by rewrite Eff.
  - cbn. pose proof (u32_add_l (c_blocks (x_fcb s) + n) 0) as E0. by rewrite !Z.add_0_r in E0.
Qed.

(** ** The turns *)

(** The loop has a file that is longer by [new], and wants [k] more blocks. *)
Record looping s0 m0 exts0 s m exts new (k : Z) (contig : bool) l : Prop := {
  lp_progress : progress s0 m0 exts0 s m exts new;
  lp_inv : alloc_inv (x_vol s);
  lp_err : el_err l = noErr;
  lp_end : at_end (fork_type (x_fcb s0)) (c_fileid (x_fcb s0)) exts (el_key l) (el_data l) (el_index l);
  lp_next : el_nextBlock l = total exts;
  lp_whole : ff_blocks (x_fcb s) = total exts;
  lp_bytes : el_bytesToAdd l = k * blockSize (vo_geom (x_vol s0));
  lp_maximum : el_bytesToAdd l <= el_maximumBytes l < 2 ^ 63;
  lp_contig : contig = true -> new = [];
}.

(** How often the loop may try again. *)
Definition retries (contig : bool) l : nat :=
  if contig then (if el_allowFlushTxns l then 0 else 1)
  else (if el_wantContig l then 1 else 0) + (if el_useMetaZone l then 0 else 1) + (if el_allowFlushTxns l then 0 else 1).

(** A turn tries again, gives [n] blocks, or is the last. *)
Inductive turn_outcome s0 m0 exts0 new (k : Z) (contig : bool) l : extend_state -> bool -> xstate E -> Prop :=
| TurnAgain m exts l' s' :
    looping s0 m0 exts0 s' m exts new k contig l' -> (retries contig l' < retries contig l)%nat -> turn_outcome s0 m0 exts0 new k contig l l' false s'
| TurnGave m exts st n l' s' :
    0 < n -> n < k -> looping s0 m0 exts0 s' m exts (new ++ seqZ st n) (k - n) contig l' -> retries contig l' = retries contig l ->
    turn_outcome s0 m0 exts0 new k contig l l' false s'
| TurnLast l' (stop : bool) s' :
    extended s0 m0 exts0 (Z.of_nat (length new) + k) contig (el_err l') s' -> stop = true \/ el_err l' <> noErr \/ el_bytesToAdd l' = 0 ->
    turn_outcome s0 m0 exts0 new k contig l l' stop s'.

(** The disk is full: the modes of the search change. *)
Lemma extend_full_ok (contig : bool) l :
  el_err l = dskFulErr ->
  match extend_full contig 0 l with
  | inl l' => el_err l' = noErr /\ (retries contig l' < retries contig l)%nat /\
      el_bytesToAdd l' = el_bytesToAdd l /\ el_maximumBytes l' = el_maximumBytes l /\ el_nextBlock l' = el_nextBlock l /\
      el_key l' = el_key l /\ el_data l' = el_data l /\ el_index l' = el_index l
  | inr (l', _) => el_err l' = dskFulErr
  end.
Proof.
  intros Ee. unfold extend_full, retries. cbv zeta. change (negb (0 =? 0)) with false. cbv iota. destruct contig, (el_wantContig l) eqn:E1, (el_useMetaZone l) eqn:E2, (el_allowFlushTxns l) eqn:E3;
    cbn; cbv beta iota zeta delta [negb]; repeat split; try done; cbn; rewrite ?E1, ?E2, ?E3; lia.
Qed.

Lemma looping_frame s0 m0 exts0 s m exts new k contig l s' l' :
  looping s0 m0 exts0 s m exts new k contig l -> x_fcb s' = x_fcb s -> et_holds (x_tree s') m -> grown (x_vol s) (x_vol s') ->
  el_err l' = noErr -> el_bytesToAdd l' = el_bytesToAdd l -> el_maximumBytes l' = el_maximumBytes l -> el_nextBlock l' = el_nextBlock l ->
  el_key l' = el_key l -> el_data l' = el_data l -> el_index l' = el_index l ->
  looping s0 m0 exts0 s' m exts new k contig l'.
Proof.
  intros [H1 H2 H3 H4 H5 H6 H7 H8 H9] Ef Hh [G1 G2 G3] E1 E2 E3 E4 E5 E6 E7. split; rewrite ?E2, ?E3, ?E4, ?E5, ?E6, ?E7, ?Ef; try done.
  by apply (progress_kept s0 m0 exts0 s).
Qed.

(** A run is given to the file. *)
Lemma given_kept v bl flags st n v' : alloc_inv v -> on_disk v bl -> given v flags st n v' -> bits_kept v v' /\ (forall b, b ∈ seqZ st n -> 0 < b /\ ~ bit_set v b).
Proof.
  intros Hi Hd Hg. split.
  - intros b Hb Hs. unfold bit_set in *. rewrite (gi_bits _ _ _ _ _ Hg) by done. by rewrite Hs, orb_true_r.
  - intros b Hb. pose proof (on_disk_given v bl flags st n v' Hi Hd Hg) as Hd'.
    pose proof (od_inside _ _ Hd' b ltac:(apply elem_of_app; by right)). split; [lia|]. apply elem_of_seqZ in Hb.
    pose proof (gi_free _ _ _ _ _ Hg b Hb) as Hu. rewrite used_bit in Hu. apply orb_false_iff in Hu as [Hu _]. unfold bit_set. by rewrite Hu.
Qed.

(** The bits of the file and of others are kept when a run is given and comes back. *)
Lemma given_kept_but v bl flags st n v1 v2 :
  alloc_inv v -> on_disk v bl -> given v flags st n v1 -> kept_but st n v1 v2 -> bits_kept v v2.
Proof.
  intros Hi Hd Hg Hk b Hb Hs. destruct (given_kept v bl flags st n v1 Hi Hd Hg) as [Hk1 Hnew]. apply Hk; [done| |by apply Hk1].
  intros Hr. by apply (Hnew b); [apply elem_of_seqZ|].
Qed.

(** A turn whose blocks are in the record and are counted. *)
Lemma turn_gave s0 m0 exts0 s m exts new k contig l s1 l1 flags st n v' :
  looping s0 m0 exts0 s m exts new k contig l -> 1 <= k -> ready (x_vol s0) ->
  given (x_vol s) flags st n v' -> (el_wantContig l = true -> k <= n) ->
  recorded (with_vol v' s) m exts st n (set_el_err noErr l) l1 s1 -> el_err l1 = noErr ->
  exists l2 s2 m2 exts2, extend_account n l1 s1 = Some (l2, s2) /\ el_err l2 = noErr /\ retries contig l2 = retries contig l /\
    progress s0 m0 exts0 s2 m2 exts2 (new ++ seqZ st n) /\ alloc_inv (x_vol s2) /\
    (k <= n /\ el_bytesToAdd l2 = 0 \/
     n < k /\ 0 < el_bytesToAdd l2 /\ (contig = false -> looping s0 m0 exts0 s2 m2 exts2 (new ++ seqZ st n) (k - n) contig l2)).
Proof.
  intros [H1 H2 H3 H4 H5 H6 H7 H8 H9] Hk Hrd Hg Hwant Hrec Herr.
  pose proof H1 as [P1 P2 P3 P4 P5 P6 P7 P8 P9 P10]. destruct (given_kept (x_vol s) _ flags st n v' H2 (fi_disk _ _ _ P1) Hg) as [Gk Gn].
  inversion Hrec as [exts' m' l' s' _ Ham Hend [R1 R1k R1s] R2 R3 R4 R5 R6 R7|l' s' [Hf|Hf] _ _ _ _ _|l' s' Hf _ _]; subst; cbn [x_vol x_fcb with_vol] in *.
  2:{ by rewrite Hf in Herr. } 2:{ by destruct (et_full_other _ Hf). } 2:{ by destruct (et_failure_other _ Hf). }
  pose proof (gi_count _ _ _ _ _ Hg) as Hn. assert (same_shape (x_vol s) (x_vol s1)) as Hs1 by (transitivity v'; [apply Hg|done]).
  assert (same_shape (x_vol s0) (x_vol s1)) as Hs01 by by transitivity (x_vol s).
  destruct Ham as (A1 & A2 & A3 & A4 & A5 & A6). cbn in A1, A2, A3, A4, A5, A6. destruct R7 as [B1 B2].
  pose proof (total_nonneg exts (fr_counts _ _ _ _ _ (fi_rep _ _ _ P1))) as Hex.
  assert (blockSize (vo_geom (x_vol s1)) = blockSize (vo_geom (x_vol s0))) as Ebs by by rewrite (ss_geom _ _ Hs01).
  pose proof (go_size _ (vk_geom _ (av_ok _ R1))) as Hbs. rewrite Ebs in Hbs. set (bs := blockSize (vo_geom (x_vol s0))) in *.
  destruct (extend_account_ok s1 n l1 m' exts' (av_ok _ R1) (ready_shape _ _ Hs01 Hrd) R2 Hn) as (f & E1 & F1 & F2 & F3); [lia|lia|lia|lia|rewrite A4, A5; split; [rewrite H7; apply Z.mul_pos_pos; lia|lia]|lia|].
  rewrite Ebs, A4, A5, H7 in E1. fold bs in E1.
  eexists _, (mkX (x_vol s1) (x_tree s1) f (x_dirty s1)), m', exts'. split; [exact E1|].
  assert (progress s0 m0 exts0 (mkX (x_vol s1) (x_tree s1) f (x_dirty s1)) m' exts' (new ++ seqZ st n)) as Hprog.
  { apply (progress_trans s0 m0 exts0 s m exts _ _ _ _ _ H1). split; cbn [x_vol x_fcb]; try done.
    - apply file_rep_fcb; [done|apply R2|done].
    - rewrite length_seqZ. lia.
    - by transitivity v'.
    - destruct F1 as [(C1 & C2 & C3) _], R6 as (D1 & D2 & D3). split; [congruence|]. split; congruence.
    - rewrite length_seqZ. lia.
    - rewrite length_seqZ, F3, B2. f_equal. lia. }
  destruct (Z.ltb_spec (k * bs) (n * bs)) as [Hlt|Hge].
  - split; [by cbn|]. split; [unfold retries; cbn; by rewrite A1, A2, A3|]. split; [done|]. split; [done|]. left. split; [|done]. nia.
  - split; [by cbn|]. split; [unfold retries; cbn; by rewrite A1, A2, A3|]. split; [done|]. split; [done|]. cbn [el_bytesToAdd set_el_amounts]. assert (n <= k) as Hnk by nia.
    destruct (Z.eq_dec n k) as [->|Hne]; [left; split; lia|]. right. split; [lia|]. split; [nia|]. intros Ec. split; cbn; try done.
    + destruct (same_fork_type _ _ P8) as [E2 E3]. by rewrite <-E2, <-E3.
    + fold bs. lia.
    + lia.
    + by intros ->.
Qed.

Lemma extended_stopped s0 m0 exts0 s m exts new k contig l err s' :
  looping s0 m0 exts0 s m exts new k contig l -> err = dskFulErr \/ et_full err -> x_fcb s' = x_fcb s -> et_holds (x_tree s') m ->
  alloc_inv (x_vol s') -> same_shape (x_vol s) (x_vol s') -> bits_kept (x_vol s) (x_vol s') ->
  extended s0 m0 exts0 (Z.of_nat (length new) + k) contig err s'.
Proof.
  intros [H1 _ _ _ _ _ _ _ _] Herr Ef Hh Hi Hs Hk. assert (err <> noErr) as Hne by (destruct Herr as [->|Hf]; [done|by apply et_full_other in Hf as [? _]]).
  apply (ExtendedTo s0 m0 exts0 _ contig err exts m new s'); [by apply (progress_kept s0 m0 exts0 s)|done|by right|done|done].
Qed.

Lemma extend_turn_ok a s0 m0 exts0 s m exts new k l :
  let contig := ISSET (ea_flags a) kEFContigMask in
  looping s0 m0 exts0 s m exts new k contig l -> 1 <= k -> ready (x_vol s0) -> 0 <= ea_blockHint a -> ea_fastdev a = 0 \/ ea_fastdev a = HFS_ALLOC_FAST_DEV ->
  exists l' stop s', extend_turn a l s = Some ((l', stop), s') /\ turn_outcome s0 m0 exts0 new k contig l l' stop s'.
Proof.
  intros contig Hl Hk Hrd Hhint Hfd. pose proof Hl as [H1 H2 H3 H4 H5 H6 H7 H8 H9]. pose proof H1 as [P1 P2 P3 P4 P5 P6 P7 P8 P9 P10].
  destruct (same_fork_type _ _ P8) as [Eft Efid]. pose proof H4 as (P & c & Hch & Ek & Ed & Ei). destruct (last_extent c (co_size _ _ _ _ Hch)) as (e & Ee & _).
  pose proof (ready_shape _ _ P6 Hrd) as Hrds. unfold extend_turn. cbv zeta. fold contig.
  erewrite X_bind_eq by (unfold x_lift; rewrite Ed, Ei, Ee; reflexivity).
  set (start := if negb (ea_blockHint a =? 0) then _ else _).
  assert (0 <= start) as Hst by (unfold start; destruct (ea_blockHint a =? 0); [apply u32_bound|done]).
  destruct (extend_allocate_ok a s l start k H2 Hrds Hst Hfd Hk) as (r & v' & E1 & Hal); [by rewrite H7, (ss_geom _ _ P6)|lia|].
  rewrite (X_bind_eq _ _ _ _ _ E1). destruct Hal as [flags st n v' Hg Hwant|v' Hgr|err v' Hne Hnd Hio Hng].
  - (* a run *)
    change (noErr =? dskFulErr) with false. cbn match. cbn [el_err set_el_err]. change (negb (noErr =? noErr)) with false. cbn match.
    pose proof (gi_count _ _ _ _ _ Hg) as Hn. pose proof (on_disk_given _ _ _ _ _ _ H2 (fi_disk _ _ _ P1) Hg) as Hd'.
    destruct (given_kept (x_vol s) _ flags st n v' H2 (fi_disk _ _ _ P1) Hg) as [Gk Gn].
    destruct (extend_record_ok a (with_vol v' s) m exts st n (set_el_err noErr l) e) as (l1 & s1 & E2 & Hrec); cbn [x_vol x_fcb with_vol].
    + apply Hg.
    + destruct P1 as [F1 F2 F3]. split; [done|done|]. apply (on_disk_kept (x_vol s)); [done|apply Hg|done].
    + done.
    + done.
    + cbn. by rewrite Eft, Efid.
    + done.
    + cbn. by rewrite Ed, Ei.
    + fold start in E2. rewrite (X_bind_eq _ _ _ _ _ E2).
      destruct (Z.eqb_spec (el_err l1) noErr) as [Eerr|Hne]; cbn [negb].
      * assert (el_wantContig l = true -> k <= n) as Hwk.
        { intros Ew. specialize (Hwant Ew). rewrite H7, (ss_geom _ _ P6) in Hwant. pose proof (go_size _ (vk_geom _ (av_ok _ H2))) as Hbs.
          rewrite (ss_geom _ _ P6) in Hbs. nia. }
        destruct (turn_gave s0 m0 exts0 s m exts new k contig l s1 l1 flags st n v' Hl Hk Hrd Hg Hwk Hrec Eerr) as (l2 & s2 & m2 & exts2 & E3 & Ee2 & Er2 & Hp2 & Hi2 & Hcase).
        rewrite (X_bind_eq _ _ _ _ _ E3).
        assert (forall err, err = noErr \/ err = dskFulErr -> (err = noErr -> k <= n) -> extended s0 m0 exts0 (Z.of_nat (length new) + k) contig err s2) as Hlast.
        { intros err Herr Hkn. apply (ExtendedTo s0 m0 exts0 _ contig err exts2 m2 (new ++ seqZ st n) s2); [done|done|tauto| |].
          - intros He. specialize (Hkn He). rewrite length_app, length_seqZ. lia.
          - intros _ Hc. rewrite (H9 Hc). exists st. cbn [app]. by rewrite length_seqZ, Z2Nat.id by lia. }
        destruct contig eqn:Econ.
        -- eexists _, true, s2. split; [reflexivity|]. destruct Hcase as [[Hkn Ez]|(Hkn & Hpos & _)].
           ++ rewrite Ez. apply TurnLast; [|by left]. cbn. rewrite Ee2. apply Hlast; [by left|done].
           ++ destruct (Z.eqb_spec (el_bytesToAdd l2) 0); [lia|]. cbn [negb]. apply TurnLast; [|by left]. cbn. apply Hlast; [by right|done].
        -- eexists _, false, s2. split; [reflexivity|]. destruct Hcase as [[Hkn Ez]|(Hkn & Hpos & Hloop)].
           ++ apply TurnLast; [|by right; right]. rewrite Ee2. apply Hlast; [by left|done].
           ++ apply (TurnGave s0 m0 exts0 new k false l m2 exts2 st n); [done|done|by apply Hloop|done].
      * eexists _, true, s1. split; [reflexivity|]. apply TurnLast; [|by left].
        inversion Hrec as [exts' m' l' s' Eno|l' s' Hf R1 R2 R3 R4 R5|l' s' Hf Hng Ef1]; subst; cbn [x_vol x_fcb with_vol] in *; [done| |].
        -- apply (extended_stopped s0 m0 exts0 s m exts new k contig l); try done; [apply R4|transitivity v'; [apply Hg|done]|].
           by apply (given_kept_but (x_vol s) (file_blocks exts) flags st n v'); [|apply P1|..].
        -- destruct Hng as [N1 N2 N3]. apply ExtendedFailure; [done|done| | |].
           ++ transitivity (x_vol s); [done|]. transitivity v'; [apply Hg|done].
           ++ transitivity (x_vol s); [done|]. transitivity v'; done.
           ++ rewrite Ef1. pose proof (fr_total _ _ _ _ _ (fi_rep _ _ _ P1)). lia.
  - (* no blocks *)
    rewrite Z.eqb_refl. pose proof (extend_full_ok contig (set_el_err dskFulErr l) eq_refl) as Hfull.
    destruct (extend_full contig 0 (set_el_err dskFulErr l)) as [l'|[l' stop]].
    + destruct Hfull as (F1 & F2 & F3 & F4 & F5 & F6 & F7 & F8). exists l', false, (with_vol v' s). split; [done|].
      apply (TurnAgain s0 m0 exts0 new k contig l m exts); [|done].
      apply (looping_frame s0 m0 exts0 s m exts new k contig l); try done. apply P1.
    + assert (turn_outcome s0 m0 exts0 new k contig l l' stop (with_vol v' s)) as Hlast.
      { apply TurnLast; [|right; left; by rewrite Hfull]. rewrite Hfull. destruct Hgr as [G1 G2 G3].
        apply (extended_stopped s0 m0 exts0 s m exts new k contig l); try done; [by left|apply P1]. }
      exists l', stop, (with_vol v' s). split; [|done]. destruct stop; [done|]. rewrite Hfull. done.
  - (* an error of the block I/O *)
    destruct (Z.eqb_spec err dskFulErr); [done|]. cbn match. cbn [el_err set_el_err]. destruct (Z.eqb_spec err noErr); [done|]. cbn [negb].
    eexists _, false, (with_vol v' s). split; [reflexivity|]. apply TurnLast; [|by right; left]. cbn [el_err set_el_err]. destruct Hng as [N1 N2 N3].
    apply (ExtendedIO s0 m0 exts0 _ contig err exts m new); [by apply (progress_kept s0 m0 exts0 s); [|apply P1|..]|done|done|by apply (ss_io _ _ P6)].
Qed.

Lemma extend_loop_ok a s0 m0 exts0 fuel : forall s m exts new k l,
  let contig := ISSET (ea_flags a) kEFContigMask in
  looping s0 m0 exts0 s m exts new k contig l -> 1 <= k -> ready (x_vol s0) -> 0 <= ea_blockHint a -> ea_fastdev a = 0 \/ ea_fastdev a = HFS_ALLOC_FAST_DEV ->
  (retries contig l + Z.to_nat k < fuel)%nat ->
  exists l' s', extend_loop a l fuel s = Some (l', s') /\ extended s0 m0 exts0 (Z.of_nat (length new) + k) contig (el_err l') s'.
Proof.
  induction fuel as [|fuel IH]; intros s m exts new k l contig Hl Hk Hrd Hhint Hfd Hfuel; [lia|]. cbn [extend_loop].
  destruct (extend_turn_ok a s0 m0 exts0 s m exts new k l Hl Hk Hrd Hhint Hfd) as (l' & stop & s' & E1 & Ho).
  rewrite (X_bind_eq _ _ _ _ _ E1). fold contig in Ho. destruct Ho as [m' exts' l' s' Hl' Hlt|m' exts' st n l' s' Hn Hnk Hl' Eq|l' stop s' Hext Hwhy].
  - rewrite (lp_err _ _ _ _ _ _ _ _ _ _ Hl'). change (noErr =? noErr) with true.
    pose proof (lp_bytes _ _ _ _ _ _ _ _ _ _ Hl') as Eb. pose proof (go_size _ (vk_geom _ (av_ok _ (lp_inv _ _ _ _ _ _ _ _ _ _ Hl')))) as Hbs.
    rewrite (ss_geom _ _ (pg_shape _ _ _ _ _ _ _ (lp_progress _ _ _ _ _ _ _ _ _ _ Hl'))) in Hbs.
    destruct (Z.eqb_spec (el_bytesToAdd l') 0); [nia|]. cbn [andb negb]. apply (IH s' m' exts' new k l'); try done. fold contig. lia.
  - rewrite (lp_err _ _ _ _ _ _ _ _ _ _ Hl'). change (noErr =? noErr) with true.
    pose proof (lp_bytes _ _ _ _ _ _ _ _ _ _ Hl') as Eb. pose proof (go_size _ (vk_geom _ (av_ok _ (lp_inv _ _ _ _ _ _ _ _ _ _ Hl')))) as Hbs.
    rewrite (ss_geom _ _ (pg_shape _ _ _ _ _ _ _ (lp_progress _ _ _ _ _ _ _ _ _ _ Hl'))) in Hbs.
    destruct (Z.eqb_spec (el_bytesToAdd l') 0); [nia|]. cbn [andb negb].
    destruct (IH s' m' exts' (new ++ seqZ st n) (k - n) l') as (l2 & s2 & E2 & Ho); try done; [lia|fold contig; lia|].
    exists l2, s2. split; [done|]. rewrite length_app, length_seqZ in Ho. by replace (Z.of_nat (length new) + k) with (Z.of_nat (length new + Z.to_nat n) + (k - n)) by lia.
  - exists l', s'. split; [|done]. destruct stop; [done|]. destruct Hwhy as [?|[Hne|Ez]]; [done| |].
    + by destruct (Z.eqb_spec (el_err l') noErr).
    + rewrite Ez. by rewrite andb_false_r.
Qed.

(** ** The end *)

Lemma extended_frame s0 m0 exts0 k contig err s s' :
  extended s0 m0 exts0 k contig err s -> x_fcb s' = x_fcb s -> (forall m, et_holds (x_tree s) m -> et_holds (x_tree s') m) ->
  same_shape (x_vol s) (x_vol s') -> bits_kept (x_vol s) (x_vol s') -> (vol_ok (x_vol s) -> vol_ok (x_vol s')) -> (alloc_inv (x_vol s) -> alloc_inv (x_vol s')) ->
  extended s0 m0 exts0 k contig err s'.
Proof.
  intros Ho Ef Hh Hs Hk Hv Hi. destruct Ho as [err exts m new s H1 H2 H3 H4 H5|err exts m new s H1 H2 H3 H4|err s H1 H2 H3 H4 H5].
  - apply (ExtendedTo s0 m0 exts0 k contig err exts m new); auto. apply (progress_kept s0 m0 exts0 s); [done|apply Hh, H1|done..].
  - apply (ExtendedIO s0 m0 exts0 k contig err exts m new); auto. apply (progress_kept s0 m0 exts0 s); [done|apply Hh, H1|done..].
  - apply ExtendedFailure; [done|auto|by transitivity (x_vol s)|by transitivity (x_vol s)|by rewrite Ef].
Qed.

(** Of the state before, the volume and the control block count. *)
Lemma extended_start s0 s1 m0 exts0 k contig err s :
  x_vol s1 = x_vol s0 -> x_fcb s1 = x_fcb s0 -> extended s0 m0 exts0 k contig err s -> extended s1 m0 exts0 k contig err s.
Proof.
  intros Ev Ef Ho. assert (forall s m exts new, progress s0 m0 exts0 s m exts new -> progress s1 m0 exts0 s m exts new) as Hp.
  { intros s' m exts new []. by split; rewrite ?Ev, ?Ef. }
  destruct Ho as [err exts m new s H1 H2 H3 H4 H5|err exts m new s H1 H2 H3 H4|err s H1 H2 H3 H4 H5].
  - apply (ExtendedTo s1 m0 exts0 k contig err exts m new); auto.
  - apply (ExtendedIO s1 m0 exts0 k contig err exts m new); [auto|done|done|by rewrite Ev].
  - apply ExtendedFailure; [done|done|by rewrite Ev|by rewrite Ev|by rewrite Ef].
Qed.

(** The volume is whole and the count of blocks has not gone back. *)
Lemma extended_bounds s0 m0 exts0 k contig err s :
  extended s0 m0 exts0 k contig err s -> ff_blocks (x_fcb s0) = total exts0 ->
  vol_ok (x_vol s) /\ same_shape (x_vol s0) (x_vol s) /\ ff_blocks (x_fcb s0) <= ff_blocks (x_fcb s) <= UINT32_MAX.
Proof.
  intros Ho Eff. destruct Ho as [err exts m new s H1 H2 H3 H4 H5|err exts m new s H1 H2 H3 H4|err s H1 H2 H3 H4 H5].
  - pose proof (fr_total _ _ _ _ _ (fi_rep _ _ _ (pg_rep _ _ _ _ _ _ _ H1))). destruct H1. split; [apply H2|]. split; [done|lia].
  - pose proof (fr_total _ _ _ _ _ (fi_rep _ _ _ (pg_rep _ _ _ _ _ _ _ H1))). destruct H1. split; [done|]. split; [done|lia].
  - done.
Qed.

(** The error and what was added, from the count of blocks before. *)
Definition added (prevblocks : Z) s : Z :=
  if prevblocks <? ff_blocks (x_fcb s) then (ff_blocks (x_fcb s) - prevblocks) * blockSize (vo_geom (x_vol s)) else 0.

Lemma leave_metadata_zone_ok s :
  vol_ok (x_vol s) -> exists c d, leave_metadata_zone s = Some (tt, mkX (with_counts c (x_vol s)) (x_tree s) (x_fcb s) d) /\ kept_counts (vo_counts (x_vol s)) c.
Proof.
  intros Hv. unfold leave_metadata_zone. unfold mbind at 1, X_bind at 1, get_volume. cbv zeta.
  destruct (has_flag (x_vol s) HFS_METADATA_ZONE && _ && _); cbn [when_x].
  - destruct (counts_step_next (u32 (hfs_metazone_end (vo_geom (x_vol s)) + 1)) ltac:(apply u32_bound) (x_vol s)) as (c & E1 & _ & Hk).
    exists c, true. split; [|done]. erewrite X_bind_eq by (unfold on_vol, mbind, option_bind; rewrite E1; reflexivity). done.
  - exists (vo_counts (x_vol s)), (x_dirty s). split; [by destruct s as [[]]|done].
Qed.

Lemma extend_exit_ok s0 m0 exts0 k contig err s prev flush :
  extended s0 m0 exts0 k contig err s -> 0 <= prev -> ff_blocks (x_fcb s) <= UINT32_MAX -> blockSize (vo_geom (x_vol s)) < 2 ^ 31 -> vol_ok (x_vol s) ->
  exists s', extend_exit err prev flush s = Some ((err, added prev s'), s') /\ extended s0 m0 exts0 k contig err s'.
Proof.
  intros Ho Hp Hff Hbs Hv. destruct (leave_metadata_zone_ok s Hv) as (c & d & E1 & Hk). pose proof (go_size _ (vk_geom _ Hv)) as Hb0.
  set (s1 := mkX (with_counts c (x_vol s)) (x_tree s) (x_fcb s) d) in *.
  assert (forall e d, (forall m, et_holds (x_tree s1) m -> et_holds e m) -> extended s0 m0 exts0 k contig err (mkX (x_vol s1) e (x_fcb s1) d)) as Hext.
  { intros e d' He. apply (extended_frame s0 m0 exts0 k contig err s); cbn [x_vol x_fcb x_tree s1]; [done|done|exact He|by split|by intros b| |apply alloc_inv_counts].
    intros [? [] [] ? ? ?]. by split; [|split|split|..]. }
  assert (forall e d, (if prev <? ff_blocks (x_fcb s1) then s64 (u32 (ff_blocks (x_fcb s1) - prev) * blockSize (vo_geom (x_vol s1))) else 0) =
    added prev (mkX (x_vol s1) e (x_fcb s1) d)) as Eadd.
  { intros e d'. unfold added. cbn [x_fcb x_vol s1 vo_geom with_counts]. destruct (Z.ltb_spec prev (ff_blocks (x_fcb s))); [|done].
    rewrite u32_id by lia. assert (0 <= (ff_blocks (x_fcb s) - prev) * blockSize (vo_geom (x_vol s)) <= UINT32_MAX * 2 ^ 31).
    { split; [apply Z.mul_nonneg_nonneg; lia|apply Z.mul_le_mono_nonneg; lia]. }
    apply s64_id. unfold INT64_MAX, UINT32_MAX in *. lia. }
  unfold extend_exit. rewrite (X_bind_eq _ _ _ _ _ E1). erewrite X_bind_eq by reflexivity. erewrite X_bind_eq by reflexivity. cbv zeta.
  destruct flush; cbn [when_x].
  - destruct (FlushExtentFile_eq s1) as (err2 & e & d2 & E2 & He). exists (mkX (x_vol s1) e (x_fcb s1) d2). split; [|by apply Hext].
    erewrite X_bind_eq by (rewrite (X_bind_eq _ _ _ _ _ E2); reflexivity). by rewrite (Eadd e d2).
  - exists s1. split; [|apply (Hext (x_tree s1) d); done]. by rewrite (Eadd (x_tree s1) d).
Qed.

(** ** ExtendFileC *)

Lemma want_contig_ok s flags :
  exists want v1, want_contig flags (ISSET flags kEFContigMask) s = Some (want, with_vol v1 s) /\ scanned (x_vol s) v1.
Proof.
  assert (with_vol (x_vol s) s = s) as Es by by destruct s. unfold want_contig. erewrite X_bind_eq by reflexivity. erewrite X_bind_eq by reflexivity.
  destruct (has_flag (x_vol s) HFS_HAS_SPARSE_DEVICE && _ && _); [|exists true, (x_vol s); rewrite Es; by split; [|left]].
  change hfs_isrbtree_active with false. cbn match. destruct (negb (has_flag (x_vol s) HFS_DID_CONTIG_SCAN)).
  - exists true, (with_scan (x_vol s)). by split; [|right].
  - exists false, (x_vol s). rewrite Es. by split; [|left].
Qed.

Lemma should_pin_flag v f : let x := if should_pin_blocks v f then HFS_ALLOC_FAST_DEV else 0 in x = 0 \/ x = HFS_ALLOC_FAST_DEV.
Proof. cbv zeta. destruct (should_pin_blocks v f); auto. Qed.

(** The file on a volume with the same bits. *)
Lemma file_rep_vol s m exts v e : file_rep s m exts -> et_holds e m -> scanned (x_vol s) v -> file_rep (mkX v e (x_fcb s) (x_dirty s)) m exts.
Proof. intros [H1 H2 H3] He Hs. split; cbn; [done|done|]. by destruct Hs as [-> | ->]; [|apply (on_disk_same (x_vol s))]. Qed.

Lemma extend_from_ok s m exts k maximum hint flags prev :
  let bs := blockSize (vo_geom (x_vol s)) in
  alloc_inv (x_vol s) -> ready (x_vol s) -> file_rep s m exts -> ff_blocks (x_fcb s) = total exts ->
  1 <= k -> total exts + k <= UINT32_MAX -> (total exts + k) * bs < 2 ^ 63 -> k * bs <= maximum < 2 ^ 63 -> 0 <= hint -> 0 <= prev ->
  exists err s' v1, extend_from (k * bs) maximum hint flags prev s = Some ((err, added prev s'), s') /\ scanned (x_vol s) v1 /\
    extended (with_vol v1 s) m exts k (ISSET flags kEFContigMask) err s'.
Proof.
  intros bs Hi Hrd Hf Eff Hk Hu Hb Hmax Hhint Hprev. pose proof (go_size _ (vk_geom _ (av_ok _ Hi))) as Hbs. pose proof (rd_size _ Hrd) as Hbs2. fold bs in Hbs, Hbs2.
  pose proof (total_nonneg _ (fr_counts _ _ _ _ _ (fi_rep _ _ _ Hf))) as Hex. assert (0 < k * bs) as Hkb by (apply Z.mul_pos_pos; lia).
  assert (0 <= total exts * bs) as Htb by (apply Z.mul_nonneg_nonneg; lia).
  assert (with_vol (x_vol s) s = s) as Es by by destruct s.
  unfold extend_from. erewrite X_bind_eq by reflexivity. erewrite X_bind_eq by reflexivity. cbv zeta. fold bs. rewrite Eff.
  rewrite (s64_id (total exts * bs)) by (unfold INT64_MAX; lia). rewrite s64_id by (unfold INT64_MAX; lia).
  destruct (SearchExtentFile_ok s m exts (total exts * bs + k * bs - 1) Hf) as (out & e0 & E1 & Hh0 & Hl). fold bs in Hl.
  assert (u32 (Z.quot (total exts * bs + k * bs - 1) bs) = total exts + k - 1) as Efb.
  { rewrite Z.quot_div_nonneg by lia. replace (total exts * bs + k * bs - 1) with ((total exts + k - 1) * bs + (bs - 1)) by ring.
    rewrite Z.div_add_l, Z.div_small by lia. rewrite Z.add_0_r, u32_id; lia. }
  rewrite Efb in Hl. rewrite (X_bind_eq _ _ _ _ _ E1). clear E1 Efb.
  inversion Hl as [P A e B Q hint' Hch Hin Eo|P c hint' Hch Hpast Eo|out' Hfail Eo].
  { exfalso. pose proof (co_split _ _ _ _ Hch) as Ee. assert (exts = (P ++ A) ++ e :: B ++ Q) as Ee2 by (rewrite Ee, <-!app_assoc; done).
    pose proof (fr_counts _ _ _ _ _ (fi_rep _ _ _ Hf)) as Hc. rewrite Ee2 in Hc. apply counts_ok_app in Hc as [_ [_ HcB]%Forall_cons]. pose proof (total_nonneg _ HcB).
    assert (total exts = total (P ++ A) + blockCount e + total (B ++ Q)) as Et by (rewrite Ee2, (total_app (P ++ A)); cbn [total]; lia). lia. }
  2:{ destruct (et_failure_other _ Hfail) as (N1 & _ & _ & N2 & _). subst out'. destruct (Z.eqb_spec (fx_err out) noErr); [done|]. destruct (Z.eqb_spec (fx_err out) fxRangeErr); [done|]. cbn [negb].
      assert (extended (with_vol (x_vol s) s) m exts k (ISSET flags kEFContigMask) (fx_err out) (with_tree e0 s)) as Hext.
      { pose proof (fr_total _ _ _ _ _ (fi_rep _ _ _ Hf)). apply ExtendedFailure; cbn; [done|apply Hi|done|by intros b|lia]. }
      destruct (extend_exit_ok _ m exts k _ (fx_err out) (with_tree e0 s) prev false Hext Hprev) as (s' & E2 & Ho); cbn; [lia|done|apply Hi|].
      exists (fx_err out), s', (x_vol s). split; [exact E2|]. split; [by left|done]. }
  cbn [fx_err fx_ending fx_key fx_data fx_index fx_hint]. change (fxRangeErr =? noErr) with false. change (negb (fxRangeErr =? fxRangeErr)) with false. cbn match.
  rewrite Z.sub_diag. change (u32 0 * bs) with 0. change (negb (s64 0 =? 0)) with false. cbn [when_x]. cbv iota. erewrite X_bind_eq by reflexivity.
  destruct (want_contig_ok (with_tree e0 s) flags) as (want & v1 & E2 & Hscan). cbn [x_vol with_tree] in Hscan.
  rewrite (X_bind_eq _ _ _ _ _ E2). erewrite X_bind_eq by reflexivity. erewrite X_bind_eq by reflexivity. cbn [x_vol x_fcb with_vol with_tree].
  set (fd := if should_pin_blocks v1 (x_fcb s) then _ else _). set (s1 := with_vol v1 (with_tree e0 s)).
  set (a := mkExtendArgs hint flags fd).
  assert (file_rep s1 m exts) as Hf1 by exact (file_rep_vol s m exts v1 e0 Hf Hh0 Hscan). pose proof (scanned_inv _ _ Hscan Hi) as Hi1. pose proof (scanned_ready _ _ Hscan Hrd) as Hrd1.
  assert (vo_geom v1 = vo_geom (x_vol s)) as Eg by by destruct Hscan as [-> | ->].
  set (l := mkExtend noErr want _ _ _ _ _ _ _ _ _ _).
  assert (looping s1 m exts s1 m exts [] k (ISSET (ea_flags a) kEFContigMask) l) as Hloop.
  { split; try done.
    - by apply progress_refl.
    - by exists P, c.
    - cbn [x_vol s1 with_vol]. by rewrite Eg. }
  destruct (extend_loop_ok a s1 m exts (extend_fuel (k * bs) bs) s1 m exts [] k l Hloop Hk Hrd1 Hhint) as (l' & s2 & E3 & Ho).
  { apply (should_pin_flag v1 (x_fcb s)). }
  { unfold extend_fuel. rewrite howmany_mul by done. unfold retries. destruct (ISSET (ea_flags a) kEFContigMask), want, (el_useMetaZone l); cbn; lia. }
  unfold extend_fuel in E3 |- *. rewrite (X_bind_eq _ _ _ _ _ E3). cbn [length Z.of_nat Z.add ea_flags a] in Ho.
  destruct (extended_bounds s1 m exts k _ _ s2 Ho Eff) as (Hv2 & Hs2 & Hf2).
  destruct (extend_exit_ok s1 m exts k _ _ s2 prev (el_needsFlush l') Ho Hprev ltac:(lia)) as (s' & E4 & Ho2); [by rewrite (ss_geom _ _ Hs2); cbn [x_vol s1 with_vol]; rewrite Eg|done|].
  exists (el_err l'), s', v1. split; [exact E4|]. split; [done|]. by apply (extended_start s1).
Qed.

Lemma maximum_bytes_ok clump bs b flags :
  0 < bs < 2 ^ 31 -> clump < 2 ^ 31 -> 0 <= b < 2 ^ 63 -> b <= maximum_bytes clump bs b flags < 2 ^ 63.
Proof.
  intros Hbs Hc Hb. unfold maximum_bytes. destruct ((s32 bs <? clump) && (b <? HFS_MAX_DEFERED_ALLOC) && negb (ISSET flags kEFNoClumpMask)) eqn:E0; [|lia].
  apply andb_true_iff in E0 as [[E1 E2]%andb_true_iff _]. apply Z.ltb_lt in E1, E2. rewrite s32_id in E1 by lia. unfold HFS_MAX_DEFERED_ALLOC in E2.
  destruct (howmany_ok b clump ltac:(lia) ltac:(lia)) as [_ Hh]. rewrite s64_id by (unfold INT64_MAX; lia). lia.
Qed.

(** The blocks of the file that were only promised are given back first. *)
Definition returned s : xstate E :=
  let f := x_fcb s in let loaned := ff_unallocblocks f in let c := vo_counts (x_vol s) in
  if 0 <? loaned then
    mkX (with_counts (mkCounts (freeBlocks c) (tentativeBlocks c) (lockedBlocks c) (u32 (loanedBlocks c - loaned))
           (reserveBlocks c) (nextAllocation c) (sparseAllocation c) (hfs_freed_block_count c)) (x_vol s))
      (x_tree s) (set_ff_unallocblocks 0 (set_ff_blocks (u32 (ff_blocks f - loaned)) (set_c_blocks (u32 (c_blocks f - loaned)) f))) (x_dirty s)
  else s.

Lemma returned_ok s m exts :
  alloc_inv (x_vol s) -> ready (x_vol s) -> file_rep s m exts -> 0 <= ff_unallocblocks (x_fcb s) -> ff_blocks (x_fcb s) = total exts + ff_unallocblocks (x_fcb s) ->
  alloc_inv (x_vol (returned s)) /\ ready (x_vol (returned s)) /\ file_rep (returned s) m exts /\ ff_blocks (x_fcb (returned s)) = total exts /\
  vo_geom (x_vol (returned s)) = vo_geom (x_vol s).
Proof.
  intros Hi Hr Hf H0 Eff. unfold returned. cbv zeta. destruct (Z.ltb_spec 0 (ff_unallocblocks (x_fcb s))) as [Hl|]; [|by replace (total exts) with (ff_blocks (x_fcb s)) by lia].
  pose proof (fr_total _ _ _ _ _ (fi_rep _ _ _ Hf)). pose proof (total_nonneg _ (fr_counts _ _ _ _ _ (fi_rep _ _ _ Hf))).
  cbn [x_vol x_fcb x_tree]. split; [by apply alloc_inv_counts|]. split; [by destruct Hr|]. split; [|split; [cbn; rewrite u32_id; lia|done]].
  destruct Hf as [F1 F2 F3]. split; cbn; [done|done|by apply (on_disk_same (x_vol s))].
Qed.

Lemma returned_eq s {A} (k : X E A) :
  (_ ← when_x (0 <? ff_unallocblocks (x_fcb s)) (give_back_loan (ff_unallocblocks (x_fcb s))); k) s = k (returned s).
Proof. unfold returned. cbv zeta. by destruct (0 <? ff_unallocblocks (x_fcb s)). Qed.

End Extend.
