(* ===== verification/FileExample.v ===== *)
(** * A file on which the theorems about file extents apply

    A file of nine extents on the volume of AllocExample, eight in its control block and
    one in the extents file, which is the map of [Finite].  The witnesses of the theorems
    about searching, cutting and extending a file. *)

From S2P Require Import Prelude HfsFormat RangeList FreeExtCache Bitmap BitmapBits BitmapFree JournalTrim Volume VolumeOps BlockSearch VolumeProps AllocInv AllocProps FreeProps AllocSafety AllocExample ExtentsFile FileExtents ForkRep FileSearchProps FileStepProps FileTruncateProps FileHeadProps FileExtendSteps FileExtendProps.
Import Finite.

Definition ex_first : list HFSPlusExtentDescriptor :=
  [mkExtent 3 2; mkExtent 6 2; mkExtent 9 2; mkExtent 12 2; mkExtent 15 2; mkExtent 18 2; mkExtent 21 2; mkExtent 24 2].
Definition ex_exts : list HFSPlusExtentDescriptor := ex_first ++ [mkExtent 50 3].
Definition ex_map : extent_map := <[(20, kDataForkType, 16) := pad [mkExtent 50 3]]> ∅.
Definition ex_fcb : fcb := mkFcb ex_first 19 0 (19 * 4096) 19 0 false 20 false (Some false) 0.
Definition ex_file : xstate extent_map := mkX (with_counts (mkCounts 160 0 0 0 0 0 0 0) ex_vol) ex_map ex_fcb false.

Lemma ex_file_inv : alloc_inv (x_vol ex_file).
Proof. apply alloc_inv_counts, ex_vol_inv. Qed.

Lemma ex_ready : ready (x_vol ex_file).
Proof. split; try done. apply not_elem_of_nil. Qed.

Lemma ex_file_rep : file_rep ex_file ex_map ex_exts.
Proof.
  assert (counts_ok ex_first) as Hc by (repeat (apply Forall_cons; split; [done|]); by apply Forall_nil).
  split.
  - done.
  - apply (rep_new kDataForkType 20 ∅ ex_first ex_first [] ex_first (mkExtent 50 3)).
    + apply (fork_rep_resident ∅ kDataForkType 20 ex_first); [intros x; apply lookup_empty|done|done|cbn; lia].
    + by apply (chunk_first ex_first).
    + done.
    + done.
    + done.
  - split.
    + apply (bool_decide_unpack _). vm_compute. exact I.
    + apply Forall_forall, (bool_decide_unpack _). vm_compute. exact I.
    + apply Forall_forall. repeat (apply Forall_cons; split; [vm_compute; reflexivity|]). by apply Forall_nil.
    + apply Forall_forall. repeat (apply Forall_cons; split; [vm_compute; reflexivity|]). by apply Forall_nil.
Qed.

Lemma SearchExtentFile_correct_witness :
  file_rep ex_file ex_map ex_exts /\
  exists out e, SearchExtentFile 70000 ex_file = Some (out, with_tree e ex_file) /\ et_holds e ex_map /\ located ex_exts kDataForkType 20 17 out.
Proof. split; [exact ex_file_rep|]. exact (SearchExtentFile_correct ex_file ex_map ex_exts 70000 ex_file_rep). Defined.

Lemma MapFileBlockC_correct_witness :
  exists out e, MapFileBlockC 512 8192 70000 true ex_file = Some (out, with_tree e ex_file) /\ et_holds e ex_map /\ mapped ex_file ex_exts 512 8192 70000 out.
Proof.
  apply (MapFileBlockC_correct ex_file ex_map ex_exts 512 8192 70000 (av_ok _ ex_file_inv) ex_file_rep); try (vm_compute; done); try (split; vm_compute; done).
  by exists 8.
Defined.

Lemma NodesAreContiguous_correct_witness :
  exists b e, NodesAreContiguous (2 ^ 1 * 4096) ex_file = Some (b, with_tree e ex_file) /\ et_holds e ex_map /\
    if (b : bool) then
      whole_nodes (2 ^ 1) ex_exts \/ (whole_nodes (2 ^ 1) (take 8 ex_exts) /\ ff_size (x_fcb ex_file) <= total (take 8 ex_exts) * 4096) \/ tree_failed
    else ~ whole_nodes (2 ^ 1) ex_exts.
Proof. apply (NodesAreContiguous_correct ex_file ex_map ex_exts 1 (av_ok _ ex_file_inv)); [vm_compute; done|exact ex_file_rep|done|lia]. Defined.

Lemma TruncateFileC_correct_witness :
  exists err s', TruncateFileC 20000 false false 20 false ex_file = Some (err, s') /\ ff_blocks (x_fcb s') = 5 /\ c_blocks (x_fcb s') = 5 /\
    cut_outcome ex_file ex_map ex_exts 5 false err s'.
Proof.
  apply (TruncateFileC_correct ex_file ex_map ex_exts 20000 false false ex_file_inv ex_file_rep); try (vm_compute; done).
  split; [vm_compute; split; congruence|]. intros A e Ee. change ex_exts with (ex_first ++ [mkExtent 50 3]) in Ee. apply app_inj_tail in Ee as [<- <-]. vm_compute. done.
Defined.


Lemma HeadTruncateFile_correct_witness :
  exists err s', HeadTruncateFile 4 ex_file = Some (err, s') /\ head_cut ex_file ex_map [mkExtent 3 2; mkExtent 6 2] (drop 2 ex_exts) err s'.
Proof.
  apply (HeadTruncateFile_correct ex_file ex_map [mkExtent 3 2; mkExtent 6 2] (drop 2 ex_exts) ex_file_inv ex_file_rep); [done|cbn; lia|intros err Hf; exact Hf|intros err Hf; exact Hf].
Defined.
