(* ===== verification/JournalWriteProps.v ===== *)
(** * Writing the journal (core/hfs_journal.c)

    Writing to the journal changes the bytes of its ring from a position on, in however
    many requests and wherever the end of the journal is, and no other bytes. *)

From S2P Require Import Prelude HfsFormat Bytes JournalIO JournalCoalesce CoalesceProps JournalIOProps.

(** Requests are for whole blocks, or larger than the journal. *)
Record writes_ok (j : journal) : Prop := {
  wr_write : 0 < max_write_size j;
  wr_requests : (jhdr_size (jhdr j) | max_write_size j) \/ jh_size (jhdr j) <= max_write_size j;
}.

Lemma lookup_put_bytes b off bs b' x : put_bytes b off bs = Some b' -> 0 <= x ->
  b' !! Z.to_nat x = if (off <=? x) && (x <? off + len bs) then bs !! Z.to_nat (x - off) else b !! Z.to_nat x.
Proof.
  unfold put_bytes. destruct (Z.leb_spec 0 off); [|done]. destruct (Z.leb_spec (off + len bs) (len b)); [|done]. cbn [andb]. intros [= <-] Hx.
  assert (length (take (Z.to_nat off) b) = Z.to_nat off) as Hl by (rewrite length_take; lia).
  destruct (Z.leb_spec off x); [destruct (Z.ltb_spec x (off + len bs))|]; cbn [andb].
  - rewrite lookup_app_r by lia. rewrite lookup_app_l by lia. f_equal. lia.
  - rewrite lookup_app_r by lia. rewrite lookup_app_r by lia. rewrite lookup_drop. f_equal. lia.
  - rewrite lookup_app_l by lia. apply lookup_take_lt. lia.
Qed.

Lemma length_put_bytes b off bs b' : put_bytes b off bs = Some b' -> length b' = length b.
Proof.
  unfold put_bytes. destruct (_ && _) eqn:E; [|done]. apply andb_true_iff in E as [E1 E2]. intros [= <-].
  rewrite !length_app, length_take, length_drop. lia.
Qed.

Section Write.
Variable j : journal.
Hypothesis Hdev : device_ok j.
Hypothesis Hwr : writes_ok j.
Hypothesis Hio : jdev_io j = [].
Notation h := (jhdr j).
Notation bsz := (jhdr_size h).
Notation jsz := (jh_size h).

(** The device [d] is that of the journal with the first [n] bytes of [data] in the ring
    from [off] on. *)
Record ring_put (off n : Z) (data d : bytes) : Prop := {
  rp_length : length d = length (jdev j);
  rp_new : forall k, 0 <= k < n -> d !! Z.to_nat (jdev_offset j + ring h (off + k)) = data !! Z.to_nat k;
  rp_old : forall x, 0 <= x -> (forall k, 0 <= k < n -> x <> jdev_offset j + ring h (off + k)) -> d !! Z.to_nat x = jdev j !! Z.to_nat x;
}.

Lemma ring_put_start off data : ring_put off 0 data (jdev j).
Proof. split; [done|intros; lia|done]. Qed.

Lemma get_bytes_lookup b off n bs k : get_bytes b off n = Some bs -> 0 <= k < n -> bs !! Z.to_nat k = b !! Z.to_nat (off + k).
Proof.
  unfold get_bytes. destruct (Z.leb_spec 0 off); [|done]. destruct (Z.leb_spec 0 n); [|done]. destruct (_ <=? _); [|done]. cbn [andb]. intros [= <-] Hk.
  rewrite lookup_take_lt by lia. rewrite lookup_drop. f_equal. lia.
Qed.

Lemma get_bytes_bounds b off n bs : get_bytes b off n = Some bs -> len bs = n /\ 0 <= off /\ off + n <= len b.
Proof.
  unfold get_bytes. destruct (Z.leb_spec 0 off); [|done]. destruct (Z.leb_spec 0 n); [|done].
  destruct (Z.leb_spec (off + n) (len b)); [|done]. cbn [andb]. intros [= <-]. rewrite length_take, length_drop. lia.
Qed.

Lemma get_bytes_some b off n : 0 <= off -> 0 <= n -> off + n <= len b -> exists bs, get_bytes b off n = Some bs.
Proof.
  intros. unfold get_bytes. rewrite (proj2 (Z.leb_le 0 off)), (proj2 (Z.leb_le 0 n)), (proj2 (Z.leb_le (off + n) _)) by lia. by eexists.
Qed.

Lemma put_bytes_some b off bs : 0 <= off -> off + len bs <= len b -> exists d, put_bytes b off bs = Some d.
Proof.
  intros. unfold put_bytes. rewrite (proj2 (Z.leb_le 0 off)), (proj2 (Z.leb_le (off + len bs) _)) by lia. by eexists.
Qed.

(** One more request. *)
Lemma ring_put_step off k c data d bs d' : ring_put off k data d -> bsz <= off <= jsz -> 0 <= k -> 0 < c -> k + c <= jsz - bsz ->
  ring h (off + k) + c <= jsz -> get_bytes data k c = Some bs -> put_bytes d (jdev_offset j + ring h (off + k)) bs = Some d' ->
  ring_put off (k + c) data d'.
Proof using Hdev.
  intros [Hlen Hnew Hold] Ho Hk Hc Hkc Hend Hget Hput. pose proof Hdev as [Hg Hoff _ Hin _ _]. pose proof Hg as [Hg1 Hg2 Hg3].
  pose proof (get_bytes_bounds _ _ _ _ Hget) as (Hbs & _ & _).
  assert (forall i, k <= i < k + c -> ring h (off + i) = ring h (off + k) + (i - k)) as Hring.
  { intros i Hi. replace (off + i) with (off + k + (i - k)) by lia. revert Hend. unfold ring. zcases. }
  assert (forall i, 0 <= i < k -> ring h (off + i) <> ring h (off + k) /\ (ring h (off + i) < ring h (off + k) \/ ring h (off + k) + c <= ring h (off + i))) as Hapart.
  { intros i Hi. revert Hend. unfold ring. zcases. }
  assert (forall i, 0 <= i < k + c -> bsz <= ring h (off + i) < jsz) as Hb by (intros i Hi; apply (ring_bound h Hg); lia).
  split.
  - by rewrite (length_put_bytes _ _ _ _ Hput).
  - intros i Hi. pose proof (Hb i Hi). pose proof (Hb k ltac:(lia)). rewrite (lookup_put_bytes _ _ _ _ _ Hput) by lia. destruct (decide (k <= i)) as [Hki|Hki].
    + rewrite (Hring i) by lia. rewrite (proj2 (Z.leb_le _ _)), (proj2 (Z.ltb_lt _ _)) by lia. cbn [andb].
      replace (jdev_offset j + (ring h (off + k) + (i - k)) - (jdev_offset j + ring h (off + k))) with (i - k) by lia.
      rewrite (get_bytes_lookup _ _ _ _ (i - k) Hget) by lia. f_equal. lia.
    + destruct (Hapart i ltac:(lia)) as [_ Hcase].
      rewrite (proj2 (andb_false_iff _ _)); [by apply Hnew; lia|]. destruct Hcase; [left; apply Z.leb_gt; lia|right; apply Z.ltb_ge; lia].
  - intros x Hx Hne. rewrite (lookup_put_bytes _ _ _ _ _ Hput) by lia.
    rewrite (proj2 (andb_false_iff _ _)).
    + apply Hold; [done|]. intros i Hi. apply Hne. lia.
    + destruct (Z.leb_spec (jdev_offset j + ring h (off + k)) x); [right|by left]. apply Z.ltb_ge.
      destruct (decide (x < jdev_offset j + ring h (off + k) + c)) as [Hlt|]; [|lia]. exfalso.
      apply (Hne (k + (x - (jdev_offset j + ring h (off + k)))) ltac:(lia)). rewrite Hring by lia. lia.
Qed.

(** One request that does not go past the end. *)
Lemma strategy_write o c k data d bs : 0 < o -> (bsz | o) -> 0 < c -> o + c <= jsz -> length d = length (jdev j) -> get_bytes data k c = Some bs ->
  exists d', put_bytes d (jdev_offset j + o) bs = Some d' /\
    strategy JNL_WRITE (with_jdev d j) (Z.quot (s64 (jdev_offset j + o)) bsz) data k c = Some (Some data, with_jdev d' j).
Proof using Hdev Hio.
  intros Ho Hal Hc Hend Hlen Hget. destruct Hdev as [[Hg1 Hg2 Hg3] Hoff Hda Hin _ _].
  pose proof (get_bytes_bounds _ _ _ _ Hget) as (Hbs & _ & _).
  destruct (put_bytes_some d (jdev_offset j + o) bs ltac:(lia) ltac:(lia)) as [d' Hd]. exists d'. split; [done|].
  unfold strategy, next_io. change (jdev_io (with_jdev d j)) with (jdev_io j). rewrite Hio. change (negb (0 =? 0)) with false. cbn match.
  change (jhdr (with_jdev d j)) with h. rewrite s64_id by (unfold INT64_MAX; lia). rewrite Z.quot_div_nonneg by lia.
  rewrite (divide_pos bsz) by (done || by apply Z.divide_add_r). rewrite Hget. cbn [mbind option_bind].
  change (jdev (with_jdev d j)) with d. by rewrite Hd.
Qed.

Lemma journal_io_loop_write off n data : bsz <= off <= jsz -> (bsz | off) -> n <= jsz - bsz -> n <= len data -> forall fuel o k d,
  0 <= k < n -> bsz <= o <= jsz -> (bsz | o) -> ring h o = ring h (off + k) -> ring_put off k data d -> (Z.to_nat (n - k) < fuel)%nat ->
  exists off' d', journal_io_loop JNL_WRITE false (max_write_size j) n (with_jdev d j) o (n - k) k data fuel =
    Some (n, off', data, with_jdev d' j) /\ ends_at j (off + n) off' /\ ring_put off n data d'.
Proof using Hdev Hwr Hio.
  intros Hoff Hal Hn Hdata. induction fuel as [|fuel IH]; intros o k d Hk Ho Hoal Hring Hput Hf; [lia|]. cbn [journal_io_loop].
  pose proof Hdev as [Hg _ _ _ _ _]. pose proof Hg as [Hg1 Hg2 Hg3]. change (jhdr (with_jdev d j)) with h. change (jdev_offset (with_jdev d j)) with (jdev_offset j).
  pose proof (request_fits j Hdev (max_write_size j) o (n - k) (wr_write _ Hwr) (wr_requests _ Hwr) ltac:(lia) Ho Hoal ltac:(lia)) as Hreq. cbv zeta in Hreq.
  set (past := (jsz <? s64 (o + (n - k))) && negb (o =? 0) && negb (jsz =? 0)) in *. clearbody past.
  set (o' := if past && (o =? jsz) then bsz else o) in *. clearbody o'.
  set (c0 := if past && negb (o =? jsz) then jsz - o else n - k) in *. clearbody c0.
  set (c := if max_write_size j <? c0 then max_write_size j else c0) in *. clearbody c. clear c0.
  destruct Hreq as (-> & Hc & Hend & Hwhole).
  assert (bsz <= ring h o < jsz) as Hr by (apply (ring_bound h Hg); lia).
  assert ((bsz | ring h o)) as Hral by by apply (ring_whole h Hg).
  rewrite (proj2 (Z.leb_gt c 0)), (proj2 (Z.eqb_neq (ring h o) 0)), (proj2 (Z.eqb_neq bsz 0)) by lia. cbn [andb].
  destruct (get_bytes_some data k c ltac:(lia) ltac:(lia) ltac:(lia)) as [bs Hget].
  destruct (strategy_write (ring h o) c k data d bs) as (d' & Hd & ->); [lia|done|lia|lia|by apply (rp_length _ _ _ _ Hput)|done|].
  cbn [mbind option_bind]. rewrite s64_id by (unfold INT64_MAX; lia).
  rewrite Hring in Hd. rewrite Hring in Hend.
  pose proof (ring_put_step off k c data d bs d' Hput Hoff ltac:(lia) ltac:(lia) ltac:(lia) Hend Hget Hd) as Hput'.
  destruct (Z.eqb_spec (k + c) n) as [Heq|Hne]; cbn [negb].
  - exists (ring h o + c), d'. rewrite Heq in *. split; [done|]. split; [|done].
    split; [lia|]. intros Hlt. rewrite Hring. rewrite (ring_ring h Hg) by lia. f_equal. lia.
  - assert ((bsz | c)) as Hcal by (destruct Hwhole as [->|]; [lia|done]).
    destruct (IH (if jsz <=? ring h o + c then bsz else ring h o + c) (k + c) d') as (off' & d2 & E & He & Hp2).
    + lia.
    + destruct (Z.leb_spec jsz (ring h o + c)); lia.
    + destruct (Z.leb_spec jsz (ring h o + c)); [apply Z.divide_refl|by apply Z.divide_add_r].
    + rewrite (ring_end j Hdev) by lia. rewrite Hring, (ring_ring h Hg) by lia. f_equal. lia.
    + done.
    + lia.
    + exists off', d2. replace (n - k - c) with (n - (k + c)) by lia. change (jhdr (with_jdev d' j)) with h. replace (n - (k + c)) with (n - (k + c)) in E by lia. by rewrite E.
Qed.

Lemma write_journal_data_ok off n data : bsz <= off <= jsz -> (bsz | off) -> 0 < n <= jsz - bsz -> n <= len data ->
  exists off' d, write_journal_data j off data n = Some (n, off', data, with_jdev d j) /\ ends_at j (off + n) off' /\ ring_put off n data d.
Proof using Hdev Hwr Hio.
  intros Ho Hal Hn Hdata. unfold write_journal_data, do_journal_io. pose proof Hdev as [[Hg1 Hg2 _] _ _ _ _ _].
  rewrite (proj2 (Z.ltb_ge off 0)), (proj2 (Z.ltb_ge jsz off)) by lia. cbn [orb].
  destruct (journal_io_loop_write off n data Ho Hal ltac:(lia) Hdata (S (Z.to_nat n)) off 0 (jdev j)) as (off' & d & E & He & Hp); try done; [lia|by rewrite Z.add_0_r|apply ring_put_start|lia|].
  exists off', d. rewrite Z.sub_0_r in E. split; [|done]. replace (with_jdev (jdev j) j) with j in E by by destruct j. exact E.
Qed.

(** ** What the ring has then *)

Lemma ring_put_same off n data d : ring_put off n data d -> bsz <= off <= jsz -> 0 <= n <= jsz - bsz -> n <= len data ->
  log_bytes (with_jdev d j) off n = take (Z.to_nat n) data.
Proof using Hdev.
  intros [_ Hnew _] Ho Hn Hdata. apply list_eq. intros i. destruct (decide (Z.of_nat i < n)) as [Hi|Hi].
  - rewrite lookup_take_lt by lia. unfold log_bytes. rewrite list_lookup_fmap, lookup_seqZ_lt by lia. cbn [fmap option_fmap option_map].
    unfold at_journal. change (jdev (with_jdev d j)) with d. change (jdev_offset (with_jdev d j)) with (jdev_offset j). change (jhdr (with_jdev d j)) with h.
    specialize (Hnew (0 + Z.of_nat i) ltac:(lia)). rewrite Hnew. replace (Z.to_nat (0 + Z.of_nat i)) with i by lia.
    destruct (lookup_lt_is_Some_2 data i ltac:(lia)) as [x ->]. done.
  - rewrite (lookup_ge_None_2 (take _ _)) by (rewrite length_take; lia). apply lookup_ge_None_2. unfold log_bytes. rewrite length_fmap, length_seqZ. lia.
Qed.

(** The positions from [a] on, [m] of them, are not among those from [off] on. *)
Definition ring_apart (a m off n : Z) : Prop := forall i k, 0 <= i < m -> 0 <= k < n -> ring h (a + i) <> ring h (off + k).

Lemma ring_put_other off n data d a m : ring_put off n data d -> bsz <= a <= jsz -> m <= jsz - bsz -> ring_apart a m off n ->
  log_bytes (with_jdev d j) a m = log_bytes j a m.
Proof using Hdev.
  intros [_ _ Hold] Ha Hm Hap. pose proof Hdev as [Hg Hoff _ _ _ _]. pose proof Hg as [Hg1 Hg2 Hg3]. unfold log_bytes. apply list_fmap_ext.
  intros i x Hx. apply lookup_seqZ in Hx as [-> Hi]. unfold at_journal. change (jdev (with_jdev d j)) with d.
  change (jdev_offset (with_jdev d j)) with (jdev_offset j). change (jhdr (with_jdev d j)) with h. f_equal.
  pose proof (ring_bound h Hg (a + (0 + Z.of_nat i)) ltac:(lia)). apply Hold; [lia|]. intros k Hk He. apply (Hap (0 + Z.of_nat i) k); [lia|done|lia].
Qed.
End Write.
