(* ===== verification/JournalTransaction.v ===== *)
(** * Building a transaction (core/hfs_journal.c, core/hfs_journal.h)

    A change of metadata is between journal_start_transaction and
    journal_end_transaction; each buffer that changes is between
    journal_modify_block_start and journal_modify_block_end, or it is given up
    (journal_modify_block_abort, journal_kill_block).  A transaction keeps its buffers in
    block list headers, each with memory for their data.

    The buffers are in the buffer cache, a map from their addresses.  Only what the journal
    uses of a buffer is in it; a file that a buffer may belong to is the function from its
    logical blocks to blocks of the device (hfs_vnop_blktooff and hfs_vnop_blockmap), and a
    vnode_ref that fails is a result of the buffer.  The code runs in one thread at a time,
    the owner of the lock; panics, and memory accesses that are not in their object, are
    [None].  num_blocks and num_blhdrs are the lengths of the lists. *)

From S2P Require Import Prelude HfsFormat Bytes JournalTrim JournalIO JournalReplay.

Definition JOURNAL_CLOSE_PENDING : Z := 0x00010000.
Definition JOURNAL_NO_GROUP_COMMIT : Z := 0x00000001.
Definition JOURNAL_USE_UNMAP : Z := 0x00200000.
Definition JOURNAL_DEV_REVOKED : Z := 0x00800000.

(** ** Buffers *)

(** The vnode of a buffer: none, the device of the file system, or a file, whose blocks
    have a number on the device and a length, if they can be mapped. *)
Inductive buf_vnode :=
| NoVnode
| FsDevice
| FileVnode (blockmap : Z -> Z -> option (Z * Z)).

(** A function of the file system that changes the data before it is written. *)
Notation fs_hook := (bytes -> bytes).

Record buf := mkBuf {
  bf_vp : buf_vnode;
  bf_ref : Z;                  (* the result of vnode_ref *)
  bf_blkno : Z;
  bf_lblkno : Z;
  bf_data : bytes;
  bf_filter : option fs_hook;
  bf_meta : bool;              (* B_META *)
  bf_locked : bool;            (* B_LOCKED *)
  bf_delwri : bool;            (* B_DELWRI *)
  bf_invalid : bool;
}.

Definition buf_size (b : buf) : Z := len (bf_data b).

Definition bf_flags (locked delwri invalid : bool) (b : buf) : buf :=
  mkBuf (bf_vp b) (bf_ref b) (bf_blkno b) (bf_lblkno b) (bf_data b) (bf_filter b) (bf_meta b) locked delwri invalid.
Definition buf_setlocked (locked : bool) (b : buf) : buf := bf_flags locked (bf_delwri b) (bf_invalid b) b.
Definition buf_bdwrite (b : buf) : buf := bf_flags (bf_locked b) true (bf_invalid b) b.
Definition buf_markclean (b : buf) : buf := bf_flags (bf_locked b) false (bf_invalid b) b.
Definition buf_markinvalid (b : buf) : buf := bf_flags (bf_locked b) (bf_delwri b) true b.
Definition buf_setfilter (f : option fs_hook) (b : buf) : buf :=
  mkBuf (bf_vp b) (bf_ref b) (bf_blkno b) (bf_lblkno b) (bf_data b) f (bf_meta b) (bf_locked b) (bf_delwri b) (bf_invalid b).

(** ** Transactions *)

(** A buffer that shares the memory of a header: it has the vnode, the blocks, the size and
    the function of the buffer it is made from. *)
Record shadow := mkShadow {
  sh_bp : Z;                 (* the buffer: buf_meta_bread of its vnode and block finds it *)
  sh_vp : buf_vnode;
  sh_blkno : Z;
  sh_lblkno : Z;
  sh_size : Z;
  sh_dataptr : Z;            (* where its data is in the buffers of the header *)
  sh_filter : option fs_hook;
}.

(** The union of an entry: a pointer to a buffer or to a shadow, or a size. *)
Inductive info_union :=
| UBuf (bp : Z)
| UShadow (sbp : shadow)
| UInfo (bsize : Z).

Record tr_info := mkTinfo { ti_bnum : Z; ti_u : info_union }.

Record tr_blhdr := mkTblhdr {
  th_addr : Z;               (* the address, which the header before has as binfo[0].bnum *)
  th_max_blocks : Z;
  th_bytes_used : Z;
  th_flags : Z;
  th_info : list tr_info;    (* binfo[1] to binfo[num_blocks - 1] *)
  th_buffers : bytes;
}.

Definition th_num_blocks (b : tr_blhdr) : Z := 1 + len (th_info b).

Record transaction := mkTrans {
  tr_tbuffer_size : Z;
  tr_blhdrs : list tr_blhdr;
  tr_total_bytes : Z;
  tr_num_flushed : Z;
  tr_num_killed : Z;
  tr_journal_start : Z;
  tr_journal_end : Z;
  tr_sequence_num : Z;
  tr_trim : jnl_trim_list;
  tr_flush_on_completion : bool;
}.

Definition tr_num_blhdrs (tr : transaction) : Z := len (tr_blhdrs tr).

Definition set_blhdrs (l : list tr_blhdr) (total killed : Z) (tr : transaction) : transaction :=
  mkTrans (tr_tbuffer_size tr) l total (tr_num_flushed tr) killed (tr_journal_start tr) (tr_journal_end tr) (tr_sequence_num tr)
    (tr_trim tr) (tr_flush_on_completion tr).
Definition set_journal_range (start end_ : Z) (tr : transaction) : transaction :=
  mkTrans (tr_tbuffer_size tr) (tr_blhdrs tr) (tr_total_bytes tr) (tr_num_flushed tr) (tr_num_killed tr) start end_ (tr_sequence_num tr)
    (tr_trim tr) (tr_flush_on_completion tr).
Definition set_num_flushed (n : Z) (tr : transaction) : transaction :=
  mkTrans (tr_tbuffer_size tr) (tr_blhdrs tr) (tr_total_bytes tr) n (tr_num_killed tr) (tr_journal_start tr) (tr_journal_end tr)
    (tr_sequence_num tr) (tr_trim tr) (tr_flush_on_completion tr).
Definition set_trim (t : jnl_trim_list) (tr : transaction) : transaction :=
  mkTrans (tr_tbuffer_size tr) (tr_blhdrs tr) (tr_total_bytes tr) (tr_num_flushed tr) (tr_num_killed tr) (tr_journal_start tr)
    (tr_journal_end tr) (tr_sequence_num tr) t (tr_flush_on_completion tr).

(** ** The journal *)

(** A transaction whose blocks are being written to the file system: the writes that were
    issued and did not complete, each with its place and its data. *)
Record flying := mkFlying { fl_tr : transaction; fl_writes : list (Z * bytes) }.

Record jstate := mkJstate {
  js_jnl : journal;
  js_tbuffer_size : Z;
  js_flush_aborted : bool;
  js_write_header_failed : bool;
  js_async_trim : option jnl_trim_list;
  js_saved_sequence_num : Z;
  js_sequence_num : Z;
  js_cur_tr : option transaction;
  js_completed_trs : list (Z * Z);     (* journal_start and journal_end of each *)
  js_active_tr : option transaction;
  js_nested_count : Z;
  js_owner : bool;                     (* owner == current_thread() *)
  js_active_start : Z;
  js_old_start : list Z;
  js_asyncIO : bool;
  js_flying : option flying;
  js_bufs : gmap Z buf;
  js_unmapped : list (list dk_extent); (* DKIOCUNMAP *)
  js_trimmed : list (list dk_extent);  (* trim_callback *)
  js_memory : Z;                       (* where the next header is allocated *)
}.

Definition with_jnl (j : journal) (s : jstate) : jstate :=
  mkJstate j (js_tbuffer_size s) (js_flush_aborted s) (js_write_header_failed s) (js_async_trim s) (js_saved_sequence_num s) (js_sequence_num s)
    (js_cur_tr s) (js_completed_trs s) (js_active_tr s) (js_nested_count s) (js_owner s) (js_active_start s) (js_old_start s) (js_asyncIO s) (js_flying s)
    (js_bufs s) (js_unmapped s) (js_trimmed s) (js_memory s).
Definition with_tbuffer_size (n : Z) (s : jstate) : jstate :=
  mkJstate (js_jnl s) n (js_flush_aborted s) (js_write_header_failed s) (js_async_trim s) (js_saved_sequence_num s) (js_sequence_num s)
    (js_cur_tr s) (js_completed_trs s) (js_active_tr s) (js_nested_count s) (js_owner s) (js_active_start s) (js_old_start s) (js_asyncIO s) (js_flying s)
    (js_bufs s) (js_unmapped s) (js_trimmed s) (js_memory s).
Definition with_failed (aborted failed : bool) (s : jstate) : jstate :=
  mkJstate (js_jnl s) (js_tbuffer_size s) aborted failed (js_async_trim s) (js_saved_sequence_num s) (js_sequence_num s)
    (js_cur_tr s) (js_completed_trs s) (js_active_tr s) (js_nested_count s) (js_owner s) (js_active_start s) (js_old_start s) (js_asyncIO s) (js_flying s)
    (js_bufs s) (js_unmapped s) (js_trimmed s) (js_memory s).
Definition with_async_trim (t : option jnl_trim_list) (unmapped trimmed : list (list dk_extent)) (s : jstate) : jstate :=
  mkJstate (js_jnl s) (js_tbuffer_size s) (js_flush_aborted s) (js_write_header_failed s) t (js_saved_sequence_num s) (js_sequence_num s)
    (js_cur_tr s) (js_completed_trs s) (js_active_tr s) (js_nested_count s) (js_owner s) (js_active_start s) (js_old_start s) (js_asyncIO s) (js_flying s)
    (js_bufs s) unmapped trimmed (js_memory s).
Definition with_sequence (saved seq : Z) (s : jstate) : jstate :=
  mkJstate (js_jnl s) (js_tbuffer_size s) (js_flush_aborted s) (js_write_header_failed s) (js_async_trim s) saved seq
    (js_cur_tr s) (js_completed_trs s) (js_active_tr s) (js_nested_count s) (js_owner s) (js_active_start s) (js_old_start s) (js_asyncIO s) (js_flying s)
    (js_bufs s) (js_unmapped s) (js_trimmed s) (js_memory s).
Definition with_trs (cur active : option transaction) (s : jstate) : jstate :=
  mkJstate (js_jnl s) (js_tbuffer_size s) (js_flush_aborted s) (js_write_header_failed s) (js_async_trim s) (js_saved_sequence_num s) (js_sequence_num s)
    cur (js_completed_trs s) active (js_nested_count s) (js_owner s) (js_active_start s) (js_old_start s) (js_asyncIO s) (js_flying s)
    (js_bufs s) (js_unmapped s) (js_trimmed s) (js_memory s).
Definition with_owner (nested : Z) (owner : bool) (s : jstate) : jstate :=
  mkJstate (js_jnl s) (js_tbuffer_size s) (js_flush_aborted s) (js_write_header_failed s) (js_async_trim s) (js_saved_sequence_num s) (js_sequence_num s)
    (js_cur_tr s) (js_completed_trs s) (js_active_tr s) nested owner (js_active_start s) (js_old_start s) (js_asyncIO s) (js_flying s)
    (js_bufs s) (js_unmapped s) (js_trimmed s) (js_memory s).
Definition with_starts (active : Z) (old : list Z) (completed : list (Z * Z)) (s : jstate) : jstate :=
  mkJstate (js_jnl s) (js_tbuffer_size s) (js_flush_aborted s) (js_write_header_failed s) (js_async_trim s) (js_saved_sequence_num s) (js_sequence_num s)
    (js_cur_tr s) completed (js_active_tr s) (js_nested_count s) (js_owner s) active old (js_asyncIO s) (js_flying s)
    (js_bufs s) (js_unmapped s) (js_trimmed s) (js_memory s).
Definition with_flying (async : bool) (f : option flying) (s : jstate) : jstate :=
  mkJstate (js_jnl s) (js_tbuffer_size s) (js_flush_aborted s) (js_write_header_failed s) (js_async_trim s) (js_saved_sequence_num s) (js_sequence_num s)
    (js_cur_tr s) (js_completed_trs s) (js_active_tr s) (js_nested_count s) (js_owner s) (js_active_start s) (js_old_start s) async f
    (js_bufs s) (js_unmapped s) (js_trimmed s) (js_memory s).
Definition with_bufs (m : gmap Z buf) (s : jstate) : jstate :=
  mkJstate (js_jnl s) (js_tbuffer_size s) (js_flush_aborted s) (js_write_header_failed s) (js_async_trim s) (js_saved_sequence_num s) (js_sequence_num s)
    (js_cur_tr s) (js_completed_trs s) (js_active_tr s) (js_nested_count s) (js_owner s) (js_active_start s) (js_old_start s) (js_asyncIO s) (js_flying s)
    m (js_unmapped s) (js_trimmed s) (js_memory s).
Definition with_memory (n : Z) (s : jstate) : jstate :=
  mkJstate (js_jnl s) (js_tbuffer_size s) (js_flush_aborted s) (js_write_header_failed s) (js_async_trim s) (js_saved_sequence_num s) (js_sequence_num s)
    (js_cur_tr s) (js_completed_trs s) (js_active_tr s) (js_nested_count s) (js_owner s) (js_active_start s) (js_old_start s) (js_asyncIO s) (js_flying s)
    (js_bufs s) (js_unmapped s) (js_trimmed s) n.

Definition js_jhdr (s : jstate) : journal_header := jhdr (js_jnl s).
Definition js_isset (s : jstate) (flag : Z) : bool := ISSETJ (js_jnl s) flag.
Definition js_setflag (flag : Z) (s : jstate) : jstate :=
  let j := js_jnl s in with_jnl (with_flush (Z.lor (jn_flags j) flag) (last_flush_err j) (flush_counter j) j) s.

Definition set_buf (bp : Z) (b : buf) (s : jstate) : jstate := with_bufs (<[bp := b]> (js_bufs s)) s.

(** ** journal_start_transaction *)

(** Memory for a header and its buffers; what is in that of the buffers is not read before
    it is written. *)
Definition new_blhdr (tbuffer_size flags : Z) (s : jstate) : tr_blhdr * jstate :=
  let h := js_jhdr s in
  (mkTblhdr (js_memory s) (u16 (journal_max_blocks h)) (blhdr_size h) flags [] (replicate (Z.to_nat (tbuffer_size - blhdr_size h)) 0),
   with_memory (js_memory s + blhdr_size h) s).

Definition journal_allocate_transaction (s : jstate) : jstate :=
  let '(blhdr, s) := new_blhdr (js_tbuffer_size s) (Z.lor BLHDR_CHECK_CHECKSUMS BLHDR_FIRST_HEADER) s in
  let seq := u32 (js_sequence_num s + 1) in
  let s := with_sequence (js_saved_sequence_num s) seq s in
  let tr := mkTrans (js_tbuffer_size s) [blhdr] (blhdr_size (js_jhdr s)) 0 0 0 0 seq (mkTrim 0 []) false in
  with_trs (js_cur_tr s) (Some tr) s.

Definition is_some {A} (o : option A) : bool := match o with Some _ => true | None => false end.

Definition journal_start_transaction (s : jstate) : option (Z * jstate) :=
  if js_isset s JOURNAL_INVALID then Some (EINVAL, s) else
  if js_owner s then
    match js_active_tr s with
    | None => None
    | Some _ => Some (0, with_owner (js_nested_count s + 1) true s)
    end
  else if negb (js_nested_count s =? 0) || is_some (js_active_tr s) then None else
  let s := with_owner 1 true s in
  match js_cur_tr s with
  | Some tr => Some (0, with_trs None (Some tr) s)
  | None => Some (0, journal_allocate_transaction s)
  end.

(** ** journal_modify_block_start *)

Definition with_jhdr_size (n : Z) (s : jstate) : jstate :=
  let h := js_jhdr s in
  with_jnl (with_jhdr (mkJhdr (magic h) (endian h) (jh_start h) (jh_end h) (jh_size h) (blhdr_size h) (jh_checksum h) n (jh_sequence_num h)) (js_jnl s)) s.

(** The journal has the block size [phys_blksz] that the device tells, if it tells one:
    the header gets smaller, or the buffer of the header is longer. *)
Definition change_block_size (size : Z) (phys_blksz : option Z) (s : jstate) : option jstate :=
  match phys_blksz with
  | None => None
  | Some phys =>
      if phys =? jhdr_size (js_jhdr s) then None else
      if phys <? 512 then None else
      if negb (size mod phys =? 0) then None else
      if phys <? jhdr_size (js_jhdr s) then Some (with_jhdr_size phys s)
      else
        let j := js_jnl s in
        let grown := replicate (Z.to_nat (phys - len (header_bytes (jhdr j) ++ header_rest j))) 0x18 in
        let j := mkJournal (jhdr j) (header_rest j ++ grown) (jdev j) (jdev_offset j) (same_device j) (max_read_size j)
                   (max_write_size j) (jn_flags j) (last_flush_err j) (flush_counter j) (fsdev j) (jdev_io j) (fsdev_io j) in
        Some (with_jhdr_size phys (with_jnl j s))
  end.

Definition journal_modify_block_start (phys_blksz : option Z) (bp : Z) (s : jstate) : option (Z * jstate) :=
  if js_isset s JOURNAL_INVALID then Some (EINVAL, s) else
  b ← js_bufs s !! bp;
  if negb (bf_meta b) then None else
  tr ← js_active_tr s;
  if negb (js_owner s) then None else
  s ← (if negb (buf_size b mod jhdr_size (js_jhdr s) =? 0) then change_block_size (buf_size b) phys_blksz s else Some s);
  if jh_size (js_jhdr s) - jhdr_size (js_jhdr s) <=? tr_total_bytes tr + buf_size b then None else
  Some (0, set_buf bp (buf_setlocked true b) s).

(** ** Looking for a buffer *)

Definition is_buf (bp : Z) (i : tr_info) : bool := match ti_u i with UBuf p => p =? bp | _ => false end.

Definition find_blhdr (bp : Z) (l : list tr_blhdr) : option (nat * tr_blhdr) := list_find (fun b => existsb (is_buf bp) (th_info b) = true) l.

Definition journal_modify_block_abort (bp : Z) (s : jstate) : option (Z * jstate) :=
  match js_active_tr s with
  | None => Some (0, s)
  | Some tr =>
      if js_isset s JOURNAL_INVALID then Some (EINVAL, s) else
      if negb (js_owner s) then None else
      b ← js_bufs s !! bp;
      Some (0, match find_blhdr bp (tr_blhdrs tr) with
               | None => set_buf bp (buf_setlocked false b) s
               | Some _ => s
               end)
  end.

(** ** journal_modify_block_end *)

(** The function for the buffer is one of the file system's; that it may not replace
    another one, which panics, is not modelled: functions cannot be compared. *)

(** The buffer becomes the next entry of a header. *)
Definition add_info (bp : Z) (b : buf) (h : tr_blhdr) : tr_blhdr :=
  mkTblhdr (th_addr h) (th_max_blocks h) (s32 (th_bytes_used h + buf_size b)) (th_flags h)
    (th_info h ++ [mkTinfo (bf_blkno b) (UBuf bp)]) (th_buffers h).

(** The header for a buffer that is in none: the last one, or a new one behind it. *)
Definition blhdr_with_room (bp : Z) (b : buf) (tr : transaction) (s : jstate) : option (transaction * jstate) :=
  prev ← last (tr_blhdrs tr);
  if (th_num_blocks prev + 1 <=? th_max_blocks prev) && (u32 (th_bytes_used prev + buf_size b) <=? u32 (tr_tbuffer_size tr))
  then Some (tr, s) else
  let '(nblhdr, s) := new_blhdr (tr_tbuffer_size tr) BLHDR_CHECK_CHECKSUMS s in
  Some (set_blhdrs (tr_blhdrs tr ++ [nblhdr]) (s32 (tr_total_bytes tr + blhdr_size (js_jhdr s))) (tr_num_killed tr) tr, s).

Definition journal_modify_block_end (bp : Z) (func : option fs_hook) (s : jstate) : option (Z * jstate) :=
  if js_isset s JOURNAL_INVALID then Some (EINVAL, s) else
  tr ← js_active_tr s;
  if negb (js_owner s) then None else
  b ← js_bufs s !! bp;
  if negb (bf_locked b) then None else
  match find_blhdr bp (tr_blhdrs tr) with
  | Some (_, h) =>
      '(i, _) ← list_find (fun i => is_buf bp i = true) (th_info h);
      if th_max_blocks h <? 1 + Z.of_nat i + 1 then None else
      Some (0, set_buf bp (buf_bdwrite b) s)
  | None =>
      '(tr, s) ← blhdr_with_room bp b tr s;
      h ← last (tr_blhdrs tr);
      if th_max_blocks h <? th_num_blocks h + 1 then None else
      let s := with_trs (js_cur_tr s) (Some tr) s in
      if negb (bf_ref b =? 0) then Some (EIO, js_setflag JOURNAL_INVALID s) else
      let l := removelast (tr_blhdrs tr) ++ [add_info bp b h] in
      let tr := set_blhdrs l (s32 (tr_total_bytes tr + buf_size b)) (tr_num_killed tr) tr in
      let b := if is_some func then buf_setfilter func b else b in
      Some (0, set_buf bp (buf_bdwrite b) (with_trs (js_cur_tr s) (Some tr) s))
  end.

(** ** journal_kill_block *)

(** The first entry with the buffer has its size instead. *)
Fixpoint kill_info (bp size : Z) (l : list tr_info) : list tr_info :=
  match l with
  | [] => []
  | i :: l => if is_buf bp i then mkTinfo (-1) (UInfo (s32 size)) :: l else i :: kill_info bp size l
  end.

Definition kill_blhdr (bp size : Z) (h : tr_blhdr) : tr_blhdr :=
  mkTblhdr (th_addr h) (th_max_blocks h) (th_bytes_used h) (th_flags h) (kill_info bp size (th_info h)) (th_buffers h).

Definition journal_kill_block (bp : Z) (s : jstate) : option (Z * jstate) :=
  if js_isset s JOURNAL_INVALID then Some (0, s) else
  tr ← js_active_tr s;
  if negb (js_owner s) then None else
  b ← js_bufs s !! bp;
  if negb (bf_locked b) then None else
  match find_blhdr bp (tr_blhdrs tr) with
  | None => Some (0, s)
  | Some (k, h) =>
      let l := <[k := kill_blhdr bp (buf_size b) h]> (tr_blhdrs tr) in
      let tr := set_blhdrs l (tr_total_bytes tr) (s32 (tr_num_killed tr + buf_size b)) tr in
      Some (0, set_buf bp (buf_markinvalid (buf_setlocked false b)) (with_trs (js_cur_tr s) (Some tr) s))
  end.
