(* ===== verification/JournalCommit.v ===== *)
(** * Committing transactions (core/hfs_journal.c)

    journal_end_transaction keeps a small transaction for the next one (group commit), or
    it commits it: end_transaction makes room in the journal and copies the buffers to the
    memory of the transaction, and finish_end_transaction writes the headers and the data
    behind the end of the journal, moves the end, and has the blocks written to the file
    system.  When the last of these writes completes, buffer_flushed_callback notes that
    the transaction is not needed in the journal; the start moves when room is needed.

    One thread runs.  The writes to the file system complete at any time ([complete_write]),
    and all of them while a thread waits ([complete_io]); the thread that writes the header
    for end_transaction does it at once, and that of finish_end_thread is the caller.  The
    callback for journal_relocate is its result.  Waiting for writes is one step that
    completes all of them; the code sleeps and looks again, with the bounds on the turns
    that the loops here have, too.  abort_transaction drops the trims of the journal in any
    case, the code only when they are those of this transaction, which with one thread
    they are. *)

From S2P Require Import Prelude HfsFormat Bytes JournalTrim JournalIO JournalCoalesce JournalReplay BlhdrOrder JournalTransaction.

(** ** free_space *)

Definition free_space (h : journal_header) : Z :=
  if jh_start h <? jh_end h then jh_size h - (jh_end h - jh_start h) - jhdr_size h
  else if jh_end h <? jh_start h then jh_start h - jh_end h
  else jh_size h - jhdr_size h.

(** ** buffer_flushed_callback *)

(** The high bit of an entry of old_start: the transaction is not done. *)
Definition OLD_MARK : Z := 0x8000000000000000.
Definition marked (v : Z) : bool := negb (Z.land v OLD_MARK =? 0).
Definition unmark (v : Z) : Z := Z.land v (Z.lnot OLD_MARK).

Definition FREED_BYTES : Z := s32 0xfbadc0de.

(** The loop over completed_trs: the transaction, active_start and the list.  [pre] is
    what the loop passed. *)
Fixpoint coalesce_trs (tr : Z * Z) (active : Z) (pre rest : list (Z * Z)) (fuel : nat) : option ((Z * Z) * Z * list (Z * Z)) :=
  match fuel with
  | O => None
  | S fuel =>
      match rest with
      | [] => Some (tr, active, pre)
      | ctr :: rest =>
          if fst ctr =? active then coalesce_trs tr (snd ctr) [] (pre ++ rest) fuel
          else if snd tr =? fst ctr then coalesce_trs (0, 0) active [] (pre ++ (fst tr, snd ctr) :: rest) fuel
          else if fst tr =? snd ctr then coalesce_trs (0, 0) active (pre ++ [(fst ctr, snd tr)]) rest fuel
          else match rest with
               | next :: rest' =>
                   if snd ctr =? fst next then coalesce_trs tr active [] (pre ++ (fst ctr, snd next) :: rest') fuel
                   else coalesce_trs tr active (pre ++ [ctr]) rest fuel
               | [] => coalesce_trs tr active (pre ++ [ctr]) [] fuel
               end
      end
  end.

Definition coalesce_fuel (l : list (Z * Z)) : nat := (2 * (length l + 2) * (length l + 2))%nat.

Fixpoint insert_tr (tr : Z * Z) (l : list (Z * Z)) : list (Z * Z) :=
  match l with
  | [] => [tr]
  | ctr :: l => if fst ctr <? fst tr then ctr :: insert_tr tr l else tr :: ctr :: l
  end.

Definition set_total_bytes (n : Z) (tr : transaction) : transaction := set_blhdrs (tr_blhdrs tr) n (tr_num_killed tr) tr.

(** The part with old_start locked: the transaction is done. *)
Definition transaction_done (tr : transaction) (s : jstate) : option jstate :=
  '(i, v) ← list_find (fun v => s64 (unmark v) = tr_journal_start tr) (js_old_start s);
  let old := <[i := unmark v]> (js_old_start s) in
  let '(range, active) := if tr_journal_start tr =? js_active_start s then ((0, 0), tr_journal_end tr)
                          else ((tr_journal_start tr, tr_journal_end tr), js_active_start s) in
  '(range, active, completed) ← coalesce_trs range active [] (js_completed_trs s) (coalesce_fuel (js_completed_trs s));
  Some (with_starts active old (if negb (fst range =? 0) then insert_tr range completed else completed) s).

Definition buffer_flushed_callback (bufsize : Z) (s : jstate) : option jstate :=
  f ← js_flying s;
  let tr := fl_tr f in
  if tr_total_bytes tr =? FREED_BYTES then Some s else
  let amt_flushed := s32 (tr_num_killed tr + tr_num_flushed tr) in
  let tr' := set_num_flushed (s32 (tr_num_flushed tr + bufsize)) tr in
  if s32 (amt_flushed + bufsize) <? tr_total_bytes tr
  then Some (with_flying (js_asyncIO s) (Some (mkFlying tr' (fl_writes f))) s)
  else
    s ← (if js_isset s JOURNAL_INVALID then Some s else transaction_done tr s);
    Some (with_flying false (Some (mkFlying (set_total_bytes FREED_BYTES tr') (fl_writes f))) s).

(** The [k]-th of the writes that were issued completes. *)
Definition complete_write (k : nat) (s : jstate) : option jstate :=
  f ← js_flying s;
  '(pos, data) ← fl_writes f !! k;
  let s := with_jnl (with_fsdev (write_fs pos data (fsdev (js_jnl s))) (fsdev_io (js_jnl s)) (js_jnl s)) s in
  let s := with_flying (js_asyncIO s) (Some (mkFlying (fl_tr f) (delete k (fl_writes f)))) s in
  buffer_flushed_callback (len data) s.

Fixpoint complete_writes (n : nat) (s : jstate) : option jstate :=
  match n with
  | O => Some s
  | S n => s ← complete_write 0 s; complete_writes n s
  end.

(** All that were issued. *)
Definition complete_io (s : jstate) : option jstate :=
  match js_flying s with
  | None => Some s
  | Some f => complete_writes (length (fl_writes f)) s
  end.

(** ** check_free_space *)

Definition set_start (start : Z) (s : jstate) : jstate :=
  with_jnl (with_jhdr (set_range start (jh_end (js_jhdr s)) (js_jhdr s)) (js_jnl s)) s.

(** Waiting for an entry of old_start. *)
Fixpoint wait_old_start (i : nat) (s : jstate) (fuel : nat) : option jstate :=
  v ← js_old_start s !! i;
  if marked v then
    match fuel with
    | O => None
    | S fuel => s ← complete_io s; wait_old_start i s fuel
    end
  else Some s.

(** The header is written now, or later. *)
Definition bump_header (delayed : bool) (sequence_num : Z) (s : jstate) : option jstate :=
  if delayed then Some s else '(_, j) ← write_journal_header true sequence_num (js_jnl s); Some (with_jnl j s).

(** The loop over old_start from entry [i] on: whether it was left with enough room, and
    whether all entries were empty. *)
Fixpoint bump_start (desired_size : Z) (delayed : bool) (sequence_num : Z) (i n : nat) (empty : bool) (s : jstate)
    : option (bool * bool * jstate) :=
  match n with
  | O => Some (false, empty, s)
  | S n =>
      s ← wait_old_start i s 10001;
      v ← js_old_start s !! i;
      if v =? 0 then bump_start desired_size delayed sequence_num (S i) n empty s else
      let s := set_start v s in
      let s := with_starts (js_active_start s) (<[i := 0]> (js_old_start s)) (js_completed_trs s) s in
      if desired_size <? free_space (js_jhdr s) then
        s ← bump_header delayed sequence_num s; Some (true, false, s)
      else bump_start desired_size delayed sequence_num (S i) n false s
  end.

(** Whether the header is to be written, and the journal; the loop gives up with a panic
    when [counter] is 5000. *)
Fixpoint check_free_space_loop (desired_size : Z) (delayed : bool) (sequence_num : Z) (write : bool) (s : jstate) (fuel : nat)
    : option (bool * jstate) :=
  head ← js_old_start s !! O;
  if (desired_size <? free_space (js_jhdr s)) && (head =? 0) then Some (write, s) else
  match fuel with
  | O => None
  | S fuel =>
      '(bumped, empty, s) ← bump_start desired_size delayed sequence_num 0 (length (js_old_start s)) true s;
      match bumped, empty with
      | true, _ => check_free_space_loop desired_size delayed sequence_num delayed s fuel
      | false, true =>
          s ← bump_header delayed sequence_num (set_start (js_active_start s) s);
          check_free_space_loop desired_size delayed sequence_num delayed s fuel
      | false, false => s ← complete_io s; check_free_space_loop desired_size delayed sequence_num write s fuel
      end
  end.

Definition check_free_space (desired_size : Z) (delayed : bool) (sequence_num : Z) (s : jstate) : option (bool * jstate) :=
  check_free_space_loop desired_size delayed sequence_num false s 5000.

(** ** abort_transaction *)

Definition update_buf (f : buf -> buf) (bp : Z) (s : jstate) : jstate :=
  match js_bufs s !! bp with Some b => set_buf bp (f b) s | None => s end.

(** The buffer of an entry is clean and locked.  A size is not a pointer.  That the buffer
    was locked, if the device is not revoked, is only an assertion. *)
Definition abort_info (i : tr_info) (s : jstate) : option jstate :=
  if ti_bnum i =? -1 then Some s else
  match ti_u i with
  | UBuf bp =>
      b ← js_bufs s !! bp;
      let s := set_buf bp (buf_setfilter None b) s in
      Some (match bf_vp b with NoVnode => s | _ => update_buf (fun b => buf_markclean (buf_setlocked true b)) bp s end)
  | UShadow sbp =>
      Some (match sh_vp sbp with NoVnode => s | _ => update_buf (fun b => buf_markclean (buf_setlocked true b)) (sh_bp sbp) s end)
  | UInfo _ => None
  end.

Fixpoint abort_infos (l : list tr_info) (s : jstate) : option jstate :=
  match l with
  | [] => Some s
  | i :: l => s ← abort_info i s; abort_infos l s
  end.

(** The transaction is gone; the trims that are pending are its own. *)
Definition abort_transaction (tr : transaction) (s : jstate) : option jstate :=
  s ← abort_infos (concat (th_info <$> tr_blhdrs tr)) s;
  Some (with_async_trim None (js_unmapped s) (js_trimmed s) s).

(** ** finish_end_transaction *)

(** The block of the device that a shadow is for, if there is one. *)
Definition physical_blkno (sbp : shadow) : option Z :=
  match sh_vp sbp with
  | NoVnode => if sh_lblkno sbp =? sh_blkno sbp then None else Some (sh_blkno sbp)
  | FsDevice => Some (sh_blkno sbp)
  | FileVnode blockmap =>
      if negb (sh_lblkno sbp =? sh_blkno sbp) then Some (sh_blkno sbp) else
      '(blkno, contig_bytes) ← blockmap (sh_lblkno sbp) (sh_size sbp);
      if u32 contig_bytes <? sh_size sbp then None else Some blkno
  end.

Definition union_bsize (u : info_union) : option Z :=
  match u with
  | UBuf bp => Some (s32 bp)
  | UShadow _ => None
  | UInfo n => Some n
  end.

Definition set_blkno (n : Z) (sbp : shadow) : shadow :=
  mkShadow (sh_bp sbp) (sh_vp sbp) n (sh_lblkno sbp) (sh_size sbp) (sh_dataptr sbp) (sh_filter sbp).

(** The entries of a header with their sizes and checksums: the pointers to put back, what
    is written, and the buffers; or the entries when a buffer has no block. *)
Inductive infos_result :=
| InfosDone (pointers : list tr_info) (info : list block_info) (buffers : bytes)
| InfosBad (info : list tr_info).

(** The function of a buffer changes the data of its shadow. *)
Definition call_hook (sbp : shadow) (buffers : bytes) : option bytes :=
  match sh_filter sbp with
  | Some func => data ← get_bytes buffers (sh_dataptr sbp) (sh_size sbp); put_bytes buffers (sh_dataptr sbp) (func data)
  | None => Some buffers
  end.

Fixpoint finish_infos (l : list tr_info) (tbuffer_offset : Z) (buffers : bytes) : option infos_result :=
  match l with
  | [] => Some (InfosDone [] [] buffers)
  | i :: l =>
      if ti_bnum i =? -1 then
        bsize ← union_bsize (ti_u i);
        rest ← finish_infos l (tbuffer_offset + bsize) buffers;
        Some (match rest with
              | InfosDone pointers info buffers => InfosDone (mkTinfo (-1) (UBuf 0) :: pointers) (mkBinfo (-1) bsize 0 :: info) buffers
              | InfosBad info => InfosBad (mkTinfo (-1) (UInfo bsize) :: info)
              end)
      else
        match ti_u i with
        | UShadow sbp =>
            match physical_blkno sbp with
            | None => Some (InfosBad (i :: l))
            | Some blkno =>
                buffers ← call_hook sbp buffers;
                data ← get_bytes buffers tbuffer_offset (sh_size sbp);
                rest ← finish_infos l (tbuffer_offset + sh_size sbp) buffers;
                Some (match rest with
                      | InfosDone pointers info buffers =>
                          InfosDone (mkTinfo blkno (UShadow (set_blkno blkno sbp)) :: pointers)
                            (mkBinfo blkno (sh_size sbp) (calc_checksum data) :: info) buffers
                      | InfosBad info => InfosBad (mkTinfo blkno (UInfo (sh_size sbp)) :: info)
                      end)
            end
        | _ => None
        end
  end.

(** The bytes behind the entries that are used. *)
Definition filler : block_info := mkBinfo 0x5a5a5a5a5a5a5a5a 0x5a5a5a5a 0x5a5a5a5a.

(** The structure that is written for a header: the first entry has the address of the
    next header and the sequence number. *)
Definition disk_blhdr (h : journal_header) (seq next : Z) (b : tr_blhdr) (info : list block_info) : block_list_header :=
  mkBlhdr (th_max_blocks b) (th_num_blocks b) (th_bytes_used b) 0 (th_flags b)
    (mkBinfo (s64 next) 0 seq :: info ++ replicate (Z.to_nat (journal_max_blocks h - th_num_blocks b)) filler).

(** The memory of a header, with the checksum of its first bytes. *)
Definition blhdr_memory (h : journal_header) (b : block_list_header) : bytes :=
  store_blhdr false (seal_blhdr false b) ++ replicate (Z.to_nat (blhdr_size h mod 16)) 0x5a.

Definition set_info (info : list tr_info) (buffers : bytes) (b : tr_blhdr) : tr_blhdr :=
  mkTblhdr (th_addr b) (th_max_blocks b) (th_bytes_used b) (th_flags b) info buffers.

(** A header and its buffers are written at [end_]: how many bytes were, and the new end. *)
Definition write_blhdr (end_ : Z) (hdr : bytes) (b : tr_blhdr) (buffers : bytes) (j : journal) : option (Z * Z * journal) :=
  let amt := th_bytes_used b in
  let header_amt := if blhdr_size (jhdr j) <? amt then blhdr_size (jhdr j) else amt in
  let buffers_amt := amt - header_amt in
  data_buff ← get_bytes hdr 0 header_amt;
  '(ret, end_, _, j) ← write_journal_data j end_ data_buff header_amt;
  if buffers_amt =? 0 then Some (ret, end_, j) else
  '(more, end_, _, j) ← write_journal_data j end_ buffers buffers_amt;
  Some (s32 (ret + more), end_, j).

(** The headers of a transaction: whether all were written, how they are then, and the
    new end. *)
Fixpoint finish_blhdrs (seq end_ : Z) (l : list tr_blhdr) (s : jstate) : option (bool * list tr_blhdr * Z * jstate) :=
  match l with
  | [] => Some (true, [], end_, s)
  | b :: l =>
      let next := match l with [] => 0 | b :: _ => th_addr b end in
      infos ← finish_infos (th_info b) 0 (th_buffers b);
      match infos with
      | InfosBad info => Some (false, set_info info (th_buffers b) b :: l, end_, s)
      | InfosDone pointers info buffers =>
          let b' := set_info pointers buffers b in
          if js_write_header_failed s then Some (false, b' :: l, end_, s) else
          '(ret, end_, j) ← write_blhdr end_ (blhdr_memory (js_jhdr s) (disk_blhdr (js_jhdr s) seq next b info)) b buffers (js_jnl s);
          let s := with_jnl j s in
          if negb (ret =? th_bytes_used b) then Some (false, b' :: l, end_, s) else
          '(good, l, end_, s) ← finish_blhdrs seq end_ l s;
          Some (good, b' :: l, end_, s)
      end
  end.

(** The label bad_journal. *)
Definition bad_journal (tr : transaction) (s : jstate) : option (Z * jstate) :=
  s ← abort_transaction tr s;
  let s := js_setflag JOURNAL_INVALID (with_failed true (js_write_header_failed s) s) in
  let n := (length (js_old_start s) - 1)%nat in
  v ← js_old_start s !! n;
  Some (-1, with_starts (js_active_start s) (<[n := unmark v]> (js_old_start s)) (js_completed_trs s) s).

(** The extents of the transaction are unmapped, and the file system is told. *)
Definition journal_trim_flush (tr : transaction) (s : jstate) : transaction * jstate :=
  let l := tl_extents (tr_trim tr) in
  let unmapped := if js_isset s JOURNAL_USE_UNMAP then js_unmapped s ++ [l] else js_unmapped s in
  let s := match l with
           | [] => s
           | _ => with_async_trim (js_async_trim s) unmapped (js_trimmed s ++ [l]) s
           end in
  (set_trim (mkTrim 0 []) tr, with_async_trim None (js_unmapped s) (js_trimmed s) s).

(** The writes of a header to the file system: place and data of each block that was not
    killed, whose pointer is NULL.  The code sorts them by their blocks; here they are in
    the order of the entries, and they may complete in any order. *)
Fixpoint issue_writes (blksz : Z) (l : list tr_info) (buffers : bytes) : option (list (Z * bytes)) :=
  match l with
  | [] => Some []
  | i :: l =>
      rest ← issue_writes blksz l buffers;
      match ti_u i with
      | UShadow sbp =>
          data ← get_bytes buffers (sh_dataptr sbp) (sh_size sbp);
          Some ((sh_blkno sbp * blksz, data) :: rest)
      | UBuf bp => if bp =? 0 then Some rest else None
      | UInfo _ => None
      end
  end.

Fixpoint issue_all (blksz : Z) (l : list tr_blhdr) : option (list (Z * bytes)) :=
  match l with
  | [] => Some []
  | b :: l =>
      writes ← issue_writes blksz (th_info b) (th_buffers b);
      rest ← issue_all blksz l;
      Some (writes ++ rest)
  end.

(** The writes to the file system are issued when those before are done. *)
Definition issue_transaction (tr : transaction) (s : jstate) : option jstate :=
  let tr := set_num_flushed (s32 (tr_num_blhdrs tr * blhdr_size (js_jhdr s))) tr in
  s ← (if js_asyncIO s then complete_io s else Some s);
  if js_asyncIO s then None else
  match js_flying s with
  | Some (mkFlying _ (_ :: _)) => None
  | _ =>
      writes ← issue_all (jhdr_size (js_jhdr s)) (tr_blhdrs tr);
      match writes with
      | [] => Some (with_flying false None s)
      | _ => Some (with_flying true (Some (mkFlying tr writes)) s)
      end
  end.

Definition set_end (end_ : Z) (s : jstate) : jstate :=
  with_jnl (with_jhdr (set_range (jh_start (js_jhdr s)) end_ (js_jhdr s)) (js_jnl s)) s.

Definition finish_end_transaction (callback : option Z) (tr : transaction) (s : jstate) : option (Z * jstate) :=
  '(good, l, end_, s) ← finish_blhdrs (tr_sequence_num tr) (jh_end (js_jhdr s)) (tr_blhdrs tr) s;
  let tr := set_blhdrs l (tr_total_bytes tr) (tr_num_killed tr) tr in
  if negb good then bad_journal tr s else
  let s := set_end end_ s in
  let tr := set_journal_range (tr_journal_start tr) end_ tr in
  if (tr_journal_start tr =? 0) || (tr_journal_end tr =? 0) then None else
  '(err, j) ← write_journal_header false (js_saved_sequence_num s) (js_jnl s);
  let s := with_jnl j s in
  if negb (err =? 0) then bad_journal tr s else
  if negb (default 0 callback =? 0) then bad_journal tr s else
  let '(tr, s) := journal_trim_flush tr s in
  s ← issue_transaction tr s;
  Some (0, s).

(** ** end_transaction *)

Definition buf_create_shadow (bp dataptr : Z) (b : buf) : shadow :=
  mkShadow bp (bf_vp b) (bf_blkno b) (bf_lblkno b) (buf_size b) dataptr (bf_filter b).

Definition release_buf (b : buf) : buf := buf_setfilter None (buf_markclean (buf_setlocked false b)).

(** The buffers of a header are copied, and are the cache's again.  A buffer that is not
    the journal's any more is marked when the journal is being closed. *)
Fixpoint copy_buffers (l : list tr_info) (tbuffer_offset : Z) (buffers : bytes) (s : jstate) : option (list tr_info * bytes * jstate) :=
  match l with
  | [] => Some ([], buffers, s)
  | i :: l =>
      if ti_bnum i =? -1 then
        bsize ← union_bsize (ti_u i);
        '(l, buffers, s) ← copy_buffers l (tbuffer_offset + bsize) buffers s;
        Some (i :: l, buffers, s)
      else
        match ti_u i with
        | UBuf bp =>
            b ← js_bufs s !! bp;
            if negb (bf_locked b && bf_delwri b) then
              if js_isset s JOURNAL_CLOSE_PENDING then
                '(l, buffers, s) ← copy_buffers l tbuffer_offset buffers (set_buf bp (buf_setlocked false b) s);
                Some (mkTinfo (-1) (UBuf bp) :: l, buffers, s)
              else None
            else
              buffers ← put_bytes buffers tbuffer_offset (bf_data b);
              let sbp := buf_create_shadow bp tbuffer_offset b in
              let s := set_buf bp (release_buf b) s in
              '(l, buffers, s) ← copy_buffers l (tbuffer_offset + buf_size b) buffers s;
              Some (mkTinfo (ti_bnum i) (UShadow sbp) :: l, buffers, s)
        | _ => None
        end
  end.

Fixpoint copy_blhdrs (l : list tr_blhdr) (s : jstate) : option (list tr_blhdr * jstate) :=
  match l with
  | [] => Some ([], s)
  | b :: l =>
      '(info, buffers, s) ← copy_buffers (th_info b) 0 (th_buffers b) s;
      '(l, s) ← copy_blhdrs l s;
      Some (set_info info buffers b :: l, s)
  end.

(** The thread that writes the header. *)
Definition write_header_thread (s : jstate) : option jstate :=
  '(err, j) ← write_journal_header true (js_saved_sequence_num s) (js_jnl s);
  Some (with_failed (js_flush_aborted s) (negb (err =? 0)) (with_jnl j s)).

Section Limits.
Variable jnl_trim_flush_limit : Z.
Variable is_revoked : bool.

(** A transaction that is kept for the next one. *)
Definition group_commit (tr : transaction) (s : jstate) : bool :=
  negb (js_isset s JOURNAL_NO_GROUP_COMMIT) && (tr_num_blhdrs tr <? 3) &&
  (tr_total_bytes tr <=? s32 (s32 (tr_tbuffer_size tr * tr_num_blhdrs tr) - Z.quot (tr_tbuffer_size tr) 8)) &&
  (negb (js_isset s JOURNAL_USE_UNMAP) || (len (tl_extents (tr_trim tr)) <? jnl_trim_flush_limit)).

(** Room for the transaction, which starts at the end of the journal. *)
Definition reserve_journal (tr : transaction) (s : jstate) : option (transaction * jstate) :=
  let s := with_sequence (js_sequence_num s) (js_sequence_num s) s in
  '(delayed_header_write, s) ← check_free_space (tr_total_bytes tr) true (js_saved_sequence_num s) s;
  if (jh_end (js_jhdr s) <=? 0) || (jh_size (js_jhdr s) <? jh_end (js_jhdr s)) then None else
  s ← match delayed_header_write with
      | true => write_header_thread s
      | false => Some (with_failed (js_flush_aborted s) false s)
      end;
  let tr := set_journal_range (jh_end (js_jhdr s)) (tr_journal_end tr) tr in
  Some (tr, with_starts (js_active_start s) (tail (js_old_start s) ++ [Z.lor (u64 (tr_journal_start tr)) OLD_MARK]) (js_completed_trs s) s).

Definition end_transaction (tr : transaction) (force_it : bool) (callback : option Z) (s : jstate) : option (Z * jstate) :=
  if is_some (js_cur_tr s) then None else
  let keep := with_trs (Some tr) (js_active_tr s) s in
  if tr_total_bytes tr =? blhdr_size (js_jhdr s) then Some (0, keep) else
  if negb force_it && group_commit tr s then Some (0, keep) else
  if js_isset s JOURNAL_INVALID || js_flush_aborted s || is_revoked then
    s ← abort_transaction tr (if is_revoked then js_setflag JOURNAL_DEV_REVOKED s else s);
    Some (-1, s)
  else
  if is_some (js_async_trim s) then None else
  let s := with_async_trim (match tl_extents (tr_trim tr) with [] => None | _ => Some (tr_trim tr) end) (js_unmapped s) (js_trimmed s) s in
  '(tr, s) ← reserve_journal tr s;
  '(l, s) ← copy_blhdrs (tr_blhdrs tr) s;
  finish_end_transaction callback (set_blhdrs l (tr_total_bytes tr) (tr_num_killed tr) tr) s.

Definition drop_lock (s : jstate) : jstate := with_owner (js_nested_count s) false s.

(** ** journal_end_transaction *)

Definition journal_end_transaction (s : jstate) : option (Z * jstate) :=
  if negb (js_owner s) then (if js_isset s JOURNAL_INVALID then Some (0, s) else None) else
  let s := with_owner (js_nested_count s - 1) true s in
  if 0 <? js_nested_count s then Some (0, s) else
  if js_nested_count s <? 0 then None else
  if js_isset s JOURNAL_INVALID then
    match js_active_tr s with
    | Some tr =>
        if is_some (js_cur_tr s) then None else
        s ← abort_transaction tr (with_trs (js_cur_tr s) None s);
        Some (EINVAL, drop_lock s)
    | None => Some (EINVAL, drop_lock s)
    end
  else
  tr ← js_active_tr s;
  '(ret, s) ← end_transaction tr (tr_flush_on_completion tr) None (with_trs (js_cur_tr s) None s);
  Some (ret, drop_lock s).

(** ** journal_flush *)

(** [wait_for_io] and the errors of the devices that JOURNAL_FLUSH_FULL synchronizes: they
    do not get to the caller. *)
Definition journal_flush (wait_for_io : bool) (s : jstate) : option (Z * jstate) :=
  if js_isset s JOURNAL_INVALID then Some (-1, s) else
  let wait s := if wait_for_io && js_asyncIO s then complete_io s else Some s in
  s ← match js_active_tr s, js_cur_tr s return option jstate with
      | None, Some tr =>
          s ← wait (with_trs None None s);
          r ← end_transaction tr true None s;
          Some (snd r)
      | _, _ => Some s
      end;
  s ← wait s;
  Some (0, s).

(** ** journal_relocate *)

Definition MAX_TRANSACTION_BUFFER_SIZE : Z := 3072 * 1024.

(** The size of the buffers of a transaction and that of its headers; [def_tbuffer_size]
    depends on the memory of the machine. *)
Definition size_up_tbuffer (def_tbuffer_size tbuffer_size phys_blksz : Z) (s : jstate) : jstate :=
  let h := js_jhdr s in
  let size :=
    if tbuffer_size =? 0 then def_tbuffer_size else
    let size := if tbuffer_size <? s32 (blhdr_size h * 2) then s32 (blhdr_size h * 2) else tbuffer_size in
    size - Z.rem size (jhdr_size h) in
  let size := if Z.quot (jh_size h) 2 <? size then s32 (Z.quot (jh_size h) 2) else size in
  let size := if MAX_TRANSACTION_BUFFER_SIZE <? size then MAX_TRANSACTION_BUFFER_SIZE else size in
  let blhdr := s32 (Z.quot size (jhdr_size h) * 16) in
  let blhdr := if blhdr <? phys_blksz then phys_blksz
               else if negb (Z.rem blhdr phys_blksz =? 0) then Z.land (blhdr + (phys_blksz - 1)) (Z.lnot (phys_blksz - 1)) else blhdr in
  let h := mkJhdr (magic h) (endian h) (jh_start h) (jh_end h) (jh_size h) blhdr (jh_checksum h) (jhdr_size h) (jh_sequence_num h) in
  with_tbuffer_size size (with_jnl (with_jhdr h (js_jnl s)) s).

(** When end_transaction fails the transaction is freed already, and aborted again: that is
    a fault. *)
Definition journal_relocate (def_tbuffer_size offset journal_size tbuffer_size : Z) (callback : option Z) (s : jstate)
    : option (Z * jstate) :=
  let h := js_jhdr s in
  if jhdr_size h =? 0 then Some (EINVAL, s) else
  if negb (Z.rem offset (jhdr_size h) =? 0) || negb (Z.rem journal_size (jhdr_size h) =? 0) then Some (EINVAL, s) else
  if js_isset s JOURNAL_INVALID then Some (EINVAL, s) else
  if negb (js_owner s) then None else
  let s := size_up_tbuffer def_tbuffer_size (if tbuffer_size =? 0 then js_tbuffer_size s else tbuffer_size) (jhdr_size h) s in
  tr ← js_active_tr s;
  '(ret, s) ← journal_flush true (with_trs (js_cur_tr s) None s);
  if negb (ret =? 0) then Some (ret, with_trs (js_cur_tr s) (Some tr) s) else
  let j := js_jnl s in
  let h := jhdr j in
  let h := mkJhdr (magic h) (endian h) (jhdr_size h) (jhdr_size h) journal_size (blhdr_size h) (jh_checksum h) (jhdr_size h) (jh_sequence_num h) in
  let j := mkJournal h (header_rest j) (jdev j) offset (same_device j) (max_read_size j)
             (max_write_size j) (jn_flags j) (last_flush_err j) (flush_counter j) (fsdev j) (jdev_io j) (fsdev_io j) in
  let s := with_starts (jh_start h) (replicate (length (js_old_start s)) 0) (js_completed_trs s) (with_jnl j s) in
  '(ret, s) ← end_transaction tr true callback (with_trs (js_cur_tr s) None s);
  if negb (ret =? 0) then None else Some (0, journal_allocate_transaction s).
End Limits.
