(* ===== verification/LogProps.v ===== *)
(** * Logs that are the same, and logs that grow (core/hfs_journal.c)

    A log is the same in another journal when the bytes of the ring that it takes are.
    [wrote] says what writing to the journal does to its ring. *)

From S2P Require Import Prelude HfsFormat Bytes JournalIO JournalCoalesce CoalesceProps JournalReplay JournalIOProps JournalWriteProps ReplayProps.

Lemma ring_idem h p : geometry_ok h -> jhdr_size h <= p < jh_size h + (jh_size h - jhdr_size h) -> ring h (ring h p) = ring h p.
Proof. intros [? ? ?] Hp. unfold ring. zcases. Qed.

(** Two journals with the same places. *)
Record same_shape (j j' : journal) : Prop := {
  ss_block : jhdr_size (jhdr j') = jhdr_size (jhdr j);
  ss_size : jh_size (jhdr j') = jh_size (jhdr j);
  ss_blhdr : blhdr_size (jhdr j') = blhdr_size (jhdr j);
  ss_swap : ISSETJ j' JOURNAL_NEED_SWAP = ISSETJ j JOURNAL_NEED_SWAP;
}.

Lemma same_shape_refl j : same_shape j j.
Proof. by split. Qed.

Lemma same_shape_trans j1 j2 j3 : same_shape j1 j2 -> same_shape j2 j3 -> same_shape j1 j3.
Proof. intros [A1 A2 A3 A4] [B1 B2 B3 B4]. split; congruence. Qed.

Lemma same_shape_sym j1 j2 : same_shape j1 j2 -> same_shape j2 j1.
Proof. intros [A1 A2 A3 A4]. by split. Qed.

Section Same.
Variables j j' : journal.
Hypothesis Hshape : same_shape j j'.
Notation h := (jhdr j).
Notation bsz := (jhdr_size h).
Notation jsz := (jh_size h).

Lemma ring_shape p : ring (jhdr j') p = ring h p.
Proof using Hshape. unfold ring. by rewrite (ss_block _ _ Hshape), (ss_size _ _ Hshape). Qed.

(** The bytes of the ring from [start] on, [n] of them, are the same. *)
Definition same_ring (start n : Z) : Prop := forall k, 0 <= k < n -> at_journal j' (ring h (start + k)) = at_journal j (ring h (start + k)).

Lemma same_ring_sub start n a m : geometry_ok h -> bsz <= start <= jsz -> same_ring start n -> 0 <= a -> 0 <= m -> a + m <= n -> n <= jsz - bsz ->
  same_ring (ring h (start + a)) m.
Proof.
  intros Hg Hs Hsame Ha Hm Hn Hn2 k Hk. rewrite (ring_ring h Hg) by lia. rewrite <- Z.add_assoc. apply Hsame. lia.
Qed.

Lemma log_bytes_same pos n : same_ring pos n -> log_bytes j' pos n = log_bytes j pos n.
Proof using Hshape.
  intros Hsame. unfold log_bytes. apply list_fmap_ext. intros i x Hx. apply lookup_seqZ in Hx as [-> Hi]. rewrite ring_shape. apply Hsame. lia.
Qed.

Lemma block_ok_same num size : block_ok h num size -> block_ok (jhdr j') num size.
Proof using Hshape. intros [? ? ? ?]. split; rewrite ?(ss_block _ _ Hshape), ?(ss_size _ _ Hshape); done. Qed.

Lemma decode_same buff : decode_blhdr j' buff = decode_blhdr j buff.
Proof using Hshape.
  unfold decode_blhdr, swap_block_list_header, journal_max_blocks. by rewrite (ss_blhdr _ _ Hshape), (ss_swap _ _ Hshape).
Qed.

Definition blocks_size (l : list block_info) : Z := foldr (fun b n => bsize b + n) 0 l.

Lemma blocks_size_nonneg checked off l : blocks_ok j checked off l -> 0 < bsz -> 0 <= blocks_size l.
Proof.
  revert off. induction l as [|b l IH]; intros off Hok Hb; [done|]. destruct Hok as (Hsz & _ & _ & Hok). cbn [blocks_size foldr]. fold (blocks_size l). specialize (IH _ Hok Hb). lia.
Qed.

Lemma blocks_ok_same checked l : geometry_ok h -> forall off, bsz <= off < jsz -> blocks_size l <= jsz - bsz -> same_ring off (blocks_size l) ->
  blocks_ok j checked off l -> blocks_ok j' checked off l.
Proof using Hshape.
  intros Hg. induction l as [|b l IH]; intros off Ho Hn Hsame Hok; [done|]. destruct Hok as (Hsz & Hw & Hnum & Hok). cbn [blocks_size foldr] in *.
  fold (blocks_size l) in *. pose proof Hg as [? ? ?]. pose proof (blocks_size_nonneg _ _ _ Hok ltac:(lia)) as Hnn.
  cbn [blocks_ok]. rewrite (ss_block _ _ Hshape), (ss_size _ _ Hshape), ring_shape. split; [done|]. split; [done|]. split.
  - intros Hb. destruct (Hnum Hb) as [Hbo Hck]. split; [by apply block_ok_same|]. intros Hc. rewrite (log_bytes_same off (bsize b)); [by apply Hck|].
    intros k Hk. apply Hsame. lia.
  - apply IH; [apply (ring_bound h Hg); lia|lia| |done]. by apply (same_ring_sub off (bsize b + blocks_size l)); try lia.
Qed.

Lemma block_writes_same l : forall off, block_writes j' off l = block_writes j off l.
Proof using Hshape. induction l as [|b l IH]; intros off; [done|]. cbn [block_writes]. by rewrite ring_shape, IH. Qed.

Lemma header_writes_same pos b : header_writes j' pos b = header_writes j pos b.
Proof using Hshape. unfold header_writes. by rewrite block_writes_same, ring_shape, (ss_blhdr _ _ Hshape). Qed.

Lemma log_writes_same hs : log_writes j' hs = log_writes j hs.
Proof using Hshape. unfold log_writes. f_equal. apply list_fmap_ext. intros i [p b] _. apply header_writes_same. Qed.

(** A header with its blocks is as long as it says. *)
Definition header_fits (b : block_list_header) : Prop := blhdr_size h + blocks_size (header_blocks b) = bytes_used b.

Definition log_size (hs : list (Z * block_list_header)) : Z := foldr (fun x n => bytes_used (snd x) + n) 0 hs.

Lemma header_at_same pos : same_ring pos (blhdr_size h) -> header_at j' pos = header_at j pos.
Proof using Hshape. intros Hsame. unfold header_at. by rewrite decode_same, (ss_blhdr _ _ Hshape), log_bytes_same. Qed.

Lemma header_ok_same checked pos b : geometry_ok h -> bsz <= pos < jsz -> 0 < blhdr_size h -> header_fits b -> same_ring pos (bytes_used b) ->
  header_ok j checked pos b -> header_ok j' checked pos b.
Proof using Hshape.
  intros Hg Hp Hb Hfits Hsame [H1 H2 H3 H4 H5 H6 H7 H8]. pose proof Hg as [? ? ?]. unfold header_fits in Hfits.
  pose proof (blocks_size_nonneg _ _ _ H6 ltac:(lia)) as Hnn. split; rewrite ?(ss_block _ _ Hshape), ?(ss_size _ _ Hshape), ?(ss_blhdr _ _ Hshape), ?ring_shape; try done.
  - rewrite header_at_same; [done|]. intros k Hk. apply Hsame. lia.
  - apply blocks_ok_same; try done; [apply (ring_bound h Hg); lia|lia|]. by apply (same_ring_sub pos (bytes_used b)); try lia.
Qed.

Lemma chain_same checked last pos hs last' pos' : geometry_ok h -> 0 < blhdr_size h -> Forall (fun x => header_fits (snd x)) hs ->
  log_chain j checked last pos hs last' pos' -> bsz <= pos < jsz -> log_size hs <= jsz - bsz -> same_ring pos (log_size hs) ->
  log_chain j' checked last pos hs last' pos'.
Proof using Hshape.
  intros Hg Hb Hf Hch. induction Hch as [|last pos b seq hs last' pos' Hok Hseq Hnz Hin Hch IH]; intros Hp Hsz Hsame; [apply ChainEnd|].
  apply Forall_cons in Hf as [Hfb Hf]. cbn [log_size foldr snd] in Hsz, Hsame. fold (log_size hs) in *.
  pose proof (ho_used _ _ _ _ Hok) as Hu. pose proof Hg as [? ? ?]. cbn [snd] in Hfb.
  assert (0 <= log_size hs) as Hnn.
  { clear -Hch. induction Hch as [|? ? b0 ? hs0 ? ? Hok _ _ _ _ IH]; [done|]. cbn [log_size foldr snd]. fold (log_size hs0).
    pose proof (ho_used _ _ _ _ Hok). lia. }
  apply (ChainNext _ _ _ _ _ seq); try done.
  - apply header_ok_same; try done. intros k Hk. apply Hsame. lia.
  - rewrite ring_shape. apply IH; [done|apply (ring_bound h Hg); lia|lia|]. by apply (same_ring_sub pos (bytes_used b + log_size hs)); try lia.
Qed.

Lemma log_size_nonneg checked last pos hs last' pos' : log_chain j checked last pos hs last' pos' -> 0 <= log_size hs.
Proof.
  induction 1 as [|? ? b ? hs ? ? Hok _ _ _ _ IH]; [done|]; cbn [log_size foldr snd]; fold (log_size hs); pose proof (ho_used _ _ _ _ Hok). lia.
Qed.
End Same.

(** ** What is written *)

(** Only the device changed, where [n] bytes of the ring from [off] on are [bs]. *)
Record wrote (j : journal) (off n : Z) (bs : bytes) (j' : journal) : Prop := {
  wt_device : exists d, j' = with_jdev d j /\ length d = length (jdev j);
  wt_new : log_bytes j' off n = bs;
  wt_old : forall p, 0 <= p < jh_size (jhdr j) -> (forall k, 0 <= k < n -> p <> ring (jhdr j) (off + k)) -> at_journal j' p = at_journal j p;
}.

Lemma device_ok_jdev j d : device_ok j -> length d = length (jdev j) -> device_ok (with_jdev d j).
Proof. intros [[? ? ?] ? ? ? ? ?] Hd. split; try done; cbn; by rewrite Hd. Qed.

Lemma wrote_shape j off n bs j' : wrote j off n bs j' -> same_shape j j' /\ jhdr j' = jhdr j /\ jdev_io j' = jdev_io j /\
  fsdev j' = fsdev j /\ fsdev_io j' = fsdev_io j /\ (writes_ok j -> writes_ok j') /\ (device_ok j -> device_ok j').
Proof.
  intros [(d & -> & Hd) _ _]. split; [by split|]. do 4 (split; [done|]). split; [intros [? ?]; by split|]. intros ?. by apply device_ok_jdev.
Qed.

Section Wrote.
Variable j : journal.
Hypothesis Hdev : device_ok j.
Notation h := (jhdr j).
Notation bsz := (jhdr_size h).
Notation jsz := (jh_size h).

Lemma ring_put_wrote off n data d : bsz <= off <= jsz -> 0 <= n <= jsz - bsz -> n <= len data -> ring_put j off n data d ->
  wrote j off n (take (Z.to_nat n) data) (with_jdev d j).
Proof using Hdev.
  intros Ho Hn Hdata Hput. pose proof Hdev as [_ ? _ _ _ _]. split.
  - exists d. split; [done|]. apply (rp_length _ _ _ _ _ Hput).
  - by apply (ring_put_same j Hdev).
  - intros p Hp Hne. unfold at_journal. change (jdev (with_jdev d j)) with d. change (jdev_offset (with_jdev d j)) with (jdev_offset j).
    f_equal. apply (rp_old _ _ _ _ _ Hput); [lia|]. intros k Hk He. apply (Hne k Hk). lia.
Qed.

Lemma wrote_app off n m bs cs j1 j2 : bsz <= off <= jsz -> 0 <= n -> 0 <= m -> n + m <= jsz - bsz ->
  wrote j off n bs j1 -> wrote j1 (ring h (off + n)) m cs j2 -> wrote j off (n + m) (bs ++ cs) j2.
Proof using Hdev.
  intros Ho Hn Hm Hnm [(d1 & -> & Hd1) Hnew1 Hold1] [(d2 & -> & Hd2) Hnew2 Hold2]. pose proof Hdev as [Hg _ _ _ _ _]. pose proof Hg as [? ? ?].
  change (jhdr (with_jdev d1 j)) with h in *. change (with_jdev d2 (with_jdev d1 j)) with (with_jdev d2 j) in *.
  assert (forall i k, 0 <= i < n -> 0 <= k < m -> ring h (off + i) <> ring h (ring h (off + n) + k)) as Hap.
  { intros i k Hi Hk. rewrite (ring_ring h Hg) by lia. unfold ring. zcases. }
  split.
  - exists d2. split; [done|]. cbn in Hd2. congruence.
  - assert (device_ok (with_jdev d2 j)) as Hd2' by (apply device_ok_jdev; [done|cbn in Hd2; congruence]).
    rewrite (log_bytes_app _ Hd2') by done. f_equal; [|exact Hnew2].
    rewrite <- Hnew1. unfold log_bytes. apply list_fmap_ext. intros i x Hx. apply lookup_seqZ in Hx as [-> Hi].
    change (jhdr (with_jdev d2 j)) with h. change (jhdr (with_jdev d1 j)) with h.
    pose proof (ring_bound h Hg (off + (0 + Z.of_nat i)) ltac:(lia)).
    apply Hold2; [lia|]. intros k Hk. by apply Hap; [lia|].
  - intros p Hp Hne. transitivity (at_journal (with_jdev d1 j) p).
    + apply Hold2; [done|]. intros k Hk. rewrite (ring_ring h Hg) by lia. rewrite <- Z.add_assoc. apply Hne. lia.
    + apply Hold1; [done|]. intros k Hk. apply Hne. lia.
Qed.

Lemma wrote_ring off off' n bs j' : bsz <= off <= jsz -> bsz <= off' <= jsz -> n <= jsz - bsz -> ring h off = ring h off' ->
  wrote j off n bs j' -> wrote j off' n bs j'.
Proof using Hdev.
  intros Ho Ho' Hn Hr [Hd Hnew Hold]. pose proof Hdev as [Hg _ _ _ _ _]. pose proof Hg as [? ? ?].
  assert (forall k, 0 <= k < n -> ring h (off + k) = ring h (off' + k)) as Hk.
  { intros k Hk. rewrite <- (ring_ring h Hg off), <- (ring_ring h Hg off') by lia. by rewrite Hr. }
  destruct Hd as (d & -> & Hd). split; [by exists d| |].
  - rewrite <- Hnew. unfold log_bytes. apply list_fmap_ext. intros i x Hx. apply lookup_seqZ in Hx as [-> Hi].
    change (jhdr (with_jdev d j)) with h. f_equal. symmetry. apply Hk. lia.
  - intros p Hp Hne. apply Hold; [done|]. intros k Hk'. rewrite Hk by done. by apply Hne.
Qed.

(** ** Blocks of the file system *)

(** A block and its data, or a killed block. *)
Definition apply_block (fs : gmap Z Z) (x : Z * bytes) : gmap Z Z := if fst x =? -1 then fs else write_fs (fst x * bsz) (snd x) fs.
Definition apply_blocks (bl : list (Z * bytes)) (fs : gmap Z Z) : gmap Z Z := foldl apply_block fs bl.

(** The entry for a block. *)
Definition block_entry (x : Z * bytes) : block_info := mkBinfo (fst x) (len (snd x)) (if fst x =? -1 then 0 else calc_checksum (snd x)).

Definition block_fits (x : Z * bytes) : Prop :=
  0 < len (snd x) <= jsz - bsz /\ (bsz | len (snd x)) /\ (fst x <> -1 -> block_ok h (fst x) (len (snd x))).

Lemma length_concat_cons {A B} (x : A * list B) bl : len (concat (snd <$> x :: bl)) = len (snd x) + len (concat (snd <$> bl)).
Proof. cbn [fmap list_fmap concat]. rewrite length_app. lia. Qed.

Lemma entries_size bl : blocks_size (block_entry <$> bl) = len (concat (snd <$> bl)).
Proof.
  induction bl as [|x bl IH]; [done|]. rewrite length_concat_cons, fmap_cons. cbn [blocks_size foldr block_entry bsize].
  fold (blocks_size (block_entry <$> bl)). by rewrite IH.
Qed.

Lemma blocks_in_log bl : Forall block_fits bl -> forall off, bsz <= off < jsz -> len (concat (snd <$> bl)) <= jsz - bsz ->
  log_bytes j off (len (concat (snd <$> bl))) = concat (snd <$> bl) ->
  blocks_ok j true off (block_entry <$> bl) /\ forall fs, apply_writes j (block_writes j off (block_entry <$> bl)) fs = apply_blocks bl fs.
Proof using Hdev.
  induction 1 as [|x bl (Hsz & Hw & Hbo) Hbl IH]; intros off Ho Hlen Hlog; [done|]. rewrite length_concat_cons in Hlen, Hlog.
  pose proof Hdev as [Hg _ _ _ _ _]. pose proof Hg as [? ? ?].
  rewrite (log_bytes_app j Hdev) in Hlog by lia. cbn [fmap list_fmap concat] in Hlog. fold (snd <$> bl) in *.
  apply app_inj_1 in Hlog as [Hx Hrest]; [|pose proof (length_log_bytes j off (len (snd x)) ltac:(lia)); lia].
  destruct (IH (ring h (off + len (snd x)))) as [IH1 IH2]; [apply (ring_bound h Hg); lia|lia|done|].
  rewrite fmap_cons. split.
  - cbn [blocks_ok block_entry bsize bnum bi_word]. split; [done|]. split; [done|]. split; [|done].
    intros Hn. split; [by apply Hbo|]. intros _. right. rewrite (proj2 (Z.eqb_neq _ _)) by done. by rewrite Hx.
  - intros fs. cbn [block_writes block_entry bnum bsize]. unfold apply_blocks. cbn [foldl]. unfold apply_block at 2.
    destruct (fst x =? -1); [by rewrite IH2|]. unfold apply_writes in *. cbn [foldl]. unfold apply_write at 2. cbn [lw_num lw_size lw_offset].
    rewrite Hx. by rewrite IH2.
Qed.
End Wrote.
