(* ===== verification/CommitProps.v ===== *)
(** * What a commit writes (core/hfs_journal.c)

    finish_end_transaction writes the headers of a transaction, each with its buffers, and
    what it writes is a part of a log: the headers are found again, and replaying them
    writes the blocks of the transaction. *)

From S2P Require Import Prelude HfsFormat Bytes JournalTrim JournalIO JournalCoalesce CoalesceProps JournalReplay JournalIOProps JournalWriteProps ReplayProps ReplayLoop BlhdrOrder JournalTransaction JournalCommit LogProps.

(** The sizes that size_up_tbuffer and newfs_hfs make. *)
Record log_shape (h : journal_header) : Prop := {
  ls_blhdr : 32 <= blhdr_size h < jh_size h - jhdr_size h;
  ls_whole : (jhdr_size h | blhdr_size h);
  ls_entries : blhdr_size h mod 16 = 0;
  ls_max : journal_max_blocks h <= jh_size h / jhdr_size h;
  ls_word : journal_max_blocks h < 2 ^ 16;
  ls_room : 4 * (jh_size h / jhdr_size h) + STARTING_BUCKETS + 8 < 2 ^ 29;
}.

Lemma log_shape_eq h h' : jhdr_size h' = jhdr_size h -> jh_size h' = jh_size h -> blhdr_size h' = blhdr_size h -> log_shape h -> log_shape h'.
Proof. intros E1 E2 E3 [? ? ? ? ? ?]. split; unfold journal_max_blocks in *; rewrite ?E1, ?E2, ?E3; done. Qed.

(** ** The entries *)

Definition hook_of (sbp : shadow) (data : bytes) : bytes := match sh_filter sbp with Some f => f data | None => data end.

(** The entries of a header whose data is [ds], the first at [off]. *)
Inductive infos_ready : Z -> list tr_info -> list bytes -> Prop :=
| ReadyNil off : infos_ready off [] []
| ReadyKilled off n l d ds : n = len d -> infos_ready (off + n) l ds -> infos_ready off (mkTinfo (-1) (UInfo n) :: l) (d :: ds)
| ReadyShadow off num sbp blk l d ds : num <> -1 -> sh_dataptr sbp = off -> sh_size sbp = len d ->
    physical_blkno sbp = Some blk -> 0 <= blk -> length (hook_of sbp d) = length d ->
    infos_ready (off + sh_size sbp) l ds -> infos_ready off (mkTinfo num (UShadow sbp) :: l) (d :: ds).

(** The block and the data that an entry has in the end, and its pointer. *)
Definition final_block (i : tr_info) (d : bytes) : Z * bytes :=
  match ti_u i with UShadow sbp => (default 0 (physical_blkno sbp), hook_of sbp d) | _ => (-1, d) end.

Definition final_info (i : tr_info) : tr_info :=
  match ti_u i with
  | UShadow sbp => let blk := default 0 (physical_blkno sbp) in mkTinfo blk (UShadow (set_blkno blk sbp))
  | _ => mkTinfo (-1) (UBuf 0)
  end.

Definition final_blocks (l : list tr_info) (ds : list bytes) : list (Z * bytes) := zip_with final_block l ds.

Lemma final_cons i l d ds : final_blocks (i :: l) (d :: ds) = final_block i d :: final_blocks l ds.
Proof. done. Qed.

Lemma ready_length off l ds : infos_ready off l ds -> length l = length ds.
Proof. induction 1; cbn; congruence. Qed.

Lemma final_size off l ds : infos_ready off l ds -> len (concat (snd <$> final_blocks l ds)) = len (concat ds).
Proof.
  induction 1 as [|off n l d ds Hn Hr IH|off num sbp blk l d ds Hnum Hp Hs Hb Hpos Hh Hr IH]; [done| |]; rewrite final_cons, length_concat_cons, IH;
    cbn [concat]; rewrite length_app; unfold final_block; cbn [ti_u snd]; [lia|]. rewrite Hh. lia.
Qed.

Lemma call_hook_ok sbp A d R : sh_dataptr sbp = len A -> sh_size sbp = len d -> length (hook_of sbp d) = length d ->
  call_hook sbp (A ++ d ++ R) = Some (A ++ hook_of sbp d ++ R).
Proof.
  intros Hp Hs Hh. unfold call_hook, hook_of in *. destruct (sh_filter sbp) as [f|]; [|done].
  rewrite get_bytes_app by done. cbn [mbind option_bind]. by apply put_bytes_app.
Qed.

Lemma finish_infos_ok off l ds : infos_ready off l ds -> forall A R, off = len A ->
  finish_infos l off (A ++ concat ds ++ R) =
    Some (InfosDone (final_info <$> l) (block_entry <$> final_blocks l ds) (A ++ concat (snd <$> final_blocks l ds) ++ R)).
Proof.
  induction 1 as [off|off n l d ds Hn Hr IH|off num sbp blk l d ds Hnum Hp Hs Hb Hpos Hh Hr IH]; intros A R HA; [done| |]; cbn [finish_infos ti_bnum ti_u union_bsize concat].
  - change (-1 =? -1) with true. cbn [mbind option_bind]. rewrite <- app_assoc, (app_assoc A d).
    rewrite (IH (A ++ d) R) by (rewrite length_app; lia). cbn [mbind option_bind]. rewrite final_cons, !fmap_cons. cbn [concat].
    rewrite Hn, <- !app_assoc. done.
  - rewrite (proj2 (Z.eqb_neq _ _)) by done. rewrite Hb. cbn [mbind option_bind]. rewrite <- app_assoc.
    rewrite call_hook_ok by (done || congruence). cbn [mbind option_bind]. rewrite get_bytes_app by (done || congruence). cbn [mbind option_bind].
    rewrite (app_assoc A (hook_of sbp d)). rewrite (IH (A ++ hook_of sbp d) R) by (rewrite length_app; lia). cbn [mbind option_bind].
    rewrite final_cons, !fmap_cons. cbn [concat].
    assert (final_block (mkTinfo num (UShadow sbp)) d = (blk, hook_of sbp d)) as -> by (unfold final_block; cbn [ti_u]; by rewrite Hb).
    assert (final_info (mkTinfo num (UShadow sbp)) = mkTinfo blk (UShadow (set_blkno blk sbp))) as -> by (unfold final_info; cbn [ti_u]; by rewrite Hb).
    unfold block_entry at 2. cbn [fst snd]. rewrite (proj2 (Z.eqb_neq blk (-1))) by lia. rewrite Hh, <- Hs, <- !app_assoc. done.
Qed.

(** ** A header *)

Section Data.
Variable j : journal.
Hypothesis Hdev : device_ok j.
Hypothesis Hwr : writes_ok j.
Hypothesis Hio : jdev_io j = [].
Notation h := (jhdr j).
Notation bsz := (jhdr_size h).
Notation jsz := (jh_size h).

Lemma write_data_ok off n data : bsz <= off <= jsz -> (bsz | off) -> 0 < n <= jsz - bsz -> n <= len data ->
  exists off' j', write_journal_data j off data n = Some (n, off', data, j') /\ ends_at j (off + n) off' /\ wrote j off n (take (Z.to_nat n) data) j'.
Proof using Hdev Hwr Hio.
  intros Ho Hal Hn Hdata. destruct (write_journal_data_ok j Hdev Hwr Hio off n data Ho Hal Hn Hdata) as (off' & d & E & He & Hput).
  exists off', (with_jdev d j). split; [done|]. split; [done|]. apply ring_put_wrote; [done|done|lia|done|done].
Qed.

Lemma ends_whole off n off' : bsz <= off <= jsz -> (bsz | off) -> 0 < n < jsz - bsz -> (bsz | n) -> ends_at j (off + n) off' ->
  bsz <= off' <= jsz /\ ring h off' = ring h (off + n) /\ (bsz | off').
Proof using Hdev.
  intros Ho Hal Hn Hw [Hb Hr]. pose proof Hdev as [Hg _ _ _ _ _]. pose proof Hg as [Hg1 Hg2 Hg3]. specialize (Hr ltac:(lia)).
  split; [done|]. split; [done|].
  assert ((bsz | ring h off')) as Hd by (rewrite Hr; apply (ring_whole h Hg), Z.divide_add_r; done).
  unfold ring in Hd. destruct (Z.leb_spec jsz off'); [|done]. by replace off' with jsz by lia.
Qed.
End Data.

Section Header.
Variable j : journal.
Hypothesis Hdev : device_ok j.
Hypothesis Hwr : writes_ok j.
Hypothesis Hio : jdev_io j = [].
Hypothesis Hlog : log_shape (jhdr j).
Notation h := (jhdr j).
Notation bsz := (jhdr_size h).
Notation jsz := (jh_size h).

(** A header whose buffers are copied. *)
Record blhdr_ready (b : tr_blhdr) (ds : list bytes) : Prop := {
  br_infos : infos_ready 0 (th_info b) ds;
  br_buffers : exists R, th_buffers b = concat ds ++ R;
  br_used : th_bytes_used b = blhdr_size h + len (concat ds);
  br_fit : th_bytes_used b < jsz - bsz;
  br_num : th_num_blocks b <= th_max_blocks b;
  br_max : th_max_blocks b = journal_max_blocks h;
  br_flags : 0 <= th_flags b < 2 ^ 16 /\ Z.land (th_flags b) BLHDR_CHECK_CHECKSUMS <> 0;
  br_blocks : Forall (block_fits j) (final_blocks (th_info b) ds);
}.

Lemma max_blocks_entries : 16 + 16 * journal_max_blocks h = blhdr_size h.
Proof using Hlog. destruct Hlog as [? ? Hm ? ? ?]. unfold journal_max_blocks. apply Z.div_exact in Hm; lia. Qed.

Lemma length_final b ds : blhdr_ready b ds -> length (final_blocks (th_info b) ds) = length (th_info b).
Proof. intros [Hi _ _ _ _ _ _ _]. unfold final_blocks. rewrite length_zip_with, <- (ready_length _ _ _ Hi). lia. Qed.

(** The structure that is written. *)
Definition written_blhdr (seq next : Z) (b : tr_blhdr) (ds : list bytes) : block_list_header :=
  disk_blhdr h seq next b (block_entry <$> final_blocks (th_info b) ds).

Lemma written_entries seq next b ds : blhdr_ready b ds -> len (binfo (written_blhdr seq next b ds)) = journal_max_blocks h.
Proof.
  intros Hb. pose proof Hb as [Hi _ _ _ Hn Hm _ _]. unfold written_blhdr, disk_blhdr. cbn [binfo length]. rewrite length_app, length_fmap, (length_final b ds Hb), length_replicate.
  unfold th_num_blocks in *. lia.
Qed.

Lemma s64_range x : - 2 ^ 63 <= s64 x < 2 ^ 63.
Proof. unfold s64, swrap. pose proof (Z.mod_pos_bound (x + 2 ^ (64 - 1)) (2 ^ 64) ltac:(lia)). lia. Qed.

Lemma entry_ok x : geometry_ok h -> block_fits j x -> info_ok (block_entry x).
Proof.
  intros [Hg1 Hg2 _] (Hsz & _ & Hbo). unfold info_ok, block_entry. cbn [bnum bsize bi_word]. split; [|split].
  - destruct (Z.eq_dec (fst x) (-1)) as [->|Hne]; [lia|]. destruct (Hbo Hne) as [Hn Hs _ He]. unfold INT64_MAX in He. nia.
  - lia.
  - destruct (_ =? _); [lia|apply calc_checksum_bound].
Qed.

Lemma written_ok seq next b ds : blhdr_ready b ds -> 0 <= seq < 2 ^ 32 -> blhdr_ok (written_blhdr seq next b ds).
Proof using Hdev Hlog.
  intros Hb Hseq. pose proof Hb as [Hi _ Hu Hf Hn Hm [Hfl _] Hbl]. pose proof Hdev as [Hg _ _ _ _ _]. pose proof Hg as [Hg1 Hg2 _].
  destruct Hlog as [Hs1 _ _ _ Hw _]. pose proof max_blocks_entries. unfold th_num_blocks in *.
  assert (0 <= len (concat ds)) by lia.
  split; cbn [written_blhdr disk_blhdr max_blocks num_blocks bytes_used bl_flags binfo]; unfold th_num_blocks; [lia|lia|lia|lia|].
  constructor; [|apply Forall_app; split].
  - unfold info_ok. cbn. split; [apply s64_range|lia].
  - apply Forall_fmap. eapply Forall_impl; [exact Hbl|]. intros x Hx. by apply entry_ok.
  - apply Forall_replicate. unfold info_ok, filler. cbn. lia.
Qed.

Lemma blhdr_memory_eq b : len (binfo b) = journal_max_blocks h -> blhdr_memory h b = store_blhdr false (seal_blhdr false b) /\
  len (store_blhdr false (seal_blhdr false b)) = blhdr_size h.
Proof using Hlog.
  intros Hb. pose proof Hlog as [_ _ Hm _ _ _]. unfold blhdr_memory. rewrite Hm. change (replicate (Z.to_nat 0) 0x5a) with (@nil Z). rewrite app_nil_r. split; [done|].
  rewrite length_store_blhdr. change (binfo (seal_blhdr false b)) with (binfo b). rewrite Hb. apply max_blocks_entries.
Qed.

Lemma write_blhdr_ok end_ hdr b data R : bsz <= end_ <= jsz -> (bsz | end_) -> len hdr = blhdr_size h ->
  th_bytes_used b = blhdr_size h + len data -> th_bytes_used b < jsz - bsz ->
  exists end' j', write_blhdr end_ hdr b (data ++ R) j = Some (th_bytes_used b, end', j') /\
    ends_at j (end_ + th_bytes_used b) end' /\ wrote j end_ (th_bytes_used b) (hdr ++ data) j'.
Proof using Hdev Hwr Hio Hlog.
  intros He Hal Hhdr Hu Hfit. pose proof Hdev as [Hg _ _ _ _ _]. pose proof Hg as [Hg1 Hg2 Hg3]. pose proof Hlog as [Hl Hw _ _ _ _].
  unfold write_blhdr.
  assert ((if blhdr_size h <? th_bytes_used b then blhdr_size h else th_bytes_used b) = blhdr_size h) as ->.
  { destruct (Z.ltb_spec (blhdr_size h) (th_bytes_used b)); lia. }
  assert (get_bytes hdr 0 (blhdr_size h) = Some hdr) as ->.
  { pose proof (get_bytes_head hdr [] (blhdr_size h) ltac:(lia)) as E. by rewrite app_nil_r in E. }
  cbn [mbind option_bind].
  destruct (write_data_ok j Hdev Hwr Hio end_ (blhdr_size h) hdr He Hal ltac:(lia) ltac:(lia)) as (e1 & j1 & -> & He1 & Hw1). cbn [mbind option_bind].
  rewrite firstn_all2 in Hw1 by lia.
  destruct (ends_whole j Hdev end_ (blhdr_size h) e1 He Hal ltac:(lia) Hw He1) as (Hb1 & Hr1 & Hal1).
  destruct (Z.eqb_spec (th_bytes_used b - blhdr_size h) 0) as [Hz|Hnz].
  - exists e1, j1. assert (data = []) as -> by (destruct data; [done|cbn in *; lia]).
    replace (th_bytes_used b) with (blhdr_size h) by lia. rewrite app_nil_r. done.
  - destruct (wrote_shape _ _ _ _ _ Hw1) as (Hsh & Hjh & Hio1 & _ & _ & Hwr1 & Hdev1). specialize (Hwr1 Hwr). specialize (Hdev1 Hdev). rewrite Hio in Hio1.
    destruct (write_data_ok j1 Hdev1 Hwr1 Hio1 e1 (th_bytes_used b - blhdr_size h) (data ++ R)) as (e2 & j2 & -> & He2 & Hw2);
      [by rewrite Hjh|by rewrite Hjh|rewrite Hjh; lia|rewrite length_app; lia|].
    cbn [mbind option_bind]. exists e2, j2. split; [|split].
    + rewrite s32_id by lia. do 3 f_equal. lia.
    + destruct He2 as [Hb2 Hr2]. rewrite Hjh in Hb2, Hr2. split; [done|]. intros _. rewrite Hr2 by lia.
      rewrite <- (ring_ring h Hg e1) by lia. rewrite Hr1, (ring_ring h Hg) by lia. f_equal. lia.
    + replace (th_bytes_used b) with (blhdr_size h + len data) by lia. replace (th_bytes_used b - blhdr_size h) with (len data) in Hw2 by lia.
      apply (wrote_app j Hdev _ _ _ _ _ j1); [done|lia|lia|lia|done|].
      rewrite Nat2Z.id, take_app_length in Hw2.
      rewrite <- Hjh. apply (wrote_ring j1 Hdev1 e1); rewrite ?Hjh; [done| |lia| |done].
      * pose proof (ring_bound h Hg (end_ + blhdr_size h) ltac:(lia)). lia.
      * rewrite <- Hr1. symmetry. apply (ring_idem h e1 Hg). lia.
Qed.

(** What is written is a header of a log, with its blocks. *)
Lemma written_in_log seq next b ds end_ : blhdr_ready b ds -> 0 < seq < 2 ^ 32 -> bsz <= end_ <= jsz -> (bsz | end_) ->
  ISSETJ j JOURNAL_NEED_SWAP = false -> (bsz | th_bytes_used b) ->
  log_bytes j end_ (th_bytes_used b) = store_blhdr false (seal_blhdr false (written_blhdr seq next b ds)) ++ concat (snd <$> final_blocks (th_info b) ds) ->
  header_ok j true (ring h end_) (written_blhdr seq next b ds) /\ header_fits j (written_blhdr seq next b ds) /\
  sequence_of (written_blhdr seq next b ds) = Some seq /\
  forall fs, apply_writes j (header_writes j (ring h end_) (written_blhdr seq next b ds)) fs = apply_blocks j (final_blocks (th_info b) ds) fs.
Proof using Hdev Hlog.
  intros Hb Hseq He Hal Hsw Huw Hbytes. pose proof Hb as [Hi _ Hu Hf Hn Hm [Hfl Hck] Hbl]. pose proof Hdev as [Hg _ _ _ _ _]. pose proof Hg as [Hg1 Hg2 Hg3].
  pose proof Hlog as [Hl Hw Hmod Hmax Hword _]. pose proof (written_entries seq next b ds Hb) as Hent.
  destruct (blhdr_memory_eq _ Hent) as [_ Hlen]. set (B := written_blhdr seq next b ds) in *.
  assert (header_blocks B = block_entry <$> final_blocks (th_info b) ds) as Hblocks.
  { unfold header_blocks, B, written_blhdr, disk_blhdr. cbn [num_blocks binfo drop]. apply take_app_length'.
    rewrite length_fmap, (length_final b ds Hb). unfold th_num_blocks. lia. }
  pose proof (final_size _ _ _ Hi) as Hsize.
  assert (len (concat (snd <$> final_blocks (th_info b) ds)) = th_bytes_used b - blhdr_size h) as Hdata by lia.
  rewrite (log_bytes_ring j Hdev) in Hbytes by lia. replace (th_bytes_used b) with (blhdr_size h + len (concat (snd <$> final_blocks (th_info b) ds))) in Hbytes by lia.
  pose proof (ring_bound h Hg end_ ltac:(lia)) as Hrb.
  rewrite (log_bytes_app j Hdev) in Hbytes by lia.
  apply app_inj_1 in Hbytes as [Hhdr Hdat]; [|pose proof (length_log_bytes j (ring h end_) (blhdr_size h) ltac:(lia)); lia].
  assert (bsz <= ring h (ring h end_ + blhdr_size h) < jsz) as Hrb2 by (apply (ring_bound h Hg); lia).
  destruct (blocks_in_log j Hdev _ Hbl _ Hrb2 ltac:(lia) Hdat) as [Hbok Hap].
  split; [|split; [|split]].
  - split.
    + unfold header_at. rewrite Hhdr. pose proof (decode_blhdr_stored j B) as E. rewrite Hsw in E. rewrite E; try done.
      * rewrite Hent. cbn. unfold th_num_blocks in *. lia.
      * apply written_ok; [done|lia].
    + cbn. unfold th_num_blocks in *. lia.
    + cbn. unfold th_num_blocks in *. lia.
    + rewrite Hent. cbn. lia.
    + cbn. by destruct (Z.eqb_spec (Z.land (th_flags b) BLHDR_CHECK_CHECKSUMS) 0).
    + by rewrite Hblocks.
    + cbn. lia.
    + cbn. done.
  - unfold header_fits. rewrite Hblocks, entries_size, Hdata. cbn. lia.
  - done.
  - intros fs. unfold header_writes. by rewrite Hblocks.
Qed.
End Header.

(** ** All headers *)

Lemma wrote_same j off n bs j' a m : device_ok j -> wrote j off n bs j' -> jhdr_size (jhdr j) <= a <= jh_size (jhdr j) ->
  m <= jh_size (jhdr j) - jhdr_size (jhdr j) -> ring_apart j a m off n -> same_ring j j' a m.
Proof.
  intros Hdev Hw Ha Hm Hap k Hk. pose proof Hdev as [Hg _ _ _ _ _]. pose proof Hg as [? ? ?].
  pose proof (ring_bound _ Hg (a + k) ltac:(lia)). apply (wt_old _ _ _ _ _ Hw); [lia|]. intros i Hi. by apply Hap.
Qed.

Definition total_used (l : list tr_blhdr) : Z := foldr (fun b n => th_bytes_used b + n) 0 l.

(** A header whose blocks have their places, and the buffers of which are as they are written. *)
Definition finished (b : tr_blhdr) (ds : list bytes) (b' : tr_blhdr) : Prop :=
  exists R, b' = set_info (final_info <$> th_info b) (concat (snd <$> final_blocks (th_info b) ds) ++ R) b.

Inductive all_finished : list tr_blhdr -> list (list bytes) -> list tr_blhdr -> Prop :=
| FinishedNil : all_finished [] [] []
| FinishedCons b ds b' l dss l' : finished b ds b' -> all_finished l dss l' -> all_finished (b :: l) (ds :: dss) (b' :: l').

(** The blocks of a transaction. *)
Definition all_blocks (l : list tr_blhdr) (dss : list (list bytes)) : list (Z * bytes) :=
  concat (zip_with (fun b ds => final_blocks (th_info b) ds) l dss).

Definition ready_in (j : journal) (b : tr_blhdr) (ds : list bytes) : Prop := blhdr_ready j b ds /\ (jhdr_size (jhdr j) | th_bytes_used b).

Lemma ready_in_jhdr j j' b ds : jhdr j' = jhdr j -> ready_in j b ds -> ready_in j' b ds.
Proof.
  intros E [[H1 H2 H3 H4 H5 H6 H7 H8] Hw]. split; [|by rewrite E]. split; rewrite ?E; try done.
  eapply Forall_impl; [exact H8|]. intros x. unfold block_fits. by rewrite E.
Qed.

Lemma ready_used j b ds : ready_in j b ds -> geometry_ok (jhdr j) -> log_shape (jhdr j) -> 0 < th_bytes_used b < jh_size (jhdr j) - jhdr_size (jhdr j).
Proof. intros [[_ _ Hu Hf _ _ _ _] _] [? ? ?] [? ? ? ? ? ?]. lia. Qed.

Lemma total_used_nonneg j l dss : Forall2 (ready_in j) l dss -> geometry_ok (jhdr j) -> log_shape (jhdr j) -> 0 <= total_used l.
Proof.
  intros Hl Hg Hs. induction Hl as [|b ds l dss Hb Hl IH]; [done|]. cbn [total_used foldr]. fold (total_used l).
  pose proof (ready_used _ _ _ Hb Hg Hs). lia.
Qed.

Lemma same_ring_shape j1 j2 j3 start n : same_shape j1 j2 -> jhdr j2 = jhdr j1 -> same_ring j1 j2 start n -> same_ring j2 j3 start n -> same_ring j1 j3 start n.
Proof. intros _ E H1 H2 k Hk. rewrite <- H1 by done. rewrite <- E. apply H2, Hk. Qed.

(** The headers of a log with the blocks [bl]. *)
Record logged (j : journal) (seq last pos : Z) (hs : list (Z * block_list_header)) (pos' n : Z) (bl : list (Z * bytes)) : Prop := {
  lg_chain : log_chain j true last pos hs (match hs with [] => last | _ => seq end) pos';
  lg_fits : Forall (fun x => header_fits j (snd x)) hs;
  lg_size : log_size hs = n;
  lg_apply : forall fs, apply_writes j (log_writes j hs) fs = apply_blocks j bl fs;
}.

Lemma logged_cons j seq last pos b hs pos' n bl1 bl2 : 0 < seq -> out_of_sequence last seq = false ->
  header_ok j true pos b -> header_fits j b -> sequence_of b = Some seq ->
  (forall fs, apply_writes j (header_writes j pos b) fs = apply_blocks j bl1 fs) ->
  logged j seq seq (ring (jhdr j) (pos + bytes_used b)) hs pos' n bl2 ->
  logged j seq last pos ((pos, b) :: hs) pos' (bytes_used b + n) (bl1 ++ bl2).
Proof.
  intros Hseq Hin Hok Hfits Hsq Hap [Hch Hf Hsz Hap2]. split.
  - apply (ChainNext _ _ _ _ _ seq); [done|done|lia|done|]. by destruct hs.
  - by constructor.
  - cbn [log_size foldr snd]. fold (log_size hs). by rewrite Hsz.
  - intros fs. unfold log_writes. cbn [fmap list_fmap concat]. fold (log_writes j hs). unfold apply_writes, apply_blocks. rewrite !foldl_app.
    fold (apply_writes j (header_writes j pos b) fs). rewrite Hap. apply Hap2.
Qed.

Lemma out_of_sequence_same seq : out_of_sequence seq seq = false.
Proof. unfold out_of_sequence. rewrite Z.eqb_refl. cbn [negb]. by rewrite andb_false_r. Qed.

Lemma finish_blhdrs_ok seq : 0 < seq < 2 ^ 32 -> forall l dss s end_ last, let j := js_jnl s in
  device_ok j -> writes_ok j -> jdev_io j = [] -> log_shape (jhdr j) -> ISSETJ j JOURNAL_NEED_SWAP = false -> js_write_header_failed s = false ->
  Forall2 (ready_in j) l dss -> jhdr_size (jhdr j) <= end_ <= jh_size (jhdr j) -> (jhdr_size (jhdr j) | end_) ->
  total_used l < jh_size (jhdr j) - jhdr_size (jhdr j) -> out_of_sequence last seq = false ->
  exists l' end' j' hs bs, finish_blhdrs seq end_ l s = Some (true, l', end', with_jnl j' s) /\ all_finished l dss l' /\
    jhdr_size (jhdr j) <= end' <= jh_size (jhdr j) /\ (jhdr_size (jhdr j) | end') /\ ring (jhdr j) end' = ring (jhdr j) (end_ + total_used l) /\
    wrote j end_ (total_used l) bs j' /\
    logged j' seq last (ring (jhdr j) end_) hs (ring (jhdr j) end') (total_used l) (all_blocks l dss).
Proof.
  intros Hseq l. induction l as [|b l IH]; intros dss s end_ last j Hdev Hwr Hio Hlog Hsw Hfail Hl He Hal Htot Hin;
    pose proof Hdev as [Hg _ _ _ _ _]; pose proof Hg as [Hg1 Hg2 Hg3].
  { inversion Hl; subst. exists [], end_, j, [], []. cbn [finish_blhdrs total_used foldr]. rewrite Z.add_0_r.
    split; [by destruct s|]. split; [constructor|]. do 3 (split; [done|]). split.
    - split; [exists (jdev j); split; [by destruct j|done]|done|done].
    - split; [constructor|done|done|done]. }
  destruct (Forall2_cons_inv_l _ _ _ _ Hl) as (ds & dss' & Hb & Hl' & ->). rename dss' into dss.
  pose proof (ready_used _ _ _ Hb Hg Hlog) as Hused. pose proof (total_used_nonneg _ _ _ Hl' Hg Hlog) as Hnn.
  cbn [total_used foldr] in Htot |- *. fold (total_used l) in *.
  pose proof Hb as [Hbr Huw]. pose proof Hbr as [Hinf (R & HR) Hu Hfit Hnum Hmax Hfl Hbl].
  cbn [finish_blhdrs]. rewrite HR. pose proof (finish_infos_ok _ _ _ Hinf [] R eq_refl) as Einf. cbn [app] in Einf. rewrite Einf. cbn [mbind option_bind]. rewrite Hfail.
  set (next := match l with [] => 0 | b :: _ => th_addr b end).
  set (B := written_blhdr j seq next b ds).
  change (disk_blhdr (js_jhdr s) seq next b (block_entry <$> final_blocks (th_info b) ds)) with B.
  destruct (blhdr_memory_eq j Hlog B (written_entries j seq next b ds Hbr)) as [Hmem Hmlen].
  change (js_jhdr s) with (jhdr (js_jnl s)). fold j. rewrite Hmem.
  pose proof (final_size _ _ _ Hinf) as Hsize.
  assert (th_bytes_used b = blhdr_size (jhdr j) + len (concat (snd <$> final_blocks (th_info b) ds))) as Hu' by lia.
  destruct (write_blhdr_ok j Hdev Hwr Hio Hlog end_ _ b (concat (snd <$> final_blocks (th_info b) ds)) R He Hal Hmlen Hu' Hfit)
    as (e1 & j1 & Ew & He1 & Hw1).
  rewrite Ew. cbn [mbind option_bind]. rewrite Z.eqb_refl. cbn [negb].
  destruct (wrote_shape _ _ _ _ _ Hw1) as (Hsh1 & Hjh1 & Hio1 & _ & _ & Hwr1 & Hdev1).
  destruct (ends_whole j Hdev end_ _ e1 He Hal Hused Huw He1) as (Hb1 & Hr1 & Hal1).
  specialize (Hwr1 Hwr). specialize (Hdev1 Hdev). rewrite Hio in Hio1.
  assert (ring (jhdr j) e1 = ring (jhdr j) (ring (jhdr j) end_ + th_bytes_used b)) as Hr1' by (rewrite (ring_ring _ Hg) by lia; done).
  destruct (IH dss (with_jnl j1 s) e1 seq) as (l' & end' & j' & hs & bs & E & Hfin & Hb2 & Hal2 & Hr2 & Hw2 & Hlg);
    cbn [with_jnl js_jnl] in *; rewrite ?Hjh1 in *; try done.
  { by rewrite (ss_swap _ _ Hsh1). }
  { eapply Forall2_impl; [exact Hl'|]. intros. by apply (ready_in_jhdr j). }
  { lia. }
  { apply out_of_sequence_same. }
  rewrite E. cbn [mbind option_bind].
  pose proof (ring_bound _ Hg end_ ltac:(lia)) as Hre.
  assert (wrote j end_ (th_bytes_used b + total_used l) ((store_blhdr false (seal_blhdr false B) ++ concat (snd <$> final_blocks (th_info b) ds)) ++ bs) j') as Hw.
  { apply (wrote_app j Hdev _ _ _ _ _ j1); [done|lia|lia|lia|done|].
    pose proof (ring_bound _ Hg (end_ + th_bytes_used b) ltac:(lia)).
    apply (wrote_ring j1 Hdev1 e1); rewrite ?Hjh1; [done|lia|lia| |done]. rewrite Hr1. symmetry. apply ring_idem; [done|lia]. }
  destruct (wrote_shape _ _ _ _ _ Hw) as (Hsh & Hjh & _ & _ & _ & _ & Hdev'). specialize (Hdev' Hdev).
  pose proof (wt_new _ _ _ _ _ Hw) as Hnew. rewrite (log_bytes_app j' Hdev') in Hnew by (rewrite ?Hjh; lia).
  apply app_inj_1 in Hnew as [Hnew _]; [|pose proof (length_log_bytes j' end_ (th_bytes_used b) ltac:(lia)); rewrite length_app; lia].
  pose proof (ready_in_jhdr j j' b ds Hjh Hb) as [Hbr' Huw'].
  destruct (written_in_log j' Hdev' ltac:(by rewrite Hjh) seq next b ds end_ Hbr') as (Hok & Hfits & Hsq & Hap); try (rewrite ?Hjh; done).
  { by rewrite (ss_swap _ _ Hsh). }
  { unfold written_blhdr. by rewrite Hjh. }
  rewrite Hjh in Hok, Hap. unfold written_blhdr in Hok, Hfits, Hsq, Hap. rewrite Hjh in Hok, Hfits, Hsq, Hap. fold (written_blhdr j seq next b ds) in Hok, Hfits, Hsq, Hap. fold B in Hok, Hfits, Hsq, Hap.
  eexists _, end', j', ((ring (jhdr j) end_, B) :: hs), _. split; [reflexivity|]. split.
  { constructor; [|done]. exists R. by destruct b. }
  split; [done|]. split; [done|]. split.
  { rewrite Hr2. rewrite <- (ring_ring _ Hg e1) by lia. rewrite Hr1, (ring_ring _ Hg) by lia. f_equal. lia. }
  split; [exact Hw|]. unfold all_blocks. cbn [zip_with concat]. fold (all_blocks l dss).
  apply (logged_cons j' seq last _ B); try done; [lia|]. rewrite Hjh. change (bytes_used B) with (th_bytes_used b). by rewrite <- Hr1'.
Qed.
