(* ===== verification/CopyProps.v ===== *)
(** * Copying the buffers of a transaction (core/hfs_journal.c)

    A transaction is ready to be committed when its buffers are in the cache, locked and
    to be written, and have their blocks ([tr_ready]).  end_transaction copies them. *)

From S2P Require Import Prelude HfsFormat Bytes JournalTrim JournalIO JournalCoalesce CoalesceProps JournalReplay JournalIOProps JournalWriteProps ReplayProps ReplayLoop ReplayCorrect BlhdrOrder JournalTransaction JournalCommit LogProps CommitProps.

(** ** Blocks of a transaction *)

Definition buf_hook (b : buf) (data : bytes) : bytes := match bf_filter b with Some f => f data | None => data end.

(** The block of a buffer on the device, and the data that is written there. *)
Definition buf_block (bp : Z) (b : buf) : option (Z * bytes) :=
  blk ← physical_blkno (buf_create_shadow bp 0 b); Some (blk, buf_hook b (bf_data b)).

Definition info_block (m : gmap Z buf) (i : tr_info) : option (Z * bytes) :=
  match ti_u i with UBuf bp => b ← m !! bp; buf_block bp b | _ => None end.

(** The blocks that a transaction changes. *)
Definition tr_blocks (m : gmap Z buf) (tr : transaction) : list (Z * bytes) := omap (info_block m) (concat (th_info <$> tr_blhdrs tr)).

Definition info_bp (i : tr_info) : option Z := match ti_u i with UBuf bp => Some bp | _ => None end.
Definition tr_bps (tr : transaction) : list Z := omap info_bp (concat (th_info <$> tr_blhdrs tr)).

Definition info_size (m : gmap Z buf) (i : tr_info) : Z :=
  match ti_u i with UBuf bp => match m !! bp with Some b => buf_size b | None => 0 end | UInfo n => n | UShadow _ => 0 end.
Definition infos_size (m : gmap Z buf) (l : list tr_info) : Z := foldr (fun i n => info_size m i + n) 0 l.

Definition killed_size (l : list tr_info) : Z := foldr (fun i n => match ti_u i with UInfo size => size + n | _ => n end) 0 l.

#[global] Arguments infos_size : simpl never.
#[global] Arguments killed_size : simpl never.

Lemma infos_size_cons m i l : infos_size m (i :: l) = info_size m i + infos_size m l.
Proof. done. Qed.

Section Ready.
Variable h : journal_header.
Notation bsz := (jhdr_size h).
Notation jsz := (jh_size h).

(** A buffer with a block, or the size of one that was killed. *)
Inductive info_ready (m : gmap Z buf) : tr_info -> Prop :=
| ReadyBuf num bp b blk : m !! bp = Some b -> bf_locked b = true -> bf_delwri b = true -> num <> -1 ->
    physical_blkno (buf_create_shadow bp 0 b) = Some blk -> block_ok h blk (buf_size b) ->
    length (buf_hook b (bf_data b)) = length (bf_data b) -> info_ready m (mkTinfo num (UBuf bp))
| ReadyDead n : 0 < n <= jsz - bsz -> (bsz | n) -> info_ready m (mkTinfo (-1) (UInfo n)).

Record built_blhdr (m : gmap Z buf) (tbuffer_size : Z) (b : tr_blhdr) : Prop := {
  bb_infos : Forall (info_ready m) (th_info b);
  bb_used : th_bytes_used b = blhdr_size h + infos_size m (th_info b);
  bb_room : th_bytes_used b <= tbuffer_size;
  bb_fit : th_bytes_used b < jsz - bsz;
  bb_buffers : len (th_buffers b) = tbuffer_size - blhdr_size h;
  bb_num : th_num_blocks b <= th_max_blocks b;
  bb_max : th_max_blocks b = journal_max_blocks h;
  bb_flags : 0 <= th_flags b < 2 ^ 16 /\ Z.land (th_flags b) BLHDR_CHECK_CHECKSUMS <> 0;
}.
End Ready.

(** The buffers in the cache after they are copied. *)
Definition released (m : gmap Z buf) (bps : list Z) : gmap Z buf := foldl (fun m bp => match m !! bp with Some b => <[bp := release_buf b]> m | None => m end) m bps.

Lemma released_cons m bp bps : released m (bp :: bps) = released (match m !! bp with Some b => <[bp := release_buf b]> m | None => m end) bps.
Proof. done. Qed.

Lemma released_bps_app m bps1 bps2 : released m (bps1 ++ bps2) = released (released m bps1) bps2.
Proof. unfold released. by rewrite foldl_app. Qed.

Lemma released_other m bps bp : bp ∉ bps -> released m bps !! bp = m !! bp.
Proof.
  revert m. induction bps as [|p bps IH]; intros m Hn; [done|]. rewrite released_cons. apply not_elem_of_cons in Hn as [Hp Hn]. rewrite IH by done.
  destruct (m !! p); [|done]. by rewrite lookup_insert_ne.
Qed.

(** What does not need the buffers that are copied. *)
Lemma info_ready_other h m m' i : (forall bp, info_bp i = Some bp -> m' !! bp = m !! bp) -> info_ready h m i -> info_ready h m' i.
Proof. intros Hm Hi. destruct Hi as [num bp b blk Hb| ]; [|by constructor]. econstructor; try done. by rewrite Hm. Qed.

Lemma info_size_other m m' i : (forall bp, info_bp i = Some bp -> m' !! bp = m !! bp) -> info_size m' i = info_size m i.
Proof. intros Hm. unfold info_size, info_bp in *. destruct (ti_u i); [|done..]. by rewrite Hm. Qed.

Lemma info_block_other m m' i : (forall bp, info_bp i = Some bp -> m' !! bp = m !! bp) -> info_block m' i = info_block m i.
Proof. intros Hm. unfold info_block, info_bp in *. destruct (ti_u i); [|done..]. by rewrite Hm. Qed.

Lemma omap_cons {A B} (f : A -> option B) (x : A) (l : list A) : omap f (x :: l) = match f x with Some y => y :: omap f l | None => omap f l end.
Proof. done. Qed.

(** The buffers of the entries are the same. *)
Definition same_bufs (m m' : gmap Z buf) (l : list tr_info) : Prop := forall bp, bp ∈ omap info_bp l -> m' !! bp = m !! bp.

Lemma same_bufs_cons m m' i l : same_bufs m m' (i :: l) -> (forall bp, info_bp i = Some bp -> m' !! bp = m !! bp) /\ same_bufs m m' l.
Proof.
  unfold same_bufs. rewrite omap_cons. intros Hs. destruct (info_bp i) as [p|]; (split; [|intros bp Hbp; apply Hs; by (apply elem_of_cons; right) || done]).
  - intros bp [= <-]. apply Hs, elem_of_cons. by left.
  - done.
Qed.

Lemma same_bufs_all h m m' l : same_bufs m m' l -> (Forall (info_ready h m) l -> Forall (info_ready h m') l) /\ infos_size m' l = infos_size m l /\
  omap (info_block m') l = omap (info_block m) l.
Proof.
  induction l as [|i l IH]; intros Hs; [done|]. apply same_bufs_cons in Hs as [Hi Hs]. destruct (IH Hs) as (IH1 & IH2 & IH3).
  split; [|split].
  - intros Hf. apply Forall_cons in Hf as [H1 H2]. constructor; [by eapply info_ready_other|by apply IH1].
  - by rewrite !infos_size_cons, IH2, (info_size_other m).
  - by rewrite !omap_cons, IH3, (info_block_other m).
Qed.

(** ** copy_buffers *)

(** The live blocks of a list. *)
Definition live (bl : list (Z * bytes)) : list (Z * bytes) := filter (fun x => fst x <> -1) bl.

Lemma live_cons x bl : live (x :: bl) = if decide (fst x <> -1) then x :: live bl else live bl.
Proof. unfold live. by rewrite filter_cons. Qed.

Section Copy.
Variable j : journal.
Hypothesis Hgeo : geometry_ok (jhdr j).
Notation h := (jhdr j).
Notation bsz := (jhdr_size h).
Notation jsz := (jh_size h).

Lemma infos_size_nonneg m l : Forall (info_ready h m) l -> 0 <= infos_size m l.
Proof using Hgeo.
  induction 1 as [|i l Hi _ IH]; [done|]. rewrite infos_size_cons. destruct Hi as [num bp b blk Hb _ _ _ _ [_ Hs _ _] _|n Hn _]; unfold info_size; cbn [ti_u]; [rewrite Hb|]; lia.
Qed.

Lemma with_bufs_same s : with_bufs (js_bufs s) s = s.
Proof. by destruct s. Qed.

Lemma copy_buffers_ok l : forall m A G s, js_bufs s = m -> Forall (info_ready h m) l -> NoDup (omap info_bp l) -> infos_size m l <= len G ->
  exists l' ds G', copy_buffers l (len A) (A ++ G) s = Some (l', A ++ concat ds ++ G', with_bufs (released m (omap info_bp l)) s) /\
    infos_ready (len A) l' ds /\ len (concat ds) = infos_size m l /\ live (final_blocks l' ds) = omap (info_block m) l /\
    Forall (block_fits j) (final_blocks l' ds) /\ length l' = length l /\ killed_size l' = killed_size l /\ len (concat ds ++ G') = len G.
Proof using Hgeo.
  induction l as [|i l IH]; intros m A G s Hm Hl Hnd Hroom.
  { exists [], [], G. cbn [copy_buffers omap list_omap concat]. subst m. unfold released. cbn [foldl]. rewrite with_bufs_same.
    split; [done|]. split; [constructor|]. done. }
  apply Forall_cons in Hl as [Hi Hl]. rewrite infos_size_cons in Hroom. pose proof (infos_size_nonneg m l Hl) as Hnn. rewrite omap_cons in Hnd |- *.
  rewrite omap_cons. destruct Hi as [num bp b blk Hb Hlock Hdw Hnum Hphys Hblk Hhook|n Hn Hw]; unfold info_size in Hroom; cbn [info_bp ti_u ti_bnum copy_buffers] in *.
  - rewrite Hb in Hroom. rewrite (proj2 (Z.eqb_neq _ _)) by done. rewrite Hm, Hb. cbn [mbind option_bind]. rewrite Hlock, Hdw. cbn [andb negb].
    destruct Hblk as [Hk Hs Hsw He] eqn:E1. clear E1. unfold buf_size in *.
    rewrite <- (take_drop (length (bf_data b)) G).
    assert (length (take (length (bf_data b)) G) = length (bf_data b)) as Hlt by (rewrite length_take; lia).
    rewrite (put_bytes_app A (take (length (bf_data b)) G) (bf_data b)) by (done || congruence). cbn [mbind option_bind].
    set (m' := <[bp := release_buf b]> m). set (s' := set_buf bp (release_buf b) s). apply NoDup_cons in Hnd as [Hnin Hnd].
    assert (same_bufs m m' l) as Hsame by (intros p Hp; unfold m'; rewrite lookup_insert_ne; [done|congruence || (intros ->; done)]).
    destruct (same_bufs_all h m m' l Hsame) as (Hl' & Hsz' & Hom').
    destruct (IH m' (A ++ bf_data b) (drop (length (bf_data b)) G) s') as (l' & ds & G' & E & Hr & Hds & Hlive & Hfit & Hlen & Hkill & Htot);
      [unfold s', set_buf; cbn; by rewrite Hm|by apply Hl'|done|rewrite Hsz', length_drop; lia|].
    replace (len A + len (bf_data b)) with (len (A ++ bf_data b)) by (rewrite length_app; lia). rewrite app_assoc, E. cbn [mbind option_bind].
    assert (final_block (mkTinfo num (UShadow (buf_create_shadow bp (len A) b))) (bf_data b) = (blk, buf_hook b (bf_data b))) as Hfb.
    { unfold final_block. cbn [ti_u]. assert (physical_blkno (buf_create_shadow bp (len A) b) = Some blk) as -> by exact Hphys. done. }
    eexists _, (bf_data b :: ds), G'. split; [|split; [|split; [|split; [|split; [|split; [|split]]]]]].
    + rewrite released_cons, Hb. fold m'. cbn [concat]. by rewrite <- !app_assoc.
    + assert (len A + len (bf_data b) = len (A ++ bf_data b)) as El by (rewrite length_app; lia).
      apply (ReadyShadow _ _ _ blk); try done. cbn [sh_size buf_create_shadow]. unfold buf_size. by rewrite El.
    + cbn [concat]. rewrite length_app, infos_size_cons. unfold info_size. cbn [ti_u]. rewrite Hb. unfold buf_size. lia.
    + rewrite final_cons, live_cons, Hfb. rewrite decide_True by (cbn; lia).
      unfold info_block at 1. cbn [ti_u]. rewrite Hb. cbn [mbind option_bind]. unfold buf_block. rewrite Hphys. cbn [mbind option_bind].
      rewrite Hlive, Hom'. done.
    + rewrite final_cons, Hfb. constructor; [|done]. unfold block_fits. cbn [fst snd]. rewrite Hhook.
      split; [done|]. split; [done|]. by intros _.
    + cbn [length]. congruence.
    + exact Hkill.
    + cbn [concat]. rewrite !length_app in *. rewrite length_drop in Htot |- *. lia.
  - change (-1 =? -1) with true. cbn [union_bsize mbind option_bind].
    assert (length (take (Z.to_nat n) G) = Z.to_nat n) as Hlt by (rewrite length_take; lia).
    destruct (IH m (A ++ take (Z.to_nat n) G) (drop (Z.to_nat n) G) s) as (l' & ds & G' & E & Hr & Hds & Hlive & Hfit & Hlen & Hkill & Htot);
      [done|done|done|rewrite length_drop; lia|].
    assert (len A + n = len (A ++ take (Z.to_nat n) G)) as El by (rewrite length_app; lia).
    rewrite <- app_assoc, take_drop in E. rewrite El, E. cbn [mbind option_bind].
    eexists _, (take (Z.to_nat n) G :: ds), G'. split; [|split; [|split; [|split; [|split; [|split; [|split]]]]]].
    + cbn [concat]. by rewrite <- !app_assoc.
    + apply ReadyKilled; [lia|]. by rewrite El.
    + cbn [concat]. rewrite length_app, infos_size_cons. unfold info_size. cbn [ti_u]. lia.
    + rewrite final_cons, live_cons. unfold final_block at 1. cbn [ti_u fst]. rewrite decide_False by (intros H; by apply H). done.
    + rewrite final_cons. constructor; [|done]. unfold final_block, block_fits. cbn [ti_u fst snd]. replace (len (take (Z.to_nat n) G)) with n by lia.
      split; [done|]. split; [done|]. done.
    + cbn [length]. congruence.
    + change (killed_size (mkTinfo (-1) (UInfo n) :: l')) with (n + killed_size l'). change (killed_size (mkTinfo (-1) (UInfo n) :: l)) with (n + killed_size l). lia.
    + cbn [concat]. rewrite !length_app in *. rewrite length_drop in Htot. lia.
Qed.
End Copy.

(** ** All headers *)

Definition blocks_apart (bl : list (Z * bytes)) : Prop := forall i k x y, bl !! i = Some x -> bl !! k = Some y -> i <> k -> forall p,
  fst x <= p < fst x + len (snd x) -> fst y <= p < fst y + len (snd y) -> False.

(** Where a block is on the device. *)
Definition place (bsz : Z) (x : Z * bytes) : Z * bytes := (fst x * bsz, snd x).

Definition tr_infos (tr : transaction) : list tr_info := concat (th_info <$> tr_blhdrs tr).

(** A transaction that can be committed. *)
Record tr_ready (h : journal_header) (m : gmap Z buf) (tr : transaction) : Prop := {
  rt_blhdrs : Forall (built_blhdr h m (tr_tbuffer_size tr)) (tr_blhdrs tr);
  rt_bps : NoDup (tr_bps tr);
  rt_total : tr_total_bytes tr = total_used (tr_blhdrs tr);
  rt_fit : tr_total_bytes tr < jh_size h - jhdr_size h;
  rt_killed : tr_num_killed tr = killed_size (tr_infos tr);
  rt_some : tr_blocks m tr <> [];
  rt_apart : blocks_apart (place (jhdr_size h) <$> tr_blocks m tr);
}.

Lemma omap_app_list {A B} (f : A -> option B) (l1 l2 : list A) : omap f (l1 ++ l2) = omap f l1 ++ omap f l2.
Proof. induction l1 as [|x l1 IH]; [done|]. cbn [app]. rewrite !omap_cons, IH. by destruct (f x). Qed.

Lemma live_app bl1 bl2 : live (bl1 ++ bl2) = live bl1 ++ live bl2.
Proof. unfold live. apply filter_app. Qed.

Lemma infos_whole h m l : Forall (info_ready h m) l -> (jhdr_size h | infos_size m l).
Proof.
  induction 1 as [|i l Hi _ IH]; [by exists 0|]. rewrite infos_size_cons. apply Z.divide_add_r; [|done].
  destruct Hi as [num bp b blk Hb _ _ _ _ [_ _ Hs _] _|n _ Hn]; unfold info_size; cbn [ti_u]; [by rewrite Hb|done].
Qed.

Lemma released_same m bps l : (forall bp, bp ∈ omap info_bp l -> bp ∉ bps) -> same_bufs m (released m bps) l.
Proof. intros Hn bp Hbp. apply released_other. by apply Hn. Qed.

Lemma copy_blhdrs_ok j T : geometry_ok (jhdr j) -> (jhdr_size (jhdr j) | blhdr_size (jhdr j)) -> forall l s m, js_bufs s = m ->
  Forall (built_blhdr (jhdr j) m T) l -> NoDup (omap info_bp (concat (th_info <$> l))) ->
  exists l' dss, copy_blhdrs l s = Some (l', with_bufs (released m (omap info_bp (concat (th_info <$> l)))) s) /\ Forall2 (ready_in j) l' dss /\
    live (all_blocks l' dss) = omap (info_block m) (concat (th_info <$> l)) /\ total_used l' = total_used l /\ length l' = length l.
Proof.
  intros Hg Hw. induction l as [|b l IH]; intros s m Hm Hl Hnd.
  { exists [], []. subst m. cbn [copy_blhdrs fmap list_fmap concat omap list_omap]. unfold released. cbn [foldl]. rewrite with_bufs_same. done. }
  apply Forall_cons in Hl as [[Hinf Hu Hroom Hfit Hbufs Hnum Hmax Hfl] Hl]. rewrite fmap_cons in Hnd |- *. cbn [concat] in Hnd |- *. rewrite omap_app_list in Hnd.
  apply NoDup_app in Hnd as (Hnd1 & Hnd12 & Hnd2). cbn [copy_blhdrs].
  destruct (copy_buffers_ok j Hg (th_info b) m [] (th_buffers b) s Hm Hinf Hnd1 ltac:(lia)) as (info & ds & G & E & Hr & Hds & Hlive & Hbf & Hlen & _ & Htot).
  cbn [app length] in E. change (Z.of_nat 0) with 0 in *. rewrite E. cbn [mbind option_bind].
  assert (same_bufs m (released m (omap info_bp (th_info b))) (concat (th_info <$> l))) as Hsame.
  { apply released_same. intros bp Hbp Hin. by apply (Hnd12 bp). }
  destruct (IH (with_bufs (released m (omap info_bp (th_info b))) s) (released m (omap info_bp (th_info b)))) as (l' & dss & E' & Hf2 & Hlive' & Htot' & Hlen').
  { done. }
  { clear -Hl Hsame. induction Hl as [|b1 l Hb1 Hl IH]; [done|]. rewrite fmap_cons in Hsame. cbn [concat] in Hsame.
    assert (same_bufs m (released m (omap info_bp (th_info b))) (th_info b1) /\ same_bufs m (released m (omap info_bp (th_info b))) (concat (th_info <$> l))) as [H1 H2]
      by (unfold same_bufs in *; rewrite omap_app_list in Hsame; split; intros bp Hbp; apply Hsame, elem_of_app; auto).
    constructor; [|by apply IH]. destruct Hb1 as [Hi Hu ? ? ? ? ? ?]. destruct (same_bufs_all (jhdr j) _ _ _ H1) as (G1 & G2 & _). split; try done; [by apply G1|by rewrite G2]. }
  { done. }
  rewrite E'. cbn [mbind option_bind]. eexists _, (ds :: dss). split; [by rewrite omap_app_list, released_bps_app|]. split; [|split; [|split]].
  - constructor; [|done]. split.
    + split; cbn [set_info th_info th_buffers th_bytes_used th_max_blocks th_flags]; try done.
      * by exists G.
      * by rewrite Hds.
      * unfold th_num_blocks in *. cbn [set_info th_info th_max_blocks]. lia.
    + cbn [set_info th_bytes_used]. rewrite Hu. apply Z.divide_add_r; [done|]. by apply (infos_whole (jhdr j)).
  - unfold all_blocks. cbn [zip_with concat]. rewrite live_app. cbn [set_info th_info]. rewrite Hlive. fold (all_blocks l' dss). rewrite Hlive', omap_app_list. f_equal.
    by destruct (same_bufs_all (jhdr j) _ _ _ Hsame) as (_ & _ & ->).
  - cbn [total_used foldr set_info th_bytes_used]. fold (total_used l'). fold (total_used l). by rewrite Htot'.
  - cbn. by rewrite Hlen'.
Qed.

(** ** Sizes *)

Definition blocks_bytes (bl : list (Z * bytes)) : Z := foldr (fun x n => len (snd x) + n) 0 bl.

Lemma infos_bytes h m l : Forall (info_ready h m) l -> infos_size m l = killed_size l + blocks_bytes (omap (info_block m) l).
Proof.
  induction 1 as [|i l Hi _ IH]; [done|]. rewrite infos_size_cons, omap_cons, IH. destruct Hi as [num bp b blk Hb _ _ _ Hp _ Hh|n _ _].
  - unfold info_size, info_block at 2. cbn [ti_u]. rewrite Hb. cbn [mbind option_bind]. unfold buf_block. rewrite Hp. cbn [mbind option_bind].
    change (killed_size (mkTinfo num (UBuf bp) :: l)) with (killed_size l). unfold buf_size. cbn [blocks_bytes foldr snd]. fold (blocks_bytes (omap (info_block m) l)). rewrite Hh. lia.
  - change (killed_size (mkTinfo (-1) (UInfo n) :: l)) with (n + killed_size l). change (info_size m (mkTinfo (-1) (UInfo n))) with n. cbn [info_block ti_u]. lia.
Qed.

Lemma killed_size_app l1 l2 : killed_size (l1 ++ l2) = killed_size l1 + killed_size l2.
Proof. induction l1 as [|[n [bp|sbp|size]] l1 IH]; [done|..]; cbn [app]; unfold killed_size in *; cbn [foldr ti_u]; lia. Qed.

Lemma blocks_bytes_app l1 l2 : blocks_bytes (l1 ++ l2) = blocks_bytes l1 + blocks_bytes l2.
Proof. induction l1 as [|x l1 IH]; [done|]. cbn [app blocks_bytes foldr]. fold (blocks_bytes (l1 ++ l2)). fold (blocks_bytes l1). lia. Qed.

Lemma total_bytes h m T l : Forall (built_blhdr h m T) l ->
  total_used l = len l * blhdr_size h + killed_size (concat (th_info <$> l)) + blocks_bytes (omap (info_block m) (concat (th_info <$> l))).
Proof.
  induction 1 as [|b l Hb _ IH]; [done|]. rewrite fmap_cons. cbn [concat total_used foldr length]. fold (total_used l).
  rewrite omap_app_list, killed_size_app, blocks_bytes_app, IH. destruct Hb as [Hi -> _ _ _ _ _ _]. rewrite (infos_bytes h m _ Hi). lia.
Qed.

Lemma killed_nonneg h m l : Forall (info_ready h m) l -> 0 <= killed_size l.
Proof. induction 1 as [|i l Hi _ IH]; [done|]. destruct Hi as [| n Hn _]; unfold killed_size in *; cbn [foldr ti_u]; lia. Qed.

Lemma blocks_bytes_pos h m l : Forall (info_ready h m) l -> 0 <= blocks_bytes (omap (info_block m) l) /\ (omap (info_block m) l <> [] -> 0 < blocks_bytes (omap (info_block m) l)).
Proof.
  induction 1 as [|i l Hi _ [IH1 IH2]]; [done|]. rewrite omap_cons. destruct Hi as [num bp b blk Hb _ _ _ Hp [_ Hs _ _] Hh|n _ _]; [|done].
  assert (info_block m (mkTinfo num (UBuf bp)) = Some (blk, buf_hook b (bf_data b))) as ->.
  { unfold info_block. cbn [ti_u]. rewrite Hb. cbn [mbind option_bind]. unfold buf_block. by rewrite Hp. }
  change (blocks_bytes ((blk, buf_hook b (bf_data b)) :: omap (info_block m) l)) with (len (buf_hook b (bf_data b)) + blocks_bytes (omap (info_block m) l)).
  rewrite Hh. unfold buf_size in Hs. split; [lia|]. intros _. lia.
Qed.

Lemma built_infos h m T l : Forall (built_blhdr h m T) l -> Forall (info_ready h m) (concat (th_info <$> l)).
Proof. induction 1 as [|b l [Hi _ _ _ _ _ _ _] _ IH]; [by apply Forall_nil|]. rewrite fmap_cons. cbn [concat]. by apply Forall_app. Qed.

(** ** What is issued *)

Lemma live_final_pos off l ds : infos_ready off l ds -> Forall (fun x => 0 <= fst x) (live (final_blocks l ds)).
Proof.
  induction 1 as [|off n l d ds Hn Hr IH|off num sbp blk l d ds Hnum Hp Hs Hb Hpos Hh Hr IH]; [by apply Forall_nil| |]; rewrite final_cons, live_cons.
  - rewrite decide_False; [done|]. by intros H.
  - assert (final_block (mkTinfo num (UShadow sbp)) d = (blk, hook_of sbp d)) as -> by (unfold final_block; cbn [ti_u]; by rewrite Hb).
    rewrite decide_True by (cbn; lia). by constructor.
Qed.

Lemma issue_writes_ok bsz off l ds : infos_ready off l ds -> forall A R, off = len A ->
  issue_writes bsz (final_info <$> l) (A ++ concat (snd <$> final_blocks l ds) ++ R) = Some (place bsz <$> live (final_blocks l ds)).
Proof.
  induction 1 as [off|off n l d ds Hn Hr IH|off num sbp blk l d ds Hnum Hp Hs Hb Hpos Hh Hr IH]; intros A R HA; [done| |];
    rewrite final_cons, live_cons, !fmap_cons; cbn [concat issue_writes].
  - rewrite <- app_assoc, (app_assoc A). cbn [final_block ti_u snd]. rewrite IH by (rewrite length_app; lia). cbn [mbind option_bind].
    cbn [final_info ti_u]. rewrite decide_False; [done|]. by intros H.
  - assert (final_block (mkTinfo num (UShadow sbp)) d = (blk, hook_of sbp d)) as -> by (unfold final_block; cbn [ti_u]; by rewrite Hb).
    assert (final_info (mkTinfo num (UShadow sbp)) = mkTinfo blk (UShadow (set_blkno blk sbp))) as -> by (unfold final_info; cbn [ti_u]; by rewrite Hb).
    cbn [snd]. rewrite decide_True by (cbn; lia). rewrite <- app_assoc, (app_assoc A). rewrite IH by (rewrite length_app; lia). cbn [mbind option_bind ti_u set_blkno sh_dataptr sh_size sh_blkno].
    rewrite <- app_assoc. rewrite get_bytes_app by (rewrite ?Hh; congruence). done.
Qed.

Lemma issue_all_ok bsz j l dss l' : Forall2 (ready_in j) l dss -> all_finished l dss l' ->
  issue_all bsz l' = Some (place bsz <$> live (all_blocks l dss)).
Proof.
  intros Hl Hf. induction Hf as [|b ds b' l dss l' (R & ->) Hf IH]; [done|]. apply Forall2_cons in Hl as [[Hb _] Hl]. cbn [issue_all set_info th_info th_buffers].
  rewrite (issue_writes_ok bsz 0 _ _ (br_infos _ _ _ Hb) [] R eq_refl : issue_writes bsz _ (concat _ ++ R) = _). cbn [mbind option_bind]. rewrite IH by done. cbn [mbind option_bind].
  unfold all_blocks. cbn [zip_with concat]. by rewrite live_app, fmap_app.
Qed.
