(* ===== verification/SpaceProps.v ===== *)
(** * The room in the journal (core/hfs_journal.c)

    The journal has the logs of transactions that were committed, one behind the other,
    from its start to its end ([segs_ok]).  Replaying them gives the file system as the
    committed transactions make it, [LS], whatever of their blocks is written already
    ([jmem]).  check_free_space moves the start over transactions that are done, never over
    the one that is being written. *)

From S2P Require Import Prelude HfsFormat Bytes JournalTrim JournalIO JournalCoalesce CoalesceProps JournalReplay JournalIOProps JournalWriteProps ReplayProps ReplayLoop ReplayCorrect BlhdrOrder JournalTransaction JournalCommit LogProps CommitProps.

(** ** Positions *)

Section Room.
Variable h : journal_header.
Hypothesis Hg : geometry_ok h.
Notation bsz := (jhdr_size h).
Notation jsz := (jh_size h).

(** The end is [n] bytes behind the start; both are the same when the journal is empty. *)
Lemma log_free_space n : bsz <= jh_start h <= jsz -> bsz <= jh_end h <= jsz -> 0 <= n < jsz - bsz ->
  ring h (jh_end h) = ring h (jh_start h + n) -> (n = 0 -> jh_start h = jh_end h) -> free_space h = jsz - bsz - n.
Proof using Hg.
  intros Hs He Hn Hr Hz. pose proof Hg as [? ? ?]. unfold free_space, ring in *.
  destruct (Z.eq_dec n 0) as [->|Hne]; [rewrite Hz by done; rewrite !Z.ltb_irrefl; lia|].
  destruct (Z.ltb_spec (jh_start h) (jh_end h)); [|destruct (Z.ltb_spec (jh_end h) (jh_start h))]; revert Hr; zcases.
Qed.

Lemma ring_apart_behind j start n end_ m : jhdr j = h -> bsz <= start <= jsz -> bsz <= end_ <= jsz -> 0 <= n -> n + m <= jsz - bsz ->
  ring h end_ = ring h (start + n) -> ring_apart j (ring h start) n end_ m.
Proof using Hg.
  intros Ej Hs He Hn Hm Hr i k Hi Hk. rewrite Ej. pose proof Hg as [? ? ?].
  rewrite (ring_ring h Hg) by lia. rewrite <- (ring_ring h Hg end_) by lia. rewrite Hr. rewrite (ring_ring h Hg) by lia. unfold ring. zcases.
Qed.
End Room.

(** ** The committed transactions *)

(** Where a transaction starts and ends, and its log. *)
Record seg := mkSeg { sg_start : Z; sg_end : Z; sg_log : list (Z * block_list_header) }.

Definition sg_size (g : seg) : Z := log_size (sg_log g).
Definition segs_size (segs : list seg) : Z := foldr (fun g n => sg_size g + n) 0 segs.
Definition segs_log (segs : list seg) : list (Z * block_list_header) := concat (sg_log <$> segs).

Section Segs.
Variable j : journal.
Notation h := (jhdr j).
Notation bsz := (jhdr_size h).
Notation jsz := (jh_size h).

Inductive segs_ok : Z -> Z -> list seg -> Z -> Z -> Prop :=
| SegsEnd last pos : segs_ok last pos [] last pos
| SegsNext last g last1 segs last' pos' :
    log_chain j true last (ring h (sg_start g)) (sg_log g) last1 (ring h (sg_end g)) ->
    Forall (fun x => header_fits j (snd x)) (sg_log g) -> 0 < sg_size g ->
    bsz <= sg_end g <= jsz -> (bsz | sg_end g) -> ring h (sg_end g) = ring h (sg_start g + sg_size g) ->
    segs_ok last1 (sg_end g) segs last' pos' -> segs_ok last (sg_start g) (g :: segs) last' pos'.

Lemma segs_size_cons g segs : segs_size (g :: segs) = sg_size g + segs_size segs.
Proof. done. Qed.

Lemma segs_log_cons g segs : segs_log (g :: segs) = sg_log g ++ segs_log segs.
Proof. done. Qed.

Lemma segs_size_app segs1 segs2 : segs_size (segs1 ++ segs2) = segs_size segs1 + segs_size segs2.
Proof. induction segs1 as [|g segs IH]; [done|]. cbn [app]. rewrite !segs_size_cons, IH. lia. Qed.

Lemma segs_log_app segs1 segs2 : segs_log (segs1 ++ segs2) = segs_log segs1 ++ segs_log segs2.
Proof. unfold segs_log. by rewrite fmap_app, concat_app. Qed.

Lemma segs_chain last pos segs last' pos' : segs_ok last pos segs last' pos' ->
  log_chain j true last (ring h pos) (segs_log segs) last' (ring h pos') /\ Forall (fun x => header_fits j (snd x)) (segs_log segs) /\
  0 <= segs_size segs /\ log_size (segs_log segs) = segs_size segs.
Proof.
  induction 1 as [|last g last1 segs last' pos' Hch Hf Hsz _ _ _ _ (IH1 & IH2 & IH3 & IH4)]; [split; [constructor|done]|].
  rewrite segs_log_cons, segs_size_cons. split; [by eapply chain_app|]. split; [by apply Forall_app|]. split; [lia|].
  rewrite <- IH4. unfold sg_size, log_size. rewrite foldr_app. generalize (sg_log g) as l. induction l as [|x l IH]; [done|]. cbn. lia.
Qed.

Lemma segs_bounds last pos segs last' pos' : segs_ok last pos segs last' pos' -> bsz <= pos <= jsz -> (bsz | pos) -> bsz <= pos' <= jsz /\ (bsz | pos').
Proof. induction 1; auto. Qed.

Lemma segs_end last pos segs last' pos' : geometry_ok h -> segs_ok last pos segs last' pos' -> bsz <= pos <= jsz -> segs_size segs < jsz - bsz ->
  ring h pos' = ring h (pos + segs_size segs) /\ (segs_size segs = 0 -> pos = pos').
Proof.
  intros Hg Hs. induction Hs as [|last g last1 segs last' pos' Hch Hf Hsz Hb Hal Hr Hs IH]; intros Hp Hlt; [cbn; by rewrite Z.add_0_r|].
  rewrite segs_size_cons in *. pose proof (segs_chain _ _ _ _ _ Hs) as (_ & _ & Hnn & _). pose proof Hg as [? ? ?].
  destruct (IH Hb ltac:(lia)) as [IH1 _]. split; [|lia]. rewrite IH1. rewrite <- (ring_ring h Hg (sg_end g)) by lia. rewrite Hr, (ring_ring h Hg) by lia.
  f_equal. lia.
Qed.

Lemma segs_app last pos segs1 last1 pos1 segs2 last' pos' : segs_ok last pos segs1 last1 pos1 -> segs_ok last1 pos1 segs2 last' pos' ->
  segs_ok last pos (segs1 ++ segs2) last' pos'.
Proof. induction 1; [done|]. intros. cbn [app]. econstructor; eauto. Qed.

Lemma segs_split last pos segs1 segs2 last' pos' : segs_ok last pos (segs1 ++ segs2) last' pos' ->
  exists last1 pos1, segs_ok last pos segs1 last1 pos1 /\ segs_ok last1 pos1 segs2 last' pos'.
Proof.
  revert last pos. induction segs1 as [|g segs1 IH]; intros last pos Hs; [exists last, pos; split; [constructor|done]|].
  inversion Hs; subst. edestruct IH as (l1 & p1 & G1 & G2); [eassumption|]. exists l1, p1. split; [|done]. by econstructor.
Qed.

(** The first transaction may be any. *)
Lemma segs_restart last pos segs last' pos' : segs_ok last pos segs last' pos' -> segs <> [] -> segs_ok 0 pos segs last' pos'.
Proof.
  destruct 1 as [|last g last1 segs last' pos' Hch]; [done|]. intros _. econstructor; try done.
  inversion Hch; subst; [|by econstructor]. unfold sg_size in *. by replace (sg_log g) with (@nil (Z * block_list_header)) in * by done.
Qed.
End Segs.

Lemma segs_same j j' last pos segs last' pos' : same_shape j j' -> geometry_ok (jhdr j) -> 0 < blhdr_size (jhdr j) -> segs_ok j last pos segs last' pos' ->
  jhdr_size (jhdr j) <= pos <= jh_size (jhdr j) -> segs_size segs < jh_size (jhdr j) - jhdr_size (jhdr j) ->
  same_ring j j' (ring (jhdr j) pos) (segs_size segs) -> segs_ok j' last pos segs last' pos'.
Proof.
  intros Hsh Hg Hb Hs. induction Hs as [|last g last1 segs last' pos' Hch Hf Hsz He Hal Hr Hs IH]; intros Hp Hle Hsame; [constructor|].
  rewrite segs_size_cons in *. pose proof (segs_chain _ _ _ _ _ _ Hs) as (_ & _ & Hnn & _). pose proof Hg as [? ? ?].
  pose proof (ring_bound _ Hg (sg_start g) ltac:(lia)).
  assert (forall p, ring (jhdr j') p = ring (jhdr j) p) as Hring by by apply ring_shape.
  apply (SegsNext j' last g last1); rewrite ?Hring, ?(ss_block _ _ Hsh), ?(ss_size _ _ Hsh); try done.
  - apply (chain_same j j' Hsh); try done. { unfold sg_size in *. lia. } intros k Hk. apply Hsame. unfold sg_size in *. lia.
  - eapply Forall_impl; [exact Hf|]. intros x. unfold header_fits. by rewrite (ss_blhdr _ _ Hsh).
  - apply IH; [done|lia|]. rewrite Hr. assert (ring (jhdr j) (sg_start g + sg_size g) = ring (jhdr j) (ring (jhdr j) (sg_start g) + sg_size g)) as -> by by rewrite (ring_ring _ Hg) by lia.
    apply (same_ring_sub j j' (ring (jhdr j) (sg_start g)) (sg_size g + segs_size segs)); try done; lia.
Qed.

Lemma segs_starts j last pos segs last' pos' : segs_ok j last pos segs last' pos' -> jhdr_size (jhdr j) <= pos <= jh_size (jhdr j) ->
  Forall (fun g => jhdr_size (jhdr j) <= sg_start g <= jh_size (jhdr j)) segs.
Proof. induction 1; intros; constructor; auto. Qed.

(** Two transactions do not start at the same place. *)
Lemma segs_apart j last pos g segs last' pos' : geometry_ok (jhdr j) -> segs_ok j last pos (segs ++ [g]) last' pos' ->
  jhdr_size (jhdr j) <= pos <= jh_size (jhdr j) -> segs_size (segs ++ [g]) < jh_size (jhdr j) - jhdr_size (jhdr j) ->
  Forall (fun g' => sg_start g' <> sg_start g) segs /\ sg_end g = pos'.
Proof.
  intros Hg. revert last pos. induction segs as [|g1 segs IH]; intros last pos Hs Hp Hlt; cbn [app] in *.
  - inversion Hs as [|? ? ? ? ? ? ? ? ? ? ? ? Hend]; subst. by inversion Hend; subst.
  - inversion Hs as [|? ? last1 ? ? ? ? ? Hsz He Hal Hr Hrest]; subst. rewrite segs_size_cons in Hlt.
    destruct (IH _ _ Hrest He ltac:(lia)) as [IH1 IH2]. split; [|done]. constructor; [|done].
    destruct (segs_split _ _ _ _ _ _ _ Hrest) as (l1 & p1 & G1 & G2). rewrite segs_size_app in Hlt. rewrite segs_size_cons in Hlt.
    assert (p1 = sg_start g) as -> by by inversion G2. inversion G2 as [|? ? ? ? ? ? ? ? Hsz2]; subst. change (segs_size []) with 0 in Hlt.
    pose proof (segs_chain _ _ _ _ _ _ G1) as (_ & _ & Hnn & _). pose proof Hg as [? ? ?].
    destruct (segs_end _ _ _ _ _ _ Hg G1 He ltac:(lia)) as [E1 _]. intros Heq.
    rewrite <- Heq in E1. rewrite <- (ring_ring _ Hg (sg_end g1)) in E1 by lia. rewrite Hr, (ring_ring _ Hg) in E1 by lia.
    revert E1. unfold ring. zcases.
Qed.

(** ** The state of the journal *)

(** The entries of old_start for transactions, the last of which is not done. *)
Inductive olds_ok : bool -> list seg -> list Z -> Prop :=
| OldsEnd : olds_ok false [] []
| OldsMarked g : olds_ok true [g] [Z.lor (sg_start g) OLD_MARK]
| OldsNext async g back l : olds_ok async back l -> olds_ok async (g :: back) (sg_start g :: l).

Definition writes_size (l : list (Z * bytes)) : Z := foldr (fun w n => len (snd w) + n) 0 l.

Definition in_write (w : Z * bytes) (x : Z) : Prop := fst w <= x < fst w + len (snd w).

(** The transaction [g] is being written to the file system by [f]. *)
Record flying_ok (j : journal) (g : seg) (LS : gmap Z Z) (f : flying) : Prop := {
  fo_start : tr_journal_start (fl_tr f) = sg_start g;
  fo_end : tr_journal_end (fl_tr f) = sg_end g;
  fo_pending : fl_writes f <> [];
  fo_amount : tr_num_killed (fl_tr f) + tr_num_flushed (fl_tr f) + writes_size (fl_writes f) = tr_total_bytes (fl_tr f);
  fo_bounds : 0 <= tr_num_killed (fl_tr f) /\ 0 <= tr_num_flushed (fl_tr f) /\ tr_total_bytes (fl_tr f) < 2 ^ 30;
  fo_sizes : Forall (fun w => 0 < len (snd w)) (fl_writes f);
  fo_agree : Forall (fun w => write_fs (fst w) (snd w) LS = LS) (fl_writes f);
  fo_logged : forall x, Exists (fun w => in_write w x) (fl_writes f) -> last_write j (log_writes j (sg_log g)) x <> None;
  fo_rest : forall x, fsdev j !! x = LS !! x \/ Exists (fun w => in_write w x) (fl_writes f);
}.

Definition nothing_pending (o : option flying) : Prop := match o with Some f => fl_writes f = [] | None => True end.

(** What is being written, and what is on the file system. *)
Definition disk_ok (s : jstate) (segs : list seg) (LS : gmap Z Z) : Prop :=
  if js_asyncIO s
  then exists segs' g f, segs = segs' ++ [g] /\ js_active_start s = sg_start g /\ js_flying s = Some f /\ flying_ok (js_jnl s) g LS f
  else js_active_start s = jh_end (js_jhdr s) /\ nothing_pending (js_flying s) /\ fsdev (js_jnl s) = LS.

(** The log is of the transactions [segs], the last of which has the number [last]. *)
Record jlog (j : journal) (segs : list seg) (last : Z) (LS : gmap Z Z) : Prop := {
  jl_dev : device_ok j;
  jl_wr : writes_ok j;
  jl_io : jdev_io j = [];
  jl_log : log_shape (jhdr j);
  jl_swap : ISSETJ j JOURNAL_NEED_SWAP = false;
  jl_valid : ISSETJ j JOURNAL_INVALID = false;
  jl_start : jhdr_size (jhdr j) <= jh_start (jhdr j) <= jh_size (jhdr j);
  jl_whole : (jhdr_size (jhdr j) | jh_start (jhdr j));
  jl_segs : segs_ok j 0 (jh_start (jhdr j)) segs last (jh_end (jhdr j));
  jl_size : segs_size segs < jh_size (jhdr j) - jhdr_size (jhdr j);
  jl_stable : forall x p, last_write j (log_writes j (segs_log segs)) x = Some p -> LS !! x = Some (at_journal j p);
}.

(** The entries of old_start are [k] free ones and those of the transactions [back]; the
    transactions [front] are in the log, too. *)
Record jmem (s : jstate) (k : nat) (front back : list seg) (last : Z) (LS : gmap Z Z) : Prop := {
  jm_log : jlog (js_jnl s) (front ++ back) last LS;
  jm_old : exists l, js_old_start s = replicate k 0 ++ l /\ olds_ok (js_asyncIO s) back l;
  jm_disk : disk_ok s (front ++ back) LS;
  jm_completed : js_completed_trs s = [];
}.

(** Only the start and what has to do with transactions that are written changed. *)
Definition frame (s s' : jstate) : Prop := exists start fs a o c b f,
  s' = with_flying b f (with_starts a o c
         (with_jnl (with_fsdev fs (fsdev_io (js_jnl s)) (with_jhdr (set_range start (jh_end (js_jhdr s)) (js_jhdr s)) (js_jnl s))) s)).

Lemma frame_fs fs a o c b f s : frame s (with_flying b f (with_starts a o c (with_jnl (with_fsdev fs (fsdev_io (js_jnl s)) (js_jnl s)) s))).
Proof.
  exists (jh_start (js_jhdr s)), fs, a, o, c, b, f. destruct s as [j]. unfold js_jhdr. cbn. destruct j as [h]. cbn. by destruct h.
Qed.

Lemma frame_refl s : frame s s.
Proof.
  pose proof (frame_fs (fsdev (js_jnl s)) (js_active_start s) (js_old_start s) (js_completed_trs s) (js_asyncIO s) (js_flying s) s) as H.
  destruct s as [j]. cbn in *. by destruct j.
Qed.

Lemma frame_trans s1 s2 s3 : frame s1 s2 -> frame s2 s3 -> frame s1 s3.
Proof. intros (st1 & fs1 & a1 & o1 & c1 & b1 & f1 & ->) (st2 & fs2 & a2 & o2 & c2 & b2 & f2 & ->). exists st2, fs2, a2, o2, c2, b2, f2. reflexivity. Qed.

(** ** Marks *)

Lemma land_mark v : 0 <= v < 2 ^ 63 -> Z.land v OLD_MARK = 0.
Proof.
  intros Hv. change OLD_MARK with (2 ^ 63). apply Z.bits_inj'. intros n Hn. rewrite Z.land_spec, Z.bits_0, Z.pow2_bits_eqb by lia.
  destruct (Z.eqb_spec 63 n) as [<-|]; [|apply andb_false_r]. rewrite andb_true_r. destruct (Z.eq_dec v 0) as [->|]; [apply Z.bits_0|].
  apply Z.bits_above_log2; [lia|]. apply Z.log2_lt_pow2; lia.
Qed.

Lemma mark_add v : 0 <= v < 2 ^ 63 -> Z.lor v OLD_MARK = v + 2 ^ 63.
Proof. intros Hv. rewrite <- Z.lxor_lor by by apply land_mark. rewrite <- Z.add_nocarry_lxor by by apply land_mark. done. Qed.

Lemma unmark_plain v : 0 <= v < 2 ^ 63 -> unmark v = v /\ marked v = false.
Proof.
  intros Hv. unfold unmark, marked. rewrite land_mark by done. split; [|done].
  apply Z.bits_inj'. intros n Hn. rewrite Z.land_spec, Z.lnot_spec by lia.
  assert (Z.testbit (Z.land v OLD_MARK) n = false) as H by by rewrite land_mark, Z.bits_0. rewrite Z.land_spec in H.
  destruct (Z.testbit v n), (Z.testbit OLD_MARK n); done.
Qed.

Lemma unmark_marked v : 0 <= v < 2 ^ 63 -> unmark (Z.lor v OLD_MARK) = v /\ marked (Z.lor v OLD_MARK) = true.
Proof.
  intros Hv. split.
  - unfold unmark. apply Z.bits_inj'. intros n Hn. rewrite Z.land_spec, Z.lor_spec, Z.lnot_spec by lia.
    assert (Z.testbit (Z.land v OLD_MARK) n = false) as H by by rewrite land_mark, Z.bits_0. rewrite Z.land_spec in H.
    destruct (Z.testbit v n), (Z.testbit OLD_MARK n); done.
  - unfold marked. rewrite Z.land_comm, Z.land_lor_distr_r, Z.land_diag, (Z.land_comm OLD_MARK), land_mark by done. done.
Qed.

#[global] Arguments writes_size : simpl never.

(** ** A write to the file system completes *)

Lemma write_fs_stable pos data LS x : write_fs pos data LS = LS -> pos <= x < pos + len data -> LS !! x = data !! Z.to_nat (x - pos).
Proof.
  intros E Hx. rewrite <- E at 1. rewrite lookup_write_fs. by rewrite (proj2 (Z.leb_le _ _)), (proj2 (Z.ltb_lt _ _)) by lia.
Qed.

Lemma delete_in {A} (x : A) (l : list A) (k : nat) : x ∈ delete k l -> x ∈ l.
Proof.
  intros Hx. apply list_elem_of_lookup in Hx as [i Hi]. apply list_elem_of_lookup.
  destruct (decide (i < k)%nat) as [Hlt|Hlt]; [rewrite list_lookup_delete_lt in Hi by done|rewrite list_lookup_delete_ge in Hi by lia]; by eexists.
Qed.

Lemma delete_forall {A} (P : A -> Prop) (l : list A) (k : nat) : Forall P l -> Forall P (delete k l).
Proof. intros H. rewrite !Forall_forall in *. intros x Hx. by eapply H, delete_in. Qed.

Lemma delete_exists {A} (P : A -> Prop) (l : list A) (k : nat) : Exists P (delete k l) -> Exists P l.
Proof. rewrite !Exists_exists. intros (x & Hx & HP). exists x. split; [by eapply delete_in|done]. Qed.

Lemma writes_size_cons w l : writes_size (w :: l) = len (snd w) + writes_size l.
Proof. done. Qed.

Lemma writes_size_delete l k w : l !! k = Some w -> writes_size l = len (snd w) + writes_size (delete k l).
Proof.
  revert k. induction l as [|v l IH]; intros [|k] E; try done; cbn in E; [by injection E as ->|].
  change (delete (S k) (v :: l)) with (v :: delete k l). rewrite !writes_size_cons, (IH _ E). lia.
Qed.

Lemma writes_size_pos l : Forall (fun w => 0 < len (snd w)) l -> 0 <= writes_size l /\ (l <> [] -> 0 < writes_size l).
Proof.
  induction 1 as [|w l Hw _ [IH _]]; [done|]. rewrite writes_size_cons. split; lia.
Qed.

Lemma exists_delete {A} (P : A -> Prop) (l : list A) (k : nat) w : l !! k = Some w -> Exists P l -> P w \/ Exists P (delete k l).
Proof.
  revert k. induction l as [|v l IH]; intros [|k] E H; try done; cbn in E.
  - injection E as ->. by apply Exists_cons in H.
  - apply Exists_cons in H as [H|H]; [right; by apply Exists_cons; left|]. destruct (IH _ E H); [by left|right; by apply Exists_cons; right].
Qed.

(** *** The journal while other parts change *)

Lemma jlog_geometry j segs last LS : jlog j segs last LS -> geometry_ok (jhdr j) /\ 0 < blhdr_size (jhdr j).
Proof. intros [[Hg _ _ _ _ _] _ _ [? _ _ _ _ _] _ _ _ _ _ _ _]. split; [done|lia]. Qed.

Lemma jlog_fs j fs segs last LS : jlog j segs last LS -> jlog (with_fsdev fs (fsdev_io j) j) segs last LS.
Proof.
  intros Hj. pose proof (jlog_geometry _ _ _ _ Hj) as [Hg Hb]. destruct Hj as [[? ? ? ? ? ?] [? ?] ? [? ? ? ? ? ?] ? ? ? ? Hs ? ?].
  split; try done. by apply (segs_same j).
Qed.

Lemma last_write_app j ws1 ws2 x : last_write j (ws1 ++ ws2) x = match last_write j ws2 x with Some p => Some p | None => last_write j ws1 x end.
Proof.
  induction ws2 as [|w ws2 IH] using rev_ind; [by rewrite app_nil_r|]. rewrite app_assoc, !last_write_snoc, IH. by destruct (covers j w x).
Qed.

(** The transactions in front are not needed any more. *)
Lemma jlog_drop j front back last LS : jlog j (front ++ back) last LS -> exists start last',
  jlog (with_jhdr (set_range start (jh_end (jhdr j)) (jhdr j)) j) back last' LS /\ (last' = last \/ last' = 0) /\
  match back with [] => start = jh_end (jhdr j) | g :: _ => start = sg_start g end.
Proof.
  intros Hj. pose proof (jlog_geometry _ _ _ _ Hj) as [Hg Hb]. destruct Hj as [[[? ? ?] ? ? ? ? ?] [? ?] ? [? ? ? ? ? ?] ? ? Hst Hal Hs Hsz Hstable].
  destruct (segs_split _ _ _ _ _ _ _ Hs) as (last1 & start & H1 & H2). destruct (segs_bounds _ _ _ _ _ _ H1 Hst Hal) as [Hst2 Hal2].
  rewrite segs_size_app in Hsz. pose proof (segs_chain _ _ _ _ _ _ H1) as (_ & _ & Hnn & _). pose proof (segs_chain _ _ _ _ _ _ H2) as (_ & _ & Hnn2 & _).
  set (j' := with_jhdr (set_range start (jh_end (jhdr j)) (jhdr j)) j).
  assert (exists last', segs_ok j' 0 start back last' (jh_end (jhdr j)) /\ (last' = last \/ last' = 0)) as (last' & Hs' & Hl').
  { destruct back as [|g back].
    - exists 0. split; [|by right]. inversion H2; subst. constructor.
    - exists last. split; [|by left]. apply (segs_same j); try done; [|lia]. by eapply segs_restart. }
  exists start, last'. split; [|split; [done|by inversion H2]].
  split; try done; [cbn; lia|]. intros x p E. apply Hstable. rewrite segs_log_app, log_writes_app, last_write_app.
  assert (last_write j (log_writes j (segs_log back)) x = Some p) as -> by exact E. done.
Qed.

Lemma olds_split async back l : olds_ok async back l -> async = true -> exists back' g, back = back' ++ [g] /\
  l = (sg_start <$> back') ++ [Z.lor (sg_start g) OLD_MARK] /\ olds_ok false back (sg_start <$> back).
Proof.
  induction 1 as [|g|async g back l Hl IH]; intros Ha; [done| |].
  - exists [], g. split; [done|]. split; [done|]. repeat constructor.
  - destruct (IH Ha) as (back' & g' & -> & -> & Hf). exists (g :: back'), g'. split; [done|]. split; [done|]. by constructor.
Qed.

(** ** buffer_flushed_callback *)

Lemma FREED_neq n : 0 <= n -> n =? FREED_BYTES = false.
Proof. intros. apply Z.eqb_neq. unfold FREED_BYTES. vm_compute (s32 _). lia. Qed.

Lemma transaction_done_ok s segs g last LS front back l k tr : jlog (js_jnl s) (segs ++ [g]) last LS -> js_completed_trs s = [] ->
  js_old_start s = replicate k 0 ++ l -> segs ++ [g] = front ++ back -> olds_ok true back l -> js_active_start s = sg_start g ->
  tr_journal_start tr = sg_start g -> tr_journal_end tr = sg_end g ->
  transaction_done tr s = Some (with_starts (sg_end g) (replicate k 0 ++ (sg_start <$> back)) [] s).
Proof.
  intros Hj Hcomp Hold Hsegs Hl Hact Hts Hte. pose proof (jlog_geometry _ _ _ _ Hj) as [Hg Hb].
  pose proof Hj as [_ _ _ _ _ _ Hst Hal Hs Hsz _]. pose proof Hg as [? ? ?].
  destruct (olds_split _ _ _ Hl eq_refl) as (back' & g' & -> & -> & _).
  rewrite app_assoc in Hsegs. apply app_inj_2 in Hsegs as [-> [= <-]]; [|done].
  pose proof (segs_starts _ _ _ _ _ _ Hs Hst) as Hb2. apply Forall_app in Hb2 as [Hb2 Hbg]. apply Forall_cons in Hbg as [Hbg _].
  destruct (segs_apart _ _ _ _ _ _ _ Hg Hs Hst Hsz) as [Hap _]. apply Forall_app in Hb2 as [_ Hb2]. apply Forall_app in Hap as [_ Hap].
  assert (list_find (fun v => s64 (unmark v) = tr_journal_start tr) (js_old_start s) = Some ((k + length back')%nat, Z.lor (sg_start g) OLD_MARK)) as Hfind.
  { apply list_find_Some. rewrite Hold, Hts. split; [|split].
    - rewrite lookup_app_r by (rewrite length_replicate; lia). rewrite length_replicate. rewrite lookup_app_r by (rewrite length_fmap; lia).
      rewrite length_fmap. by replace (k + length back' - k - length back')%nat with 0%nat by lia.
    - rewrite (proj1 (unmark_marked (sg_start g) ltac:(lia))). apply s64_id. unfold INT64_MAX. lia.
    - intros i v Hi Hlt. apply lookup_app_Some in Hi as [Hi|[Hi1 Hi]].
      + apply lookup_replicate in Hi as [-> _]. vm_compute (s64 _). lia.
      + rewrite length_replicate in Hi, Hi1. rewrite lookup_app_l in Hi by (rewrite length_fmap; lia). rewrite list_lookup_fmap in Hi.
        destruct (back' !! (i - k)%nat) as [g'|] eqn:Eg; [|done]. injection Hi as <-.
        pose proof (Forall_lookup_1 _ _ _ _ Hb2 Eg) as Hg'. pose proof (Forall_lookup_1 _ _ _ _ Hap Eg) as Hne.
        cbv beta in *. rewrite (proj1 (unmark_plain (sg_start g') ltac:(lia))), s64_id by (unfold INT64_MAX; lia). done. }
  unfold transaction_done. rewrite Hfind. cbn [mbind option_bind]. rewrite Hts, Hact, Z.eqb_refl, Hcomp, Hte. cbn [coalesce_trs coalesce_fuel length Nat.mul Nat.add mbind option_bind fst].
  change (0 =? 0) with true. cbn [negb]. rewrite Hold. do 2 f_equal.
  rewrite (proj1 (unmark_marked (sg_start g) ltac:(lia))). rewrite insert_app_r_alt by (rewrite length_replicate; lia). rewrite length_replicate. f_equal.
  rewrite insert_app_r_alt by (rewrite length_fmap; lia). rewrite length_fmap, fmap_app. replace (k + length back' - k - length back')%nat with 0%nat by lia. done.
Qed.

Lemma rest_after_write fs LS l k pos data x : l !! k = Some (pos, data) -> Forall (fun w => write_fs (fst w) (snd w) LS = LS) l ->
  (fs !! x = LS !! x \/ Exists (fun w => in_write w x) l) ->
  write_fs pos data fs !! x = LS !! x \/ Exists (fun w => in_write w x) (delete k l).
Proof.
  intros Hk Hagree Hrest. pose proof (Forall_lookup_1 _ _ _ _ Hagree Hk) as Hst. cbn [fst snd] in Hst. rewrite lookup_write_fs.
  destruct (Z.leb_spec pos x); [destruct (Z.ltb_spec x (pos + len data))|]; cbn [andb];
    [left; symmetry; apply (write_fs_stable pos); [done|lia]|..];
    (destruct Hrest as [Hx|Hx]; [by left|]; destruct (exists_delete _ _ _ _ Hk Hx) as [Hin|Hin]; [|by right]; unfold in_write in Hin; cbn in Hin; lia).
Qed.

(** What an operation does that only lets writes complete. *)
Record completes (s s' : jstate) (k : nat) (front back : list seg) (last : Z) (LS : gmap Z Z) : Prop := {
  cp_frame : frame s s';
  cp_mem : jmem s' k front back last LS;
  cp_jhdr : js_jhdr s' = js_jhdr s;
}.

(** A completion keeps what the journal is about; when it is the last one, the transaction
    is done. *)
Lemma complete_write_ok s m front back last LS f k w : jmem s m front back last LS -> js_asyncIO s = true -> js_flying s = Some f -> fl_writes f !! k = Some w ->
  exists s' f', complete_write k s = Some s' /\ completes s s' m front back last LS /\ js_flying s' = Some f' /\
    fl_writes f' = delete k (fl_writes f) /\ js_asyncIO s' = negb (bool_decide (fl_writes f' = [])).
Proof.
  intros [Hj (l & Hold & Hl) Hdisk Hcomp] Hasync Hf Hk. unfold disk_ok in Hdisk. rewrite Hasync in Hdisk, Hl.
  destruct Hdisk as (segs' & g & f0 & Hsegs & Hact & Hf0 & Hfly). rewrite Hf in Hf0. injection Hf0 as <-.
  destruct Hfly as [Hts Hte Hpend Hamt (Hb1 & Hb2 & Hb3) Hsizes Hagree Hlogged Hrest]. destruct w as [pos data].
  pose proof (Forall_lookup_1 _ _ _ _ Hsizes Hk) as Hdata. cbn [snd] in Hdata.
  pose proof (writes_size_delete _ _ _ Hk) as Hws. cbn [snd] in Hws.
  destruct (writes_size_pos (delete k (fl_writes f)) (delete_forall _ _ _ Hsizes)) as [Hnn Hpos].
  unfold complete_write. rewrite Hf. cbn [mbind option_bind]. rewrite Hk. cbn [mbind option_bind]. unfold buffer_flushed_callback.
  cbn [with_flying with_jnl js_flying mbind option_bind fl_tr fl_writes js_asyncIO]. rewrite FREED_neq by lia.
  rewrite (s32_id (tr_num_killed _ + _)), (s32_id (tr_num_flushed _ + _)), s32_id by lia.
  assert (forall x, write_fs pos data (fsdev (js_jnl s)) !! x = LS !! x \/ Exists (fun w => in_write w x) (delete k (fl_writes f))) as Hrest'.
  { intros x. eapply rest_after_write; [done|done|apply Hrest]. }
  pose proof (jlog_fs (js_jnl s) (write_fs pos data (fsdev (js_jnl s))) _ _ _ Hj) as Hj'.
  destruct (decide (delete k (fl_writes f) = [])) as [Hz|Hnz].
  - rewrite Hz in *. change (writes_size []) with 0 in Hws. rewrite (proj2 (Z.ltb_ge _ _)) by lia.
    match goal with |- context [js_isset ?x JOURNAL_INVALID] => set (s1 := x) end.
    assert (js_isset s1 JOURNAL_INVALID = false) as -> by exact (jl_valid _ _ _ _ Hj). rewrite Hsegs in Hj'.
    pose proof (transaction_done_ok s1 segs' g last LS front back l m (fl_tr f) Hj' Hcomp Hold (eq_sym Hsegs) Hl Hact Hts Hte) as Edone.
    rewrite Edone. cbn [mbind option_bind].
    eexists _, _. split; [reflexivity|]. split; [|split; [reflexivity|]; cbn [fl_writes js_asyncIO with_flying]; by rewrite bool_decide_true].
    split; [exact (frame_fs (write_fs pos data (fsdev (js_jnl s))) (sg_end g) (replicate m 0 ++ (sg_start <$> back)) [] false (Some _) s)| |done]. split.
    + rewrite Hsegs. exact Hj'.
    + exists (sg_start <$> back). split; [done|]. by destruct (olds_split _ _ _ Hl eq_refl) as (? & ? & _ & _ & ?).
    + unfold disk_ok. cbn. split; [|split; [done|]].
      * pose proof (jl_segs _ _ _ _ Hj) as Hs. rewrite Hsegs in Hs. pose proof (jlog_geometry _ _ _ _ Hj) as [Hg _].
        pose proof (jl_size _ _ _ _ Hj) as Hsz. rewrite Hsegs in Hsz.
        exact (proj2 (segs_apart _ _ _ _ _ _ _ Hg Hs (jl_start _ _ _ _ Hj) Hsz)).
      * apply map_eq. intros x. destruct (Hrest' x) as [Hx|Hx]; [done|by apply Exists_nil in Hx].
    + done.
  - specialize (Hpos Hnz). rewrite (proj2 (Z.ltb_lt _ _)) by lia.
    eexists _, _. split; [reflexivity|]. split; [|split; [reflexivity|]; cbn [fl_writes js_asyncIO with_flying]; by rewrite bool_decide_false].
    split; [exact (frame_fs (write_fs pos data (fsdev (js_jnl s))) (js_active_start s) (js_old_start s) (js_completed_trs s) (js_asyncIO s) (Some _) s)| |done]. split; [exact Hj'|exists l; cbn; by rewrite Hasync| |done].
    unfold disk_ok. cbn. rewrite Hasync. exists segs', g. eexists. split; [done|]. split; [done|]. split; [done|].
    split; cbn [set_num_flushed fl_tr fl_writes tr_journal_start tr_journal_end tr_num_killed tr_num_flushed tr_total_bytes]; try done;
      [lia|lia|by apply delete_forall|by apply delete_forall| ].
    intros x Hx. by eapply Hlogged, delete_exists.
Qed.
