(* ===== verification/FreeSpaceProps.v ===== *)
(** * check_free_space (core/hfs_journal.c)

    check_free_space comes to an end with the room that it is asked for, when the journal
    is large enough.  It drops transactions from the front of the log, and these are on
    the file system: what the log and the file system make together stays the same. *)

From S2P Require Import Prelude HfsFormat Bytes JournalTrim JournalIO JournalCoalesce CoalesceProps JournalReplay JournalIOProps JournalWriteProps ReplayProps ReplayLoop ReplayCorrect BlhdrOrder JournalTransaction JournalCommit LogProps CommitProps SpaceProps.

(** ** Waiting *)

Lemma completes_trans s1 s2 s3 k front back last LS : completes s1 s2 k front back last LS -> completes s2 s3 k front back last LS ->
  completes s1 s3 k front back last LS.
Proof. intros [F1 M1 J1] [F2 M2 J2]. split; [by eapply frame_trans|done|congruence]. Qed.

Lemma completes_refl s k front back last LS : jmem s k front back last LS -> completes s s k front back last LS.
Proof. intros H. split; [apply frame_refl|done|done]. Qed.

Lemma complete_writes_ok k front back last LS n : forall s f, jmem s k front back last LS -> js_asyncIO s = true -> js_flying s = Some f ->
  length (fl_writes f) = n -> exists s', complete_writes n s = Some s' /\ completes s s' k front back last LS /\ js_asyncIO s' = false.
Proof.
  induction n as [|n IH]; intros s f Hm Ha Hf Hn.
  { pose proof (jm_disk _ _ _ _ _ _ Hm) as Hd. unfold disk_ok in Hd. rewrite Ha in Hd. destruct Hd as (? & ? & f' & _ & _ & Hf' & Hfly).
    rewrite Hf in Hf'. injection Hf' as <-. destruct (fo_pending _ _ _ _ Hfly). by apply nil_length_inv. }
  destruct (fl_writes f) as [|w l] eqn:El; [done|].
  destruct (complete_write_ok s k front back last LS f 0 w Hm Ha Hf) as (s1 & f1 & E1 & Hc1 & Hf1 & Hw1 & Ha1); [by rewrite El|].
  cbn [complete_writes]. rewrite E1. cbn [mbind option_bind]. rewrite El in Hw1. cbn in Hw1, Hn. injection Hn as Hn.
  destruct l as [|w2 l].
  - subst n. exists s1. split; [done|]. split; [done|]. by rewrite Ha1, Hw1.
  - destruct (IH s1 f1) as (s2 & E2 & Hc2 & Ha2); [apply Hc1|by rewrite Ha1, Hw1|done|by rewrite Hw1|].
    exists s2. split; [done|]. split; [by eapply completes_trans|done].
Qed.

Lemma complete_io_ok s k front back last LS : jmem s k front back last LS ->
  exists s', complete_io s = Some s' /\ completes s s' k front back last LS /\ js_asyncIO s' = false.
Proof.
  intros Hm. unfold complete_io. pose proof (jm_disk _ _ _ _ _ _ Hm) as Hd. unfold disk_ok in Hd. destruct (js_asyncIO s) eqn:Ha.
  - destruct Hd as (? & ? & f & _ & _ & Hf & _). rewrite Hf. by apply (complete_writes_ok k front back last LS (length (fl_writes f)) s f).
  - destruct Hd as (_ & Hn & _). exists s. split; [|split; [by apply completes_refl|done]].
    destruct (js_flying s) as [f|]; [|done]. cbn in Hn. by rewrite Hn.
Qed.

Lemma jmem_starts s k front back last LS : jmem s k front back last LS -> Forall (fun g => 0 < sg_start g < 2 ^ 63) (front ++ back).
Proof.
  intros [Hj _ _ _]. pose proof (jlog_geometry _ _ _ _ Hj) as [[? ? ?] _]. eapply Forall_impl; [exact (segs_starts _ _ _ _ _ _ (jl_segs _ _ _ _ Hj) (jl_start _ _ _ _ Hj))|].
  cbv beta. intros g Hg. lia.
Qed.

(** The entry is that of the first transaction, or it is free. *)
Lemma wait_old_start_ok i s k front back last LS fuel : jmem s k front back last LS -> (i <= k)%nat -> (i < k + length back)%nat -> (1 < fuel)%nat ->
  exists s', wait_old_start i s fuel = Some s' /\ completes s s' k front back last LS /\
    js_old_start s' !! i = Some (if (i <? k)%nat then 0 else match back with g :: _ => sg_start g | [] => 0 end) /\
    (i = k -> js_asyncIO s' = true -> (1 < length back)%nat).
Proof.
  intros Hm Hik Hi Hfuel. destruct fuel as [|fuel]; [lia|]. cbn [wait_old_start].
  pose proof Hm as [Hj (l & Hold & Hl) _ _]. pose proof (jmem_starts _ _ _ _ _ _ Hm) as Hst.
  destruct (Nat.ltb_spec i k) as [Hlt|Hge].
  { assert (js_old_start s !! i = Some 0) as E by (rewrite Hold, lookup_app_l by (rewrite length_replicate; lia); by apply lookup_replicate_2).
    rewrite E. cbn [mbind option_bind]. change (marked 0) with false. cbv iota. exists s. split; [done|]. split; [by apply completes_refl|]. split; [done|lia]. }
  assert (i = k) as -> by lia. destruct back as [|g back]; [cbn in Hi; lia|].
  apply Forall_app in Hst as [_ Hst]. apply Forall_cons in Hst as [Hg _].
  assert (forall s' l', js_old_start s' = replicate k 0 ++ l' -> js_old_start s' !! k = head l') as Hhead.
  { intros s' l' ->. rewrite lookup_app_r by (rewrite length_replicate; lia). rewrite length_replicate, Nat.sub_diag. by destruct l'. }
  rewrite (Hhead _ _ Hold). inversion Hl as [|g' |async g' back' l' Hl']; subst; cbn [head hd_error mbind option_bind].
  - rewrite (proj2 (unmark_marked (sg_start g) ltac:(lia))). destruct (complete_io_ok _ _ _ _ _ _ Hm) as (s' & -> & Hc & Ha). cbn [mbind option_bind].
    destruct Hc as [Hf Hm' Hh]. pose proof Hm' as [_ (l2 & Hold2 & Hl2) _ _]. rewrite Ha in Hl2. inversion Hl2 as [| |? ? ? l3 Hl3]; subst.
    destruct fuel as [|fuel]; [lia|]. cbn [wait_old_start]. rewrite (Hhead _ _ Hold2). cbn [head hd_error mbind option_bind].
    rewrite (proj2 (unmark_plain (sg_start g) ltac:(lia))). exists s'. split; [done|]. split; [done|]. split; [by rewrite (Hhead _ _ Hold2)|by rewrite Ha].
  - rewrite (proj2 (unmark_plain (sg_start g) ltac:(lia))). exists s. split; [done|]. split; [by apply completes_refl|]. split; [by rewrite (Hhead _ _ Hold)|].
    intros _ Ha. rewrite Ha in Hl'. inversion Hl'; cbn; lia.
Qed.

(** ** Moving the start *)

Lemma flying_ok_start j start g LS f : flying_ok j g LS f -> flying_ok (with_jhdr (set_range start (jh_end (jhdr j)) (jhdr j)) j) g LS f.
Proof. intros []. by split. Qed.

Lemma frame_start start o s : frame s (with_starts (js_active_start s) o (js_completed_trs s) (set_start start s)).
Proof.
  exists start, (fsdev (js_jnl s)), (js_active_start s), o, (js_completed_trs s), (js_asyncIO s), (js_flying s). reflexivity.
Qed.

(** The start moves to a transaction that is in old_start; those in front of it are gone. *)
Lemma drop_front s k front g back last LS : jmem s k front (g :: back) last LS -> (js_asyncIO s = true -> (1 < length (g :: back))%nat) ->
  exists last', jmem (with_starts (js_active_start s) (<[k := 0]> (js_old_start s)) (js_completed_trs s) (set_start (sg_start g) s)) (S k) [g] back last' LS /\
    (last' = last \/ last' = 0).
Proof.
  intros [Hj (l & Hold & Hl) Hd Hcomp] Hlast. destruct (jlog_drop _ _ _ _ _ Hj) as (start & last' & Hj' & Hl' & ->).
  exists last'. split; [|done]. split.
  - exact Hj'.
  - inversion Hl as [|g'|async g' back' l' Hl2]; subst.
    + match goal with H : true = _ |- _ => symmetry in H; specialize (Hlast H) end. cbn in Hlast. lia.
    + exists l'. split; [|done]. cbn. rewrite Hold. rewrite insert_app_r_alt by (rewrite length_replicate; lia).
      rewrite length_replicate, Nat.sub_diag. change (replicate k 0 ++ [0] ++ l' = replicate (S k) 0 ++ l'). by rewrite replicate_S_end, <- app_assoc.
  - unfold disk_ok in *. cbn. destruct (js_asyncIO s) eqn:Ha.
    + destruct Hd as (segs' & g' & f & Hsegs & Hact & Hf & Hfly).
      destruct back as [|g2 back _] using rev_ind; [by cbn in Hlast; specialize (Hlast eq_refl); lia|].
      exists (g :: back), g2, f. split; [done|]. rewrite !app_comm_cons, !app_assoc in Hsegs. apply app_inj_2 in Hsegs as [_ [= <-]]; [|done].
      split; [done|]. split; [done|]. by apply flying_ok_start.
    + done.
  - done.
Qed.

(** The journal is empty. *)
Lemma drop_all s k front last LS : jmem s k front [] last LS -> jmem (set_start (js_active_start s) s) k [] [] 0 LS /\
  free_space (js_jhdr (set_start (js_active_start s) s)) = jh_size (js_jhdr s) - jhdr_size (js_jhdr s).
Proof.
  intros [Hj (l & Hold & Hl) Hd Hcomp]. rewrite app_nil_r in *.
  assert (js_asyncIO s = false) as Ha by by inversion Hl. unfold disk_ok in Hd. rewrite Ha in Hd. destruct Hd as (Hact & Hn & Hfs).
  destruct (jlog_drop (js_jnl s) front [] last LS) as (start & last' & Hj' & _ & ->); [by rewrite app_nil_r|].
  assert (last' = 0) as -> by (pose proof (jl_segs _ _ _ _ Hj') as Hs; by inversion Hs).
  rewrite Hact. split.
  - split; [exact Hj'|by exists l| |done]. unfold disk_ok. cbn. by rewrite Ha.
  - change (js_jhdr (set_start (jh_end (js_jhdr s)) s)) with (set_range (jh_end (js_jhdr s)) (jh_end (js_jhdr s)) (js_jhdr s)).
    unfold free_space. cbn [set_range jh_start jh_end jh_size jhdr_size]. by rewrite Z.ltb_irrefl.
Qed.

(** ** The loop over old_start *)

Section Space.
Variables (desired_size seq : Z) (LS : gmap Z Z).

(** What is the same, and what may be dropped. *)
Record moved (s s' : jstate) (n : nat) (last : Z) (segs : list seg) (k' : nat) (front' back' : list seg) (last' : Z) : Prop := {
  mv_frame : frame s s';
  mv_mem : jmem s' k' front' back' last' LS;
  mv_last : last' = last \/ last' = 0;
  mv_length : (k' + length back')%nat = n;
  (* transactions are dropped from the front only *)
  mv_suffix : front' ++ back' `suffix_of` segs;
}.

Lemma moved_refl s k front back last : jmem s k front back last LS -> moved s s (k + length back) last (front ++ back) k front back last.
Proof. intros. by split; [apply frame_refl| |left| |]. Qed.

Lemma moved_trans s1 s2 s3 n last segs k2 front2 back2 last2 k3 front3 back3 last3 : moved s1 s2 n last segs k2 front2 back2 last2 ->
  moved s2 s3 n last2 (front2 ++ back2) k3 front3 back3 last3 -> moved s1 s3 n last segs k3 front3 back3 last3.
Proof.
  intros [F1 M1 L1 N1 S1] [F2 M2 L2 N2 S2]. split; [by eapply frame_trans|done| |done|by transitivity (front2 ++ back2)]. destruct L2 as [->| ->]; [done|by right].
Qed.

(** The header did not change, or there was not enough room where the start was moved last. *)
Definition stuck (s0 s : jstate) (empty : bool) : Prop :=
  if empty then js_jhdr s = js_jhdr s0 else free_space (js_jhdr s) <= desired_size.

Lemma bump_start_ok n s0 : forall i s k front back last empty, jmem s k front back last LS -> (i <= k)%nat -> (i + n = k + length back)%nat ->
  stuck s0 s empty ->
  exists b e s' k' front' back' last', bump_start desired_size true seq i n empty s = Some (b, e, s') /\
    moved s s' (k + length back) last (front ++ back) k' front' back' last' /\
    (if b then desired_size < free_space (js_jhdr s') /\ (0 < k')%nat else back' = [] /\ stuck s0 s' e).
Proof.
  induction n as [|n IH]; intros i s k front back last empty Hm Hik Hn Hst.
  { assert (back = []) as -> by (apply nil_length_inv; lia). exists false, empty, s, k, front, [], last. split; [done|]. split; [|done]. by apply moved_refl. }
  assert (1 < 10001)%nat as Hfuel by (apply Nat.ltb_lt; vm_compute; reflexivity).
  destruct (wait_old_start_ok i s k front back last LS 10001 Hm Hik ltac:(lia) Hfuel) as (s1 & E1 & [F1 M1 J1] & Hv & Hlast).
  cbn [bump_start]. rewrite E1. cbn [mbind option_bind]. rewrite Hv. cbn [mbind option_bind].
  assert (moved s s1 (k + length back) last (front ++ back) k front back last) as Hmv by (by split; [| |left| |]).
  assert (stuck s0 s1 empty) as Hst1 by (unfold stuck in *; by rewrite J1).
  destruct (Nat.ltb_spec i k) as [Hlt|Hge].
  { rewrite Z.eqb_refl. destruct (IH (S i) s1 k front back last empty) as (b & e & s' & k' & f' & b' & l' & E & Hmv' & Hb); [done|lia|lia|done|].
    exists b, e, s', k', f', b', l'. split; [done|]. split; [|done]. by eapply moved_trans. }
  assert (i = k) as -> by lia. destruct back as [|g back]; [cbn in Hn; lia|].
  pose proof (jmem_starts _ _ _ _ _ _ Hm) as Hpos. apply Forall_app in Hpos as [_ Hpos]. apply Forall_cons in Hpos as [Hg _].
  rewrite (proj2 (Z.eqb_neq _ _)) by lia. destruct (drop_front s1 k front g back last LS M1 (Hlast eq_refl)) as (l1 & M2 & Hl1).
  match type of M2 with jmem ?x _ _ _ _ _ => set (s2 := x) in *; change (with_starts (js_active_start (set_start (sg_start g) s1)) (<[k:=0]> (js_old_start (set_start (sg_start g) s1)))
    (js_completed_trs (set_start (sg_start g) s1)) (set_start (sg_start g) s1)) with s2 end.
  assert (moved s1 s2 (k + length (g :: back)) last (front ++ g :: back) (S k) [g] back l1) as Hmv2.
  { split; [apply frame_start|done|done|cbn; lia|by exists front]. }
  destruct (Z.ltb_spec desired_size (free_space (js_jhdr s2))) as [Hroom|Hroom].
  - cbn [bump_header mbind option_bind]. exists true, false, s2, (S k), [g], back, l1. split; [done|]. split; [by eapply moved_trans|]. split; [done|lia].
  - destruct (IH (S k) s2 (S k) [g] back l1 false) as (b & e & s' & k' & f' & b' & l' & E & Hmv' & Hb); [done|lia|cbn in Hn; lia|done|].
    exists b, e, s', k', f', b', l'. split; [done|]. split; [|done]. eapply moved_trans; [exact Hmv|]. eapply moved_trans; [exact Hmv2|].
    replace (k + length (g :: back))%nat with (S k + length back)%nat by (cbn; lia). done.
Qed.

(** ** check_free_space *)

(** There is room, and an entry in old_start; the header is to be written if it changed. *)
Record roomy_for (s0 s : jstate) (write : bool) : Prop := {
  rf_room : desired_size < free_space (js_jhdr s);
  rf_header : write = true \/ js_jhdr s = js_jhdr s0;
}.

Lemma js_old_head s k front back last : jmem s k front back last LS -> (0 < k)%nat -> js_old_start s !! 0%nat = Some 0.
Proof. intros [_ (l & -> & _) _ _] Hk. rewrite lookup_app_l by (rewrite length_replicate; lia). by apply lookup_replicate_2. Qed.

Lemma js_old_length s k front back last : jmem s k front back last LS -> length (js_old_start s) = (k + length back)%nat.
Proof.
  intros [_ (l & -> & Hl) _ _]. rewrite length_app, length_replicate. f_equal. induction Hl; cbn; congruence.
Qed.

Lemma js_old_first s k front back last : jmem s k front back last LS -> (0 < k + length back)%nat -> exists v, js_old_start s !! 0%nat = Some v /\ (v = 0 -> (0 < k)%nat).
Proof.
  intros Hm Hk. pose proof (js_old_length _ _ _ _ _ Hm) as Hlen. destruct (lookup_lt_is_Some_2 (js_old_start s) 0) as [v Hv]; [lia|]. exists v. split; [done|].
  intros ->. destruct k as [|k]; [exfalso|lia]. pose proof (jmem_starts _ _ _ _ _ _ Hm) as Hpos. destruct Hm as [_ (l & Hold & Hl) _ _].
  rewrite Hold in Hv. cbn in Hv. apply Forall_app in Hpos as [_ Hpos]. inversion Hl as [|g|a g b l' ?]; subst; [done|..]; apply Forall_cons in Hpos as [Hg _]; injection Hv as Hv.
  - pose proof (mark_add (sg_start g) ltac:(lia)). lia.
  - lia.
Qed.

Lemma check_done s k front back last write fuel : jmem s k front back last LS -> (0 < k)%nat -> desired_size < free_space (js_jhdr s) ->
  check_free_space_loop desired_size true seq write s fuel = Some (write, s).
Proof.
  intros Hm Hk Hroom. destruct fuel; cbn [check_free_space_loop]; rewrite (js_old_head _ _ _ _ _ Hm Hk); cbn [mbind option_bind];
    by rewrite (proj2 (Z.ltb_lt _ _)), Z.eqb_refl by done.
Qed.

Lemma bump_zeros s k front last n : forall i, jmem s k front [] last LS -> (i + n = k)%nat -> bump_start desired_size true seq i n true s = Some (false, true, s).
Proof.
  induction n as [|n IH]; intros i Hm Hn; [done|]. cbn [bump_start].
  assert (js_old_start s !! i = Some 0) as E.
  { destruct Hm as [_ (l & -> & _) _ _]. rewrite lookup_app_l by (rewrite length_replicate; lia). apply lookup_replicate_2. lia. }
  assert (forall fuel, wait_old_start i s fuel = Some s) as Ew.
  { intros [|fuel]; cbn [wait_old_start]; rewrite E; done. }
  rewrite Ew. cbn [mbind option_bind]. rewrite E. cbn [mbind option_bind]. rewrite Z.eqb_refl. apply IH; [done|lia].
Qed.

(** The start moves to the end when all entries are free. *)
Lemma check_free_space_empty s s0 k front last write fuel : jmem s k front [] last LS -> (0 < k)%nat ->
  free_space (js_jhdr s) <= desired_size -> desired_size < jh_size (js_jhdr s) - jhdr_size (js_jhdr s) ->
  exists s', check_free_space_loop desired_size true seq write s (S fuel) = Some (true, s') /\ moved s s' k last (front ++ []) k [] [] 0 /\ roomy_for s0 s' true.
Proof.
  intros Hm Hk Hroom Hbig. cbn [check_free_space_loop].
  rewrite (js_old_head _ _ _ _ _ Hm Hk). cbn [mbind option_bind]. rewrite (proj2 (Z.ltb_ge _ _)) by done. cbn [andb].
  rewrite (bump_zeros s k front last) by (done || rewrite (js_old_length _ _ _ _ _ Hm); cbn; lia). cbn [mbind option_bind bump_header].
  destruct (drop_all s k front last LS Hm) as [Hm' Hfree]. exists (set_start (js_active_start s) s).
  rewrite (check_done _ k [] [] 0) by (done || rewrite Hfree; lia). split; [done|]. split; [|split; [by rewrite Hfree|by left]].
  split; [apply (frame_start _ (js_old_start s) s)|done|by right|cbn; lia|apply suffix_nil].
Qed.

Lemma check_free_space_ok s k front back last : jmem s k front back last LS -> (0 < k + length back)%nat ->
  desired_size < jh_size (js_jhdr s) - jhdr_size (js_jhdr s) ->
  exists write s' k' front' back' last', check_free_space desired_size true seq s = Some (write, s') /\
    moved s s' (k + length back) last (front ++ back) k' front' back' last' /\ roomy_for s s' write /\ (0 < k')%nat.
Proof.
  intros Hm Hk Hbig. unfold check_free_space. assert (exists fuel, 5000%nat = S (S fuel)) as [fuel ->] by (eexists; reflexivity).
  destruct (js_old_first _ _ _ _ _ Hm Hk) as (v & Hv & Hv0).
  destruct (decide (desired_size < free_space (js_jhdr s) /\ v = 0)) as [[Hroom Hz]|Hno].
  { exists false, s, k, front, back, last. rewrite (check_done _ k front back last) by auto. split; [done|]. split; [by apply moved_refl|].
    split; [by split; [|right]|auto]. }
  remember (S fuel) as fuel1. cbn [check_free_space_loop]. rewrite Hv. cbn [mbind option_bind].
  assert ((desired_size <? free_space (js_jhdr s)) && (v =? 0) = false) as ->.
  { destruct (Z.ltb_spec desired_size (free_space (js_jhdr s))); [|done]. destruct (Z.eqb_spec v 0); [|done]. by destruct Hno. }
  destruct (bump_start_ok (length (js_old_start s)) s 0 s k front back last true Hm) as (b & e & s1 & k1 & f1 & b1 & l1 & E & Hmv & Hb);
    [lia|by rewrite (js_old_length _ _ _ _ _ Hm)|done|].
  rewrite E. cbn [mbind option_bind]. pose proof (mv_mem _ _ _ _ _ _ _ _ _ Hmv) as Hm1. pose proof (mv_length _ _ _ _ _ _ _ _ _ Hmv) as Hn1.
  assert (jh_size (js_jhdr s1) = jh_size (js_jhdr s) /\ jhdr_size (js_jhdr s1) = jhdr_size (js_jhdr s)) as [Hsz Hbs].
  { destruct (mv_frame _ _ _ _ _ _ _ _ _ Hmv) as (? & ? & ? & ? & ? & ? & ? & ->). done. }
  destruct b.
  - destruct Hb as [Hroom Hk1]. rewrite (check_done s1 k1 f1 b1 l1) by done. exists true, s1, k1, f1, b1, l1. split; [done|]. split; [done|]. split; [by split; [|left]|done].
  - destruct Hb as [-> Hst]. cbn [length] in Hn1. rewrite Nat.add_0_r in Hn1. destruct e; cbn [stuck] in Hst.
    + cbn [bump_header mbind option_bind]. destruct (drop_all s1 k1 f1 l1 LS Hm1) as [Hm2 Hfree].
      exists true, (set_start (js_active_start s1) s1), k1, [], [], 0. rewrite (check_done _ k1 [] [] 0) by (done || lia || rewrite Hfree; lia).
      split; [done|]. split; [|split; [split; [rewrite Hfree; lia|by left]|lia]].
      eapply moved_trans; [exact Hmv|]. split; [apply (frame_start _ (js_old_start s1) s1)|done|by right|cbn; lia|apply suffix_nil].
    + destruct (complete_io_ok _ _ _ _ _ _ Hm1) as (s2 & E2 & [F2 M2 J2] & _). rewrite E2. cbn [mbind option_bind]. subst fuel1.
      destruct (check_free_space_empty s2 s k1 f1 l1 false fuel M2) as (s3 & E3 & Hmv3 & Hr3); [lia|by rewrite J2|rewrite J2; lia|].
      exists true, s3, k1, [], [], 0. split; [done|]. split; [|split; [done|lia]].
      eapply moved_trans; [exact Hmv|]. eapply (moved_trans s1 s2 _ _ _ _ k1 f1 [] l1); [split; [done|done|by left|cbn; lia|done]|]. by rewrite <- Hn1.
Qed.
End Space.

(** C15: check_free_space, on a journal in memory that matches its log ([jmem]: every
    entry of old_start is free or that of a transaction in the log, and one that is marked
    has its writes under way, so that a transaction that lost all its blocks before it was
    written is excluded) and for a size that the empty journal has room for: it comes to
    an end without a panic; there is the room that was asked for, and the first entry of
    old_start is free.  What is left in the log is a suffix of what was in it: transactions
    are dropped only from its front, and only when they are on the file system, so that
    what the log and the file system make together stays the same.  The end of the journal
    stays, and it tells when the header has to be written because the start was moved. *)
Theorem check_free_space_correct desired_size seq s k front back last LS : jmem s k front back last LS -> (0 < k + length back)%nat ->
  desired_size < jh_size (js_jhdr s) - jhdr_size (js_jhdr s) ->
  exists write s' k' front' back' last', check_free_space desired_size true seq s = Some (write, s') /\
    desired_size < free_space (js_jhdr s') /\ js_old_start s' !! 0%nat = Some 0 /\ jmem s' k' front' back' last' LS /\
    front' ++ back' `suffix_of` front ++ back /\ (last' = last \/ last' = 0) /\ (write = false -> js_jhdr s' = js_jhdr s) /\ jh_end (js_jhdr s') = jh_end (js_jhdr s).
Proof.
  intros Hm Hk Hd. destruct (check_free_space_ok desired_size seq LS s k front back last Hm Hk Hd) as (write & s' & k' & f' & b' & l' & E & [F M L N S] & [Hroom Hh] & Hk').
  exists write, s', k', f', b', l'. split; [done|]. split; [done|]. split; [by eapply js_old_head|]. split; [done|]. split; [done|]. split; [done|].
  split; [intros ->; by destruct Hh|]. by destruct F as (? & ? & ? & ? & ? & ? & ? & ->).
Qed.
