(* ===== verification/CommitLog.v ===== *)
(** * A commit extends the log (core/hfs_journal.c)

    What was in the log stays as it is when a transaction is written behind it, and when
    the journal header is written. *)

From S2P Require Import Prelude HfsFormat Bytes JournalTrim JournalIO JournalCoalesce CoalesceProps JournalReplay JournalIOProps JournalWriteProps ReplayProps ReplayLoop ReplayCorrect BlhdrOrder JournalTransaction JournalCommit LogProps CommitProps SpaceProps.

(** ** Where the log has its data *)

Section Range.
Variable j : journal.
Hypothesis Hg : geometry_ok (jhdr j).
Notation h := (jhdr j).
Notation bsz := (jhdr_size h).
Notation jsz := (jh_size h).

(** The data of a write is in the [n] bytes from [pos] on. *)
Definition write_within (pos n : Z) (w : log_write) : Prop := 0 <= lw_size w /\ exists a, 0 <= a /\ a + lw_size w <= n /\ lw_offset w = ring h (pos + a).

Lemma within_shift pos n a m w : bsz <= pos < jsz -> 0 <= a -> 0 <= m -> a + m <= n -> n < jsz - bsz -> write_within (ring h (pos + a)) m w -> write_within pos n w.
Proof using Hg.
  intros Hp Ha Hm Hn Hlt (Hsz & b & Hb & Hbm & Ho). split; [done|]. exists (a + b). split; [lia|]. split; [lia|].
  rewrite Ho, (ring_ring h Hg) by (destruct Hg; lia). f_equal. lia.
Qed.

Lemma blocks_within checked l : forall off, blocks_ok j checked off l -> bsz <= off < jsz -> blocks_size l < jsz - bsz ->
  Forall (write_within off (blocks_size l)) (block_writes j off l).
Proof using Hg.
  induction l as [|b l IH]; intros off Hok Ho Hlt; [by apply Forall_nil|]. destruct Hok as (Hsz & _ & _ & Hok). pose proof Hg as [? ? ?].
  pose proof (blocks_size_nonneg j _ _ _ Hok ltac:(lia)) as Hnn. cbn [blocks_size foldr] in *. fold (blocks_size l) in *. cbn [block_writes].
  assert (Forall (write_within off (bsize b + blocks_size l)) (block_writes j (ring h (off + bsize b)) l)) as Hrest.
  { eapply Forall_impl; [apply IH; [done|apply (ring_bound h Hg); lia|lia]|]. intros w. apply within_shift; lia. }
  destruct (_ =? _); [done|]. constructor; [|done]. split; [cbn; lia|]. exists 0. cbn. split; [lia|]. split; [lia|]. rewrite Z.add_0_r. unfold ring. zcases.
Qed.

Lemma log_within checked last pos hs last' pos' : log_chain j checked last pos hs last' pos' -> 0 < blhdr_size h -> Forall (fun x => header_fits j (snd x)) hs ->
  bsz <= pos < jsz -> log_size hs < jsz - bsz -> Forall (write_within pos (log_size hs)) (log_writes j hs).
Proof using Hg.
  intros Hch Hb Hf. induction Hch as [|last pos b seq hs last' pos' Hok _ _ _ Hch IH]; intros Hp Hlt; [by apply Forall_nil|].
  apply Forall_cons in Hf as [Hfb Hf]. cbn [snd] in Hfb. pose proof (log_size_nonneg j _ _ _ _ _ _ Hch) as Hnn. pose proof (ho_used _ _ _ _ Hok) as Hu.
  cbn [log_size foldr snd] in *. fold (log_size hs) in *. pose proof Hg as [? ? ?]. unfold header_fits in Hfb.
  pose proof (blocks_size_nonneg j _ _ _ (ho_blocks _ _ _ _ Hok) ltac:(lia)) as Hnn2.
  unfold log_writes. cbn [fmap list_fmap concat]. fold (log_writes j hs). apply Forall_app. split.
  - unfold header_writes. eapply Forall_impl; [eapply blocks_within; [apply Hok|apply (ring_bound h Hg); lia|lia]|]. intros w. apply within_shift; lia.
  - eapply Forall_impl; [apply IH; [done|apply (ring_bound h Hg); lia|lia]|]. intros w. apply within_shift; lia.
Qed.

Lemma last_write_from ws x p : last_write j ws x = Some p -> exists w, w ∈ ws /\ covers j w x = true /\ p = ring h (lw_offset w + (x - lw_num w * bsz)).
Proof.
  induction ws as [|w ws IH] using rev_ind; [done|]. rewrite last_write_snoc. destruct (covers j w x) eqn:E.
  - intros [= <-]. exists w. split; [apply elem_of_app; right; by apply list_elem_of_singleton|done].
  - intros Hp. destruct (IH Hp) as (w' & Hin & H). exists w'. split; [apply elem_of_app; by left|done].
Qed.

Lemma last_write_within pos n ws x p : Forall (write_within pos n) ws -> bsz <= pos < jsz -> n < jsz - bsz -> last_write j ws x = Some p ->
  exists k, 0 <= k < n /\ p = ring h (pos + k).
Proof using Hg.
  intros Hws Hp Hn E. destruct (last_write_from _ _ _ E) as (w & Hin & Hc & ->). rewrite Forall_forall in Hws. destruct (Hws w Hin) as (Hsz & a & Ha & Hm & ->).
  unfold covers in Hc. apply andb_true_iff in Hc as [H1 H2]. exists (a + (x - lw_num w * bsz)). split; [lia|].
  rewrite (ring_ring h Hg) by (destruct Hg; lia). f_equal. lia.
Qed.
End Range.

(** ** Another transaction in the log *)

Lemma last_write_same j j' ws x : same_shape j j' -> last_write j' ws x = last_write j ws x.
Proof.
  intros Hsh. induction ws as [|w ws IH] using rev_ind; [done|]. rewrite !last_write_snoc, IH. unfold covers. by rewrite (ss_block _ _ Hsh), (ring_shape j j' Hsh).
Qed.

Lemma apply_blocks_same j j' bl fs : jhdr_size (jhdr j') = jhdr_size (jhdr j) -> apply_blocks j' bl fs = apply_blocks j bl fs.
Proof. intros E. unfold apply_blocks, apply_block. by rewrite E. Qed.

Lemma jlog_grow j j1 segs last LS end' hs n bl bs seq : jlog j segs last LS -> wrote j (jh_end (jhdr j)) n bs j1 -> 0 < n ->
  segs_size segs + n < jh_size (jhdr j) - jhdr_size (jhdr j) ->
  jhdr_size (jhdr j) <= end' <= jh_size (jhdr j) -> (jhdr_size (jhdr j) | end') -> ring (jhdr j) end' = ring (jhdr j) (jh_end (jhdr j) + n) ->
  logged j1 seq last (ring (jhdr j) (jh_end (jhdr j))) hs (ring (jhdr j) end') n bl ->
  jlog (with_jhdr (set_range (jh_start (jhdr j)) end' (jhdr j)) j1) (segs ++ [mkSeg (jh_end (jhdr j)) end' hs]) seq (apply_blocks j bl LS).
Proof.
  intros Hj Hw Hn Hroom He Hal Hr [Hch Hf Hsz Hap]. pose proof (jlog_geometry _ _ _ _ Hj) as [Hg Hb]. pose proof Hj as [Hdev Hwr Hio Hlog Hsw Hval Hst Hstal Hs Hlt Hstable].
  destruct (wrote_shape _ _ _ _ _ Hw) as (Hsh & Hjh & Hio1 & _ & _ & Hwr1 & Hdev1). pose proof Hg as [? ? ?].
  pose proof (segs_chain _ _ _ _ _ _ Hs) as (Hch0 & Hf0 & Hnn & Hsz0). destruct (segs_end _ _ _ _ _ _ Hg Hs Hst Hlt) as [Hend _].
  destruct (segs_bounds _ _ _ _ _ _ Hs Hst Hstal) as [He0 Hal0].
  pose proof (ring_bound (jhdr j) Hg (jh_start (jhdr j)) ltac:(lia)) as Hrs.
  pose proof (ring_bound (jhdr j) Hg (jh_end (jhdr j)) ltac:(lia)) as Hre.
  assert (same_ring j j1 (ring (jhdr j) (jh_start (jhdr j))) (segs_size segs)) as Hsame1.
  { apply (wrote_same j (jh_end (jhdr j)) n bs j1); try done; [lia|lia|].
    apply (ring_apart_behind (jhdr j) Hg); try done; lia. }
  remember (with_jhdr (set_range (jh_start (jhdr j)) end' (jhdr j)) j1) as j' eqn:Ej'.
  assert (same_shape j j') as Hsh' by (rewrite Ej'; destruct Hsh; by split).
  assert (same_shape j1 j') as Hsh1 by (rewrite Ej'; split; cbn; by rewrite ?Hjh).
  assert (forall p, at_journal j' p = at_journal j1 p) as Hat by (intros p; by rewrite Ej').
  assert (same_ring j j' (ring (jhdr j) (jh_start (jhdr j))) (segs_size segs)) as Hsame by (intros k Hk; rewrite Hat; by apply Hsame1).
  pose proof (segs_same j j' _ _ _ _ _ Hsh' Hg Hb Hs Hst Hlt Hsame) as Hs'.
  assert (jhdr j' = set_range (jh_start (jhdr j)) end' (jhdr j)) as Hjh' by by rewrite Ej'.
  assert (hs <> []) as Hne by (intros ->; cbn in Hsz; lia).
  assert (segs_ok j' last (jh_end (jhdr j)) [mkSeg (jh_end (jhdr j)) end' hs] seq end') as Hnew.
  { apply (SegsNext j' last (mkSeg (jh_end (jhdr j)) end' hs) seq); cbn [sg_start sg_end sg_log]; unfold sg_size; cbn [sg_log]; rewrite ?Hjh', ?Hsz; try done;
      rewrite ?(ring_shape j j' Hsh') in *; try done; [| |constructor].
    - replace seq with (match hs with [] => last | _ :: _ => seq end) by by destruct hs.
      apply (chain_same j1 j' Hsh1); rewrite ?Hjh; try done; [rewrite Hsz; lia|by intros k Hk; rewrite Hat].
    - eapply Forall_impl; [exact Hf|]. intros x. unfold header_fits. by rewrite Hjh', Hjh. }
  destruct Hw as [(d & Ej1 & Hd) _ _].
  split; rewrite ?Hjh'; cbn [set_range jh_start jh_end jh_size jhdr_size blhdr_size]; try done.
  - destruct (Hdev1 Hdev) as [[? ? ?] ? ? ? ? ?]. rewrite Ej'. by split; cbn in *; rewrite ?Ej1 in *.
  - destruct (Hwr1 Hwr) as [? ?]. rewrite Ej'. by split; cbn in *; rewrite ?Ej1 in *.
  - rewrite Ej'. cbn. congruence.
  - by apply (log_shape_eq (jhdr j)).
  - by rewrite (ss_swap _ _ Hsh').
  - rewrite Ej', Ej1. exact Hval.
  - eapply segs_app; [exact Hs'|exact Hnew].
  - rewrite segs_size_app. change (segs_size [mkSeg (jh_end (jhdr j)) end' hs]) with (log_size hs + 0). rewrite Hsz. cbn. lia.
  - intros x p. rewrite segs_log_app, log_writes_app, last_write_app. change (segs_log [mkSeg (jh_end (jhdr j)) end' hs]) with (hs ++ []). rewrite app_nil_r.
    rewrite !(log_writes_same j j' Hsh'), !(last_write_same j j') by done. rewrite Hat, <- (apply_blocks_same j j1) by by rewrite Hjh.
    rewrite <- Hap, lookup_apply_writes by by eapply chain_sizes. rewrite (log_writes_same j j1 Hsh), (last_write_same j j1) by done.
    destruct (last_write j (log_writes j hs) x) as [q|]; cbn [value_at]; [by intros [= ->]|]. intros E. rewrite (Hstable _ _ E). f_equal. symmetry.
    pose proof (log_within j Hg true 0 _ _ _ _ Hch0 Hb Hf0 Hrs ltac:(lia)) as Hwi. rewrite Hsz0 in Hwi.
    destruct (last_write_within j Hg _ _ _ x p Hwi Hrs ltac:(lia) E) as (k & Hk & ->). by apply Hsame1.
Qed.

(** ** The header *)

(** The journal when its start and end, and the bytes of the log, are the same. *)
Lemma jlog_same j j' segs last LS : jlog j segs last LS -> same_shape j j' -> jh_start (jhdr j') = jh_start (jhdr j) -> jh_end (jhdr j') = jh_end (jhdr j) ->
  device_ok j' -> writes_ok j' -> jdev_io j' = [] -> ISSETJ j' JOURNAL_INVALID = false ->
  (forall p, jhdr_size (jhdr j) <= p < jh_size (jhdr j) -> at_journal j' p = at_journal j p) -> jlog j' segs last LS.
Proof.
  intros Hj Hsh E1 E2 Hdev' Hwr' Hio' Hval' Hat. pose proof (jlog_geometry _ _ _ _ Hj) as [Hg Hb]. destruct Hj as [Hdev Hwr Hio Hlog Hsw Hval Hst Hstal Hs Hlt Hstable].
  pose proof Hg as [? ? ?]. destruct (segs_chain _ _ _ _ _ _ Hs) as (Hch & Hf & Hnn & Hsz). pose proof (ring_bound (jhdr j) Hg (jh_start (jhdr j)) ltac:(lia)) as Hr.
  assert (same_ring j j' (ring (jhdr j) (jh_start (jhdr j))) (segs_size segs)) as Hsame by (intros k Hk; apply Hat, (ring_bound (jhdr j) Hg); lia).
  split; rewrite ?E1, ?E2, ?(ss_block _ _ Hsh), ?(ss_size _ _ Hsh); try done.
  - by apply (log_shape_eq (jhdr j)); [apply Hsh..|].
  - by rewrite (ss_swap _ _ Hsh).
  - by apply (segs_same j j').
  - intros x p. rewrite (log_writes_same j j' Hsh), (last_write_same j j') by done. intros E. rewrite (Hstable _ _ E). f_equal. symmetry.
    pose proof (log_within j Hg true 0 _ _ _ _ Hch Hb Hf Hr ltac:(lia)) as Hwi. rewrite Hsz in Hwi.
    destruct (last_write_within j Hg _ _ _ x p Hwi Hr ltac:(lia) E) as (k & Hk & ->). apply Hat, (ring_bound (jhdr j) Hg). lia.
Qed.

(** The header on the device is that in memory. *)
Definition header_stored (j : journal) : Prop :=
  get_bytes (jdev j) (jdev_offset j) (jhdr_size (jhdr j)) = Some (header_block (jhdr j) (header_rest j)).

Lemma header_written_same seq j j' : device_ok j -> header_buffer_ok j -> header_written seq j j' ->
  same_shape j j' /\ length (jdev j') = length (jdev j) /\ forall p, jhdr_size (jhdr j) <= p < jh_size (jhdr j) -> at_journal j' p = at_journal j p.
Proof.
  intros Hdev Hbuf [(d & n & ->) Hput]. pose proof Hdev as [[? ? ?] ? _ _ _ _]. split; [by split|]. split; [by eapply length_put_bytes|]. intros p Hp.
  unfold at_journal. cbn [with_flush with_jdev with_jhdr jdev jdev_offset] in *. rewrite (lookup_put_bytes _ _ _ _ _ Hput) by lia.
  rewrite (length_header_block (stamp_header seq (jhdr j)) j Hbuf) by done. change (jhdr_size (stamp_header seq (jhdr j))) with (jhdr_size (jhdr j)).
  rewrite (proj2 (Z.ltb_ge _ _)) by lia. by rewrite andb_false_r.
Qed.

Lemma get_put_bytes b off bs b' : put_bytes b off bs = Some b' -> get_bytes b' off (len bs) = Some bs.
Proof.
  intros Hput. pose proof (length_put_bytes _ _ _ _ Hput) as Hlen. assert (0 <= off /\ off + len bs <= len b) as [H1 H2].
  { unfold put_bytes in Hput. destruct (Z.leb_spec 0 off), (Z.leb_spec (off + len bs) (len b)); done. }
  destruct (get_bytes_some b' off (len bs)) as [cs E]; [lia..|]. rewrite E. f_equal. pose proof (get_bytes_bounds _ _ _ _ E) as [Hcs _]. apply list_eq. intros i.
  destruct (decide (i < length bs)%nat) as [Hi|Hi]; [|by rewrite !lookup_ge_None_2 by lia].
  replace i with (Z.to_nat (Z.of_nat i)) by lia. rewrite (get_bytes_lookup _ _ _ _ (Z.of_nat i) E) by lia. rewrite (lookup_put_bytes _ _ _ _ _ Hput) by lia.
  rewrite (proj2 (Z.leb_le _ _)), (proj2 (Z.ltb_lt _ _)) by lia. cbn [andb]. f_equal. lia.
Qed.

Lemma jlog_header seq j j' segs last LS : jlog j segs last LS -> header_buffer_ok j -> header_written seq j j' -> jlog j' segs last LS /\ header_stored j'.
Proof.
  intros Hj Hbuf Hw. pose proof Hj as [Hdev Hwr Hio _ _ Hval _ _ _ _ _]. destruct (header_written_same _ _ _ Hdev Hbuf Hw) as (Hsh & Hlen & Hat).
  destruct Hw as [(d & n & ->) Hput]. split.
  - apply (jlog_same j); try done.
    + destruct Hdev as [[? ? ?] ? ? ? ? ?]. split; try done. cbn in *. by rewrite Hlen.
    + destruct Hwr as [? ?]. by split.
  - unfold header_stored. cbn [with_flush with_jdev with_jhdr jdev jdev_offset header_rest jhdr] in *. apply get_put_bytes in Hput.
    destruct Hdev as [[? ? ?] _ _ _ _ _]. by rewrite (length_header_block (stamp_header seq (jhdr j)) j Hbuf) in Hput.
Qed.
