(* ===== verification/CommitIssue.v ===== *)
(** * Issuing the writes of a transaction (core/hfs_journal.c)

    When a transaction is in the log, its blocks are written to the file system.  Those of
    the transaction before it must be written first: that they complete does not depend on
    what else was done since they were issued. *)

From S2P Require Import Prelude HfsFormat Bytes JournalTrim JournalIO JournalCoalesce CoalesceProps JournalReplay JournalIOProps JournalWriteProps ReplayProps ReplayLoop ReplayCorrect BlhdrOrder JournalTransaction JournalCommit LogProps CommitProps CopyProps SpaceProps FreeSpaceProps CommitLog.

(** ** Blocks in the file system *)

Definition write_all (ws : list (Z * bytes)) (fs : gmap Z Z) : gmap Z Z := foldl (fun fs w => write_fs (fst w) (snd w) fs) fs ws.

Lemma apply_blocks_live j bl : forall fs, apply_blocks j bl fs = write_all (place (jhdr_size (jhdr j)) <$> live bl) fs.
Proof.
  induction bl as [|x bl IH]; intros fs; [done|]. rewrite live_cons. unfold apply_blocks. cbn [foldl]. fold (apply_blocks j bl (apply_block j fs x)).
  rewrite IH. unfold apply_block. destruct (Z.eqb_spec (fst x) (-1)); [rewrite decide_False by (intros H; by apply H)|rewrite decide_True by done]; done.
Qed.

Lemma in_write_lookup w x : in_write w x <-> (fst w <=? x) && (x <? fst w + len (snd w)) = true.
Proof. unfold in_write. lia. Qed.

Lemma write_fs_out w fs x : ~ in_write w x -> write_fs (fst w) (snd w) fs !! x = fs !! x.
Proof. intros H. rewrite lookup_write_fs. rewrite in_write_lookup in H. by destruct (_ && _). Qed.

Lemma write_fs_in w fs x : in_write w x -> write_fs (fst w) (snd w) fs !! x = snd w !! Z.to_nat (x - fst w).
Proof. intros H. rewrite lookup_write_fs. apply in_write_lookup in H. by rewrite H. Qed.

Lemma write_all_out ws x : ~ Exists (fun w => in_write w x) ws -> forall fs, write_all ws fs !! x = fs !! x.
Proof.
  induction ws as [|w ws IH]; intros Hn fs; [done|]. rewrite Exists_cons in Hn. cbn [write_all foldl]. fold (write_all ws (write_fs (fst w) (snd w) fs)).
  rewrite IH by tauto. apply write_fs_out. tauto.
Qed.

#[export] Instance in_write_dec w x : Decision (in_write w x).
Proof. unfold in_write. apply _. Defined.

Lemma write_all_in ws x : Exists (fun w => in_write w x) ws -> forall fs, is_Some (write_all ws fs !! x).
Proof.
  induction ws as [|w ws IH]; intros Hx fs; [by apply Exists_nil in Hx|]. cbn [write_all foldl]. fold (write_all ws (write_fs (fst w) (snd w) fs)).
  destruct (decide (Exists (fun w => in_write w x) ws)) as [Hin|Hout]; [by apply IH|]. rewrite write_all_out by done.
  apply Exists_cons in Hx as [Hx|Hx]; [|done]. rewrite write_fs_in by done. apply lookup_lt_is_Some_2. destruct Hx. lia.
Qed.

Lemma blocks_apart_tail w ws : blocks_apart (w :: ws) -> blocks_apart ws /\ Forall (fun v => forall p, in_write w p -> in_write v p -> False) ws.
Proof.
  intros Ha. split.
  - intros i k x y Hi Hk Hne p. apply (Ha (S i) (S k)); [done|done|congruence].
  - apply Forall_lookup. intros i v Hi p Hw Hv. apply (Ha 0%nat (S i) w v eq_refl Hi ltac:(done) p Hw Hv).
Qed.

(** Blocks that do not overlap are all there. *)
Lemma write_all_agree ws : blocks_apart ws -> forall fs, Forall (fun w => write_fs (fst w) (snd w) (write_all ws fs) = write_all ws fs) ws.
Proof.
  induction ws as [|w ws IH]; intros Ha fs; [by apply Forall_nil|]. apply blocks_apart_tail in Ha as [Ha Hw]. cbn [write_all foldl]. fold (write_all ws (write_fs (fst w) (snd w) fs)).
  constructor; [|by apply IH]. apply map_eq. intros x. destruct (decide (in_write w x)) as [Hin|Hout]; [|by apply write_fs_out].
  rewrite write_fs_in by done. rewrite write_all_out; [by rewrite write_fs_in|]. intros Hx. apply Exists_exists in Hx as (v & Hv & Hvx).
  rewrite Forall_forall in Hw. by eapply Hw.
Qed.

(** ** Writes that complete do not depend on the rest *)

(** The state [t] with what [s] says about the transactions that are written; [ext] is
    behind the entries of old_start. *)
Definition over (t s : jstate) (ext : list Z) : jstate :=
  with_flying (js_asyncIO s) (js_flying s) (with_starts (js_active_start s) (js_old_start s ++ ext) (js_completed_trs s)
    (with_jnl (with_fsdev (fsdev (js_jnl s)) (fsdev_io (js_jnl t)) (js_jnl t)) t)).

Lemma list_find_app_l {A} (P : A -> Prop) `{forall x, Decision (P x)} (l ext : list A) i x : list_find P l = Some (i, x) -> list_find P (l ++ ext) = Some (i, x).
Proof. intros E. apply list_find_app_Some. by left. Qed.

Lemma transaction_done_over t s ext tr s' : transaction_done tr s = Some s' -> transaction_done tr (over t s ext) = Some (over t s' ext).
Proof.
  unfold transaction_done. cbn [over js_old_start js_active_start js_completed_trs with_flying with_starts]. intros E.
  destruct (list_find _ (js_old_start s)) as [[i v]|] eqn:Ef; [|done]. pose proof Ef as Hi. apply list_find_Some in Hi as [Hi _].
  rewrite (list_find_app_l _ _ _ _ _ Ef). cbn [mbind option_bind] in *.
  destruct (tr_journal_start tr =? js_active_start s);
    (destruct (coalesce_trs _ _ _ _ _) as [[[range active] completed]|]; [|done]; cbn [mbind option_bind] in *; injection E as <-; unfold over;
     cbn [with_starts js_asyncIO js_flying js_active_start js_old_start js_completed_trs js_jnl]; rewrite insert_app_l by exact (lookup_lt_Some _ _ _ Hi); reflexivity).
Qed.

Lemma transaction_done_flags tr s s' : transaction_done tr s = Some s' -> js_jnl s' = js_jnl s /\ js_flying s' = js_flying s.
Proof.
  unfold transaction_done. destruct (list_find _ _) as [[i v]|]; [|done]. cbn [mbind option_bind].
  destruct (_ =? _); (destruct (coalesce_trs _ _ _ _ _) as [[[range active] completed]|]; [|done]; cbn [mbind option_bind]; by intros [= <-]).
Qed.

Lemma flushed_over t s ext n s' : js_isset t JOURNAL_INVALID = js_isset s JOURNAL_INVALID -> buffer_flushed_callback n s = Some s' ->
  buffer_flushed_callback n (over t s ext) = Some (over t s' ext) /\ js_isset s' JOURNAL_INVALID = js_isset s JOURNAL_INVALID.
Proof.
  intros Hf. unfold buffer_flushed_callback. change (js_flying (over t s ext)) with (js_flying s). destruct (js_flying s) as [f|]; [|done]. cbn [mbind option_bind].
  destruct (_ =? FREED_BYTES); [by intros [= <-]|]. destruct (_ <? _); [by intros [= <-]|].
  change (js_isset (over t s ext) JOURNAL_INVALID) with (js_isset t JOURNAL_INVALID). rewrite Hf.
  destruct (js_isset s JOURNAL_INVALID) eqn:Ei; [cbn [mbind option_bind]; intros [= <-]; split; [done|exact Ei]|].
  destruct (transaction_done (fl_tr f) s) as [s1|] eqn:Ed; [|done]. cbn [mbind option_bind]. intros [= <-].
  rewrite (transaction_done_over _ _ _ _ _ Ed). cbn [mbind option_bind]. split; [done|].
  change (js_isset s1 JOURNAL_INVALID = false). unfold js_isset in *. destruct (transaction_done_flags _ _ _ Ed) as [-> _]. done.
Qed.

Lemma complete_write_over t s ext k s' : js_isset t JOURNAL_INVALID = js_isset s JOURNAL_INVALID -> complete_write k s = Some s' ->
  complete_write k (over t s ext) = Some (over t s' ext) /\ js_isset s' JOURNAL_INVALID = js_isset s JOURNAL_INVALID.
Proof.
  intros Hf. unfold complete_write. change (js_flying (over t s ext)) with (js_flying s). destruct (js_flying s) as [f|]; [|done]. cbn [mbind option_bind].
  destruct (fl_writes f !! k) as [[pos data]|]; [|done]. cbn [mbind option_bind]. intros E. exact ((fun H => flushed_over t _ ext _ s' H E) Hf).
Qed.

Lemma complete_io_over t s ext s' : js_isset t JOURNAL_INVALID = js_isset s JOURNAL_INVALID -> complete_io s = Some s' ->
  complete_io (over t s ext) = Some (over t s' ext).
Proof.
  unfold complete_io. change (js_flying (over t s ext)) with (js_flying s). destruct (js_flying s) as [f|]; [|by intros _ [= <-]].
  generalize (length (fl_writes f)) as n. intros n. revert s. induction n as [|n IH]; intros s Hf; cbn [complete_writes]; [by intros [= <-]|].
  destruct (complete_write 0 s) as [s1|] eqn:E1; [|done]. cbn [mbind option_bind]. intros E.
  destruct (complete_write_over t s ext 0 s1 Hf E1) as [-> Hf1]. cbn [mbind option_bind]. apply IH; [by rewrite Hf1|done].
Qed.

(** ** The writes are issued *)

Lemma flying_ok_same j j' g LS f : same_shape j j' -> fsdev j' = fsdev j -> flying_ok j g LS f -> flying_ok j' g LS f.
Proof.
  intros Hsh E []. split; try done; rewrite ?E; [|done]. intros x. rewrite (log_writes_same j j' Hsh), (last_write_same j j') by done. auto.
Qed.

(** The journal changed, and its log and the file system are the same. *)
Lemma jmem_jnl s j' k front back last LS : jmem s k front back last LS -> jlog j' (front ++ back) last LS -> same_shape (js_jnl s) j' ->
  fsdev j' = fsdev (js_jnl s) -> jh_end (jhdr j') = jh_end (js_jhdr s) -> jmem (with_jnl j' s) k front back last LS.
Proof.
  intros [_ Hold Hd Hc] Hj Hsh Hfs He. split; try done. unfold disk_ok in *. cbn. destruct (js_asyncIO s).
  - destruct Hd as (segs' & g & f & ? & ? & ? & Hfly). exists segs', g, f. split; [done|]. split; [done|]. split; [done|]. by apply (flying_ok_same (js_jnl s)).
  - unfold js_jhdr in *. cbn. by rewrite He, Hfs.
Qed.

Lemma olds_snoc back l g : olds_ok false back l -> olds_ok true (back ++ [g]) (l ++ [Z.lor (sg_start g) OLD_MARK]).
Proof. intros Hl. remember false as async. induction Hl; [constructor|done|]. constructor. by apply IHHl. Qed.

Lemma over_self t s ext : js_old_start t = js_old_start s ++ ext -> js_active_start t = js_active_start s -> js_completed_trs t = js_completed_trs s ->
  js_asyncIO t = js_asyncIO s -> js_flying t = js_flying s -> fsdev (js_jnl t) = fsdev (js_jnl s) -> t = over t s ext.
Proof. intros E1 E2 E3 E4 E5 E6. unfold over. rewrite <- E1, <- E2, <- E3, <- E4, <- E5, <- E6. by destruct t as [[]]. Qed.

(** What is to be written for the transaction [tr], which is the part [g] of the log. *)
Record issuable (j : journal) (g : seg) (LS : gmap Z Z) (tr : transaction) (writes : list (Z * bytes)) : Prop := {
  is_start : tr_journal_start tr = sg_start g;
  is_end : tr_journal_end tr = sg_end g;
  is_writes : issue_all (jhdr_size (jhdr j)) (tr_blhdrs tr) = Some writes;
  is_some_write : writes <> [];
  is_sizes : Forall (fun w => 0 < len (snd w)) writes;
  is_amount : tr_num_killed tr + tr_num_blhdrs tr * blhdr_size (jhdr j) + writes_size writes = tr_total_bytes tr;
  is_bounds : 0 <= tr_num_killed tr /\ tr_total_bytes tr < 2 ^ 30;
  is_apart : blocks_apart writes;
  is_logged : forall x, Exists (fun w => in_write w x) writes -> last_write j (log_writes j (sg_log g)) x <> None;
}.


Lemma issued_flying j g LS tr writes : issuable j g LS tr writes -> 0 < blhdr_size (jhdr j) -> fsdev j = LS ->
  flying_ok j g (write_all writes LS) (mkFlying (set_num_flushed (s32 (tr_num_blhdrs tr * blhdr_size (jhdr j))) tr) writes).
Proof.
  intros [H1 H2 H3 H4 H5 H6 [H7 H8] H9 H10] Hb Hfs. destruct (writes_size_pos _ H5) as [Hnn _]. assert (0 <= tr_num_blhdrs tr) by (unfold tr_num_blhdrs; lia).
  assert (s32 (tr_num_blhdrs tr * blhdr_size (jhdr j)) = tr_num_blhdrs tr * blhdr_size (jhdr j)) as E by (apply s32_id; nia).
  split; cbn [fl_tr fl_writes set_num_flushed tr_journal_start tr_journal_end tr_num_killed tr_num_flushed tr_total_bytes]; rewrite ?E; try done; [split; [done|split; [nia|done]]| |].
  - by apply write_all_agree.
  - intros x. destruct (decide (Exists (fun w => in_write w x) writes)) as [Hx|Hx]; [by right|left]. by rewrite Hfs, write_all_out.
Qed.

Lemma issue_transaction_ok t s k front back last LS tr writes g seq : jmem s k front back last LS -> t = over t s [Z.lor (sg_start g) OLD_MARK] ->
  js_isset t JOURNAL_INVALID = js_isset s JOURNAL_INVALID -> jlog (js_jnl t) ((front ++ back) ++ [g]) seq (write_all writes LS) ->
  sg_start g = jh_end (js_jhdr s) -> issuable (js_jnl t) g LS tr writes ->
  exists s4, issue_transaction tr t = Some (with_flying true (Some (mkFlying (set_num_flushed (s32 (tr_num_blhdrs tr * blhdr_size (js_jhdr t))) tr) writes)) s4) /\
    jmem (with_flying true (Some (mkFlying (set_num_flushed (s32 (tr_num_blhdrs tr * blhdr_size (js_jhdr t))) tr) writes)) s4) k front (back ++ [g]) seq (write_all writes LS) /\
    exists s2, s4 = over t s2 [Z.lor (sg_start g) OLD_MARK].
Proof.
  intros Hm Ht Hfl Hj Hst His. pose proof His as [_ _ Hwr Hne _ _ _ _ _].
  assert (exists s2, (if js_asyncIO t then complete_io t else Some t) = Some (over t s2 [Z.lor (sg_start g) OLD_MARK]) /\ jmem s2 k front back last LS /\
    js_asyncIO s2 = false /\ js_jhdr s2 = js_jhdr s) as (s2 & E & Hm2 & Ha2 & Hh2).
  { destruct (js_asyncIO t) eqn:Ha.
    - destruct (complete_io_ok _ _ _ _ _ _ Hm) as (s2 & E & [_ Hm2 Hh2] & Ha2). exists s2. split; [|done].
      pose proof (complete_io_over t s _ s2 Hfl E : complete_io (over t s [Z.lor (sg_start g) OLD_MARK]) = _) as E2. by rewrite <- Ht in E2.
    - exists s. split; [by rewrite <- Ht|]. split; [done|]. split; [|done]. rewrite Ht in Ha. exact Ha. }
  unfold issue_transaction. rewrite E. cbn [mbind option_bind]. set (s4 := over t s2 _). change (js_asyncIO s4) with (js_asyncIO s2). rewrite Ha2.
  destruct Hm2 as [Hj2 (l & Hold & Hl) Hd Hc]. unfold disk_ok in Hd. rewrite Ha2 in Hd, Hl. destruct Hd as (Hact & Hpend & Hfs).
  change (js_flying s4) with (js_flying s2). change (js_jhdr s4) with (js_jhdr t). change (issue_all (jhdr_size (js_jhdr t)) (tr_blhdrs (set_num_flushed _ tr))) with (issue_all (jhdr_size (jhdr (js_jnl t))) (tr_blhdrs tr)).
  exists s4. split; [|split; [|by exists s2]].
  - destruct (js_flying s2) as [[ftr fws]|]; [cbn in Hpend; subst fws|]; rewrite Hwr; cbn [mbind option_bind]; destruct writes; done.
  - split.
    + rewrite app_assoc. apply (jlog_fs (js_jnl t)). exact Hj.
    + exists (l ++ [Z.lor (sg_start g) OLD_MARK]). split; [|by apply olds_snoc]. cbn. by rewrite Hold, app_assoc.
    + unfold disk_ok. cbn. eexists (front ++ back), g, _. split; [by rewrite app_assoc|]. split; [by rewrite Hact, Hst, Hh2|]. split; [done|].
      pose proof (jlog_geometry _ _ _ _ Hj) as [_ Hb]. apply (issued_flying (with_fsdev (fsdev (js_jnl s2)) (fsdev_io (js_jnl t)) (js_jnl t)) g LS tr writes); [|done|done].
      by destruct His; split.
    + exact Hc.
Qed.
