(* ===== verification/EndTransactionProps.v ===== *)
(** * Committing a transaction (core/hfs_journal.c)

    end_transaction puts a transaction into the log: the headers and the buffers are behind
    the log that was there, the header of the journal has the new end, and the blocks are
    being written to the file system.  What log and file system make together is what
    they made before, with the blocks of the transaction.  First there is room for it, the
    header that is written then keeps the log, and it has an entry in old_start. *)

From S2P Require Import Prelude HfsFormat Bytes JournalTrim JournalIO JournalCoalesce CoalesceProps JournalReplay JournalIOProps JournalWriteProps ReplayProps ReplayLoop ReplayCorrect BlhdrOrder JournalTransaction JournalCommit LogProps CommitProps CopyProps SpaceProps FreeSpaceProps CommitLog CommitIssue.

(** ** What stays the same *)

(** The parts of the journal that are not about what is written. *)
Record quiet (s s' : jstate) : Prop := {
  qt_bufs : js_bufs s' = js_bufs s;
  qt_trs : js_cur_tr s' = js_cur_tr s /\ js_active_tr s' = js_active_tr s;
  qt_owner : js_nested_count s' = js_nested_count s /\ js_owner s' = js_owner s;
  qt_memory : js_memory s' = js_memory s /\ js_tbuffer_size s' = js_tbuffer_size s;
  qt_aborted : js_flush_aborted s' = js_flush_aborted s;
  qt_sequence : js_sequence_num s' = js_sequence_num s;
  qt_shape : same_shape (js_jnl s) (js_jnl s');
  qt_rest : header_rest (js_jnl s') = header_rest (js_jnl s) /\ max_write_size (js_jnl s') = max_write_size (js_jnl s) /\ jn_flags (js_jnl s') = jn_flags (js_jnl s);
}.

Definition trims (s : jstate) : option jnl_trim_list * list (list dk_extent) * list (list dk_extent) := (js_async_trim s, js_unmapped s, js_trimmed s).

Lemma quiet_refl s : quiet s s.
Proof. by split. Qed.

Lemma quiet_trans s1 s2 s3 : quiet s1 s2 -> quiet s2 s3 -> quiet s1 s3.
Proof. intros [] []. split; intuition congruence || eapply same_shape_trans; eauto. Qed.

Lemma frame_quiet s s' : frame s s' -> quiet s s' /\ jh_end (js_jhdr s') = jh_end (js_jhdr s) /\ trims s' = trims s.
Proof. intros (start & fs & a & o & c & b & f & ->). split; [|done]. by split. Qed.

Lemma header_buffer_same j j' : jhdr_size (jhdr j') = jhdr_size (jhdr j) -> header_rest j' = header_rest j -> max_write_size j' = max_write_size j ->
  header_buffer_ok j -> header_buffer_ok j'.
Proof. intros E1 E2 E3 [H1 H2]. split; rewrite ?E1, ?E2, ?E3; [|done]. rewrite length_app in *. pose proof (length_header_bytes (jhdr j)). pose proof (length_header_bytes (jhdr j')). lia. Qed.

Lemma quiet_buffer s s' : quiet s s' -> header_buffer_ok (js_jnl s) -> header_buffer_ok (js_jnl s').
Proof. intros []. intuition. eapply header_buffer_same; [by apply ss_block|done..]. Qed.

(** The transactions and their writes are all that [jmem] is about. *)
Lemma jmem_ext s s' k front back last LS : jmem s k front back last LS -> js_jnl s' = js_jnl s -> js_old_start s' = js_old_start s -> js_asyncIO s' = js_asyncIO s ->
  js_flying s' = js_flying s -> js_active_start s' = js_active_start s -> js_completed_trs s' = js_completed_trs s -> jmem s' k front back last LS.
Proof.
  intros [H1 H2 H3 H4] E1 E2 E3 E4 E5 E6. split; rewrite ?E1, ?E2, ?E3, ?E6; try done. unfold disk_ok, js_jhdr in *. by rewrite E1, E3, E4, E5.
Qed.

(** One of the free entries of old_start is dropped. *)
Lemma jmem_tail s k front back last LS : jmem s (S k) front back last LS -> jmem (with_starts (js_active_start s) (tail (js_old_start s)) (js_completed_trs s) s) k front back last LS.
Proof. intros [H1 (l & Hold & Hl) H3 H4]. split; [done| |done|done]. exists l. split; [|done]. cbn. by rewrite Hold. Qed.

(** ** The header *)

Lemma jmem_header u seq s k front back last LS : jmem s k front back last LS -> header_buffer_ok (js_jnl s) ->
  exists j', write_journal_header u seq (js_jnl s) = Some (0, j') /\ header_written seq (js_jnl s) j' /\ jmem (with_jnl j' s) k front back last LS /\
    quiet s (with_jnl j' s) /\ header_stored j'.
Proof.
  intros Hm Hbuf. pose proof (jm_log _ _ _ _ _ _ Hm) as Hj. pose proof Hj as [Hdev _ Hio _ _ _ _ _ _ _ _].
  destruct (write_journal_header_ok u seq (js_jnl s) Hdev Hio Hbuf) as (j' & E & Hw). exists j'. split; [done|]. split; [done|].
  destruct (jlog_header _ _ _ _ _ _ Hj Hbuf Hw) as [Hj' Hst]. destruct (header_written_same _ _ _ Hdev Hbuf Hw) as (Hsh & _ & _). destruct Hw as [(d & n & ->) _].
  split; [|split; [by split|done]]. by apply jmem_jnl.
Qed.

(** ** reserve_journal *)

(** The room that is free is what the log does not take. *)
Lemma jlog_room j segs last LS : jlog j segs last LS -> free_space (jhdr j) = jh_size (jhdr j) - jhdr_size (jhdr j) - segs_size segs.
Proof.
  intros Hj. pose proof (jlog_geometry _ _ _ _ Hj) as [Hg _]. destruct Hj as [_ _ _ _ _ _ Hst Hstal Hs Hlt _].
  destruct (segs_end _ _ _ _ _ _ Hg Hs Hst Hlt) as [Hr Hz]. destruct (segs_bounds _ _ _ _ _ _ Hs Hst Hstal) as [He _].
  destruct (segs_chain _ _ _ _ _ _ Hs) as (_ & _ & Hnn & _). by apply (log_free_space (jhdr j) Hg).
Qed.

Lemma reserve_journal_ok tr s k front back last LS : jmem s k front back last LS -> header_buffer_ok (js_jnl s) -> (0 < k + length back)%nat ->
  tr_total_bytes tr < jh_size (js_jhdr s) - jhdr_size (js_jhdr s) ->
  exists s0 k' front' back' last', reserve_journal tr s =
      Some (set_journal_range (jh_end (js_jhdr s)) (tr_journal_end tr) tr,
            with_starts (js_active_start s0) (js_old_start s0 ++ [Z.lor (jh_end (js_jhdr s)) OLD_MARK]) (js_completed_trs s0) s0) /\
    jmem s0 k' front' back' last' LS /\ (last' = last \/ last' = 0) /\ segs_size (front' ++ back') + tr_total_bytes tr < jh_size (js_jhdr s) - jhdr_size (js_jhdr s) /\
    quiet s s0 /\ trims s0 = trims s /\ jh_end (js_jhdr s0) = jh_end (js_jhdr s) /\ js_write_header_failed s0 = false /\ (S k' + length back' = k + length back)%nat.
Proof.
  intros Hm Hbuf Hk Hbig. unfold reserve_journal. set (s1 := with_sequence _ _ s).
  assert (jmem s1 k front back last LS) as Hm1 by by apply (jmem_ext s).
  destruct (check_free_space_ok (tr_total_bytes tr) (js_saved_sequence_num s1) LS s1 k front back last Hm1 Hk Hbig) as (write & s2 & k2 & f2 & b2 & l2 & E & [F2 M2 L2 N2 _] & [Hroom Hhdr] & Hk2).
  rewrite E. cbn [mbind option_bind]. destruct (frame_quiet _ _ F2) as (Q2 & He2 & T2). assert (quiet s s1) as Q1 by by split.
  pose proof (quiet_trans _ _ _ Q1 Q2) as Q. pose proof (jm_log _ _ _ _ _ _ M2) as Hj2. pose proof (jlog_geometry _ _ _ _ Hj2) as [[? ? ?] _].
  destruct (segs_bounds _ _ _ _ _ _ (jl_segs _ _ _ _ Hj2) (jl_start _ _ _ _ Hj2) (jl_whole _ _ _ _ Hj2)) as [Hend _].
  change (jhdr (js_jnl s2)) with (js_jhdr s2) in *. change (jh_end (js_jhdr s1)) with (jh_end (js_jhdr s)) in He2.
  rewrite (proj2 (Z.leb_gt _ _)), (proj2 (Z.ltb_ge _ _)) by lia. cbn [orb].
  rewrite (jlog_room _ _ _ _ Hj2 : free_space (js_jhdr s2) = _) in Hroom. change (jhdr (js_jnl s2)) with (js_jhdr s2) in Hroom.
  rewrite (ss_size _ _ (qt_shape _ _ Q) : jh_size (js_jhdr s2) = jh_size (js_jhdr s)), (ss_block _ _ (qt_shape _ _ Q) : jhdr_size (js_jhdr s2) = jhdr_size (js_jhdr s)) in *.
  assert (exists s3, match write with true => write_header_thread s2 | false => Some (with_failed (js_flush_aborted s2) false s2) end = Some s3 /\
    jmem s3 k2 f2 b2 l2 LS /\ quiet s2 s3 /\ trims s3 = trims s2 /\ jh_end (js_jhdr s3) = jh_end (js_jhdr s2) /\ js_write_header_failed s3 = false)
    as (s3 & E3 & M3 & Q3 & T3 & He3 & Hfail).
  { destruct write; [|exists (with_failed (js_flush_aborted s2) false s2); split; [done|]; split; [by apply (jmem_ext s2)|]; split; [by split|]; split; done].
    unfold write_header_thread. destruct (jmem_header true (js_saved_sequence_num s2) s2 _ _ _ _ _ M2 (quiet_buffer _ _ Q Hbuf)) as (j' & Ew & [(d & n & Ej) _] & Mw & Qw & _).
    rewrite Ew. cbn [mbind option_bind]. eexists. split; [reflexivity|]. split; [by eapply jmem_ext|]. split; [|split; [done|split; [by rewrite Ej|done]]].
    eapply quiet_trans; [exact Qw|by split]. }
  rewrite E3. cbn [mbind option_bind]. destruct k2 as [|k2]; [lia|].
  exists (with_starts (js_active_start s3) (tail (js_old_start s3)) (js_completed_trs s3) s3), k2, f2, b2, l2.
  split; [|split; [by apply jmem_tail|split; [done|split; [lia|split; [|split; [|split; [|split; [done|]]]]]]]].
  - rewrite He3, He2. cbn [tr_journal_start set_journal_range]. assert (u64 (jh_end (js_jhdr s)) = jh_end (js_jhdr s)) as -> by (apply wrap_id; rewrite He2 in Hend; lia). done.
  - eapply quiet_trans; [exact Q|]. eapply quiet_trans; [exact Q3|by split].
  - change (trims s3 = trims s). by rewrite T3, T2.
  - cbn. unfold js_jhdr in *. cbn. congruence.
  - lia.
Qed.

(** ** The writes of a transaction *)

Lemma all_blocks_sizes j l dss : Forall2 (ready_in j) l dss -> Forall (fun x => 0 < len (snd x)) (all_blocks l dss).
Proof.
  induction 1 as [|b ds l dss [Hb _] _ IH]; [by apply Forall_nil|]. unfold all_blocks. cbn [zip_with concat]. apply Forall_app. split; [|exact IH].
  eapply Forall_impl; [apply (br_blocks _ _ _ Hb)|]. intros x (Hsz & _ & _). lia.
Qed.

Lemma live_sizes bl : Forall (fun x => 0 < len (snd x)) bl -> Forall (fun x : Z * bytes => 0 < len (snd x)) (live bl).
Proof. rewrite !Forall_forall. intros H x Hx. apply list_elem_of_filter in Hx as [_ Hx]. by apply H. Qed.

Lemma places_size bsz bl : writes_size (place bsz <$> bl) = blocks_bytes bl.
Proof. induction bl as [|x bl IH]; [done|]. rewrite fmap_cons, writes_size_cons, IH. done. Qed.

Lemma finished_length l dss l' : all_finished l dss l' -> length l' = length l.
Proof. induction 1; cbn; congruence. Qed.

(** Each byte of a block is in the log. *)
Lemma logged_covers j seq last pos hs pos' n bl x : logged j seq last pos hs pos' n bl ->
  Exists (fun w => in_write w x) (place (jhdr_size (jhdr j)) <$> live bl) -> last_write j (log_writes j hs) x <> None.
Proof.
  intros [Hch _ _ Hap] Hx E. pose proof (write_all_in _ _ Hx ∅) as Hs. rewrite <- apply_blocks_live, <- Hap in Hs.
  rewrite lookup_apply_writes in Hs by by eapply chain_sizes. rewrite E in Hs. cbn in Hs. rewrite lookup_empty in Hs. by destruct Hs.
Qed.

Lemma logged_nonempty j seq last pos hs pos' n bl : logged j seq last pos hs pos' n bl -> 0 < n -> hs <> [].
Proof. intros [_ _ Hs _] Hn ->. cbn in Hs. lia. Qed.

Lemma ready_used_pos j l dss bl : Forall2 (ready_in j) l dss -> geometry_ok (jhdr j) -> log_shape (jhdr j) -> live (all_blocks l dss) = bl -> bl <> [] -> 0 < total_used l.
Proof.
  intros Hl Hg Hlog Hbl Hne. inversion Hl as [|b ds l2 dss2 Hb Hl2]; subst; [done|]. cbn [total_used foldr]. fold (total_used l2).
  pose proof (ready_used _ _ _ Hb Hg Hlog). pose proof (total_used_nonneg _ _ _ Hl2 Hg Hlog). lia.
Qed.

(** ** finish_end_transaction *)

(** A transaction with its buffers copied, which has its place in the journal. *)
Record copied (s : jstate) (tr : transaction) (dss : list (list bytes)) (bl : list (Z * bytes)) : Prop := {
  cd_ready : Forall2 (ready_in (js_jnl s)) (tr_blhdrs tr) dss;
  cd_blocks : live (all_blocks (tr_blhdrs tr) dss) = bl;
  cd_some : bl <> [];
  cd_apart : blocks_apart (place (jhdr_size (js_jhdr s)) <$> bl);
  cd_start : tr_journal_start tr = jh_end (js_jhdr s);
  cd_total : tr_total_bytes tr = total_used (tr_blhdrs tr);
  cd_amount : tr_num_killed tr + len (tr_blhdrs tr) * blhdr_size (js_jhdr s) + blocks_bytes bl = tr_total_bytes tr;
  cd_killed : 0 <= tr_num_killed tr;
  cd_sequence : 0 < tr_sequence_num tr < 2 ^ 32;
}.

(** What is not changed when a transaction is committed. *)
Definition trim_of (tr : transaction) (s s' : jstate) : Prop :=
  js_async_trim s' = None /\ js_trimmed s' = js_trimmed s ++ (match tl_extents (tr_trim tr) with [] => [] | l => [l] end).

Lemma trim_flush_ok tr s : exists u, journal_trim_flush tr s = (set_trim (mkTrim 0 []) tr,
  with_async_trim None u (js_trimmed s ++ match tl_extents (tr_trim tr) with [] => [] | l => [l] end) s).
Proof.
  unfold journal_trim_flush. destruct (tl_extents (tr_trim tr)); [exists (js_unmapped s); rewrite app_nil_r; by destruct s|].
  eexists. by destruct s.
Qed.

Lemma copied_issuable s tr dss bl l' j1 j2 seq last pos hs pos' end' n LS : copied s tr dss bl -> all_finished (tr_blhdrs tr) dss l' ->
  logged j1 seq last pos hs pos' n (all_blocks (tr_blhdrs tr) dss) -> same_shape (js_jnl s) j1 -> same_shape (js_jnl s) j2 -> tr_total_bytes tr < 2 ^ 30 ->
  issuable j2 (mkSeg (jh_end (js_jhdr s)) end' hs) LS
    (set_trim (mkTrim 0 []) (set_journal_range (tr_journal_start tr) end' (set_blhdrs l' (tr_total_bytes tr) (tr_num_killed tr) tr)))
    (place (jhdr_size (js_jhdr s)) <$> bl).
Proof.
  intros [Hrd Hbl Hsome Hapart Hstart Htot Hamt Hkill Hseq] Hfin Hlg Hsh1 Hsh2 Hlt.
  split; rewrite ?(ss_block _ _ Hsh2), ?(ss_blhdr _ _ Hsh2); cbn [set_trim set_journal_range set_blhdrs tr_num_killed tr_blhdrs tr_total_bytes tr_journal_start tr_journal_end sg_start sg_end sg_log]; try done.
  - rewrite (issue_all_ok _ _ _ _ _ Hrd Hfin). by rewrite Hbl.
  - intros Hz. by apply fmap_nil_inv in Hz.
  - apply Forall_fmap. rewrite <- Hbl. eapply live_sizes, all_blocks_sizes, Hrd.
  - rewrite places_size. unfold tr_num_blhdrs. cbn [tr_blhdrs set_trim set_journal_range set_blhdrs]. rewrite (finished_length _ _ _ Hfin). exact Hamt.
  - intros x Hx. pose proof (same_shape_trans _ _ _ (same_shape_sym _ _ Hsh1) Hsh2) as Hsh.
    rewrite (log_writes_same j1 j2 Hsh), (last_write_same j1 j2) by done. eapply logged_covers; [exact Hlg|]. rewrite (ss_block _ _ Hsh1), Hbl. exact Hx.
Qed.

Lemma finish_end_transaction_ok callback tr s s0 k front back last LS dss bl :
  jmem s0 k front back last LS ->
  s = with_starts (js_active_start s0) (js_old_start s0 ++ [Z.lor (jh_end (js_jhdr s0)) OLD_MARK]) (js_completed_trs s0) s ->
  js_asyncIO s = js_asyncIO s0 -> js_flying s = js_flying s0 -> js_jnl s = js_jnl s0 -> js_write_header_failed s = false ->
  header_buffer_ok (js_jnl s0) -> copied s tr dss bl -> out_of_sequence last (tr_sequence_num tr) = false -> default 0 callback = 0 ->
  segs_size (front ++ back) + tr_total_bytes tr < jh_size (js_jhdr s0) - jhdr_size (js_jhdr s0) ->
  exists s' g, finish_end_transaction callback tr s = Some (0, s') /\
    jmem s' k front (back ++ [g]) (tr_sequence_num tr) (write_all (place (jhdr_size (js_jhdr s0)) <$> bl) LS) /\ quiet s s' /\ trim_of tr s s' /\ header_stored (js_jnl s').
Proof.
  intros Hm Hs Ea Ef Ej Hfail Hbuf Hcd Hin Hcb Hroom. pose proof Hcd as [Hrd Hbl Hsome Hapart Hstart Htot Hamt Hkill Hseq].
  unfold js_jhdr in *. rewrite Ej in *. pose proof (jm_log _ _ _ _ _ _ Hm) as Hj. pose proof (jlog_geometry _ _ _ _ Hj) as [Hg Hb].
  pose proof Hj as [Hdev Hwr Hio Hlog Hsw Hval Hst Hstal Hsegs Hlt _]. pose proof Hg as [? ? ?].
  destruct (segs_bounds _ _ _ _ _ _ Hsegs Hst Hstal) as [He Hal]. destruct (segs_chain _ _ _ _ _ _ Hsegs) as (_ & _ & Hnn & _).
  destruct (finish_blhdrs_ok (tr_sequence_num tr) Hseq (tr_blhdrs tr) dss s (jh_end (jhdr (js_jnl s0))) last) as
    (l' & end' & j1 & hs & bs & E & Hfin & He' & Hal' & Hr' & Hw & Hlg); rewrite ?Ej; try done; [lia|].
  rewrite Ej in He', Hal', Hr', Hw, Hlg. rewrite <- Htot in Hr', Hw, Hlg.
  unfold finish_end_transaction. unfold js_jhdr. rewrite Ej, E. cbn [mbind option_bind negb].
  destruct (wrote_shape _ _ _ _ _ Hw) as (Hsh1 & Hjh1 & _). pose proof (ready_used_pos _ _ _ _ Hrd Hg Hlog Hbl Hsome) as Hpos.
  assert (0 < tr_total_bytes tr) as Htpos by by rewrite Htot.
  pose proof (jlog_grow _ _ _ _ _ end' hs _ _ bs _ Hj Hw Htpos ltac:(lia) He' Hal' Hr' Hlg) as Hj2.
  set (tr1 := set_journal_range _ end' _). set (s1 := set_end end' (with_jnl j1 s)).
  assert (js_jnl s1 = with_jhdr (set_range (jh_start (jhdr (js_jnl s0))) end' (jhdr (js_jnl s0))) j1) as Ej1 by (unfold s1, set_end, js_jhdr; cbn; by rewrite Hjh1).
  change (tr_journal_start tr1) with (tr_journal_start tr). change (tr_journal_end tr1) with end'. rewrite Hstart.
  rewrite (proj2 (Z.eqb_neq (jh_end (jhdr (js_jnl s0))) 0)), (proj2 (Z.eqb_neq end' 0)) by lia. cbn [orb]. rewrite <- Ej1 in Hj2.
  assert (header_buffer_ok (js_jnl s1)) as Hbuf1.
  { rewrite Ej1. destruct Hw as [(d & -> & _) _ _]. by apply (header_buffer_same (js_jnl s0)). }
  destruct (write_journal_header_ok false (js_saved_sequence_num s1) (js_jnl s1) (jl_dev _ _ _ _ Hj2) (jl_io _ _ _ _ Hj2) Hbuf1) as (j2 & Ew & Hww).
  rewrite Ew. cbn [mbind option_bind negb Z.eqb]. rewrite Hcb. cbn [negb Z.eqb].
  destruct (jlog_header _ _ _ _ _ _ Hj2 Hbuf1 Hww) as [Hj3 Hstored]. destruct (trim_flush_ok tr1 (with_jnl j2 s1)) as [u Eu]. rewrite Eu.
  set (tr2 := set_trim (mkTrim 0 []) tr1). set (t := with_async_trim None u _ (with_jnl j2 s1)).
  pose proof (header_written_same _ _ _ (jl_dev _ _ _ _ Hj2) Hbuf1 Hww) as (Hsh2 & _ & _).
  assert (same_shape (js_jnl s0) j2) as Hsh.
  { eapply same_shape_trans; [exact Hsh1|]. eapply same_shape_trans; [|exact Hsh2]. rewrite Ej1. split; cbn; by rewrite ?Hjh1. }
  assert (fsdev j2 = fsdev (js_jnl s0) /\ jn_flags j2 = jn_flags (js_jnl s0) /\ header_rest j2 = header_rest (js_jnl s0) /\ max_write_size j2 = max_write_size (js_jnl s0)) as (Efs & Efl & Erest & Emax).
  { destruct Hww as [(d & n & ->) _]. destruct Hw as [(d1 & -> & _) _ _]. done. }
  set (g := mkSeg (jh_end (jhdr (js_jnl s0))) end' hs).
  set (writes := place (jhdr_size (jhdr (js_jnl s0))) <$> bl).
  rewrite apply_blocks_live, Hbl in Hj3. fold writes g in Hj3.
  assert (t = over t s0 [Z.lor (sg_start g) OLD_MARK]) as Ht.
  { apply over_self; [exact (f_equal js_old_start Hs)|exact (f_equal js_active_start Hs)|exact (f_equal js_completed_trs Hs)|exact Ea|exact Ef|exact Efs]. }
  assert (issuable (js_jnl t) g LS tr2 writes) as His.
  { assert (tr_total_bytes tr < 2 ^ 30) by lia. change (js_jnl t) with j2. unfold g, writes, tr2, tr1. rewrite <- Ej in *. by eapply (copied_issuable s tr dss bl l' j1). }
  destruct (issue_transaction_ok t s0 k front back last LS tr2 writes g (tr_sequence_num tr) Hm Ht) as (s4 & E4 & Hm4 & s5 & Es4); [|exact Hj3|done|done|].
  { unfold js_isset, ISSETJ. cbn. by rewrite Efl. }
  rewrite E4. cbn [mbind option_bind]. eexists _, g. split; [reflexivity|]. split; [exact Hm4|]. rewrite Es4. split; [|split].
  - split; rewrite ?Ej; try done. destruct Hsh. by split.
  - done.
  - exact Hstored.
Qed.

(** ** end_transaction *)

Lemma info_ready_same j j' m i : same_shape j j' -> info_ready (jhdr j) m i -> info_ready (jhdr j') m i.
Proof.
  intros Hsh Hi. destruct Hi as [num bp b blk ? ? ? ? ? Hb ?|n ? ?]; [|constructor; by rewrite ?(ss_block _ _ Hsh), ?(ss_size _ _ Hsh)].
  econstructor; try done. by apply (block_ok_same j j').
Qed.

Lemma built_same j j' m T b : same_shape j j' -> built_blhdr (jhdr j) m T b -> built_blhdr (jhdr j') m T b.
Proof.
  intros Hsh [Hi H2 H3 H4 H5 H6 H7 H8]. split; unfold journal_max_blocks in *; rewrite ?(ss_block _ _ Hsh), ?(ss_size _ _ Hsh), ?(ss_blhdr _ _ Hsh); try done.
  eapply Forall_impl; [exact Hi|]. intros i. by apply info_ready_same.
Qed.

(** What the transaction takes. *)
Lemma tr_ready_bytes h m tr : tr_ready h m tr -> 0 < blhdr_size h ->
  tr_num_killed tr + len (tr_blhdrs tr) * blhdr_size h + blocks_bytes (tr_blocks m tr) = tr_total_bytes tr /\ 0 <= tr_num_killed tr /\ blhdr_size h < tr_total_bytes tr.
Proof.
  intros [Hbl _ Htot _ Hkill Hsome _] Hb. pose proof (total_bytes _ _ _ _ Hbl) as E. pose proof (built_infos _ _ _ _ Hbl) as Hi.
  destruct (blocks_bytes_pos _ _ _ Hi) as [_ Hpos]. pose proof (killed_nonneg _ _ _ Hi) as Hk. unfold tr_blocks, tr_infos in *. specialize (Hpos Hsome).
  assert (1 <= len (tr_blhdrs tr)) by (destruct (tr_blhdrs tr); [done|cbn [length]; lia]). split; [lia|]. split; [lia|]. nia.
Qed.

Section Commit.
Variable jnl_trim_flush_limit : Z.

(** A journal without errors, and a transaction that is to be committed. *)
Record committable (tr : transaction) (force : bool) (callback : option Z) (s : jstate) (last : Z) : Prop := {
  cm_header : header_buffer_ok (js_jnl s);
  cm_ready : tr_ready (js_jhdr s) (js_bufs s) tr;
  cm_cur : js_cur_tr s = None;
  cm_trim : js_async_trim s = None;
  cm_aborted : js_flush_aborted s = false;
  cm_force : force = true \/ group_commit jnl_trim_flush_limit tr s = false;
  cm_callback : default 0 callback = 0;
  cm_sequence : 0 < tr_sequence_num tr < 2 ^ 32;
  cm_order : out_of_sequence last (tr_sequence_num tr) = false;
}.

Lemma end_transaction_ok tr force callback s k front back last LS : jmem s k front back last LS -> committable tr force callback s last -> (0 < k + length back)%nat ->
  exists s' k' front' back' g, end_transaction jnl_trim_flush_limit false tr force callback s = Some (0, s') /\
    jmem s' k' front' (back' ++ [g]) (tr_sequence_num tr) (write_all (place (jhdr_size (js_jhdr s)) <$> tr_blocks (js_bufs s) tr) LS) /\
    (k' + length (back' ++ [g]) = k + length back)%nat /\ quiet (with_bufs (released (js_bufs s) (tr_bps tr)) s) s' /\ trim_of tr s s' /\ header_stored (js_jnl s').
Proof.
  intros Hm [Hbuf Hrd Hcur Htrim Habort Hforce Hcb Hseq Hord] Hk. pose proof (jm_log _ _ _ _ _ _ Hm) as Hj. pose proof (jlog_geometry _ _ _ _ Hj) as [Hg Hb].
  pose proof Hrd as [Hbl Hbps Htot Hfit Hkilled Hsome Hapart]. destruct (tr_ready_bytes _ _ _ Hrd Hb) as (Hamt & Hk0 & Hlt).
  unfold end_transaction. rewrite Hcur. cbn [is_some]. rewrite (proj2 (Z.eqb_neq _ _)) by lia.
  assert (negb force && group_commit jnl_trim_flush_limit tr s = false) as -> by (destruct Hforce as [->|E]; [done|rewrite E; apply andb_false_r]).
  rewrite (jl_valid _ _ _ _ Hj : js_isset s JOURNAL_INVALID = false), Habort. cbn [orb]. rewrite Htrim. cbn [is_some].
  set (s1 := with_async_trim _ _ _ s). assert (jmem s1 k front back last LS) as Hm1 by by apply (jmem_ext s).
  destruct (reserve_journal_ok tr s1 k front back last LS Hm1 Hbuf Hk Hfit) as (s2 & k2 & f2 & b2 & l2 & E2 & Hm2 & Hl2 & Hroom & Hq2 & Ht2 & He2 & Hf2 & Hn2).
  rewrite E2. cbn [mbind option_bind]. set (tr2 := set_journal_range _ _ tr). set (s3 := with_starts _ _ _ s2).
  pose proof (qt_shape _ _ Hq2) as Hsh. change (js_jnl s1) with (js_jnl s) in Hsh.
  assert (js_bufs s3 = js_bufs s) as Hbufs by exact (qt_bufs _ _ Hq2).
  assert (Forall (built_blhdr (jhdr (js_jnl s2)) (js_bufs s) (tr_tbuffer_size tr)) (tr_blhdrs tr)) as Hbl2 by (eapply Forall_impl; [exact Hbl|]; intros b; by apply (built_same (js_jnl s))).
  pose proof (jm_log _ _ _ _ _ _ Hm2) as Hj2. pose proof (jlog_geometry _ _ _ _ Hj2) as [Hg2 Hb2].
  destruct (copy_blhdrs_ok (js_jnl s2) (tr_tbuffer_size tr) Hg2 (ls_whole _ (jl_log _ _ _ _ Hj2)) (tr_blhdrs tr) s3 (js_bufs s) Hbufs Hbl2 Hbps)
    as (l' & dss & E3 & Hrd2 & Hlive & Htot2 & Hlen2).
  change (tr_blhdrs tr2) with (tr_blhdrs tr). rewrite E3. cbn [mbind option_bind]. set (s4 := with_bufs _ s3). set (tr4 := set_blhdrs l' _ _ tr2).
  assert (copied s4 tr4 dss (tr_blocks (js_bufs s) tr)) as Hcd.
  { split; cbn [tr4 tr2 set_blhdrs set_journal_range tr_blhdrs tr_journal_start tr_total_bytes tr_num_killed tr_sequence_num]; try done;
      unfold s4, s3, js_jhdr in *; cbn [with_bufs with_starts js_jnl]; rewrite ?(ss_block _ _ Hsh), ?(ss_blhdr _ _ Hsh); try done; [by rewrite Htot2|by rewrite Hlen2]. }
  assert (out_of_sequence l2 (tr_sequence_num tr) = false) as Hord2 by by destruct Hl2 as [->| ->].
  destruct (finish_end_transaction_ok callback tr4 s4 s2 k2 f2 b2 l2 LS dss (tr_blocks (js_bufs s) tr) Hm2) as (s5 & g & E5 & Hm5 & Hq5 & Ht5 & Hst5); try done.
  { unfold s4, s3. by rewrite He2. }
  { eapply quiet_buffer; [exact Hq2|exact Hbuf]. }
  { unfold js_jhdr in *. rewrite (ss_block _ _ Hsh), (ss_size _ _ Hsh). exact Hroom. }
  exists s5, k2, f2, b2, g. split; [exact E5|]. split; [|split; [rewrite length_app; cbn; lia|split; [|split; [|done]]]].
  - unfold js_jhdr in *. rewrite (ss_block _ _ Hsh) in Hm5. exact Hm5.
  - eapply quiet_trans; [|exact Hq5]. destruct Hq2 as [? ? ? ? ? ? ? ?]. by split.
  - destruct Ht5 as [Ha5 Htr5]. split; [done|]. rewrite Htr5. change (js_trimmed s4) with (js_trimmed s2). by injection Ht2 as _ _ ->.
Qed.
End Commit.
