(* ===== verification/RecoveryProps.v ===== *)
(** * Replaying what was committed (core/hfs_journal.c)

    Whenever the machine stops, replaying the journal gives the file system that the
    committed transactions make, whatever of their blocks was written. *)

From S2P Require Import Prelude HfsFormat Bytes JournalTrim JournalIO JournalCoalesce CoalesceProps JournalReplay JournalIOProps JournalWriteProps ReplayProps ReplayLoop ReplayCorrect BlhdrOrder JournalTransaction JournalCommit LogProps CommitProps CopyProps SpaceProps FreeSpaceProps CommitLog CommitIssue EndTransactionProps.

(** ** How many blocks are in the log *)

Section Room.
Variable j : journal.
Hypothesis Hg : geometry_ok (jhdr j).
Notation bsz := (jhdr_size (jhdr j)).

Lemma block_writes_room checked l : forall off, blocks_ok j checked off l -> len (block_writes j off l) * bsz <= blocks_size l.
Proof using Hg.
  induction l as [|b l IH]; intros off Hok; [cbn; lia|]. destruct Hok as (Hsz & Hw & _ & Hok). specialize (IH _ Hok). destruct Hg as [Hb _ _].
  cbn [block_writes blocks_size foldr]. fold (blocks_size l). destruct (_ =? _); [lia|]. cbn [length].
  assert (bsz <= bsize b) by (apply Z.divide_pos_le; [lia|done]). rewrite Nat2Z.inj_succ, Z.mul_succ_l. lia.
Qed.

Lemma log_writes_room checked last pos hs last' pos' : log_chain j checked last pos hs last' pos' -> 0 < blhdr_size (jhdr j) -> Forall (fun x => header_fits j (snd x)) hs ->
  len (log_writes j hs) * bsz <= log_size hs.
Proof using Hg.
  intros Hch Hb. induction Hch as [|last pos b seq hs last' pos' Hok _ _ _ Hch IH]; intros Hf; [cbn; lia|]. apply Forall_cons in Hf as [Hfb Hf]. specialize (IH Hf).
  unfold log_writes. cbn [fmap list_fmap concat log_size foldr snd]. fold (log_writes j hs). fold (log_size hs). rewrite length_app.
  pose proof (block_writes_room _ _ _ (ho_blocks _ _ _ _ Hok)). unfold header_fits in Hfb. cbn [snd] in Hfb. unfold header_writes. lia.
Qed.
End Room.

(** ** Recovery *)

(** The machine stops: what is on the devices stays, and there are no errors then. *)
Definition crashed (s : jstate) : journal := with_fs (fsdev (js_jnl s)) (js_jnl s).

(** Behind the end of the log there is no header that fits. *)
Definition ends_there (j : journal) (last : Z) : Prop := log_stops j last (ring (jhdr j) (jh_end (jhdr j))).

Lemma jlog_replayable j segs last LS : jlog j segs last LS -> segs <> [] -> ends_there j last ->
  replayable j true (segs_log segs) (ring (jhdr j) (jh_end (jhdr j))).
Proof.
  intros Hj Hne Hstop. pose proof (jlog_geometry _ _ _ _ Hj) as [Hg Hb]. destruct Hj as [_ _ _ [Hl Hw _ _ _ Hroom] _ _ Hst Hstal Hs Hlt _].
  destruct (segs_chain _ _ _ _ _ _ Hs) as (Hch & Hf & Hnn & Hsz). destruct (segs_end _ _ _ _ _ _ Hg Hs Hst Hlt) as [Hend _].
  destruct (segs_bounds _ _ _ _ _ _ Hs Hst Hstal) as [He Hal]. pose proof Hg as [? ? ?].
  assert (0 < segs_size segs) as Hpos.
  { inversion Hs as [|? ? ? ? ? ? ? ? Hsz1 ? ? ? Hs2]; subst; [done|]. destruct (segs_chain _ _ _ _ _ _ Hs2) as (_ & _ & ? & _). rewrite segs_size_cons. lia. }
  pose proof (log_writes_room j Hg _ _ _ _ _ _ Hch Hb Hf) as Hwr.
  split; try done; [lia|rewrite Hend; unfold ring; zcases| |].
  - exists (segs_log segs), [], last, last. rewrite app_nil_r. split; [done|]. split; [|split; [done|split; [constructor|done]]].
    intros E. rewrite E in Hsz. cbn in Hsz. lia.
  - assert (len (log_writes j (segs_log segs)) <= jh_size (jhdr j) / jhdr_size (jhdr j)) by (apply Z.div_le_lower_bound; lia). lia.
Qed.

(** What is not in the log is on the file system. *)
Lemma disk_rest s k front back last LS x : jmem s k front back last LS -> last_write (js_jnl s) (log_writes (js_jnl s) (segs_log (front ++ back))) x = None ->
  fsdev (js_jnl s) !! x = LS !! x.
Proof.
  intros [_ _ Hd _] E. unfold disk_ok in Hd. destruct (js_asyncIO s); [|by destruct Hd as (_ & _ & ->)]. destruct Hd as (segs & g & f & Hsegs & _ & _ & Hf).
  destruct (fo_rest _ _ _ _ Hf x) as [Hx|Hx]; [done|]. exfalso. apply (fo_logged _ _ _ _ Hf) in Hx. apply Hx. rewrite Hsegs, segs_log_app, log_writes_app, last_write_app in E.
  change (segs_log [g]) with (sg_log g ++ []) in E. rewrite app_nil_r in E. by destruct (last_write _ (log_writes _ (sg_log g)) x).
Qed.

Lemma replay_committed p s k front back last LS fuel : jmem s k front back last LS -> header_buffer_ok (js_jnl s) -> 0 <= p ->
  (front ++ back = [] \/ ends_there (js_jnl s) last) -> (length (segs_log (front ++ back)) + 1 < fuel)%nat ->
  exists j', replay_journal (2 ^ p) (crashed s) fuel = Some (0, j') /\ fsdev j' = LS /\ jh_start (jhdr j') = jh_end (jhdr j').
Proof.
  intros Hm Hbuf Hp Hstop Hfuel. pose proof (jm_log _ _ _ _ _ _ Hm) as Hj. destruct (decide (front ++ back = [])) as [Hnil|Hne].
  - pose proof (jl_segs _ _ _ _ Hj) as Hs. rewrite Hnil in Hs. inversion Hs; subst. unfold replay_journal, wrap_range. cbn.
    match goal with H : jh_start _ = jh_end _ |- _ => rewrite H end. rewrite Z.eqb_refl. eexists. split; [reflexivity|]. split; [|done]. cbn.
    apply map_eq. intros x. apply (disk_rest _ _ _ _ _ _ _ Hm). by rewrite Hnil.
  - destruct Hstop as [|Hstop]; [done|]. pose proof (jlog_replayable _ _ _ _ Hj Hne Hstop) as Hrep. pose proof Hj as [Hdev _ Hio _ _ _ _ _ Hs _ Hstable].
    assert (device_ok (crashed s)) as Hdev' by (destruct Hdev as [[? ? ?] ? ? ? ? ?]; by split).
    assert (header_buffer_ok (crashed s)) as Hbuf' by (destruct Hbuf; by split).
    destruct (replay_journal_run (crashed s) Hdev' Hio Hbuf' p true _ _ fuel Hp (replayable_fs _ (fsdev (js_jnl s)) _ _ _ Hrep) Hfuel) as (r & j' & E & [(-> & Hfs & Hemp)|(_ & Hf & _)]); [|done].
    exists j'. split; [exact E|]. split; [|destruct Hemp as [-> _]; done].
    rewrite Hfs. apply map_eq. intros x. pose proof (chain_sizes _ _ _ _ _ _ _ (proj1 (segs_chain (js_jnl s) _ _ _ _ _ Hs))) as Hsizes. rewrite lookup_apply_writes by exact Hsizes.
    change (last_write (crashed s)) with (last_write (js_jnl s)). change (log_writes (crashed s)) with (log_writes (js_jnl s)).
    destruct (last_write (js_jnl s) _ x) as [q|] eqn:Eq; cbn [value_at]; [symmetry; by apply Hstable|]. by apply (disk_rest _ _ _ _ _ _ _ Hm).
Qed.

(** ** Completions *)

(** Some of the writes to the file system complete, in any order. *)
Inductive completing : jstate -> jstate -> Prop :=
| CompletingNone s : completing s s
| CompletingWrite k s s1 s2 : complete_write k s = Some s1 -> completing s1 s2 -> completing s s2.

Lemma complete_write_inv k s n front back last LS s1 : jmem s n front back last LS -> complete_write k s = Some s1 -> completes s s1 n front back last LS.
Proof.
  intros Hm E. unfold complete_write in E. destruct (js_flying s) as [f|] eqn:Ef; [|done]. cbn [mbind option_bind] in E.
  destruct (fl_writes f !! k) as [w|] eqn:Ek; [|done]. destruct (js_asyncIO s) eqn:Ea.
  - destruct (complete_write_ok s n front back last LS f k w Hm Ea Ef Ek) as (s' & f' & E' & Hc & _).
    assert (complete_write k s = Some s1) as E2 by (unfold complete_write; rewrite Ef; cbn [mbind option_bind]; rewrite Ek; exact E).
    rewrite E2 in E'. injection E' as <-. exact Hc.
  - pose proof (jm_disk _ _ _ _ _ _ Hm) as Hd. unfold disk_ok in Hd. rewrite Ea, Ef in Hd. destruct Hd as (_ & Hp & _). cbn in Hp. by rewrite Hp in Ek.
Qed.

Lemma completing_ok s s' : completing s s' -> forall n front back last LS, jmem s n front back last LS -> completes s s' n front back last LS.
Proof.
  induction 1 as [s|k s s1 s2 E _ IH]; intros n front back last LS Hm; [by apply completes_refl|].
  pose proof (complete_write_inv _ _ _ _ _ _ _ _ Hm E) as Hc. eapply completes_trans; [exact Hc|]. apply IH, Hc.
Qed.

(** C11: When end_transaction has returned, the blocks of the transaction are not lost.
    Whichever of the writes to the file system complete before the machine stops, and in
    whatever order, replaying the journal gives the file system of all transactions that
    were committed before, with the blocks of this one: where the headers and the data are
    in the ring, how often they wrap around, and what had to be dropped to make room for
    them does not matter. *)
Theorem end_transaction_durable limit tr force callback s k front back last LS : jmem s k front back last LS -> committable limit tr force callback s last ->
  (0 < k + length back)%nat ->
  let LS' := write_all (place (jhdr_size (js_jhdr s)) <$> tr_blocks (js_bufs s) tr) LS in
  exists s' k' front' back', end_transaction limit false tr force callback s = Some (0, s') /\ jmem s' k' front' back' (tr_sequence_num tr) LS' /\
    forall s2 p fuel, completing s' s2 -> ends_there (js_jnl s2) (tr_sequence_num tr) -> 0 <= p -> (length (segs_log (front' ++ back')) + 1 < fuel)%nat ->
      exists j', replay_journal (2 ^ p) (crashed s2) fuel = Some (0, j') /\ fsdev j' = LS'.
Proof.
  intros Hm Hc Hk LS'. destruct (end_transaction_ok limit tr force callback s k front back last LS Hm Hc Hk) as (s' & k' & f' & b' & g & E & Hm' & _ & Hq & _).
  exists s', k', f', (b' ++ [g]). split; [done|]. split; [done|]. intros s2 p fuel Hcomp Hends Hp Hfuel.
  destruct (completing_ok _ _ Hcomp _ _ _ _ _ Hm') as [Hf2 Hm2 _]. destruct (frame_quiet _ _ Hf2) as [Hq2 _].
  assert (header_buffer_ok (js_jnl s2)) as Hb2 by (eapply quiet_buffer; [exact Hq2|]; eapply quiet_buffer; [exact Hq|]; apply Hc).
  destruct (replay_committed p s2 _ _ _ _ _ fuel Hm2 Hb2 Hp (or_intror Hends) Hfuel) as (j' & Er & Hfs & _). by exists j'.
Qed.

(** ** journal_flush *)

Lemma committable_completes limit tr force callback s s' n front back last LS : completes s s' n front back last LS -> force = true ->
  committable limit tr force callback s last -> committable limit tr force callback s' last.
Proof.
  intros [Hf _ Hh] Hforce [H1 H2 H3 H4 H5 H6 H7 H8 H9]. destruct (frame_quiet _ _ Hf) as (Hq & _ & Ht).
  split; try done; [by eapply quiet_buffer|by rewrite Hh, (qt_bufs _ _ Hq)|rewrite <- H3; apply (qt_trs _ _ Hq)|by injection Ht as ->|by rewrite (qt_aborted _ _ Hq)|by left].
Qed.

Lemma wait_ok s n front back last LS : jmem s n front back last LS ->
  exists s', (if true && js_asyncIO s then complete_io s else Some s) = Some s' /\ completes s s' n front back last LS /\ js_asyncIO s' = false.
Proof.
  intros Hm. cbn [andb]. destruct (js_asyncIO s) eqn:Ea; [by apply complete_io_ok|]. exists s. split; [done|]. split; [by apply completes_refl|done].
Qed.

(** C13: journal_flush, called to wait, commits the transaction that was kept for the next
    one and waits until its blocks, and those of all transactions before, are on the file
    system. *)
Theorem journal_flush_correct limit tr s k front back last LS : jmem s k front back last LS -> js_cur_tr s = Some tr -> js_active_tr s = None ->
  committable limit tr true None (with_trs None None s) last -> (0 < k + length back)%nat ->
  exists s' k' front' back', journal_flush limit false true s = Some (0, s') /\ js_cur_tr s' = None /\ js_asyncIO s' = false /\
    fsdev (js_jnl s') = write_all (place (jhdr_size (js_jhdr s)) <$> tr_blocks (js_bufs s) tr) LS /\
    jmem s' k' front' back' (tr_sequence_num tr) (fsdev (js_jnl s')).
Proof.
  intros Hm Hcur Hact Hc Hk. pose proof (jl_valid _ _ _ _ (jm_log _ _ _ _ _ _ Hm) : js_isset s JOURNAL_INVALID = false) as Hv.
  unfold journal_flush. rewrite Hv, Hcur, Hact. assert (jmem (with_trs None None s) k front back last LS) as Hm1 by by apply (jmem_ext s).
  destruct (wait_ok _ _ _ _ _ _ Hm1) as (s2 & E2 & Hc2 & _). rewrite E2. cbn [mbind option_bind].
  pose proof (committable_completes _ _ _ _ _ _ _ _ _ _ _ Hc2 eq_refl Hc) as Hcm2. destruct Hc2 as [Hf2 Hm2 Hh2]. destruct (frame_quiet _ _ Hf2) as (Hq2 & _).
  destruct (end_transaction_ok limit tr true None s2 k front back last LS Hm2 Hcm2 Hk) as (s3 & k3 & f3 & b3 & g & E3 & Hm3 & _ & Hq3 & _).
  rewrite E3. cbn [mbind option_bind snd]. destruct (wait_ok _ _ _ _ _ _ Hm3) as (s4 & E4 & [Hf4 Hm4 _] & Ha4). rewrite E4. cbn [mbind option_bind].
  destruct (frame_quiet _ _ Hf4) as (Hq4 & _). pose proof (jm_disk _ _ _ _ _ _ Hm4) as Hd. unfold disk_ok in Hd. rewrite Ha4 in Hd. destruct Hd as (_ & _ & Hfs).
  exists s4, k3, f3, (b3 ++ [g]). rewrite Hfs. rewrite Hh2, (qt_bufs _ _ Hq2) in *. split; [done|]. split; [|done].
  destruct (qt_trs _ _ Hq4) as [-> _], (qt_trs _ _ Hq3) as [-> _]. exact (proj1 (qt_trs _ _ Hq2)).
Qed.
