(* ===== verification/TransactionProps.v ===== *)
(** * Building a transaction is right (core/hfs_journal.c)

    The transaction that is being built has its buffers once, in headers that have room for
    their data ([tr_open]); the operations keep this, and change the buffers of the
    transaction as they should. *)

From S2P Require Import Prelude HfsFormat Bytes JournalTrim JournalIO JournalCoalesce CoalesceProps JournalReplay JournalIOProps JournalWriteProps ReplayProps ReplayLoop ReplayCorrect BlhdrOrder JournalTransaction JournalCommit LogProps CommitProps CopyProps.

(** A transaction to which blocks can be added. *)
Record tr_open (h : journal_header) (m : gmap Z buf) (tr : transaction) : Prop := {
  ro_blhdrs : Forall (built_blhdr h m (tr_tbuffer_size tr)) (tr_blhdrs tr);
  ro_some : tr_blhdrs tr <> [];
  ro_bps : NoDup (tr_bps tr);
  ro_total : tr_total_bytes tr = total_used (tr_blhdrs tr);
  ro_fit : tr_total_bytes tr < jh_size h - jhdr_size h;
  ro_killed : tr_num_killed tr = killed_size (tr_infos tr);
  ro_tbuffer : 0 < blhdr_size h <= tr_tbuffer_size tr /\ tr_tbuffer_size tr < 2 ^ 31;
}.

(** It can be committed when a block is left and the blocks are not the same. *)
Lemma tr_open_ready h m tr : tr_open h m tr -> tr_blocks m tr <> [] -> blocks_apart (place (jhdr_size h) <$> tr_blocks m tr) -> tr_ready h m tr.
Proof. intros [] ? ?. by split. Qed.

(** The block of a buffer of the cache. *)
Definition block_of (m : gmap Z buf) (bp : Z) : option (Z * bytes) := b ← m !! bp; buf_block bp b.

Lemma blocks_of_bps m (l : list tr_info) : omap (info_block m) l = omap (block_of m) (omap info_bp l).
Proof.
  induction l as [|[num u] l IH]; [done|]. rewrite !omap_cons. unfold info_block at 1, info_bp at 1. cbn [ti_u]. destruct u as [bp| |]; [|exact IH..].
  rewrite omap_cons. unfold block_of at 1. rewrite IH. done.
Qed.

Lemma tr_blocks_bps m tr : tr_blocks m tr = omap (block_of m) (tr_bps tr).
Proof. apply blocks_of_bps. Qed.

Lemma block_of_other m m' (l : list Z) : (forall bp, bp ∈ l -> m' !! bp = m !! bp) -> omap (block_of m') l = omap (block_of m) l.
Proof.
  induction l as [|bp l IH]; intros Hm; [done|]. rewrite !omap_cons. assert (block_of m' bp = block_of m bp) as ->.
  { unfold block_of. by rewrite (Hm bp) by (apply elem_of_cons; by left). }
  rewrite IH; [done|]. intros p Hp. apply Hm, elem_of_cons. by right.
Qed.

(** ** Looking for a buffer *)

Lemma is_buf_bp bp i : is_buf bp i = true <-> info_bp i = Some bp.
Proof. unfold is_buf, info_bp. destruct (ti_u i); [|done..]. rewrite Z.eqb_eq. split; [by intros ->|by intros [= ->]]. Qed.

Lemma existsb_buf bp (l : list tr_info) : existsb (is_buf bp) l = true <-> bp ∈ omap info_bp l.
Proof.
  induction l as [|i l IH]; [split; [done|by intros ?%not_elem_of_nil]|]. cbn [existsb]. rewrite orb_true_iff, omap_cons, IH, is_buf_bp. destruct (info_bp i) as [p|].
  - rewrite elem_of_cons. split; intros [H|H]; [injection H as ->; by left|by right|left; congruence|by right].
  - split; [by intros [?|?]|by right].
Qed.

Lemma elem_of_bps bp (l : list tr_blhdr) : bp ∈ omap info_bp (concat (th_info <$> l)) <-> exists b, b ∈ l /\ bp ∈ omap info_bp (th_info b).
Proof.
  induction l as [|b l IH]; [split; [by intros ?%not_elem_of_nil|by intros (? & ?%not_elem_of_nil & _)]|].
  rewrite fmap_cons. cbn [concat]. rewrite omap_app_list, elem_of_app, IH. split.
  - intros [H|(b' & H1 & H2)]; [exists b; split; [apply elem_of_cons; by left|done]|exists b'; split; [apply elem_of_cons; by right|done]].
  - intros (b' & [->|H1]%elem_of_cons & H2); [by left|right; by exists b'].
Qed.

Lemma find_blhdr_none bp tr : bp ∉ tr_bps tr -> find_blhdr bp (tr_blhdrs tr) = None.
Proof.
  intros Hn. unfold find_blhdr. apply list_find_None, Forall_forall. intros b Hb He. apply Hn, elem_of_bps. exists b. split; [done|]. by apply existsb_buf.
Qed.

Lemma find_blhdr_some bp tr : bp ∈ tr_bps tr -> exists k b, find_blhdr bp (tr_blhdrs tr) = Some (k, b) /\ tr_blhdrs tr !! k = Some b /\ bp ∈ omap info_bp (th_info b).
Proof.
  intros Hin. unfold find_blhdr. destruct (list_find _ (tr_blhdrs tr)) as [[k b]|] eqn:E.
  - exists k, b. split; [done|]. apply list_find_Some in E as (Hk & Hb & _). split; [done|]. by apply existsb_buf.
  - exfalso. apply list_find_None in E. apply elem_of_bps in Hin as (b & Hb & Hbp). rewrite Forall_forall in E. apply (E b Hb). by apply existsb_buf.
Qed.

(** ** journal_modify_block_end *)

(** A buffer that may be in a transaction. *)
Record bufferable (h : journal_header) (b : buf) : Prop := {
  bu_locked : bf_locked b = true;
  bu_num : bf_blkno b <> -1;
  bu_block : exists blk, forall bp, physical_blkno (buf_create_shadow bp 0 b) = Some blk /\ block_ok h blk (buf_size b);
  bu_hook : length (buf_hook b (bf_data b)) = length (bf_data b);
}.

Lemma built_infos_other h m m' T b : same_bufs m m' (th_info b) -> built_blhdr h m T b -> built_blhdr h m' T b.
Proof.
  intros Hs [Hi Hu ? ? ? ? ? ?]. destruct (same_bufs_all h _ _ _ Hs) as (H1 & H2 & _). split; try done; [by apply H1|by rewrite H2].
Qed.

Lemma infos_size_app m l1 l2 : infos_size m (l1 ++ l2) = infos_size m l1 + infos_size m l2.
Proof. induction l1 as [|i l1 IH]; [done|]. cbn [app]. rewrite !infos_size_cons, IH. lia. Qed.

Lemma total_used_app l1 l2 : total_used (l1 ++ l2) = total_used l1 + total_used l2.
Proof. induction l1 as [|b l1 IH]; [done|]. cbn [app total_used foldr]. fold (total_used (l1 ++ l2)). fold (total_used l1). lia. Qed.

Lemma last_split {A} (l : list A) : l <> [] -> exists pre x, l = pre ++ [x] /\ last l = Some x /\ removelast l = pre.
Proof.
  destruct l as [|x pre _] using rev_ind; [done|]. intros _. exists pre, x. split; [done|]. by rewrite last_snoc, removelast_last.
Qed.

Lemma elem_of_bps_app bp (l1 l2 : list tr_blhdr) : bp ∉ omap info_bp (concat (th_info <$> (l1 ++ l2))) <-> bp ∉ omap info_bp (concat (th_info <$> l1)) /\ bp ∉ omap info_bp (concat (th_info <$> l2)).
Proof. rewrite fmap_app, concat_app, omap_app_list, elem_of_app. tauto. Qed.

Section Build.
Variable j : journal.
Hypothesis Hg : geometry_ok (jhdr j).
Hypothesis Hlog : log_shape (jhdr j).
Notation h := (jhdr j).

Lemma built_used m T b : built_blhdr h m T b -> 0 < th_bytes_used b.
Proof using Hg Hlog. intros [Hi -> _ _ _ _ _ _]. pose proof (infos_size_nonneg j Hg _ _ Hi). destruct Hlog. lia. Qed.

Lemma total_used_pos m T l : Forall (built_blhdr h m T) l -> 0 <= total_used l.
Proof using Hg Hlog. induction 1 as [|b l Hb _ IH]; [done|]. cbn [total_used foldr]. fold (total_used l). pose proof (built_used _ _ _ Hb). lia. Qed.

(** A header with one more buffer. *)
Lemma built_add m T hd bp b b' : built_blhdr h m T hd -> bp ∉ omap info_bp (th_info hd) -> bufferable h b' -> bf_delwri b' = true ->
  bf_blkno b' = bf_blkno b -> buf_size b' = buf_size b -> th_num_blocks hd + 1 <= th_max_blocks hd -> th_bytes_used hd + buf_size b <= T ->
  th_bytes_used hd + buf_size b < jh_size h - jhdr_size h -> built_blhdr h (<[bp := b']> m) T (add_info bp b hd).
Proof using Hg Hlog.
  intros Hb Hn [Hl Hnum (blk & Hblk) Hh] Hdw Eb Es Hmax Hroom Hfit. pose proof (built_used _ _ _ Hb) as Hpos.
  assert (same_bufs m (<[bp := b']> m) (th_info hd)) as Hsame by (intros p Hp; apply lookup_insert_ne; by intros ->).
  apply (built_infos_other h _ _ _ _ Hsame) in Hb. destruct Hb as [Hi Hu Hr Hf Hbuf Hnb Hm Hfl].
  destruct (Hblk bp) as [Hp Hbk]. pose proof Hbk as [_ [Hs1 Hs2] _ _]. rewrite Es in Hs1, Hs2. destruct Hg as [? ? ?].
  split; cbn [add_info th_info th_bytes_used th_buffers th_max_blocks th_flags]; rewrite ?s32_id by lia; try done.
  - apply Forall_app. split; [done|]. apply Forall_cons. split; [|by apply Forall_nil]. rewrite <- Eb. apply (ReadyBuf h _ _ bp b' blk); try done. by rewrite lookup_insert_eq.
  - rewrite infos_size_app, infos_size_cons. unfold info_size at 1. cbn [ti_u]. rewrite lookup_insert_eq. change (infos_size (<[bp:=b']> m) []) with 0. lia.
  - unfold th_num_blocks in *. cbn [add_info th_info]. rewrite length_app. cbn [length]. lia.
Qed.

(** ** The header for a buffer *)

(** What a buffer needs: room in a new header, and in the journal with one. *)
Record fits (b : buf) (tr : transaction) : Prop := {
  ft_header : blhdr_size h + buf_size b <= tr_tbuffer_size tr;
  ft_entries : 2 <= journal_max_blocks h;
  ft_journal : tr_total_bytes tr + blhdr_size h + buf_size b < jh_size h - jhdr_size h;
  ft_size : 0 < buf_size b;
}.

Lemma max_blocks_u16 : u16 (journal_max_blocks h) = journal_max_blocks h.
Proof using Hlog. destruct Hlog as [? ? ? ? Hw ?]. apply u16_id. unfold UINT16_MAX. unfold journal_max_blocks in *. pose proof (Z.div_le_lower_bound (blhdr_size h) 16 1). lia. Qed.

Lemma new_blhdr_ok m T s flags : js_jhdr s = h -> blhdr_size h <= T -> 0 <= flags < 2 ^ 16 -> Z.land flags BLHDR_CHECK_CHECKSUMS <> 0 ->
  let '(nb, s') := new_blhdr T flags s in
  built_blhdr h m T nb /\ th_info nb = [] /\ th_num_blocks nb = 1 /\ th_bytes_used nb = blhdr_size h /\ s' = with_memory (js_memory s + blhdr_size h) s.
Proof using Hg Hlog.
  intros Es HT Hfl1 Hfl2. unfold new_blhdr. rewrite Es, max_blocks_u16. split; [|done]. pose proof Hlog as [? ? ? ? ? ?].
  split; cbn [th_info th_bytes_used th_buffers th_max_blocks th_flags]; try done; [unfold infos_size; cbn; lia|lia|rewrite length_replicate; lia|].
  unfold th_num_blocks, journal_max_blocks. cbn [th_info th_max_blocks length]. pose proof (Z.div_le_lower_bound (blhdr_size h) 16 2). lia.
Qed.

(** A header has room for one more buffer: for its entry and for its data. *)
Definition has_room (T : Z) (b : buf) (hd : tr_blhdr) : Prop :=
  th_num_blocks hd + 1 <= th_max_blocks hd /\ th_bytes_used hd + buf_size b <= T.

(** The header [hd] of [tr'] for a buffer: the last one of [tr] if it has room, or an
    empty one behind all of them. *)
Definition header_for (b : buf) (tr : transaction) (pre : list tr_blhdr) (hd : tr_blhdr) : Prop :=
  tr_blhdrs tr = pre ++ [hd] /\ has_room (tr_tbuffer_size tr) b hd \/
  tr_blhdrs tr = pre /\ (forall prev, last pre = Some prev -> ~ has_room (tr_tbuffer_size tr) b prev) /\ th_info hd = [] /\ th_bytes_used hd = blhdr_size h.

Lemma blhdr_with_room_ok bp b tr s m : js_jhdr s = h -> tr_open h m tr -> fits b tr ->
  exists tr' s' pre hd, blhdr_with_room bp b tr s = Some (tr', s') /\ tr_blhdrs tr' = pre ++ [hd] /\ tr_open h m tr' /\ tr_bps tr' = tr_bps tr /\
    th_num_blocks hd + 1 <= th_max_blocks hd /\ th_bytes_used hd + buf_size b <= tr_tbuffer_size tr' /\
    tr_total_bytes tr' + buf_size b < jh_size h - jhdr_size h /\ (exists n, s' = with_memory n s) /\
    tr_tbuffer_size tr' = tr_tbuffer_size tr /\ tr_sequence_num tr' = tr_sequence_num tr /\ header_for b tr pre hd.
Proof using Hg Hlog.
  intros Es Ho [Hf1 Hf2 Hf3 Hf4]. pose proof Ho as [Hbl Hsome Hbps Htot Hfit Hkill [Hb HT]]. destruct (last_split _ Hsome) as (pre & hd & Epre & Elast & _).
  pose proof Hg as [? ? ?]. unfold blhdr_with_room. rewrite Elast. cbn [mbind option_bind].
  assert (built_blhdr h m (tr_tbuffer_size tr) hd) as Hhd by (rewrite Epre in Hbl; apply Forall_app in Hbl as [_ Hbl]; by apply Forall_cons in Hbl as [? _]).
  pose proof (built_used _ _ _ Hhd) as Hu. destruct Hhd as [_ _ Hr Hft _ _ _ _].
  rewrite (u32_id (_ + _)), (u32_id (tr_tbuffer_size tr)) by (unfold UINT32_MAX; lia).
  destruct (_ && _) eqn:E.
  { apply andb_true_iff in E as [E1 E2]. exists tr, s, pre, hd. split; [done|]. repeat (split; [done || lia|]). split; [exists (js_memory s); by destruct s|].
    split; [done|]. split; [done|]. left. split; [done|]. split; lia. }
  pose proof (total_used_pos _ _ _ Hbl) as Htp.
  pose proof (new_blhdr_ok m (tr_tbuffer_size tr) s BLHDR_CHECK_CHECKSUMS Es ltac:(lia) ltac:(by vm_compute) ltac:(by vm_compute)) as Hnew.
  destruct (new_blhdr (tr_tbuffer_size tr) BLHDR_CHECK_CHECKSUMS s) as [nb s'] eqn:En. destruct Hnew as (Hnb & Hinf & Hn & Hused & ->).
  change (js_jhdr (with_memory _ s)) with (js_jhdr s). rewrite Es. rewrite (s32_id (_ + _)) by lia.
  eexists _, _, (tr_blhdrs tr), nb. split; [reflexivity|]. split; [done|]. split; [|split; [|split; [|split; [|split; [|split; [by eexists|split; [done|split; [done|]]]]]]]].
  6:{ right. split; [done|]. split; [|done]. intros prev. rewrite Elast. intros [= <-] [R1 R2]. lia. }
  - split; cbn [set_blhdrs tr_blhdrs tr_tbuffer_size tr_total_bytes tr_num_killed]; try done.
    + apply Forall_app. split; [done|]. apply Forall_cons. split; [done|by apply Forall_nil].
    + by destruct (tr_blhdrs tr).
    + unfold tr_bps in *. cbn [set_blhdrs tr_blhdrs]. by rewrite fmap_app, concat_app, fmap_cons, Hinf, app_nil_r.
    + rewrite total_used_app. cbn [total_used foldr]. lia.
    + lia.
    + unfold tr_infos in *. cbn [set_blhdrs tr_blhdrs]. by rewrite fmap_app, concat_app, fmap_cons, Hinf, app_nil_r.
  - unfold tr_bps. cbn [set_blhdrs tr_blhdrs]. by rewrite fmap_app, concat_app, fmap_cons, Hinf, app_nil_r.
  - destruct Hnb as [_ _ _ _ _ _ -> _]. lia.
  - cbn. lia.
  - cbn. lia.
Qed.
(** One more buffer in the last header. *)
Lemma open_add m tr pre hd bp b b' : tr_open h m tr -> tr_blhdrs tr = pre ++ [hd] -> bp ∉ tr_bps tr -> bufferable h b' -> bf_delwri b' = true ->
  bf_blkno b' = bf_blkno b -> buf_size b' = buf_size b -> th_num_blocks hd + 1 <= th_max_blocks hd -> th_bytes_used hd + buf_size b <= tr_tbuffer_size tr ->
  tr_total_bytes tr + buf_size b < jh_size h - jhdr_size h -> 0 < buf_size b ->
  let tr' := set_blhdrs (pre ++ [add_info bp b hd]) (s32 (tr_total_bytes tr + buf_size b)) (tr_num_killed tr) tr in
  tr_open h (<[bp := b']> m) tr' /\ tr_bps tr' = tr_bps tr ++ [bp].
Proof using Hg Hlog.
  intros [Hbl Hsome Hbps Htot Hfit Hkill HT] Epre Hn Hbu Hdw Eb Es Hmax Hroom Hj Hsz tr'. rewrite Epre in Hbl. apply Forall_app in Hbl as [Hbl Hhd]. apply Forall_cons in Hhd as [Hhd _].
  unfold tr_bps in *. rewrite Epre in *. apply elem_of_bps_app in Hn as Hn2. destruct Hn2 as [Hn1 Hn2]. cbn in Hn2. rewrite app_nil_r in Hn2.
  pose proof (total_used_pos _ _ _ Hbl) as Hp. rewrite total_used_app in Htot. change (total_used [hd]) with (th_bytes_used hd + 0) in Htot. pose proof Hg as [? ? ?].
  pose proof (built_used _ _ _ Hhd) as Hu.
  assert (omap info_bp (concat (th_info <$> tr_blhdrs tr')) = omap info_bp (concat (th_info <$> (pre ++ [hd]))) ++ [bp]) as Ebps.
  { cbn [tr' set_blhdrs tr_blhdrs]. rewrite !fmap_app, !concat_app, !omap_app_list. cbn. rewrite !app_nil_r, omap_app_list, app_assoc. done. }
  split; [|exact Ebps]. split; unfold tr_bps; rewrite ?Ebps; cbn [tr' set_blhdrs tr_blhdrs tr_tbuffer_size tr_total_bytes tr_num_killed]; try done; rewrite ?s32_id by lia; try done.
  - apply Forall_app. split.
    + apply Forall_forall. intros b1 Hb1. rewrite Forall_forall in Hbl. apply (built_infos_other h m); [|by apply Hbl].
      intros p Hp1. apply lookup_insert_ne. intros ->. apply Hn1, elem_of_bps. by exists b1.
    + apply Forall_cons. split; [|by apply Forall_nil]. apply built_add; try done. lia.
  - by destruct pre.
  - apply NoDup_app. split; [done|]. split; [|apply NoDup_singleton]. intros p Hp1 Hp2%list_elem_of_singleton. by subst p.
  - rewrite total_used_app. change (total_used [add_info bp b hd]) with (s32 (th_bytes_used hd + buf_size b) + 0). rewrite s32_id by lia. lia.
  - rewrite Hkill. unfold tr_infos. cbn [tr_blhdrs tr' set_blhdrs]. rewrite Epre, !fmap_app, !concat_app. cbn. rewrite !killed_size_app. change (killed_size [mkTinfo (bf_blkno b) (UBuf bp)]) with 0. lia.
Qed.

End Build.

Lemma find_info bp (l : list tr_info) : bp ∈ omap info_bp l -> exists i x, list_find (fun i => is_buf bp i = true) l = Some (i, x) /\ (i < length l)%nat /\ x ∈ l /\ is_buf bp x = true.
Proof.
  intros Hin. apply existsb_buf in Hin. destruct (list_find _ l) as [[i x]|] eqn:E.
  - exists i, x. apply list_find_Some in E as (Hi & Hx & _). split; [done|]. split; [by eapply lookup_lt_Some|]. split; [by eapply list_elem_of_lookup_2|done].
  - apply list_find_None in E. apply existsb_exists in Hin as (x & Hx%list_elem_of_In & Hb). rewrite Forall_forall in E. by destruct (E x Hx).
Qed.

(** The buffers of the transaction are marked to be written. *)
Lemma open_buf h m tr bp : tr_open h m tr -> bp ∈ tr_bps tr -> exists b, m !! bp = Some b /\ bf_locked b = true /\ bf_delwri b = true.
Proof.
  intros [Hbl _ _ _ _ _ _] (b & Hb & Hbp)%elem_of_bps. rewrite Forall_forall in Hbl. destruct (Hbl b Hb) as [Hi _ _ _ _ _ _ _].
  destruct (find_info _ _ Hbp) as (i & x & _ & _ & Hx & Hbuf). rewrite Forall_forall in Hi. apply is_buf_bp in Hbuf. destruct (Hi x Hx) as [num p b' blk E1 E2 E3 _ _ _ _|]; [|done].
  injection Hbuf as ->. by exists b'.
Qed.

Lemma bdwrite_same b : bf_delwri b = true -> buf_bdwrite b = b.
Proof. destruct b. cbn. by intros ->. Qed.

Lemma set_buf_same bp b s : js_bufs s !! bp = Some b -> set_buf bp b s = s.
Proof. intros Hb. unfold set_buf. rewrite insert_id by done. by destruct s. Qed.

(** A journal in which a transaction is being built. *)
Record building (s : jstate) (tr : transaction) : Prop := {
  bd_geometry : geometry_ok (js_jhdr s);
  bd_shape : log_shape (js_jhdr s);
  bd_valid : js_isset s JOURNAL_INVALID = false;
  bd_active : js_active_tr s = Some tr;
  bd_owner : js_owner s = true /\ 0 < js_nested_count s;
  bd_open : tr_open (js_jhdr s) (js_bufs s) tr;
}.

Definition with_hook (func : option fs_hook) (b : buf) : buf := if is_some func then buf_setfilter func b else b.

(** A header with one more entry, for the buffer, at its end, and the bytes of the buffer. *)
Record one_more (bp : Z) (b : buf) (hd hd' : tr_blhdr) : Prop := {
  om_info : th_info hd' = th_info hd ++ [mkTinfo (bf_blkno b) (UBuf bp)];
  om_used : th_bytes_used hd' = th_bytes_used hd + buf_size b;
  om_max : th_max_blocks hd' = th_max_blocks hd;
}.

(** C16: journal_modify_block_end, for a buffer that is locked and not referenced and a
    transaction, when the memory of an empty header has room for the buffer and the
    journal for the buffer and one more header: a buffer that is in the transaction
    stays where it is, and the headers are as they were; another one is put behind the
    others, as the last entry of the last header if that has room for an entry and the
    data, and otherwise as the only entry of a new header behind it; no other header
    changes. The transaction is well formed again. *)
Theorem journal_modify_block_end_correct bp func s tr b : building s tr -> js_bufs s !! bp = Some b -> bf_ref b = 0 ->
  bufferable (js_jhdr s) (with_hook func b) -> fits (js_jnl s) b tr ->
  exists s' tr', journal_modify_block_end bp func s = Some (0, s') /\ building s' tr' /\
    tr_blocks (js_bufs s') tr' = tr_blocks (js_bufs s) tr ++ (if decide (bp ∈ tr_bps tr) then [] else default [] ((fun x => [x]) <$> buf_block bp (with_hook func b))) /\
    tr_bps tr' = (if decide (bp ∈ tr_bps tr) then tr_bps tr else tr_bps tr ++ [bp]) /\
    (if decide (bp ∈ tr_bps tr) then tr_blhdrs tr' = tr_blhdrs tr
     else exists pre hd hd', header_for (js_jnl s) b tr pre hd /\ one_more bp b hd hd' /\ tr_blhdrs tr' = pre ++ [hd']).
Proof.
  intros [Hg Hlog Hv Ha [Ho Hnest] Hopen] Hb Href Hbu Hfit. unfold journal_modify_block_end. rewrite Hv, Ha. cbn [mbind option_bind]. rewrite Ho. cbn [negb]. rewrite Hb. cbn [mbind option_bind].
  assert (bf_locked b = true) as Hlock by (pose proof (bu_locked _ _ Hbu) as Hl; unfold with_hook in Hl; by destruct (is_some func)). rewrite Hlock. cbn [negb].
  case_decide as Hin.
  - destruct (find_blhdr_some _ _ Hin) as (k & hd & -> & Hk & Hhd).
    destruct (find_info _ _ Hhd) as (i & x & -> & Hi & _). cbn [mbind option_bind].
    pose proof (Forall_lookup_1 _ _ _ _ (ro_blhdrs _ _ _ Hopen) Hk) as [_ _ _ _ _ Hnum _ _]. unfold th_num_blocks in Hnum. rewrite (proj2 (Z.ltb_ge _ _)) by lia.
    destruct (open_buf _ _ _ _ Hopen Hin) as (b2 & Hb2 & _ & Hdw). rewrite Hb in Hb2. injection Hb2 as <-.
    rewrite (bdwrite_same b Hdw), (set_buf_same bp b s Hb). exists s, tr. rewrite app_nil_r. split; [done|]. split; [by split|done].
  - rewrite (find_blhdr_none _ _ Hin). change (js_jhdr s) with (jhdr (js_jnl s)) in *.
    destruct (blhdr_with_room_ok (js_jnl s) Hg Hlog bp b tr s (js_bufs s) eq_refl Hopen Hfit) as (tr1 & s1 & pre & hd & E1 & Epre & Hopen1 & Ebps1 & Hmax & Hroom & Hj & (n & ->) & _ & _ & Hfor).
    rewrite E1. cbn [mbind option_bind]. rewrite Epre, last_snoc. cbn [mbind option_bind]. rewrite (proj2 (Z.ltb_ge _ _)) by lia. rewrite Href. cbn [negb Z.eqb].
    rewrite removelast_last.
    destruct (open_add (js_jnl s) Hg Hlog (js_bufs s) tr1 pre hd bp b (buf_bdwrite (with_hook func b)) Hopen1 Epre) as [Hopen2 Ebps2]; try done.
    { by rewrite Ebps1. } { by destruct Hbu. } { unfold with_hook. by destruct (is_some func). } { unfold with_hook. by destruct (is_some func). } { apply Hfit. }
    eexists _, _. split; [reflexivity|]. split; [by split|]. split; [|split; [by rewrite Ebps2, Ebps1|]].
    2:{ exists pre, hd, (add_info bp b hd). split; [done|]. split; [|done]. split; try done. cbn. apply s32_id.
      destruct Hopen1 as [Hbl1 _ _ _ _ _ [HT1 HT2]]. rewrite Epre in Hbl1. apply Forall_app in Hbl1 as [_ Hbl1]. apply Forall_cons in Hbl1 as [Hhd1 _].
      pose proof (built_used (js_jnl s) Hg Hlog _ _ _ Hhd1). destruct Hfit as [_ _ _ Hpos]. destruct Hg. lia. }
    rewrite !tr_blocks_bps, Ebps2, Ebps1, omap_app_list. f_equal.
    + apply block_of_other. intros p Hp. apply lookup_insert_ne. by intros ->.
    + rewrite omap_cons. assert (block_of (<[bp := buf_bdwrite (with_hook func b)]> (js_bufs s)) bp = buf_block bp (with_hook func b)) as E.
      { unfold block_of. by rewrite lookup_insert_eq. }
      match goal with |- context [js_bufs ?t] => change (js_bufs t) with (<[bp := buf_bdwrite (with_hook func b)]> (js_bufs s)) end.
      rewrite E. by destruct (buf_block bp (with_hook func b)).
Qed.

(** ** journal_kill_block *)

Lemma kill_info_split bp size (l : list tr_info) : bp ∈ omap info_bp l -> exists l1 x l2, l = l1 ++ x :: l2 /\ info_bp x = Some bp /\ kill_info bp size l = l1 ++ mkTinfo (-1) (UInfo (s32 size)) :: l2.
Proof.
  induction l as [|i l IH]; [by intros ?%not_elem_of_nil|]. rewrite omap_cons. cbn [kill_info]. destruct (is_buf bp i) eqn:E.
  - intros _. exists [], i, l. split; [done|]. split; [by apply is_buf_bp|done].
  - intros Hin. assert (info_bp i <> Some bp) as Hne by (intros Hi%is_buf_bp; congruence).
    destruct IH as (l1 & x & l2 & -> & Hx & ->); [destruct (info_bp i); [|done]; apply elem_of_cons in Hin as [->|]; done|].
    by exists (i :: l1), x, l2.
Qed.

(** An entry is replaced by its size. *)
Lemma killed_infos h m m' (l1 : list tr_info) x l2 bp b n : Forall (info_ready h m) (l1 ++ x :: l2) -> info_bp x = Some bp -> m !! bp = Some b -> n = buf_size b ->
  bp ∉ omap info_bp (l1 ++ l2) -> (forall p, p <> bp -> m' !! p = m !! p) ->
  Forall (info_ready h m') (l1 ++ mkTinfo (-1) (UInfo n) :: l2) /\ infos_size m' (l1 ++ mkTinfo (-1) (UInfo n) :: l2) = infos_size m (l1 ++ x :: l2).
Proof.
  intros Hl Hx Hb -> Hn Hm. apply Forall_app in Hl as [Hl1 Hl]. apply Forall_cons in Hl as [Hix Hl2]. rewrite omap_app_list, not_elem_of_app in Hn. destruct Hn as [Hn1 Hn2].
  assert (forall l : list tr_info, bp ∉ omap info_bp l -> same_bufs m m' l) as Hsame by (intros l Hn p Hp; apply Hm; by intros ->).
  destruct (same_bufs_all h _ _ _ (Hsame _ Hn1)) as (G1 & E1 & _). destruct (same_bufs_all h _ _ _ (Hsame _ Hn2)) as (G2 & E2 & _).
  destruct Hix as [num bp' b' blk Hb' _ _ _ _ [_ Hs Hw _] _|]; [|done]. injection Hx as ->. rewrite Hb in Hb'. injection Hb' as <-. split.
  - apply Forall_app. split; [by apply G1|]. apply Forall_cons. split; [by constructor|by apply G2].
  - rewrite !infos_size_app, !infos_size_cons, E1, E2. unfold info_size at 1 2. cbn [ti_u]. by rewrite Hb.
Qed.

Lemma filter_out bp (l1 l2 : list Z) : NoDup (l1 ++ bp :: l2) -> filter (fun p => p <> bp) (l1 ++ bp :: l2) = l1 ++ l2 /\ bp ∉ l1 ++ l2 /\ NoDup (l1 ++ l2).
Proof.
  intros Hnd. assert (bp ∉ l1 /\ bp ∉ l2) as [H1 H2].
  { apply NoDup_app in Hnd as (_ & H1 & H2). apply NoDup_cons in H2 as [H2 _]. split; [|done]. intros Hin. apply (H1 bp Hin), elem_of_cons. by left. }
  assert (forall l : list Z, bp ∉ l -> filter (fun p => p <> bp) l = l) as Hf.
  { induction l as [|p l IH]; [done|]. rewrite not_elem_of_cons. intros [Hp Hl]. rewrite filter_cons, decide_True by congruence. by rewrite IH. }
  rewrite filter_app, filter_cons, decide_False by tauto. rewrite !Hf by done. split; [done|]. split; [by rewrite not_elem_of_app|].
  rewrite <- Permutation_middle in Hnd. by apply NoDup_cons in Hnd as [_ Hnd].
Qed.

(** The sizes that are counted are small. *)
Lemma open_sizes h m tr bp b : geometry_ok h -> log_shape h -> tr_open h m tr -> bp ∈ tr_bps tr -> m !! bp = Some b ->
  0 < buf_size b < 2 ^ 30 /\ 0 <= tr_num_killed tr < 2 ^ 30.
Proof.
  intros Hg Hlog Ho Hin Hb. destruct Ho as [Hbl _ _ Htot Hfit Hk [HT _]]. pose proof (total_bytes _ _ _ _ Hbl) as E. pose proof Hg as [? ? ?]. split.
  - apply elem_of_bps in Hin as (hd & Hhd & Hbp). rewrite Forall_forall in Hbl. destruct (Hbl hd Hhd) as [Hi _ _ _ _ _ _ _].
    destruct (find_info _ _ Hbp) as (i & x & _ & _ & Hx & Hbuf). rewrite Forall_forall in Hi. apply is_buf_bp in Hbuf.
    destruct (Hi x Hx) as [num p b' blk E1 _ _ _ _ [_ Hs _ _] _|]; [|done]. injection Hbuf as ->. rewrite Hb in E1. injection E1 as <-. lia.
  - pose proof (built_infos _ _ _ _ Hbl) as Hi. pose proof (killed_nonneg _ _ _ Hi). destruct (blocks_bytes_pos _ _ _ Hi) as [Hp _]. unfold tr_infos in *. nia.
Qed.

Lemma open_kill h m m' tr k hd l1 x l2 bp b : geometry_ok h -> tr_open h m tr -> tr_blhdrs tr !! k = Some hd -> th_info hd = l1 ++ x :: l2 -> info_bp x = Some bp -> m !! bp = Some b ->
  (forall p, p <> bp -> m' !! p = m !! p) ->
  let hd' := mkTblhdr (th_addr hd) (th_max_blocks hd) (th_bytes_used hd) (th_flags hd) (l1 ++ mkTinfo (-1) (UInfo (buf_size b)) :: l2) (th_buffers hd) in
  let tr' := set_blhdrs (<[k := hd']> (tr_blhdrs tr)) (tr_total_bytes tr) (tr_num_killed tr + buf_size b) tr in
  tr_open h m' tr' /\ tr_bps tr' = filter (fun p => p <> bp) (tr_bps tr).
Proof.
  intros Hg [Hbl Hsome Hbps Htot Hfit Hkill HT] Hk Ehd Hx Hb Hm hd' tr'. pose proof (take_drop_middle _ _ _ Hk) as Esplit.
  assert (<[k := hd']> (tr_blhdrs tr) = take k (tr_blhdrs tr) ++ hd' :: drop (S k) (tr_blhdrs tr)) as Eins by (by apply insert_take_drop, (lookup_lt_Some _ _ _ Hk)).
  remember (take k (tr_blhdrs tr)) as pre. remember (drop (S k) (tr_blhdrs tr)) as post. clear Heqpre Heqpost.
  unfold tr_bps, tr_infos in *. cbn [tr' set_blhdrs tr_blhdrs]. rewrite <- Esplit in *. rewrite Eins in *.
  rewrite !fmap_app, !fmap_cons, !concat_app in *. cbn [concat] in *. rewrite Ehd in *. cbn [hd' th_info] in *.
  apply Forall_app in Hbl as [Hpre Hbl]. apply Forall_cons in Hbl as [Hhd Hpost].
  rewrite !omap_app_list, !omap_cons, Hx in *. cbn [info_bp ti_u] in *.
  set (P := omap info_bp (concat (th_info <$> pre))) in *. set (Q := omap info_bp (concat (th_info <$> post))) in *.
  rewrite <- !app_assoc in *. cbn [app] in *. assert (P ++ omap info_bp l1 ++ bp :: omap info_bp l2 ++ Q = (P ++ omap info_bp l1) ++ bp :: omap info_bp l2 ++ Q) as Ea by by rewrite <- app_assoc.
  rewrite Ea in *. destruct (filter_out bp _ _ Hbps) as (Hfil & Hnin & Hnd). rewrite Hfil.
  rewrite !not_elem_of_app in Hnin. destruct Hnin as [[Hn1 Hn2] [Hn3 Hn4]].
  split; [|by rewrite <- !app_assoc].
  assert (forall l : list tr_blhdr, bp ∉ omap info_bp (concat (th_info <$> l)) -> Forall (built_blhdr h m (tr_tbuffer_size tr)) l -> Forall (built_blhdr h m' (tr_tbuffer_size tr)) l) as Hother.
  { intros l Hn Hl. apply Forall_forall. intros b1 Hb1. rewrite Forall_forall in Hl. apply (built_infos_other h m); [|by apply Hl].
    intros p Hp. apply Hm. intros ->. apply Hn, elem_of_bps. by exists b1. }
  split; cbn [tr' set_blhdrs tr_blhdrs tr_tbuffer_size tr_total_bytes tr_num_killed]; unfold tr_bps, tr_infos; cbn [tr' set_blhdrs tr_blhdrs]; try done; rewrite <- Esplit, ?Eins, ?fmap_app, ?fmap_cons, ?concat_app; cbn [concat hd' th_info].
  - apply Forall_app. split; [by apply Hother|]. apply Forall_cons. split; [|by apply Hother].
    destruct Hhd as [Hi Hu Hr Hf Hbuf Hnum Hmax Hfl]. rewrite Ehd in Hi, Hu. unfold th_num_blocks in Hnum. rewrite Ehd in Hnum.
    destruct (killed_infos h m m' l1 x l2 bp b (buf_size b) Hi Hx Hb eq_refl) as [Gi Gs]; [by rewrite omap_app_list, not_elem_of_app|done|].
    split; unfold th_num_blocks; cbn [hd' th_info th_bytes_used th_buffers th_max_blocks th_flags]; try done; [by rewrite Gs|].
    rewrite !length_app in *. cbn [length] in *. lia.
  - by destruct pre.
  - rewrite !omap_app_list, omap_cons. cbn [info_bp ti_u]. rewrite <- !app_assoc in *. exact Hnd.
  - rewrite Htot, !total_used_app. done.
  - rewrite Hkill. rewrite !app_comm_cons, !killed_size_app. destruct x as [num [p| |]]; try done.
    change (killed_size (mkTinfo (-1) (UInfo (buf_size b)) :: l2)) with (buf_size b + killed_size l2). change (killed_size (mkTinfo num (UBuf p) :: l2)) with (killed_size l2). lia.
Qed.

(** C17: journal_kill_block takes a buffer out of the transaction: the others stay, in their
    order, and the size of its data, which is not written, is counted.  The buffer is not
    locked then and its data are not valid. *)
Theorem journal_kill_block_correct bp s tr b : building s tr -> js_bufs s !! bp = Some b -> bp ∈ tr_bps tr ->
  exists s' tr', journal_kill_block bp s = Some (0, s') /\ building s' tr' /\ tr_bps tr' = filter (fun p => p <> bp) (tr_bps tr) /\
    tr_blocks (js_bufs s') tr' = omap (block_of (js_bufs s)) (tr_bps tr') /\ tr_num_killed tr' = tr_num_killed tr + buf_size b /\
    tr_total_bytes tr' = tr_total_bytes tr /\ js_bufs s' = <[bp := buf_markinvalid (buf_setlocked false b)]> (js_bufs s).
Proof.
  intros [Hg Hlog Hv Ha [Ho Hnest] Hopen] Hb Hin. unfold journal_kill_block. rewrite Hv, Ha. cbn [mbind option_bind]. rewrite Ho. cbn [negb]. rewrite Hb. cbn [mbind option_bind].
  destruct (open_buf _ _ _ _ Hopen Hin) as (b2 & Hb2 & Hlock & _). rewrite Hb in Hb2. injection Hb2 as <-. rewrite Hlock. cbn [negb].
  destruct (find_blhdr_some _ _ Hin) as (k & hd & -> & Hk & Hhd). destruct (kill_info_split bp (buf_size b) _ Hhd) as (l1 & x & l2 & Ehd & Hx & Ekill).
  pose proof (open_sizes _ _ _ _ _ Hg Hlog Hopen Hin Hb) as [Hs1 Hs2]. rewrite (s32_id (buf_size b)) in Ekill by lia. unfold kill_blhdr. rewrite Ekill, s32_id by lia.
  set (m' := <[bp := buf_markinvalid (buf_setlocked false b)]> (js_bufs s)).
  assert (forall p, p <> bp -> m' !! p = js_bufs s !! p) as Hm by (intros p Hp; by apply lookup_insert_ne).
  destruct (open_kill (js_jhdr s) (js_bufs s) m' tr k hd l1 x l2 bp b Hg Hopen Hk Ehd Hx Hb Hm) as [Hopen' Ebps].
  eexists _, _. split; [reflexivity|]. split; [by split|]. split; [exact Ebps|]. split; [|done].
  rewrite tr_blocks_bps. apply block_of_other. intros p Hp. rewrite Ebps in Hp. apply list_elem_of_filter in Hp as [Hp _]. by apply Hm.
Qed.

