(* ===== verification/EndCallProps.v ===== *)
(** * Starting and ending a change (core/hfs_journal.c)

    The outermost journal_start_transaction gives a transaction that is built further, the
    one that was kept or a new one; the outermost journal_end_transaction keeps it for the
    next change or commits it. *)

From S2P Require Import Prelude HfsFormat Bytes JournalTrim JournalIO JournalCoalesce CoalesceProps JournalReplay JournalIOProps JournalWriteProps ReplayProps ReplayLoop ReplayCorrect BlhdrOrder JournalTransaction JournalCommit LogProps CommitProps CopyProps SpaceProps FreeSpaceProps CommitLog CommitIssue EndTransactionProps RecoveryProps TransactionProps.

(** A journal in which no transaction is being built; the last one may have been kept. *)
Record resting (s : jstate) : Prop := {
  rs_geometry : geometry_ok (js_jhdr s);
  rs_shape : log_shape (js_jhdr s);
  rs_valid : js_isset s JOURNAL_INVALID = false;
  rs_active : js_active_tr s = None;
  rs_owner : js_owner s = false /\ js_nested_count s = 0;
  rs_cur : match js_cur_tr s with Some tr => tr_open (js_jhdr s) (js_bufs s) tr | None => blhdr_size (js_jhdr s) <= js_tbuffer_size s < 2 ^ 31 end;
}.

Lemma allocate_ok s : geometry_ok (js_jhdr s) -> log_shape (js_jhdr s) -> blhdr_size (js_jhdr s) <= js_tbuffer_size s < 2 ^ 31 ->
  exists tr, js_active_tr (journal_allocate_transaction s) = Some tr /\ tr_open (js_jhdr s) (js_bufs s) tr /\ tr_bps tr = [] /\
    tr_sequence_num tr = u32 (js_sequence_num s + 1) /\ tr_flush_on_completion tr = false /\
    exists n, journal_allocate_transaction s = with_trs (js_cur_tr s) (Some tr) (with_sequence (js_saved_sequence_num s) (u32 (js_sequence_num s + 1)) (with_memory n s)).
Proof.
  intros Hg Hlog [HT1 HT2]. unfold journal_allocate_transaction.
  pose proof (new_blhdr_ok (js_jnl s) Hg Hlog (js_bufs s) (js_tbuffer_size s) s (Z.lor BLHDR_CHECK_CHECKSUMS BLHDR_FIRST_HEADER) eq_refl HT1 ltac:(by vm_compute) ltac:(by vm_compute)) as Hnew.
  destruct (new_blhdr _ _ s) as [nb s'] eqn:En. destruct Hnew as (Hnb & Hinf & Hn & Hused & ->). change (jhdr (js_jnl s)) with (js_jhdr s) in *. eexists. split; [reflexivity|].
  pose proof Hlog as [? ? ? ? ? ?]. split; [|split; [|split; [done|split; [done|by eexists]]]].
  - split; cbn [tr_blhdrs tr_tbuffer_size tr_total_bytes tr_num_killed]; unfold tr_bps, tr_infos; cbn [tr_blhdrs fmap list_fmap concat]; rewrite ?Hinf; try done.
    + apply Forall_cons. split; [done|by apply Forall_nil].
    + apply NoDup_nil_2.
    + cbn [total_used foldr]. rewrite Hused. change (js_jhdr (with_sequence _ _ (with_memory _ s))) with (js_jhdr s). lia.
    + change (js_jhdr (with_sequence _ _ (with_memory _ s))) with (js_jhdr s). lia.
    + change (js_tbuffer_size (with_sequence _ _ (with_memory _ s))) with (js_tbuffer_size s). lia.
  - unfold tr_bps. cbn. by rewrite Hinf.
Qed.

(** C18: The outermost journal_start_transaction makes the caller the owner, and goes on
    with the transaction that was kept, with its buffers, or makes an empty one with the
    next sequence number; inner calls only count. *)
Theorem journal_start_transaction_correct s : resting s ->
  exists s' tr, journal_start_transaction s = Some (0, s') /\ building s' tr /\ js_nested_count s' = 1 /\ js_cur_tr s' = None /\
    (js_cur_tr s = Some tr \/ js_cur_tr s = None /\ tr_bps tr = [] /\ tr_sequence_num tr = u32 (js_sequence_num s + 1)) /\
    journal_start_transaction s' = Some (0, with_owner 2 true s').
Proof.
  intros [Hg Hlog Hv Ha [Ho Hn] Hcur]. unfold journal_start_transaction. rewrite Hv, Ho, Hn, Ha. cbn [negb orb is_some Z.eqb].
  change (js_cur_tr (with_owner 1 true s)) with (js_cur_tr s). destruct (js_cur_tr s) as [tr|] eqn:Ec.
  - eexists _, tr. split; [reflexivity|]. split; [by split|]. split; [done|]. split; [done|]. split; [by left|].
    match goal with |- context [js_isset ?t JOURNAL_INVALID] => change (js_isset t JOURNAL_INVALID) with (js_isset s JOURNAL_INVALID) end. by rewrite Hv.
  - destruct (allocate_ok (with_owner 1 true s) Hg Hlog Hcur) as (tr & Etr & Hopen & Hbps & Hseq & _ & (n & E)). eexists _, tr. split; [reflexivity|].
    rewrite E. split; [by split|]. split; [done|]. split; [exact Ec|]. split; [by right|].
    match goal with |- context [js_isset ?t JOURNAL_INVALID] => change (js_isset t JOURNAL_INVALID) with (js_isset s JOURNAL_INVALID) end. by rewrite Hv.
Qed.

(** ** journal_end_transaction *)

(** A buffer that is the cache's again: clean, not locked, and without a function. *)
Definition given_back (b : buf) : buf :=
  mkBuf (bf_vp b) (bf_ref b) (bf_blkno b) (bf_lblkno b) (bf_data b) None (bf_meta b) false false (bf_invalid b).

Lemma lookup_released bps : forall m bp, released m bps !! bp = if decide (bp ∈ bps) then given_back <$> m !! bp else m !! bp.
Proof.
  induction bps as [|p bps IH]; intros m bp; [by case_decide; [set_solver|]|]. rewrite released_cons, IH.
  assert ((match m !! p with Some b => <[p := release_buf b]> m | None => m end) !! bp = if decide (bp = p) then given_back <$> m !! bp else m !! bp) as ->.
  { case_decide as Hp; [subst p|]; (destruct (m !! _) as [b|] eqn:Eb; [|by rewrite ?Eb]); [by rewrite lookup_insert_eq|by rewrite lookup_insert_ne]. }
  repeat case_decide; subst; try set_solver; try done. by destruct (m !! p).
Qed.

Section End.
Variable limit : Z.

(** The transaction is kept for the next change. *)
Definition kept (tr : transaction) (s : jstate) : bool :=
  (tr_total_bytes tr =? blhdr_size (js_jhdr s)) || negb (tr_flush_on_completion tr) && group_commit limit tr s.

(** What a transaction needs to be committed. *)
Record endable (s : jstate) (tr : transaction) (last : Z) : Prop := {
  en_header : header_buffer_ok (js_jnl s);
  en_trims : js_async_trim s = None;
  en_aborted : js_flush_aborted s = false;
  en_cur : js_cur_tr s = None;
  en_sequence : 0 < tr_sequence_num tr < 2 ^ 32;
  en_order : out_of_sequence last (tr_sequence_num tr) = false;
  en_blocks : kept tr s = false -> tr_blocks (js_bufs s) tr <> [] /\ blocks_apart (place (jhdr_size (js_jhdr s)) <$> tr_blocks (js_bufs s) tr);
}.

(** C12: The outermost journal_end_transaction gives up the lock and the active transaction.
    A transaction without blocks, or a small one that nobody waits for, is kept for the
    next change, and nothing else happens; any other is committed: what the log and the
    file system make together is then what they made before with its blocks, and its
    buffers are the cache's again, clean and not locked. *)
Theorem journal_end_transaction_correct s tr k front back last LS : jmem s k front back last LS -> (0 < k + length back)%nat ->
  building s tr -> js_nested_count s = 1 -> endable s tr last ->
  exists s', journal_end_transaction limit false s = Some (0, s') /\ js_owner s' = false /\ js_nested_count s' = 0 /\ js_active_tr s' = None /\
    (kept tr s = true /\ js_cur_tr s' = Some tr /\ jmem s' k front back last LS /\ resting s' \/
     kept tr s = false /\ js_cur_tr s' = None /\ (forall bp, js_bufs s' !! bp = if decide (bp ∈ tr_bps tr) then given_back <$> js_bufs s !! bp else js_bufs s !! bp) /\
       exists k' front' back', jmem s' k' front' back' (tr_sequence_num tr) (write_all (place (jhdr_size (js_jhdr s)) <$> tr_blocks (js_bufs s) tr) LS)).
Proof.
  intros Hm Hk [Hg Hlog Hv Ha [Ho Hnest] Hopen] Hone [Hbuf Htrim Habort Hcur Hseq Hord Hblocks]. unfold journal_end_transaction. rewrite Ho. cbn [negb].
  change (js_nested_count (with_owner (js_nested_count s - 1) true s)) with (js_nested_count s - 1). rewrite Hone. change (1 - 1) with 0. change (0 <? 0) with false. cbv iota.
  change (js_isset (with_owner 0 true s) JOURNAL_INVALID) with (js_isset s JOURNAL_INVALID). rewrite Hv.
  change (js_active_tr (with_owner 0 true s)) with (js_active_tr s). rewrite Ha. cbn [mbind option_bind].
  change (js_cur_tr (with_owner 0 true s)) with (js_cur_tr s). rewrite Hcur. set (s1 := with_trs None None (with_owner 0 true s)).
  destruct (kept tr s) eqn:Ekept.
  - assert (end_transaction limit false tr (tr_flush_on_completion tr) None s1 = Some (0, with_trs (Some tr) None s1)) as ->.
    { unfold end_transaction. change (js_cur_tr s1) with (@None transaction). cbn [is_some].
      change (js_jhdr s1) with (js_jhdr s). change (group_commit limit tr s1) with (group_commit limit tr s).
      unfold kept in Ekept. apply orb_true_iff in Ekept as [->|E]; [done|]. rewrite E. by destruct (tr_total_bytes tr =? _). }
    cbn [mbind option_bind]. eexists. split; [reflexivity|]. do 3 (split; [done|]). left. split; [done|]. split; [done|]. split; [by apply (jmem_ext s)|].
    by split.
  - destruct (Hblocks eq_refl) as [Hsome Hapart]. unfold kept in Ekept. apply orb_false_iff in Ekept as [E1 E2]. 
    assert (committable limit tr (tr_flush_on_completion tr) None s1 last) as Hc.
    { split; try done; [by apply tr_open_ready|]. change (group_commit limit tr s1) with (group_commit limit tr s). destruct (tr_flush_on_completion tr); [by left|by right]. }
    destruct (end_transaction_ok limit tr _ None s1 k front back last LS (jmem_ext s s1 _ _ _ _ _ Hm eq_refl eq_refl eq_refl eq_refl eq_refl eq_refl) Hc Hk)
      as (s2 & k2 & f2 & b2 & g & -> & Hm2 & _ & Hq & _). cbn [mbind option_bind]. exists (drop_lock s2). split; [done|].
    destruct (qt_owner _ _ Hq) as [Hq1 _]. destruct (qt_trs _ _ Hq) as [Hq2 Hq3]. split; [done|]. split; [exact Hq1|]. split; [exact Hq3|]. right.
    split; [done|]. split; [exact Hq2|]. split; [intros bp; rewrite <- lookup_released; f_equal; exact (qt_bufs _ _ Hq)|]. exists k2, f2, (b2 ++ [g]). by eapply jmem_ext.
Qed.
End End.
