(* ===== verification/JournalClose.v ===== *)
(** * Closing the journal (core/hfs_journal.c)

    journal_close commits the transaction that was kept, waits until all transactions are
    on the file system, and writes a header that says that the journal is empty.  The
    small functions that tell about the journal are here, too. *)

From S2P Require Import Prelude HfsFormat Bytes JournalTrim JournalIO JournalCoalesce CoalesceProps JournalReplay JournalIOProps JournalWriteProps ReplayProps ReplayLoop ReplayCorrect BlhdrOrder JournalTransaction JournalCommit LogProps CommitProps CopyProps SpaceProps FreeSpaceProps CommitLog CommitIssue EndTransactionProps RecoveryProps.

Definition EPERM : Z := 1.

(** ** What is told about the journal *)

Definition journal_request_immediate_flush (s : jstate) : Z * jstate :=
  match js_active_tr s with
  | Some tr =>
      (0, with_trs (js_cur_tr s)
            (Some (mkTrans (tr_tbuffer_size tr) (tr_blhdrs tr) (tr_total_bytes tr) (tr_num_flushed tr) (tr_num_killed tr) (tr_journal_start tr)
                     (tr_journal_end tr) (tr_sequence_num tr) (tr_trim tr) true)) s)
  | None => (EPERM, s)
  end.

Definition journal_active (s : jstate) : Z :=
  if js_isset s JOURNAL_INVALID then -1 else if is_some (js_active_tr s) then 1 else 0.

Definition journal_uses_fua (s : jstate) : Z := if js_isset s JOURNAL_DO_FUA_WRITES then 1 else 0.

(** The number of the transaction that a change is in, or will be in. *)
Definition journal_current_txn (s : jstate) : Z :=
  u32 (js_sequence_num s + (if is_some (js_active_tr s) || is_some (js_cur_tr s) then 0 else 1)).

(** ** journal_close *)

(** Waiting until all transactions are done, but not for ever. *)
Fixpoint wait_for_close (n : nat) (s : jstate) : option jstate :=
  if js_active_start s =? jh_end (js_jhdr s) then Some s else
  match n with
  | O => Some s
  | S n => s ← complete_io s; wait_for_close n s
  end.

Section Close.
Variable limit : Z.
Variable is_revoked : bool.

(** A valid journal. *)
Definition close_valid (s : jstate) : option jstate :=
  s ← (if is_some (js_active_tr s) then '(_, s) ← journal_end_transaction limit is_revoked s; Some s else Some s);
  s ← match js_cur_tr s return option jstate with
      | Some tr => '(_, s) ← end_transaction limit is_revoked tr true None (with_trs None (js_active_tr s) s); Some s
      | None => Some s
      end;
  s ← wait_for_close 5000 s;
  let s := set_start (js_active_start s) s in
  '(_, j) ← write_journal_header true (js_sequence_num s) (js_jnl s);
  Some (with_jnl j s).

(** A journal that is not valid any more. *)
Definition close_invalid (s : jstate) : option jstate :=
  match js_active_tr s, js_cur_tr s with
  | Some tr, None | None, Some tr => abort_transaction tr (with_trs None None s)
  | Some _, Some _ => None
  | None, None => Some s
  end.

(** What the journal was when it is freed.  A lock that is not held cannot be unlocked. *)
Definition journal_close (s : jstate) : option jstate :=
  let s := with_owner (js_nested_count s) true (js_setflag JOURNAL_CLOSE_PENDING s) in
  s ← (if js_isset s JOURNAL_INVALID then close_invalid s else close_valid s);
  s ← (if js_asyncIO s then complete_io s else Some s);
  if js_owner s then Some (drop_lock s) else None.
End Close.

(** ** The flag *)

Lemma closing_isset s flag : Z.land JOURNAL_CLOSE_PENDING flag = 0 -> ISSETJ (js_jnl (js_setflag JOURNAL_CLOSE_PENDING s)) flag = ISSETJ (js_jnl s) flag.
Proof. intros E. unfold ISSETJ, js_setflag. cbn [js_jnl with_jnl jn_flags with_flush]. by rewrite Z.land_lor_distr_l, E, Z.lor_0_r. Qed.

Lemma jmem_closing s k front back last LS : jmem s k front back last LS -> jmem (js_setflag JOURNAL_CLOSE_PENDING s) k front back last LS.
Proof.
  intros Hm. pose proof (jm_log _ _ _ _ _ _ Hm) as Hj.
  assert (same_shape (js_jnl s) (js_jnl (js_setflag JOURNAL_CLOSE_PENDING s))) as Hsh by (split; try done; by apply closing_isset).
  apply jmem_jnl; [done| |exact Hsh|done|done].
  apply (jlog_same (js_jnl s)); try done; try (by destruct Hj as [[] [] ? ? ? ? ? ? ? ? ?]).
  rewrite <- (jl_valid _ _ _ _ Hj). by apply closing_isset.
Qed.

Lemma committable_closing limit tr s last nested owner : committable limit tr true None (with_trs None None s) last ->
  committable limit tr true None (with_trs None None (with_owner nested owner (js_setflag JOURNAL_CLOSE_PENDING s))) last.
Proof. intros [[H1 H2] [] H4 H5 H6 H7 H8 H9 H10]. split; try done; by left. Qed.

(** ** The journal is empty *)

(** A transaction that is not done starts before the end of the journal. *)
Lemma flying_before_end s k front back last LS : jmem s k front back last LS -> js_asyncIO s = true -> js_active_start s <> jh_end (js_jhdr s).
Proof.
  intros Hm Ha. pose proof (jm_disk _ _ _ _ _ _ Hm) as Hd. unfold disk_ok in Hd. rewrite Ha in Hd. destruct Hd as (segs & g & f & Hsegs & -> & _).
  pose proof (jm_log _ _ _ _ _ _ Hm) as Hj. pose proof (jlog_geometry _ _ _ _ Hj) as [Hg _]. destruct Hj as [_ _ _ _ _ _ Hst _ Hs Hlt _]. rewrite Hsegs in Hs, Hlt.
  destruct (segs_split _ _ _ _ _ _ _ Hs) as (l1 & p1 & G1 & G2). inversion G2 as [|? ? ? ? ? ? ? ? Hsz He Hal Hr Hend]; subst. inversion Hend; subst.
  rewrite segs_size_app in Hlt. change (segs_size [g]) with (sg_size g + 0) in Hlt.
  destruct (segs_chain _ _ _ _ _ _ G1) as (_ & _ & Hnn & _). pose proof (segs_starts _ _ _ _ _ _ G2) as Hstarts.
  destruct (segs_bounds _ _ _ _ _ _ G1 Hst) as [Hp1 _]; [by eapply jl_whole, Hm|].
  intros Heq. unfold js_jhdr in Heq. pose proof Hg as [? ? ?]. assert (sg_start g = sg_end g) as E by congruence. rewrite <- E in Hr. revert Hr. unfold ring. zcases.
Qed.

Lemma wait_for_close_ok n s k front back last LS : jmem s k front back last LS ->
  exists s', wait_for_close (S n) s = Some s' /\ completes s s' k front back last LS /\ js_asyncIO s' = false.
Proof.
  intros Hm. cbn [wait_for_close]. destruct (Z.eqb_spec (js_active_start s) (jh_end (js_jhdr s))) as [E|_].
  - exists s. split; [done|]. split; [by apply completes_refl|]. destruct (js_asyncIO s) eqn:Ha; [|done]. by destruct (flying_before_end _ _ _ _ _ _ Hm Ha).
  - destruct (complete_io_ok _ _ _ _ _ _ Hm) as (s' & -> & Hc & Ha). cbn [mbind option_bind]. exists s'.
    pose proof (jm_disk _ _ _ _ _ _ (cp_mem _ _ _ _ _ _ _ Hc)) as Hd. unfold disk_ok in Hd. rewrite Ha in Hd. destruct Hd as (Hact & _).
    split; [|done]. destruct n; cbn [wait_for_close]; by rewrite Hact, Z.eqb_refl.
Qed.

(** The start is moved to the end and the header is written. *)
Lemma close_empty s k front back last LS : jmem s k front back last LS -> js_asyncIO s = false -> header_buffer_ok (js_jnl s) ->
  exists j, write_journal_header true (js_sequence_num s) (js_jnl (set_start (js_active_start s) s)) = Some (0, j) /\
    header_stored j /\ fsdev j = LS /\ jh_start (jhdr j) = jh_end (jhdr j).
Proof.
  intros Hm Ha Hbuf. pose proof (jm_disk _ _ _ _ _ _ Hm) as Hd. unfold disk_ok in Hd. rewrite Ha in Hd. destruct Hd as (Hact & _ & Hfs).
  pose proof (jm_log _ _ _ _ _ _ Hm) as Hj. rewrite <- (app_nil_r (front ++ back)) in Hj. destruct (jlog_drop _ _ _ _ _ Hj) as (start & last' & Hj' & _ & ->).
  rewrite Hact. change (js_jnl (set_start (jh_end (js_jhdr s)) s)) with (with_jhdr (set_range (jh_end (jhdr (js_jnl s))) (jh_end (jhdr (js_jnl s))) (jhdr (js_jnl s))) (js_jnl s)).
  set (j1 := with_jhdr _ _) in *. assert (header_buffer_ok j1) as Hbuf1 by by apply (header_buffer_same (js_jnl s)).
  destruct (write_journal_header_ok true (js_sequence_num s) j1 (jl_dev _ _ _ _ Hj') (jl_io _ _ _ _ Hj') Hbuf1) as (j & E & Hw).
  exists j. split; [done|]. split; [by apply (jlog_header _ _ _ _ _ _ Hj' Hbuf1 Hw)|]. destruct Hw as [(d & n & ->) _]. done.
Qed.

(** Nothing is replayed. *)
Lemma replay_empty b s fuel : jh_start (js_jhdr s) = jh_end (js_jhdr s) ->
  exists j', replay_journal b (crashed s) fuel = Some (0, j') /\ fsdev j' = fsdev (js_jnl s).
Proof. intros E. unfold replay_journal, wrap_range. cbn. unfold js_jhdr in E. rewrite E, Z.eqb_refl. by eexists. Qed.

(** C14: journal_close, when no transaction is active and the devices have no errors
    ([jmem]), commits the transaction that was kept, waits until all blocks are on the
    file system, and leaves an empty journal: the header on the device is that in
    memory, its start is its end, and replaying it changes nothing. *)
Theorem journal_close_correct limit s k front back last LS : jmem s k front back last LS -> header_buffer_ok (js_jnl s) -> js_active_tr s = None ->
  (0 < k + length back)%nat -> (forall tr, js_cur_tr s = Some tr -> committable limit tr true None (with_trs None None s) last) ->
  let LS' := match js_cur_tr s with Some tr => write_all (place (jhdr_size (js_jhdr s)) <$> tr_blocks (js_bufs s) tr) LS | None => LS end in
  exists s', journal_close limit false s = Some s' /\ js_cur_tr s' = None /\ js_owner s' = false /\ fsdev (js_jnl s') = LS' /\
    header_stored (js_jnl s') /\ jh_start (js_jhdr s') = jh_end (js_jhdr s') /\
    forall b fuel, exists j', replay_journal b (crashed s') fuel = Some (0, j') /\ fsdev j' = LS'.
Proof.
  intros Hm Hbuf Hact Hk Hc LS'. unfold journal_close. set (s0 := with_owner _ _ _).
  assert (jmem s0 k front back last LS) as Hm0 by (eapply jmem_ext; [by apply jmem_closing|done..]).
  rewrite (jl_valid _ _ _ _ (jm_log _ _ _ _ _ _ Hm0) : js_isset s0 JOURNAL_INVALID = false). unfold close_valid.
  change (js_active_tr s0) with (js_active_tr s). rewrite Hact. cbn [is_some mbind option_bind].
  assert (exists s1 k1 f1 b1 l1, match js_cur_tr s0 return option jstate with
      | Some tr => '(_, s) ← end_transaction limit false tr true None (with_trs None (js_active_tr s0) s0); Some s
      | None => Some s0 end = Some s1 /\ jmem s1 k1 f1 b1 l1 LS' /\ js_cur_tr s1 = None /\ js_owner s1 = true /\ header_buffer_ok (js_jnl s1))
    as (s1 & k1 & f1 & b1 & l1 & E1 & Hm1 & Hcur1 & Ho1 & Hb1).
  { subst LS'. change (js_cur_tr s0) with (js_cur_tr s). destruct (js_cur_tr s) as [tr|] eqn:Ecur.
    - change (js_active_tr s0) with (js_active_tr s). rewrite Hact.
      assert (jmem (with_trs None None s0) k front back last LS) as Hm2 by by apply (jmem_ext s0).
      destruct (end_transaction_ok limit tr true None (with_trs None None s0) k front back last LS Hm2 (committable_closing _ _ _ _ _ _ (Hc tr eq_refl)) Hk)
        as (s1 & k1 & f1 & b1 & g & -> & Hm1 & _ & Hq & _). exists s1, k1, f1, (b1 ++ [g]), (tr_sequence_num tr). split; [done|]. split; [exact Hm1|].
      split; [exact (proj1 (qt_trs _ _ Hq))|]. split; [exact (proj2 (qt_owner _ _ Hq))|]. eapply quiet_buffer; [exact Hq|]. destruct Hbuf. by split.
    - exists s0, k, front, back, last. split; [done|]. split; [done|]. split; [done|]. split; [done|]. destruct Hbuf. by split. }
  rewrite E1. cbn [mbind option_bind]. destruct (wait_for_close_ok 4999 s1 k1 f1 b1 l1 LS' Hm1) as (s2 & E2 & [Hf2 Hm2 _] & Ha2).
  change (S 4999) with 5000%nat in E2. rewrite E2. cbn [mbind option_bind]. destruct (frame_quiet _ _ Hf2) as (Hq2 & _).
  destruct (close_empty s2 _ _ _ _ _ Hm2 Ha2 (quiet_buffer _ _ Hq2 Hb1)) as (j & E3 & Hst & Hfs & Hse).
  change (js_sequence_num (set_start _ s2)) with (js_sequence_num s2). rewrite E3. cbn [mbind option_bind].
  change (js_asyncIO (with_jnl j _)) with (js_asyncIO s2). rewrite Ha2. cbn [mbind option_bind].
  change (js_owner (with_jnl j _)) with (js_owner s2). rewrite (proj2 (qt_owner _ _ Hq2)), Ho1.
  eexists. split; [reflexivity|]. split; [cbn; rewrite <- Hcur1; exact (proj1 (qt_trs _ _ Hq2))|]. split; [done|]. split; [exact Hfs|]. split; [exact Hst|]. split; [exact Hse|].
  intros b fuel. destruct (replay_empty b (drop_lock (with_jnl j (set_start (js_active_start s2) s2))) fuel Hse) as (j' & Er & Efs). exists j'. split; [exact Er|]. rewrite Efs. exact Hfs.
Qed.
