(* ===== verification/TransactionExample.v ===== *)
(** * Transactions of a small journal

    The journal of ReplayExample with its first transaction in the log, whose block is on
    the file system; the next one has a block, and is written over what is behind the end
    of the log, at the start of the ring. *)

From S2P Require Import Prelude HfsFormat Bytes JournalTrim JournalIO JournalCoalesce CoalesceProps JournalReplay JournalIOProps JournalWriteProps ReplayProps ReplayLoop ReplayCorrect BlhdrOrder ReplayExample JournalTransaction JournalCommit LogProps CommitProps CopyProps SpaceProps FreeSpaceProps CommitLog CommitIssue EndTransactionProps RecoveryProps TransactionProps EndCallProps JournalClose.

Definition tx_log : list (Z * block_list_header) := [(640, ex_blhdr1)].
Definition tx_seg : seg := mkSeg 640 768 tx_log.
Definition tx_fs : gmap Z Z := apply_writes ex_journal (log_writes ex_journal tx_log) (fsdev ex_journal).

(** Transactions are not kept. *)
Definition tx_journal : journal := with_flush JOURNAL_NO_GROUP_COMMIT 0 0 (with_fsdev tx_fs [] ex_journal).

Definition tx_buf (blkno first n : Z) (delwri : bool) : buf := mkBuf FsDevice 0 blkno blkno (ex_data first n) None true true delwri false.

(** One buffer is in the transaction, another will be. *)
Definition tx_bufs : gmap Z buf := <[0x100 := tx_buf 5 1 64 true]> (<[0x300 := tx_buf 8 90 128 false]> ∅).

Definition tx_blhdr : tr_blhdr := mkTblhdr 0x1000 3 128 3 [mkTinfo 5 (UBuf 0x100)] (replicate 128 0).
Definition tx_tr : transaction := mkTrans 192 [tx_blhdr] 128 0 0 0 0 42 (mkTrim 0 []) false.

Definition tx_state (cur active : option transaction) (nested : Z) (owner : bool) : jstate :=
  mkJstate tx_journal 192 false false None 41 42 cur [] active nested owner 768 (replicate 15 0 ++ [640]) false None tx_bufs [] [] 0x1040.

(** ** The journal *)

Lemma tx_shape : log_shape (jhdr tx_journal).
Proof. split; [by split|divide 1|reflexivity|by vm_compute|reflexivity|reflexivity]. Qed.

Lemma tx_device_ok : device_ok tx_journal.
Proof. destruct ex_device_ok as [? ? ? ? ? ?]. by split. Qed.

Lemma tx_same : same_shape ex_journal tx_journal.
Proof. by split. Qed.

Lemma tx_segs : segs_ok tx_journal 0 640 [tx_seg] 41 768.
Proof.
  apply (SegsNext tx_journal 0 tx_seg 41); cbn [tx_seg sg_start sg_end sg_log]; unfold sg_size; cbn [sg_log].
  - change (ring (jhdr tx_journal) 640) with 640. apply (ChainNext tx_journal true 0 640 ex_blhdr1 41); [|reflexivity|done|reflexivity|constructor].
    apply (header_ok_same ex_journal tx_journal tx_same true); [exact ex_geometry|by split|reflexivity|reflexivity|done|exact ex_header1_ok].
  - apply Forall_cons. split; [reflexivity|by apply Forall_nil].
  - reflexivity.
  - by split.
  - exists 12. reflexivity.
  - reflexivity.
  - constructor.
Qed.

Lemma tx_jlog : jlog tx_journal [tx_seg] 41 tx_fs.
Proof.
  split; [exact tx_device_ok|split; [reflexivity|left; divide 2]|done|exact tx_shape|reflexivity|reflexivity|by split|divide 10|exact tx_segs|reflexivity|].
  - intros x p E. unfold tx_fs. rewrite lookup_apply_writes.
    + assert (last_write ex_journal (log_writes ex_journal tx_log) x = Some p) as -> by exact E. done.
    + apply Forall_cons. split; [done|by apply Forall_nil].
Qed.

Lemma tx_jmem cur active nested owner : jmem (tx_state cur active nested owner) 15 [] [tx_seg] 41 tx_fs.
Proof.
  split; [exact tx_jlog| |by split|done]. exists [640]. split; [done|]. change 640 with (sg_start tx_seg). apply OldsNext. constructor.
Qed.

(** ** The transaction *)

Lemma tx_block num n k first delwri : 0 <= num <= 100 -> n = k * 64 -> 0 < k < 11 -> bufferable (jhdr tx_journal) (tx_buf num first n delwri).
Proof.
  intros Hn -> Hk. split; [done|cbn; lia| |done]. exists num. intros bp. split; [done|].
  assert (buf_size (tx_buf num first (k * 64) delwri) = k * 64) as -> by (unfold buf_size, tx_buf, ex_data; cbn [bf_data]; rewrite length_fmap, length_seqZ; lia).
  by apply (ex_block_ok num (k * 64) k).
Qed.

Lemma tx_open : tr_open (jhdr tx_journal) tx_bufs tx_tr.
Proof.
  split; try (vm_compute; done).
  - apply Forall_cons. split; [|by apply Forall_nil]. split; try (vm_compute; done). apply Forall_cons. split; [|by apply Forall_nil].
    destruct (tx_block 5 64 1 1 true) as [? ? (blk & Hblk) ?]; [lia|done|lia|]. destruct (Hblk 0x100). by apply (ReadyBuf _ _ _ _ (tx_buf 5 1 64 true) blk).
  - apply NoDup_singleton.
Qed.

Lemma tx_ready : tr_ready (jhdr tx_journal) tx_bufs tx_tr.
Proof.
  apply tr_open_ready; [exact tx_open|by vm_compute|]. intros i k x y Hi Hk Hne. exfalso. apply Hne.
  apply lookup_lt_Some in Hi, Hk. change (length _) with 1%nat in Hi, Hk. lia.
Qed.

Lemma tx_buffer_ok : header_buffer_ok tx_journal.
Proof. destruct ex_buffer_ok. by split. Qed.

Lemma tx_committable cur active nested owner : cur = None -> committable 240 tx_tr true None (tx_state cur active nested owner) 41.
Proof. intros ->. split; [exact tx_buffer_ok|exact tx_ready|done|done|done|by left|done|by split|done]. Qed.

Lemma tx_building : building (tx_state None (Some tx_tr) 1 true) tx_tr.
Proof. split; [exact ex_geometry|exact tx_shape|done|done|by split|exact tx_open]. Qed.

(** ** The theorems for it *)

Lemma check_free_space_correct_witness : exists write s' k' front' back' last', check_free_space 600 true 41 (tx_state None None 0 false) = Some (write, s') /\
  600 < free_space (js_jhdr s') /\ js_old_start s' !! 0%nat = Some 0 /\ jmem s' k' front' back' last' tx_fs /\
  front' ++ back' `suffix_of` [tx_seg] /\ (last' = 41 \/ last' = 0) /\ (write = false -> js_jhdr s' = js_jhdr (tx_state None None 0 false)) /\ jh_end (js_jhdr s') = 768.
Proof. apply (check_free_space_correct 600 41 (tx_state None None 0 false) 15 [] [tx_seg] 41 tx_fs); [apply tx_jmem|cbn; lia|reflexivity]. Defined.

Lemma end_transaction_durable_witness :
  let s := tx_state None None 0 false in
  let LS' := write_all (place 64 <$> tr_blocks tx_bufs tx_tr) tx_fs in
  exists s' k' front' back', end_transaction 240 false tx_tr true None s = Some (0, s') /\ jmem s' k' front' back' 42 LS' /\
    forall s2 p fuel, completing s' s2 -> ends_there (js_jnl s2) 42 -> 0 <= p -> (length (segs_log (front' ++ back')) + 1 < fuel)%nat ->
      exists j', replay_journal (2 ^ p) (crashed s2) fuel = Some (0, j') /\ fsdev j' = LS'.
Proof. apply (end_transaction_durable 240 tx_tr true None (tx_state None None 0 false) 15 [] [tx_seg] 41 tx_fs); [apply tx_jmem|by apply tx_committable|cbn; lia]. Defined.

Lemma journal_flush_correct_witness : exists s' k' front' back', journal_flush 240 false true (tx_state (Some tx_tr) None 0 false) = Some (0, s') /\
  js_cur_tr s' = None /\ js_asyncIO s' = false /\ fsdev (js_jnl s') = write_all (place 64 <$> tr_blocks tx_bufs tx_tr) tx_fs /\
  jmem s' k' front' back' 42 (fsdev (js_jnl s')).
Proof. apply (journal_flush_correct 240 tx_tr (tx_state (Some tx_tr) None 0 false) 15 [] [tx_seg] 41 tx_fs); [apply tx_jmem|done|done|by apply (tx_committable None)|cbn; lia]. Defined.

Lemma journal_close_correct_witness :
  let LS' := write_all (place 64 <$> tr_blocks tx_bufs tx_tr) tx_fs in
  exists s', journal_close 240 false (tx_state (Some tx_tr) None 0 false) = Some s' /\ js_cur_tr s' = None /\ js_owner s' = false /\ fsdev (js_jnl s') = LS' /\
    header_stored (js_jnl s') /\ jh_start (js_jhdr s') = jh_end (js_jhdr s') /\
    forall b fuel, exists j', replay_journal b (crashed s') fuel = Some (0, j') /\ fsdev j' = LS'.
Proof.
  apply (journal_close_correct 240 (tx_state (Some tx_tr) None 0 false) 15 [] [tx_seg] 41 tx_fs); [apply tx_jmem|exact tx_buffer_ok|done|cbn; lia|].
  intros tr Htr. injection Htr as <-. by apply (tx_committable None).
Defined.

(** The second buffer needs another header. *)
Lemma journal_modify_block_end_correct_witness :
  let s := tx_state None (Some tx_tr) 1 true in
  exists s' tr', journal_modify_block_end 0x300 None s = Some (0, s') /\ building s' tr' /\
    tr_blocks (js_bufs s') tr' = tr_blocks tx_bufs tx_tr ++
      (if decide (0x300 ∈ tr_bps tx_tr) then [] else default [] ((fun x => [x]) <$> buf_block 0x300 (tx_buf 8 90 128 false))) /\
    tr_bps tr' = (if decide (0x300 ∈ tr_bps tx_tr) then tr_bps tx_tr else tr_bps tx_tr ++ [0x300]) /\
    (if decide (0x300 ∈ tr_bps tx_tr) then tr_blhdrs tr' = tr_blhdrs tx_tr
     else exists pre hd hd', header_for (js_jnl s) (tx_buf 8 90 128 false) tx_tr pre hd /\ one_more 0x300 (tx_buf 8 90 128 false) hd hd' /\ tr_blhdrs tr' = pre ++ [hd']).
Proof.
  apply (journal_modify_block_end_correct 0x300 None (tx_state None (Some tx_tr) 1 true) tx_tr (tx_buf 8 90 128 false)); [exact tx_building|reflexivity|reflexivity| |by split].
  by apply (tx_block 8 128 2).
Defined.

Lemma journal_kill_block_correct_witness :
  let s := tx_state None (Some tx_tr) 1 true in
  exists s' tr', journal_kill_block 0x100 s = Some (0, s') /\ building s' tr' /\ tr_bps tr' = filter (fun p => p <> 0x100) (tr_bps tx_tr) /\
    tr_blocks (js_bufs s') tr' = omap (block_of tx_bufs) (tr_bps tr') /\ tr_num_killed tr' = tr_num_killed tx_tr + buf_size (tx_buf 5 1 64 true) /\
    tr_total_bytes tr' = tr_total_bytes tx_tr /\ js_bufs s' = <[0x100 := buf_markinvalid (buf_setlocked false (tx_buf 5 1 64 true))]> tx_bufs.
Proof.
  apply (journal_kill_block_correct 0x100 (tx_state None (Some tx_tr) 1 true) tx_tr (tx_buf 5 1 64 true)); [exact tx_building|reflexivity|by apply list_elem_of_singleton].
Defined.

Lemma journal_start_transaction_correct_witness :
  let s := tx_state (Some tx_tr) None 0 false in
  exists s' tr, journal_start_transaction s = Some (0, s') /\ building s' tr /\ js_nested_count s' = 1 /\ js_cur_tr s' = None /\
    (js_cur_tr s = Some tr \/ js_cur_tr s = None /\ tr_bps tr = [] /\ tr_sequence_num tr = u32 (js_sequence_num s + 1)) /\
    journal_start_transaction s' = Some (0, with_owner 2 true s').
Proof.
  apply (journal_start_transaction_correct (tx_state (Some tx_tr) None 0 false)).
  split; [exact ex_geometry|exact tx_shape|done|done|done|exact tx_open].
Defined.

Lemma journal_end_transaction_correct_witness :
  let s := tx_state None (Some tx_tr) 1 true in
  exists s', journal_end_transaction 240 false s = Some (0, s') /\ js_owner s' = false /\ js_nested_count s' = 0 /\ js_active_tr s' = None /\
    (kept 240 tx_tr s = true /\ js_cur_tr s' = Some tx_tr /\ jmem s' 15 [] [tx_seg] 41 tx_fs /\ resting s' \/
     kept 240 tx_tr s = false /\ js_cur_tr s' = None /\ (forall bp, js_bufs s' !! bp = if decide (bp ∈ tr_bps tx_tr) then given_back <$> tx_bufs !! bp else tx_bufs !! bp) /\
       exists k' front' back', jmem s' k' front' back' 42 (write_all (place 64 <$> tr_blocks tx_bufs tx_tr) tx_fs)).
Proof.
  apply (journal_end_transaction_correct 240 (tx_state None (Some tx_tr) 1 true) tx_tr 15 [] [tx_seg] 41 tx_fs); [apply tx_jmem|cbn; lia|exact tx_building|done|].
  split; [exact tx_buffer_ok|done|done|done|by split|done|]. intros _. by destruct tx_ready.
Defined.

(** ** Runs *)

(** The transaction is committed, one block of it is written, and the machine stops:
    replaying gives block 5 as the transaction has it, and the rest as it was. *)
Definition tx_show (j : journal) : list (option Z) := (fun x => fsdev j !! x) <$> [319; 320; 383; 384].

Definition tx_change (bp : Z) (s : jstate) : option jstate :=
  '(_, s) ← journal_modify_block_start None bp s; '(_, s) ← journal_modify_block_end bp None s; Some s.

Definition tx_run : option jstate :=
  '(_, s) ← journal_start_transaction (with_sequence 41 41 (tx_state None None 0 false));
  s ← tx_change 0x300 s;
  '(_, s) ← journal_end_transaction 240 false s;
  Some s.

Example tx_run_end : (fun s => (jh_start (js_jhdr s), jh_end (js_jhdr s), js_old_start s !! 15%nat, js_asyncIO s, (fun x => fsdev (js_jnl s) !! x) <$> [512; 639])) <$> tx_run =
  Some (640, 256, Some (Z.lor 768 OLD_MARK), true, [Some 33; None]).
Proof. vm_compute. reflexivity. Qed.

Example tx_run_replay : (s ← tx_run; '(r, j) ← replay_journal 4096 (crashed s) 10; Some (r, (fun x => fsdev j !! x) <$> [511; 512; 639; 640], jh_start (jhdr j))) =
  Some (0, [Some 33; Some 90; Some 217; None], 256).
Proof. vm_compute. reflexivity. Qed.

(** The block of the transaction is killed, and the transaction ends. *)
Definition tx_killed : option jstate :=
  '(_, s) ← journal_kill_block 0x100 (tx_state None (Some tx_tr) 1 true); snd <$> journal_end_transaction 240 false s.
Definition tx_stuck : jstate := default (tx_state None None 0 false) tx_killed.

(** C19: There is a state of the journal in memory, in keeping with its log and with a
    transaction that is built ([jmem], [building]), in which the only block of the
    transaction is killed before the end: the transaction is committed, but nothing of
    it is written to the file system, so that no completion ever says that it is done;
    its entry in old_start stays marked, and check_free_space panics when it needs the
    room, although no write is under way and the empty journal has room enough. *)
Theorem killed_transaction_stuck : exists s tr k front back last LS s', jmem s k front back last LS /\ building s tr /\ tr_bps tr = [0x100] /\
  ('(_, s) ← journal_kill_block 0x100 s; snd <$> journal_end_transaction 240 false s) = Some s' /\
  js_asyncIO s' = false /\ marked <$> js_old_start s' !! 15%nat = Some true /\
  600 < jh_size (js_jhdr s') - jhdr_size (js_jhdr s') /\ check_free_space 600 true 42 s' = None.
Proof.
  exists (tx_state None (Some tx_tr) 1 true), tx_tr, 15%nat, [], [tx_seg], 41, tx_fs, tx_stuck.
  split; [apply tx_jmem|]. split; [exact tx_building|]. do 2 (split; [vm_compute; reflexivity|]). by vm_compute.
Qed.
